(* ===== verification/_CoqProject ===== *)
-Q . S2P
Prelude.v
Mem.v
MemList.v
Spinlock.v
BuddySpec.v
Buddy.v
BuddyProof.v
BuddyThms.v
BlockAlloc.v
Slab.v
SlabProof.v
SlabLife.v
SlabCreate.v
SlabThms.v
SlabClient.v
Kalloc.v
Sleeplock.v
ObjCache.v
Bio.v
BioProof.v
BioThms.v
SlabCache.v
Log.v
LogSpec.v
LogProof.v
LogThms.v
Ulib.v
Grep.v
Sh.v
ShSpec.v
ShProof.v
ShParse.v
ShThms.v
Vm.v
VmProof.v
VmUser.v
VmThms.v
VmCopy.v
Umalloc.v
UmallocProof.v
UmallocThms.v
Pipe.v
Console.v
Virtio.v
VirtioProof.v
VirtioInv.v
VirtioSteps.v
VirtioThms.v
BlockStore.v
LogStore.v
Fs.v
FsBytes.v
FsAlloc.v
FsFile.v
FsRw.v
FsThms.v
FsCrash.v
FsDemo.v
FsDir.v
File.v
FileThms.v
FileDemo.v
Sysfile.v
SysfileProof.v
SysfileThms.v
SysfileDemo.v
Proc.v
ProcView.v
ProcOps.v
ProcSys.v
ProcRun.v
ProcThms.v
Exec.v
ExecSpace.v
ExecProof.v
ExecStack.v
ExecThms.v
ExecDemo.v
Printf.v
