(* ===== verification/Prelude.v ===== *)
(** * A verification of the xv6 kernel with a buddy and a slab allocator

    The program (src/xv6-riscv-riscv) is the xv6 teaching kernel for RISC-V,
    with a buddy allocator and a slab allocator added below its tables, and
    its user programs.  This library translates the C functions into Rocq
    definitions of the same names and proves what they guarantee.

    ** How the code is modelled

    A function of the kernel is a computation [M S A]: it takes a state [S]
    and gives an [outcome], which is a result and a state, a [Panic], a
    [Fault] (an access C does not allow: null, out of bounds, signed
    overflow), [Blocked] (it waits for another hart or process) or
    [OutOfFuel].  Loops that are not structural take a fuel argument; the
    callers pass a bound that the theorems show to be enough, so a theorem
    stated with [wp] (the code returns, and what it returns is right) also
    says that the loops end.  [wlp] (if it returns) is used only for the
    process table and the descriptors, where the claim is an invariant;
    [kexec] is shown to fail only as its calls of the file system can.  Machine
    integers are [Z] with their wrap-around written out ([u32], [u64],
    [s32]); memory is a map from addresses to bytes (Mem.v), in which structs are laid out at their C
    offsets wherever the code depends on the layout; elsewhere a struct is a
    record, an array a list, and a pointer to a table entry its index.
    Spinlocks and interrupt nesting are part of the state of the routines
    that use them ([HasMach], Spinlock.v).

    ** The parts, and the files that model them

    - kernel/string.c: Mem.v ([memset], [memmove], ...); MemList.v has the
      linked lists threaded through memory.
    - kernel/spinlock.c: Spinlock.v; Module Interleaving runs [acquire] and
      [release] of many harts instruction by instruction.
    - kernel/sleeplock.c: Sleeplock.v; Module Waiters interleaves it with
      [sleep] and [wakeup].
    - kernel/buddy.c: Buddy.v, its contract BuddySpec.v, the refinement
      BuddyProof.v, and BuddyThms.v.
    - kernel/slab.c: Slab.v over the interface BlockAlloc.v, which the buddy
      allocator implements; SlabProof.v, SlabLife.v, SlabCreate.v,
      SlabThms.v; SlabClient.v runs arbitrary programs that use a cache.
      ObjCache.v is what clients of one cache rely on.
    - kernel/kalloc.c: Kalloc.v.
    - kernel/vm.c: Vm.v; VmProof.v (page tables as maps), VmUser.v (user
      address spaces), VmThms.v, VmCopy.v ([copyin], [copyout]).
    - kernel/bio.c: Bio.v over ObjCache.v; BioProof.v, BioThms.v; SlabCache.v
      composes it with the slab and the buddy allocator.
    - kernel/virtio_disk.c: Virtio.v, by critical sections, with the device's
      side of the rings; VirtioProof.v (what a section does), VirtioInv.v (the
      invariant), VirtioSteps.v, VirtioThms.v.
    - kernel/log.c: Log.v over Bio.v; LogSpec.v (recovery and commit as
      functions on disks), LogProof.v, LogThms.v.
    - kernel/fs.c: Fs.v over the interface BlockStore.v, which LogStore.v
      implements with the buffer cache and the log; FsBytes.v, FsAlloc.v (the
      bitmap), FsFile.v and FsRw.v (files as lists of bytes), FsThms.v,
      FsCrash.v (system calls and crashes), FsDemo.v (a concrete disk),
      FsDir.v (directories).
    - kernel/file.c: File.v over the interface [FileDev] (file cache, pipes,
      devices); FileThms.v ([filewrite]); FileDemo.v connects it to Pipe.v and
      Console.v.
    - kernel/sysfile.c, the argument routines of kernel/syscall.c and what
      [kfork] and [kexit] do to open files: Sysfile.v over File.v and Fs.v;
      SysfileProof.v (counting descriptors), SysfileThms.v, SysfileDemo.v.
    - kernel/pipe.c: Pipe.v, with its readers and writers interleaved;
      [pipealloc] is in Sysfile.v.
    - kernel/proc.c: Proc.v; ProcView.v and ProcOps.v (what each routine does
      to the process table), ProcSys.v (the invariant), ProcRun.v (harts,
      scheduler and steps), ProcThms.v.
    - kernel/exec.c, and [fetchaddr], [fetchstr] and [sys_exec] as they meet
      user memory: Exec.v over Vm.v and Fs.v; ExecSpace.v (the address space
      of a process), ExecProof.v (loading the segments), ExecStack.v (the
      argument strings), ExecThms.v, ExecDemo.v (a concrete program).
    - kernel/console.c: Console.v.
    - kernel/printf.c and user/printf.c: Printf.v, against one reference.
    - user/ulib.c, user/grep.c, user/sh.c: Ulib.v, Grep.v; Sh.v with its
      specification ShSpec.v, ShProof.v, ShParse.v, ShThms.v.
    - user/umalloc.c, down to [sys_sbrk] and [growproc]: Umalloc.v,
      UmallocProof.v (the circular free list), UmallocThms.v.

    ** What the theorems show

    - Allocators: the buddy allocator refines an abstract allocator of
      aligned runs; the slab allocator hands out objects nobody holds, keeps
      live objects apart, never writes into them and conserves memory; pages
      of kalloc are never shared or lost.
    - Memory: page tables behave as maps; [uvmalloc] is all or nothing;
      [uvmfree] returns every page once; [copyin] reads what [copyout] wrote.
    - Storage: the buffer cache is transparent; a transaction of the log is
      atomic across crashes at any disk write, also during recovery; [writei]
      and [readi] on a file are a splice and a slice of its bytes; a write as
      a system call is both at once; directories are maps from names to
      inodes.  The buffer cache on slab memory still is transparent, boots,
      and its buffers lie apart in that memory.  The memory a write takes its
      bytes from may fail after a part of a piece, as [copyin] does between
      two pages: the theorems name the one block ([torn_by]) whose buffer then
      has bytes that are not logged.
    - Disk driver: in every interleaving of processes, interrupts and the
      device a request is one atomic read or write of its block, or fails; the
      driver panics exactly when the device has reported an error; as long as
      it has not, all requests can be completed.
    - Files: [filewrite] writes a prefix of its bytes whatever crashes; the
      count of an open file is the number of descriptors that hold it, after
      any calls, forks and exits; [dup] takes the lowest free descriptor.
    - Processes: in every interleaving of the harts from [swtch] to [swtch],
      the process table is sound and no wakeup of a waiting parent is lost;
      spinlocks and sleeplocks exclude; pipes deliver bytes in order, without
      lost wakeups unless a writer is killed.
    - Exec: whatever file it is given, [kexec] either leaves the process and
      every other page as they were, or gives the process a new address space
      with its arguments on the stack; no page is lost or shared, and it has
      no panic of its own.
    - Console and formatted output: the console's ring buffer is a line
      editor; both printfs print the text of their format.
    - User programs: grep's matcher decides the language of its pattern and
      grep prints the matching lines of a file whose lines fit its buffer; the
      shell's parser inverts the printer of its grammar and agrees with a
      reference parser on every line; [malloc] of less than two gigabytes and
      [free] keep live blocks apart and never touch them.
    - Defects: theorems that exhibit what the code does on inputs it
      mishandles ([buddy_init_non_power_of_two],
      [buddy_alloc_reads_past_free_list], [log2_ceil_diverges],
      [kmalloc_fails_above_32768], [kill_zero_kills_next_child],
      [malloc_huge_faults], and [killed_writer_strands_reader] of Pipe.v).

    ** Bounds

    Fuel is derived from the data: a list's length, a number of pages or
    bytes, the height 3 of a page table, 17 orders of the buddy allocator.
    Tables have their C sizes (NPROC 64, NOFILE 16, NINODE 50, LOGBLOCKS 30,
    8 disk descriptors).  The user allocator is given a heap below 2^35 bytes,
    so that its unit counts fit in 32 bits, and requests up to 2^31 - 32.

    ** Granularity

    Sequential routines run on one hart with their locks in the state.
    Interleavings are modelled where a component depends on them: instruction
    by instruction for spinlocks, by critical sections for sleeplocks, pipes
    and the disk driver, from one [swtch] to the next for processes, and by
    whole calls for descriptors.  Below the file system a disk request is one
    atomic step, which is what the disk driver's theorem gives.

    ** Not modelled

    Assembly (entry.S, swtch.S, trampoline.S, kernelvec.S), the serial port
    and the interrupt controller (uart.c, plic.c), traps and start-up (trap.c,
    start.c, main.c): privileged registers.  The disk device is described by
    what the virtio specification lets it do with a request: complete it, in
    any order, with VIRTIO_BLK_S_OK, IOERR or UNSUPP, a failed request leaving
    arbitrary data where it should have transferred.  The calls of sysproc.c that
    only pass their arguments on; the printing functions of the allocators;
    the user programs and tests other than those above, which only make system
    calls.
*)

From Stdlib Require Import ZArith Lia Bool String.
From stdpp Require Import base gmap list strings.

#[global] Open Scope Z_scope.

(** ** Outcomes and the state monad *)

(** What running a piece of kernel code can do. [Panic] is a call of
    [panic()], which never returns; [Fault] is an access the C code has no
    right to make (a null dereference, an index outside its array);
    [Blocked] is a wait for another hart or process ([acquire] of a held
    lock, [sleep]); [OutOfFuel] is a loop that did not finish within the
    bound its definition gives it. *)
Inductive outcome (A : Type) :=
  | Ret (a : A)
  | Panic (msg : string)
  | Fault (why : string)
  | Blocked (why : string)
  | OutOfFuel.
Arguments Ret {A} a.
Arguments Panic {A} msg.
Arguments Fault {A} why.
Arguments Blocked {A} why.
Arguments OutOfFuel {A}.

Definition M (S A : Type) : Type := S -> outcome (A * S).

#[global] Instance M_ret S : MRet (M S) := fun A a s => Ret (a, s).

#[global] Instance M_bind S : MBind (M S) := fun A B k c s =>
  match c s with
  | Ret (a, s') => k a s'
  | Panic msg => Panic msg
  | Fault why => Fault why
  | Blocked why => Blocked why
  | OutOfFuel => OutOfFuel
  end.

Definition panic {S A} (msg : string) : M S A := fun _ => Panic msg.
Definition fault {S A} (why : string) : M S A := fun _ => Fault why.
Definition blocked {S A} (why : string) : M S A := fun _ => Blocked why.
Definition out_of_fuel {S A} : M S A := fun _ => OutOfFuel.
Definition get {S} : M S S := fun s => Ret (s, s).
Definition put {S} (s : S) : M S unit := fun _ => Ret (tt, s).
Definition gets {S A} (f : S -> A) : M S A := fun s => Ret (f s, s).
Definition modify {S} (f : S -> S) : M S unit := fun s => Ret (tt, f s).

(** A pure result that may have run out of its loop bound. *)
Definition of_opt {S A} (o : option A) : M S A :=
  match o with Some a => mret a | None => out_of_fuel end.

(** Run a computation over a part of the state. *)
Definition zoom {S T A} (g : S -> T) (p : T -> S -> S) (c : M T A) : M S A :=
  fun s => match c (g s) with
           | Ret (a, t) => Ret (a, p t s)
           | Panic msg => Panic msg
           | Fault why => Fault why
           | Blocked why => Blocked why
           | OutOfFuel => OutOfFuel
           end.

(** Array accesses with the bounds C leaves to the programmer. *)
Definition arr_get {S A} (l : list A) (i : Z) : M S A :=
  if (0 <=? i) && (i <? Z.of_nat (length l)) then
    match l !! Z.to_nat i with Some x => mret x | None => fault "index" end
  else fault "index".

Definition arr_set {A} (l : list A) (i : Z) (x : A) : option (list A) :=
  if (0 <=? i) && (i <? Z.of_nat (length l)) then Some (<[Z.to_nat i := x]> l)
  else None.

Definition of_arr {S A} (o : option A) : M S A :=
  match o with Some a => mret a | None => fault "index" end.

(** Weakest preconditions: [c] returns from [s], and its result and final
    state satisfy [Q].  A panic, fault, wait or exhausted bound satisfies
    no postcondition. *)
Definition wp {S A} (c : M S A) (Q : A -> S -> Prop) (s : S) : Prop :=
  match c s with Ret (a, s') => Q a s' | _ => False end.

Section Wp.
Context {S : Type}.

Lemma wp_run {A} (c : M S A) Q s :
  wp c Q s <-> exists a s', c s = Ret (a, s') /\ Q a s'.
Proof.
  unfold wp. split.
  - destruct (c s) as [[a s']| | | |]; try done. eauto.
  - intros (a & s' & -> & H). done.
Qed.

Lemma wp_ret {A} (a : A) (Q : A -> S -> Prop) s : Q a s -> wp (mret a) Q s.
Proof. done. Qed.

Lemma wp_bind {A B} (c : M S A) (k : A -> M S B) Q s :
  wp c (fun a => wp (k a) Q) s -> wp (c ≫= k) Q s.
Proof.
  unfold wp, mbind, M_bind. destruct (c s) as [[a s']| | | |]; done.
Qed.

Lemma wp_mono {A} (c : M S A) (Q R : A -> S -> Prop) s :
  wp c Q s -> (forall a s', Q a s' -> R a s') -> wp c R s.
Proof. unfold wp. destruct (c s) as [[a s']| | | |]; auto. Qed.

Lemma wp_eq {A} (c : M S A) (Q : A -> S -> Prop) s a s' :
  c s = Ret (a, s') -> Q a s' -> wp c Q s.
Proof. unfold wp. by intros ->. Qed.

Lemma wp_of_opt {A} (a : A) (Q : A -> S -> Prop) s : Q a s -> wp (of_opt (Some a)) Q s.
Proof. done. Qed.

Lemma wp_get (Q : S -> S -> Prop) s : Q s s -> wp get Q s.
Proof. done. Qed.

Lemma wp_gets {A} (f : S -> A) (Q : A -> S -> Prop) s : Q (f s) s -> wp (gets f) Q s.
Proof. done. Qed.

Lemma wp_modify (f : S -> S) (Q : unit -> S -> Prop) s : Q tt (f s) -> wp (modify f) Q s.
Proof. done. Qed.

Lemma wp_if {A} (b : bool) (c d : M S A) Q s :
  (b = true -> wp c Q s) -> (b = false -> wp d Q s) ->
  wp (if b then c else d) Q s.
Proof. destruct b; auto. Qed.

(** Sequencing is associative, so a prefix of a body can be folded into the
    routine it repeats. *)
Lemma wp_assoc {A B C} (c : M S A) (f : A -> M S B) (g : B -> M S C) Q s :
  wp ((c ≫= f) ≫= g) Q s -> wp (c ≫= fun a => f a ≫= g) Q s.
Proof. unfold wp, mbind, M_bind. by destruct (c s) as [[a s']| | | |]. Qed.

Lemma wp_seq3 {A B C D} (a : M S A) (b : M S B) (c : M S C) (d : M S D) Q s :
  wp (a ≫= fun _ => b ≫= fun _ => c) (fun _ => wp d Q) s ->
  wp (a ≫= fun _ => b ≫= fun _ => c ≫= fun _ => d) Q s.
Proof.
  unfold wp, mbind, M_bind. destruct (a s) as [[x s1]| | | |]; try done.
  destruct (b s1) as [[y s2]| | | |]; try done. by destruct (c s2) as [[z s3]| | | |].
Qed.

Lemma wp_seq4 {A B C D E} (a : M S A) (b : M S B) (c : B -> M S C) (d : C -> M S D) (e : M S E) Q s :
  wp (a ≫= fun _ => b ≫= fun x => c x ≫= fun y => d y) (fun _ => wp e Q) s ->
  wp (a ≫= fun _ => b ≫= fun x => c x ≫= fun y => d y ≫= fun _ => e) Q s.
Proof.
  unfold wp, mbind, M_bind. destruct (a s) as [[x s1]| | | |]; try done.
  destruct (b s1) as [[y s2]| | | |]; try done. destruct (c y s2) as [[z s3]| | | |]; try done.
  by destruct (d z s3) as [[w s4]| | | |].
Qed.

Lemma wp_arr_get {A} (l : list A) i x Q (s : S) :
  0 <= i -> l !! Z.to_nat i = Some x -> Q x s -> wp (arr_get l i) Q s.
Proof.
  intros Hi Hl HQ. unfold arr_get.
  pose proof (lookup_lt_Some _ _ _ Hl).
  replace ((0 <=? i) && (i <? Z.of_nat (length l))) with true by lia.
  by rewrite Hl.
Qed.

End Wp.

Lemma wp_zoom {S T A} (g : S -> T) (p : T -> S -> S) (c : M T A) Q s :
  wp c (fun a t => Q a (p t s)) (g s) -> wp (zoom g p c) Q s.
Proof. unfold wp, zoom. destruct (c (g s)) as [[a s']| | | |]; done. Qed.

(** Partial correctness: whenever [c] returns from [s], its result and final
    state satisfy [Q]. *)
Definition wlp {S A} (c : M S A) (Q : A -> S -> Prop) (s : S) : Prop :=
  match c s with Ret (a, s') => Q a s' | _ => True end.

Lemma wlp_run {S A} (c : M S A) (Q : A -> S -> Prop) s :
  wlp c Q s <-> forall a s', c s = Ret (a, s') -> Q a s'.
Proof.
  unfold wlp. split.
  - intros H a s' E. by rewrite E in H.
  - intros H. destruct (c s) as [[a s']| | | |]; auto.
Qed.

Lemma wlp_bind {S A B} (c : M S A) (k : A -> M S B) Q s :
  wlp c (fun a => wlp (k a) Q) s -> wlp (c ≫= k) Q s.
Proof. unfold wlp, mbind, M_bind. by destruct (c s) as [[a s']| | | |]. Qed.

Lemma wlp_mono {S A} (c : M S A) (Q R : A -> S -> Prop) s :
  wlp c Q s -> (forall a s', Q a s' -> R a s') -> wlp c R s.
Proof. unfold wlp. destruct (c s) as [[a s']| | | |]; auto. Qed.

Lemma wlp_ret {S A} (a : A) (Q : A -> S -> Prop) s : Q a s -> wlp (mret a) Q s.
Proof. done. Qed.

Lemma wlp_gets {S A} (f : S -> A) (Q : A -> S -> Prop) s : Q (f s) s -> wlp (gets f) Q s.
Proof. done. Qed.

Lemma wlp_modify {S} (f : S -> S) (Q : unit -> S -> Prop) s : Q tt (f s) -> wlp (modify f) Q s.
Proof. done. Qed.

Lemma wlp_zoom {S T A} (g : S -> T) (p : T -> S -> S) (c : M T A) Q s :
  (forall a t, c (g s) = Ret (a, t) -> Q a (p t s)) -> wlp (zoom g p c) Q s.
Proof. unfold wlp, zoom. intros H. destruct (c (g s)) as [[a s']| | | |]; auto. Qed.

(** What returns satisfies what is shown under the assumption that it does. *)
Lemma wp_wlp {S A} (c : M S A) (Q R : A -> S -> Prop) s :
  wp c Q s -> wlp c R s -> wp c (fun a s' => Q a s' /\ R a s') s.
Proof. unfold wp, wlp. by destruct (c s) as [[a s']| | | |]. Qed.

Lemma arr_set_ok {A} (l : list A) i x :
  0 <= i < Z.of_nat (length l) -> arr_set l i x = Some (<[Z.to_nat i := x]> l).
Proof.
  intros Hi. unfold arr_set.
  by replace ((0 <=? i) && (i <? Z.of_nat (length l))) with true by lia.
Qed.

(** ** Machine integers *)

Definition u8 (x : Z) : Z := x mod 2 ^ 8.
Definition u32 (x : Z) : Z := x mod 2 ^ 32.
Definition u64 (x : Z) : Z := x mod 2 ^ 64.
Definition s32 (x : Z) : Z := (x + 2 ^ 31) mod 2 ^ 32 - 2 ^ 31.
Definition s64 (x : Z) : Z := (x + 2 ^ 63) mod 2 ^ 64 - 2 ^ 63.

Lemma u32_small x : 0 <= x < 2 ^ 32 -> u32 x = x.
Proof. apply Z.mod_small. Qed.

Lemma u64_small x : 0 <= x < 2 ^ 64 -> u64 x = x.
Proof. apply Z.mod_small. Qed.

Lemma s32_small x : - 2 ^ 31 <= x < 2 ^ 31 -> s32 x = x.
Proof. intros. unfold s32. rewrite Z.mod_small; lia. Qed.

Lemma s64_small x : - 2 ^ 63 <= x < 2 ^ 63 -> s64 x = x.
Proof. intros. unfold s64. rewrite Z.mod_small; lia. Qed.

Lemma u32_bound x : 0 <= u32 x < 2 ^ 32.
Proof. apply Z.mod_pos_bound. lia. Qed.

Lemma s32_u32 x : s32 (u32 x) = s32 x.
Proof.
  unfold s32, u32. rewrite Zplus_mod_idemp_l. reflexivity.
Qed.

(** A masking of a 64-bit value by a sign-extended [int]. *)
Lemma land_u64 x y : 0 <= x < 2 ^ 64 -> Z.land x (u64 y) = Z.land x y.
Proof.
  intros Hx. unfold u64. rewrite <- Z.land_ones by lia.
  rewrite (Z.land_comm y), Z.land_assoc.
  rewrite (Z.land_ones x) by lia. by rewrite Z.mod_small.
Qed.

(** ** Generic list and arithmetic lemmas *)

Lemma NoDup_bounded_length (l : list Z) (n : Z) :
  NoDup l -> (forall x, x ∈ l -> 0 <= x < n) -> (length l <= Z.to_nat n)%nat.
Proof.
  intros Hnd Hb.
  assert (l ⊆+ seqZ 0 n) as Hsub.
  { apply NoDup_submseteq; [done|]. intros x Hx. apply elem_of_seqZ.
    specialize (Hb x Hx). lia. }
  apply submseteq_length in Hsub. by rewrite length_seqZ in Hsub.
Qed.

Lemma list_case_last {A} (l : list A) : l = [] \/ exists l' x, l = l' ++ [x].
Proof. induction l as [|x l _] using rev_ind; eauto. Qed.

(** Taking one element out of a duplicate-free list. *)
Lemma filter_keep (x : Z) (l : list Z) : x ∉ l -> filter (fun y => y <> x) l = l.
Proof.
  induction l as [|y l IH]; intros Hx; [done|]. apply not_elem_of_cons in Hx as [Hne Hx].
  rewrite filter_cons_True by congruence. by rewrite IH.
Qed.

Lemma filter_out_perm (x : Z) (l : list Z) :
  NoDup l -> x ∈ l -> x :: filter (fun y => y <> x) l ≡ₚ l.
Proof.
  intros Hnd Hx. apply list_elem_of_split in Hx as (l1 & l2 & ->).
  apply list.NoDup_app in Hnd as (N1 & N2 & N3). apply list.NoDup_cons in N3 as [N3 N4].
  rewrite filter_app, filter_cons_False by (intros H; by apply H).
  rewrite !filter_keep; [by rewrite Permutation_middle|done|].
  intros Hx. eapply N2; [done|]. by left.
Qed.

(** Sizes of sets of blocks. *)
Lemma size_add (b : Z) (X : gset Z) : (size ({[b]} ∪ X) <= S (size X))%nat.
Proof.
  rewrite size_union_alt, size_singleton. assert (X ∖ {[b]} ⊆ X) as Hs by set_solver.
  apply subseteq_size in Hs. lia.
Qed.

Lemma size_set_of_list (l : list Z) : (size (list_to_set l : gset Z) <= length l)%nat.
Proof.
  induction l as [|b l IH]; [done|]. cbn [list_to_set length]. pose proof (size_add b (list_to_set l)). lia.
Qed.

Lemma pow2_pos n : 0 <= n -> 0 < 2 ^ n.
Proof. intros. apply Z.pow_pos_nonneg; lia. Qed.

Create HintDb xv6.
#[export] Hint Resolve pow2_pos : xv6.

(** [lia] with quotients and remainders. *)
Ltac zdiv := Z.div_mod_to_equations; lia.

(** One symbolic-execution step of a monadic goal. *)
Ltac wp_step :=
  lazymatch goal with
  | |- wp (_ ≫= _) _ _ => apply wp_bind
  | |- wp (mret _) _ _ => apply wp_ret
  | |- wp (of_opt (Some _)) _ _ => apply wp_of_opt
  | |- wp get _ _ => apply wp_get
  | |- wp (gets _) _ _ => apply wp_gets
  | |- wp (modify _) _ _ => apply wp_modify
  end.
(** The same for partial correctness. *)
Ltac wlp_step :=
  lazymatch goal with
  | |- wlp (_ ≫= _) _ _ => apply wlp_bind
  | |- wlp (mret _) _ _ => apply wlp_ret
  | |- wlp (gets _) _ _ => apply wlp_gets
  | |- wlp (modify _) _ _ => apply wlp_modify
  | |- wlp (panic _) _ _ => exact I
  | |- wlp (fault _) _ _ => exact I
  | |- wlp (blocked _) _ _ => exact I
  | |- wlp out_of_fuel _ _ => exact I
  end.
Ltac wp_steps := repeat (wp_step; cbn beta).
