(* ===== verification/Mem.v ===== *)
(** * Byte-addressed memory and kernel/string.c

    Physical memory is a finite map from addresses to bytes; scalars of the
    C structs are read and written little-endian at their ABI offsets, so
    that a free block, a slab header and a cache descriptor that live at the
    same address really alias.  The routines of kernel/string.c
    ([memset], [memcmp], [memmove], [memcpy], [strncmp], [strncpy],
    [safestrcpy], [strlen]) are the byte loops of the source; the lemmas
    state what they do to every byte of memory. *)

From Stdlib Require Import ZArith Lia Bool.
From stdpp Require Import base gmap list.
From S2P Require Import Prelude.

Abbreviation mem := (gmap Z Z).

(** ** Bytes and little-endian scalars *)

Definition rdb (m : mem) (a : Z) : Z := default 0 (m !! a) mod 256.
Definition stb (m : mem) (a v : Z) : mem := <[a := v mod 256]> m.

Fixpoint ld (n : nat) (m : mem) (a : Z) : Z :=
  match n with
  | O => 0
  | S n' => rdb m a + 256 * ld n' m (a + 1)
  end.

Fixpoint st (n : nat) (m : mem) (a v : Z) : mem :=
  match n with
  | O => m
  | S n' => st n' (stb m a v) (a + 1) (v / 256)
  end.

Definition ld32 (m : mem) (a : Z) : Z := ld 4 m a.
Definition ld64 (m : mem) (a : Z) : Z := ld 8 m a.
Definition st32 (m : mem) (a v : Z) : mem := st 4 m a v.
Definition st64 (m : mem) (a v : Z) : mem := st 8 m a v.

(** ** kernel/string.c *)

Fixpoint memset_loop (k : nat) (m : mem) (dst c i : Z) : mem :=
  match k with
  | O => m
  | S k' => memset_loop k' (stb m (dst + i) c) dst c (i + 1)
  end.

Definition memset (m : mem) (dst c n : Z) : mem :=
  memset_loop (Z.to_nat n) m dst c 0.

Fixpoint memcmp_loop (n : nat) (m : mem) (s1 s2 : Z) : Z :=
  match n with
  | O => 0
  | S n' =>
      if rdb m s1 =? rdb m s2 then memcmp_loop n' m (s1 + 1) (s2 + 1)
      else rdb m s1 - rdb m s2
  end.

Definition memcmp (m : mem) (v1 v2 n : Z) : Z := memcmp_loop (Z.to_nat n) m v1 v2.

(** [while(n-- > 0) *--d = *--s;] with [s] and [d] already advanced. *)
Fixpoint memmove_down (n : nat) (m : mem) (d s : Z) : mem :=
  match n with
  | O => m
  | S n' => memmove_down n' (stb m (d - 1) (rdb m (s - 1))) (d - 1) (s - 1)
  end.

(** [while(n-- > 0) *d++ = *s++;] *)
Fixpoint memmove_up (n : nat) (m : mem) (d s : Z) : mem :=
  match n with
  | O => m
  | S n' => memmove_up n' (stb m d (rdb m s)) (d + 1) (s + 1)
  end.

Definition memmove (m : mem) (dst src n : Z) : mem :=
  if n =? 0 then m
  else if (src <? dst) && (src + n >? dst) then
    memmove_down (Z.to_nat n) m (dst + n) (src + n)
  else memmove_up (Z.to_nat n) m dst src.

Definition memcpy (m : mem) (dst src n : Z) : mem := memmove m dst src n.

Fixpoint strncmp_loop (n : nat) (m : mem) (p q : Z) : Z :=
  match n with
  | O => 0
  | S n' =>
      if negb (rdb m p =? 0) && (rdb m p =? rdb m q)
      then strncmp_loop n' m (p + 1) (q + 1)
      else rdb m p - rdb m q
  end.

Definition strncmp (m : mem) (p q n : Z) : Z := strncmp_loop (Z.to_nat n) m p q.

(** [while(n-- > 0) *s++ = 0;] *)
Fixpoint zero_fill (n : nat) (m : mem) (s : Z) : mem :=
  match n with
  | O => m
  | S n' => zero_fill n' (stb m s 0) (s + 1)
  end.

(** [while(n-- > 0 && ( *s++ = *t++ ) != 0) ;] followed by the zero fill. *)
Fixpoint strncpy_loop (n : nat) (m : mem) (s t : Z) : mem :=
  match n with
  | O => m
  | S n' =>
      let c := rdb m t in
      let m' := stb m s c in
      if c =? 0 then zero_fill n' m' (s + 1)
      else strncpy_loop n' m' (s + 1) (t + 1)
  end.

Definition strncpy (m : mem) (s t n : Z) : mem := strncpy_loop (Z.to_nat n) m s t.

(** [while(--n > 0 && ( *s++ = *t++ ) != 0) ; *s = 0;] with [--n] done. *)
Fixpoint safestrcpy_loop (n : nat) (m : mem) (s t : Z) : mem :=
  match n with
  | O => stb m s 0
  | S n' =>
      let c := rdb m t in
      let m' := stb m s c in
      if c =? 0 then stb m' (s + 1) 0
      else safestrcpy_loop n' m' (s + 1) (t + 1)
  end.

Definition safestrcpy (m : mem) (s t n : Z) : mem :=
  if n <=? 0 then m else safestrcpy_loop (Z.to_nat (n - 1)) m s t.

(** [for(n = 0; s[n]; n++);]  The bound is the caller's: a string without a
    NUL within it has no length. *)
Fixpoint strlen_loop (fuel : nat) (m : mem) (s n : Z) : option Z :=
  match fuel with
  | O => None
  | S f => if rdb m (s + n) =? 0 then Some n else strlen_loop f m s (n + 1)
  end.

Definition strlen (bound : nat) (m : mem) (s : Z) : option Z := strlen_loop bound m s 0.

(** ** Laws of bytes and scalars *)

Lemma rdb_bound m a : 0 <= rdb m a < 256.
Proof. apply Z.mod_pos_bound. lia. Qed.

Lemma rdb_stb m a v x :
  rdb (stb m a v) x = if decide (x = a) then v mod 256 else rdb m x.
Proof.
  unfold rdb, stb. case_decide as E.
  - subst. rewrite lookup_insert_eq. simpl. apply Z.mod_mod. lia.
  - by rewrite lookup_insert_ne by congruence.
Qed.

Lemma rdb_st n m a v x :
  rdb (st n m a v) x =
  if decide (a <= x < a + Z.of_nat n) then (v / 256 ^ (x - a)) mod 256 else rdb m x.
Proof.
  revert m a v. induction n as [|n IH]; intros m a v; simpl st.
  { case_decide; [lia|done]. }
  rewrite IH. case_decide as E1.
  - rewrite decide_True by lia.
    rewrite Z.div_div by (try apply Z.pow_pos_nonneg; lia).
    rewrite <- Z.pow_succ_r by lia. f_equal. f_equal. f_equal. lia.
  - rewrite rdb_stb. case_decide as E2.
    + subst. rewrite decide_True by lia.
      by rewrite Z.sub_diag, Z.pow_0_r, Z.div_1_r.
    + rewrite decide_False by lia. done.
Qed.

Lemma ld_ext n m m' a :
  (forall x, a <= x < a + Z.of_nat n -> rdb m x = rdb m' x) -> ld n m a = ld n m' a.
Proof.
  revert a. induction n as [|n IH]; intros a H; simpl; [done|].
  rewrite (H a) by lia. rewrite (IH (a + 1)); [done|]. intros x Hx. apply H. lia.
Qed.

Lemma ld_bound n m a : 0 <= ld n m a < 256 ^ Z.of_nat n.
Proof.
  revert a. induction n as [|n IH]; intros a.
  { simpl. lia. }
  rewrite Nat2Z.inj_succ, Z.pow_succ_r by lia. simpl ld.
  pose proof (IH (a + 1)). pose proof (rdb_bound m a). lia.
Qed.

Lemma ld_st_eq n m a v : ld n (st n m a v) a = v mod 256 ^ Z.of_nat n.
Proof.
  revert m a v. induction n as [|n IH]; intros m a v.
  { simpl. by rewrite Z.mod_1_r. }
  rewrite Nat2Z.inj_succ, Z.pow_succ_r by lia. simpl.
  rewrite IH, rdb_st, decide_False by lia.
  rewrite rdb_stb, decide_True by done.
  rewrite (Z.rem_mul_r v 256) by (try apply Z.pow_nonzero; lia). lia.
Qed.

Lemma ld_st_ne n k m a b v :
  b + Z.of_nat k <= a \/ a + Z.of_nat n <= b -> ld n (st k m b v) a = ld n m a.
Proof.
  intros H. apply ld_ext. intros x Hx. rewrite rdb_st, decide_False by lia. done.
Qed.

Lemma ld64_bound m a : 0 <= ld64 m a < 2 ^ 64.
Proof. apply (ld_bound 8). Qed.

Lemma ld32_bound m a : 0 <= ld32 m a < 2 ^ 32.
Proof. apply (ld_bound 4). Qed.

Lemma ld64_st64 m a v : 0 <= v < 2 ^ 64 -> ld64 (st64 m a v) a = v.
Proof.
  intros. unfold ld64, st64. rewrite ld_st_eq. by apply Z.mod_small.
Qed.

Lemma ld32_st32 m a v : 0 <= v < 2 ^ 32 -> ld32 (st32 m a v) a = v.
Proof.
  intros. unfold ld32, st32. rewrite ld_st_eq. by apply Z.mod_small.
Qed.

Lemma ld32_st32_mod m a v : ld32 (st32 m a v) a = u32 v.
Proof. apply (ld_st_eq 4). Qed.

Lemma ld64_st64_ne m a b v : b + 8 <= a \/ a + 8 <= b -> ld64 (st64 m b v) a = ld64 m a.
Proof. intros. apply ld_st_ne. lia. Qed.

Lemma ld64_st32_ne m a b v : b + 4 <= a \/ a + 8 <= b -> ld64 (st32 m b v) a = ld64 m a.
Proof. intros. apply ld_st_ne. lia. Qed.

Lemma ld32_st64_ne m a b v : b + 8 <= a \/ a + 4 <= b -> ld32 (st64 m b v) a = ld32 m a.
Proof. intros. apply ld_st_ne. lia. Qed.

Lemma ld32_st32_ne m a b v : b + 4 <= a \/ a + 4 <= b -> ld32 (st32 m b v) a = ld32 m a.
Proof. intros. apply ld_st_ne. lia. Qed.

(** ** Frames *)

(** [m'] differs from [m] at most at the addresses in [W]. *)
Definition modifies (W : Z -> Prop) (m m' : mem) : Prop :=
  forall x, ~ W x -> rdb m' x = rdb m x.

(** The addresses of [n] bytes from [a]. *)
Definition bytes_of (a n : Z) : Z -> Prop := fun x => a <= x < a + n.

Lemma modifies_refl W m : modifies W m m.
Proof. by intros x _. Qed.

Lemma modifies_trans W m1 m2 m3 : modifies W m1 m2 -> modifies W m2 m3 -> modifies W m1 m3.
Proof. intros H1 H2 x Hx. by rewrite H2, H1. Qed.

Lemma modifies_weaken (W W' : Z -> Prop) m m' :
  modifies W m m' -> (forall x, W x -> W' x) -> modifies W' m m'.
Proof. intros H HW x Hx. apply H. auto. Qed.

Lemma modifies_st n m a v : modifies (bytes_of a (Z.of_nat n)) m (st n m a v).
Proof. intros x Hx. unfold bytes_of in Hx. by rewrite rdb_st, decide_False. Qed.

Lemma modifies_st64 (W : Z -> Prop) m a v :
  (forall x, a <= x < a + 8 -> W x) -> modifies W m (st64 m a v).
Proof. intros H. eapply modifies_weaken; [apply (modifies_st 8)|]. intros x Hx. by apply H. Qed.

Lemma modifies_st32 (W : Z -> Prop) m a v :
  (forall x, a <= x < a + 4 -> W x) -> modifies W m (st32 m a v).
Proof. intros H. eapply modifies_weaken; [apply (modifies_st 4)|]. intros x Hx. by apply H. Qed.

Lemma ld_modifies W n m m' a :
  modifies W m m' -> (forall x, a <= x < a + Z.of_nat n -> ~ W x) -> ld n m' a = ld n m a.
Proof. intros H HW. apply ld_ext. intros x Hx. apply H. auto. Qed.

Lemma ld64_modifies W m m' a :
  modifies W m m' -> (forall x, a <= x < a + 8 -> ~ W x) -> ld64 m' a = ld64 m a.
Proof. apply (ld_modifies W 8). Qed.

Lemma ld32_modifies W m m' a :
  modifies W m m' -> (forall x, a <= x < a + 4 -> ~ W x) -> ld32 m' a = ld32 m a.
Proof. apply (ld_modifies W 4). Qed.

#[export] Hint Resolve modifies_refl : xv6.

(** ** What the routines of string.c do *)

(** The C string of at most [n] bytes at [p]: the bytes before the first NUL. *)
Fixpoint cstr (n : nat) (m : mem) (p : Z) : list Z :=
  match n with
  | O => []
  | S n' => if rdb m p =? 0 then [] else rdb m p :: cstr n' m (p + 1)
  end.

Lemma rdb_mod m x : rdb m x mod 256 = rdb m x.
Proof. apply Z.mod_small, rdb_bound. Qed.

Lemma rdb_memset_loop k m dst c i x :
  rdb (memset_loop k m dst c i) x =
  if decide (dst + i <= x < dst + i + Z.of_nat k) then c mod 256 else rdb m x.
Proof.
  revert m i. induction k as [|k IH]; intros m i; simpl memset_loop.
  { rewrite decide_False by lia. done. }
  rewrite IH, rdb_stb. repeat case_decide; try lia; done.
Qed.

Lemma rdb_memset m dst c n x :
  rdb (memset m dst c n) x =
  if decide (dst <= x < dst + n) then c mod 256 else rdb m x.
Proof.
  unfold memset. rewrite rdb_memset_loop. repeat case_decide; try lia; done.
Qed.

Lemma modifies_memset m dst c n : modifies (bytes_of dst n) m (memset m dst c n).
Proof. intros x Hx. unfold bytes_of in Hx. by rewrite rdb_memset, decide_False. Qed.

Lemma ld_zero n m a :
  (forall x, a <= x < a + Z.of_nat n -> rdb m x = 0) -> ld n m a = 0.
Proof.
  revert a. induction n as [|n IH]; intros a H; simpl; [done|].
  rewrite (H a) by lia. rewrite IH; [lia|]. intros x Hx. apply H. lia.
Qed.

Lemma ld_memset_zero n m dst k a :
  dst <= a -> a + Z.of_nat n <= dst + k -> ld n (memset m dst 0 k) a = 0.
Proof.
  intros H1 H2. apply ld_zero. intros x Hx. rewrite rdb_memset, decide_True by lia. done.
Qed.

(** The upward copy is right when the destination does not lie inside the
    part of the source still to be read. *)
Lemma rdb_memmove_up n m d s x :
  d <= s \/ s + Z.of_nat n <= d ->
  rdb (memmove_up n m d s) x =
  if decide (d <= x < d + Z.of_nat n) then rdb m (s + (x - d)) else rdb m x.
Proof.
  revert m d s. induction n as [|n IH]; intros m d s H; simpl memmove_up.
  { rewrite decide_False by lia. done. }
  rewrite IH by lia. rewrite !rdb_stb, rdb_mod.
  repeat case_decide; try lia; try (f_equal; lia).
Qed.

(** The downward copy is right when the source does not lie inside the part
    of the destination already written. *)
Lemma rdb_memmove_down n m d s x :
  s <= d ->
  rdb (memmove_down n m d s) x =
  if decide (d - Z.of_nat n <= x < d) then rdb m (s + (x - d)) else rdb m x.
Proof.
  revert m d s. induction n as [|n IH]; intros m d s H; simpl memmove_down.
  { rewrite decide_False by lia. done. }
  rewrite IH by lia. rewrite !rdb_stb, rdb_mod.
  repeat case_decide; try lia; try (f_equal; lia).
Qed.

(** [memmove] copies the source as it was before the call, whether or not
    the two ranges overlap, and changes nothing else. *)
Lemma rdb_memmove m dst src n x :
  0 <= n ->
  rdb (memmove m dst src n) x =
  if decide (dst <= x < dst + n) then rdb m (src + (x - dst)) else rdb m x.
Proof.
  intros Hn. unfold memmove. destruct (Z.eqb_spec n 0) as [->|Hn0].
  { rewrite decide_False by lia. done. }
  destruct ((src <? dst) && (src + n >? dst)) eqn:E.
  - rewrite rdb_memmove_down by lia. rewrite Z2Nat.id by lia.
    repeat case_decide; try lia; f_equal; lia.
  - rewrite rdb_memmove_up; rewrite Z2Nat.id by lia; [done|]. lia.
Qed.

Lemma modifies_memmove m dst src n : 0 <= n -> modifies (bytes_of dst n) m (memmove m dst src n).
Proof. intros Hn x Hx. unfold bytes_of in Hx. by rewrite rdb_memmove, decide_False. Qed.

Lemma memcmp_zero_iff m v1 v2 n :
  memcmp m v1 v2 n = 0 <-> forall i, 0 <= i < n -> rdb m (v1 + i) = rdb m (v2 + i).
Proof.
  unfold memcmp. destruct (decide (0 <= n)) as [Hn|Hn].
  2: { replace (Z.to_nat n) with 0%nat by lia. simpl. split; intros; [lia|done]. }
  remember (Z.to_nat n) as k eqn:Hk. assert (n = Z.of_nat k) as -> by lia.
  clear Hk Hn. revert v1 v2. induction k as [|k IH]; intros v1 v2; simpl memcmp_loop.
  { split; intros; [lia|done]. }
  destruct (Z.eqb_spec (rdb m v1) (rdb m v2)) as [E|E].
  - rewrite IH. split; intros H i Hi.
    + destruct (decide (i = 0)) as [->|]; [by rewrite !Z.add_0_r|].
      specialize (H (i - 1)). replace (v1 + 1 + (i - 1)) with (v1 + i) in H by lia.
      replace (v2 + 1 + (i - 1)) with (v2 + i) in H by lia. apply H. lia.
    + replace (v1 + 1 + i) with (v1 + (i + 1)) by lia.
      replace (v2 + 1 + i) with (v2 + (i + 1)) by lia. apply H. lia.
  - split; [lia|]. intros H. specialize (H 0). rewrite !Z.add_0_r in H.
    exfalso. apply E, H. lia.
Qed.

Lemma strncmp_zero_iff m p q n :
  strncmp m p q n = 0 <-> cstr (Z.to_nat n) m p = cstr (Z.to_nat n) m q.
Proof.
  unfold strncmp. generalize (Z.to_nat n) as k. clear n. intros k. revert p q.
  induction k as [|k IH]; intros p q; simpl; [done|].
  destruct (Z.eqb_spec (rdb m p) 0) as [Ep|Ep]; simpl.
  - destruct (Z.eqb_spec (rdb m q) 0) as [Eq|Eq]; split; intros; try lia; done.
  - destruct (Z.eqb_spec (rdb m p) (rdb m q)) as [E|E].
    + rewrite IH. destruct (Z.eqb_spec (rdb m q) 0) as [Eq|Eq]; [lia|].
      rewrite E. split; intros H; [by rewrite H|by injection H].
    + split; [lia|]. destruct (Z.eqb_spec (rdb m q) 0); [done|]. intros H.
      injection H as H _. done.
Qed.

Lemma rdb_zero_fill n m s x :
  rdb (zero_fill n m s) x = if decide (s <= x < s + Z.of_nat n) then 0 else rdb m x.
Proof.
  revert m s. induction n as [|n IH]; intros m s; simpl zero_fill.
  { rewrite decide_False by lia. done. }
  rewrite IH, rdb_stb. repeat case_decide; try lia; done.
Qed.

Lemma cstr_unfold_S n m p :
  cstr (S n) m p = if rdb m p =? 0 then [] else rdb m p :: cstr n m (p + 1).
Proof. done. Qed.

Lemma cstr_ext n m m' p :
  (forall x, p <= x < p + Z.of_nat n -> rdb m x = rdb m' x) -> cstr n m p = cstr n m' p.
Proof.
  revert p. induction n as [|n IH]; intros p H; simpl; [done|].
  rewrite (H p) by lia. rewrite (IH (p + 1)); [done|]. intros x Hx. apply H. lia.
Qed.

Lemma modifies_stb (W : Z -> Prop) m a v : W a -> modifies W m (stb m a v).
Proof. intros H x Hx. rewrite rdb_stb, decide_False; [done|]. by intros ->. Qed.

Lemma modifies_strncpy_loop n m s t :
  modifies (bytes_of s (Z.of_nat n)) m (strncpy_loop n m s t).
Proof.
  revert m s t. induction n as [|n IH]; intros m s t; simpl; [auto with xv6|].
  destruct (rdb m t =? 0).
  - intros x Hx. unfold bytes_of in Hx.
    rewrite rdb_zero_fill, decide_False, rdb_stb, decide_False by lia. done.
  - apply (modifies_trans _ _ (stb m s (rdb m t)));
      [|eapply modifies_weaken; [apply IH|]]; try apply modifies_stb; unfold bytes_of; lia.
Qed.

Lemma cstr_strncpy_loop n m s t :
  t + Z.of_nat n <= s \/ s + Z.of_nat n <= t ->
  cstr n (strncpy_loop n m s t) s = cstr n m t.
Proof.
  revert m s t. induction n as [|n IH]; intros m s t H; simpl; [done|].
  destruct (Z.eqb_spec (rdb m t) 0) as [E|E].
  - rewrite rdb_zero_fill, decide_False, rdb_stb, decide_True by lia. by rewrite E.
  - rewrite (modifies_strncpy_loop n _ (s + 1)) by (unfold bytes_of; lia).
    rewrite rdb_stb, decide_True, rdb_mod by done.
    destruct (Z.eqb_spec (rdb m t) 0); [done|]. f_equal. rewrite IH by lia.
    apply cstr_ext. intros x Hx. by rewrite rdb_stb, decide_False by lia.
Qed.

Lemma cstr_strncpy m s t n :
  t + n <= s \/ s + n <= t ->
  cstr (Z.to_nat n) (strncpy m s t n) s = cstr (Z.to_nat n) m t.
Proof.
  intros H. destruct (decide (0 <= n)); [apply cstr_strncpy_loop; lia|].
  by replace (Z.to_nat n) with 0%nat by lia.
Qed.

Lemma safestrcpy_loop_spec n m s t :
  t + Z.of_nat n <= s \/ s + Z.of_nat n < t ->
  modifies (bytes_of s (Z.of_nat n + 1)) m (safestrcpy_loop n m s t) /\
  cstr (S n) (safestrcpy_loop n m s t) s = cstr n m t.
Proof.
  revert m s t. induction n as [|n IH]; intros m s t H; cbn [safestrcpy_loop].
  { split; [apply modifies_stb; unfold bytes_of; lia|].
    cbn [cstr]. by rewrite rdb_stb, decide_True. }
  destruct (Z.eqb_spec (rdb m t) 0) as [E|E].
  - split.
    + apply (modifies_trans _ _ (stb m s (rdb m t))); apply modifies_stb; unfold bytes_of; lia.
    + cbn [cstr]. rewrite !rdb_stb, decide_False, decide_True by lia. by rewrite E.
  - destruct (IH (stb m s (rdb m t)) (s + 1) (t + 1)) as [H1 H2]; [lia|]. split.
    + apply (modifies_trans _ _ (stb m s (rdb m t)));
        [apply modifies_stb|eapply modifies_weaken; [apply H1|]]; unfold bytes_of; lia.
    + rewrite cstr_unfold_S, H2.
      rewrite (H1 s) by (unfold bytes_of; lia).
      rewrite rdb_stb, decide_True, rdb_mod by done. cbn [cstr].
      destruct (Z.eqb_spec (rdb m t) 0); [done|]. f_equal.
      apply cstr_ext. intros x Hx. by rewrite rdb_stb, decide_False by lia.
Qed.

Lemma length_cstr n m p : (length (cstr n m p) <= n)%nat.
Proof.
  revert p. induction n as [|n IH]; intros p; simpl; [done|].
  destruct (rdb m p =? 0); simpl; [lia|]. pose proof (IH (p + 1)). lia.
Qed.

(** A string shorter than the bound is followed by its NUL. *)
Lemma cstr_nul n m p :
  (length (cstr n m p) < n)%nat -> rdb m (p + Z.of_nat (length (cstr n m p))) = 0.
Proof.
  revert p. induction n as [|n IH]; intros p H; simpl in *; [lia|].
  destruct (Z.eqb_spec (rdb m p) 0) as [E|E]; simpl in *; [by rewrite Z.add_0_r|].
  rewrite <- (IH (p + 1)) by lia. f_equal. lia.
Qed.

(** [memmove] copies the source as it was before the call even when the
    two ranges overlap in either direction, and writes nothing outside the
    destination. *)
Theorem memmove_overlap_safe m dst src n :
  0 <= n ->
  (forall i, 0 <= i < n -> rdb (memmove m dst src n) (dst + i) = rdb m (src + i)) /\
  modifies (bytes_of dst n) m (memmove m dst src n).
Proof.
  intros Hn. split; [|by apply modifies_memmove].
  intros i Hi. rewrite rdb_memmove, decide_True by lia. f_equal. lia.
Qed.

Lemma memmove_overlap_safe_witness :
  let m := st64 ∅ 100 578437695752307201 in
  (forall i, 0 <= i < 6 -> rdb (memmove m 102 100 6) (102 + i) = rdb m (100 + i)) /\
  modifies (bytes_of 102 6) m (memmove m 102 100 6).
Proof. intros m. apply (memmove_overlap_safe m 102 100 6). lia. Defined.

(** The [n] bytes from [p]. *)
Definition contents (m : mem) (p : Z) (n : Z) : list Z := (fun i => rdb m (p + i)) <$> seqZ 0 n.

Lemma contents_ext m m' p n : (forall x, p <= x < p + n -> rdb m' x = rdb m x) -> contents m' p n = contents m p n.
Proof. intros H. apply list_fmap_ext. intros _ i Hi%list_elem_of_lookup_2%elem_of_seqZ. apply H. lia. Qed.

Lemma contents_length m p n : 0 <= n -> Z.of_nat (length (contents m p n)) = n.
Proof. intros Hn. unfold contents. rewrite length_fmap, length_seqZ. lia. Qed.

Lemma contents_stb m p n off v : 0 <= off < n -> contents (stb m (p + off) v) p n = <[Z.to_nat off := v mod 256]> (contents m p n).
Proof.
  intros Ho. apply list_eq. intros t. destruct (decide (Z.to_nat off = t)) as [<-|Hnt].
  - pose proof (contents_length m p n ltac:(lia)). rewrite list_lookup_insert_eq by lia. unfold contents. rewrite list_lookup_fmap, lookup_seqZ_lt by lia.
    cbn. rewrite Z.add_0_l, Z2Nat.id by lia. f_equal. by rewrite rdb_stb, decide_True by done.
  - rewrite list_lookup_insert_ne by done. unfold contents. rewrite !list_lookup_fmap.
    destruct (seqZ 0 n !! t) eqn:Et; [|done]. cbn. apply lookup_seqZ in Et as [-> Ht]. f_equal. by rewrite rdb_stb, decide_False by lia.
Qed.

(** [safestrcpy] of at most [n] bytes leaves a NUL-terminated string
    that is the source truncated to [n - 1] characters, and writes only the
    [n] bytes of the destination (unlike [strncpy], which may leave it
    unterminated). *)
Theorem safestrcpy_terminates m s t n :
  0 < n -> t + n <= s \/ s + n <= t ->
  let m' := safestrcpy m s t n in
  cstr (Z.to_nat n) m' s = cstr (Z.to_nat (n - 1)) m t /\
  (exists i, 0 <= i < n /\ rdb m' (s + i) = 0) /\
  modifies (bytes_of s n) m m'.
Proof.
  intros Hn Hd m'. unfold m', safestrcpy. replace (n <=? 0) with false by lia.
  destruct (safestrcpy_loop_spec (Z.to_nat (n - 1)) m s t) as [Hm Hc]; [lia|].
  replace (S (Z.to_nat (n - 1))) with (Z.to_nat n) in Hc by lia.
  replace (Z.of_nat (Z.to_nat (n - 1)) + 1) with n in Hm by lia.
  split; [done|]. split; [|done].
  pose proof (length_cstr (Z.to_nat (n - 1)) m t).
  eexists. split; [|apply (cstr_nul (Z.to_nat n)); rewrite Hc; lia]. rewrite Hc. lia.
Qed.

Lemma safestrcpy_terminates_witness :
  let m := st64 ∅ 100 7234017283807667300 in
  let m' := safestrcpy m 200 100 4 in
  cstr 4 m' 200 = cstr 3 m 100 /\ (exists i, 0 <= i < 4 /\ rdb m' (200 + i) = 0) /\
  modifies (bytes_of 200 4) m m'.
Proof. intros m. apply (safestrcpy_terminates m 200 100 4); lia. Defined.
