(* ===== verification/MemList.v ===== *)
(** * Singly linked lists threaded through memory

    The free lists of kernel/buddy.c, kernel/kalloc.c and of each slab of
    kernel/slab.c keep the address of the next element in the first 8 bytes
    of the element.  [sll m p l] says that following these links from [p]
    visits the addresses [l] and ends with a null pointer. *)

From Stdlib Require Import ZArith Lia Bool.
From stdpp Require Import base gmap list.
From S2P Require Import Prelude Mem.

Fixpoint sll (m : mem) (p : Z) (l : list Z) : Prop :=
  match l with
  | [] => p = 0
  | x :: l' => p = x /\ 0 < x < 2 ^ 64 /\ sll m (ld64 m x) l'
  end.

(** The link cells of the elements do not overlap. *)
Definition spaced (n : Z) (l : list Z) : Prop :=
  NoDup l /\ forall x y, x ∈ l -> y ∈ l -> x <> y -> x + n <= y \/ y + n <= x.

Lemma sll_modifies W m m' p l :
  modifies W m m' -> (forall x a, x ∈ l -> x <= a < x + 8 -> ~ W a) ->
  sll m p l -> sll m' p l.
Proof.
  intros HM. revert p. induction l as [|x l IH]; intros p HW; simpl; [done|].
  intros (-> & Hx & Hl). split; [done|]. split; [done|].
  rewrite (ld64_modifies W m m' x HM) by (intros a Ha; apply (HW x); [constructor|done]).
  apply IH; [|done]. intros y a Hy. apply HW. by constructor.
Qed.

Lemma sll_head m p l : sll m p l -> p = 0 <-> l = [].
Proof. destruct l as [|x l]; simpl; [done|]. intros (-> & Hx & _). split; [lia|done]. Qed.

Lemma sll_elem m p l x : sll m p l -> x ∈ l -> 0 < x < 2 ^ 64.
Proof.
  revert p. induction l as [|y l IH]; intros p; simpl; [by intros _ ?%elem_of_nil|].
  intros (-> & Hy & Hl) [->|Hx]%elem_of_cons; [done|]. by eapply IH.
Qed.

(** Push an element. *)
Lemma sll_push m p l x :
  sll m p l -> 0 < x < 2 ^ 64 -> (forall y, y ∈ l -> x + 8 <= y \/ y + 8 <= x) ->
  sll (st64 m x p) x (x :: l).
Proof.
  intros Hl Hx Hsep. simpl. split; [done|]. split; [done|].
  assert (0 <= p < 2 ^ 64) as Hp.
  { destruct l as [|y l]; simpl in Hl; [lia|]. destruct Hl as (-> & ? & _). lia. }
  rewrite ld64_st64 by done.
  eapply (sll_modifies (bytes_of x 8)); [apply modifies_st64; by unfold bytes_of| |done].
  intros y a Hy Ha. specialize (Hsep y Hy). unfold bytes_of. lia.
Qed.

(** Unlink an inner element: its predecessor takes over its link. *)
Lemma sll_unlink m p l1 y x l2 :
  sll m p (l1 ++ y :: x :: l2) -> spaced 8 (l1 ++ y :: x :: l2) ->
  sll (st64 m y (ld64 m x)) p (l1 ++ y :: l2).
Proof.
  intros Hl [Hnd Hsp]. revert p Hl. induction l1 as [|z l1 IH]; intros p Hl.
  - simpl in *. destruct Hl as (-> & Hy & Hyx & Hx & Hl). split; [done|]. split; [done|].
    rewrite ld64_st64 by apply ld64_bound.
    eapply (sll_modifies (bytes_of y 8)); [apply modifies_st64; by unfold bytes_of| |done].
    intros w a Hw Ha. apply list.NoDup_cons in Hnd as [Hnd _].
    destruct (Hsp y w) as [?|?]; unfold bytes_of; try lia; try set_solver.
  - simpl in Hl |- *. destruct Hl as (-> & Hz & Hl). split; [done|]. split; [done|].
    apply list.NoDup_cons in Hnd as [Hzn Hnd].
    rewrite ld64_st64_ne; [apply IH; [done| |done]|].
    + intros u v Hu Hv. apply Hsp; by constructor.
    + destruct (Hsp y z) as [?|?]; [set_solver|constructor| |lia|lia]. intros ->. set_solver.
Qed.

(** ** Doubly linked lists

    Elements carry [next] in their first 8 bytes and [prev] in the 8 bytes
    after; the head pointer is itself a memory cell at [hp]. *)

Fixpoint dll (m : mem) (prev p : Z) (l : list Z) : Prop :=
  match l with
  | [] => p = 0
  | x :: l => p = x /\ 0 < x < 2 ^ 63 /\ ld64 m (x + 8) = prev /\ dll m x (ld64 m x) l
  end.

Definition dll_at (m : mem) (hp : Z) (l : list Z) : Prop := dll m 0 (ld64 m hp) l.

(** The bytes a list at [hp] is made of. *)
Definition lnk (hp : Z) (l : list Z) : Z -> Prop :=
  fun b => hp <= b < hp + 8 \/ exists x, x ∈ l /\ x <= b < x + 16.

Lemma dll_modifies W m m' prev p l :
  modifies W m m' -> (forall x b, x ∈ l -> x <= b < x + 16 -> ~ W b) ->
  dll m prev p l -> dll m' prev p l.
Proof.
  intros HM. revert prev p. induction l as [|x l IH]; intros prev p HW; simpl; [done|].
  intros (-> & Hx & Hp & Hl).
  rewrite (ld64_modifies W m m' (x + 8)), (ld64_modifies W m m' x); try done;
    try (intros b Hb; apply (HW x); [constructor|lia]).
  repeat split; try done; try lia. apply IH; [|done]. intros y b Hy. apply HW. by constructor.
Qed.

Lemma dll_at_modifies W m m' hp l :
  modifies W m m' -> (forall b, lnk hp l b -> ~ W b) -> dll_at m hp l -> dll_at m' hp l.
Proof.
  intros HM HW Hl. unfold dll_at.
  rewrite (ld64_modifies W m m' hp) by (try done; intros b Hb; apply HW; by left).
  eapply dll_modifies; [done| |done]. intros x b Hx Hb. apply HW. right. eauto.
Qed.

Lemma dll_head m prev p l : dll m prev p l -> p = 0 <-> l = [].
Proof.
  destruct l as [|x l]; simpl; [by intros ->|]. intros (-> & Hx & _). split; [lia|done].
Qed.

Lemma dll_range m prev p l : dll m prev p l -> 0 <= p < 2 ^ 63.
Proof. destruct l; simpl; [lia|]. intros (-> & ? & _). lia. Qed.

Lemma dll_elem m prev p l x : dll m prev p l -> x ∈ l -> 0 < x < 2 ^ 63.
Proof.
  revert prev p. induction l as [|y l IH]; intros prev p; simpl; [by intros _ ?%elem_of_nil|].
  intros (-> & Hy & _ & Hl) [->|Hx]%elem_of_cons; [done|]. by eapply IH.
Qed.

(** Changing the back pointer of the first element. *)
Lemma dll_reprev m prev prev' p l :
  dll m prev p l -> spaced 16 l -> 0 <= prev' < 2 ^ 64 -> p <> 0 ->
  dll (st64 m (p + 8) prev') prev' p l.
Proof.
  destruct l as [|x l]; simpl; [done|]. intros (-> & Hx & Hp & Hl) [Hnd Hsp] Hr _.
  rewrite ld64_st64 by done. rewrite ld64_st64_ne by lia. repeat split; try done; try lia.
  eapply (dll_modifies (bytes_of (x + 8) 8)); [apply modifies_st64; by unfold bytes_of| |done].
  intros y b Hy Hb. apply list.NoDup_cons in Hnd as [Hnx _].
  destruct (Hsp x y) as [?|?]; unfold bytes_of; try lia;
    [constructor|by constructor|]. intros ->. done.
Qed.

Lemma spaced_sub n l l' :
  spaced n l -> NoDup l' -> (forall x, x ∈ l' -> x ∈ l) -> spaced n l'.
Proof. intros [_ H] Hnd Hs. split; [done|]. intros x y Hx Hy. apply H; auto. Qed.

Lemma spaced_tail n x l : spaced n (x :: l) -> spaced n l.
Proof.
  intros H. apply (spaced_sub _ (x :: l)); [done| |by constructor].
  destruct H as [H _]. by apply list.NoDup_cons in H as [_ H].
Qed.

Lemma spaced_head n x y l : spaced n (x :: l) -> y ∈ l -> x + n <= y \/ y + n <= x.
Proof.
  intros [Hnd Hsp] Hy. apply list.NoDup_cons in Hnd as [Hx _].
  apply Hsp; [constructor|by constructor|]. by intros ->.
Qed.

(** [add_slab_to_list] as an update of memory. *)
Definition dll_add_mem (m : mem) (hp a : Z) : mem :=
  let m1 := st64 m a (ld64 m hp) in
  let m2 := st64 m1 (a + 8) 0 in
  let h := ld64 m2 hp in
  let m3 := if negb (h =? 0) then st64 m2 (h + 8) a else m2 in
  st64 m3 hp a.

Lemma dll_add m hp a l :
  dll_at m hp l -> 0 < a < 2 ^ 63 -> spaced 16 (a :: l) ->
  (forall x, x ∈ a :: l -> hp + 8 <= x \/ x + 16 <= hp) ->
  dll_at (dll_add_mem m hp a) hp (a :: l) /\
  modifies (lnk hp (a :: l)) m (dll_add_mem m hp a).
Proof.
  intros Hl Ha Hsp Hhp. unfold dll_add_mem.
  pose proof (Hhp a ltac:(constructor)) as Hha.
  pose proof (dll_range _ _ _ _ Hl) as Hr. set (p := ld64 m hp) in *.
  set (m2 := st64 (st64 m a p) (a + 8) 0).
  assert (ld64 m2 hp = p) as -> by (unfold m2; by rewrite !ld64_st64_ne by lia).
  assert (modifies (bytes_of a 16) m m2) as Hm2.
  { unfold m2. eapply modifies_trans; apply modifies_st64; unfold bytes_of; lia. }
  assert (dll m2 0 p l) as Hl2.
  { eapply dll_modifies; [exact Hm2| |exact Hl]. intros x b Hx Hb.
    destruct (spaced_head _ _ _ _ Hsp Hx); unfold bytes_of; lia. }
  set (m3 := if negb (p =? 0) then _ else _).
  assert (modifies (lnk hp (a :: l)) m m3) as Hm3.
  { unfold m3. destruct (Z.eqb_spec p 0) as [E|E]; simpl.
    - eapply modifies_weaken; [exact Hm2|]. intros b Hb. right. exists a. split; [constructor|done].
    - eapply modifies_trans; [eapply modifies_weaken; [exact Hm2|]|apply modifies_st64];
        intros b Hb; right; [exists a; split; [constructor|done]|].
      destruct l as [|x l]; simpl in Hl2; [done|]. destruct Hl2 as (-> & _).
      exists x. split; [constructor; constructor|lia]. }
  assert (dll m3 a p l) as Hl3.
  { unfold m3. destruct (Z.eqb_spec p 0) as [E|E]; simpl.
    - assert (l = []) as -> by (by apply (dll_head m2 0 p)). done.
    - apply (dll_reprev _ 0); try done; [by eapply spaced_tail|lia]. }
  assert (ld64 m3 a = p /\ ld64 m3 (a + 8) = 0) as [E1 E2].
  { assert (ld64 m2 a = p) by (unfold m2; rewrite ld64_st64_ne, ld64_st64 by lia; done).
    assert (ld64 m2 (a + 8) = 0) by (unfold m2; by rewrite ld64_st64).
    unfold m3. destruct (Z.eqb_spec p 0) as [E|E]; simpl; [done|].
    destruct l as [|x l]; simpl in Hl2; [done|]. destruct Hl2 as (-> & _).
    destruct (spaced_head _ _ x _ Hsp ltac:(constructor)); by rewrite !ld64_st64_ne by lia. }
  split; [|eapply modifies_trans; [exact Hm3|apply modifies_st64; intros b Hb; by left]].
  unfold dll_at. rewrite ld64_st64 by lia. simpl. rewrite !ld64_st64_ne by lia.
  repeat split; try done; try lia. rewrite E1.
  eapply (dll_modifies (bytes_of hp 8)); [apply modifies_st64; by unfold bytes_of| |done].
  intros x b Hx Hb. destruct (Hhp x) as [?|?]; [by constructor|unfold bytes_of; lia..].
Qed.

(** Where the neighbours of an element are. *)
Lemma dll_mid m prev p l1 a l2 :
  dll m prev p (l1 ++ a :: l2) ->
  (l1 = [] -> p = a /\ ld64 m (a + 8) = prev) /\
  (l1 <> [] -> ld64 m (a + 8) ∈ l1) /\ dll m a (ld64 m a) l2 /\ 0 < a < 2 ^ 63.
Proof.
  revert prev p. induction l1 as [|x l1 IH]; intros prev p H; simpl in H.
  - destruct H as (-> & Ha & Hp & Hl). done.
  - destruct H as (-> & Hx & Hp & Hl). destruct (IH _ _ Hl) as (H1 & H2 & H3 & H4).
    split; [done|]. split; [|done]. intros _. destruct l1 as [|y l1].
    + destruct (H1 eq_refl) as [_ ->]. constructor.
    + constructor. by apply H2.
Qed.

(** The two pointer swings of an unlinking. *)
Definition swing_prev (m : mem) (nx pr : Z) : mem :=
  if negb (nx =? 0) then st64 m (nx + 8) pr else m.

Lemma modifies_swing_prev m nx pr a l :
  dll m a nx l -> modifies (fun b => exists x, x ∈ l /\ x + 8 <= b < x + 16) m (swing_prev m nx pr).
Proof.
  intros Hl. unfold swing_prev. destruct (Z.eqb_spec nx 0); simpl; [auto with xv6|].
  destruct l as [|x l]; simpl in Hl; [done|]. destruct Hl as (-> & _).
  apply modifies_st64. intros b Hb. exists x. split; [constructor|lia].
Qed.

Lemma dll_swing m a nx pr l :
  dll m a nx l -> spaced 16 l -> 0 <= pr < 2 ^ 64 -> dll (swing_prev m nx pr) pr nx l.
Proof.
  intros Hl Hsp Hr. unfold swing_prev. destruct (Z.eqb_spec nx 0) as [E|E]; simpl.
  - assert (l = []) as -> by (by apply (dll_head m a nx)). done.
  - by apply (dll_reprev _ a).
Qed.

Lemma dll_unlink m prev p l1 a l2 :
  dll m prev p (l1 ++ a :: l2) -> spaced 16 (l1 ++ a :: l2) -> l1 <> [] ->
  dll (swing_prev (st64 m (ld64 m (a + 8)) (ld64 m a)) (ld64 m a) (ld64 m (a + 8))) prev p (l1 ++ l2).
Proof.
  intros Hl Hsp Hne.
  destruct (dll_mid _ _ _ _ _ _ Hl) as (_ & Hpr & Hl2 & Ha). specialize (Hpr Hne).
  pose proof (dll_elem _ _ _ _ (ld64 m (a + 8)) Hl ltac:(apply elem_of_app; by left)) as Hprr.
  set (pr := ld64 m (a + 8)) in *. set (nx := ld64 m a) in *.
  pose proof (dll_range _ _ _ _ Hl2) as Hnx.
  set (m1 := st64 m pr nx).
  assert (modifies (bytes_of pr 8) m m1) as Hm1 by (apply modifies_st64; by unfold bytes_of).
  assert (spaced 16 l2) as Hsp2.
  { apply (spaced_sub _ _ _ Hsp); [|set_solver]. destruct Hsp as [Hnd _].
    apply list.NoDup_app in Hnd as (_ & _ & Hnd). by apply list.NoDup_cons in Hnd as [_ ?]. }
  assert (forall x, x ∈ l2 -> pr + 16 <= x \/ x + 16 <= pr) as Hps.
  { intros x Hx. destruct Hsp as [Hnd Hsp]. apply Hsp; [set_solver|set_solver|]. intros <-.
    apply list.NoDup_app in Hnd as (_ & Hnd & _). apply (Hnd pr Hpr). by constructor. }
  assert (dll m1 a nx l2) as Hl2'.
  { eapply dll_modifies; [exact Hm1| |done]. intros x b Hx Hb. unfold bytes_of.
    destruct (Hps x Hx); lia. }
  pose proof (dll_swing m1 a nx pr l2 Hl2' Hsp2 ltac:(lia)) as Hl2''.
  pose proof (modifies_swing_prev m1 nx pr a l2 Hl2') as Hm2.
  set (m2 := swing_prev m1 nx pr) in *. clearbody nx.
  assert (forall x b, x ∈ l1 -> x <= b < x + 16 -> ~ (exists y, y ∈ l2 /\ y + 8 <= b < y + 16)) as Hs12.
  { intros x b Hx Hb (y & Hy & Hyb). destruct Hsp as [Hnd Hsp].
    destruct (Hsp x y) as [?|?]; try lia; [set_solver|set_solver|]. intros ->.
    apply list.NoDup_app in Hnd as (_ & Hnd & _). apply (Hnd y Hx). by constructor. }
  assert (ld64 m2 pr = nx) as Enx.
  { rewrite (ld64_modifies _ _ _ _ Hm2) by (intros b Hb; apply (Hs12 pr); [done|lia]).
    apply ld64_st64. lia. }
  assert (forall q, q ∈ l1 -> ld64 m2 (q + 8) = ld64 m (q + 8)) as Eprev.
  { intros q Hq. rewrite (ld64_modifies _ _ _ _ Hm2) by (intros b Hb; apply (Hs12 q); [done|lia]).
    apply (ld64_modifies _ _ _ _ Hm1). intros b Hb. unfold bytes_of. destruct (decide (q = pr)); [lia|].
    destruct Hsp as [_ Hsp]. destruct (Hsp q pr); try done; [set_solver|set_solver|lia|lia]. }
  assert (forall q, q ∈ l1 -> q <> pr -> ld64 m2 q = ld64 m q) as Enext.
  { intros q Hq Hqp. rewrite (ld64_modifies _ _ _ _ Hm2) by (intros b Hb; apply (Hs12 q); [done|lia]).
    apply (ld64_modifies _ _ _ _ Hm1). intros b Hb. unfold bytes_of.
    destruct Hsp as [_ Hsp]. destruct (Hsp q pr); try done; [set_solver|set_solver|lia|lia]. }
  assert (exists l0, l1 = l0 ++ [pr]) as [l0 E].
  { clear -Hl Hne. subst pr. revert prev p Hl. induction l1 as [|x l1 IH]; intros prev p Hl; [done|].
    destruct l1 as [|y l1].
    - exists []. simpl in *. destruct Hl as (-> & _ & _ & _ & _ & -> & _). done.
    - destruct Hl as (_ & _ & _ & Hl). destruct (IH ltac:(done) _ _ Hl) as [l0 ->].
      by exists (x :: l0). }
  assert (NoDup (l0 ++ [pr])) as Hnd.
  { rewrite <- E. destruct Hsp as [Hnd _]. by apply list.NoDup_app in Hnd as (? & _). }
  clear -Hl Hl2'' Enx Eprev Enext E Hnd. subst l1. clearbody m2 pr. revert prev p Hl Eprev Enext Hnd.
  induction l0 as [|x l0 IH]; intros prev p Hl Eprev Enext Hnd; simpl in *.
  - destruct Hl as (-> & Hx & Hp & _). rewrite Eprev, Enx by constructor. done.
  - destruct Hl as (-> & Hx & Hp & Hl). rewrite Eprev by constructor.
    apply list.NoDup_cons in Hnd as [Hnx Hnd]. rewrite Enext; [|constructor|set_solver].
    repeat split; try done; try lia. apply IH; [done| | |done]; intros; [apply Eprev|apply Enext];
      try done; by constructor.
Qed.

(** [remove_slab_from_list] as an update of memory. *)
Definition dll_remove_mem (m : mem) (hp a : Z) : mem :=
  let prev := ld64 m (a + 8) in
  let m1 := if negb (prev =? 0) then st64 m prev (ld64 m a) else st64 m hp (ld64 m a) in
  let m2 := swing_prev m1 (ld64 m1 a) (ld64 m1 (a + 8)) in
  st64 (st64 m2 (a + 8) 0) a 0.

Lemma dll_remove m hp l1 a l2 :
  dll_at m hp (l1 ++ a :: l2) -> spaced 16 (l1 ++ a :: l2) ->
  (forall x, x ∈ l1 ++ a :: l2 -> hp + 8 <= x \/ x + 16 <= hp) ->
  dll_at (dll_remove_mem m hp a) hp (l1 ++ l2) /\
  modifies (lnk hp (l1 ++ a :: l2)) m (dll_remove_mem m hp a).
Proof.
  intros Hl Hsp Hhp. unfold dll_remove_mem, dll_at in *.
  destruct (dll_mid _ _ _ _ _ _ Hl) as (Hnil & Hcons & Hl2 & Ha).
  pose proof (dll_range _ _ _ _ Hl2) as Hnx.
  assert (forall x, x ∈ l1 ++ l2 -> a + 16 <= x \/ x + 16 <= a) as Hsa.
  { intros x Hx. destruct Hsp as [Hnd Hsp]. apply Hsp; [set_solver|set_solver|]. intros ->.
    apply list.NoDup_app in Hnd as (_ & Hnd1 & Hnd). apply list.NoDup_cons in Hnd as [Hnd2 _].
    apply elem_of_app in Hx as [Hx|Hx]; [|done]. apply (Hnd1 x Hx). constructor. }
  set (m1 := if negb _ then _ else _).
  assert (modifies (fun b => hp <= b < hp + 8 \/ exists x, x ∈ l1 /\ x <= b < x + 8) m m1 /\
          dll (swing_prev m1 (ld64 m a) (ld64 m (a + 8))) 0
              (ld64 (swing_prev m1 (ld64 m a) (ld64 m (a + 8))) hp) (l1 ++ l2) /\
          dll m1 a (ld64 m a) l2) as (Hm1 & Hl' & Hl2').
  { unfold m1. destruct l1 as [|y l1'] eqn:El.
    - destruct (Hnil eq_refl) as [Ehp Epr]. rewrite Epr. simpl.
      assert (modifies (bytes_of hp 8) m (st64 m hp (ld64 m a))) as Hm
        by (apply modifies_st64; by unfold bytes_of).
      assert (dll (st64 m hp (ld64 m a)) a (ld64 m a) l2) as Hd.
      { eapply dll_modifies; [exact Hm| |done]. intros x b Hx Hb. unfold bytes_of.
        destruct (Hhp x) as [?|?]; [set_solver|lia|lia]. }
      split; [eapply modifies_weaken; [exact Hm|]; by left|]. split; [|done].
      rewrite (ld64_modifies _ _ _ hp (modifies_swing_prev _ _ 0 _ _ Hd)), ld64_st64.
      + apply (dll_swing _ a); [done|by eapply spaced_tail|lia].
      + lia.
      + intros b Hb (x & Hx & Hxb). destruct (Hhp x) as [?|?]; [set_solver|lia|lia].
    - rewrite <- El in *. assert (l1 <> []) as Hne by (by rewrite El).
      specialize (Hcons Hne). pose proof (dll_elem _ _ _ _ (ld64 m (a + 8)) Hl ltac:(set_solver)).
      replace (ld64 m (a + 8) =? 0) with false by lia. simpl.
      assert (modifies (bytes_of (ld64 m (a + 8)) 8) m (st64 m (ld64 m (a + 8)) (ld64 m a))) as Hm
        by (apply modifies_st64; by unfold bytes_of).
      assert (dll (st64 m (ld64 m (a + 8)) (ld64 m a)) a (ld64 m a) l2) as Hd.
      { eapply dll_modifies; [exact Hm| |done]. intros x b Hx Hb. unfold bytes_of.
        destruct Hsp as [Hnd Hsp]. destruct (Hsp x (ld64 m (a + 8))) as [?|?]; try lia;
          [set_solver|set_solver|]. intros ->. apply list.NoDup_app in Hnd as (_ & Hnd & _).
        apply (Hnd _ Hcons). by constructor. }
      split; [eapply modifies_weaken; [exact Hm|]; intros b Hb; right; by eexists|].
      split; [|done].
      rewrite (ld64_modifies _ _ _ hp (modifies_swing_prev _ _ _ _ _ Hd)).
      + rewrite ld64_st64_ne by (destruct (Hhp (ld64 m (a + 8))) as [?|?]; [set_solver|lia|lia]).
        by apply dll_unlink.
      + intros b Hb (x & Hx & Hxb). destruct (Hhp x) as [?|?]; [set_solver|lia|lia]. }
  assert (ld64 m1 a = ld64 m a /\ ld64 m1 (a + 8) = ld64 m (a + 8)) as [-> ->].
  { split; apply (ld64_modifies _ _ _ _ Hm1); intros b Hb [?|(x & Hx & Hxb)];
      try (destruct (Hhp a) as [?|?]; [set_solver|lia|lia]);
      destruct (Hsa x) as [?|?]; try lia; set_solver. }
  pose proof (modifies_swing_prev m1 (ld64 m a) (ld64 m (a + 8)) a l2 Hl2') as Hm2.
  set (m2 := swing_prev _ _ _) in *.
  assert (modifies (bytes_of a 16) m2 (st64 (st64 m2 (a + 8) 0) a 0)) as Hm4.
  { eapply modifies_trans; apply modifies_st64; unfold bytes_of; lia. }
  split.
  - eapply (dll_at_modifies _ m2); [exact Hm4| |exact Hl'].
    intros b [Hb|(x & Hx & Hb)]; unfold bytes_of.
    + destruct (Hhp a) as [?|?]; [set_solver|lia|lia].
    + destruct (Hsa x Hx); lia.
  - eapply modifies_trans; [eapply modifies_trans|]; (eapply modifies_weaken; [eassumption|]).
    + intros b [?|(x & Hx & Hb)]; [by left|right]. exists x. split; [set_solver|lia].
    + intros b (x & Hx & Hb). right. exists x. split; [set_solver|lia].
    + intros b Hb. right. exists a. split; [set_solver|done].
Qed.
