(* ===== verification/Spinlock.v ===== *)
(** * Harts, spinlocks and sleeplocks (kernel/spinlock.c, kernel/sleeplock.c)

    [hart] is the part of [struct cpu] and of the supervisor status register
    the lock code uses; [acquire], [release], [holding], [push_off] and
    [pop_off] are the routines of spinlock.c on one hart.  Locks that live
    in static storage are [spinlock] records; locks inside heap structs are
    read and written in byte memory at their C offsets ([acquire_at],
    [release_at]).  [Module Interleaving] runs any number of harts through
    the atomic steps of [acquire] and [release] and proves mutual
    exclusion. *)

From Stdlib Require Import ZArith Lia Bool String.
From stdpp Require Import base gmap list strings functions relations.
From S2P Require Import Prelude Mem.

(** ** State *)

(** [h_cpu] is the address [mycpu()] returns, [h_sie] is [intr_get()]. *)
Record hart := mkHart {
  h_cpu : Z;
  h_noff : Z;
  h_intena : bool;
  h_sie : bool
}.

Record spinlock := mkLock {
  lk_name : string;
  lk_locked : Z;
  lk_cpu : Z
}.

(** ** spinlock.c *)

Definition initlock (name : string) : spinlock := mkLock name 0 0.

Definition push_off (h : hart) : hart :=
  let old := h_sie h in
  let intena := if h_noff h =? 0 then old else h_intena h in
  mkHart (h_cpu h) (h_noff h + 1) intena false.

Definition pop_off (h : hart) : outcome hart :=
  if h_sie h then Panic "pop_off - interruptible"
  else if h_noff h <? 1 then Panic "pop_off"
  else
    let noff := h_noff h - 1 in
    let sie := if (noff =? 0) && h_intena h then true else h_sie h in
    Ret (mkHart (h_cpu h) noff (h_intena h) sie).

Definition holding (lk : spinlock) (h : hart) : bool :=
  negb (lk_locked lk =? 0) && (lk_cpu lk =? h_cpu h).

(** The spin on [__sync_lock_test_and_set] does not end while another hart
    holds the lock: that is [Blocked]. *)
Definition acquire (lk : spinlock) (h : hart) : outcome (spinlock * hart) :=
  let h1 := push_off h in
  if holding lk h1 then Panic "acquire"
  else if negb (lk_locked lk =? 0) then Blocked "acquire"
  else Ret (mkLock (lk_name lk) 1 (h_cpu h1), h1).

Definition release (lk : spinlock) (h : hart) : outcome (spinlock * hart) :=
  if negb (holding lk h) then Panic "release"
  else
    let lk1 := mkLock (lk_name lk) 0 0 in
    match pop_off h with
    | Ret h1 => Ret (lk1, h1)
    | Panic msg => Panic msg
    | Fault why => Fault why
    | Blocked why => Blocked why
    | OutOfFuel => OutOfFuel
    end.

(** ** The machine a kernel routine runs on *)

Record mach := mkMach { m_hart : hart; m_mem : mem }.

Class HasMach (S : Type) := {
  mach_of : S -> mach;
  set_mach : mach -> S -> S;
  mach_of_set : forall m s, mach_of (set_mach m s) = m;
  set_mach_of : forall s, set_mach (mach_of s) s = s;
  set_mach_set : forall m m' s, set_mach m (set_mach m' s) = set_mach m s
}.

#[export] Instance mach_HasMach : HasMach mach.
Proof.
  refine {| mach_of := fun s => s; set_mach := fun m _ => m |}; done.
Defined.

Section Machine.
Context {S : Type} `{HasMach S}.

Definition mem_of (s : S) : mem := m_mem (mach_of s).
Definition hart_of (s : S) : hart := m_hart (mach_of s).
Definition set_mem (m : mem) (s : S) : S := set_mach (mkMach (hart_of s) m) s.
Definition set_hart (h : hart) (s : S) : S := set_mach (mkMach h (mem_of s)) s.

(** [p->field] for a field of [n] bytes at offset [off]; a null [p] is a
    fault. *)
Definition getf (n : nat) (p off : Z) : M S Z :=
  if p =? 0 then fault "null" else gets (fun s => ld n (mem_of s) (p + off)).

Definition setf (n : nat) (p off v : Z) : M S unit :=
  if p =? 0 then fault "null" else modify (fun s => set_mem (st n (mem_of s) (p + off) v) s).

(** A lock in static storage. *)
Definition acquire_in (g : S -> spinlock) (p : spinlock -> S -> S) : M S unit :=
  fun s => match acquire (g s) (hart_of s) with
           | Ret (lk, h) => Ret (tt, p lk (set_hart h s))
           | Panic msg => Panic msg
           | Fault why => Fault why
           | Blocked why => Blocked why
           | OutOfFuel => OutOfFuel
           end.

Definition release_in (g : S -> spinlock) (p : spinlock -> S -> S) : M S unit :=
  fun s => match release (g s) (hart_of s) with
           | Ret (lk, h) => Ret (tt, p lk (set_hart h s))
           | Panic msg => Panic msg
           | Fault why => Fault why
           | Blocked why => Blocked why
           | OutOfFuel => OutOfFuel
           end.

(** A [struct spinlock] in memory: [locked] at 0, [name] at 8, [cpu] at 16. *)
Definition lock_at (a : Z) (s : S) : spinlock :=
  mkLock EmptyString (ld32 (mem_of s) a) (ld64 (mem_of s) (a + 16)).

Definition set_lock_at (a : Z) (lk : spinlock) (s : S) : S :=
  set_mem (st64 (st32 (mem_of s) a (lk_locked lk)) (a + 16) (lk_cpu lk)) s.

Definition initlock_at (a name : Z) : M S unit :=
  modify (fun s => set_mem (st64 (st32 (st64 (mem_of s) (a + 8) name) a 0) (a + 16) 0) s).

Definition acquire_at (a : Z) : M S unit := acquire_in (lock_at a) (set_lock_at a).
Definition release_at (a : Z) : M S unit := release_in (lock_at a) (set_lock_at a).

End Machine.

(** ** Laws *)

(** A hart with a positive nesting depth has interrupts off. *)
Definition hart_ok (h : hart) : Prop :=
  0 <= h_noff h /\ (0 < h_noff h -> h_sie h = false) /\ 0 < h_cpu h < 2 ^ 64.

(** The same hart to the rest of the kernel: [intena] only matters while the
    nesting depth is positive. *)
Definition hart_same (h h' : hart) : Prop :=
  h_cpu h' = h_cpu h /\ h_noff h' = h_noff h /\ h_sie h' = h_sie h /\
  (0 < h_noff h -> h_intena h' = h_intena h).

#[export] Instance hart_same_equiv : Equivalence hart_same.
Proof.
  split.
  - by intros h.
  - intros h h' (H1 & H2 & H3 & H4). repeat split; try congruence.
    intros. symmetry. apply H4. lia.
  - intros h1 h2 h3 (A1 & A2 & A3 & A4) (B1 & B2 & B3 & B4).
    repeat split; try congruence. intros. rewrite B4 by lia. by apply A4.
Qed.

#[export] Instance hart_ok_proper : Proper (hart_same ==> iff) hart_ok.
Proof.
  intros h h' (H1 & H2 & H3 & H4). unfold hart_ok. rewrite H1, H2, H3. done.
Qed.

Lemma push_off_ok h : hart_ok h -> hart_ok (push_off h).
Proof. intros (H1 & H2 & H3). repeat split; simpl; lia || done. Qed.


(** [pop_off] undoes [push_off], also after nested pairs in between. *)
Lemma pop_push_off h h2 :
  hart_ok h -> hart_same (push_off h) h2 ->
  exists h3, pop_off h2 = Ret h3 /\ hart_same h h3.
Proof.
  intros (Hn & Hs & Hc) (H1 & H2 & H3 & H4). simpl in *.
  unfold pop_off. rewrite H3, H2.
  replace (h_noff h + 1 <? 1) with false by lia.
  eexists. split; [reflexivity|]. repeat split; simpl; try lia.
  - rewrite H4 by lia. destruct (Z.eqb_spec (h_noff h) 0) as [E|E].
    + rewrite E. simpl. by destruct (h_sie h).
    + replace (h_noff h + 1 - 1 =? 0) with false by lia. simpl. symmetry. apply Hs. lia.
  - intros. rewrite H4 by lia. by replace (h_noff h =? 0) with false by lia.
Qed.

Section LockRules.
Context {S : Type} `{HasMach S}.

Lemma mem_of_set_mem m (s : S) : mem_of (set_mem m s) = m.
Proof. unfold mem_of, set_mem. by rewrite mach_of_set. Qed.

Lemma hart_of_set_mem m (s : S) : hart_of (set_mem m s) = hart_of s.
Proof. unfold hart_of, set_mem. by rewrite mach_of_set. Qed.

Lemma mem_of_set_hart h (s : S) : mem_of (set_hart h s) = mem_of s.
Proof. unfold mem_of, set_hart. by rewrite mach_of_set. Qed.

Lemma hart_of_set_hart h (s : S) : hart_of (set_hart h s) = h.
Proof. unfold hart_of, set_hart. by rewrite mach_of_set. Qed.

Lemma set_mem_set_mem m m' (s : S) : set_mem m (set_mem m' s) = set_mem m s.
Proof. unfold set_mem, hart_of. by rewrite mach_of_set, set_mach_set. Qed.

Lemma set_mem_mem_of (s : S) : set_mem (mem_of s) s = s.
Proof.
  unfold set_mem, hart_of, mem_of. destruct (mach_of s) as [h m] eqn:E. simpl.
  rewrite <- E. apply set_mach_of.
Qed.

Lemma wp_getf n p off Q (s : S) :
  p <> 0 -> Q (ld n (mem_of s) (p + off)) s -> wp (getf n p off) Q s.
Proof. intros Hp HQ. unfold getf. by destruct (Z.eqb_spec p 0). Qed.

Lemma wp_setf n p off v Q (s : S) :
  p <> 0 -> Q tt (set_mem (st n (mem_of s) (p + off) v) s) -> wp (setf n p off v) Q s.
Proof. intros Hp HQ. unfold setf. by destruct (Z.eqb_spec p 0). Qed.

Lemma wp_acquire_in g p Q (s : S) :
  lk_locked (g s) = 0 ->
  Q tt (p (mkLock (lk_name (g s)) 1 (h_cpu (hart_of s))) (set_hart (push_off (hart_of s)) s)) ->
  wp (acquire_in g p) Q s.
Proof.
  intros Hl HQ. unfold wp, acquire_in, acquire, holding. rewrite Hl. simpl. done.
Qed.

Lemma wp_release_in g p Q (s : S) h :
  lk_locked (g s) <> 0 -> lk_cpu (g s) = h_cpu (hart_of s) ->
  pop_off (hart_of s) = Ret h ->
  Q tt (p (mkLock (lk_name (g s)) 0 0) (set_hart h s)) ->
  wp (release_in g p) Q s.
Proof.
  intros Hl Hc Hp HQ. unfold wp, release_in, release, holding.
  destruct (Z.eqb_spec (lk_locked (g s)) 0); [done|]. simpl.
  rewrite Hc, Z.eqb_refl. simpl. by rewrite Hp.
Qed.

End LockRules.

(** ** Mutual exclusion *)

Module Interleaving.

(** Where a hart is in [acquire(lk); ...; release(lk)]: outside, past the
    [holding] check and spinning, past a successful atomic swap, in the
    critical section with [lk->cpu] recorded, and in [release] after
    [lk->cpu = 0]. *)
Inductive pc := Outside | Spinning | Swapped | Critical | Releasing.

Record sys := mkSys { s_locked : Z; s_cpu : option nat; s_pc : nat -> pc }.

Definition at_pc (s : sys) (i : nat) (q : pc) : nat -> pc := <[i := q]> (s_pc s).

(** One atomic step of hart [i], in the order spinlock.c performs them. *)
Inductive step : sys -> sys -> Prop :=
  | step_enter s i :
      s_pc s i = Outside -> ~ (s_locked s <> 0 /\ s_cpu s = Some i) ->
      step s (mkSys (s_locked s) (s_cpu s) (at_pc s i Spinning))
  | step_swap_busy s i :
      s_pc s i = Spinning -> s_locked s <> 0 ->
      step s (mkSys 1 (s_cpu s) (at_pc s i Spinning))
  | step_swap_free s i :
      s_pc s i = Spinning -> s_locked s = 0 ->
      step s (mkSys 1 (s_cpu s) (at_pc s i Swapped))
  | step_record s i :
      s_pc s i = Swapped ->
      step s (mkSys (s_locked s) (Some i) (at_pc s i Critical))
  | step_unrecord s i :
      s_pc s i = Critical ->
      step s (mkSys (s_locked s) None (at_pc s i Releasing))
  | step_unlock s i :
      s_pc s i = Releasing ->
      step s (mkSys 0 (s_cpu s) (at_pc s i Outside)).

Definition init : sys := mkSys 0 None (fun _ => Outside).

Definition owns (q : pc) : bool :=
  match q with Swapped | Critical | Releasing => true | _ => false end.

(** Either nobody owns the lock, or exactly one hart does, and [lk->cpu]
    names it while it is in its critical section. *)
Definition inv (s : sys) : Prop :=
  (s_locked s = 0 /\ s_cpu s = None /\ forall j, owns (s_pc s j) = false) \/
  (exists i, s_locked s = 1 /\ owns (s_pc s i) = true /\
     (forall j, j <> i -> owns (s_pc s j) = false) /\
     s_cpu s = match s_pc s i with Critical => Some i | _ => None end).

Lemma inv_init : inv init.
Proof. by left. Qed.

Lemma at_pc_lookup s i q j : at_pc s i q j = if decide (i = j) then q else s_pc s j.
Proof.
  unfold at_pc. case_decide; subst; [by rewrite fn_lookup_insert|].
  by rewrite fn_lookup_insert_ne.
Qed.

(** A step of a hart that does not own the lock and still does not after. *)
Lemma inv_nonowner s i q :
  inv s -> owns (s_pc s i) = false -> owns q = false ->
  inv (mkSys (s_locked s) (s_cpu s) (at_pc s i q)).
Proof.
  intros [(Hl & Hc & Ho)|(o & Hl & Ho & Hu & Hc)] Hi Hq; [left|right; exists o];
    simpl; repeat setoid_rewrite at_pc_lookup.
  - split; [done|]. split; [done|]. intros j. by case_decide.
  - rewrite decide_False by congruence. repeat split; try done.
    intros j Hj. case_decide; [done|auto].
Qed.

(** A step of a hart that owns the lock in the new state. *)
Lemma inv_owner s i q l c :
  (forall j, j <> i -> owns (s_pc s j) = false) -> owns q = true -> l = 1 ->
  c = match q with Critical => Some i | _ => None end ->
  inv (mkSys l c (at_pc s i q)).
Proof.
  intros Hu Hq -> ->. right. exists i. simpl. repeat setoid_rewrite at_pc_lookup.
  rewrite decide_True by done. repeat split; try done.
  intros j Hj. by rewrite decide_False by congruence; apply Hu.
Qed.

Lemma inv_owner_unique s i :
  inv s -> owns (s_pc s i) = true ->
  s_locked s = 1 /\ (forall j, j <> i -> owns (s_pc s j) = false) /\
  s_cpu s = match s_pc s i with Critical => Some i | _ => None end.
Proof.
  intros [(Hl & Hc & Ho)|(o & Hl & Ho & Hu & Hc)] Hi; [by rewrite Ho in Hi|].
  destruct (decide (i = o)) as [->|Hne]; [done|]. by rewrite Hu in Hi.
Qed.

Lemma inv_step s s' : inv s -> step s s' -> inv s'.
Proof.
  intros Hinv Hs. destruct Hs as [s i Hi _|s i Hi Hl|s i Hi Hl|s i Hi|s i Hi|s i Hi].
  - apply inv_nonowner; by rewrite ?Hi.
  - pose proof Hinv as [(Hz & _)|(o & Hz & _)]; [lia|]. rewrite <- Hz.
    apply inv_nonowner; by rewrite ?Hi.
  - destruct Hinv as [(Hz & Hc & Ho)|(o & Hz & _)]; [|lia].
    apply inv_owner; auto.
  - destruct (inv_owner_unique s i Hinv) as (Hz & Hu & Hc); [by rewrite Hi|].
    by apply inv_owner.
  - destruct (inv_owner_unique s i Hinv) as (Hz & Hu & Hc); [by rewrite Hi|].
    by apply inv_owner.
  - destruct (inv_owner_unique s i Hinv) as (Hz & Hu & Hc); [by rewrite Hi|].
    rewrite Hi in Hc. left. simpl. split; [done|]. split; [done|].
    intros j. rewrite at_pc_lookup. case_decide; [done|]. apply Hu. congruence.
Qed.

Lemma inv_reachable s : rtc step init s -> inv s.
Proof.
  intros Hr. pattern s. eapply rtc_ind_r; [apply inv_init| |exact Hr].
  intros x y _ Hxy Hx. eapply inv_step; eauto.
Qed.

(** C22: spinlocks give mutual exclusion: in every state any interleaving of
    the harts can reach, at most one hart is between its successful atomic
    swap and its unlocking store, and [holding()] (the lock is taken and
    [lk->cpu] is this hart) is true for a hart exactly while it is in its
    critical section. *)
Theorem spinlock_mutual_exclusion s :
  rtc step init s ->
  (forall i j, owns (s_pc s i) = true -> owns (s_pc s j) = true -> i = j) /\
  (forall i, s_pc s i = Critical <-> s_locked s <> 0 /\ s_cpu s = Some i).
Proof.
  intros Hr. pose proof (inv_reachable s Hr) as Hinv. split.
  - intros i j Hi Hj. destruct (decide (j = i)) as [|Hne]; [done|].
    destruct (inv_owner_unique s i Hinv Hi) as (_ & Hu & _). by rewrite Hu in Hj.
  - intros i. split.
    + intros Hi. destruct (inv_owner_unique s i Hinv) as (Hl & _ & Hc); [by rewrite Hi|].
      rewrite Hi in Hc. split; [lia|done].
    + intros [Hl Hc]. destruct Hinv as [(Hz & _)|(o & _ & _ & _ & Ho)]; [lia|].
      rewrite Hc in Ho. destruct (s_pc s o) eqn:E; try done. by injection Ho as ->.
Qed.

(** Hart 3 takes the lock while hart 5 spins. *)
Definition contended : sys :=
  mkSys 1 (Some 3%nat) (at_pc (mkSys 1 None (at_pc (mkSys 0 None
    (at_pc (mkSys 0 None (at_pc init 3%nat Spinning)) 5%nat Spinning)) 3%nat Swapped)) 3%nat Critical).

Lemma contended_reachable : rtc step init contended.
Proof.
  eapply rtc_l; [apply (step_enter _ 3%nat); [done|by intros []]|].
  eapply rtc_l; [apply (step_enter _ 5%nat); [done|by intros []]|].
  eapply rtc_l; [by apply (step_swap_free _ 3%nat)|].
  eapply rtc_l; [by apply (step_record _ 3%nat)|]. apply rtc_refl.
Qed.

Lemma spinlock_mutual_exclusion_witness :
  s_pc contended 3%nat = Critical /\ s_pc contended 5%nat = Spinning /\
  (forall i, s_pc contended i = Critical <-> s_locked contended <> 0 /\ s_cpu contended = Some i).
Proof.
  split; [reflexivity|]. split; [reflexivity|].
  exact (proj2 (spinlock_mutual_exclusion contended contended_reachable)).
Defined.

End Interleaving.

(** ** Nesting *)

Module Nesting.

Inductive op := Push | Pop.

Definition exec_op (o : op) (h : hart) : outcome hart :=
  match o with Push => Ret (push_off h) | Pop => pop_off h end.

Fixpoint exec (w : list op) (h : hart) : outcome hart :=
  match w with
  | [] => Ret h
  | o :: w => match exec_op o h with
              | Ret h' => exec w h'
              | Panic msg => Panic msg
              | Fault why => Fault why
              | Blocked why => Blocked why
              | OutOfFuel => OutOfFuel
              end
  end.

(** Well-bracketed sequences of [push_off] and [pop_off]. *)
Inductive balanced : list op -> Prop :=
  | balanced_nil : balanced []
  | balanced_pair w w' : balanced w -> balanced w' -> balanced (Push :: w ++ Pop :: w').

Lemma exec_app w w' h h' : exec w h = Ret h' -> exec (w ++ w') h = exec w' h'.
Proof.
  revert h. induction w as [|o w IH]; intros h H; simpl in *; [by injection H as ->|].
  destruct (exec_op o h) as [h1| | | |]; try done. by apply IH.
Qed.

(** a well-bracketed sequence of [push_off] and [pop_off] never panics
    and leaves the hart as it found it: the same nesting depth, and interrupts
    on exactly if they were on before. *)
Theorem push_pop_balanced w h :
  balanced w -> hart_ok h -> exists h', exec w h = Ret h' /\ hart_same h h'.
Proof.
  intros Hw. revert h. induction Hw as [|w w' Hw IH Hw' IH']; intros h Hok; [by exists h|].
  simpl. destruct (IH (push_off h)) as (h1 & E1 & S1); [by apply push_off_ok|].
  rewrite (exec_app _ _ _ _ E1). simpl.
  destruct (pop_push_off h h1 Hok S1) as (h2 & -> & S2).
  destruct (IH' h2) as (h3 & E3 & S3); [by apply (hart_ok_proper _ _ S2)|].
  exists h3. split; [done|]. by rewrite S2.
Qed.

Lemma push_pop_balanced_witness :
  exists h', exec [Push; Push; Pop; Pop] (mkHart 1 0 false true) = Ret h' /\
    hart_same (mkHart 1 0 false true) h'.
Proof.
  apply push_pop_balanced; [|repeat split; done].
  exact (balanced_pair [Push; Pop] [] (balanced_pair [] [] balanced_nil balanced_nil) balanced_nil).
Defined.

End Nesting.
