(* ===== verification/BuddySpec.v ===== *)
(** * Abstract buddy allocation

    The contract of kernel/buddy.c, free of pointers: a region of [2^k]
    units, free blocks [(order, index)] grouped by order, and the two moves
    the allocator makes on them, splitting a block into its two buddies and
    merging two free buddies.  [wf] is the type invariant (free blocks are
    aligned, inside the region and disjoint, and no two buddies are both
    free); [held] describes the block in the hands of the running operation.
    [fits_complete] is what makes the allocator complete: whenever an
    aligned run of [2^o] free units exists, some free block of order at
    least [o] exists. *)

From Stdlib Require Import ZArith Lia Bool.
From stdpp Require Import base list functions.
From S2P Require Import Prelude.

(** ** Data *)

Abbreviation flists := (Z -> list Z).

Definition blk_ok (k o b : Z) : Prop :=
  0 <= o <= k /\ 0 <= b /\ (2 ^ o | b) /\ b + 2 ^ o <= 2 ^ k.

Definition disj (o b o' b' : Z) : Prop := b + 2 ^ o <= b' \/ b' + 2 ^ o' <= b.

Definition buddy_of (o b : Z) : Z := Z.lxor b (2 ^ o).
Definition parent_of (o b : Z) : Z := Z.ldiff b (2 ^ o).

Record wf (k : Z) (fl : flists) : Prop := {
  wf_ok : forall o b, b ∈ fl o -> blk_ok k o b;
  wf_nodup : forall o, NoDup (fl o);
  wf_disj : forall o b o' b',
    b ∈ fl o -> b' ∈ fl o' -> (o, b) <> (o', b') -> disj o b o' b';
  wf_canon : forall o b, b ∈ fl o -> o < k -> buddy_of o b ∉ fl o
}.

Definition held (k : Z) (fl : flists) (o b : Z) : Prop :=
  blk_ok k o b /\ forall o' b', b' ∈ fl o' -> disj o b o' b'.

(** The free 4096-byte units. *)
Definition free_unit (fl : flists) (u : Z) : Prop :=
  exists o b, b ∈ fl o /\ b <= u < b + 2 ^ o.

Definition units (fl : flists) : list Z :=
  seqZ 0 15 ≫= fun o => fl o ≫= fun b => seqZ b (2 ^ o).

Definition push (o b : Z) (fl : flists) : flists := <[o := b :: fl o]> fl.

(** ** Arithmetic of buddies *)

Lemma lxor_even_1 r : Z.lxor (2 * r) 1 = 2 * r + 1.
Proof.
  rewrite <- (Z.add_nocarry_lxor (2 * r) 1); [done|].
  apply Z.bits_inj'. intros n Hn. rewrite Z.land_spec, Z.bits_0.
  destruct (Z.eq_dec n 0) as [->|]; [by rewrite Z.testbit_even_0|].
  rewrite (Z.bits_above_log2 1) by (simpl; lia). apply andb_false_r.
Qed.

Lemma lxor_1 q : Z.lxor q 1 = if Z.even q then q + 1 else q - 1.
Proof.
  destruct (Z.even q) eqn:E.
  - apply Z.even_spec in E as [r ->]. apply lxor_even_1.
  - assert (Z.odd q = true) as Ho by (by rewrite <- Z.negb_even, E).
    apply Z.odd_spec in Ho as [r ->]. rewrite <- lxor_even_1.
    rewrite Z.lxor_assoc, Z.lxor_nilpotent, Z.lxor_0_r, lxor_even_1. lia.
Qed.

Lemma ldiff_1 q : Z.ldiff q 1 = if Z.even q then q else q - 1.
Proof.
  change (Z.ldiff q 1) with (Z.ldiff q (Z.ones 1)). rewrite Z.ldiff_ones_r by lia.
  rewrite Z.shiftl_mul_pow2, Z.shiftr_div_pow2 by lia.
  change (2 ^ 1) with 2. destruct (Z.even q) eqn:E.
  - apply Z.even_spec in E as [r ->]. zdiv.
  - assert (Z.odd q = true) as Ho by (by rewrite <- Z.negb_even, E).
    apply Z.odd_spec in Ho as [r ->]. zdiv.
Qed.

Lemma buddy_of_mul o q :
  0 <= o -> buddy_of o (2 ^ o * q) = 2 ^ o * (if Z.even q then q + 1 else q - 1).
Proof.
  intros Ho. unfold buddy_of.
  replace (2 ^ o * q) with (Z.shiftl q o) by (rewrite Z.shiftl_mul_pow2; lia).
  replace (2 ^ o) with (Z.shiftl 1 o) at 1 by (rewrite Z.shiftl_mul_pow2; lia).
  rewrite <- Z.shiftl_lxor, lxor_1, Z.shiftl_mul_pow2 by lia. lia.
Qed.

Lemma parent_of_mul o q :
  0 <= o -> parent_of o (2 ^ o * q) = 2 ^ o * (if Z.even q then q else q - 1).
Proof.
  intros Ho. unfold parent_of.
  replace (2 ^ o * q) with (Z.shiftl q o) by (rewrite Z.shiftl_mul_pow2; lia).
  replace (2 ^ o) with (Z.shiftl 1 o) at 1 by (rewrite Z.shiftl_mul_pow2; lia).
  rewrite <- Z.shiftl_ldiff, ldiff_1, Z.shiftl_mul_pow2 by lia. lia.
Qed.

(** The two cases for an aligned block: it is the left or the right half of
    its parent. *)
Lemma buddy_cases o b :
  0 <= o -> (2 ^ o | b) ->
  (buddy_of o b = b + 2 ^ o /\ parent_of o b = b /\ (2 ^ (o + 1) | b)) \/
  (buddy_of o b = b - 2 ^ o /\ parent_of o b = b - 2 ^ o /\ (2 ^ (o + 1) | b - 2 ^ o)).
Proof.
  intros Ho [q ->]. rewrite (Z.mul_comm q), buddy_of_mul, parent_of_mul by done.
  rewrite (Z.pow_add_r 2 o 1) by lia. change (2 ^ 1) with 2.
  destruct (Z.even q) eqn:E.
  - left. split; [lia|]. split; [done|]. apply Z.even_spec in E as [r ->]. exists r. lia.
  - right. split; [lia|]. split; [lia|].
    assert (Z.odd q = true) as Hq by (by rewrite <- Z.negb_even, E).
    apply Z.odd_spec in Hq as [r ->]. exists r. lia.
Qed.

Lemma buddy_of_double o b : 0 <= o -> (2 ^ (o + 1) | b) -> buddy_of o (b + 2 ^ o) = b.
Proof.
  intros Ho [q ->]. rewrite (Z.pow_add_r 2 o 1) by lia. change (2 ^ 1) with 2.
  replace (q * (2 ^ o * 2) + 2 ^ o) with (2 ^ o * (2 * q + 1)) by lia.
  rewrite buddy_of_mul by done. rewrite Z.add_comm, Z.even_add_mul_2. simpl. lia.
Qed.

(** Aligned blocks are nested or disjoint. *)
Lemma aligned_nested o b o' b' u :
  0 <= o <= o' -> (2 ^ o | b) -> (2 ^ o' | b') ->
  b <= u < b + 2 ^ o -> b' <= u < b' + 2 ^ o' ->
  b' <= b /\ b + 2 ^ o <= b' + 2 ^ o'.
Proof.
  intros Ho [q ->] [q' ->] Hu Hu'.
  replace (2 ^ o') with (2 ^ (o' - o) * 2 ^ o) in * by (rewrite <- Z.pow_add_r by lia; f_equal; lia).
  pose proof (pow2_pos o). pose proof (pow2_pos (o' - o)).
  assert (q' * 2 ^ (o' - o) <= q) by nia.
  assert (q < (q' + 1) * 2 ^ (o' - o)) by nia. nia.
Qed.

Lemma divide_pow2_le o o' b : 0 <= o <= o' -> (2 ^ o' | b) -> (2 ^ o | b).
Proof.
  intros Ho H. etransitivity; [|exact H]. exists (2 ^ (o' - o)).
  rewrite <- Z.pow_add_r by lia. f_equal. lia.
Qed.

(** ** Moves on the free lists *)

Lemma push_elem o b fl o' b' :
  b' ∈ push o b fl o' <-> (o' = o /\ b' = b) \/ b' ∈ fl o'.
Proof.
  unfold push. destruct (decide (o = o')) as [<-|Hne].
  - rewrite fn_lookup_insert, elem_of_cons. intuition.
  - rewrite fn_lookup_insert_ne by done. split; [auto|]. by intros [[-> _]|H].
Qed.

Lemma disj_irrefl o b : 0 <= o -> ~ disj o b o b.
Proof. intros Ho. unfold disj. pose proof (pow2_pos o). lia. Qed.

Lemma disj_sym o b o' b' : disj o b o' b' -> disj o' b' o b.
Proof. unfold disj. tauto. Qed.

Lemma held_not_in k fl o b : held k fl o b -> b ∉ fl o.
Proof.
  intros [[Ho _] Hd] Hin. eapply disj_irrefl; [|by apply Hd]. lia.
Qed.

(** Free a held block whose buddy is not free. *)
Lemma wf_push k fl o b :
  wf k fl -> held k fl o b -> (o < k -> buddy_of o b ∉ fl o) -> wf k (push o b fl).
Proof.
  intros W Hh Hc. pose proof Hh as [Hb Hd]. split.
  - intros o' b' [[-> ->]|H]%push_elem; [done|]. by apply (wf_ok _ _ W).
  - intros o'. unfold push. destruct (decide (o = o')) as [<-|Hne].
    + rewrite fn_lookup_insert. constructor; [|apply (wf_nodup _ _ W)].
      by eapply held_not_in.
    + rewrite fn_lookup_insert_ne by done. apply (wf_nodup _ _ W).
  - intros o1 b1 o2 b2 [[-> ->]|H1]%push_elem [[-> ->]|H2]%push_elem Hne; try done.
    + by apply Hd.
    + by apply disj_sym, Hd.
    + by eapply (wf_disj _ _ W).
  - intros o' b' H1 Hlt H2. apply push_elem in H1 as [[-> ->]|H1];
      apply push_elem in H2 as [[E1 E2]|H2].
    + unfold buddy_of in E2. apply (f_equal (Z.lxor b)) in E2.
      rewrite <- Z.lxor_assoc, Z.lxor_nilpotent, Z.lxor_0_l in E2.
      pose proof (pow2_pos o). destruct Hb. lia.
    + by apply Hc.
    + subst o'. apply Hc; [done|]. rewrite <- E2. unfold buddy_of.
      by rewrite Z.lxor_assoc, Z.lxor_nilpotent, Z.lxor_0_r.
    + exact (wf_canon _ _ W _ _ H1 Hlt H2).
Qed.

Lemma free_unit_push o b fl u :
  free_unit (push o b fl) u <-> (b <= u < b + 2 ^ o) \/ free_unit fl u.
Proof.
  unfold free_unit. setoid_rewrite push_elem. split.
  - intros (o' & b' & [[-> ->]|H] & Hu); eauto.
  - intros [Hu|(o' & b' & H & Hu)]; eauto 10.
Qed.

(** Take a block out of its list. *)
Definition removed (o b : Z) (fl fl' : flists) : Prop :=
  exists l1 l2, fl o = l1 ++ b :: l2 /\ fl' = <[o := l1 ++ l2]> fl.

Lemma removed_elem k o b fl fl' o' b' :
  wf k fl -> removed o b fl fl' ->
  b' ∈ fl' o' <-> b' ∈ fl o' /\ (o', b') <> (o, b).
Proof.
  intros W (l1 & l2 & Hl & ->). destruct (decide (o = o')) as [<-|Hne].
  - rewrite fn_lookup_insert, Hl. pose proof (wf_nodup _ _ W o) as Hnd.
    rewrite Hl in Hnd. apply list.NoDup_app in Hnd as (Hn1 & Hn2 & Hn3).
    apply list.NoDup_cons in Hn3 as [Hn3 _].
    rewrite !elem_of_app, elem_of_cons. split.
    + intros H. split; [tauto|]. intros [= ->]. destruct H as [H|H]; [|done].
      apply (Hn2 b H). constructor.
    + intros [[H|[->|H]] Hne]; tauto.
  - rewrite fn_lookup_insert_ne by done. split; [|by intros [? _]].
    intros H. split; [done|]. congruence.
Qed.

Lemma removed_in o b fl fl' : removed o b fl fl' -> b ∈ fl o.
Proof. intros (l1 & l2 & -> & _). apply elem_of_app; right; constructor. Qed.

Lemma wf_removed k o b fl fl' : wf k fl -> removed o b fl fl' -> wf k fl'.
Proof.
  intros W R. pose proof (fun o' b' => proj1 (removed_elem k o b fl fl' o' b' W R)) as He.
  split.
  - intros o' b' H. apply (wf_ok _ _ W), He, H.
  - intros o'. pose proof R as (l1 & l2 & Hl & ->). destruct (decide (o = o')) as [<-|Hne].
    + rewrite fn_lookup_insert. pose proof (wf_nodup _ _ W o) as Hnd. rewrite Hl in Hnd.
      apply list.NoDup_app in Hnd as (Hn1 & Hn2 & Hn3). apply list.NoDup_cons in Hn3 as [_ Hn3].
      apply list.NoDup_app. repeat split; try done. intros x Hx Hx2. apply (Hn2 x Hx).
      by constructor.
    + rewrite fn_lookup_insert_ne by done. apply (wf_nodup _ _ W).
  - intros o1 b1 o2 b2 H1 H2 Hne. by apply (wf_disj _ _ W); [apply He|apply He|].
  - intros o' b' H1 Hlt H2. apply (wf_canon _ _ W o' b'); [apply He, H1|done|apply He, H2].
Qed.

Lemma held_removed k o b fl fl' : wf k fl -> removed o b fl fl' -> held k fl' o b.
Proof.
  intros W R. pose proof (removed_in _ _ _ _ R) as Hin. split; [by apply (wf_ok _ _ W)|].
  intros o' b' H. apply (removed_elem k o b fl) in H as [H Hne]; [|done|done].
  apply (wf_disj _ _ W); [done|done|congruence].
Qed.

Lemma free_unit_removed k o b fl fl' u :
  wf k fl -> removed o b fl fl' ->
  free_unit fl u <-> (b <= u < b + 2 ^ o) \/ free_unit fl' u.
Proof.
  intros W R. unfold free_unit. setoid_rewrite (removed_elem k o b fl fl'); [|done|done].
  pose proof (removed_in _ _ _ _ R). split.
  - intros (o' & b' & H1 & H2). destruct (decide ((o', b') = (o, b))) as [[= -> ->]|Hne]; eauto.
    right. eauto 10.
  - intros [Hu|(o' & b' & [H1 _] & H2)]; eauto.
Qed.

Lemma held_not_free k fl o b u : held k fl o b -> b <= u < b + 2 ^ o -> ~ free_unit fl u.
Proof.
  intros [Hb Hd] Hu (o' & b' & Hin & Hu'). specialize (Hd _ _ Hin). unfold disj in Hd. lia.
Qed.

(** ** Splitting and merging *)

Lemma split_ok k fl o b :
  wf k fl -> held k fl o b -> 0 < o ->
  wf k (push (o - 1) (b + 2 ^ (o - 1)) fl) /\
  held k (push (o - 1) (b + 2 ^ (o - 1)) fl) (o - 1) b.
Proof.
  intros W [(Ho & Hb0 & Hal & Hbk) Hd] Hpos.
  assert (2 ^ o = 2 ^ (o - 1) + 2 ^ (o - 1)) as Hpow.
  { replace o with (o - 1 + 1) at 1 by lia. rewrite Z.pow_add_r by lia. lia. }
  pose proof (pow2_pos (o - 1)) as Hp.
  assert ((2 ^ (o - 1) | b)) as Hal' by (eapply divide_pow2_le; [|done]; lia).
  assert (held k fl (o - 1) (b + 2 ^ (o - 1))) as Hr.
  { split.
    - repeat split; try lia. by apply Z.divide_add_r; [|exists 1; lia].
    - intros o' b' Hin. specialize (Hd _ _ Hin). unfold disj in *. lia. }
  assert (buddy_of (o - 1) (b + 2 ^ (o - 1)) = b) as Hbud.
  { apply buddy_of_double; [lia|]. by replace (o - 1 + 1) with o by lia. }
  split.
  - apply wf_push; [done|done|]. intros _. rewrite Hbud. intros Hin.
    specialize (Hd _ _ Hin). unfold disj in Hd. lia.
  - split; [repeat split; lia || done|].
    intros o' b' [[-> ->]|Hin]%push_elem; [unfold disj; lia|].
    specialize (Hd _ _ Hin). unfold disj in *. lia.
Qed.

Lemma merge_ok k fl fl' o b :
  wf k fl -> held k fl o b -> o < k -> removed o (buddy_of o b) fl fl' ->
  held k fl' (o + 1) (parent_of o b).
Proof.
  intros W [(Ho & Hb0 & Hal & Hbk) Hd] Hlt R.
  pose proof (wf_ok _ _ W _ _ (removed_in _ _ _ _ R)) as (_ & Hc0 & _ & Hck).
  destruct (held_removed _ _ _ _ _ W R) as [_ Hd'].
  assert (2 ^ (o + 1) = 2 ^ o + 2 ^ o) as Hpow by (rewrite Z.pow_add_r by lia; lia).
  assert (forall o' b', b' ∈ fl' o' -> disj o b o' b') as Hd2.
  { intros o' b' Hin. apply Hd. by apply (removed_elem k o (buddy_of o b) fl fl') in Hin as [? _]. }
  assert (forall o' b', b' ∈ fl' o' -> 0 < 2 ^ o') as Hp'.
  { intros o' b' Hin. apply pow2_pos.
    by destruct (wf_ok _ _ (wf_removed _ _ _ _ _ W R) _ _ Hin) as [[? _] _]. }
  destruct (buddy_cases o b) as [(Eb & Ep & Hdiv)|(Eb & Ep & Hdiv)]; [lia|done| |];
    rewrite Eb in *; rewrite Ep; (split; [repeat split; lia || done|]);
    intros o' b' Hin; specialize (Hd' _ _ Hin); specialize (Hd2 _ _ Hin);
    specialize (Hp' _ _ Hin); unfold disj in *; lia.
Qed.

Lemma merge_units k fl fl' o b u :
  wf k fl -> held k fl o b -> removed o (buddy_of o b) fl fl' ->
  (parent_of o b <= u < parent_of o b + 2 ^ (o + 1)) \/ free_unit fl' u <->
  (b <= u < b + 2 ^ o) \/ free_unit fl u.
Proof.
  intros W [(Ho & Hb0 & Hal & Hbk) Hd] R.
  rewrite (free_unit_removed k o (buddy_of o b) fl fl' u W R).
  assert (2 ^ (o + 1) = 2 ^ o + 2 ^ o) as Hpow by (rewrite Z.pow_add_r by lia; lia).
  destruct (buddy_cases o b) as [(-> & -> & _)|(-> & -> & _)]; [lia|done| |];
    rewrite Hpow; split; intros [H|H]; auto; try destruct H; auto; lia.
Qed.

(** ** Completeness: no external fragmentation below the buddy structure *)

Lemma block_units fl o b u : b ∈ fl o -> b <= u < b + 2 ^ o -> free_unit fl u.
Proof. intros. by exists o, b. Qed.

Lemma fits_complete k fl o c :
  wf k fl -> 0 <= o -> (2 ^ o | c) ->
  (forall u, c <= u < c + 2 ^ o -> free_unit fl u) ->
  exists o' b', o <= o' /\ b' ∈ fl o' /\ b' <= c /\ c + 2 ^ o <= b' + 2 ^ o'.
Proof.
  intros W Ho. revert c. pattern o. apply natlike_ind; [| |done]; clear o Ho.
  { intros c _ Hu. destruct (Hu c) as (o' & b' & Hin & Hr); [simpl; lia|].
    destruct (wf_ok _ _ W _ _ Hin) as [? _]. exists o', b'. simpl. lia || (repeat split; lia || done). }
  intros o Ho IH c Hal Hu. rewrite Z.pow_succ_r in * by lia.
  assert (2 ^ o | c) as Hal1 by (etransitivity; [|exact Hal]; exists 2; lia).
  assert (2 ^ o | c + 2 ^ o) as Hal2 by (apply Z.divide_add_r; [done|exists 1; lia]).
  destruct (IH c) as (o1 & b1 & Ho1 & Hin1 & Hl1 & Hr1); [done|intros; apply Hu; lia|].
  destruct (IH (c + 2 ^ o)) as (o2 & b2 & Ho2 & Hin2 & Hl2 & Hr2); [done|intros; apply Hu; lia|].
  pose proof (pow2_pos o Ho) as Hp.
  assert (forall o' b' u, o < o' -> b' ∈ fl o' -> c <= u < c + 2 * 2 ^ o ->
            b' <= u < b' + 2 ^ o' ->
            exists o' b', Z.succ o <= o' /\ b' ∈ fl o' /\ b' <= c /\
                          c + 2 * 2 ^ o <= b' + 2 ^ o') as Hbig.
  { intros o' b' u Hlt Hin Hu1 Hu2. destruct (wf_ok _ _ W _ _ Hin) as (_ & _ & Hal' & _).
    destruct (aligned_nested (o + 1) c o' b' u) as [? ?]; try done; try lia;
      rewrite ?Z.pow_add_r, ?Z.pow_1_r by lia; try lia; [by rewrite Z.mul_comm|].
    rewrite Z.pow_add_r in * by lia. exists o', b'. repeat split; try done; lia. }
  destruct (decide (o < o1)) as [Hlt|?]; [apply (Hbig o1 b1 c); try done; lia|].
  destruct (decide (o < o2)) as [Hlt|?]; [apply (Hbig o2 b2 (c + 2 ^ o)); try done; lia|].
  assert (o1 = o) as -> by lia. assert (o2 = o) as -> by lia.
  assert (b1 = c) as -> by lia. assert (b2 = c + 2 ^ o) as -> by lia.
  exfalso. destruct (wf_ok _ _ W _ _ Hin2) as (Hk & _ & _ & Hr).
  assert (o < k) as Hlt.
  { destruct (decide (o = k)) as [->|]; [|lia].
    destruct (wf_ok _ _ W _ _ Hin1) as (_ & ? & _ & _). lia. }
  apply (wf_canon _ _ W _ _ Hin2 Hlt).
  rewrite buddy_of_double; [done|done|].
  rewrite Z.pow_add_r by lia. by rewrite Z.mul_comm.
Qed.

(** The lists are determined by the set of free units: whatever the order of
    the allocations and frees, the same free memory is held in the same
    maximal blocks. *)
Lemma wf_determined k fl fl' o b :
  wf k fl -> wf k fl' -> (forall u, free_unit fl u <-> free_unit fl' u) ->
  b ∈ fl o -> b ∈ fl' o.
Proof.
  intros W W' Hu Hin. destruct (wf_ok _ _ W _ _ Hin) as (Ho & _ & Hal & _).
  destruct (fits_complete k fl' o b) as (o1 & b1 & Ho1 & Hin1 & Hl1 & Hr1); try done; try lia.
  { intros u H. apply Hu. eapply block_units; eauto. }
  destruct (wf_ok _ _ W' _ _ Hin1) as (Hk1 & _ & Hal1 & _).
  destruct (fits_complete k fl o1 b1) as (o2 & b2 & Ho2 & Hin2 & Hl2 & Hr2); try done; try lia.
  { intros u H. apply Hu. eapply block_units; eauto. }
  pose proof (pow2_pos o ltac:(lia)).
  destruct (decide ((o, b) = (o2, b2))) as [[= -> ->]|Hne].
  - assert (o1 = o2) as -> by lia. assert (b1 = b2) as -> by lia. done.
  - pose proof (wf_disj _ _ W _ _ _ _ Hin Hin2 Hne) as Hd. unfold disj in Hd. lia.
Qed.

(** ** Counting free units *)

Definition free_count (fl : flists) : Z := Z.of_nat (length (units fl)).

Lemma elem_of_units k fl u : wf k fl -> k < 15 -> u ∈ units fl <-> free_unit fl u.
Proof.
  intros W Hk. unfold units, free_unit. rewrite list_elem_of_bind. split.
  - intros (o & Hu & Ho). apply list_elem_of_bind in Hu as (b & Hu & Hb).
    apply elem_of_seqZ in Hu. eauto.
  - intros (o & b & Hb & Hu). exists o. destruct (wf_ok _ _ W _ _ Hb) as [? _].
    split; [|apply elem_of_seqZ; lia]. apply list_elem_of_bind. exists b.
    split; [by apply elem_of_seqZ|done].
Qed.

Lemma NoDup_units k fl : wf k fl -> NoDup (units fl).
Proof.
  intros W.
  assert (forall o1 b1 o2 b2 u, b1 ∈ fl o1 -> b2 ∈ fl o2 -> u ∈ seqZ b1 (2 ^ o1) ->
            u ∈ seqZ b2 (2 ^ o2) -> (o1, b1) = (o2, b2)) as Huniq.
  { intros o1 b1 o2 b2 u H1 H2 Hu1%elem_of_seqZ Hu2%elem_of_seqZ.
    destruct (decide ((o1, b1) = (o2, b2))) as [|Hne]; [done|].
    pose proof (wf_disj _ _ W _ _ _ _ H1 H2 Hne) as Hd. unfold disj in Hd. lia. }
  apply NoDup_bind; [| |apply NoDup_seqZ].
  - intros o1 o2 u _ _ (b1 & Hu1 & H1)%list_elem_of_bind (b2 & Hu2 & H2)%list_elem_of_bind.
    by injection (Huniq _ _ _ _ _ H1 H2 Hu1 Hu2).
  - intros o _. apply NoDup_bind; [|intros; apply NoDup_seqZ|apply (wf_nodup _ _ W)].
    intros b1 b2 u H1 H2 Hu1 Hu2. by injection (Huniq _ _ _ _ _ H1 H2 Hu1 Hu2).
Qed.

Definition weight (fl : flists) (o : Z) : Z := 2 ^ o * Z.of_nat (length (fl o)).

Lemma length_blocks (l : list Z) n :
  0 <= n -> Z.of_nat (length (l ≫= fun b => seqZ b n)) = n * Z.of_nat (length l).
Proof.
  intros Hn. induction l as [|b l IH]; [simpl; lia|].
  rewrite bind_cons, length_cons, length_app, length_seqZ, Nat2Z.inj_add, IH, Z2Nat.id by done. lia.
Qed.

Lemma free_count_weight fl :
  free_count fl = foldr Z.add 0 (weight fl <$> seqZ 0 15).
Proof.
  unfold free_count, units.
  assert (forall l, (forall o, o ∈ l -> 0 <= o) ->
    Z.of_nat (length (l ≫= fun o => fl o ≫= fun b => seqZ b (2 ^ o))) =
    foldr Z.add 0 (weight fl <$> l)) as H.
  { induction l as [|o l IH]; intros Hl; [done|].
    rewrite bind_cons, fmap_cons, length_app, Nat2Z.inj_add, IH by (intros; apply Hl; by constructor).
    rewrite length_blocks; [done|]. apply Z.pow_nonneg. lia. }
  apply H. intros o Ho%elem_of_seqZ. lia.
Qed.

Lemma free_count_insert fl o l :
  0 <= o < 15 ->
  free_count (<[o := l]> fl) =
  free_count fl + 2 ^ o * (Z.of_nat (length l) - Z.of_nat (length (fl o))).
Proof.
  intros Ho. rewrite !free_count_weight.
  assert (forall L, NoDup L ->
    foldr Z.add 0 (weight (<[o := l]> fl) <$> L) =
    foldr Z.add 0 (weight fl <$> L) +
    (if decide (o ∈ L) then 2 ^ o * (Z.of_nat (length l) - Z.of_nat (length (fl o))) else 0)) as H.
  { induction L as [|a L IH]; intros Hnd.
    { rewrite decide_False by (by intros ?%elem_of_nil). simpl. lia. }
    apply list.NoDup_cons in Hnd as [Ha Hnd]. rewrite !fmap_cons. cbn [foldr].
    rewrite IH by done. unfold weight at 1 3. destruct (decide (a = o)) as [->|Hne].
    - rewrite fn_lookup_insert, decide_False, decide_True; [lia|by constructor|done].
    - rewrite fn_lookup_insert_ne by done.
      destruct (decide (o ∈ L)); [rewrite decide_True by (by constructor)|
        rewrite decide_False by (by intros [?|?]%elem_of_cons)]; lia. }
  rewrite H by apply NoDup_seqZ. rewrite decide_True; [done|]. apply elem_of_seqZ. lia.
Qed.

Lemma free_count_push fl o b :
  0 <= o < 15 -> free_count (push o b fl) = free_count fl + 2 ^ o.
Proof. intros Ho. unfold push. rewrite free_count_insert by done. simpl length. lia. Qed.

Lemma free_count_removed fl fl' o b :
  0 <= o < 15 -> removed o b fl fl' -> free_count fl' = free_count fl - 2 ^ o.
Proof.
  intros Ho (l1 & l2 & Hl & ->). rewrite free_count_insert by done.
  rewrite Hl, !length_app. simpl length. lia.
Qed.

Lemma free_count_held_bound k fl o b :
  wf k fl -> k < 15 -> held k fl o b -> free_count fl + 2 ^ o <= 2 ^ k.
Proof.
  intros W Hk Hh. pose proof Hh as [(Ho & Hb & Hal & Hbk) _].
  pose proof (pow2_pos o ltac:(lia)). pose proof (pow2_pos k ltac:(lia)).
  assert (length (seqZ b (2 ^ o) ++ units fl) <= Z.to_nat (2 ^ k))%nat as Hlen.
  { apply NoDup_bounded_length.
    - apply list.NoDup_app. repeat split; [apply NoDup_seqZ| |by eapply NoDup_units].
      intros u Hu%elem_of_seqZ Hf. apply (elem_of_units k) in Hf; [|done|done].
      by eapply held_not_free.
    - intros u [Hu%elem_of_seqZ|Hu]%elem_of_app; [lia|].
      apply (elem_of_units k) in Hu as (o' & b' & Hin & Hu); [|done|done].
      destruct (wf_ok _ _ W _ _ Hin) as (? & ? & ? & ?). lia. }
  rewrite length_app, length_seqZ in Hlen. unfold free_count. lia.
Qed.

Lemma list_length_bound k fl o : wf k fl -> 0 <= k -> (length (fl o) <= Z.to_nat (2 ^ k))%nat.
Proof.
  intros W Hk. apply NoDup_bounded_length; [apply (wf_nodup _ _ W)|].
  intros b Hb. destruct (wf_ok _ _ W _ _ Hb) as ([? ?] & ? & ? & ?).
  pose proof (pow2_pos o ltac:(lia)). lia.
Qed.

(** ** The contract

    What an allocator of [2^k] units promises its clients, in terms of the
    set [F] of free units only: the blocks and lists do not show. *)

Definition run (b o : Z) : Z -> Prop := fun u => b <= u < b + 2 ^ o.

Definition alloc_spec (k : Z) (F : Z -> Prop) (n : Z) (r : option Z) (F' : Z -> Prop) : Prop :=
  let o := Z.log2_up n in
  match r with
  | Some b =>
      blk_ok k o b /\ (forall u, run b o u -> F u) /\
      (forall u, F' u <-> F u /\ ~ run b o u)
  | None =>
      (forall u, F' u <-> F u) /\
      (forall c, (2 ^ o | c) -> ~ (forall u, run c o u -> F u))
  end.

Definition free_spec (F : Z -> Prop) (b n : Z) (F' : Z -> Prop) : Prop :=
  forall u, F' u <-> F u \/ run b (Z.log2_up n) u.

(** No free block at or above [o] means no free aligned run of [2^o] units. *)
Lemma no_run k fl o c :
  wf k fl -> 0 <= o -> (forall o', o <= o' -> fl o' = []) -> (2 ^ o | c) ->
  ~ (forall u, run c o u -> free_unit fl u).
Proof.
  intros W Ho He Hc Hu.
  destruct (fits_complete k fl o c W Ho Hc Hu) as (o' & b' & Ho' & Hin & _).
  rewrite He in Hin by done. by apply elem_of_nil in Hin.
Qed.
