(* ===== verification/Buddy.v ===== *)
(** * The buddy allocator (kernel/buddy.c)

    The free lists are threaded through the free blocks themselves: the
    [next] field of [struct buddy_block] is the first 8 bytes of a free
    block in byte memory.  [buddy_t] is the static [buddy] struct, [bst] the
    machine plus that struct.  Every routine of buddy.c that touches the
    allocator is a definition here, locks and early returns included. *)

From Stdlib Require Import ZArith Lia Bool String.
From stdpp Require Import base gmap list strings functions.
From S2P Require Import Prelude Mem Spinlock.

Definition MAX_ORDER : Z := 15.
Definition BLOCK_SIZE : Z := 4096.

Record buddy_t := mkBuddy {
  max_order : Z;
  buddy_lock : spinlock;
  free_list : list Z;
  memory_start : Z;
  total_blocks : Z;
  free_blocks : Z
}.

Record bst := mkBst { b_mach : mach; buddy : buddy_t }.

#[export] Instance bst_HasMach : HasMach bst.
Proof.
  refine {| mach_of := b_mach; set_mach := fun m s => mkBst m (buddy s) |};
    [done| |done]. by intros [].
Defined.

(** Updates of one field of [buddy]. *)
Definition set_buddy (g : buddy_t) (s : bst) : bst := mkBst (b_mach s) g.

Definition set_lock (lk : spinlock) (s : bst) : bst :=
  let g := buddy s in
  set_buddy (mkBuddy (max_order g) lk (free_list g) (memory_start g)
                     (total_blocks g) (free_blocks g)) s.

Definition set_free_list (l : list Z) (s : bst) : bst :=
  let g := buddy s in
  set_buddy (mkBuddy (max_order g) (buddy_lock g) l (memory_start g)
                     (total_blocks g) (free_blocks g)) s.

Definition set_free_blocks (n : Z) (s : bst) : bst :=
  let g := buddy s in
  set_buddy (mkBuddy (max_order g) (buddy_lock g) (free_list g) (memory_start g)
                     (total_blocks g) n) s.

Definition get_lock (s : bst) : spinlock := buddy_lock (buddy s).
Definition acquire_buddy : M bst unit := acquire_in get_lock set_lock.
Definition release_buddy : M bst unit := release_in get_lock set_lock.

(** ** Integer helpers

    [int] arithmetic wraps at 32 bits and [size_t] at 64; a loop that would
    not end within the bound given to it returns [None]. *)

Fixpoint log2_floor_loop (fuel : nat) (x result : Z) : option Z :=
  match fuel with
  | O => None
  | S f => if x >? 1 then log2_floor_loop f (Z.shiftr x 1) (result + 1) else Some result
  end.

Definition log2_floor (x : Z) : option Z := log2_floor_loop 32 x 0.

Fixpoint log2_ceil_loop (fuel : nat) (x power result : Z) : option Z :=
  match fuel with
  | O => None
  | S f =>
      if power <? x then log2_ceil_loop f x (s32 (Z.shiftl power 1)) (result + 1)
      else Some result
  end.

Definition log2_ceil (x : Z) : option Z :=
  if x <=? 1 then Some 0 else log2_ceil_loop 32 x 1 0.

Fixpoint round_up_pow2_loop (fuel : nat) (size power : Z) : option Z :=
  match fuel with
  | O => None
  | S f => if power <? size then round_up_pow2_loop f size (u64 (Z.shiftl power 1)) else Some power
  end.

Definition round_up_pow2 (size : Z) : option Z :=
  s32 <$> round_up_pow2_loop 65 size 1.

(** ** Block addresses *)

Definition block_index (g : buddy_t) (ptr : Z) : Z :=
  u64 (Z.quot (ptr - memory_start g) BLOCK_SIZE).

Definition get_buddy (g : buddy_t) (ptr order : Z) : Z :=
  let buddy_index := Z.lxor (block_index g ptr) (u64 (s32 (Z.shiftl 1 order))) in
  memory_start g + u64 (buddy_index * BLOCK_SIZE).

Definition get_parent (g : buddy_t) (ptr order : Z) : Z :=
  let parent_index := Z.land (block_index g ptr) (u64 (Z.lnot (s32 (Z.shiftl 1 order)))) in
  memory_start g + u64 (parent_index * BLOCK_SIZE).

(** ** Free lists *)

Definition get_head (order : Z) : M bst Z :=
  s ← get; arr_get (free_list (buddy s)) order.

Definition set_head (order v : Z) : M bst unit :=
  s ← get; l ← of_arr (arr_set (free_list (buddy s)) order v); modify (set_free_list l).

(** [struct buddy_block::next] *)
Definition get_next (block : Z) : M bst Z := getf 8 block 0.
Definition set_next (block v : Z) : M bst unit := setf 8 block 0 v.

(** A list holds at most one entry per block, so [total_blocks + 1] steps
    are enough to reach its end. *)
Definition list_fuel (s : bst) : nat := S (Z.to_nat (total_blocks (buddy s))).

(** [while (current && current->next != block) current = current->next;] *)
Fixpoint find_pred (fuel : nat) (current block : Z) : M bst Z :=
  match fuel with
  | O => out_of_fuel
  | S f =>
      if current =? 0 then mret 0
      else n ← get_next current;
           if n =? block then mret current else find_pred f n block
  end.

Definition remove_from_list (block order : Z) : M bst unit :=
  head ← get_head order;
  if head =? block then
    n ← get_next block; set_head order n
  else
    s ← get;
    current ← find_pred (list_fuel s) head block;
    if current =? 0 then mret tt
    else n ← get_next block; set_next current n.

Definition add_to_list (ptr order : Z) : M bst unit :=
  head ← get_head order;
  set_next ptr head;;
  set_head order ptr.

(** [while (next) { if (block == next) return 1; next = next->next; } return 0;] *)
Fixpoint find_block (fuel : nat) (next block : Z) : M bst bool :=
  match fuel with
  | O => out_of_fuel
  | S f =>
      if next =? 0 then mret false
      else if block =? next then mret true
      else n ← get_next next; find_block f n block
  end.

Definition is_block_free (block order : Z) : M bst bool :=
  s ← get;
  if (order <? 0) || (order >=? max_order (buddy s)) then mret false
  else head ← get_head order; find_block (list_fuel s) head block.

(** ** buddy_init *)

(** [while (1 << order > remaining) order--;] *)
Fixpoint fit_order (fuel : nat) (order remaining : Z) : option Z :=
  match fuel with
  | O => None
  | S f => if s32 (Z.shiftl 1 order) >? remaining then fit_order f (order - 1) remaining
           else Some order
  end.

(** [current] is a [struct buddy_block *], so [current += k] moves by
    [k * sizeof(struct buddy_block)] bytes. *)
Definition sizeof_buddy_block : Z := 8.

Fixpoint init_loop (fuel : nat) (current remaining order : Z) : M bst unit :=
  match fuel with
  | O => out_of_fuel
  | S f =>
      if remaining >? 0 then
        order ← of_opt (fit_order 17 order remaining);
        add_to_list current order;;
        let size := s32 (Z.shiftl 1 order) in
        init_loop f (current + s32 (size * BLOCK_SIZE) * sizeof_buddy_block)
                  (remaining - size) order
      else mret tt
  end.

Definition buddy_init (space block_num : Z) : M bst unit :=
  if block_num <? 1 then mret tt
  else
    l ← of_opt (log2_ceil block_num);
    let max_order := l + 1 in
    if max_order >? MAX_ORDER then mret tt
    else
      s ← get;
      let heads := replicate (Z.to_nat max_order) 0 ++
                   drop (Z.to_nat max_order) (free_list (buddy s)) in
      modify (set_buddy (mkBuddy max_order (initlock "buddy") heads space block_num block_num));;
      init_loop (S (Z.to_nat block_num)) space block_num max_order.

(** ** buddy_alloc *)

(** [while (found_order <= max_order && free_list[found_order] == 0) found_order++;] *)
Fixpoint find_order (fuel : nat) (found_order : Z) : M bst Z :=
  match fuel with
  | O => out_of_fuel
  | S f =>
      s ← get;
      if found_order <=? max_order (buddy s) then
        head ← get_head found_order;
        if head =? 0 then find_order f (found_order + 1) else mret found_order
      else mret found_order
  end.

(** [while (found_order > order) { found_order--; ... }] *)
Fixpoint split_loop (fuel : nat) (block found_order order : Z) : M bst unit :=
  match fuel with
  | O => out_of_fuel
  | S f =>
      if found_order >? order then
        let found_order := found_order - 1 in
        let buddy_size := s32 (s32 (Z.shiftl 1 found_order) * BLOCK_SIZE) in
        let buddy_block := block + buddy_size in
        head ← get_head found_order;
        set_next buddy_block head;;
        set_head found_order buddy_block;;
        split_loop f block found_order order
      else mret tt
  end.

Definition buddy_alloc (num_blocks : Z) : M bst Z :=
  if num_blocks <? 1 then mret 0
  else
    order ← of_opt (log2_ceil num_blocks);
    acquire_buddy;;
    s ← get;
    if order >? max_order (buddy s) then release_buddy;; mret 0
    else
      found_order ← find_order 17 order;
      if found_order >? max_order (buddy s) then release_buddy;; mret 0
      else
        block ← get_head found_order;
        remove_from_list block found_order;;
        split_loop 17 block found_order order;;
        modify (fun s => set_free_blocks (s32 (free_blocks (buddy s) - s32 (Z.shiftl 1 order))) s);;
        release_buddy;;
        mret block.

(** ** buddy_free *)

(** [while (order < max_order) { ... }]: coalesce while the buddy is free. *)
Fixpoint coalesce_loop (fuel : nat) (ptr order : Z) : M bst (Z * Z) :=
  match fuel with
  | O => out_of_fuel
  | S f =>
      s ← get;
      if order <? max_order (buddy s) then
        let buddy_ptr := get_buddy (buddy s) ptr order in
        free ← is_block_free buddy_ptr order;
        if (free : bool) then
          remove_from_list buddy_ptr order;;
          coalesce_loop f (get_parent (buddy s) ptr order) (order + 1)
        else mret (ptr, order)
      else mret (ptr, order)
  end.

Definition buddy_free (ptr num_blocks : Z) : M bst unit :=
  if (ptr =? 0) || (num_blocks <? 1) then mret tt
  else
    acquire_buddy;;
    order ← of_opt (log2_ceil num_blocks);
    po ← coalesce_loop 17 ptr order;
    add_to_list po.1 po.2;;
    l ← of_opt (log2_ceil num_blocks);
    modify (fun s => set_free_blocks (s32 (free_blocks (buddy s) + s32 (Z.shiftl 1 l))) s);;
    release_buddy.
