(* ===== verification/BuddyProof.v ===== *)
(** * kernel/buddy.c implements abstract buddy allocation

    [brep k s fl] relates a state of buddy.c to abstract free lists: for
    each order, the linked list in memory visits exactly the addresses of
    the abstract blocks.  The lemmas follow the code: free-list primitives,
    the order search, the splitting and the coalescing loop, then the two
    entry points. *)

From Stdlib Require Import ZArith Lia Bool String.
From stdpp Require Import base gmap list strings functions.
From S2P Require Import Prelude Mem MemList Spinlock BuddySpec Buddy.

(** ** The representation *)

Definition baddr (s : bst) (b : Z) : Z := memory_start (buddy s) + BLOCK_SIZE * b.

Record brep (k : Z) (s : bst) (fl : flists) : Prop := {
  br_k : 0 <= k <= 13;
  br_total : total_blocks (buddy s) = 2 ^ k;
  br_max : max_order (buddy s) = k + 1;
  br_len : length (free_list (buddy s)) = 15%nat;
  br_start : 0 < memory_start (buddy s) /\ memory_start (buddy s) + BLOCK_SIZE * 2 ^ k <= 2 ^ 63;
  br_wf : wf k fl;
  br_heads : forall o, 0 <= o < 15 -> exists p,
    free_list (buddy s) !! Z.to_nat o = Some p /\ sll (mem_of s) p (baddr s <$> fl o)
}.

(** What an operation leaves alone. *)
Definition bframe (W : Z -> Prop) (s s' : bst) : Prop :=
  hart_of s' = hart_of s /\ get_lock s' = get_lock s /\
  free_blocks (buddy s') = free_blocks (buddy s) /\
  memory_start (buddy s') = memory_start (buddy s) /\
  modifies W (mem_of s) (mem_of s').

(** The addresses of a set of 4096-byte units. *)
Definition unit_bytes (s : bst) (U : Z -> Prop) : Z -> Prop :=
  fun a => exists u, U u /\ baddr s u <= a < baddr s (u + 1).

Lemma bframe_refl W s : bframe W s s.
Proof. repeat split; auto with xv6. Qed.

Lemma bframe_trans W s1 s2 s3 : bframe W s1 s2 -> bframe W s2 s3 -> bframe W s1 s3.
Proof.
  intros (A1 & A2 & A3 & A4 & A5) (B1 & B2 & B3 & B4 & B5).
  repeat split; try congruence. by eapply modifies_trans.
Qed.

Lemma bframe_weaken (W W' : Z -> Prop) s s' :
  bframe W s s' -> (forall x, W x -> W' x) -> bframe W' s s'.
Proof.
  intros (A1 & A2 & A3 & A4 & A5) HW. repeat split; try done. by eapply modifies_weaken.
Qed.

Lemma baddr_frame W s s' b : bframe W s s' -> baddr s' b = baddr s b.
Proof. intros (_ & _ & _ & E & _). unfold baddr. by rewrite E. Qed.

Lemma unit_bytes_frame W s s' U a : bframe W s s' -> unit_bytes s' U a <-> unit_bytes s U a.
Proof.
  intros F. unfold unit_bytes. split; intros (u & Hu & Ha); exists u;
    rewrite ?(baddr_frame _ _ _ _ F) in *; done.
Qed.

Lemma baddr_inj s b b' : baddr s b = baddr s b' -> b = b'.
Proof. unfold baddr, BLOCK_SIZE. lia. Qed.

#[export] Instance baddr_Inj s : Inj (=) (=) (baddr s).
Proof. intros b b'. apply baddr_inj. Qed.

(** ** Integer helpers *)

Lemma log2_ceil_loop_spec fuel x r :
  0 <= r <= Z.log2_up x -> Z.log2_up x <= 30 -> Z.log2_up x < r + Z.of_nat fuel -> 0 < x ->
  log2_ceil_loop fuel x (2 ^ r) r = Some (Z.log2_up x).
Proof.
  revert r. induction fuel as [|f IH]; intros r Hr Hx Hf Hpos; [lia|]. cbn [log2_ceil_loop].
  destruct (Z.ltb_spec (2 ^ r) x) as [Hlt|Hge].
  - apply Z.log2_up_lt_pow2 in Hlt; [|done].
    assert (s32 (Z.shiftl (2 ^ r) 1) = 2 ^ (r + 1)) as ->.
    { rewrite Z.shiftl_mul_pow2 by lia. rewrite <- Z.pow_add_r by lia.
      apply s32_small. pose proof (pow2_pos (r + 1) ltac:(lia)). split; [lia|].
      apply (Z.le_lt_trans _ (2 ^ 30)); [apply Z.pow_le_mono_r|]; lia. }
    apply IH; lia.
  - apply Z.log2_up_le_pow2 in Hge; [|done]. f_equal. lia.
Qed.

Lemma log2_ceil_spec x : 1 <= x <= 2 ^ 30 -> log2_ceil x = Some (Z.log2_up x).
Proof.
  intros Hx. unfold log2_ceil. destruct (Z.leb_spec x 1).
  - by replace x with 1 by lia.
  - assert (Z.log2_up x <= 30) by (apply (Z.log2_up_le_pow2 x 30); lia).
    apply (log2_ceil_loop_spec 32 x 0); pose proof (Z.log2_up_nonneg x); lia.
Qed.

Lemma log2_floor_loop_spec fuel x r :
  1 <= x -> Z.log2 x < Z.of_nat fuel -> log2_floor_loop fuel x r = Some (r + Z.log2 x).
Proof.
  revert x r. induction fuel as [|f IH]; intros x r Hx Hf; [pose proof (Z.log2_nonneg x); lia|].
  cbn [log2_floor_loop]. destruct (Z.gtb_spec x 1).
  - assert (1 <= Z.log2 x) by (apply (Z.log2_le_pow2 x 1); lia).
    rewrite IH; rewrite ?Z.log2_shiftr by lia; [f_equal; lia| |lia].
    rewrite Z.shiftr_div_pow2 by lia. apply Z.div_le_lower_bound; lia.
  - replace x with 1 by lia. simpl. f_equal. lia.
Qed.

Lemma log2_floor_spec x : 1 <= x < 2 ^ 31 -> log2_floor x = Some (Z.log2 x).
Proof.
  intros Hx. apply (log2_floor_loop_spec 32 x 0); [lia|].
  apply Z.log2_lt_pow2; lia.
Qed.

Lemma shift_int o : 0 <= o <= 30 -> s32 (Z.shiftl 1 o) = 2 ^ o.
Proof.
  intros Ho. rewrite Z.shiftl_mul_pow2, Z.mul_1_l by lia. apply s32_small.
  pose proof (pow2_pos o). split; [lia|].
  apply (Z.le_lt_trans _ (2 ^ 30)); [apply Z.pow_le_mono_r|]; lia.
Qed.

Lemma pow2_le_13 o : 0 <= o <= 13 -> 1 <= 2 ^ o <= 8192.
Proof.
  intros Ho. pose proof (pow2_pos o). split; [lia|].
  apply (Z.pow_le_mono_r 2 o 13); lia.
Qed.

Lemma fit_order_pow2 k : 0 <= k <= 13 -> fit_order 17 (k + 1) (2 ^ k) = Some k.
Proof.
  intros Hk. pose proof (pow2_pos k). change 17%nat with (S (S 15)). generalize 15%nat. intros f.
  cbn [fit_order]. rewrite shift_int by lia.
  replace (2 ^ (k + 1) >? 2 ^ k) with true by (rewrite Z.pow_add_r by lia; lia).
  replace (k + 1 - 1) with k by lia. rewrite shift_int by lia.
  by replace (2 ^ k >? 2 ^ k) with false by lia.
Qed.

Section Rep.
Context (k : Z).

Lemma block_index_addr s fl b :
  brep k s fl -> 0 <= b <= 2 ^ k -> block_index (buddy s) (baddr s b) = b.
Proof.
  intros R Hb. pose proof (pow2_le_13 k (br_k _ _ _ R)).
  unfold block_index, baddr, BLOCK_SIZE.
  replace (memory_start (buddy s) + 4096 * b - memory_start (buddy s)) with (b * 4096) by lia.
  rewrite Z.quot_mul by lia. apply u64_small. lia.
Qed.

Lemma buddy_of_range o b : 0 <= o <= k -> blk_ok k o b -> 0 <= buddy_of o b <= b + 2 ^ o.
Proof.
  intros Ho (_ & Hb & Hal & Hk). pose proof (pow2_pos o ltac:(lia)).
  destruct (buddy_cases o b) as [(-> & _)|(-> & _ & Hd)]; [lia|done|lia|].
  split; [|lia]. destruct Hd as [q Hq]. destruct Hal as [r ->].
  rewrite Z.pow_add_r, Z.pow_1_r in Hq by lia.
  assert (r - 1 = 2 * q).
  { apply (Z.mul_reg_r _ _ (2 ^ o)); [lia|].
    transitivity (r * 2 ^ o - 2 ^ o); [ring|rewrite Hq; ring]. }
  clear Hq Hk. generalize dependent (2 ^ o). intros P Hb HP. assert (0 <= r) by nia. assert (0 <= q) by lia.
  replace r with (2 * q + 1) by lia. nia.
Qed.

Lemma get_buddy_spec s fl o b :
  brep k s fl -> blk_ok k o b -> get_buddy (buddy s) (baddr s b) o = baddr s (buddy_of o b).
Proof.
  intros R Hb. pose proof Hb as (Ho & Hb0 & Hal & Hk). pose proof (br_k _ _ _ R) as Hk13.
  pose proof (pow2_le_13 k Hk13). pose proof (pow2_le_13 o ltac:(lia)).
  pose proof (buddy_of_range o b ltac:(lia) Hb).
  unfold get_buddy. rewrite (block_index_addr s fl) by (done || lia).
  rewrite shift_int by lia. rewrite (u64_small (2 ^ o)) by lia. fold (buddy_of o b).
  rewrite u64_small by (unfold BLOCK_SIZE; lia). unfold baddr, BLOCK_SIZE. lia.
Qed.

Lemma get_parent_spec s fl o b :
  brep k s fl -> blk_ok k o b -> get_parent (buddy s) (baddr s b) o = baddr s (parent_of o b).
Proof.
  intros R Hb. pose proof Hb as (Ho & Hb0 & Hal & Hk). pose proof (br_k _ _ _ R) as Hk13.
  pose proof (pow2_le_13 k Hk13). pose proof (pow2_le_13 o ltac:(lia)).
  pose proof (buddy_of_range o b ltac:(lia) Hb).
  unfold get_parent. rewrite (block_index_addr s fl) by (done || lia).
  rewrite shift_int, land_u64, <- Z.ldiff_land by lia. fold (parent_of o b).
  assert (0 <= parent_of o b <= b).
  { destruct (buddy_cases o b) as [(_ & -> & _)|(E & -> & _)]; [lia|done|lia|lia]. }
  rewrite u64_small by (unfold BLOCK_SIZE; lia). unfold baddr, BLOCK_SIZE. lia.
Qed.

Lemma brep_addr s fl o b : brep k s fl -> b ∈ fl o -> 0 < baddr s b < 2 ^ 63.
Proof.
  intros R Hb. destruct (wf_ok _ _ (br_wf _ _ _ R) _ _ Hb) as (? & ? & ? & ?).
  destruct (br_start _ _ _ R). pose proof (pow2_pos o ltac:(lia)).
  unfold baddr, BLOCK_SIZE in *. nia.
Qed.

Lemma held_addr s fl o b : brep k s fl -> held k fl o b -> 0 < baddr s b < 2 ^ 63.
Proof.
  intros R [(? & ? & ? & ?) _]. destruct (br_start _ _ _ R).
  pose proof (pow2_pos o ltac:(lia)). unfold baddr, BLOCK_SIZE in *. nia.
Qed.

Lemma spaced_baddr s (l : list Z) : NoDup l -> spaced 8 (baddr s <$> l).
Proof.
  intros Hnd. split; [by apply NoDup_fmap_2; [apply _|]|].
  intros x y (b & -> & _)%list_elem_of_fmap (b' & -> & _)%list_elem_of_fmap Hne.
  unfold baddr, BLOCK_SIZE in *. assert (b <> b') by congruence. lia.
Qed.

(** Reading and writing list heads. *)
Lemma wp_get_head s fl o Q :
  brep k s fl -> 0 <= o < 15 ->
  (forall p, sll (mem_of s) p (baddr s <$> fl o) -> Q p s) -> wp (get_head o) Q s.
Proof.
  intros R Ho HQ. destruct (br_heads _ _ _ R o Ho) as (p & Hp & Hl).
  unfold get_head. wp_steps. eapply wp_arr_get; [lia|exact Hp|]. auto.
Qed.

Lemma wp_set_head s o v Q :
  length (free_list (buddy s)) = 15%nat -> 0 <= o < 15 ->
  Q tt (set_free_list (<[Z.to_nat o := v]> (free_list (buddy s))) s) -> wp (set_head o v) Q s.
Proof.
  intros Hl Ho HQ. unfold set_head. wp_steps. rewrite arr_set_ok by lia. done.
Qed.

(** A new list at one order, the others framed. *)
Lemma brep_update s s' fl o l p :
  brep k s fl -> 0 <= o < 15 -> wf k (<[o := l]> fl) ->
  total_blocks (buddy s') = total_blocks (buddy s) ->
  max_order (buddy s') = max_order (buddy s) ->
  memory_start (buddy s') = memory_start (buddy s) ->
  free_list (buddy s') = <[Z.to_nat o := p]> (free_list (buddy s)) ->
  sll (mem_of s') p (baddr s <$> l) ->
  (forall o' q, 0 <= o' < 15 -> o' <> o ->
     sll (mem_of s) q (baddr s <$> fl o') -> sll (mem_of s') q (baddr s <$> fl o')) ->
  brep k s' (<[o := l]> fl).
Proof.
  intros R Ho W E1 E2 E3 E4 Hl Hf.
  assert (forall L : list Z, baddr s' <$> L = baddr s <$> L) as Eb.
  { intros L. apply list_fmap_ext. intros i x _. unfold baddr. by rewrite E3. }
  split; rewrite ?E1, ?E2, ?E3, ?E4, ?length_insert; try apply R; [done|].
  intros o' Ho'. rewrite Eb. destruct (decide (o' = o)) as [->|Hne].
  - exists p. rewrite fn_lookup_insert, list_lookup_insert_eq; [done|].
    rewrite (br_len _ _ _ R). lia.
  - rewrite fn_lookup_insert_ne by done. destruct (br_heads _ _ _ R o' Ho') as (q & Hq & Hlq).
    exists q. rewrite list_lookup_insert_ne by lia. auto.
Qed.

(** Two different free blocks, or a free and a held one, are 4096 bytes apart. *)
Lemma disj_addr s o b o' b' :
  0 <= o -> 0 <= o' -> disj o b o' b' -> baddr s b + 4096 <= baddr s b' \/ baddr s b' + 4096 <= baddr s b.
Proof.
  intros. pose proof (pow2_pos o). pose proof (pow2_pos o').
  unfold disj, baddr, BLOCK_SIZE in *. lia.
Qed.

Lemma held_sep s fl o b o' b' :
  wf k fl -> held k fl o b -> b' ∈ fl o' ->
  baddr s b + 4096 <= baddr s b' \/ baddr s b' + 4096 <= baddr s b.
Proof.
  intros W [Hb Hd] Hin. destruct (wf_ok _ _ W _ _ Hin) as [? _].
  eapply disj_addr; [| |by apply Hd]; [destruct Hb|]; lia.
Qed.

Lemma free_sep s fl o b o' b' :
  wf k fl -> b ∈ fl o -> b' ∈ fl o' -> (o, b) <> (o', b') ->
  baddr s b + 4096 <= baddr s b' \/ baddr s b' + 4096 <= baddr s b.
Proof.
  intros W H1 H2 Hne. destruct (wf_ok _ _ W _ _ H1) as [? _].
  destruct (wf_ok _ _ W _ _ H2) as [? _].
  eapply disj_addr; [| |by apply (wf_disj _ _ W)]; lia.
Qed.

(** [add_to_list] *)
Lemma wp_add_to_list s fl o b Q :
  brep k s fl -> held k fl o b -> (o < k -> buddy_of o b ∉ fl o) ->
  (forall s', brep k s' (push o b fl) -> bframe (bytes_of (baddr s b) 8) s s' -> Q tt s') ->
  wp (add_to_list (baddr s b) o) Q s.
Proof.
  intros R Hh Hc HQ. pose proof (held_addr _ _ _ _ R Hh) as Ha.
  pose proof (br_wf _ _ _ R) as W. pose proof Hh as [(Ho & _) _]. destruct (br_k _ _ _ R).
  unfold add_to_list. wp_step. apply (wp_get_head s fl); [done|lia|]. intros p Hl.
  wp_step. apply wp_setf; [lia|]. rewrite Z.add_0_r.
  apply wp_set_head; [apply R|lia|].
  assert (forall o' b', b' ∈ fl o' -> baddr s b + 8 <= baddr s b' \/ baddr s b' + 8 <= baddr s b) as Hs.
  { intros o' b' Hin. pose proof (held_sep s _ _ _ _ _ W Hh Hin). lia. }
  apply HQ.
  - apply (brep_update s _ fl o (b :: fl o) (baddr s b)); try done; [lia|by apply wf_push| |].
    + apply sll_push; [done|lia|]. intros y (b' & -> & Hin)%list_elem_of_fmap. eauto.
    + intros o' q Ho' Hne. eapply sll_modifies;
        [apply (modifies_st64 (bytes_of (baddr s b) 8)); by unfold bytes_of|].
      intros y a (b' & -> & Hin)%list_elem_of_fmap Hya. unfold bytes_of.
      specialize (Hs _ _ Hin). lia.
  - repeat split. apply modifies_st64. by unfold bytes_of.
Qed.

(** ** Searching and unlinking *)

Lemma wp_find_block s fuel p l blk Q :
  sll (mem_of s) p l -> (length l < fuel)%nat ->
  Q (bool_decide (blk ∈ l)) s -> wp (find_block fuel p blk) Q s.
Proof.
  revert p l. induction fuel as [|f IH]; intros p l Hl Hf HQ; [lia|].
  destruct l as [|x l]; simpl in Hl |- *.
  { subst p. simpl. wp_step. by rewrite bool_decide_eq_false_2 in HQ by apply not_elem_of_nil. }
  destruct Hl as (-> & Hx & Hl). replace (x =? 0) with false by lia.
  destruct (Z.eqb_spec blk x) as [->|Hne].
  - wp_step. by rewrite bool_decide_eq_true_2 in HQ by constructor.
  - wp_step. apply wp_getf; [lia|]. rewrite Z.add_0_r.
    apply (IH _ l); [done|simpl in Hf; lia|].
    erewrite bool_decide_ext; [exact HQ|]. rewrite elem_of_cons. intuition congruence.
Qed.

Lemma wp_find_pred s fuel p l1 y x l2 Q :
  sll (mem_of s) p (l1 ++ y :: x :: l2) -> NoDup (l1 ++ y :: x :: l2) ->
  (length l1 < fuel)%nat -> Q y s -> wp (find_pred fuel p x) Q s.
Proof.
  revert p l1. induction fuel as [|f IH]; intros p l1 Hl Hnd Hf HQ; [lia|].
  destruct l1 as [|z l1]; simpl in Hl, Hnd |- *.
  - destruct Hl as (-> & Hy & Hyx & _). replace (y =? 0) with false by lia.
    wp_step. apply wp_getf; [lia|]. rewrite Z.add_0_r. fold (ld64 (mem_of s) y).
    rewrite Hyx, Z.eqb_refl. done.
  - destruct Hl as (-> & Hz & Hl). replace (z =? 0) with false by lia.
    wp_step. apply wp_getf; [lia|]. rewrite Z.add_0_r. fold (ld64 (mem_of s) z).
    apply list.NoDup_cons in Hnd as [_ Hnd].
    assert (ld64 (mem_of s) z <> x) as Hne.
    { destruct l1 as [|w l1]; simpl in Hl, Hnd; destruct Hl as (-> & _);
        apply list.NoDup_cons in Hnd as [Hnd _]; intros ->; apply Hnd;
        [constructor|]. apply elem_of_app. right. constructor. constructor. }
    destruct (Z.eqb_spec (ld64 (mem_of s) z) x); [done|].
    apply (IH _ l1); [done|done|simpl in Hf; lia|done].
Qed.

Lemma list_fuel_enough s fl o : brep k s fl -> (length (baddr s <$> fl o) < list_fuel s)%nat.
Proof.
  intros R. rewrite length_fmap. unfold list_fuel. rewrite (br_total _ _ _ R).
  pose proof (list_length_bound k fl o (br_wf _ _ _ R)). destruct (br_k _ _ _ R). lia.
Qed.

Lemma wp_is_block_free s fl o b Q :
  brep k s fl -> 0 <= o < k + 1 ->
  Q (bool_decide (b ∈ fl o)) s -> wp (is_block_free (baddr s b) o) Q s.
Proof.
  intros R Ho HQ. destruct (br_k _ _ _ R). unfold is_block_free. wp_steps.
  rewrite (br_max _ _ _ R). replace ((o <? 0) || (o >=? k + 1)) with false by lia.
  wp_step. apply (wp_get_head s fl); [done|lia|]. intros p Hl.
  apply (wp_find_block s _ p (baddr s <$> fl o)); [done|by apply list_fuel_enough|].
  erewrite bool_decide_ext; [exact HQ|]. apply list_elem_of_fmap_inj, _.
Qed.

(** The bytes of the free units. *)
Definition free_bytes (s : bst) (fl : flists) : Z -> Prop := unit_bytes s (free_unit fl).

Lemma link_free_bytes s fl o b a :
  wf k fl -> b ∈ fl o -> baddr s b <= a < baddr s b + 8 -> free_bytes s fl a.
Proof.
  intros W Hb Ha. destruct (wf_ok _ _ W _ _ Hb) as [? _]. exists b. split.
  - exists o, b. pose proof (pow2_pos o ltac:(lia)). split; [done|lia].
  - unfold baddr, BLOCK_SIZE in *. lia.
Qed.

Lemma wp_remove_from_list s fl o b Q :
  brep k s fl -> b ∈ fl o ->
  (forall s' fl', removed o b fl fl' -> brep k s' fl' -> bframe (free_bytes s fl) s s' -> Q tt s') ->
  wp (remove_from_list (baddr s b) o) Q s.
Proof.
  intros R Hb HQ. pose proof (br_wf _ _ _ R) as W.
  destruct (wf_ok _ _ W _ _ Hb) as [Ho _]. destruct (br_k _ _ _ R).
  pose proof (brep_addr _ _ _ _ R Hb) as Ha.
  pose proof (spaced_baddr s _ (wf_nodup _ _ W o)) as Hsp.
  unfold remove_from_list. wp_step. apply (wp_get_head s fl); [done|lia|]. intros p Hl.
  apply list_elem_of_split in Hb as (l1 & l2 & El).
  assert (removed o b fl (<[o := l1 ++ l2]> fl)) as Hrem by (by exists l1, l2).
  pose proof (wf_removed _ _ _ _ _ W Hrem) as W'.
  destruct (list_case_last l1) as [->|(l0 & y & ->)].
  - simpl in El, Hrem, W'. rewrite El in Hl. simpl in Hl. destruct Hl as (-> & _ & Hl).
    rewrite Z.eqb_refl. wp_step. apply wp_getf; [lia|]. rewrite Z.add_0_r.
    apply wp_set_head; [apply R|lia|]. eapply HQ; [exact Hrem| |].
    + by eapply (brep_update s _ fl o l2); try done; lia.
    + by repeat split.
  - rewrite El in Hl, Hsp. rewrite <- app_assoc in Hl, Hsp. simpl in Hl, Hsp.
    rewrite fmap_app, !fmap_cons in Hl, Hsp.
    assert (p <> baddr s b) as Hpb.
    { destruct Hsp as [Hnd _]. destruct l0 as [|z l0]; simpl in Hl, Hnd; destruct Hl as (-> & _);
        apply list.NoDup_cons in Hnd as [Hnd _]; intros E; apply Hnd; rewrite <- E;
        [constructor|]. rewrite E. apply elem_of_app. right. constructor. constructor. }
    destruct (Z.eqb_spec p (baddr s b)); [done|]. wp_steps.
    assert (y ∈ fl o) as Hy by (rewrite El; set_solver).
    pose proof (brep_addr _ _ _ _ R Hy) as Hya.
    eapply wp_find_pred; [exact Hl|apply Hsp| |].
    { pose proof (list_fuel_enough s fl o R) as Hf. rewrite El, length_fmap, !length_app in Hf.
      rewrite length_fmap. simpl in Hf. lia. }
    replace (baddr s y =? 0) with false by lia. wp_step. apply wp_getf; [lia|].
    rewrite Z.add_0_r. apply wp_setf; [lia|]. rewrite Z.add_0_r.
    eapply HQ; [exact Hrem| |].
    + assert (<[Z.to_nat o := p]> (free_list (buddy s)) = free_list (buddy s)) as Eid.
      { apply list_insert_id. destruct (br_heads _ _ _ R o ltac:(lia)) as (q & Hq & Hlq).
        rewrite Hq. f_equal. rewrite El, <- app_assoc, fmap_app in Hlq. simpl in Hlq.
        destruct l0 as [|z l0]; simpl in Hl, Hlq; destruct Hl as (-> & _), Hlq as (-> & _); done. }
      apply (brep_update s _ fl o ((l0 ++ [y]) ++ l2) p); try done; [lia| |].
      * rewrite <- app_assoc, fmap_app. simpl. apply sll_unlink; [done|done].
      * intros o' q Ho' Hne. eapply sll_modifies;
          [apply (modifies_st64 (bytes_of (baddr s y) 8)); by unfold bytes_of|].
        intros z a (b' & -> & Hin)%list_elem_of_fmap Hza. unfold bytes_of.
        pose proof (free_sep s fl o y o' b' W Hy Hin ltac:(congruence)). lia.
    + repeat split. apply modifies_st64. intros a Hya'. eapply link_free_bytes; eauto.
Qed.

(** ** The loops *)

Lemma empty_above s fl o : brep k s fl -> k < o -> fl o = [].
Proof.
  intros R Ho. destruct (fl o) as [|b l] eqn:E; [done|].
  destruct (wf_ok _ _ (br_wf _ _ _ R) o b) as [? _]; [rewrite E; constructor|lia].
Qed.

(** The order search stops at the first non-empty list, or past [max_order]. *)
Lemma wp_find_order s fl fuel o Q :
  brep k s fl -> 0 <= o <= k + 2 -> k + 2 < o + Z.of_nat fuel ->
  (forall fo, o <= fo -> (forall j, o <= j < fo -> fl j = []) ->
     (fo <= k /\ fl fo <> [] \/ fo = k + 2) -> Q fo s) ->
  wp (find_order fuel o) Q s.
Proof.
  intros R. destruct (br_k _ _ _ R). revert o. induction fuel as [|f IH]; intros o Ho Hf HQ; [lia|].
  simpl. wp_steps. rewrite (br_max _ _ _ R). destruct (Z.leb_spec o (k + 1)).
  - wp_step. apply (wp_get_head s fl); [done|lia|]. intros p Hl.
    assert (p = 0 <-> fl o = []) as Hh.
    { rewrite (sll_head _ _ _ Hl). split; [apply fmap_nil_inv|by intros ->]. }
    destruct (Z.eqb_spec p 0) as [E|E].
    + apply IH; [lia|lia|]. intros fo Hfo1 Hfo2 Hfo3. apply HQ; [lia| |done].
      intros j Hj. destruct (decide (j = o)) as [->|]; [by apply Hh|]. apply Hfo2. lia.
    + wp_step. apply HQ; [lia|lia|]. left. split; [|by rewrite <- Hh].
      destruct (decide (o <= k)); [done|]. destruct E. apply Hh. apply (empty_above s); [done|lia].
  - wp_step. apply HQ; [lia|lia|]. right. lia.
Qed.

Lemma unit_bytes_weaken s (U U' : Z -> Prop) a :
  (forall u, U u -> U' u) -> unit_bytes s U a -> unit_bytes s U' a.
Proof. intros H (u & Hu & Ha). exists u. auto. Qed.

Lemma link_unit_bytes s b n a :
  0 < n -> baddr s b <= a < baddr s b + 8 -> unit_bytes s (fun u => b <= u < b + n) a.
Proof. intros Hn Ha. exists b. unfold baddr, BLOCK_SIZE in *. lia. Qed.

(** The body of the splitting loop repeats [add_to_list]. *)
Lemma wp_inline_add {A} s a o (c : M bst A) Q :
  wp (add_to_list a o) (fun _ => wp c Q) s ->
  wp (head ← get_head o; set_next a head;; set_head o a;; c) Q s.
Proof.
  unfold add_to_list, wp, mbind, M_bind.
  destruct (get_head o s) as [[p s1]| | | |]; try done.
  destruct (set_next a p s1) as [[[] s2]| | | |]; try done.
  by destruct (set_head o a s2) as [[[] s3]| | | |].
Qed.

(** Splitting a held block down to the requested order keeps its first half
    each time and frees the other. *)
Lemma wp_split_loop s fl fuel b fo o Q :
  brep k s fl -> held k fl fo b -> 0 <= o <= fo -> fo < o + Z.of_nat fuel ->
  (forall s' fl', brep k s' fl' -> held k fl' o b ->
     (forall u, (b <= u < b + 2 ^ o) \/ free_unit fl' u <->
                (b <= u < b + 2 ^ fo) \/ free_unit fl u) ->
     free_count fl' + 2 ^ o = free_count fl + 2 ^ fo ->
     bframe (unit_bytes s (fun u => b <= u < b + 2 ^ fo)) s s' -> Q tt s') ->
  wp (split_loop fuel (baddr s b) fo o) Q s.
Proof.
  revert s fl fo. induction fuel as [|f IH]; intros s fl fo R Hh Ho Hf HQ; [lia|].
  simpl. destruct (Z.gtb_spec fo o).
  2: { wp_step. assert (fo = o) as -> by lia. apply (HQ s fl); try done. }
  pose proof (br_wf _ _ _ R) as W. pose proof (br_k _ _ _ R) as Hk.
  pose proof Hh as [(Hfo & Hb0 & Hal & Hbk) _].
  destruct (split_ok k fl fo b W Hh ltac:(lia)) as [W1 Hh1].
  pose proof (pow2_le_13 (fo - 1) ltac:(lia)) as Hp.
  assert (2 ^ fo = 2 ^ (fo - 1) + 2 ^ (fo - 1)) as Hpow.
  { replace fo with (fo - 1 + 1) at 1 by lia. rewrite Z.pow_add_r by lia. lia. }
  rewrite shift_int by lia. rewrite s32_small by (unfold BLOCK_SIZE; lia).
  replace (baddr s b + 2 ^ (fo - 1) * BLOCK_SIZE) with (baddr s (b + 2 ^ (fo - 1)))
    by (unfold baddr; lia).
  assert (held k fl (fo - 1) (b + 2 ^ (fo - 1))) as Hr.
  { destruct Hh as [_ Hd]. split.
    - repeat split; try lia. apply Z.divide_add_r; [|exists 1; lia].
      eapply divide_pow2_le; [|done]. lia.
    - intros o' b' Hin. specialize (Hd _ _ Hin). unfold disj in *. lia. }
  assert (buddy_of (fo - 1) (b + 2 ^ (fo - 1)) ∉ fl (fo - 1)) as Hc.
  { rewrite buddy_of_double; [|lia|by replace (fo - 1 + 1) with fo by lia].
    intros Hin. destruct Hh as [_ Hd]. specialize (Hd _ _ Hin). unfold disj in Hd. lia. }
  apply wp_inline_add. apply (wp_add_to_list s fl); try done. intros s1 R1 F1.
  rewrite <- (baddr_frame _ _ _ _ F1).
  apply (IH s1 (push (fo - 1) (b + 2 ^ (fo - 1)) fl)); try done; try lia.
  intros s2 fl2 R2 Hh2 Hu2 Hc2 F2. apply (HQ s2 fl2); try done.
  - intros u. rewrite Hu2, free_unit_push. rewrite Hpow. intuition lia.
  - rewrite Hc2, free_count_push by lia. lia.
  - eapply bframe_trans; [eapply bframe_weaken; [exact F1|]|eapply bframe_weaken; [exact F2|]].
    + intros a Ha. eapply unit_bytes_weaken;
        [|apply (link_unit_bytes s (b + 2 ^ (fo - 1)) (2 ^ (fo - 1))); [lia|exact Ha]].
      simpl. intros u. lia.
    + intros a Ha. apply (unit_bytes_frame _ _ _ _ _ F1) in Ha.
      eapply unit_bytes_weaken; [|exact Ha]. simpl. intros u. lia.
Qed.

(** Coalescing grows the held block while its buddy is free. *)
Lemma wp_coalesce_loop s fl fuel b o Q :
  brep k s fl -> held k fl o b -> k + 1 < o + Z.of_nat fuel ->
  (forall s' fl' b' o', brep k s' fl' -> held k fl' o' b' ->
     (o' < k -> buddy_of o' b' ∉ fl' o') ->
     (forall u, (b' <= u < b' + 2 ^ o') \/ free_unit fl' u <->
                (b <= u < b + 2 ^ o) \/ free_unit fl u) ->
     free_count fl' + 2 ^ o' = free_count fl + 2 ^ o ->
     bframe (free_bytes s fl) s s' -> Q (baddr s b', o') s') ->
  wp (coalesce_loop fuel (baddr s b) o) Q s.
Proof.
  revert s fl b o. induction fuel as [|f IH]; intros s fl b o R Hh Hf HQ.
  { pose proof Hh as [[Ho _] _]. pose proof (br_k _ _ _ R). lia. }
  pose proof (br_wf _ _ _ R) as W. pose proof (br_k _ _ _ R) as Hk.
  pose proof Hh as [Hb Hd]. pose proof Hb as (Ho & Hb0 & Hal & Hbk).
  simpl. wp_steps. rewrite (br_max _ _ _ R). replace (o <? k + 1) with true by lia.
  rewrite (get_buddy_spec s fl), (get_parent_spec s fl) by done.
  wp_step. apply (wp_is_block_free s fl); [done|lia|].
  case_bool_decide as Hin.
  2: { wp_step. apply (HQ s fl b o); try done. }
  assert (o < k) as Hlt.
  { destruct (decide (o = k)) as [->|]; [|lia].
    pose proof (wf_ok _ _ W _ _ Hin) as (_ & ? & _ & ?). specialize (Hd _ _ Hin).
    unfold disj in Hd. lia. }
  wp_step. apply (wp_remove_from_list s fl); [done|done|]. intros s1 fl1 Hrem R1 F1.
  rewrite <- (baddr_frame _ _ _ _ F1). apply (IH s1 fl1); [done|by eapply merge_ok|lia|].
  intros s2 fl2 b2 o2 R2 Hh2 Hc2 Hu2 Hn2 F2. rewrite (baddr_frame _ _ _ _ F1).
  apply (HQ s2 fl2); try done.
  - intros u. rewrite Hu2. by apply (merge_units k).
  - rewrite Hn2, (free_count_removed fl fl1 o (buddy_of o b)) by (done || lia).
    rewrite Z.pow_add_r by lia. lia.
  - eapply bframe_trans; [exact F1|]. eapply bframe_weaken; [exact F2|].
    intros a Ha. apply (unit_bytes_frame _ _ _ _ _ F1) in Ha.
    eapply unit_bytes_weaken; [|exact Ha]. intros u Hu.
    apply (free_unit_removed k o (buddy_of o b) fl fl1); auto.
Qed.

(** ** The allocator between operations *)

Definition buddy_inv (s : bst) (fl : flists) : Prop :=
  brep k s fl /\ lk_locked (get_lock s) = 0 /\ hart_ok (hart_of s) /\
  free_blocks (buddy s) = free_count fl.

(** The fields [brep] talks about. *)
Lemma brep_ext s s' fl :
  brep k s fl -> mem_of s' = mem_of s ->
  max_order (buddy s') = max_order (buddy s) ->
  free_list (buddy s') = free_list (buddy s) ->
  memory_start (buddy s') = memory_start (buddy s) ->
  total_blocks (buddy s') = total_blocks (buddy s) -> brep k s' fl.
Proof.
  intros R E1 E2 E3 E4 E5. split; rewrite ?E2, ?E3, ?E4, ?E5; try apply R.
  intros o Ho. destruct (br_heads _ _ _ R o Ho) as (p & Hp & Hl). exists p.
  split; [done|]. rewrite E1. replace (baddr s' <$> fl o) with (baddr s <$> fl o); [done|].
  apply list_fmap_ext. intros i x _. unfold baddr. by rewrite E4.
Qed.

(** What a client sees of an operation that may write the bytes in [W]. *)
Record op_post (s s' : bst) (fl' : flists) (W : Z -> Prop) : Prop := {
  op_inv : buddy_inv s' fl';
  op_hart : hart_same (hart_of s) (hart_of s');
  op_start : memory_start (buddy s') = memory_start (buddy s);
  op_mem : modifies W (mem_of s) (mem_of s')
}.

(** [s1] is inside the critical section entered in [s]. *)
Record in_lock (s s1 : bst) : Prop := {
  il_hart : hart_of s1 = push_off (hart_of s);
  il_locked : lk_locked (get_lock s1) = 1;
  il_cpu : lk_cpu (get_lock s1) = h_cpu (hart_of s);
  il_start : memory_start (buddy s1) = memory_start (buddy s)
}.

Lemma in_lock_frame W s s1 s2 : in_lock s s1 -> bframe W s1 s2 -> in_lock s s2.
Proof. intros [] (A1 & A2 & A3 & A4 & _). split; congruence. Qed.

Lemma in_lock_baddr s s1 b : in_lock s s1 -> baddr s1 b = baddr s b.
Proof. intros I. unfold baddr. by rewrite (il_start _ _ I). Qed.

Lemma in_lock_unit_bytes s s1 U a : in_lock s s1 -> unit_bytes s1 U a <-> unit_bytes s U a.
Proof. intros I. unfold unit_bytes. by setoid_rewrite (in_lock_baddr _ _ _ I). Qed.

(** Taking the lock at the start of an operation. *)
Lemma wp_acquire_buddy s fl Q :
  buddy_inv s fl ->
  (forall s', brep k s' fl -> in_lock s s' -> free_blocks (buddy s') = free_count fl ->
     mem_of s' = mem_of s -> Q tt s') ->
  wp acquire_buddy Q s.
Proof.
  intros (R & Hl & _ & Hf) HQ. apply wp_acquire_in; [done|]. apply HQ; try done.
  by eapply brep_ext.
Qed.

(** Dropping it at the end: the hart is as it was. *)
Lemma wp_release_buddy s s1 fl W Q :
  brep k s1 fl -> hart_ok (hart_of s) -> in_lock s s1 ->
  free_blocks (buddy s1) = free_count fl -> modifies W (mem_of s) (mem_of s1) ->
  (forall s', op_post s s' fl W -> Q tt s') ->
  wp release_buddy Q s1.
Proof.
  intros R Hok [Hh Hl Hc Hm] Hf Hmem HQ.
  destruct (pop_push_off (hart_of s) (hart_of s1) Hok) as (h3 & Hp & Hs); [by rewrite Hh|].
  eapply wp_release_in; [by rewrite Hl|by rewrite Hc, Hh|exact Hp|].
  apply HQ. split; try done. split; [by eapply brep_ext|]. split; [done|].
  split; [by apply (hart_ok_proper _ _ Hs)|done].
Qed.

(** Updating the counter just before that. *)
Lemma wp_count_release s s1 fl W n Q :
  brep k s1 fl -> hart_ok (hart_of s) -> in_lock s s1 ->
  n = free_count fl -> modifies W (mem_of s) (mem_of s1) ->
  (forall s', op_post s s' fl W -> Q tt s') ->
  wp release_buddy Q (set_free_blocks n s1).
Proof.
  intros R Hok [] Hn Hmem HQ. eapply wp_release_buddy; try done. by eapply brep_ext.
Qed.

(** ** buddy_alloc *)

(** Taking a block of order [fo] and splitting it down to order [o]. *)
Lemma wp_take_split s s1 fl fo o b l Q :
  buddy_inv s fl -> in_lock s s1 -> brep k s1 fl -> mem_of s1 = mem_of s ->
  fl fo = b :: l -> 0 <= o <= fo ->
  (forall s2 fl2, brep k s2 fl2 -> in_lock s s2 -> held k fl2 o b ->
     free_blocks (buddy s2) = free_blocks (buddy s1) ->
     (forall u, run b o u \/ free_unit fl2 u <-> free_unit fl u) ->
     free_count fl2 + 2 ^ o = free_count fl ->
     modifies (free_bytes s fl) (mem_of s) (mem_of s2) -> Q tt s2) ->
  wp (remove_from_list (baddr s1 b) fo;; split_loop 17 (baddr s1 b) fo o) Q s1.
Proof.
  intros (R & _) I R1 Em Efl Ho HQ. pose proof (br_wf _ _ _ R) as W. pose proof (br_k _ _ _ R) as Hk.
  assert (b ∈ fl fo) as Hb by (rewrite Efl; constructor).
  destruct (wf_ok _ _ W _ _ Hb) as [Hfo _].
  wp_step. apply (wp_remove_from_list s1 fl); [done|done|]. intros s2 fl2 Hrem R2 F2.
  rewrite <- (baddr_frame _ _ _ b F2). pose proof (in_lock_frame _ _ _ _ I F2) as I2.
  apply (wp_split_loop s2 fl2); [done|by eapply held_removed|lia|lia|].
  intros s3 fl3 R3 Hh3 Hu3 Hc3 F3.
  pose proof (fun u => free_unit_removed k fo b fl fl2 u W Hrem) as Hu2.
  apply (HQ s3 fl3); try done.
  - by eapply in_lock_frame.
  - destruct F2 as (_ & _ & E2 & _), F3 as (_ & _ & E3 & _). congruence.
  - intros u. rewrite Hu2. apply Hu3.
  - pose proof (free_count_removed fl fl2 fo b ltac:(lia) Hrem). lia.
  - rewrite <- Em. destruct F2 as (_ & _ & _ & _ & A5), F3 as (_ & _ & _ & _ & B5).
    eapply modifies_trans; (eapply modifies_weaken; [eassumption|]); intros a Ha.
    + by apply (in_lock_unit_bytes _ _ _ _ I) in Ha.
    + apply (in_lock_unit_bytes _ _ _ _ I2) in Ha. eapply unit_bytes_weaken; [|exact Ha].
      intros u Hu. apply Hu2. by left.
Qed.

Lemma wp_buddy_alloc s fl n Q :
  buddy_inv s fl -> 1 <= n <= 2 ^ 30 ->
  (forall s' fl', op_post s s' fl' (fun _ => False) ->
     alloc_spec k (free_unit fl) n None (free_unit fl') -> Q 0 s') ->
  (forall s' fl' b, op_post s s' fl' (free_bytes s fl) ->
     alloc_spec k (free_unit fl) n (Some b) (free_unit fl') -> Q (baddr s b) s') ->
  wp (buddy_alloc n) Q s.
Proof.
  intros HI Hn HNone HSome. pose proof HI as (R & Hl & Hok & Hf).
  pose proof (br_k _ _ _ R) as Hk. pose proof (br_wf _ _ _ R) as W.
  pose proof (Z.log2_up_nonneg n) as Ho.
  unfold buddy_alloc. replace (n <? 1) with false by lia.
  rewrite log2_ceil_spec by done. wp_step. apply wp_of_opt. set (o := Z.log2_up n) in *.
  wp_step. apply (wp_acquire_buddy s fl); [done|]. intros s1 R1 I1 F1 E1.
  assert ((forall o', o <= o' -> fl o' = []) -> wp (release_buddy;; mret 0) Q s1) as Hnull.
  { intros He. wp_step.
    apply (wp_release_buddy s s1 fl (fun _ => False)); try done; [rewrite E1; apply modifies_refl|].
    intros s2 P. apply (HNone s2 fl P). split; [done|]. intros c Hc. by apply (no_run k). }
  wp_step. apply wp_get. rewrite (br_max _ _ _ R1). destruct (Z.gtb_spec o (k + 1)).
  { apply Hnull. intros o' Ho'. apply (empty_above s); [done|lia]. }
  wp_step. apply (wp_find_order s1 fl); [done|lia|lia|]. intros fo Hfo He Hcase.
  destruct (Z.gtb_spec fo (k + 1)) as [Hgt|Hle].
  { apply Hnull. intros o' Ho'. destruct (decide (o' < fo)); [apply He; lia|].
    apply (empty_above s); [done|lia]. }
  destruct Hcase as [[Hfk Hne]|?]; [|lia].
  wp_step. apply (wp_get_head s1 fl); [done|lia|]. intros p Hsl.
  destruct (fl fo) as [|b l] eqn:Efl; [done|]. simpl in Hsl. destruct Hsl as (-> & _ & _).
  apply wp_assoc. wp_step. eapply (wp_take_split s s1 fl); try done.
  intros s2 fl2 R2 I2 Hh2 Hf2 Hu2 Hc2 Hm2. wp_steps. rewrite (in_lock_baddr _ _ _ I1).
  pose proof (pow2_le_13 k Hk). pose proof (pow2_le_13 o ltac:(lia)).
  pose proof (free_count_held_bound k fl2 o b (br_wf _ _ _ R2) ltac:(lia) Hh2).
  apply (wp_count_release s s2 fl2 (free_bytes s fl)); try done.
  { rewrite shift_int, Hf2, F1 by lia. unfold free_count in *. rewrite s32_small; lia. }
  intros s3 P. apply (HSome s3 fl2 b P). split; [apply Hh2|].
  pose proof (fun u => held_not_free k fl2 o b u Hh2) as Hnf. unfold run in *.
  split; intros u; specialize (Hu2 u); specialize (Hnf u); intuition.
Qed.

(** ** buddy_free *)

Lemma wp_buddy_free s fl b n Q :
  buddy_inv s fl -> 1 <= n <= 2 ^ 30 -> held k fl (Z.log2_up n) b ->
  (forall s' fl', op_post s s' fl' (unit_bytes s (fun u => run b (Z.log2_up n) u \/ free_unit fl u)) ->
     free_spec (free_unit fl) b n (free_unit fl') -> Q tt s') ->
  wp (buddy_free (baddr s b) n) Q s.
Proof.
  intros HI Hn Hh HQ. pose proof HI as (R & Hl & Hok & Hf). pose proof Hh as [(Ho & _) _].
  pose proof (br_k _ _ _ R) as Hk. pose proof (held_addr _ _ _ _ R Hh).
  unfold buddy_free. replace ((baddr s b =? 0) || (n <? 1)) with false by lia.
  rewrite log2_ceil_spec by done. set (o := Z.log2_up n) in *.
  wp_step. apply (wp_acquire_buddy s fl); [done|]. intros s1 R1 I1 F1 E1.
  wp_step. apply wp_of_opt. wp_step. rewrite <- (in_lock_baddr _ _ _ I1).
  apply (wp_coalesce_loop s1 fl); [done|done|lia|]. intros s2 fl2 b2 o2 R2 Hh2 Hc2 Hu2 Hn2 B2.
  pose proof (in_lock_frame _ _ _ _ I1 B2) as I2.
  wp_step. simpl fst. simpl snd. rewrite <- (baddr_frame _ _ _ _ B2).
  apply (wp_add_to_list s2 fl2); try done. intros s3 R3 B3. wp_steps.
  pose proof (in_lock_frame _ _ _ _ I2 B3) as I3. pose proof Hh2 as [(Ho2 & _) _].
  pose proof (pow2_le_13 k Hk). pose proof (pow2_le_13 o ltac:(lia)).
  pose proof (free_count_held_bound k fl o b (br_wf _ _ _ R) ltac:(lia) Hh).
  apply (wp_count_release s s3 (push o2 b2 fl2)
           (unit_bytes s (fun u => run b o u \/ free_unit fl u))); try done.
  - rewrite shift_int, free_count_push by lia.
    destruct B2 as (_ & _ & B2 & _), B3 as (_ & _ & B3 & _). rewrite B3, B2, F1.
    unfold free_count in *. rewrite s32_small; lia.
  - rewrite <- E1. destruct B2 as (_ & _ & _ & _ & B2), B3 as (_ & _ & _ & _ & B3).
    eapply modifies_trans; (eapply modifies_weaken; [eassumption|]); intros a Ha.
    + apply (in_lock_unit_bytes _ _ _ _ I1) in Ha. eapply unit_bytes_weaken; [|exact Ha]. intros u Hu. by right.
    + apply (link_unit_bytes s2 b2 (2 ^ o2)) in Ha; [|apply pow2_pos; lia].
      apply (in_lock_unit_bytes _ _ _ _ I2) in Ha. eapply unit_bytes_weaken; [|exact Ha].
      intros u Hu. apply Hu2. by left.
  - intros s4 P. eapply HQ; [exact P|]. intros u. rewrite free_unit_push, Hu2. fold (run b o u). tauto.
Qed.

(** ** buddy_init *)

Definition no_free : flists := fun _ => [].
Definition all_free : flists := push k 0 no_free.

Lemma free_unit_all_free u : free_unit all_free u <-> run 0 k u.
Proof.
  unfold all_free. rewrite free_unit_push. unfold run. split; [|by left].
  intros [?|(o & b & []%elem_of_nil & _)]. done.
Qed.

Lemma wf_no_free : wf k no_free.
Proof. split; try (intros; by apply elem_of_nil in H); try done. intros. constructor. Qed.

(** The static struct before [buddy_init] (zero-initialised storage). *)
Definition bss (s : bst) : Prop := free_list (buddy s) = replicate 15 0.

(** The first loop of [buddy_init] leaves every list empty. *)
Lemma brep_fresh s space :
  0 <= k <= 13 -> bss s -> 0 < space -> space + BLOCK_SIZE * 2 ^ k <= 2 ^ 63 ->
  brep k (set_buddy (mkBuddy (k + 1) (initlock "buddy")
     (replicate (Z.to_nat (k + 1)) 0 ++ drop (Z.to_nat (k + 1)) (free_list (buddy s)))
     space (2 ^ k) (2 ^ k)) s) no_free.
Proof.
  intros Hk Hb Hs1 Hs2. rewrite Hb, drop_replicate, <- replicate_add.
  replace (Z.to_nat (k + 1) + (15 - Z.to_nat (k + 1)))%nat with 15%nat by lia.
  split; try done; [apply wf_no_free|]. intros o Ho. exists 0. split; [|done].
  apply lookup_replicate_2. lia.
Qed.

Lemma wp_buddy_init s space Q :
  0 <= k <= 13 -> bss s -> 0 < space -> space + BLOCK_SIZE * 2 ^ k <= 2 ^ 63 ->
  hart_ok (hart_of s) ->
  (forall s', buddy_inv s' all_free -> hart_of s' = hart_of s ->
     memory_start (buddy s') = space ->
     modifies (bytes_of space 8) (mem_of s) (mem_of s') -> Q tt s') ->
  wp (buddy_init space (2 ^ k)) Q s.
Proof.
  intros Hk Hb Hs1 Hs2 Hok HQ. pose proof (pow2_le_13 k Hk).
  unfold buddy_init. replace (2 ^ k <? 1) with false by lia.
  rewrite log2_ceil_spec, Z.log2_up_pow2 by lia. wp_step. apply wp_of_opt.
  unfold MAX_ORDER. replace (k + 1 >? 15) with false by lia. wp_steps.
  replace (Z.to_nat (2 ^ k)) with (S (Z.to_nat (2 ^ k - 1))) by lia.
  pose proof (brep_fresh s space Hk Hb Hs1 Hs2) as R. set (s1 := set_buddy _ s) in *.
  cbn [init_loop]. replace (2 ^ k >? 0) with true by lia.
  rewrite fit_order_pow2 by done.
  wp_step. apply wp_of_opt. wp_step.
  replace space with (baddr s1 0) at 1 by (unfold baddr; simpl; lia).
  apply (wp_add_to_list s1 no_free); [done| |intros _; apply not_elem_of_nil|].
  { split; [|intros o' b' []%elem_of_nil]. repeat split; try lia. apply Z.divide_0_r. }
  intros s2 R2 (F1 & F2 & F3 & F4 & F5). rewrite shift_int, Z.sub_diag by lia. simpl. wp_step.
  replace (baddr s1 0) with space in F5 by (unfold baddr; simpl; lia).
  apply HQ; try done. split; [done|]. rewrite F1, F2, F3. split; [done|]. split; [done|].
  unfold all_free. rewrite free_count_push by lia. rewrite free_count_weight. done.
Qed.

End Rep.
