(* ===== verification/BuddyThms.v ===== *)
(** * What kernel/buddy.c guarantees

    The client-level theorems of the buddy allocator: initialisation
    establishes the invariant, allocation and freeing refine the abstract
    contract of [BuddySpec] (who owns which 4096-byte unit), and the free
    lists are a function of the set of free units.  The last part records
    what the code does outside the parameters it works for. *)

From Stdlib Require Import ZArith Lia Bool String.
From stdpp Require Import base gmap list strings functions.
From S2P Require Import Prelude Mem MemList Spinlock BuddySpec Buddy BuddyProof.


(** A booted machine, for the witnesses: zeroed static storage, one hart. *)
Definition boot : bst :=
  mkBst (mkMach (mkHart 4096 0 false false) ∅)
        (mkBuddy 0 (initlock "") (replicate 15 0) 0 0 0).

Definition state_after {A} (c : M bst A) (s : bst) : bst :=
  match c s with Ret (_, s') => s' | _ => s end.

Definition demo : bst := state_after (buddy_init 65536 8) boot.

Lemma boot_bss : bss boot.
Proof. reflexivity. Qed.

Lemma boot_ok : hart_ok (hart_of boot).
Proof. repeat split; done. Qed.

Lemma wp_state_after {A} (c : M bst A) (P : bst -> Prop) s :
  wp c (fun _ => P) s -> P (state_after c s).
Proof. unfold wp, state_after. by destruct (c s) as [[a s']| | | |]. Qed.

Lemma demo_inv : buddy_inv 3 demo (all_free 3).
Proof.
  apply (wp_state_after (buddy_init 65536 (2 ^ 3)) (fun s => buddy_inv 3 s (all_free 3))).
  by apply (wp_buddy_init 3).
Qed.



(** C11: [buddy_free] of a block the caller holds refines the abstract
    contract: it returns, the freed run becomes free, nothing else changes
    hands, all free buddies are merged again (the invariant), the hart's
    interrupt state is restored, and only bytes of the freed run and of free
    blocks were written. *)
Theorem buddy_free_refines k s fl b n :
  buddy_inv k s fl -> 1 <= n <= 2 ^ 30 -> held k fl (Z.log2_up n) b ->
  wp (buddy_free (baddr s b) n) (fun _ s' => exists fl',
    op_post k s s' fl' (unit_bytes s (fun u => run b (Z.log2_up n) u \/ free_unit fl u)) /\
    free_spec (free_unit fl) b n (free_unit fl')) s.
Proof.
  intros HI Hn Hh. apply (wp_buddy_free k s fl b n); [done|done|done|]. eauto.
Qed.

(** A held block to free in the witness: the first unit of [demo]. *)
Definition demo_all : bst := state_after (buddy_alloc 8) demo.

Lemma demo_all_inv : exists fl, buddy_inv 3 demo_all fl /\ held 3 fl 3 0.
Proof.
  apply (wp_state_after (buddy_alloc 8) (fun s => exists fl, buddy_inv 3 s fl /\ held 3 fl 3 0)).
  apply (wp_buddy_alloc 3 demo (all_free 3)); [apply demo_inv|lia| |].
  - intros s' fl' P [_ Hn]. exfalso. apply (Hn 0 (Z.divide_0_r _)).
    intros u Hu. by apply free_unit_all_free.
  - intros s' fl' b [HI] (Hb & _ & Hf). exists fl'. split; [done|].
    destruct Hb as (Ho & Hb0 & Hal & Hbk). change (Z.log2_up 8) with 3 in *.
    assert (b = 0) as -> by lia. split; [repeat split; lia || apply Z.divide_0_r|].
    intros o' b' Hin. exfalso. destruct HI as (R & _).
    destruct (wf_ok _ _ (br_wf _ _ _ R) _ _ Hin) as (? & ? & ? & ?).
    pose proof (pow2_pos o' ltac:(lia)).
    destruct (proj1 (Hf b')) as [_ Hn]; [exists o', b'; split; [done|lia]|].
    apply Hn. unfold run. lia.
Qed.

Lemma buddy_free_refines_witness :
  exists fl, buddy_inv 3 demo_all fl /\
  wp (buddy_free (baddr demo_all 0) 8) (fun _ s' => exists fl',
    op_post 3 demo_all s' fl' (unit_bytes demo_all (fun u => run 0 3 u \/ free_unit fl u)) /\
    free_spec (free_unit fl) 0 8 (free_unit fl')) demo_all.
Proof.
  destruct demo_all_inv as (fl & HI & Hh). exists fl. split; [exact HI|].
  exact (buddy_free_refines 3 demo_all fl 0 8 HI ltac:(lia) Hh).
Defined.

(** [buddy_init] of a region of [2^k] blocks ([k] at most 13), from
    zero-initialised static storage, establishes the invariant with the whole
    region free as one block of order [k], writing only its first 8 bytes. *)
Theorem buddy_init_establishes k s space :
  0 <= k <= 13 -> bss s -> 0 < space -> space + BLOCK_SIZE * 2 ^ k <= 2 ^ 63 ->
  hart_ok (hart_of s) ->
  wp (buddy_init space (2 ^ k)) (fun _ s' =>
    buddy_inv k s' (all_free k) /\ hart_of s' = hart_of s /\
    memory_start (buddy s') = space /\
    modifies (bytes_of space 8) (mem_of s) (mem_of s')) s.
Proof. intros. by apply (wp_buddy_init k). Qed.

Lemma buddy_init_establishes_witness :
  wp (buddy_init 65536 (2 ^ 3)) (fun _ s' =>
    buddy_inv 3 s' (all_free 3) /\ hart_of s' = hart_of boot /\
    memory_start (buddy s') = 65536 /\
    modifies (bytes_of 65536 8) (mem_of boot) (mem_of s')) boot.
Proof.
  assert (0 <= 3 <= 13) as Hk by lia.
  exact (buddy_init_establishes 3 boot 65536 Hk boot_bss ltac:(lia)
           ltac:(unfold BLOCK_SIZE; lia) boot_ok).
Defined.

(** Freeing what was just allocated undoes the allocation: after
    [buddy_alloc n] returned a block and [buddy_free] gave it back, every
    free list holds exactly the blocks it held before (splits are merged back
    and no fragmentation stays behind), and the counter of free blocks is the
    old one. *)
Theorem buddy_alloc_free_roundtrip k s fl n :
  buddy_inv k s fl -> 1 <= n <= 2 ^ 30 ->
  wp (r ← buddy_alloc n; buddy_free r n) (fun _ s' => exists fl',
    buddy_inv k s' fl' /\ (forall o b, b ∈ fl' o <-> b ∈ fl o)) s.
Proof.
  intros HI Hn. pose proof HI as (R & _). apply wp_bind.
  apply (wp_buddy_alloc k s fl n); [done|done| |].
  - intros s' fl' [HI' _ _ _] [Hu _]. exists fl'. split; [done|]. destruct HI' as (R' & _).
    split; eapply wf_determined; try eapply br_wf; eauto; intros u; by rewrite Hu.
  - intros s1 fl1 b [HI1 _ Em _] (Hb & Hin & Hu). pose proof HI1 as (R1 & _).
    replace (baddr s b) with (baddr s1 b) by (unfold baddr; by rewrite Em).
    apply (wp_buddy_free k s1 fl1 b n); [done|done| |].
    + split; [done|]. intros o' b' Hin'. destruct (wf_ok _ _ (br_wf _ _ _ R1) _ _ Hin') as [? _].
      pose proof (pow2_pos o' ltac:(lia)). pose proof (pow2_pos (Z.log2_up n) (Z.log2_up_nonneg _)).
      unfold disj. assert (b' + 2 ^ o' <= b \/ b + 2 ^ Z.log2_up n <= b') as [?|?]; [|lia|lia].
      destruct (decide (b' + 2 ^ o' <= b)); [by left|].
      destruct (decide (b + 2 ^ Z.log2_up n <= b')); [by right|]. exfalso.
      destruct (proj1 (Hu (Z.max b b'))) as [_ Hno]; [exists o', b'; split; [done|lia]|].
      apply Hno. unfold run. lia.
    + intros s2 fl2 [HI2 _ _ _] Hf. exists fl2. split; [done|]. pose proof HI2 as (R2 & _).
      assert (forall u, free_unit fl2 u <-> free_unit fl u) as Heq.
      { intros u. rewrite (Hf u), Hu. specialize (Hin u). split; [tauto|].
        destruct (decide (b <= u < b + 2 ^ Z.log2_up n)); unfold run; tauto. }
      split; eapply wf_determined; try eapply br_wf; eauto; intros u; by rewrite Heq.
Qed.

Lemma buddy_alloc_free_roundtrip_witness :
  wp (r ← buddy_alloc 3; buddy_free r 3) (fun _ s' => exists fl',
    buddy_inv 3 s' fl' /\ (forall o b, b ∈ fl' o <-> b ∈ all_free 3 o)) demo.
Proof. exact (buddy_alloc_free_roundtrip 3 demo (all_free 3) 3 demo_inv ltac:(lia)). Defined.

(** ** Outside the supported parameters *)

Fixpoint allocs (l : list Z) : M bst (list Z) :=
  match l with
  | [] => mret []
  | n :: l => r ← buddy_alloc n; rs ← allocs l; mret (r :: rs)
  end.

Definition result {A} (o : outcome (A * bst)) : outcome A :=
  match o with
  | Ret (a, _) => Ret a
  | Panic msg => Panic msg
  | Fault why => Fault why
  | Blocked why => Blocked why
  | OutOfFuel => OutOfFuel
  end.

(** ** [buddy_init] with a number of blocks that is not a power of two *)

Lemma fit_order_log2 f o r : 1 <= r -> Z.log2 r <= o <= 30 -> o - Z.log2 r < Z.of_nat f -> fit_order f o r = Some (Z.log2 r).
Proof.
  intros Hr. revert o. induction f as [|f IH]; intros o Ho Hf; [lia|]. cbn [fit_order]. pose proof (Z.log2_nonneg r). rewrite shift_int by lia.
  pose proof (Z.log2_spec r ltac:(lia)) as [Hlo Hhi]. rewrite Z.gtb_ltb. destruct (decide (o = Z.log2 r)) as [->|Hne].
  - by replace (r <? 2 ^ Z.log2 r) with false by lia.
  - pose proof (Z.pow_le_mono_r 2 (Z.succ (Z.log2 r)) o ltac:(lia) ltac:(lia)). replace (r <? 2 ^ o) with true by lia. apply IH; lia.
Qed.

(** What the loop leaves alone. *)
Record init_frame (s s' : bst) : Prop := {
  if_len : length (free_list (buddy s')) = length (free_list (buddy s));
  if_max : max_order (buddy s') = max_order (buddy s);
  if_lock : buddy_lock (buddy s') = buddy_lock (buddy s);
  if_hart : hart_of s' = hart_of s
}.

Lemma wp_add_head s ptr o (Q : unit -> bst -> Prop) : length (free_list (buddy s)) = 15%nat -> ptr <> 0 -> 0 <= o < 15 ->
  (forall s', init_frame s s' -> free_list (buddy s') = <[Z.to_nat o := ptr]> (free_list (buddy s)) -> Q tt s') -> wp (add_to_list ptr o) Q s.
Proof.
  intros Hl Hp Ho HQ. unfold add_to_list, get_head. wp_steps. destruct (lookup_lt_is_Some_2 (free_list (buddy s)) (Z.to_nat o)) as [h Eh]; [lia|].
  eapply wp_arr_get; [lia|exact Eh|]. wp_step. apply wp_setf; [done|]. apply wp_set_head; [done|done|]. apply HQ; [|done].
  split; [apply length_insert|done|done|]. change (hart_of (set_mem (st 8 (mem_of s) (ptr + 0) h) s) = hart_of s). apply hart_of_set_mem.
Qed.

(** The loop puts the block it is at on the list of the largest order that
    fits, and no other block on that list or on one of a larger order. *)
Lemma wp_init_loop fuel : forall s current r o, length (free_list (buddy s)) = 15%nat -> 0 < current -> 0 <= r < 2 ^ 15 -> o <= 15 ->
  (0 < r -> Z.log2 r <= o) -> r < Z.of_nat fuel ->
  wp (init_loop fuel current r o) (fun _ s' => init_frame s s' /\
    (forall j, 0 <= j -> r < 2 ^ j -> free_list (buddy s') !! Z.to_nat j = free_list (buddy s) !! Z.to_nat j) /\
    (0 < r -> free_list (buddy s') !! Z.to_nat (Z.log2 r) = Some current)) s.
Proof.
  induction fuel as [|f IH]; intros s current r o Hl Hc Hr Ho Hlo Hf; [lia|]. cbn [init_loop]. rewrite Z.gtb_ltb. destruct (Z.ltb_spec 0 r) as [Hp|Hz].
  2: { wp_step. split_and!; [done|done|lia]. }
  pose proof (Z.log2_spec r Hp) as [Hs1 Hs2]. pose proof (Z.log2_nonneg r). assert (Z.log2 r < 15) as Hk by (apply Z.log2_lt_pow2; lia).
  rewrite (fit_order_log2 17 o r) by lia. set (k := Z.log2 r) in *. wp_steps. cbn [of_opt]. wp_steps.
  apply wp_add_head; [done|lia|lia|]. intros s1 [F1 F2 F3 F4] E1. rewrite shift_int by lia. rewrite Z.pow_succ_r in Hs2 by lia. pose proof (pow2_pos k).
  assert (0 <= s32 (2 ^ k * BLOCK_SIZE)) as Hs32 by (pose proof (Z.pow_le_mono_r 2 k 14 ltac:(lia) ltac:(lia)); unfold BLOCK_SIZE; rewrite s32_small by lia; lia).
  eapply wp_mono; [apply (IH s1); [by rewrite F1|unfold sizeof_buddy_block; lia|lia|lia| |lia]|].
  - intros Hp'. apply Z.lt_succ_r, Z.log2_lt_pow2; [done|]. pose proof (Z.pow_succ_r 2 k). lia.
  - cbn beta. intros _ s' ([G1 G2 G3 G4] & Hj & _). split; [split; congruence|]. split.
    + intros j Hj0 Hjr. rewrite Hj by lia. rewrite E1, list_lookup_insert_ne; [done|]. intros E. assert (k = j) as <- by lia. lia.
    + intros _. rewrite Hj by lia. rewrite E1. apply list_lookup_insert_eq. lia.
Qed.

(** A block at the head of the list of its order is the one handed out. *)
Lemma wp_alloc_head s o addr : 0 <= o <= 14 -> length (free_list (buddy s)) = 15%nat -> free_list (buddy s) !! Z.to_nat o = Some addr -> addr <> 0 ->
  o <= max_order (buddy s) -> lk_locked (buddy_lock (buddy s)) = 0 -> hart_ok (hart_of s) -> wp (buddy_alloc (2 ^ o)) (fun r _ => r = addr) s.
Proof.
  intros Ho Hl Ha Hne Hm Hlk Hh. pose proof (pow2_pos o). pose proof (Z.pow_le_mono_r 2 o 14 ltac:(lia) ltac:(lia)).
  unfold buddy_alloc. replace (2 ^ o <? 1) with false by lia. rewrite log2_ceil_spec, Z.log2_up_pow2 by lia. cbn [of_opt]. wp_steps.
  apply wp_acquire_in; [done|]. set (s1 := set_lock _ _). wp_steps. change (max_order (buddy s1)) with (max_order (buddy s)).
  replace (o >? max_order (buddy s)) with false by lia. wp_step. change 17%nat with (S 16). cbn [find_order]. wp_steps.
  change (max_order (buddy s1)) with (max_order (buddy s)). replace (o <=? max_order (buddy s)) with true by lia. unfold get_head. wp_steps.
  eapply wp_arr_get; [lia|exact Ha|]. rewrite (proj2 (Z.eqb_neq addr 0) Hne). wp_steps. change (max_order (buddy s1)) with (max_order (buddy s)).
  replace (o >? max_order (buddy s)) with false by lia. wp_steps. eapply wp_arr_get; [lia|exact Ha|]. unfold remove_from_list, get_head. wp_steps.
  eapply wp_arr_get; [lia|exact Ha|]. rewrite Z.eqb_refl. wp_step. unfold get_next. apply wp_getf; [done|]. apply wp_set_head; [done|lia|]. wp_step.
  cbn [split_loop]. replace (o >? o) with false by lia. wp_steps.
  destruct (pop_push_off (hart_of s) (push_off (hart_of s)) Hh) as (h & Ep & _); [done|]. eapply wp_release_in; [done|done|exact Ep|]. by wp_step.
Qed.

(** C37: for every number of blocks that is not a power of two, [buddy_init]
    gives away memory it does not own.  Its cursor is a [struct buddy_block *],
    so it moves [size * BLOCK_SIZE] elements of 8 bytes, eight times too far:
    the second free block lies past the end of the region, and the first
    allocation of that size returns it. *)
Theorem buddy_init_non_power_of_two s space n :
  bss s -> hart_ok (hart_of s) -> 0 < space -> 1 <= n <= 2 ^ 14 -> n <> 2 ^ Z.log2 n ->
  let size := 2 ^ Z.log2 (n - 2 ^ Z.log2 n) in
  wp (buddy_init space n;; buddy_alloc size) (fun r _ => r = space + 8 * (2 ^ Z.log2 n * BLOCK_SIZE) /\ space + n * BLOCK_SIZE < r) s.
Proof.
  intros Hb Hh Hsp Hn Hne. pose proof (Z.log2_spec n ltac:(lia)) as [H1 H2]. pose proof (Z.log2_nonneg n). set (k := Z.log2 n) in *. cbv zeta.
  rewrite Z.pow_succ_r in H2 by lia. assert (Z.log2 n < 14) as Hk by (apply Z.log2_lt_pow2; [lia|]; destruct (decide (n = 2 ^ 14)) as [->|]; [done|lia]). fold k in Hk.
  set (r := n - 2 ^ k) in *. pose proof (Z.log2_spec r ltac:(lia)) as [H3 H4]. pose proof (Z.log2_nonneg r). set (o := Z.log2 r) in *.
  assert (o < k) as Hok by (apply Z.log2_lt_pow2; lia). assert (length (free_list (buddy s)) = 15%nat) as Hl by (rewrite Hb; done).
  wp_step. unfold buddy_init. replace (n <? 1) with false by lia.
  assert (Z.log2_up n = k + 1) as El by (apply Z.log2_up_unique; [lia|]; replace (Z.pred (k + 1)) with k by lia; rewrite Z.pow_add_r by lia; lia).
  rewrite log2_ceil_spec, El by lia. cbn [of_opt]. wp_steps. unfold MAX_ORDER. replace (k + 1 + 1 >? 15) with false by lia. wp_steps. set (s1 := set_buddy _ s).
  assert (free_list (buddy s1) = replicate 15 0) as E1.
  { unfold s1. cbn [buddy set_buddy free_list]. rewrite Hb, drop_replicate, <- replicate_add. f_equal. lia. }
  assert (length (free_list (buddy s1)) = 15%nat) as Hl1 by (by rewrite E1).
  cbn [init_loop]. replace (n >? 0) with true by lia. rewrite (fit_order_log2 17 (k + 1 + 1) n) by (fold k; lia). fold k. wp_steps. cbn [of_opt]. wp_steps.
  apply wp_add_head; [done|lia|lia|]. intros s2 [F1 F2 F3 F4] E2. rewrite shift_int by lia. fold r.
  pose proof (Z.pow_le_mono_r 2 k 13 ltac:(lia) ltac:(lia)). pose proof (pow2_pos k). rewrite s32_small by (unfold BLOCK_SIZE; lia).
  eapply wp_mono; [apply (wp_init_loop _ s2); [by rewrite F1|unfold BLOCK_SIZE, sizeof_buddy_block; lia|lia|lia|fold o; lia|lia]|].
  cbn beta. intros _ s3 ([G1 G2 G3 G4] & _ & Ho). eapply wp_mono.
  - apply (wp_alloc_head s3 o); [lia|congruence|apply Ho; lia|unfold BLOCK_SIZE, sizeof_buddy_block; lia|rewrite G2, F2; cbn; lia|by rewrite G3, F3|by rewrite G4, F4].
  - cbn beta. intros r' s4 ->. unfold BLOCK_SIZE, sizeof_buddy_block. lia.
Qed.

(** 3 blocks at 65536: the region ends at 77824, and a request for one block
    returns 131072. *)
Lemma buddy_init_non_power_of_two_witness :
  result ((buddy_init 65536 3;; buddy_alloc 1) boot) = Ret 131072 /\
  wp (buddy_init 65536 3;; buddy_alloc 1) (fun r _ => r = 65536 + 8 * (2 * BLOCK_SIZE) /\ 65536 + 3 * BLOCK_SIZE < r) boot.
Proof.
  split; [vm_compute; reflexivity|]. refine (buddy_init_non_power_of_two boot 65536 3 _ _ _ _ _); [reflexivity|repeat split; done|lia|lia|discriminate].
Defined.

(** with more than 8192 blocks [max_order] is 15 = [MAX_ORDER], which
    [buddy_init] accepts, and the order search of [buddy_alloc], which runs up
    to and including [max_order], reads [free_list[15]], one past the array,
    as soon as the region is exhausted. *)
Theorem buddy_alloc_reads_past_free_list :
  result ((buddy_init 65536 16384;; allocs [16384; 1]) boot) = Fault "index".
Proof. vm_compute. reflexivity. Qed.

(** C38: [log2_ceil] of an [int] above [2^30] never ends: its power wraps to
    0 and stays there, so [buddy_free] with such a count spins with the lock
    held and interrupts off. *)
Theorem log2_ceil_diverges x fuel :
  2 ^ 30 < x < 2 ^ 31 -> log2_ceil_loop fuel x 1 0 = None.
Proof.
  intros Hx.
  assert (forall fuel power result,
    (exists r, 0 <= r <= 30 /\ power = 2 ^ r) \/ power = - 2 ^ 31 \/ power = 0 ->
    log2_ceil_loop fuel x power result = None) as H.
  { clear fuel. induction fuel as [|f IH]; intros power res Hp; [done|]. cbn [log2_ceil_loop].
    assert (power < x) as Hlt.
    { destruct Hp as [(r & Hr & ->)|[->| ->]]; [|lia|lia].
      pose proof (Z.pow_le_mono_r 2 r 30). lia. }
    replace (power <? x) with true by lia. apply IH.
    destruct Hp as [(r & Hr & ->)|[->| ->]]; [|by right; right..].
    destruct (decide (r = 30)) as [->|]; [by right; left|]. left. exists (r + 1). split; [lia|].
    rewrite Z.shiftl_mul_pow2, <- Z.pow_add_r by lia. pose proof (pow2_pos (r + 1)).
    pose proof (Z.pow_le_mono_r 2 (r + 1) 30). rewrite s32_small; lia. }
  apply H. left. exists 0. split; [lia|done].
Qed.

Lemma log2_ceil_diverges_witness : log2_ceil_loop 1000 (2 ^ 30 + 1) 1 0 = None.
Proof. apply (log2_ceil_diverges (2 ^ 30 + 1) 1000). lia. Defined.
