(* ===== verification/BlockAlloc.v ===== *)
(** * The interface between the slab allocator and the block allocator

    kernel/slab.c uses kernel/buddy.c through two calls, [buddy_alloc] and
    [buddy_free].  [BlockAllocator] is what it relies on: while the allocator
    owns a set [F] of free bytes, an allocation either fails or hands over a
    whole block out of [F], a free hands one back, both return, restore the
    hart and write only free bytes; and nothing the client does to bytes
    outside [F] disturbs the allocator.  The slab theorems are proved against
    this class; [buddy_BlockAllocator] discharges it from the refinement
    lemmas of [BuddyProof]. *)

From Stdlib Require Import ZArith Lia Bool String.
From stdpp Require Import base gmap list strings functions.
From S2P Require Import Prelude Mem MemList Spinlock BuddySpec Buddy BuddyProof.

(** Blocks of 4096 bytes that a request for [n] occupies. *)
Definition block_bytes (n : Z) : Z := BLOCK_SIZE * 2 ^ Z.log2_up n.

(** No block for a request of [n], of those that satisfy [block], is free. *)
Definition no_block (block : Z -> Z -> Prop) (F : Z -> Prop) (n : Z) : Prop :=
  forall q, block q n -> ~ (forall a, bytes_of q (block_bytes n) a -> F a).

Class BlockAllocator (S : Type) `{HasMach S} := {
  blk_alloc : Z -> M S Z;
  blk_free : Z -> Z -> M S unit;
  (** The allocator manages region [c] and owns the free bytes [F]. *)
  ba_region : Type;
  ba_inv : ba_region -> (Z -> Prop) -> S -> Prop;
  (** [p] is a block of the region that a request for [n] may return. *)
  ba_block : ba_region -> Z -> Z -> Prop;
  ba_block_range : forall c p n,
    ba_block c p n -> 0 < p /\ p + block_bytes n <= 2 ^ 63;
  (** A block is inside a larger one or apart from it. *)
  ba_block_nested : forall c p m q n, ba_block c p m -> ba_block c q n -> block_bytes m <= block_bytes n ->
    p + block_bytes m <= q \/ q + block_bytes n <= p \/ (q <= p /\ p + block_bytes m <= q + block_bytes n);
  ba_block_first : forall c p n, ba_block c p n -> ba_block c p 1;
  ba_hart : forall c F s, ba_inv c F s -> hart_ok (hart_of s);
  ba_alloc_spec : forall c F s n, ba_inv c F s -> 1 <= n <= 2 ^ 30 ->
    wp (blk_alloc n) (fun r s' =>
      hart_same (hart_of s) (hart_of s') /\ modifies F (mem_of s) (mem_of s') /\
      ((r = 0 /\ ba_inv c F s' /\ no_block (ba_block c) F n) \/
       (exists F', ba_block c r n /\ ba_inv c F' s' /\
          (forall a, bytes_of r (block_bytes n) a -> F a) /\
          (forall a, F' a <-> F a /\ ~ bytes_of r (block_bytes n) a)))) s;
  ba_free_spec : forall c F s p n, ba_inv c F s -> 1 <= n <= 2 ^ 30 -> ba_block c p n ->
    (forall a, bytes_of p (block_bytes n) a -> ~ F a) ->
    wp (blk_free p n) (fun _ s' =>
      hart_same (hart_of s) (hart_of s') /\
      modifies (fun a => F a \/ bytes_of p (block_bytes n) a) (mem_of s) (mem_of s') /\
      exists F', ba_inv c F' s' /\
        forall a, F' a <-> F a \/ bytes_of p (block_bytes n) a) s;
  (** The client may write every byte that is not free. *)
  ba_frame : forall c F s s', ba_inv c F s -> hart_ok (hart_of s') ->
    s' = set_mach (mach_of s') s ->
    modifies (fun a => ~ F a) (mem_of s) (mem_of s') -> ba_inv c F s'
}.

(** ** kernel/buddy.c implements it *)

(** A region: its order and its start. *)
Record region := mkRegion { rg_order : Z; rg_start : Z }.

Definition buddy_owns (c : region) (F : Z -> Prop) (s : bst) : Prop :=
  exists fl, buddy_inv (rg_order c) s fl /\ memory_start (buddy s) = rg_start c /\
    forall a, F a <-> free_bytes s fl a.

Definition buddy_block (c : region) (p n : Z) : Prop :=
  0 < rg_start c /\ rg_start c + BLOCK_SIZE * 2 ^ rg_order c <= 2 ^ 63 /\
  exists b, p = rg_start c + BLOCK_SIZE * b /\ blk_ok (rg_order c) (Z.log2_up n) b.

(** The bytes of a run of units are one interval. *)
Lemma run_bytes s b n a :
  unit_bytes s (run b (Z.log2_up n)) a <-> bytes_of (baddr s b) (block_bytes n) a.
Proof.
  unfold unit_bytes, run, bytes_of, block_bytes, baddr, BLOCK_SIZE. split.
  - intros (u & Hu & Ha). lia.
  - intros Ha. exists ((a - memory_start (buddy s)) / 4096).
    pose proof (Z.log2_up_nonneg n). generalize dependent (2 ^ Z.log2_up n). intros P.
    intros. zdiv.
Qed.

Lemma unit_bytes_and s (U V : Z -> Prop) a :
  unit_bytes s (fun u => U u /\ ~ V u) a <-> unit_bytes s U a /\ ~ unit_bytes s V a.
Proof.
  unfold unit_bytes, baddr, BLOCK_SIZE. split.
  - intros (u & [Hu Hv] & Ha). split; [by exists u|]. intros (v & Hv' & Hb).
    by replace v with u in Hv' by lia.
  - intros ((u & Hu & Ha) & Hn). exists u. split; [|done]. split; [done|].
    intros Hv. apply Hn. by exists u.
Qed.

Lemma unit_bytes_or s (U V : Z -> Prop) a :
  unit_bytes s (fun u => U u \/ V u) a <-> unit_bytes s U a \/ unit_bytes s V a.
Proof.
  unfold unit_bytes. split.
  - intros (u & [Hu|Hu] & Ha); eauto.
  - intros [(u & Hu & Ha)|(u & Hu & Ha)]; eauto.
Qed.

Lemma unit_bytes_iff s s' (U V : Z -> Prop) a :
  memory_start (buddy s') = memory_start (buddy s) -> (forall u, U u <-> V u) ->
  unit_bytes s' U a <-> unit_bytes s V a.
Proof. intros Hm HU. unfold unit_bytes, baddr. rewrite Hm. by setoid_rewrite HU. Qed.

Lemma buddy_block_nested c p m q n : buddy_block c p m -> buddy_block c q n -> block_bytes m <= block_bytes n ->
  p + block_bytes m <= q \/ q + block_bytes n <= p \/ (q <= p /\ p + block_bytes m <= q + block_bytes n).
Proof.
  intros (_ & _ & b & -> & Ho & _ & Hb & _) (_ & _ & b' & -> & Ho' & _ & Hb' & _). unfold block_bytes, BLOCK_SIZE. intros Hle.
  assert (Z.log2_up m <= Z.log2_up n) as Hl by (apply (Z.pow_le_mono_r_iff 2); lia).
  pose proof (pow2_pos (Z.log2_up m) ltac:(lia)). pose proof (pow2_pos (Z.log2_up n) ltac:(lia)).
  destruct (decide (b + 2 ^ Z.log2_up m <= b')); [lia|]. destruct (decide (b' + 2 ^ Z.log2_up n <= b)); [lia|].
  destruct (aligned_nested (Z.log2_up m) b (Z.log2_up n) b' (Z.max b b')); try done; lia.
Qed.

Lemma buddy_alloc_law c F s n :
  buddy_owns c F s -> 1 <= n <= 2 ^ 30 ->
  wp (buddy_alloc n) (fun r s' =>
    hart_same (hart_of s) (hart_of s') /\ modifies F (mem_of s) (mem_of s') /\
    ((r = 0 /\ buddy_owns c F s' /\ no_block (buddy_block c) F n) \/
     (exists F', buddy_block c r n /\ buddy_owns c F' s' /\
        (forall a, bytes_of r (block_bytes n) a -> F a) /\
        (forall a, F' a <-> F a /\ ~ bytes_of r (block_bytes n) a)))) s.
Proof.
  intros (fl & HI & Hm & HF) Hn. pose proof HI as (R & _). destruct (br_start _ _ _ R).
  apply (wp_buddy_alloc (rg_order c) s fl n); [done|done| |].
  - intros s' fl' [HI' Hh Hs Hmod] [Hu Hno]. split; [done|].
    split; [by eapply modifies_weaken|]. left. split; [done|]. split.
    + exists fl'. split; [done|]. split; [congruence|]. intros a. rewrite HF. symmetry. by apply unit_bytes_iff.
    + intros q (_ & _ & b & -> & (_ & _ & Hb & _)) Hq. apply (Hno b Hb). intros u Hur.
      destruct (proj1 (HF (baddr s u))) as (v & Hv & Hvu); [|unfold baddr, BLOCK_SIZE in Hvu; by replace u with v by lia].
      apply Hq. rewrite <- Hm. apply run_bytes. exists u. split; [done|]. unfold baddr, BLOCK_SIZE. lia.
  - intros s' fl' b [HI' Hh Hs Hmod] (Hb & Hin & Hu). split; [done|].
    split; [eapply modifies_weaken; [done|]; intros a; apply HF|]. right.
    assert (forall a, bytes_of (baddr s b) (block_bytes n) a <-> unit_bytes s (run b (Z.log2_up n)) a)
      as Hrun by (intros a; symmetry; apply run_bytes).
    exists (free_bytes s' fl'). split; [|split; [|split]].
    + unfold buddy_block. rewrite <- Hm. split; [done|]. split; [done|]. by exists b.
    + exists fl'. split; [done|]. split; [congruence|]. done.
    + intros a Ha%Hrun. apply HF. by eapply unit_bytes_weaken.
    + intros a. rewrite HF, Hrun. unfold free_bytes. rewrite <- unit_bytes_and. by apply unit_bytes_iff.
Qed.

Lemma buddy_free_law c F s p n :
  buddy_owns c F s -> 1 <= n <= 2 ^ 30 -> buddy_block c p n ->
  (forall a, bytes_of p (block_bytes n) a -> ~ F a) ->
  wp (buddy_free p n) (fun _ s' =>
    hart_same (hart_of s) (hart_of s') /\
    modifies (fun a => F a \/ bytes_of p (block_bytes n) a) (mem_of s) (mem_of s') /\
    exists F', buddy_owns c F' s' /\
      forall a, F' a <-> F a \/ bytes_of p (block_bytes n) a) s.
Proof.
  intros (fl & HI & Hm & HF) Hn (H1 & H2 & b & -> & Hb) Hdis.
  rewrite <- Hm in *. fold (baddr s b) in *. pose proof HI as (R & _).
  assert (forall a, bytes_of (baddr s b) (block_bytes n) a <-> unit_bytes s (run b (Z.log2_up n)) a)
    as Hrun by (intros a; symmetry; apply run_bytes).
  apply (wp_buddy_free (rg_order c) s fl b n); [done|done| |].
  - split; [done|]. intros o' b' Hin'. destruct (wf_ok _ _ (br_wf _ _ _ R) _ _ Hin') as [? _].
    pose proof (pow2_pos o' ltac:(lia)). pose proof (pow2_pos (Z.log2_up n) (Z.log2_up_nonneg _)).
    unfold disj. destruct (decide (b' + 2 ^ o' <= b)); [by right|].
    destruct (decide (b + 2 ^ Z.log2_up n <= b')); [by left|]. exfalso.
    apply (Hdis (baddr s (Z.max b b'))).
    + apply Hrun. exists (Z.max b b'). unfold run, baddr, BLOCK_SIZE. lia.
    + apply HF. exists (Z.max b b'). split; [exists o', b'; split; [done|lia]|].
      unfold baddr, BLOCK_SIZE. lia.
  - intros s' fl' [HI' Hh Hs Hmod] Hfree. split; [done|]. split.
    + eapply modifies_weaken; [exact Hmod|]. intros a. rewrite unit_bytes_or, Hrun, HF.
      unfold free_bytes. tauto.
    + exists (free_bytes s' fl'). split; [exists fl'; split; [done|split; [congruence|done]]|].
      intros a. rewrite HF, Hrun. unfold free_bytes. rewrite <- unit_bytes_or.
      by apply unit_bytes_iff.
Qed.

(** Free lists live in free bytes. *)
Lemma buddy_frame_law c F s s' :
  buddy_owns c F s -> hart_ok (hart_of s') -> s' = set_mach (mach_of s') s ->
  modifies (fun a => ~ F a) (mem_of s) (mem_of s') -> buddy_owns c F s'.
Proof.
  intros (fl & (R & Hl & Hok & Hf) & Hm & HF) Hok' -> Hmod.
  set (s1 := set_mach (mach_of s') s) in *.
  exists fl. split; [|done]. split; [|done]. pose proof (br_wf _ _ _ R) as W.
  destruct R as [R1 R2 R3 R4 R5 R6 R7]. split; try done.
  intros o Ho. destruct (R7 o Ho) as (p & Hp & Hl7). exists p. split; [done|].
  apply (sll_modifies _ _ _ _ _ Hmod); [|done].
  intros x a (b & -> & Hin)%list_elem_of_fmap Ha Hn. apply Hn. apply HF.
  by eapply link_free_bytes.
Qed.

#[export] Instance buddy_BlockAllocator : BlockAllocator bst.
Proof.
  refine {| blk_alloc := buddy_alloc; blk_free := buddy_free; ba_region := region;
            ba_inv := buddy_owns; ba_block := buddy_block;
            ba_alloc_spec := buddy_alloc_law; ba_free_spec := buddy_free_law;
            ba_block_nested := buddy_block_nested; ba_frame := buddy_frame_law |}.
  - intros c p n (H1 & H2 & b & -> & (Ho & Hb0 & Hal & Hbk)).
    unfold block_bytes, BLOCK_SIZE in *. lia.
  - intros c p n (H1 & H2 & b & -> & (Ho & Hb0 & Hal & Hbk)). split; [done|]. split; [done|]. exists b. split; [done|].
    pose proof (pow2_pos (Z.log2_up n) ltac:(lia)). change (Z.log2_up 1) with 0. split; [lia|]. split; [done|]. split; [exists b; lia|lia].
  - intros c F s (fl & (_ & _ & Hok & _) & _). done.
Defined.
