(* ===== verification/Slab.v ===== *)
(** * The slab allocator (kernel/slab.c)

    Caches, slabs and objects live in byte memory at the C layout of
    [kmem_cache_t] (152 bytes), [kmem_slab_t] (48 bytes) and [kmem_object_t]
    (16 bytes in front of every object); the static variables of slab.c are
    [slab_globals].  The definitions are parametric in the block allocator
    ([BlockAllocator]; the kernel's is buddy.c) and in [call_dtor], the code
    behind the [dtor] function pointer, which slab.c receives from its
    caller. *)

From Stdlib Require Import ZArith Lia Bool String.
From stdpp Require Import base gmap list strings functions.
From S2P Require Import Prelude Mem Spinlock Buddy BlockAlloc.

(** ** Constants and layout *)

Definition MIN_BUFFER_SIZE : Z := 32.
Definition MAX_BUFFER_SIZE : Z := 131072.
Definition NUM_BUFFER_CACHES : Z := 13.
Definition CACHE_NAME_LEN : Z := 32.
Definition SLAB_ERR_DETECT : Z := 2976579765.

Definition sizeof_slab : Z := 48.
Definition sizeof_object : Z := 16.
Definition sizeof_cache : Z := 152.

(** Offsets of [kmem_slab_t]. *)
Definition sl_next : Z := 0.
Definition sl_prev : Z := 8.
Definition sl_mem : Z := 16.
Definition sl_num_objects_max : Z := 24.
Definition sl_num_free : Z := 28.
Definition sl_free_list : Z := 32.
Definition sl_cache : Z := 40.

(** Offsets of [kmem_object_t]. *)
Definition ob_next : Z := 0.
Definition ob_slab : Z := 8.

(** Offsets of [kmem_cache_t]. *)
Definition ca_name : Z := 0.
Definition ca_object_size : Z := 32.
Definition ca_aligned_size : Z := 40.
Definition ca_slab_size : Z := 48.
Definition ca_error_detection : Z := 52.
Definition ca_ctor : Z := 56.
Definition ca_dtor : Z := 64.
Definition ca_slabs_partial : Z := 72.
Definition ca_slabs_full : Z := 80.
Definition ca_slabs_empty : Z := 88.
Definition ca_num_slabs : Z := 96.
Definition ca_num_allocated : Z := 100.
Definition ca_num_grown : Z := 104.
Definition ca_num_shrunk : Z := 108.
Definition ca_last_shrink_state : Z := 112.
Definition ca_error_state : Z := 116.
Definition ca_lock : Z := 120.
Definition ca_next : Z := 144.

Definition OBJECTS_PER_SLAB (obj_size slab_size : Z) : Z :=
  u64 (slab_size - sizeof_slab) / u64 (obj_size + sizeof_object).

(** ** Size classes *)

Fixpoint round_up_loop (fuel : nat) (size power : Z) : option Z :=
  match fuel with
  | O => None
  | S f =>
      if (power <? size) && (power <=? MAX_BUFFER_SIZE)
      then round_up_loop f size (u64 (Z.shiftl power 1))
      else Some power
  end.

Definition round_up_pow2 (size : Z) : option Z := round_up_loop 64 size MIN_BUFFER_SIZE.

Fixpoint buffer_index_loop (fuel : nat) (size power index : Z) : option Z :=
  match fuel with
  | O => None
  | S f =>
      if (power <? size) && (index <? NUM_BUFFER_CACHES - 1)
      then buffer_index_loop f size (u64 (Z.shiftl power 1)) (index + 1)
      else Some index
  end.

Definition get_buffer_cache_index (size : Z) : option Z :=
  buffer_index_loop 64 size MIN_BUFFER_SIZE 0.

Fixpoint slab_size_loop (fuel : nat) (object_size blocks slab_bytes : Z) : option Z :=
  match fuel with
  | O => None
  | S f =>
      if blocks <? 16 then
        if OBJECTS_PER_SLAB object_size slab_bytes >=? 8 then Some blocks
        else let blocks := s32 (Z.shiftl blocks 1) in
             slab_size_loop f object_size blocks (u64 (s32 (blocks * BLOCK_SIZE)))
      else Some blocks
  end.

Definition calculate_slab_size (object_size : Z) : option Z :=
  slab_size_loop 8 object_size 1 (u64 (s32 (1 * BLOCK_SIZE))).

(** ** State *)

Record slab_globals := mkSlabGlobals {
  cache_list : Z;
  cache_list_lock : spinlock;
  allocator_initialized : Z;
  buffer_caches : list Z;
  buffer_cache_lock : spinlock
}.

Section Slab.
Context {S : Type} `{BA : BlockAllocator S}.

Record slst := mkSlst { sl_base : S; sl_glob : slab_globals }.

#[global] Instance slst_HasMach : HasMach slst.
Proof.
  refine {| mach_of := fun s => mach_of (sl_base s);
            set_mach := fun m s => mkSlst (set_mach m (sl_base s)) (sl_glob s) |}.
  - intros m s. apply mach_of_set.
  - intros [b g]. simpl. by rewrite set_mach_of.
  - intros m m' s. simpl. by rewrite set_mach_set.
Defined.

Definition set_base (b : S) (s : slst) : slst := mkSlst b (sl_glob s).
Definition set_glob (g : slab_globals) (s : slst) : slst := mkSlst (sl_base s) g.

Definition buddy_alloc_ (n : Z) : M slst Z := zoom sl_base set_base (blk_alloc n).
Definition buddy_free_ (p n : Z) : M slst unit := zoom sl_base set_base (blk_free p n).

Definition get_list_lock (s : slst) : spinlock := cache_list_lock (sl_glob s).
Definition set_list_lock (lk : spinlock) (s : slst) : slst :=
  let g := sl_glob s in
  set_glob (mkSlabGlobals (cache_list g) lk (allocator_initialized g)
                          (buffer_caches g) (buffer_cache_lock g)) s.
Definition get_buffer_lock (s : slst) : spinlock := buffer_cache_lock (sl_glob s).
Definition set_buffer_lock (lk : spinlock) (s : slst) : slst :=
  let g := sl_glob s in
  set_glob (mkSlabGlobals (cache_list g) (cache_list_lock g) (allocator_initialized g)
                          (buffer_caches g) lk) s.
Definition set_cache_list (v : Z) (s : slst) : slst :=
  let g := sl_glob s in
  set_glob (mkSlabGlobals v (cache_list_lock g) (allocator_initialized g)
                          (buffer_caches g) (buffer_cache_lock g)) s.
Definition set_buffer_caches (l : list Z) (s : slst) : slst :=
  let g := sl_glob s in
  set_glob (mkSlabGlobals (cache_list g) (cache_list_lock g) (allocator_initialized g)
                          l (buffer_cache_lock g)) s.

Definition acquire_list : M slst unit := acquire_in get_list_lock set_list_lock.
Definition release_list : M slst unit := release_in get_list_lock set_list_lock.
Definition acquire_buffers : M slst unit := acquire_in get_buffer_lock set_buffer_lock.
Definition release_buffers : M slst unit := release_in get_buffer_lock set_buffer_lock.

(** The code a [dtor] pointer stands for, applied to an object. *)
Context (call_dtor : Z -> Z -> M slst unit).

(** ** Slab lists: [list_head] is the address of the head pointer *)

Definition add_slab_to_list (list_head slab : Z) : M slst unit :=
  h ← getf 8 list_head 0;
  setf 8 slab sl_next h;;
  setf 8 slab sl_prev 0;;
  h ← getf 8 list_head 0;
  (if negb (h =? 0) then setf 8 h sl_prev slab else mret tt);;
  setf 8 list_head 0 slab.

Definition remove_slab_from_list (list_head slab : Z) : M slst unit :=
  prev ← getf 8 slab sl_prev;
  (if negb (prev =? 0) then n ← getf 8 slab sl_next; setf 8 prev sl_next n
   else n ← getf 8 slab sl_next; setf 8 list_head 0 n);;
  next ← getf 8 slab sl_next;
  (if negb (next =? 0) then p ← getf 8 slab sl_prev; setf 8 next sl_prev p else mret tt);;
  setf 8 slab sl_prev 0;;
  setf 8 slab sl_next 0.

(** ** Slabs *)

(** [for (int i = max - 1; i >= 0; i--)]: [n] is [i + 1]. *)
Fixpoint init_objects (n : nat) (cache slab obj_start : Z) : M slst unit :=
  match n with
  | O => mret tt
  | Datatypes.S n' =>
      asz ← getf 8 cache ca_aligned_size;
      let object := obj_start + u64 (Z.of_nat n' * asz) in
      fl ← getf 8 slab sl_free_list;
      setf 8 object ob_next fl;;
      setf 8 slab sl_free_list object;;
      init_objects n' cache slab obj_start
  end.

Definition kmem_slab_create (cache : Z) : M slst Z :=
  ssz ← getf 4 cache ca_slab_size;
  mem ← buddy_alloc_ (s32 ssz);
  if mem =? 0 then mret 0
  else
    let slab := mem in
    setf 8 slab sl_next 0;;
    setf 8 slab sl_prev 0;;
    setf 8 slab sl_mem mem;;
    ssz ← getf 4 cache ca_slab_size;
    let slab_bytes := u64 (s32 (s32 ssz * BLOCK_SIZE)) in
    osz ← getf 8 cache ca_object_size;
    setf 4 slab sl_num_objects_max (OBJECTS_PER_SLAB osz slab_bytes);;
    mx ← getf 4 slab sl_num_objects_max;
    setf 4 slab sl_num_free mx;;
    setf 8 slab sl_cache cache;;
    let obj_start := mem + sizeof_slab in
    setf 8 slab sl_free_list 0;;
    mx ← getf 4 slab sl_num_objects_max;
    init_objects (Z.to_nat (s32 (mx - 1) + 1)) cache slab obj_start;;
    mret slab.

(** [for (uint i = 0; i < slab->num_objects_max; i++)]; the bound is the
    number of objects when the loop starts. *)
Fixpoint dtor_loop (fuel : nat) (cache slab obj_start i : Z) : M slst unit :=
  match fuel with
  | O => out_of_fuel
  | Datatypes.S f =>
      mx ← getf 4 slab sl_num_objects_max;
      if i <? mx then
        asz ← getf 8 cache ca_aligned_size;
        let obj := obj_start + u64 (i * asz) + sizeof_object in
        d ← getf 8 cache ca_dtor;
        call_dtor d obj;;
        dtor_loop f cache slab obj_start (i + 1)
      else mret tt
  end.

Definition kmem_slab_destroy (cache slab : Z) : M slst unit :=
  if slab =? 0 then mret tt
  else
    d ← getf 8 cache ca_dtor;
    (if negb (d =? 0) then
       mem ← getf 8 slab sl_mem;
       mx ← getf 4 slab sl_num_objects_max;
       dtor_loop (Datatypes.S (Z.to_nat mx)) cache slab (mem + sizeof_slab) 0
     else mret tt);;
    mem ← getf 8 slab sl_mem;
    ssz ← getf 4 cache ca_slab_size;
    buddy_free_ mem (s32 ssz).

(** [p->field++] and [p->field--] of an unsigned int. *)
Definition addf (p off d : Z) : M slst unit :=
  v ← getf 4 p off; setf 4 p off (v + d).

Definition kmem_cache_grow (cache : Z) : M slst Z :=
  slab ← kmem_slab_create cache;
  if slab =? 0 then
    setf 4 cache ca_error_state 1;;
    mret (-1)
  else
    add_slab_to_list (cache + ca_slabs_empty) slab;;
    addf cache ca_num_slabs 1;;
    addf cache ca_num_grown 1;;
    mret 0.

(** ** Caches *)

Definition store_bytes (a : Z) (l : list Z) : M slst unit :=
  modify (fun s => set_mem (foldl (fun m p => stb m (a + p.1) p.2) (mem_of s)
                                  (zip (seqZ 0 (Z.of_nat (length l))) l)) s).

(** The descriptor of a new cache, from [memset] to [initlock]; [ssz] is
    [calculate_slab_size(size)].  [name] is the string the C pointer
    designates, without its NUL. *)
Definition write_desc (cache : Z) (name : list Z) (size ssz ctor dtor : Z) : M slst unit :=
  modify (fun s => set_mem (memset (mem_of s) cache 0 sizeof_cache) s);;
  let name_len := Z.of_nat (length name) in
  let name_len := if name_len >=? CACHE_NAME_LEN then CACHE_NAME_LEN - 1 else name_len in
  store_bytes (cache + ca_name) (take (Z.to_nat name_len) name);;
  modify (fun s => set_mem (stb (mem_of s) (cache + ca_name + name_len) 0) s);;
  setf 8 cache ca_object_size size;;
  setf 8 cache ca_aligned_size (size + sizeof_object);;
  setf 4 cache ca_slab_size ssz;;
  setf 4 cache ca_error_detection SLAB_ERR_DETECT;;
  setf 8 cache ca_ctor ctor;;
  setf 8 cache ca_dtor dtor;;
  setf 4 cache ca_error_state 0;;
  setf 4 cache ca_last_shrink_state 0;;
  initlock_at (cache + ca_lock) (cache + ca_name).

(** Push the cache on the global list, under its lock. *)
Definition publish (cache : Z) : M slst unit :=
  acquire_list;;
  s ← get;
  setf 8 cache ca_next (cache_list (sl_glob s));;
  modify (set_cache_list cache);;
  release_list.

Definition kmem_cache_create (name : list Z) (size ctor dtor : Z) : M slst Z :=
  s ← get;
  if allocator_initialized (sl_glob s) =? 0 then mret 0
  else if (size =? 0) || (size >? MAX_BUFFER_SIZE) then mret 0
  else
    cache ← buddy_alloc_ 1;
    if cache =? 0 then mret 0
    else
      ssz ← of_opt (calculate_slab_size size);
      write_desc cache name size ssz ctor dtor;;
      publish cache;;
      acquire_at (cache + ca_lock);;
      kmem_cache_grow cache;;
      release_at (cache + ca_lock);;
      mret cache.

(** [!cachep || cachep->error_detection != SLAB_ERR_DETECT] *)
Definition invalid_cache (cachep : Z) : M slst bool :=
  if cachep =? 0 then mret true
  else d ← getf 4 cachep ca_error_detection; mret (negb (d =? SLAB_ERR_DETECT)).

(** The slab an allocation takes its object from: a partial one, an empty
    one, or a new one; [None] when the cache cannot grow. *)
Definition pick_slab (cachep : Z) : M slst (option Z) :=
  p ← getf 8 cachep ca_slabs_partial;
  if negb (p =? 0) then mret (Some p)
  else
    e ← getf 8 cachep ca_slabs_empty;
    if negb (e =? 0) then mret (Some e)
    else
      r ← kmem_cache_grow cachep;
      if r <? 0 then mret None
      else e ← getf 8 cachep ca_slabs_empty; mret (Some e).

(** Unlink the first free object of [slab] and move the slab to the list of
    its new state. *)
Definition take_object (cachep slab : Z) : M slst Z :=
  object ← getf 8 slab sl_free_list;
  n ← getf 8 object ob_next;
  setf 8 slab sl_free_list n;;
  setf 8 object ob_slab slab;;
  addf slab sl_num_free (-1);;
  addf cachep ca_num_allocated 1;;
  nf ← getf 4 slab sl_num_free;
  mx ← getf 4 slab sl_num_objects_max;
  (if nf =? u32 (mx - 1) then
     remove_slab_from_list (cachep + ca_slabs_empty) slab;;
     add_slab_to_list (cachep + ca_slabs_partial) slab
   else mret tt);;
  nf ← getf 4 slab sl_num_free;
  (if nf =? 0 then
     remove_slab_from_list (cachep + ca_slabs_partial) slab;;
     add_slab_to_list (cachep + ca_slabs_full) slab
   else mret tt);;
  mret object.

Definition kmem_cache_alloc (cachep : Z) : M slst Z :=
  bad ← invalid_cache cachep;
  if (bad : bool) then mret 0
  else
    acquire_at (cachep + ca_lock);;
    sl ← pick_slab cachep;
    match sl with
    | None => release_at (cachep + ca_lock);; mret 0
    | Some slab =>
        fl ← (if slab =? 0 then mret 0 else getf 8 slab sl_free_list);
        if (slab =? 0) || (fl =? 0) then
          setf 4 cachep ca_error_state 1;;
          release_at (cachep + ca_lock);;
          mret 0
        else
          object ← take_object cachep slab;
          release_at (cachep + ca_lock);;
          mret (object + sizeof_object)
    end.

(** Link [object] in front of the free list of [slab] and move the slab to
    the list of its new state. *)
Definition put_object (cachep slab object : Z) : M slst unit :=
  fl ← getf 8 slab sl_free_list;
  setf 8 object ob_next fl;;
  setf 8 slab sl_free_list object;;
  addf slab sl_num_free 1;;
  addf cachep ca_num_allocated (-1);;
  nf ← getf 4 slab sl_num_free;
  (if nf =? 1 then
     remove_slab_from_list (cachep + ca_slabs_full) slab;;
     add_slab_to_list (cachep + ca_slabs_partial) slab
   else mret tt);;
  nf ← getf 4 slab sl_num_free;
  mx ← getf 4 slab sl_num_objects_max;
  (if nf =? mx then
     remove_slab_from_list (cachep + ca_slabs_partial) slab;;
     add_slab_to_list (cachep + ca_slabs_empty) slab
   else mret tt).

Definition kmem_cache_free (cachep objp : Z) : M slst unit :=
  bad ← (if (cachep =? 0) || (objp =? 0) then mret true else invalid_cache cachep);
  if (bad : bool) then mret tt
  else
    let object := objp - sizeof_object in
    acquire_at (cachep + ca_lock);;
    slab ← getf 8 object ob_slab;
    if slab =? 0 then
      setf 4 cachep ca_error_state 1;;
      release_at (cachep + ca_lock)
    else
      put_object cachep slab object;;
      release_at (cachep + ca_lock).

(** [while (slab)] of [kmem_cache_shrink]; the list holds at most
    [num_slabs] slabs. *)
Fixpoint shrink_loop (fuel : nat) (cachep slab blocks_freed : Z) : M slst Z :=
  match fuel with
  | O => out_of_fuel
  | Datatypes.S f =>
      if slab =? 0 then mret blocks_freed
      else
        next ← getf 8 slab sl_next;
        ssz ← getf 4 cachep ca_slab_size;
        let blocks_freed := s32 (blocks_freed + s32 ssz) in
        remove_slab_from_list (cachep + ca_slabs_empty) slab;;
        kmem_slab_destroy cachep slab;;
        addf cachep ca_num_slabs (-1);;
        shrink_loop f cachep next blocks_freed
  end.

Definition kmem_cache_shrink (cachep : Z) : M slst Z :=
  bad ← invalid_cache cachep;
  if (bad : bool) then mret (-1)
  else
    acquire_at (cachep + ca_lock);;
    grown ← getf 4 cachep ca_num_grown;
    last ← getf 4 cachep ca_last_shrink_state;
    if grown >? last then
      g ← getf 4 cachep ca_num_grown;
      setf 4 cachep ca_last_shrink_state g;;
      release_at (cachep + ca_lock);;
      mret 0
    else
      slab ← getf 8 cachep ca_slabs_empty;
      n ← getf 4 cachep ca_num_slabs;
      freed ← shrink_loop (Datatypes.S (Z.to_nat n)) cachep slab 0;
      (if freed >? 0 then addf cachep ca_num_shrunk 1 else mret tt);;
      release_at (cachep + ca_lock);;
      mret freed.

(** [while (cachep->slabs_x)] of [kmem_cache_destroy]. *)
Fixpoint destroy_loop (fuel : nat) (cachep list_off : Z) : M slst unit :=
  match fuel with
  | O => out_of_fuel
  | Datatypes.S f =>
      slab ← getf 8 cachep list_off;
      if slab =? 0 then mret tt
      else
        remove_slab_from_list (cachep + list_off) slab;;
        kmem_slab_destroy cachep slab;;
        destroy_loop f cachep list_off
  end.

(** [pp] is [&cache_list] or the address of a [next] field. *)
Definition read_pp (pp : option Z) : M slst Z :=
  match pp with
  | None => gets (fun s => cache_list (sl_glob s))
  | Some a => getf 8 a 0
  end.

Definition write_pp (pp : option Z) (v : Z) : M slst unit :=
  match pp with
  | None => modify (set_cache_list v)
  | Some a => setf 8 a 0 v
  end.

Fixpoint unlink_cache (fuel : nat) (pp : option Z) (cachep : Z) : M slst unit :=
  match fuel with
  | O => out_of_fuel
  | Datatypes.S f =>
      c ← read_pp pp;
      if c =? 0 then mret tt
      else if c =? cachep then n ← getf 8 cachep ca_next; write_pp pp n
      else unlink_cache f (Some (c + ca_next)) cachep
  end.

(** Every cache descriptor is a block of its own, and a region has at most
    16384 of them. *)
Definition cache_fuel : nat := Z.to_nat 16385.

Definition kmem_cache_destroy (cachep : Z) : M slst unit :=
  bad ← invalid_cache cachep;
  if (bad : bool) then mret tt
  else
    acquire_at (cachep + ca_lock);;
    n ← getf 4 cachep ca_num_slabs;
    let fuel := Datatypes.S (Z.to_nat n) in
    destroy_loop fuel cachep ca_slabs_empty;;
    destroy_loop fuel cachep ca_slabs_partial;;
    destroy_loop fuel cachep ca_slabs_full;;
    acquire_list;;
    unlink_cache cache_fuel None cachep;;
    release_list;;
    setf 4 cachep ca_error_detection 0;;
    release_at (cachep + ca_lock);;
    buddy_free_ cachep 1.

Definition kmem_cache_error (cachep : Z) : M slst Z :=
  bad ← invalid_cache cachep;
  if (bad : bool) then mret 1
  else
    acquire_at (cachep + ca_lock);;
    e ← getf 4 cachep ca_error_state;
    release_at (cachep + ca_lock);;
    mret (s32 e).

(** ** General-purpose buffers *)

(** [do { digits[digit_count++] = '0' + (temp % 10); temp /= 10; }
    while (temp > 0);] as a list, last digit first. *)
Fixpoint digit_loop (fuel : nat) (temp : Z) : list Z :=
  match fuel with
  | O => []
  | Datatypes.S f =>
      (48 + temp mod 10) :: (if temp / 10 >? 0 then digit_loop f (temp / 10) else [])
  end.

(** "size-" followed by the decimal digits. *)
Definition buffer_name (size : Z) : list Z :=
  [115; 105; 122; 101; 45] ++ reverse (digit_loop 20 size).

Definition kmalloc (size : Z) : M slst Z :=
  s ← get;
  if (allocator_initialized (sl_glob s) =? 0) || (size =? 0) || (size >? MAX_BUFFER_SIZE)
  then mret 0
  else
    rounded_size ← of_opt (round_up_pow2 size);
    index ← of_opt (get_buffer_cache_index rounded_size);
    acquire_buffers;;
    s ← get;
    c ← arr_get (buffer_caches (sl_glob s)) index;
    (if c =? 0 then
       release_buffers;;
       cache ← kmem_cache_create (buffer_name rounded_size) rounded_size 0 0;
       acquire_buffers;;
       s ← get;
       l ← of_arr (arr_set (buffer_caches (sl_glob s)) index cache);
       modify (set_buffer_caches l)
     else mret tt);;
    s ← get;
    cache ← arr_get (buffer_caches (sl_glob s)) index;
    release_buffers;;
    if cache =? 0 then mret 0 else kmem_cache_alloc cache.

Definition kfree (objp : Z) : M slst unit :=
  if objp =? 0 then mret tt
  else
    acquire_buffers;;
    let object := objp - sizeof_object in
    slab ← getf 8 object ob_slab;
    cache ← getf 8 slab sl_cache;
    kmem_cache_free cache objp;;
    release_buffers.

End Slab.

Arguments slst S : clear implicits.

(** ** Initialisation (the block allocator is buddy.c here) *)

Definition kmem_init (space block_num : Z) : M (slst bst) unit :=
  zoom sl_base set_base (buddy_init space block_num);;
  modify (fun s => set_glob (mkSlabGlobals (cache_list (sl_glob s)) (initlock "cache_list") 1
    (replicate (Z.to_nat NUM_BUFFER_CACHES) 0) (initlock "buffer_cache")) s).
