(* ===== verification/SlabProof.v ===== *)
(** * Correctness of kernel/slab.c

    [cache_rep] relates a cache descriptor in memory to three abstract lists
    of slabs (partial, full, empty), each slab being its address and the
    list of its free objects.  The lemmas go bottom-up: slab lists, one slab,
    growing a cache, then the operations of the interface.  They use the
    block allocator only through [BlockAllocator]. *)

From Stdlib Require Import ZArith Lia Bool String.
From stdpp Require Import base gmap list strings functions.
From S2P Require Import Prelude Mem MemList Spinlock Buddy BlockAlloc Slab.

Section Proof.
Context {S : Type} `{BA : BlockAllocator S}.
Notation slst := (slst S).

(** Normalise nested memory updates after a symbolic step. *)
Ltac memnorm := rewrite ?mem_of_set_mem, ?set_mem_set_mem.

(** ** Slab lists *)

Lemma wp_add_slab hp a l Q (s : slst) :
  dll_at (mem_of s) hp l -> 0 < a < 2 ^ 63 -> 0 < hp -> spaced 16 (a :: l) ->
  (forall x, x ∈ a :: l -> hp + 8 <= x \/ x + 16 <= hp) ->
  (forall m', dll_at m' hp (a :: l) -> modifies (lnk hp (a :: l)) (mem_of s) m' ->
     Q tt (set_mem m' s)) ->
  wp (add_slab_to_list hp a) Q s.
Proof.
  intros Hl Ha Hp Hsp Hhp HQ. destruct (dll_add (mem_of s) hp a l) as [H1 H2]; try done.
  specialize (HQ _ H1 H2). pose proof (dll_range _ _ _ _ Hl).
  pose proof (Hhp a ltac:(constructor)) as Hha.
  unfold add_slab_to_list. wp_step. apply wp_getf; [lia|]. rewrite Z.add_0_r.
  wp_step. apply wp_setf; [lia|]. wp_step. apply wp_setf; [lia|]. memnorm.
  wp_step. apply wp_getf; [lia|]. memnorm. unfold sl_next, sl_prev. rewrite !Z.add_0_r.
  wp_step. unfold dll_add_mem in HQ. fold (ld64 (mem_of s) hp).
  fold (st64 (mem_of s) a (ld64 (mem_of s) hp)).
  fold (st64 (st64 (mem_of s) a (ld64 (mem_of s) hp)) (a + 8) 0).
  set (m2 := st64 _ (a + 8) 0) in *. fold (ld64 m2 hp). apply wp_if; intros E; rewrite E in HQ.
  - apply wp_setf; [lia|]. memnorm. apply wp_setf; [lia|]. memnorm. by rewrite Z.add_0_r.
  - wp_step. apply wp_setf; [lia|]. memnorm. by rewrite Z.add_0_r.
Qed.

Lemma wp_remove_slab hp l1 a l2 Q (s : slst) :
  dll_at (mem_of s) hp (l1 ++ a :: l2) -> 0 < hp -> spaced 16 (l1 ++ a :: l2) ->
  (forall x, x ∈ l1 ++ a :: l2 -> hp + 8 <= x \/ x + 16 <= hp) ->
  (forall m', dll_at m' hp (l1 ++ l2) ->
     modifies (lnk hp (l1 ++ a :: l2)) (mem_of s) m' -> Q tt (set_mem m' s)) ->
  wp (remove_slab_from_list hp a) Q s.
Proof.
  intros Hl Hp Hsp Hhp HQ. destruct (dll_remove (mem_of s) hp l1 a l2) as [H1 H2]; try done.
  specialize (HQ _ H1 H2). destruct (dll_mid _ _ _ _ _ _ Hl) as (_ & _ & _ & Ha).
  unfold remove_slab_from_list, sl_next, sl_prev. unfold dll_remove_mem in HQ.
  wp_step. apply wp_getf; [lia|]. fold (ld64 (mem_of s) (a + 8)). set (pr := ld64 _ (a + 8)) in *.
  assert (forall m1 (t : slst), t = set_mem m1 s ->
    Q tt (set_mem (st64 (st64 (swing_prev m1 (ld64 m1 a) (ld64 m1 (a + 8))) (a + 8) 0) a 0) s) ->
    wp (next ← getf 8 a 0; (if negb (next =? 0) then p ← getf 8 a 8; setf 8 next 8 p else mret tt);;
        setf 8 a 8 0;; setf 8 a 0 0) Q t) as Htail.
  { clear HQ. intros m1 t -> HQ. wp_step. apply wp_getf; [lia|]. memnorm. rewrite Z.add_0_r.
    fold (ld64 m1 a). unfold swing_prev in HQ. wp_step. apply wp_if; intros E; rewrite E in HQ.
    - wp_step. apply wp_getf; [lia|]. apply wp_setf; [lia|]. memnorm.
      wp_step. apply wp_setf; [lia|]. apply wp_setf; [lia|]. memnorm. by rewrite Z.add_0_r.
    - wp_step. wp_step. apply wp_setf; [lia|]. apply wp_setf; [lia|]. memnorm. by rewrite Z.add_0_r. }
  wp_step. apply wp_if; intros E; rewrite E in HQ; (wp_step; apply wp_getf; [lia|];
    apply wp_setf; [lia|]; rewrite !Z.add_0_r; eapply Htail; [reflexivity|exact HQ]).
Qed.

(** ** The representation *)

Inductive lid := LP | LF | LE.

#[global] Instance lid_eq : EqDecision lid.
Proof. solve_decision. Defined.

Definition off (i : lid) : Z :=
  match i with LP => ca_slabs_partial | LF => ca_slabs_full | LE => ca_slabs_empty end.

(** A slab: its address and its free objects. *)
Notation aslab := (Z * list Z)%type.
(** A cache: its three lists. *)
Notation acache := (lid -> list aslab).

Definition slabs (C : acache) : list aslab := C LP ++ C LF ++ C LE.
Definition addrs (l : list aslab) : list Z := l.*1.

(** The block region, the descriptor, the object size and the blocks per
    slab.  [pend] and [lost] count slabs that are unlinked but still in
    [num_slabs] and their objects still in [num_allocated]: none between
    operations, some while a cache is shrunk or destroyed. *)
Context (R : ba_region) (p osz ssz pend lost : Z).

Definition asz : Z := osz + sizeof_object.
Definition nobj : Z := OBJECTS_PER_SLAB osz (ssz * BLOCK_SIZE).
Definition sbytes : Z := ssz * BLOCK_SIZE.

Definition obj (a i : Z) : Z := a + sizeof_slab + i * asz.
Definition is_obj (a x : Z) : Prop := exists i, 0 <= i < nobj /\ x = obj a i.

Record slab_rep (m : mem) (sl : aslab) : Prop := {
  sr_block : ba_block R sl.1 ssz;
  sr_mem : ld64 m (sl.1 + sl_mem) = sl.1;
  sr_max : ld32 m (sl.1 + sl_num_objects_max) = nobj;
  sr_nfree : ld32 m (sl.1 + sl_num_free) = Z.of_nat (length sl.2);
  sr_list : sll m (ld64 m (sl.1 + sl_free_list)) sl.2;
  sr_cache : ld64 m (sl.1 + sl_cache) = p;
  sr_nodup : NoDup sl.2;
  sr_objs : forall x, x ∈ sl.2 -> is_obj sl.1 x;
  sr_back : forall x, is_obj sl.1 x -> x ∉ sl.2 -> ld64 m (x + ob_slab) = sl.1
}.

(** Objects handed out and not returned. *)
Definition allocated (C : acache) (x : Z) : Prop :=
  exists sl, sl ∈ slabs C /\ is_obj sl.1 x /\ x ∉ sl.2.

Definition allocated_count (l : list aslab) : Z :=
  foldr (fun sl n => nobj - Z.of_nat (length sl.2) + n) 0 l.

(** The descriptor and the slabs, whatever list each slab is in. *)
Record cache_pre (m : mem) (C : acache) : Prop := {
  cp_osz : ld64 m (p + ca_object_size) = osz;
  cp_asz : ld64 m (p + ca_aligned_size) = asz;
  cp_ssz : ld32 m (p + ca_slab_size) = ssz;
  cp_magic : ld32 m (p + ca_error_detection) = SLAB_ERR_DETECT;
  cp_list : forall i, dll_at m (p + off i) (addrs (C i));
  cp_num : ld32 m (p + ca_num_slabs) = u32 (Z.of_nat (length (slabs C)) + pend);
  cp_alloc : ld32 m (p + ca_num_allocated) = u32 (allocated_count (slabs C) + lost);
  cp_slabs : forall sl, sl ∈ slabs C -> slab_rep m sl;
  cp_spaced : spaced sbytes (addrs (slabs C));
  cp_apart : forall a, a ∈ addrs (slabs C) -> p + 4096 <= a \/ a + sbytes <= p
}.

(** Which list a slab belongs to. *)
Definition shape (C : acache) : Prop :=
  (forall sl, sl ∈ C LP -> 0 < Z.of_nat (length sl.2) < nobj) /\
  (forall sl, sl ∈ C LF -> sl.2 = [] /\ 0 < nobj) /\
  (forall sl, sl ∈ C LE -> Z.of_nat (length sl.2) = nobj).

(** The block allocator's free bytes [F] are none of the cache's. *)
Definition outside (C : acache) (F : Z -> Prop) : Prop :=
  (forall b, F b -> ~ (p <= b < p + 4096)) /\
  (forall a b, a ∈ addrs (slabs C) -> F b -> ~ (a <= b < a + sbytes)).

(** The bookkeeping bytes of the cache: the lists and counters of the
    descriptor, the slab headers and the object headers.  Payloads are not
    among them. *)
Definition meta (C : acache) (b : Z) : Prop :=
  p + ca_slabs_partial <= b < p + ca_lock \/
  (exists a, a ∈ addrs (slabs C) /\
     (a <= b < a + sizeof_slab \/ exists x, is_obj a x /\ x <= b < x + sizeof_object)).

Record cache_ok : Prop := {
  co_osz : 1 <= osz <= MAX_BUFFER_SIZE;
  co_ssz : calculate_slab_size osz = Some ssz;
  co_block : ba_block R p 1
}.

Record cache_inv (s : slst) (C : acache) (F : Z -> Prop) : Prop := {
  ci_ok : cache_ok;
  ci_pre : cache_pre (mem_of s) C;
  ci_shape : shape C;
  ci_out : outside C F;
  ci_lock : ld32 (mem_of s) (p + ca_lock) = 0;
  ci_ba : ba_inv R F (sl_base s)
}.

(** ** Sizes *)

Lemma slab_size_cases : calculate_slab_size osz = Some ssz -> ssz ∈ [1; 2; 4; 8; 16].
Proof.
  unfold calculate_slab_size. cbn [slab_size_loop].
  repeat (match goal with
  | |- (if ?b then _ else _) = _ -> _ =>
      let E := fresh in destruct b eqn:E; try discriminate E
  end); intros [= <-]; vm_compute; repeat constructor.
Qed.

Lemma block_bytes_ssz : ssz ∈ [1; 2; 4; 8; 16] -> block_bytes ssz = sbytes.
Proof.
  intros Hs. unfold sbytes. repeat (apply elem_of_cons in Hs as [->|Hs]; [reflexivity|]).
  by apply elem_of_nil in Hs.
Qed.

Lemma nobj_fits :
  cache_ok -> 0 <= nobj < 65536 /\ sizeof_slab + nobj * asz <= sbytes /\ 4096 <= sbytes <= 65536.
Proof.
  intros [Ho Hs _]. apply slab_size_cases in Hs.
  assert (1 <= ssz <= 16).
  { repeat (apply elem_of_cons in Hs as [->|Hs]; [lia|]). by apply elem_of_nil in Hs. }
  unfold nobj, OBJECTS_PER_SLAB, asz, sbytes, sizeof_slab, sizeof_object, BLOCK_SIZE, MAX_BUFFER_SIZE in *.
  rewrite !u64_small by lia.
  pose proof (Z.mul_div_le (ssz * 4096 - 48) (osz + 16) ltac:(lia)).
  pose proof (Z.div_pos (ssz * 4096 - 48) (osz + 16) ltac:(lia) ltac:(lia)).
  generalize dependent ((ssz * 4096 - 48) / (osz + 16)). intros q. intros. nia.
Qed.

Lemma obj_range a x :
  cache_ok -> is_obj a x -> a + sizeof_slab <= x /\ x + asz <= a + sbytes.
Proof.
  intros Hc (i & Hi & ->). destruct (nobj_fits Hc) as (? & ? & ?). destruct Hc as [Ho _ _].
  unfold obj, asz, sizeof_slab, sizeof_object in *. nia.
Qed.

Lemma obj_sep a x y :
  cache_ok -> is_obj a x -> is_obj a y -> x <> y -> x + asz <= y \/ y + asz <= x.
Proof.
  intros [Ho _ _] (i & Hi & ->) (j & Hj & ->) Hne. unfold obj, asz, sizeof_object in *.
  assert (i <> j) by congruence. nia.
Qed.

(** ** Frames *)

Section Ok.
Context (Hok : cache_ok).

Lemma elem_of_slabs (C : acache) sl : sl ∈ slabs C <-> exists i, sl ∈ C i.
Proof.
  unfold slabs. rewrite !elem_of_app. split; [intros [?|[?|?]]; eauto|].
  intros [[] ?]; tauto.
Qed.

Lemma elem_of_addrs (l : list aslab) a : a ∈ addrs l <-> exists fl, (a, fl) ∈ l.
Proof.
  unfold addrs. rewrite list_elem_of_fmap. split.
  - intros ([a' fl] & -> & Hin). eauto.
  - intros (fl & Hin). by exists (a, fl).
Qed.

Lemma elem_addrs (sl : aslab) l : sl ∈ l -> sl.1 ∈ addrs l.
Proof. intros Hin. apply elem_of_addrs. exists sl.2. by destruct sl. Qed.

Lemma addr_slabs (C : acache) i a : a ∈ addrs (C i) -> a ∈ addrs (slabs C).
Proof.
  intros (fl & Hin)%elem_of_addrs. apply elem_of_addrs. exists fl. apply elem_of_slabs. eauto.
Qed.

Lemma cp_range m C a : cache_pre m C -> a ∈ addrs (slabs C) -> 0 < a /\ a + sbytes <= 2 ^ 63.
Proof.
  intros Hp (fl & Hin)%elem_of_addrs. pose proof (sr_block _ _ (cp_slabs _ _ Hp _ Hin)) as Hb.
  apply ba_block_range in Hb. simpl in Hb. rewrite block_bytes_ssz in Hb; [done|].
  apply slab_size_cases, Hok.
Qed.

Lemma p_range : 0 < p /\ p + 4096 <= 2 ^ 63.
Proof. apply (ba_block_range R p 1), Hok. Qed.

(** Slabs in different lists, or at different places, are different. *)
Lemma lists_disj (C : acache) i j x y :
  NoDup (addrs (slabs C)) -> i <> j -> x ∈ addrs (C i) -> y ∈ addrs (C j) -> x <> y.
Proof.
  unfold slabs, addrs. rewrite !fmap_app. intros Hnd Hij Hx Hy ->.
  apply list.NoDup_app in Hnd as (_ & H1 & Hnd). apply list.NoDup_app in Hnd as (_ & H2 & _).
  assert (forall z, z ∈ (C LP).*1 -> z ∈ (C LF).*1 -> False) by (intros z Hz Hz'; apply (H1 z Hz); set_solver).
  assert (forall z, z ∈ (C LP).*1 -> z ∈ (C LE).*1 -> False) by (intros z Hz Hz'; apply (H1 z Hz); set_solver).
  destruct i, j; naive_solver.
Qed.

Lemma list_spaced m C i : cache_pre m C -> spaced 16 (addrs (C i)).
Proof.
  intros Hp. destruct (nobj_fits Hok) as (_ & _ & Hb). destruct (cp_spaced _ _ Hp) as [Hnd Hsp]. split.
  - unfold slabs, addrs in Hnd |- *. rewrite !fmap_app in Hnd.
    apply list.NoDup_app in Hnd as (N1 & _ & Hnd). apply list.NoDup_app in Hnd as (N2 & _ & N3).
    by destruct i.
  - intros x y Hx Hy Hne. destruct (Hsp x y) as [?|?]; eauto using addr_slabs; lia.
Qed.

Lemma off_range i : 72 <= off i <= 88.
Proof. destruct i; done. Qed.

Lemma off_sep i j : i <> j -> off i + 8 <= off j \/ off j + 8 <= off i.
Proof. destruct i, j; try done; unfold off, ca_slabs_partial, ca_slabs_full, ca_slabs_empty; lia. Qed.

Lemma head_apart m C i a :
  cache_pre m C -> a ∈ addrs (slabs C) -> p + off i + 8 <= a \/ a + 16 <= p + off i.
Proof.
  intros Hp Ha. destruct (nobj_fits Hok) as (_ & _ & Hb). pose proof (off_range i).
  destruct (cp_apart _ _ Hp a Ha); lia.
Qed.

(** The cells of two different lists do not overlap. *)
Lemma lnk_disj m C i j b :
  cache_pre m C -> i <> j -> lnk (p + off i) (addrs (C i)) b -> lnk (p + off j) (addrs (C j)) b -> False.
Proof.
  intros Hp Hij. destruct (nobj_fits Hok) as (_ & _ & Hb). destruct (cp_spaced _ _ Hp) as [Hnd Hsp].
  pose proof (off_sep i j Hij).
  intros [Hx|(x & Hx & Hxb)] [Hy|(y & Hy & Hyb)]; try lia.
  - destruct (head_apart _ _ i y Hp); [by eapply addr_slabs|lia|lia].
  - destruct (head_apart _ _ j x Hp); [by eapply addr_slabs|lia|lia].
  - destruct (Hsp x y) as [?|?]; eauto using addr_slabs; try lia. by eapply lists_disj.
Qed.

Lemma slab_rep_modifies W m m' sl :
  modifies W m m' -> (forall b, sl.1 + 16 <= b < sl.1 + sbytes -> ~ W b) ->
  slab_rep m sl -> slab_rep m' sl.
Proof.
  intros HM HW Hr. destruct (nobj_fits Hok) as (Hn & Hfit & Hb). destruct sl as [a fl]. simpl in *.
  assert (forall n o, 16 <= o -> o + Z.of_nat n <= 48 -> ld n m' (a + o) = ld n m (a + o)) as Hld.
  { intros n o H1 H2. apply (ld_modifies W); [done|]. intros b Hbb. apply HW. lia. }
  assert (forall x b, is_obj a x -> x <= b < x + 16 -> ~ W b) as Hobj.
  { intros x b Hx Hxb. destruct (obj_range a x Hok Hx). apply HW.
    unfold sizeof_slab, asz, sizeof_object in *. pose proof (co_osz Hok). lia. }
  destruct Hr as [R1 R2 R3 R4 R5 R6 R7 R8 R9]. simpl in *.
  unfold ld64, ld32, sl_mem, sl_num_objects_max, sl_num_free, sl_free_list, sl_cache in *.
  split; simpl; unfold ld64, ld32, sl_mem, sl_num_objects_max, sl_num_free, sl_free_list, sl_cache;
    rewrite ?Hld by lia; try done.
  - apply (sll_modifies W m m'); try done. intros x b Hx Hxb. apply (Hobj x); [by apply R8|lia].
  - intros x Hx Hnx. rewrite <- (R9 x Hx Hnx). apply (ld_modifies W 8); [done|].
    intros b Hbb. apply (Hobj x); [done|]. unfold ob_slab in *. lia.
Qed.

Lemma allocated_count_perm l l' : l ≡ₚ l' -> allocated_count l = allocated_count l'.
Proof. induction 1; simpl in *; unfold allocated_count in *; simpl; lia. Qed.

(** The cache with its slabs regrouped: only list cells changed. *)
Lemma cache_pre_regroup W m m' C C' :
  cache_pre m C -> modifies W m m' ->
  (forall b, W b -> p + 72 <= b < p + 96 \/ p + 104 <= b < p + 4096 \/
                   exists a, a ∈ addrs (slabs C) /\ a <= b < a + 16) ->
  slabs C' ≡ₚ slabs C -> (forall i, dll_at m' (p + off i) (addrs (C' i))) ->
  cache_pre m' C'.
Proof.
  intros Hp HM HW Hperm Hd. destruct (nobj_fits Hok) as (_ & _ & Hb).
  destruct (cp_spaced _ _ Hp) as [Hnd Hsp].
  assert (forall n o, 0 <= o -> o + Z.of_nat n <= 72 \/ 96 <= o /\ o + Z.of_nat n <= 104 ->
            ld n m' (p + o) = ld n m (p + o)) as Hld.
  { intros n o H0 H1. apply (ld_modifies W); [done|]. intros b Hbb Hw.
    destruct (HW b Hw) as [?|[?|(a & Ha & Hab)]]; [lia|lia|]. destruct (cp_apart _ _ Hp a Ha); lia. }
  assert (addrs (slabs C') ≡ₚ addrs (slabs C)) as Haddr by (by apply fmap_Permutation).
  assert (allocated_count (slabs C') = allocated_count (slabs C)) as Hcnt.
  { by apply allocated_count_perm. }
  destruct Hp as [P1 P2 P3 P4 P5 P6 P7 P8 P9 P10].
  split; unfold ld64, ld32; rewrite ?Hld by (unfold ca_object_size, ca_aligned_size, ca_slab_size,
    ca_error_detection, ca_num_slabs, ca_num_allocated; lia); try done.
  - by rewrite Hperm.
  - by rewrite Hcnt.
  - intros sl Hsl. rewrite Hperm in Hsl. apply (slab_rep_modifies W m); [done| |by apply P8].
    intros b Hbb Hw. destruct (HW b Hw) as [?|[?|(a & Ha & Hab)]];
      [destruct (P10 sl.1) as [?|?]; [by apply elem_addrs|lia|lia]..|].
    + destruct (decide (a = sl.1)) as [->|Hne]; [lia|].
      destruct (Hsp a sl.1) as [?|?]; try done; [by apply elem_addrs|lia|lia].
  - split; [by rewrite Haddr|]. intros x y. rewrite Haddr. apply Hsp.
  - intros a. rewrite Haddr. apply P10.
Qed.

(** ** Moving a slab to another list *)

Definition move (C : acache) (i j : lid) (l : list aslab) (sl : aslab) : acache :=
  <[j := sl :: C j]> (<[i := l]> C).

Lemma slabs_insert (C : acache) i l :
  C i ++ slabs (<[i := l]> C) ≡ₚ l ++ slabs C.
Proof.
  unfold slabs. apply (Permutation_count_occ (fun x y => decide (x = y))). intros x.
  destruct i; rewrite ?fn_lookup_insert, ?fn_lookup_insert_ne by done; rewrite !count_occ_app; lia.
Qed.

Lemma slabs_move (C : acache) i j u sl v :
  i <> j -> C i = u ++ sl :: v -> slabs (move C i j (u ++ v) sl) ≡ₚ slabs C.
Proof.
  intros Hij Hi. unfold slabs, move. apply (Permutation_count_occ (fun x y => decide (x = y))). intros x.
  destruct i, j; try done; rewrite ?fn_lookup_insert, ?fn_lookup_insert_ne by done;
    rewrite ?fn_lookup_insert, ?fn_lookup_insert_ne by done; rewrite Hi, !count_occ_app; simpl;
    case_decide; rewrite ?count_occ_app; lia.
Qed.

(** Replacing a slab by a later state of itself. *)
Lemma slabs_replace (C : acache) i u sl sl' v :
  C i = u ++ sl :: v ->
  exists u' v', slabs C = u' ++ sl :: v' /\ slabs (<[i := u ++ sl' :: v]> C) = u' ++ sl' :: v'.
Proof.
  intros Hi. unfold slabs. destruct i; rewrite ?fn_lookup_insert, ?fn_lookup_insert_ne by done; rewrite Hi.
  - exists u, (v ++ C LF ++ C LE). by rewrite <- !app_assoc.
  - exists (C LP ++ u), (v ++ C LE). by rewrite <- !app_assoc.
  - exists (C LP ++ C LF ++ u), v. by rewrite <- !app_assoc.
Qed.

Lemma wp_move i j u sl v C Q (s : slst) :
  cache_pre (mem_of s) C -> i <> j -> C i = u ++ sl :: v ->
  (forall m', cache_pre m' (move C i j (u ++ v) sl) -> modifies (meta C) (mem_of s) m' ->
     Q tt (set_mem m' s)) ->
  wp (remove_slab_from_list (p + off i) sl.1;; add_slab_to_list (p + off j) sl.1) Q s.
Proof.
  intros Hp Hij Hi HQ. pose proof p_range as Hpr. pose proof (off_range i). pose proof (off_range j).
  destruct (nobj_fits Hok) as (_ & _ & Hb). destruct (cp_spaced _ _ Hp) as [Hnd Hsp].
  pose proof (cp_list _ _ Hp i) as Hli. pose proof (list_spaced _ _ i Hp) as Hspi.
  assert (addrs (C i) = addrs u ++ sl.1 :: addrs v) as Ei by (rewrite Hi; unfold addrs; by rewrite fmap_app).
  assert (sl.1 ∈ addrs (C i)) as Hin by (rewrite Ei; set_solver).
  assert (sl.1 ∈ addrs (slabs C)) as Hsin by (by eapply addr_slabs).
  destruct (cp_range _ _ _ Hp Hsin).
  wp_step. apply (wp_remove_slab _ (addrs u) _ (addrs v)); [by rewrite <- Ei|lia|by rewrite <- Ei| |].
  { intros x Hx. apply (head_apart (mem_of s) C); [done|]. apply (addr_slabs _ i). by rewrite Ei. }
  intros m1 Hl1 Hm1. rewrite <- Ei in Hm1.
  assert (forall k, k <> i -> dll_at m1 (p + off k) (addrs (C k))) as Hoth.
  { intros k Hk. eapply dll_at_modifies; [exact Hm1| |apply (cp_list _ _ Hp)].
    intros b Hb1 Hb2. by eapply (lnk_disj _ _ k i). }
  apply (wp_add_slab _ _ (addrs (C j))); rewrite ?mem_of_set_mem; [by apply Hoth|lia|lia| | |].
  { pose proof (list_spaced _ _ j Hp) as [Hndj Hspj].
    assert (forall x, x ∈ addrs (C j) -> sl.1 <> x) as Hd by (intros x; by eapply lists_disj).
    split; [apply list.NoDup_cons; split; [|done]; intros Hx; by apply (Hd _ Hx)|].
    intros x y [->|Hx]%elem_of_cons [->|Hy]%elem_of_cons Hne; try done; [| |by apply Hspj];
      destruct (Hsp sl.1 x) as [?|?] || destruct (Hsp sl.1 y) as [?|?]; eauto using addr_slabs; lia. }
  { intros x Hx. apply (head_apart (mem_of s) C); [done|].
    apply elem_of_cons in Hx as [->|Hx]; [done|by apply (addr_slabs _ j)]. }
  intros m2 Hl2 Hm2. rewrite set_mem_set_mem.
  set (W := fun b => lnk (p + off i) (addrs (C i)) b \/ lnk (p + off j) (sl.1 :: addrs (C j)) b).
  assert (modifies W (mem_of s) m2) as Hm.
  { eapply modifies_trans; (eapply modifies_weaken; [eassumption|]); intros b Hbb; [by left|by right]. }
  assert (forall b, W b -> p + 72 <= b < p + 96 \/ exists a, a ∈ addrs (slabs C) /\ a <= b < a + 16) as HW.
  { intros b [[?|(a & Ha & Hab)]|[?|(a & Ha & Hab)]]; try (left; lia); right; exists a; split; try done.
    - by eapply addr_slabs.
    - apply elem_of_cons in Ha as [->|Ha]; [done|by eapply addr_slabs]. }
  apply HQ.
  - eapply cache_pre_regroup; [done|exact Hm| |by apply slabs_move|].
    { intros b Hbb. destruct (HW b Hbb) as [?|?]; [by left|by right; right]. }
    intros k. unfold move. destruct (decide (k = j)) as [->|Hkj].
    { by rewrite fn_lookup_insert. }
    rewrite fn_lookup_insert_ne by done.
    assert (forall l, dll_at m1 (p + off k) (addrs l) -> (forall a, a ∈ addrs l -> a ∈ addrs (C k) /\ a <> sl.1) ->
              dll_at m2 (p + off k) (addrs l)) as Hfr.
    { intros l Hl Hsub. eapply dll_at_modifies; [exact Hm2| |done]. intros b Hb1 [Hb2|(y & Hy & Hyb)].
      - destruct Hb1 as [?|(x & Hx & Hxb)]; [pose proof (off_sep k j Hkj); lia|].
        destruct (head_apart _ _ j x Hp) as [?|?]; [eapply addr_slabs, Hsub, Hx|lia|lia].
      - apply elem_of_cons in Hy as [->|Hy].
        + destruct Hb1 as [?|(x & Hx & Hxb)]; [destruct (head_apart _ _ k _ Hp Hsin); lia|].
          destruct (Hsub x Hx) as [Hx1 Hx2]. destruct (Hsp x sl.1) as [?|?]; eauto using addr_slabs; lia.
        + eapply (lnk_disj (mem_of s) C k j b); try done; [|right; eauto].
          destruct Hb1 as [?|(x & Hx & Hxb)]; [by left|right; exists x; split; [by apply Hsub|done]]. }
    destruct (decide (k = i)) as [->|Hki].
    + rewrite fn_lookup_insert. apply Hfr; [unfold addrs in *; by rewrite fmap_app|].
      intros a Ha. rewrite Ei. destruct Hspi as [Hndi _]. rewrite Ei in Hndi. unfold addrs in *.
      rewrite fmap_app in Ha. split; [set_solver|]. intros ->.
      apply list.NoDup_app in Hndi as (_ & N1 & N2). apply list.NoDup_cons in N2 as [N2 _].
      apply elem_of_app in Ha as [Ha|Ha]; [|done]. apply (N1 _ Ha). constructor.
    + rewrite fn_lookup_insert_ne by done. apply Hfr; [by apply Hoth|]. intros a Ha.
      split; [done|]. by eapply (lists_disj C k i).
  - eapply modifies_weaken; [exact Hm|]. intros b Hbb. destruct (HW b Hbb) as [?|(a & Ha & Hab)].
    + left. unfold ca_slabs_partial, ca_lock. lia.
    + right. exists a. split; [done|]. left. unfold sizeof_slab. lia.
Qed.

(** ** Taking and returning an object *)

(** The bookkeeping bytes of one slab, without its list links. *)
Definition body (a b : Z) : Prop :=
  a + 16 <= b < a + sizeof_slab \/ exists x, is_obj a x /\ x <= b < x + sizeof_object.

Lemma body_range a b : body a b -> a + 16 <= b < a + sbytes.
Proof.
  destruct (nobj_fits Hok) as (Hn & Hf & Hb). pose proof (co_osz Hok).
  unfold body, sizeof_slab, asz, sizeof_object in *. intros [?|(x & Hx & Hxb)]; [lia|].
  destruct (obj_range a x Hok Hx). unfold sizeof_slab, asz, sizeof_object in *. lia.
Qed.

Definition objs (a : Z) : list Z := obj a <$> seqZ 0 nobj.

Lemma elem_of_objs a x : x ∈ objs a <-> is_obj a x.
Proof.
  unfold objs, is_obj. rewrite list_elem_of_fmap. split; intros (i & Hi).
  - destruct Hi as [-> Hi%elem_of_seqZ]. exists i. split; [lia|done].
  - exists i. split; [apply Hi|]. apply elem_of_seqZ. lia.
Qed.

Lemma length_objs a : length (objs a) = Z.to_nat nobj.
Proof. unfold objs. by rewrite length_fmap, length_seqZ. Qed.

Lemma obj_inj a i j : obj a i = obj a j -> i = j.
Proof. unfold obj, asz, sizeof_object. pose proof (co_osz Hok). nia. Qed.

Lemma NoDup_objs a : NoDup (objs a).
Proof. apply NoDup_fmap_2; [intros i j; apply obj_inj|apply NoDup_seqZ]. Qed.

Lemma free_length a fl :
  NoDup fl -> (forall x, x ∈ fl -> is_obj a x) -> Z.of_nat (length fl) <= nobj.
Proof.
  intros Hnd Hin. destruct (nobj_fits Hok) as (Hn & _).
  assert (fl ⊆+ objs a) as Hs by (apply NoDup_submseteq; [done|]; intros x Hx; by apply elem_of_objs, Hin).
  apply submseteq_length in Hs. rewrite length_objs in Hs. lia.
Qed.

(** A full free list has every object. *)
Lemma free_complete a fl x :
  NoDup fl -> (forall y, y ∈ fl -> is_obj a y) -> Z.of_nat (length fl) = nobj ->
  is_obj a x -> x ∈ fl.
Proof.
  intros Hnd Hin Hlen Hx. destruct (nobj_fits Hok) as (Hn & _).
  destruct (decide (x ∈ fl)) as [|Hni]; [done|]. exfalso.
  assert (Z.of_nat (length (x :: fl)) <= nobj); [|simpl in *; lia].
  apply (free_length a); [by constructor|]. intros y [->|Hy]%elem_of_cons; auto.
Qed.

Definition pop_mem (m : mem) (a x : Z) : mem :=
  let m2 := st64 (st64 m (a + sl_free_list) (ld64 m (x + ob_next))) (x + ob_slab) a in
  st32 m2 (a + sl_num_free) (ld32 m2 (a + sl_num_free) + -1).

Definition push_mem (m : mem) (a x : Z) : mem :=
  let m2 := st64 (st64 m (x + ob_next) (ld64 m (a + sl_free_list))) (a + sl_free_list) x in
  st32 m2 (a + sl_num_free) (ld32 m2 (a + sl_num_free) + 1).

(** Reading back what [body] writes left alone. *)
Ltac slab_layout := unfold asz, sl_mem, sl_num_objects_max, sl_num_free, sl_free_list, sl_cache,
  ob_next, ob_slab, sizeof_slab, sizeof_object in *.

Lemma slab_pop m a x fl :
  slab_rep m (a, x :: fl) -> 0 < a < 2 ^ 63 ->
  slab_rep (pop_mem m a x) (a, fl) /\ modifies (body a) m (pop_mem m a x).
Proof.
  intros [R1 R2 R3 R4 R5 R6 R7 R8 R9] Ha. simpl in *. destruct (nobj_fits Hok) as (Hn & Hf & Hb).
  pose proof (free_length a (x :: fl) R7 R8) as Hlen. simpl in Hlen. pose proof (co_osz Hok).
  assert (is_obj a x) as Hx by (apply R8; constructor). destruct (obj_range a x Hok Hx) as [Hx1 Hx2].
  apply list.NoDup_cons in R7 as [Hxfl R7]. destruct R5 as (E5 & Hx0 & R5).
  unfold pop_mem. slab_layout. rewrite !Z.add_0_r.
  assert (forall y, is_obj a y -> y <> x -> x + osz + 16 <= y \/ y + osz + 16 <= x) as Hsep.
  { intros y Hy Hne. destruct (obj_sep a x y Hok Hx Hy ltac:(congruence)); slab_layout; lia. }
  assert (ld32 (st64 (st64 m (a + 32) (ld64 m x)) (x + 8) a) (a + 28) = Z.of_nat (length fl) + 1) as ->.
  { rewrite !ld32_st64_ne by lia. rewrite R4. simpl. lia. }
  set (m2 := st64 _ (x + 8) a). set (m3 := st32 m2 _ _).
  assert (forall b, b <> x + 8 -> b <> a + 32 -> (b + 8 <= x + 8 \/ x + 16 <= b) ->
            (b + 8 <= a + 28 \/ a + 40 <= b) -> ld64 m3 b = ld64 m b) as L64.
  { intros b H1 H2 H3 H4. unfold m3, m2. rewrite ld64_st32_ne, !ld64_st64_ne by lia. done. }
  split.
  - split; simpl; slab_layout; try done.
    + rewrite L64 by lia. done.
    + unfold m3, m2. by rewrite ld32_st32_ne, !ld32_st64_ne by lia.
    + unfold m3. rewrite ld32_st32 by lia. lia.
    + unfold m3, m2. rewrite ld64_st32_ne, ld64_st64_ne, ld64_st64 by (lia || apply ld64_bound).
      eapply (sll_modifies (fun b => a + 28 <= b < a + 40 \/ x + 8 <= b < x + 16)); [| |exact R5].
      * eapply modifies_trans; [eapply modifies_trans|]; [apply modifies_st64|apply modifies_st64|apply modifies_st32]; lia.
      * intros y b Hy Hyb. pose proof (R8 y ltac:(by constructor)) as Hyo.
        destruct (obj_range a y Hok Hyo). destruct (Hsep y Hyo) as [?|?]; [by intros ->|slab_layout; lia..].
    + rewrite L64 by lia. done.
    + intros y Hy. apply R8. by constructor.
    + intros y Hy Hny. destruct (decide (y = x)) as [->|Hne].
      * unfold m3, m2. rewrite ld64_st32_ne, ld64_st64 by lia. done.
      * destruct (obj_range a y Hok Hy). destruct (Hsep y Hy Hne);
          (rewrite L64 by (slab_layout; lia)); apply R9; try done; set_solver.
  - eapply modifies_trans; [eapply modifies_trans|]; [apply modifies_st64|apply modifies_st64|apply modifies_st32];
      intros b Hbb; unfold body; slab_layout; [left; lia|right; exists x; split; [done|lia]|left; lia].
Qed.

Lemma slab_push m a x fl :
  slab_rep m (a, fl) -> 0 < a -> a + sbytes <= 2 ^ 63 -> is_obj a x -> x ∉ fl ->
  slab_rep (push_mem m a x) (a, x :: fl) /\ modifies (body a) m (push_mem m a x).
Proof.
  intros [R1 R2 R3 R4 R5 R6 R7 R8 R9] Ha Ha2 Hx Hnx. simpl in *.
  destruct (nobj_fits Hok) as (Hn & Hf & Hb). pose proof (co_osz Hok).
  assert (NoDup (x :: fl)) as Hnd by (by constructor).
  assert (forall y, y ∈ x :: fl -> is_obj a y) as Hin by (intros y [->|Hy]%elem_of_cons; auto).
  pose proof (free_length a (x :: fl) Hnd Hin) as Hlen. simpl in Hlen.
  destruct (obj_range a x Hok Hx) as [Hx1 Hx2].
  unfold push_mem. slab_layout. rewrite !Z.add_0_r.
  assert (forall y, is_obj a y -> y <> x -> x + osz + 16 <= y \/ y + osz + 16 <= x) as Hsep.
  { intros y Hy Hne. destruct (obj_sep a x y Hok Hx Hy ltac:(congruence)); slab_layout; lia. }
  assert (ld32 (st64 (st64 m x (ld64 m (a + 32))) (a + 32) x) (a + 28) = Z.of_nat (length fl)) as ->
    by (rewrite !ld32_st64_ne by lia; done).
  set (m1 := st64 m x _). set (m2 := st64 m1 _ x). set (m3 := st32 m2 _ _).
  assert (sll m1 x (x :: fl)) as Hl1.
  { apply sll_push; [done|lia|]. intros y Hy. destruct (Hsep y (R8 y Hy)) as [?|?]; [by intros ->|lia..]. }
  assert (forall b, (b + 8 <= x \/ x + 8 <= b) -> (b + 8 <= a + 28 \/ a + 40 <= b) -> ld64 m3 b = ld64 m b) as L64.
  { intros b H1 H2. unfold m3, m2, m1. rewrite ld64_st32_ne, !ld64_st64_ne by lia. done. }
  split.
  - split; simpl; slab_layout; try done.
    + rewrite L64 by lia. done.
    + unfold m3, m2, m1. by rewrite ld32_st32_ne, !ld32_st64_ne by lia.
    + unfold m3. rewrite ld32_st32 by lia. lia.
    + assert (ld64 m3 (a + 32) = x) as -> by (unfold m3, m2; rewrite ld64_st32_ne, ld64_st64 by lia; done).
      change (sll m3 x (x :: fl)).
      apply (sll_modifies (fun b => a + 28 <= b < a + 40) m1 m3); [| |exact Hl1].
      * eapply modifies_trans; [apply modifies_st64|apply modifies_st32]; lia.
      * intros y b Hy Hyb. destruct (obj_range a y Hok (Hin y Hy)). slab_layout. lia.
    + rewrite L64 by lia. done.
    + intros y Hy Hny. assert (y <> x) as Hne by set_solver.
      destruct (obj_range a y Hok Hy). destruct (Hsep y Hy Hne);
        (rewrite L64 by (slab_layout; lia)); apply R9; try done; set_solver.
  - eapply modifies_trans; [eapply modifies_trans|]; [apply modifies_st64|apply modifies_st64|apply modifies_st32];
      intros b Hbb; unfold body; slab_layout; [right; exists x; split; [done|lia]|left; lia|left; lia].
Qed.

Lemma allocated_count_app l l' :
  allocated_count (l ++ l') = allocated_count l + allocated_count l'.
Proof. unfold allocated_count. induction l as [|sl l IH]; simpl; lia. Qed.

(** One slab's free list and the counter changed. *)
Lemma cache_pre_update m m' C i u a fl fl' v :
  cache_pre m C -> C i = u ++ (a, fl) :: v ->
  modifies (fun b => body a b \/ p + 100 <= b < p + 104) m m' ->
  slab_rep m' (a, fl') ->
  ld32 m' (p + ca_num_allocated) =
    u32 (allocated_count (slabs C) + lost + Z.of_nat (length fl) - Z.of_nat (length fl')) ->
  cache_pre m' (<[i := u ++ (a, fl') :: v]> C).
Proof.
  intros Hp Hi HM Hr Hc. destruct (nobj_fits Hok) as (_ & _ & Hb).
  destruct (slabs_replace C i u (a, fl) (a, fl') v Hi) as (u' & v' & E & E').
  destruct (cp_spaced _ _ Hp) as [Hnd Hsp].
  assert (addrs (slabs (<[i := u ++ (a, fl') :: v]> C)) = addrs (slabs C)) as Ha
    by (rewrite E, E'; unfold addrs; by rewrite !fmap_app).
  assert (a ∈ addrs (slabs C)) as Hain by (rewrite E; unfold addrs; rewrite fmap_app; set_solver).
  assert (forall n o, 0 <= o -> o + Z.of_nat n <= 100 \/ 104 <= o /\ o + Z.of_nat n <= 4096 ->
            ld n m' (p + o) = ld n m (p + o)) as Hld.
  { intros n o H0 H1. eapply ld_modifies; [exact HM|]. intros b Hbb [Hw%body_range|?]; [|lia].
    destruct (cp_apart _ _ Hp a Hain); lia. }
  assert (forall x b, x ∈ addrs (slabs C) -> x <= b < x + 16 ->
            ~ (body a b \/ p + 100 <= b < p + 104)) as Hlnk.
  { intros x b Hx Hxb [Hw%body_range|?]; [|destruct (cp_apart _ _ Hp x Hx); lia].
    destruct (decide (x = a)) as [->|Hne]; [lia|]. destruct (Hsp x a) as [?|?]; try done; lia. }
  pose proof Hp as [P1 P2 P3 P4 P5 P6 P7 P8 P9 P10].
  split; unfold ld64, ld32 in *; rewrite ?Hld by (unfold ca_object_size, ca_aligned_size, ca_slab_size,
    ca_error_detection, ca_num_slabs; lia); try done.
  - intros j. assert (addrs ((<[i := u ++ (a, fl') :: v]> C) j) = addrs (C j)) as ->.
    { destruct (decide (j = i)) as [->|]; [|by rewrite fn_lookup_insert_ne by done].
      rewrite fn_lookup_insert, Hi. unfold addrs. by rewrite !fmap_app. }
    eapply dll_at_modifies; [exact HM| |done]. intros b [Hb1|(x & Hx & Hxb)].
    + pose proof (off_range j). intros [Hw%body_range|?]; [|lia].
      destruct (cp_apart _ _ Hp a Hain); lia.
    + eapply Hlnk; [|done]. by eapply addr_slabs.
  - rewrite P6, E, E', !length_app. done.
  - rewrite Hc, E, E', !allocated_count_app. unfold allocated_count. simpl. f_equal. lia.
  - intros sl. rewrite E'. intros Hsl. destruct (decide (sl = (a, fl'))) as [->|Hne]; [done|].
    assert (sl ∈ slabs C /\ sl.1 <> a) as [Hin Hsa].
    { rewrite E in Hnd |- *. unfold addrs in Hnd. rewrite fmap_app in Hnd. simpl in Hnd.
      apply list.NoDup_app in Hnd as (_ & N1 & N2). apply list.NoDup_cons in N2 as [N2 _].
      apply elem_of_app in Hsl as [Hsl|[->|Hsl]%elem_of_cons]; [|done|].
      - split; [set_solver|]. intros Hsa. apply (N1 sl.1); [by apply elem_addrs|].
        rewrite Hsa. constructor.
      - split; [set_solver|]. intros Hsa. apply N2. rewrite <- Hsa. by apply elem_addrs. }
    eapply slab_rep_modifies; [exact HM| |by apply P8]. intros b Hbb [Hw%body_range|?].
    + destruct (Hsp sl.1 a) as [?|?]; try done; [by apply elem_addrs|lia|lia].
    + destruct (P10 sl.1) as [?|?]; [by apply elem_addrs|lia|lia].
  - by rewrite Ha.
  - by rewrite Ha.
Qed.

(** ** The critical section of a cache *)

Record locked (s0 s : slst) (C : acache) (F : Z -> Prop) : Prop := {
  lo_pre : cache_pre (mem_of s) C;
  lo_out : outside C F;
  lo_ba : ba_inv R F (sl_base s);
  lo_hart : hart_same (push_off (hart_of s0)) (hart_of s);
  lo_lock : ld32 (mem_of s) (p + ca_lock) = 1;
  lo_cpu : ld64 (mem_of s) (p + ca_lock + 16) = h_cpu (hart_of s0);
  lo_glob : sl_glob s = sl_glob s0
}.

(** The bytes of the lock. *)
Definition lock_bytes (b : Z) : Prop := p + ca_lock <= b < p + ca_next.

Lemma ba_client F (s s' : slst) :
  ba_inv R F (sl_base s) -> sl_base s' = set_mach (mach_of s') (sl_base s) ->
  hart_ok (hart_of s') -> modifies (fun b => ~ F b) (mem_of s) (mem_of s') ->
  ba_inv R F (sl_base s').
Proof. intros Hb He Hh Hm. by apply (ba_frame R F (sl_base s) (sl_base s')). Qed.

Lemma sl_base_set_mem m (s : slst) :
  sl_base (set_mem m s) = set_mach (mach_of (set_mem m s)) (sl_base s).
Proof. unfold set_mem. simpl. by rewrite mach_of_set. Qed.

Lemma sl_glob_set_mem m (s : slst) : sl_glob (set_mem m s) = sl_glob s.
Proof. done. Qed.

Lemma meta_outside m C F b : cache_pre m C -> outside C F -> meta C b -> ~ F b.
Proof.
  intros Hp [Ho1 Ho2] Hm HF. destruct (nobj_fits Hok) as (_ & _ & Hb). destruct Hm as [?|(a & Ha & Hab)].
  - apply (Ho1 b HF). unfold ca_slabs_partial, ca_lock in *. lia.
  - apply (Ho2 a b Ha HF). destruct Hab as [?|(x & Hx & Hxb)].
    + unfold sizeof_slab in *. lia.
    + pose proof (body_range a b) as Hr. unfold body in Hr. destruct Hr; [|lia]. right. eauto.
Qed.

Lemma meta_not_lock m C b : cache_pre m C -> meta C b -> ~ (p + ca_lock <= b < p + 4096).
Proof.
  intros Hp Hm Hbl. destruct (nobj_fits Hok) as (_ & _ & Hb). destruct Hm as [?|(a & Ha & Hab)]; [lia|].
  assert (a <= b < a + sbytes).
  { destruct Hab as [?|(x & Hx & Hxb)]; [unfold sizeof_slab in *; lia|].
    pose proof (body_range a b) as Hr. unfold body in Hr. destruct Hr; [|lia]. right. eauto. }
  unfold ca_slabs_partial, ca_lock in *. destruct (cp_apart _ _ Hp a Ha); lia.
Qed.

Lemma locked_set W s0 s C C' F m' :
  hart_ok (hart_of s0) -> locked s0 s C F -> modifies W (mem_of s) m' ->
  (forall b, W b -> ~ F b) -> (forall b, W b -> ~ (p + ca_lock <= b < p + 4096)) ->
  cache_pre m' C' -> outside C' F -> locked s0 (set_mem m' s) C' F.
Proof.
  intros Hh [L1 L2 L3 L4 L5 L6 L7] Hm HF Hl Hp Ho.
  assert (hart_ok (hart_of s)) as Hhs by (apply (hart_ok_proper _ _ L4); by apply push_off_ok).
  split; rewrite ?mem_of_set_mem, ?hart_of_set_mem; try done.
  - eapply ba_client; [exact L3|apply sl_base_set_mem|by rewrite hart_of_set_mem|].
    rewrite mem_of_set_mem. by eapply modifies_weaken.
  - rewrite (ld32_modifies _ _ _ _ Hm); [done|]. intros b Hb Hmb.
    apply (Hl b Hmb). unfold ca_slabs_partial, ca_lock in *. lia.
  - rewrite (ld64_modifies _ _ _ _ Hm); [done|]. intros b Hb Hmb.
    apply (Hl b Hmb). unfold ca_slabs_partial, ca_lock in *. lia.
Qed.

Lemma locked_mem s0 s C C' F m' :
  hart_ok (hart_of s0) -> locked s0 s C F -> modifies (meta C) (mem_of s) m' -> cache_pre m' C' ->
  (forall a, a ∈ addrs (slabs C') -> a ∈ addrs (slabs C)) ->
  locked s0 (set_mem m' s) C' F.
Proof.
  intros Hh L Hm Hp Ha. pose proof (lo_pre _ _ _ _ L). pose proof (lo_out _ _ _ _ L) as Ho.
  eapply locked_set; [done|exact L|exact Hm| | |done|].
  - intros b. by eapply meta_outside.
  - intros b. by eapply meta_not_lock.
  - destruct Ho as [Ho1 Ho2]. split; [done|]. intros a b Hin. apply Ho2. auto.
Qed.

(** Bytes of the descriptor the invariant does not constrain. *)
Lemma cache_pre_misc W m m' C :
  cache_pre m C -> modifies W m m' -> (forall b, W b -> p + 104 <= b < p + 4096) -> cache_pre m' C.
Proof.
  intros Hp HM HW. eapply cache_pre_regroup; [done|exact HM| |done|].
  - intros b Hb. right. left. by apply HW.
  - intros i. eapply dll_at_modifies; [exact HM| |apply (cp_list _ _ Hp)].
    intros b Hl Hw%HW. pose proof (off_range i). destruct (nobj_fits Hok) as (_ & _ & Hb).
    destruct Hl as [?|(x & Hx & Hxb)]; [lia|].
    destruct (cp_apart _ _ Hp x) as [?|?]; [by eapply addr_slabs|lia|lia].
Qed.

Lemma wp_acquire_cache (s : slst) C F Q :
  cache_inv s C F ->
  (forall s', locked s s' C F -> modifies lock_bytes (mem_of s) (mem_of s') -> Q tt s') ->
  wp (acquire_at (p + ca_lock)) Q s.
Proof.
  intros [_ Hp Hsh Ho Hl Hb] HQ. assert (hart_ok (hart_of s)) as Hh by exact (ba_hart _ _ _ Hb).
  pose proof p_range as Hpr. apply wp_acquire_in; [done|].
  set (s' := set_lock_at _ _ _). set (h := push_off (hart_of s)).
  assert (mem_of s' = st64 (st32 (mem_of s) (p + ca_lock) 1) (p + ca_lock + 16) (h_cpu (hart_of s))) as Em
    by (unfold s', set_lock_at; by rewrite mem_of_set_mem, mem_of_set_hart).
  assert (hart_of s' = h) as Eh by (unfold s', set_lock_at; by rewrite hart_of_set_mem, hart_of_set_hart).
  assert (modifies lock_bytes (mem_of s) (mem_of s')) as Hm.
  { rewrite Em. eapply modifies_trans; [apply modifies_st32|apply modifies_st64];
      unfold lock_bytes, ca_slabs_partial, ca_lock, ca_next; lia. }
  apply HQ; [|done]. split; try done.
  - eapply cache_pre_misc; [exact Hp|exact Hm|]. unfold lock_bytes, ca_slabs_partial, ca_lock, ca_next. lia.
  - eapply ba_client; [exact Hb| |rewrite Eh; by apply push_off_ok|].
    + unfold s', set_lock_at, set_mem, set_hart. simpl. by rewrite set_mach_set, mach_of_set.
    + eapply modifies_weaken; [exact Hm|]. intros b Hbb HF. apply (proj1 Ho b HF).
      unfold lock_bytes, ca_slabs_partial, ca_lock, ca_next in *. lia.
  - by rewrite Eh.
  - rewrite Em, ld32_st64_ne, ld32_st32 by lia. done.
  - rewrite Em, ld64_st64; [done|]. destruct Hh as (_ & _ & ?). lia.
Qed.

Lemma wp_release_cache (s0 s : slst) C F Q :
  hart_ok (hart_of s0) -> locked s0 s C F -> shape C ->
  (forall s', cache_inv s' C F -> hart_same (hart_of s0) (hart_of s') ->
     sl_glob s' = sl_glob s0 -> modifies lock_bytes (mem_of s) (mem_of s') -> Q tt s') ->
  wp (release_at (p + ca_lock)) Q s.
Proof.
  intros Hh [L1 L2 L3 L4 L5 L6 L7] Hsh HQ. pose proof p_range as Hpr.
  destruct (pop_push_off _ _ Hh L4) as (h & Eh & Hhs).
  eapply wp_release_in; [| |exact Eh|].
  { simpl. by rewrite L5. }
  { simpl. rewrite L6. destruct L4 as (E & _). by rewrite E. }
  set (s' := set_lock_at _ _ _).
  assert (mem_of s' = st64 (st32 (mem_of s) (p + ca_lock) 0) (p + ca_lock + 16) 0) as Em
    by (unfold s', set_lock_at; by rewrite mem_of_set_mem, mem_of_set_hart).
  assert (hart_of s' = h) as Eh' by (unfold s', set_lock_at; by rewrite hart_of_set_mem, hart_of_set_hart).
  assert (modifies lock_bytes (mem_of s) (mem_of s')) as Hm.
  { rewrite Em. eapply modifies_trans; [apply modifies_st32|apply modifies_st64];
      unfold lock_bytes, ca_slabs_partial, ca_lock, ca_next; lia. }
  apply HQ; try done; [|by rewrite Eh']. split; try done.
  - eapply cache_pre_misc; [exact L1|exact Hm|]. unfold lock_bytes, ca_slabs_partial, ca_lock, ca_next. lia.
  - rewrite Em, ld32_st64_ne, ld32_st32 by lia. done.
  - eapply ba_client; [exact L3| |rewrite Eh'; by apply (hart_ok_proper _ _ Hhs)|].
    + unfold s', set_lock_at, set_mem, set_hart. simpl. by rewrite set_mach_set, mach_of_set.
    + eapply modifies_weaken; [exact Hm|]. intros b Hbb HF. apply (proj1 L2 b HF).
      unfold lock_bytes, ca_slabs_partial, ca_lock, ca_next in *. lia.
Qed.

(** ** Growing a cache *)

(** Writes elsewhere do not touch the cache. *)
Lemma cache_pre_far W m m' C :
  cache_pre m C -> modifies W m m' ->
  (forall b, W b -> ~ (p <= b < p + 4096)) ->
  (forall a b, a ∈ addrs (slabs C) -> W b -> ~ (a <= b < a + sbytes)) -> cache_pre m' C.
Proof.
  intros Hp HM Hw1 Hw2. destruct (nobj_fits Hok) as (_ & _ & Hb).
  assert (forall n o, 0 <= o -> o + Z.of_nat n <= 4096 -> ld n m' (p + o) = ld n m (p + o)) as Hld.
  { intros n o H0 H1. apply (ld_modifies W); [done|]. intros b Hbb Hw. apply (Hw1 b Hw). lia. }
  pose proof Hp as [P1 P2 P3 P4 P5 P6 P7 P8 P9 P10].
  split; unfold ld64, ld32 in *; rewrite ?Hld by (unfold ca_object_size, ca_aligned_size, ca_slab_size,
    ca_error_detection, ca_num_slabs, ca_num_allocated; lia); try done.
  - intros i. eapply dll_at_modifies; [exact HM| |apply P5]. pose proof (off_range i).
    intros b [Hb1|(x & Hx & Hxb)] Hw; [apply (Hw1 b Hw); lia|].
    apply (Hw2 x b); [by eapply addr_slabs|done|lia].
  - intros sl Hsl. eapply slab_rep_modifies; [exact HM| |by apply P8].
    intros b Hbb Hw. apply (Hw2 sl.1 b); [by apply elem_addrs|done|lia].
Qed.

(** A block out of the free bytes overlaps nothing of the cache. *)
Lemma fresh_block C F a :
  outside C F -> (forall b, bytes_of a sbytes b -> F b) ->
  (p + 4096 <= a \/ a + sbytes <= p) /\
  (forall x, x ∈ addrs (slabs C) -> a + sbytes <= x \/ x + sbytes <= a).
Proof.
  intros [Ho1 Ho2] Ha. destruct (nobj_fits Hok) as (_ & _ & Hb). unfold bytes_of in Ha. split.
  - destruct (decide (p + 4096 <= a)); [by left|]. destruct (decide (a + sbytes <= p)); [by right|].
    exfalso. apply (Ho1 (Z.max p a)); [apply Ha|]; lia.
  - intros x Hx. destruct (decide (a + sbytes <= x)); [by left|].
    destruct (decide (x + sbytes <= a)); [by right|].
    exfalso. apply (Ho2 x (Z.max x a) Hx); [apply Ha|]; lia.
Qed.

Lemma wp_init_objects n a Q (s : slst) :
  Z.of_nat n <= nobj -> 0 < a -> a + sbytes <= 2 ^ 63 -> p + 4096 <= a \/ a + sbytes <= p ->
  ld64 (mem_of s) (p + ca_aligned_size) = asz ->
  sll (mem_of s) (ld64 (mem_of s) (a + sl_free_list)) (obj a <$> seqZ (Z.of_nat n) (nobj - Z.of_nat n)) ->
  (forall m', sll m' (ld64 m' (a + sl_free_list)) (objs a) ->
     modifies (fun b => a + 32 <= b < a + 40 \/ exists x, is_obj a x /\ x <= b < x + 8) (mem_of s) m' ->
     Q tt (set_mem m' s)) ->
  wp (init_objects n p a (a + sizeof_slab)) Q s.
Proof.
  revert s. induction n as [|n IH]; intros s Hn Ha Ha2 Hap Hasz Hl HQ; cbn [init_objects].
  { wp_step. rewrite <- (set_mem_mem_of s). apply HQ; [|auto with xv6].
    simpl in Hl. by rewrite Z.sub_0_r in Hl. }
  destruct (nobj_fits Hok) as (Hnr & Hfit & Hb). pose proof p_range. pose proof (co_osz Hok).
  assert (is_obj a (obj a (Z.of_nat n))) as Hx by (exists (Z.of_nat n); split; [lia|done]).
  destruct (obj_range a _ Hok Hx) as [Hx1 Hx2]. slab_layout.
  wp_step. apply wp_getf; [lia|]. fold (ld64 (mem_of s) (p + ca_aligned_size)). rewrite Hasz.
  rewrite u64_small by nia. fold (obj a (Z.of_nat n)).
  change (a + 48 + Z.of_nat n * (osz + 16)) with (obj a (Z.of_nat n)).
  set (x := obj a (Z.of_nat n)) in *.
  wp_step. apply wp_getf; [lia|]. wp_step. apply wp_setf; [lia|]. wp_step. apply wp_setf; [lia|]. memnorm.
  rewrite !Z.add_0_r. fold (ld64 (mem_of s) (a + 32)). fold (st64 (mem_of s) x (ld64 (mem_of s) (a + 32))).
  set (m1 := st64 (mem_of s) x _). fold (st64 m1 (a + 32) x). set (m2 := st64 m1 _ x).
  assert (modifies (fun b => a + 32 <= b < a + 40 \/ exists x, is_obj a x /\ x <= b < x + 8) (mem_of s) m2) as Hm.
  { eapply modifies_trans; apply modifies_st64; intros b Hbb; [right; by exists x|left; lia]. }
  apply IH; memnorm; try done; try lia.
  - unfold m2, m1. rewrite !ld64_st64_ne by (unfold ca_aligned_size; lia). done.
  - unfold m2 at 2. rewrite ld64_st64 by lia.
    replace (nobj - Z.of_nat n) with (Z.succ (nobj - Z.of_nat (Datatypes.S n))) by lia.
    rewrite seqZ_cons, fmap_cons by lia. replace (Z.pred (Z.succ (nobj - Z.of_nat (Datatypes.S n))))
      with (nobj - Z.of_nat (Datatypes.S n)) by lia.
    replace (Z.succ (Z.of_nat n)) with (Z.of_nat (Datatypes.S n)) by lia. fold x.
    eapply (sll_modifies (bytes_of (a + 32) 8)); [apply modifies_st64; by unfold bytes_of| |].
    + intros y b Hy Hyb. assert (is_obj a y) as Hyo.
      { apply elem_of_cons in Hy as [->|(i & -> & Hi%elem_of_seqZ)%list_elem_of_fmap]; [done|].
        exists i. split; [lia|done]. }
      destruct (obj_range a y Hok Hyo). slab_layout. unfold bytes_of. lia.
    + apply sll_push; [done|lia|]. intros y (i & -> & Hi%elem_of_seqZ)%list_elem_of_fmap.
      unfold x, obj. slab_layout. nia.
  - intros m' Hl' Hm'. rewrite set_mem_set_mem. apply HQ; [done|]. by eapply modifies_trans.
Qed.

Lemma ssz_range : 1 <= ssz <= 16.
Proof.
  pose proof (slab_size_cases (co_ssz Hok)) as Hs.
  repeat (apply elem_of_cons in Hs as [->|Hs]; [lia|]). by apply elem_of_nil in Hs.
Qed.

Lemma s32_ssz : s32 ssz = ssz.
Proof. pose proof ssz_range. apply s32_small. lia. Qed.

(** A slab of all free objects. *)
Lemma slab_rep_fresh m a :
  ba_block R a ssz -> ld64 m (a + sl_mem) = a -> ld32 m (a + sl_num_objects_max) = nobj ->
  ld32 m (a + sl_num_free) = nobj -> ld64 m (a + sl_cache) = p ->
  sll m (ld64 m (a + sl_free_list)) (objs a) -> slab_rep m (a, objs a).
Proof.
  intros Hb H1 H2 H3 H4 H5. destruct (nobj_fits Hok) as (Hn & _).
  split; simpl; try done.
  - rewrite length_objs. lia.
  - apply NoDup_objs.
  - intros x. by rewrite elem_of_objs.
  - intros x Hx Hn'. by rewrite elem_of_objs in Hn'.
Qed.

(** The header fields, then the objects, of a new slab. *)
Lemma wp_slab_header a C Q (s : slst) :
  cache_pre (mem_of s) C -> ba_block R a ssz -> p + 4096 <= a \/ a + sbytes <= p ->
  (forall m', slab_rep m' (a, objs a) -> modifies (bytes_of a sbytes) (mem_of s) m' ->
     Q a (set_mem m' s)) ->
  wp (setf 8 a sl_next 0;; setf 8 a sl_prev 0;; setf 8 a sl_mem a;;
      ssz ← getf 4 p ca_slab_size;
      let slab_bytes := u64 (s32 (s32 ssz * BLOCK_SIZE)) in
      osz ← getf 8 p ca_object_size;
      setf 4 a sl_num_objects_max (OBJECTS_PER_SLAB osz slab_bytes);;
      mx ← getf 4 a sl_num_objects_max;
      setf 4 a sl_num_free mx;;
      setf 8 a sl_cache p;;
      let obj_start := a + sizeof_slab in
      setf 8 a sl_free_list 0;;
      mx ← getf 4 a sl_num_objects_max;
      init_objects (Z.to_nat (s32 (mx - 1) + 1)) p a obj_start;;
      mret a) Q s.
Proof.
  intros Hp Hblk Hap HQ. destruct (nobj_fits Hok) as (Hn & Hfit & Hb). pose proof p_range as Hpr.
  pose proof (ba_block_range _ _ _ Hblk) as Har. rewrite block_bytes_ssz in Har by apply slab_size_cases, Hok.
  pose proof ssz_range as Hss.
  assert (forall n o m, 0 <= o -> o + Z.of_nat n <= 4096 -> modifies (bytes_of a 48) (mem_of s) m ->
            ld n m (p + o) = ld n (mem_of s) (p + o)) as Hld.
  { intros n o m Ho1 Ho2 Hm. apply (ld_modifies _ _ _ _ _ Hm). intros b Hbb. unfold bytes_of. lia. }
  pose proof Hp as [P1 P2 P3 P4 _ _ _ _ _ _]. unfold ld64, ld32 in P1, P2, P3.
  assert (forall m o v, modifies (bytes_of a 48) (mem_of s) m -> 0 <= o -> o + 8 <= 48 ->
     modifies (bytes_of a 48) (mem_of s) (st 8 m (a + o) v)) as Hst8.
  { intros m o v Hm Ho1 Ho2. eapply modifies_trans; [exact Hm|]. apply modifies_st64. unfold bytes_of. lia. }
  assert (forall m o v, modifies (bytes_of a 48) (mem_of s) m -> 0 <= o -> o + 4 <= 48 ->
     modifies (bytes_of a 48) (mem_of s) (st 4 m (a + o) v)) as Hst4.
  { intros m o v Hm Ho1 Ho2. eapply modifies_trans; [exact Hm|]. apply modifies_st32. unfold bytes_of. lia. }
  slab_layout. unfold sl_next, sl_prev.
  do 3 (wp_step; apply wp_setf; [lia|]; memnorm). set (m1 := st 8 _ (a + 16) a).
  assert (modifies (bytes_of a 48) (mem_of s) m1) as Hm1 by (unfold m1; repeat apply Hst8; auto with xv6; lia).
  wp_step. apply wp_getf; [lia|]. memnorm. rewrite (Hld 4%nat), P3 by (unfold ca_slab_size; done || lia).
  rewrite s32_ssz. rewrite s32_small by (unfold BLOCK_SIZE; lia).
  rewrite u64_small by (unfold BLOCK_SIZE; lia). cbv zeta.
  wp_step. apply wp_getf; [lia|]. memnorm. rewrite (Hld 8%nat), P1 by (unfold ca_object_size; done || lia).
  fold nobj. wp_step. apply wp_setf; [lia|]. memnorm. set (m2 := st 4 m1 (a + 24) nobj).
  assert (modifies (bytes_of a 48) (mem_of s) m2) as Hm2 by (unfold m2; repeat apply Hst4; auto with xv6; lia).
  assert (ld32 m2 (a + 24) = nobj) as E24 by (apply ld32_st32; lia).
  wp_step. apply wp_getf; [lia|]. memnorm. fold (ld32 m2 (a + 24)). rewrite E24.
  wp_step. apply wp_setf; [lia|]. wp_step. apply wp_setf; [lia|]. wp_step. apply wp_setf; [lia|]. memnorm.
  set (m3 := st 8 (st 8 (st 4 m2 (a + 28) nobj) (a + 40) p) (a + 32) 0).
  assert (modifies (bytes_of a 48) (mem_of s) m3) as Hm3
    by (unfold m3; apply Hst8; [apply Hst8; [apply Hst4|..]|..]; done || lia).
  assert (ld32 m3 (a + 24) = nobj /\ ld32 m3 (a + 28) = nobj /\ ld64 m3 (a + 40) = p /\
          ld64 m3 (a + 32) = 0 /\ ld64 m3 (a + 16) = a) as (E1 & E2 & E3 & E4 & E5).
  { unfold m3, m2, m1, ld32, ld64. repeat split;
      rewrite ?ld_st_ne by lia; rewrite ld_st_eq; try (apply Z.mod_small; simpl; lia). }
  wp_step. apply wp_getf; [lia|]. memnorm. fold (ld32 m3 (a + 24)). rewrite E1.
  rewrite s32_small by lia. replace (Z.to_nat (nobj - 1 + 1)) with (Z.to_nat nobj) by lia.
  wp_step. change (a + 48) with (a + sizeof_slab).
  apply wp_init_objects; memnorm; unfold sl_free_list; try done; try lia.
  { unfold ld64. rewrite (Hld 8%nat); [done|unfold ca_aligned_size; lia..|done]. }
  { rewrite E4, Z2Nat.id, Z.sub_diag by lia. done. }
  intros m4 Hl4 Hm4. wp_step. memnorm.
  assert (forall n o, 16 <= o -> o + Z.of_nat n <= 32 \/ 40 <= o /\ o + Z.of_nat n <= 48 ->
            ld n m4 (a + o) = ld n m3 (a + o)) as Hld4.
  { intros n o Ho1 Ho2. apply (ld_modifies _ _ _ _ _ Hm4). intros b Hbb [?|(x & Hx & Hxb)]; [lia|].
    destruct (obj_range a x Hok Hx). slab_layout. lia. }
  apply HQ.
  - apply slab_rep_fresh; unfold ld64, ld32 in *; slab_layout; rewrite ?Hld4 by lia; done.
  - eapply modifies_trans; (eapply modifies_weaken; [eassumption|]); intros b; unfold bytes_of; [lia|].
    intros [?|(x & Hx & Hxb)]; [lia|]. destruct (obj_range a x Hok Hx). pose proof (co_osz Hok). slab_layout. lia.
Qed.

Definition grown (C : acache) (a : Z) : acache := <[LE := (a, objs a) :: C LE]> C.

Lemma slabs_grown C a : slabs (grown C a) ≡ₚ (a, objs a) :: slabs C.
Proof.
  unfold slabs, grown. rewrite fn_lookup_insert, !fn_lookup_insert_ne by done.
  rewrite !app_assoc. by rewrite <- Permutation_middle.
Qed.

Lemma addrs_grown C a x : x ∈ addrs (slabs (grown C a)) <-> x = a \/ x ∈ addrs (slabs C).
Proof. unfold addrs. rewrite slabs_grown, fmap_cons, elem_of_cons. done. Qed.

Lemma cache_pre_grow m m' C a :
  cache_pre m C -> slab_rep m (a, objs a) ->
  p + 4096 <= a \/ a + sbytes <= p ->
  (forall x, x ∈ addrs (slabs C) -> a + sbytes <= x \/ x + sbytes <= a) ->
  modifies (fun b => lnk (p + off LE) (a :: addrs (C LE)) b \/ p + 96 <= b < p + 100 \/
                     p + 104 <= b < p + 108) m m' ->
  dll_at m' (p + off LE) (a :: addrs (C LE)) ->
  ld32 m' (p + ca_num_slabs) = u32 (Z.of_nat (length (slabs C)) + pend + 1) ->
  cache_pre m' (grown C a).
Proof.
  intros Hp Hr Hap Hsep HM Hd Hnum. destruct (nobj_fits Hok) as (Hn & _ & Hb).
  set (W := fun b : Z => _) in HM. pose proof Hp as [P1 P2 P3 P4 P5 P6 P7 P8 P9 P10].
  assert (forall b, W b -> p + 88 <= b < p + 100 \/ p + 104 <= b < p + 108 \/
            exists x, (x = a \/ x ∈ addrs (slabs C)) /\ x <= b < x + 16) as HW.
  { intros b [[?|(x & Hx & Hxb)]|[?|?]]; [left; unfold off, ca_slabs_empty in *; lia| |left; lia|right; left; lia].
    right. right. exists x. split; [|done]. apply elem_of_cons in Hx as [->|Hx]; [by left|right; by eapply addr_slabs]. }
  assert (forall x, x = a \/ x ∈ addrs (slabs C) -> p + 4096 <= x \/ x + sbytes <= p) as Hapart
    by (intros x [->|Hx]; auto).
  assert (forall x y, x = a \/ x ∈ addrs (slabs C) -> y = a \/ y ∈ addrs (slabs C) -> x <> y ->
            x + sbytes <= y \/ y + sbytes <= x) as Hsp.
  { intros x y [->|Hx] [->|Hy] Hne; try done; [by apply Hsep|destruct (Hsep x Hx); auto|].
    by apply P9. }
  assert (forall n o, 0 <= o -> o + Z.of_nat n <= 88 \/ 100 <= o /\ o + Z.of_nat n <= 104 ->
            ld n m' (p + o) = ld n m (p + o)) as Hld.
  { intros n o Ho1 Ho2. apply (ld_modifies _ _ _ _ _ HM). intros b Hbb Hw.
    destruct (HW b Hw) as [?|[?|(x & Hx & Hxb)]]; [lia|lia|]. destruct (Hapart x Hx); lia. }
  split; unfold ld64, ld32 in *; rewrite ?Hld by (unfold ca_object_size, ca_aligned_size, ca_slab_size,
    ca_error_detection, ca_num_allocated; lia); try done.
  - intros i. unfold grown. destruct (decide (i = LE)) as [->|Hi]; [by rewrite fn_lookup_insert|].
    rewrite fn_lookup_insert_ne by done. eapply dll_at_modifies; [exact HM| |apply P5].
    intros b Hb1 [[Hb2|(y & Hy & Hyb)]|Hb2].
    + eapply (lnk_disj m C i LE b); try done. by left.
    + apply elem_of_cons in Hy as [->|Hy]; [|eapply (lnk_disj m C i LE b); try done; right; eauto].
      pose proof (off_range i). destruct Hb1 as [?|(x & Hx & Hxb)]; [lia|].
      destruct (Hsep x) as [?|?]; [by eapply addr_slabs|lia|lia].
    + pose proof (off_range i). destruct Hb1 as [?|(x & Hx & Hxb)]; [lia|].
      destruct (P10 x) as [?|?]; [by eapply addr_slabs|lia|lia].
  - rewrite slabs_grown, Hnum. f_equal. cbn [length]. lia.
  - rewrite (allocated_count_perm _ _ (slabs_grown C a)). rewrite P7. f_equal.
    unfold allocated_count. cbn [foldr snd]. rewrite length_objs. lia.
  - intros sl. rewrite slabs_grown. intros Hsl.
    assert (slab_rep m sl /\ (sl.1 = a \/ sl.1 ∈ addrs (slabs C))) as [Hsr Hsa].
    { apply elem_of_cons in Hsl as [->|Hsl]; [split; [done|by left]|].
      split; [by apply P8|right; by apply elem_addrs]. }
    eapply slab_rep_modifies; [exact HM| |done]. intros b Hbb Hw.
    destruct (HW b Hw) as [?|[?|(x & Hx & Hxb)]]; [destruct (Hapart _ Hsa); lia..|].
    destruct (decide (x = sl.1)) as [->|Hne]; [lia|]. destruct (Hsp x sl.1 Hx Hsa Hne); lia.
  - split; [|intros x y; rewrite !addrs_grown; apply Hsp].
    unfold addrs. rewrite slabs_grown. simpl. apply list.NoDup_cons. split; [|apply P9].
    intros Hin. destruct (Hsep a Hin); lia.
  - intros x. rewrite addrs_grown. apply Hapart.
Qed.

Lemma outside_sub C F F' : outside C F -> (forall b, F' b -> F b) -> outside C F'.
Proof. intros [H1 H2] Hs. split; [intros b Hb; apply H1; auto|intros a b Ha Hb; apply (H2 a b Ha); auto]. Qed.

Lemma wp_take_block s0 (s : slst) C F Q :
  hart_ok (hart_of s0) -> locked s0 s C F ->
  (no_block (ba_block R) F ssz -> forall s', locked s0 s' C F -> modifies F (mem_of s) (mem_of s') -> Q 0 s') ->
  (forall s' a F', locked s0 s' C F' -> modifies F (mem_of s) (mem_of s') -> ba_block R a ssz ->
     (forall b, bytes_of a sbytes b -> F b) ->
     (forall b, F' b <-> F b /\ ~ bytes_of a sbytes b) -> Q a s') ->
  wp (buddy_alloc_ ssz) Q s.
Proof.
  intros Hh [L1 L2 L3 L4 L5 L6 L7] H0 H1. pose proof ssz_range as Hss. pose proof L2 as [Ho1 Ho2].
  apply wp_zoom. eapply wp_mono; [apply (ba_alloc_spec R F (sl_base s) ssz); [done|lia]|].
  intros r b' (Hsame & Hm & Hcase). rewrite block_bytes_ssz in Hcase by apply slab_size_cases, Hok.
  set (s' := set_base b' s). change (mem_of (sl_base s)) with (mem_of s) in Hm.
  change (mem_of b') with (mem_of s') in Hm. change (hart_of (sl_base s)) with (hart_of s) in Hsame.
  change (hart_of b') with (hart_of s') in Hsame.
  assert (forall F', (forall b, F' b -> F b) -> ba_inv R F' (sl_base s') -> locked s0 s' C F') as Hlk.
  { intros F' Hs Hb. split; try done.
    - eapply cache_pre_far; [exact L1|exact Hm|done|done].
    - by eapply outside_sub.
    - by rewrite <- Hsame.
    - rewrite (ld32_modifies _ _ _ _ Hm); [done|]. intros b Hb' HF. apply (Ho1 b HF). unfold ca_slabs_partial, ca_lock in *. lia.
    - rewrite (ld64_modifies _ _ _ _ Hm); [done|]. intros b Hb' HF. apply (Ho1 b HF). unfold ca_slabs_partial, ca_lock in *. lia. }
  destruct Hcase as [(-> & Hb & Hno)|(F' & Hblk & Hb & Hin & HF')].
  - apply H0; [done| |done]. by apply Hlk.
  - eapply H1; try done. apply Hlk; [|done]. intros b Hfb. by apply HF' in Hfb as [? _].
Qed.

Lemma wp_addf (a o d : Z) Q (s : slst) :
  a <> 0 -> Q tt (set_mem (st32 (mem_of s) (a + o) (ld32 (mem_of s) (a + o) + d)) s) -> wp (addf a o d) Q s.
Proof. intros Ha HQ. unfold addf. wp_step. apply wp_getf; [done|]. by apply wp_setf. Qed.

Lemma wp_grow s0 (s : slst) C F Q :
  hart_ok (hart_of s0) -> locked s0 s C F ->
  (no_block (ba_block R) F ssz -> forall s', locked s0 s' C F -> modifies (fun b => meta C b \/ F b) (mem_of s) (mem_of s') -> Q (-1) s') ->
  (forall s' a F', locked s0 s' (grown C a) F' ->
     modifies (fun b => meta C b \/ F b) (mem_of s) (mem_of s') ->
     (forall b, bytes_of a sbytes b -> F b) ->
     (forall b, F' b <-> F b /\ ~ bytes_of a sbytes b) -> Q 0 s') ->
  wp (kmem_cache_grow p) Q s.
Proof.
  intros Hh L Hfail Hsucc. pose proof (lo_pre _ _ _ _ L) as Hp. pose proof p_range as Hpr.
  destruct (nobj_fits Hok) as (_ & _ & Hb). pose proof (lo_out _ _ _ _ L) as Ho.
  unfold kmem_cache_grow, kmem_slab_create. wp_step. wp_step. apply wp_getf; [lia|].
  pose proof (cp_ssz _ _ Hp) as E. unfold ld32 in E. rewrite E, s32_ssz. clear E.
  wp_step. apply (wp_take_block s0 s C F); [done|done| |].
  { intros Hno s1 L1 Hm1. rewrite Z.eqb_refl. wp_step. rewrite Z.eqb_refl. wp_step. apply wp_setf; [lia|]. wp_step.
    set (m := st 4 _ _ 1).
    assert (modifies (meta C) (mem_of s1) m) as Hm.
    { apply modifies_st32. intros b Hbb. left. unfold ca_error_state, ca_slabs_partial, ca_lock in *. lia. }
    apply Hfail; [done|..]; rewrite ?mem_of_set_mem.
    - eapply locked_mem; [done|exact L1|exact Hm| |done].
      eapply cache_pre_misc; [apply (lo_pre _ _ _ _ L1)|apply modifies_st|].
      unfold bytes_of, ca_error_state. lia.
    - eapply modifies_trans; (eapply modifies_weaken; [eassumption|]); intros b Hbb; [by right|by left]. }
  intros s1 a F' L1 Hm1 Hblk Hin HF'.
  pose proof (ba_block_range _ _ _ Hblk) as Har. rewrite block_bytes_ssz in Har by apply slab_size_cases, Hok.
  destruct (fresh_block C F a Ho Hin) as [Hap Hsep]. pose proof (lo_pre _ _ _ _ L1) as Hp1.
  replace (a =? 0) with false by lia. apply wp_slab_header with (C := C); try done.
  intros m2 Hr2 Hm2. replace (a =? 0) with false by lia.
  assert (cache_pre m2 C) as Hp2.
  { eapply cache_pre_far; [exact Hp1|exact Hm2| |]; unfold bytes_of.
    - intros b Hbb. lia.
    - intros x b Hx Hbb. destruct (Hsep x Hx); lia. }
  wp_step. apply (wp_add_slab (p + off LE) a (addrs (C LE))); memnorm; [apply (cp_list _ _ Hp2)|lia| | | |].
  { pose proof (off_range LE). lia. }
  { destruct (list_spaced _ _ LE Hp) as [Hnd Hsp]. split.
    - apply list.NoDup_cons. split; [|done]. intros Hx%addr_slabs. destruct (Hsep a Hx); lia.
    - intros x y [->|Hx]%elem_of_cons [->|Hy]%elem_of_cons Hne; try done; [| |by apply Hsp].
      + destruct (Hsep y) as [?|?]; [by eapply addr_slabs|lia|lia].
      + destruct (Hsep x) as [?|?]; [by eapply addr_slabs|lia|lia]. }
  { pose proof (off_range LE). intros x [->|Hx]%elem_of_cons; [lia|].
    apply (head_apart m2 C LE x); [done|by eapply addr_slabs]. }
  intros m3 Hl3 Hm3. memnorm. wp_step. apply wp_addf; [lia|]. memnorm.
  wp_step. apply wp_addf; [lia|]. memnorm. wp_step.
  set (m4 := st32 m3 (p + ca_num_slabs) _). set (m5 := st32 m4 _ _).
  set (W := fun b => lnk (p + off LE) (a :: addrs (C LE)) b \/ p + 96 <= b < p + 100 \/ p + 104 <= b < p + 108).
  assert (modifies W m2 m5) as Hm5.
  { eapply modifies_trans; [eapply modifies_trans|]; [eapply modifies_weaken; [exact Hm3|]|apply modifies_st32..];
      unfold W, ca_num_slabs, ca_num_grown; intros b Hbb; [by left|right; left; lia|right; right; lia]. }
  assert (forall b, W b -> meta C b \/ bytes_of a sbytes b) as HW.
  { intros b [[Hbb|(x & Hx & Hxb)]|Hbb].
    - left. left. pose proof (off_range LE). unfold ca_slabs_partial, ca_lock in *. lia.
    - apply elem_of_cons in Hx as [->|Hx]; [right; unfold bytes_of; lia|].
      left. right. exists x. split; [by eapply addr_slabs|]. left. unfold sizeof_slab. lia.
    - left. left. unfold ca_slabs_partial, ca_lock. lia. }
  assert (modifies (fun b => meta C b \/ bytes_of a sbytes b) (mem_of s1) m5) as Hm15.
  { eapply modifies_trans; (eapply modifies_weaken; [eassumption|]); intros b Hbb; [by right|auto]. }
  apply (Hsucc _ a F'); rewrite ?mem_of_set_mem; try done.
  - eapply locked_set; [done|exact L1|exact Hm15| | | |].
    + intros b [Hbb|Hbb]; [eapply meta_outside; [exact Hp1|apply (lo_out _ _ _ _ L1)|done]|].
      rewrite HF'. tauto.
    + intros b [Hbb|Hbb]; [by eapply meta_not_lock|]. unfold bytes_of, ca_lock in *. lia.
    + apply (cache_pre_grow m2 m5 C a); try done.
      * eapply (dll_at_modifies (fun b => p + 96 <= b < p + 108)); [| |exact Hl3].
        { eapply modifies_trans; apply modifies_st32; unfold ca_num_slabs, ca_num_grown; lia. }
        intros b [Hbb|(x & Hx & Hxb)]; [unfold off, ca_slabs_empty in *; lia|].
        apply elem_of_cons in Hx as [->|Hx]; [lia|].
        destruct (cp_apart _ _ Hp x) as [?|?]; [by eapply addr_slabs|lia|lia].
      * unfold m5, m4. rewrite ld32_st32_ne, ld32_st32_mod by (unfold ca_num_slabs, ca_num_grown; lia).
        rewrite (ld32_modifies _ _ _ _ Hm3), (cp_num _ _ Hp2).
        { unfold u32. by rewrite Zplus_mod_idemp_l. }
        intros b Hbb [?|(x & Hx & Hxb)]; unfold off, ca_slabs_empty, ca_num_slabs in *; [lia|].
        apply elem_of_cons in Hx as [->|Hx]; [lia|].
        destruct (cp_apart _ _ Hp x) as [?|?]; [by eapply addr_slabs|lia|lia].
    + pose proof (lo_out _ _ _ _ L1) as [O1 O2]. split; [done|]. intros x b Hx HFb.
      apply addrs_grown in Hx as [->|Hx]; [|by apply O2]. apply HF' in HFb as [_ ?]. done.
  - eapply modifies_trans; (eapply modifies_weaken; [eassumption|]); intros b Hbb; [by right|].
    destruct Hbb as [?|Hbb]; [by left|right; auto].
Qed.

(** ** Moving an object in or out *)

Lemma meta_sub C C' b :
  (forall a, a ∈ addrs (slabs C') -> a ∈ addrs (slabs C)) -> meta C' b -> meta C b.
Proof. intros Hs [?|(a & Ha & Hb)]; [by left|]. right. exists a. auto. Qed.

Lemma addrs_perm C C' a :
  slabs C' ≡ₚ slabs C -> a ∈ addrs (slabs C') -> a ∈ addrs (slabs C).
Proof. intros Hp. unfold addrs. by rewrite Hp. Qed.

Lemma addrs_replace C i u a fl fl' v x :
  C i = u ++ (a, fl) :: v ->
  x ∈ addrs (slabs (<[i := u ++ (a, fl') :: v]> C)) -> x ∈ addrs (slabs C).
Proof.
  intros Hi. destruct (slabs_replace C i u (a, fl) (a, fl') v Hi) as (u' & v' & -> & ->).
  unfold addrs. by rewrite !fmap_app.
Qed.

Lemma allocated_perm C C' x : slabs C' ≡ₚ slabs C -> allocated C' x <-> allocated C x.
Proof. intros Hp. unfold allocated. by setoid_rewrite Hp. Qed.

Lemma allocated_replace C i u a fl fl' v y :
  C i = u ++ (a, fl) :: v ->
  allocated (<[i := u ++ (a, fl') :: v]> C) y <->
  (exists u' v', slabs C = u' ++ (a, fl) :: v' /\
     ((exists sl, sl ∈ u' ++ v' /\ is_obj sl.1 y /\ y ∉ sl.2) \/ is_obj a y /\ y ∉ fl')).
Proof.
  intros Hi. destruct (slabs_replace C i u (a, fl) (a, fl') v Hi) as (u' & v' & E & E').
  unfold allocated. rewrite E'. split.
  - intros (sl & Hin & Ho & Hn). exists u', v'. split; [done|].
    apply elem_of_app in Hin as [Hin|[->|Hin]%elem_of_cons]; [left|by right|left];
      exists sl; (split; [set_solver|done]).
  - intros (u2 & v2 & E2 & Hc).
    assert (forall sl, sl ∈ u2 ++ v2 -> sl ∈ u' ++ v') as Hs.
    { intros sl Hsl. assert (u2 ++ v2 ≡ₚ u' ++ v') as Hpm; [|by rewrite <- Hpm]. rewrite E in E2.
      apply (Permutation_cons_inv (a := (a, fl))). by rewrite !Permutation_middle, E2. }
    destruct Hc as [(sl & Hin & Ho)|Ho]; [|exists (a, fl'); set_solver].
    exists sl. specialize (Hs _ Hin). split; [set_solver|done].
Qed.

(** Each object belongs to one slab. *)
Lemma obj_slab m C a a' x :
  cache_pre m C -> a ∈ addrs (slabs C) -> a' ∈ addrs (slabs C) -> is_obj a x -> is_obj a' x -> a = a'.
Proof.
  intros Hp Ha Ha' Hx Hx'. destruct (decide (a = a')) as [|Hne]; [done|].
  destruct (obj_range _ _ Hok Hx). destruct (obj_range _ _ Hok Hx'). pose proof (co_osz Hok).
  destruct (cp_spaced _ _ Hp) as [_ Hsp]. destruct (Hsp a a' Ha Ha' Hne); slab_layout; lia.
Qed.

(** A slab is determined by its address. *)
Lemma slab_unique m C a fl fl' :
  cache_pre m C -> (a, fl) ∈ slabs C -> (a, fl') ∈ slabs C -> fl = fl'.
Proof.
  intros Hp H1 H2. destruct (cp_spaced _ _ Hp) as [Hnd _].
  apply list_elem_of_lookup in H1 as [i Hi]. apply list_elem_of_lookup in H2 as [j Hj].
  assert (i = j) as ->.
  { eapply (NoDup_lookup (addrs (slabs C)) i j a); [done| |]; unfold addrs; rewrite list_lookup_fmap.
    - by rewrite Hi.
    - by rewrite Hj. }
  congruence.
Qed.

Lemma allocated_pop m C i u a x fl v y :
  cache_pre m C -> C i = u ++ (a, x :: fl) :: v ->
  ~ allocated C x /\ is_obj a x /\
  (allocated (<[i := u ++ (a, fl) :: v]> C) y <-> allocated C y \/ y = x).
Proof.
  intros Hp Hi.
  assert ((a, x :: fl) ∈ slabs C) as Hin by (apply elem_of_slabs; exists i; rewrite Hi; set_solver).
  pose proof (cp_slabs _ _ Hp _ Hin) as Hr.
  assert (is_obj a x) as Hx by (apply (sr_objs _ _ Hr); constructor). split; [|split; [done|]].
  - intros ([a' fl'] & Hin' & Ho & Hn). simpl in *.
    assert (a = a') as <- by (eapply (obj_slab m C _ _ x); try done; eapply elem_addrs in Hin, Hin'; done).
    assert (fl' = x :: fl) as -> by (by eapply slab_unique). apply Hn. constructor.
  - rewrite allocated_replace by done. unfold allocated. split.
    + intros (u' & v' & E & [(sl & Hs & Ho)|[Ho Hn]]).
      * left. exists sl. rewrite E. set_solver.
      * destruct (decide (y = x)) as [->|Hne]; [by right|]. left. exists (a, x :: fl).
        split; [done|]. split; [done|]. simpl. set_solver.
    + destruct (slabs_replace C i u _ (a, fl) v Hi) as (u' & v' & E & _).
      intros [(sl & Hs & Ho & Hn)| ->]; exists u', v'; (split; [done|]).
      * rewrite E in Hs. apply elem_of_app in Hs as [Hs|[->|Hs]%elem_of_cons]; [left|right|left].
        -- exists sl. set_solver.
        -- simpl in *. set_solver.
        -- exists sl. set_solver.
      * right. split; [done|]. pose proof (sr_nodup _ _ Hr) as Hnd. simpl in Hnd.
        by apply list.NoDup_cons in Hnd as [? _].
Qed.

(** The move of a slab within the critical section. *)
Lemma wp_locked_move s0 (s : slst) C F i j u sl v Q :
  hart_ok (hart_of s0) -> locked s0 s C F -> i <> j -> C i = u ++ sl :: v ->
  (forall s', locked s0 s' (move C i j (u ++ v) sl) F ->
     modifies (meta C) (mem_of s) (mem_of s') -> Q tt s') ->
  wp (remove_slab_from_list (p + off i) sl.1;; add_slab_to_list (p + off j) sl.1) Q s.
Proof.
  intros Hh L Hij Hi HQ. pose proof (lo_pre _ _ _ _ L) as Hp.
  apply (wp_move i j u sl v C); try done. intros m' Hp' Hm'. apply HQ; [|by rewrite mem_of_set_mem].
  eapply locked_mem; try done. intros a. apply addrs_perm. by apply slabs_move.
Qed.

Definition is_partial (sl : aslab) : Prop := 0 < Z.of_nat (length sl.2) < nobj.
Definition is_full (sl : aslab) : Prop := sl.2 = [] /\ 0 < nobj.
Definition is_empty (sl : aslab) : Prop := Z.of_nat (length sl.2) = nobj.

Definition shape_of (i : lid) : aslab -> Prop :=
  match i with LP => is_partial | LF => is_full | LE => is_empty end.

Lemma shape_alt C : shape C <-> forall i sl, sl ∈ C i -> shape_of i sl.
Proof.
  unfold shape. split; [intros (H1 & H2 & H3) []; eauto|].
  intros Hs. split; [apply (Hs LP)|]. split; [apply (Hs LF)|apply (Hs LE)].
Qed.

(** Every list keeps its shape when the head of [i] moves to the front of
    [j] and fits there. *)
Lemma shape_move C i j l sl :
  (forall k sl', sl' ∈ (<[i := l]> C) k -> shape_of k sl') -> shape_of j sl -> i <> j ->
  shape (move C i j l sl).
Proof.
  intros Hs Hj Hij. apply shape_alt. intros k sl' Hin. unfold move in Hin.
  destruct (decide (k = j)) as [->|Hk].
  - rewrite fn_lookup_insert in Hin. apply elem_of_cons in Hin as [->|Hin]; [done|].
    apply Hs. by rewrite fn_lookup_insert_ne.
  - rewrite fn_lookup_insert_ne in Hin by done. by apply Hs.
Qed.

(** Every slab is in its list, but for the slab [sl] in list [i]. *)
Definition shape_but (C : acache) (i : lid) (sl : aslab) : Prop :=
  exists u v, C i = u ++ sl :: v /\ forall k x, x ∈ (<[i := u ++ v]> C) k -> shape_of k x.

Lemma shape_but_intro C i u sl sl' v :
  shape C -> C i = u ++ sl :: v -> shape_but (<[i := u ++ sl' :: v]> C) i sl'.
Proof.
  intros Hs Hi. exists u, v. split; [by rewrite fn_lookup_insert|]. intros k x Hin.
  rewrite shape_alt in Hs. apply Hs. destruct (decide (k = i)) as [->|Hk].
  - rewrite fn_lookup_insert in Hin. rewrite Hi. set_solver.
  - by rewrite !fn_lookup_insert_ne in Hin by done.
Qed.

Lemma shape_but_done C i sl : shape_but C i sl -> shape_of i sl -> shape C.
Proof.
  intros (u & v & Hi & Hs) Ho. apply shape_alt. intros k x Hx. destruct (decide (k = i)) as [->|Hk].
  - rewrite Hi in Hx. destruct (decide (x = sl)) as [->|Hne]; [done|]. apply Hs.
    rewrite fn_lookup_insert. set_solver.
  - apply Hs. by rewrite fn_lookup_insert_ne.
Qed.

(** Moving that slab on. *)
Lemma wp_move_slab s0 (s : slst) C F i j sl Q :
  hart_ok (hart_of s0) -> locked s0 s C F -> i <> j -> shape_but C i sl ->
  (forall s' C', locked s0 s' C' F -> shape_but C' j sl -> slabs C' ≡ₚ slabs C ->
     modifies (meta C) (mem_of s) (mem_of s') -> Q tt s') ->
  wp (remove_slab_from_list (p + off i) sl.1;; add_slab_to_list (p + off j) sl.1) Q s.
Proof.
  intros Hh L Hij (u & v & Hi & Hs) HQ. apply (wp_locked_move s0 s C F i j u sl v); try done.
  intros s' L' Hm. eapply HQ; [exact L'| |by apply (slabs_move C i j u sl v)|done].
  exists [], (C j). split; [unfold move; by rewrite fn_lookup_insert|].
  intros k x Hx. apply Hs. unfold move in Hx. destruct (decide (k = j)) as [->|Hk].
  - rewrite fn_lookup_insert in Hx. by rewrite fn_lookup_insert_ne.
  - by rewrite !fn_lookup_insert_ne in Hx by done.
Qed.

Lemma meta_perm C C' m m' :
  slabs C' ≡ₚ slabs C -> modifies (meta C') m m' -> modifies (meta C) m m'.
Proof.
  intros Hp Hm. eapply modifies_weaken; [exact Hm|]. intros b. apply meta_sub.
  intros a. by apply addrs_perm.
Qed.

(** The counters of a slab of the cache. *)
Lemma locked_counts s0 (s : slst) C F a fl :
  locked s0 s C F -> (a, fl) ∈ slabs C ->
  ld 4 (mem_of s) (a + sl_num_free) = Z.of_nat (length fl) /\
  ld 4 (mem_of s) (a + sl_num_objects_max) = nobj.
Proof.
  intros L Hin. destruct (cp_slabs _ _ (lo_pre _ _ _ _ L) _ Hin) as [_ _ H1 H2 _ _ _ _ _]. done.
Qed.

Lemma shape_but_in C i sl : shape_but C i sl -> sl ∈ slabs C.
Proof. intros (u & v & Hi & _). apply elem_of_slabs. exists i. rewrite Hi. set_solver. Qed.

(** The two list moves after an object was taken. *)
Lemma wp_settle_take s0 (s : slst) C F i a fl (object : Z) (Q : Z -> slst -> Prop) :
  hart_ok (hart_of s0) -> locked s0 s C F -> a <> 0 -> shape_but C i (a, fl) ->
  i = LP /\ Z.of_nat (length fl) + 1 < nobj \/ i = LE /\ Z.of_nat (length fl) + 1 = nobj ->
  (forall s' C', locked s0 s' C' F -> shape C' -> modifies (meta C) (mem_of s) (mem_of s') ->
     slabs C' ≡ₚ slabs C -> Q object s') ->
  wp (nf ← getf 4 a sl_num_free;
      mx ← getf 4 a sl_num_objects_max;
      (if nf =? u32 (mx - 1) then
         remove_slab_from_list (p + ca_slabs_empty) a;;
         add_slab_to_list (p + ca_slabs_partial) a
       else mret tt);;
      nf ← getf 4 a sl_num_free;
      (if nf =? 0 then
         remove_slab_from_list (p + ca_slabs_partial) a;;
         add_slab_to_list (p + ca_slabs_full) a
       else mret tt);;
      mret object) Q s.
Proof.
  intros Hh L Ha Hs Hcase HQ. destruct (nobj_fits Hok) as (Hn & _ & _).
  destruct (locked_counts _ _ _ _ _ _ L (shape_but_in _ _ _ Hs)) as [E1 E2].
  wp_step. apply wp_getf; [done|]. rewrite E1. wp_step. apply wp_getf; [done|]. rewrite E2.
  rewrite u32_small by lia. wp_step.
  assert (forall s' C', locked s0 s' C' F -> shape_but C' LP (a, fl) ->
    modifies (meta C) (mem_of s) (mem_of s') -> slabs C' ≡ₚ slabs C ->
    wp (nf ← getf 4 a sl_num_free;
      (if nf =? 0 then
         remove_slab_from_list (p + ca_slabs_partial) a;;
         add_slab_to_list (p + ca_slabs_full) a
       else mret tt);;
      mret object) Q s') as Hrest.
  { intros s' C' L' Hs' Hm' Hp'.
    destruct (locked_counts _ _ _ _ _ _ L' (shape_but_in _ _ _ Hs')) as [E1' _].
    wp_step. apply wp_getf; [done|]. rewrite E1'. wp_step.
    destruct (Z.eqb_spec (Z.of_nat (length fl)) 0) as [E|E].
    - apply (wp_move_slab s0 s' C' F LP LF (a, fl)); try done. intros s2 C2 L2 Hs2 Hp2 Hm2.
      wp_step. apply (HQ s2 C2); [done| | |by rewrite Hp2].
      + eapply shape_but_done; [exact Hs2|]. split; [|lia]. simpl. destruct fl; [done|simpl in E; lia].
      + eapply modifies_trans; [exact Hm'|]. by eapply meta_perm.
    - wp_step. wp_step. apply (HQ s' C'); try done. eapply shape_but_done; [exact Hs'|].
      unfold shape_of, is_partial. simpl. lia. }
  destruct Hcase as [[-> Hl]|[-> Hl]].
  - replace (Z.of_nat (length fl) =? nobj - 1) with false by lia. wp_step. apply (Hrest s C); auto with xv6.
  - replace (Z.of_nat (length fl) =? nobj - 1) with true by lia.
    apply (wp_move_slab s0 s C F LE LP (a, fl)); try done. intros s1 C1 L1 Hs1 Hp1 Hm1.
    by apply (Hrest s1 C1).
Qed.

(** A slab's free list changed, and with it the cache's counter. *)
Lemma locked_update s0 (s : slst) C F i u a fl fl' v m1 :
  hart_ok (hart_of s0) -> locked s0 s C F -> C i = u ++ (a, fl) :: v ->
  slab_rep m1 (a, fl') -> modifies (body a) (mem_of s) m1 ->
  let d := Z.of_nat (length fl) - Z.of_nat (length fl') in
  let m2 := st32 m1 (p + ca_num_allocated) (ld32 m1 (p + ca_num_allocated) + d) in
  locked s0 (set_mem m2 s) (<[i := u ++ (a, fl') :: v]> C) F /\ modifies (meta C) (mem_of s) m2.
Proof.
  intros Hh L Hi Hr1 Hm1 d m2. pose proof (lo_pre _ _ _ _ L) as Hp.
  destruct (nobj_fits Hok) as (_ & _ & Hb).
  assert ((a, fl) ∈ slabs C) as Hin by (apply elem_of_slabs; exists i; rewrite Hi; set_solver).
  pose proof (elem_addrs _ _ Hin) as Ha. simpl in Ha.
  assert (ld32 m1 (p + ca_num_allocated) = u32 (allocated_count (slabs C) + lost)) as Hcnt.
  { rewrite (ld32_modifies _ _ _ _ Hm1); [apply (cp_alloc _ _ Hp)|]. intros b Hbb Hw%body_range.
    unfold ca_num_allocated in *. destruct (cp_apart _ _ Hp a Ha); lia. }
  assert (modifies (fun b => body a b \/ p + 100 <= b < p + 104) (mem_of s) m2) as Hm2.
  { eapply modifies_trans; [eapply modifies_weaken; [exact Hm1|]; by left|].
    apply modifies_st32. unfold ca_num_allocated. lia. }
  assert (slab_rep m2 (a, fl')) as Hr2.
  { eapply slab_rep_modifies; [apply (modifies_st 4)| |exact Hr1]. intros b Hbb. simpl in Hbb.
    unfold bytes_of, ca_num_allocated. destruct (cp_apart _ _ Hp a Ha); lia. }
  assert (modifies (meta C) (mem_of s) m2) as Hmm.
  { eapply modifies_weaken; [exact Hm2|]. intros b [[Hbb|Hbb]|Hbb].
    - right. exists a. split; [done|]. left. unfold sizeof_slab in *. lia.
    - right. exists a. split; [done|]. by right.
    - left. unfold ca_slabs_partial, ca_lock. lia. }
  split; [|done]. eapply locked_mem; [done|exact L|done| |].
  - apply (cache_pre_update (mem_of s) m2 C i u a fl fl' v); try done.
    unfold m2, d. rewrite ld32_st32_mod, Hcnt. unfold u32. rewrite Zplus_mod_idemp_l. f_equal. lia.
  - intros y. by eapply addrs_replace.
Qed.

(** Taking the first object of the head of [i]. *)
Lemma wp_take_object s0 (s : slst) C F i a x fl v Q :
  hart_ok (hart_of s0) -> locked s0 s C F -> shape C -> C i = (a, x :: fl) :: v -> i <> LF ->
  (forall s' C', locked s0 s' C' F -> shape C' -> modifies (meta C) (mem_of s) (mem_of s') ->
     slabs C' ≡ₚ slabs (<[i := (a, fl) :: v]> C) -> Q x s') ->
  wp (take_object p a) Q s.
Proof.
  intros Hh L Hsh Hi Hne HQ. pose proof (lo_pre _ _ _ _ L) as Hp. pose proof p_range as Hpr.
  assert ((a, x :: fl) ∈ C i) as Hci by (rewrite Hi; constructor).
  assert ((a, x :: fl) ∈ slabs C) as Hin by (apply elem_of_slabs; eauto).
  pose proof (cp_slabs _ _ Hp _ Hin) as Hr. pose proof (elem_addrs _ _ Hin) as Ha. simpl in Ha.
  destruct (cp_range _ _ _ Hp Ha) as [Ha1 Ha2]. destruct (nobj_fits Hok) as (Hn & _ & Hb).
  assert (is_obj a x) as Hx by (apply (sr_objs _ _ Hr); constructor).
  destruct (obj_range _ _ Hok Hx). slab_layout.
  destruct (slab_pop _ _ _ _ Hr) as [Hr1 Hm1]; [lia|]. destruct (sr_list _ _ Hr) as (Efl & _). simpl in Efl.
  unfold take_object. wp_step. apply wp_getf; [lia|]. fold (ld64 (mem_of s) (a + sl_free_list)).
  rewrite Efl. wp_step. apply wp_getf; [lia|]. wp_step. apply wp_setf; [lia|].
  wp_step. apply wp_setf; [lia|]. wp_step. apply wp_addf; [lia|]. memnorm.
  match goal with |- wp _ _ (set_mem ?m _) => change m with (pop_mem (mem_of s) a x) end.
  wp_step. apply wp_addf; [lia|]. memnorm.
  destruct (locked_update s0 s C F i [] a (x :: fl) fl v _ Hh L Hi Hr1 Hm1) as [L2 Hmm].
  replace (Z.of_nat (length (x :: fl)) - Z.of_nat (length fl)) with 1 in L2, Hmm by (simpl; lia).
  eapply (wp_settle_take s0 _ _ F i a fl); [done|exact L2|lia|by eapply (shape_but_intro C i [])| |].
  { rewrite shape_alt in Hsh. specialize (Hsh _ _ Hci).
    destruct i; [left|done|right]; (split; [done|]); unfold shape_of, is_partial, is_empty in Hsh;
      simpl in Hsh; lia. }
  intros s' C' L' Hs' Hm' Hp'. apply (HQ s' C'); try done.
  rewrite mem_of_set_mem in Hm'. eapply modifies_trans; [exact Hmm|].
  eapply modifies_weaken; [exact Hm'|]. intros b. apply meta_sub. intros y. by eapply (addrs_replace C i _ a _ _ v).
Qed.

(** ** kmem_cache_alloc *)

(** The bytes of the cache's slabs. *)
Definition owned (C : acache) (b : Z) : Prop :=
  exists a, a ∈ addrs (slabs C) /\ bytes_of a sbytes b.

(** What an operation on the cache may write, and where memory goes: no byte
    is lost or gained between the slabs and the free blocks. *)
Definition may_write (C : acache) (F : Z -> Prop) (b : Z) : Prop :=
  p + ca_slabs_partial <= b < p + ca_next \/ meta C b \/ F b.

Definition conserved (C : acache) (F : Z -> Prop) (C' : acache) (F' : Z -> Prop) : Prop :=
  forall b, F' b \/ owned C' b <-> F b \/ owned C b.

Lemma conserved_addrs C C' F :
  (forall a, a ∈ addrs (slabs C') <-> a ∈ addrs (slabs C)) -> conserved C F C' F.
Proof. intros Ha b. unfold owned. by setoid_rewrite Ha. Qed.

Lemma conserved_grown C F a F' :
  (forall b, bytes_of a sbytes b -> F b) ->
  (forall b, F' b <-> F b /\ ~ bytes_of a sbytes b) -> conserved C F (grown C a) F'.
Proof.
  intros Hin HF b. rewrite HF. unfold owned. setoid_rewrite addrs_grown.
  assert (bytes_of a sbytes b \/ ~ bytes_of a sbytes b) as Hd by (unfold bytes_of; lia).
  specialize (Hin b). split.
  - intros [[? _]|(x & [->|Hx] & Hb)]; [by left|left; auto|right; eauto].
  - intros [Hb|(x & Hx & Hb)]; [|right; exists x; auto].
    destruct Hd as [Hd|Hd]; [right; exists a; auto|by left].
Qed.

Lemma meta_owned m C b :
  cache_pre m C -> meta C b -> p + ca_slabs_partial <= b < p + ca_lock \/ owned C b.
Proof.
  intros Hp [?|(a & Ha & Hb)]; [by left|right]. exists a. split; [done|]. unfold bytes_of.
  destruct (nobj_fits Hok) as (_ & _ & Hs). destruct Hb as [?|Hb]; [unfold sizeof_slab in *; lia|].
  pose proof (body_range a b). unfold body in *. destruct (H0 (or_intror Hb)). lia.
Qed.

Lemma allocated_grown C a x : allocated (grown C a) x <-> allocated C x.
Proof.
  unfold allocated. setoid_rewrite slabs_grown. split.
  - intros (sl & [->|Hin]%elem_of_cons & Ho & Hn); [|eauto]. simpl in *. by rewrite elem_of_objs in Hn.
  - intros (sl & Hin & Ho). exists sl. split; [by constructor|done].
Qed.

Lemma meta_grown C a F b :
  (forall b, bytes_of a sbytes b -> F b) -> meta (grown C a) b -> meta C b \/ F b.
Proof.
  intros Hin [?|(x & Hx & Hb)]; [left; by left|]. apply addrs_grown in Hx as [->|Hx].
  - right. apply Hin. destruct (nobj_fits Hok) as (_ & _ & Hs). unfold bytes_of.
    destruct Hb as [?|Hb]; [unfold sizeof_slab in *; lia|].
    pose proof (body_range a b) as Hr. unfold body in Hr. destruct (Hr (or_intror Hb)). lia.
  - left. right. eauto.
Qed.

(** The heads of the lists, as [pick_slab] reads them. *)
Lemma wp_read_head s0 (s : slst) C F i (Q : Z -> slst -> Prop) :
  locked s0 s C F ->
  (C i = [] -> Q 0 s) -> (forall a fl v, C i = (a, fl) :: v -> 0 < a -> Q a s) ->
  wp (getf 8 p (off i)) Q s.
Proof.
  intros L H0 H1. pose proof p_range. apply wp_getf; [lia|].
  pose proof (cp_list _ _ (lo_pre _ _ _ _ L) i) as Hl. unfold dll_at, ld64 at 1 in Hl.
  set (q := ld 8 (mem_of s) (p + off i)) in *. clearbody q. destruct (C i) as [|[a fl] v] eqn:E; simpl in Hl.
  - rewrite Hl. by apply H0.
  - destruct Hl as (Ea & Ha & _). rewrite Ea. eapply H1; [done|lia].
Qed.

Lemma wp_pick_slab s0 (s : slst) C F (Q : option Z -> slst -> Prop) :
  hart_ok (hart_of s0) -> locked s0 s C F -> shape C ->
  (C LP = [] -> C LE = [] -> no_block (ba_block R) F ssz -> forall s', locked s0 s' C F ->
     modifies (fun b => meta C b \/ F b) (mem_of s) (mem_of s') -> Q None s') ->
  (forall s' C' F' i a fl v, locked s0 s' C' F' -> shape C' -> C' i = (a, fl) :: v -> 0 < a ->
     i <> LF -> conserved C F C' F' -> (forall x, allocated C' x <-> allocated C x) ->
     (forall b, meta C' b -> meta C b \/ F b) ->
     modifies (fun b => meta C b \/ F b) (mem_of s) (mem_of s') -> Q (Some a) s') ->
  wp (pick_slab p) Q s.
Proof.
  intros Hh L Hsh Hnone Hsome. unfold pick_slab. wp_step.
  assert (forall i a fl v, C i = (a, fl) :: v -> 0 < a -> i <> LF -> Q (Some a) s) as Hhere.
  { intros i a fl v Hi Ha Hne. eapply (Hsome s C F i); try done; auto with xv6. }
  apply (wp_read_head s0 s C F LP); [done| |].
  2: { intros a fl v Hi Ha. replace (a =? 0) with false by lia. cbn [negb]. wp_step. by eapply (Hhere LP). }
  intros Ep. rewrite Z.eqb_refl. cbn [negb]. wp_step. apply (wp_read_head s0 s C F LE); [done| |].
  2: { intros a fl v Hi Ha. replace (a =? 0) with false by lia. cbn [negb]. wp_step. by eapply (Hhere LE). }
  intros Ee. rewrite Z.eqb_refl. cbn [negb]. wp_step. apply (wp_grow s0 s C F); [done|done| |].
  { intros Hno s' L' Hm. change (-1 <? 0) with true. cbv iota. wp_step. by apply Hnone. }
  intros s' a F' L' Hm Hin HF'. change (0 <? 0) with false. cbv iota. wp_step.
  apply (wp_read_head s0 s' (grown C a) F' LE); [done| |].
  { unfold grown. by rewrite fn_lookup_insert. }
  intros a' fl v Hi Ha. wp_step. eapply (Hsome s' (grown C a) F' LE); try done.
  - apply shape_alt. intros k sl Hk. unfold grown in Hk. destruct (decide (k = LE)) as [->|Hk'].
    + rewrite fn_lookup_insert, Ee in Hk. apply list_elem_of_singleton in Hk as ->.
      unfold shape_of, is_empty. simpl. rewrite length_objs. destruct (nobj_fits Hok). lia.
    + rewrite fn_lookup_insert_ne in Hk by done. rewrite shape_alt in Hsh. by apply Hsh.
  - by apply conserved_grown.
  - intros x. apply allocated_grown.
  - intros b. by apply meta_grown.
Qed.

(** What a client sees of an operation on the cache. *)
Record cache_op (s s' : slst) (C : acache) (F : Z -> Prop) (C' : acache) (F' : Z -> Prop) : Prop := {
  op_inv : cache_inv s' C' F';
  op_hart : hart_same (hart_of s) (hart_of s');
  op_glob : sl_glob s' = sl_glob s;
  op_conserved : conserved C F C' F';
  op_mem : modifies (may_write C F) (mem_of s) (mem_of s')
}.

(** Releasing the lock at the end of an operation. *)
Lemma wp_finish s0 (s1 s : slst) C F C' F' Q :
  hart_ok (hart_of s0) -> locked s0 s C' F' -> shape C' -> conserved C F C' F' ->
  modifies lock_bytes (mem_of s0) (mem_of s1) ->
  modifies (fun b => meta C b \/ F b) (mem_of s1) (mem_of s) ->
  (forall s', cache_op s0 s' C F C' F' -> Q tt s') ->
  wp (release_at (p + ca_lock)) Q s.
Proof.
  intros Hh L Hs Hc Hm0 Hm HQ. apply (wp_release_cache s0 s C' F'); try done.
  intros s' HI Hhs Hg Hml. apply HQ. split; try done.
  assert (forall b, lock_bytes b -> may_write C F b) as Hlb.
  { intros b Hb. left. unfold lock_bytes, ca_slabs_partial, ca_lock, ca_next in *. lia. }
  eapply modifies_trans; [eapply modifies_weaken; [exact Hm0|exact Hlb]|].
  eapply modifies_trans; [|eapply modifies_weaken; [exact Hml|exact Hlb]].
  eapply modifies_weaken; [exact Hm|]. intros b. by right.
Qed.

Lemma wp_valid (s : slst) C Q :
  cache_pre (mem_of s) C -> Q false s -> wp (invalid_cache p) Q s.
Proof.
  intros Hp HQ. pose proof p_range. unfold invalid_cache. replace (p =? 0) with false by lia.
  wp_step. apply wp_getf; [lia|]. pose proof (cp_magic _ _ Hp) as E. unfold ld32 in E. rewrite E.
  rewrite Z.eqb_refl. wp_step. done.
Qed.

Lemma wp_kmem_cache_alloc (s : slst) C F (Q : Z -> slst -> Prop) :
  cache_inv s C F ->
  (forall s' C' F', cache_op s s' C F C' F' -> (forall x, allocated C' x <-> allocated C x) ->
     C LP = [] /\ C LE = [] /\ no_block (ba_block R) F ssz \/ nobj = 0 -> Q 0 s') ->
  (forall s' C' F' x, cache_op s s' C F C' F' -> ~ allocated C x ->
     (forall y, allocated C' y <-> allocated C y \/ y = x) -> Q (x + sizeof_object) s') ->
  wp (kmem_cache_alloc p) Q s.
Proof.
  intros HI Hnull Hobj. assert (hart_ok (hart_of s)) as Hh by exact (ba_hart _ _ _ (ci_ba _ _ _ HI)).
  pose proof p_range as Hpr. unfold kmem_cache_alloc.
  wp_step. apply (wp_valid s C); [apply HI|]. wp_step. apply (wp_acquire_cache s C F); [done|].
  intros s1 L1 Hm1. wp_step. apply (wp_pick_slab s s1 C F); [done|done|apply HI| |].
  { intros Ep Ee Hno s2 L2 Hm2. wp_step. apply (wp_finish s s1 s2 C F C F); try done; [apply HI|].
    intros s' Hop. wp_step. apply (Hnull s' C F Hop); [done|by left]. }
  intros s2 C2 F2 i a fl v L2 Hs2 Hi Ha Hne Hc2 Hal2 Hmeta2 Hm2.
  replace (a =? 0) with false by lia. wp_step. apply wp_getf; [lia|].
  assert ((a, fl) ∈ slabs C2) as Hin by (apply elem_of_slabs; exists i; rewrite Hi; constructor).
  pose proof (cp_slabs _ _ (lo_pre _ _ _ _ L2) _ Hin) as Hr.
  pose proof (sr_list _ _ Hr) as Hsl. simpl in Hsl. unfold ld64 at 1 in Hsl.
  set (q := ld 8 (mem_of s2) (a + sl_free_list)) in *. clearbody q. destruct fl as [|x fl].
  - simpl in Hsl. subst q. cbn [orb Z.eqb]. wp_step. apply wp_setf; [lia|]. set (m3 := st 4 _ _ 1).
    assert (modifies (meta C2) (mem_of s2) m3) as Hm3.
    { apply modifies_st32. intros b Hb. left. unfold ca_error_state, ca_slabs_partial, ca_lock in *. lia. }
    assert (locked s (set_mem m3 s2) C2 F2) as L3.
    { eapply locked_mem; [done|exact L2|exact Hm3| |done].
      eapply cache_pre_misc; [apply (lo_pre _ _ _ _ L2)|apply modifies_st|].
      unfold bytes_of, ca_error_state. lia. }
    wp_step. apply (wp_finish s s1 _ C F C2 F2); try done.
    + rewrite mem_of_set_mem. eapply modifies_trans; [exact Hm2|]. by eapply modifies_weaken.
    + intros s' Hop. wp_step. apply (Hnull s' C2 F2 Hop); [done|]. right.
      rewrite shape_alt in Hs2. specialize (Hs2 i (a, []) ltac:(rewrite Hi; constructor)).
      destruct i; [|done|]; unfold shape_of, is_partial, is_empty in Hs2; simpl in Hs2; lia.
  - destruct Hsl as (-> & Hx & _). replace (x =? 0) with false by lia. cbn [orb].
    destruct (allocated_pop _ _ i [] a x fl v x (lo_pre _ _ _ _ L2) Hi) as (Hnx & _ & _).
    wp_step. apply (wp_take_object s s2 C2 F2 i a x fl v); try done.
    intros s3 C3 L3 Hs3 Hm3 Hp3. wp_step. apply (wp_finish s s1 s3 C F C3 F2); try done.
    + intros b. rewrite <- (Hc2 b). revert b. apply conserved_addrs. intros y. split.
      * intros Hy%(addrs_perm _ _ y Hp3). by eapply (addrs_replace C2 i []).
      * intros Hy. unfold addrs in *. rewrite Hp3.
        destruct (slabs_replace C2 i [] _ (a, fl) v Hi) as (u' & v' & E & E').
        rewrite E in Hy. simpl in E'. rewrite E'. by rewrite fmap_app in Hy |- *.
    + eapply modifies_trans; [exact Hm2|]. by eapply modifies_weaken.
    + intros s' Hop. wp_step. apply (Hobj s' C3 F2 x Hop); [by rewrite <- Hal2|].
      intros y. rewrite (allocated_perm _ _ y Hp3), <- Hal2.
      by destruct (allocated_pop _ _ i [] a x fl v y (lo_pre _ _ _ _ L2) Hi) as (_ & _ & ?).
Qed.

(** ** kmem_cache_free *)

Lemma allocated_push m C i u a x fl v y :
  cache_pre m C -> C i = u ++ (a, fl) :: v -> is_obj a x ->
  allocated (<[i := u ++ (a, x :: fl) :: v]> C) y <-> allocated C y /\ y <> x.
Proof.
  intros Hp Hi Hx. rewrite allocated_replace by done.
  assert ((a, fl) ∈ slabs C) as Hin by (apply elem_of_slabs; exists i; rewrite Hi; set_solver).
  destruct (slabs_replace C i u (a, fl) (a, fl) v Hi) as (u0 & v0 & E0 & _). split.
  - intros (u' & v' & E & [(sl & Hs & Ho & Hn)|[Ho Hn]]).
    + assert (sl ∈ slabs C) as Hsl by (rewrite E; set_solver). split; [exists sl; auto|]. intros ->.
      assert (sl.1 = a) as Esl.
      { eapply (obj_slab m C _ _ x); try done; [by apply elem_addrs|by apply elem_addrs in Hin]. }
      destruct (cp_spaced _ _ Hp) as [Hnd _]. rewrite E in Hnd. unfold addrs in Hnd.
      rewrite fmap_app in Hnd. apply list.NoDup_app in Hnd as (_ & N1 & N2).
      apply list.NoDup_cons in N2 as [N2 _]. apply elem_of_app in Hs as [Hs|Hs].
      * apply (N1 sl.1); [by apply (elem_addrs sl u')|]. rewrite Esl. constructor.
      * apply N2. simpl. rewrite <- Esl. by apply (elem_addrs sl v').
    + split; [exists (a, fl); split; [done|]; split; [done|]; simpl; set_solver|set_solver].
  - intros [(sl & Hs & Ho & Hn) Hne]. exists u0, v0. split; [done|]. rewrite E0 in Hs.
    apply elem_of_app in Hs as [Hs|[->|Hs]%elem_of_cons]; [left|right|left]; try (exists sl; set_solver).
    simpl in *. set_solver.
Qed.

(** The two list moves after an object was returned. *)
Lemma wp_settle_put s0 (s : slst) C F i a fl Q :
  hart_ok (hart_of s0) -> locked s0 s C F -> a <> 0 -> shape_but C i (a, fl) ->
  i = LF /\ Z.of_nat (length fl) = 1 \/ i = LP /\ 1 < Z.of_nat (length fl) ->
  Z.of_nat (length fl) <= nobj ->
  (forall s' C', locked s0 s' C' F -> shape C' -> modifies (meta C) (mem_of s) (mem_of s') ->
     slabs C' ≡ₚ slabs C -> Q tt s') ->
  wp (nf ← getf 4 a sl_num_free;
      (if nf =? 1 then
         remove_slab_from_list (p + ca_slabs_full) a;;
         add_slab_to_list (p + ca_slabs_partial) a
       else mret tt);;
      nf ← getf 4 a sl_num_free;
      mx ← getf 4 a sl_num_objects_max;
      (if nf =? mx then
         remove_slab_from_list (p + ca_slabs_partial) a;;
         add_slab_to_list (p + ca_slabs_empty) a
       else mret tt)) Q s.
Proof.
  intros Hh L Ha Hs Hcase Hle HQ.
  destruct (locked_counts _ _ _ _ _ _ L (shape_but_in _ _ _ Hs)) as [E1 _].
  wp_step. apply wp_getf; [done|]. rewrite E1. wp_step.
  assert (forall s' C', locked s0 s' C' F -> shape_but C' LP (a, fl) ->
    modifies (meta C) (mem_of s) (mem_of s') -> slabs C' ≡ₚ slabs C ->
    wp (nf ← getf 4 a sl_num_free;
      mx ← getf 4 a sl_num_objects_max;
      (if nf =? mx then
         remove_slab_from_list (p + ca_slabs_partial) a;;
         add_slab_to_list (p + ca_slabs_empty) a
       else mret tt)) Q s') as Hrest.
  { intros s' C' L' Hs' Hm' Hp'.
    destruct (locked_counts _ _ _ _ _ _ L' (shape_but_in _ _ _ Hs')) as [E1' E2'].
    wp_step. apply wp_getf; [done|]. rewrite E1'. wp_step. apply wp_getf; [done|]. rewrite E2'.
    destruct (Z.eqb_spec (Z.of_nat (length fl)) nobj) as [E|E].
    - apply (wp_move_slab s0 s' C' F LP LE (a, fl)); try done. intros s2 C2 L2 Hs2 Hp2 Hm2.
      apply (HQ s2 C2); [done| | |by rewrite Hp2].
      + eapply shape_but_done; [exact Hs2|done].
      + eapply modifies_trans; [exact Hm'|]. by eapply meta_perm.
    - wp_step. apply (HQ s' C'); try done. eapply shape_but_done; [exact Hs'|].
      unfold shape_of, is_partial. simpl. destruct Hcase as [[_ ?]|[_ ?]]; lia. }
  destruct Hcase as [[-> Hl]|[-> Hl]].
  - replace (Z.of_nat (length fl) =? 1) with true by lia.
    apply (wp_move_slab s0 s C F LF LP (a, fl)); try done. intros s1 C1 L1 Hs1 Hp1 Hm1.
    by apply (Hrest s1 C1).
  - replace (Z.of_nat (length fl) =? 1) with false by lia. wp_step. apply (Hrest s C); auto with xv6.
Qed.

Lemma wp_put_object s0 (s : slst) C F i u a x fl v Q :
  hart_ok (hart_of s0) -> locked s0 s C F -> shape C -> C i = u ++ (a, fl) :: v ->
  is_obj a x -> x ∉ fl ->
  (forall s' C', locked s0 s' C' F -> shape C' -> modifies (meta C) (mem_of s) (mem_of s') ->
     slabs C' ≡ₚ slabs (<[i := u ++ (a, x :: fl) :: v]> C) -> Q tt s') ->
  wp (put_object p a x) Q s.
Proof.
  intros Hh L Hsh Hi Hx Hnx HQ. pose proof (lo_pre _ _ _ _ L) as Hp. pose proof p_range as Hpr.
  assert ((a, fl) ∈ C i) as Hci by (rewrite Hi; set_solver).
  assert ((a, fl) ∈ slabs C) as Hin by (apply elem_of_slabs; eauto).
  pose proof (cp_slabs _ _ Hp _ Hin) as Hr. pose proof (elem_addrs _ _ Hin) as Ha. simpl in Ha.
  destruct (cp_range _ _ _ Hp Ha) as [Ha1 Ha2]. destruct (nobj_fits Hok) as (Hn & _ & Hb).
  destruct (obj_range _ _ Hok Hx). slab_layout.
  destruct (slab_push _ _ _ _ Hr Ha1 Ha2 Hx Hnx) as [Hr1 Hm1].
  pose proof (free_length a (x :: fl) (sr_nodup _ _ Hr1) (sr_objs _ _ Hr1)) as Hlen.
  unfold put_object. wp_step. apply wp_getf; [lia|]. wp_step. apply wp_setf; [lia|].
  wp_step. apply wp_setf; [lia|]. wp_step. apply wp_addf; [lia|]. memnorm.
  match goal with |- wp _ _ (set_mem ?m _) => change m with (push_mem (mem_of s) a x) end.
  wp_step. apply wp_addf; [lia|]. memnorm.
  destruct (locked_update s0 s C F i u a fl (x :: fl) v _ Hh L Hi Hr1 Hm1) as [L2 Hmm].
  replace (Z.of_nat (length fl) - Z.of_nat (length (x :: fl))) with (-1) in L2, Hmm by (simpl; lia).
  eapply (wp_settle_put s0 _ _ F i a (x :: fl)); [done|exact L2|lia|by eapply shape_but_intro| |done|].
  { rewrite shape_alt in Hsh. specialize (Hsh _ _ Hci).
    destruct i; [right|left|exfalso]; unfold shape_of, is_partial, is_full, is_empty in Hsh; simpl in Hsh |- *.
    - split; [done|lia].
    - destruct Hsh as [-> _]. done.
    - apply Hnx. by apply (free_complete a fl x (sr_nodup _ _ Hr) (sr_objs _ _ Hr)). }
  intros s' C' L' Hs' Hm' Hp'. apply (HQ s' C'); try done.
  rewrite mem_of_set_mem in Hm'. eapply modifies_trans; [exact Hmm|].
  eapply modifies_weaken; [exact Hm'|]. intros b. apply meta_sub. intros y. by eapply (addrs_replace C i _ a _ _ v).
Qed.

Lemma addrs_replace_iff C i u a fl fl' v x :
  C i = u ++ (a, fl) :: v ->
  x ∈ addrs (slabs (<[i := u ++ (a, fl') :: v]> C)) <-> x ∈ addrs (slabs C).
Proof.
  intros Hi. destruct (slabs_replace C i u (a, fl) (a, fl') v Hi) as (u' & v' & -> & ->).
  unfold addrs. by rewrite !fmap_app.
Qed.

Lemma wp_kmem_cache_free (s : slst) C F x Q :
  cache_inv s C F -> allocated C x ->
  (forall s' C', cache_op s s' C F C' F ->
     (forall y, allocated C' y <-> allocated C y /\ y <> x) -> Q tt s') ->
  wp (kmem_cache_free p (x + sizeof_object)) Q s.
Proof.
  intros HI ([a fl] & Hin & Hx & Hnx) HQ. simpl in *.
  assert (hart_ok (hart_of s)) as Hh by exact (ba_hart _ _ _ (ci_ba _ _ _ HI)).
  pose proof p_range as Hpr. destruct (nobj_fits Hok) as (_ & _ & Hb).
  pose proof (elem_addrs _ _ Hin) as Ha. simpl in Ha.
  destruct (cp_range _ _ _ (ci_pre _ _ _ HI) Ha) as [Ha1 Ha2].
  destruct (obj_range _ _ Hok Hx). pose proof (co_osz Hok). slab_layout.
  unfold kmem_cache_free, sizeof_object. replace ((p =? 0) || (x + 16 =? 0)) with false by lia.
  wp_step. apply (wp_valid s C); [apply HI|]. wp_step. apply (wp_acquire_cache s C F); [done|].
  intros s1 L1 Hm1. replace (x + 16 - 16) with x by lia. pose proof (lo_pre _ _ _ _ L1) as Hp1.
  wp_step. apply wp_getf; [lia|].
  pose proof (sr_back _ _ (cp_slabs _ _ Hp1 _ Hin) x Hx Hnx) as Eb. simpl in Eb. unfold ld64 in Eb. rewrite Eb.
  replace (a =? 0) with false by lia. apply elem_of_slabs in Hin as (i & Hi).
  apply list_elem_of_split in Hi as (u & v & Hi).
  wp_step. apply (wp_put_object s s1 C F i u a x fl v); try done; [apply HI|].
  intros s2 C2 L2 Hs2 Hm2 Hp2. apply (wp_finish s s1 s2 C F C2 F); try done.
  - apply conserved_addrs. intros y. unfold addrs. rewrite Hp2. by eapply addrs_replace_iff.
  - eapply modifies_weaken; [exact Hm2|]. by left.
  - intros s' Hop. apply (HQ s' C2 Hop). intros y. rewrite (allocated_perm _ _ y Hp2).
    by apply (allocated_push (mem_of s1)).
Qed.

End Ok.

End Proof.
