(* ===== verification/SlabLife.v ===== *)
(** * The life of a cache: shrinking and destroying (kernel/slab.c)

    The operations that give slabs back to the block allocator, for caches
    without destructor (every cache the kernel creates for itself passes a
    null [dtor]).  A slab leaves its list before its block is freed and
    before [num_slabs] is updated; the [pend] and [lost] parameters of
    [cache_pre] describe the states in between. *)

From Stdlib Require Import ZArith Lia Bool String.
From stdpp Require Import base gmap list strings functions.
From S2P Require Import Prelude Mem MemList Spinlock Buddy BlockAlloc Slab SlabProof.

Section Life.
Context {S : Type} `{BA : BlockAllocator S}.
Context (R : ba_region) (p osz ssz : Z) (Hok : cache_ok R p osz ssz).
Context (call_dtor : Z -> Z -> M (slst S) unit).

Notation slst := (slst S).
Notation acache := (lid -> list (Z * list Z)).
Notation cache_pre := (cache_pre R p osz ssz).
Notation locked := (locked R p osz ssz).
Notation nobj := (nobj osz ssz).
Notation sbytes := (sbytes ssz).
Notation meta := (meta p osz ssz).

Ltac memnorm := rewrite ?mem_of_set_mem, ?set_mem_set_mem.

Definition no_dtor (s : slst) : Prop := ld64 (mem_of s) (p + ca_dtor) = 0.

(** ** Dropping the first slab of a list *)

Lemma slabs_drop (C : acache) i sl v :
  C i = sl :: v -> sl :: slabs (<[i := v]> C) ≡ₚ slabs C.
Proof.
  intros Hi. unfold slabs. apply (Permutation_count_occ (fun x y => decide (x = y))). intros x.
  destruct i; rewrite ?fn_lookup_insert, ?fn_lookup_insert_ne by done;
    rewrite Hi; cbn [count_occ app]; rewrite !count_occ_app; cbn [count_occ]; repeat case_decide; rewrite ?count_occ_app; lia.
Qed.

Lemma addrs_drop (C : acache) i sl v a :
  C i = sl :: v -> a ∈ addrs (slabs (<[i := v]> C)) -> a ∈ addrs (slabs C).
Proof. intros Hi Ha. unfold addrs in *. rewrite <- (slabs_drop C i sl v Hi). by constructor. Qed.

Lemma drop_fresh k l m (C : acache) i sl v a :
  cache_pre k l m C -> C i = sl :: v -> a ∈ addrs (slabs (<[i := v]> C)) -> a <> sl.1.
Proof.
  intros Hp Hi Ha ->. destruct (cp_spaced _ _ _ _ _ _ _ _ Hp) as [Hnd _].
  unfold addrs in *. rewrite <- (slabs_drop C i sl v Hi) in Hnd. simpl in Hnd.
  by apply list.NoDup_cons in Hnd as [? _].
Qed.

Lemma cache_pre_drop W k l m m' (C : acache) i a fl v :
  cache_pre k l m C -> C i = (a, fl) :: v -> modifies W m m' ->
  (forall b, W b -> lnk (p + off i) (addrs (C i)) b \/
     (~ (p <= b < p + 4096) /\
      forall x, x ∈ addrs (slabs (<[i := v]> C)) -> ~ (x <= b < x + sbytes))) ->
  dll_at m' (p + off i) (addrs v) ->
  cache_pre (k + 1) (l + (nobj - Z.of_nat (length fl))) m' (<[i := v]> C).
Proof.
  intros Hp Hi HM HW Hd. destruct (nobj_fits R p osz ssz Hok) as (_ & _ & Hb).
  pose proof (fun x => addrs_drop C i (a, fl) v x Hi) as Hsub.
  pose proof (slabs_drop C i (a, fl) v Hi) as Hperm. pose proof (off_range i) as Hoi.
  assert (forall x b, x ∈ addrs (slabs (<[i := v]> C)) -> W b -> ~ (x + 16 <= b < x + sbytes)) as Hbody.
  { intros x b Hx Hw Hxb. destruct (HW b Hw) as [[?|(y & Hy & Hyb)]|[_ Hw']];
      [|destruct (decide (y = x)) as [->|Hne]; [lia|]|apply (Hw' x Hx); lia].
    - destruct (cp_apart _ _ _ _ _ _ _ _ Hp x) as [?|?]; [by apply Hsub|lia|lia].
    - destruct (cp_spaced _ _ _ _ _ _ _ _ Hp) as [_ Hsp]. apply (addr_slabs C i) in Hy.
      destruct (Hsp x y (Hsub x Hx) Hy ltac:(congruence)); lia. }
  assert (forall n o, 0 <= o -> o + Z.of_nat n <= 72 \/ 96 <= o /\ o + Z.of_nat n <= 4096 ->
            ld n m' (p + o) = ld n m (p + o)) as Hld.
  { intros n o Ho1 Ho2. apply (ld_modifies W); [done|]. intros b Hbb Hw.
    destruct (HW b Hw) as [[?|(y & Hy & Hyb)]|[Hw' _]]; [lia| |apply Hw'; lia].
    destruct (cp_apart _ _ _ _ _ _ _ _ Hp y) as [?|?]; [by apply (addr_slabs C i)|lia|lia]. }
  pose proof Hp as [P1 P2 P3 P4 P5 P6 P7 P8 P9 P10].
  split; unfold ld64, ld32 in *; rewrite ?Hld by (unfold ca_object_size, ca_aligned_size, ca_slab_size,
    ca_error_detection, ca_num_slabs, ca_num_allocated; lia); try done.
  - intros j. destruct (decide (j = i)) as [->|Hj]; [by rewrite fn_lookup_insert|].
    rewrite fn_lookup_insert_ne by done. eapply dll_at_modifies; [exact HM| |apply P5].
    intros b Hb1 Hw. pose proof (off_range j). destruct (HW b Hw) as [Hb2|[Hw1 Hw2]].
    + by eapply (lnk_disj R p osz ssz k l Hok m C j i).
    + destruct Hb1 as [?|(x & Hx & Hxb)]; [apply Hw1; lia|]. apply (Hw2 x); [|lia].
      apply (addr_slabs _ j). by rewrite fn_lookup_insert_ne.
  - rewrite P6, <- Hperm. simpl length. f_equal. lia.
  - rewrite P7. rewrite <- (allocated_count_perm osz ssz _ _ Hperm). unfold allocated_count.
    cbn [foldr snd]. f_equal. lia.
  - intros sl Hsl. eapply (slab_rep_modifies R p osz ssz Hok W); [done| |apply P8; rewrite <- Hperm; by constructor].
    intros b Hbb Hw. eapply Hbody; [by apply elem_addrs|done|done].
  - apply (spaced_sub _ _ _ P9); [|done]. destruct P9 as [Hnd _]. unfold addrs in *.
    rewrite <- Hperm in Hnd. by apply list.NoDup_cons in Hnd as [_ ?].
  - intros x Hx. apply P10. auto.
Qed.

Lemma shape_drop (C : acache) i sl v :
  shape osz ssz C -> C i = sl :: v -> shape osz ssz (<[i := v]> C).
Proof.
  intros Hs Hi. rewrite shape_alt in Hs |- *. intros k x Hx. destruct (decide (k = i)) as [->|Hk].
  - rewrite fn_lookup_insert in Hx. apply Hs. rewrite Hi. by constructor.
  - rewrite fn_lookup_insert_ne in Hx by done. by apply Hs.
Qed.

Lemma wp_drop_slab k l s0 (s : slst) (C : acache) F i a fl v Q :
  hart_ok (hart_of s0) -> locked k l s0 s C F -> no_dtor s -> C i = (a, fl) :: v ->
  (forall s' F', locked (k + 1) (l + (nobj - Z.of_nat (length fl))) s0 s' (<[i := v]> C) F' ->
     no_dtor s' -> (forall b, F' b <-> F b \/ bytes_of a sbytes b) ->
     modifies (fun b => meta C b \/ F b \/ bytes_of a sbytes b) (mem_of s) (mem_of s') -> Q tt s') ->
  wp (remove_slab_from_list (p + off i) a;; kmem_slab_destroy call_dtor p a) Q s.
Proof.
  intros Hh L Hdt Hi HQ. pose proof (lo_pre _ _ _ _ _ _ _ _ _ _ L) as Hp.
  pose proof (p_range R p osz ssz Hok) as Hpr. pose proof (off_range i) as Hoi.
  destruct (nobj_fits R p osz ssz Hok) as (_ & _ & Hb).
  pose proof (lo_out _ _ _ _ _ _ _ _ _ _ L) as [Ho1 Ho2].
  assert ((a, fl) ∈ slabs C) as Hin by (apply elem_of_slabs; exists i; rewrite Hi; constructor).
  pose proof (elem_addrs _ _ Hin) as Ha. simpl in Ha.
  destruct (cp_range R p osz ssz _ _ Hok _ _ _ Hp Ha) as [Ha1 Ha2].
  pose proof (cp_slabs _ _ _ _ _ _ _ _ Hp _ Hin) as Hr.
  pose proof (cp_list _ _ _ _ _ _ _ _ Hp i) as Hl. pose proof (list_spaced R p osz ssz _ _ Hok _ _ i Hp) as Hsp.
  pose proof (cp_apart _ _ _ _ _ _ _ _ Hp a Ha) as Hap.
  assert (addrs (C i) = a :: addrs v) as Ei by (by rewrite Hi).
  wp_step. apply (wp_remove_slab _ [] a (addrs v)); cbn [app]; rewrite <- ?Ei; [done|lia|done| |].
  { intros x Hx. apply (head_apart R p osz ssz k l Hok (mem_of s) C); [done|]. by apply (addr_slabs C i). }
  intros m1 Hl1 Hm1.
  assert (forall b, lnk (p + off i) (addrs (C i)) b -> meta C b) as Hlm.
  { intros b [?|(x & Hx & Hxb)]; [left; unfold ca_slabs_partial, ca_lock; lia|right]. exists x.
    split; [by apply (addr_slabs C i)|left; unfold sizeof_slab; lia]. }
  assert (forall b, lnk (p + off i) (addrs (C i)) b -> ~ (a + 16 <= b < a + sbytes)) as Hla.
  { intros b [?|(x & Hx & Hxb)]; [lia|]. destruct (decide (x = a)) as [->|Hne]; [lia|].
    destruct (cp_spaced _ _ _ _ _ _ _ _ Hp) as [_ Hsp']. apply (addr_slabs C i) in Hx.
    destruct (Hsp' x a Hx Ha Hne); lia. }
  assert (forall n o, 0 <= o -> o + Z.of_nat n <= 72 \/ 96 <= o /\ o + Z.of_nat n <= 4096 ->
            ld n m1 (p + o) = ld n (mem_of s) (p + o)) as Hldp.
  { intros n o Hoo1 Hoo2. apply (ld_modifies _ _ _ _ _ Hm1). intros b Hbb [?|(x & Hx & Hxb)]; [lia|].
    destruct (cp_apart _ _ _ _ _ _ _ _ Hp x) as [?|?]; [by apply (addr_slabs C i)|lia|lia]. }
  set (s1 := set_mem m1 s).
  assert (ba_inv R F (sl_base s1)) as Hb1.
  { eapply ba_client; [apply L|apply sl_base_set_mem| |].
    - unfold s1. rewrite hart_of_set_mem. apply (hart_ok_proper _ _ (lo_hart _ _ _ _ _ _ _ _ _ _ L)).
      by apply push_off_ok.
    - unfold s1. rewrite mem_of_set_mem. eapply modifies_weaken; [exact Hm1|]. intros b Hbb.
      eapply (meta_outside R p osz ssz k l Hok); [exact Hp|apply L|by apply Hlm]. }
  unfold kmem_slab_destroy. replace (a =? 0) with false by lia.
  unfold no_dtor, ld64 in Hdt.
  wp_step. apply wp_getf; [lia|]. unfold s1. memnorm. rewrite (Hldp 8%nat), Hdt by (unfold ca_dtor; lia).
  rewrite Z.eqb_refl. cbn [negb]. wp_step. wp_step. wp_step. apply wp_getf; [lia|]. memnorm.
  rewrite (ld_modifies _ 8 _ _ _ Hm1) by (intros b Hbb Hw; apply (Hla b Hw); unfold sl_mem in *; lia).
  pose proof (sr_mem _ _ _ _ _ _ Hr) as Em. simpl in Em. unfold ld64 in Em. rewrite Em.
  wp_step. apply wp_getf; [lia|]. memnorm. rewrite (Hldp 4%nat) by (unfold ca_slab_size; lia).
  pose proof (cp_ssz _ _ _ _ _ _ _ _ Hp) as Es. unfold ld32 in Es. rewrite Es.
  rewrite (s32_ssz R p osz ssz Hok). pose proof (ssz_range R p osz ssz Hok) as Hss.
  fold s1. apply wp_zoom. eapply wp_mono;
    [apply (ba_free_spec R F (sl_base s1) a ssz); [done|lia|apply (sr_block _ _ _ _ _ _ Hr)|]|];
    rewrite (block_bytes_ssz ssz) by (eapply slab_size_cases, Hok).
  { intros b Hbb HF. by apply (Ho2 a b Ha HF). }
  intros [] b' (Hsame & Hm2 & F' & HB' & HF'). set (s2 := set_base b' s1).
  change (mem_of (sl_base s1)) with (mem_of s1) in Hm2. change (mem_of b') with (mem_of s2) in Hm2.
  change (hart_of (sl_base s1)) with (hart_of s1) in Hsame. change (hart_of b') with (hart_of s2) in Hsame.
  assert (mem_of s1 = m1) as Em1 by (unfold s1; by rewrite mem_of_set_mem). rewrite Em1 in Hm2.
  assert (forall b, F b \/ bytes_of a sbytes b -> ~ (p <= b < p + 4096)) as Hfar.
  { intros b [HF|Hbb]; [by apply Ho1|unfold bytes_of in Hbb; lia]. }
  assert (forall x, x ∈ addrs (slabs (<[i := v]> C)) -> a + sbytes <= x \/ x + sbytes <= a) as Hsepx.
  { intros x Hx. pose proof (drop_fresh k l _ _ _ _ _ _ Hp Hi Hx). simpl in *.
    destruct (cp_spaced _ _ _ _ _ _ _ _ Hp) as [_ Hsp']. apply Hsp'; [done|by eapply addrs_drop|congruence]. }
  assert (forall n o, 0 <= o -> o + Z.of_nat n <= 4096 -> ld n (mem_of s2) (p + o) = ld n m1 (p + o)) as Hldp2.
  { intros n o Hoo1 Hoo2. apply (ld_modifies _ _ _ _ _ Hm2). intros b Hbb Hw. apply (Hfar b Hw). lia. }
  apply (HQ s2 F'); [| |done|].
  - destruct L as [L1 L2 L3 L4 L5 L6 L7].
    split; try done; unfold ld32, ld64, ca_lock in *; rewrite ?Hldp2, ?Hldp by lia; try done.
    + eapply (cache_pre_drop (fun b => lnk (p + off i) (addrs (C i)) b \/ F b \/ bytes_of a sbytes b));
        [exact Hp|exact Hi| | |].
      * eapply modifies_trans; (eapply modifies_weaken; [eassumption|]); intros b Hbb; [by left|by right].
      * intros b [Hbb|Hbb]; [by left|right]. split; [by apply Hfar|]. intros x Hx Hxb.
        destruct Hbb as [HF|Hbb]; [by eapply (Ho2 x b); [eapply addrs_drop|..]|].
        unfold bytes_of in Hbb. destruct (Hsepx x Hx); lia.
      * eapply dll_at_modifies; [exact Hm2| |exact Hl1]. intros b [?|(x & Hx & Hxb)] Hw.
        { apply (Hfar b Hw). lia. }
        assert (x ∈ addrs (slabs (<[i := v]> C))) as Hx'.
        { apply (addr_slabs _ i). by rewrite fn_lookup_insert. }
        destruct Hw as [HF|Hbb]; [eapply (Ho2 x b); [by eapply addrs_drop|done|lia]|].
        unfold bytes_of in Hbb. destruct (Hsepx x Hx'); lia.
    + split; [intros b HF; apply HF' in HF; by apply Hfar|]. intros x b Hx HF Hxb. apply HF' in HF as [HF|Hbb].
      * by eapply (Ho2 x b); [eapply addrs_drop|..].
      * unfold bytes_of in Hbb. destruct (Hsepx x Hx); lia.
    + rewrite <- Hsame. unfold s1. by rewrite hart_of_set_mem.
    + rewrite <- !Z.add_assoc. rewrite Hldp2, Hldp by lia. by rewrite !Z.add_assoc.
  - unfold no_dtor, ld64. rewrite Hldp2, Hldp by (unfold ca_dtor; lia). done.
  - eapply modifies_trans; (eapply modifies_weaken; [eassumption|]); intros b Hbb; [left; by apply Hlm|tauto].
Qed.

(** ** kmem_cache_shrink *)

(** [cachep->num_slabs--] settles one pending slab. *)
Lemma locked_count k l s0 (s : slst) (C : acache) F :
  hart_ok (hart_of s0) -> locked (k + 1) l s0 s C F ->
  let m' := st32 (mem_of s) (p + ca_num_slabs) (ld32 (mem_of s) (p + ca_num_slabs) + -1) in
  locked k l s0 (set_mem m' s) C F /\ modifies (meta C) (mem_of s) m'.
Proof.
  intros Hh L m'. pose proof (lo_pre _ _ _ _ _ _ _ _ _ _ L) as Hp.
  assert (modifies (bytes_of (p + 96) 4) (mem_of s) m') as Hm by (apply (modifies_st 4)).
  destruct (nobj_fits R p osz ssz Hok) as (_ & _ & Hb).
  assert (modifies (meta C) (mem_of s) m') as Hmm.
  { eapply modifies_weaken; [exact Hm|]. intros b Hbb. left. unfold bytes_of, ca_slabs_partial, ca_lock in *. lia. }
  split; [|done].
  assert (cache_pre k l m' C) as Hp'.
  { assert (forall n o, 0 <= o -> o + Z.of_nat n <= 96 \/ 100 <= o -> ld n m' (p + o) = ld n (mem_of s) (p + o)) as Hld.
    { intros n o Ho1 Ho2. apply (ld_modifies _ _ _ _ _ Hm). unfold bytes_of. lia. }
    pose proof Hp as [P1 P2 P3 P4 P5 P6 P7 P8 P9 P10].
    split; unfold ld64, ld32 in *; rewrite ?Hld by (unfold ca_object_size, ca_aligned_size, ca_slab_size,
      ca_error_detection, ca_num_allocated; lia); try done.
    - intros i. eapply dll_at_modifies; [exact Hm| |apply P5]. pose proof (off_range i). unfold bytes_of.
      intros b [?|(x & Hx & Hxb)]; [lia|]. destruct (P10 x) as [?|?]; [by apply (addr_slabs C i)|lia|lia].
    - unfold m'. change (ld 4 (st32 ?m ?a ?x) ?a) with (ld32 (st32 m a x) a). rewrite ld32_st32_mod.
      unfold ld32. rewrite P6. unfold u32. rewrite Zplus_mod_idemp_l. f_equal. lia.
    - intros sl Hsl. eapply (slab_rep_modifies R p osz ssz Hok); [exact Hm| |by apply P8].
      intros b Hbb. unfold bytes_of. destruct (P10 sl.1) as [?|?]; [by apply elem_addrs|lia|lia]. }
  destruct L as [L1 L2 L3 L4 L5 L6 L7].
  split; rewrite ?mem_of_set_mem, ?hart_of_set_mem; try done.
  - eapply ba_client; [exact L3|apply sl_base_set_mem| |].
    + rewrite hart_of_set_mem. apply (hart_ok_proper _ _ L4). by apply push_off_ok.
    + rewrite mem_of_set_mem. eapply modifies_weaken; [exact Hmm|]. intros b Hbb.
      by eapply (meta_outside R p osz ssz (k + 1) l Hok).
  - rewrite (ld32_modifies _ _ _ _ Hm); [done|]. unfold bytes_of, ca_lock. lia.
  - rewrite (ld64_modifies _ _ _ _ Hm); [done|]. unfold bytes_of, ca_lock. lia.
Qed.

(** The bytes of the slabs in list [i]. *)
Definition list_bytes (C : acache) (i : lid) (b : Z) : Prop :=
  exists a, a ∈ addrs (C i) /\ bytes_of a sbytes b.

Lemma s32_add_l x y : s32 (s32 x + y) = s32 (x + y).
Proof.
  unfold s32. f_equal.
  replace ((x + 2 ^ 31) mod 2 ^ 32 - 2 ^ 31 + y + 2 ^ 31) with ((x + 2 ^ 31) mod 2 ^ 32 + y) by lia.
  rewrite Zplus_mod_idemp_l. f_equal. lia.
Qed.

Lemma s32_s32 x : s32 (s32 x) = s32 x.
Proof. pose proof (s32_add_l x 0) as E. by rewrite !Z.add_0_r in E. Qed.

Lemma meta_drop (C : acache) i sl v b : C i = sl :: v -> meta (<[i := v]> C) b -> meta C b.
Proof. intros Hi. apply meta_sub. intros a. by eapply addrs_drop. Qed.

(** One round of the loop: unlink, free, count. *)
Lemma wp_shrink_round s0 (s : slst) (C : acache) F a fl v Q :
  hart_ok (hart_of s0) -> locked 0 0 s0 s C F -> shape osz ssz C -> no_dtor s -> C LE = (a, fl) :: v ->
  (forall s' F', locked 0 0 s0 s' (<[LE := v]> C) F' -> shape osz ssz (<[LE := v]> C) -> no_dtor s' ->
     (forall b, F' b <-> F b \/ bytes_of a sbytes b) ->
     modifies (fun b => meta C b \/ F b \/ bytes_of a sbytes b) (mem_of s) (mem_of s') -> Q tt s') ->
  wp (remove_slab_from_list (p + ca_slabs_empty) a;; kmem_slab_destroy call_dtor p a;;
      addf p ca_num_slabs (-1)) Q s.
Proof.
  intros Hh L Hsh Hdt Hi HQ. pose proof (p_range R p osz ssz Hok) as Hpr.
  apply wp_assoc. wp_step. eapply (wp_drop_slab 0 0 s0 s C F LE a fl v); try done.
  intros s1 F1 L1 Hdt1 HF1 Hm1.
  assert (Z.of_nat (length fl) = nobj) as Hl.
  { rewrite shape_alt in Hsh. apply (Hsh LE (a, fl)). rewrite Hi. constructor. }
  rewrite Hl, Z.sub_diag in L1. destruct (locked_count 0 0 s0 s1 _ F1 Hh L1) as [L2 Hm2].
  apply wp_addf; [lia|]. apply (HQ _ F1); [exact L2|by eapply shape_drop| |done|].
  - unfold no_dtor. rewrite mem_of_set_mem, <- Hdt1. apply (ld64_modifies (bytes_of (p + 96) 4)).
    + apply (modifies_st 4).
    + unfold bytes_of, ca_dtor. lia.
  - rewrite mem_of_set_mem. eapply modifies_trans; [exact Hm1|].
    eapply modifies_weaken; [exact Hm2|]. intros b Hbb. left. by eapply meta_drop.
Qed.

Lemma wp_shrink_loop s0 fuel (s : slst) (C : acache) F slab freed (Q : Z -> slst -> Prop) :
  hart_ok (hart_of s0) -> locked 0 0 s0 s C F -> shape osz ssz C -> no_dtor s ->
  (length (C LE) < fuel)%nat -> s32 freed = freed ->
  slab = match C LE with [] => 0 | sl :: _ => sl.1 end ->
  (forall s' C' F', locked 0 0 s0 s' C' F' -> shape osz ssz C' ->
     C' LE = [] -> C' LP = C LP -> C' LF = C LF ->
     (forall b, F' b <-> F b \/ list_bytes C LE b) ->
     modifies (fun b => meta C b \/ F b \/ list_bytes C LE b) (mem_of s) (mem_of s') ->
     Q (s32 (freed + ssz * Z.of_nat (length (C LE)))) s') ->
  wp (shrink_loop call_dtor fuel p slab freed) Q s.
Proof.
  revert s C F slab freed. induction fuel as [|f IH]; intros s C F slab freed Hh L Hsh Hdt Hf Hfr Hsl HQ; [lia|].
  pose proof (p_range R p osz ssz Hok) as Hpr. pose proof (lo_pre _ _ _ _ _ _ _ _ _ _ L) as Hp.
  cbn [shrink_loop]. destruct (C LE) as [|[a fl] v] eqn:Ee; simpl in Hsl; subst slab.
  { rewrite Z.eqb_refl. wp_step. replace freed with (s32 (freed + ssz * Z.of_nat 0))
      by (rewrite Z.mul_0_r, Z.add_0_r; done).
    apply (HQ s C F); try done. intros b. split; [by left|].
    intros [?|(a & Ha & _)]; [done|]. rewrite Ee in Ha. by apply elem_of_nil in Ha. }
  assert (a ∈ addrs (slabs C)) as Ha by (apply (addr_slabs C LE); rewrite Ee; constructor).
  destruct (cp_range R p osz ssz _ _ Hok _ _ _ Hp Ha) as [Ha1 _].
  replace (a =? 0) with false by lia. wp_step. apply wp_getf; [lia|].
  pose proof (cp_list _ _ _ _ _ _ _ _ Hp LE) as Hl. rewrite Ee in Hl.
  destruct (dll_mid _ _ _ [] _ _ Hl) as (_ & _ & Hnext & _). unfold ld64 in Hnext.
  unfold sl_next. rewrite Z.add_0_r. set (nx := ld 8 (mem_of s) a) in *.
  wp_step. apply wp_getf; [lia|]. pose proof (cp_ssz _ _ _ _ _ _ _ _ Hp) as Es. unfold ld32 in Es.
  rewrite Es, (s32_ssz R p osz ssz Hok). cbv zeta.
  apply wp_seq3. eapply (wp_shrink_round s0 s C F a fl v); try done.
  intros s1 F1 L1 Hsh1 Hdt1 HF1 Hm1.
  apply (IH s1 (<[LE := v]> C) F1); try done; rewrite ?fn_lookup_insert.
  - simpl in Hf. lia.
  - by rewrite s32_s32.
  - destruct v as [|[a' fl'] v]; simpl in Hnext; [done|]. by destruct Hnext as (? & _).
  - intros s2 C2 F2 L2 Hsh2 HE HP HF HF2 Hm2. rewrite fn_lookup_insert_ne in HP, HF by done.
    assert (forall b, list_bytes C LE b <-> bytes_of a sbytes b \/ list_bytes (<[LE := v]> C) LE b) as Hlb.
    { intros b. unfold list_bytes. rewrite fn_lookup_insert, Ee. unfold addrs. rewrite fmap_cons.
      setoid_rewrite elem_of_cons. split; [intros (x & [->|Hx] & Hb); eauto|].
      intros [Hb|(x & Hx & Hb)]; eauto. }
    replace (s32 (s32 (freed + ssz) + ssz * Z.of_nat (length v)))
      with (s32 (freed + ssz * Z.of_nat (length ((a, fl) :: v))))
      by (rewrite s32_add_l; f_equal; simpl length; lia).
    apply (HQ s2 C2 F2); try done.
    + intros b. rewrite HF2, HF1, Hlb. tauto.
    + eapply modifies_trans; (eapply modifies_weaken; [eassumption|]); intros b; rewrite Hlb; [tauto|].
      rewrite HF1. intros [Hb|[[?|?]|?]]; auto. left. by eapply meta_drop.
Qed.

Lemma lock_may_write C F b : lock_bytes p b -> may_write p osz ssz C F b.
Proof. intros Hb. left. unfold lock_bytes, ca_slabs_partial, ca_lock, ca_next in *. lia. Qed.

(** A write to the descriptor outside the fields of the invariant. *)
Lemma locked_misc s0 (s : slst) (C : acache) F n o v :
  hart_ok (hart_of s0) -> locked 0 0 s0 s C F -> 104 <= o -> o + Z.of_nat n <= ca_lock ->
  locked 0 0 s0 (set_mem (st n (mem_of s) (p + o) v) s) C F /\
  modifies (meta C) (mem_of s) (st n (mem_of s) (p + o) v).
Proof.
  intros Hh L Ho1 Ho2. pose proof (modifies_st n (mem_of s) (p + o) v) as Hm.
  assert (modifies (meta C) (mem_of s) (st n (mem_of s) (p + o) v)) as Hmm.
  { eapply modifies_weaken; [exact Hm|]. intros b Hb. left. unfold bytes_of, ca_slabs_partial in *. lia. }
  split; [|done]. eapply locked_mem; [done|done|exact L|exact Hmm| |done].
  eapply cache_pre_misc; [done|apply L|exact Hm|]. intros b Hb. unfold bytes_of, ca_slabs_partial, ca_lock in *. lia.
Qed.

(** Has the cache grown since it was last shrunk? *)
Definition grown_since (s : slst) : bool :=
  ld32 (mem_of s) (p + ca_num_grown) >? ld32 (mem_of s) (p + ca_last_shrink_state).

Lemma grown_since_lock (s s' : slst) :
  modifies (lock_bytes p) (mem_of s) (mem_of s') -> grown_since s' = grown_since s.
Proof.
  intros Hm. unfold grown_since. f_equal; apply (ld32_modifies _ _ _ _ Hm);
    unfold lock_bytes, ca_num_grown, ca_last_shrink_state, ca_lock, ca_next; lia.
Qed.

(** What [kmem_cache_shrink] does to the abstract cache. *)
Definition shrink_post (s : slst) (C : acache) (r : Z) (s' : slst) (C' : acache) : Prop :=
  if grown_since s then r = 0 /\ C' = C /\ grown_since s' = false
  else C' LE = [] /\ C' LP = C LP /\ C' LF = C LF /\
       r = s32 (ssz * Z.of_nat (length (C LE))).

Lemma conserved_shrunk (C C' : acache) F F' :
  C' LE = [] -> C' LP = C LP -> C' LF = C LF ->
  (forall b, F' b <-> F b \/ list_bytes C LE b) -> conserved ssz C F C' F'.
Proof.
  intros HE HP HF HF' b. rewrite HF'. unfold owned, list_bytes.
  assert (forall a, a ∈ addrs (slabs C) <-> a ∈ addrs (slabs C') \/ a ∈ addrs (C LE)) as Ha.
  { intros a. unfold slabs, addrs. rewrite HE, HP, HF, !fmap_app, !elem_of_app. simpl.
    rewrite elem_of_nil. tauto. }
  setoid_rewrite Ha. split.
  - intros [[?|(a & Hin & Hb)]|(a & Hin & Hb)]; eauto 6.
  - intros [?|(a & [Hin|Hin] & Hb)]; eauto 6.
Qed.

Lemma allocated_shrunk (C C' : acache) x :
  shape osz ssz C -> C' LE = [] -> C' LP = C LP -> C' LF = C LF ->
  (forall sl, sl ∈ slabs C -> NoDup sl.2 /\ forall y, y ∈ sl.2 -> is_obj osz ssz sl.1 y) ->
  allocated osz ssz C' x <-> allocated osz ssz C x.
Proof.
  intros Hs HE HP HF Hok'. unfold allocated, slabs. rewrite HE, HP, HF, app_nil_r. split.
  - intros (sl & Hin & Ho). exists sl. split; [set_solver|done].
  - intros (sl & Hin & Ho & Hn). apply elem_of_app in Hin as [Hin|[Hin|Hin]%elem_of_app];
      [exists sl; set_solver..|]. exfalso. apply Hn.
    destruct (Hok' sl) as [Hnd Hobj]; [apply elem_of_slabs; eauto|].
    rewrite shape_alt in Hs.
    apply (free_complete R p osz ssz Hok sl.1); try done. by apply (Hs LE sl).
Qed.

Lemma wp_kmem_cache_shrink (s : slst) (C : acache) F (Q : Z -> slst -> Prop) :
  cache_inv R p osz ssz 0 0 s C F -> no_dtor s -> Z.of_nat (length (slabs C)) < 2 ^ 32 ->
  (forall s' C' F' r, cache_inv R p osz ssz 0 0 s' C' F' -> hart_same (hart_of s) (hart_of s') ->
     sl_glob s' = sl_glob s -> conserved ssz C F C' F' ->
     (forall x, allocated osz ssz C' x <-> allocated osz ssz C x) ->
     modifies (fun b => may_write p osz ssz C F b \/ list_bytes C LE b) (mem_of s) (mem_of s') ->
     shrink_post s C r s' C' -> Q r s') ->
  wp (kmem_cache_shrink call_dtor p) Q s.
Proof.
  intros HI Hdt Hlen HQ. assert (hart_ok (hart_of s)) as Hh by exact (ba_hart _ _ _ (ci_ba _ _ _ _ _ _ _ _ _ HI)).
  pose proof (p_range R p osz ssz Hok) as Hpr. unfold kmem_cache_shrink.
  wp_step. apply (wp_valid R p osz ssz 0 0 Hok s C); [apply HI|].
  wp_step. apply (wp_acquire_cache R p osz ssz 0 0 Hok s C F); [done|]. intros s1 L1 Hm1.
  pose proof (grown_since_lock s s1 Hm1) as Hg.
  assert (forall W s', modifies W (mem_of s1) (mem_of s') ->
     (forall b, W b -> may_write p osz ssz C F b \/ list_bytes C LE b) ->
     modifies (fun b => may_write p osz ssz C F b \/ list_bytes C LE b) (mem_of s) (mem_of s')) as Hmods.
  { intros W s' Hm HW. eapply modifies_trans; (eapply modifies_weaken; [eassumption|]); [|exact HW].
    intros b Hb. left. by apply lock_may_write. }
  wp_step. apply wp_getf; [lia|]. wp_step. apply wp_getf; [lia|].
  fold (ld32 (mem_of s1) (p + ca_num_grown)). fold (ld32 (mem_of s1) (p + ca_last_shrink_state)).
  fold (grown_since s1). unfold shrink_post in HQ. rewrite <- Hg in HQ. destruct (grown_since s1) eqn:Eg.
  - wp_step. apply wp_getf; [lia|]. fold (ld32 (mem_of s1) (p + ca_num_grown)).
    wp_step. apply wp_setf; [lia|].
    destruct (locked_misc s s1 C F 4 ca_last_shrink_state (ld32 (mem_of s1) (p + ca_num_grown)) Hh L1)
      as [L2 Hm2]; [done|done|]. set (m2 := st 4 _ _ _) in *.
    wp_step. apply (wp_release_cache R p osz ssz 0 0 Hok s _ C F); try done; [apply HI|].
    intros s3 HI3 Hhs Hgl Hm3. wp_step. rewrite mem_of_set_mem in Hm3. apply (HQ s3 C F 0); try done.
    + eapply (Hmods (may_write p osz ssz C F)); [|by left].
      eapply modifies_trans; (eapply modifies_weaken; [eassumption|]); intros b Hb;
        [by right; left|by apply lock_may_write].
    + split; [done|]. split; [done|]. unfold grown_since.
      rewrite !(ld32_modifies _ _ _ _ Hm3) by (unfold lock_bytes, ca_num_grown, ca_last_shrink_state, ca_lock, ca_next; lia).
      unfold m2. change (st 4 ?m ?a ?v) with (st32 m a v).
      rewrite ld32_st32 by apply ld32_bound.
      rewrite ld32_st32_ne by (unfold ca_num_grown, ca_last_shrink_state; lia). lia.
  - wp_step. apply wp_getf; [lia|]. wp_step. apply wp_getf; [lia|].
    pose proof (lo_pre _ _ _ _ _ _ _ _ _ _ L1) as Hp1.
    pose proof (cp_num _ _ _ _ _ _ _ _ Hp1) as En. rewrite Z.add_0_r, u32_small in En by lia.
    fold (ld32 (mem_of s1) (p + ca_num_slabs)). rewrite En, Nat2Z.id.
    wp_step. apply (wp_shrink_loop s _ s1 C F); try done; [apply HI| | | |].
    { unfold no_dtor. rewrite (ld64_modifies _ _ _ _ Hm1); [done|].
      unfold lock_bytes, ca_dtor, ca_lock, ca_next. lia. }
    { unfold slabs. rewrite !length_app. lia. }
    { pose proof (cp_list _ _ _ _ _ _ _ _ Hp1 LE) as Hl. unfold dll_at, ld64 at 1 in Hl.
      change (p + ca_slabs_empty) with (p + off LE). set (q := ld 8 _ _) in *. clearbody q.
      destruct (C LE) as [|[a fl] v]; simpl in Hl; [done|by destruct Hl as [? _]]. }
    intros s2 C2 F2 L2 Hs2 HE HP HF HF2 Hm2. rewrite Z.add_0_l in *. set (r := s32 _).
    assert (forall s3, locked 0 0 s s3 C2 F2 -> modifies (meta C) (mem_of s2) (mem_of s3) ->
      wp (release_at (p + ca_lock);; mret r) Q s3) as Hend.
    { intros s3 L3 Hm3. wp_step. apply (wp_release_cache R p osz ssz 0 0 Hok s s3 C2 F2); try done.
      intros s4 HI4 Hhs Hgl Hm4. wp_step. apply (HQ s4 C2 F2 r); try done.
      - by apply conserved_shrunk.
      - intros x. apply allocated_shrunk; try done; [apply HI|]. intros sl Hsl.
        pose proof (cp_slabs _ _ _ _ _ _ _ _ Hp1 _ Hsl) as [_ _ _ _ _ _ Hnd Hobj _]. done.
      - eapply (Hmods (fun b => may_write p osz ssz C F b \/ list_bytes C LE b)); [|done].
        eapply modifies_trans; [eapply modifies_trans|]; (eapply modifies_weaken; [eassumption|]); intros b Hb.
        + destruct Hb as [?|[?|?]]; [left; by right; left|left; by right; right|by right].
        + left. by right; left.
        + left. by apply lock_may_write. }
    wp_step. destruct (r >? 0).
    + apply wp_addf; [lia|].
      destruct (locked_misc s s2 C2 F2 4 ca_num_shrunk (ld32 (mem_of s2) (p + ca_num_shrunk) + 1) Hh L2)
        as [L3 Hm3]; [done|done|].
      apply Hend; [done|]. rewrite mem_of_set_mem. eapply modifies_weaken; [exact Hm3|]. intros b.
      apply meta_sub. intros a (fl & [i Hi]%elem_of_slabs)%elem_of_addrs. apply (addr_slabs C i).
      apply elem_of_addrs. exists fl. destruct i; [by rewrite <- HP|by rewrite <- HF|].
      rewrite HE in Hi. by apply elem_of_nil in Hi.
    + wp_step. apply Hend; auto with xv6.
Qed.

End Life.
