(* ===== verification/SlabCreate.v ===== *)
(** * Creating a cache (kernel/slab.c, [kmem_cache_create])

    A cache starts as one block from the block allocator with a zeroed
    descriptor, is pushed on the global list of caches, and grows its first
    slab.  The result satisfies the invariant of [SlabProof] with no object
    allocated. *)

From Stdlib Require Import ZArith Lia Bool String.
From stdpp Require Import base gmap list strings functions.
From S2P Require Import Prelude Mem MemList Spinlock Buddy BlockAlloc Slab SlabProof SlabLife.

Section Create.
Context {S : Type} `{BA : BlockAllocator S}.
Notation slst := (slst S).

Ltac memnorm := rewrite ?mem_of_set_mem, ?set_mem_set_mem.

Definition no_slabs : lid -> list (Z * list Z) := fun _ => [].

Lemma modifies_store (f : list (Z * Z)) m a n :
  (forall q, q ∈ f -> 0 <= q.1 < n) ->
  modifies (bytes_of a n) m (foldl (fun m q => stb m (a + q.1) q.2) m f).
Proof.
  revert m. induction f as [|q f IH]; intros m Hf; simpl; [auto with xv6|].
  eapply modifies_trans; [|apply IH; intros; apply Hf; by constructor].
  apply modifies_stb. specialize (Hf q ltac:(constructor)). unfold bytes_of. lia.
Qed.

Lemma calculate_total size : exists ssz, calculate_slab_size size = Some ssz.
Proof.
  unfold calculate_slab_size. cbn [slab_size_loop].
  repeat (match goal with
  | |- exists _, (if ?b then _ else _) = _ =>
      let E := fresh in destruct b eqn:E; try discriminate E
  end); eauto.
Qed.

(** The descriptor fields the invariant needs, once written. *)
Record fresh_desc (m : mem) (p size ssz dtor : Z) : Prop := {
  fd_osz : ld64 m (p + ca_object_size) = size;
  fd_asz : ld64 m (p + ca_aligned_size) = size + sizeof_object;
  fd_ssz : ld32 m (p + ca_slab_size) = ssz;
  fd_magic : ld32 m (p + ca_error_detection) = SLAB_ERR_DETECT;
  fd_dtor : ld64 m (p + ca_dtor) = dtor;
  fd_heads : forall i, ld64 m (p + off i) = 0;
  fd_num : ld32 m (p + ca_num_slabs) = 0;
  fd_alloc : ld32 m (p + ca_num_allocated) = 0;
  fd_lock : ld32 m (p + ca_lock) = 0
}.

Lemma fresh_cache_pre R m p size ssz dtor :
  fresh_desc m p size ssz dtor -> cache_pre R p size ssz 0 0 m no_slabs.
Proof.
  intros [F1 F2 F3 F4 F5 F6 F7 F8 F9].
  split; try done; try (intros ? Hin; by apply elem_of_nil in Hin).
  split; [constructor|]. intros x y Hx. by apply elem_of_nil in Hx.
Qed.

Lemma fresh_desc_modifies W m m' p size ssz dtor :
  fresh_desc m p size ssz dtor -> modifies W m m' ->
  (forall b, p <= b < p + ca_lock + 4 -> ~ W b) -> fresh_desc m' p size ssz dtor.
Proof.
  intros [F1 F2 F3 F4 F5 F6 F7 F8 F9] HM HW.
  assert (forall n o, 0 <= o -> o + Z.of_nat n <= 124 -> ld n m' (p + o) = ld n m (p + o)) as Hld.
  { intros n o Ho1 Ho2. apply (ld_modifies W); [done|]. intros b Hb. apply HW. unfold ca_lock. lia. }
  split; unfold ld64, ld32 in *; try (rewrite Hld; [done|unfold ca_object_size, ca_aligned_size, ca_slab_size,
    ca_error_detection, ca_dtor, ca_num_slabs, ca_num_allocated, ca_lock; lia..]).
  intros i. pose proof (off_range i). rewrite Hld by lia. apply F6.
Qed.

Lemma wp_write_desc p name size ssz ctor dtor Q (s : slst) :
  0 < p -> 0 <= size < 2 ^ 32 -> 0 <= ssz < 2 ^ 31 -> 0 <= dtor < 2 ^ 64 ->
  (forall m', fresh_desc m' p size ssz dtor -> modifies (bytes_of p sizeof_cache) (mem_of s) m' ->
     Q tt (set_mem m' s)) ->
  wp (write_desc p name size ssz ctor dtor) Q s.
Proof.
  intros Hp Hsz Hssz Hdt HQ. unfold write_desc, store_bytes. wp_step. wp_step. cbv zeta.
  set (nl := if _ >=? _ then _ else _).
  assert (0 <= nl <= 31 /\ nl <= Z.of_nat (length name)) as [Hnl Hnl2].
  { unfold nl, CACHE_NAME_LEN. destruct (Z.geb_spec (Z.of_nat (length name)) 32); lia. }
  wp_step. wp_step. memnorm. wp_step. wp_step. memnorm.
  set (m1 := memset _ p 0 sizeof_cache). set (m2 := foldl _ m1 _). set (m3 := stb m2 _ 0).
  assert (modifies (bytes_of p 32) m1 m3) as Hm3.
  { eapply modifies_trans; [|apply modifies_stb; unfold bytes_of, ca_name; lia].
    unfold m2, ca_name. rewrite Z.add_0_r. apply modifies_store. intros q Hq.
    destruct q as [i c]. apply elem_of_zip_l in Hq. apply elem_of_seqZ in Hq.
    rewrite length_take in Hq. simpl. lia. }
  do 8 (wp_step; apply wp_setf; [lia|]; memnorm). apply wp_modify. memnorm.
  set (m4 := st64 _ (p + ca_lock + 16) 0).
  assert (forall n o, 32 <= o -> o + Z.of_nat n <= sizeof_cache -> ld n m3 (p + o) = 0) as Hz.
  { intros n o Ho1 Ho2. rewrite (ld_modifies _ _ _ _ _ Hm3) by (unfold bytes_of; lia).
    unfold m1. apply ld_memset_zero; lia. }
  assert (modifies (bytes_of p sizeof_cache) m3 m4) as Hm4.
  { unfold m4, sizeof_cache, ca_object_size, ca_aligned_size, ca_slab_size, ca_error_detection, ca_ctor, ca_dtor,
      ca_error_state, ca_last_shrink_state, ca_lock. intros b Hb. unfold bytes_of in Hb.
    unfold st64, st32. rewrite !rdb_st, !decide_False by lia. done. }
  apply HQ.
  - assert (forall v, 0 <= v < 2 ^ 64 -> v mod 256 ^ Z.of_nat 8 = v) as M8 by (intros; by apply Z.mod_small).
    assert (forall v, 0 <= v < 2 ^ 32 -> v mod 256 ^ Z.of_nat 4 = v) as M4 by (intros; by apply Z.mod_small).
    unfold m4, ca_object_size, ca_aligned_size, ca_slab_size, ca_error_detection, ca_ctor, ca_dtor,
      ca_error_state, ca_last_shrink_state, ca_lock, sizeof_object in *.
    split; unfold ca_object_size, ca_aligned_size, ca_slab_size, ca_error_detection, ca_dtor,
      ca_num_slabs, ca_num_allocated, ca_lock, sizeof_object, ld64, ld32, st64, st32;
      try (rewrite ?ld_st_ne by lia; rewrite ld_st_eq; rewrite ?M8, ?M4 by (unfold SLAB_ERR_DETECT; lia); done);
      try (rewrite ?ld_st_ne by lia; apply Hz; unfold sizeof_cache; lia).
    intros i. pose proof (off_range i). rewrite ?ld_st_ne by lia. apply Hz; unfold sizeof_cache; lia.
  - eapply modifies_trans; [apply modifies_memset|]. eapply modifies_trans; [|exact Hm4].
    eapply modifies_weaken; [exact Hm3|]. unfold bytes_of, sizeof_cache. lia.
Qed.

Lemma wp_publish p Q (s : slst) :
  0 < p -> hart_ok (hart_of s) -> lk_locked (cache_list_lock (sl_glob s)) = 0 ->
  (forall s', mem_of s' = st64 (mem_of s) (p + ca_next) (cache_list (sl_glob s)) ->
     hart_same (hart_of s) (hart_of s') ->
     sl_base s' = set_mach (mach_of s') (sl_base s) ->
     cache_list (sl_glob s') = p -> lk_locked (cache_list_lock (sl_glob s')) = 0 ->
     allocator_initialized (sl_glob s') = allocator_initialized (sl_glob s) ->
     buffer_caches (sl_glob s') = buffer_caches (sl_glob s) ->
     buffer_cache_lock (sl_glob s') = buffer_cache_lock (sl_glob s) -> Q tt s') ->
  wp (publish p) Q s.
Proof.
  intros Hp Hh Hl HQ. unfold publish. wp_step. apply wp_acquire_in; [done|]. wp_step. wp_step.
  wp_step. apply wp_setf; [lia|]. wp_step. apply wp_modify.
  set (s1 := set_cache_list p _).
  assert (hart_of s1 = push_off (hart_of s)) as Eh.
  { unfold s1. change (hart_of (set_cache_list p ?t)) with (hart_of t). rewrite hart_of_set_mem.
    change (hart_of (set_list_lock ?l ?t)) with (hart_of t). apply hart_of_set_hart. }
  assert (mem_of s1 = st64 (mem_of s) (p + ca_next) (cache_list (sl_glob s))) as Em.
  { unfold s1. change (mem_of (set_cache_list p ?t)) with (mem_of t). rewrite mem_of_set_mem.
    change (mem_of (set_list_lock ?l ?t)) with (mem_of t). by rewrite mem_of_set_hart. }
  assert (sl_base s1 = set_mach (mach_of s1) (sl_base s)) as Eb.
  { unfold s1. cbn [sl_base set_cache_list set_glob set_mem set_list_lock set_hart set_mach slst_HasMach mach_of].
    by rewrite !set_mach_set, mach_of_set. }
  destruct (pop_push_off (hart_of s) (hart_of s1) Hh) as (h & Eh' & Hs); [by rewrite Eh|].
  eapply wp_release_in; [done|by rewrite Eh|exact Eh'|].
  apply HQ; try done.
  - change (mem_of (set_list_lock ?l ?t)) with (mem_of t). by rewrite mem_of_set_hart.
  - change (hart_of (set_list_lock ?l ?t)) with (hart_of t). by rewrite hart_of_set_hart.
  - cbn [sl_base set_glob set_list_lock set_hart set_mach slst_HasMach mach_of].
    rewrite mach_of_set, Eb, set_mach_set. done.
Qed.

Lemma wp_kmem_cache_create R F (s : slst) name size ctor dtor (Q : Z -> slst -> Prop) :
  ba_inv R F (sl_base s) -> allocator_initialized (sl_glob s) <> 0 ->
  lk_locked (cache_list_lock (sl_glob s)) = 0 ->
  1 <= size <= MAX_BUFFER_SIZE -> 0 <= dtor < 2 ^ 64 ->
  (forall s', ba_inv R F (sl_base s') -> hart_same (hart_of s) (hart_of s') ->
     sl_glob s' = sl_glob s -> modifies F (mem_of s) (mem_of s') -> no_block (ba_block R) F 1 -> Q 0 s') ->
  (forall p s' C F' ssz, calculate_slab_size size = Some ssz ->
     cache_inv R p size ssz 0 0 s' C F' -> (forall x, ~ allocated size ssz C x) ->
     ld64 (mem_of s') (p + ca_dtor) = dtor ->
     hart_same (hart_of s) (hart_of s') -> cache_list (sl_glob s') = p ->
     lk_locked (cache_list_lock (sl_glob s')) = 0 ->
     allocator_initialized (sl_glob s') = allocator_initialized (sl_glob s) ->
     buffer_caches (sl_glob s') = buffer_caches (sl_glob s) ->
     buffer_cache_lock (sl_glob s') = buffer_cache_lock (sl_glob s) ->
     (forall b, F b <-> F' b \/ bytes_of p BLOCK_SIZE b \/ owned ssz C b) ->
     modifies F (mem_of s) (mem_of s') -> Q p s') ->
  wp (kmem_cache_create name size ctor dtor) Q s.
Proof.
  intros HB Hi Hl Hsz Hdt H0 H1. destruct (calculate_total size) as [ssz Hssz].
  assert (hart_ok (hart_of s)) as Hh by exact (ba_hart _ _ _ HB).
  unfold kmem_cache_create. wp_step. wp_step.
  destruct (Z.eqb_spec (allocator_initialized (sl_glob s)) 0); [done|].
  replace ((size =? 0) || (size >? MAX_BUFFER_SIZE)) with false by lia.
  wp_step. apply wp_zoom. eapply wp_mono; [apply (ba_alloc_spec R F (sl_base s) 1); [done|lia]|].
  intros p b' (Hsame & Hm & Hcase). set (s1 := set_base b' s).
  change (mem_of (sl_base s)) with (mem_of s) in Hm. change (mem_of b') with (mem_of s1) in Hm.
  change (hart_of (sl_base s)) with (hart_of s) in Hsame. change (hart_of b') with (hart_of s1) in Hsame.
  change (block_bytes 1) with 4096 in Hcase.
  destruct Hcase as [(-> & HB1 & Hno)|(F1 & Hblk & HB1 & Hin & HF1)].
  { rewrite Z.eqb_refl. wp_step. by apply H0. }
  pose proof (ba_block_range _ _ _ Hblk) as Hpr. change (block_bytes 1) with 4096 in Hpr.
  replace (p =? 0) with false by lia.
  assert (cache_ok R p size ssz) as Hok by done.
  pose proof (ssz_range R p size ssz Hok) as Hsr.
  wp_step. rewrite Hssz. apply wp_of_opt. wp_step. apply wp_write_desc; try lia; [unfold MAX_BUFFER_SIZE in *; lia|].
  intros m2 Hfd Hm2. memnorm. set (s2 := set_mem m2 s1).
  assert (hart_of s2 = hart_of s1) as Eh2 by (unfold s2; by rewrite hart_of_set_mem).
  assert (hart_ok (hart_of s2)) as Hh2 by (rewrite Eh2; by apply (hart_ok_proper _ _ Hsame)).
  wp_step. apply wp_publish; [lia|done|done|].
  intros s3 Em3 Hs3 Eb3 Hcl3 Hll3 Hai3 Hbc3 Hbl3.
  assert (mem_of s2 = m2) as E2 by (unfold s2; by rewrite mem_of_set_mem). rewrite E2 in Em3.
  assert (modifies (bytes_of p 4096) (mem_of s1) (mem_of s3)) as Hm3.
  { rewrite Em3. eapply modifies_trans; [eapply modifies_weaken; [exact Hm2|]|apply modifies_st64];
      unfold bytes_of, sizeof_cache, ca_next; lia. }
  assert (fresh_desc (mem_of s3) p size ssz dtor) as Hfd3.
  { rewrite Em3. eapply fresh_desc_modifies; [exact Hfd|apply (modifies_st 8)|].
    unfold bytes_of, ca_lock, ca_next. lia. }
  assert (cache_inv R p size ssz 0 0 s3 no_slabs F1) as HI3.
  { split; try done.
    - by eapply fresh_cache_pre.
    - split; [|split]; intros sl Hx; by apply elem_of_nil in Hx.
    - split; [intros b HF Hb; apply HF1 in HF as [_ HF]; by apply HF|].
      intros a b Ha. by apply elem_of_nil in Ha.
    - apply Hfd3.
    - eapply (ba_client R F1 s1 s3); [done| |by apply (hart_ok_proper _ _ Hs3)|].
      + rewrite Eb3 at 1. unfold s2. by rewrite sl_base_set_mem, set_mach_set.
      + eapply modifies_weaken; [exact Hm3|]. intros b Hb HF. apply HF1 in HF as [_ HF]. done. }
  assert (modifies F (mem_of s) (mem_of s3)) as Hm03.
  { eapply modifies_trans; [exact Hm|]. eapply modifies_weaken; [exact Hm3|exact Hin]. }
  assert (hart_same (hart_of s) (hart_of s3)) as Hhs3 by (rewrite Hsame, <- Eh2; done).
  assert (forall b, may_write p size ssz no_slabs F1 b -> F b) as Hmw.
  { intros b [Hb|[[Hb|(a & Ha & _)]|Hb]].
    - apply Hin. unfold bytes_of, ca_slabs_partial, ca_next in *. lia.
    - apply Hin. unfold bytes_of, ca_slabs_partial, ca_lock in *. lia.
    - by apply elem_of_nil in Ha.
    - by apply HF1 in Hb as [? _]. }
  wp_step. apply (wp_acquire_cache R p size ssz 0 0 Hok s3 no_slabs F1); [done|]. intros s4 L4 Hm4.
  assert (forall s5 C F', locked R p size ssz 0 0 s3 s5 C F' -> shape size ssz C ->
    (forall x, ~ allocated size ssz C x) -> conserved ssz no_slabs F1 C F' ->
    modifies (fun b => meta p size ssz no_slabs b \/ F1 b) (mem_of s4) (mem_of s5) ->
    wp (release_at (p + ca_lock);; mret p) Q s5) as Hend.
  { intros s5 C F' L5 Hsh5 Hal5 Hc5 Hm5. wp_step.
    eapply (wp_finish R p size ssz 0 0 Hok s3 s4 s5 no_slabs F1 C F'); try done;
      [by apply (hart_ok_proper _ _ Hhs3)|].
    intros s6 [HI6 Hh6 Hg6 Hc6 Hm6]. wp_step. eapply (H1 p s6 C F' ssz); try done.
    - rewrite (ld64_modifies _ _ _ _ Hm6); [apply Hfd3|]. intros b Hb [Hw|[[Hw|(a & Ha & _)]|Hw]].
      + unfold ca_slabs_partial, ca_dtor in *. lia.
      + unfold ca_slabs_partial, ca_dtor in *. lia.
      + by apply elem_of_nil in Ha.
      + apply HF1 in Hw as [_ Hw]. apply Hw. unfold bytes_of, ca_dtor in *. lia.
    - by rewrite Hhs3.
    - by rewrite Hg6.
    - by rewrite Hg6.
    - by rewrite Hg6.
    - by rewrite Hg6.
    - by rewrite Hg6.
    - intros b. specialize (Hc6 b). specialize (HF1 b). specialize (Hin b).
      assert (~ owned ssz no_slabs b) by (intros (a & Ha & _); by apply elem_of_nil in Ha).
      assert (bytes_of p 4096 b \/ ~ bytes_of p 4096 b) as Hd by (unfold bytes_of; lia).
      unfold BLOCK_SIZE. tauto.
    - eapply modifies_trans; [exact Hm03|]. eapply modifies_weaken; [exact Hm6|exact Hmw]. }
  wp_step. apply (wp_grow R p size ssz 0 0 Hok s3 s4 no_slabs F1); [by apply (hart_ok_proper _ _ Hhs3)|done| |].
  - intros _ s5 L5 Hm5. eapply (Hend s5 no_slabs F1); try done.
    + split; [|split]; intros sl Hx; by apply elem_of_nil in Hx.
    + intros x (sl & Hx & _). by apply elem_of_nil in Hx.
  - intros s5 a F' L5 Hm5 Hin5 HF5. eapply (Hend s5 (grown size ssz no_slabs a) F'); try done.
    + apply shape_alt. intros k sl Hk. unfold grown in Hk. destruct (decide (k = LE)) as [->|Hk'].
      * rewrite fn_lookup_insert in Hk. apply list_elem_of_singleton in Hk as ->.
        unfold shape_of, is_empty. simpl. rewrite length_objs.
        destruct (nobj_fits R p size ssz Hok). lia.
      * rewrite fn_lookup_insert_ne in Hk by done. by apply elem_of_nil in Hk.
    + intros x. rewrite allocated_grown. intros (sl & Hx & _). by apply elem_of_nil in Hx.
    + by apply conserved_grown.
Qed.

End Create.
