(* ===== verification/SlabThms.v ===== *)
(** * What kernel/slab.c guarantees

    Client-level theorems of the slab allocator, over any block allocator
    that meets [BlockAllocator]: allocation hands out an object nobody holds,
    freeing takes exactly that object back, live objects never overlap,
    shrinking returns exactly the empty slabs, and no byte is lost between
    caches and blocks.  SlabClient.v adds that programs which use a cache own
    what they hold.  The witnesses run the definitions on top of kernel/buddy.c. *)

From Stdlib Require Import ZArith Lia Bool String.
From stdpp Require Import base gmap list strings functions.
From S2P Require Import Prelude Mem MemList Spinlock BuddySpec Buddy BuddyProof BuddyThms BlockAlloc.
From S2P Require Import Slab SlabProof SlabLife SlabCreate.

(** ** A concrete system for the witnesses *)

Definition slab_boot : slst bst :=
  mkSlst boot (mkSlabGlobals 0 (initlock "") 0 (replicate 13 0) (initlock "")).

Definition after {S A} (c : M S A) (s : S) : S :=
  match c s with Ret (_, s') => s' | _ => s end.

Definition value {S} (c : M S Z) (s : S) : Z :=
  match c s with Ret (r, _) => r | _ => 0 end.

Lemma wp_after {S A} (c : M S A) (P : S -> Prop) s : wp c (fun _ => P) s -> P (after c s).
Proof. unfold wp, after. by destruct (c s) as [[a s']| | | |]. Qed.

Lemma wp_value {S} (c : M S Z) (Q : Z -> S -> Prop) s : wp c Q s -> Q (value c s) (after c s).
Proof. unfold wp, value, after. by destruct (c s) as [[a s']| | | |]. Qed.

(** 64 blocks at 65536. *)
Definition demo_region : region := mkRegion 6 65536.
Definition slab_demo : slst bst := after (kmem_init 65536 (2 ^ 6)) slab_boot.

Lemma slab_demo_ok :
  (exists F, buddy_owns demo_region F (sl_base slab_demo)) /\
  allocator_initialized (sl_glob slab_demo) = 1 /\
  lk_locked (cache_list_lock (sl_glob slab_demo)) = 0.
Proof.
  apply (wp_after (kmem_init 65536 (2 ^ 6)) (fun s =>
    (exists F, buddy_owns demo_region F (sl_base s)) /\ allocator_initialized (sl_glob s) = 1 /\
    lk_locked (cache_list_lock (sl_glob s)) = 0)).
  unfold kmem_init. wp_step. apply wp_zoom.
  apply (wp_buddy_init 6); [lia|reflexivity|lia|unfold BLOCK_SIZE; lia|apply boot_ok|].
  intros s' HI _ Hm _. wp_step. split; [|done].
  exists (free_bytes s' (all_free 6)). exists (all_free 6). done.
Qed.

Definition demo_create : M (slst bst) Z := kmem_cache_create [100; 101; 109; 111] 1000 0 0.
Abbreviation demo_cache := (value demo_create slab_demo).
Abbreviation demo_state := (after demo_create slab_demo).

Lemma demo_cache_inv :
  exists C F, cache_inv demo_region demo_cache 1000 2 0 0 demo_state C F /\
    (forall x, ~ allocated 1000 2 C x) /\ no_dtor demo_cache demo_state.
Proof.
  destruct slab_demo_ok as ([F HF] & Hi & Hl).
  pose proof (wp_value demo_create (fun p s => p = 0 \/ exists C F,
    cache_inv demo_region p 1000 2 0 0 s C F /\ (forall x, ~ allocated 1000 2 C x) /\ no_dtor p s)
    slab_demo) as H.
  destruct H as [H|H].
  - apply (@wp_kmem_cache_create bst bst_HasMach buddy_BlockAllocator demo_region F slab_demo);
      [exact HF|by rewrite Hi|exact Hl|unfold MAX_BUFFER_SIZE; lia|lia| |].
    + intros. by left.
    + intros p s' C F' ssz Hs HI Ha Hd _ _ _ _ _ _ _ _. right. exists C, F'.
      vm_compute in Hs. injection Hs as <-. done.
  - exfalso. assert (demo_cache = 65536) as E by (vm_compute; reflexivity). rewrite H in E. done.
  - exact H.
Qed.

Section Claims.
Context {S : Type} `{BA : BlockAllocator S}.

(** C8: [kmem_cache_alloc] on a cache in its invariant returns, and either
    gives null, only when no list has a slab with a free object and the block
    allocator has no free block for another slab (or when an object does not
    fit a slab at all), or gives
    the payload of an object that nobody held: from then on exactly that
    object is allocated in addition.  The invariant (lists, counters, free
    lists, back pointers) holds again, no byte is lost between the slabs and
    the block allocator, and the hart is as before. *)
Theorem kmem_cache_alloc_correct (R : ba_region) p osz ssz (s : slst S) C F :
  cache_inv R p osz ssz 0 0 s C F ->
  wp (kmem_cache_alloc p) (fun r s' => exists C' F',
    cache_op R p osz ssz 0 0 s s' C F C' F' /\
    ((r = 0 /\ (forall x, allocated osz ssz C' x <-> allocated osz ssz C x) /\
      (C LP = [] /\ C LE = [] /\ no_block (ba_block R) F ssz \/ nobj osz ssz = 0)) \/
     (exists x, r = x + sizeof_object /\ ~ allocated osz ssz C x /\
        forall y, allocated osz ssz C' y <-> allocated osz ssz C y \/ y = x))) s.
Proof.
  intros HI. apply (wp_kmem_cache_alloc R p osz ssz 0 0 (ci_ok _ _ _ _ _ _ _ _ _ HI) s C F); [done| |].
  - intros s' C' F' Hop Ha Hn. exists C', F'. auto.
  - intros s' C' F' x Hop Hx Ha. exists C', F'. split; [done|]. right. eauto.
Qed.

(** C20: [kmem_cache_free] of an allocated object returns and takes exactly
    that object back; every other object stays allocated, the slab moves to
    the list of its new state, and nothing goes to or comes from the block
    allocator. *)
Theorem kmem_cache_free_correct (R : ba_region) p osz ssz (s : slst S) C F x :
  cache_inv R p osz ssz 0 0 s C F -> allocated osz ssz C x ->
  wp (kmem_cache_free p (x + sizeof_object)) (fun _ s' => exists C',
    cache_op R p osz ssz 0 0 s s' C F C' F /\
    forall y, allocated osz ssz C' y <-> allocated osz ssz C y /\ y <> x) s.
Proof.
  intros HI Hx. apply (wp_kmem_cache_free R p osz ssz 0 0 (ci_ok _ _ _ _ _ _ _ _ _ HI) s C F x); [done|done|]. eauto.
Qed.

(** Live objects do not overlap, lie in slabs the cache owns (so outside the
    block allocator's free memory), and their payloads are not among the bytes
    an operation of the cache may write. *)
Lemma live_apart (R : ba_region) p osz ssz (s : slst S) C F x :
  cache_inv R p osz ssz 0 0 s C F -> allocated osz ssz C x ->
  (forall y, allocated osz ssz C y -> x <> y -> x + sizeof_object + osz <= y \/ y + sizeof_object + osz <= x) /\
  (forall b, bytes_of (x + sizeof_object) osz b -> ~ may_write p osz ssz C F b).
Proof.
  intros [Hok Hp Hsh [Ho1 Ho2] Hl Hb] (sl & Hin & Hx & Hn).
  pose proof (elem_addrs _ _ Hin) as Ha. destruct (obj_range R p osz ssz _ _ Hok Hx) as [Hx1 Hx2].
  destruct (nobj_fits R p osz ssz Hok) as (_ & _ & Hsb). pose proof (co_osz _ _ _ _ Hok) as Hosz.
  destruct (cp_spaced _ _ _ _ _ _ _ _ Hp) as [_ Hsp]. pose proof (cp_apart _ _ _ _ _ _ _ _ Hp _ Ha) as Hap.
  unfold asz, sizeof_object, sizeof_slab in *.
  assert (forall a y, a ∈ addrs (slabs C) -> is_obj osz ssz a y -> x <> y -> x + 16 + osz <= y \/ y + 16 + osz <= x) as Hsep.
  { intros a y Hay Hy Hne. destruct (decide (a = sl.1)) as [->|Hna].
    - destruct (obj_sep R p osz ssz _ _ _ Hok Hx Hy Hne); unfold asz, sizeof_object in *; lia.
    - destruct (obj_range R p osz ssz _ _ Hok Hy). destruct (Hsp a sl.1 Hay Ha Hna);
        unfold asz, sizeof_object, sizeof_slab in *; lia. }
  split.
  - intros y (sl' & Hin' & Hy & _) Hne. apply (Hsep sl'.1); try done. by apply elem_addrs.
  - intros b Hbb Hw. unfold bytes_of in Hbb. destruct Hw as [Hw|[[Hw|(a & Hay & Hw)]|Hw]].
    + unfold ca_slabs_partial, ca_next in *. lia.
    + unfold ca_slabs_partial, ca_lock in *. lia.
    + destruct Hw as [Hw|(y & Hy & Hw)]; unfold sizeof_slab, sizeof_object in *.
      * destruct (decide (a = sl.1)) as [->|Hna]; [lia|]. destruct (Hsp a sl.1 Hay Ha Hna); lia.
      * destruct (decide (x = y)) as [->|Hne]; [lia|]. destruct (Hsep a y Hay Hy Hne); lia.
    + apply (Ho2 sl.1 b Ha Hw). lia.
Qed.

(** [kmem_cache_shrink] either only notes that the cache grew since the
    last call (so that the next call shrinks), or frees every empty slab and
    returns the number of blocks given back; full and partial slabs and all
    allocated objects stay, and the freed bytes are the block allocator's. *)
Theorem kmem_cache_shrink_correct call_dtor (R : ba_region) p osz ssz (s : slst S) C F :
  cache_inv R p osz ssz 0 0 s C F -> no_dtor p s -> Z.of_nat (length (slabs C)) < 2 ^ 32 ->
  wp (kmem_cache_shrink call_dtor p) (fun r s' => exists C' F',
    cache_inv R p osz ssz 0 0 s' C' F' /\ hart_same (hart_of s) (hart_of s') /\
    conserved ssz C F C' F' /\
    (forall x, allocated osz ssz C' x <-> allocated osz ssz C x) /\
    modifies (fun b => may_write p osz ssz C F b \/ list_bytes ssz C LE b) (mem_of s) (mem_of s') /\
    shrink_post p ssz s C r s' C') s.
Proof.
  intros HI Hd Hlen.
  apply (wp_kmem_cache_shrink R p osz ssz (ci_ok _ _ _ _ _ _ _ _ _ HI) call_dtor s C F); try done.
  intros s' C' F' r H1 H2 H3 H4 H5 H6 H7. exists C', F'. exact (conj H1 (conj H2 (conj H4 (conj H5 (conj H6 H7))))).
Qed.

(** C30: [kmem_cache_create] of a supported size returns null, only when not
    one block is free, and changes no ownership, or returns a cache in its invariant with no object allocated,
    whose descriptor and first slab are exactly the memory taken from the
    block allocator, and which is the head of the global list of caches. *)
Theorem kmem_cache_create_correct (R : ba_region) F (s : slst S) name size ctor dtor :
  ba_inv R F (sl_base s) -> allocator_initialized (sl_glob s) <> 0 ->
  lk_locked (cache_list_lock (sl_glob s)) = 0 ->
  1 <= size <= MAX_BUFFER_SIZE -> 0 <= dtor < 2 ^ 64 ->
  wp (kmem_cache_create name size ctor dtor) (fun p s' =>
    hart_same (hart_of s) (hart_of s') /\ modifies F (mem_of s) (mem_of s') /\
    ((p = 0 /\ ba_inv R F (sl_base s') /\ no_block (ba_block R) F 1) \/
     (exists C F' ssz, cache_inv R p size ssz 0 0 s' C F' /\
        (forall x, ~ allocated size ssz C x) /\ cache_list (sl_glob s') = p /\
        forall b, F b <-> F' b \/ bytes_of p BLOCK_SIZE b \/ owned ssz C b))) s.
Proof.
  intros HB Hi Hl Hsz Hd. apply (wp_kmem_cache_create R F s); try done.
  - intros s' HB' Hh _ Hm Hno. split; [done|]. split; [done|]. by left.
  - intros p s' C F' ssz _ HI Ha _ Hh Hc _ _ _ _ Hb Hm. split; [done|]. split; [done|]. right.
    exists C, F', ssz. auto.
Qed.

(** A cache for objects larger than 65472 bytes never yields an object:
    a slab has at most 16 blocks, which do not hold the slab header, an
    object header and such an object. *)
Theorem oversized_cache_yields_nothing (R : ba_region) p osz ssz (s : slst S) C F :
  cache_inv R p osz ssz 0 0 s C F -> 65472 < osz ->
  wp (kmem_cache_alloc p) (fun r _ => r = 0) s.
Proof.
  intros HI Ho. pose proof (ci_ok _ _ _ _ _ _ _ _ _ HI) as Hok.
  apply (wp_kmem_cache_alloc R p osz ssz 0 0 Hok s C F); [done|done|].
  intros s' C' F' x [HI' _ _ _ _] Hx Ha. exfalso.
  destruct (proj2 (Ha x) (or_intror eq_refl)) as (sl & Hin & (i & Hi & _) & _).
  destruct (nobj_fits R p osz ssz Hok) as (Hn & Hf & Hb). pose proof (ssz_range R p osz ssz Hok).
  unfold asz, sizeof_slab, sizeof_object in *. nia.
Qed.

End Claims.

(** ** Witnesses *)

Lemma kmem_cache_alloc_correct_witness :
  exists C F, cache_inv (BA := buddy_BlockAllocator) demo_region demo_cache 1000 2 0 0 demo_state C F /\
  wp (kmem_cache_alloc demo_cache) (fun r s' => exists C' F',
    cache_op (BA := buddy_BlockAllocator) demo_region demo_cache 1000 2 0 0 demo_state s' C F C' F' /\
    ((r = 0 /\ (forall x, allocated 1000 2 C' x <-> allocated 1000 2 C x) /\
      (C LP = [] /\ C LE = [] /\ no_block (ba_block (BlockAllocator := buddy_BlockAllocator) demo_region) F 2 \/ nobj 1000 2 = 0)) \/
     (exists x, r = x + sizeof_object /\ ~ allocated 1000 2 C x /\
        forall y, allocated 1000 2 C' y <-> allocated 1000 2 C y \/ y = x))) demo_state.
Proof.
  destruct demo_cache_inv as (C & F & HI & _). exists C, F. split; [exact HI|].
  exact (kmem_cache_alloc_correct (BA := buddy_BlockAllocator) demo_region demo_cache 1000 2 demo_state C F HI).
Defined.

(** One object allocated. *)
Abbreviation demo_obj := (value (kmem_cache_alloc (S := bst) demo_cache) demo_state).
Abbreviation demo_state2 := (after (kmem_cache_alloc (S := bst) demo_cache) demo_state).

Lemma demo_obj_inv :
  exists C F x, cache_inv (BA := buddy_BlockAllocator) demo_region demo_cache 1000 2 0 0 demo_state2 C F /\
    allocated 1000 2 C x /\ demo_obj = x + sizeof_object.
Proof.
  destruct demo_cache_inv as (C & F & HI & _).
  pose proof (wp_value (kmem_cache_alloc (S := bst) demo_cache) (fun r s => r = 0 \/
    exists C F x, cache_inv (BA := buddy_BlockAllocator) demo_region demo_cache 1000 2 0 0 s C F /\
      allocated 1000 2 C x /\ r = x + sizeof_object) demo_state) as H.
  destruct H as [H|H]; [|exfalso|exact H].
  - apply (wp_kmem_cache_alloc (BA := buddy_BlockAllocator) demo_region demo_cache 1000 2 0 0
             (ci_ok _ _ _ _ _ _ _ _ _ HI) demo_state C F); [exact HI| |].
    + intros. by left.
    + intros s' C' F' x [HI' _ _ _ _] _ Ha. right. exists C', F', x. split; [exact HI'|].
      split; [apply Ha; by right|done].
  - assert (demo_obj = 73792) as E by (vm_compute; reflexivity). rewrite H in E. done.
Qed.

Lemma kmem_cache_free_correct_witness :
  exists C F x, demo_obj = x + sizeof_object /\
  wp (kmem_cache_free demo_cache (x + sizeof_object)) (fun _ s' => exists C',
    cache_op (BA := buddy_BlockAllocator) demo_region demo_cache 1000 2 0 0 demo_state2 s' C F C' F /\
    forall y, allocated 1000 2 C' y <-> allocated 1000 2 C y /\ y <> x) demo_state2.
Proof.
  destruct demo_obj_inv as (C & F & x & HI & Hx & E). exists C, F, x. split; [exact E|].
  exact (kmem_cache_free_correct (BA := buddy_BlockAllocator) demo_region demo_cache 1000 2 demo_state2 C F x HI Hx).
Defined.

Lemma demo_slabs_few (C : lid -> list (Z * list Z)) F :
  cache_inv (BA := buddy_BlockAllocator) demo_region demo_cache 1000 2 0 0 demo_state C F ->
  (forall x, ~ allocated 1000 2 C x) -> Z.of_nat (length (slabs C)) < 2 ^ 32.
Proof.
  intros HI _. pose proof (ci_pre _ _ _ _ _ _ _ _ _ HI) as Hp. pose proof (ci_ok _ _ _ _ _ _ _ _ _ HI) as Hok.
  assert (length (addrs (slabs C)) <= Z.to_nat (2 ^ 20))%nat as Hlen; [|unfold addrs in Hlen; rewrite length_fmap in Hlen; lia].
  apply NoDup_bounded_length; [apply (cp_spaced _ _ _ _ _ _ _ _ Hp)|].
  intros a (fl & Hin)%elem_of_addrs.
  pose proof (sr_block _ _ _ _ _ _ (cp_slabs _ _ _ _ _ _ _ _ Hp _ Hin)) as (_ & _ & b & E & (Ho & Hb0 & _ & Hb1)).
  simpl in E, Hb1. pose proof (pow2_pos (Z.log2_up 2) ltac:(done)). unfold BLOCK_SIZE in *. lia.
Qed.

Lemma kmem_cache_shrink_correct_witness :
  exists C F, wp (kmem_cache_shrink (fun _ _ => mret tt) demo_cache) (fun r s' => exists C' F',
    cache_inv (BA := buddy_BlockAllocator) demo_region demo_cache 1000 2 0 0 s' C' F' /\
    hart_same (hart_of demo_state) (hart_of s') /\ conserved 2 C F C' F' /\
    (forall x, allocated 1000 2 C' x <-> allocated 1000 2 C x) /\
    modifies (fun b => may_write demo_cache 1000 2 C F b \/ list_bytes 2 C LE b) (mem_of demo_state) (mem_of s') /\
    shrink_post demo_cache 2 demo_state C r s' C') demo_state.
Proof.
  destruct demo_cache_inv as (C & F & HI & Ha & Hd). exists C, F.
  exact (kmem_cache_shrink_correct (BA := buddy_BlockAllocator) (fun _ _ => mret tt) demo_region demo_cache
           1000 2 demo_state C F HI Hd (demo_slabs_few C F HI Ha)).
Defined.

Lemma kmem_cache_create_correct_witness :
  exists F, wp (kmem_cache_create [97] 64 0 0) (fun p s' =>
    hart_same (hart_of slab_demo) (hart_of s') /\ modifies F (mem_of slab_demo) (mem_of s') /\
    ((p = 0 /\ ba_inv (BlockAllocator := buddy_BlockAllocator) demo_region F (sl_base s') /\
      no_block (ba_block (BlockAllocator := buddy_BlockAllocator) demo_region) F 1) \/
     (exists C F' ssz, cache_inv (BA := buddy_BlockAllocator) demo_region p 64 ssz 0 0 s' C F' /\
        (forall x, ~ allocated 64 ssz C x) /\ cache_list (sl_glob s') = p /\
        forall b, F b <-> F' b \/ bytes_of p BLOCK_SIZE b \/ owned ssz C b))) slab_demo.
Proof.
  destruct slab_demo_ok as ([F HF] & Hi & Hl). exists F.
  assert (allocator_initialized (sl_glob slab_demo) <> 0) as Hi' by (rewrite Hi; lia).
  assert (1 <= 64 <= MAX_BUFFER_SIZE) as Hsz by (unfold MAX_BUFFER_SIZE; lia).
  assert (0 <= 0 < 2 ^ 64) as Hd by lia.
  exact (kmem_cache_create_correct (BA := buddy_BlockAllocator) demo_region F slab_demo [97] 64 0 0
           HF Hi' Hl Hsz Hd).
Defined.

(** A cache for objects of 70000 bytes. *)
Definition big_create : M (slst bst) Z := kmem_cache_create [98] 70000 0 0.

Lemma big_cache_inv :
  exists C F, cache_inv (BA := buddy_BlockAllocator) demo_region (value big_create slab_demo) 70000 16 0 0
    (after big_create slab_demo) C F.
Proof.
  destruct slab_demo_ok as ([F HF] & Hi & Hl).
  pose proof (wp_value big_create (fun p s => p = 0 \/ exists C F,
    cache_inv (BA := buddy_BlockAllocator) demo_region p 70000 16 0 0 s C F) slab_demo) as H.
  destruct H as [H|H]; [|exfalso|exact H].
  - apply (@wp_kmem_cache_create bst bst_HasMach buddy_BlockAllocator demo_region F slab_demo);
      [exact HF|by rewrite Hi|exact Hl|unfold MAX_BUFFER_SIZE; lia|lia| |].
    + intros. by left.
    + intros p s' C F' ssz Hs HI _ _ _ _ _ _ _ _ _ _. right. exists C, F'.
      vm_compute in Hs. injection Hs as <-. exact HI.
  - assert (value big_create slab_demo = 65536) as E by (vm_compute; reflexivity). rewrite H in E. done.
Qed.

Lemma oversized_cache_yields_nothing_witness :
  wp (kmem_cache_alloc (value big_create slab_demo)) (fun r _ => r = 0) (after big_create slab_demo).
Proof.
  destruct big_cache_inv as (C & F & HI). assert (65472 < 70000) as Ho by lia.
  exact (oversized_cache_yields_nothing (BA := buddy_BlockAllocator) demo_region
           (value big_create slab_demo) 70000 16 (after big_create slab_demo) C F HI Ho).
Defined.

(** ** Size classes of [kmalloc] *)

Lemma u64_double j : 0 <= j <= 20 -> u64 (Z.shiftl (2 ^ j) 1) = 2 ^ (j + 1).
Proof.
  intros Hj. rewrite Z.shiftl_mul_pow2, <- Z.pow_add_r by lia. apply u64_small.
  pose proof (pow2_pos (j + 1)). pose proof (Z.pow_le_mono_r 2 (j + 1) 21). lia.
Qed.

Lemma round_up_loop_spec fuel size j :
  5 <= j <= 17 -> (j = 5 \/ 2 ^ (j - 1) < size) -> size <= 2 ^ 17 -> 17 - j < Z.of_nat fuel ->
  exists k, round_up_loop fuel size (2 ^ j) = Some (2 ^ k) /\ j <= k <= 17 /\ size <= 2 ^ k /\
    (k = 5 \/ 2 ^ (k - 1) < size).
Proof.
  revert j. induction fuel as [|f IH]; intros j Hj Hlo Hs Hf; [lia|]. cbn [round_up_loop].
  destruct (Z.ltb_spec (2 ^ j) size) as [Hlt|Hge]; cbn [andb].
  - assert (j < 17) by (destruct (decide (j = 17)) as [->|]; lia).
    replace (2 ^ j <=? MAX_BUFFER_SIZE) with true by (unfold MAX_BUFFER_SIZE; lia). rewrite u64_double by lia.
    destruct (IH (j + 1)) as (k & E & Hk & Hsk & Hlk); [lia| |done|lia|].
    + right. by replace (j + 1 - 1) with j by lia.
    + exists k. split; [done|]. split; [lia|]. done.
  - exists j. split; [done|]. split; [lia|]. done.
Qed.

Lemma buffer_index_loop_spec fuel j k :
  5 <= j <= k -> k <= 17 -> k - j < Z.of_nat fuel ->
  buffer_index_loop fuel (2 ^ k) (2 ^ j) (j - 5) = Some (k - 5).
Proof.
  revert j. induction fuel as [|f IH]; intros j Hj Hk Hf; [lia|]. cbn [buffer_index_loop].
  destruct (decide (j = k)) as [->|Hne].
  - replace (2 ^ k <? 2 ^ k) with false by lia. done.
  - assert (2 ^ j < 2 ^ k) by (apply Z.pow_lt_mono_r; lia).
    replace (2 ^ j <? 2 ^ k) with true by lia.
    replace (j - 5 <? NUM_BUFFER_CACHES - 1) with true by (unfold NUM_BUFFER_CACHES; lia). cbn [andb].
    rewrite u64_double by lia. replace (j - 5 + 1) with (j + 1 - 5) by lia. apply IH; lia.
Qed.

(** [kmalloc] serves every supported size from the smallest size class
    that holds it: the rounding loop ends with a power of two between 2^5 and
    2^17 that is at least the size and less than twice it (above 32), and the
    index loop ends with the matching slot of [buffer_caches], in bounds. *)
Theorem kmalloc_size_class size :
  1 <= size <= MAX_BUFFER_SIZE ->
  exists i, round_up_pow2 size = Some (2 ^ (i + 5)) /\
    get_buffer_cache_index (2 ^ (i + 5)) = Some i /\
    0 <= i < NUM_BUFFER_CACHES /\ size <= 2 ^ (i + 5) /\ (i = 0 \/ 2 ^ (i + 5) < 2 * size).
Proof.
  intros Hs. unfold MAX_BUFFER_SIZE, NUM_BUFFER_CACHES in *.
  destruct (round_up_loop_spec 64 size 5) as (k & E & Hk & Hsk & Hlk); [lia|by left|lia|lia|].
  exists (k - 5). replace (k - 5 + 5) with k by lia. split; [exact E|].
  split; [apply (buffer_index_loop_spec 64 5 k); lia|]. split; [lia|]. split; [done|].
  destruct Hlk as [->|Hlk]; [by left|]. right.
  replace (2 ^ k) with (2 * 2 ^ (k - 1)); [lia|]. rewrite <- Z.pow_succ_r by lia. f_equal. lia.
Qed.

Lemma kmalloc_size_class_witness :
  exists i, round_up_pow2 100 = Some (2 ^ (i + 5)) /\
    get_buffer_cache_index (2 ^ (i + 5)) = Some i /\
    0 <= i < NUM_BUFFER_CACHES /\ 100 <= 2 ^ (i + 5) /\ (i = 0 \/ 2 ^ (i + 5) < 2 * 100).
Proof. apply (kmalloc_size_class 100). unfold MAX_BUFFER_SIZE. lia. Defined.

(** ** Requests above 32768 bytes *)

Section Big.
Context {S : Type} `{BA : BlockAllocator S} (R : ba_region).

(** The slot [i] of [buffer_caches] is empty or has the cache of its size. *)
Definition slot_ok (s : slst S) (i : Z) : Prop :=
  exists c, buffer_caches (sl_glob s) !! Z.to_nat i = Some c /\
    (c = 0 /\ (exists F, ba_inv R F (sl_base s)) \/ exists C F ssz, cache_inv R c (2 ^ (i + 5)) ssz 0 0 s C F).

(** Nobody is inside the allocator. *)
Record at_rest (s : slst S) : Prop := {
  ar_init : allocator_initialized (sl_glob s) <> 0;
  ar_list : lk_locked (cache_list_lock (sl_glob s)) = 0;
  ar_lock : lk_locked (buffer_cache_lock (sl_glob s)) = 0;
  ar_hart : hart_ok (hart_of s)
}.

Lemma hart_relock l h (s : slst S) : hart_of (set_buffer_lock l (set_hart h s)) = h.
Proof. change (hart_of (set_buffer_lock l (set_hart h s))) with (hart_of (set_hart h s)). apply hart_of_set_hart. Qed.

(** Taking or dropping [buffer_cache_lock] is nothing to the blocks and the
    caches. *)
Lemma ba_relock F (s : slst S) l h : ba_inv R F (sl_base s) -> hart_ok h -> ba_inv R F (sl_base (set_buffer_lock l (set_hart h s))).
Proof.
  intros HB Hh. eapply ba_client; [exact HB| | |].
  - unfold set_hart. cbn. by rewrite mach_of_set.
  - by rewrite hart_relock.
  - change (mem_of (set_buffer_lock l (set_hart h s))) with (mem_of (set_hart h s)). rewrite mem_of_set_hart. by intros x _.
Qed.

Lemma cache_relock p osz ssz (s : slst S) C F l h : cache_inv R p osz ssz 0 0 s C F -> hart_ok h ->
  cache_inv R p osz ssz 0 0 (set_buffer_lock l (set_hart h s)) C F.
Proof.
  intros [I1 I2 I3 I4 I5 I6] Hh. assert (mem_of (set_buffer_lock l (set_hart h s)) = mem_of s) as Em.
  { change (mem_of (set_buffer_lock l (set_hart h s))) with (mem_of (set_hart h s)). by rewrite mem_of_set_hart. }
  split; rewrite ?Em; try done. by apply ba_relock.
Qed.

Lemma slot_relock (s : slst S) i l h : slot_ok s i -> hart_ok h -> slot_ok (set_buffer_lock l (set_hart h s)) i.
Proof.
  intros (c & Hc & Hs) Hh. exists c. split; [done|]. destruct Hs as [(-> & F & HB)|(C & F & ssz & HI)]; [left|right].
  - split; [done|]. exists F. by apply ba_relock.
  - exists C, F, ssz. by apply cache_relock.
Qed.

Lemma wp_acquire_buffers (s : slst S) Q : at_rest s ->
  (let s' := set_buffer_lock (mkLock (lk_name (buffer_cache_lock (sl_glob s))) 1 (h_cpu (hart_of s))) (set_hart (push_off (hart_of s)) s) in Q tt s') ->
  wp acquire_buffers Q s.
Proof. intros Hr HQ. apply wp_acquire_in; [apply Hr|done]. Qed.

Lemma wp_release_buffers (s : slst S) h0 n Q : hart_ok h0 -> hart_of s = push_off h0 -> buffer_cache_lock (sl_glob s) = mkLock n 1 (h_cpu h0) ->
  (forall h l, hart_same h0 h -> lk_locked l = 0 -> Q tt (set_buffer_lock l (set_hart h s))) -> wp release_buffers Q s.
Proof.
  intros Hh Eh El HQ. destruct (pop_push_off h0 (push_off h0) Hh) as (h & Ep & Hs); [done|].
  eapply (wp_release_in get_buffer_lock set_buffer_lock Q s h).
  - unfold get_buffer_lock. by rewrite El.
  - unfold get_buffer_lock. rewrite El, Eh. done.
  - by rewrite Eh.
  - by apply HQ.
Qed.

(** [kmem_cache_alloc] on a cache of such a size gives null. *)
Lemma wp_alloc_big (s : slst S) i c C F ssz (Q : Z -> slst S -> Prop) : 11 <= i -> cache_inv R c (2 ^ (i + 5)) ssz 0 0 s C F ->
  (forall s' C' F', cache_inv R c (2 ^ (i + 5)) ssz 0 0 s' C' F' -> hart_same (hart_of s) (hart_of s') -> sl_glob s' = sl_glob s -> Q 0 s') ->
  wp (kmem_cache_alloc c) Q s.
Proof.
  intros Hi HI HQ. pose proof (ci_ok _ _ _ _ _ _ _ _ _ HI) as Hok. pose proof (Z.pow_le_mono_r 2 16 (i + 5) ltac:(lia) ltac:(lia)) as Hbig.
  apply (wp_kmem_cache_alloc R c (2 ^ (i + 5)) ssz 0 0 Hok s C F); [done| |].
  - intros s' C' F' [O1 O2 O3 _ _] _ _. by eapply HQ.
  - intros s' C' F' x _ _ Ha. exfalso. destruct (proj2 (Ha x) (or_intror eq_refl)) as (sl & _ & (k & Hk & _) & _).
    destruct (nobj_fits R c (2 ^ (i + 5)) ssz Hok) as (Hn & Hf & Hb). pose proof (ssz_range R c (2 ^ (i + 5)) ssz Hok).
    unfold asz, sizeof_slab, sizeof_object in *. nia.
Qed.

(** Dropping the lock ends the section that began with [h0]. *)
Lemma wp_leave (s : slst S) h0 n i (Q : unit -> slst S -> Prop) :
  hart_ok h0 -> hart_of s = push_off h0 -> buffer_cache_lock (sl_glob s) = mkLock n 1 (h_cpu h0) ->
  allocator_initialized (sl_glob s) <> 0 -> lk_locked (cache_list_lock (sl_glob s)) = 0 -> slot_ok s i ->
  (forall s', at_rest s' -> slot_ok s' i -> hart_same h0 (hart_of s') -> buffer_caches (sl_glob s') = buffer_caches (sl_glob s) -> Q tt s') ->
  wp release_buffers Q s.
Proof.
  intros Hh Eh El Hi Hl Hs HQ. eapply wp_release_buffers; [exact Hh|exact Eh|exact El|]. intros h l Sh Hlk.
  assert (hart_ok h) as Hh' by (by apply (hart_ok_proper _ _ Sh)). apply HQ; [|by apply slot_relock|by rewrite hart_relock|done].
  split; [done|done|done|]. by rewrite hart_relock.
Qed.

(** After the slot has been filled, or found filled. *)
Lemma wp_kmalloc_tail (s : slst S) i (Q : Z -> slst S -> Prop) : 11 <= i -> at_rest s -> slot_ok s i ->
  (forall s', at_rest s' -> slot_ok s' i -> hart_same (hart_of s) (hart_of s') -> Q 0 s') ->
  forall c, buffer_caches (sl_glob s) !! Z.to_nat i = Some c -> wp (if c =? 0 then mret 0 else kmem_cache_alloc c) Q s.
Proof.
  intros Hi Hr Hs HQ c Hc. pose proof Hs as (c' & Hc' & Hcase). rewrite Hc in Hc'. injection Hc' as <-.
  destruct (Z.eqb_spec c 0) as [->|Hne]; [by apply wp_ret, HQ|]. destruct Hcase as [[-> _]|(C & F & ssz & HI)]; [done|].
  eapply (wp_alloc_big s i c C F ssz); [done|done|]. intros s' C' F' HI' Hh Eg. apply HQ; [| |done].
  - destruct Hr as [R1 R2 R3 R4]. split; rewrite ?Eg; try done. by apply (hart_ok_proper _ _ Hh).
  - exists c. rewrite Eg. split; [done|]. right. by exists C', F', ssz.
Qed.

(** From the second reading of the slot on, in the section begun with [h0]. *)
Lemma wp_kmalloc_finish (s : slst S) hs h0 n i : 11 <= i -> hart_same hs h0 ->
  hart_ok h0 -> hart_of s = push_off h0 -> buffer_cache_lock (sl_glob s) = mkLock n 1 (h_cpu h0) ->
  allocator_initialized (sl_glob s) <> 0 -> lk_locked (cache_list_lock (sl_glob s)) = 0 -> slot_ok s i ->
  wp (s0 ← get; cache ← arr_get (buffer_caches (sl_glob s0)) i; release_buffers;; if cache =? 0 then mret 0 else kmem_cache_alloc cache)
    (fun r s' => r = 0 /\ at_rest s' /\ slot_ok s' i /\ hart_same hs (hart_of s')) s.
Proof.
  intros Hi H0 Hh Eh El Ha Hl Hs. pose proof Hs as (c & Hc & _). wp_steps. eapply wp_arr_get; [lia|exact Hc|]. wp_steps.
  eapply wp_leave; [exact Hh|exact Eh|exact El|exact Ha|exact Hl|exact Hs|]. intros s' Hr' Hs' Hh' Eb.
  apply (wp_kmalloc_tail s' i); [lia|done|done| |by rewrite Eb]. intros s2 Hr2 Hs2 Hh2. split_and!; try done.
  etrans; [exact H0|]. by etrans.
Qed.

(** What [kmem_cache_create] gave is put into the slot. *)
Lemma wp_kmalloc_install (s : slst S) hs i cache (Q : unit -> slst S -> Prop) : 0 <= i -> at_rest s -> hart_same hs (hart_of s) ->
  is_Some (buffer_caches (sl_glob s) !! Z.to_nat i) ->
  (cache = 0 /\ (exists F, ba_inv R F (sl_base s)) \/ exists C F ssz, cache_inv R cache (2 ^ (i + 5)) ssz 0 0 s C F) ->
  (forall s' n, hart_of s' = push_off (hart_of s) -> buffer_cache_lock (sl_glob s') = mkLock n 1 (h_cpu (hart_of s)) ->
     allocator_initialized (sl_glob s') <> 0 -> lk_locked (cache_list_lock (sl_glob s')) = 0 -> slot_ok s' i -> Q tt s') ->
  wp (acquire_buffers;; s0 ← get; l ← of_arr (arr_set (buffer_caches (sl_glob s0)) i cache); modify (set_buffer_caches l)) Q s.
Proof.
  intros Hi Hr H0 [c Hc] Hcase HQ. wp_step. apply wp_acquire_buffers; [done|]. cbv zeta. set (s1 := set_buffer_lock _ _). wp_steps.
  pose proof (lookup_lt_Some _ _ _ Hc) as Hlt. change (buffer_caches (sl_glob s1)) with (buffer_caches (sl_glob s)). rewrite arr_set_ok by lia. cbn [of_arr]. wp_steps.
  assert (hart_ok (push_off (hart_of s))) as Hp by (apply push_off_ok, Hr). apply (HQ _ (lk_name (buffer_cache_lock (sl_glob s)))).
  - exact (hart_relock _ (push_off (hart_of s)) s).
  - done.
  - apply Hr.
  - apply Hr.
  - exists cache. split; [by apply list_lookup_insert_eq|]. destruct Hcase as [(-> & F & HB)|(C & F & ssz & HI)]; [left; split; [done|]; exists F|right; exists C, F, ssz].
    + exact (ba_relock F s _ _ HB Hp).
    + destruct (cache_relock _ _ _ s C F (mkLock (lk_name (buffer_cache_lock (sl_glob s))) 1 (h_cpu (hart_of s))) _ HI Hp). by split.
Qed.

End Big.
(** The slot of a size above 2^15. *)
Definition big_slot (size : Z) : Z := if size <=? 65536 then 11 else 12.

Lemma big_slot_ok size : 32768 < size <= MAX_BUFFER_SIZE ->
  round_up_pow2 size = Some (2 ^ (big_slot size + 5)) /\ get_buffer_cache_index (2 ^ (big_slot size + 5)) = Some (big_slot size) /\ 11 <= big_slot size <= 12.
Proof.
  intros Hs. unfold MAX_BUFFER_SIZE in Hs. destruct (kmalloc_size_class size) as (k & E1 & E2 & Hk & Hsz & Hlo); [unfold MAX_BUFFER_SIZE; lia|].
  assert (big_slot size = k) as ->; [|split_and!; try done; unfold NUM_BUFFER_CACHES in Hk].
  - unfold big_slot, NUM_BUFFER_CACHES in *. destruct (Z.leb_spec size 65536) as [Hle|Hgt].
    + assert (10 < k < 12); [|lia]. split; apply Z.lt_nge; intros Hc.
      * pose proof (Z.pow_le_mono_r 2 (k + 5) 15). lia.
      * pose proof (Z.pow_le_mono_r 2 17 (k + 5)). lia.
    + assert (11 < k); [|lia]. apply Z.lt_nge. intros Hc. pose proof (Z.pow_le_mono_r 2 (k + 5) 16). lia.
  - apply Z.nlt_ge. intros Hc. pose proof (Z.pow_le_mono_r 2 (k + 5) 15). lia.
  - lia.
Qed.

(** C40: [kmalloc] takes sizes up to 2^17 but never serves one above 2^15.  In
    any state of the allocator, whatever is free and whatever the slot of the
    size in [buffer_caches] has (nothing, or the cache made for that size),
    a request of more than 32768 bytes returns null, and the state it leaves
    is one in which the next request does so again: a slab of at most 16
    blocks has no room for an object of 2^16 bytes and its headers. *)
Theorem kmalloc_fails_above_32768 {S} `{BA : BlockAllocator S} (R : ba_region) (s : slst S) size :
  32768 < size <= MAX_BUFFER_SIZE -> at_rest s -> slot_ok R s (big_slot size) ->
  wp (kmalloc size) (fun r s' => r = 0 /\ at_rest s' /\ slot_ok R s' (big_slot size) /\ hart_same (hart_of s) (hart_of s')) s.
Proof.
  intros Hsz Hr Hs. destruct (big_slot_ok size Hsz) as (E1 & E2 & Hi). set (i := big_slot size) in *. clearbody i. unfold kmalloc. wp_step. wp_step.
  rewrite (proj2 (Z.eqb_neq _ _) (ar_init _ Hr)). replace (false || (size =? 0) || (size >? MAX_BUFFER_SIZE)) with false by (cbn [orb]; lia). rewrite E1. cbn [of_opt]. wp_steps. rewrite E2. cbn [of_opt]. wp_steps.
 apply wp_acquire_buffers; [done|]. cbv zeta. set (s1 := set_buffer_lock _ _).
  pose proof (ar_hart _ Hr) as Hh. assert (hart_of s1 = push_off (hart_of s)) as Eh1 by apply hart_relock.
  assert (slot_ok R s1 i) as Hs1 by (apply slot_relock; [done|by apply push_off_ok]).
  pose proof Hs1 as (c & Hc & Hcase). wp_steps. eapply wp_arr_get; [lia|exact Hc|].
  destruct (Z.eqb_spec c 0) as [->|Hne]; wp_step.
  2: { wp_step. eapply wp_kmalloc_finish; [lia|reflexivity|exact Hh|exact Eh1|done|apply Hr|apply Hr|exact Hs1]. }
  wp_step. eapply wp_leave; [exact Hh|exact Eh1|done|apply Hr|apply Hr|exact Hs1|]. intros s2 Hr2 Hs2 Hh2 _.
  pose proof Hs2 as (c2 & Hc2 & Hcase2). assert (exists F, ba_inv R F (sl_base s2)) as [F HB].
  { destruct Hcase2 as [(_ & ?)|(C & F & ssz & HI)]; [done|]. exists F. apply HI. }
  wp_step. assert (1 <= 2 ^ (i + 5) <= MAX_BUFFER_SIZE) as Hpow.
  { unfold MAX_BUFFER_SIZE. pose proof (Z.pow_le_mono_r 2 (i + 5) 17). pose proof (pow2_pos (i + 5)). lia. }
  assert (forall cache s3, at_rest s3 -> hart_same (hart_of s2) (hart_of s3) -> buffer_caches (sl_glob s3) = buffer_caches (sl_glob s2) ->
    (cache = 0 /\ (exists F, ba_inv R F (sl_base s3)) \/ exists C F ssz, cache_inv R cache (2 ^ (i + 5)) ssz 0 0 s3 C F) ->
    wp (acquire_buffers;; s0 ← get; l ← of_arr (arr_set (buffer_caches (sl_glob s0)) i cache); modify (set_buffer_caches l))
      (fun _ => wp (s0 ← get; cache ← arr_get (buffer_caches (sl_glob s0)) i; release_buffers;; if cache =? 0 then mret 0 else kmem_cache_alloc cache)
        (fun r s' => r = 0 /\ at_rest s' /\ slot_ok R s' i /\ hart_same (hart_of s) (hart_of s'))) s3) as Hfin.
  { intros cache s3 Hr3 Hh3 Eb Hc3. assert (hart_same (hart_of s) (hart_of s3)) as Hs3 by (by etrans).
    eapply (wp_kmalloc_install R s3); [lia|exact Hr3|exact Hs3|by rewrite Eb, Hc2|exact Hc3|]. intros s4 n H1 H2 H3 H4 H5.
    eapply wp_kmalloc_finish; [lia|exact Hs3|apply Hr3|exact H1|exact H2|exact H3|exact H4|exact H5]. }
  eapply (wp_kmem_cache_create R F s2); [exact HB|apply Hr2|apply Hr2|exact Hpow|lia| |].
  - intros s3 HB3 Hh3 Eg _ _. apply Hfin; [|done|by rewrite Eg|left; split; [done|]; by exists F].
    destruct Hr2 as [A1 A2 A3 A4]. split; rewrite ?Eg; try done. by apply (hart_ok_proper _ _ Hh3).
  - intros p s3 C F3 ssz _ HI _ _ Hh3 _ Hl3 Ei Eb El _ _. apply Hfin; [|done|done|right; by exists C, F3, ssz].
    destruct Hr2 as [A1 A2 A3 A4]. split; rewrite ?Ei, ?El; try done. by apply (hart_ok_proper _ _ Hh3).
Qed.

(** Right after [kmem_init], and again after such a request. *)
Lemma kmalloc_fails_above_32768_witness :
  wp (kmalloc 100000) (fun r s' => r = 0 /\ at_rest s' /\ slot_ok (BA := buddy_BlockAllocator) demo_region s' 12 /\
    hart_same (hart_of slab_demo) (hart_of s')) slab_demo.
Proof.
  destruct slab_demo_ok as ([F HF] & Hi & Hl).
  refine (kmalloc_fails_above_32768 (BA := buddy_BlockAllocator) demo_region slab_demo 100000 _ _ _); [unfold MAX_BUFFER_SIZE; lia| |].
  - split; [by rewrite Hi|exact Hl|vm_compute; reflexivity|]. exact (ba_hart (BlockAllocator := buddy_BlockAllocator) demo_region F _ HF).
  - exists 0. split; [vm_compute; reflexivity|]. left. split; [reflexivity|]. exists F. exact HF.
Defined.
