(* ===== verification/SlabClient.v ===== *)
(** * Programs that use a cache of kernel/slab.c

    A client of a cache allocates objects, frees them and stores into the
    ones it holds, in any order.  Whatever it does, the objects it holds lie
    apart and have exactly the bytes it stored last: neither
    [kmem_cache_alloc] nor [kmem_cache_free] ever writes into them. *)

From Stdlib Require Import ZArith Lia Bool String.
From stdpp Require Import base gmap list strings functions.
From S2P Require Import Prelude Mem MemList Spinlock BuddySpec Buddy BuddyProof BuddyThms BlockAlloc.
From S2P Require Import Slab SlabProof SlabLife SlabCreate SlabThms.

Section Client.
Context {S : Type} `{BA : BlockAllocator S} (R : ba_region) (p osz ssz : Z).

Abbreviation st := (slst S).
Abbreviation inv := (cache_inv R p osz ssz 0 0).
Abbreviation live_list := (list (Z * list Z)).

(** What a client does; it names the objects it holds by their place in a
    list of pointers and the contents it expects there. *)
Inductive kop := KAlloc | KFree (i : nat) | KStore (i : nat) (off v : Z).

Definition client (o : kop) (live : live_list) : M st live_list :=
  match o with
  | KAlloc =>
      q ← kmem_cache_alloc p;
      if q =? 0 then mret live else s ← get; mret (live ++ [(q, contents (mem_of s) q osz)])
  | KFree i =>
      match live !! i with
      | Some (q, _) => kmem_cache_free p q;; mret (delete i live)
      | None => mret live
      end
  | KStore i off v =>
      match live !! i with
      | Some (q, d) =>
          if (0 <=? off) && (off <? osz) then
            modify (fun s => set_mem (stb (mem_of s) (q + off) v) s);;
            mret (<[i := (q, <[Z.to_nat off := v mod 256]> d)]> live)
          else mret live
      | None => mret live
      end
  end.

Fixpoint program (ops : list kop) (live : live_list) : M st live_list :=
  match ops with [] => mret live | o :: ops => live ← client o live; program ops live end.

(** ** Stores into objects *)

(** A byte of the payload of an object of the slab [a]. *)
Definition payload (a b : Z) : Prop := exists x, is_obj osz ssz a x /\ x + sizeof_object <= b < x + asz osz.

Lemma payload_range a b : cache_ok R p osz ssz -> payload a b -> a + 64 <= b < a + sbytes ssz.
Proof.
  intros Hok (x & Hx & Hb). destruct (obj_range R p osz ssz _ _ Hok Hx). unfold sizeof_slab, sizeof_object in *. lia.
Qed.

Lemma payload_header a b x : cache_ok R p osz ssz -> payload a b -> is_obj osz ssz a x -> ~ (x <= b < x + sizeof_object).
Proof.
  intros Hok (y & Hy & Hb) Hx Hxb. destruct (decide (x = y)) as [->|Hne]; [lia|]. pose proof (co_osz _ _ _ _ Hok).
  destruct (obj_sep R p osz ssz _ _ _ Hok Hx Hy Hne); unfold asz, sizeof_object in *; lia.
Qed.

(** The bookkeeping of a slab survives a store into one of its objects. *)
Lemma slab_rep_payload m sl b v : cache_ok R p osz ssz -> payload sl.1 b -> slab_rep R p osz ssz m sl -> slab_rep R p osz ssz (stb m b v) sl.
Proof.
  intros Hok Hb [R1 R2 R3 R4 R5 R6 R7 R8 R9]. pose proof (payload_range _ _ Hok Hb) as Hr. destruct sl as [a fl]. cbn [fst snd] in *.
  assert (modifies (fun y => y = b) m (stb m b v)) as HM by (by apply modifies_stb).
  assert (forall n o, 0 <= o -> o + Z.of_nat n <= 64 -> ld n (stb m b v) (a + o) = ld n m (a + o)) as Hld.
  { intros n o H1 H2. apply (ld_modifies _ _ _ _ _ HM). intros y Hy ->. lia. }
  assert (forall x y, is_obj osz ssz a x -> x <= y < x + 16 -> y <> b) as Hobj.
  { intros x y Hx Hy ->. by apply (payload_header a b x Hok Hb Hx). }
  unfold ld64, ld32, sl_mem, sl_num_objects_max, sl_num_free, sl_free_list, sl_cache in *.
  split; cbn [fst snd]; unfold ld64, ld32, sl_mem, sl_num_objects_max, sl_num_free, sl_free_list, sl_cache; rewrite ?Hld by lia; try done.
  - eapply sll_modifies; [exact HM| |exact R5]. intros x y Hx Hy. apply (Hobj x); [by apply R8|lia].
  - intros x Hx Hn. rewrite <- (R9 x Hx Hn). apply (ld_modifies _ _ _ _ _ HM). intros y Hy. apply (Hobj x); [done|]. unfold ob_slab in *. lia.
Qed.

(** A store into an object leaves the cache in order. *)
Lemma store_keeps (s : st) C F x off v : inv s C F -> allocated osz ssz C x -> 0 <= off < osz ->
  inv (set_mem (stb (mem_of s) (x + sizeof_object + off) v) s) C F.
Proof.
  intros HI Hx Hoff. pose proof (live_apart R p osz ssz s C F x HI Hx) as [_ Hw]. set (b := x + sizeof_object + off) in *.
  assert (bytes_of (x + sizeof_object) osz b) as Hb by (unfold bytes_of, b; lia). specialize (Hw b Hb).
  pose proof HI as [Hok Hp Hsh Ho Hl Hba]. destruct Hx as (sl & Hin & Hxo & _). pose proof (elem_addrs _ _ Hin) as Ha.
  assert (payload sl.1 b) as Hpay by (exists x; split; [done|unfold asz, b in *; lia]). pose proof (payload_range _ _ Hok Hpay) as Hr.
  destruct (cp_spaced _ _ _ _ _ _ _ _ Hp) as [_ Hsp]. pose proof (cp_apart _ _ _ _ _ _ _ _ Hp _ Ha) as Hap. destruct Ho as [Ho1 Ho2].
  assert (modifies (fun y => y = b) (mem_of s) (stb (mem_of s) b v)) as HM by (by apply modifies_stb).
  assert (forall n o, 0 <= o -> o + Z.of_nat n <= 4096 -> ld n (stb (mem_of s) b v) (p + o) = ld n (mem_of s) (p + o)) as Hld.
  { intros n o H1 H2. apply (ld_modifies _ _ _ _ _ HM). intros y Hy ->. lia. }
  destruct Hp as [P1 P2 P3 P4 P5 P6 P7 P8 P9 P10].
  split; rewrite ?mem_of_set_mem; try done; [split; try done| |].
  1-4, 6-7: unfold ld64, ld32 in *; rewrite Hld by (unfold ca_object_size, ca_aligned_size, ca_slab_size, ca_error_detection, ca_num_slabs, ca_num_allocated; lia); done.
  - intros i. eapply dll_at_modifies; [exact HM| |apply P5]. intros y [Hy|(a & Hay & Hy)] ->; [pose proof (off_range i); lia|].
    assert (a ∈ addrs (slabs C)) as Ha' by (by eapply addr_slabs). destruct (decide (a = sl.1)) as [->|Hne]; [lia|]. destruct (Hsp a sl.1 Ha' Ha Hne); lia.
  - intros sl' Hin'. destruct (decide (sl'.1 = sl.1)) as [E|Hne].
    + apply slab_rep_payload; [done|by rewrite E|by apply P8].
    + eapply slab_rep_modifies; [exact Hok|exact HM| |by apply P8]. intros y Hy ->. destruct (Hsp sl'.1 sl.1 (elem_addrs _ _ Hin') Ha Hne); lia.
  - unfold ld32 in *. rewrite Hld by (unfold ca_lock; lia). done.
  - eapply ba_client; [exact Hba|apply sl_base_set_mem|rewrite hart_of_set_mem; exact (ba_hart _ _ _ Hba)|].
    rewrite mem_of_set_mem. intros y Hy. apply HM. intros ->. apply Hy. intros HF. apply Hw. right. by right.
Qed.

(** ** What a client holds *)

(** The pointers of the client are the payloads of the allocated objects, and
    their bytes are the ones it expects. *)
Record owns (s : st) (C : lid -> list (Z * list Z)) (live : live_list) : Prop := {
  ow_nodup : NoDup live.*1;
  ow_all : forall x, allocated osz ssz C x <-> x + sizeof_object ∈ live.*1;
  ow_bytes : forall q d, (q, d) ∈ live -> contents (mem_of s) q osz = d
}.

Lemma owns_object s C live q d : owns s C live -> (q, d) ∈ live -> exists x, q = x + sizeof_object /\ allocated osz ssz C x.
Proof.
  intros Ho Hq. exists (q - sizeof_object). split; [lia|]. apply (ow_all _ _ _ Ho). replace (q - sizeof_object + sizeof_object) with q by lia.
  apply list_elem_of_fmap. by exists (q, d).
Qed.

(** An operation that writes only what it may keeps every payload. *)
Lemma kept_bytes (s s' : st) C F C' F' live : inv s C F -> owns s C live -> cache_op R p osz ssz 0 0 s s' C F C' F' ->
  forall q d, (q, d) ∈ live -> contents (mem_of s') q osz = d.
Proof.
  intros HI Ho Hop q d Hq. destruct (owns_object _ _ _ _ _ Ho Hq) as (x & -> & Hx). rewrite <- (ow_bytes _ _ _ Ho _ _ Hq).
  apply contents_ext. intros b Hb. apply (op_mem _ _ _ _ _ _ _ _ _ _ _ _ Hop). by apply (live_apart R p osz ssz s C F x HI Hx).
Qed.

Lemma held_delete (s s' : st) C C' live i q d : owns s C live -> live !! i = Some (q, d) ->
  (forall q d, (q, d) ∈ live -> contents (mem_of s') q osz = d) ->
  (forall y, allocated osz ssz C' y <-> allocated osz ssz C y /\ y + sizeof_object <> q) -> owns s' C' (delete i live).
Proof.
  intros [H1 H2 _] Hi Hb Ha. rewrite <- (take_drop_middle _ _ _ Hi) in H1, H2, Hb. rewrite fmap_app in H1, H2. cbn [fmap list_fmap fst] in H1, H2.
  rewrite delete_take_drop. rewrite <- Permutation_middle in H1. apply list.NoDup_cons in H1 as [Hn H1]. split.
  - by rewrite fmap_app.
  - intros x. rewrite Ha, H2, fmap_app. rewrite !elem_of_app, elem_of_cons. rewrite elem_of_app in Hn. split; [tauto|].
    intros Hx. split; [tauto|]. intros E. rewrite E in Hx. tauto.
  - intros q' d' Hq. apply Hb. rewrite elem_of_app in Hq |- *. rewrite elem_of_cons. tauto.
Qed.

Lemma held_store (s : st) C F live i q d off v : inv s C F -> owns s C live -> live !! i = Some (q, d) -> 0 <= off < osz ->
  owns (set_mem (stb (mem_of s) (q + off) v) s) C (<[i := (q, <[Z.to_nat off := v mod 256]> d)]> live).
Proof.
  intros HI Ho Hi Hoff. pose proof Ho as [H1 H2 H3]. assert ((<[i := (q, <[Z.to_nat off := v mod 256]> d)]> live).*1 = live.*1) as E.
  { rewrite list_fmap_insert. cbn. apply list_insert_id. by rewrite list_lookup_fmap, Hi. }
  split; rewrite ?E; [done|done|]. intros q' d' Hq. rewrite mem_of_set_mem. apply list_elem_of_lookup in Hq as (j & Hj). destruct (decide (i = j)) as [<-|Hne].
  - rewrite list_lookup_insert_eq in Hj by (by eapply lookup_lt_Some). injection Hj as <- <-. rewrite contents_stb by lia. f_equal.
    apply H3. by eapply list_elem_of_lookup_2.
  - rewrite list_lookup_insert_ne in Hj by done. rewrite <- (H3 q' d') by (by eapply list_elem_of_lookup_2). apply contents_ext. intros b Hb.
    rewrite rdb_stb, decide_False; [done|]. intros ->. destruct (owns_object _ _ _ q d Ho) as (x & -> & Hx); [by eapply list_elem_of_lookup_2|].
    destruct (owns_object _ _ _ q' d' Ho) as (y & -> & Hy); [by eapply list_elem_of_lookup_2|].
    assert (x <> y) as Hxy by (intros ->; apply Hne; eapply NoDup_lookup; [exact H1| |]; rewrite list_lookup_fmap; [by rewrite Hi|by rewrite Hj]).
    destruct (proj1 (live_apart R p osz ssz s C F x HI Hx) y Hy Hxy); unfold sizeof_object in *; lia.
Qed.

Lemma wp_kop o live (s : st) C F : inv s C F -> owns s C live ->
  wp (client o live) (fun live' s' => exists C' F', inv s' C' F' /\ owns s' C' live') s.
Proof.
  intros HI Ho. destruct o as [|i|i off v]; cbn [client].
  - wp_step. apply (wp_kmem_cache_alloc R p osz ssz 0 0 (ci_ok _ _ _ _ _ _ _ _ _ HI) s C F _ HI).
    + intros s' C' F' Hop Ha _. apply wp_ret. exists C', F'. split; [apply Hop|]. split; [apply Ho| |by eapply kept_bytes].
      intros x. rewrite Ha. apply Ho.
    + intros s' C' F' x Hop Hx Ha. assert (x + sizeof_object <> 0) as Hnz.
      { destruct (proj2 (Ha x) ltac:(by right)) as (sl & Hin & Hxo & _). pose proof (op_inv _ _ _ _ _ _ _ _ _ _ _ _ Hop) as HI'.
        destruct (obj_range R p osz ssz _ _ (ci_ok _ _ _ _ _ _ _ _ _ HI') Hxo). pose proof (sr_block _ _ _ _ _ _ (cp_slabs _ _ _ _ _ _ _ _ (ci_pre _ _ _ _ _ _ _ _ _ HI') _ Hin)) as Hb.
        pose proof (ba_block_range _ _ _ Hb). unfold sizeof_slab, sizeof_object in *. lia. }
      rewrite (proj2 (Z.eqb_neq _ _) Hnz). wp_steps. exists C', F'. split; [apply Hop|]. pose proof Ho as [H1 H2 H3]. split.
      * rewrite fmap_app. cbn. apply list.NoDup_app. split_and!; [done| |apply list.NoDup_singleton]. intros q Hq ->%list_elem_of_singleton. by apply Hx, H2.
      * intros y. rewrite Ha, H2, fmap_app, elem_of_app. cbn. rewrite list_elem_of_singleton. unfold sizeof_object. split; intros [?|?]; auto; right; lia.
      * intros q d [Hq|Hq%list_elem_of_singleton]%elem_of_app; [by eapply kept_bytes|by injection Hq as -> ->].
  - destruct (live !! i) as [[q d]|] eqn:Ei; [|wp_steps; eauto]. destruct (owns_object _ _ _ q d Ho) as (x & -> & Hx); [by eapply list_elem_of_lookup_2|].
    wp_step. apply (wp_kmem_cache_free R p osz ssz 0 0 (ci_ok _ _ _ _ _ _ _ _ _ HI) s C F x _ HI Hx). intros s' C' Hop Ha. wp_step.
    exists C', F. split; [apply Hop|]. eapply held_delete; [exact Ho|exact Ei|by eapply kept_bytes|]. intros y. rewrite Ha. unfold sizeof_object. split; intros [? ?]; (split; [done|lia]).
  - destruct (live !! i) as [[q d]|] eqn:Ei; [|wp_steps; eauto]. destruct ((0 <=? off) && (off <? osz)) eqn:Eo; [|wp_steps; eauto].
    wp_steps. exists C, F. split; [|eapply held_store; [exact HI|done|done|lia]].
    destruct (owns_object _ _ _ q d Ho) as (x & -> & Hx); [by eapply list_elem_of_lookup_2|]. apply store_keeps; [done|done|lia].
Qed.

Lemma wp_kops ops live (s : st) C F : inv s C F -> owns s C live ->
  wp (program ops live) (fun live' s' => exists C' F', inv s' C' F' /\ owns s' C' live') s.
Proof.
  revert live s C F. induction ops as [|o ops IH]; intros live s C F HI Ho; cbn [program]; [apply wp_ret; eauto|].
  apply wp_bind. eapply wp_mono; [by apply (wp_kop o live s C F)|]. intros live' s' (C' & F' & HI' & Ho'). by eapply IH.
Qed.

End Client.

(** C19: clients own what [kmem_cache_alloc] gave them.  Take a cache of which
    no object is allocated, and any sequence of [kmem_cache_alloc] and
    [kmem_cache_free] calls and of stores into objects the client holds.  No
    call panics, faults or loops, and at the end the cache is in order, the
    objects it counts as allocated are exactly the ones the client holds,
    every one of them has exactly the bytes the client stored last (or found
    there when it got it), and any two lie apart. *)
Theorem live_objects_isolated {S} `{BA : BlockAllocator S} (R : ba_region) p osz ssz (s : slst S) C F ops :
  cache_inv R p osz ssz 0 0 s C F -> (forall x, ~ allocated osz ssz C x) ->
  wp (program p osz ops []) (fun live s' =>
    (exists C' F', cache_inv R p osz ssz 0 0 s' C' F' /\ forall x, allocated osz ssz C' x <-> x + sizeof_object ∈ live.*1) /\
    (forall q d, (q, d) ∈ live -> contents (mem_of s') q osz = d) /\
    (forall i j q d q' d', live !! i = Some (q, d) -> live !! j = Some (q', d') -> i <> j -> q + osz <= q' \/ q' + osz <= q)) s.
Proof.
  intros HI Hno. eapply wp_mono; [apply (wp_kops R p osz ssz ops [] s C F HI)|].
  { split; [constructor| |by intros q d ?%elem_of_nil]. intros x. split; [by intros ?%Hno|by intros ?%elem_of_nil]. }
  intros live s' (C' & F' & HI' & Ho). pose proof Ho as [H1 H2 H3]. split_and!; [by exists C', F'|done|].
  intros i j q d q' d' Hi Hj Hne. destruct (owns_object osz ssz _ _ _ q d Ho) as (x & -> & Hx); [by eapply list_elem_of_lookup_2|].
  destruct (owns_object osz ssz _ _ _ q' d' Ho) as (y & -> & Hy); [by eapply list_elem_of_lookup_2|].
  assert (x <> y) as Hxy by (intros ->; apply Hne; eapply NoDup_lookup; [exact H1| |]; rewrite list_lookup_fmap; [by rewrite Hi|by rewrite Hj]).
  destruct (proj1 (live_apart R p osz ssz s' C' F' x HI' Hx) y Hy Hxy); unfold sizeof_object in *; lia.
Qed.

(** Three objects, one of them freed and its place used again. *)
Definition demo_kops : list kop := [KAlloc; KAlloc; KStore 0 5 7; KAlloc; KStore 1 999 8; KFree 1; KAlloc; KStore 0 6 9].

Lemma live_objects_isolated_witness :
  (match program demo_cache 1000 demo_kops [] demo_state with
   | Ret (live, _) => (fun x => (x.1, take 7 x.2)) <$> live = [(73792, [0; 0; 0; 0; 0; 7; 9]); (75824, replicate 7 0); (74808, replicate 7 0)]
   | _ => False end) /\
  wp (program demo_cache 1000 demo_kops []) (fun live s' =>
    (exists C' F', cache_inv (BA := buddy_BlockAllocator) demo_region demo_cache 1000 2 0 0 s' C' F' /\ forall x, allocated 1000 2 C' x <-> x + sizeof_object ∈ live.*1) /\
    (forall q d, (q, d) ∈ live -> contents (mem_of s') q 1000 = d) /\
    (forall i j q d q' d', live !! i = Some (q, d) -> live !! j = Some (q', d') -> i <> j -> q + 1000 <= q' \/ q' + 1000 <= q)) demo_state.
Proof.
  split; [vm_compute; reflexivity|]. destruct demo_cache_inv as (C & F & HI & Hno & _).
  exact (live_objects_isolated (BA := buddy_BlockAllocator) demo_region demo_cache 1000 2 demo_state C F demo_kops HI Hno).
Defined.
