(* ===== verification/Kalloc.v ===== *)
(** * The page allocator (kernel/kalloc.c)

    Free pages form a singly linked list through their first 8 bytes.  [kst]
    is the machine plus the static [kmem] struct; [kend] is the address of
    the linker symbol [end].  The invariant says that the list visits
    distinct, page-aligned pages between [end] and PHYSTOP. *)

From Stdlib Require Import ZArith Lia Bool String.
From stdpp Require Import base gmap list strings.
From S2P Require Import Prelude Mem MemList Spinlock.

Definition PGSIZE : Z := 4096.
Definition KERNBASE : Z := 2147483648.
Definition PHYSTOP : Z := KERNBASE + 128 * 1024 * 1024.
Definition SLAB_RESERVED_BLOCKS : Z := 1024.

(** [((sz)+PGSIZE-1) & ~(PGSIZE-1)] and [(a) & ~(PGSIZE-1)] on [uint64]. *)
Definition PGROUNDUP (sz : Z) : Z := Z.land (u64 (sz + PGSIZE - 1)) (u64 (Z.lnot (PGSIZE - 1))).
Definition PGROUNDDOWN (a : Z) : Z := Z.land a (u64 (Z.lnot (PGSIZE - 1))).

Record kst := mkKst { k_mach : mach; kmem_lock : spinlock; freelist : Z }.

#[export] Instance kst_HasMach : HasMach kst.
Proof.
  refine {| mach_of := k_mach; set_mach := fun m s => mkKst m (kmem_lock s) (freelist s) |};
    [done| |done]. by intros [].
Defined.

Definition set_kmem_lock (lk : spinlock) (s : kst) : kst := mkKst (k_mach s) lk (freelist s).
Definition set_freelist (v : Z) (s : kst) : kst := mkKst (k_mach s) (kmem_lock s) v.

Section Kalloc.
Context (kend : Z).

Definition page_kfree (pa : Z) : M kst unit :=
  if negb (pa mod PGSIZE =? 0) || (pa <? kend) || (pa >=? PHYSTOP) then panic "page_kfree"
  else
    modify (fun s => set_mem (memset (mem_of s) pa 1 PGSIZE) s);;
    acquire_in kmem_lock set_kmem_lock;;
    s ← get;
    setf 8 pa 0 (freelist s);;
    modify (set_freelist pa);;
    release_in kmem_lock set_kmem_lock.

Definition kalloc : M kst Z :=
  acquire_in kmem_lock set_kmem_lock;;
  r ← gets freelist;
  (if negb (r =? 0) then n ← getf 8 r 0; modify (set_freelist n) else mret tt);;
  release_in kmem_lock set_kmem_lock;;
  (if negb (r =? 0) then modify (fun s => set_mem (memset (mem_of s) r 5 PGSIZE) s) else mret tt);;
  mret r.

(** [for(; p + PGSIZE <= pa_end; p += PGSIZE)]; the number of whole pages
    bounds the loop. *)
Fixpoint freerange_loop (fuel : nat) (p pa_end : Z) : M kst unit :=
  match fuel with
  | O => out_of_fuel
  | S f =>
      if p + PGSIZE <=? pa_end then page_kfree p;; freerange_loop f (p + PGSIZE) pa_end
      else mret tt
  end.

Definition freerange (pa_start pa_end : Z) : M kst unit :=
  freerange_loop (S (Z.to_nat ((pa_end - PGROUNDUP pa_start) / PGSIZE))) (PGROUNDUP pa_start) pa_end.

Definition kinit : M kst unit :=
  modify (set_kmem_lock (initlock "kmem"));;
  freerange kend (PHYSTOP - SLAB_RESERVED_BLOCKS * 4096).

(** ** Invariant *)

#[local] Opaque memset.

Definition page_ok (pa : Z) : Prop := (PGSIZE | pa) /\ kend <= pa < PHYSTOP.

Record kinv (s : kst) (l : list Z) : Prop := {
  ki_end : 0 < kend;
  ki_list : sll (mem_of s) (freelist s) l;
  ki_nodup : NoDup l;
  ki_pages : forall pa, pa ∈ l -> page_ok pa;
  ki_lock : lk_locked (kmem_lock s) = 0;
  ki_hart : hart_ok (hart_of s)
}.

Lemma page_range pa : 0 < kend -> page_ok pa -> 0 < pa /\ pa + PGSIZE <= 2 ^ 32 /\ pa mod PGSIZE = 0.
Proof.
  intros He [Hd Hr]. unfold page_ok, PHYSTOP, KERNBASE, PGSIZE in *.
  split; [lia|]. apply Z.mod_divide in Hd; [|lia]. split; [|done]. destruct (Z.mod_divide pa 4096); zdiv.
Qed.

Lemma pages_apart pa pb : page_ok pa -> page_ok pb -> pa <> pb -> pa + PGSIZE <= pb \/ pb + PGSIZE <= pa.
Proof. intros [[i ->] _] [[j ->] _] Hne. unfold PGSIZE in *. assert (i <> j) by congruence. lia. Qed.

Lemma sll_memset m pa c l p :
  sll m p l -> (forall x, x ∈ l -> pa + PGSIZE <= x \/ x + PGSIZE <= pa) ->
  sll (memset m pa c PGSIZE) p l.
Proof.
  intros Hl Hs. eapply sll_modifies; [apply modifies_memset| |done].
  intros x b Hx Hb. destruct (Hs x Hx); unfold bytes_of, PGSIZE in *; lia.
Qed.

Lemma wp_page_kfree s l pa Q :
  kinv s l -> page_ok pa -> pa ∉ l ->
  (forall s', kinv s' (pa :: l) -> hart_same (hart_of s) (hart_of s') ->
     modifies (bytes_of pa PGSIZE) (mem_of s) (mem_of s') -> Q tt s') ->
  wp (page_kfree pa) Q s.
Proof.
  intros [K1 K2 K3 K4 K5 K6] Hp Hn HQ. destruct (page_range pa K1 Hp) as (Hp1 & Hp2 & Hp3).
  unfold page_kfree. rewrite Hp3. pose proof Hp as [Hd Hr].
  replace (negb (0 =? 0) || (pa <? kend) || (pa >=? PHYSTOP)) with false by (simpl; lia).
  wp_step. apply wp_modify. set (s0 := set_mem _ s).
  assert (forall x, x ∈ l -> pa + PGSIZE <= x \/ x + PGSIZE <= pa) as Hsep.
  { intros x Hx. apply pages_apart; [exact Hp|exact (K4 x Hx)|]. intros ->. exact (Hn Hx). }
  wp_step. apply wp_acquire_in; [done|]. set (s1 := set_kmem_lock _ _).
  wp_step. apply wp_get. wp_step. apply wp_setf; [lia|]. wp_step. apply wp_modify.
  set (s2 := set_freelist pa _).
  destruct (pop_push_off (hart_of s) (hart_of s2) K6) as (h & Ep & Hs); [done|].
  eapply wp_release_in; [done|done|exact Ep|]. set (s3 := set_kmem_lock _ _).
  assert (mem_of s3 = st64 (memset (mem_of s) pa 1 PGSIZE) pa (freelist s)) as Em3.
  { change (mem_of s3) with (st 8 (memset (mem_of s) pa 1 PGSIZE) (pa + 0) (freelist s)). by rewrite Z.add_0_r. }
  assert (freelist s3 = pa) as Ef3 by reflexivity.
  assert (lk_locked (kmem_lock s3) = 0) as El3 by reflexivity.
  assert (hart_of s3 = h) as Eh3 by reflexivity. clearbody s3. clear s2 s1 s0 Ep.
  apply HQ.
  - split.
    + exact K1.
    + rewrite Em3, Ef3. apply sll_push; [by apply sll_memset|unfold PGSIZE in *; lia|].
      intros y Hy. destruct (Hsep y Hy); unfold PGSIZE in *; lia.
    + by constructor.
    + intros x [->|Hx]%elem_of_cons; [exact Hp|exact (K4 x Hx)].
    + exact El3.
    + rewrite Eh3. by apply (hart_ok_proper _ _ Hs).
  - by rewrite Eh3.
  - rewrite Em3. eapply modifies_trans; [apply modifies_memset|]. apply modifies_st64.
    unfold bytes_of, PGSIZE. lia.
Qed.

Lemma wp_kalloc s l (Q : Z -> kst -> Prop) :
  kinv s l ->
  (l = [] -> forall s', kinv s' [] -> hart_same (hart_of s) (hart_of s') ->
     mem_of s' = mem_of s -> Q 0 s') ->
  (forall pa l' s', l = pa :: l' -> kinv s' l' -> hart_same (hart_of s) (hart_of s') ->
     mem_of s' = memset (mem_of s) pa 5 PGSIZE -> Q pa s') ->
  wp kalloc Q s.
Proof.
  intros [K1 K2 K3 K4 K5 K6] H0 H1. unfold kalloc. wp_step. apply wp_acquire_in; [done|].
  set (s1 := set_kmem_lock _ _). wp_step. apply wp_gets. change (freelist s1) with (freelist s).
  assert (forall s2, kmem_lock s2 = kmem_lock s1 -> hart_of s2 = hart_of s1 ->
    exists h, pop_off (hart_of s2) = Ret h /\ hart_same (hart_of s) h) as Hpop.
  { intros s2 El Eh. apply pop_push_off; [done|by rewrite Eh]. }
  destruct l as [|pa l']; simpl in K2.
  - rewrite K2. cbn [negb Z.eqb]. wp_step. wp_step. destruct (Hpop s1) as (h & Ep & Hs); [reflexivity..|].
    wp_step. eapply wp_release_in; [discriminate|reflexivity|exact Ep|]. set (s3 := set_kmem_lock _ _).
    wp_steps. apply H0; [done| |exact Hs|reflexivity].
    split; [exact K1|exact K2|exact K3|exact K4|reflexivity|]. by apply (hart_ok_proper _ _ Hs).
  - destruct K2 as (E & Hr & K2). rewrite E. replace (pa =? 0) with false by lia. cbn [negb].
    assert (page_ok pa) as Hpa by (apply K4; constructor).
    apply list.NoDup_cons in K3 as [Hn K3].
    wp_step. wp_step. apply wp_getf; [lia|]. apply wp_modify. rewrite Z.add_0_r.
    set (s2 := set_freelist _ s1). destruct (Hpop s2) as (h & Ep & Hs); [reflexivity..|].
    wp_step. eapply wp_release_in; [discriminate|reflexivity|exact Ep|]. set (s3 := set_kmem_lock _ _).
    wp_step. apply wp_modify. wp_step.
    eapply H1; [done| |exact Hs|reflexivity]. split.
    + exact K1.
    + apply sll_memset; [exact K2|]. intros x Hx.
      apply pages_apart; [exact Hpa|apply K4; by constructor|]. intros ->. exact (Hn Hx).
    + exact K3.
    + intros x Hx. apply K4. by constructor.
    + reflexivity.
    + by apply (hart_ok_proper _ _ Hs).
Qed.

(** ** Initialisation *)

(** The page-aligned addresses [p, p + PGSIZE, ...] of [n] pages, the last
    one first, the order in which [freerange] leaves them on the list. *)
Fixpoint pages_down (n : nat) (p : Z) (acc : list Z) : list Z :=
  match n with O => acc | S n => pages_down n (p + PGSIZE) (p :: acc) end.

Lemma elem_of_pages_down n p acc x :
  x ∈ pages_down n p acc <-> x ∈ acc \/ exists i, 0 <= i < Z.of_nat n /\ x = p + i * PGSIZE.
Proof.
  revert p acc. induction n as [|n IH]; intros p acc; simpl.
  - split; [auto|]. intros [H|(i & H & _)]; [done|lia].
  - rewrite IH, elem_of_cons. split.
    + intros [[->|H]|(i & H & ->)]; [right; exists 0; lia|auto|right; exists (i + 1); lia].
    + intros [H|(i & H & ->)]; [auto|]. destruct (decide (i = 0)) as [->|Hi].
      * left; left. lia.
      * right. exists (i - 1). lia.
Qed.

Lemma wp_freerange_loop n s l p pa_end fuel Q :
  kinv s l -> (n < fuel)%nat -> (PGSIZE | p) -> kend <= p ->
  p + Z.of_nat n * PGSIZE <= pa_end < p + (Z.of_nat n + 1) * PGSIZE -> pa_end <= PHYSTOP ->
  (forall x, x ∈ l -> x < p) ->
  (forall s', kinv s' (pages_down n p l) -> hart_same (hart_of s) (hart_of s') -> Q tt s') ->
  wp (freerange_loop fuel p pa_end) Q s.
Proof.
  revert s l p fuel. induction n as [|n IH]; intros s l p fuel Hk Hf Hd Hp He Ht Hl HQ;
    (destruct fuel as [|fuel]; [lia|]); simpl.
  - replace (p + PGSIZE <=? pa_end) with false by (unfold PGSIZE in *; lia). apply wp_ret. by apply HQ.
  - replace (p + PGSIZE <=? pa_end) with true by (unfold PGSIZE in *; lia). wp_step.
    eapply (wp_page_kfree s l p); [exact Hk|split; [done|]|intros Hx; specialize (Hl p Hx); lia|].
    { unfold PGSIZE in *. lia. }
    intros s' Hk' Hh _. eapply IH; [exact Hk'|lia| | |unfold PGSIZE in *; lia|exact Ht| |].
    + apply Z.divide_add_r; [done|apply Z.divide_refl].
    + unfold PGSIZE. lia.
    + intros x [->|Hx]%elem_of_cons; [unfold PGSIZE; lia|]. specialize (Hl x Hx). unfold PGSIZE. lia.
    + intros s'' Hk'' Hh'. apply HQ; [exact Hk''|]. by rewrite Hh.
Qed.

Lemma PGROUNDUP_div sz : 0 <= sz <= 2 ^ 63 -> PGROUNDUP sz = (sz + 4095) / 4096 * 4096.
Proof.
  intros H. unfold PGROUNDUP, PGSIZE. rewrite u64_small by lia. rewrite land_u64 by lia.
  replace (4096 - 1) with (Z.ones 12) by reflexivity. rewrite <- Z.ldiff_land.
  rewrite Z.ldiff_ones_r, Z.shiftr_div_pow2, Z.shiftl_mul_pow2 by lia.
  replace (sz + 4096 - 1) with (sz + 4095) by lia. reflexivity.
Qed.

Definition reserved_start : Z := PHYSTOP - SLAB_RESERVED_BLOCKS * 4096.

Lemma wp_kinit s Q :
  0 < kend <= reserved_start -> freelist s = 0 -> hart_ok (hart_of s) ->
  (forall s' l, kinv s' l -> hart_same (hart_of s) (hart_of s') ->
     (forall x, x ∈ l <-> (PGSIZE | x) /\ kend <= x /\ x + PGSIZE <= reserved_start) -> Q tt s') ->
  wp kinit Q s.
Proof.
  intros He Hf Hh HQ. unfold kinit. fold reserved_start. wp_step. apply wp_modify.
  set (s0 := set_kmem_lock _ s). unfold freerange.
  assert (reserved_start <= PHYSTOP < 2 ^ 63) as Hr.
  { unfold reserved_start, SLAB_RESERVED_BLOCKS, PHYSTOP, KERNBASE. lia. }
  rewrite PGROUNDUP_div by lia. set (q := (kend + 4095) / 4096). change (q * 4096) with (q * PGSIZE).
  assert (PGSIZE | reserved_start) as [k Ek] by (exists 556032; reflexivity).
  assert (q * 4096 - 4096 < kend <= q * 4096) as Hq by (unfold q; zdiv).
  assert (q <= k) as Hqk by (unfold PGSIZE in *; lia).
  replace ((reserved_start - q * PGSIZE) / PGSIZE) with (k - q)
    by (rewrite Ek; symmetry; rewrite <- Z.mul_sub_distr_r; apply Z.div_mul; discriminate).
  eapply (wp_freerange_loop (Z.to_nat (k - q)) s0 []).
  - split; [lia|exact Hf|constructor|intros x Hx; by apply elem_of_nil in Hx|reflexivity|exact Hh].
  - lia.
  - apply Z.divide_factor_r.
  - unfold PGSIZE. lia.
  - rewrite Z2Nat.id by lia. unfold PGSIZE in *. lia.
  - lia.
  - intros x Hx. by apply elem_of_nil in Hx.
  - intros s' Hk Hh'. eapply HQ; [exact Hk|exact Hh'|]. intros x. rewrite elem_of_pages_down.
    rewrite Z2Nat.id by lia. unfold PGSIZE in *. split.
    + intros [Hx|(i & Hi & ->)]; [by apply elem_of_nil in Hx|].
      split; [exists (q + i); lia|]. split; lia.
    + intros ([i ->] & H1 & H2). right. exists (i - q). lia.
Qed.

(** ** Client histories *)

(** What the rest of the kernel does with pages: allocate one, or free one
    it holds. *)
Inductive page_op := PAlloc | PFree (pa : Z).

Fixpoint run_pages (ops : list page_op) (held : list Z) : M kst (list Z) :=
  match ops with
  | [] => mret held
  | PAlloc :: ops => r ← kalloc; run_pages ops (if r =? 0 then held else r :: held)
  | PFree pa :: ops =>
      if bool_decide (pa ∈ held) then
        page_kfree pa;; run_pages ops (filter (fun x => x <> pa) held)
      else run_pages ops held
  end.

(** The pages on the free list and the pages clients hold. *)
Record pages_inv (s : kst) (l held : list Z) : Prop := {
  pi_kinv : kinv s l;
  pi_nodup : NoDup (l ++ held);
  pi_held : forall pa, pa ∈ held -> page_ok pa
}.

Lemma held_apart s l held pa pb x :
  pages_inv s l held -> pa ∈ l ++ held -> pb ∈ held -> pa <> pb ->
  bytes_of pb PGSIZE x -> ~ bytes_of pa PGSIZE x.
Proof.
  intros [Hk Hnd Hok] Ha Hb Hne Hx Hx'.
  destruct (pages_apart pa pb); [|by apply Hok|done|unfold bytes_of in *; lia..].
  apply elem_of_app in Ha as [Ha|Ha]; [by apply Hk|by apply Hok].
Qed.

Lemma wp_pages_alloc s l held Q :
  pages_inv s l held ->
  (forall r s' l', let held' := if r =? 0 then held else r :: held in
     pages_inv s' l' held' -> l' ++ held' ≡ₚ l ++ held -> hart_same (hart_of s) (hart_of s') ->
     (forall pa x, pa ∈ held -> bytes_of pa PGSIZE x ->
        pa ∈ held' /\ rdb (mem_of s') x = rdb (mem_of s) x) -> Q r s') ->
  wp kalloc Q s.
Proof.
  intros Hi HQ. pose proof Hi as [Hk Hnd Hok]. apply (wp_kalloc s l); [exact Hk| |].
  - intros -> s' Hk' Hh Hm. apply (HQ 0 s' []); [by split|done|done|].
    intros pa x Ha Hx. by rewrite Hm.
  - intros pa l0 s' -> Hk' Hh Hm. destruct (page_range pa) as (Hp0 & _); [apply Hk|apply Hk; left|].
    specialize (HQ pa s' l0). replace (pa =? 0) with false in HQ by lia. apply HQ.
    + split; [done|by rewrite <- Permutation_middle|].
      intros y [->|Hy]%elem_of_cons; [apply Hk; left|by apply Hok].
    + by rewrite <- Permutation_middle.
    + exact Hh.
    + intros pb x Hb Hx. split; [by right|]. rewrite Hm, rdb_memset, decide_False; [done|].
      eapply (held_apart s (pa :: l0) held pa pb); [done|left|done| |done]. intros ->.
      apply list.NoDup_app in Hnd as (_ & Hd & _). apply (Hd pb); [left|done].
Qed.

Lemma wp_pages_free s l held pa Q :
  pages_inv s l held -> pa ∈ held ->
  (forall s', let held' := filter (fun x => x <> pa) held in
     pages_inv s' (pa :: l) held' -> (pa :: l) ++ held' ≡ₚ l ++ held ->
     hart_same (hart_of s) (hart_of s') ->
     (forall pb x, pb ∈ held -> pb <> pa -> bytes_of pb PGSIZE x ->
        pb ∈ held' /\ rdb (mem_of s') x = rdb (mem_of s) x) -> Q tt s') ->
  wp (page_kfree pa) Q s.
Proof.
  intros Hi Hin HQ. pose proof Hi as [Hk Hnd Hok]. pose proof Hnd as (N1 & N2 & N3)%list.NoDup_app.
  pose proof (filter_out_perm pa held N3 Hin) as Hperm.
  assert ((pa :: l) ++ filter (fun x => x <> pa) held ≡ₚ l ++ held) as Hp.
  { simpl. by rewrite Permutation_middle, Hperm. }
  apply (wp_page_kfree s l pa); [done|by apply Hok|intros H; by apply (N2 pa)|].
  intros s' Hk' Hh Hm. apply HQ; [|done|done|].
  - split; [done|by rewrite Hp|]. intros y [_ Hy]%list_elem_of_filter. by apply Hok.
  - intros pb x Hb Hne Hx. split; [by apply list_elem_of_filter|]. apply Hm.
    apply (held_apart s l held pa pb); [done|by apply elem_of_app; right|done|done|done].
Qed.

Lemma wp_run_pages ops s l held Q :
  pages_inv s l held ->
  (forall held' s' l', pages_inv s' l' held' -> l' ++ held' ≡ₚ l ++ held ->
     hart_same (hart_of s) (hart_of s') ->
     (forall pa x, pa ∈ held -> PFree pa ∉ ops -> bytes_of pa PGSIZE x ->
        pa ∈ held' /\ rdb (mem_of s') x = rdb (mem_of s) x) -> Q held' s') ->
  wp (run_pages ops held) Q s.
Proof.
  revert s l held. induction ops as [|[|pa] ops IH]; intros s l held Hi HQ; simpl.
  - apply wp_ret. by apply (HQ held s l).
  - wp_step. apply (wp_pages_alloc s l held); [done|]. intros r s' l0 held0 Hi0 Hp0 Hh0 Hb0.
    apply (IH s' l0 held0); [done|]. intros held' s'' l' Hi' Hp' Hh' Hb'.
    apply (HQ held' s'' l'); [done|by rewrite Hp'|by rewrite Hh0|].
    intros pb x Hb Hn Hx. rewrite not_elem_of_cons in Hn. destruct Hn as [_ Hn].
    destruct (Hb0 pb x) as [H1 <-]; [done..|]. by apply Hb'.
  - case_bool_decide as Hin.
    + wp_step. apply (wp_pages_free s l held pa); [done..|]. intros s' held0 Hi0 Hp0 Hh0 Hb0.
      apply (IH s' (pa :: l) held0); [done|]. intros held' s'' l' Hi' Hp' Hh' Hb'.
      apply (HQ held' s'' l'); [done|by rewrite Hp'|by rewrite Hh0|].
      intros pb x Hb Hn Hx. rewrite not_elem_of_cons in Hn. destruct Hn as [Hne Hn].
      destruct (Hb0 pb x) as [H1 <-]; [done|congruence|done|]. by apply Hb'.
    + apply (IH s l held); [done|]. intros held' s'' l' Hi' Hp' Hh' Hb'.
      apply (HQ held' s'' l'); [done..|]. intros pb x Hb Hn Hx.
      rewrite not_elem_of_cons in Hn. destruct Hn as [_ Hn]. by apply Hb'.
Qed.

End Kalloc.

(** ** Theorems *)

(** from boot, [kinit] puts exactly the whole pages between the end of
    the kernel image and the region reserved for the slab allocator on the
    free list, each once, leaves [kmem.lock] free and restores the interrupt
    state. *)
Theorem kinit_frees_every_page kend (s : kst) :
  0 < kend <= reserved_start -> freelist s = 0 -> hart_ok (hart_of s) ->
  wp (kinit kend) (fun _ s' => exists l, kinv kend s' l /\
    hart_same (hart_of s) (hart_of s') /\
    (forall pa, pa ∈ l <-> (PGSIZE | pa) /\ kend <= pa /\ pa + PGSIZE <= reserved_start)) s.
Proof. intros. apply wp_kinit; eauto. Qed.

Abbreviation boot_kst := (mkKst (mkMach (mkHart 1 0 false true) ∅) (mkLock EmptyString 0 0) 0).

Lemma kinit_frees_every_page_witness :
  wp (kinit 2147700736) (fun _ s' => exists l, kinv 2147700736 s' l /\
    hart_same (hart_of boot_kst) (hart_of s') /\
    (forall pa, pa ∈ l <-> (PGSIZE | pa) /\ 2147700736 <= pa /\ pa + PGSIZE <= reserved_start)) boot_kst.
Proof.
  refine (kinit_frees_every_page 2147700736 boot_kst _ _ _); [|reflexivity|repeat split; done].
  unfold reserved_start, PHYSTOP, KERNBASE, SLAB_RESERVED_BLOCKS. lia.
Defined.

(** C29: pages are conserved and never shared: along any sequence of
    [kalloc] and [page_kfree] calls in which clients free only pages they
    hold, no call panics, faults or blocks, the free list and the held pages
    stay a permutation of the initial ones (so no page is lost, handed out
    twice or both free and held), and a page that is held throughout keeps
    every byte. *)
Theorem pages_never_shared kend ops s l held :
  pages_inv kend s l held ->
  wp (run_pages kend ops held) (fun held' s' => exists l',
    pages_inv kend s' l' held' /\ l' ++ held' ≡ₚ l ++ held /\
    hart_same (hart_of s) (hart_of s') /\
    (forall pa x, pa ∈ held -> PFree pa ∉ ops -> bytes_of pa PGSIZE x ->
       pa ∈ held' /\ rdb (mem_of s') x = rdb (mem_of s) x)) s.
Proof. intros Hi. apply (wp_run_pages kend ops s l held); [done|]. intros. eauto 10. Qed.

(** Two free pages and one held one. *)
Abbreviation two_free_pages :=
  (mkKst (mkMach (mkHart 1 0 false true) (st64 (st64 ∅ 2147491840 0) 2147487744 2147491840))
     (mkLock EmptyString 0 0) 2147487744).

Lemma two_free_pages_inv :
  pages_inv KERNBASE two_free_pages [2147487744; 2147491840] [2147483648].
Proof.
  assert (forall i, 0 <= i < 32768 -> page_ok KERNBASE (KERNBASE + i * 4096)) as Hp.
  { intros i Hi. unfold page_ok, PHYSTOP, KERNBASE, PGSIZE. split; [exists (524288 + i)|]; lia. }
  split.
  - split; [reflexivity| |apply (bool_decide_eq_true _); reflexivity| |reflexivity|repeat split; done].
    + change (sll (st64 (st64 ∅ 2147491840 0) 2147487744 2147491840) 2147487744 [2147487744; 2147491840]).
      apply sll_push; [apply sll_push; [done|lia|]|lia|].
      * intros y Hy. by apply elem_of_nil in Hy.
      * intros y Hy. apply list_elem_of_singleton in Hy as ->. lia.
    + intros pa [->|Ha]%elem_of_cons; [apply (Hp 1); lia|].
      apply list_elem_of_singleton in Ha as ->. apply (Hp 2). lia.
  - apply (bool_decide_eq_true _); reflexivity.
  - intros pa Ha. apply list_elem_of_singleton in Ha as ->. apply (Hp 0). lia.
Qed.

Lemma pages_never_shared_witness :
  wp (run_pages KERNBASE [PAlloc; PAlloc; PFree 2147487744; PAlloc] [2147483648]) (fun held' s' =>
    exists l', pages_inv KERNBASE s' l' held' /\
    l' ++ held' ≡ₚ [2147487744; 2147491840] ++ [2147483648] /\
    hart_same (hart_of two_free_pages) (hart_of s') /\
    (forall pa x, pa ∈ [2147483648] -> PFree pa ∉ [PAlloc; PAlloc; PFree 2147487744; PAlloc] ->
       bytes_of pa PGSIZE x -> pa ∈ held' /\ rdb (mem_of s') x = rdb (mem_of two_free_pages) x))
    two_free_pages.
Proof. exact (pages_never_shared KERNBASE _ _ _ _ two_free_pages_inv). Defined.

(** [page_kfree] panics exactly on an address that is not a page of the
    allocator's range: misaligned, below the kernel's [end] or at or above
    PHYSTOP; for a page of the range it always returns. *)
Theorem page_kfree_guard kend s l pa :
  kinv kend s l -> pa ∉ l ->
  (page_kfree kend pa s = Panic "page_kfree" <-> ~ page_ok kend pa).
Proof.
  intros Hk Hl. split.
  - intros He Hp. assert (wp (page_kfree kend pa) (fun _ _ => True) s) as Hw
      by (by apply (wp_page_kfree kend s l pa)).
    unfold wp in Hw. by rewrite He in Hw.
  - intros Hp. unfold page_kfree.
    destruct (negb (pa mod PGSIZE =? 0) || (pa <? kend) || (pa >=? PHYSTOP)) eqn:E; [done|].
    exfalso. apply Hp. apply orb_false_iff in E as [[E1 E2]%orb_false_iff E3].
    split; [apply Z.mod_divide; [done|]; by apply Z.eqb_eq, negb_false_iff|lia].
Qed.

Lemma page_kfree_guard_witness :
  page_kfree KERNBASE 2147483649 two_free_pages = Panic "page_kfree" <-> ~ page_ok KERNBASE 2147483649.
Proof.
  refine (page_kfree_guard KERNBASE two_free_pages _ 2147483649 (pi_kinv _ _ _ _ two_free_pages_inv) _).
  apply (bool_decide_eq_true _); reflexivity.
Defined.
