(* ===== verification/Sleeplock.v ===== *)
(** * Sleeplocks (kernel/sleeplock.c)

    The routines of sleeplock.c on one [struct sleeplock], for the process
    with pid [pid] on hart [h].  [sleep] on a held lock is [Blocked]: the
    caller waits for the holder; [wakeup] changes no lock state.  [Module
    Waiters] interleaves any number of processes through the lock and its
    sleep channel and proves mutual exclusion and the absence of lost
    wakeups. *)

From Stdlib Require Import ZArith Lia Bool String.
From stdpp Require Import base gmap list strings functions relations.
From S2P Require Import Prelude Mem Spinlock.

Record sleeplock := mkSleeplock {
  slk_locked : Z;
  slk_lk : spinlock;
  slk_name : string;
  slk_pid : Z
}.

(** Sequencing of outcomes. *)
Definition obind {A B} (o : outcome A) (k : A -> outcome B) : outcome B :=
  match o with
  | Ret a => k a
  | Panic msg => Panic msg
  | Fault why => Fault why
  | Blocked why => Blocked why
  | OutOfFuel => OutOfFuel
  end.

Definition initsleeplock (name : string) : sleeplock :=
  mkSleeplock 0 (initlock "sleep lock") name 0.

Definition acquiresleep (pid : Z) (lk : sleeplock) (h : hart) : outcome (sleeplock * hart) :=
  obind (acquire (slk_lk lk) h) (fun '(l, h) =>
  if negb (slk_locked lk =? 0) then Blocked "sleep"
  else obind (release l h) (fun '(l, h) => Ret (mkSleeplock 1 l (slk_name lk) pid, h))).

Definition releasesleep (lk : sleeplock) (h : hart) : outcome (sleeplock * hart) :=
  obind (acquire (slk_lk lk) h) (fun '(l, h) =>
  obind (release l h) (fun '(l, h) => Ret (mkSleeplock 0 l (slk_name lk) 0, h))).

Definition holdingsleep (pid : Z) (lk : sleeplock) (h : hart) : outcome (bool * sleeplock * hart) :=
  obind (acquire (slk_lk lk) h) (fun '(l, h) =>
  let r := negb (slk_locked lk =? 0) && (slk_pid lk =? pid) in
  obind (release l h) (fun '(l, h) => Ret (r, mkSleeplock (slk_locked lk) l (slk_name lk) (slk_pid lk), h))).

(** Run a routine that only touches the hart's interrupt state. *)
Definition on_hart {S X} `{HasMach S} (f : hart -> outcome (X * hart)) : M S X :=
  fun s => obind (f (hart_of s)) (fun '(x, h) => Ret (x, set_hart h s)).

Lemma wp_on_hart {S X} `{HasMach S} (f : hart -> outcome (X * hart)) Q (s : S) x h :
  f (hart_of s) = Ret (x, h) -> Q x (set_hart h s) -> wp (on_hart f) Q s.
Proof. intros Hf HQ. unfold wp, on_hart. by rewrite Hf. Qed.

(** A sleeplock nobody is inside the spinlock of. *)
Definition slk_quiet (lk : sleeplock) : Prop := lk_locked (slk_lk lk) = 0.

(** [acquire] then [release] of a free spinlock. *)
Lemma acquire_release lk h :
  lk_locked lk = 0 -> hart_ok h ->
  exists lk1 h1, acquire lk h = Ret (lk1, h1) /\
    exists h2, release lk1 h1 = Ret (mkLock (lk_name lk) 0 0, h2) /\ hart_same h h2.
Proof.
  intros Hl Hh. unfold acquire, holding. rewrite Hl. simpl. eexists _, _. split; [done|].
  destruct (pop_push_off h (push_off h) Hh) as (h2 & Hp & Hs); [done|]. exists h2. split; [|done].
  unfold release, holding. simpl. rewrite Z.eqb_refl. simpl. by rewrite Hp.
Qed.

Lemma acquiresleep_free pid lk h :
  slk_quiet lk -> slk_locked lk = 0 -> hart_ok h ->
  exists h', acquiresleep pid lk h =
    Ret (mkSleeplock 1 (mkLock (lk_name (slk_lk lk)) 0 0) (slk_name lk) pid, h') /\ hart_same h h'.
Proof.
  intros Hq Hl Hh. destruct (acquire_release _ h Hq Hh) as (l1 & h1 & E1 & h2 & E2 & Hs).
  exists h2. split; [|done]. unfold acquiresleep. rewrite E1. simpl. rewrite Hl. simpl. by rewrite E2.
Qed.

Lemma releasesleep_ok lk h :
  slk_quiet lk -> hart_ok h ->
  exists h', releasesleep lk h =
    Ret (mkSleeplock 0 (mkLock (lk_name (slk_lk lk)) 0 0) (slk_name lk) 0, h') /\ hart_same h h'.
Proof.
  intros Hq Hh. destruct (acquire_release _ h Hq Hh) as (l1 & h1 & E1 & h2 & E2 & Hs).
  exists h2. split; [|done]. unfold releasesleep. rewrite E1. simpl. by rewrite E2.
Qed.

Lemma holdingsleep_ok pid lk h :
  slk_quiet lk -> hart_ok h ->
  exists h', holdingsleep pid lk h =
    Ret (negb (slk_locked lk =? 0) && (slk_pid lk =? pid),
         mkSleeplock (slk_locked lk) (mkLock (lk_name (slk_lk lk)) 0 0) (slk_name lk) (slk_pid lk), h') /\
    hart_same h h'.
Proof.
  intros Hq Hh. destruct (acquire_release _ h Hq Hh) as (l1 & h1 & E1 & h2 & E2 & Hs).
  exists h2. split; [|done]. unfold holdingsleep. rewrite E1. simpl. by rewrite E2.
Qed.

(** ** Waiting and waking *)

Module Waiters.
Section Waiters.
(** NPROC *)
Context (nproc : nat).

(** Where a process is in [acquiresleep(lk); ...; releasesleep(lk)], with the
    calls of [sleep] and [wakeup] opened up. *)
Inductive pc :=
  | Out
  | Want                (* acquire(&lk->lk), at entry or back from sleep *)
  | Check               (* holds lk->lk, tests lk->locked *)
  | SlpAcq              (* sleep: acquire(&p->lock) *)
  | SlpRel              (* sleep: release(lk), with p->lock held *)
  | SlpGo               (* sleep: state = SLEEPING, then sched(), p->lock held *)
  | Asleep              (* switched out; the scheduler released p->lock *)
  | Woken               (* RUNNABLE again, still inside sleep *)
  | Got                 (* lk->locked = 1, about to release lk->lk *)
  | Hold                (* returned from acquiresleep *)
  | RelWant             (* releasesleep: acquire(&lk->lk) *)
  | Wake (k : nat).     (* releasesleep: locked = 0, wakeup is at proc[k] *)

Record sys := mkSys {
  w_lk : option nat;          (* holder of lk->lk *)
  w_locked : bool;            (* lk->locked *)
  w_plock : nat -> bool;      (* p->lock held by its own process *)
  w_pc : nat -> pc
}.

Definition pc_to (s : sys) (i : nat) (q : pc) : nat -> pc := <[i := q]> (w_pc s).

Inductive step : sys -> sys -> Prop :=
  | st_want s i : (i < nproc)%nat -> w_pc s i = Out ->
      step s (mkSys (w_lk s) (w_locked s) (w_plock s) (pc_to s i Want))
  | st_acquire s i : w_pc s i = Want -> w_lk s = None ->
      step s (mkSys (Some i) (w_locked s) (w_plock s) (pc_to s i Check))
  | st_busy s i : w_pc s i = Check -> w_locked s = true ->
      step s (mkSys (w_lk s) (w_locked s) (w_plock s) (pc_to s i SlpAcq))
  | st_free s i : w_pc s i = Check -> w_locked s = false ->
      step s (mkSys (w_lk s) true (w_plock s) (pc_to s i Got))
  | st_got s i : w_pc s i = Got ->
      step s (mkSys None (w_locked s) (w_plock s) (pc_to s i Hold))
  | st_plock s i : w_pc s i = SlpAcq -> w_plock s i = false ->
      step s (mkSys (w_lk s) (w_locked s) (<[i := true]> (w_plock s)) (pc_to s i SlpRel))
  | st_unlock s i : w_pc s i = SlpRel ->
      step s (mkSys None (w_locked s) (w_plock s) (pc_to s i SlpGo))
  | st_sched s i : w_pc s i = SlpGo ->
      step s (mkSys (w_lk s) (w_locked s) (<[i := false]> (w_plock s)) (pc_to s i Asleep))
  | st_kill s i : w_pc s i = Asleep -> w_plock s i = false ->
      step s (mkSys (w_lk s) (w_locked s) (w_plock s) (pc_to s i Woken))
  | st_resume s i : w_pc s i = Woken ->
      step s (mkSys (w_lk s) (w_locked s) (w_plock s) (pc_to s i Want))
  | st_rel s i : w_pc s i = Hold ->
      step s (mkSys (w_lk s) (w_locked s) (w_plock s) (pc_to s i RelWant))
  | st_clear s i : w_pc s i = RelWant -> w_lk s = None ->
      step s (mkSys (Some i) false (w_plock s) (pc_to s i (Wake 0)))
  | st_wake s i k : w_pc s i = Wake k -> (k < nproc)%nat -> k <> i -> w_plock s k = false ->
      w_pc s k = Asleep ->
      step s (mkSys (w_lk s) (w_locked s) (w_plock s) (<[i := Wake (S k)]> (pc_to s k Woken)))
  | st_skip s i k : w_pc s i = Wake k -> (k < nproc)%nat ->
      k = i \/ (w_plock s k = false /\ w_pc s k <> Asleep) ->
      step s (mkSys (w_lk s) (w_locked s) (w_plock s) (pc_to s i (Wake (S k))))
  | st_done s i : w_pc s i = Wake nproc ->
      step s (mkSys None (w_locked s) (w_plock s) (pc_to s i Out)).

Definition init : sys := mkSys None false (fun _ => false) (fun _ => Out).

(** Inside the critical section of the spinlock [lk->lk]. *)
Definition in_lk (q : pc) : bool :=
  match q with Check | SlpAcq | SlpRel | Got | Wake _ => true | _ => false end.

(** Between taking the sleeplock and giving it back. *)
Definition owns (q : pc) : bool :=
  match q with Got | Hold | RelWant => true | _ => false end.

Definition in_plock (q : pc) : bool := match q with SlpRel | SlpGo => true | _ => false end.

(** Decided to sleep because the lock was taken, and not woken yet. *)
Definition waiting (q : pc) : bool :=
  match q with SlpAcq | SlpRel | SlpGo | Asleep => true | _ => false end.

(** A [wakeup] under way that has still to look at process [i]. *)
Definition wake_coming (s : sys) (i : nat) : Prop :=
  exists j k, w_pc s j = Wake k /\ (k <= i)%nat /\ (k <= nproc)%nat.

Record inv (s : sys) : Prop := {
  i_lk : forall i, w_lk s = Some i <-> in_lk (w_pc s i) = true;
  i_own : forall i j, owns (w_pc s i) = true -> owns (w_pc s j) = true -> i = j;
  i_locked : w_locked s = true <-> exists i, owns (w_pc s i) = true;
  i_plock : forall i, w_plock s i = in_plock (w_pc s i);
  i_wait : forall i, waiting (w_pc s i) = true -> w_locked s = true \/ wake_coming s i;
  i_range : forall i, w_pc s i <> Out -> (i < nproc)%nat
}.

Lemma pc_to_lookup s i q j : pc_to s i q j = if decide (i = j) then q else w_pc s j.
Proof.
  unfold pc_to. case_decide; subst; [by rewrite fn_lookup_insert|by rewrite fn_lookup_insert_ne].
Qed.

Lemma waiters_init : inv init.
Proof. split; simpl; try done. split; [done|]. by intros [i Hi]. Qed.

Lemma lk_holder s i j :
  inv s -> in_lk (w_pc s i) = true -> in_lk (w_pc s j) = true -> i = j.
Proof. intros Hi H1%(i_lk _ Hi) H2%(i_lk _ Hi). congruence. Qed.

(** How a step of one process may change the spinlock and the sleeplock. *)
Definition lk_change (s : sys) (i : nat) (q : pc) (lk' : option nat) : Prop :=
  (in_lk q = in_lk (w_pc s i) /\ lk' = w_lk s) \/
  (in_lk q = true /\ w_lk s = None /\ lk' = Some i) \/
  (in_lk (w_pc s i) = true /\ in_lk q = false /\ lk' = None).

Definition own_change (s : sys) (i : nat) (q : pc) (locked' : bool) : Prop :=
  (owns q = owns (w_pc s i) /\ locked' = w_locked s) \/
  (owns q = true /\ w_locked s = false /\ locked' = true) \/
  (owns (w_pc s i) = true /\ owns q = false /\ locked' = false).

Lemma lk_change_ok s i q lk' :
  inv s -> lk_change s i q lk' ->
  forall j, lk' = Some j <-> in_lk (pc_to s i q j) = true.
Proof.
  intros Hinv Hc j. rewrite pc_to_lookup. pose proof (i_lk _ Hinv j) as Hj.
  pose proof (i_lk _ Hinv i) as Hi.
  destruct Hc as [[E ->]|[(E & H & ->)|(E & H & ->)]]; case_decide as Hd; subst; rewrite ?E, ?H in *.
  - done.
  - done.
  - done.
  - rewrite <- Hj. split; congruence.
  - done.
  - rewrite <- Hj. destruct Hi as [_ Hi]. specialize (Hi eq_refl). split; congruence.
Qed.

Lemma own_change_ok s i q locked' :
  inv s -> own_change s i q locked' ->
  (forall j k, owns (pc_to s i q j) = true -> owns (pc_to s i q k) = true -> j = k) /\
  (locked' = true <-> exists j, owns (pc_to s i q j) = true).
Proof.
  intros Hinv Hc. setoid_rewrite pc_to_lookup. pose proof (i_own _ Hinv) as Ho.
  destruct (i_locked _ Hinv) as [Hl1 Hl2].
  destruct Hc as [[E ->]|[(E & H & ->)|(E & H & ->)]].
  - split.
    + intros j k. repeat case_decide; subst; rewrite ?E; auto.
    + split; [intros [j Hj]%Hl1; exists j; case_decide; subst; by rewrite ?E|].
      intros [j Hj]. apply Hl2. case_decide; subst; rewrite ?E in Hj; eauto.
  - assert (forall j, owns (w_pc s j) = false) as Hn.
    { intros j. destruct (owns (w_pc s j)) eqn:Ej; [|done]. rewrite Hl2 in H by eauto. done. }
    split; [|split; [|done]].
    + intros j k. repeat case_decide; subst; rewrite ?Hn; done.
    + intros _. exists i. by rewrite decide_True.
  - assert (forall j, (if decide (i = j) then owns q else owns (w_pc s j)) = false) as Hn.
    { intros j. case_decide; [done|]. destruct (owns (w_pc s j)) eqn:Ej; [|done]. by rewrite (Ho i j) in *. }
    split; [|split; [done|]].
    + intros j k Hj. specialize (Hn j). case_decide; congruence.
    + intros [j Hj]. specialize (Hn j). case_decide; congruence.
Qed.

Lemma inv_upd s i q lk' locked' plock' :
  inv s -> lk_change s i q lk' -> own_change s i q locked' ->
  (forall j, plock' j = if decide (i = j) then in_plock q else w_plock s j) ->
  (forall j, waiting (pc_to s i q j) = true ->
     locked' = true \/ wake_coming (mkSys lk' locked' plock' (pc_to s i q)) j) ->
  (q <> Out -> (i < nproc)%nat) ->
  inv (mkSys lk' locked' plock' (pc_to s i q)).
Proof.
  intros Hinv Hl Ho Hp Hw Hr. destruct (own_change_ok _ _ _ _ Hinv Ho) as [Ho1 Ho2]. split; simpl.
  - by apply lk_change_ok.
  - exact Ho1.
  - exact Ho2.
  - intros j. rewrite Hp, pc_to_lookup. case_decide; [done|]. apply Hinv.
  - exact Hw.
  - intros j. rewrite pc_to_lookup. case_decide; [subst; done|]. apply Hinv.
Qed.

(** A step that does not touch [lk->locked] and is not a waker's keeps every
    waiter covered. *)
Lemma wait_keep s i q lk' plock' :
  inv s -> (forall k, w_pc s i <> Wake k) ->
  (waiting q = true -> waiting (w_pc s i) = true \/ w_locked s = true) ->
  forall j, waiting (pc_to s i q j) = true ->
    w_locked s = true \/ wake_coming (mkSys lk' (w_locked s) plock' (pc_to s i q)) j.
Proof.
  intros Hinv Hn Hq j. rewrite pc_to_lookup. intros Hj.
  assert (waiting (w_pc s j) = true \/ w_locked s = true) as [Hw|Hl]; [|clear Hj|by left].
  { case_decide; subst; auto. }
  destruct (i_wait _ Hinv j Hw) as [Hl|(a & k & Ha & Hk)]; [by left|right].
  exists a, k. simpl. rewrite pc_to_lookup, decide_False; [done|]. intros ->. by apply (Hn k).
Qed.

(** The waker moves on past a process that is not waiting. *)
Lemma wait_skip s i k :
  inv s -> w_pc s i = Wake k -> waiting (w_pc s k) = false ->
  forall j lk' plock', waiting (pc_to s i (Wake (S k)) j) = true -> (k < nproc)%nat ->
    w_locked s = true \/ wake_coming (mkSys lk' (w_locked s) plock' (pc_to s i (Wake (S k)))) j.
Proof.
  intros Hinv Hi Hk j lk' plock'. rewrite pc_to_lookup. case_decide as Hij; [done|]. intros Hj Hkn.
  destruct (i_wait _ Hinv j Hj) as [Hl|(a & k' & Ha & Hk')]; [by left|right].
  assert (a = i) as -> by (eapply lk_holder; [done|by rewrite Ha|by rewrite Hi]).
  rewrite Hi in Ha. injection Ha as <-. exists i, (S k). simpl.
  rewrite pc_to_lookup, decide_True by done. split; [done|].
  assert (k <> j) by (intros ->; congruence). lia.
Qed.

Lemma wake_inv s k :
  inv s -> w_pc s k = Asleep -> w_plock s k = false ->
  inv (mkSys (w_lk s) (w_locked s) (w_plock s) (pc_to s k Woken)).
Proof.
  intros Hinv Hk Hp. apply inv_upd; [done|left; by rewrite Hk|left; by rewrite Hk| | |].
  - intros j. case_decide; subst; [done|done].
  - apply wait_keep; [done|by rewrite Hk|done].
  - intros _. apply (i_range _ Hinv). by rewrite Hk.
Qed.

Ltac plock_tac Hinv :=
  let j := fresh "j" in intros j; case_decide; subst; rewrite ?(i_plock _ Hinv);
  [match goal with H : w_pc _ _ = _ |- _ => by rewrite H end|done].

(** One process moves from the position [Hi] names; what the step leaves to
    show is why waiters stay covered, when it is not obvious. *)
Ltac move_pc Hinv Hr Hi :=
  apply inv_upd;
  [done
  |first [left; by rewrite Hi|by right; left|right; right; by rewrite Hi]
  |first [left; by rewrite Hi|by right; left|right; right; by rewrite Hi]
  |first [plock_tac Hinv
         |intros ?; case_decide; subst; [by rewrite fn_lookup_insert|by rewrite fn_lookup_insert_ne]]
  |try (by left); try (by apply wait_keep; [done|by rewrite Hi|rewrite ?Hi; auto])
  |try done; apply Hr; by rewrite Hi].

Lemma waiters_step s s' : inv s -> step s s' -> inv s'.
Proof.
  intros Hinv Hs.
  assert (forall i q, w_pc s i <> Out -> (q <> Out -> (i < nproc)%nat)) as Hr
    by (intros i q Hi _; by apply (i_range _ Hinv)).
  destruct Hs as [s i Hlt Hi|s i Hi Hl|s i Hi Hl|s i Hi Hl|s i Hi|s i Hi Hl|s i Hi|s i Hi|s i Hi Hl
    |s i Hi|s i Hi|s i Hi Hl|s i k Hi Hk Hne Hp Ha|s i k Hi Hk Hp|s i Hi];
    try (move_pc Hinv Hr Hi; fail).
  - move_pc Hinv Hr Hi. intros j _. right. exists i, 0%nat. simpl.
    rewrite pc_to_lookup, decide_True by done. split; [done|lia].
  - assert (k <> i) as Hki by done. pose proof (wake_inv s k Hinv Ha Hp) as Hinv'.
    set (s1 := mkSys _ _ _ (pc_to s k Woken)) in *.
    assert (w_pc s1 i = Wake k) as Hi1 by (simpl; by rewrite pc_to_lookup, decide_False).
    change (inv (mkSys (w_lk s1) (w_locked s1) (w_plock s1) (pc_to s1 i (Wake (S k))))).
    pose proof (fun j (q : pc) (H : w_pc s1 j <> Out) (_ : q <> Out) => i_range _ Hinv' j H) as Hr'.
    move_pc Hinv' Hr' Hi1. intros j Hj. apply wait_skip; [done|done| |done|done]. simpl. by rewrite pc_to_lookup, decide_True.
  - move_pc Hinv Hr Hi. intros j Hj. apply wait_skip; [done|done| |done|done].
    destruct Hp as [->|[Hp Hna]]; [by rewrite Hi|]. rewrite (i_plock _ Hinv) in Hp.
    destruct (w_pc s k) eqn:Ek; try done.
    assert (k = i) as -> by (eapply lk_holder; [done|by rewrite Ek|by rewrite Hi]). congruence.
  - move_pc Hinv Hr Hi. intros j. rewrite pc_to_lookup. case_decide; [done|]. intros Hj.
    destruct (i_wait _ Hinv j Hj) as [Hl|(a & k & Ha & Hk)]; [by left|exfalso].
    assert (a = i) as -> by (eapply lk_holder; [done|by rewrite Ha|by rewrite Hi]).
    rewrite Hi in Ha. injection Ha as <-.
    assert (j < nproc)%nat by (apply (i_range _ Hinv); intros E; by rewrite E in Hj). lia.
Qed.

Lemma waiters_reachable s : rtc step init s -> inv s.
Proof.
  intros Hr. pattern s. eapply rtc_ind_r; [apply waiters_init| |exact Hr].
  intros x y _ Hxy Hx. eapply waiters_step; eauto.
Qed.

End Waiters.

(** C21: sleeplocks exclude each other and lose no wakeup: in every state any
    interleaving of the processes reaches, [kill]s included, at most one
    process is between taking the lock and clearing [lk->locked], and a
    process that sleeps on the lock either has a current holder that will
    still release it, or a [wakeup] is under way that has not passed its
    slot of the process table. *)
Theorem sleeplock_excludes_and_wakes nproc s :
  rtc (step nproc) init s ->
  (forall i j, owns (w_pc s i) = true -> owns (w_pc s j) = true -> i = j) /\
  (forall i, w_pc s i = Asleep ->
     (exists j, owns (w_pc s j) = true) \/
     (exists j k, w_pc s j = Wake k /\ (k <= i)%nat)).
Proof.
  intros Hr. pose proof (waiters_reachable nproc s Hr) as Hi. split; [apply Hi|].
  intros i Ha. destruct (i_wait _ _ Hi i) as [Hl|(j & k & Hj & Hk & _)]; [by rewrite Ha| |eauto].
  left. by apply (i_locked _ _ Hi).
Qed.

(** Process 0 takes the lock, process 1 goes to sleep on it, process 0
    releases it and is inside [wakeup]. *)
Definition demo1 : sys :=
  mkSys (w_lk init) (w_locked init) ((w_plock init)) (pc_to init 0%nat Want).
Definition demo2 : sys :=
  mkSys (Some 0%nat) (w_locked demo1) ((w_plock demo1)) (pc_to demo1 0%nat Check).
Definition demo3 : sys :=
  mkSys (w_lk demo2) (true) ((w_plock demo2)) (pc_to demo2 0%nat Got).
Definition demo4 : sys :=
  mkSys (None) (w_locked demo3) ((w_plock demo3)) (pc_to demo3 0%nat Hold).
Definition demo5 : sys :=
  mkSys (w_lk demo4) (w_locked demo4) ((w_plock demo4)) (pc_to demo4 1%nat Want).
Definition demo6 : sys :=
  mkSys (Some 1%nat) (w_locked demo5) ((w_plock demo5)) (pc_to demo5 1%nat Check).
Definition demo7 : sys :=
  mkSys (w_lk demo6) (w_locked demo6) ((w_plock demo6)) (pc_to demo6 1%nat SlpAcq).
Definition demo8 : sys :=
  mkSys (w_lk demo7) (w_locked demo7) (<[1%nat := true]> (w_plock demo7)) (pc_to demo7 1%nat SlpRel).
Definition demo9 : sys :=
  mkSys (None) (w_locked demo8) ((w_plock demo8)) (pc_to demo8 1%nat SlpGo).
Definition demo10 : sys :=
  mkSys (w_lk demo9) (w_locked demo9) (<[1%nat := false]> (w_plock demo9)) (pc_to demo9 1%nat Asleep).
Definition demo11 : sys :=
  mkSys (w_lk demo10) (w_locked demo10) ((w_plock demo10)) (pc_to demo10 0%nat RelWant).
Definition demo12 : sys :=
  mkSys (Some 0%nat) (false) ((w_plock demo11)) (pc_to demo11 0%nat (Wake 0)).

Lemma sleeper_reachable : rtc (step 2) init demo12.
Proof.
  eapply (rtc_l _ _ demo1); [apply (st_want 2 init 0%nat); [lia|reflexivity]|].
  eapply (rtc_l _ _ demo2); [apply (st_acquire 2 demo1 0%nat); reflexivity|].
  eapply (rtc_l _ _ demo3); [apply (st_free 2 demo2 0%nat); reflexivity|].
  eapply (rtc_l _ _ demo4); [apply (st_got 2 demo3 0%nat); reflexivity|].
  eapply (rtc_l _ _ demo5); [apply (st_want 2 demo4 1%nat); [lia|reflexivity]|].
  eapply (rtc_l _ _ demo6); [apply (st_acquire 2 demo5 1%nat); reflexivity|].
  eapply (rtc_l _ _ demo7); [apply (st_busy 2 demo6 1%nat); reflexivity|].
  eapply (rtc_l _ _ demo8); [apply (st_plock 2 demo7 1%nat); reflexivity|].
  eapply (rtc_l _ _ demo9); [apply (st_unlock 2 demo8 1%nat); reflexivity|].
  eapply (rtc_l _ _ demo10); [apply (st_sched 2 demo9 1%nat); reflexivity|].
  eapply (rtc_l _ _ demo11); [apply (st_rel 2 demo10 0%nat); reflexivity|].
  eapply (rtc_l _ _ demo12); [apply (st_clear 2 demo11 0%nat); reflexivity|].
  apply rtc_refl.
Qed.

Lemma sleeplock_excludes_and_wakes_witness :
  w_pc demo12 1%nat = Asleep /\ w_pc demo12 0%nat = Wake 0 /\
  ((exists j, owns (w_pc demo12 j) = true) \/ (exists j k, w_pc demo12 j = Wake k /\ (k <= 1)%nat)).
Proof.
  split; [reflexivity|]. split; [reflexivity|].
  exact (proj2 (sleeplock_excludes_and_wakes 2 demo12 sleeper_reachable) 1%nat eq_refl).
Defined.

End Waiters.
