(* ===== verification/ObjCache.v ===== *)
(** * The interface between slab clients and the slab allocator

    kernel/bio.c keeps its [struct buf]s in a slab cache: it calls
    [kmem_cache_create] once, and [kmem_cache_alloc] and [kmem_cache_free]
    on that cache.  [ObjCache] is what a client of one cache relies on; [L]
    is the set of objects it holds, and [n] a number of further objects the
    cache is sure to deliver. *)

From Stdlib Require Import ZArith Lia Bool String.
From stdpp Require Import base gmap list strings.
From S2P Require Import Prelude Mem Spinlock.

Class ObjCache (S : Type) `{HasMach S} := {
  oc_create : M S Z;
  oc_alloc : Z -> M S Z;
  oc_free : Z -> Z -> M S unit;
  (** The allocator is up and will make a cache that can deliver [n]. *)
  oc_ready : S -> nat -> Prop;
  oc_inv : Z -> S -> (Z -> Prop) -> nat -> Prop;
  oc_create_spec : forall s n, oc_ready s n -> hart_ok (hart_of s) ->
    wp oc_create (fun c s' => c <> 0 /\ hart_same (hart_of s) (hart_of s') /\
      oc_inv c s' (fun _ => False) n) s;
  oc_alloc_spec : forall c s L n, oc_inv c s L n -> hart_ok (hart_of s) ->
    wp (oc_alloc c) (fun r s' => hart_same (hart_of s) (hart_of s') /\
      ((r = 0 /\ n = O /\ oc_inv c s' L n) \/
       (r <> 0 /\ ~ L r /\ oc_inv c s' (fun x => L x \/ x = r) (pred n)))) s;
  oc_free_spec : forall c s L n x, oc_inv c s L n -> L x -> hart_ok (hart_of s) ->
    wp (oc_free c x) (fun _ s' => hart_same (hart_of s) (hart_of s') /\
      oc_inv c s' (fun y => L y /\ y <> x) (Datatypes.S n)) s;
  (** Interrupt state is no part of the cache. *)
  oc_hart : forall c s L n h, oc_inv c s L n -> hart_ok h -> oc_inv c (set_hart h s) L n;
  oc_ext : forall c s L L' n, (forall x, L x <-> L' x) -> oc_inv c s L n -> oc_inv c s L' n
}.
