(* ===== verification/Bio.v ===== *)
(** * The buffer cache (kernel/bio.c)

    [struct buf]s live in a map from addresses; the circular list through
    [prev]/[next] with its sentinel [bcache.head] is the list [mru] of buffer
    addresses from [head.next] (most recently used) to [head.prev].  A
    request to the disk completes before [virtio_disk_rw] returns: its effect
    is on [dsk], the blocks on the device, and every write is appended to
    [dlog], the order in which blocks reached the disk.  A request outside
    the device ends in the driver's panic on a bad status. *)

From Stdlib Require Import ZArith Lia Bool String.
From stdpp Require Import base gmap list strings functions.
From S2P Require Import Prelude Mem Spinlock Sleeplock ObjCache.

Definition BSIZE : Z := 1024.
Definition MAXOPBLOCKS : Z := 10.
Definition NBUF : Z := MAXOPBLOCKS * 3.
Definition LOGBLOCKS : Z := MAXOPBLOCKS * 3.

Record buf := mkBuf {
  b_valid : Z;
  b_disk : Z;
  b_dev : Z;
  b_blockno : Z;
  b_lock : sleeplock;
  b_refcnt : Z;
  b_data : list Z
}.

(** [memset(b, 0, sizeof(struct buf))] followed by [initsleeplock]. *)
Definition zero_buf : buf :=
  mkBuf 0 0 0 0 (initsleeplock "buffer") 0 (replicate (Z.to_nat BSIZE) 0).

Definition set_valid (v : Z) (b : buf) : buf :=
  mkBuf v (b_disk b) (b_dev b) (b_blockno b) (b_lock b) (b_refcnt b) (b_data b).
Definition set_lock (l : sleeplock) (b : buf) : buf :=
  mkBuf (b_valid b) (b_disk b) (b_dev b) (b_blockno b) l (b_refcnt b) (b_data b).
Definition set_refcnt (n : Z) (b : buf) : buf :=
  mkBuf (b_valid b) (b_disk b) (b_dev b) (b_blockno b) (b_lock b) n (b_data b).
Definition set_data (d : list Z) (b : buf) : buf :=
  mkBuf (b_valid b) (b_disk b) (b_dev b) (b_blockno b) (b_lock b) (b_refcnt b) d.

(** [b->dev = dev; b->blockno = blockno; b->valid = 0; b->refcnt = 1;] *)
Definition assign (dev blockno : Z) (b : buf) : buf :=
  mkBuf 0 (b_disk b) dev blockno (b_lock b) 1 (b_data b).

Section Bio.
Context {A : Type} `{HM : HasMach A} {OC : ObjCache A}.

Record bio := mkBio {
  bi_base : A;
  bc_lock : spinlock;
  bufs : gmap Z buf;
  mru : list Z;
  buf_cache : Z;
  bcache_count : Z;
  dsk : gmap Z (list Z);
  dlog : list (Z * list Z);
  cur_pid : Z
}.

#[global] Instance bio_HasMach : HasMach bio.
Proof.
  refine {| mach_of := fun s => mach_of (bi_base s);
            set_mach := fun m s => mkBio (set_mach m (bi_base s)) (bc_lock s) (bufs s) (mru s)
              (buf_cache s) (bcache_count s) (dsk s) (dlog s) (cur_pid s) |}.
  - intros m s. apply mach_of_set.
  - intros [b]. simpl. by rewrite set_mach_of.
  - intros m m' s. simpl. by rewrite set_mach_set.
Defined.

Definition set_bio_base (a : A) (s : bio) : bio :=
  mkBio a (bc_lock s) (bufs s) (mru s) (buf_cache s) (bcache_count s) (dsk s) (dlog s) (cur_pid s).
Definition set_bc_lock (l : spinlock) (s : bio) : bio :=
  mkBio (bi_base s) l (bufs s) (mru s) (buf_cache s) (bcache_count s) (dsk s) (dlog s) (cur_pid s).
Definition set_bufs (m : gmap Z buf) (s : bio) : bio :=
  mkBio (bi_base s) (bc_lock s) m (mru s) (buf_cache s) (bcache_count s) (dsk s) (dlog s) (cur_pid s).
Definition set_mru (l : list Z) (s : bio) : bio :=
  mkBio (bi_base s) (bc_lock s) (bufs s) l (buf_cache s) (bcache_count s) (dsk s) (dlog s) (cur_pid s).
Definition set_buf_cache (c : Z) (s : bio) : bio :=
  mkBio (bi_base s) (bc_lock s) (bufs s) (mru s) c (bcache_count s) (dsk s) (dlog s) (cur_pid s).
Definition set_count (n : Z) (s : bio) : bio :=
  mkBio (bi_base s) (bc_lock s) (bufs s) (mru s) (buf_cache s) n (dsk s) (dlog s) (cur_pid s).
Definition set_dsk (d : gmap Z (list Z)) (l : list (Z * list Z)) (s : bio) : bio :=
  mkBio (bi_base s) (bc_lock s) (bufs s) (mru s) (buf_cache s) (bcache_count s) d l (cur_pid s).

Definition get_buf (b : Z) : M bio buf :=
  s ← get; match bufs s !! b with Some bf => mret bf | None => fault "buf" end.

Definition upd_buf (b : Z) (f : buf -> buf) : M bio unit :=
  bf ← get_buf b; modify (fun s => set_bufs (<[b := f bf]> (bufs s)) s).

(** Run a sleeplock routine on [&b->lock]. *)
Definition on_lock (b : Z) (f : sleeplock -> hart -> outcome (sleeplock * hart)) : M bio unit :=
  bf ← get_buf b;
  l ← on_hart (f (b_lock bf));
  upd_buf b (set_lock l).

Definition buf_acquiresleep (b : Z) : M bio unit :=
  s ← get; on_lock b (acquiresleep (cur_pid s)).
Definition buf_releasesleep (b : Z) : M bio unit := on_lock b releasesleep.
Definition buf_holdingsleep (b : Z) : M bio bool :=
  bf ← get_buf b;
  s ← get;
  '(r, l) ← on_hart (holdingsleep (cur_pid s) (b_lock bf));
  upd_buf b (set_lock l);;
  mret r.

Definition virtio_disk_rw (b : Z) (write : bool) : M bio unit :=
  bf ← get_buf b;
  s ← get;
  match dsk s !! b_blockno bf with
  | None => panic "virtio_disk_intr status"
  | Some d =>
      if write then
        put (set_dsk (<[b_blockno bf := b_data bf]> (dsk s)) (dlog s ++ [(b_blockno bf, b_data bf)]) s)
      else upd_buf b (set_data d)
  end.

(** ** The routines of bio.c *)

Fixpoint binit_loop (n : nat) : M bio unit :=
  match n with
  | O => mret tt
  | S n =>
      c ← gets buf_cache;
      b ← zoom bi_base set_bio_base (oc_alloc c);
      (if b =? 0 then panic "binit alloc" else mret tt);;
      modify (fun s => set_mru (b :: mru s) (set_bufs (<[b := zero_buf]> (bufs s)) s));;
      binit_loop n
  end.

Definition binit : M bio unit :=
  modify (fun s => set_mru [] (set_bc_lock (initlock "bcache") s));;
  c ← zoom bi_base set_bio_base oc_create;
  modify (set_buf_cache c);;
  (if c =? 0 then panic "buf_cache" else mret tt);;
  binit_loop (Z.to_nat NBUF);;
  modify (set_count NBUF).

(** The first pass of [bget]: from [head.next] forward. *)
Fixpoint find_cached (m : gmap Z buf) (dev blockno : Z) (l : list Z) : option Z :=
  match l with
  | [] => None
  | b :: l =>
      match m !! b with
      | Some bf => if (b_dev bf =? dev) && (b_blockno bf =? blockno) then Some b
                   else find_cached m dev blockno l
      | None => None
      end
  end.

(** The second pass, run on the reversed list: from [head.prev] backward. *)
Fixpoint find_unused (m : gmap Z buf) (l : list Z) : option Z :=
  match l with
  | [] => None
  | b :: l =>
      match m !! b with
      | Some bf => if b_refcnt bf =? 0 then Some b else find_unused m l
      | None => None
      end
  end.

Definition bget (dev blockno : Z) : M bio Z :=
  acquire_in bc_lock set_bc_lock;;
  s ← get;
  match find_cached (bufs s) dev blockno (mru s) with
  | Some b =>
      upd_buf b (fun bf => set_refcnt (u32 (b_refcnt bf + 1)) bf);;
      release_in bc_lock set_bc_lock;;
      buf_acquiresleep b;;
      mret b
  | None =>
      match find_unused (bufs s) (rev (mru s)) with
      | Some b =>
          upd_buf b (assign dev blockno);;
          release_in bc_lock set_bc_lock;;
          buf_acquiresleep b;;
          mret b
      | None =>
          b ← zoom bi_base set_bio_base (oc_alloc (buf_cache s));
          if b =? 0 then panic "bget: no memory"
          else
            modify (fun s => set_mru (b :: mru s) (set_bufs (<[b := assign dev blockno zero_buf]> (bufs s)) s));;
            modify (fun s => set_count (bcache_count s + 1) s);;
            release_in bc_lock set_bc_lock;;
            buf_acquiresleep b;;
            mret b
      end
  end.

Definition bread (dev blockno : Z) : M bio Z :=
  b ← bget dev blockno;
  bf ← get_buf b;
  (if b_valid bf =? 0 then virtio_disk_rw b false;; upd_buf b (set_valid 1) else mret tt);;
  mret b.

Definition bwrite (b : Z) : M bio unit :=
  h ← buf_holdingsleep b;
  if negb h then panic "bwrite" else virtio_disk_rw b true.

(** [while(bcache_count > NBUF)] of [brelse]: each turn drops the list's
    last buffer, so its length bounds the loop. *)
Fixpoint shrink_lru (fuel : nat) (b : Z) : M bio unit :=
  match fuel with
  | O => out_of_fuel
  | S fuel =>
      s ← get;
      if bcache_count s >? NBUF then
        match list.last (mru s) with
        | None => mret tt
        | Some t =>
            bf ← get_buf t;
            if (t =? b) || negb (b_refcnt bf =? 0) then mret tt
            else
              modify (fun s => set_mru (removelast (mru s)) s);;
              modify (fun s => set_bufs (delete t (bufs s)) s);;
              zoom bi_base set_bio_base (oc_free (buf_cache s) t);;
              modify (fun s => set_count (bcache_count s - 1) s);;
              shrink_lru fuel b
        end
      else mret tt
  end.

Definition brelse (b : Z) : M bio unit :=
  h ← buf_holdingsleep b;
  (if negb h then panic "brelse" else mret tt);;
  buf_releasesleep b;;
  acquire_in bc_lock set_bc_lock;;
  upd_buf b (fun bf => set_refcnt (u32 (b_refcnt bf - 1)) bf);;
  bf ← get_buf b;
  (if b_refcnt bf =? 0 then
     modify (fun s => set_mru (b :: filter (fun x => x <> b) (mru s)) s);;
     s ← get;
     shrink_lru (S (length (mru s))) b
   else mret tt);;
  release_in bc_lock set_bc_lock.

Definition bpin (b : Z) : M bio unit :=
  acquire_in bc_lock set_bc_lock;;
  upd_buf b (fun bf => set_refcnt (u32 (b_refcnt bf + 1)) bf);;
  release_in bc_lock set_bc_lock.

Definition bunpin (b : Z) : M bio unit :=
  acquire_in bc_lock set_bc_lock;;
  upd_buf b (fun bf => set_refcnt (u32 (b_refcnt bf - 1)) bf);;
  release_in bc_lock set_bc_lock.

(** The holder of [b] stores new contents in [b->data]. *)
Definition store_data (b : Z) (f : list Z -> list Z) : M bio unit :=
  upd_buf b (fun bf => set_data (f (b_data bf)) bf).

End Bio.
Arguments bio A : clear implicits.
