(* ===== verification/BioProof.v ===== *)
(** * The buffer cache: abstract state and proof rules

    [bio_rep s a R H n] relates a cache state to what its clients see: [a] is
    the logical contents of every block (the valid cached copy if there is
    one, the disk otherwise), [R] the references to each block, [H] the
    blocks the current process has locked, and [n] a number of further
    blocks that can certainly be brought in.  A block of the disk that is not
    in [a] is one whose contents are not known: its buffer may hold what was
    never written back.  Each routine of bio.c has one rule in these terms. *)

From Stdlib Require Import ZArith Lia Bool String.
From stdpp Require Import base gmap list strings functions sets.
From S2P Require Import Prelude Mem Spinlock Sleeplock ObjCache Bio.

Definition ROOTDEV : Z := 1.

Abbreviation blocks := (gmap Z (list Z)).

(** ** One buffer *)

Record buf_ok (d a : blocks) (R : Z -> Z) (H : gset Z) (pid : Z) (bf : buf) : Prop := {
  bk_dev : b_dev bf = ROOTDEV;
  bk_ref : b_refcnt bf = R (b_blockno bf);
  bk_lock : slk_locked (b_lock bf) = if decide (b_blockno bf ∈ H) then 1 else 0;
  bk_pid : b_blockno bf ∈ H -> slk_pid (b_lock bf) = pid;
  bk_valid : b_valid bf <> 0 -> is_Some (a !! b_blockno bf) -> a !! b_blockno bf = Some (b_data bf);
  bk_clean : b_valid bf <> 0 -> b_refcnt bf = 0 -> is_Some (a !! b_blockno bf) -> d !! b_blockno bf = Some (b_data bf)
}.

(** A buffer that holds no block yet. *)
Definition neutral (bf : buf) : Prop :=
  b_dev bf = 0 /\ b_refcnt bf = 0 /\ slk_locked (b_lock bf) = 0.

Lemma neutral_dev bf : neutral bf -> b_dev bf <> ROOTDEV.
Proof. intros (-> & _). done. Qed.

(** The buffer at [x] holds block [b]. *)
Definition holds (m : gmap Z buf) (x b : Z) : Prop :=
  exists bf, m !! x = Some bf /\ b_dev bf = ROOTDEV /\ b_blockno bf = b.

Record core (m : gmap Z buf) (l : list Z) (d a : blocks) (R : Z -> Z) (H : gset Z) (pid : Z) : Prop := {
  co_nodup : NoDup l;
  co_dom : forall x, x ∈ l <-> is_Some (m !! x);
  co_quiet : forall x bf, m !! x = Some bf -> slk_quiet (b_lock bf);
  co_buf : forall x bf, m !! x = Some bf -> neutral bf \/ buf_ok d a R H pid bf;
  co_uniq : forall x y b, holds m x b -> holds m y b -> x = y;
  co_abs : forall b, is_Some (a !! b) -> (forall x bf, m !! x = Some bf -> b_dev bf = ROOTDEV -> b_blockno bf = b -> b_valid bf = 0) ->
    a !! b = d !! b;
  co_present : forall b, R b <> 0 -> exists x, holds m x b;
  co_held : forall b, b ∈ H -> R b <> 0;
  co_pos : forall b, 0 <= R b
}.

Lemma core_ok m l d a R H pid x bf :
  core m l d a R H pid -> m !! x = Some bf -> b_dev bf = ROOTDEV -> buf_ok d a R H pid bf.
Proof. intros Hc Hx Hd. destruct (co_buf _ _ _ _ _ _ _ Hc x bf Hx) as [[Hn _]|]; [by rewrite Hd in Hn|done]. Qed.

Lemma holds_insert m x bf y b :
  holds (<[x := bf]> m) y b <->
  (x = y /\ b_dev bf = ROOTDEV /\ b_blockno bf = b) \/ (x <> y /\ holds m y b).
Proof.
  unfold holds. destruct (decide (x = y)) as [->|Hne].
  - rewrite lookup_insert_eq. split; [intros (? & [= <-] & ?); auto|].
    intros [(_ & ?)|[? _]]; [eauto|done].
  - rewrite lookup_insert_ne by done. split; [auto|]. by intros [[? _]|[_ ?]].
Qed.

Lemma holds_delete m x y b : holds (delete x m) y b <-> x <> y /\ holds m y b.
Proof.
  unfold holds. destruct (decide (x = y)) as [->|Hne].
  - rewrite lookup_delete_eq. split; [by intros (? & ? & _)|by intros [? _]].
  - rewrite lookup_delete_ne by done. split; [auto|]. by intros [_ ?].
Qed.

(** The predicate on a buffer depends on the abstract state only at its own
    block. *)
Lemma buf_ok_ext d a R H d' a' R' H' pid bf :
  buf_ok d a R H pid bf ->
  (let c := b_blockno bf in
   d' !! c = d !! c /\ a' !! c = a !! c /\ R' c = R c /\ (c ∈ H' <-> c ∈ H)) ->
  buf_ok d' a' R' H' pid bf.
Proof.
  intros [? Hr Hl Hp Hv Hc] (Ed & Ea & ER & EH). split; rewrite ?Ed, ?Ea, ?ER; try done.
  - rewrite Hl. by repeat case_decide; try tauto.
  - intros ?. by apply Hp, EH.
Qed.

(** ** Changing the buffer of one block *)

Definition agree_off (b : Z) (d a : blocks) (R : Z -> Z) (H : gset Z) (d' a' : blocks) (R' : Z -> Z) (H' : gset Z) : Prop :=
  forall c, c <> b -> d' !! c = d !! c /\ a' !! c = a !! c /\ R' c = R c /\ (c ∈ H' <-> c ∈ H).

Lemma core_upd m l d a R H pid x bf bf' d' a' R' H' :
  core m l d a R H pid -> m !! x = Some bf -> b_dev bf = ROOTDEV -> b_blockno bf' = b_blockno bf ->
  slk_quiet (b_lock bf') -> buf_ok d' a' R' H' pid bf' ->
  agree_off (b_blockno bf) d a R H d' a' R' H' ->
  (b_valid bf' = 0 -> is_Some (a' !! b_blockno bf) -> a' !! b_blockno bf = d' !! b_blockno bf) ->
  (b_blockno bf ∈ H' -> R' (b_blockno bf) <> 0) -> 0 <= R' (b_blockno bf) ->
  core (<[x := bf']> m) l d' a' R' H' pid.
Proof.
  intros Hc Hx Hd Hb Hq Hok Hag Hinv Hh Hpos. set (b := b_blockno bf) in *.
  assert (forall y c, holds (<[x := bf']> m) y c <-> holds m y c) as Hholds.
  { intros y c. rewrite holds_insert. split.
    - intros [(<- & _ & E)|[_ ?]]; [|done]. exists bf. rewrite <- E, Hb. done.
    - intros Hy. destruct (decide (x = y)) as [->|Hne]; [left|by right].
      destruct Hy as (bf0 & E & _ & <-). rewrite Hx in E. injection E as <-.
      split; [done|]. split; [apply Hok|done]. }
  split.
  - apply Hc.
  - intros y. rewrite (co_dom _ _ _ _ _ _ _ Hc y), lookup_insert_is_Some.
    split; [intros ?|intros [->|[_ ?]]; eauto]. destruct (decide (x = y)); auto.
  - intros y bf0 [[<- <-]|[Hne Hy]]%lookup_insert_Some; [done|by eapply co_quiet].
  - intros y bf0 [[<- <-]|[Hne Hy]]%lookup_insert_Some; [by right|].
    destruct (co_buf _ _ _ _ _ _ _ Hc y bf0 Hy) as [?|Hk]; [by left|right].
    eapply buf_ok_ext; [exact Hk|]. apply Hag. intros E. apply Hne.
    apply (co_uniq _ _ _ _ _ _ _ Hc x y b); [by exists bf|exists bf0; split; [done|]; split; [apply Hk|done]].
  - intros y z c Hy%Hholds Hz%Hholds. by eapply co_uniq.
  - intros c Hs Hn. destruct (decide (c = b)) as [->|Hne].
    + apply Hinv; [|done]. apply (Hn x); [apply lookup_insert_eq|apply Hok|done].
    + destruct (Hag c Hne) as (-> & E & _). rewrite E in Hs |- *. apply (co_abs _ _ _ _ _ _ _ Hc); [done|]. intros y bf0 Hy Hd0 Hc0.
      apply (Hn y); [|done|done]. rewrite lookup_insert_ne; [done|]. intros <-. by simplify_eq.
  - intros c HR. setoid_rewrite Hholds. destruct (decide (c = b)) as [->|Hne]; [exists x; by exists bf|].
    destruct (Hag c Hne) as (_ & _ & E & _). rewrite E in HR. by apply (co_present _ _ _ _ _ _ _ Hc).
  - intros c HH. destruct (decide (c = b)) as [->|Hne]; [auto|].
    destruct (Hag c Hne) as (_ & _ & -> & E). apply (co_held _ _ _ _ _ _ _ Hc). by apply E.
  - intros c. destruct (decide (c = b)) as [->|Hne]; [done|].
    destruct (Hag c Hne) as (_ & _ & -> & _). apply Hc.
Qed.

(** ** Buffers changing hands *)

Section Lists.
Context (m : gmap Z buf) (l : list Z) (d a : blocks) (R : Z -> Z) (H : gset Z) (pid : Z).
Hypothesis Hc : core m l d a R H pid.

(** An unused buffer can forget its block. *)
Lemma core_neutral x bf bf' :
  m !! x = Some bf -> b_refcnt bf = 0 -> neutral bf' -> slk_quiet (b_lock bf') ->
  core (<[x := bf']> m) l d a R H pid.
Proof.
  intros Hx Hr Hn Hq.
  assert (forall y b, holds (<[x := bf']> m) y b <-> x <> y /\ holds m y b) as Hholds.
  { intros y b. rewrite holds_insert. destruct Hn as (Hn & _). split; [|auto].
    intros [(_ & E & _)|?]; [by rewrite Hn in E|done]. }
  split; try apply Hc.
  - intros y. rewrite (co_dom _ _ _ _ _ _ _ Hc y), lookup_insert_is_Some.
    split; [intros ?|intros [->|[_ ?]]; eauto]. destruct (decide (x = y)); auto.
  - intros y bf0 [[<- <-]|[Hne Hy]]%lookup_insert_Some; [done|by eapply co_quiet].
  - intros y bf0 [[<- <-]|[Hne Hy]]%lookup_insert_Some; [by left|by eapply co_buf].
  - intros y z c [_ Hy]%Hholds [_ Hz]%Hholds. by eapply co_uniq.
  - intros b Hs Hb. destruct (decide (b_dev bf = ROOTDEV /\ b_blockno bf = b /\ b_valid bf <> 0)) as [(Ed & Eb & Ev)|Hno].
    + destruct (core_ok _ _ _ _ _ _ _ x bf Hc Hx Ed) as [_ _ _ _ Hv Hcl]. rewrite <- Eb in *. by rewrite Hv, Hcl by done.
    + apply (co_abs _ _ _ _ _ _ _ Hc); [done|]. intros y bf0 Hy Ed Eb. destruct (decide (x = y)) as [<-|Hne].
      * rewrite Hx in Hy. injection Hy as <-. destruct (decide (b_valid bf = 0)); [done|tauto].
      * apply (Hb y); [by rewrite lookup_insert_ne|done|done].
  - intros b HR. destruct (co_present _ _ _ _ _ _ _ Hc b HR) as (y & Hy). exists y. apply Hholds.
    split; [|done]. intros <-. destruct Hy as (bf0 & E & Ed & Eb). rewrite Hx in E. injection E as <-.
    destruct (core_ok _ _ _ _ _ _ _ x bf Hc Hx Ed) as [_ Hrb]. congruence.
Qed.

(** A neutral buffer takes a block nobody holds. *)
Lemma core_take x bf bf' b R' H' :
  m !! x = Some bf -> neutral bf -> (forall y, ~ holds m y b) -> b_blockno bf' = b ->
  slk_quiet (b_lock bf') -> buf_ok d a R' H' pid bf' -> b_valid bf' = 0 ->
  (forall c, c <> b -> R' c = R c /\ (c ∈ H' <-> c ∈ H)) -> 0 < R' b ->
  core (<[x := bf']> m) l d a R' H' pid.
Proof.
  intros Hx Hn Hb Eb Hq Hok Hv Hag HR. pose proof (neutral_dev _ Hn) as Hnd.
  assert (forall y c, holds (<[x := bf']> m) y c <-> (x = y /\ c = b) \/ holds m y c) as Hholds.
  { intros y c. rewrite holds_insert. split.
    - intros [(? & _ & ?)|[_ ?]]; [left; split; congruence|by right].
    - intros [[? ->]|Hy]; [left; repeat split; [done|apply Hok|done]|].
      right. split; [|done]. intros <-. destruct Hy as (bf0 & E & Ed & _). by simplify_eq. }
  split; try apply Hc.
  - intros y. rewrite (co_dom _ _ _ _ _ _ _ Hc y), lookup_insert_is_Some.
    split; [intros ?|intros [->|[_ ?]]; eauto]. destruct (decide (x = y)); auto.
  - intros y bf0 [[<- <-]|[Hne Hy]]%lookup_insert_Some; [done|by eapply co_quiet].
  - intros y bf0 [[<- <-]|[Hne Hy]]%lookup_insert_Some; [by right|].
    destruct (co_buf _ _ _ _ _ _ _ Hc y bf0 Hy) as [?|Hk]; [by left|right].
    eapply buf_ok_ext; [exact Hk|]. split; [done|]. split; [done|]. apply Hag. intros E.
    apply (Hb y). exists bf0. split; [done|]. split; [apply Hk|done].
  - intros y z c [[-> ->]|Hy]%Hholds [[-> ?]|Hz]%Hholds; [done|by destruct (Hb z)|subst; by destruct (Hb y)|by eapply co_uniq].
  - intros c Hs Hn0. apply (co_abs _ _ _ _ _ _ _ Hc); [done|]. intros y bf0 Hy Ed Ec. apply (Hn0 y); [|done|done].
    rewrite lookup_insert_ne; [done|]. intros <-. by simplify_eq.
  - intros c Hne. setoid_rewrite Hholds. destruct (decide (c = b)) as [->|Hcb]; [exists x; auto|].
    destruct (Hag c Hcb) as [E _]. rewrite E in Hne. destruct (co_present _ _ _ _ _ _ _ Hc c Hne); eauto.
  - intros c HH. destruct (decide (c = b)) as [->|Hcb]; [lia|]. destruct (Hag c Hcb) as [-> E].
    apply (co_held _ _ _ _ _ _ _ Hc). by apply E.
  - intros c. destruct (decide (c = b)) as [->|Hcb]; [lia|]. destruct (Hag c Hcb) as [-> _]. apply Hc.
Qed.

(** A fresh neutral buffer joins the list. *)
Lemma core_join x bf :
  x ∉ l -> neutral bf -> slk_quiet (b_lock bf) -> core (<[x := bf]> m) (x :: l) d a R H pid.
Proof.
  intros Hx Hn Hq.
  assert (m !! x = None) as Hmx.
  { destruct (m !! x) eqn:E; [|done]. exfalso. apply Hx, (co_dom _ _ _ _ _ _ _ Hc). eauto. }
  assert (forall y b, holds (<[x := bf]> m) y b <-> holds m y b) as Hholds.
  { intros y b. rewrite holds_insert. destruct Hn as (Hn & _). split.
    - intros [(_ & E & _)|[_ ?]]; [by rewrite Hn in E|done].
    - intros Hy. right. split; [|done]. intros <-. destruct Hy as (bf0 & E & _). simplify_eq. }
  split; try apply Hc.
  - constructor; [done|apply Hc].
  - intros y. rewrite elem_of_cons, (co_dom _ _ _ _ _ _ _ Hc y), lookup_insert_is_Some.
    destruct (decide (x = y)); naive_solver.
  - intros y bf0 [[<- <-]|[Hne Hy]]%lookup_insert_Some; [done|by eapply co_quiet].
  - intros y bf0 [[<- <-]|[Hne Hy]]%lookup_insert_Some; [by left|by eapply co_buf].
  - intros y z c Hy%Hholds Hz%Hholds. by eapply co_uniq.
  - intros b Hs Hb. apply (co_abs _ _ _ _ _ _ _ Hc); [done|]. intros y bf0 Hy. apply (Hb y).
    rewrite lookup_insert_ne; [done|]. intros <-. simplify_eq.
  - intros b HR. setoid_rewrite Hholds. by apply (co_present _ _ _ _ _ _ _ Hc).
Qed.

(** A neutral buffer leaves the list. *)
Lemma core_leave x bf l' :
  m !! x = Some bf -> neutral bf -> l ≡ₚ x :: l' -> core (delete x m) l' d a R H pid.
Proof.
  intros Hx Hn Hl. pose proof (co_nodup _ _ _ _ _ _ _ Hc) as Hnd. rewrite Hl in Hnd.
  apply list.NoDup_cons in Hnd as [Hnx Hnd].
  assert (forall y b, holds (delete x m) y b <-> holds m y b) as Hholds.
  { intros y b. rewrite holds_delete. split; [by intros [_ ?]|]. intros Hy. split; [|done].
    intros <-. destruct Hy as (bf0 & E & E' & _). apply (neutral_dev _ Hn). by simplify_eq. }
  split; try apply Hc; [done|..].
  - intros y. rewrite lookup_delete_is_Some, <- (co_dom _ _ _ _ _ _ _ Hc y), Hl, elem_of_cons.
    split; [intros Hy; split; [congruence|by right]|]. by intros [? [?|?]].
  - intros y bf0 [_ Hy]%lookup_delete_Some. by eapply co_quiet.
  - intros y bf0 [_ Hy]%lookup_delete_Some. by eapply co_buf.
  - intros y z c Hy%Hholds Hz%Hholds. by eapply co_uniq.
  - intros b Hs Hb. apply (co_abs _ _ _ _ _ _ _ Hc); [done|]. intros y bf0 Hy Ed. apply (Hb y); [|done].
    rewrite lookup_delete_ne; [done|]. intros <-. apply (neutral_dev _ Hn). by simplify_eq.
  - intros b HR. setoid_rewrite Hholds. by apply (co_present _ _ _ _ _ _ _ Hc).
Qed.

Lemma core_perm l' : l ≡ₚ l' -> core m l' d a R H pid.
Proof.
  intros Hl. split; try apply Hc.
  - rewrite <- Hl. apply Hc.
  - intros x. rewrite <- Hl. apply Hc.
Qed.

End Lists.

(** ** Unused buffers *)

Definition is_unused (m : gmap Z buf) (x : Z) : nat :=
  match m !! x with Some bf => if b_refcnt bf =? 0 then 1%nat else 0%nat | None => 0%nat end.

Fixpoint unused (m : gmap Z buf) (l : list Z) : nat :=
  match l with [] => 0%nat | x :: l => (is_unused m x + unused m l)%nat end.

Lemma unused_ext m m' l : (forall x, x ∈ l -> is_unused m' x = is_unused m x) -> unused m' l = unused m l.
Proof.
  induction l as [|x l IH]; intros Hx; [done|]. simpl. rewrite Hx by left. f_equal.
  apply IH. intros y Hy. apply Hx. by right.
Qed.

Lemma unused_perm m l l' : l ≡ₚ l' -> unused m l = unused m l'.
Proof. induction 1; simpl; lia. Qed.

Lemma is_unused_ne m x y bf : x <> y -> is_unused (<[x := bf]> m) y = is_unused m y.
Proof. intros. unfold is_unused. by rewrite lookup_insert_ne. Qed.

Lemma is_unused_eq m x bf :
  is_unused (<[x := bf]> m) x = if b_refcnt bf =? 0 then 1%nat else 0%nat.
Proof. unfold is_unused. by rewrite lookup_insert_eq. Qed.

Lemma unused_insert_notin m l x bf : x ∉ l -> unused (<[x := bf]> m) l = unused m l.
Proof. intros Hx. apply unused_ext. intros y Hy. apply is_unused_ne. by intros ->. Qed.

(** Replacing one buffer changes the count by its own contribution. *)
Lemma unused_insert m l x bf :
  NoDup l -> x ∈ l ->
  (unused (<[x := bf]> m) l + is_unused m x = unused m l + is_unused (<[x := bf]> m) x)%nat.
Proof.
  intros Hnd Hx. apply list_elem_of_split in Hx as (l1 & l2 & ->).
  rewrite <- !(unused_perm _ _ _ (Permutation_middle l1 l2 x)) in *. simpl.
  rewrite <- Permutation_middle in Hnd. apply list.NoDup_cons in Hnd as [Hn _].
  rewrite unused_insert_notin by done. lia.
Qed.

Lemma find_unused_some m l x :
  find_unused m l = Some x -> x ∈ l /\ exists bf, m !! x = Some bf /\ b_refcnt bf = 0.
Proof.
  induction l as [|y l IH]; simpl; [done|]. destruct (m !! y) as [bf|] eqn:E; [|done].
  destruct (Z.eqb_spec (b_refcnt bf) 0); [intros [= ->]; split; [left|eauto]|].
  intros H. destruct (IH H). split; [by right|done].
Qed.

Lemma find_unused_none m l :
  find_unused m l = None -> (forall x, x ∈ l -> is_Some (m !! x)) -> unused m l = 0%nat.
Proof.
  induction l as [|y l IH]; simpl; [done|]. intros Hf Hd. unfold is_unused.
  destruct (Hd y) as [bf E]; [left|]. rewrite E in *. destruct (b_refcnt bf =? 0); [done|].
  apply IH; [done|]. intros x Hx. apply Hd. by right.
Qed.

Lemma find_cached_some m dev b l x :
  find_cached m dev b l = Some x -> x ∈ l /\ exists bf, m !! x = Some bf /\ b_dev bf = dev /\ b_blockno bf = b.
Proof.
  induction l as [|y l IH]; simpl; [done|]. destruct (m !! y) as [bf|] eqn:E; [|done].
  destruct (Z.eqb_spec (b_dev bf) dev), (Z.eqb_spec (b_blockno bf) b); simpl;
    try (intros [= ->]; split; [left|eauto]); intros H; destruct (IH H); (split; [by right|done]).
Qed.

Lemma find_cached_none m dev b l :
  find_cached m dev b l = None -> (forall x, x ∈ l -> is_Some (m !! x)) ->
  forall x bf, x ∈ l -> m !! x = Some bf -> b_dev bf = dev -> b_blockno bf = b -> False.
Proof.
  induction l as [|y l IH]; simpl; intros Hf Hd x bf Hx Hm Ed Eb; [by apply elem_of_nil in Hx|].
  destruct (Hd y) as [bf' E]; [left|]. rewrite E in Hf. apply elem_of_cons in Hx as [->|Hx].
  - simplify_eq. by rewrite !Z.eqb_refl in Hf.
  - destruct (_ && _); [done|]. eapply IH; [done| |done..]. intros z Hz. apply Hd. by right.
Qed.

(** ** The representation *)

(** The abstract effect of taking a reference to [b] and locking it. *)
Abbreviation take_ref R b := (<[b := R b + 1]> R : Z -> Z).

Section Rules.
Context {A : Type} `{HM : HasMach A} {OC : ObjCache A}.

Record bio_rep (s : bio A) (a : blocks) (R : Z -> Z) (H : gset Z) (n : nat) : Prop := {
  rp_core : core (bufs s) (mru s) (dsk s) a R H (cur_pid s);
  rp_lock : lk_locked (bc_lock s) = 0;
  rp_hart : hart_ok (hart_of s);
  rp_count : bcache_count s = Z.of_nat (length (mru s));
  rp_dom : forall b, is_Some (a !! b) -> is_Some (dsk s !! b);
  rp_room : exists room, oc_inv (buf_cache s) (bi_base s) (fun x => x ∈ mru s) room /\
    (n <= unused (bufs s) (mru s) + room)%nat
}.

(** The buffer at [x] holds valid contents of block [b]. *)
Definition at_buf (s : bio A) (x b : Z) : Prop :=
  exists bf, bufs s !! x = Some bf /\ b_dev bf = ROOTDEV /\ b_blockno bf = b /\ b_valid bf <> 0.

(** Referenced blocks stay in their buffers. *)
Definition kept (R : Z -> Z) (s s' : bio A) : Prop :=
  forall y b, R b <> 0 -> at_buf s y b -> at_buf s' y b.

(** What no routine but [bwrite] touches. *)
Record undisturbed (s s' : bio A) : Prop := {
  un_hart : hart_same (hart_of s) (hart_of s');
  un_pid : cur_pid s' = cur_pid s;
  un_dsk : dsk s' = dsk s;
  un_dlog : dlog s' = dlog s
}.

#[global] Instance undisturbed_pre : PreOrder undisturbed.
Proof.
  split; [by intros s|]. intros s1 s2 s3 [A1 A2 A3 A4] [B1 B2 B3 B4].
  split; [by rewrite A1|congruence..].
Qed.

Lemma kept_refl R s : kept R s s.
Proof. by intros y b _. Qed.

Lemma set_hart_set_hart {S} `{HasMach S} h h' (s : S) : set_hart h (set_hart h' s) = set_hart h s.
Proof. unfold set_hart, mem_of. by rewrite mach_of_set, set_mach_set. Qed.

Lemma wp_get_buf x bf Q (s : bio A) : bufs s !! x = Some bf -> Q bf s -> wp (get_buf x) Q s.
Proof. intros Hx HQ. unfold wp, get_buf, mbind, M_bind. simpl. by rewrite Hx. Qed.

Lemma wp_upd_buf x f bf Q (s : bio A) :
  bufs s !! x = Some bf -> Q tt (set_bufs (<[x := f bf]> (bufs s)) s) -> wp (upd_buf x f) Q s.
Proof. intros Hx HQ. unfold upd_buf. wp_step. eapply wp_get_buf; [done|]. by apply wp_modify. Qed.

(** [bc_lock s] is held by this hart since it was in state [h0]. *)
Definition in_cs (h0 : hart) (s : bio A) : Prop :=
  lk_locked (bc_lock s) = 1 /\ lk_cpu (bc_lock s) = h_cpu h0 /\ hart_same (push_off h0) (hart_of s) /\ hart_ok h0.

Lemma wp_bc_acquire Q (s : bio A) :
  lk_locked (bc_lock s) = 0 -> hart_ok (hart_of s) ->
  (forall l, let s1 := set_bc_lock l (set_hart (push_off (hart_of s)) s) in
     in_cs (hart_of s) s1 -> Q tt s1) ->
  wp (acquire_in bc_lock set_bc_lock) Q s.
Proof.
  intros Hl Hh HQ. apply wp_acquire_in; [done|]. apply HQ. split; [done|]. split; [done|].
  split; [|done]. change (hart_same (push_off (hart_of s)) (hart_of (set_hart (push_off (hart_of s)) s))).
  by rewrite hart_of_set_hart.
Qed.

Lemma wp_bc_release h0 Q (s : bio A) :
  in_cs h0 s ->
  (forall l h, lk_locked l = 0 -> hart_same h0 h -> Q tt (set_bc_lock l (set_hart h s))) ->
  wp (release_in bc_lock set_bc_lock) Q s.
Proof.
  intros (Hl & Hc & Hs & Hh) HQ. destruct (pop_push_off h0 (hart_of s) Hh Hs) as (h & Hp & Hhh).
  eapply wp_release_in; [by rewrite Hl| |exact Hp|by apply HQ].
  rewrite Hc. destruct Hs as (E & _). by rewrite E.
Qed.

Lemma wp_buf_acquiresleep x bf Q (s : bio A) :
  bufs s !! x = Some bf -> slk_quiet (b_lock bf) -> slk_locked (b_lock bf) = 0 -> hart_ok (hart_of s) ->
  (forall l h, slk_quiet l -> slk_locked l = 1 -> slk_pid l = cur_pid s -> hart_same (hart_of s) h ->
     Q tt (set_bufs (<[x := set_lock l bf]> (bufs s)) (set_hart h s))) ->
  wp (buf_acquiresleep x) Q s.
Proof.
  intros Hx Hq Hl Hh HQ. destruct (acquiresleep_free (cur_pid s) (b_lock bf) (hart_of s) Hq Hl Hh) as (h & E & Hs).
  unfold buf_acquiresleep, on_lock. wp_step. apply wp_get. wp_step. eapply wp_get_buf; [done|].
  wp_step. eapply wp_on_hart; [exact E|]. by apply (wp_upd_buf x _ bf), HQ.
Qed.

Lemma wp_buf_releasesleep x bf Q (s : bio A) :
  bufs s !! x = Some bf -> slk_quiet (b_lock bf) -> hart_ok (hart_of s) ->
  (forall l h, slk_quiet l -> slk_locked l = 0 -> hart_same (hart_of s) h ->
     Q tt (set_bufs (<[x := set_lock l bf]> (bufs s)) (set_hart h s))) ->
  wp (buf_releasesleep x) Q s.
Proof.
  intros Hx Hq Hh HQ. destruct (releasesleep_ok (b_lock bf) (hart_of s) Hq Hh) as (h & E & Hs).
  unfold buf_releasesleep, on_lock. wp_step. eapply wp_get_buf; [done|].
  wp_step. eapply wp_on_hart; [exact E|]. by apply (wp_upd_buf x _ bf), HQ.
Qed.

Lemma wp_buf_holdingsleep x bf (Q : bool -> bio A -> Prop) s :
  bufs s !! x = Some bf -> slk_quiet (b_lock bf) -> hart_ok (hart_of s) ->
  (forall l h, slk_quiet l -> slk_locked l = slk_locked (b_lock bf) -> slk_pid l = slk_pid (b_lock bf) ->
     hart_same (hart_of s) h ->
     Q (negb (slk_locked (b_lock bf) =? 0) && (slk_pid (b_lock bf) =? cur_pid s))
       (set_bufs (<[x := set_lock l bf]> (bufs s)) (set_hart h s))) ->
  wp (buf_holdingsleep x) Q s.
Proof.
  intros Hx Hq Hh HQ. destruct (holdingsleep_ok (cur_pid s) (b_lock bf) (hart_of s) Hq Hh) as (h & E & Hs).
  unfold buf_holdingsleep. wp_step. eapply wp_get_buf; [done|]. wp_step. apply wp_get.
  wp_step. unfold wp, on_hart. rewrite E. simpl.
  change (wp (upd_buf x (set_lock (mkSleeplock (slk_locked (b_lock bf)) (mkLock (lk_name (slk_lk (b_lock bf))) 0 0)
    (slk_name (b_lock bf)) (slk_pid (b_lock bf)))) ≫= fun _ => mret (negb (slk_locked (b_lock bf) =? 0) && (slk_pid (b_lock bf) =? cur_pid s)))
    Q (set_hart h s)).
  wp_step. apply (wp_upd_buf x _ bf); [done|]. wp_step. by apply HQ.
Qed.

(** ** bget *)

(** What follows [release(&bcache.lock); acquiresleep(&b->lock); return b;],
    once the list and the buffer are as the new owner wants them. *)
Lemma wp_bget_finish h0 (s : bio A) x bf a R H n (Q : Z -> bio A -> Prop) :
  in_cs h0 s -> bufs s !! x = Some bf -> slk_quiet (b_lock bf) -> slk_locked (b_lock bf) = 0 ->
  (forall l, slk_quiet l -> slk_locked l = 1 -> slk_pid l = cur_pid s ->
     core (<[x := set_lock l bf]> (bufs s)) (mru s) (dsk s) a R H (cur_pid s)) ->
  bcache_count s = Z.of_nat (length (mru s)) ->
  (forall b, is_Some (a !! b) -> is_Some (dsk s !! b)) ->
  (exists room, oc_inv (buf_cache s) (bi_base s) (fun y => y ∈ mru s) room /\
     (n <= unused (bufs s) (mru s) + room)%nat) ->
  (forall l s', bio_rep s' a R H n -> bufs s' = <[x := set_lock l bf]> (bufs s) ->
     hart_same h0 (hart_of s') -> cur_pid s' = cur_pid s -> dsk s' = dsk s -> dlog s' = dlog s -> Q x s') ->
  wp (release_in bc_lock set_bc_lock;; buf_acquiresleep x;; mret x) Q s.
Proof.
  intros Hcs Hx Hq Hl Hcore Hcnt Hdom (room & Hroom & Hn) HQ. pose proof Hcs as (_ & _ & _ & Hh0).
  wp_step. apply (wp_bc_release h0); [done|]. intros lk h Hlk Hh. wp_step.
  assert (hart_ok h) as Hokh by (by apply (hart_ok_proper _ _ Hh)).
  apply (wp_buf_acquiresleep x bf); [done|done|done| |].
  { change (hart_ok (hart_of (set_hart h s))). by rewrite hart_of_set_hart. }
  intros l h2 Hql Hll Hpl Hh2. change (hart_same (hart_of (set_hart h s)) h2) in Hh2.
  rewrite hart_of_set_hart in Hh2. wp_step. set (s' := set_bufs _ _).
  assert (hart_of s' = h2) as Eh by exact (hart_of_set_hart h2 (set_bc_lock lk (set_hart h s))).
  assert (bi_base s' = set_hart h2 (set_hart h (bi_base s))) as Eb by reflexivity.
  assert (hart_ok h2) as Hokh2 by (by apply (hart_ok_proper _ _ Hh2)).
  apply (HQ l s'); [|reflexivity|by rewrite Eh, Hh|reflexivity..].
  split; [by apply Hcore|exact Hlk|by rewrite Eh|exact Hcnt|exact Hdom|].
  exists room. rewrite Eb. split; [apply oc_hart; [by apply oc_hart|done]|].
  change (n <= unused (<[x := set_lock l bf]> (bufs s)) (mru s) + room)%nat.
  rewrite (unused_ext (bufs s)); [done|]. intros y _. unfold is_unused.
  destruct (decide (x = y)) as [<-|Hne]; [by rewrite lookup_insert_eq, Hx|by rewrite lookup_insert_ne].
Qed.

Lemma take_ref_agree (R : Z -> Z) (H : gset Z) (b c : Z) :
  c <> b -> take_ref R b c = R c /\ (c ∈ {[b]} ∪ H <-> c ∈ H).
Proof. intros Hne. rewrite fn_lookup_insert_ne by done. set_solver. Qed.

(** The buffer after [bget] found its block. *)
Lemma core_hit (s : bio A) a R H n x bf b l :
  bio_rep s a R H n -> bufs s !! x = Some bf -> b_dev bf = ROOTDEV -> b_blockno bf = b ->
  slk_quiet l -> slk_locked l = 1 -> slk_pid l = cur_pid s ->
  core (<[x := set_lock l (set_refcnt (R b + 1) bf)]> (bufs s)) (mru s) (dsk s) a (take_ref R b) ({[b]} ∪ H) (cur_pid s).
Proof.
  intros Hr Hx Hd Hb Hq Hl Hp. pose proof (rp_core _ _ _ _ _ Hr) as Hc.
  pose proof (core_ok _ _ _ _ _ _ _ _ _ Hc Hx Hd) as Hok. pose proof (co_pos _ _ _ _ _ _ _ Hc b) as HR.
  eapply core_upd; [exact Hc|exact Hx|exact Hd|reflexivity|done| | | | |]; rewrite ?Hb.
  - split; simpl; rewrite ?Hb; [done|by rewrite fn_lookup_insert|rewrite decide_True by set_solver; done|done| |].
    + rewrite <- Hb. apply Hok.
    + intros _. lia.
  - intros c Hne. split; [done|]. split; [done|]. by apply take_ref_agree.
  - intros Hv Hs. apply (co_abs _ _ _ _ _ _ _ Hc); [done|]. intros y bf0 Hy Ed Eb.
    assert (y = x) as -> by (apply (co_uniq _ _ _ _ _ _ _ Hc y x b); [by exists bf0|by exists bf]).
    by simplify_eq.
  - intros _. rewrite fn_lookup_insert. lia.
  - rewrite fn_lookup_insert. lia.
Qed.

(** The buffer after [bget] gave a neutral buffer a block nobody had. *)
Lemma core_miss m l0 d a R H pid x bf bf' b l :
  core m l0 d a R H pid -> m !! x = Some bf -> neutral bf -> (forall y, ~ holds m y b) ->
  slk_quiet l -> slk_locked l = 1 -> slk_pid l = pid ->
  core (<[x := set_lock l (assign ROOTDEV b bf')]> m) l0 d a (take_ref R b) ({[b]} ∪ H) pid.
Proof.
  intros Hc Hx Hn Hb Hq Hl Hp.
  assert (R b = 0) as HR.
  { destruct (decide (R b = 0)) as [|Hne]; [done|].
    destruct (co_present _ _ _ _ _ _ _ Hc b Hne) as (y & Hy). by destruct (Hb y). }
  eapply (core_take m l0 d a R H pid Hc x bf _ b); [done|done|done|done|done| |done| |].
  - split; simpl; [done|rewrite fn_lookup_insert; lia|rewrite decide_True by set_solver; done|done|done|done].
  - intros c Hne. by apply take_ref_agree.
  - rewrite fn_lookup_insert. lia.
Qed.

Definition neutralize (bf : buf) : buf :=
  mkBuf 0 (b_disk bf) 0 0 (b_lock bf) 0 (b_data bf).

Lemma unused_unlocked m l d a R H pid x bf :
  core m l d a R H pid -> m !! x = Some bf -> b_refcnt bf = 0 -> slk_locked (b_lock bf) = 0.
Proof.
  intros Hc Hx Hr. destruct (co_buf _ _ _ _ _ _ _ Hc x bf Hx) as [(_ & _ & ?)|[_ Hk Hl]]; [done|].
  rewrite Hl, decide_False; [done|]. intros Hin. apply (co_held _ _ _ _ _ _ _ Hc) in Hin. congruence.
Qed.

(** Referenced blocks are not in an unused buffer. *)
Lemma at_buf_used (s : bio A) a R H n x bf y b :
  bio_rep s a R H n -> bufs s !! x = Some bf -> b_refcnt bf = 0 -> R b <> 0 -> at_buf s y b -> x <> y.
Proof.
  intros Hr Hx H0 HR (bf' & Hy & Ed & Eb & _) <-. simplify_eq.
  pose proof (core_ok _ _ _ _ _ _ _ _ _ (rp_core _ _ _ _ _ Hr) Hx Ed) as [_ Hk]. congruence.
Qed.

Lemma kept_insert (s s' : bio A) R x bf' :
  bufs s' = <[x := bf']> (bufs s) ->
  (forall b, R b <> 0 -> at_buf s x b -> b_dev bf' = ROOTDEV /\ b_blockno bf' = b /\ b_valid bf' <> 0) ->
  kept R s s'.
Proof.
  intros E Hx y b HR Hy. unfold at_buf. rewrite E. destruct (decide (x = y)) as [<-|Hne].
  - rewrite lookup_insert_eq. eexists. split; [done|]. by apply Hx.
  - by rewrite lookup_insert_ne.
Qed.

(** The rule for [bget] says which buffer it returned and how its contents
    came about: they are current if it says they are valid. *)
Definition bget_post (s : bio A) (a : blocks) (R : Z -> Z) (H : gset Z) (n : nat) (b x : Z) (s' : bio A) : Prop :=
  bio_rep s' a (take_ref R b) ({[b]} ∪ H) (if R b =? 0 then pred n else n) /\
  holds (bufs s') x b /\ undisturbed s s' /\ kept R s s'.

Lemma wp_bget_hit (s s1 : bio A) a R H n b x lk Q :
  bio_rep s a R H n -> b ∉ H -> 0 <= R b < 2 ^ 32 - 1 ->
  s1 = set_bc_lock lk (set_hart (push_off (hart_of s)) s) -> in_cs (hart_of s) s1 ->
  holds (bufs s) x b ->
  (forall s', bget_post s a R H n b x s' -> Q x s') ->
  wp (upd_buf x (fun bf => set_refcnt (u32 (b_refcnt bf + 1)) bf);;
      release_in bc_lock set_bc_lock;; buf_acquiresleep x;; mret x) Q s1.
Proof.
  intros Hr Hb HR -> Hcs (bf & Hx & Ed & Eb) HQ. pose proof (rp_core _ _ _ _ _ Hr) as Hc.
  pose proof (core_ok _ _ _ _ _ _ _ _ _ Hc Hx Ed) as Hok.
  wp_step. apply (wp_upd_buf x _ bf); [done|]. rewrite (bk_ref _ _ _ _ _ _ Hok), Eb, u32_small by lia.
  assert (x ∈ mru s) as Hin by (apply (co_dom _ _ _ _ _ _ _ Hc); eauto).
  apply (wp_bget_finish (hart_of s) _ x (set_refcnt (R b + 1) bf) a (take_ref R b) ({[b]} ∪ H)
           (if R b =? 0 then pred n else n)).
  - exact Hcs.
  - apply lookup_insert_eq.
  - exact (co_quiet _ _ _ _ _ _ _ Hc x bf Hx).
  - simpl. rewrite (bk_lock _ _ _ _ _ _ Hok). by rewrite Eb, decide_False.
  - intros l Hq Hl Hp. simpl. rewrite insert_insert_eq. by apply (core_hit s a R H n).
  - apply Hr.
  - apply Hr.
  - destruct (rp_room _ _ _ _ _ Hr) as (room & Ho & Hn). exists room. split; [exact (oc_hart _ _ _ _ _ Ho (push_off_ok _ (rp_hart _ _ _ _ _ Hr)))|].
    simpl. pose proof (unused_insert (bufs s) (mru s) x (set_refcnt (R b + 1) bf) (co_nodup _ _ _ _ _ _ _ Hc) Hin) as Hu.
    rewrite is_unused_eq in Hu. unfold is_unused in Hu. rewrite Hx in Hu. simpl in Hu.
    rewrite (bk_ref _ _ _ _ _ _ Hok), Eb in Hu. replace (R b + 1 =? 0) with false in Hu by lia.
    destruct (R b =? 0); lia.
  - intros l s' Hr' Eq Hh Ep E1 E2. simpl in Eq. rewrite insert_insert_eq in Eq. apply HQ. split; [done|]. split; [|split].
    + rewrite Eq. eexists. rewrite lookup_insert_eq. split; [done|]. by simpl.
    + by split.
    + eapply kept_insert; [exact Eq|]. intros c _ (bf0 & E & ? & ? & ?). by simplify_eq.
Qed.

Lemma wp_bget_recycle (s s1 : bio A) a R H n b x bf lk Q :
  bio_rep s a R H n -> (forall y, ~ holds (bufs s) y b) -> R b = 0 ->
  s1 = set_bc_lock lk (set_hart (push_off (hart_of s)) s) -> in_cs (hart_of s) s1 ->
  bufs s !! x = Some bf -> b_refcnt bf = 0 ->
  (forall s', bget_post s a R H n b x s' -> Q x s') ->
  wp (upd_buf x (assign ROOTDEV b);; release_in bc_lock set_bc_lock;; buf_acquiresleep x;; mret x) Q s1.
Proof.
  intros Hr Hb HR -> Hcs Hx H0 HQ. pose proof (rp_core _ _ _ _ _ Hr) as Hc.
  assert (x ∈ mru s) as Hin by (apply (co_dom _ _ _ _ _ _ _ Hc); eauto).
  pose proof (co_quiet _ _ _ _ _ _ _ Hc x bf Hx) as Hq.
  pose proof (unused_unlocked _ _ _ _ _ _ _ _ _ Hc Hx H0) as Hul.
  wp_step. apply (wp_upd_buf x _ bf); [done|].
  apply (wp_bget_finish (hart_of s) _ x (assign ROOTDEV b bf) a (take_ref R b) ({[b]} ∪ H) (pred n)).
  - exact Hcs.
  - apply lookup_insert_eq.
  - exact Hq.
  - exact Hul.
  - intros l Hql Hl Hp. simpl. rewrite insert_insert_eq.
    rewrite <- (insert_insert_eq (bufs s) x _ (neutralize bf)).
    apply (core_miss _ _ _ _ R H _ x (neutralize bf)); [|apply lookup_insert_eq|done| |done|done|exact Hp].
    + by apply (core_neutral _ _ _ _ _ _ _ Hc x bf).
    + intros y [(_ & Ed & _)|[_ Hy]]%holds_insert; [done|by apply (Hb y)].
  - apply Hr.
  - apply Hr.
  - destruct (rp_room _ _ _ _ _ Hr) as (room & Ho & Hn). exists room.
    split; [exact (oc_hart _ _ _ _ _ Ho (push_off_ok _ (rp_hart _ _ _ _ _ Hr)))|].
    simpl. pose proof (unused_insert (bufs s) (mru s) x (assign ROOTDEV b bf) (co_nodup _ _ _ _ _ _ _ Hc) Hin) as Hu.
    rewrite is_unused_eq in Hu. unfold is_unused in Hu. rewrite Hx, H0 in Hu. simpl in Hu. lia.
  - intros l s' Hr' Eq Hh Ep E1 E2. simpl in Eq. rewrite insert_insert_eq in Eq. apply HQ.
    unfold bget_post. rewrite HR. simpl. split; [by rewrite HR in Hr'|]. split; [|split].
    + rewrite Eq. eexists. rewrite lookup_insert_eq. split; [done|]. by simpl.
    + by split.
    + eapply kept_insert; [exact Eq|]. intros c Hc0 Ha. by destruct (at_buf_used s a R H n x bf x c).
Qed.

Lemma wp_bget_grow (s s1 : bio A) a R H n b lk Q :
  bio_rep s a R H n -> (forall y, ~ holds (bufs s) y b) -> R b = 0 -> (0 < n)%nat ->
  s1 = set_bc_lock lk (set_hart (push_off (hart_of s)) s) -> in_cs (hart_of s) s1 ->
  unused (bufs s) (mru s) = 0%nat ->
  (forall x s', bget_post s a R H n b x s' -> Q x s') ->
  wp (x ← zoom bi_base set_bio_base (oc_alloc (buf_cache s1));
      if x =? 0 then panic "bget: no memory"
      else
        modify (fun s => set_mru (x :: mru s) (set_bufs (<[x := assign ROOTDEV b zero_buf]> (bufs s)) s));;
        modify (fun s => set_count (bcache_count s + 1) s);;
        release_in bc_lock set_bc_lock;; buf_acquiresleep x;; mret x) Q s1.
Proof.
  intros Hr Hb HR Hn0 -> Hcs Hu HQ. pose proof (rp_core _ _ _ _ _ Hr) as Hc.
  destruct (rp_room _ _ _ _ _ Hr) as (room & Ho & Hn). rewrite Hu in Hn.
  wp_step. apply wp_zoom.
  set (b1 := bi_base _). assert (b1 = set_hart (push_off (hart_of s)) (bi_base s)) as Eb1 by reflexivity.
  assert (hart_ok (hart_of b1)) as Hok1 by (rewrite Eb1, hart_of_set_hart; apply push_off_ok, Hr).
  assert (oc_inv (buf_cache s) b1 (fun x => x ∈ mru s) room) as Ho1.
  { rewrite Eb1. apply oc_hart; [done|]. apply push_off_ok, Hr. }
  eapply wp_mono; [exact (oc_alloc_spec _ _ _ _ Ho1 Hok1)|]. intros x b2 [Hh2 [(-> & E & _)|(Hx0 & Hxl & Ho2)]]; [lia|].
  replace (x =? 0) with false by lia. wp_step. apply wp_modify. wp_step. apply wp_modify. set (s3 := set_count _ _).
  assert (hart_of s3 = hart_of b2) as Eh3 by reflexivity.
  assert (in_cs (hart_of s) s3) as Hcs3.
  { destruct Hcs as (C1 & C2 & C3 & C4). split; [exact C1|]. split; [exact C2|]. split; [|exact C4].
    rewrite Eh3, <- Hh2, Eb1, hart_of_set_hart. done. }
  apply (wp_bget_finish (hart_of s) s3 x (assign ROOTDEV b zero_buf) a (take_ref R b) ({[b]} ∪ H) (pred n)).
  - exact Hcs3.
  - apply lookup_insert_eq.
  - done.
  - done.
  - intros l Hql Hl Hp.
    change (core (<[x := set_lock l (assign ROOTDEV b zero_buf)]> (<[x := assign ROOTDEV b zero_buf]> (bufs s)))
              (x :: mru s) (dsk s) a (take_ref R b) ({[b]} ∪ H) (cur_pid s)).
    rewrite insert_insert_eq. rewrite <- (insert_insert_eq (bufs s) x _ zero_buf).
    apply (core_miss _ _ _ _ R H _ x zero_buf); [|apply lookup_insert_eq|done| |done|done|exact Hp].
    + by apply core_join.
    + intros y [(_ & Ed & _)|[_ Hy]]%holds_insert; [done|by apply (Hb y)].
  - simpl. rewrite (rp_count _ _ _ _ _ Hr). lia.
  - apply Hr.
  - exists (pred room). split; [|simpl; lia]. eapply oc_ext; [|exact Ho2]. intros y. simpl. rewrite elem_of_cons. tauto.
  - intros l s' Hr' Eq Hh Ep E1 E2. change (bufs s3) with (<[x := assign ROOTDEV b zero_buf]> (bufs s)) in Eq.
    rewrite insert_insert_eq in Eq. apply HQ.
    unfold bget_post. rewrite HR. simpl. split; [by rewrite HR in Hr'|]. split; [|split].
    + rewrite Eq. eexists. rewrite lookup_insert_eq. split; [done|]. by simpl.
    + by split.
    + eapply kept_insert; [exact Eq|]. intros c Hc0 (bf & E & _). exfalso. apply Hxl.
      apply (co_dom _ _ _ _ _ _ _ Hc). eauto.
Qed.

Lemma wp_bget (s : bio A) a R H n b Q :
  bio_rep s a R H n -> b ∉ H -> R b < 2 ^ 32 - 1 -> (R b = 0 -> (0 < n)%nat) ->
  (forall x s', bget_post s a R H n b x s' -> Q x s') ->
  wp (bget ROOTDEV b) Q s.
Proof.
  intros Hr Hb HR Hn HQ. pose proof (rp_core _ _ _ _ _ Hr) as Hc. pose proof (co_pos _ _ _ _ _ _ _ Hc b) as HRp.
  assert (forall x, x ∈ mru s -> is_Some (bufs s !! x)) as Hdom by (intros x; apply Hc).
  unfold bget. wp_step. apply wp_bc_acquire; [apply Hr|apply Hr|]. intros lk s1 Hcs. wp_step. apply wp_get.
  change (bufs s1) with (bufs s). change (mru s1) with (mru s).
  destruct (find_cached (bufs s) ROOTDEV b (mru s)) as [x|] eqn:Ef.
  { apply find_cached_some in Ef as (_ & bf & Hx & Hd). eapply (wp_bget_hit s s1); eauto. by exists bf. }
  assert (forall y, ~ holds (bufs s) y b) as Hno.
  { intros y (bf & Hy & Ed & Eb). eapply (find_cached_none _ _ _ _ Ef Hdom y bf); try done. apply Hc. eauto. }
  assert (R b = 0) as HR0.
  { destruct (decide (R b = 0)) as [|Hne]; [done|]. destruct (co_present _ _ _ _ _ _ _ Hc b Hne) as (y & Hy). by destruct (Hno y). }
  destruct (find_unused (bufs s) (rev (mru s))) as [x|] eqn:Eu.
  { apply find_unused_some in Eu as (_ & bf & Hx & H0). eapply (wp_bget_recycle s s1); eauto. }
  apply find_unused_none in Eu; [|intros x Hx; apply Hdom; by rewrite (Permutation_rev (mru s))].
  eapply (wp_bget_grow s s1 a R H n b lk); eauto.
  rewrite <- Eu. apply unused_perm. apply Permutation_rev.
Qed.

(** ** bread *)

Lemma at_buf_ok (s : bio A) a R H n x b :
  bio_rep s a R H n -> at_buf s x b ->
  exists bf, bufs s !! x = Some bf /\ b_dev bf = ROOTDEV /\ b_blockno bf = b /\ b_valid bf <> 0 /\
    buf_ok (dsk s) a R H (cur_pid s) bf /\ (is_Some (a !! b) -> a !! b = Some (b_data bf)) /\ slk_quiet (b_lock bf).
Proof.
  intros Hr (bf & Hx & Ed & Eb & Hv). exists bf. pose proof (rp_core _ _ _ _ _ Hr) as Hc.
  pose proof (core_ok _ _ _ _ _ _ _ _ _ Hc Hx Ed) as Hok.
  do 4 (split; [done|]). split; [done|]. split; [|by eapply co_quiet].
  rewrite <- Eb. by apply Hok.
Qed.

(** Reading an invalid buffer's block makes it valid and changes nothing a
    client sees. *)
Lemma wp_fill (s : bio A) a R H n x b bf Q :
  bio_rep s a R H n -> is_Some (a !! b) -> R b <> 0 ->
  bufs s !! x = Some bf -> b_dev bf = ROOTDEV -> b_blockno bf = b -> b_valid bf = 0 ->
  (forall s', bio_rep s' a R H n -> at_buf s' x b -> undisturbed s s' -> kept R s s' -> Q tt s') ->
  wp (virtio_disk_rw x false;; upd_buf x (set_valid 1)) Q s.
Proof.
  intros Hr Ha HR Hx Ed Eb Hv HQ. pose proof (rp_core _ _ _ _ _ Hr) as Hc.
  pose proof (core_ok _ _ _ _ _ _ _ _ _ Hc Hx Ed) as Hok.
  assert (a !! b = dsk s !! b) as Ead.
  { apply (co_abs _ _ _ _ _ _ _ Hc); [done|]. intros y bf0 Hy Ed0 Eb0.
    assert (y = x) as -> by (apply (co_uniq _ _ _ _ _ _ _ Hc y x b); [by exists bf0|by exists bf]). by simplify_eq. }
  destruct Ha as [dat Ha]. rewrite Ha in Ead. symmetry in Ead.
  wp_step. unfold virtio_disk_rw. wp_step. eapply wp_get_buf; [done|]. wp_step. apply wp_get.
  rewrite Eb, Ead. apply (wp_upd_buf x _ bf); [done|]. eapply wp_upd_buf; [apply lookup_insert_eq|].
  set (s' := set_bufs _ _). set (bf' := set_valid 1 (set_data dat bf)).
  assert (bufs s' = <[x := bf']> (bufs s)) as Es' by exact (insert_insert_eq _ _ _ _).
  apply HQ.
  - split; try apply Hr.
    + rewrite Es'. change (dsk s') with (dsk s). change (mru s') with (mru s).
      eapply core_upd; [exact Hc|exact Hx|done|done|exact (co_quiet _ _ _ _ _ _ _ Hc x bf Hx)| | | |rewrite Eb; apply Hc|apply Hc].
      * destruct Hok. split; simpl; try done; by rewrite Eb.
      * by intros c _.
      * done.
    + destruct (rp_room _ _ _ _ _ Hr) as (room & Ho & Hn). exists room. split; [exact Ho|].
      rewrite Es'. change (mru s') with (mru s). rewrite (unused_ext (bufs s)); [done|]. intros y _. unfold is_unused.
      destruct (decide (x = y)) as [<-|Hne]; [by rewrite lookup_insert_eq, Hx|by rewrite lookup_insert_ne].
  - exists bf'. rewrite Es', lookup_insert_eq. done.
  - by split.
  - eapply kept_insert; [exact Es'|]. intros c _ (bf0 & E & ? & ? & ?). by simplify_eq.
Qed.

Lemma undisturbed_trans (s1 s2 s3 : bio A) : undisturbed s1 s2 -> undisturbed s2 s3 -> undisturbed s1 s3.
Proof. intros. by etrans. Qed.

Lemma wp_bread (s : bio A) a R H n b Q :
  bio_rep s a R H n -> b ∉ H -> is_Some (a !! b) -> R b < 2 ^ 32 - 1 -> (R b = 0 -> (0 < n)%nat) ->
  (forall x s', bio_rep s' a (take_ref R b) ({[b]} ∪ H) (if R b =? 0 then pred n else n) ->
     at_buf s' x b -> undisturbed s s' -> kept R s s' -> Q x s') ->
  wp (bread ROOTDEV b) Q s.
Proof.
  intros Hr Hb Ha HR Hn HQ. unfold bread. wp_step. eapply wp_bget; try done.
  intros x s1 (Hr1 & (bf & Hx & Ed & Eb) & Hu1 & Hk1). wp_step. eapply wp_get_buf; [done|].
  pose proof (co_pos _ _ _ _ _ _ _ (rp_core _ _ _ _ _ Hr) b) as HRp.
  destruct (Z.eqb_spec (b_valid bf) 0) as [Hv|Hv].
  - wp_step. eapply (wp_fill s1); [exact Hr1|done| |done..|].
    { rewrite fn_lookup_insert. lia. }
    intros s2 Hr2 Hat Hu2 Hk2. wp_step. apply HQ; [done|done|by eapply undisturbed_trans|].
    intros y c Hc Hy. apply Hk2; [|by apply Hk1]. destruct (decide (c = b)) as [->|Hne].
    + rewrite fn_lookup_insert. lia.
    + by rewrite fn_lookup_insert_ne.
  - wp_step. wp_step. wp_step. apply HQ; [done| |done|done]. by exists bf.
Qed.

(** ** Changing one held buffer *)

Definition zero_ref (bf : buf) : nat := if b_refcnt bf =? 0 then 1%nat else 0%nat.

Lemma room_upd (s : bio A) a R H n x bf bf' h :
  bio_rep s a R H n -> bufs s !! x = Some bf -> hart_ok h ->
  exists room, oc_inv (buf_cache s) (set_hart h (bi_base s)) (fun y => y ∈ mru s) room /\
    forall n', (n' + zero_ref bf <= n + zero_ref bf')%nat ->
      (n' <= unused (<[x := bf']> (bufs s)) (mru s) + room)%nat.
Proof.
  intros Hr Hx Hh. destruct (rp_room _ _ _ _ _ Hr) as (room & Ho & Hn). exists room.
  split; [by apply oc_hart|]. intros n' Hn'. pose proof (rp_core _ _ _ _ _ Hr) as Hc.
  assert (x ∈ mru s) as Hin by (apply (co_dom _ _ _ _ _ _ _ Hc); eauto).
  pose proof (unused_insert (bufs s) (mru s) x bf' (co_nodup _ _ _ _ _ _ _ Hc) Hin) as Hu.
  rewrite is_unused_eq in Hu. unfold is_unused in Hu. rewrite Hx in Hu. unfold zero_ref in Hn'. lia.
Qed.

Lemma wp_bwrite (s : bio A) a R H n x b dat Q :
  bio_rep s a R H n -> b ∈ H -> at_buf s x b -> a !! b = Some dat ->
  (forall s', bio_rep s' a R H n -> hart_same (hart_of s) (hart_of s') -> cur_pid s' = cur_pid s ->
     dsk s' = <[b := dat]> (dsk s) -> dlog s' = dlog s ++ [(b, dat)] ->
     (forall y c, at_buf s y c -> at_buf s' y c) -> Q tt s') ->
  wp (bwrite x) Q s.
Proof.
  intros Hr Hb Hat Ha HQ. destruct (at_buf_ok _ _ _ _ _ _ _ Hr Hat) as (bf & Hx & Ed & Eb & Hv & Hok & Ha' & Hq).
  rewrite Ha in Ha'. injection (Ha' ltac:(done)) as ->. pose proof (rp_core _ _ _ _ _ Hr) as Hc.
  unfold bwrite. wp_step. apply (wp_buf_holdingsleep x bf); [done|done|apply Hr|].
  intros l h Hql Hll Hpl Hh.
  rewrite (bk_lock _ _ _ _ _ _ Hok), (bk_pid _ _ _ _ _ _ Hok) by by rewrite Eb.
  rewrite Eb, decide_True, Z.eqb_refl by done. cbn [negb andb Z.eqb].
  unfold virtio_disk_rw. wp_step. eapply wp_get_buf; [apply lookup_insert_eq|]. wp_step. apply wp_get.
  change (b_blockno (set_lock l bf)) with (b_blockno bf). rewrite Eb.
  destruct (rp_dom _ _ _ _ _ Hr b) as [old Hold]; [by rewrite Ha|].
  set (s1 := set_bufs _ _). change (dsk s1) with (dsk s). rewrite Hold.
  change (b_data (set_lock l bf)) with (b_data bf). unfold put. set (s' := set_dsk _ _ s1).
  assert (hart_ok h) as Hokh by (apply (hart_ok_proper _ _ Hh), Hr).
  assert (hart_of s' = h) as Eh by exact (hart_of_set_hart h s).
  change (Q tt s'). apply (HQ s'); try done; [|by rewrite Eh|].
  - split; [|apply Hr|by rewrite Eh|apply Hr| |].
    + change (core (<[x := set_lock l bf]> (bufs s)) (mru s) (<[b := b_data bf]> (dsk s)) a R H (cur_pid s)).
      eapply core_upd; [exact Hc|exact Hx|done|done|done| | |done|rewrite Eb; apply Hc|apply Hc].
      * destruct Hok. split; simpl; try done; rewrite ?Hll, ?Hpl; try done.
        intros _ _. by rewrite Eb, lookup_insert_eq.
      * intros c Hne. rewrite Eb in Hne. by rewrite lookup_insert_ne.
    + intros c. change (dsk s') with (<[b := b_data bf]> (dsk s)). intros Hs%(rp_dom _ _ _ _ _ Hr c). rewrite lookup_insert_is_Some.
      destruct (decide (b = c)) as [<-|?]; [by left|by right].
    + destruct (room_upd s a R H n x bf (set_lock l bf) h Hr Hx Hokh) as (room & Ho & Hn). exists room.
      split; [exact Ho|]. apply Hn. done.
  - intros y c (bf0 & Hy & ? & ? & ?). unfold at_buf. change (bufs s') with (<[x := set_lock l bf]> (bufs s)).
    destruct (decide (x = y)) as [<-|Hne].
    + rewrite lookup_insert_eq. simplify_eq. eexists. split; [done|]. by simpl.
    + rewrite lookup_insert_ne by done. eauto.
Qed.

Lemma wp_store_data (s : bio A) a R H n x b dat f Q :
  bio_rep s a R H n -> b ∈ H -> at_buf s x b -> a !! b = Some dat ->
  (forall s', bio_rep s' (<[b := f dat]> a) R H n -> undisturbed s s' ->
     (forall y c, at_buf s y c -> at_buf s' y c) -> Q tt s') ->
  wp (store_data x f) Q s.
Proof.
  intros Hr Hb Hat Ha HQ. destruct (at_buf_ok _ _ _ _ _ _ _ Hr Hat) as (bf & Hx & Ed & Eb & Hv & Hok & Ha' & Hq).
  rewrite Ha in Ha'. injection (Ha' ltac:(done)) as ->. pose proof (rp_core _ _ _ _ _ Hr) as Hc.
  unfold store_data. apply (wp_upd_buf x _ bf); [done|]. apply HQ; [|by split|].
  - split; try apply Hr.
    + eapply core_upd; [exact Hc|exact Hx|done|done|done| | | |rewrite Eb; apply Hc|apply Hc].
      * pose proof (co_held _ _ _ _ _ _ _ Hc b Hb) as HR. destruct Hok as [? Hrf]. rewrite Eb in *.
        split; simpl; rewrite ?Eb; try done.
        -- intros _. by rewrite lookup_insert_eq.
        -- intros _ E. congruence.
      * intros c Hne. rewrite Eb in Hne. by rewrite lookup_insert_ne.
      * done.
    + intros c. change (dsk _) with (dsk s). rewrite lookup_insert_is_Some. intros Hs. apply (rp_dom _ _ _ _ _ Hr c).
      destruct (decide (b = c)) as [<-|?]; [by rewrite Ha|naive_solver].
    + destruct (rp_room _ _ _ _ _ Hr) as (room' & Ho & Hn'). exists room'. split; [exact Ho|].
      change (n <= unused (<[x := set_data (f (b_data bf)) bf]> (bufs s)) (mru s) + room')%nat.
      rewrite (unused_ext (bufs s)); [done|]. intros y _. unfold is_unused.
      destruct (decide (x = y)) as [<-|Hne]; [by rewrite lookup_insert_eq, Hx|by rewrite lookup_insert_ne].
  - intros y c (bf0 & Hy & ? & ? & ?). unfold at_buf.
    change (bufs _) with (<[x := set_data (f (b_data bf)) bf]> (bufs s)).
    destruct (decide (x = y)) as [<-|Hne].
    + rewrite lookup_insert_eq. simplify_eq. eexists. split; [done|]. by simpl.
    + rewrite lookup_insert_ne by done. eauto.
Qed.

(** What is known of the blocks may be forgotten. *)
Lemma rep_forget (s : bio A) a a' R H n : bio_rep s a R H n -> a' ⊆ a -> bio_rep s a' R H n.
Proof.
  intros [Hc Hl Hh Hn Hd Hr] Hsub. assert (forall b, is_Some (a' !! b) -> a' !! b = a !! b) as Ea.
  { intros b [x Hx]. by rewrite Hx, (lookup_weaken _ _ _ _ Hx Hsub). }
  destruct Hc as [C1 C2 C3 C4 C5 C6 C7 C8 C9]. split; try done.
  - split; try done.
    + intros x bf Hx. destruct (C4 x bf Hx) as [?|[K1 K2 K3 K4 K5 K6]]; [by left|right]. split; try done.
      * intros Hv Hs. rewrite Ea in Hs |- * by done. by apply K5.
      * intros Hv Hz Hs. apply K6; [done..|]. by rewrite <- Ea.
    + intros b Hs Hb. rewrite Ea by done. apply C6; [|done]. by rewrite <- Ea.
  - intros b Hs. apply Hd. by rewrite <- Ea.
Qed.

(** A store into a held buffer of an unknown block. *)
Lemma wp_store_unknown (s : bio A) a R H n x b f Q :
  bio_rep s a R H n -> b ∈ H -> at_buf s x b -> a !! b = None ->
  (forall s', bio_rep s' a R H n -> undisturbed s s' -> (forall y c, at_buf s y c -> at_buf s' y c) -> Q tt s') ->
  wp (store_data x f) Q s.
Proof.
  intros Hr Hb Hat Ha HQ. destruct (at_buf_ok _ _ _ _ _ _ _ Hr Hat) as (bf & Hx & Ed & Eb & Hv & Hok & _ & Hq).
  pose proof (rp_core _ _ _ _ _ Hr) as Hc. assert (~ is_Some (a !! b)) as Hno by (rewrite Ha; by intros [? ?]).
  unfold store_data. apply (wp_upd_buf x _ bf); [done|]. apply HQ; [|by split|].
  - split; try apply Hr.
    + eapply core_upd; [exact Hc|exact Hx|done|done|done| |by intros c _|done|rewrite Eb; apply Hc|apply Hc].
      destruct Hok. rewrite Eb in *. split; simpl; rewrite ?Eb; done.
    + destruct (rp_room _ _ _ _ _ Hr) as (room' & Ho & Hn'). exists room'. split; [exact Ho|].
      change (n <= unused (<[x := set_data (f (b_data bf)) bf]> (bufs s)) (mru s) + room')%nat.
      rewrite (unused_ext (bufs s)); [done|]. intros y _. unfold is_unused.
      destruct (decide (x = y)) as [<-|Hne]; [by rewrite lookup_insert_eq, Hx|by rewrite lookup_insert_ne].
  - intros y c (bf0 & Hy & ? & ? & ?). unfold at_buf.
    change (bufs _) with (<[x := set_data (f (b_data bf)) bf]> (bufs s)).
    destruct (decide (x = y)) as [<-|Hne].
    + rewrite lookup_insert_eq. simplify_eq. eexists. split; [done|]. by simpl.
    + rewrite lookup_insert_ne by done. eauto.
Qed.

(** ** Inside [bcache.lock] *)


Record cs_rep (h0 : hart) (s : bio A) (a : blocks) (R : Z -> Z) (H : gset Z) (n : nat) : Prop := {
  cs_in : in_cs h0 s;
  cs_core : core (bufs s) (mru s) (dsk s) a R H (cur_pid s);
  cs_count : bcache_count s = Z.of_nat (length (mru s));
  cs_dom : forall b, is_Some (a !! b) -> is_Some (dsk s !! b);
  cs_room : exists room, oc_inv (buf_cache s) (bi_base s) (fun x => x ∈ mru s) room /\
    (n <= unused (bufs s) (mru s) + room)%nat
}.

(** What the list handling under the lock leaves alone. *)
Definition cs_frame (s s' : bio A) : Prop :=
  cur_pid s' = cur_pid s /\ dsk s' = dsk s /\ dlog s' = dlog s.

Lemma wp_cs_acquire (s : bio A) a R H n Q :
  bio_rep s a R H n ->
  (forall s1, cs_rep (hart_of s) s1 a R H n -> bufs s1 = bufs s -> cs_frame s s1 -> Q tt s1) ->
  wp (acquire_in bc_lock set_bc_lock) Q s.
Proof.
  intros Hr HQ. apply wp_bc_acquire; [apply Hr|apply Hr|]. intros l s1 Hcs. apply HQ; [|done|done].
  split; try apply Hr; [exact Hcs|]. destruct (rp_room _ _ _ _ _ Hr) as (room & Ho & Hn).
  exists room. split; [|exact Hn]. exact (oc_hart _ _ _ _ _ Ho (push_off_ok _ (rp_hart _ _ _ _ _ Hr))).
Qed.

Lemma wp_cs_release h0 (s : bio A) a R H n Q :
  cs_rep h0 s a R H n ->
  (forall s', bio_rep s' a R H n -> bufs s' = bufs s -> hart_same h0 (hart_of s') -> cs_frame s s' -> Q tt s') ->
  wp (release_in bc_lock set_bc_lock) Q s.
Proof.
  intros Hcs HQ. apply (wp_bc_release h0); [apply Hcs|]. intros l h Hl Hh. set (s' := set_bc_lock _ _).
  assert (hart_of s' = h) as Eh by exact (hart_of_set_hart h s).
  assert (hart_ok h) as Hok by (apply (hart_ok_proper _ _ Hh), Hcs).
  apply HQ; [|done|by rewrite Eh|done]. split; try apply Hcs; [exact Hl|by rewrite Eh|].
  destruct (cs_room _ _ _ _ _ _ Hcs) as (room & Ho & Hn). exists room. split; [|exact Hn].
  exact (oc_hart _ _ _ _ _ Ho Hok).
Qed.

(** An update of the reference count of a block under the lock. *)
Lemma wp_cs_ref h0 (s : bio A) a R H n x bf r n' Q :
  cs_rep h0 s a R H n -> bufs s !! x = Some bf -> b_dev bf = ROOTDEV ->
  (b_blockno bf ∈ H -> r <> 0) -> 0 <= r ->
  (b_valid bf <> 0 -> r = 0 -> is_Some (a !! b_blockno bf) -> dsk s !! b_blockno bf = Some (b_data bf)) ->
  (n' + zero_ref bf <= n + zero_ref (set_refcnt r bf))%nat ->
  (forall s', cs_rep h0 s' a (<[b_blockno bf := r]> R) H n' ->
     bufs s' = <[x := set_refcnt r bf]> (bufs s) -> cs_frame s s' -> Q tt s') ->
  wp (upd_buf x (fun _ => set_refcnt r bf)) Q s.
Proof.
  intros Hcs Hx Ed Hh Hr Hcl Hn HQ. pose proof (cs_core _ _ _ _ _ _ Hcs) as Hc.
  pose proof (core_ok _ _ _ _ _ _ _ _ _ Hc Hx Ed) as Hok.
  apply (wp_upd_buf x _ bf); [done|]. apply HQ; [|done|done]. split; try apply Hcs.
  - eapply core_upd; [exact Hc|exact Hx|done|done|exact (co_quiet _ _ _ _ _ _ _ Hc x bf Hx)| | | | |].
    + destruct Hok. split; simpl; try done. by rewrite fn_lookup_insert.
    + intros c Hne. by rewrite fn_lookup_insert_ne.
    + intros Hv Hs. apply (co_abs _ _ _ _ _ _ _ Hc); [done|]. intros y bf0 Hy Ed0 Eb0.
      assert (y = x) as -> by (apply (co_uniq _ _ _ _ _ _ _ Hc y x (b_blockno bf)); [by exists bf0|by exists bf]).
      by simplify_eq.
    + intros Hin. rewrite fn_lookup_insert. auto.
    + by rewrite fn_lookup_insert.
  - destruct (cs_room _ _ _ _ _ _ Hcs) as (room & Ho & Hn0). exists room. split; [exact Ho|].
    assert (x ∈ mru s) as Hin by (apply (co_dom _ _ _ _ _ _ _ Hc); eauto).
    pose proof (unused_insert (bufs s) (mru s) x (set_refcnt r bf) (co_nodup _ _ _ _ _ _ _ Hc) Hin) as Hu.
    rewrite is_unused_eq in Hu. unfold is_unused in Hu. rewrite Hx in Hu. unfold zero_ref in Hn.
    change (n' <= unused (<[x := set_refcnt r bf]> (bufs s)) (mru s) + room)%nat. lia.
Qed.

Lemma last_split (l : list Z) t : list.last l = Some t -> l = removelast l ++ [t].
Proof.
  destruct (list_case_last l) as [->|(l' & x & ->)]; [done|]. rewrite last_snoc. intros [= ->].
  by rewrite removelast_last.
Qed.

(** Moving the released buffer to the front of the list. *)
Lemma cs_front h0 (s : bio A) a R H n b :
  cs_rep h0 s a R H n -> b ∈ mru s ->
  cs_rep h0 (set_mru (b :: filter (fun x => x <> b) (mru s)) s) a R H n.
Proof.
  intros Hcs Hb. pose proof (cs_core _ _ _ _ _ _ Hcs) as Hc.
  pose proof (filter_out_perm b (mru s) (co_nodup _ _ _ _ _ _ _ Hc) Hb) as Hp. split; try apply Hcs.
  - apply (core_perm _ _ _ _ _ _ _ Hc). symmetry. exact Hp.
  - simpl. rewrite (cs_count _ _ _ _ _ _ Hcs). rewrite <- Hp at 1. done.
  - destruct (cs_room _ _ _ _ _ _ Hcs) as (room & Ho & Hn). exists room. split.
    + eapply oc_ext; [|exact Ho]. intros y. cbn [mru set_mru]. by rewrite Hp.
    + cbn [mru set_mru bufs]. by rewrite (unused_perm _ _ _ Hp).
Qed.

Lemma wp_shrink_lru fuel x h0 (s : bio A) a R H n Q :
  cs_rep h0 s a R H n -> (length (mru s) < fuel)%nat ->
  (forall s', cs_rep h0 s' a R H n -> cs_frame s s' -> kept R s s' -> Q tt s') ->
  wp (shrink_lru fuel x) Q s.
Proof.
  revert s. induction fuel as [|fuel IH]; intros s Hcs Hf HQ; [lia|]. cbn [shrink_lru].
  pose proof (cs_core _ _ _ _ _ _ Hcs) as Hc. wp_step. apply wp_get.
  assert (Q tt s) as Hstop by (apply HQ; [done|done|apply kept_refl]).
  destruct (bcache_count s >? NBUF) eqn:Ecnt; [|by apply wp_ret].
  destruct (list.last (mru s)) as [t|] eqn:El; [|by apply wp_ret].
  pose proof (last_split _ _ El) as Em. set (l' := removelast (mru s)) in *.
  assert (is_Some (bufs s !! t)) as [bf Ht] by (apply Hc; rewrite Em; apply elem_of_app; right; by left).
  wp_step. eapply wp_get_buf; [done|]. destruct ((t =? x) || negb (b_refcnt bf =? 0)) eqn:Ex; [by apply wp_ret|].
  apply orb_false_iff in Ex as [_ Er%negb_false_iff%Z.eqb_eq].
  assert (mru s ≡ₚ t :: l') as Hp by (rewrite Em at 1; by rewrite Permutation_app_comm).
  assert (core (delete t (bufs s)) l' (dsk s) a R H (cur_pid s)) as Hc'.
  { assert (neutral (neutralize bf)) as Hn by (repeat split; exact (unused_unlocked _ _ _ _ _ _ _ _ _ Hc Ht Er)).
    rewrite <- (delete_insert_eq (bufs s) t (neutralize bf)).
    eapply core_leave; [|apply lookup_insert_eq|exact Hn|exact Hp].
    apply (core_neutral _ _ _ _ _ _ _ Hc t bf); [done|done|done|exact (co_quiet _ _ _ _ _ _ _ Hc t bf Ht)]. }
  wp_step. apply wp_modify. wp_step. apply wp_modify. wp_step. apply wp_zoom.
  set (s1 := set_bufs _ _). change (bi_base s1) with (bi_base s).
  destruct (cs_room _ _ _ _ _ _ Hcs) as (room & Ho & Hn).
  destruct (cs_in _ _ _ _ _ _ Hcs) as (C1 & C2 & C3 & C4).
  assert (hart_ok (hart_of (bi_base s))) as Hok by (apply (hart_ok_proper _ _ C3), push_off_ok, C4).
  eapply wp_mono; [apply (oc_free_spec _ _ _ _ t Ho); [rewrite Hp; left|done]|].
  intros [] b2 [Hh2 Ho2]. wp_step. apply wp_modify. set (s2 := set_count _ _).
  assert (NoDup (t :: l')) as [Hnt _]%list.NoDup_cons by (rewrite <- Hp; apply Hc).
  assert (Z.of_nat (length (mru s)) = Z.of_nat (length l') + 1) as Elen by (rewrite Hp; simpl; lia).
  apply IH.
  - split; [|exact Hc'| |apply Hcs|].
    + split; [exact C1|]. split; [exact C2|]. split; [|exact C4]. etrans; [exact C3|exact Hh2].
    + change (bcache_count s - 1 = Z.of_nat (length l')). rewrite (cs_count _ _ _ _ _ _ Hcs). lia.
    + exists (Datatypes.S room). split.
      * eapply oc_ext; [|exact Ho2]. intros y. change (y ∈ mru s /\ y <> t <-> y ∈ l'). split.
        -- intros [Hy Hne]. rewrite Hp in Hy. by apply elem_of_cons in Hy as [?|?].
        -- intros Hy. split; [rewrite Hp; by right|]. congruence.
      * change (n <= unused (delete t (bufs s)) l' + Datatypes.S room)%nat.
        rewrite (unused_perm _ _ _ Hp) in Hn. simpl in Hn.
        assert (is_unused (bufs s) t <= 1)%nat by (unfold is_unused; rewrite Ht, Er; simpl; lia).
        rewrite (unused_ext (bufs s)); [lia|]. intros y Hy. unfold is_unused.
        rewrite lookup_delete_ne; [done|]. congruence.
  - change (length l' < fuel)%nat. lia.
  - intros s' Hcs' (F1 & F2 & F3) Hk. apply HQ; [done|done|]. intros y c HR Hy. apply Hk; [done|].
    destruct Hy as (bf0 & Hy & Ed & Eb & Hv). exists bf0. change (bufs s2) with (delete t (bufs s)).
    rewrite lookup_delete_ne; [done|]. intros <-. simplify_eq.
    pose proof (core_ok _ _ _ _ _ _ _ _ _ Hc Ht Ed) as [_ Hk']. congruence.
Qed.

(** ** bpin, bunpin, brelse *)

(** [upd_buf] only looks at the buffer it updates. *)
Lemma wp_upd_buf_ext (s : bio A) x bf f g Q :
  bufs s !! x = Some bf -> f bf = g bf -> wp (upd_buf x g) Q s -> wp (upd_buf x f) Q s.
Proof.
  intros Hx E. unfold wp, upd_buf, get_buf, mbind, M_bind. simpl. rewrite Hx. simpl. by rewrite E.
Qed.

Lemma kept_ref (s s' : bio A) (R : Z -> Z) x bf r :
  bufs s !! x = Some bf -> bufs s' = <[x := set_refcnt r bf]> (bufs s) -> kept R s s'.
Proof.
  intros Hx E. eapply kept_insert; [exact E|]. intros c _ (bf0 & E0 & ? & ? & ?). by simplify_eq.
Qed.

Lemma wp_bpin (s : bio A) a R H n x b Q :
  bio_rep s a R H n -> at_buf s x b -> 0 < R b < 2 ^ 32 - 1 ->
  (forall s', bio_rep s' a (take_ref R b) H n -> undisturbed s s' -> (forall y c, at_buf s y c -> at_buf s' y c) -> Q tt s') ->
  wp (bpin x) Q s.
Proof.
  intros Hr Hat HR HQ. destruct (at_buf_ok _ _ _ _ _ _ _ Hr Hat) as (bf & Hx & Ed & Eb & Hv & Hok & _).
  pose proof (bk_ref _ _ _ _ _ _ Hok) as Erf. rewrite Eb in Erf.
  unfold bpin. wp_step. apply (wp_cs_acquire s a R H n); [done|]. intros s1 Hcs Eb1 (F1 & F2 & F3). wp_step.
  eapply (wp_upd_buf_ext _ x bf _ (fun _ => set_refcnt (R b + 1) bf)); [by rewrite Eb1| |].
  { simpl. by rewrite Erf, u32_small by lia. }
  eapply (wp_cs_ref _ s1 a R H n x bf (R b + 1) n); [done|by rewrite Eb1|done|lia|lia|lia| |].
  { unfold zero_ref. simpl. rewrite Erf. replace (R b =? 0) with false by lia. replace (R b + 1 =? 0) with false by lia. done. }
  rewrite Eb. intros s2 Hcs2 Eb2 (G1 & G2 & G3). rewrite Eb1 in Eb2.
  apply (wp_cs_release (hart_of s) s2 a (take_ref R b) H n); [done|].
  intros s3 Hr3 Eb3 Hh3 (I1 & I2 & I3). apply HQ; [done|split; [done|congruence..]|].
  intros y c Hy. apply (kept_ref s s3 (fun _ => 1) x bf (R b + 1)); [done|congruence|done|done].
Qed.

(** Dropping a reference that is not the last one. *)
Lemma wp_bunpin (s : bio A) a R H n x b Q :
  bio_rep s a R H n -> at_buf s x b -> 1 < R b < 2 ^ 32 ->
  (forall s', bio_rep s' a (<[b := R b - 1]> R) H n -> undisturbed s s' -> (forall y c, at_buf s y c -> at_buf s' y c) -> Q tt s') ->
  wp (bunpin x) Q s.
Proof.
  intros Hr Hat HR HQ. destruct (at_buf_ok _ _ _ _ _ _ _ Hr Hat) as (bf & Hx & Ed & Eb & Hv & Hok & _).
  pose proof (bk_ref _ _ _ _ _ _ Hok) as Erf. rewrite Eb in Erf.
  unfold bunpin. wp_step. apply (wp_cs_acquire s a R H n); [done|]. intros s1 Hcs Eb1 (F1 & F2 & F3). wp_step.
  eapply (wp_upd_buf_ext _ x bf _ (fun _ => set_refcnt (R b - 1) bf)); [by rewrite Eb1| |].
  { simpl. by rewrite Erf, u32_small by lia. }
  eapply (wp_cs_ref _ s1 a R H n x bf (R b - 1) n); [done|by rewrite Eb1|done|lia|lia|lia| |].
  { unfold zero_ref. simpl. rewrite Erf. replace (R b =? 0) with false by lia. replace (R b - 1 =? 0) with false by lia. done. }
  rewrite Eb. intros s2 Hcs2 Eb2 (G1 & G2 & G3). rewrite Eb1 in Eb2.
  apply (wp_cs_release (hart_of s) s2 a (<[b := R b - 1]> R) H n); [done|].
  intros s3 Hr3 Eb3 Hh3 (I1 & I2 & I3). apply HQ; [done|split; [done|congruence..]|].
  intros y c Hy. apply (kept_ref s s3 (fun _ => 1) x bf (R b - 1)); [done|congruence|done|done].
Qed.

Lemma wp_seq_unlock {S X Y} (c1 : M S X) (c2 : X -> M S unit) (c3 : M S unit) (k : M S Y) Q s :
  wp (x ← c1; c2 x;; c3) (fun _ => wp k Q) s -> wp (x ← c1; c2 x;; c3;; k) Q s.
Proof.
  unfold wp, mbind, M_bind. destruct (c1 s) as [[x s1]| | | |]; try done.
  destruct (c2 x s1) as [[[] s2]| | | |]; try done. by destruct (c3 s2) as [[[] s3]| | | |].
Qed.

(** [holdingsleep] and [releasesleep] of a held buffer. *)
Lemma wp_unlock (s : bio A) a R H n x b (Q : unit -> bio A -> Prop) :
  bio_rep s a R H n -> b ∈ H -> at_buf s x b ->
  (forall s', bio_rep s' a R (H ∖ {[b]}) n -> undisturbed s s' -> (forall y c, at_buf s y c -> at_buf s' y c) -> Q tt s') ->
  wp (h ← buf_holdingsleep x; (if negb h then panic "brelse" else mret tt);; buf_releasesleep x) Q s.
Proof.
  intros Hr Hb Hat HQ. destruct (at_buf_ok _ _ _ _ _ _ _ Hr Hat) as (bf & Hx & Ed & Eb & Hv & Hok & _ & Hq).
  pose proof (rp_core _ _ _ _ _ Hr) as Hc. wp_step. apply (wp_buf_holdingsleep x bf); [done|done|apply Hr|].
  intros l h Hql Hll Hpl Hh.
  rewrite (bk_lock _ _ _ _ _ _ Hok), (bk_pid _ _ _ _ _ _ Hok) by by rewrite Eb.
  rewrite Eb, decide_True, Z.eqb_refl by done. cbn [negb andb Z.eqb]. wp_step. wp_step.
  assert (hart_ok h) as Hokh by (apply (hart_ok_proper _ _ Hh), Hr).
  apply (wp_buf_releasesleep x (set_lock l bf)); [apply lookup_insert_eq|done| |].
  { change (hart_ok (hart_of (set_hart h s))). by rewrite hart_of_set_hart. }
  intros l2 h2 Hq2 Hl2 Hh2. change (hart_same (hart_of (set_hart h s)) h2) in Hh2. rewrite hart_of_set_hart in Hh2.
  set (s' := set_bufs _ _). assert (hart_of s' = h2) as Eh by exact (hart_of_set_hart h2 (set_hart h s)).
  assert (hart_ok h2) as Hokh2 by (by apply (hart_ok_proper _ _ Hh2)).
  assert (bufs s' = <[x := set_lock l2 bf]> (bufs s)) as Es' by exact (insert_insert_eq _ _ _ _).
  apply HQ; [|split; [by rewrite Eh, Hh|done..]|].
  - split; try apply Hr; [|by rewrite Eh|].
    + rewrite Es'. change (dsk s') with (dsk s). change (mru s') with (mru s).
      eapply core_upd; [exact Hc|exact Hx|done|done|done| | |done|set_solver|apply Hc].
      * destruct Hok. split; simpl; try done; rewrite ?Eb; [|set_solver]. rewrite decide_False by set_solver. done.
      * intros c Hne. rewrite Eb in Hne. set_solver.
    + destruct (room_upd s a R H n x bf (set_lock l2 bf) h2 Hr Hx Hokh2) as (room & Ho & Hn).
      exists room. rewrite Es'. split; [|by apply Hn].
      change (bi_base s') with (set_hart h2 (set_hart h (bi_base s))). by rewrite set_hart_set_hart.
  - intros y c (bf0 & Hy & ? & ? & ?). unfold at_buf. rewrite Es'. destruct (decide (x = y)) as [<-|Hne].
    + rewrite lookup_insert_eq. simplify_eq. eexists. split; [done|]. by simpl.
    + rewrite lookup_insert_ne by done. eauto.
Qed.

Lemma wp_brelse (s : bio A) a R H n x b Q :
  bio_rep s a R H n -> b ∈ H -> at_buf s x b -> R b < 2 ^ 32 -> (R b = 1 -> is_Some (a !! b) -> dsk s !! b = a !! b) ->
  (forall s', bio_rep s' a (<[b := R b - 1]> R) (H ∖ {[b]}) (if R b =? 1 then Datatypes.S n else n) ->
     undisturbed s s' -> kept (<[b := R b - 1]> R) s s' -> Q tt s') ->
  wp (brelse x) Q s.
Proof.
  intros Hr Hb Hat HR Hcl HQ. pose proof (co_held _ _ _ _ _ _ _ (rp_core _ _ _ _ _ Hr) b Hb) as HR0.
  pose proof (co_pos _ _ _ _ _ _ _ (rp_core _ _ _ _ _ Hr) b) as HRp.
  unfold brelse. apply wp_seq_unlock. eapply wp_unlock; [done..|]. intros s1 Hr1 [U1 U2 U3 U4] Hk1.
  destruct (at_buf_ok _ _ _ _ _ _ _ Hr1 (Hk1 x b Hat)) as (bf & Hx & Ed & Eb & Hv & Hok & Ha & _).
  pose proof (bk_ref _ _ _ _ _ _ Hok) as Erf. rewrite Eb in Erf.
  set (R' := <[b := R b - 1]> R : Z -> Z). set (n' := if R b =? 1 then Datatypes.S n else n).
  wp_step. apply (wp_cs_acquire s1 a R (H ∖ {[b]}) n); [done|]. intros s2 Hcs Eb2 (F1 & F2 & F3). wp_step.
  eapply (wp_upd_buf_ext _ x bf _ (fun _ => set_refcnt (R b - 1) bf)); [by rewrite Eb2| |].
  { simpl. by rewrite Erf, u32_small by lia. }
  eapply (wp_cs_ref _ s2 a R (H ∖ {[b]}) n x bf (R b - 1) n'); [done|by rewrite Eb2|done|rewrite Eb; set_solver|lia| | |].
  { rewrite Eb. intros _ E Hs. rewrite F2, U3, Hcl by (done || lia). by apply Ha. }
  { unfold zero_ref, n'. simpl. rewrite Erf. replace (R b =? 0) with false by lia.
    destruct (Z.eqb_spec (R b) 1), (Z.eqb_spec (R b - 1) 0); lia. }
  rewrite Eb. fold R'. intros s3 Hcs3 Eb3 (G1 & G2 & G3).
  assert (kept R' s s3) as Hk3.
  { intros y c Hc Hy. apply (kept_ref s1 s3 R' x bf (R b - 1)); [done|congruence|done|by apply Hk1]. }
  wp_step. eapply wp_get_buf; [rewrite Eb3; apply lookup_insert_eq|].
  assert (forall s4, cs_rep (hart_of s1) s4 a R' (H ∖ {[b]}) n' -> cs_frame s3 s4 -> kept R' s3 s4 ->
    wp (release_in bc_lock set_bc_lock) Q s4) as Hfin.
  { intros s4 Hcs4 (I1 & I2 & I3) Hk4. eapply wp_cs_release; [done|]. intros s5 Hr5 Eb5 Hh5 (J1 & J2 & J3).
    apply HQ; [done|split; [by rewrite U1|congruence..]|]. intros y c Hc Hy. unfold at_buf. rewrite Eb5.
    apply Hk4; [done|]. by apply Hk3. }
  cbn [b_refcnt set_refcnt]. destruct (R b - 1 =? 0); wp_step; [|wp_step; apply Hfin; [done|done|apply kept_refl]].
  wp_step. apply wp_modify. wp_step. apply wp_get.
  assert (x ∈ mru s3) as Hin by (apply (co_dom _ _ _ _ _ _ _ (cs_core _ _ _ _ _ _ Hcs3)); rewrite Eb3, lookup_insert_eq; eauto).
  eapply wp_shrink_lru; [by apply cs_front|lia|]. intros s4 Hcs4 (I1 & I2 & I3) Hk4. by apply Hfin.
Qed.

(** The representation depends on its arguments only up to extensional
    equality. *)
Lemma rep_ext (s : bio A) a R R' H H' n :
  bio_rep s a R H n -> (forall b, R' b = R b) -> H ≡ H' -> bio_rep s a R' H' n.
Proof.
  intros [Hc Hl Hh Hn Hd Hr] HR HH%leibniz_equiv. subst H'. split; try done.
  destruct Hc as [C1 C2 C3 C4 C5 C6 C7 C8 C9]. split; try done.
  - intros x bf Hx. destruct (C4 x bf Hx) as [?|Hk]; [by left|right]. by eapply buf_ok_ext.
  - intros b. rewrite HR. apply C7.
  - intros b. rewrite HR. apply C8.
  - intros b. rewrite HR. apply C9.
Qed.

End Rules.
