(* ===== verification/BioThms.v ===== *)
(** * The buffer cache: theorems

    [binit] establishes the representation, and any sequence of block reads
    and writes through [bread], [bwrite] and [brelse] behaves like the plain
    map from block numbers to contents, with every write on the disk when it
    returns. *)

From Stdlib Require Import ZArith Lia Bool String.
From stdpp Require Import base gmap list strings functions sets.
From S2P Require Import Prelude Mem Spinlock Sleeplock ObjCache Bio BioProof.

Section Thms.
Context {A : Type} `{HM : HasMach A} {OC : ObjCache A}.

(** ** binit *)

Lemma core_empty d pid : core ∅ [] d d (fun _ => 0) ∅ pid.
Proof.
  split; try done.
  - constructor.
  - intros x. rewrite lookup_empty. split; [by intros ?%elem_of_nil|by intros [? ?]].
  - intros x y b (bf & E & _). by rewrite lookup_empty in E.
Qed.

(** The cache while [binit] fills it: only neutral buffers. *)
Record filling (s : bio A) (d : blocks) (k room : nat) : Prop := {
  fi_core : core (bufs s) (mru s) d d (fun _ => 0) ∅ (cur_pid s);
  fi_lock : lk_locked (bc_lock s) = 0;
  fi_hart : hart_ok (hart_of s);
  fi_len : length (mru s) = k;
  fi_unused : unused (bufs s) (mru s) = k;
  fi_oc : oc_inv (buf_cache s) (bi_base s) (fun x => x ∈ mru s) room
}.

Lemma wp_binit_loop k (s : bio A) d k0 room Q :
  filling s d k0 (k + room) ->
  (forall s', filling s' d (k0 + k) room -> undisturbed s s' -> Q tt s') ->
  wp (binit_loop k) Q s.
Proof.
  revert s k0. induction k as [|k IH]; intros s k0 Hf HQ; cbn [binit_loop].
  - wp_step. apply HQ; [|done]. by rewrite Nat.add_0_r.
  - wp_step. apply wp_gets. wp_step. apply wp_zoom.
    eapply wp_mono; [exact (oc_alloc_spec _ _ _ _ (fi_oc _ _ _ _ Hf) (fi_hart _ _ _ _ Hf))|].
    intros x b2 [Hh [(_ & E & _)|(Hx0 & Hxl & Ho)]]; [lia|].
    replace (x =? 0) with false by lia. wp_step. wp_step. wp_step. apply wp_modify. set (s2 := set_mru _ _).
    assert (hart_of s2 = hart_of b2) as Eh by reflexivity.
    apply (IH s2 (Datatypes.S k0)).
    + split.
      * apply core_join; [apply Hf|exact Hxl|done|done].
      * apply Hf.
      * rewrite Eh. apply (hart_ok_proper _ _ Hh), Hf.
      * simpl. f_equal. apply Hf.
      * change (unused (<[x := zero_buf]> (bufs s)) (x :: mru s) = Datatypes.S k0). cbn [unused].
        rewrite unused_insert_notin, is_unused_eq, (fi_unused _ _ _ _ Hf) by exact Hxl. done.
      * eapply oc_ext; [|exact Ho]. intros y. simpl. rewrite elem_of_cons. tauto.
    + intros s' Hf' Hu. apply HQ; [by replace (k0 + Datatypes.S k)%nat with (Datatypes.S k0 + k)%nat by lia|].
      eapply undisturbed_trans; [|exact Hu]. split; [by rewrite Eh|done..].
Qed.

(** On a booted machine whose slab allocator can deliver [n >= NBUF]
    buffers, [binit] returns with NBUF unused buffers, no block referenced or
    locked, the logical contents of every block those on the disk, nothing
    written to the disk and [bcache.lock] free. *)
Theorem binit_establishes (s : bio A) n :
  oc_ready (bi_base s) n -> (Z.to_nat NBUF <= n)%nat -> hart_ok (hart_of s) -> bufs s = ∅ ->
  wp binit (fun _ s' => bio_rep s' (dsk s) (fun _ => 0) ∅ n /\ undisturbed s s' /\
    bcache_count s' = NBUF /\ unused (bufs s') (mru s') = Z.to_nat NBUF) s.
Proof.
  intros Hr Hn Hh Hb. unfold binit. wp_step. apply wp_modify. wp_step. apply wp_zoom.
  eapply wp_mono; [exact (oc_create_spec _ _ Hr Hh)|]. intros c b2 (Hc0 & Hh2 & Ho).
  wp_step. apply wp_modify. replace (c =? 0) with false by lia. wp_step. wp_step. wp_step.
  set (s2 := set_buf_cache _ _). assert (hart_of s2 = hart_of b2) as Eh by reflexivity.
  apply (wp_binit_loop _ s2 (dsk s) 0 (n - Z.to_nat NBUF)).
  - split.
    + change (core (bufs s) [] (dsk s) (dsk s) (fun _ => 0) ∅ (cur_pid s)). rewrite Hb. apply core_empty.
    + reflexivity.
    + rewrite Eh. by apply (hart_ok_proper _ _ Hh2).
    + reflexivity.
    + reflexivity.
    + replace (Z.to_nat NBUF + (n - Z.to_nat NBUF))%nat with n by lia.
      eapply oc_ext; [|exact Ho]. intros x. change (False <-> x ∈ @nil Z). by rewrite elem_of_nil.
  - intros s3 Hf [U1 U2 U3 U4]. apply wp_modify. rewrite Eh, <- Hh2 in U1. split; [|split; [|split]].
    + split; try apply Hf.
      * change (core (bufs s3) (mru s3) (dsk s3) (dsk s) (fun _ => 0) ∅ (cur_pid s3)).
        change (dsk s3 = dsk s) in U3. rewrite U3. apply Hf.
      * simpl. rewrite (fi_len _ _ _ _ Hf). done.
      * intros b. change (is_Some (dsk s !! b) -> is_Some (dsk s3 !! b)).
        change (dsk s3 = dsk s) in U3. by rewrite U3.
      * exists (n - Z.to_nat NBUF)%nat. split; [apply Hf|]. simpl. rewrite (fi_unused _ _ _ _ Hf). lia.
    + by split.
    + done.
    + simpl. apply Hf.
Qed.

(** ** Reading and writing blocks *)

(** How the rest of the kernel uses the cache: read a block, or replace its
    contents and write it through. *)
Inductive block_op := ReadBlock (b : Z) | WriteBlock (b : Z) (d : list Z).

Definition op_block (o : block_op) : Z := match o with ReadBlock b | WriteBlock b _ => b end.

Definition exec_block (o : block_op) : M (bio A) (list Z) :=
  match o with
  | ReadBlock b => x ← bread ROOTDEV b; bf ← get_buf x; brelse x;; mret (b_data bf)
  | WriteBlock b d => x ← bread ROOTDEV b; store_data x (fun _ => d);; bwrite x;; brelse x;; mret d
  end.

Fixpoint exec_blocks (ops : list block_op) : M (bio A) (list (list Z)) :=
  match ops with
  | [] => mret []
  | o :: ops => d ← exec_block o; ds ← exec_blocks ops; mret (d :: ds)
  end.

(** The same on a map. *)
Definition spec_block (o : block_op) (a : blocks) : list Z * blocks :=
  match o with
  | ReadBlock b => (default [] (a !! b), a)
  | WriteBlock b d => (d, <[b := d]> a)
  end.

Fixpoint spec_blocks (ops : list block_op) (a : blocks) : list (list Z) * blocks :=
  match ops with
  | [] => ([], a)
  | o :: ops => let '(d, a) := spec_block o a in let '(ds, a) := spec_blocks ops a in (d :: ds, a)
  end.

(** Only blocks someone has pinned may differ from the disk. *)
Definition clean (s : bio A) (a : blocks) (R : Z -> Z) : Prop := forall b, R b = 0 -> dsk s !! b = a !! b.

Lemma release_take (R : Z -> Z) b c : <[b := take_ref R b b - 1]> (take_ref R b) c = R c.
Proof.
  rewrite fn_lookup_insert. destruct (decide (b = c)) as [->|Hne].
  - rewrite fn_lookup_insert. lia.
  - by rewrite !fn_lookup_insert_ne.
Qed.

Lemma rep_release (s : bio A) a R b n :
  bio_rep s a (<[b := take_ref R b b - 1]> (take_ref R b)) (({[b]} ∪ ∅) ∖ {[b]}) n ->
  bio_rep s a R ∅ n.
Proof. intros Hr. eapply rep_ext; [exact Hr|intros c; by rewrite release_take|set_solver]. Qed.

Lemma wp_exec_block o (s : bio A) a R n Q :
  bio_rep s a R ∅ n -> (0 < n)%nat -> is_Some (a !! op_block o) ->
  (forall b, 0 <= R b < 2 ^ 32 - 1) -> clean s a R ->
  (forall s', bio_rep s' (spec_block o a).2 R ∅ n -> clean s' (spec_block o a).2 R ->
     (forall b d, o = WriteBlock b d -> dsk s' !! b = Some d) ->
     (forall b, b <> op_block o -> dsk s' !! b = dsk s !! b) -> Q (spec_block o a).1 s') ->
  wp (exec_block o) Q s.
Proof.
  intros Hr Hn Ha HR Hcl HQ. destruct o as [b|b d]; simpl in *.
  - wp_step. eapply (wp_bread s a R ∅ n b); [done|set_solver|done|apply HR|done|].
    intros x s1 Hr1 Hat [U1 U2 U3 U4] _. wp_step.
    destruct (at_buf_ok _ _ _ _ _ _ _ Hr1 Hat) as (bf & Hx & _ & _ & _ & _ & Hd & _).
    eapply wp_get_buf; [done|]. wp_step.
    eapply (wp_brelse _ _ _ _ _ _ b); [exact Hr1|set_solver|done|rewrite fn_lookup_insert; specialize (HR b); lia| |].
    { rewrite fn_lookup_insert, U3. intros E _. apply Hcl. lia. }
    intros s2 Hr2 [V1 V2 V3 V4] _. wp_step. rewrite Hd in HQ by done. simpl in HQ. apply HQ.
    + apply rep_release in Hr2. rewrite fn_lookup_insert in Hr2.
      destruct (Z.eqb_spec (R b) 0) as [E|E]; [rewrite E in Hr2|];
        [|by replace (R b + 1 =? 1) with false in Hr2 by lia].
      simpl in Hr2. by replace (Datatypes.S (pred n)) with n in Hr2 by lia.
    + intros c Hc. rewrite V3, U3. by apply Hcl.
    + done.
    + intros c Hc. by rewrite V3, U3.
  - destruct Ha as [old Ha]. wp_step. eapply (wp_bread s a R ∅ n b); [done|set_solver|done|apply HR|done|].
    intros x s1 Hr1 Hat [U1 U2 U3 U4] _. wp_step.
    eapply (wp_store_data _ _ _ _ _ _ b); [exact Hr1|set_solver|exact Hat|exact Ha|]. intros s2 Hr2 [V1 V2 V3 V4] Hk2. wp_step.
    eapply (wp_bwrite _ _ _ _ _ _ b); [exact Hr2|set_solver|by apply Hk2|apply lookup_insert_eq|].
    intros s3 Hr3 Hh3 Hp3 Hd3 Hl3 Hk3. wp_step.
    eapply (wp_brelse _ _ _ _ _ _ b); [exact Hr3|set_solver|by apply Hk3, Hk2|rewrite fn_lookup_insert; specialize (HR b); lia| |].
    { intros _ _. by rewrite Hd3, !lookup_insert_eq. }
    intros s4 Hr4 [W1 W2 W3 W4] _. wp_step. apply HQ.
    + apply rep_release in Hr4. rewrite fn_lookup_insert in Hr4.
      destruct (Z.eqb_spec (R b) 0) as [E|E]; [rewrite E in Hr4|];
        [|by replace (R b + 1 =? 1) with false in Hr4 by lia].
      simpl in Hr4. by replace (Datatypes.S (pred n)) with n in Hr4 by lia.
    + intros c Hc. rewrite W3, Hd3. destruct (decide (b = c)) as [->|Hne]; [by rewrite !lookup_insert_eq|].
      rewrite !lookup_insert_ne, V3, U3 by done. by apply Hcl.
    + intros b' d' [= -> ->]. by rewrite W3, Hd3, lookup_insert_eq.
    + intros c Hc. by rewrite W3, Hd3, lookup_insert_ne, V3, U3.
Qed.

Lemma wp_exec_blocks ops (s : bio A) a R n :
  bio_rep s a R ∅ n -> (0 < n)%nat -> (forall o, o ∈ ops -> is_Some (a !! op_block o)) ->
  (forall b, 0 <= R b < 2 ^ 32 - 1) -> clean s a R ->
  wp (exec_blocks ops) (fun out s' => out = (spec_blocks ops a).1 /\
    bio_rep s' (spec_blocks ops a).2 R ∅ n /\ clean s' (spec_blocks ops a).2 R) s.
Proof.
  revert s a. induction ops as [|o ops IH]; intros s a Hr Hn Ha HR Hcl; simpl; [done|].
  wp_step. eapply wp_exec_block; try done; [apply Ha; left|]. intros s1 Hr1 Hcl1 _ _.
  destruct (spec_block o a) as [d a1] eqn:E. simpl in *. wp_step.
  eapply wp_mono; [apply (IH s1 a1); try done|].
  - intros o' Ho'. destruct (Ha o') as [? ?]; [by right|]. destruct o as [b|b d']; simpl in E; injection E as <- <-; [eauto|].
    rewrite lookup_insert_is_Some. destruct (decide (b = op_block o')); eauto.
  - intros ds s2 (-> & Hr2 & Hcl2). wp_step. destruct (spec_blocks ops a1) as [ds a2]. done.
Qed.

(** C13: the cache is transparent: from any cache state in which unpinned
    blocks agree with the disk, a sequence of reads and writes of existing
    blocks through [bread]/[bwrite]/[brelse] returns exactly what the same
    sequence on a plain map of blocks returns, whatever was cached, recycled,
    grown or shrunk on the way; afterwards no buffer is locked, the
    references are what they were, and the disk holds the map's contents
    again wherever nothing is pinned. *)
Theorem cache_transparent ops (s : bio A) a R n :
  bio_rep s a R ∅ n -> (0 < n)%nat -> (forall o, o ∈ ops -> is_Some (a !! op_block o)) ->
  (forall b, 0 <= R b < 2 ^ 32 - 1) -> clean s a R ->
  wp (exec_blocks ops) (fun out s' => out = (spec_blocks ops a).1 /\
    bio_rep s' (spec_blocks ops a).2 R ∅ n /\ clean s' (spec_blocks ops a).2 R) s.
Proof. apply wp_exec_blocks. Qed.

End Thms.

(** ** A concrete cache *)

(** A cache that hands out fresh addresses for ever. *)
Record pool := mkPool { po_mach : mach; po_next : Z }.

#[export] Instance pool_HasMach : HasMach pool.
Proof.
  refine {| mach_of := po_mach; set_mach := fun m s => mkPool m (po_next s) |}; [done|by intros []|done].
Defined.

Definition pool_alloc (c : Z) : M pool Z :=
  fun s => Ret (po_next s, mkPool (po_mach s) (po_next s + 1)).

#[export] Instance pool_ObjCache : ObjCache pool.
Proof.
  refine {| oc_create := mret 1; oc_alloc := pool_alloc; oc_free := fun _ _ => mret tt;
            oc_ready := fun s _ => 0 < po_next s;
            oc_inv := fun _ s L _ => 0 < po_next s /\ forall x, L x -> x < po_next s |}.
  - intros s n Hs Hh. split; [done|]. split; [done|]. split; [done|]. by intros x [].
  - intros c s L n [Hs HL] Hh. split; [done|]. right. split; [lia|]. split.
    + intros Hx. specialize (HL _ Hx). lia.
    + split; [simpl; lia|]. intros x [Hx| ->]; [specialize (HL x Hx)|]; simpl; lia.
  - intros c s L n x [Hs HL] Hx Hh. split; [done|]. split; [done|]. intros y [Hy _]. by apply HL.
  - done.
  - intros c s L L' n HE [Hs HL]. split; [done|]. intros x Hx. by apply HL, HE.
Defined.

Abbreviation boot_bio := (mkBio (mkPool (mkMach (mkHart 1 0 false true) ∅) 100)
  (mkLock EmptyString 0 0) ∅ [] 0 0 (<[7 := [1]]> (<[9 := [2]]> ∅)) [] 3).

Lemma binit_establishes_witness :
  wp binit (fun _ s' => bio_rep s' (dsk boot_bio) (fun _ => 0) ∅ 40 /\ undisturbed boot_bio s' /\
    bcache_count s' = NBUF /\ unused (bufs s') (mru s') = Z.to_nat NBUF) boot_bio.
Proof.
  refine (binit_establishes boot_bio 40 _ _ _ eq_refl); [|unfold NBUF, MAXOPBLOCKS; lia|repeat split; done].
  change (0 < 100). lia.
Defined.

(** An empty cache over a disk with two blocks. *)
Lemma boot_bio_rep : bio_rep boot_bio (dsk boot_bio) (fun _ => 0) ∅ 1.
Proof.
  split; [exact (core_empty _ _)|reflexivity|repeat split; done|reflexivity|done|].
  exists 1%nat. split; [|simpl; lia]. split; [change (0 < 100); lia|]. intros x Hx. by apply elem_of_nil in Hx.
Qed.

Lemma cache_transparent_witness :
  let ops := [ReadBlock 7; WriteBlock 7 [5]; WriteBlock 9 [6]; ReadBlock 7] in
  (spec_blocks ops (dsk boot_bio)).1 = [[1]; [5]; [6]; [5]] /\
  wp (exec_blocks ops) (fun out s' => out = (spec_blocks ops (dsk boot_bio)).1 /\
    bio_rep s' (spec_blocks ops (dsk boot_bio)).2 (fun _ => 0) ∅ 1 /\
    clean s' (spec_blocks ops (dsk boot_bio)).2 (fun _ => 0)) boot_bio.
Proof.
  split; [reflexivity|].
  refine (cache_transparent _ boot_bio (dsk boot_bio) (fun _ => 0) 1 boot_bio_rep _ _ _ _); [lia| |lia|by intros b _].
  intros o Ho. repeat (apply elem_of_cons in Ho as [->|Ho]; [eexists; reflexivity|]). by apply elem_of_nil in Ho.
Defined.
