(* ===== verification/SlabCache.v ===== *)
(** * The slab allocator serves the buffer cache

    [slab_ObjCache] proves that a cache of kernel/slab.c keeps the promises of
    [ObjCache] for any block allocator, in particular for buddy.c.  The number
    of objects a cache is sure to deliver is counted by the free objects of
    its slabs and of the blocks it can still get: [place] is a block that is
    a slab of the cache or free.  With it, the theorems about the buffer
    cache, the log and the file system hold of the kernel's own allocators. *)

From Stdlib Require Import ZArith Lia Bool String.
From stdpp Require Import base gmap list strings functions.
From S2P Require Import Prelude Mem MemList Spinlock BuddySpec Buddy BuddyProof BlockAlloc.
From S2P Require Import Slab SlabProof SlabLife SlabCreate SlabThms ObjCache Bio BioProof BioThms.

Section SlabCache.
Context {T : Type} `{BA : BlockAllocator T}.
Notation slst := (slst T).
Context (name : list Z) (size ssz : Z).
Context (Hsize : 1 <= size <= MAX_BUFFER_SIZE) (Hssz : calculate_slab_size size = Some ssz) (Hnobj : 0 < nobj size ssz).

Definition place (R : ba_region) C (F : Z -> Prop) (a : Z) : Prop :=
  ba_block R a ssz /\ forall b, bytes_of a (sbytes ssz) b -> F b \/ owned ssz C b.

(** A free object of the cache, or one it would have after growing. *)
Definition spare (R : ba_region) C (F : Z -> Prop) (x : Z) : Prop :=
  (exists a, place R C F a /\ is_obj size ssz a x) /\ ~ allocated size ssz C x.

(** The region whose blocks the cache gets. *)
Context (Rg : ba_region).

Definition serves (c : Z) (s : slst) (L : Z -> Prop) (n : nat) : Prop :=
  exists C F l, cache_inv Rg c size ssz 0 0 s C F /\
    (forall x, L x <-> exists y, x = y + sizeof_object /\ allocated size ssz C y) /\
    NoDup l /\ (n <= length l)%nat /\ forall x, x ∈ l -> spare Rg C F x.

Lemma sbytes_block : block_bytes ssz = sbytes ssz.
Proof. apply (block_bytes_ssz ssz). by eapply slab_size_cases. Qed.

Lemma place_apart R C F a a' : place R C F a -> ba_block R a' ssz -> a <> a' -> a + sbytes ssz <= a' \/ a' + sbytes ssz <= a.
Proof.
  intros [Ha _] Ha' Hne. destruct (ba_block_nested R a ssz a' ssz Ha Ha') as [?|[?|?]]; rewrite ?sbytes_block in *; lia.
Qed.

(** A place that is no slab is free. *)
Lemma place_free R c s C F a : cache_inv R c size ssz 0 0 s C F -> place R C F a -> a ∉ addrs (slabs C) ->
  forall b, bytes_of a (sbytes ssz) b -> F b.
Proof.
  intros HI Hp Hna b Hb. destruct (proj2 Hp b Hb) as [?|(a' & Ha' & Hb')]; [done|]. exfalso.
  apply elem_of_addrs in Ha' as (fl & Hin). pose proof (sr_block _ _ _ _ _ _ (cp_slabs _ _ _ _ _ _ _ _ (ci_pre _ _ _ _ _ _ _ _ _ HI) _ Hin)) as Hblk.
  cbn [fst] in Hblk. unfold bytes_of in *. destruct (decide (a = a')) as [->|Hne].
  - apply Hna, elem_of_addrs. eauto.
  - destruct (place_apart _ _ _ _ _ Hp Hblk Hne); lia.
Qed.

(** A cache that refuses has no spare object. *)
Lemma no_spare R c s C F x : cache_inv R c size ssz 0 0 s C F -> C LP = [] -> C LE = [] -> no_block (ba_block R) F ssz -> ~ spare R C F x.
Proof.
  intros HI Ep Ee Hno [(a & Hp & Hx) Hna]. destruct (decide (a ∈ addrs (slabs C))) as [Ha|Ha].
  - apply elem_of_addrs in Ha as (fl & Hin). destruct (ci_shape _ _ _ _ _ _ _ _ _ HI) as (_ & Hf & _).
    assert ((a, fl) ∈ C LF) as HF. { apply elem_of_slabs in Hin as [[| |] Hi]; [by rewrite Ep in Hi; apply elem_of_nil in Hi|done|by rewrite Ee in Hi; apply elem_of_nil in Hi]. }
    destruct (Hf _ HF) as [E _]. cbn [snd] in E. subst fl. apply Hna. exists (a, []). split; [done|]. split; [done|]. apply not_elem_of_nil.
  - apply (Hno a (proj1 Hp)). rewrite sbytes_block. by eapply place_free.
Qed.

(** Memory that only moves between the slabs and the allocator. *)
Lemma spare_conserved R C F C' F' x : conserved ssz C F C' F' -> spare R C F x -> ~ allocated size ssz C' x -> spare R C' F' x.
Proof. intros Hc [(a & [Hb Hp] & Hx) _] Hn. split; [|done]. exists a. split; [|done]. split; [done|]. intros b Hbb. apply Hc. by apply Hp. Qed.

Lemma remove_one (l : list Z) x : NoDup l -> exists l', NoDup l' /\ length l' = pred (length l) /\ forall y, y ∈ l' -> y ∈ l /\ y <> x.
Proof.
  intros Hl. destruct (decide (x ∈ l)) as [Hx|Hx].
  - apply list_elem_of_split in Hx as (l1 & l2 & ->). apply list.NoDup_app in Hl as (H1 & H2 & H3). apply list.NoDup_cons in H3 as [H3 H4].
    exists (l1 ++ l2). split; [|split].
    + apply list.NoDup_app. split; [done|]. split; [|done]. intros y Hy Hy2. apply (H2 y Hy). by right.
    + rewrite !length_app. cbn [length]. lia.
    + intros y Hy. rewrite elem_of_app in Hy |- *. rewrite elem_of_cons. split; [tauto|]. intros ->. destruct Hy as [Hy|Hy]; [|done].
      apply (H2 x Hy). by left.
  - exists (tail l). destruct l as [|z l]; cbn [tail length pred]; [by split; [constructor|split; [done|intros y Hy; by apply elem_of_nil in Hy]]|].
    apply list.NoDup_cons in Hl as [_ Hl]. split; [done|]. split; [done|]. intros y Hy. split; [by right|]. intros ->. apply Hx. by right.
Qed.

Lemma obj_pos R c s C F x : cache_inv R c size ssz 0 0 s C F -> allocated size ssz C x -> 0 < x.
Proof.
  intros HI ([a fl] & Hin & Hx & _). pose proof (ci_ok _ _ _ _ _ _ _ _ _ HI) as Hok. destruct (obj_range R c size ssz _ _ Hok Hx) as [Hr _].
  pose proof (cp_range _ _ _ _ _ _ Hok _ _ a (ci_pre _ _ _ _ _ _ _ _ _ HI)) as Hp.
  destruct Hp as [? _]; [apply elem_of_addrs; eauto|]. cbn [fst] in Hr. unfold sizeof_slab in Hr. lia.
Qed.

Lemma slab_alloc c s L n : serves c s L n ->
  wp (kmem_cache_alloc c) (fun r s' => hart_same (hart_of s) (hart_of s') /\
    ((r = 0 /\ n = O /\ serves c s' L n) \/ (r <> 0 /\ ~ L r /\ serves c s' (fun x => L x \/ x = r) (pred n)))) s.
Proof.
  intros (C & F & l & HI & HL & Hnd & Hlen & Hsp).
  apply (wp_kmem_cache_alloc Rg c size ssz 0 0 (ci_ok _ _ _ _ _ _ _ _ _ HI) s C F); [done| |].
  - intros s' C' F' [O1 O2 O3 O4 O5] Ha Hn. split; [done|]. left. split; [done|]. destruct Hn as [(Ep & Ee & Hno)|Hz]; [|lia].
    assert (l = []) as ->. { destruct l as [|x l]; [done|]. destruct (no_spare Rg c s C F x HI Ep Ee Hno). apply Hsp. left. }
    assert (n = O) as -> by (cbn [length] in Hlen; lia). split; [done|]. exists C', F', []. split; [done|]. split; [|split; [constructor|split; [done|intros x Hx; by apply elem_of_nil in Hx]]].
    intros x. rewrite HL. by setoid_rewrite Ha.
  - intros s' C' F' x [O1 O2 O3 O4 O5] Hx Ha. split; [done|]. right. assert (allocated size ssz C' x) as Hx' by (apply Ha; by right).
    pose proof (obj_pos _ _ _ _ _ _ O1 Hx'). unfold sizeof_object. split; [lia|]. split.
    + intros (y & Hy & Hay)%HL. apply Hx. unfold sizeof_object in Hy. by replace x with y by lia.
    + destruct (remove_one l x Hnd) as (l' & Hnd' & Hlen' & Hl'). exists C', F', l'. split; [done|]. split; [|split; [done|split; [lia|]]].
      * intros z. rewrite HL. setoid_rewrite Ha. unfold sizeof_object. split.
        -- intros [(y & Hy & Hay)| ->]; [exists y; auto|exists x; auto].
        -- intros (y & Hy & [Hay| ->]); [left; eauto|by right].
      * intros y Hy. destruct (Hl' y Hy) as [Hyl Hne]. eapply spare_conserved; [exact O4|by apply Hsp|]. rewrite Ha.
        intros [Hay| ->]; [|done]. by apply (Hsp y Hyl).
Qed.

Lemma slab_free c s L n x : serves c s L n -> L x ->
  wp (kmem_cache_free c x) (fun _ s' => hart_same (hart_of s) (hart_of s') /\ serves c s' (fun y => L y /\ y <> x) (S n)) s.
Proof.
  intros (C & F & l & HI & HL & Hnd & Hlen & Hsp) (y & -> & Hy)%HL. pose proof Hy as (sl & Hin & Hobj & _).
  apply (wp_kmem_cache_free Rg c size ssz 0 0 (ci_ok _ _ _ _ _ _ _ _ _ HI) s C F y); [done|done|].
  intros s' C' [O1 O2 O3 O4 O5] Ha. split; [done|]. exists C', F, (y :: l). split; [done|]. split; [|split; [|split; [cbn [length]; lia|]]].
  - intros z. rewrite HL. setoid_rewrite Ha. unfold sizeof_object. split.
    + intros [(w & -> & Hw) Hne]. exists w. split; [done|]. split; [done|]. intros ->. by apply Hne.
    + intros (w & -> & Hw & Hne). split; [eauto|lia].
  - apply list.NoDup_cons. split; [|done]. intros Hyl. by apply (Hsp y Hyl).
  - intros z Hz. apply elem_of_cons in Hz as [->|Hz].
    + split; [|rewrite Ha; by intros [_ ?]]. exists sl.1. split; [|done]. split.
      * exact (sr_block _ _ _ _ _ _ (cp_slabs _ _ _ _ _ _ _ _ (ci_pre _ _ _ _ _ _ _ _ _ HI) _ Hin)).
      * intros b Hb. apply O4. right. exists sl.1. split; [by apply elem_addrs|done].
    + eapply spare_conserved; [exact O4|by apply Hsp|]. rewrite Ha. intros [Hz' _]. by apply (Hsp z Hz).
Qed.

(** The objects of some blocks. *)
Lemma NoDup_places R c qs : cache_ok R c size ssz -> NoDup qs -> (forall q, q ∈ qs -> ba_block R q ssz) ->
  NoDup (qs ≫= objs size ssz) /\ Z.of_nat (length (qs ≫= objs size ssz)) = nobj size ssz * Z.of_nat (length qs).
Proof.
  intros Hok Hnd Hq. split.
  - apply NoDup_bind; [|intros x _; by eapply NoDup_objs|done]. intros a a' x Ha Ha' Hx%elem_of_objs Hx'%elem_of_objs.
    destruct (obj_range R c size ssz _ _ Hok Hx), (obj_range R c size ssz _ _ Hok Hx'). destruct (decide (a = a')) as [|Hne]; [done|exfalso].
    pose proof (co_osz _ _ _ _ Hok). unfold asz, sizeof_slab, sizeof_object in *.
    destruct (ba_block_nested R a ssz a' ssz (Hq a Ha) (Hq a' Ha')) as [?|[?|?]]; rewrite ?sbytes_block in *; lia.
  - clear Hnd. induction qs as [|q qs IH]; [cbn; lia|]. cbn [mbind list_bind]. rewrite length_app, length_objs. cbn [length].
    rewrite Nat2Z.inj_add, IH by (intros x Hx; apply Hq; by right). lia.
Qed.

(** A page lies in one block at most. *)
Lemma page_in_one R p qs : ba_block R p 1 -> NoDup qs -> (forall q, q ∈ qs -> ba_block R q ssz) -> 4096 <= sbytes ssz ->
  exists qs', NoDup qs' /\ length qs' = pred (length qs) /\ forall q, q ∈ qs' -> q ∈ qs /\ (p + 4096 <= q \/ q + sbytes ssz <= p).
Proof.
  intros Hp Hnd Hq Hsb. set (q0 := default 0 (list_find (fun q => q <= p < q + sbytes ssz) qs ≫= fun x => Some x.2)).
  assert (forall q, q ∈ qs -> q <= p < q + sbytes ssz -> q = q0) as Hone.
  { intros q Hin Hpq. unfold q0. destruct (list_find _ qs) as [[k q1]|] eqn:E.
    - apply list_find_Some in E as (E1 & E2 & _). cbn. apply list_elem_of_lookup_2 in E1. destruct (decide (q = q1)) as [|Hne]; [done|exfalso].
      destruct (ba_block_nested R q ssz q1 ssz (Hq q Hin) (Hq q1 E1)) as [?|[?|?]]; rewrite ?sbytes_block in *; lia.
    - apply list_find_None in E. rewrite list.Forall_forall in E. by destruct (E q Hin). }
  destruct (remove_one qs q0 Hnd) as (qs' & H1 & H2 & H3). exists qs'. split; [done|]. split; [done|]. intros q Hin. destruct (H3 q Hin) as [Hin' Hne].
  split; [done|]. destruct (ba_block_nested R p 1 q ssz Hp (Hq q Hin')) as [Ha|[Ha|[Ha Ha']]]; rewrite ?sbytes_block; change (block_bytes 1) with 4096 in *;
    rewrite ?sbytes_block in *; [lia|lia|lia|]. exfalso. apply Hne, Hone; [done|lia].
Qed.

Definition ready (s : slst) (n : nat) : Prop :=
  exists F qs, ba_inv Rg F (sl_base s) /\ allocator_initialized (sl_glob s) <> 0 /\ lk_locked (cache_list_lock (sl_glob s)) = 0 /\
    NoDup qs /\ (forall q, q ∈ qs -> ba_block Rg q ssz /\ forall b, bytes_of q (sbytes ssz) b -> F b) /\ qs <> [] /\
    Z.of_nat n <= nobj size ssz * (Z.of_nat (length qs) - 1).

Lemma slab_create s n : ready s n ->
  wp (kmem_cache_create name size 0 0) (fun c s' => c <> 0 /\ hart_same (hart_of s) (hart_of s') /\ serves c s' (fun _ => False) n) s.
Proof.
  intros (F & qs & HB & Hi & Hl & Hnd & Hqs & Hne & Hn). pose proof (slab_size_cases _ _ Hssz) as Hcases.
  apply (wp_kmem_cache_create Rg F s name size 0 0); [done|done|done|done|lia| |].
  - intros s' _ _ _ _ Hno. exfalso. destruct qs as [|q qs]; [done|]. destruct (Hqs q) as [Hb HF]; [left|]. apply (Hno q); [by eapply ba_block_first|].
    change (block_bytes 1) with 4096. intros b Hb'. apply HF. unfold bytes_of, sbytes, BLOCK_SIZE in *.
    repeat (apply elem_of_cons in Hcases as [->|Hcases]; [lia|]). by apply elem_of_nil in Hcases.
  - intros p s' C F' ssz' Hs' HI Ha _ Hh _ _ _ _ _ HF _. rewrite Hssz in Hs'. injection Hs' as <-. pose proof (ci_ok _ _ _ _ _ _ _ _ _ HI) as Hok.
    destruct (ba_block_range _ _ _ (co_block _ _ _ _ Hok)). destruct (nobj_fits Rg p size ssz Hok) as (_ & _ & Hsb). split; [lia|]. split; [done|].
    destruct (page_in_one Rg p qs (co_block _ _ _ _ Hok) Hnd) as (qs' & Hnd' & Hlen' & Hqs'); [intros q Hq; by apply Hqs|lia|].
    destruct (NoDup_places Rg p qs' Hok Hnd') as [Hno Hle]; [intros q Hq; by apply Hqs, Hqs'|].
    exists C, F', (qs' ≫= objs size ssz). split; [done|]. split; [|split; [done|split]].
    + intros x. split; [done|]. intros (y & _ & Hy). by apply (Ha y).
    + destruct qs as [|q qs]; [done|]. cbn [length pred] in *. rewrite Hlen' in Hle. lia.
    + intros x (q & Hx%elem_of_objs & Hq)%list_elem_of_bind. destruct (Hqs' q Hq) as [Hq' Hap]. destruct (Hqs q Hq') as [Hblk HFq].
      split; [|apply Ha]. exists q. split; [|done]. split; [done|]. intros b Hb. destruct (proj1 (HF b) (HFq b Hb)) as [?|[Hpage|?]]; [by left| |by right].
      unfold bytes_of, BLOCK_SIZE in *. lia.
Qed.

Lemma slab_hart c s L n h : serves c s L n -> hart_ok h -> serves c (set_hart h s) L n.
Proof.
  intros (C & F & l & [I1 I2 I3 I4 I5 I6] & Hrest) Hh. exists C, F, l. split; [|done]. split; rewrite ?mem_of_set_hart; try done.
  eapply (ba_client Rg F s); [exact I6| |by rewrite hart_of_set_hart|rewrite mem_of_set_hart; apply modifies_refl].
  cbn [sl_base set_hart set_mach slst_HasMach mach_of]. by rewrite mach_of_set.
Qed.

(** kernel/slab.c implements [ObjCache]. *)
Definition slab_ObjCache : ObjCache slst.
Proof.
  refine {| oc_create := kmem_cache_create name size 0 0; oc_alloc := kmem_cache_alloc; oc_free := kmem_cache_free;
            oc_ready := ready; oc_inv := serves |}.
  - intros s n Hr _. by apply slab_create.
  - intros c s L n HI _. by apply slab_alloc.
  - intros c s L n x HI Hx _. by apply slab_free.
  - intros c s L n h. apply slab_hart.
  - intros c s L L' n HE (C & F & l & HI & HL & Hrest). exists C, F, l. split; [done|]. split; [|done]. intros x. by rewrite <- HE.
Defined.
End SlabCache.

(** ** The buffer cache on the kernel's allocators *)

(** [struct buf] on a 64-bit machine: [valid], [disk], [dev], [blockno], the
    sleep lock (a word, a spin lock of three words, a name and a pid, each
    aligned), [refcnt] and its padding, [prev], [next], and then [data]. *)
Definition sizeof_spinlock : Z := 8 + 8 + 8.
Definition sizeof_sleeplock : Z := 8 + sizeof_spinlock + 8 + 8.
Definition buf_data_offset : Z := 4 * 4 + sizeof_sleeplock + 8 + 8 + 8.
Definition buf_extent : Z := buf_data_offset + BSIZE.

(** [sizeof(struct buf)], as [binit] passes it to [kmem_cache_create], and the
    blocks of a slab of objects of this size. *)
Definition sizeof_buf : Z := 1112.
Definition buf_slab : Z := 4.
Definition buf_name : list Z := [98; 117; 102].

Lemma buf_slab_ok : 1 <= sizeof_buf <= MAX_BUFFER_SIZE /\ calculate_slab_size sizeof_buf = Some buf_slab /\ nobj sizeof_buf buf_slab = 14.
Proof. split; [split; discriminate|]. split; vm_compute; reflexivity. Qed.

Lemma buf_slab_pos : 0 < nobj sizeof_buf buf_slab.
Proof. by rewrite (proj2 (proj2 buf_slab_ok)). Qed.

Section OnSlab.
Context (k start : Z).
Notation R := (mkRegion k start).

#[local] Instance buf_ObjCache : ObjCache (slst bst) :=
  slab_ObjCache buf_name sizeof_buf buf_slab (proj1 buf_slab_ok) (proj1 (proj2 buf_slab_ok)) buf_slab_pos R.

(** [main] starts the allocators, then the buffer cache. *)
Definition boot_bcache : M (bio (slst bst)) unit :=
  zoom bi_base set_bio_base (kmem_init start (2 ^ k));;
  binit.

(** Every buffer is an object of the slab cache: the whole [struct buf], its
    data included, lies in the region and apart from every other buffer, and
    none of its bytes is one that an operation of the slab or the buddy
    allocator may write. *)
Definition buffers_in_slabs (s : bio (slst bst)) : Prop :=
  exists C F, cache_inv R (buf_cache s) sizeof_buf buf_slab 0 0 (bi_base s) C F /\
    forall x, is_Some (bufs s !! x) ->
      (forall b, bytes_of x buf_extent b ->
         start <= b < start + BLOCK_SIZE * 2 ^ k /\ ~ may_write (buf_cache s) sizeof_buf buf_slab C F b) /\
      forall y, is_Some (bufs s !! y) -> x <> y -> x + buf_extent <= y \/ y + buf_extent <= x.

(** An object lies in the region. *)
Lemma obj_in_region p (s : slst bst) C F x : cache_inv R p sizeof_buf buf_slab 0 0 s C F -> allocated sizeof_buf buf_slab C x ->
  start <= x /\ x + sizeof_object + sizeof_buf <= start + BLOCK_SIZE * 2 ^ k.
Proof.
  intros HI (sl & Hin & Hx & _). destruct (obj_range _ p _ _ _ _ (ci_ok _ _ _ _ _ _ _ _ _ HI) Hx) as [H1 H2].
  destruct (nobj_fits _ p _ _ (ci_ok _ _ _ _ _ _ _ _ _ HI)) as (_ & _ & Hsb).
  pose proof (sr_block _ _ _ _ _ _ (cp_slabs _ _ _ _ _ _ _ _ (ci_pre _ _ _ _ _ _ _ _ _ HI) _ Hin)) as (_ & _ & b & Hb & Hblk).
  cbn [fst rg_start rg_order] in Hb, Hblk. change (Z.log2_up buf_slab) with 2 in Hblk. destruct Hblk as (_ & ? & _ & ?).
  unfold sbytes, asz, sizeof_slab, sizeof_object, BLOCK_SIZE, buf_slab in *. lia.
Qed.

Lemma rep_in_slabs (s : bio (slst bst)) a Rf H n : bio_rep s a Rf H n -> buffers_in_slabs s.
Proof.
  intros Hr. destruct (rp_room _ _ _ _ _ Hr) as (room & (C & F & l & HI & HL & _) & _).
  assert (forall x, is_Some (bufs s !! x) -> exists y, x = y + sizeof_object /\ allocated sizeof_buf buf_slab C y) as Hobj.
  { intros x Hx. apply HL. by apply (co_dom _ _ _ _ _ _ _ (rp_core _ _ _ _ _ Hr)). }
  exists C, F. split; [done|]. intros x (y & -> & Hy)%Hobj. destruct (live_apart _ _ _ _ _ _ _ _ HI Hy) as [Hsep Hw].
  destruct (obj_in_region _ _ _ _ _ HI Hy). change buf_extent with sizeof_buf. split.
  - intros b Hb. split; [unfold bytes_of, sizeof_object in *; lia|by apply Hw].
  - intros z (w & -> & Hz)%Hobj Hne. destruct (Hsep w Hz) as [?|?]; [intros ->; by apply Hne| |]; unfold sizeof_object in *; lia.
Qed.

Lemma ready_of_region (s : slst bst) n : 4 <= k -> buddy_inv k (sl_base s) (all_free k) -> memory_start (buddy (sl_base s)) = start ->
  allocator_initialized (sl_glob s) <> 0 -> lk_locked (cache_list_lock (sl_glob s)) = 0 ->
  Z.of_nat n <= 14 * (2 ^ (k - 2) - 1) -> oc_ready s n.
Proof.
  intros Hk HI Hm Hini Hlk Hn. pose proof HI as (Rp & _). destruct (br_start _ _ _ Rp) as [Hs0 Hs1]. rewrite Hm in Hs0, Hs1.
  pose proof (pow2_pos (k - 2) ltac:(lia)) as Hp. assert (2 ^ k = 4 * 2 ^ (k - 2)) as E by (rewrite <- (Z.pow_add_r 2 2) by lia; f_equal; lia).
  exists (free_bytes (sl_base s) (all_free k)), ((fun i => start + 16384 * i) <$> seqZ 0 (2 ^ (k - 2))).
  split; [by exists (all_free k)|]. split; [done|]. split; [done|]. split; [|split; [|split]].
  - apply NoDup_fmap; [intros x y ?; lia|apply NoDup_seqZ].
  - intros q (i & -> & Hi%elem_of_seqZ)%list_elem_of_fmap. split.
    + split; [done|]. split; [done|]. exists (4 * i). split; [cbn [rg_start]; unfold BLOCK_SIZE; lia|]. change (Z.log2_up buf_slab) with 2.
      cbn [rg_order]. split; [lia|]. split; [lia|]. split; [exists i; lia|]. lia.
    + intros b Hb. exists ((b - start) / 4096). unfold bytes_of, sbytes, buf_slab, BLOCK_SIZE in Hb. rewrite free_unit_all_free.
      unfold run, baddr, BLOCK_SIZE. rewrite Hm, E. split; zdiv.
  - intros Hnil%(f_equal length). rewrite length_fmap, length_seqZ in Hnil. cbn [length] in Hnil. lia.
  - rewrite (proj2 (proj2 buf_slab_ok)), length_fmap, length_seqZ. lia.
Qed.

(** C6: the buffer cache works on the kernel's own allocators.  Starting from
    a disk and zeroed static data, [kmem_init] of [2^k] blocks (16 to 8192)
    followed by [binit] never panics, and every sequence of reads and writes
    of disk blocks that follows, with the buffers allocated, grown and shrunk
    by slab.c in memory of buddy.c, returns what the same sequence on a plain
    map of blocks returns and leaves its result on the disk.  Afterwards every
    [struct buf] lies whole, data included, in the region, apart from every
    other buffer, and outside all the bytes the allocators may write.  (The
    contents of a buffer are kept in a map by the buffer's address, not in the
    byte memory of the allocators: this last part is what allows it.) *)
Theorem bcache_on_slab ops (s : bio (slst bst)) :
  4 <= k <= 13 -> 0 < start -> start + BLOCK_SIZE * 2 ^ k <= 2 ^ 63 -> bss (sl_base (bi_base s)) ->
  hart_ok (hart_of s) -> bufs s = ∅ -> (forall o, o ∈ ops -> is_Some (dsk s !! op_block o)) ->
  wp (boot_bcache;; exec_blocks ops) (fun out s' => out = (spec_blocks ops (dsk s)).1 /\
    (forall b, dsk s' !! b = (spec_blocks ops (dsk s)).2 !! b) /\ buffers_in_slabs s') s.
Proof.
  intros Hk Hs0 Hs1 Hbss Hh Hb Ho. unfold boot_bcache. wp_step. wp_step. apply wp_zoom. unfold kmem_init. wp_step. apply wp_zoom.
  apply (wp_buddy_init k); [lia|done|done|done|exact Hh|]. intros b1 HI1 Hh1 Hm1 _. apply wp_modify.
  set (s1 := set_bio_base _ s). assert (hart_of s1 = hart_of s) as Eh by exact Hh1.
  pose proof (Z.pow_le_mono_r 2 2 (k - 2) ltac:(lia) ltac:(lia)) as Hp.
  eapply wp_mono; [apply (binit_establishes s1 42); [|unfold NBUF, MAXOPBLOCKS; lia|by rewrite Eh|exact Hb]|].
  - apply ready_of_region; [lia|exact HI1|exact Hm1|done|done|]. lia.
  - intros [] s2 (Hr & Hu & _). change (dsk s1) with (dsk s) in Hr. eapply wp_mono; [apply (wp_exec_blocks ops s2 (dsk s) (fun _ => 0) 42); [done|lia|done|lia|]|].
    + intros b _. by rewrite (un_dsk _ _ Hu).
    + intros out s3 (-> & Hr3 & Hcl). split; [done|]. split; [intros b; by apply Hcl|by eapply rep_in_slabs].
Qed.
End OnSlab.

(** The region [main] reserves at the top of physical memory, and a disk of
    two blocks. *)
Definition slab_mem : Z := 2281701376 - 1024 * BLOCK_SIZE.
Abbreviation boot_machine := (mkBio slab_boot (mkLock EmptyString 0 0) ∅ [] 0 0 (<[7 := [1]]> (<[9 := [2]]> ∅)) [] 3).

Lemma bcache_on_slab_witness :
  let ops := [ReadBlock 7; WriteBlock 7 [5]; WriteBlock 9 [6]; ReadBlock 7] in
  (spec_blocks ops (dsk boot_machine)).1 = [[1]; [5]; [6]; [5]] /\
  wp (boot_bcache 10 slab_mem;; @exec_blocks _ _ (buf_ObjCache 10 slab_mem) ops) (fun out s' => out = (spec_blocks ops (dsk boot_machine)).1 /\
    (forall b, dsk s' !! b = (spec_blocks ops (dsk boot_machine)).2 !! b) /\ buffers_in_slabs 10 slab_mem s') boot_machine.
Proof.
  split; [reflexivity|]. refine (bcache_on_slab 10 slab_mem _ boot_machine _ _ _ _ _ _ _); try done.
  intros o Ho. repeat (apply elem_of_cons in Ho as [->|Ho]; [eexists; reflexivity|]). by apply elem_of_nil in Ho.
Defined.
