(* ===== verification/Log.v ===== *)
(** * The log (kernel/log.c)

    The write-ahead log on top of the buffer cache.  [log_st] adds the static
    [struct log] to the cache state.  A block is a list of 1024 bytes; the
    header block holds little-endian [int]s ([rd32], [wr32]).  [sleep] is
    [Blocked], [wakeup] changes nothing here. *)

From Stdlib Require Import ZArith Lia Bool String.
From stdpp Require Import base gmap list strings functions.
From S2P Require Import Prelude Mem Spinlock Sleeplock ObjCache Bio.

(** ** Integers in blocks *)

Definition byte_at (d : list Z) (i : Z) : Z := nth (Z.to_nat i) d 0.

(** The [int] at [data + off]. *)
Definition rd32u (d : list Z) (off : Z) : Z :=
  byte_at d off + 256 * (byte_at d (off + 1) + 256 * (byte_at d (off + 2) + 256 * byte_at d (off + 3))).
Definition rd32 (d : list Z) (off : Z) : Z := s32 (rd32u d off).

Definition put_byte (d : list Z) (i v : Z) : list Z := <[Z.to_nat i := v mod 256]> d.
Definition wr32 (d : list Z) (off v : Z) : list Z :=
  put_byte (put_byte (put_byte (put_byte d off v) (off + 1) (v / 256)) (off + 2) (v / 65536)) (off + 3) (v / 16777216).

Record superblock := mkSuper {
  sb_magic : Z; sb_size : Z; sb_nblocks : Z; sb_ninodes : Z;
  sb_nlog : Z; sb_logstart : Z; sb_inodestart : Z; sb_bmapstart : Z
}.

(** [sizeof(struct logheader)] *)
Definition sizeof_logheader : Z := 4 + 4 * LOGBLOCKS.

Record log := mkLog {
  lg_lock : spinlock;
  lg_start : Z;
  lg_outstanding : Z;
  lg_committing : Z;
  lg_dev : Z;
  lg_n : Z;
  lg_block : list Z
}.

Section Log.
Context {A : Type} `{HM : HasMach A} {OC : ObjCache A}.

Record log_st := mkLogSt { lo_bio : bio A; lo : log }.

#[global] Instance log_HasMach : HasMach log_st.
Proof.
  refine {| mach_of := fun s => mach_of (lo_bio s);
            set_mach := fun m s => mkLogSt (set_mach m (lo_bio s)) (lo s) |}.
  - intros m s. exact (mach_of_set m (lo_bio s)).
  - intros [b l]. cbn [lo_bio lo]. f_equal. exact (set_mach_of b).
  - intros m m' s. cbn [lo_bio lo]. f_equal. exact (set_mach_set m m' (lo_bio s)).
Defined.

Definition set_lo_bio (b : bio A) (s : log_st) : log_st := mkLogSt b (lo s).
Definition set_lo (l : log) (s : log_st) : log_st := mkLogSt (lo_bio s) l.

Definition get_lg_lock (s : log_st) : spinlock := lg_lock (lo s).
Definition set_lg_lock (k : spinlock) (s : log_st) : log_st :=
  let l := lo s in
  set_lo (mkLog k (lg_start l) (lg_outstanding l) (lg_committing l) (lg_dev l) (lg_n l) (lg_block l)) s.
Definition set_lg_start (v : Z) (s : log_st) : log_st :=
  let l := lo s in
  set_lo (mkLog (lg_lock l) v (lg_outstanding l) (lg_committing l) (lg_dev l) (lg_n l) (lg_block l)) s.
Definition set_lg_outstanding (v : Z) (s : log_st) : log_st :=
  let l := lo s in
  set_lo (mkLog (lg_lock l) (lg_start l) v (lg_committing l) (lg_dev l) (lg_n l) (lg_block l)) s.
Definition set_lg_committing (v : Z) (s : log_st) : log_st :=
  let l := lo s in
  set_lo (mkLog (lg_lock l) (lg_start l) (lg_outstanding l) v (lg_dev l) (lg_n l) (lg_block l)) s.
Definition set_lg_dev (v : Z) (s : log_st) : log_st :=
  let l := lo s in
  set_lo (mkLog (lg_lock l) (lg_start l) (lg_outstanding l) (lg_committing l) v (lg_n l) (lg_block l)) s.
Definition set_lg_n (v : Z) (s : log_st) : log_st :=
  let l := lo s in
  set_lo (mkLog (lg_lock l) (lg_start l) (lg_outstanding l) (lg_committing l) (lg_dev l) v (lg_block l)) s.
Definition set_lg_block (v : list Z) (s : log_st) : log_st :=
  let l := lo s in
  set_lo (mkLog (lg_lock l) (lg_start l) (lg_outstanding l) (lg_committing l) (lg_dev l) (lg_n l) v) s.

(** The cache routines on this state. *)
Definition in_bio {X} (c : M (bio A) X) : M log_st X := zoom lo_bio set_lo_bio c.
Definition buf_data (b : Z) : M log_st (list Z) := in_bio (bf ← get_buf b; mret (b_data bf)).

(** [log.lh.block[i]] *)
Definition lh_block (i : Z) : M log_st Z := l ← gets lo; arr_get (lg_block l) i.
Definition set_lh_block (i v : Z) : M log_st unit :=
  l ← gets lo; bs ← of_arr (arr_set (lg_block l) i v); modify (set_lg_block bs).

(** ** The routines of log.c *)

(** [for (tail = 0; tail < log.lh.n; tail++)] *)
Fixpoint install_loop (fuel : nat) (recovering : bool) (tail : Z) : M log_st unit :=
  match fuel with
  | O => out_of_fuel
  | S fuel =>
      l ← gets lo;
      if tail <? lg_n l then
        lbuf ← in_bio (bread (lg_dev l) (u32 (lg_start l + tail + 1)));
        dst ← lh_block tail;
        dbuf ← in_bio (bread (lg_dev l) (u32 dst));
        src ← buf_data lbuf;
        in_bio (store_data dbuf (fun _ => src));;
        in_bio (bwrite dbuf);;
        (if recovering then mret tt else in_bio (bunpin dbuf));;
        in_bio (brelse lbuf);;
        in_bio (brelse dbuf);;
        install_loop fuel recovering (tail + 1)
      else mret tt
  end.

Definition install_trans (recovering : bool) : M log_st unit :=
  l ← gets lo; install_loop (S (Z.to_nat (lg_n l))) recovering 0.

Fixpoint read_head_loop (fuel : nat) (hd : list Z) (i : Z) : M log_st unit :=
  match fuel with
  | O => out_of_fuel
  | S fuel =>
      l ← gets lo;
      if i <? lg_n l then set_lh_block i (rd32 hd (4 + 4 * i));; read_head_loop fuel hd (i + 1)
      else mret tt
  end.

Definition read_head : M log_st unit :=
  l ← gets lo;
  b ← in_bio (bread (lg_dev l) (u32 (lg_start l)));
  hd ← buf_data b;
  modify (set_lg_n (rd32 hd 0));;
  read_head_loop (S (Z.to_nat (rd32 hd 0))) hd 0;;
  in_bio (brelse b).

Fixpoint write_head_loop (fuel : nat) (b i : Z) : M log_st unit :=
  match fuel with
  | O => out_of_fuel
  | S fuel =>
      l ← gets lo;
      if i <? lg_n l then
        v ← lh_block i;
        in_bio (store_data b (fun d => wr32 d (4 + 4 * i) v));;
        write_head_loop fuel b (i + 1)
      else mret tt
  end.

Definition write_head : M log_st unit :=
  l ← gets lo;
  b ← in_bio (bread (lg_dev l) (u32 (lg_start l)));
  in_bio (store_data b (fun d => wr32 d 0 (lg_n l)));;
  write_head_loop (S (Z.to_nat (lg_n l))) b 0;;
  in_bio (bwrite b);;
  in_bio (brelse b).

Definition recover_from_log : M log_st unit :=
  read_head;;
  install_trans true;;
  modify (set_lg_n 0);;
  write_head.

Definition initlog (dev : Z) (sb : superblock) : M log_st unit :=
  (if sizeof_logheader >=? BSIZE then panic "initlog: too big logheader" else mret tt);;
  modify (set_lg_lock (initlock "log"));;
  modify (set_lg_start (s32 (sb_logstart sb)));;
  modify (set_lg_dev dev);;
  recover_from_log.

Definition begin_op : M log_st unit :=
  acquire_in get_lg_lock set_lg_lock;;
  l ← gets lo;
  if negb (lg_committing l =? 0) then blocked "sleep"
  else if lg_n l + (lg_outstanding l + 1) * MAXOPBLOCKS >? LOGBLOCKS then blocked "sleep"
  else
    modify (set_lg_outstanding (lg_outstanding l + 1));;
    release_in get_lg_lock set_lg_lock.

Fixpoint write_log_loop (fuel : nat) (tail : Z) : M log_st unit :=
  match fuel with
  | O => out_of_fuel
  | S fuel =>
      l ← gets lo;
      if tail <? lg_n l then
        to ← in_bio (bread (lg_dev l) (u32 (lg_start l + tail + 1)));
        src ← lh_block tail;
        from ← in_bio (bread (lg_dev l) (u32 src));
        d ← buf_data from;
        in_bio (store_data to (fun _ => d));;
        in_bio (bwrite to);;
        in_bio (brelse from);;
        in_bio (brelse to);;
        write_log_loop fuel (tail + 1)
      else mret tt
  end.

Definition write_log : M log_st unit :=
  l ← gets lo; write_log_loop (S (Z.to_nat (lg_n l))) 0.

Definition commit : M log_st unit :=
  l ← gets lo;
  if lg_n l >? 0 then
    write_log;;
    write_head;;
    install_trans false;;
    modify (set_lg_n 0);;
    write_head
  else mret tt.

Definition end_op : M log_st unit :=
  acquire_in get_lg_lock set_lg_lock;;
  l ← gets lo;
  modify (set_lg_outstanding (lg_outstanding l - 1));;
  (if negb (lg_committing l =? 0) then panic "log.committing" else mret tt);;
  let do_commit := lg_outstanding l - 1 =? 0 in
  (if do_commit then modify (set_lg_committing 1) else mret tt);;
  release_in get_lg_lock set_lg_lock;;
  if do_commit then
    commit;;
    acquire_in get_lg_lock set_lg_lock;;
    modify (set_lg_committing 0);;
    release_in get_lg_lock set_lg_lock
  else mret tt.

(** [for (i = 0; i < log.lh.n; i++) if (log.lh.block[i] == b->blockno) break;] *)
Fixpoint absorb_loop (fuel : nat) (blockno i : Z) : M log_st Z :=
  match fuel with
  | O => out_of_fuel
  | S fuel =>
      l ← gets lo;
      if i <? lg_n l then
        v ← lh_block i;
        if u32 v =? blockno then mret i else absorb_loop fuel blockno (i + 1)
      else mret i
  end.

Definition log_write (b : Z) : M log_st unit :=
  acquire_in get_lg_lock set_lg_lock;;
  l ← gets lo;
  (if lg_n l >=? LOGBLOCKS then panic "too big a transaction" else mret tt);;
  (if lg_outstanding l <? 1 then panic "log_write outside of trans" else mret tt);;
  bf ← in_bio (get_buf b);
  i ← absorb_loop (S (Z.to_nat (lg_n l))) (b_blockno bf) 0;
  set_lh_block i (s32 (b_blockno bf));;
  (if i =? lg_n l then in_bio (bpin b);; modify (set_lg_n (lg_n l + 1)) else mret tt);;
  release_in get_lg_lock set_lg_lock.

End Log.
Arguments log_st A : clear implicits.
