(* ===== verification/LogSpec.v ===== *)
(** * What the log promises

    Pure reasoning about the disk: a log starting at block [st] has a header
    block and LOGBLOCKS data blocks.  [recovered d] is the disk that recovery
    makes of [d].  [commit_writes] is the order in which a commit writes
    blocks; a crash leaves the disk after some prefix of those writes, and
    every such disk recovers to the state before or after the whole
    transaction.  Single block writes are atomic. *)

From Stdlib Require Import ZArith Lia Bool String.
From stdpp Require Import base gmap list strings functions sets.
From S2P Require Import Prelude Mem Spinlock Sleeplock ObjCache Bio BioProof Log.

(** ** Sequences of block writes *)

Definition write := (Z * list Z)%type.

Fixpoint apply_writes (W : list write) (d : blocks) : blocks :=
  match W with [] => d | (b, x) :: W => apply_writes W (<[b := x]> d) end.

Lemma apply_writes_app W W' d : apply_writes (W ++ W') d = apply_writes W' (apply_writes W d).
Proof. revert d. induction W as [|[b x] W IH]; intros d; simpl; auto. Qed.

Lemma apply_writes_notin W d b : b ∉ W.*1 -> apply_writes W d !! b = d !! b.
Proof.
  revert d. induction W as [|[c x] W IH]; intros d Hb; simpl in *; [done|].
  apply not_elem_of_cons in Hb as [Hne Hb]. rewrite IH by done. by rewrite lookup_insert_ne.
Qed.

(** What a sequence writes does not depend on what was there. *)
Lemma apply_writes_in W d d' b : b ∈ W.*1 -> apply_writes W d !! b = apply_writes W d' !! b.
Proof.
  revert d d'. induction W as [|[c x] W IH]; intros d d' Hb; simpl in *; [by apply elem_of_nil in Hb|].
  destruct (decide (b ∈ W.*1)) as [Hin|Hnin]; [by apply IH|].
  apply elem_of_cons in Hb as [->|?]; [|done]. by rewrite !apply_writes_notin, !lookup_insert_eq.
Qed.

Lemma apply_writes_agree W d d' b :
  (b ∉ W.*1 -> d !! b = d' !! b) -> apply_writes W d !! b = apply_writes W d' !! b.
Proof.
  intros Hb. destruct (decide (b ∈ W.*1)) as [Hin|Hnin]; [by apply apply_writes_in|].
  by rewrite !apply_writes_notin, Hb.
Qed.

(** Repeating a partly done sequence completes it. *)
Lemma apply_writes_redo W P d b : P `prefix_of` W -> apply_writes W (apply_writes P d) !! b = apply_writes W d !! b.
Proof.
  intros [W' ->]. apply apply_writes_agree. intros Hb. apply apply_writes_notin.
  intros Hin. apply Hb. rewrite fmap_app. apply elem_of_app. by left.
Qed.

Lemma apply_writes_dom W d b :
  (forall c, c ∈ W.*1 -> is_Some (d !! c)) -> is_Some (apply_writes W d !! b) <-> is_Some (d !! b).
Proof.
  revert d. induction W as [|[c x] W IH]; intros d Hd; simpl in *; [done|]. rewrite IH.
  - rewrite lookup_insert_is_Some. destruct (decide (c = b)) as [->|?]; [|naive_solver].
    split; [|auto]. intros _. apply Hd. by left.
  - intros c' Hc'. rewrite lookup_insert_is_Some. destruct (decide (c = c')); [by left|right].
    split; [done|]. apply Hd. by right.
Qed.

Section Spec.
(** [log.start] *)
Context (st : Z).

Definition in_log (b : Z) : Prop := st <= b <= st + LOGBLOCKS.

Definition hdr (d : blocks) : list Z := default [] (d !! st).
Definition log_n (d : blocks) : Z := rd32 (hdr d) 0.
Definition log_dst (d : blocks) (i : Z) : Z := rd32 (hdr d) (4 + 4 * i).

(** The writes the on-disk log describes. *)
Definition log_entry (d : blocks) (i : Z) : write := (log_dst d i, default [] (d !! (st + 1 + i))).
Definition log_entries (d : blocks) : list write := log_entry d <$> seqZ 0 (log_n d).

Definition recovered (d : blocks) : blocks := apply_writes (log_entries d) d.

(** A header that recovery can follow. *)
Definition log_wf (d : blocks) : Prop :=
  0 <= log_n d <= LOGBLOCKS /\ forall i, 0 <= i < log_n d -> 0 <= log_dst d i /\ ~ in_log (log_dst d i).

(** Equal outside the log. *)
Definition same_data (d d' : blocks) : Prop := forall b, ~ in_log b -> d !! b = d' !! b.

#[export] Instance same_data_equiv : Equivalence same_data.
Proof.
  split; [by intros d b|intros d d' H b Hb; by rewrite H|].
  intros d1 d2 d3 H H' b Hb. by rewrite H, H'.
Qed.

Lemma log_entries_fst d b : b ∈ (log_entries d).*1 -> exists i, 0 <= i < log_n d /\ b = log_dst d i.
Proof.
  unfold log_entries. rewrite <- list_fmap_compose. intros (i & -> & Hi)%list_elem_of_fmap.
  apply elem_of_seqZ in Hi. exists i. split; [lia|done].
Qed.

Lemma recovered_nil d : log_n d = 0 -> recovered d = d.
Proof. intros E. unfold recovered, log_entries. by rewrite E. Qed.

(** The log area decides what recovery does. *)
Lemma log_entries_ext d d' :
  (forall b, in_log b -> d !! b = d' !! b) -> log_n d <= LOGBLOCKS -> log_entries d = log_entries d'.
Proof.
  intros H Hn. assert (hdr d = hdr d') as Eh by (unfold hdr; rewrite H; [done|unfold in_log, LOGBLOCKS, MAXOPBLOCKS; lia]).
  unfold log_entries, log_n. rewrite <- Eh. apply list_fmap_ext. intros k i Hk. apply lookup_seqZ in Hk as [-> Hk].
  unfold log_entry, log_dst. rewrite <- Eh, H; [done|]. unfold in_log, log_n in *. lia.
Qed.

Lemma recovered_ext d d' :
  (forall b, in_log b -> d !! b = d' !! b) -> log_n d <= LOGBLOCKS -> same_data d d' ->
  same_data (recovered d) (recovered d').
Proof.
  intros H Hn Hd b Hb. unfold recovered. rewrite (log_entries_ext d d') by done.
  apply apply_writes_agree. intros _. by apply Hd.
Qed.

(** ** Recovery can itself be interrupted *)

(** A block that starts with a zero count. *)
Definition empty_header (h : list Z) : Prop := rd32 h 0 = 0.

Definition recover_writes (d : blocks) (h0 : list Z) : list write := log_entries d ++ [(st, h0)].

Lemma prefix_snoc {X} (P W : list X) w : P `prefix_of` W ++ [w] -> P `prefix_of` W \/ P = W ++ [w].
Proof.
  intros [T E]. destruct (list_case_last T) as [->|(T' & x & ->)].
  - right. by rewrite app_nil_r in E.
  - left. rewrite app_assoc in E. apply app_inj_tail in E as [-> _]. by exists T'.
Qed.

Lemma prefix_app_cases {X} (P W W' : list X) :
  P `prefix_of` W ++ W' -> P `prefix_of` W \/ exists P', P = W ++ P' /\ P' `prefix_of` W'.
Proof.
  intros [T E]. apply app_eq_inv in E as [(k & -> & _)|(k & -> & ->)]; [left; by exists k|right].
  exists k. split; [done|by exists T].
Qed.

Lemma recover_prefix d h0 P :
  log_wf d -> empty_header h0 -> P `prefix_of` recover_writes d h0 ->
  log_wf (apply_writes P d) /\ same_data (recovered (apply_writes P d)) (recovered d).
Proof.
  intros [Hn Hwf] Hh [HP|HP]%prefix_snoc.
  - assert (forall b, in_log b -> apply_writes P d !! b = d !! b) as Hlog.
    { intros b Hb. apply apply_writes_notin. intros Hin. destruct HP as [T E].
      destruct (log_entries_fst d b) as (i & Hi & ->); [rewrite E, fmap_app; apply elem_of_app; by left|].
      by apply (Hwf i Hi). }
    assert (hdr (apply_writes P d) = hdr d) as Eh by (unfold hdr; rewrite Hlog; [done|unfold in_log, LOGBLOCKS, MAXOPBLOCKS; lia]).
    split; [unfold log_wf, log_n, log_dst in *; by rewrite Eh|].
    intros b Hb. unfold recovered.
    rewrite (log_entries_ext (apply_writes P d) d); [|done|unfold log_n; rewrite Eh; apply Hn].
    by apply apply_writes_redo.
  - subst P. unfold recover_writes. rewrite apply_writes_app. fold (recovered d). simpl.
    assert (log_n (<[st := h0]> (recovered d)) = 0) as E0 by (unfold log_n, hdr; by rewrite lookup_insert_eq).
    split.
    + split; [unfold LOGBLOCKS, MAXOPBLOCKS; lia|lia].
    + rewrite recovered_nil by done. intros b Hb. rewrite lookup_insert_ne; [done|].
      intros <-. apply Hb. unfold in_log, LOGBLOCKS, MAXOPBLOCKS. lia.
Qed.

(** ** Commit *)

(** Copies into the log, the header, the home locations, the empty header. *)
Definition log_copies (bs : list Z) (a : blocks) : list write :=
  imap (fun i b => (st + 1 + Z.of_nat i, default [] (a !! b))) bs.
Definition homes (bs : list Z) (a : blocks) : list write := (fun b => (b, default [] (a !! b))) <$> bs.
Definition commit_writes (bs : list Z) (a : blocks) (h h0 : list Z) : list write :=
  (log_copies bs a ++ [(st, h)]) ++ (homes bs a ++ [(st, h0)]).

(** A header that lists [bs]. *)
Definition header_of (bs : list Z) (h : list Z) : Prop :=
  rd32 h 0 = Z.of_nat (length bs) /\
  forall i b, bs !! i = Some b -> rd32 h (4 + 4 * Z.of_nat i) = b.

Record txn (bs : list Z) : Prop := {
  tx_len : Z.of_nat (length bs) <= LOGBLOCKS;
  tx_home : forall b, b ∈ bs -> 0 <= b /\ ~ in_log b
}.

Lemma log_copies_fst bs a b : b ∈ (log_copies bs a).*1 -> st + 1 <= b <= st + Z.of_nat (length bs).
Proof.
  unfold log_copies. intros ([c x] & -> & Hc)%list_elem_of_fmap.
  apply elem_of_lookup_imap in Hc as (i & y & [= -> _] & Hi). apply lookup_lt_Some in Hi. simpl. lia.
Qed.

Lemma log_copies_lookup bs a d i b :
  bs !! i = Some b -> apply_writes (log_copies bs a) d !! (st + 1 + Z.of_nat i) = Some (default [] (a !! b)).
Proof.
  intros Hi. rewrite <- (take_drop_middle bs i b Hi). unfold log_copies. rewrite imap_app, apply_writes_app.
  pose proof (lookup_lt_Some _ _ _ Hi) as Hlt. rewrite length_take_le by lia. simpl.
  rewrite apply_writes_notin; [by rewrite Nat.add_0_r, lookup_insert_eq|].
  intros ([c x] & E & Hc)%list_elem_of_fmap. apply elem_of_lookup_imap in Hc as (j & y & [= -> _] & _). simpl in E. lia.
Qed.

Lemma homes_fst bs a : (homes bs a).*1 = bs.
Proof. unfold homes. rewrite <- list_fmap_compose. by rewrite list_fmap_id. Qed.

Lemma homes_lookup bs a d c x :
  NoDup bs -> c ∈ bs -> a !! c = Some x -> apply_writes (homes bs a) d !! c = Some x.
Proof.
  revert d. induction bs as [|f bs IH]; intros d Hnd Hc Hx; [by apply elem_of_nil in Hc|].
  apply list.NoDup_cons in Hnd as [Hf Hnd]. cbn [homes fmap list_fmap apply_writes]. fold (homes bs a).
  destruct (decide (c ∈ bs)) as [Hin|Hnin]; [by apply IH|]. apply elem_of_cons in Hc as [->|?]; [|done].
  rewrite apply_writes_notin by (by rewrite homes_fst). by rewrite lookup_insert_eq, Hx.
Qed.

(** Once the header is down, the log describes exactly the transaction. *)
Lemma log_entries_committed bs a h d :
  txn bs -> header_of bs h -> log_entries (apply_writes (log_copies bs a ++ [(st, h)]) d) = homes bs a.
Proof.
  intros [Hlen Hhome] [Hh0 Hh]. rewrite apply_writes_app. simpl. set (d' := apply_writes (log_copies bs a) d).
  assert (hdr (<[st := h]> d') = h) as Eh by (unfold hdr; by rewrite lookup_insert_eq).
  unfold log_entries, log_n. rewrite Eh, Hh0. apply list_eq. intros i. rewrite list_lookup_fmap.
  destruct (decide (i < length bs)%nat) as [Hi|Hi].
  - destruct (lookup_lt_is_Some_2 bs i Hi) as [b Hb]. rewrite lookup_seqZ_lt by lia. unfold homes.
    rewrite list_lookup_fmap, Hb. cbn [fmap option_fmap option_map]. f_equal. unfold log_entry, log_dst. rewrite Eh.
    replace (0 + Z.of_nat i) with (Z.of_nat i) by lia. rewrite (Hh i b Hb), lookup_insert_ne by lia.
    unfold d'. by rewrite (log_copies_lookup bs a d i b).
  - rewrite lookup_seqZ_ge by lia. unfold homes. rewrite list_lookup_fmap, lookup_ge_None_2 by lia. done.
Qed.

(** Writes to home locations do not touch the log. *)
Lemma homes_log bs a P d b : txn bs -> P `prefix_of` homes bs a -> in_log b -> apply_writes P d !! b = d !! b.
Proof.
  intros [_ Hhome] [T E] Hb. apply apply_writes_notin. intros Hin.
  assert (b ∈ bs) as Hbs by (rewrite <- (homes_fst bs a), E, fmap_app; apply elem_of_app; by left).
  by apply (Hhome b Hbs).
Qed.

Lemma log_wf_of d bs : txn bs -> header_of bs (hdr d) -> log_wf d.
Proof.
  intros [Hlen Hhome] [H0 Hh]. unfold log_wf, log_n. rewrite H0. split; [lia|]. intros i Hi.
  destruct (lookup_lt_is_Some_2 bs (Z.to_nat i)) as [b Hb]; [lia|]. unfold log_dst.
  pose proof (Hh _ _ Hb) as E. rewrite Z2Nat.id in E by lia. rewrite E. apply Hhome. by eapply list_elem_of_lookup_2.
Qed.

Lemma log_wf_zero d : log_n d = 0 -> log_wf d.
Proof. intros E. split; rewrite E; [unfold LOGBLOCKS, MAXOPBLOCKS; lia|lia]. Qed.

Lemma same_data_copies bs a d P : txn bs -> P `prefix_of` log_copies bs a -> same_data (apply_writes P d) d.
Proof.
  intros [Hlen _] [T E] b Hb. apply apply_writes_notin. intros Hin. apply Hb.
  pose proof (log_copies_fst bs a b) as Hr. unfold in_log.
  destruct Hr; [rewrite E, fmap_app; apply elem_of_app; by left|]. lia.
Qed.

Lemma hdr_copies bs a d P : txn bs -> P `prefix_of` log_copies bs a -> hdr (apply_writes P d) = hdr d.
Proof.
  intros [Hlen _] [T E]. unfold hdr. rewrite apply_writes_notin; [done|]. intros Hin.
  destruct (log_copies_fst bs a st); [rewrite E, fmap_app; apply elem_of_app; by left|]. lia.
Qed.

Lemma same_data_header d h : same_data (<[st := h]> d) d.
Proof.
  intros b Hb. rewrite lookup_insert_ne; [done|]. intros <-. apply Hb. unfold in_log, LOGBLOCKS, MAXOPBLOCKS. lia.
Qed.

Lemma same_data_apply W d d' : same_data d d' -> same_data (apply_writes W d) (apply_writes W d').
Proof. intros H b Hb. apply apply_writes_agree. intros _. by apply H. Qed.

(** A disk in the middle of a commit: the log is as it was, or it describes
    the whole transaction, or the transaction is installed and the log empty
    again. *)
Lemma commit_prefix bs a h h0 d P :
  txn bs -> header_of bs h -> empty_header h0 -> log_n d = 0 -> P `prefix_of` commit_writes bs a h h0 ->
  log_wf (apply_writes P d) /\
  (same_data (recovered (apply_writes P d)) d \/
   same_data (recovered (apply_writes P d)) (apply_writes (homes bs a) d)).
Proof.
  intros Ht Hh Hh0 Hd HP. unfold commit_writes in HP.
  assert (P `prefix_of` log_copies bs a \/
    exists P3, P = (log_copies bs a ++ [(st, h)]) ++ P3 /\ P3 `prefix_of` homes bs a ++ [(st, h0)]) as [HP1|(P3 & -> & HP3)].
  { destruct (prefix_app_cases _ _ _ HP) as [HP'|(P3 & -> & HP')]; [|right; eauto].
    apply prefix_snoc in HP' as [?| ->]; [by left|right]. exists []. rewrite app_nil_r. split; [done|apply prefix_nil]. }
  - assert (log_n (apply_writes P d) = 0) as E by (unfold log_n; by rewrite (hdr_copies bs a d P Ht HP1)).
    split; [by apply log_wf_zero|]. left. rewrite recovered_nil by done. by apply (same_data_copies bs a).
  - rewrite apply_writes_app. set (d1 := apply_writes (log_copies bs a ++ [(st, h)]) d).
    assert (hdr d1 = h) as Eh1 by (unfold hdr, d1; rewrite apply_writes_app; simpl; by rewrite lookup_insert_eq).
    assert (same_data d1 d) as Hd1.
    { unfold d1. rewrite apply_writes_app. simpl. rewrite same_data_header. by apply (same_data_copies bs a). }
    apply prefix_snoc in HP3 as [HP3| ->].
    + assert (forall b, in_log b -> apply_writes P3 d1 !! b = d1 !! b) as Hlog by (intros b; by apply (homes_log bs a)).
      assert (hdr (apply_writes P3 d1) = h) as Eh3.
      { rewrite <- Eh1. unfold hdr. rewrite Hlog; [done|unfold in_log, LOGBLOCKS, MAXOPBLOCKS; lia]. }
      split; [apply (log_wf_of _ bs); [done|by rewrite Eh3]|]. right.
      assert (log_entries (apply_writes P3 d1) = homes bs a) as El.
      { rewrite (log_entries_ext _ d1); [by apply log_entries_committed|done|].
        unfold log_n. rewrite Eh3, (proj1 Hh). apply Ht. }
      intros b Hb. unfold recovered. rewrite El, apply_writes_redo by done. by apply same_data_apply.
    + rewrite apply_writes_app. simpl. set (d2 := <[st := h0]> _).
      assert (log_n d2 = 0) as E by (unfold log_n, hdr, d2; by rewrite lookup_insert_eq).
      split; [by apply log_wf_zero|]. right. rewrite recovered_nil by done.
      unfold d2. rewrite same_data_header. by apply same_data_apply.
Qed.

End Spec.
