(* ===== verification/LogProof.v ===== *)
(** * The log: proof rules for the routines of log.c

    Each routine is shown to perform a definite sequence of disk writes
    ([wrote]) while keeping the cache representation. *)

From Stdlib Require Import ZArith Lia Bool String.
From stdpp Require Import base gmap list strings functions sets.
From S2P Require Import Prelude Mem Spinlock Sleeplock ObjCache Bio BioProof Log LogSpec.

(** ** Integers in blocks *)

Lemma byte_at_put d i j v :
  0 <= i < Z.of_nat (length d) -> 0 <= j ->
  byte_at (put_byte d i v) j = if decide (i = j) then v mod 256 else byte_at d j.
Proof.
  intros Hi Hj. unfold byte_at, put_byte. rewrite !nth_lookup. case_decide as E.
  - subst. rewrite list_lookup_insert_eq by lia. done.
  - rewrite list_lookup_insert_ne by lia. done.
Qed.

Lemma length_put_byte d i v : length (put_byte d i v) = length d.
Proof. apply length_insert. Qed.

Lemma length_wr32 d off v : length (wr32 d off v) = length d.
Proof. unfold wr32. by rewrite !length_put_byte. Qed.

Lemma byte_at_wr32 d off v j :
  0 <= off -> off + 4 <= Z.of_nat (length d) -> 0 <= j ->
  byte_at (wr32 d off v) j =
    if decide (j = off) then v mod 256 else if decide (j = off + 1) then v / 256 mod 256
    else if decide (j = off + 2) then v / 65536 mod 256 else if decide (j = off + 3) then v / 16777216 mod 256
    else byte_at d j.
Proof.
  intros Ho Hl Hj. unfold wr32. rewrite !byte_at_put by (rewrite ?length_put_byte; lia).
  repeat case_decide; try lia; done.
Qed.

Lemma rd32_wr32 d off v :
  0 <= off -> off + 4 <= Z.of_nat (length d) -> rd32 (wr32 d off v) off = s32 v.
Proof.
  intros Ho Hl. unfold rd32, rd32u. rewrite !byte_at_wr32 by lia.
  repeat (case_decide; try lia).
  replace (v mod 256 + 256 * (v / 256 mod 256 + 256 * (v / 65536 mod 256 + 256 * (v / 16777216 mod 256))))
    with (u32 v) by (unfold u32; zdiv).
  apply s32_u32.
Qed.

Lemma rd32_wr32_ne d off off' v :
  0 <= off -> off + 4 <= Z.of_nat (length d) -> 0 <= off' -> off + 4 <= off' \/ off' + 4 <= off ->
  rd32 (wr32 d off v) off' = rd32 d off'.
Proof.
  intros Ho Hl Ho' Hd. unfold rd32, rd32u. rewrite !byte_at_wr32 by lia. repeat (rewrite decide_False by lia). done.
Qed.

(** Lookups in updated reference counts. *)
Ltac fn_simpl :=
  repeat match goal with
  | |- context [(<[?i := ?v]> ?g) ?j] =>
      first [rewrite (fn_lookup_insert g i v)|rewrite (fn_lookup_insert_ne g i j v) by (done || congruence || lia)]
  end.

Section Rules.
Context {A : Type} `{HM : HasMach A} {OC : ObjCache A}.

(** ** Derived cache rules *)

Definition need (r : Z) : nat := if r =? 0 then 1%nat else 0%nat.

Lemma need_pos r : 0 < r -> need r = 0%nat.
Proof. intros. unfold need. by replace (r =? 0) with false by lia. Qed.

Lemma rep_mono (s : bio A) a R H n n' : bio_rep s a R H n -> (n' <= n)%nat -> bio_rep s a R H n'.
Proof.
  intros [C1 C2 C3 C4 C5 (room & Ho & Hn)] Hle. split; try done. exists room. split; [done|lia].
Qed.

(** A routine that made the writes [W] and nothing else visible: it starts
    and ends with no block locked. *)
Record wrote (s s' : bio A) (a : blocks) (R' : Z -> Z) (n : nat) (W : list write) : Prop := {
  wr_rep : bio_rep s' (apply_writes W a) R' ∅ n;
  wr_dsk : dsk s' = apply_writes W (dsk s);
  wr_log : dlog s' = dlog s ++ W;
  wr_hart : hart_same (hart_of s) (hart_of s');
  wr_pid : cur_pid s' = cur_pid s
}.

Lemma wrote_nil s a R n : bio_rep s a R ∅ n -> wrote s s a R n [].
Proof. intros. split; try done. by rewrite app_nil_r. Qed.

Lemma wrote_app s1 s2 s3 a R' R'' n n' W W' :
  wrote s1 s2 a R' n W -> wrote s2 s3 (apply_writes W a) R'' n' W' -> wrote s1 s3 a R'' n' (W ++ W').
Proof.
  intros [A1 A2 A3 A4 A5] [B1 B2 B3 B4 B5]. split; rewrite ?apply_writes_app.
  - done.
  - by rewrite B2, A2.
  - by rewrite B3, A3, app_assoc.
  - by rewrite A4.
  - congruence.
Qed.

(** The read side of the rules, with [need]. *)
Lemma wp_bread' (s : bio A) a R H n b Q :
  bio_rep s a R H n -> b ∉ H -> is_Some (a !! b) -> R b < 2 ^ 31 -> (need (R b) <= n)%nat ->
  (forall x s', bio_rep s' a (take_ref R b) ({[b]} ∪ H) (n - need (R b)) ->
     at_buf s' x b -> undisturbed s s' -> kept R s s' -> Q x s') ->
  wp (bread ROOTDEV b) Q s.
Proof.
  intros Hr Hb Ha HR Hn HQ. unfold need in *. eapply wp_bread; [done|done|done|lia| |].
  - intros E. rewrite E in Hn. simpl in Hn. lia.
  - intros x s' Hr' Hat Hu Hk. apply HQ; [|done..]. destruct (R b =? 0); eapply rep_mono; try done; lia.
Qed.

Lemma wp_brelse' (s : bio A) a R H n x b Q :
  bio_rep s a R H n -> b ∈ H -> at_buf s x b -> R b < 2 ^ 31 -> (R b = 1 -> is_Some (a !! b) -> dsk s !! b = a !! b) ->
  (forall s', bio_rep s' a (<[b := R b - 1]> R) (H ∖ {[b]}) (n + need (R b - 1)) ->
     undisturbed s s' -> kept (<[b := R b - 1]> R) s s' -> Q tt s') ->
  wp (brelse x) Q s.
Proof.
  intros Hr Hb Hat HR Hcl HQ. eapply wp_brelse; [done|done|done|lia|done|]. intros s' Hr' Hu Hk.
  apply HQ; [|done..]. unfold need. destruct (Z.eqb_spec (R b) 1), (Z.eqb_spec (R b - 1) 0); try lia;
    eapply rep_mono; try done; lia.
Qed.

(** ** The in-memory log *)

Context (st : Z).
Hypothesis st_range : 0 <= st /\ st + LOGBLOCKS < 2 ^ 31.

(** [log.lh] lists the blocks [bs]. *)
Record lists (s : log_st A) (bs : list Z) : Prop := {
  li_dev : lg_dev (lo s) = ROOTDEV;
  li_start : lg_start (lo s) = st;
  li_n : lg_n (lo s) = Z.of_nat (length bs);
  li_len : Z.of_nat (length (lg_block (lo s))) = LOGBLOCKS;
  li_blocks : bs `prefix_of` lg_block (lo s)
}.

Lemma lists_bio s bs b : lists s bs -> lists (set_lo_bio b s) bs.
Proof. by intros [? ? ? ? ?]. Qed.

Lemma lists_max s bs : lists s bs -> Z.of_nat (length bs) <= LOGBLOCKS.
Proof. intros [_ _ _ Hl Hb]. apply prefix_length in Hb. lia. Qed.

Lemma wp_in_bio {X} (c : M (bio A) X) Q (s : log_st A) :
  wp c (fun x b => Q x (set_lo_bio b s)) (lo_bio s) -> wp (in_bio c) Q s.
Proof. apply wp_zoom. Qed.

Lemma wp_lh_block s bs i b Q :
  lists s bs -> bs !! i = Some b -> Q b s -> wp (lh_block (Z.of_nat i)) Q s.
Proof.
  intros Hl Hb HQ. unfold lh_block. wp_step. apply wp_gets. eapply wp_arr_get; [lia| |exact HQ].
  rewrite Nat2Z.id. destruct (li_blocks _ _ Hl) as [t ->]. by apply lookup_app_l_Some.
Qed.

Lemma wp_buf_data s a R H n x b d Q :
  bio_rep (lo_bio s) a R H n -> at_buf (lo_bio s) x b -> a !! b = Some d -> Q d s -> wp (buf_data x) Q s.
Proof.
  intros Hr Hat Ha HQ. destruct (at_buf_ok _ _ _ _ _ _ _ Hr Hat) as (bf & Hx & _ & _ & _ & _ & Ha' & _).
  rewrite Ha in Ha'. injection (Ha' ltac:(done)) as ->. apply wp_in_bio. wp_step. eapply wp_get_buf; [done|]. wp_step.
  by destruct s.
Qed.

(** The log area: cached copies agree with the disk and nobody refers to
    them. *)
Definition log_clean (b : bio A) (a : blocks) (R : Z -> Z) : Prop :=
  forall c, in_log st c -> R c = 0 /\ is_Some (a !! c) /\ dsk b !! c = a !! c.

(** A block the transaction may name. *)
Definition loggable (a : blocks) (R : Z -> Z) (c : Z) : Prop :=
  is_Some (a !! c) /\ ~ in_log st c /\ 0 <= c < 2 ^ 31 /\ 0 <= R c < 2 ^ 30.

Lemma log_clean_write b b' a R c x :
  log_clean b a R -> dsk b' = <[c := x]> (dsk b) -> log_clean b' (<[c := x]> a) R.
Proof.
  intros Hc E k Hk. destruct (Hc k Hk) as (H1 & H2 & H3). split; [done|]. rewrite E.
  destruct (decide (c = k)) as [->|Hne]; [by rewrite !lookup_insert_eq; eauto|by rewrite !lookup_insert_ne].
Qed.

(** The copies [write_log] makes from position [k] on. *)
Definition copies_from (k : nat) (bs : list Z) (a : blocks) : list write :=
  imap (fun i b => (st + 1 + Z.of_nat (k + i), default [] (a !! b))) bs.

Lemma copies_from_cons k b bs a :
  copies_from k (b :: bs) a = (st + 1 + Z.of_nat k, default [] (a !! b)) :: copies_from (Datatypes.S k) bs a.
Proof.
  unfold copies_from. simpl. rewrite Nat.add_0_r. f_equal. apply imap_ext. intros i x _. simpl.
  do 2 f_equal. lia.
Qed.

Lemma copies_from_ext k bs a a' :
  (forall b, b ∈ bs -> a' !! b = a !! b) -> copies_from k bs a' = copies_from k bs a.
Proof. intros H. apply imap_ext. intros i x Hi. simpl. rewrite H; [done|]. by eapply list_elem_of_lookup_2. Qed.

(** ** write_log *)

Lemma in_log_data i : 0 <= i < LOGBLOCKS -> in_log st (st + 1 + i).
Proof. unfold in_log. lia. Qed.

(** One round of [write_log]: log block [t] becomes a copy of block [f]. *)
Lemma wp_write_log_round (s : log_st A) a R n bs i f x (k : M (log_st A) unit) Q :
  lists s bs -> bs !! i = Some f -> bio_rep (lo_bio s) a R ∅ n -> (1 <= n)%nat ->
  log_clean (lo_bio s) a R -> loggable a R f -> 1 <= R f -> a !! f = Some x ->
  (forall b', wrote (lo_bio s) b' a R n [(st + 1 + Z.of_nat i, x)] -> wp k Q (set_lo_bio b' s)) ->
  wp (to ← in_bio (bread (lg_dev (lo s)) (u32 (lg_start (lo s) + Z.of_nat i + 1)));
      src ← lh_block (Z.of_nat i);
      from ← in_bio (bread (lg_dev (lo s)) (u32 src));
      d ← buf_data from;
      in_bio (store_data to (fun _ => d));;
      in_bio (bwrite to);;
      in_bio (brelse from);;
      in_bio (brelse to);;
      k) Q s.
Proof.
  intros Hl Hi Hr Hn Hcl (Hf1 & Hf2 & Hf3 & Hf4) HRf Hx HQ. pose proof (lists_max _ _ Hl) as Hmax.
  pose proof (lookup_lt_Some _ _ _ Hi) as Hlt. rewrite (li_dev _ _ Hl), (li_start _ _ Hl).
  set (t := st + 1 + Z.of_nat i).
  replace (u32 (st + Z.of_nat i + 1)) with t by (unfold t; rewrite u32_small; unfold LOGBLOCKS, MAXOPBLOCKS in *; lia).
  assert (in_log st t) as Ht by (apply in_log_data; lia). destruct (Hcl t Ht) as (HRt & [old Hat] & Hdt).
  assert (t <> f) as Hne by (intros E; apply Hf2; by rewrite <- E).
  wp_step. apply wp_in_bio. eapply (wp_bread' _ _ _ _ _ t); [exact Hr|set_solver|by rewrite Hat|lia|rewrite HRt; exact Hn|].
  intros to b1 Hr1 Hto1 U1 K1. wp_step. eapply wp_lh_block; [by apply lists_bio|exact Hi|]. rewrite u32_small by lia.
  wp_step. apply wp_in_bio. eapply (wp_bread' _ _ _ _ _ f); [exact Hr1|set_solver|done| | |]; fn_simpl; [lia|rewrite need_pos by lia; lia|].
  intros fr b2 Hr2 Hfr2 U2 K2. assert (at_buf b2 to t) as Hto2 by (apply K2; [fn_simpl; lia|done]).
  wp_step. eapply (wp_buf_data _ _ _ _ _ fr f x); [exact Hr2|exact Hfr2|done|].
  wp_step. apply wp_in_bio. eapply (wp_store_data _ _ _ _ _ to t); [exact Hr2|set_solver|done|exact Hat|].
  intros b3 Hr3 U3 K3. wp_step. apply wp_in_bio.
  eapply (wp_bwrite _ _ _ _ _ to t x); [exact Hr3|set_solver|by apply K3|apply lookup_insert_eq|].
  intros b4 Hr4 Hh4 Hp4 Hd4 Hl4 K4. wp_step. apply wp_in_bio.
  eapply (wp_brelse' _ _ _ _ _ fr f); [exact Hr4|set_solver|by apply K4, K3| | |]; fn_simpl; [lia|lia|].
  intros b5 Hr5 U5 K5. wp_step. apply wp_in_bio.
  assert (at_buf b5 to t) as Hto5 by (apply K5; [fn_simpl; lia|by apply K4, K3]).
  eapply (wp_brelse' _ _ _ _ _ to t); [exact Hr5|set_solver|done| | |]; fn_simpl; [lia| |].
  { intros _. cbn [lo_bio set_lo_bio] in *. rewrite (un_dsk _ _ U5), Hd4, !lookup_insert_eq. done. }
  intros b6 Hr6 U6 _. apply HQ. cbn [lo_bio set_lo_bio] in *. destruct U1 as [A1 A2 A3 A4], U2 as [B1 B2 B3 B4], U3 as [C1 C2 C3 C4],
    U5 as [D1 D2 D3 D4], U6 as [E1 E2 E3 E4]. split.
  - eapply rep_mono; [eapply rep_ext; [exact Hr6| |set_solver]|].
    + intros c. destruct (decide (c = t)) as [->|Hct]; [|destruct (decide (c = f)) as [->|Hcf]]; fn_simpl; lia.
    + fn_simpl. rewrite HRt, !(need_pos (R f)), (need_pos (R f + 1 - 1)) by lia. unfold need. simpl. lia.
  - simpl. by rewrite E3, D3, Hd4, C3, B3, A3.
  - by rewrite E4, D4, Hl4, C4, B4, A4.
  - by rewrite A1, B1, C1, Hh4, D1.
  - simpl in *. congruence.
Qed.

Lemma wp_write_log_loop todo : forall done fuel (s : log_st A) a R n Q,
  lists s (done ++ todo) -> bio_rep (lo_bio s) a R ∅ n -> (1 <= n)%nat -> log_clean (lo_bio s) a R ->
  (forall c, c ∈ todo -> loggable a R c /\ 1 <= R c) -> (length todo < fuel)%nat ->
  (forall b', wrote (lo_bio s) b' a R n (copies_from (length done) todo a) -> Q tt (set_lo_bio b' s)) ->
  wp (write_log_loop fuel (Z.of_nat (length done))) Q s.
Proof.
  induction todo as [|f todo IH]; intros dn fuel s a R n Q Hl Hr Hn Hcl Hlg Hf HQ; (destruct fuel as [|fuel]; [simpl in Hf; lia|]);
    cbn [write_log_loop]; wp_step; apply wp_gets; rewrite (li_n _ _ Hl), length_app; cbn [length].
  - rewrite Nat.add_0_r, Z.ltb_irrefl. wp_step. specialize (HQ (lo_bio s)). destruct s. apply HQ. by apply wrote_nil.
  - rewrite (proj2 (Z.ltb_lt _ _)) by lia. destruct (Hlg f) as [Hlgf HRf]; [left|]. pose proof Hlgf as ([x Hx] & Hnl & _).
    eapply (wp_write_log_round _ a R n (dn ++ f :: todo) (length dn) f x); try done; [by apply list_lookup_middle|].
    intros b1 Hw. replace (Z.of_nat (length dn) + 1) with (Z.of_nat (length (dn ++ [f]))) by (rewrite length_app; simpl; lia).
    set (t := st + 1 + Z.of_nat (length dn)) in *. pose proof (lists_max _ _ Hl) as Hmax. rewrite length_app in Hmax. cbn [length] in Hmax.
    assert (in_log st t) as Ht by (apply in_log_data; lia).
    assert (forall c, c ∈ todo -> <[t := x]> a !! c = a !! c) as Hoff.
    { intros c Hc. rewrite lookup_insert_ne; [done|]. intros <-. destruct (Hlg t) as [(_ & Hn' & _) _]; [by right|done]. }
    eapply (IH (dn ++ [f]) fuel (set_lo_bio b1 s) (<[t := x]> a) R n).
    + rewrite <- app_assoc. by apply lists_bio.
    + apply Hw.
    + done.
    + eapply log_clean_write; [exact Hcl|]. apply Hw.
    + intros c Hc. destruct (Hlg c) as [(L1 & L2 & L3) L4]; [by right|]. split; [|done]. split; [by rewrite Hoff|done].
    + simpl in Hf. lia.
    + intros b2 Hw2. apply HQ. rewrite copies_from_cons, Hx. simpl.
      rewrite length_app, (copies_from_ext _ _ a) in Hw2 by done. simpl in Hw2. rewrite Nat.add_1_r in Hw2.
      exact (wrote_app _ _ _ _ _ _ _ _ _ _ Hw Hw2).
Qed.

Lemma wp_write_log (s : log_st A) bs a R n Q :
  lists s bs -> bio_rep (lo_bio s) a R ∅ n -> (1 <= n)%nat -> log_clean (lo_bio s) a R ->
  (forall c, c ∈ bs -> loggable a R c /\ 1 <= R c) ->
  (forall b', wrote (lo_bio s) b' a R n (log_copies st bs a) -> Q tt (set_lo_bio b' s)) ->
  wp write_log Q s.
Proof.
  intros Hl Hr Hn Hcl Hlg HQ. unfold write_log. wp_step. apply wp_gets.
  apply (wp_write_log_loop bs [] _ s a R n); try done. rewrite (li_n _ _ Hl). lia.
Qed.

(** ** install_trans *)

(** Dropping the last pin of a block frees its buffer. *)
Definition gain (recovering : bool) (r : Z) : nat := if recovering then 0%nat else need (r - 1).

(** One round of [install_trans]: the home location [f] gets the contents of
    its log block; after a commit its pin is dropped. *)
Lemma wp_install_round recovering (s : log_st A) a R n bs i f x (k : M (log_st A) unit) Q :
  lists s bs -> bs !! i = Some f -> bio_rep (lo_bio s) a R ∅ n -> (2 <= n)%nat ->
  log_clean (lo_bio s) a R -> loggable a R f -> (recovering = false -> 1 <= R f) ->
  a !! (st + 1 + Z.of_nat i) = Some x ->
  (forall b', wrote (lo_bio s) b' a (if recovering then R else <[f := R f - 1]> R) (n + gain recovering (R f)) [(f, x)] -> wp k Q (set_lo_bio b' s)) ->
  wp (lbuf ← in_bio (bread (lg_dev (lo s)) (u32 (lg_start (lo s) + Z.of_nat i + 1)));
      dst ← lh_block (Z.of_nat i);
      dbuf ← in_bio (bread (lg_dev (lo s)) (u32 dst));
      src ← buf_data lbuf;
      in_bio (store_data dbuf (fun _ => src));;
      in_bio (bwrite dbuf);;
      (if recovering then mret tt else in_bio (bunpin dbuf));;
      in_bio (brelse lbuf);;
      in_bio (brelse dbuf);;
      k) Q s.
Proof.
  intros Hl Hi Hr Hn Hcl (Hf1 & Hf2 & Hf3 & Hf4) HRf Hx HQ. pose proof (lists_max _ _ Hl) as Hmax.
  pose proof (lookup_lt_Some _ _ _ Hi) as Hlt. rewrite (li_dev _ _ Hl), (li_start _ _ Hl).
  set (t := st + 1 + Z.of_nat i) in *.
  replace (u32 (st + Z.of_nat i + 1)) with t by (unfold t; rewrite u32_small; unfold LOGBLOCKS, MAXOPBLOCKS in *; lia).
  assert (in_log st t) as Ht by (apply in_log_data; lia). destruct (Hcl t Ht) as (HRt & _ & Hdt).
  assert (t <> f) as Hne by (intros E; apply Hf2; by rewrite <- E). destruct Hf1 as [old Hold].
  assert (need (R f) <= 1)%nat as Hnf by (unfold need; destruct (R f =? 0); lia).
  wp_step. apply wp_in_bio. eapply (wp_bread' _ _ _ _ _ t); [exact Hr|set_solver|by rewrite Hx|lia|rewrite HRt; change (need 0) with 1%nat; lia|].
  intros lb b1 Hr1 Hlb1 U1 K1. wp_step. eapply wp_lh_block; [by apply lists_bio|exact Hi|]. rewrite u32_small by lia.
  wp_step. apply wp_in_bio. eapply (wp_bread' _ _ _ _ _ f); [exact Hr1|set_solver|by rewrite Hold| | |]; fn_simpl; [lia|rewrite HRt; change (need 0) with 1%nat; lia|].
  intros db b2 Hr2 Hdb2 U2 K2. assert (at_buf b2 lb t) as Hlb2 by (apply K2; [fn_simpl; lia|done]).
  wp_step. eapply (wp_buf_data _ _ _ _ _ lb t x); [exact Hr2|exact Hlb2|done|].
  wp_step. apply wp_in_bio. eapply (wp_store_data _ _ _ _ _ db f); [exact Hr2|set_solver|done|exact Hold|].
  intros b3 Hr3 U3 K3. wp_step. apply wp_in_bio.
  eapply (wp_bwrite _ _ _ _ _ db f x); [exact Hr3|set_solver|by apply K3|apply lookup_insert_eq|].
  intros b4 Hr4 Hh4 Hp4 Hd4 Hl4 K4. wp_step. cbn [lo_bio set_lo_bio] in *.
  set (rf := if recovering then R f + 1 else R f).
  assert (forall b5, bio_rep b5 (<[f := x]> a) (<[f := rf]> (take_ref R t)) ({[f]} ∪ ({[t]} ∪ ∅)) (n - 1 - need (R f)) ->
    undisturbed b4 b5 -> (forall y c, at_buf b4 y c -> at_buf b5 y c) ->
    wp (in_bio (brelse lb);; in_bio (brelse db);; k) Q (set_lo_bio b5 s)) as Hfin.
  { intros b5 Hr5 U5 K5. wp_step. apply wp_in_bio. assert (1 <= rf) as Hrf by (unfold rf; destruct recovering; [lia|by apply HRf]).
    assert (rf < 2 ^ 31) as Hrf2 by (unfold rf; destruct recovering; lia).
    eapply (wp_brelse' _ _ _ _ _ lb t); [exact Hr5|set_solver|by apply K5, K4, K3| | |]; fn_simpl; [lia| |].
    { intros _. cbn [lo_bio set_lo_bio]. rewrite (un_dsk _ _ U5), Hd4, !lookup_insert_ne by done.
      by rewrite (un_dsk _ _ U3), (un_dsk _ _ U2), (un_dsk _ _ U1). }
    intros b6 Hr6 U6 K6. wp_step. apply wp_in_bio. cbn [lo_bio set_lo_bio] in *.
    eapply (wp_brelse' _ _ _ _ _ db f); [exact Hr6|set_solver|apply K6; [fn_simpl; lia|by apply K5, K4, K3]| | |]; fn_simpl; [lia| |].
    { intros _. by rewrite (un_dsk _ _ U6), (un_dsk _ _ U5), Hd4, !lookup_insert_eq. }
    intros b7 Hr7 U7 _. apply HQ. destruct U1 as [A1 A2 A3 A4], U2 as [B1 B2 B3 B4], U3 as [C1 C2 C3 C4],
      U5 as [D1 D2 D3 D4], U6 as [E1 E2 E3 E4], U7 as [F1 F2 F3 F4]. cbn [lo_bio set_lo_bio] in *. split.
    - eapply rep_mono; [eapply rep_ext; [exact Hr7| |set_solver]|].
      + intros c. unfold rf. destruct recovering;
          (destruct (decide (c = t)) as [->|Hct]; [|destruct (decide (c = f)) as [->|Hcf]]); fn_simpl; lia.
      + fn_simpl. rewrite HRt. unfold gain, need, rf in *. simpl.
        destruct recovering; repeat case_match; lia.
    - simpl. by rewrite F3, E3, D3, Hd4, C3, B3, A3.
    - by rewrite F4, E4, D4, Hl4, C4, B4, A4.
    - by rewrite A1, B1, C1, Hh4, D1, E1.
    - congruence. }
  rewrite HRt in Hr4. destruct recovering; [wp_step|]; unfold rf in Hfin.
  - apply Hfin; [|done|done]. eapply rep_mono; [eapply rep_ext; [exact Hr4| |set_solver]|]; [intros c; by rewrite HRt; destruct (decide (c = f)) as [->|Hcf]; fn_simpl|fn_simpl; change (need 0) with 1%nat; lia].
  - apply wp_in_bio. eapply (wp_bunpin _ _ _ _ _ db f); [exact Hr4|by apply K4, K3| |]; fn_simpl; [specialize (HRf eq_refl); lia|].
    intros b5 Hr5 U5 K5. apply Hfin; [|done|done]. cbn [lo_bio set_lo_bio] in *.
    eapply rep_mono; [eapply rep_ext; [exact Hr5| |set_solver]|].
    + intros c. rewrite HRt. destruct (decide (c = f)) as [->|Hcf]; fn_simpl; lia.
    + fn_simpl. change (need 0) with 1%nat. lia.
Qed.

(** The writes [install_trans] makes from position [k] on, and the pins it
    drops. *)
Definition installs_from (k : nat) (bs : list Z) (a : blocks) : list write :=
  imap (fun i b => (b, default [] (a !! (st + 1 + Z.of_nat (k + i))))) bs.

Definition unpin (recovering : bool) (f : Z) (R : Z -> Z) : Z -> Z :=
  if recovering then R else <[f := R f - 1]> R.

Fixpoint unpin_all (recovering : bool) (bs : list Z) (R : Z -> Z) : Z -> Z :=
  match bs with [] => R | f :: bs => unpin_all recovering bs (unpin recovering f R) end.

Fixpoint regained (recovering : bool) (bs : list Z) (R : Z -> Z) : nat :=
  match bs with [] => 0%nat | f :: bs => (gain recovering (R f) + regained recovering bs (unpin recovering f R))%nat end.

Lemma installs_from_cons k b bs a :
  installs_from k (b :: bs) a = (b, default [] (a !! (st + 1 + Z.of_nat k))) :: installs_from (Datatypes.S k) bs a.
Proof.
  unfold installs_from. simpl. rewrite Nat.add_0_r. f_equal. apply imap_ext. intros i x _. simpl.
  do 4 f_equal. lia.
Qed.

Lemma installs_from_ext k bs a a' :
  (forall c, in_log st c -> a' !! c = a !! c) -> Z.of_nat (k + length bs) <= LOGBLOCKS ->
  installs_from k bs a' = installs_from k bs a.
Proof.
  intros H Hk. apply imap_ext. intros i x Hi. simpl. apply lookup_lt_Some in Hi.
  rewrite H; [done|]. apply in_log_data. lia.
Qed.

Lemma unpin_range recovering f R c :
  R c - 1 <= unpin recovering f R c <= R c /\ (c <> f -> unpin recovering f R c = R c).
Proof.
  unfold unpin. destruct recovering; [split; [lia|done]|].
  destruct (decide (c = f)) as [->|Hne]; fn_simpl; split; done || lia.
Qed.

Lemma log_clean_unpin recovering f (b b' : bio A) a R x :
  log_clean b a R -> ~ in_log st f -> dsk b' = <[f := x]> (dsk b) ->
  log_clean b' (<[f := x]> a) (unpin recovering f R).
Proof.
  intros Hc Hf E k Hk. destruct (log_clean_write _ _ _ _ f x Hc E k Hk) as (H1 & H2). split; [|done].
  destruct (unpin_range recovering f R k) as [_ ->]; [done|]. by intros ->.
Qed.

Lemma wp_install_loop recovering todo : forall done fuel (s : log_st A) a R n Q,
  lists s (done ++ todo) -> bio_rep (lo_bio s) a R ∅ n -> (2 <= n)%nat -> log_clean (lo_bio s) a R ->
  (forall c, c ∈ todo -> loggable a R c) ->
  (recovering = false -> NoDup todo /\ forall c, c ∈ todo -> 1 <= R c) -> (length todo < fuel)%nat ->
  (forall b', wrote (lo_bio s) b' a (unpin_all recovering todo R) (n + regained recovering todo R) (installs_from (length done) todo a) ->
     Q tt (set_lo_bio b' s)) ->
  wp (install_loop fuel recovering (Z.of_nat (length done))) Q s.
Proof.
  induction todo as [|f todo IH]; intros dn fuel s a R n Q Hl Hr Hn Hcl Hlg Hp Hf HQ; (destruct fuel as [|fuel]; [simpl in Hf; lia|]);
    cbn [install_loop]; wp_step; apply wp_gets; rewrite (li_n _ _ Hl), length_app; cbn [length].
  { rewrite Nat.add_0_r, Z.ltb_irrefl. wp_step. specialize (HQ (lo_bio s)). destruct s. apply HQ. cbn [regained]. rewrite Nat.add_0_r. by apply wrote_nil. }
  rewrite (proj2 (Z.ltb_lt _ _)) by lia. assert (loggable a R f) as Hlgf by (apply Hlg; left).
  pose proof (lists_max _ _ Hl) as Hmax. rewrite length_app in Hmax. cbn [length] in Hmax.
  destruct (Hcl (st + 1 + Z.of_nat (length dn))) as (_ & [x Hx] & _); [apply in_log_data; lia|].
  eapply (wp_install_round recovering _ a R n (dn ++ f :: todo) (length dn) f x); try done; [by apply list_lookup_middle| |].
  { intros E. apply Hp; [done|left]. }
  intros b1 Hw. fold (unpin recovering f R) in Hw.
  replace (Z.of_nat (length dn) + 1) with (Z.of_nat (length (dn ++ [f]))) by (rewrite length_app; simpl; lia).
  pose proof Hlgf as (_ & Hnl & _).
  eapply (IH (dn ++ [f]) fuel (set_lo_bio b1 s) (<[f := x]> a) (unpin recovering f R) (n + gain recovering (R f))%nat).
  - rewrite <- app_assoc. by apply lists_bio.
  - apply Hw.
  - lia.
  - eapply log_clean_unpin; [exact Hcl|done|]. apply Hw.
  - intros c Hc. destruct (Hlg c) as ([y Hy] & L2 & L3 & L4); [by right|]. destruct (unpin_range recovering f R c) as [Hu1 Hu2].
    split; [|split; [done|split; [done|split; [|lia]]]].
    + rewrite lookup_insert_is_Some. destruct (decide (f = c)); eauto.
    + destruct recovering; [apply L4|]. destruct (Hp eq_refl) as [_ Hp']. assert (1 <= R c) by (apply Hp'; by right). lia.
  - intros ->. destruct (Hp eq_refl) as [[Hnf Hnd]%list.NoDup_cons Hp']. split; [done|]. intros c Hc.
    destruct (unpin_range false f R c) as [_ ->]; [apply Hp'; by right|]. by intros ->.
  - simpl in Hf. lia.
  - intros b2 Hw2. apply HQ. rewrite installs_from_cons, Hx. simpl.
    rewrite length_app, (installs_from_ext _ _ a) in Hw2.
    + simpl in Hw2 |- *. rewrite Nat.add_1_r in Hw2. rewrite Nat.add_assoc. exact (wrote_app _ _ _ _ _ _ _ _ _ _ Hw Hw2).
    + intros c Hc. rewrite lookup_insert_ne; [done|]. by intros ->.
    + simpl. lia.
Qed.

Lemma wp_install_trans recovering (s : log_st A) bs a R n Q :
  lists s bs -> bio_rep (lo_bio s) a R ∅ n -> (2 <= n)%nat -> log_clean (lo_bio s) a R ->
  (forall c, c ∈ bs -> loggable a R c) ->
  (recovering = false -> NoDup bs /\ forall c, c ∈ bs -> 1 <= R c) ->
  (forall b', wrote (lo_bio s) b' a (unpin_all recovering bs R) (n + regained recovering bs R) (installs_from 0 bs a) -> Q tt (set_lo_bio b' s)) ->
  wp (install_trans recovering) Q s.
Proof.
  intros Hl Hr Hn Hcl Hlg Hp HQ. unfold install_trans. wp_step. apply wp_gets.
  apply (wp_install_loop recovering bs [] _ s a R n); try done. rewrite (li_n _ _ Hl). lia.
Qed.

(** ** write_head and read_head *)

(** The first [k] entries of a header for [N] blocks are in place. *)
Definition header_upto (N : Z) (bs : list Z) (h : list Z) : Prop :=
  rd32 h 0 = N /\ forall i b, bs !! i = Some b -> rd32 h (4 + 4 * Z.of_nat i) = b.

Lemma header_upto_snoc N bs b h :
  header_upto N bs h -> - 2 ^ 31 <= b < 2 ^ 31 -> (4 * Z.of_nat (length bs) + 8 <= Z.of_nat (length h)) ->
  header_upto N (bs ++ [b]) (wr32 h (4 + 4 * Z.of_nat (length bs)) b).
Proof.
  intros [H0 Hb] Hr Hl. split.
  - rewrite rd32_wr32_ne by lia. done.
  - intros i c Hi. apply lookup_app_Some in Hi as [Hi|[Hge Hi]].
    + pose proof (lookup_lt_Some _ _ _ Hi). rewrite rd32_wr32_ne by lia. by apply Hb.
    + apply list_lookup_singleton_Some in Hi as [Ei ->]. replace i with (length bs) by lia.
      rewrite rd32_wr32 by lia. by apply s32_small.
Qed.

Lemma wp_write_head_loop todo : forall done fuel (s : log_st A) d a R n x Q,
  lists s (done ++ todo) -> bio_rep (lo_bio s) a R {[st]} n -> at_buf (lo_bio s) x st -> a !! st = Some d ->
  Z.of_nat (length d) = BSIZE -> header_upto (lg_n (lo s)) done d ->
  (forall c, c ∈ todo -> 0 <= c < 2 ^ 31) -> (length todo < fuel)%nat ->
  (forall b' d', bio_rep b' (<[st := d']> a) R {[st]} n -> at_buf b' x st -> undisturbed (lo_bio s) b' ->
     length d' = length d -> header_upto (lg_n (lo s)) (done ++ todo) d' -> Q tt (set_lo_bio b' s)) ->
  wp (write_head_loop fuel x (Z.of_nat (length done))) Q s.
Proof.
  induction todo as [|f todo IH]; intros dn fuel s d a R n x Q Hl Hr Hat Hd Hlen Hh Hrg Hf HQ; (destruct fuel as [|fuel]; [simpl in Hf; lia|]);
    cbn [write_head_loop]; wp_step; apply wp_gets; rewrite (li_n _ _ Hl), length_app; cbn [length].
  { rewrite Nat.add_0_r, Z.ltb_irrefl. wp_step. specialize (HQ (lo_bio s) d). destruct s.
    apply HQ; [by rewrite insert_id|done|done|done|by rewrite app_nil_r]. }
  rewrite (proj2 (Z.ltb_lt _ _)) by lia. wp_step. eapply wp_lh_block; [exact Hl|by apply list_lookup_middle|].
  wp_step. apply wp_in_bio. eapply (wp_store_data _ _ _ _ _ x st); [exact Hr|set_solver|done|exact Hd|].
  intros b1 Hr1 U1 K1. replace (Z.of_nat (length dn) + 1) with (Z.of_nat (length (dn ++ [f]))) by (rewrite length_app; simpl; lia).
  pose proof (lists_max _ _ Hl) as Hmax. rewrite length_app in Hmax. cbn [length] in Hmax.
  unfold BSIZE, LOGBLOCKS, MAXOPBLOCKS in *.
  eapply (IH (dn ++ [f]) fuel (set_lo_bio b1 s)); [rewrite <- app_assoc; by apply lists_bio|exact Hr1|by apply K1|apply lookup_insert_eq| | | | |].
  - by rewrite length_wr32.
  - apply header_upto_snoc; [done| |lia]. assert (0 <= f < 2 ^ 31) by (apply Hrg; left). lia.
  - intros c Hc. apply Hrg. by right.
  - simpl in Hf. lia.
  - intros b2 d2 Hr2 Hat2 U2 Hl2 Hh2. rewrite insert_insert_eq in Hr2. apply (HQ b2 d2); [done|done|by etrans| |].
    + by rewrite Hl2, length_wr32.
    + by rewrite <- app_assoc in Hh2.
Qed.

Lemma wp_write_head (s : log_st A) bs d a R n Q :
  lists s bs -> bio_rep (lo_bio s) a R ∅ n -> (1 <= n)%nat -> log_clean (lo_bio s) a R ->
  a !! st = Some d -> Z.of_nat (length d) = BSIZE -> (forall c, c ∈ bs -> 0 <= c < 2 ^ 31) ->
  (forall b' h, wrote (lo_bio s) b' a R n [(st, h)] -> header_of bs h -> Z.of_nat (length h) = BSIZE -> Q tt (set_lo_bio b' s)) ->
  wp write_head Q s.
Proof.
  intros Hl Hr Hn Hcl Hd Hlen Hrg HQ. unfold write_head. wp_step. apply wp_gets.
  rewrite (li_dev _ _ Hl), (li_start _ _ Hl), u32_small by (unfold LOGBLOCKS, MAXOPBLOCKS in *; lia).
  destruct (Hcl st) as (HR & _ & Hds); [unfold in_log, LOGBLOCKS, MAXOPBLOCKS; lia|].
  pose proof (lists_max _ _ Hl) as Hmax. unfold BSIZE, LOGBLOCKS, MAXOPBLOCKS in *.
  wp_step. apply wp_in_bio. eapply (wp_bread' _ _ _ _ _ st); [exact Hr|set_solver|by rewrite Hd|lia|rewrite HR; exact Hn|].
  intros x b1 Hr1 Hat1 U1 _. wp_step. apply wp_in_bio.
  eapply (wp_store_data _ _ _ _ _ x st); [exact Hr1|set_solver|done|exact Hd|]. intros b2 Hr2 U2 K2. wp_step.
  cbn [lo_bio set_lo_bio] in *. replace ({[st]} ∪ ∅) with ({[st]} : gset Z) in Hr2 by set_solver.
  eapply (wp_write_head_loop bs [] _ (set_lo_bio b2 s) (wr32 d 0 (lg_n (lo s))));
    [by apply lists_bio|exact Hr2|by apply K2|apply lookup_insert_eq|by rewrite length_wr32| |done|rewrite (li_n _ _ Hl); lia|].
  { split; [|done]. change (lo (set_lo_bio b2 s)) with (lo s). rewrite rd32_wr32 by lia. rewrite (li_n _ _ Hl). apply s32_small. lia. }
  intros b3 h Hr3 Hat3 U3 Hlh Hh. rewrite insert_insert_eq in Hr3. wp_step. apply wp_in_bio. cbn [lo_bio set_lo_bio app] in *.
  eapply (wp_bwrite _ _ _ _ _ x st h); [exact Hr3|set_solver|done|apply lookup_insert_eq|].
  intros b4 Hr4 Hh4 Hp4 Hd4 Hl4 K4. apply wp_in_bio. cbn [lo_bio set_lo_bio] in *.
  eapply (wp_brelse' _ _ _ _ _ x st); [exact Hr4|set_solver|by apply K4| | |]; fn_simpl; [lia|intros _; by rewrite Hd4, !lookup_insert_eq|].
  intros b5 Hr5 U5 _. destruct U1 as [A1 A2 A3 A4], U2 as [B1 B2 B3 B4], U3 as [C1 C2 C3 C4], U5 as [D1 D2 D3 D4].
  apply (HQ b5 h).
  - split.
    + eapply rep_mono; [eapply rep_ext; [exact Hr5| |set_solver]|].
      * intros c. destruct (decide (c = st)) as [->|Hc]; fn_simpl; lia.
      * fn_simpl. rewrite HR. change (n <= n - 1 + 1)%nat. lia.
    + simpl. by rewrite D3, Hd4, C3, B3, A3.
    + by rewrite D4, Hl4, C4, B4, A4.
    + by rewrite A1, B1, C1, Hh4.
    + congruence.
  - destruct Hh as [Hh0 Hh]. split; [|done]. rewrite Hh0. apply Hl.
  - by rewrite Hlh, length_wr32.
Qed.

(** [read_head] of a header that recovery can follow. *)
Lemma wp_set_lh_block i v (s : log_st A) Q :
  0 <= i < Z.of_nat (length (lg_block (lo s))) ->
  Q tt (set_lg_block (<[Z.to_nat i := v]> (lg_block (lo s))) s) -> wp (set_lh_block i v) Q s.
Proof.
  intros Hi HQ. unfold set_lh_block. wp_step. apply wp_gets. rewrite arr_set_ok by done. wp_step. unfold of_arr. wp_step. by apply wp_modify.
Qed.

Lemma wp_read_head_loop todo : forall done fuel (s : log_st A) hd Q,
  lg_n (lo s) = Z.of_nat (length (done ++ todo)) -> Z.of_nat (length (lg_block (lo s))) = LOGBLOCKS ->
  Z.of_nat (length (done ++ todo)) <= LOGBLOCKS ->
  done `prefix_of` lg_block (lo s) ->
  (forall i c, todo !! i = Some c -> rd32 hd (4 + 4 * Z.of_nat (length done + i)) = c) -> (length todo < fuel)%nat ->
  (forall bl, Z.of_nat (length bl) = LOGBLOCKS -> done ++ todo `prefix_of` bl -> Q tt (set_lg_block bl s)) ->
  wp (read_head_loop fuel hd (Z.of_nat (length done))) Q s.
Proof.
  induction todo as [|f todo IH]; intros dn fuel s hd Q Hn Hlen Hle Hpre Hrd Hf HQ; (destruct fuel as [|fuel]; [simpl in Hf; lia|]);
    cbn [read_head_loop]; wp_step; apply wp_gets; rewrite Hn, length_app; cbn [length].
  { rewrite Nat.add_0_r, Z.ltb_irrefl. wp_step. specialize (HQ (lg_block (lo s)) Hlen). rewrite app_nil_r in HQ.
    destruct s as [b []]. by apply HQ. }
  rewrite length_app in Hle. cbn [length] in Hle. rewrite (proj2 (Z.ltb_lt _ _)) by lia. wp_step.
  pose proof (Hrd 0%nat f eq_refl) as E. rewrite Nat.add_0_r in E. rewrite E. apply wp_set_lh_block; [lia|].
  rewrite Nat2Z.id. set (bl := <[length dn := f]> (lg_block (lo s))).
  replace (Z.of_nat (length dn) + 1) with (Z.of_nat (length (dn ++ [f]))) by (rewrite length_app; simpl; lia).
  assert (dn ++ [f] `prefix_of` bl) as Hpre'.
  { destruct Hpre as [t Et]. assert (length t <> 0)%nat as Ht by (intros E0; rewrite Et, length_app, E0 in Hlen; lia).
    destruct t as [|y t]; [done|]. unfold bl. rewrite Et. exists t. rewrite insert_app_r_alt, Nat.sub_diag by lia. by rewrite <- app_assoc. }
  apply (IH (dn ++ [f]) fuel (set_lg_block bl s)).
  - by rewrite <- app_assoc.
  - simpl. unfold bl. by rewrite length_insert.
  - rewrite <- app_assoc, length_app. simpl. lia.
  - done.
  - intros i c Hi. rewrite <- (Hrd (Datatypes.S i) c Hi), length_app. simpl. do 3 f_equal. lia.
  - simpl in Hf. lia.
  - intros bl' Hl' Hp'. rewrite <- app_assoc in Hp'. exact (HQ bl' Hl' Hp').
Qed.

Lemma wp_log_read_head (s : log_st A) bs d a R n Q :
  lg_dev (lo s) = ROOTDEV -> lg_start (lo s) = st -> Z.of_nat (length (lg_block (lo s))) = LOGBLOCKS ->
  bio_rep (lo_bio s) a R ∅ n -> (1 <= n)%nat -> log_clean (lo_bio s) a R ->
  a !! st = Some d -> header_of bs d -> Z.of_nat (length bs) <= LOGBLOCKS ->
  (forall s', lists s' bs -> wrote (lo_bio s) (lo_bio s') a R n [] -> Q tt s') ->
  wp read_head Q s.
Proof.
  intros Hdev Hst Hlen Hr Hn Hcl Hd [Hh0 Hh] Hmax HQ. unfold read_head. wp_step. apply wp_gets.
  rewrite Hdev, Hst, u32_small by (unfold LOGBLOCKS, MAXOPBLOCKS in *; lia).
  destruct (Hcl st) as (HR & _ & Hds); [unfold in_log, LOGBLOCKS, MAXOPBLOCKS; lia|].
  wp_step. apply wp_in_bio. eapply (wp_bread' _ _ _ _ _ st); [exact Hr|set_solver|by rewrite Hd|lia|rewrite HR; exact Hn|].
  intros x b1 Hr1 Hat1 U1 _. wp_step. eapply (wp_buf_data _ _ _ _ _ x st d); [exact Hr1|exact Hat1|done|].
  rewrite Hh0. wp_step. apply wp_modify. wp_step.
  apply (wp_read_head_loop bs [] _ (set_lg_n (Z.of_nat (length bs)) (set_lo_bio b1 s)));
    [done|exact Hlen|exact Hmax|by eexists|exact Hh|lia|].
  intros bl Hbl Hpre. apply wp_in_bio. cbn [lo_bio set_lo_bio set_lg_n set_lg_block set_lo].
  eapply (wp_brelse' _ _ _ _ _ x st); [exact Hr1|set_solver|done| | |]; fn_simpl; [lia|intros _; by rewrite (un_dsk _ _ U1)|].
  intros b2 Hr2 U2 _. apply HQ; [by split|].
  destruct U1 as [A1 A2 A3 A4], U2 as [B1 B2 B3 B4]. split.
  - eapply rep_mono; [eapply rep_ext; [exact Hr2| |set_solver]|].
    + intros c. destruct (decide (c = st)) as [->|Hc]; fn_simpl; lia.
    + fn_simpl. rewrite HR. change (n <= n - 1 + 1)%nat. lia.
  - simpl. congruence.
  - simpl. rewrite app_nil_r. congruence.
  - simpl. by rewrite A1.
  - simpl. congruence.
Qed.

(** ** commit and recovery *)

Lemma apply_writes_is_Some W (d : blocks) c : is_Some (d !! c) -> is_Some (apply_writes W d !! c).
Proof.
  revert d. induction W as [|[b x] W IH]; intros d Hd; simpl; [done|]. apply IH.
  rewrite lookup_insert_is_Some. destruct (decide (b = c)); auto.
Qed.

Lemma log_clean_wrote (b b' : bio A) a R R' n W :
  log_clean b a R -> wrote b b' a R' n W -> (forall c, in_log st c -> R' c = R c) ->
  log_clean b' (apply_writes W a) R'.
Proof.
  intros Hc Hw HR c Hin. destruct (Hc c Hin) as (H1 & H2 & H3). rewrite HR by done. split; [done|].
  split; [by apply apply_writes_is_Some|]. rewrite (wr_dsk _ _ _ _ _ _ Hw). by apply apply_writes_agree.
Qed.

Lemma unpin_all_notin r bs R c : c ∉ bs -> unpin_all r bs R c = R c.
Proof.
  revert R. induction bs as [|f bs IH]; intros R Hc; simpl; [done|]. apply not_elem_of_cons in Hc as [Hne Hc].
  rewrite IH by done. by apply unpin_range.
Qed.

Lemma unpin_all_in bs R c : NoDup bs -> c ∈ bs -> unpin_all false bs R c = R c - 1.
Proof.
  revert R. induction bs as [|f bs IH]; intros R Hnd Hc; simpl; [by apply elem_of_nil in Hc|].
  apply list.NoDup_cons in Hnd as [Hf Hnd]. destruct (decide (c = f)) as [->|Hne].
  - rewrite unpin_all_notin by done. unfold unpin. by fn_simpl.
  - apply elem_of_cons in Hc as [?|Hc]; [done|]. rewrite IH by done. f_equal. by apply (unpin_range false f R c).
Qed.

Lemma regained_ones bs R : NoDup bs -> (forall c, c ∈ bs -> R c = 1) -> regained false bs R = length bs.
Proof.
  revert R. induction bs as [|f bs IH]; intros R Hnd HR; cbn [regained length]; [done|]. apply list.NoDup_cons in Hnd as [Hf Hnd].
  rewrite IH; [|done|].
  - unfold gain, need. by rewrite (HR f) by left.
  - intros c Hc. destruct (unpin_range false f R c) as [_ ->]; [apply HR; by right|]. by intros ->.
Qed.

Lemma regained_recovering bs R : regained true bs R = 0%nat.
Proof. revert R. induction bs as [|f bs IH]; intros R; cbn [regained]; [done|]. by rewrite IH. Qed.

Lemma unpin_all_recovering bs R : unpin_all true bs R = R.
Proof. revert R. induction bs as [|f bs IH]; intros R; simpl; [done|]. apply IH. Qed.

(** A transaction in memory: the blocks [bs] are listed, pinned and hold
    their new contents in the cache, and the log on disk is empty. *)
Record pending (s : log_st A) (bs : list Z) (a : blocks) (R : Z -> Z) (n : nat) : Prop := {
  pe_lists : lists s bs;
  pe_rep : bio_rep (lo_bio s) a R ∅ n;
  pe_room : (2 <= n)%nat;
  pe_clean : log_clean (lo_bio s) a R;
  pe_nodup : NoDup bs;
  pe_blocks : forall c, c ∈ bs -> loggable a R c /\ 1 <= R c;
  pe_rest : forall c, c ∉ bs -> is_Some (a !! c) -> dsk (lo_bio s) !! c = a !! c;
  pe_empty : log_n st (dsk (lo_bio s)) = 0;
  pe_hdr : exists d, a !! st = Some d /\ Z.of_nat (length d) = BSIZE
}.

Lemma pending_txn s bs a R n : pending s bs a R n -> txn st bs.
Proof.
  intros Hp. split; [apply (lists_max s), Hp|]. intros b Hb.
  destruct (pe_blocks _ _ _ _ _ Hp b Hb) as [(_ & ? & ? & _) _]. split; [lia|done].
Qed.

(** Writes into the log area keep the transaction's blocks as they are. *)
Lemma loggable_log W a R c :
  loggable a R c -> (forall k, k ∈ W.*1 -> in_log st k) -> loggable (apply_writes W a) R c.
Proof.
  intros (H1 & H2 & H3) HW. split; [|done]. rewrite apply_writes_notin; [done|]. intros Hin. by apply H2, HW.
Qed.

Lemma copies_in_log bs a h k :
  Z.of_nat (length bs) <= LOGBLOCKS -> k ∈ (log_copies st bs a ++ [(st, h)]).*1 -> in_log st k.
Proof.
  intros Hl. rewrite fmap_app. intros [Hk|Hk]%elem_of_app; unfold in_log.
  - apply log_copies_fst in Hk. lia.
  - simpl in Hk. apply list_elem_of_singleton in Hk as ->. unfold LOGBLOCKS, MAXOPBLOCKS. lia.
Qed.

Lemma installs_homes bs a h :
  installs_from 0 bs (apply_writes (log_copies st bs a ++ [(st, h)]) a) = homes bs a.
Proof.
  apply list_eq. intros i. unfold installs_from, homes. rewrite list_lookup_imap, list_lookup_fmap.
  destruct (bs !! i) as [b|] eqn:Hb; [|done]. simpl. do 2 f_equal. rewrite apply_writes_app. simpl.
  rewrite lookup_insert_ne by lia. by rewrite (log_copies_lookup st bs a a i b Hb).
Qed.

Lemma lists_nil s bs : lists s bs -> lists (set_lg_n 0 s) [].
Proof. intros [? ? ? ? ?]. split; try done. simpl. by eexists. Qed.

Lemma wp_commit (s : log_st A) bs a R n Q :
  pending s bs a R n -> bs <> [] ->
  (forall s' h h0, header_of bs h -> empty_header h0 -> Z.of_nat (length h0) = BSIZE -> Z.of_nat (length h) = BSIZE ->
     wrote (lo_bio s) (lo_bio s') a (unpin_all false bs R) (n + regained false bs R) (commit_writes st bs a h h0) ->
     lists s' [] -> log_clean (lo_bio s') (apply_writes (commit_writes st bs a h h0) a) (unpin_all false bs R) ->
     lg_outstanding (lo s') = lg_outstanding (lo s) /\ lg_committing (lo s') = lg_committing (lo s) /\
     lg_lock (lo s') = lg_lock (lo s) -> Q tt s') ->
  wp commit Q s.
Proof.
  intros Hp Hne HQ. pose proof Hp as [Hl Hr Hn Hcl Hnd Hbs _ He (d & Hd & Hlen)]. pose proof (lists_max _ _ Hl) as Hmax.
  unfold commit. wp_step. apply wp_gets. rewrite (li_n _ _ Hl).
  rewrite (proj2 (Z.gtb_lt _ _)) by (destruct bs; [done|cbn [length]; lia]).
  assert (forall c, c ∈ bs -> 0 <= c < 2 ^ 31) as Hrg by (intros c Hc; apply (Hbs c Hc)).
  wp_step. eapply wp_write_log; try done; [lia|]. intros b1 Hw1. wp_step.
  assert (log_clean b1 (apply_writes (log_copies st bs a) a) R) as Hcl1 by (by eapply log_clean_wrote).
  eapply (wp_write_head (set_lo_bio b1 s) bs d); [by apply lists_bio|apply Hw1|lia|exact Hcl1| |exact Hlen|done|].
  { rewrite apply_writes_notin; [done|]. intros Hin%log_copies_fst. lia. }
  intros b2 h Hw2 Hh Hlh. pose proof (wrote_app _ _ _ _ _ _ _ _ _ _ Hw1 Hw2) as Hw12. wp_step.
  set (W12 := log_copies st bs a ++ [(st, h)]) in *. cbn [lo_bio set_lo_bio] in *.
  eapply (wp_install_trans false (set_lo_bio b2 s) bs); [by apply lists_bio|apply Hw12|lia|by eapply log_clean_wrote| | |].
  { intros c Hc. apply loggable_log; [by apply Hbs|]. intros k Hk. by apply (copies_in_log bs a h). }
  { intros _. split; [done|]. intros c Hc. by apply Hbs. }
  intros b3 Hw3. cbn [lo_bio set_lo_bio] in Hw3. unfold W12 in Hw3. rewrite installs_homes in Hw3. fold W12 in Hw3.
  pose proof (wrote_app _ _ _ _ _ _ _ _ _ _ Hw12 Hw3) as Hw123. wp_step. apply wp_modify.
  assert (forall c, in_log st c -> unpin_all false bs R c = R c) as HRl.
  { intros c Hc. apply unpin_all_notin. intros Hin. destruct (Hbs c Hin) as [(_ & Hx & _) _]. done. }
  eapply (wp_write_head _ [] h); [eapply lists_nil, lists_bio, lists_bio; exact Hl|apply Hw123|lia| | |done|by intros ? ?%elem_of_nil|].
  { exact (log_clean_wrote _ _ _ _ _ _ _ Hcl Hw123 HRl). }
  { unfold W12. rewrite !apply_writes_app. rewrite apply_writes_notin; [simpl; apply lookup_insert_eq|].
    rewrite homes_fst. intros Hin. destruct (Hbs st Hin) as [(_ & Hx & _) _]. apply Hx.
    unfold in_log, LOGBLOCKS, MAXOPBLOCKS. lia. }
  intros b4 h0 Hw4 [Hh0 _] Hlh0. cbn [lo_bio set_lo_bio set_lg_n set_lo] in Hw4.
  pose proof (wrote_app _ _ _ _ _ _ _ _ _ _ Hw123 Hw4) as Hw. rewrite <- app_assoc in Hw.
  apply (HQ _ h h0); [done|exact Hh0|exact Hlh0|exact Hlh|exact Hw|eapply lists_bio, lists_nil, lists_bio, lists_bio; exact Hl| |done].
  exact (log_clean_wrote _ _ _ _ _ _ _ Hcl Hw HRl).
Qed.

(** What recovery starts from: an empty cache over a disk [d] whose log it
    can follow. *)
Record bootable (s : log_st A) (d : blocks) (n : nat) : Prop := {
  bo_len : Z.of_nat (length (lg_block (lo s))) = LOGBLOCKS;
  bo_rep : bio_rep (lo_bio s) d (fun _ => 0) ∅ n;
  bo_dsk : dsk (lo_bio s) = d;
  bo_room : (2 <= n)%nat;
  bo_wf : log_wf st d;
  bo_area : forall c, in_log st c -> is_Some (d !! c);
  bo_hdr : Z.of_nat (length (hdr st d)) = BSIZE;
  bo_dst : forall i, 0 <= i < log_n st d -> is_Some (d !! log_dst st d i) /\ log_dst st d i < 2 ^ 31
}.

Lemma installs_entries d :
  0 <= log_n st d <= LOGBLOCKS ->
  installs_from 0 (log_dst st d <$> seqZ 0 (log_n st d)) d = log_entries st d.
Proof.
  intros Hn. apply list_eq. intros i. unfold installs_from, log_entries. rewrite list_lookup_imap, !list_lookup_fmap.
  destruct (seqZ 0 (log_n st d) !! i) as [j|] eqn:Hi; [|done]. apply lookup_seqZ in Hi as [-> Hi]. simpl.
  unfold log_entry. done.
Qed.

Lemma wp_recover_from_log (s : log_st A) d n Q :
  bootable s d n -> lg_dev (lo s) = ROOTDEV -> lg_start (lo s) = st ->
  (forall s' h0, empty_header h0 -> Z.of_nat (length h0) = BSIZE ->
     wrote (lo_bio s) (lo_bio s') d (fun _ => 0) n (recover_writes st d h0) -> lists s' [] -> Q tt s') ->
  wp recover_from_log Q s.
Proof.
  intros [B3 B4 B5 B6 [B7 B8] B9 B10 B11] B1 B2 HQ. set (bs := log_dst st d <$> seqZ 0 (log_n st d)).
  assert (Z.of_nat (length bs) = log_n st d) as Elen by (unfold bs; rewrite length_fmap, length_seqZ; lia).
  assert (forall c, c ∈ bs -> exists i, 0 <= i < log_n st d /\ c = log_dst st d i) as Hin.
  { intros c (i & -> & Hi)%list_elem_of_fmap. apply elem_of_seqZ in Hi. exists i. split; [lia|done]. }
  assert (in_log st st) as Hst by (unfold in_log, LOGBLOCKS, MAXOPBLOCKS; lia).
  assert (log_clean (lo_bio s) d (fun _ => 0)) as Hcl by (intros c Hc; split; [done|]; split; [by apply B9|by rewrite B5]).
  destruct (B9 st Hst) as [hb Hhb]. assert (hdr st d = hb) as Eh by (unfold hdr; by rewrite Hhb).
  unfold recover_from_log. wp_step. eapply (wp_log_read_head s bs hb); try done; [lia| |lia|].
  { split; [by rewrite Elen, <- Eh|]. intros i c Hi. unfold bs in Hi. rewrite list_lookup_fmap in Hi.
    apply fmap_Some in Hi as (j & Hj & ->). apply lookup_seqZ in Hj as [-> Hj]. unfold log_dst. by rewrite Eh. }
  intros s1 Hl1 Hw1. wp_step.
  assert (log_clean (lo_bio s1) d (fun _ => 0)) as Hcl1 by exact (log_clean_wrote _ _ _ _ _ _ _ Hcl Hw1 (fun _ _ => eq_refl)).
  eapply (wp_install_trans true s1 bs d (fun _ => 0) n); [done|apply Hw1|done|done| |done|].
  { intros c (i & Hi & ->)%Hin. destruct (B8 i Hi), (B11 i Hi). split; [done|]. split; [done|]. split; lia. }
  rewrite unpin_all_recovering, regained_recovering, Nat.add_0_r. unfold bs. rewrite installs_entries by done. fold bs.
  intros b2 Hw2. pose proof (wrote_app _ _ _ _ _ _ _ _ [] _ Hw1 Hw2) as Hw12. simpl app in Hw12. wp_step. apply wp_modify.
  eapply (wp_write_head _ [] hb); [eapply lists_nil, lists_bio; exact Hl1|apply Hw12|lia| | | |by intros ? ?%elem_of_nil|].
  { exact (log_clean_wrote _ _ _ _ _ _ _ Hcl Hw12 (fun _ _ => eq_refl)). }
  { rewrite apply_writes_notin; [done|]. intros (i & Hi & E)%log_entries_fst. destruct (B8 i Hi) as [_ Hx]. by rewrite <- E in Hx. }
  { by rewrite <- Eh. }
  intros b3 h0 Hw3 [Hh0 _] Hlh0. cbn [lo_bio set_lo_bio set_lg_n set_lo] in Hw3.
  apply (HQ _ h0); [exact Hh0|exact Hlh0|exact (wrote_app _ _ _ _ _ _ _ _ _ _ Hw12 Hw3)|].
  eapply lists_bio, lists_nil, lists_bio; exact Hl1.
Qed.

End Rules.
