(* ===== verification/LogThms.v ===== *)
(** * The log: theorems

    Crash safety of [end_op]'s commit and of recovery, what [log_write] and
    [begin_op] do, and the transaction as a whole. *)

From Stdlib Require Import ZArith Lia Bool String.
From stdpp Require Import base gmap list strings functions sets.
From S2P Require Import Prelude Mem Spinlock Sleeplock ObjCache Bio BioProof BioThms Log LogSpec LogProof.

Section Thms.
Context {A : Type} `{HM : HasMach A} {OC : ObjCache A}.

(** ** Locking the log *)

Lemma rep_hart (s : bio A) a R H n h : bio_rep s a R H n -> hart_ok h -> bio_rep (set_hart h s) a R H n.
Proof.
  intros [C1 C2 C3 C4 C5 (room & Ho & Hn)] Hh. split; try done.
  - by rewrite hart_of_set_hart.
  - exists room. split; [exact (oc_hart _ _ _ _ _ Ho Hh)|exact Hn].
Qed.

(** [s'] is [s] up to the interrupt state and the fields of [struct log] that
    are not the transaction. *)
Record like (s s' : log_st A) : Prop := {
  lk_bio : exists h, hart_ok h /\ lo_bio s' = set_hart h (lo_bio s);
  lk_dev : lg_dev (lo s') = lg_dev (lo s);
  lk_start : lg_start (lo s') = lg_start (lo s);
  lk_n : lg_n (lo s') = lg_n (lo s);
  lk_block : lg_block (lo s') = lg_block (lo s)
}.

Lemma pending_like st (s s' : log_st A) bs a R n : pending st s bs a R n -> like s s' -> pending st s' bs a R n.
Proof.
  intros [P1 P2 P3 P4 P5 P6 P7 P8 P9] [(h & Hh & Eb) L2 L3 L4 L5]. split; try done.
  - destruct P1. split; congruence.
  - rewrite Eb. by apply rep_hart.
  - intros c Hc. rewrite Eb. by apply P4.
  - intros c Hc. rewrite Eb. by apply P7.
  - by rewrite Eb.
Qed.

(** [log.lock] is held since the hart was in state [h0]. *)
Definition lg_cs (h0 : hart) (s : log_st A) : Prop :=
  lk_locked (lg_lock (lo s)) = 1 /\ lk_cpu (lg_lock (lo s)) = h_cpu h0 /\ hart_same (push_off h0) (hart_of s) /\ hart_ok h0.

Lemma wp_lg_acquire Q (s : log_st A) :
  lk_locked (lg_lock (lo s)) = 0 -> hart_ok (hart_of s) ->
  (forall l, let s1 := set_lg_lock l (set_hart (push_off (hart_of s)) s) in lg_cs (hart_of s) s1 -> Q tt s1) ->
  wp (acquire_in get_lg_lock set_lg_lock) Q s.
Proof.
  intros Hl Hh HQ. apply wp_acquire_in; [done|]. apply HQ. split; [done|]. split; [done|]. split; [|done].
  change (hart_same (push_off (hart_of s)) (hart_of (set_hart (push_off (hart_of s)) s))). by rewrite hart_of_set_hart.
Qed.

Lemma wp_lg_release h0 Q (s : log_st A) :
  lg_cs h0 s ->
  (forall l h, lk_locked l = 0 -> hart_same h0 h -> Q tt (set_lg_lock l (set_hart h s))) ->
  wp (release_in get_lg_lock set_lg_lock) Q s.
Proof.
  intros (Hl & Hc & Hs & Hh) HQ. destruct (pop_push_off h0 (hart_of s) Hh Hs) as (h & Hp & Hhh).
  eapply wp_release_in; [unfold get_lg_lock; by rewrite Hl| |exact Hp|by apply HQ].
  unfold get_lg_lock. rewrite Hc. destruct Hs as (E & _). by rewrite E.
Qed.

(** ** Crash safety *)

Definition quiet_log (s : log_st A) : Prop := lk_locked (lg_lock (lo s)) = 0 /\ hart_ok (hart_of s).

(** After a commit nothing is pending, and the cache and the disk agree. *)
Lemma pending_committed st (s s' : log_st A) bs a R n h h0 :
  pending st s bs a R n -> empty_header h0 -> Z.of_nat (length h0) = BSIZE ->
  wrote (lo_bio s) (lo_bio s') a (unpin_all false bs R) (n + regained false bs R) (commit_writes st bs a h h0) -> lists st s' [] ->
  log_clean st (lo_bio s') (apply_writes (commit_writes st bs a h h0) a) (unpin_all false bs R) ->
  pending st s' [] (apply_writes (commit_writes st bs a h h0) a) (unpin_all false bs R) (n + regained false bs R).
Proof.
  intros [P1 P2 P3 P4 P5 P6 P7 P8 P9] Hh0 Hlh0 [W1 W2 W3 W4 W5] Hl Hcl.
  assert (forall d, apply_writes (commit_writes st bs a h h0) d !! st = Some h0) as Est.
  { intros d. unfold commit_writes. rewrite app_assoc, apply_writes_app. simpl. apply lookup_insert_eq. }
  split; try done; [lia|constructor|by intros c ?%elem_of_nil| | |].
  - intros c _ Hs. rewrite W2. apply apply_writes_agree. intros Hc. rewrite apply_writes_notin in Hs by done. apply P7; [|done]. intros Hb. apply Hc. unfold commit_writes.
    rewrite !fmap_app, homes_fst, !elem_of_app. tauto.
  - unfold log_n, hdr. by rewrite W2, Est.
  - exists h0. split; [apply Est|done].
Qed.

Lemma wp_end_op st (s : log_st A) bs a R n Q :
  (0 <= st /\ st + LOGBLOCKS < 2 ^ 31) ->
  pending st s bs a R n -> bs <> [] -> quiet_log s -> lg_outstanding (lo s) = 1 -> lg_committing (lo s) = 0 ->
  (forall s' h h0, header_of bs h -> empty_header h0 ->
     dsk (lo_bio s') = apply_writes (commit_writes st bs a h h0) (dsk (lo_bio s)) ->
     dlog (lo_bio s') = dlog (lo_bio s) ++ commit_writes st bs a h h0 ->
     pending st s' [] (apply_writes (commit_writes st bs a h h0) a) (unpin_all false bs R) (n + regained false bs R) ->
     Z.of_nat (length h0) = BSIZE -> Z.of_nat (length h) = BSIZE -> hart_same (hart_of s) (hart_of s') -> quiet_log s' ->
     lg_outstanding (lo s') = 0 -> lg_committing (lo s') = 0 -> lg_n (lo s') = 0 -> Q tt s') ->
  wp end_op Q s.
Proof.
  intros Hst Hp Hne [Hlk Hh] Ho Hc HQ. unfold end_op. wp_step. apply wp_lg_acquire; [done|done|]. intros l1 s1 Hcs1.
  wp_step. apply wp_gets. change (lg_outstanding (lo s1)) with (lg_outstanding (lo s)).
  change (lg_committing (lo s1)) with (lg_committing (lo s)). rewrite Ho, Hc. cbn [Z.sub Z.add Z.opp Z.pos_sub Z.eqb negb].
  wp_step. apply wp_modify. wp_step. wp_step. wp_step. apply wp_modify. wp_step.
  set (s2 := set_lg_committing 1 _). apply (wp_lg_release (hart_of s)); [exact Hcs1|]. intros l3 h3 Hl3 Hh3.
  assert (hart_ok h3) as Hok3 by (by apply (hart_ok_proper _ _ Hh3)).
  set (s3 := set_lg_lock l3 (set_hart h3 s2)).
  assert (like s s3) as Hlike.
  { split; try done. exists h3. split; [done|]. exact (set_hart_set_hart h3 (push_off (hart_of s)) (lo_bio s)). }
  pose proof (pending_like st s s3 bs a R n Hp Hlike) as Hp3. change (1 - 1 =? 0) with true. cbv iota. wp_step.
  apply (wp_commit st Hst s3 bs a R n); [done|done|]. intros s4 h h0 Hhd Hh0 Hlh0 Hlh Hwr Hl4 Hcl4 Hlg4.
  pose proof (pending_committed _ _ _ _ _ _ _ _ _ Hp3 Hh0 Hlh0 Hwr Hl4 Hcl4) as Hp4. destruct Hwr as [W1 W2 W3 W4 W5].
  assert (hart_of s3 = h3) as Eh3 by exact (hart_of_set_hart h3 s2).
  assert (hart_same h3 (hart_of s4)) as Hh4 by (rewrite <- Eh3; exact W4).
  assert (hart_ok (hart_of s4)) as Hok4 by (by apply (hart_ok_proper _ _ Hh4)).
  destruct Hlg4 as (G1 & G2 & G3).
  wp_step. apply wp_lg_acquire; [rewrite G3; exact Hl3|done|]. intros l5 s5 Hcs5. wp_step. apply wp_modify.
  apply (wp_lg_release (hart_of s4)); [exact Hcs5|]. intros l6 h6 Hl6 Hh6. set (s6 := set_lg_lock _ _).
  assert (hart_ok h6) as Hok6 by (by apply (hart_ok_proper _ _ Hh6)).
  assert (hart_of s6 = h6) as Eh6 by exact (hart_of_set_hart h6 s5).
  apply (HQ s6 h h0); [done|done|exact W2|exact W3| |exact Hlh0|exact Hlh| | |exact G1|done|exact (li_n _ _ _ Hl4)].
  - apply (pending_like st s4); [exact Hp4|]. split; try done. exists h6. split; [done|].
    exact (set_hart_set_hart h6 (push_off (hart_of s4)) (lo_bio s4)).
  - by rewrite Eh6, Hh3, Hh4.
  - split; [exact Hl6|by rewrite Eh6].
Qed.

(** ** log_write *)

Lemma wp_absorb_loop st todo : forall done fuel (s : log_st A) b Q,
  lists st s (done ++ todo) -> (forall c, c ∈ done ++ todo -> 0 <= c < 2 ^ 31) -> b ∉ done -> (length todo < fuel)%nat ->
  (forall i, (done ++ todo) !! i = Some b -> Q (Z.of_nat i) s) ->
  (b ∉ done ++ todo -> Q (Z.of_nat (length (done ++ todo))) s) ->
  wp (absorb_loop fuel b (Z.of_nat (length done))) Q s.
Proof.
  induction todo as [|f todo IH]; intros dn fuel s b Q Hl Hrg Hb Hf H1 H2; (destruct fuel as [|fuel]; [simpl in Hf; lia|]);
    cbn [absorb_loop]; wp_step; apply wp_gets; rewrite (li_n _ _ _ Hl), length_app; cbn [length].
  { rewrite Nat.add_0_r, Z.ltb_irrefl. wp_step. rewrite app_nil_r in H2. by apply H2. }
  rewrite (proj2 (Z.ltb_lt _ _)) by lia. wp_step. eapply wp_lh_block; [exact Hl|by apply list_lookup_middle|].
  assert (0 <= f < 2 ^ 31) as Hfr by (apply Hrg, elem_of_app; right; left). rewrite u32_small by lia.
  destruct (Z.eqb_spec f b) as [->|Hne]; [wp_step; apply H1; by apply list_lookup_middle|].
  replace (Z.of_nat (length dn) + 1) with (Z.of_nat (length (dn ++ [f]))) by (rewrite length_app; simpl; lia).
  replace (dn ++ f :: todo) with ((dn ++ [f]) ++ todo) in * by (by rewrite <- app_assoc).
  apply IH; try done; [|simpl in Hf; lia].
  rewrite elem_of_app. intros [?|E]; [done|]. apply list_elem_of_singleton in E. congruence.
Qed.

(** The block list after [log_write] of block [b], and the references. *)
Definition log_add (b : Z) (bs : list Z) : list Z := if decide (b ∈ bs) then bs else bs ++ [b].
Definition pin_new (b : Z) (bs : list Z) (R : Z -> Z) : Z -> Z := if decide (b ∈ bs) then R else take_ref R b.

Lemma lists_like st (s s' : log_st A) bs : lists st s bs -> like s s' -> lists st s' bs.
Proof. intros [? ? ? ? ?] [_ ? ? ? ?]. split; congruence. Qed.

Lemma lists_add st (s : log_st A) bs b :
  lists st s bs -> Z.of_nat (length bs) < LOGBLOCKS ->
  lists st (set_lg_n (Z.of_nat (length bs) + 1) (set_lg_block (<[length bs := b]> (lg_block (lo s))) s)) (bs ++ [b]).
Proof.
  intros [L1 L2 L3 L4 [t Et]] Hlt. split; simpl; try done.
  - rewrite length_app. simpl. lia.
  - by rewrite length_insert.
  - rewrite Et, length_app in L4. destruct t as [|y t]; [simpl in L4; lia|]. exists t.
    rewrite Et, insert_app_r_alt, Nat.sub_diag by lia. by rewrite <- app_assoc.
Qed.

Lemma wp_log_write st (s : log_st A) bs a R H n x b Q :
  lists st s bs -> bio_rep (lo_bio s) a R H n -> at_buf (lo_bio s) x b -> quiet_log s ->
  (forall c, c ∈ bs -> 0 <= c < 2 ^ 31) -> 0 <= b < 2 ^ 31 -> 0 < R b < 2 ^ 31 ->
  Z.of_nat (length bs) < LOGBLOCKS -> 1 <= lg_outstanding (lo s) ->
  (forall s', lists st s' (log_add b bs) -> bio_rep (lo_bio s') a (pin_new b bs R) H n -> quiet_log s' ->
     hart_same (hart_of s) (hart_of s') -> undisturbed (lo_bio s) (lo_bio s') ->
     (forall y c, at_buf (lo_bio s) y c -> at_buf (lo_bio s') y c) ->
     lg_outstanding (lo s') = lg_outstanding (lo s) -> lg_committing (lo s') = lg_committing (lo s) -> Q tt s') ->
  wp (log_write x) Q s.
Proof.
  intros Hl Hr Hat [Hlk Hh] Hrg Hb HR Hlen Ho HQ. unfold log_write. wp_step. apply wp_lg_acquire; [done|done|].
  intros l1 s1 Hcs1. wp_step. apply wp_gets.
  pose proof (push_off_ok _ Hh) as Hokp.
  assert (lo_bio s1 = set_hart (push_off (hart_of s)) (lo_bio s)) as Eb1 by reflexivity.
  assert (lists st s1 bs) as Hl1 by (apply (lists_like st s); [done|split; try done; eauto]).
  assert (bio_rep (lo_bio s1) a R H n) as Hr1 by (rewrite Eb1; by apply rep_hart).
  change (lg_n (lo s1)) with (lg_n (lo s)). rewrite (li_n _ _ _ Hl).
  change (lg_outstanding (lo s1)) with (lg_outstanding (lo s)).
  replace (Z.of_nat (length bs) >=? LOGBLOCKS) with false by (symmetry; rewrite Z.geb_leb; apply Z.leb_gt; lia).
  replace (lg_outstanding (lo s) <? 1) with false by lia. wp_step. wp_step. wp_step. wp_step.
  destruct (at_buf_ok _ _ _ _ _ _ _ Hr Hat) as (bf & Hx & _ & Eb & _).
  wp_step. apply wp_in_bio. eapply wp_get_buf; [exact Hx|]. rewrite Eb. wp_step.
  assert (forall s4, lists st s4 (log_add b bs) -> bio_rep (lo_bio s4) a (pin_new b bs R) H n -> lg_cs (hart_of s) s4 ->
    undisturbed (lo_bio s1) (lo_bio s4) -> (forall y c, at_buf (lo_bio s) y c -> at_buf (lo_bio s4) y c) ->
    lg_outstanding (lo s4) = lg_outstanding (lo s) -> lg_committing (lo s4) = lg_committing (lo s) ->
    wp (release_in get_lg_lock set_lg_lock) Q s4) as Hfin.
  { intros s4 Hl4 Hr4 Hcs4 U4 K4 O4 C4. apply (wp_lg_release (hart_of s)); [done|]. intros l5 h5 Hl5 Hh5.
    set (s5 := set_lg_lock _ _). assert (hart_of s5 = h5) as Eh5 by exact (hart_of_set_hart h5 s4).
    assert (hart_ok h5) as Hok5 by (by apply (hart_ok_proper _ _ Hh5)).
    assert (lo_bio s5 = set_hart h5 (lo_bio s4)) as Eb5 by reflexivity. apply (HQ s5); try done.
    - apply (lists_like st s4); [done|]. split; try done. eauto.
    - rewrite Eb5. by apply rep_hart.
    - split; [exact Hl5|by rewrite Eh5].
    - by rewrite Eh5.
    - destruct U4 as [V1 V2 V3 V4]. split; [change (hart_same (hart_of s) (hart_of s5)); by rewrite Eh5|exact V2|exact V3|exact V4]. }
  assert (lists st (set_lo_bio (lo_bio s1) s1) bs) as Hl1' by (by apply lists_bio).
  apply (wp_absorb_loop st bs [] _ _ b); [exact Hl1'|exact Hrg|by intros ?%elem_of_nil|lia| |].
  - intros i Hi. cbn [app] in Hi. pose proof (lookup_lt_Some _ _ _ Hi) as Hlt. wp_step. apply wp_set_lh_block.
    { change (0 <= Z.of_nat i < Z.of_nat (length (lg_block (lo s)))). rewrite (li_len _ _ _ Hl). lia. }
    rewrite Nat2Z.id, s32_small by lia.
    change (lg_block (lo (set_lo_bio (lo_bio s1) s1))) with (lg_block (lo s)).
    rewrite list_insert_id by (destruct (li_blocks _ _ _ Hl) as [t ->]; by apply lookup_app_l_Some).
    replace (Z.of_nat i =? Z.of_nat (length bs)) with false by lia. wp_step. wp_step.
    assert (b ∈ bs) as Hin by (by eapply list_elem_of_lookup_2). unfold log_add, pin_new in Hfin.
    rewrite !decide_True in Hfin by done. by apply Hfin.
  - intros Hnin. cbn [app] in *. wp_step. apply wp_set_lh_block.
    { change (0 <= Z.of_nat (length bs) < Z.of_nat (length (lg_block (lo s)))). rewrite (li_len _ _ _ Hl). lia. }
    cbn [app]. rewrite Nat2Z.id, s32_small, Z.eqb_refl by lia. wp_step. wp_step. apply wp_in_bio.
    eapply (wp_bpin _ a R H n x b); [exact Hr1|exact Hat|lia|]. intros b2 Hr2 U2 K2. apply wp_modify.
    unfold log_add, pin_new in Hfin. rewrite !decide_False in Hfin by done. apply Hfin; try done.
    + apply (lists_bio st _ _ b2 (lists_add st s1 bs b Hl1 Hlen)).
    + destruct Hcs1 as (D1 & D2 & D3 & D4). split; [exact D1|]. split; [exact D2|]. split; [|exact D4].
      etrans; [exact D3|]. exact (un_hart _ _ U2).
Qed.

(** ** Transactions *)

(** The idiom of every caller: read a block, change it, [log_write], release. *)
Definition op_write (b : Z) (d : list Z) : M (log_st A) unit :=
  x ← in_bio (bread ROOTDEV b);
  in_bio (store_data x (fun _ => d));;
  log_write x;;
  in_bio (brelse x).

Fixpoint op_writes (W : list write) : M (log_st A) unit :=
  match W with [] => mret tt | (b, d) :: W => op_write b d;; op_writes W end.

Definition transaction (W : list write) : M (log_st A) unit := begin_op;; op_writes W;; end_op.

Lemma log_add_nodup b bs : NoDup bs -> NoDup (log_add b bs).
Proof.
  intros Hnd. unfold log_add. case_decide; [done|]. apply list.NoDup_app. split; [done|]. split.
  - intros x Hx Hb. apply list_elem_of_singleton in Hb as ->. done.
  - apply NoDup_singleton.
Qed.

Lemma elem_of_log_add b bs c : c ∈ log_add b bs <-> c ∈ bs \/ c = b.
Proof.
  unfold log_add. case_decide; [naive_solver|]. rewrite elem_of_app, list_elem_of_singleton. done.
Qed.

Lemma pin_new_range b bs R c :
  R c <= pin_new b bs R c <= R c + 1 /\ (c <> b -> pin_new b bs R c = R c) /\ (c = b -> b ∉ bs -> pin_new b bs R c = R c + 1).
Proof.
  unfold pin_new. destruct (decide (c = b)) as [->|Hne]; case_decide; fn_simpl; repeat split; try done; lia.
Qed.

(** Between two [log_write]s of a system call. *)
Record in_txn (st : Z) (s : log_st A) (bs : list Z) (a : blocks) (R : Z -> Z) (n : nat) : Prop := {
  it_pending : pending st s bs a R n;
  it_quiet : quiet_log s;
  it_outstanding : lg_outstanding (lo s) = 1;
  it_committing : lg_committing (lo s) = 0
}.

Lemma wp_op_write st (s : log_st A) bs a R n b d Q :
  (0 <= st /\ st + LOGBLOCKS < 2 ^ 31) -> in_txn st s bs a R n -> loggable st a R b -> R b < 2 ^ 30 - 1 ->
  (3 <= n)%nat -> Z.of_nat (length bs) < LOGBLOCKS ->
  (forall s', in_txn st s' (log_add b bs) (<[b := d]> a) (pin_new b bs R) (n - 1) ->
     dsk (lo_bio s') = dsk (lo_bio s) -> dlog (lo_bio s') = dlog (lo_bio s) ->
     hart_same (hart_of s) (hart_of s') -> Q tt s') ->
  wp (op_write b d) Q s.
Proof.
  intros Hst [Hp Hq Ho Hc] Hlg HRb Hn Hlen HQ. pose proof Hp as [P1 P2 P3 P4 P5 P6 P7 P8 P9].
  pose proof Hlg as ([old Hold] & Hnl & Hb & HR).
  assert (need (R b) <= 1)%nat as Hnd by (unfold need; destruct (R b =? 0); lia).
  unfold op_write. wp_step. apply wp_in_bio. eapply (wp_bread' _ a R ∅ n b); [done|set_solver|by rewrite Hold|lia|lia|].
  intros x b1 Hr1 Hat1 U1 _. wp_step. apply wp_in_bio.
  eapply (wp_store_data _ _ _ _ _ x b); [exact Hr1|set_solver|done|exact Hold|]. intros b2 Hr2 U2 K2. cbn [lo_bio set_lo_bio] in *.
  assert (undisturbed (lo_bio s) b2) as U12 by (by etrans).
  assert (quiet_log (set_lo_bio b2 s)) as Hq2.
  { destruct Hq as [Q1 Q2]. split; [exact Q1|]. apply (hart_ok_proper _ _ (un_hart _ _ U12)), Q2. }
  wp_step. apply (wp_log_write st (set_lo_bio b2 s) bs (<[b := d]> a) (take_ref R b) ({[b]} ∪ ∅) (n - need (R b)) x b);
    [by apply lists_bio|exact Hr2|by apply K2|exact Hq2| |lia|fn_simpl; lia|done|change (1 <= lg_outstanding (lo s)); lia|].
  { intros c Hc'. destruct (P6 c Hc') as [(_ & _ & ? & _) _]. done. }
  intros s3 Hl3 Hr3 Hq3 Hh3 U3 K3 O3 C3. apply wp_in_bio. destruct (pin_new_range b bs (take_ref R b) b) as (G1 & _ & G2).
  assert (2 <= pin_new b bs (take_ref R b) b) as Hge.
  { destruct (decide (b ∈ bs)) as [Hin|Hnin]; [destruct (P6 b Hin) as [_ ?]|rewrite G2 by done]; revert G1; fn_simpl; lia. }
  eapply (wp_brelse' _ _ _ _ _ x b); [exact Hr3|set_solver|by apply K3, K2|revert G1; fn_simpl; lia|lia|].
  intros b4 Hr4 U4 _. cbn [lo_bio set_lo_bio] in *.
  assert (undisturbed (lo_bio s) b4) as U14 by (etrans; [exact U12|]; by etrans).
  assert (forall c, pin_new b bs R c = <[b := pin_new b bs (take_ref R b) b - 1]> (pin_new b bs (take_ref R b)) c) as ER.
  { intros c. unfold pin_new. case_decide; destruct (decide (c = b)) as [->|Hne]; fn_simpl; lia. }
  assert (log_clean st (set_lo_bio b4 s3).(lo_bio) (<[b := d]> a) (pin_new b bs R)) as Hcl4.
  { intros c Hc'. destruct (P4 c Hc') as (H1 & H2 & H3). assert (c <> b) by (by intros ->).
    rewrite (proj1 (proj2 (pin_new_range b bs R c))) by done. rewrite lookup_insert_ne by done.
    cbn [lo_bio set_lo_bio]. rewrite (un_dsk _ _ U14). by rewrite ?lookup_insert_ne by done. }
  apply HQ; [|exact (un_dsk _ _ U14)|exact (un_dlog _ _ U14)|exact (un_hart _ _ U14)]. split; [|split|change (lg_outstanding (lo s3) = 1); rewrite O3; exact Ho|change (lg_committing (lo s3) = 0); rewrite C3; exact Hc].
  - split.
    + by apply lists_bio.
    + eapply rep_mono; [eapply rep_ext; [exact Hr4|exact ER|set_solver]|]. lia.
    + lia.
    + exact Hcl4.
    + by apply log_add_nodup.
    + intros c [Hin|Heq]%elem_of_log_add.
      * destruct (P6 c Hin) as [(L1 & L2 & L3 & L4) L5]. destruct (pin_new_range b bs R c) as (N1 & N2 & N3). split; [|lia].
        split; [rewrite lookup_insert_is_Some; destruct (decide (b = c)); auto|]. split; [done|]. split; [done|].
        destruct (decide (c = b)) as [->|Hne]; [|rewrite N2 by done; lia]. unfold pin_new. rewrite decide_True by done. lia.
      * subst c. destruct (pin_new_range b bs R b) as (N1 & _ & N3).
        assert (1 <= pin_new b bs R b) by (destruct (decide (b ∈ bs)) as [Hin|Hnin]; [destruct (P6 b Hin); lia|rewrite N3 by done; lia]).
        split; [|done]. split; [rewrite lookup_insert_eq; eauto|]. split; [done|]. split; [done|]. lia.
    + intros c Hc'. cbn [lo_bio set_lo_bio]. rewrite (un_dsk _ _ U14).
      rewrite elem_of_log_add in Hc'. rewrite lookup_insert_ne by (intros ->; apply Hc'; by right).
      apply P7. intros ?. apply Hc'. by left.
    + cbn [lo_bio set_lo_bio]. by rewrite (un_dsk _ _ U14).
    + destruct P9 as (d0 & D1 & D2). exists d0. split; [|done]. rewrite lookup_insert_ne; [done|]. intros ->.
      apply Hnl. unfold in_log, LOGBLOCKS, MAXOPBLOCKS. lia.
  - destruct Hq3 as [Q1 Q2]. exact Q1.
  - apply (hart_ok_proper _ _ (un_hart _ _ U4)), Hr3.
Qed.

Lemma wp_op_writes st W : forall (s : log_st A) bs a R n Q,
  (0 <= st /\ st + LOGBLOCKS < 2 ^ 31) -> in_txn st s bs a R n ->
  (forall b, b ∈ W.*1 -> loggable st a R b /\ R b + Z.of_nat (length W) < 2 ^ 30) ->
  (3 + length W <= n)%nat -> Z.of_nat (length bs + length W) <= LOGBLOCKS ->
  (forall s' bs' R', in_txn st s' bs' (apply_writes W a) R' (n - length W) ->
     (forall c, c ∈ bs' <-> c ∈ bs \/ c ∈ W.*1) ->
     dsk (lo_bio s') = dsk (lo_bio s) -> dlog (lo_bio s') = dlog (lo_bio s) ->
     hart_same (hart_of s) (hart_of s') -> Q tt s') ->
  wp (op_writes W) Q s.
Proof.
  induction W as [|[b d] W IH]; intros s bs a R n Q Hst Ht HW Hn Hlen HQ; cbn [op_writes].
  { wp_step. apply (HQ s bs R); try done; [by rewrite Nat.sub_0_r|]. intros c. simpl. set_solver. }
  cbn [length fmap list_fmap] in *. destruct (HW b) as [Hlg HRb]; [left|].
  wp_step. apply (wp_op_write st s bs a R n); try done; [lia|lia|lia|]. intros s1 Ht1 Ed1 El1 Hh1.
  assert (length (log_add b bs) <= length bs + 1)%nat as Hla by (unfold log_add; case_decide; rewrite ?length_app; simpl; lia).
  apply (IH s1 (log_add b bs) (<[b := d]> a) (pin_new b bs R) (n - 1)%nat); try done; [|lia|lia|].
  - intros c Hc. destruct (HW c) as [(L1 & L2 & L3 & L4) HRc]; [by right|]. destruct (pin_new_range b bs R c) as [Hr _].
    split; [|lia]. split; [rewrite lookup_insert_is_Some; destruct (decide (b = c)); auto|]. split; [done|]. split; [done|lia].
  - intros s2 bs2 R2 Ht2 Hin Ed2 El2 Hh2. apply (HQ s2 bs2 R2); [|intros c; rewrite Hin, elem_of_log_add, elem_of_cons; tauto|congruence|congruence|by rewrite Hh1].
    simpl. replace (n - S (length W))%nat with (n - 1 - length W)%nat by lia. done.
Qed.

(** A crash during recovery. *)
Definition recovery_crash (st : Z) (d d' : blocks) : Prop :=
  exists h0 P, empty_header h0 /\ P `prefix_of` recover_writes st d h0 /\ d' = apply_writes P d.

Lemma recovery_crashes st d d' :
  rtc (recovery_crash st) d d' -> log_wf st d -> log_wf st d' /\ same_data st (recovered st d') (recovered st d).
Proof.
  induction 1 as [d|d1 d2 d3 (h0 & P & Hh & HP & ->) _ IH]; intros Hwf; [done|].
  destruct (recover_prefix st d1 h0 P Hwf Hh HP) as [Hwf2 Hs2]. destruct (IH Hwf2) as [? Hs3].
  split; [done|]. by etrans.
Qed.

Lemma wp_begin_op (s : log_st A) Q :
  quiet_log s -> lg_committing (lo s) = 0 -> lg_n (lo s) + (lg_outstanding (lo s) + 1) * MAXOPBLOCKS <= LOGBLOCKS ->
  (forall s', like s s' -> quiet_log s' -> hart_same (hart_of s) (hart_of s') ->
     lg_outstanding (lo s') = lg_outstanding (lo s) + 1 -> lg_committing (lo s') = 0 -> Q tt s') ->
  wp begin_op Q s.
Proof.
  intros [Hl Hh] Hc Hn HQ. unfold begin_op. wp_step. apply wp_lg_acquire; [done|done|]. intros l1 s1 Hcs1. wp_step. apply wp_gets.
  change (lg_committing (lo s1)) with (lg_committing (lo s)). rewrite Hc. cbn [Z.eqb negb].
  change (lg_n (lo s1)) with (lg_n (lo s)). change (lg_outstanding (lo s1)) with (lg_outstanding (lo s)).
  destruct (Z.gtb_spec (lg_n (lo s) + (lg_outstanding (lo s) + 1) * MAXOPBLOCKS) LOGBLOCKS) as [?|_]; [lia|].
  wp_step. apply wp_modify. apply (wp_lg_release (hart_of s)); [exact Hcs1|]. intros l2 h2 Hl2 Hh2. set (s2 := set_lg_lock _ _).
  assert (hart_of s2 = h2) as Eh by exact (hart_of_set_hart h2 s1).
  assert (hart_ok h2) as Hok by (by apply (hart_ok_proper _ _ Hh2)).
  apply (HQ s2); [|split; [exact Hl2|by rewrite Eh]|by rewrite Eh|done|exact Hc].
  split; try done. exists h2. split; [done|]. exact (set_hart_set_hart h2 (push_off (hart_of s)) (lo_bio s)).
Qed.

(** The log between system calls. *)
Record idle (st : Z) (s : log_st A) (a : blocks) (R : Z -> Z) (n : nat) : Prop := {
  id_range : 0 <= st /\ st + LOGBLOCKS < 2 ^ 31;
  id_pending : pending st s [] a R n;
  id_quiet : quiet_log s;
  id_outstanding : lg_outstanding (lo s) = 0;
  id_committing : lg_committing (lo s) = 0
}.

(** Closing an operation: its changes reach their homes, and a crash at any
    point of the commit, or of the recoveries that follow, is recovered to
    the disk before the operation or to the disk after it. *)
Lemma end_op_atomic st (s : log_st A) bs a R n :
  (0 <= st /\ st + LOGBLOCKS < 2 ^ 31) -> in_txn st s bs a R n -> bs <> [] ->
  wp end_op (fun _ s' =>
    let d := dsk (lo_bio s) in let new := apply_writes (homes bs a) d in
    same_data st (dsk (lo_bio s')) new /\ log_n st (dsk (lo_bio s')) = 0 /\
    lg_n (lo s') = 0 /\ lg_outstanding (lo s') = 0 /\ lg_committing (lo s') = 0 /\
    (exists h h0, idle st s' (apply_writes (commit_writes st bs a h h0) a) (unpin_all false bs R) (n + regained false bs R) /\
      Z.of_nat (length h) = BSIZE /\ Z.of_nat (length h0) = BSIZE) /\
    exists L, dlog (lo_bio s') = dlog (lo_bio s) ++ L /\ dsk (lo_bio s') = apply_writes L d /\
      forall P D, P `prefix_of` L -> rtc (recovery_crash st) (apply_writes P d) D ->
        log_wf st D /\ (same_data st (recovered st D) d \/ same_data st (recovered st D) new)) s.
Proof.
  intros Hst [Hp Hq Ho Hc] Hne. apply (wp_end_op st s bs a R n); try done.
  intros s3 h h0 Hh Hh0 Ed3 El3 Hp3 Hlh0 Hlh Hhs3 Hq3 O3 C3 N3. set (d := dsk (lo_bio s)) in *.
  assert (log_n st d = 0) as Hd0 by apply Hp. pose proof (pending_txn _ _ _ _ _ _ Hp) as Htx.
  assert (log_n st (dsk (lo_bio s3)) = 0) as Hn3.
  { rewrite Ed3. unfold commit_writes. rewrite app_assoc, apply_writes_app. simpl. unfold log_n, hdr. by rewrite lookup_insert_eq. }
  split; [|split; [done|split; [done|split; [done|split; [done|split; [by exists h, h0|]]]]]].
  - rewrite Ed3. unfold commit_writes. rewrite app_assoc, apply_writes_app. simpl. rewrite same_data_header, apply_writes_app.
    apply same_data_apply. rewrite apply_writes_app. simpl. rewrite same_data_header. by apply (same_data_copies st bs a).
  - eexists. split; [exact El3|]. split; [exact Ed3|]. intros P D HP HD.
    destruct (commit_prefix st bs a h h0 d P Htx Hh Hh0 Hd0 HP) as [Hwf Hcase].
    destruct (recovery_crashes st _ D HD Hwf) as [HwfD HsD]. split; [done|]. rewrite HsD. exact Hcase.
Qed.

(** C9: transactions are atomic across crashes.  A system call that opens an
    operation with [begin_op], changes up to MAXOPBLOCKS blocks through
    [bread]/[log_write]/[brelse] and closes it with [end_op] returns with all
    its changes on the disk and the log empty; and if power fails after any
    number of the disk writes it makes, and again any number of times during
    recovery, the disk always has a log that recovery can follow, and
    recovery makes of it the disk before the call or the disk after it, never
    a mixture. *)
Theorem transaction_atomic st W (s : log_st A) a R n :
  idle st s a R n -> W <> [] -> Z.of_nat (length W) <= MAXOPBLOCKS -> (3 + length W <= n)%nat ->
  (forall b, b ∈ W.*1 -> loggable st a R b /\ R b < 2 ^ 29) ->
  wp (transaction W) (fun _ s' =>
    let d := dsk (lo_bio s) in let new := apply_writes W d in
    same_data st (dsk (lo_bio s')) new /\ log_n st (dsk (lo_bio s')) = 0 /\
    lg_n (lo s') = 0 /\ lg_outstanding (lo s') = 0 /\ lg_committing (lo s') = 0 /\
    exists L, dlog (lo_bio s') = dlog (lo_bio s) ++ L /\ dsk (lo_bio s') = apply_writes L d /\
      forall P D, P `prefix_of` L -> rtc (recovery_crash st) (apply_writes P d) D ->
        log_wf st D /\ (same_data st (recovered st D) d \/ same_data st (recovered st D) new)) s.
Proof.
  intros [Hst Hp Hq Ho Hc] Hne Hlen Hn HW. unfold transaction. wp_step.
  pose proof (li_n _ _ _ (pe_lists _ _ _ _ _ _ Hp)) as En. simpl in En. unfold MAXOPBLOCKS in Hlen.
  apply wp_begin_op; [done|done|rewrite En, Ho; unfold LOGBLOCKS, MAXOPBLOCKS; lia|]. intros s1 Hlike Hq1 Hh1 Ho1 Hc1. rewrite Ho in Ho1.
  pose proof (pending_like st s s1 [] a R n Hp Hlike) as Hp1. wp_step.
  assert (dsk (lo_bio s1) = dsk (lo_bio s) /\ dlog (lo_bio s1) = dlog (lo_bio s)) as [Ed1 El1] by (destruct (lk_bio _ _ Hlike) as (h & _ & ->); done).
  apply (wp_op_writes st W s1 [] a R n); [done|by split| |done|unfold LOGBLOCKS, MAXOPBLOCKS; simpl; lia|].
  { intros b Hb. destruct (HW b Hb). split; [done|lia]. }
  intros s2 bs R2 [Hp2 Hq2 Ho2 Hc2] Hin Ed2 El2 Hh2.
  assert (forall c, c ∈ bs <-> c ∈ W.*1) as Hbs by (intros c; rewrite Hin; set_solver).
  assert (bs <> []) as Hbne by (intros ->; destruct W as [|[b d] W]; [done|]; specialize (Hbs b); set_solver).
  assert (dsk (lo_bio s2) = dsk (lo_bio s) /\ dlog (lo_bio s2) = dlog (lo_bio s)) as [E1 E2] by (split; congruence).
  assert (same_data st (apply_writes (homes bs (apply_writes W a)) (dsk (lo_bio s))) (apply_writes W (dsk (lo_bio s)))) as Hhomes.
  { intros c _. destruct (decide (c ∈ bs)) as [Hb|Hb].
    - destruct (pe_blocks _ _ _ _ _ _ Hp2 c Hb) as [([x Hx] & _) _].
      rewrite (apply_writes_in W _ a) by (by apply Hbs). rewrite Hx.
      apply (homes_lookup bs _ _ c); [|done|done]. apply Hp2.
    - rewrite !apply_writes_notin; [done|by rewrite <- Hbs|by rewrite homes_fst]. }
  eapply wp_mono; [apply (end_op_atomic st s2 bs (apply_writes W a) R2 (n - length W)); [done|by split|done]|].
  cbv zeta. rewrite E1, E2. intros [] s3 (F1 & F2 & F3 & F4 & F5 & _ & L & F6 & F7 & F8). rewrite Hhomes in F1.
  do 5 (split; [done|]). exists L. split; [done|]. split; [done|]. intros P D HP HD.
  destruct (F8 P D HP HD) as [? [?|HD']]; split; [done|by left|done|]. right. by rewrite HD'.
Qed.

(** C23: at boot, [initlog] recovers: it installs exactly the committed
    transaction the on-disk log describes (nothing if the log is empty),
    leaves an empty log on disk and in memory, and can itself be interrupted:
    after any prefix of its disk writes the disk still recovers to the same
    contents. *)
Theorem recovery_correct st sb (s : log_st A) d n :
  (0 <= st /\ st + LOGBLOCKS < 2 ^ 31) -> sb_logstart sb = st -> bootable st s d n ->
  wp (initlog ROOTDEV sb) (fun _ s' =>
    same_data st (dsk (lo_bio s')) (recovered st d) /\ log_n st (dsk (lo_bio s')) = 0 /\ lg_n (lo s') = 0 /\
    exists L, dlog (lo_bio s') = dlog (lo_bio s) ++ L /\ dsk (lo_bio s') = apply_writes L d /\
      forall P, P `prefix_of` L ->
        log_wf st (apply_writes P d) /\ same_data st (recovered st (apply_writes P d)) (recovered st d)) s.
Proof.
  intros Hst Esb Hb. unfold initlog. wp_step. change (sizeof_logheader >=? BSIZE) with false. cbv iota.
  wp_step. wp_step. apply wp_modify. wp_step. apply wp_modify. wp_step. apply wp_modify.
  set (s1 := set_lg_dev _ _). assert (bootable st s1 d n) as Hb1 by (destruct Hb; by split).
  eapply (wp_recover_from_log st Hst s1 d n); [exact Hb1|done|simpl; rewrite Esb; apply s32_small; unfold LOGBLOCKS, MAXOPBLOCKS in Hst; lia|].
  intros s2 h0 Hh0 Hlh [W1 W2 W3 W4 W5] Hl. pose proof (bo_wf _ _ _ _ Hb) as Hwf.
  rewrite (bo_dsk _ _ _ _ Hb1) in W2. change (dlog (lo_bio s1)) with (dlog (lo_bio s)) in W3.
  destruct (recover_prefix st d h0 _ Hwf Hh0 (reflexivity (recover_writes st d h0))) as [_ Hfin].
  assert (log_n st (dsk (lo_bio s2)) = 0) as Hn2.
  { rewrite W2. unfold recover_writes. rewrite apply_writes_app. simpl. unfold log_n, hdr. by rewrite lookup_insert_eq. }
  split; [|split; [done|split; [exact (li_n _ _ _ Hl)|]]].
  - rewrite <- Hfin, <- W2. by rewrite recovered_nil.
  - eexists. split; [exact W3|]. split; [exact W2|]. intros P HP. by apply (recover_prefix st d h0).
Qed.

End Thms.

(** ** A concrete log *)

Definition zero_block : list Z := replicate 1024 0.
Definition zero_disk : blocks := list_to_map ((fun b => (b, zero_block)) <$> seqZ 0 40).

Lemma zero_disk_lookup b : 0 <= b < 40 -> zero_disk !! b = Some zero_block.
Proof.
  intros Hb. apply elem_of_list_to_map_1.
  - rewrite <- list_fmap_compose. rewrite list_fmap_id. apply NoDup_seqZ.
  - apply list_elem_of_fmap. exists b. split; [done|]. apply elem_of_seqZ. lia.
Qed.

Abbreviation demo_log := (mkLogSt
  (mkBio (mkPool (mkMach (mkHart 1 0 false true) ∅) 100) (mkLock EmptyString 0 0) ∅ [] 0 0 zero_disk [] 3)
  (mkLog (mkLock EmptyString 0 0) 2 0 0 1 0 (replicate 30 0))).

Lemma demo_rep : bio_rep (lo_bio demo_log) zero_disk (fun _ => 0) ∅ 20.
Proof.
  split; [exact (core_empty _ _)|reflexivity|repeat split; done|reflexivity|done|].
  exists 20%nat. split; [|simpl; lia]. split; [change (0 < 100); lia|]. intros x Hx. by apply elem_of_nil in Hx.
Qed.

Lemma demo_log_n : log_n 2 zero_disk = 0.
Proof. unfold log_n, hdr. rewrite zero_disk_lookup by lia. reflexivity. Qed.

Lemma demo_range : 0 <= 2 /\ 2 + LOGBLOCKS < 2 ^ 31.
Proof. unfold LOGBLOCKS, MAXOPBLOCKS. lia. Qed.

Lemma demo_idle : idle 2 demo_log zero_disk (fun _ => 0) 20.
Proof.
  split; [exact demo_range| |split; [reflexivity|repeat split; done]|reflexivity|reflexivity]. split.
  - split; try reflexivity. apply prefix_nil.
  - exact demo_rep.
  - lia.
  - intros c Hc. split; [done|]. unfold in_log, LOGBLOCKS, MAXOPBLOCKS in Hc.
    split; [rewrite zero_disk_lookup by lia; eauto|done].
  - constructor.
  - intros c Hc. by apply elem_of_nil in Hc.
  - done.
  - exact demo_log_n.
  - exists zero_block. split; [by rewrite zero_disk_lookup|reflexivity].
Qed.

Lemma transaction_atomic_witness :
  wp (transaction [(35, [7]); (36, [8]); (35, [9])]) (fun _ s' =>
    let d := dsk (lo_bio demo_log) in let new := apply_writes [(35, [7]); (36, [8]); (35, [9])] d in
    same_data 2 (dsk (lo_bio s')) new /\ log_n 2 (dsk (lo_bio s')) = 0 /\
    lg_n (lo s') = 0 /\ lg_outstanding (lo s') = 0 /\ lg_committing (lo s') = 0 /\
    exists L, dlog (lo_bio s') = dlog (lo_bio demo_log) ++ L /\ dsk (lo_bio s') = apply_writes L d /\
      forall P D, P `prefix_of` L -> rtc (recovery_crash 2) (apply_writes P d) D ->
        log_wf 2 D /\ (same_data 2 (recovered 2 D) d \/ same_data 2 (recovered 2 D) new)) demo_log.
Proof.
  refine (transaction_atomic 2 [(35, [7]); (36, [8]); (35, [9])] demo_log zero_disk (fun _ => 0) 20 demo_idle _ _ _ _);
    [discriminate|unfold MAXOPBLOCKS; simpl; lia|simpl; lia|].
  intros b Hb. assert (35 <= b <= 36) as Hr.
  { change (b ∈ [35; 36; 35]) in Hb. repeat (apply elem_of_cons in Hb as [->|Hb]; [lia|]). by apply elem_of_nil in Hb. }
  split; [|lia]. split; [rewrite zero_disk_lookup by lia; eauto|]. unfold in_log, LOGBLOCKS, MAXOPBLOCKS.
  split; [lia|]. split; lia.
Defined.

(** The machine went down after a commit of block 35 and before installing
    it. *)
Definition committed_disk : blocks :=
  <[2 := wr32 (wr32 zero_block 0 1) 4 35]> (<[3 := replicate 1024 7]> zero_disk).

Abbreviation crashed_log := (mkLogSt
  (mkBio (mkPool (mkMach (mkHart 1 0 false true) ∅) 100) (mkLock EmptyString 0 0) ∅ [] 0 0 committed_disk [] 3)
  (mkLog (mkLock EmptyString 0 0) 0 0 0 0 0 (replicate 30 0))).

Lemma crashed_hdr : hdr 2 committed_disk = wr32 (wr32 zero_block 0 1) 4 35.
Proof. unfold hdr, committed_disk. by rewrite lookup_insert_eq. Qed.

Lemma crashed_n : log_n 2 committed_disk = 1.
Proof. unfold log_n. rewrite crashed_hdr. reflexivity. Qed.

Lemma crashed_dst : log_dst 2 committed_disk 0 = 35.
Proof. unfold log_dst. rewrite crashed_hdr. reflexivity. Qed.

Lemma crashed_is_Some c : 0 <= c < 40 -> is_Some (committed_disk !! c).
Proof.
  intros Hc. unfold committed_disk. rewrite !lookup_insert_is_Some, zero_disk_lookup by done.
  destruct (decide (2 = c)), (decide (3 = c)); eauto 6.
Qed.

Lemma crashed_bootable : bootable 2 crashed_log committed_disk 20.
Proof.
  split; [reflexivity| |reflexivity|lia| | | |].
  - split; [exact (core_empty _ _)|reflexivity|repeat split; done|reflexivity|done|].
    exists 20%nat. split; [|simpl; lia]. split; [change (0 < 100); lia|]. intros x Hx. by apply elem_of_nil in Hx.
  - unfold log_wf. rewrite crashed_n. split; [unfold LOGBLOCKS, MAXOPBLOCKS; lia|]. intros i Hi.
    replace i with 0 by lia. rewrite crashed_dst. unfold in_log, LOGBLOCKS, MAXOPBLOCKS. lia.
  - intros c Hc. unfold in_log, LOGBLOCKS, MAXOPBLOCKS in Hc. apply crashed_is_Some. lia.
  - rewrite crashed_hdr. reflexivity.
  - intros i. rewrite crashed_n. intros Hi. replace i with 0 by lia. rewrite crashed_dst.
    split; [apply crashed_is_Some|]; lia.
Qed.

Lemma crashed_recovered : recovered 2 committed_disk !! 35 = Some (replicate 1024 7).
Proof.
  unfold recovered, log_entries. rewrite crashed_n. change (seqZ 0 1) with [0].
  cbn [fmap list_fmap apply_writes]. unfold log_entry. rewrite crashed_dst. cbn [apply_writes].
  rewrite lookup_insert_eq. unfold committed_disk. rewrite lookup_insert_ne by lia.
  change (2 + 1 + 0) with 3. by rewrite lookup_insert_eq.
Qed.

Lemma recovery_correct_witness :
  recovered 2 committed_disk !! 35 = Some (replicate 1024 7) /\
  wp (initlog ROOTDEV (mkSuper 0 0 0 0 0 2 0 0)) (fun _ s' =>
    same_data 2 (dsk (lo_bio s')) (recovered 2 committed_disk) /\ log_n 2 (dsk (lo_bio s')) = 0 /\ lg_n (lo s') = 0 /\
    exists L, dlog (lo_bio s') = dlog (lo_bio crashed_log) ++ L /\ dsk (lo_bio s') = apply_writes L committed_disk /\
      forall P, P `prefix_of` L ->
        log_wf 2 (apply_writes P committed_disk) /\
        same_data 2 (recovered 2 (apply_writes P committed_disk)) (recovered 2 committed_disk)) crashed_log.
Proof.
  split.
  - exact crashed_recovered.
  - exact (recovery_correct 2 (mkSuper 0 0 0 0 0 2 0 0) crashed_log committed_disk 20 demo_range eq_refl crashed_bootable).
Defined.
