(* ===== verification/Ulib.v ===== *)
(** * user/ulib.c: the C library of user programs

    The byte loops of user/ulib.c over a process's memory, and the two system
    calls the programs modelled here live on, [read] and [write], as the
    process sees them: the open file is the sequence of bytes still to be
    read, a [read] may deliver fewer bytes than asked for (the list [chunks]
    says how many), and what is written is appended to [out].

    Loops that run until a NUL byte take a bound; the lemmas show that the
    length of the string is enough. *)

From Stdlib Require Import ZArith Lia Bool.
From stdpp Require Import base gmap list.
From S2P Require Import Prelude Mem.

(** ** The string routines *)

(** [while(( *s++ = *t++ ) != 0) ;] *)
Fixpoint strcpy_loop (fuel : nat) (m : mem) (s t : Z) : option mem :=
  match fuel with
  | O => None
  | S f =>
      let c := rdb m t in
      let m' := stb m s c in
      if c =? 0 then Some m' else strcpy_loop f m' (s + 1) (t + 1)
  end.

Definition strcpy (bound : nat) (m : mem) (s t : Z) : option mem := strcpy_loop bound m s t.

(** [while( *p && *p == *q ) p++, q++; return (uchar)*p - (uchar)*q;] *)
Fixpoint strcmp (fuel : nat) (m : mem) (p q : Z) : option Z :=
  match fuel with
  | O => None
  | S f =>
      if negb (rdb m p =? 0) && (rdb m p =? rdb m q) then strcmp f m (p + 1) (q + 1)
      else Some (rdb m p - rdb m q)
  end.

(** [for(n = 0; s[n]; n++) ;] *)
Fixpoint strlen_from (fuel : nat) (m : mem) (s n : Z) : option Z :=
  match fuel with
  | O => None
  | S f => if rdb m (s + n) =? 0 then Some (u32 n) else strlen_from f m s (s32 (n + 1))
  end.

Definition strlen (bound : nat) (m : mem) (s : Z) : option Z := strlen_from bound m s 0.

Fixpoint memset_from (k : nat) (m : mem) (dst c i : Z) : mem :=
  match k with
  | O => m
  | S k' => memset_from k' (stb m (dst + i) c) dst c (i + 1)
  end.

Definition memset (m : mem) (dst c n : Z) : mem := memset_from (Z.to_nat n) m dst c 0.

(** The null pointer is [None] of the inner option. *)
Fixpoint strchr (fuel : nat) (m : mem) (s c : Z) : option (option Z) :=
  match fuel with
  | O => None
  | S f =>
      if rdb m s =? 0 then Some None
      else if rdb m s =? c then Some (Some s)
      else strchr f m (s + 1) c
  end.

Definition is_digit (c : Z) : bool := (48 <=? c) && (c <=? 57).

(** [n = n*10 + *s++ - '0'] at the width of [int]. *)
Fixpoint atoi_loop (fuel : nat) (m : mem) (s n : Z) : option Z :=
  match fuel with
  | O => None
  | S f =>
      let c := rdb m s in
      if is_digit c then atoi_loop f m (s + 1) (s32 (s32 (s32 (n * 10) + c) - 48))
      else Some n
  end.

Definition atoi (bound : nat) (m : mem) (s : Z) : option Z := atoi_loop bound m s 0.

(** The user-level [memmove] chooses its direction by the addresses alone. *)
Definition memmove (m : mem) (vdst vsrc n : Z) : mem :=
  if vsrc >? vdst then memmove_up (Z.to_nat n) m vdst vsrc
  else memmove_down (Z.to_nat n) m (vdst + n) (vsrc + n).

Fixpoint memcmp_from (n : nat) (m : mem) (p1 p2 : Z) : Z :=
  match n with
  | O => 0
  | S n' =>
      if negb (rdb m p1 =? rdb m p2) then rdb m p1 - rdb m p2
      else memcmp_from n' m (p1 + 1) (p2 + 1)
  end.

Definition memcmp (m : mem) (s1 s2 n : Z) : Z := memcmp_from (Z.to_nat n) m s1 s2.

Definition memcpy (m : mem) (dst src n : Z) : mem := memmove m dst src n.

(** ** The process and its open files *)

Record ust := Ust {
  um : mem;            (* the memory of the process *)
  inp : list Z;        (* bytes of the input not yet read *)
  chunks : list nat;   (* how many bytes, less one, the next reads deliver at most *)
  out : list Z         (* bytes written *)
}.

Definition set_um (m : mem) (s : ust) : ust := Ust m (inp s) (chunks s) (out s).

Fixpoint put_bytes (m : mem) (dst : Z) (l : list Z) : mem :=
  match l with
  | [] => m
  | c :: l' => put_bytes (stb m dst c) (dst + 1) l'
  end.

Fixpoint get_bytes (n : nat) (m : mem) (p : Z) : list Z :=
  match n with
  | O => []
  | S n' => rdb m p :: get_bytes n' m (p + 1)
  end.

(** What one [read] of [n] bytes delivers. *)
Definition delivered (s : ust) (n : Z) : nat :=
  match chunks s with
  | [] => Z.to_nat n
  | k :: _ => Nat.min (Z.to_nat n) (S k)
  end.

Definition read (dst n : Z) : M ust Z := fun s =>
  let l := take (delivered s n) (inp s) in
  Ret (Z.of_nat (length l),
       Ust (put_bytes (um s) dst l) (drop (delivered s n) (inp s)) (tail (chunks s)) (out s)).

Definition write (p n : Z) : M ust unit := fun s =>
  Ret (tt, Ust (um s) (inp s) (chunks s) (out s ++ get_bytes (Z.to_nat n) (um s) p)).

Definition store (a v : Z) : M ust unit := modify (fun s => set_um (stb (um s) a v) s).

(** [gets(buf, max)], with [c] the address of its local variable. *)
Fixpoint gets_loop (fuel : nat) (c buf max i : Z) : M ust Z :=
  match fuel with
  | O => out_of_fuel
  | S f =>
      if i + 1 <? max then
        cc ← read c 1;
        if cc <? 1 then mret i
        else
          ch ← gets (fun s => rdb (um s) c);
          store (buf + i) ch;;
          if (ch =? 10) || (ch =? 13) then mret (i + 1) else gets_loop f c buf max (i + 1)
      else mret i
  end.

Definition gets_ (c buf max : Z) : M ust Z :=
  i ← gets_loop (S (Z.to_nat max)) c buf max 0;
  store (buf + i) 0;;
  mret buf.

(** ** Strings in memory *)

(** The NUL-terminated string [l] is stored at [p]. *)
Fixpoint str_at (m : mem) (p : Z) (l : list Z) : Prop :=
  match l with
  | [] => rdb m p = 0
  | c :: l' => rdb m p = c /\ c <> 0 /\ str_at m (p + 1) l'
  end.

(** The bytes [l], with no terminator, are stored at [p]. *)
Fixpoint bytes_at (m : mem) (p : Z) (l : list Z) : Prop :=
  match l with
  | [] => True
  | c :: l' => rdb m p = c /\ bytes_at m (p + 1) l'
  end.

Definition byte_ok (c : Z) : Prop := 0 <= c < 256.

Lemma str_at_app m p l1 l2 :
  str_at m p (l1 ++ l2) <->
  bytes_at m p l1 /\ Forall (fun c => c <> 0) l1 /\ str_at m (p + Z.of_nat (length l1)) l2.
Proof.
  revert p. induction l1 as [|c l1 IH]; intros p; simpl.
  { rewrite Z.add_0_r, Forall_nil. tauto. }
  rewrite IH, Forall_cons. replace (p + 1 + Z.of_nat (length l1)) with
    (p + Z.of_nat (S (length l1))) by lia. tauto.
Qed.

Lemma bytes_at_app m p l1 l2 :
  bytes_at m p (l1 ++ l2) <-> bytes_at m p l1 /\ bytes_at m (p + Z.of_nat (length l1)) l2.
Proof.
  revert p. induction l1 as [|c l1 IH]; intros p; simpl.
  { rewrite Z.add_0_r. tauto. }
  rewrite IH. replace (p + 1 + Z.of_nat (length l1)) with
    (p + Z.of_nat (S (length l1))) by lia. tauto.
Qed.

Lemma bytes_at_ext m m' p p' l :
  (forall i, 0 <= i < Z.of_nat (length l) -> rdb m' (p' + i) = rdb m (p + i)) ->
  bytes_at m p l -> bytes_at m' p' l.
Proof.
  revert p p'. induction l as [|c l IH]; intros p p' H; simpl; [done|]. intros [H1 H2]. split.
  - specialize (H 0). rewrite !Z.add_0_r in H. rewrite H; [done|simpl; lia].
  - apply (IH (p + 1)); [|done]. intros i Hi. replace (p' + 1 + i) with (p' + (i + 1)) by lia.
    rewrite H by (simpl; lia). f_equal. lia.
Qed.

Lemma str_at_ext m m' p l :
  (forall x, p <= x <= p + Z.of_nat (length l) -> rdb m' x = rdb m x) ->
  str_at m p l -> str_at m' p l.
Proof.
  revert p. induction l as [|c l IH]; intros p H; simpl.
  { rewrite (H p) by (simpl; lia). done. }
  intros (H1 & H2 & H3). rewrite (H p) by (simpl; lia). split_and!; [done..|].
  apply IH; [|done]. intros x Hx. apply H. simpl. lia.
Qed.

Lemma str_at_modifies W m m' p l :
  modifies W m m' -> (forall x, p <= x <= p + Z.of_nat (length l) -> ~ W x) ->
  str_at m p l -> str_at m' p l.
Proof. intros HM HW. apply str_at_ext. intros x Hx. apply HM. by apply HW. Qed.

Lemma get_bytes_at m p l : bytes_at m p l -> get_bytes (length l) m p = l.
Proof.
  revert p. induction l as [|c l IH]; intros p; simpl; [done|].
  intros [-> H]. by rewrite IH.
Qed.

Lemma rdb_put_bytes m dst l x :
  ~ (dst <= x < dst + Z.of_nat (length l)) -> rdb (put_bytes m dst l) x = rdb m x.
Proof.
  revert m dst. induction l as [|c l IH]; intros m dst H; simpl; [done|].
  simpl in H. rewrite IH by lia. rewrite rdb_stb, decide_False by lia. done.
Qed.

Lemma put_bytes_at m dst l : Forall byte_ok l -> bytes_at (put_bytes m dst l) dst l.
Proof.
  revert m dst. induction l as [|c l IH]; intros m dst H; simpl; [done|].
  apply Forall_cons in H as [Hc H]. split; [|by apply IH].
  rewrite rdb_put_bytes by lia. rewrite rdb_stb, decide_True by done.
  by apply Z.mod_small.
Qed.

Lemma rdb_umemmove m dst src n x :
  0 <= n -> rdb (memmove m dst src n) x =
  if decide (dst <= x < dst + n) then rdb m (src + (x - dst)) else rdb m x.
Proof.
  intros Hn. unfold memmove. destruct (src >? dst) eqn:E.
  - apply Z.gtb_lt in E. rewrite rdb_memmove_up by lia. repeat case_decide; try lia; done.
  - assert (~ (src > dst)) by (intros ?; assert (src >? dst = true) by (apply Z.gtb_lt; lia); congruence).
    rewrite rdb_memmove_down by lia. repeat case_decide; try lia; try done; f_equal; lia.
Qed.

(** [strchr] finds the first occurrence. *)
Lemma strchr_found m s c l1 l2 f :
  str_at m s (l1 ++ c :: l2) -> c ∉ l1 -> (length l1 < f)%nat ->
  strchr f m s c = Some (Some (s + Z.of_nat (length l1))).
Proof.
  revert s f. induction l1 as [|x l1 IH]; intros s [|f] H Hc Hf; simpl in *; try lia.
  - destruct H as (-> & H & _). replace (c =? 0) with false by lia.
    by rewrite Z.eqb_refl, Z.add_0_r.
  - destruct H as (-> & Hx & H). apply not_elem_of_cons in Hc as [Hxc Hc].
    replace (x =? 0) with false by lia. replace (x =? c) with false by lia.
    rewrite IH by (try done; lia). do 2 f_equal. lia.
Qed.

Lemma strchr_absent m s c l f :
  str_at m s l -> c ∉ l -> (length l < f)%nat -> strchr f m s c = Some None.
Proof.
  revert s f. induction l as [|x l IH]; intros s [|f] H Hc Hf; simpl in *; try lia.
  - by rewrite H.
  - destruct H as (-> & Hx & H). apply not_elem_of_cons in Hc as [Hxc Hc].
    replace (x =? 0) with false by lia. replace (x =? c) with false by lia.
    apply IH; [done..|lia].
Qed.

Lemma wp_read dst n Q s :
  (forall l rest, inp s = l ++ rest -> (length l <= Z.to_nat n)%nat ->
     (l = [] -> n <= 0 \/ inp s = []) ->
     Q (Z.of_nat (length l)) (Ust (put_bytes (um s) dst l) rest (tail (chunks s)) (out s))) ->
  wp (read dst n) Q s.
Proof.
  intros H. unfold wp, read. apply H.
  - by rewrite take_drop.
  - rewrite length_take. unfold delivered. destruct (chunks s); lia.
  - intros HE. apply (f_equal length) in HE. rewrite length_take in HE. simpl in HE.
    destruct (inp s) as [|x r]; [by right|left]. simpl in HE.
    unfold delivered in HE. destruct (chunks s); lia.
Qed.

Lemma wp_write p n Q s :
  Q tt (Ust (um s) (inp s) (chunks s) (out s ++ get_bytes (Z.to_nat n) (um s) p)) ->
  wp (write p n) Q s.
Proof. done. Qed.

Lemma strlen_str m s l f :
  str_at m s l -> (length l < f)%nat -> Z.of_nat (length l) < 2 ^ 31 ->
  strlen f m s = Some (Z.of_nat (length l)).
Proof.
  unfold strlen. intros H Hf Hl.
  assert (forall k pre suf, l = pre ++ suf -> (length suf < k)%nat ->
    strlen_from k m s (Z.of_nat (length pre)) = Some (Z.of_nat (length l))) as Hloop.
  2:{ apply (Hloop f [] l); [done|lia]. }
  intros k. induction k as [|k IH]; intros pre suf -> Hk; [lia|]. simpl.
  pose proof H as H'. apply str_at_app in H' as (_ & _ & Hs). rewrite length_app in Hl.
  destruct suf as [|c suf].
  - simpl in Hs. rewrite Hs, app_nil_r. simpl. f_equal. apply u32_small. lia.
  - simpl in Hs. destruct Hs as (-> & Hc & _). replace (c =? 0) with false by lia. simpl in Hk, Hl.
    rewrite s32_small by lia.
    replace (Z.of_nat (length pre) + 1) with (Z.of_nat (length (pre ++ [c]))) by (rewrite length_app; simpl; lia).
    rewrite (IH (pre ++ [c]) suf); [done|by rewrite <- app_assoc|lia].
Qed.
