(* ===== verification/Grep.v ===== *)
(** * user/grep.c: the regular-expression matcher and the line filter

    [match_], [matchhere] and [matchstar] walk two C strings in memory as the
    source does.  The reference semantics is a language of patterns: a
    pattern is parsed into a sequence of single characters, starred
    characters and an optional end anchor, and matches the strings of its
    concatenation.  The main loop [grep] fills [buf] from [read], matches
    line by line in place and moves the unfinished line to the front. *)

From Stdlib Require Import ZArith Lia Bool.
From stdpp Require Import base gmap list.
From S2P Require Import Prelude Mem Ulib.

Abbreviation ch_hat := 94.
Abbreviation ch_dot := 46.
Abbreviation ch_star := 42.
Abbreviation ch_dollar := 36.
Abbreviation ch_nl := 10.

(** ** The code *)

Fixpoint matchhere (fuel : nat) (m : mem) (re text : Z) : option bool :=
  match fuel with
  | O => None
  | S f =>
      if rdb m re =? 0 then Some true
      else if rdb m (re + 1) =? ch_star then matchstar f m (rdb m re) (re + 2) text
      else if (rdb m re =? ch_dollar) && (rdb m (re + 1) =? 0) then Some (rdb m text =? 0)
      else if negb (rdb m text =? 0) && ((rdb m re =? ch_dot) || (rdb m re =? rdb m text))
      then matchhere f m (re + 1) (text + 1)
      else Some false
  end
with matchstar (fuel : nat) (m : mem) (c re text : Z) : option bool :=
  match fuel with
  | O => None
  | S f =>
      match matchhere f m re text with
      | None => None
      | Some true => Some true
      | Some false =>
          if negb (rdb m text =? 0) && ((rdb m text =? c) || (c =? ch_dot))
          then matchstar f m c re (text + 1)
          else Some false
      end
  end.

(** The [do ... while( *text++ != 0 )] loop of [match]. *)
Fixpoint match_loop (fuel : nat) (m : mem) (re text : Z) : option bool :=
  match fuel with
  | O => None
  | S f =>
      match matchhere f m re text with
      | None => None
      | Some true => Some true
      | Some false => if negb (rdb m text =? 0) then match_loop f m re (text + 1) else Some false
      end
  end.

Definition match_ (fuel : nat) (m : mem) (re text : Z) : option bool :=
  if rdb m re =? ch_hat then matchhere fuel m (re + 1) text else match_loop fuel m re text.

(** The inner loop of [grep]: [p] runs over the lines of [buf]; [bound] limits
    the walks over the pattern and one line. *)
Fixpoint line_loop (fuel bound : nat) (pattern p : Z) : M ust Z :=
  match fuel with
  | O => out_of_fuel
  | S f =>
      m ← gets um;
      r ← of_opt (strchr bound m p ch_nl);
      match r with
      | None => mret p
      | Some q =>
          store q 0;;
          m ← gets um;
          b ← of_opt (match_ bound m pattern p);
          (if b : bool then store q ch_nl;; write p (q + 1 - p) else mret tt);;
          line_loop f bound pattern (q + 1)
      end
  end.

Definition BUFSZ : Z := 1024.

Fixpoint grep_loop (fuel bound : nat) (buf pattern m : Z) : M ust unit :=
  match fuel with
  | O => out_of_fuel
  | S f =>
      n ← read (buf + m) (BUFSZ - m - 1);
      if n >? 0 then
        let m := m + n in
        store (buf + m) 0;;
        p ← line_loop bound bound pattern buf;
        if m >? 0 then
          let m := m - (p - buf) in
          modify (fun s => set_um (memmove (um s) buf p m) s);;
          grep_loop f bound buf pattern m
        else grep_loop f bound buf pattern m
      else mret tt
  end.

Definition grep (fuel bound : nat) (buf pattern : Z) : M ust unit :=
  grep_loop fuel bound buf pattern 0.

(** ** Reference semantics of patterns *)

Inductive item := One (c : Z) | Star (c : Z).

(** [.] stands for any character. *)
Definition hit (c x : Z) : Prop := c = ch_dot \/ c = x.

(** A pattern after its optional [^]: its items, and whether it ends in [$].
    [$] is an anchor only as the last character, and [c*] is read before it. *)
Fixpoint parse (n : nat) (re : list Z) : list item * bool :=
  match n, re with
  | O, _ | _, [] => ([], false)
  | S n, c :: re' =>
      match re' with
      | d :: re'' =>
          if d =? ch_star then let '(its, a) := parse n re'' in (Star c :: its, a)
          else let '(its, a) := parse n re' in (One c :: its, a)
      | [] => if c =? ch_dollar then ([], true) else ([One c], false)
      end
  end.

Definition item_lang (i : item) (w : list Z) : Prop :=
  match i with
  | One c => exists x, w = [x] /\ hit c x
  | Star c => Forall (hit c) w
  end.

Fixpoint items_lang (its : list item) (w : list Z) : Prop :=
  match its with
  | [] => w = []
  | i :: its' => exists w1 w2, w = w1 ++ w2 /\ item_lang i w1 /\ items_lang its' w2
  end.

(** The pattern matches a prefix of [text], all of it when anchored. *)
Definition prefix_match (p : list item * bool) (text : list Z) : Prop :=
  exists w rest, text = w ++ rest /\ items_lang p.1 w /\ (p.2 = true -> rest = []).

Definition parse_re (re : list Z) : list item * bool := parse (length re) re.

Definition matches (re text : list Z) : Prop :=
  match re with
  | c :: re' =>
      if c =? ch_hat then prefix_match (parse_re re') text
      else exists pre post, text = pre ++ post /\ prefix_match (parse_re re) post
  | [] => True
  end.

(** ** The matcher decides the reference semantics *)

Lemma parse_enough n re : (length re <= n)%nat -> parse n re = parse_re re.
Proof.
  unfold parse_re. remember (length re) as k eqn:Hk.
  assert (length re <= k)%nat as Hle by lia. clear Hk. intros Hn.
  revert re n Hle Hn. induction k as [k IH] using lt_wf_ind. intros re n Hle Hn.
  destruct re as [|c [|d re]], n as [|n], k as [|k]; simpl in *; try lia; try done.
  destruct (d =? ch_star).
  - by rewrite (IH k ltac:(lia) re n) by lia.
  - by rewrite (IH k ltac:(lia) (d :: re) n) by (simpl; lia).
Qed.

Lemma parse_re_star c re : parse_re (c :: ch_star :: re) = (Star c :: (parse_re re).1, (parse_re re).2).
Proof.
  transitivity (let '(its, a) := parse (S (length re)) re in (Star c :: its, a)); [done|].
  rewrite parse_enough by lia. by destruct (parse_re re).
Qed.

Lemma parse_re_one c d re :
  d <> ch_star -> parse_re (c :: d :: re) = (One c :: (parse_re (d :: re)).1, (parse_re (d :: re)).2).
Proof.
  intros Hd. transitivity (let '(its, a) := parse_re (d :: re) in (One c :: its, a)).
  - unfold parse_re at 1. cbn [length parse]. by replace (d =? ch_star) with false by lia.
  - by destruct (parse_re (d :: re)).
Qed.

Lemma prefix_match_nil a text : prefix_match ([], a) text <-> (a = true -> text = []).
Proof.
  split.
  - intros (w & rest & -> & HL & HR). simpl in HL. by subst.
  - intros H. by exists [], text.
Qed.

Lemma prefix_match_one c its a text :
  prefix_match (One c :: its, a) text <->
  exists x t, text = x :: t /\ hit c x /\ prefix_match (its, a) t.
Proof.
  split.
  - intros (w & rest & -> & (w1 & w2 & -> & (x & -> & Hx) & H2) & HR).
    exists x, (w2 ++ rest). split_and!; [done..|]. by exists w2, rest.
  - intros (x & t & -> & Hx & w & rest & -> & HL & HR).
    exists (x :: w), rest. split_and!; [done| |done]. exists [x], w. split_and!; try done. by exists x.
Qed.

Lemma prefix_match_star c its a text :
  prefix_match (Star c :: its, a) text <->
  prefix_match (its, a) text \/
  exists x t, text = x :: t /\ hit c x /\ prefix_match (Star c :: its, a) t.
Proof.
  split.
  - intros (w & rest & -> & (w1 & w2 & -> & H1 & H2) & HR). simpl in H1.
    destruct w1 as [|x w1]; [left; by exists w2, rest|right].
    apply Forall_cons in H1 as [Hx H1]. exists x, (w1 ++ w2 ++ rest).
    split_and!; [by rewrite <- app_assoc|done|].
    exists (w1 ++ w2), rest. split_and!; [by rewrite app_assoc| |done]. by exists w1, w2.
  - intros [(w & rest & -> & HL & HR)|(x & t & -> & Hx & w & rest & -> & (w1 & w2 & -> & H1 & H2) & HR)].
    + exists w, rest. split_and!; [done| |done]. exists [], w. split_and!; [done|by constructor|done].
    + exists (x :: w1 ++ w2), rest. split_and!; [done| |done].
      exists (x :: w1), w2. split_and!; [done|by constructor|done].
Qed.

(** What a [match_*] call must answer. *)
Definition decides (r : option bool) (P : Prop) : Prop := exists b, r = Some b /\ (b = true <-> P).

Lemma decides_iff r (P Q : Prop) : decides r P -> (P <-> Q) -> decides r Q.
Proof. intros (b & -> & H) HPQ. exists b. split; [done|]. by rewrite H. Qed.

Lemma decides_bool (b : bool) (P : Prop) : (b = true <-> P) -> decides (Some b) P.
Proof. intros H. by exists b. Qed.

Lemma hit_bool c x : (c =? ch_dot) || (c =? x) = true <-> hit c x.
Proof. unfold hit. rewrite orb_true_iff. lia. Qed.

(** One character of the pattern against one of the text. *)
Lemma step_decides m c its a text T (k : option bool) :
  str_at m text T ->
  (forall x t, T = x :: t -> decides k (prefix_match (its, a) t)) ->
  decides (if negb (rdb m text =? 0) && ((c =? ch_dot) || (c =? rdb m text)) then k else Some false)
    (prefix_match (One c :: its, a) T).
Proof.
  intros HT Hk. destruct T as [|x T]; simpl in HT.
  { rewrite HT. apply decides_bool. rewrite prefix_match_one. naive_solver. }
  destruct HT as (-> & Hx & _). replace (x =? 0) with false by lia. simpl negb. rewrite andb_true_l.
  destruct ((c =? ch_dot) || (c =? x)) eqn:Eh.
  - eapply decides_iff; [by eapply Hk|]. rewrite prefix_match_one. apply hit_bool in Eh. naive_solver.
  - apply decides_bool. rewrite prefix_match_one.
    assert (~ hit c x) by (rewrite <- hit_bool; congruence). naive_solver.
Qed.

Lemma matchhere_matchstar_decide m f :
  (forall re text R T, str_at m re R -> str_at m text T ->
     (2 * (length R + length T) + 1 <= f)%nat ->
     decides (matchhere f m re text) (prefix_match (parse_re R) T)) /\
  (forall c re text R T, str_at m re R -> str_at m text T ->
     (2 * (length R + length T) + 2 <= f)%nat ->
     decides (matchstar f m c re text)
       (prefix_match (Star c :: (parse_re R).1, (parse_re R).2) T)).
Proof.
  induction f as [|f [IHh IHs]].
  { split; intros; lia. }
  split.
  - intros re text R T HR HT Hf. simpl matchhere. destruct R as [|c R].
    { simpl in HR. rewrite HR. apply decides_bool.
      change (parse_re []) with (@nil item, false). by rewrite prefix_match_nil. }
    destruct HR as (HR0 & Hc & HR). rewrite HR0. replace (c =? 0) with false by lia.
    destruct R as [|d R].
    + simpl in HR. rewrite HR. cbn [Z.eqb]. rewrite andb_true_r.
      destruct (c =? ch_dollar) eqn:Ed.
      * apply decides_bool. unfold parse_re. simpl. rewrite Ed, prefix_match_nil.
        destruct T as [|x T]; simpl in HT; [rewrite HT; done|].
        destruct HT as (-> & Hx & _). split; [lia|naive_solver].
      * assert (parse_re [c] = ([One c], false)) as -> by (unfold parse_re; simpl; by rewrite Ed).
        apply step_decides; [done|]. intros x t ->. destruct HT as (_ & _ & HT).
        apply (IHh _ _ [] t); [done..|simpl in *; lia].
    + destruct HR as (HR1 & Hd & HR). rewrite HR1. destruct (d =? ch_star) eqn:Es.
      * apply Z.eqb_eq in Es as ->. rewrite parse_re_star.
        replace (re + 2) with (re + 1 + 1) by lia. apply IHs; [done..|simpl in *; lia].
      * replace (d =? 0) with false by lia. rewrite andb_false_r.
        rewrite parse_re_one by lia. apply step_decides; [done|].
        intros x t ->. destruct HT as (_ & _ & HT). rewrite <- surjective_pairing.
        apply (IHh _ _ (d :: R) t); [done..|simpl in *; lia].
  - intros c re text R T HR HT Hf. simpl matchstar.
    destruct (IHh re text R T HR HT) as (b & -> & Hb); [lia|].
    destruct b.
    { apply decides_bool. rewrite prefix_match_star. destruct (parse_re R). naive_solver. }
    assert (~ prefix_match (parse_re R) T) as Hn by (rewrite <- Hb; done).
    destruct T as [|x T]; simpl in HT.
    { rewrite HT. apply decides_bool. rewrite prefix_match_star. destruct (parse_re R). naive_solver. }
    destruct HT as (-> & Hx & HT). replace (x =? 0) with false by lia. simpl negb.
    rewrite andb_true_l, orb_comm. replace (x =? c) with (c =? x) by lia.
    destruct ((c =? ch_dot) || (c =? x)) eqn:Eh.
    + eapply decides_iff; [apply (IHs c _ _ R T); [done..|simpl in *; lia]|].
      apply hit_bool in Eh. rewrite (prefix_match_star _ _ _ (x :: T)). destruct (parse_re R). naive_solver.
    + apply decides_bool. rewrite prefix_match_star.
      assert (~ hit c x) by (rewrite <- hit_bool; congruence). destruct (parse_re R). naive_solver.
Qed.

Lemma match_loop_decides m f re text R T :
  str_at m re R -> str_at m text T -> (2 * length R + 3 * length T + 2 <= f)%nat ->
  decides (match_loop f m re text)
    (exists pre post, T = pre ++ post /\ prefix_match (parse_re R) post).
Proof.
  revert f text. induction T as [|x T IH]; intros [|f] text HR HT Hf; simpl in Hf; try lia;
    simpl match_loop.
  - destruct (proj1 (matchhere_matchstar_decide m f) re text R [] HR HT) as (b & -> & Hb);
      [simpl; lia|].
    simpl in HT. rewrite HT. simpl. destruct b; apply decides_bool; split; intros H.
    + exists [], []. naive_solver.
    + done.
    + done.
    + destruct H as (pre & post & HE & HP). symmetry in HE. apply app_eq_nil in HE as [-> ->]. by apply Hb.
  - destruct (proj1 (matchhere_matchstar_decide m f) re text R (x :: T) HR HT) as (b & -> & Hb);
      [simpl; lia|].
    destruct HT as (-> & Hx & HT). replace (x =? 0) with false by lia. simpl negb.
    destruct b.
    + apply decides_bool. split; [|done]. intros _. exists [], (x :: T). naive_solver.
    + eapply decides_iff; [apply IH; [done..|lia]|]. split.
      * intros (pre & post & -> & HP). by exists (x :: pre), post.
      * intros (pre & post & HE & HP). destruct pre as [|y pre]; simplify_eq/=; [|by exists pre, post].
        by apply Hb in HP.
Qed.

(** Bytes of the pattern and one line that bound every walk of the matcher. *)
Definition match_fuel (R T : nat) : nat := (2 * R + 3 * T + 2)%nat.

Lemma match_decides m f re text R T :
  str_at m re R -> str_at m text T -> (match_fuel (length R) (length T) <= f)%nat ->
  decides (match_ f m re text) (matches R T).
Proof.
  unfold match_fuel. intros HR HT Hf. unfold match_. destruct R as [|c R].
  - pose proof HR as HR'. simpl in HR. rewrite HR. simpl.
    eapply decides_iff; [by apply (match_loop_decides m f re text [] T)|].
    split; [done|]. intros _. exists [], T. split; [done|].
    change (parse_re []) with (@nil item, false). by rewrite prefix_match_nil.
  - pose proof HR as (-> & Hc & HR'). simpl matches. simpl in Hf. destruct (c =? ch_hat).
    + apply matchhere_matchstar_decide; [done..|lia].
    + apply match_loop_decides; [done..|simpl; lia].
Qed.

(** C18: the matcher of grep decides the pattern language: on any pattern and
    any text held as C strings, [match] returns within a bound linear in their
    lengths, and returns true exactly when the text, or some suffix of it
    unless the pattern starts with [^], begins with a string of the language
    of the pattern ([.] any character, [c*] any number of [c], [$] the end). *)
Theorem match_equivalence m f re text R T :
  str_at m re R -> str_at m text T -> (2 * length R + 3 * length T + 2 <= f)%nat ->
  exists b, match_ f m re text = Some b /\ (b = true <-> matches R T).
Proof. apply match_decides. Qed.

Abbreviation demo_mem := (put_bytes (put_bytes ∅ 100 [97; 42; 98; 36; 0]) 200 [120; 97; 97; 98; 0]).

(** The pattern [a*b$] on the text [xaab]. *)
Lemma match_equivalence_witness :
  match_ 50 demo_mem 100 200 = Some true /\
  exists b, match_ 50 demo_mem 100 200 = Some b /\
    (b = true <-> matches [97; 42; 98; 36] [120; 97; 97; 98]).
Proof.
  split; [vm_compute; reflexivity|].
  refine (match_equivalence demo_mem 50 100 200 [97; 42; 98; 36] [120; 97; 97; 98] _ _ _).
  - vm_compute. repeat split; discriminate.
  - vm_compute. repeat split; discriminate.
  - simpl. lia.
Defined.

(** ** The line filter *)

(** The bytes of a file made of lines. *)
Definition text_of (L : list (list Z)) : list Z := concat (map (fun l => l ++ [ch_nl]) L).

(** A line that fits [buf]: no NUL and no newline inside. *)
Definition line_ok (l : list Z) : Prop :=
  Forall byte_ok l /\ 0 ∉ l /\ ch_nl ∉ l /\ Z.of_nat (length l) < BUFSZ - 1.

(** The lines of [L] the pattern matches, in order. *)
Inductive selects (R : list Z) : list (list Z) -> list (list Z) -> Prop :=
  | sel_nil : selects R [] []
  | sel_hit l L K : matches R l -> selects R L K -> selects R (l :: L) (l :: K)
  | sel_miss l L K : ~ matches R l -> selects R L K -> selects R (l :: L) K.

Lemma selects_app R L1 K1 L2 K2 :
  selects R L1 K1 -> selects R L2 K2 -> selects R (L1 ++ L2) (K1 ++ K2).
Proof. induction 1; intros H2; simpl; [done| |]; constructor; auto. Qed.

Lemma text_of_app L1 L2 : text_of (L1 ++ L2) = text_of L1 ++ text_of L2.
Proof. unfold text_of. by rewrite map_app, concat_app. Qed.

Lemma app_split_at (c : Z) l1 r1 l2 r2 :
  c ∉ l1 -> c ∉ l2 -> l1 ++ c :: r1 = l2 ++ c :: r2 -> l1 = l2 /\ r1 = r2.
Proof.
  revert l2. induction l1 as [|x l1 IH]; intros [|y l2] H1 H2 HE; simpl in *; simplify_eq; try done.
  - exfalso. apply H2. by left.
  - exfalso. apply H1. by left.
  - apply not_elem_of_cons in H1 as [_ H1]. apply not_elem_of_cons in H2 as [_ H2].
    destruct (IH l2 H1 H2) as [-> ->]; done.
Qed.

Lemma text_of_first_line l rest L :
  Forall line_ok L -> ch_nl ∉ l -> l ++ ch_nl :: rest = text_of L ->
  exists L', L = l :: L' /\ rest = text_of L'.
Proof.
  intros HL Hl HE. destruct L as [|l' L]; unfold text_of in HE; simpl in HE.
  - by destruct l.
  - apply Forall_cons in HL as [(_ & _ & Hl' & _) HL].
    rewrite <- app_assoc in HE. apply app_split_at in HE as [-> ->]; [|done..]. by exists L.
Qed.

(** What is before the first newline is a proper part of the first line. *)
Lemma text_of_partial cur rest L :
  Forall line_ok L -> ch_nl ∉ cur -> cur ++ rest = text_of L ->
  (L = [] /\ cur = [] /\ rest = []) \/ (rest <> [] /\ Z.of_nat (length cur) < BUFSZ - 1).
Proof.
  intros HL Hc HE. destruct L as [|l L].
  { apply app_eq_nil in HE. by left. }
  right. unfold text_of in HE. simpl in HE. rewrite <- app_assoc in HE.
  apply Forall_cons in HL as [(_ & _ & Hl & Hlen) HL].
  apply app_eq_inv in HE as [(k & -> & Hk)|(k & -> & ->)].
  - destruct k as [|x k]; simpl in Hk; simplify_eq.
    + rewrite app_nil_r. split; [done|lia].
    + exfalso. apply Hc. set_solver.
  - rewrite length_app in Hlen. split; [|lia]. by destruct k.
Qed.

Lemma elem_of_text_of c L : c ∈ text_of L -> c = ch_nl \/ exists l, l ∈ L /\ c ∈ l.
Proof.
  unfold text_of. intros H.
  apply list_elem_of_In, in_concat in H as (l' & Hl & H0).
  apply in_map_iff in Hl as (l & <- & Hl). apply list_elem_of_In in Hl, H0. set_solver.
Qed.

Lemma text_of_no_nul T rest L : Forall line_ok L -> T ++ rest = text_of L -> Forall (fun c => c <> 0) T.
Proof.
  intros HL HE. apply Forall_forall. intros c Hc ->. rewrite Forall_forall in HL.
  destruct (elem_of_text_of 0 L) as [?|(l & Hl & H0)]; [rewrite <- HE; set_solver|done|].
  by destruct (HL l Hl) as (_ & ? & _).
Qed.

Lemma text_of_bytes T rest L : Forall line_ok L -> T ++ rest = text_of L -> Forall byte_ok T.
Proof.
  intros HL HE. apply Forall_forall. intros c Hc. rewrite Forall_forall in HL.
  destruct (elem_of_text_of c L) as [->|(l & Hl & H0)]; [rewrite <- HE; set_solver|unfold byte_ok; lia|].
  destruct (HL l Hl) as (H & _). rewrite Forall_forall in H. by apply H.
Qed.

Section Filter.
Context (B pattern : Z) (R : list Z) (bound : nat).
Context (Hpat : pattern + Z.of_nat (length R) < B \/ B + BUFSZ <= pattern).
Context (Hbound : (match_fuel (length R) 1024 <= bound)%nat).

Abbreviation in_buf := (bytes_of B BUFSZ).

Lemma pattern_frame m m' : modifies in_buf m m' -> str_at m pattern R -> str_at m' pattern R.
Proof. intros HM. apply (str_at_modifies in_buf); [done|]. unfold bytes_of. intros x Hx. lia. Qed.

Lemma modifies_buf_store m a v : B <= a < B + BUFSZ -> modifies in_buf m (stb m a v).
Proof. intros Ha x Hx. unfold bytes_of in Hx. by rewrite rdb_stb, decide_False by lia. Qed.

(** One line: cut it off at the newline, match it, print it when it hits. *)
Lemma wp_match_line p l T2 (Q : unit -> ust -> Prop) s :
  let q := p + Z.of_nat (length l) in
  str_at (um s) pattern R -> str_at (um s) p (l ++ ch_nl :: T2) ->
  B <= p -> q < B + BUFSZ ->
  (forall m' K, modifies in_buf (um s) m' -> str_at m' (q + 1) T2 -> selects R [l] K ->
     Q tt (Ust m' (inp s) (chunks s) (out s ++ text_of K))) ->
  wp (store q 0;; m ← gets um; b ← of_opt (match_ bound m pattern p);
      (if b : bool then store q ch_nl;; write p (q + 1 - p) else mret tt)) Q s.
Proof.
  intros q HR HT Hp Hq HQ. unfold store. wp_steps. simpl. unfold match_fuel, BUFSZ in *.
  apply str_at_app in HT as (HTl & Hnz & _ & _ & HT2). fold q in HT2.
  assert (modifies in_buf (um s) (stb (um s) q 0)) as HM1 by (apply modifies_buf_store; unfold q, BUFSZ in *; lia).
  assert (str_at (stb (um s) q 0) p l) as Hline.
  { rewrite <- (app_nil_r l). apply str_at_app. split_and!; [|done|].
    - eapply bytes_at_ext; [|exact HTl]. intros i Hi. by rewrite rdb_stb, decide_False by (unfold q; lia).
    - simpl. fold q. by rewrite rdb_stb, decide_True by done. }
  destruct (match_decides (stb (um s) q 0) bound pattern p R l) as (b & -> & Hb);
    [by eapply pattern_frame|done|unfold match_fuel, q in *; lia|].
  wp_steps. destruct b.
  - wp_steps. apply wp_write. simpl.
    replace (get_bytes _ _ _) with (text_of [l]).
    + apply HQ; [|..].
      * eapply modifies_trans; [exact HM1|]. apply modifies_buf_store. unfold q, BUFSZ in *. lia.
      * eapply str_at_ext; [|exact HT2]. intros x Hx. by rewrite !rdb_stb, !decide_False by lia.
      * constructor; [by apply Hb|constructor].
    + unfold text_of. simpl. rewrite app_nil_r. symmetry.
      replace (Z.to_nat (q + 1 - p)) with (length (l ++ [ch_nl])) by (rewrite length_app; simpl; unfold q; lia).
      apply get_bytes_at, bytes_at_app. split.
      * eapply bytes_at_ext; [|exact HTl]. intros i Hi. by rewrite !rdb_stb, !decide_False by (unfold q; lia).
      * simpl. fold q. by rewrite rdb_stb, decide_True by done.
  - wp_steps. unfold set_um. rewrite <- (app_nil_r (out s)). apply (HQ _ []); [done| |].
    + eapply str_at_ext; [|exact HT2]. intros x Hx. by rewrite rdb_stb, decide_False by lia.
    + constructor; [|constructor]. rewrite <- Hb. done.
Qed.

Lemma wp_line_loop f p T rest L (Q : Z -> ust -> Prop) s :
  Forall line_ok L -> str_at (um s) pattern R -> str_at (um s) p T ->
  B <= p -> p + Z.of_nat (length T) < B + BUFSZ ->
  T ++ rest = text_of L -> (length T < f)%nat ->
  (forall m' L1 L2 K T', L = L1 ++ L2 -> T = text_of L1 ++ T' -> selects R L1 K ->
     ch_nl ∉ T' -> T' ++ rest = text_of L2 -> modifies in_buf (um s) m' ->
     str_at m' (p + Z.of_nat (length (text_of L1))) T' ->
     Q (p + Z.of_nat (length (text_of L1))) (Ust m' (inp s) (chunks s) (out s ++ text_of K))) ->
  wp (line_loop f bound pattern p) Q s.
Proof.
  revert p T L Q s. induction f as [|f IH]; intros p T L Q s HL HR HT Hp Hend HE Hf HQ; [lia|].
  simpl line_loop. wp_steps.
  destruct (decide (ch_nl ∈ T)) as [Hin|Hin].
  2:{ rewrite (strchr_absent _ _ _ T) by (try done; unfold match_fuel, BUFSZ in *; lia). wp_steps.
      specialize (HQ (um s) [] L [] T). simpl in HQ. rewrite Z.add_0_r, app_nil_r in HQ.
      destruct s. apply HQ; auto with xv6. constructor. }
  apply list_elem_of_split_l in Hin as (l & T2 & -> & Hl).
  rewrite length_app in *. simpl length in *.
  rewrite (strchr_found _ _ _ l T2) by (try done; unfold match_fuel, BUFSZ in *; lia).
  rewrite <- app_assoc in HE. simpl in HE.
  destruct (text_of_first_line _ _ _ HL Hl HE) as (L' & -> & HE').
  apply Forall_cons in HL as [Hlok HL]. apply wp_of_opt. apply wp_seq4.
  apply (wp_match_line p l T2); [done..|lia|]. intros m1 K1 HM1 HT2 HK1.
  apply (IH _ T2 L'); [done|by eapply pattern_frame|done|lia..|done|lia|].
  intros m' L1 L2 K T' -> -> HK HT' HE2 HM' Hstr. simpl in *.
  assert (text_of (l :: L1) = (l ++ [ch_nl]) ++ text_of L1) as HT0 by done.
  assert (p + Z.of_nat (length l) + 1 + Z.of_nat (length (text_of L1)) =
          p + Z.of_nat (length (text_of (l :: L1)))) as HP.
  { rewrite HT0, !length_app. simpl. lia. }
  rewrite HP in *. rewrite <- (app_assoc (out s)), <- text_of_app.
  apply (HQ _ (l :: L1) L2 (K1 ++ K) T'); [done| |by apply (selects_app _ [l])|done|done| |done].
  - rewrite HT0, <- !app_assoc. done.
  - by eapply modifies_trans.
Qed.

(** The bytes a [read] adds behind [cur], closed by a NUL. *)
Lemma append_read m cur l :
  bytes_at m B cur -> Forall byte_ok l -> Forall (fun c => c <> 0) (cur ++ l) ->
  str_at (stb (put_bytes m (B + Z.of_nat (length cur)) l)
              (B + (Z.of_nat (length cur) + Z.of_nat (length l))) 0) B (cur ++ l).
Proof.
  intros HB Hl Hnz. rewrite <- (app_nil_r (cur ++ l)). apply str_at_app. split_and!; [|done|].
  - apply bytes_at_app. split.
    + eapply bytes_at_ext; [|exact HB]. intros i Hi. rewrite rdb_stb, decide_False by lia.
      apply rdb_put_bytes. lia.
    + eapply bytes_at_ext; [|by apply put_bytes_at]. intros i Hi. by rewrite rdb_stb, decide_False by lia.
  - simpl. by rewrite length_app, rdb_stb, decide_True by lia.
Qed.

(** Between two reads [buf] holds the unfinished line [cur]. *)
Lemma wp_grep_loop f cur L (Q : unit -> ust -> Prop) s :
  Forall line_ok L -> str_at (um s) pattern R -> bytes_at (um s) B cur ->
  ch_nl ∉ cur -> cur ++ inp s = text_of L -> (length (inp s) < f)%nat ->
  (forall m' cs K, selects R L K -> Q tt (Ust m' [] cs (out s ++ text_of K))) ->
  wp (grep_loop f bound B pattern (Z.of_nat (length cur))) Q s.
Proof.
  revert cur L Q s. induction f as [|f IH]; intros cur L Q s HL HR HB Hcur HE Hf HQ; [lia|].
  simpl grep_loop. apply wp_bind, wp_read. intros l rest Hinp Hlen Hnil.
  destruct (text_of_partial _ _ _ HL Hcur HE) as [(-> & -> & Hz)|[Hz Hshort]].
  { rewrite Hz in Hinp. symmetry in Hinp. apply app_eq_nil in Hinp as [-> ->]. simpl.
    wp_steps. rewrite <- (app_nil_r (out s)). apply (HQ _ _ []). constructor. }
  destruct (decide (l = [])) as [->|Hl].
  { destruct (Hnil eq_refl) as [?|?]; [lia|done]. }
  assert (0 < length l)%nat by (destruct l; simpl; [done|lia]).
  replace (Z.of_nat (length l) >? 0) with true by (symmetry; apply Z.gtb_lt; lia).
  set (n := Z.of_nat (length cur) + Z.of_nat (length l)).
  assert (n <= BUFSZ - 1) by (unfold n in *; lia).
  set (m1 := put_bytes (um s) (B + Z.of_nat (length cur)) l).
  assert (modifies in_buf (um s) (stb m1 (B + n) 0)) as HM.
  { apply (modifies_trans _ _ m1); [|apply modifies_buf_store; unfold BUFSZ in *; lia].
    intros x Hx. apply rdb_put_bytes. unfold bytes_of, n in *. lia. }
  rewrite Hinp, app_assoc in HE.
  assert (Forall byte_ok l) as Hbytes.
  { eapply text_of_bytes in HL; [|exact HE]. by apply Forall_app in HL as [_ ?]. }
  assert (str_at (stb m1 (B + n) 0) B (cur ++ l)) as Hstr
    by (eapply append_read; [done|done|by eapply text_of_no_nul]).
  unfold store. wp_steps. fold m1. simpl.
  apply (wp_line_loop bound B (cur ++ l) rest L);
    [done|by eapply pattern_frame|done|lia|rewrite length_app; unfold n in *; lia|done
    |rewrite length_app; unfold n, match_fuel, BUFSZ in *; lia|].
  simpl. intros m2 L1 L2 K T' -> HT HK HT' HE2 HM2 Hstr2.
  replace (n >? 0) with true by (symmetry; apply Z.gtb_lt; unfold n; lia).
  assert (n - (B + Z.of_nat (length (text_of L1)) - B) = Z.of_nat (length T')) as ->.
  { apply (f_equal length) in HT. rewrite !length_app in HT. unfold n. lia. }
  wp_steps. unfold set_um. simpl. apply Forall_app in HL as [HL1 HL2].
  apply (IH T' L2); simpl; [done| | |done|done| |].
  - eapply pattern_frame; [|by eapply pattern_frame; [exact HM2|]; eapply pattern_frame].
    intros x Hx. unfold bytes_of in Hx. rewrite rdb_umemmove, decide_False; [done|..|lia].
    apply (f_equal length) in HT. rewrite !length_app in HT. unfold n in *. lia.
  - rewrite <- (app_nil_r T') in Hstr2. apply str_at_app in Hstr2 as (Hb2 & _ & _).
    eapply bytes_at_ext; [|exact Hb2]. intros i Hi. rewrite rdb_umemmove, decide_True by lia.
    f_equal. lia.
  - rewrite Hinp, length_app in Hf. lia.
  - intros m' cs K' HK'. rewrite <- (app_assoc (out s)), <- text_of_app. apply HQ.
    by apply selects_app.
Qed.

End Filter.

(** C28: grep prints exactly the matching lines.  For a file made of
    newline-terminated lines without NUL bytes, each shorter than the buffer
    ([BUFSZ - 1] bytes), [grep] terminates, whatever number of bytes each
    [read] delivers, having written the lines the pattern matches, whole, in
    order and nothing else. *)
Theorem grep_prints_matching_lines B pattern R L s :
  pattern + Z.of_nat (length R) < B \/ B + BUFSZ <= pattern ->
  str_at (um s) pattern R -> Forall line_ok L -> inp s = text_of L ->
  exists s' K, selects R L K /\ inp s' = [] /\ out s' = out s ++ text_of K /\
    grep (S (length (inp s))) (match_fuel (length R) 1024) B pattern s = Ret (tt, s').
Proof.
  intros Hpat HR HL Hinp.
  assert (wp (grep (S (length (inp s))) (match_fuel (length R) 1024) B pattern)
    (fun _ s' => exists K, selects R L K /\ inp s' = [] /\ out s' = out s ++ text_of K) s) as HW.
  { apply (wp_grep_loop B pattern R _ Hpat ltac:(done) _ [] L);
      [done..|set_solver|by rewrite Hinp|lia|]. intros m' cs K HK. by exists K. }
  apply wp_run in HW as ([] & s' & Hrun & K & HK & Hi & Ho). by exists s', K.
Qed.

(** The pattern [^a] on the lines [ab], [ca] and the empty line, delivered
    in pieces of one, three and more bytes. *)
Abbreviation demo_lines := [[97; 98]; [99; 97]; []].
Abbreviation demo_in := (Ust (put_bytes ∅ 9000 [94; 97; 0]) (text_of demo_lines) [0; 2]%nat []).

Lemma grep_prints_matching_lines_witness :
  exists s' K, selects [94; 97] demo_lines K /\ inp s' = [] /\ out s' = out demo_in ++ text_of K /\
    grep (S (length (inp demo_in))) (match_fuel 2 1024) 100 9000 demo_in = Ret (tt, s').
Proof.
  refine (grep_prints_matching_lines 100 9000 [94; 97] demo_lines demo_in _ _ _ eq_refl).
  - right. unfold BUFSZ. lia.
  - vm_compute. repeat split; discriminate.
  - repeat constructor; try (unfold byte_ok; lia); set_solver by lia.
Defined.

Example grep_demo :
  exists s', grep 12 4096 100 9000 demo_in = Ret (tt, s') /\ out s' = [97; 98; 10].
Proof. vm_compute. eauto. Qed.
