(* ===== verification/Sh.v ===== *)
(** * user/sh.c: the command-line parser of the shell

    The parser walks the command line through the pointer [*ps] and builds
    its commands in memory obtained from [malloc]: the heap is the list of the
    commands allocated so far, a pointer is an index plus one and 0 is null.
    [parseexec] keeps a pointer to the [execcmd] it fills while [parseredirs]
    wraps it, so the two alias; [nulterminate] ends every word inside the
    line itself.  [malloc] is taken to succeed.

    The reference is in two layers: [tokens] cuts a line into tokens and
    [ref_cmd] parses a token list into a tree; the grammar is the type
    [line] with its printer. *)

From Stdlib Require Import ZArith Lia Bool String.
From stdpp Require Import base gmap list.
From S2P Require Import Prelude Mem Ulib.

(** ** Commands *)

Definition MAXARGS : Z := 10.
Definition O_RDONLY : Z := 0.
Definition O_WRONLY : Z := 1.
Definition O_CREATE : Z := 512.
Definition O_TRUNC : Z := 1024.

Inductive cmd :=
  | EXEC (argv eargv : list Z)
  | REDIR (cmd file efile mode fd : Z)
  | PIPE (left right : Z)
  | LIST (left right : Z)
  | BACK (cmd : Z).

Record pst := Pst {
  tm : mem;          (* the memory of the command line *)
  ps : Z;            (* [*ps], the parser's position *)
  heap : list cmd    (* the commands allocated so far *)
}.

Definition set_ps (p : Z) (s : pst) : pst := Pst (tm s) p (heap s).

(** [malloc], [memset] and the assignments of a constructor. *)
Definition new_cmd (c : cmd) : M pst Z := fun s =>
  Ret (Z.of_nat (S (length (heap s))), Pst (tm s) (ps s) (heap s ++ [c])).

Definition execcmd : M pst Z := new_cmd (EXEC (replicate 10 0) (replicate 10 0)).
Definition redircmd (subcmd file efile mode fd : Z) : M pst Z :=
  new_cmd (REDIR subcmd file efile mode fd).
Definition pipecmd (left right : Z) : M pst Z := new_cmd (PIPE left right).
Definition listcmd (left right : Z) : M pst Z := new_cmd (LIST left right).
Definition backcmd (subcmd : Z) : M pst Z := new_cmd (BACK subcmd).

Definition load_cmd (p : Z) : M pst cmd := fun s =>
  if p =? 0 then Fault "null cmd"
  else match heap s !! Z.to_nat (p - 1) with
       | Some c => Ret (c, s)
       | None => Fault "cmd"
       end.

(** [cmd->argv[argc] = q; cmd->eargv[argc] = eq;] *)
Definition set_arg (p argc q eq : Z) : M pst unit :=
  c ← load_cmd p;
  match c with
  | EXEC argv eargv =>
      a ← of_arr (arr_set argv argc q);
      e ← of_arr (arr_set eargv argc eq);
      modify (fun s => Pst (tm s) (ps s) (<[Z.to_nat (p - 1) := EXEC a e]> (heap s)))
  | _ => fault "execcmd"
  end.

(** ** Tokens *)

Definition whitespace : list Z := [32; 9; 13; 10; 11].
Definition symbols : list Z := [60; 124; 62; 38; 59; 40; 41].

(** [strchr(set, c)] on one of the constant strings. *)
Definition strchr_lit (set : list Z) (c : Z) : bool := existsb (Z.eqb c) set.
Arguments strchr_lit : simpl never.

(** [while(s < es && strchr(whitespace, *s)) s++;] with [k = es - s]. *)
Fixpoint skip_ws (k : nat) (m : mem) (s : Z) : Z :=
  match k with
  | O => s
  | S k' => if strchr_lit whitespace (rdb m s) then skip_ws k' m (s + 1) else s
  end.

(** [while(s < es && !strchr(whitespace, *s) && !strchr(symbols, *s)) s++;] *)
Fixpoint skip_word (k : nat) (m : mem) (s : Z) : Z :=
  match k with
  | O => s
  | S k' =>
      if negb (strchr_lit whitespace (rdb m s)) && negb (strchr_lit symbols (rdb m s))
      then skip_word k' m (s + 1) else s
  end.

(** The result is [ret] with the values stored through [q] and [eq]. *)
Definition gettoken (es : Z) : M pst (Z * Z * Z) :=
  st ← get;
  let m := tm st in
  let q := skip_ws (Z.to_nat (es - ps st)) m (ps st) in
  let c := rdb m q in
  let '(ret, s) :=
    if c =? 0 then (c, q)
    else if strchr_lit [124; 40; 41; 59; 38; 60] c then (c, q + 1)
    else if c =? 62 then
      (if rdb m (q + 1) =? 62 then (43, q + 2) else (c, q + 1))
    else (97, skip_word (Z.to_nat (es - q)) m q) in
  let eq := s in
  modify (set_ps (skip_ws (Z.to_nat (es - s)) m s));;
  mret (ret, q, eq).

Definition peek (es : Z) (toks : list Z) : M pst bool :=
  st ← get;
  let s := skip_ws (Z.to_nat (es - ps st)) (tm st) (ps st) in
  modify (set_ps s);;
  mret (negb (rdb (tm st) s =? 0) && strchr_lit toks (rdb (tm st) s)).

(** ** The parser *)

Fixpoint parseredirs (fuel : nat) (cmd es : Z) : M pst Z :=
  match fuel with
  | O => out_of_fuel
  | S f =>
      b ← peek es [60; 62];
      if b : bool then
        '(tok, _, _) ← gettoken es;
        '(t2, q, eq) ← gettoken es;
        if negb (t2 =? 97) then panic "missing file for redirection"
        else
          c ← (if tok =? 60 then redircmd cmd q eq O_RDONLY 0
               else if tok =? 62 then redircmd cmd q eq (Z.lor (Z.lor O_WRONLY O_CREATE) O_TRUNC) 1
               else if tok =? 43 then redircmd cmd q eq (Z.lor O_WRONLY O_CREATE) 1
               else mret cmd);
          parseredirs f c es
      else mret cmd
  end.

(** The argument loop of [parseexec]: the final [argc] and [ret]. *)
Fixpoint parseargs (fuel : nat) (cmd ret argc es : Z) : M pst (Z * Z) :=
  match fuel with
  | O => out_of_fuel
  | S f =>
      b ← peek es [124; 41; 38; 59];
      if b : bool then mret (argc, ret)
      else
        '(tok, q, eq) ← gettoken es;
        if tok =? 0 then mret (argc, ret)
        else if negb (tok =? 97) then panic "syntax"
        else
          set_arg cmd argc q eq;;
          let argc := argc + 1 in
          if argc >=? MAXARGS then panic "too many args"
          else
            ret ← parseredirs f ret es;
            parseargs f cmd ret argc es
  end.

(** [while(peek(ps, es, "&"))] of [parseline]. *)
Fixpoint parseback (fuel : nat) (cmd es : Z) : M pst Z :=
  match fuel with
  | O => out_of_fuel
  | S f =>
      b ← peek es [38];
      if b : bool then
        gettoken es;;
        c ← backcmd cmd;
        parseback f c es
      else mret cmd
  end.

Fixpoint parseline (fuel : nat) (es : Z) : M pst Z :=
  match fuel with
  | O => out_of_fuel
  | S f =>
      cmd ← parsepipe f es;
      cmd ← parseback f cmd es;
      b ← peek es [59];
      if b : bool then
        gettoken es;;
        r ← parseline f es;
        listcmd cmd r
      else mret cmd
  end
with parsepipe (fuel : nat) (es : Z) : M pst Z :=
  match fuel with
  | O => out_of_fuel
  | S f =>
      cmd ← parseexec f es;
      b ← peek es [124];
      if b : bool then
        gettoken es;;
        r ← parsepipe f es;
        pipecmd cmd r
      else mret cmd
  end
with parseexec (fuel : nat) (es : Z) : M pst Z :=
  match fuel with
  | O => out_of_fuel
  | S f =>
      b ← peek es [40];
      if b : bool then parseblock f es
      else
        cmd ← execcmd;
        ret ← parseredirs f cmd es;
        '(argc, ret) ← parseargs f cmd ret 0 es;
        set_arg cmd argc 0 0;;
        mret ret
  end
with parseblock (fuel : nat) (es : Z) : M pst Z :=
  match fuel with
  | O => out_of_fuel
  | S f =>
      b ← peek es [40];
      if negb b then panic "parseblock"
      else
        gettoken es;;
        cmd ← parseline f es;
        b ← peek es [41];
        if negb b then panic "syntax - missing )"
        else
          gettoken es;;
          parseredirs f cmd es
  end.

(** [*p = 0;] *)
Definition store_nul (p : Z) : M pst unit :=
  modify (fun s => Pst (stb (tm s) p 0) (ps s) (heap s)).

(** [for(i=0; ecmd->argv[i]; i++) *ecmd->eargv[i] = 0;] *)
Fixpoint nul_args (fuel : nat) (argv eargv : list Z) (i : Z) : M pst unit :=
  match fuel with
  | O => out_of_fuel
  | S f =>
      a ← arr_get argv i;
      if a =? 0 then mret tt
      else
        e ← arr_get eargv i;
        store_nul e;;
        nul_args f argv eargv (i + 1)
  end.

Fixpoint nulterminate (fuel : nat) (p : Z) : M pst unit :=
  match fuel with
  | O => out_of_fuel
  | S f =>
      if p =? 0 then mret tt
      else
        c ← load_cmd p;
        match c with
        | EXEC argv eargv => nul_args 11 argv eargv 0
        | REDIR sub file efile mode fd => nulterminate f sub;; store_nul efile
        | PIPE l r => nulterminate f l;; nulterminate f r
        | LIST l r => nulterminate f l;; nulterminate f r
        | BACK sub => nulterminate f sub
        end
  end.

(** [fuel] bounds the recursion of the parser. *)
Definition parsecmd (fuel : nat) (s : Z) : M pst Z :=
  m ← gets tm;
  n ← of_opt (strlen fuel m s);
  let es := s + n in
  modify (set_ps s);;
  cmd ← parseline fuel es;
  peek es [];;
  s ← gets ps;
  if negb (s =? es) then panic "syntax"
  else
    h ← gets heap;
    nulterminate (S (length h)) cmd;;
    mret cmd.
