(* ===== verification/ShSpec.v ===== *)
(** * Specification of the shell's parser

    Tokens of a command line, a reference parser from tokens to trees, and
    the grammar of the shell as a type of derivations with its printer.
    [ref_line_print] is the round trip on the reference side: the parser
    inverts the printer. *)

From Stdlib Require Import ZArith Lia Bool.
From stdpp Require Import base gmap list.
From S2P Require Import Prelude Mem Ulib Sh.

(** ** Tokens *)

Inductive tok := Sym (c : Z) | App | Word (w : list Z).

Definition wordchar (c : Z) : bool := negb (strchr_lit whitespace c) && negb (strchr_lit symbols c).

Fixpoint drop_ws (U : list Z) : list Z :=
  match U with
  | c :: U' => if strchr_lit whitespace c then drop_ws U' else U
  | [] => []
  end.

Fixpoint span_word (U : list Z) : list Z * list Z :=
  match U with
  | c :: U' => if wordchar c then let '(w, r) := span_word U' in (c :: w, r) else ([], U)
  | [] => ([], [])
  end.

(** The first token of a text and what follows it. *)
Definition next (U : list Z) : option (tok * list Z) :=
  match drop_ws U with
  | [] => None
  | c :: V =>
      if strchr_lit [124; 40; 41; 59; 38; 60] c then Some (Sym c, V)
      else if c =? 62 then
        match V with
        | d :: V' => if d =? 62 then Some (App, V') else Some (Sym c, V)
        | [] => Some (Sym c, V)
        end
      else let '(w, r) := span_word (c :: V) in Some (Word w, r)
  end.

Fixpoint tokens_upto (n : nat) (U : list Z) : list tok :=
  match n with
  | O => []
  | S n' => match next U with None => [] | Some (t, V) => t :: tokens_upto n' V end
  end.

Definition tokens (U : list Z) : list tok := tokens_upto (length U) U.

(** ** Trees *)

Inductive tree :=
  | TExec (args : list (list Z))
  | TRedir (t : tree) (file : list Z) (mode fd : Z)
  | TPipe (l r : tree)
  | TList (l r : tree)
  | TBack (t : tree).

Inductive redir := RIn (file : list Z) | ROut (file : list Z) | RApp (file : list Z).

Definition wrap1 (t : tree) (r : redir) : tree :=
  match r with
  | RIn w => TRedir t w O_RDONLY 0
  | ROut w => TRedir t w (Z.lor (Z.lor O_WRONLY O_CREATE) O_TRUNC) 1
  | RApp w => TRedir t w (Z.lor O_WRONLY O_CREATE) 1
  end.

Definition wrap (t : tree) (rs : list redir) : tree := foldl wrap1 t rs.

Fixpoint backs (n : nat) (t : tree) : tree :=
  match n with O => t | S n' => backs n' (TBack t) end.

(** ** The reference parser *)

Definition first_in (toks : list Z) (ts : list tok) : bool :=
  match ts with
  | Sym c :: _ => strchr_lit toks c
  | App :: _ => strchr_lit toks 62
  | _ => false
  end.

Definition redir_tok (t : tok) (w : list Z) : option redir :=
  match t with
  | Sym c => if c =? 60 then Some (RIn w) else if c =? 62 then Some (ROut w) else None
  | App => Some (RApp w)
  | Word _ => None
  end.

Fixpoint ref_redirs (ts : list tok) : option (list redir * list tok) :=
  if first_in [60; 62] ts then
    match ts with
    | t :: Word w :: ts' =>
        r ← redir_tok t w;
        '(rs, ts'') ← ref_redirs ts';
        Some (r :: rs, ts'')
    | _ => None
    end
  else Some ([], ts).

(** Arguments and redirections in the order they come; at most [k] arguments. *)
Fixpoint ref_args (n k : nat) (ts : list tok) : option (list (list Z) * list redir * list tok) :=
  match n with
  | O => None
  | S n' =>
      if first_in [124; 41; 38; 59] ts then Some ([], [], ts)
      else match ts with
           | [] => Some ([], [], [])
           | Word w :: ts' =>
               match k with
               | O => None
               | S k' =>
                   '(rs, ts1) ← ref_redirs ts';
                   '(ws, rs', ts2) ← ref_args n' k' ts1;
                   Some (w :: ws, rs ++ rs', ts2)
               end
           | _ => None
           end
  end.

Fixpoint ref_back (ts : list tok) : nat * list tok :=
  match ts with
  | Sym c :: ts' => if c =? 38 then let '(n, r) := ref_back ts' in (S n, r) else (O, ts)
  | _ => (O, ts)
  end.

Fixpoint ref_line (n : nat) (ts : list tok) : option (tree * list tok) :=
  match n with
  | O => None
  | S n' =>
      '(t, ts) ← ref_pipe n' ts;
      let '(k, ts) := ref_back ts in
      if first_in [59] ts then
        '(r, ts) ← ref_line n' (tail ts);
        Some (TList (backs k t) r, ts)
      else Some (backs k t, ts)
  end
with ref_pipe (n : nat) (ts : list tok) : option (tree * list tok) :=
  match n with
  | O => None
  | S n' =>
      '(t, ts) ← ref_exec n' ts;
      if first_in [124] ts then
        '(r, ts) ← ref_pipe n' (tail ts);
        Some (TPipe t r, ts)
      else Some (t, ts)
  end
with ref_exec (n : nat) (ts : list tok) : option (tree * list tok) :=
  match n with
  | O => None
  | S n' =>
      if first_in [40] ts then ref_block n' ts
      else
        '(rs, ts) ← ref_redirs ts;
        '(ws, rs', ts) ← ref_args (S (length ts)) 9 ts;
        Some (wrap (TExec ws) (rs ++ rs'), ts)
  end
with ref_block (n : nat) (ts : list tok) : option (tree * list tok) :=
  match n with
  | O => None
  | S n' =>
      '(t, ts) ← ref_line n' (tail ts);
      if first_in [41] ts then
        '(rs, ts) ← ref_redirs (tail ts);
        Some (wrap t rs, ts)
      else None
  end.

(** Depth of the recursive descent: four levels per token that opens a block
    or separates commands. *)
Definition ref_depth (ts : list tok) : nat := (4 * length ts + 4)%nat.

Definition ref_cmd (ts : list tok) : option tree :=
  match ref_line (ref_depth ts) ts with
  | Some (t, []) => Some t
  | _ => None
  end.

(** ** The grammar *)

(** line  ::= pipe '&'* | pipe '&'* ';' line
    pipe  ::= exec | exec '|' pipe
    exec  ::= redir* (word redir* )* | '(' line ')' redir* *)
Inductive line :=
  | LEnd (p : pipe) (n : nat)
  | LSeq (p : pipe) (n : nat) (l : line)
with pipe :=
  | POne (e : exec)
  | PMore (e : exec) (p : pipe)
with exec :=
  | Simple (rs : list redir) (ws : list (list Z * list redir))
  | Block (l : line) (rs : list redir).

Scheme line_mut := Induction for line Sort Prop
with pipe_mut := Induction for pipe Sort Prop
with exec_mut := Induction for exec Sort Prop.
Combined Scheme grammar_mut from line_mut, pipe_mut, exec_mut.

Definition print_redir (r : redir) : list tok :=
  match r with
  | RIn w => [Sym 60; Word w]
  | ROut w => [Sym 62; Word w]
  | RApp w => [App; Word w]
  end.

Definition print_redirs (rs : list redir) : list tok := concat (map print_redir rs).

Definition print_arg (a : list Z * list redir) : list tok := Word a.1 :: print_redirs a.2.

Fixpoint print_line (l : line) : list tok :=
  match l with
  | LEnd p n => print_pipe p ++ replicate n (Sym 38)
  | LSeq p n l => print_pipe p ++ replicate n (Sym 38) ++ Sym 59 :: print_line l
  end
with print_pipe (p : pipe) : list tok :=
  match p with
  | POne e => print_exec e
  | PMore e p => print_exec e ++ Sym 124 :: print_pipe p
  end
with print_exec (e : exec) : list tok :=
  match e with
  | Simple rs ws => print_redirs rs ++ concat (map print_arg ws)
  | Block l rs => Sym 40 :: print_line l ++ Sym 41 :: print_redirs rs
  end.

(** The command a derivation stands for. *)
Fixpoint line_tree (l : line) : tree :=
  match l with
  | LEnd p n => backs n (pipe_tree p)
  | LSeq p n l => TList (backs n (pipe_tree p)) (line_tree l)
  end
with pipe_tree (p : pipe) : tree :=
  match p with
  | POne e => exec_tree e
  | PMore e p => TPipe (exec_tree e) (pipe_tree p)
  end
with exec_tree (e : exec) : tree :=
  match e with
  | Simple rs ws => wrap (TExec (map fst ws)) (rs ++ concat (map snd ws))
  | Block l rs => wrap (line_tree l) rs
  end.

(** No command has more than nine arguments. *)
Fixpoint fits_line (l : line) : Prop :=
  match l with
  | LEnd p _ => fits_pipe p
  | LSeq p _ l => fits_pipe p /\ fits_line l
  end
with fits_pipe (p : pipe) : Prop :=
  match p with
  | POne e => fits_exec e
  | PMore e p => fits_exec e /\ fits_pipe p
  end
with fits_exec (e : exec) : Prop :=
  match e with
  | Simple _ ws => Z.of_nat (length ws) < MAXARGS
  | Block l _ => fits_line l
  end.

(** ** The reference parser inverts the printer *)

(** What may come after a command: the end, or a token of [set]. *)
Definition follow (set : list Z) (ts : list tok) : Prop :=
  ts = [] \/ exists c ts', ts = Sym c :: ts' /\ c ∈ set.

Lemma follow_first set ts toks :
  follow set ts -> Forall (fun c => strchr_lit toks c = false) set -> first_in toks ts = false.
Proof.
  intros [->|(c & ts' & -> & Hc)] H; [done|]. rewrite Forall_forall in H. by apply H.
Qed.

Lemma follow_hit set ts : follow set ts -> ts = [] \/ first_in set ts = true.
Proof.
  intros [->|(c & ts' & -> & Hc)]; [by left|right]. apply existsb_exists.
  exists c. apply list_elem_of_In in Hc. split; [done|lia].
Qed.

Lemma follow_mono set set' ts : follow set ts -> set ⊆ set' -> follow set' ts.
Proof. intros [->|(c & ts' & -> & Hc)] H; [by left|right]. exists c, ts'. set_solver. Qed.

Lemma follow_cons set c ts : c ∈ set -> follow set (Sym c :: ts).
Proof. intros H. right. by exists c, ts. Qed.

Lemma ref_redirs_print rs rest :
  first_in [60; 62] rest = false -> ref_redirs (print_redirs rs ++ rest) = Some (rs, rest).
Proof.
  intros Hr. induction rs as [|r rs IH].
  - simpl. destruct rest as [|[] ?]; simpl in *; try rewrite Hr; done.
  - unfold print_redirs in *. simpl. destruct r; simpl; rewrite IH; done.
Qed.

Lemma ref_args_print ws rest n k :
  follow [124; 41; 38; 59] rest -> (length ws <= k)%nat -> (length ws < n)%nat ->
  ref_args n k (concat (map print_arg ws) ++ rest) = Some (map fst ws, concat (map snd ws), rest).
Proof.
  intros Hf. revert n k. induction ws as [|[w rs] ws IH]; intros [|n] [|k] Hk Hn; simpl in *; try lia.
  - destruct (follow_hit _ _ Hf) as [->| ->]; done.
  - destruct (follow_hit _ _ Hf) as [->| ->]; done.
  - rewrite <- app_assoc, ref_redirs_print.
    + simpl. rewrite IH by lia. done.
    + destruct ws as [|[w' rs'] ws]; [|done]. simpl. eapply follow_first; [done|].
      repeat constructor; done.
Qed.

Lemma ref_back_print n rest :
  follow [59; 41] rest -> ref_back (replicate n (Sym 38) ++ rest) = (n, rest).
Proof.
  intros Hf. induction n as [|n IH]; simpl; [|by rewrite IH].
  destruct Hf as [->|(c & ts & -> & Hc)]; [done|]. simpl.
  replace (c =? 38) with false; [done|]. set_unfold in Hc. lia.
Qed.

Lemma first_simple rs ws rest :
  follow [124; 41; 38; 59] rest ->
  first_in [40] ((print_redirs rs ++ concat (map print_arg ws)) ++ rest) = false.
Proof.
  intros Hf. destruct rs as [|[] rs]; [|done..]. destruct ws as [|[w rs'] ws]; [|done].
  eapply follow_first; [done|]. repeat constructor; done.
Qed.

Lemma ref_exec_simple n rs ws rest :
  follow [124; 41; 38; 59] rest -> Z.of_nat (length ws) < MAXARGS ->
  ref_exec (S n) (print_exec (Simple rs ws) ++ rest) = Some (exec_tree (Simple rs ws), rest).
Proof.
  intros Hf Hw. unfold MAXARGS in Hw. cbn -[ref_args]. rewrite first_simple by done.
  rewrite <- app_assoc, ref_redirs_print.
  - cbn -[ref_args]. rewrite ref_args_print; [done|done|lia|].
    rewrite length_app. enough (length ws <= length (concat (map print_arg ws)))%nat by lia.
    clear. induction ws as [|w ws IH]; simpl; [lia|]. rewrite length_app. lia.
  - destruct ws as [|[w rs'] ws]; [|done]. eapply follow_first; [done|]. repeat constructor; done.
Qed.

Lemma ref_line_print :
  (forall l n rest, fits_line l -> follow [41] rest -> (4 * length (print_line l) + 4 <= n)%nat ->
     ref_line n (print_line l ++ rest) = Some (line_tree l, rest)) /\
  (forall p n rest, fits_pipe p -> follow [38; 59; 41] rest -> (4 * length (print_pipe p) + 3 <= n)%nat ->
     ref_pipe n (print_pipe p ++ rest) = Some (pipe_tree p, rest)) /\
  (forall e n rest, fits_exec e -> follow [124; 41; 38; 59] rest -> (4 * length (print_exec e) + 2 <= n)%nat ->
     ref_exec n (print_exec e ++ rest) = Some (exec_tree e, rest)).
Proof.
  apply grammar_mut.
  - intros p IH k [|n] rest Hfit Hf Hn; simpl in *; [lia|]. rewrite length_app, length_replicate in Hn.
    rewrite <- app_assoc, IH; [|done| |lia]; simpl.
    + rewrite ref_back_print by (eapply follow_mono; [done|set_solver]).
      rewrite (follow_first [41]); [done|done|]. repeat constructor; done.
    + destruct k; [eapply follow_mono; [done|set_solver]|apply follow_cons; set_solver].
  - intros p IHp k l IHl [|n] rest [Hp Hl] Hf Hn; simpl in *; [lia|].
    rewrite !length_app, length_replicate in Hn. simpl in Hn.
    rewrite <- !app_assoc, IHp; [|done| |lia]; simpl.
    + rewrite ref_back_print by (apply follow_cons; set_solver). simpl. rewrite IHl; [done..|lia].
    + destruct k; apply follow_cons; set_solver.
  - intros e IH [|n] rest Hfit Hf Hn; simpl in *; [lia|].
    rewrite IH; [|done|eapply follow_mono; [done|set_solver]|lia]. simpl.
    rewrite (follow_first [38; 59; 41]); [done|done|]. repeat constructor; done.
  - intros e IHe p IHp [|n] rest [He Hp] Hf Hn; simpl in *; [lia|].
    rewrite length_app in Hn. simpl in Hn.
    rewrite <- app_assoc, IHe; [|done|apply follow_cons; set_solver|lia]. simpl. rewrite IHp; [done..|lia].
  - intros rs ws [|n] rest Hfit Hf Hn; [lia|]. by apply ref_exec_simple.
  - intros l IH rs [|[|n]] rest Hfit Hf Hn; simpl in *; [lia..|].
    rewrite length_app in Hn. simpl in Hn.
    rewrite <- app_assoc, IH; [|done|apply follow_cons; set_solver|lia]. simpl.
    rewrite ref_redirs_print; [done|]. eapply follow_first; [done|]. repeat constructor; done.
Qed.
