(* ===== verification/ShProof.v ===== *)
(** * The shell's parser implements its specification

    [text_at] relates a parser position to the tokens still to come, [rep] a
    command in the heap to a tree.  The code agrees with the reference parser
    ([ag]): it returns a command that represents the tree when the reference
    does, and panics when the reference fails; it never runs out of its bound
    and never indexes outside [argv]. *)

From Stdlib Require Import ZArith Lia Bool.
From stdpp Require Import base gmap list.
From S2P Require Import Prelude Mem Ulib Sh ShSpec.

(** ** The tokens of a text *)

Lemma drop_ws_length U : (length (drop_ws U) <= length U)%nat.
Proof. induction U as [|c U IH]; simpl; [done|]. destruct (strchr_lit whitespace c); simpl; lia. Qed.

Lemma drop_ws_idem U : drop_ws (drop_ws U) = drop_ws U.
Proof.
  induction U as [|c U IH]; simpl; [done|].
  destruct (strchr_lit whitespace c) eqn:E; [done|]. simpl. by rewrite E.
Qed.

Lemma drop_ws_head U c V : drop_ws U = c :: V -> strchr_lit whitespace c = false.
Proof.
  induction U as [|d U IH]; simpl; [done|]. destruct (strchr_lit whitespace d) eqn:E; [done|].
  intros. by simplify_eq.
Qed.

Lemma span_word_app U w r : span_word U = (w, r) -> U = w ++ r /\ Forall (fun c => wordchar c = true) w /\
  match r with [] => True | c :: _ => wordchar c = false end.
Proof.
  revert w r. induction U as [|c U IH]; intros w r; simpl.
  - intros. by simplify_eq.
  - destruct (wordchar c) eqn:E; [|intros; by simplify_eq].
    destruct (span_word U) as [w' r'] eqn:Es. intros. simplify_eq.
    destruct (IH _ _ eq_refl) as (-> & H1 & H2). split_and!; [done|by constructor|done].
Qed.

(** The cases of [next] on a text that does not start with white space. *)
Lemma next_cases U t V :
  next U = Some (t, V) ->
  exists c R, drop_ws U = c :: R /\
    ((strchr_lit [124; 40; 41; 59; 38; 60] c = true /\ t = Sym c /\ V = R) \/
     (strchr_lit [124; 40; 41; 59; 38; 60] c = false /\ c = 62 /\
        ((exists R', R = 62 :: R' /\ t = App /\ V = R') \/
         (head R <> Some 62 /\ t = Sym 62 /\ V = R))) \/
     (wordchar c = true /\ exists w, t = Word (c :: w) /\ R = w ++ V /\
        Forall (fun c => wordchar c = true) w /\
        match V with [] => True | d :: _ => wordchar d = false end)).
Proof.
  unfold next. destruct (drop_ws U) as [|c R] eqn:E; [done|]. intros H. exists c, R. split; [done|].
  destruct (strchr_lit [124; 40; 41; 59; 38; 60] c) eqn:E1; [left; by simplify_eq|].
  right. destruct (c =? 62) eqn:E2; [left|right].
  - apply Z.eqb_eq in E2 as ->. split_and!; [done..|].
    destruct R as [|d R]; [right; by simplify_eq|]. destruct (d =? 62) eqn:E3.
    + apply Z.eqb_eq in E3 as ->. left. simplify_eq. eauto.
    + right. simplify_eq. split_and!; [|done..]. simpl. intros ?. simplify_eq.
  - assert (wordchar c = true) as Hw.
    { unfold wordchar. rewrite (drop_ws_head _ _ _ E). simpl. unfold strchr_lit in *. simpl in *.
      rewrite !orb_false_r in *. lia. }
    split; [done|]. destruct (span_word (c :: R)) as [w r] eqn:Es.
    apply span_word_app in Es as (HE & HF & Hr). simplify_eq.
    destruct w as [|c' w]; simpl in HE; simplify_eq.
    + congruence.
    + apply Forall_cons in HF as [_ HF]. eauto 10.
Qed.

Lemma next_shrinks U t V : next U = Some (t, V) -> (length V < length U)%nat.
Proof.
  intros H. pose proof (drop_ws_length U) as HL.
  apply next_cases in H as (c & R & HU & H). rewrite HU in HL. simpl in HL.
  destruct H as [(_ & _ & ->)|[(_ & _ & [(R' & -> & _ & ->)|(_ & _ & ->)])|(_ & w & _ & -> & _)]];
    simpl in *; rewrite ?length_app in *; lia.
Qed.

Lemma tokens_upto_enough n U : (length U <= n)%nat -> tokens_upto n U = tokens U.
Proof.
  unfold tokens. remember (length U) as k eqn:Hk.
  assert (length U <= k)%nat as Hle by lia. clear Hk. revert n U Hle.
  induction k as [|k IH]; intros n U Hle Hn.
  - destruct U; [|simpl in Hle; lia]. by destruct n.
  - destruct n as [|n]; [lia|]. simpl. destruct (next U) as [[t V]|] eqn:E; [|done].
    apply next_shrinks in E. f_equal. apply IH; lia.
Qed.

Lemma tokens_eq U :
  tokens U = match next U with None => [] | Some (t, V) => t :: tokens V end.
Proof.
  unfold tokens at 1. destruct (length U) as [|n] eqn:E.
  - by destruct U.
  - simpl. destruct (next U) as [[t V]|] eqn:En; [|done].
    apply next_shrinks in En. by rewrite tokens_upto_enough by lia.
Qed.

Lemma tokens_drop_ws U : tokens (drop_ws U) = tokens U.
Proof. rewrite !tokens_eq. unfold next. by rewrite drop_ws_idem. Qed.

Lemma tokens_length U : (length (tokens U) <= length U)%nat.
Proof.
  remember (length U) as n eqn:Hn. revert U Hn. induction n as [n IH] using lt_wf_ind. intros U ->.
  rewrite tokens_eq. destruct (next U) as [[t V]|] eqn:E; simpl; [|lia].
  apply next_shrinks in E. specialize (IH _ E V eq_refl). lia.
Qed.

(** ** Scanning the text in memory *)

(** [U] is what is left of the line at [p]. *)
Definition text (m : mem) (es p : Z) (U : list Z) : Prop :=
  str_at m p U /\ p + Z.of_nat (length U) = es.

Lemma text_app m es p w V : text m es p (w ++ V) -> text m es (p + Z.of_nat (length w)) V.
Proof. intros [H1 H2]. apply str_at_app in H1 as (_ & _ & H1). rewrite length_app in H2. split; [done|lia]. Qed.

Lemma text_cons m es p c V : text m es p (c :: V) -> rdb m p = c /\ c <> 0 /\ text m es (p + 1) V.
Proof. intros [(H1 & H2 & H3) H4]. simpl in H4. split_and!; [done..|]. split; [done|lia]. Qed.

Lemma text_head m es p V : text m es p V -> rdb m p = default 0 (head V).
Proof. intros [H _]. destruct V; simpl in *; tauto. Qed.

Lemma skip_ws_text m es p U :
  text m es p U -> text m es (skip_ws (Z.to_nat (es - p)) m p) (drop_ws U) /\
  p <= skip_ws (Z.to_nat (es - p)) m p.
Proof.
  revert p. induction U as [|c U IH]; intros p HT.
  - destruct HT as [H1 H2]. simpl in H2. replace (Z.to_nat (es - p)) with O by lia. simpl.
    split; [split; [done|simpl; lia]|lia].
  - apply text_cons in HT as (Hc & Hnz & HT). pose proof (proj2 HT) as Hes.
    replace (Z.to_nat (es - p)) with (S (Z.to_nat (es - (p + 1)))) by lia. simpl. rewrite Hc.
    destruct (strchr_lit whitespace c).
    + destruct (IH _ HT). split; [done|lia].
    + split; [|lia]. split; [|simpl; lia]. simpl. split_and!; [done..|apply HT].
Qed.

Lemma skip_word_text m es p w V :
  text m es p (w ++ V) -> Forall (fun c => wordchar c = true) w ->
  match V with [] => True | d :: _ => wordchar d = false end ->
  skip_word (Z.to_nat (es - p)) m p = p + Z.of_nat (length w).
Proof.
  revert p. induction w as [|c w IH]; intros p HT HF HV.
  - simpl in *. rewrite Z.add_0_r. destruct HT as [H1 H2]. destruct V as [|d V].
    + simpl in H2. by replace (Z.to_nat (es - p)) with O by lia.
    + simpl in H1, H2. replace (Z.to_nat (es - p)) with (S (Z.to_nat (es - (p + 1)))) by lia.
      simpl. destruct H1 as (-> & _). unfold wordchar in HV. by rewrite HV.
  - apply text_cons in HT as (Hc & Hnz & HT). pose proof (proj2 HT) as Hes.
    apply Forall_cons in HF as [Hw HF].
    replace (Z.to_nat (es - p)) with (S (Z.to_nat (es - (p + 1)))) by lia. simpl. rewrite Hc.
    unfold wordchar in Hw. rewrite Hw, IH by done. lia.
Qed.

(** ** Outcomes *)

(** [c] returns a result related to [b] when the reference gives [Some b],
    and panics when it gives [None]. *)
Definition ag {A B} (c : M pst A) (s : pst) (o : option B) (Q : B -> A -> pst -> Prop) : Prop :=
  match o with
  | Some b => wp c (Q b) s
  | None => exists msg, c s = Panic msg
  end.

Lemma ag_bind {A A' B B'} (c : M pst A) (k : A -> M pst A') s (o : option B) (ko : B -> option B') P Q :
  ag c s o P -> (forall b a s', o = Some b -> P b a s' -> ag (k a) s' (ko b) Q) ->
  ag (c ≫= k) s (o ≫= ko) Q.
Proof.
  intros H HK. unfold ag in *. destruct o as [b|]; simpl.
  - apply wp_run in H as (a & s' & Hc & HP). specialize (HK b a s' eq_refl HP).
    destruct (ko b); [by apply wp_bind; eapply wp_eq|].
    destruct HK as [msg HK]. exists msg. unfold mbind, M_bind. by rewrite Hc.
  - destruct H as [msg H]. exists msg. unfold mbind, M_bind. by rewrite H.
Qed.

Lemma ag_step {A A' B'} (c : M pst A) (k : A -> M pst A') s (o : option B') Q :
  wp c (fun a s' => ag (k a) s' o Q) s -> ag (c ≫= k) s o Q.
Proof.
  intros H. apply wp_run in H as (a & s' & Hc & H). destruct o as [b|]; simpl in *.
  - apply wp_bind. by eapply wp_eq.
  - destruct H as [msg H]. exists msg. unfold mbind, M_bind. by rewrite Hc.
Qed.

Lemma ag_last {A B} (c : M pst A) s (b : B) (Q : B -> A -> pst -> Prop) : wp c (Q b) s -> ag c s (Some b) Q.
Proof. done. Qed.

Lemma ag_mono {A B} (c : M pst A) s (o : option B) (P Q : B -> A -> pst -> Prop) :
  ag c s o P -> (forall b a s', o = Some b -> P b a s' -> Q b a s') -> ag c s o Q.
Proof. intros H HPQ. destruct o as [b|]; simpl in *; [|done]. eapply wp_mono; [done|]. eauto. Qed.

Lemma ag_ret_r {A B} (c : M pst A) s (o : option B) Q : ag (c ≫= mret) s o Q -> ag c s o Q.
Proof.
  unfold ag, wp, mbind, M_bind. destruct o, (c s) as [[a s']| | | |]; auto.
Qed.

Lemma ag_panic {A B} msg s (Q : B -> A -> pst -> Prop) : ag (panic msg) s None Q.
Proof. by exists msg. Qed.

Section Tokens.
Context (m0 : mem) (lo es : Z) (Hlo : 0 < lo).

(** The tokens that remain to be read. *)
Definition text_at (s : pst) (ts : list tok) : Prop :=
  tm s = m0 /\ lo <= ps s /\ exists U, text m0 es (ps s) U /\ tokens U = ts.

(** A byte that can end a word. *)
Definition stops (c : Z) : Prop := c = 0 \/ wordchar c = false.

(** The word [w] of the line, found at [q] and ending at [eq]. *)
Definition word_at (q eq : Z) (w : list Z) : Prop :=
  lo <= q /\ eq = q + Z.of_nat (length w) /\ eq <= es /\ bytes_at m0 q w /\
  Forall (fun c => wordchar c = true /\ c <> 0) w /\ w <> [] /\ stops (rdb m0 eq).

Definition code (t : tok) : Z := match t with Sym c => c | App => 43 | Word _ => 97 end.

Definition tok_ok (t : tok) (q eq : Z) : Prop :=
  match t with
  | Sym c => strchr_lit symbols c = true
  | App => True
  | Word w => word_at q eq w
  end.

Lemma wp_peek toks ts Q s :
  text_at s ts -> Forall (fun c => strchr_lit symbols c = true) toks ->
  (forall p, text_at (set_ps p s) ts -> (ts = [] -> p = es) ->
     Q (first_in toks ts) (set_ps p s)) ->
  wp (peek es toks) Q s.
Proof.
  intros (Hm & Hps & U & HU & Hts) Hsym HQ. unfold peek. wp_steps. rewrite Hm.
  destruct (skip_ws_text _ _ _ _ HU) as [HD Hle].
  set (p := skip_ws (Z.to_nat (es - ps s)) m0 (ps s)) in *.
  assert (negb (rdb m0 p =? 0) && strchr_lit toks (rdb m0 p) = first_in toks ts) as ->.
  { rewrite <- Hts, tokens_eq. pose proof (text_head _ _ _ _ HD) as ->.
    destruct (next U) as [[t V]|] eqn:En.
    - apply next_cases in En as (c & R & HR & Hcase). rewrite HR in *. simpl.
      apply text_cons in HD as (_ & Hc & _). replace (c =? 0) with false by lia. simpl.
      destruct Hcase as [(_ & -> & _)|[(_ & -> & [(R' & _ & -> & _)|(_ & -> & _)])|(Hw & w & -> & _)]]; try done.
      simpl. apply not_true_is_false. intros Hin. apply existsb_exists in Hin as (d & Hd & Hcd).
      apply Z.eqb_eq in Hcd as ->. rewrite Forall_forall in Hsym. apply list_elem_of_In, Hsym in Hd.
      unfold wordchar in Hw. rewrite Hd in Hw. by rewrite andb_false_r in Hw.
    - unfold next in En. destruct (drop_ws U) as [|c R]; [done|].
      repeat case_match; done. }
  apply HQ.
  - split_and!; [done|simpl; lia|]. exists (drop_ws U). split; [done|]. by rewrite tokens_drop_ws.
  - intros ->. rewrite tokens_eq in Hts. unfold next in Hts.
    destruct (drop_ws U) as [|c R]; [destruct HD as [_ HD]; simpl in HD; lia|]. repeat case_match; done.
Qed.

(** Where the token found at [q] ends. *)
Definition tok_end (m : mem) (q : Z) (t : tok) : Z :=
  match t with
  | Sym _ => q + 1
  | App => q + 2
  | Word w => skip_word (Z.to_nat (es - q)) m q
  end.

Lemma next_text U t V q :
  next U = Some (t, V) -> text m0 es q (drop_ws U) -> lo <= q ->
  q <= tok_end m0 q t /\ text m0 es (tok_end m0 q t) V /\ tok_ok t q (tok_end m0 q t).
Proof.
  intros En HD Hq. apply next_cases in En as (c & R & HR & Hcase). rewrite HR in HD.
  pose proof (text_cons _ _ _ _ _ HD) as (Hc & Hnz & HT).
  destruct Hcase as [(Hs & -> & ->)|[(_ & -> & [(R' & -> & -> & ->)|(_ & -> & ->)])|(Hw & w & -> & -> & HF & HV)]]; simpl.
  - split_and!; [lia|done|]. unfold strchr_lit in *. simpl in *. rewrite !orb_false_r in *. lia.
  - apply text_cons in HT as (_ & _ & HT). replace (q + 2) with (q + 1 + 1) by lia. by split_and!; [lia|..].
  - by split_and!; [lia|..].
  - rewrite app_comm_cons in HD. assert (Forall (fun c => wordchar c = true) (c :: w)) as HF' by (by constructor).
    rewrite (skip_word_text _ _ _ (c :: w) V HD HF' HV). pose proof (text_app _ _ _ _ _ HD) as HV'.
    split_and!; [lia|done|]. destruct HD as [HD1 HD2]. apply str_at_app in HD1 as (HB & Hnz' & HT').
    rewrite length_app in HD2. split_and!; [done|done|lia|done| |done|].
    + apply Forall_and. done.
    + rewrite (text_head _ _ _ _ HV'). destruct V as [|d V]; [by left|by right].
Qed.

Lemma gettoken_end U t V q :
  next U = Some (t, V) -> text m0 es q (drop_ws U) ->
  (if rdb m0 q =? 0 then (rdb m0 q, q)
   else if strchr_lit [124; 40; 41; 59; 38; 60] (rdb m0 q) then (rdb m0 q, q + 1)
   else if rdb m0 q =? 62 then
     (if rdb m0 (q + 1) =? 62 then (43, q + 2) else (rdb m0 q, q + 1))
   else (97, skip_word (Z.to_nat (es - q)) m0 q)) = (code t, tok_end m0 q t).
Proof.
  intros En HD. apply next_cases in En as (c & R & HR & Hcase). rewrite HR in HD.
  apply text_cons in HD as (Hc & Hnz & HT). rewrite Hc. replace (c =? 0) with false by lia.
  destruct Hcase as [(-> & -> & _)|[(-> & -> & [(R' & -> & -> & _)|(Hh & -> & _)])|(Hw & w & -> & _)]]; simpl; [done|..].
  - by apply text_cons in HT as (-> & _).
  - rewrite (text_head _ _ _ _ HT). destruct R as [|d R]; [done|]. simpl.
    replace (d =? 62) with false; [done|]. simpl in Hh. assert (d <> 62) by congruence. lia.
  - unfold wordchar in Hw. apply andb_true_iff in Hw as [_ Hw]. unfold strchr_lit in *. simpl in *.
    rewrite !orb_false_r in *.
    replace ((c =? 124) || _) with false by lia. by replace (c =? 62) with false by lia.
Qed.

Lemma wp_gettoken ts Q s :
  text_at s ts ->
  (ts = [] -> forall p q eq, text_at (set_ps p s) [] -> Q (0, q, eq) (set_ps p s)) ->
  (forall t ts' p q eq, ts = t :: ts' -> text_at (set_ps p s) ts' -> tok_ok t q eq ->
     Q (code t, q, eq) (set_ps p s)) ->
  wp (gettoken es) Q s.
Proof.
  intros (Hm & Hps & U & HU & Hts) HQ0 HQ1. unfold gettoken. apply wp_bind, wp_get. rewrite Hm.
  destruct (skip_ws_text _ _ _ _ HU) as [HD Hle].
  set (q := skip_ws (Z.to_nat (es - ps s)) m0 (ps s)) in *.
  rewrite tokens_eq in Hts. destruct (next U) as [[t V]|] eqn:En.
  - rewrite (gettoken_end _ _ _ _ En HD). cbv zeta.
    destruct (next_text _ _ _ _ En HD ltac:(lia)) as (Hle2 & HV & Hok).
    destruct (skip_ws_text _ _ _ _ HV) as [HD2 Hle3]. wp_steps.
    apply (HQ1 t (tokens V)); [done| |done].
    split_and!; [done|simpl; lia|]. exists (drop_ws V). by rewrite tokens_drop_ws.
  - assert (drop_ws U = []) as Hnil.
    { unfold next in En. destruct (drop_ws U); [done|]. repeat case_match; done. }
    rewrite Hnil in HD. rewrite (text_head _ _ _ _ HD). simpl.
    destruct (skip_ws_text _ _ _ _ HD) as [HD2 Hle3]. wp_steps.
    apply HQ0; [done|]. split_and!; [done|simpl; lia|]. exists []. done.
Qed.

(** The tokens a [peek] on symbols has seen. *)
Lemma first_in_code toks ts :
  first_in toks ts = true -> exists t ts', ts = t :: ts' /\ (forall w, t <> Word w).
Proof. destruct ts as [|[c| |w] ts]; simpl; try done; eauto. Qed.

End Tokens.

#[export] Hint Extern 1 (Forall (fun c => strchr_lit symbols c = true) _) =>
  (repeat constructor; done) : xv6.
