(* ===== verification/ShParse.v ===== *)
(** * The recursive descent of the shell agrees with the reference parser

    Commands in the heap represent trees ([rep]); a redirection chain that
    wraps a command under construction is [chain].  One lemma per parsing
    function relates its outcome to the reference. *)

From Stdlib Require Import ZArith Lia Bool.
From stdpp Require Import base gmap list.
From S2P Require Import Prelude Mem Ulib Sh ShSpec ShProof.

(** ** Commands as trees *)

Definition node (h : list cmd) (p : Z) : option cmd :=
  if p <=? 0 then None else h !! Z.to_nat (p - 1).

Section Rep.
Context (W : Z -> Z -> list Z -> Prop).

(** [argv] holds the words [args] and then a null pointer. *)
Definition args_rep (argv eargv : list Z) (args : list (list Z)) : Prop :=
  length argv = 10%nat /\ length eargv = 10%nat /\
  (forall i w, args !! i = Some w ->
     exists q eq, argv !! i = Some q /\ eargv !! i = Some eq /\ W q eq w) /\
  argv !! length args = Some 0.

Fixpoint rep (h : list cmd) (p : Z) (t : tree) : Prop :=
  match t with
  | TExec args => exists argv eargv, node h p = Some (EXEC argv eargv) /\ args_rep argv eargv args
  | TRedir t file mode fd =>
      exists c q eq, node h p = Some (REDIR c q eq mode fd) /\ c < p /\ W q eq file /\ rep h c t
  | TPipe l r => exists pl pr, node h p = Some (PIPE pl pr) /\ pl < p /\ pr < p /\ rep h pl l /\ rep h pr r
  | TList l r => exists pl pr, node h p = Some (LIST pl pr) /\ pl < p /\ pr < p /\ rep h pl l /\ rep h pr r
  | TBack t => exists c, node h p = Some (BACK c) /\ c < p /\ rep h c t
  end.

(** The redirections [rs], wrapped one after the other around [p]. *)
Fixpoint chain (h : list cmd) (p : Z) (rs : list redir) (p' : Z) : Prop :=
  match rs with
  | [] => p' = p
  | r :: rs' =>
      exists p1 q eq w mode fd, wrap1 (TExec []) r = TRedir (TExec []) w mode fd /\
        node h p1 = Some (REDIR p q eq mode fd) /\ p < p1 /\ W q eq w /\ chain h p1 rs' p'
  end.

Lemma node_Some h p c : node h p = Some c -> 0 < p <= Z.of_nat (length h).
Proof.
  unfold node. destruct (p <=? 0) eqn:E; [done|]. intros H. apply lookup_lt_Some in H. lia.
Qed.

Lemma node_app h h' p c : node h p = Some c -> node (h ++ h') p = Some c.
Proof. unfold node. destruct (p <=? 0); [done|]. apply lookup_app_l_Some. Qed.

Lemma node_new h c : node (h ++ [c]) (Z.of_nat (S (length h))) = Some c.
Proof.
  unfold node. destruct (_ <=? 0) eqn:E; [apply Z.leb_le in E; lia|].
  replace (Z.to_nat _) with (length h) by lia. by rewrite list_lookup_middle.
Qed.

Lemma rep_app h h' p t : rep h p t -> rep (h ++ h') p t.
Proof.
  revert p. induction t as [args|t IH f mode fd|l IHl r IHr|l IHl r IHr|t IH]; intros p; simpl.
  - intros (a & e & Hn & H). exists a, e. split; [by apply node_app|done].
  - intros (c & q & eq & Hn & H & HW & Hr). exists c, q, eq. split_and!; try done; [by apply node_app|by apply IH].
  - intros (pl & pr & Hn & H1 & H2 & Hl & Hr). exists pl, pr. split_and!; try done; [by apply node_app|by apply IHl|by apply IHr].
  - intros (pl & pr & Hn & H1 & H2 & Hl & Hr). exists pl, pr. split_and!; try done; [by apply node_app|by apply IHl|by apply IHr].
  - intros (c & Hn & H1 & Hr). exists c. split_and!; try done; [by apply node_app|by apply IH].
Qed.

Lemma rep_bound h p t : rep h p t -> 0 < p <= Z.of_nat (length h).
Proof.
  assert (forall c, node h p = Some c -> 0 < p <= Z.of_nat (length h)) by (intros c; apply node_Some).
  destruct t; simpl; naive_solver.
Qed.

Lemma chain_app h h' p rs p' : chain h p rs p' -> chain (h ++ h') p rs p'.
Proof.
  revert p. induction rs as [|r rs IH]; intros p; simpl; [done|].
  intros (p1 & q & eq & w & mode & fd & H1 & H2 & H3 & H4 & H5).
  exists p1, q, eq, w, mode, fd. split_and!; try done; [by apply node_app|by apply IH].
Qed.

Lemma chain_snoc h p rs p1 rs' p2 : chain h p rs p1 -> chain h p1 rs' p2 -> chain h p (rs ++ rs') p2.
Proof.
  revert p. induction rs as [|r rs IH]; intros p; simpl; [by intros ->|].
  intros (p' & q & eq & w & mode & fd & H1 & H2 & H3 & H4 & H5) H.
  exists p', q, eq, w, mode, fd. split_and!; try done. by apply IH.
Qed.

Lemma chain_le h p rs p' : chain h p rs p' -> p <= p'.
Proof.
  revert p. induction rs as [|r rs IH]; intros p; simpl; [lia|].
  intros (p1 & q & eq & w & mode & fd & H1 & H2 & H3 & H4 & H5). apply IH in H5. lia.
Qed.

(** Filling in the wrapped command does not touch the wrappers. *)
Lemma chain_update h p rs p' e c : 0 < e <= p -> chain h p rs p' -> chain (<[Z.to_nat (e - 1) := c]> h) p rs p'.
Proof.
  intros He. revert p He. induction rs as [|r rs IH]; intros p He; simpl; [done|].
  intros (p1 & q & eq & w & mode & fd & H1 & H2 & H3 & H4 & H5).
  exists p1, q, eq, w, mode, fd. split_and!; try done; [|apply IH; [lia|done]].
  pose proof (node_Some _ _ _ H2). unfold node in *. destruct (p1 <=? 0); [done|].
  by rewrite list_lookup_insert_ne by lia.
Qed.

Lemma chain_rep h p rs p' t : chain h p rs p' -> rep h p t -> rep h p' (wrap t rs).
Proof.
  revert p t. induction rs as [|r rs IH]; intros p t; simpl; [by intros ->|].
  intros (p1 & q & eq & w & mode & fd & H1 & H2 & H3 & H4 & H5) Ht.
  apply (IH p1); [done|]. destruct r; simpl in *; simplify_eq; exists p, q, eq; done.
Qed.

End Rep.

(** ** The parsing functions *)

Section Parse.
Context (m0 : mem) (lo es : Z) (Hlo : 0 < lo).

Abbreviation text_at := (text_at m0 lo es).
Abbreviation W := (word_at m0 lo es).

Definition grows (s s' : pst) : Prop := exists new, heap s' = heap s ++ new.

Definition valid (s : pst) (p : Z) : Prop := 0 < p <= Z.of_nat (length (heap s)).

Lemma grows_same s s' : heap s' = heap s -> grows s s'.
Proof. intros H. exists []. by rewrite app_nil_r. Qed.

Lemma grows_trans s1 s2 s3 : grows s1 s2 -> grows s2 s3 -> grows s1 s3.
Proof. intros [n1 H1] [n2 H2]. exists (n1 ++ n2). by rewrite H2, H1, app_assoc. Qed.

Lemma grows_valid s s' p : grows s s' -> valid s p -> valid s' p.
Proof. intros [n H]. unfold valid. rewrite H, length_app. lia. Qed.

Lemma grows_rep s s' p t : grows s s' -> rep W (heap s) p t -> rep W (heap s') p t.
Proof. intros [n ->]. apply rep_app. Qed.

Lemma grows_chain s s' p rs p' : grows s s' -> chain W (heap s) p rs p' -> chain W (heap s') p rs p'.
Proof. intros [n ->]. apply chain_app. Qed.

(** What a new command leaves behind. *)
Lemma wp_new_cmd c (Q : Z -> pst -> Prop) s ts :
  text_at s ts ->
  (forall s' p, text_at s' ts -> grows s s' -> valid s' p -> Z.of_nat (length (heap s)) < p ->
     heap s' = heap s ++ [c] -> node (heap s') p = Some c -> Q p s') ->
  wp (new_cmd c) Q s.
Proof.
  intros HT HQ. unfold wp, new_cmd. apply HQ; simpl.
  - done.
  - by exists [c].
  - unfold valid. simpl. rewrite length_app. simpl. lia.
  - lia.
  - done.
  - apply node_new.
Qed.

Lemma code_word t q eq : tok_ok m0 lo es t q eq -> (code t =? 97) = true -> exists w, t = Word w /\ W q eq w.
Proof.
  destruct t as [c| |w]; simpl; intros Hok Hc; [|done|eauto].
  apply Z.eqb_eq in Hc as ->. done.
Qed.

Lemma ref_redirs_eq ts :
  ref_redirs ts =
  if first_in [60; 62] ts then
    match ts with
    | t :: Word w :: ts' =>
        r ← redir_tok t w; '(rs, ts'') ← ref_redirs ts'; Some (r :: rs, ts'')
    | _ => None
    end
  else Some ([], ts).
Proof. by destruct ts. Qed.

(** The command one redirection operator builds. *)
Lemma wp_redir_tok t w p q eq ts (Q : Z -> pst -> Prop) s :
  first_in [60; 62] (t :: Word w :: ts) = true -> text_at s ts ->
  (forall r mode fd s' p', redir_tok t w = Some r -> wrap1 (TExec []) r = TRedir (TExec []) w mode fd ->
     text_at s' ts -> grows s s' -> valid s' p' -> Z.of_nat (length (heap s)) < p' ->
     node (heap s') p' = Some (REDIR p q eq mode fd) -> Q p' s') ->
  wp (if code t =? 60 then redircmd p q eq O_RDONLY 0
      else if code t =? 62 then redircmd p q eq (Z.lor (Z.lor O_WRONLY O_CREATE) O_TRUNC) 1
      else if code t =? 43 then redircmd p q eq (Z.lor O_WRONLY O_CREATE) 1
      else mret p) Q s.
Proof.
  intros Hf HT HQ. unfold redircmd. destruct t as [c| |w']; simpl in *; [|..|done].
  - destruct (c =? 60) eqn:E1; [|destruct (c =? 62) eqn:E2].
    + eapply wp_new_cmd; [done|]. intros. by eapply HQ.
    + eapply wp_new_cmd; [done|]. intros. by eapply HQ.
    + exfalso. unfold strchr_lit in Hf. simpl in Hf. rewrite E1, E2 in Hf. done.
  - eapply wp_new_cmd; [done|]. intros. by eapply HQ.
Qed.

Definition redirs_post (s : pst) (p : Z) (ts : list tok) (b : list redir * list tok) (p' : Z) (s' : pst) : Prop :=
  text_at s' b.2 /\ (length b.2 <= length ts)%nat /\ grows s s' /\ valid s' p' /\ chain W (heap s') p b.1 p'.

Lemma ag_parseredirs f p ts s :
  text_at s ts -> valid s p -> (length ts < f)%nat ->
  ag (parseredirs f p es) s (ref_redirs ts) (redirs_post s p ts).
Proof.
  revert p ts s. induction f as [|f IH]; intros p ts s HT Hp Hf; [lia|].
  simpl parseredirs. rewrite ref_redirs_eq. apply ag_step.
  apply (wp_peek m0 lo es _ ts); [done|auto with xv6|]. intros p1 HT1 _.
  destruct (first_in [60; 62] ts) eqn:Ef.
  2:{ apply ag_last, wp_ret. split_and!; simpl; [done|lia|by apply grows_same|done|done]. }
  apply ag_step. apply (wp_gettoken m0 lo es ts); [done|by intros ->|].
  intros t ts1 p2 q1 eq1 -> HT2 Hok1. apply ag_step.
  apply (wp_gettoken m0 lo es ts1); [done| |].
  { intros -> p3 q eq _. apply ag_panic. }
  intros t2 ts2 p3 q eq -> HT3 Hok2. destruct (code t2 =? 97) eqn:Ec; simpl negb; cbv iota.
  2:{ destruct t2; [apply ag_panic..|done]. }
  destruct (code_word _ _ _ Hok2 Ec) as (w & -> & Hw). apply ag_step.
  eapply wp_redir_tok; [exact Ef|exact HT3|].
  intros r mode fd s' p' -> Hr HT' Hg Hv Hlen Hn. simpl in Hlen, Hg.
  change (Some r ≫= _) with ('(rs, ts'') ← ref_redirs ts2; Some (r :: rs, ts'')).
  apply ag_ret_r. eapply ag_bind; [apply IH; [done|done|simpl in Hf; lia]|].
  intros [rs ts''] p'' s'' _ (HT'' & Hle & Hg' & Hv' & Hch). simpl in *.
  apply ag_last, wp_ret. split_and!; simpl; [done|lia|by eapply grows_trans|done|].
  exists p', q, eq, w, mode, fd. split_and!; try done.
  - destruct Hg' as [n ->]. by apply node_app.
  - unfold valid in Hp. lia.
Qed.

(** The [execcmd] at [e] after [args] have been stored: the rest is null. *)
Definition filling (s : pst) (e : Z) (args : list (list Z)) : Prop :=
  exists argv eargv, node (heap s) e = Some (EXEC argv eargv) /\
    length argv = 10%nat /\ length eargv = 10%nat /\ (length args <= 10)%nat /\
    (forall i w, args !! i = Some w ->
       exists q eq, argv !! i = Some q /\ eargv !! i = Some eq /\ W q eq w) /\
    (forall i, (length args <= i < 10)%nat -> argv !! i = Some 0).

(** Nothing below [e] has changed. *)
Definition keep (e : Z) (s s' : pst) : Prop :=
  take (Z.to_nat (e - 1)) (heap s') = take (Z.to_nat (e - 1)) (heap s) /\
  (length (heap s) <= length (heap s'))%nat.

Lemma keep_trans e s1 s2 s3 : keep e s1 s2 -> keep e s2 s3 -> keep e s1 s3.
Proof. intros [H1 H2] [H3 H4]. split; [by rewrite H3|lia]. Qed.

Lemma grows_keep e s s' : valid s e -> grows s s' -> keep e s s'.
Proof.
  intros Hv [n Hn]. unfold valid in Hv. split; rewrite Hn; [|rewrite length_app; lia].
  rewrite take_app_le by lia. done.
Qed.

Lemma keep_grows s0 s e s' :
  heap s = heap s0 ++ [e] -> keep (Z.of_nat (S (length (heap s0)))) s s' -> grows s0 s'.
Proof.
  intros Hh [Hk _]. replace (Z.to_nat _) with (length (heap s0)) in Hk by lia.
  exists (drop (length (heap s0)) (heap s')). rewrite <- (take_drop (length (heap s0)) (heap s')) at 1.
  by rewrite Hk, Hh, take_app_length.
Qed.

Lemma filling_grows s s' e args : grows s s' -> filling s e args -> filling s' e args.
Proof.
  intros [n Hn] (a & ea & H1 & H2). exists a, ea. rewrite Hn. split; [by apply node_app|done].
Qed.

(** The [execcmd] a call [set_arg] rewrites. *)
Lemma wp_set_arg_node e argc q eq argv eargv (Q : unit -> pst -> Prop) s :
  node (heap s) e = Some (EXEC argv eargv) -> length argv = 10%nat -> length eargv = 10%nat ->
  0 <= argc < 10 ->
  Q tt (Pst (tm s) (ps s)
         (<[Z.to_nat (e - 1) := EXEC (<[Z.to_nat argc := q]> argv) (<[Z.to_nat argc := eq]> eargv)]> (heap s))) ->
  wp (set_arg e argc q eq) Q s.
Proof.
  intros Hn H1 H2 Ha HQ. pose proof (node_Some _ _ _ Hn). unfold set_arg, load_cmd. apply wp_bind. unfold wp.
  replace (e =? 0) with false by lia. unfold node in Hn. replace (e <=? 0) with false in Hn by lia.
  rewrite Hn. change (wp (a ← of_arr (arr_set argv argc q); e0 ← of_arr (arr_set eargv argc eq);
    modify (fun s => Pst (tm s) (ps s) (<[Z.to_nat (e - 1) := EXEC a e0]> (heap s)))) Q s).
  rewrite !arr_set_ok by lia. simpl. wp_steps. done.
Qed.

Lemma node_insert h e c d : node h e = Some d -> node (<[Z.to_nat (e - 1) := c]> h) e = Some c.
Proof.
  intros Hn. pose proof (node_Some _ _ _ Hn). unfold node in *. destruct (e <=? 0); [done|].
  rewrite list_lookup_insert_eq by lia. done.
Qed.

Lemma keep_insert e c s s' : heap s' = <[Z.to_nat (e - 1) := c]> (heap s) -> keep e s s'.
Proof. intros Hh. split; rewrite Hh; [by rewrite take_insert_ge by lia|by rewrite length_insert]. Qed.

Lemma wp_set_arg e q eq w args ts (Q : unit -> pst -> Prop) s :
  text_at s ts -> filling s e args -> (length args < 10)%nat -> W q eq w ->
  (forall s' c, text_at s' ts -> filling s' e (args ++ [w]) ->
     heap s' = <[Z.to_nat (e - 1) := c]> (heap s) -> Q tt s') ->
  wp (set_arg e (Z.of_nat (length args)) q eq) Q s.
Proof.
  intros HT (argv & eargv & Hn & H1 & H2 & Hle & Hargs & Hz) Hlen HW HQ.
  eapply wp_set_arg_node; [done..|lia|]. eapply HQ; [done| |done].
  exists (<[length args := q]> argv), (<[length args := eq]> eargv). simpl.
  rewrite Nat2Z.id, !length_insert, length_app. simpl.
  split_and!; [by eapply node_insert|done|done|lia| |].
  - intros i w' Hi. apply lookup_snoc_Some in Hi as [[Hi Hw]|[-> ->]].
    + rewrite !list_lookup_insert_ne by lia. by apply Hargs.
    + exists q, eq. rewrite !list_lookup_insert_eq by lia. done.
  - intros i Hi. rewrite list_lookup_insert_ne by lia. apply Hz. lia.
Qed.

Lemma wp_set_null e args ts (Q : unit -> pst -> Prop) s :
  text_at s ts -> filling s e args -> (length args <= 9)%nat ->
  (forall s' c, text_at s' ts -> rep W (heap s') e (TExec args) ->
     heap s' = <[Z.to_nat (e - 1) := c]> (heap s) -> Q tt s') ->
  wp (set_arg e (Z.of_nat (length args)) 0 0) Q s.
Proof.
  intros HT (argv & eargv & Hn & H1 & H2 & Hle & Hargs & Hz) Hlen HQ.
  eapply wp_set_arg_node; [done..|lia|]. eapply HQ; [done| |done].
  exists (<[length args := 0]> argv), (<[length args := 0]> eargv). simpl.
  rewrite Nat2Z.id. split; [by eapply node_insert|]. split_and!; rewrite ?length_insert; try done.
  - intros i w Hi. pose proof (lookup_lt_Some _ _ _ Hi). rewrite !list_lookup_insert_ne by lia. by apply Hargs.
  - by rewrite list_lookup_insert_eq by lia.
Qed.

Definition args_post (s : pst) (e : Z) (args : list (list Z)) (rs0 : list redir) (ts : list tok)
    (b : list (list Z) * list redir * list tok) (r : Z * Z) (s' : pst) : Prop :=
  let '(ws, rs, ts') := b in
  text_at s' ts' /\ (length ts' <= length ts)%nat /\ keep e s s' /\ valid s' r.2 /\
  r.1 = Z.of_nat (length (args ++ ws)) /\ (length (args ++ ws) <= 9)%nat /\
  filling s' e (args ++ ws) /\ chain W (heap s') e (rs0 ++ rs) r.2.

Lemma ag_parseargs f n k e ret args rs0 ts s :
  text_at s ts -> valid s e -> valid s ret -> filling s e args -> chain W (heap s) e rs0 ret ->
  (length args + k = 9)%nat -> (length ts < f)%nat -> (length ts < n)%nat ->
  ag (parseargs f e ret (Z.of_nat (length args)) es) s (ref_args n k ts) (args_post s e args rs0 ts).
Proof.
  revert n k ret args rs0 ts s. induction f as [|f IH];
    intros [|n] k ret args rs0 ts s HT Hve Hv Hfill Hch Hk Hf Hn; try lia.
  simpl parseargs. simpl ref_args. apply ag_step.
  apply (wp_peek m0 lo es _ ts); [done|auto with xv6|]. intros p1 HT1 _.
  assert (forall p, text_at (set_ps p s) ts -> args_post s e args rs0 ts ([], [], ts)
            (Z.of_nat (length args), ret) (set_ps p s)) as Hstop.
  { intros p HTp. unfold args_post. rewrite !app_nil_r. simpl.
    split_and!; try done; lia. }
  destruct (first_in [124; 41; 38; 59] ts) eqn:Ef.
  { by apply ag_last, wp_ret, Hstop. }
  apply ag_step. apply (wp_gettoken m0 lo es ts); [done| |].
  { intros -> p2 q eq HT2. by apply ag_last, wp_ret, (Hstop p2). }
  intros t ts1 p2 q eq -> HT2 Hok. replace (code t =? 0) with false.
  2:{ destruct t as [c| |w]; simpl; [|done..]. destruct (Z.eqb_spec c 0); [|done]. by subst. }
  destruct (code t =? 97) eqn:Ec; simpl negb; cbv iota.
  2:{ destruct t; [apply ag_panic..|done]. }
  destruct (code_word _ _ _ Hok Ec) as (w & -> & Hw). simpl in Hf, Hn.
  apply ag_step. eapply wp_set_arg; [exact HT2|done|lia|done|].
  intros s1 c HT3 Hfill1 Hh1. simpl in Hh1. unfold MAXARGS.
  destruct k as [|k].
  { replace (_ >=? 10) with true by (rewrite Z.geb_leb; lia). apply ag_panic. }
  replace (_ >=? 10) with false by (rewrite Z.geb_leb; lia).
  pose proof (keep_insert e c s s1 Hh1) as Hkeep1.
  assert (valid s1 e /\ valid s1 ret) as [Hve1 Hv1].
  { unfold valid in *. rewrite Hh1, length_insert. done. }
  assert (chain W (heap s1) e rs0 ret) as Hch1.
  { rewrite Hh1. apply chain_update; [unfold valid in Hve; lia|done]. }
  eapply ag_bind; [apply ag_parseredirs; [done|done|lia]|].
  intros [rs ts2] ret' s2 _ (HT4 & Hle & Hg & Hv2 & Hch2). simpl in HT4, Hle, Hch2.
  replace (Z.of_nat (length args) + 1) with (Z.of_nat (length (args ++ [w]))) by (rewrite length_app; simpl; lia).
  apply ag_ret_r. eapply ag_bind.
  - apply (IH n k ret' (args ++ [w]) (rs0 ++ rs)); [done|by eapply grows_valid|done
      |by eapply filling_grows| |rewrite length_app; simpl; lia|lia|lia].
    eapply chain_snoc; [|done]. by eapply grows_chain.
  - intros [[ws rs'] ts3] [argc ret''] s3 _ (HT5 & Hle5 & Hkeep5 & Hv5 & Ha & Hb & Hfill5 & Hch5). simpl in *.
    apply ag_last, wp_ret. unfold args_post. rewrite <- app_assoc in *. simpl in *.
    split_and!; try done; [lia|]. eapply keep_trans; [done|].
    eapply keep_trans; [by apply grows_keep|done].
Qed.

(** The command at [p'] stands for the tree [b.1], and [b.2] is left. *)
Definition parse_post (s : pst) (ts : list tok) (b : tree * list tok) (p' : Z) (s' : pst) : Prop :=
  text_at s' b.2 /\ (length b.2 <= length ts)%nat /\ grows s s' /\ rep W (heap s') p' b.1.

Lemma rep_valid s p t : rep W (heap s) p t -> valid s p.
Proof. apply rep_bound. Qed.

Lemma parse_post_weaken s0 s ts0 ts b p s' :
  parse_post s ts b p s' -> grows s0 s -> (length ts <= length ts0)%nat -> parse_post s0 ts0 b p s'.
Proof. intros (H1 & H2 & H3 & H4) Hg Hl. split_and!; [done|lia|by eapply grows_trans|done]. Qed.

(** A [peek] on symbols and, when it succeeds, the [gettoken] that eats the
    symbol. *)
Lemma ag_symbol {A B} toks (k1 k2 : M pst A) ts s (o1 o2 : option B) Q :
  text_at s ts -> Forall (fun c => strchr_lit symbols c = true) toks ->
  (forall p t ts', ts = t :: ts' -> first_in toks ts = true -> text_at (set_ps p s) ts' ->
     ag k1 (set_ps p s) o1 Q) ->
  (forall p, first_in toks ts = false -> text_at (set_ps p s) ts -> ag k2 (set_ps p s) o2 Q) ->
  ag (b ← peek es toks; if b : bool then gettoken es;; k1 else k2) s
     (if first_in toks ts then o1 else o2) Q.
Proof.
  intros HT Hs H1 H2. apply ag_step. apply (wp_peek m0 lo es _ ts); [done|done|]. intros p HT' _.
  destruct (first_in toks ts) eqn:Ef.
  - apply ag_step. apply (wp_gettoken m0 lo es ts); [done|by intros ->|].
    intros t ts' p' q eq -> HT2 _. change (set_ps p' (set_ps p s)) with (set_ps p' s). by eapply H1.
  - by apply H2.
Qed.

Lemma ref_back_eq ts :
  ref_back ts = if first_in [38] ts then (S (ref_back (tail ts)).1, (ref_back (tail ts)).2) else (O, ts).
Proof.
  destruct ts as [|[c| |w] ts]; simpl; [done| |done..]. unfold strchr_lit. simpl. rewrite orb_false_r.
  destruct (c =? 38); [|done]. by destruct (ref_back ts).
Qed.

Lemma ag_parseback f p t ts s :
  text_at s ts -> rep W (heap s) p t -> (length ts < f)%nat ->
  ag (parseback f p es) s (Some (backs (ref_back ts).1 t, (ref_back ts).2)) (parse_post s ts).
Proof.
  revert p t ts s. induction f as [|f IH]; intros p t ts s HT Hr Hf; [lia|].
  simpl parseback. rewrite ref_back_eq.
  replace (Some _) with (if first_in [38] ts
    then Some (backs (ref_back (tail ts)).1 (TBack t), (ref_back (tail ts)).2) else Some (t, ts))
    by (by destruct (first_in [38] ts)).
  apply ag_symbol; [done|auto with xv6| |].
  - intros p1 t1 ts1 -> _ HT1. simpl tail. simpl in Hf. apply ag_step. eapply wp_new_cmd; [exact HT1|].
    intros s2 p2 HT2 Hg Hv Hlt Hh Hn. eapply ag_mono.
    + apply IH; [done| |lia]. exists p. simpl in Hlt, Hh. pose proof (rep_valid _ _ _ Hr) as Hv'. unfold valid in Hv'.
      split_and!; [done|lia|]. eapply grows_rep; [exact Hg|done].
    + intros b a s3 _ HP. eapply parse_post_weaken; [done|exact Hg|simpl; lia].
  - intros p1 _ HT1. apply ag_last, wp_ret. split_and!; simpl; [done|lia|by apply grows_same|done].
Qed.

(** Building a binary command around two parsed ones. *)
Lemma wp_binary mk mkt ts l r pl pr s1 s2 (Q : Z -> pst -> Prop) :
  (forall h p, rep W h p (mkt l r) <->
     exists pl pr, node h p = Some (mk pl pr) /\ pl < p /\ pr < p /\ rep W h pl l /\ rep W h pr r) ->
  rep W (heap s1) pl l -> grows s1 s2 -> rep W (heap s2) pr r -> text_at s2 ts ->
  (forall s' p, text_at s' ts -> grows s2 s' -> rep W (heap s') p (mkt l r) -> Q p s') ->
  wp (new_cmd (mk pl pr)) Q s2.
Proof.
  intros Hrep Hl Hg Hr HT HQ. eapply wp_new_cmd; [exact HT|]. intros s' p HT' Hg' Hv Hlt Hh Hn.
  apply HQ; [done|done|]. apply Hrep. exists pl, pr.
  pose proof (grows_rep _ _ _ _ Hg Hl) as Hl2.
  pose proof (rep_bound _ _ _ _ Hl2). pose proof (rep_bound _ _ _ _ Hr).
  split_and!; [done|lia|lia|by eapply grows_rep|by eapply grows_rep].
Qed.

(** The agreement of the four mutually recursive functions at fuel [f]. *)
Definition agree_line (f : nat) : Prop := forall n ts s, text_at s ts ->
  (4 * length ts + 4 <= f)%nat -> (4 * length ts + 4 <= n)%nat ->
  ag (parseline f es) s (ref_line n ts) (parse_post s ts).
Definition agree_pipe (f : nat) : Prop := forall n ts s, text_at s ts ->
  (4 * length ts + 3 <= f)%nat -> (4 * length ts + 3 <= n)%nat ->
  ag (parsepipe f es) s (ref_pipe n ts) (parse_post s ts).
Definition agree_exec (f : nat) : Prop := forall n ts s, text_at s ts ->
  (4 * length ts + 2 <= f)%nat -> (4 * length ts + 2 <= n)%nat ->
  ag (parseexec f es) s (ref_exec n ts) (parse_post s ts).
Definition agree_block (f : nat) : Prop := forall n ts s, text_at s ts ->
  first_in [40] ts = true -> (4 * length ts + 1 <= f)%nat -> (4 * length ts + 1 <= n)%nat ->
  ag (parseblock f es) s (ref_block n ts) (parse_post s ts).

Lemma agree_line_S f : agree_pipe f -> agree_line f -> agree_line (S f).
Proof.
  intros Hpipe Hline [|n] ts s HT Hf Hn; [lia|]. simpl parseline. simpl ref_line.
  eapply ag_bind; [apply Hpipe; [done|lia|lia]|].
  intros [t ts1] p1 s1 _ (HT1 & Hle1 & Hg1 & Hr1). simpl in HT1, Hle1, Hr1.
  destruct (ref_back ts1) as [k ts2] eqn:Eb.
  change (ag ?c s1 ?o ?Q) with (ag c s1 (Some (backs k t, ts2) ≫= fun _ => o) Q).
  eapply ag_bind.
  { pose proof (ag_parseback f p1 t ts1 s1 HT1 Hr1 ltac:(lia)) as H. rewrite Eb in H. exact H. }
  intros b p2 s2 Hb (HT2 & Hle2 & Hg2 & Hr2). simplify_eq/=.
  apply ag_symbol; [done|auto with xv6| |].
  - intros p t1 ts3 -> _ HT3. simpl tail. simpl in Hle2.
    eapply ag_bind; [apply Hline; [done|lia|lia]|].
    intros [r ts4] p3 s3 _ (HT4 & Hle4 & Hg4 & Hr4). simpl in HT4, Hle4, Hr4. apply ag_last.
    eapply (wp_binary LIST TList); [done|exact Hr2|exact Hg4|exact Hr4|exact HT4|].
    intros s' p' HT' Hg' Hr'. split_and!; simpl; [done|lia| |done].
    eapply grows_trans; [exact Hg1|]. eapply grows_trans; [exact Hg2|]. by eapply grows_trans.
  - intros p _ HT3. apply ag_last, wp_ret. split_and!; simpl; [done|lia| |done].
    by eapply grows_trans.
Qed.

Lemma agree_pipe_S f : agree_exec f -> agree_pipe f -> agree_pipe (S f).
Proof.
  intros Hexec Hpipe [|n] ts s HT Hf Hn; [lia|]. simpl parsepipe. simpl ref_pipe.
  eapply ag_bind; [apply Hexec; [done|lia|lia]|].
  intros [t ts1] p1 s1 _ (HT1 & Hle1 & Hg1 & Hr1). simpl in HT1, Hle1, Hr1.
  apply ag_symbol; [done|auto with xv6| |].
  - intros p t1 ts3 -> _ HT3. simpl tail. simpl in Hle1.
    eapply ag_bind; [apply Hpipe; [done|lia|lia]|].
    intros [r ts4] p3 s3 _ (HT4 & Hle4 & Hg4 & Hr4). simpl in HT4, Hle4, Hr4. apply ag_last.
    eapply (wp_binary PIPE TPipe); [done|exact Hr1|exact Hg4|exact Hr4|exact HT4|].
    intros s' p' HT' Hg' Hr'. split_and!; simpl; [done|lia| |done].
    eapply grows_trans; [exact Hg1|]. by eapply grows_trans.
  - intros p _ HT3. apply ag_last, wp_ret. by split_and!; simpl; [|lia|..].
Qed.

Lemma agree_exec_S f : agree_block f -> agree_exec (S f).
Proof.
  intros Hblock [|n] ts s HT Hf Hn; [lia|]. simpl parseexec. simpl ref_exec. apply ag_step.
  apply (wp_peek m0 lo es _ ts); [done|auto with xv6|]. intros p HT' _.
  destruct (first_in [40] ts) eqn:Ef.
  { apply (Hblock n ts (set_ps p s)); [done|done|lia|lia]. }
  apply ag_step. unfold execcmd. eapply wp_new_cmd; [exact HT'|].
  intros s1 e HT1 Hg1 Hv1 Hlt1 Hh1 Hn1. simpl in Hh1, Hlt1.
  assert (e = Z.of_nat (S (length (heap s)))) as He.
  { unfold valid in Hv1. rewrite Hh1, length_app in Hv1. simpl in Hv1. lia. }
  eapply ag_bind; [apply ag_parseredirs; [done|done|lia]|].
  intros [rs ts2] ret s2 _ (HT2 & Hle2 & Hg2 & Hv2 & Hch2). simpl in HT2, Hle2, Hch2.
  assert (filling s2 e []) as Hfill.
  { eapply filling_grows; [exact Hg2|]. exists (replicate 10 0), (replicate 10 0).
    split_and!; [done|done|done|simpl; lia|done|]. intros i Hi. apply lookup_replicate. simpl in Hi. lia. }
  eapply ag_bind.
  { apply (ag_parseargs f (S (length ts2)) 9 e ret [] rs ts2); [done|by eapply grows_valid|done|done|done|done|lia|lia]. }
  intros [[ws rs'] ts3] [argc ret'] s3 _ (HT3 & Hle3 & Hk3 & Hv3 & Ha & Hb & Hfill3 & Hch3). simpl in *. subst argc.
  apply ag_last, wp_bind. eapply wp_set_null; [exact HT3|exact Hfill3|done|].
  intros s4 c HT4 Hr4 Hh4. apply wp_ret. split_and!; simpl; [done|lia| |].
  - eapply keep_grows; [exact Hh1|]. rewrite <- He.
    eapply keep_trans; [by apply grows_keep|]. eapply keep_trans; [exact Hk3|]. by eapply keep_insert.
  - eapply chain_rep; [|exact Hr4]. rewrite Hh4. apply chain_update; [|done]. unfold valid in Hv1. lia.
Qed.

Lemma agree_block_S f : agree_line f -> agree_block (S f).
Proof.
  intros Hline [|n] ts s HT Ef Hf Hn; [lia|]. simpl parseblock. simpl ref_block. apply ag_step.
  apply (wp_peek m0 lo es _ ts); [done|auto with xv6|]. intros p HT' _. rewrite Ef. simpl negb. cbv iota.
  apply ag_step. apply (wp_gettoken m0 lo es ts); [done|by intros ->|].
  intros t ts1 p1 q eq -> HT1 _. simpl tail. simpl in Hf, Hn.
  eapply ag_bind; [apply Hline; [exact HT1|lia|lia]|].
  intros [t2 ts2] p2 s2 _ (HT2 & Hle2 & Hg2 & Hr2). simpl in HT2, Hle2, Hr2. apply ag_step.
  apply (wp_peek m0 lo es _ ts2); [done|auto with xv6|]. intros p3 HT3 _.
  destruct (first_in [41] ts2) eqn:Ef2; simpl negb; cbv iota; [|apply ag_panic].
  apply ag_step. apply (wp_gettoken m0 lo es ts2); [done|by intros ->|].
  intros t3 ts3 p4 q4 eq4 -> HT4 _. simpl tail. simpl in Hle2.
  apply ag_ret_r. eapply ag_bind.
  { apply ag_parseredirs; [exact HT4|by eapply rep_valid|lia]. }
  intros [rs ts5] p5 s5 _ (HT5 & Hle5 & Hg5 & Hv5 & Hch5). simpl in HT5, Hle5, Hch5.
  apply ag_last, wp_ret. split_and!; simpl; [done|lia|by eapply grows_trans|].
  eapply chain_rep; [exact Hch5|]. by eapply grows_rep; [exact Hg5|].
Qed.

Lemma parser_agrees f : agree_line f /\ agree_pipe f /\ agree_exec f /\ agree_block f.
Proof.
  induction f as [|f (H1 & H2 & H3 & H4)].
  - split_and!; intros n ts s *; lia.
  - split_and!; [by apply agree_line_S|by apply agree_pipe_S|by apply agree_exec_S|by apply agree_block_S].
Qed.

End Parse.
