(* ===== verification/ShThms.v ===== *)
(** * Correctness of the shell's parser

    [nulterminate] closes every word of the command inside the line without
    touching any other word, so that the strings of the final command are C
    strings; with the agreement of the recursive descent this gives
    [parsecmd_refines], and with the round trip of the reference
    [parsecmd_inverts_print]. *)

From Stdlib Require Import ZArith Lia Bool String.
From stdpp Require Import base gmap list strings.
From S2P Require Import Prelude Mem Ulib Sh ShSpec ShProof ShParse.

Lemma tree_rep_mono (W W' : Z -> Z -> list Z -> Prop) h p t :
  (forall q eq w, W q eq w -> W' q eq w) -> rep W h p t -> rep W' h p t.
Proof.
  intros HW. revert p. induction t as [args|t IH f mode fd|l IHl r IHr|l IHl r IHr|t IH]; intros p; simpl.
  - intros (a & e & Hn & H1 & H2 & H3 & H4). exists a, e. split; [done|]. split_and!; [done..| |done].
    intros i w Hi. destruct (H3 i w Hi) as (q & eq & ? & ? & ?). eauto 10.
  - intros (c & q & eq & Hn & H & Hw & Hr). exists c, q, eq. split_and!; auto.
  - intros (pl & pr & Hn & H1 & H2 & Hl & Hr). exists pl, pr. split_and!; auto.
  - intros (pl & pr & Hn & H1 & H2 & Hl & Hr). exists pl, pr. split_and!; auto.
  - intros (c & Hn & H1 & Hr). exists c. split_and!; auto.
Qed.

Section Nul.
Context (m0 : mem) (lo es : Z) (Hlo : 0 < lo).

Abbreviation W := (word_at m0 lo es).

(** [m] is the line [m0] with some of its separators turned into NULs. *)
Definition cut (m : mem) : Prop :=
  forall x, rdb m x = rdb m0 x \/ (rdb m x = 0 /\ stops (rdb m0 x) /\ lo <= x <= es).

Definition more_nuls (m m' : mem) : Prop := cut m' /\ forall x, rdb m x = 0 -> rdb m' x = 0.

(** A word whose end has been cut. *)
Definition ended (m : mem) (q eq : Z) (w : list Z) : Prop := W q eq w /\ rdb m eq = 0.

Lemma more_nuls_refl m : cut m -> more_nuls m m.
Proof. done. Qed.

Lemma more_nuls_trans m1 m2 m3 : more_nuls m1 m2 -> more_nuls m2 m3 -> more_nuls m1 m3.
Proof. intros [_ H1] [H2 H3]. split; auto. Qed.

Lemma ended_mono m m' q eq w : more_nuls m m' -> ended m q eq w -> ended m' q eq w.
Proof. intros [_ H] [H1 H2]. split; auto. Qed.

Lemma more_nuls_store m q eq w :
  cut m -> W q eq w -> more_nuls m (stb m eq 0) /\ ended (stb m eq 0) q eq w.
Proof.
  intros Hcut HW. pose proof HW as (H1 & H2 & H3 & H4 & H5 & H6 & H7). split_and!.
  - split.
    + intros x. rewrite rdb_stb. case_decide as E; [right|apply Hcut]. subst x. split_and!; [done..|lia|lia].
    + intros x Hx. rewrite rdb_stb. by case_decide.
  - split; [done|]. by rewrite rdb_stb, decide_True by done.
Qed.

(** A word that has been ended is a C string of the cut line. *)
Lemma ended_string m q eq w : cut m -> ended m q eq w -> lo <= q /\ str_at m q w.
Proof.
  intros Hcut [(H1 & -> & H3 & H4 & H5 & H6 & H7) H8]. split; [done|].
  rewrite <- (app_nil_r w). apply str_at_app. split_and!; [| |done].
  - clear H1 H3 H6 H7 H8. revert q H4 H5. induction w as [|c w IH]; intros q HB HF; simpl in *; [done|].
    apply Forall_cons in HF as [[Hw Hc] HF]. destruct HB as [HB1 HB2]. split; [|by apply IH].
    destruct (Hcut q) as [->|(_ & Hs & _)]; [done|]. rewrite HB1 in Hs. destruct Hs as [|Hs]; [done|congruence].
  - eapply Forall_impl; [exact H5|]. by intros c [_ ?].
Qed.

(** What ending the words of a command guarantees. *)
Definition nul_post (s : pst) (p : Z) (t : tree) (s' : pst) : Prop :=
  heap s' = heap s /\ more_nuls (tm s) (tm s') /\ rep (ended (tm s')) (heap s) p t.

Lemma wp_nul_args f argv eargv args i (Q : unit -> pst -> Prop) s :
  args_rep W argv eargv args -> (i <= length args)%nat -> (length args - i < f)%nat -> cut (tm s) ->
  (forall j w, (j < i)%nat -> args !! j = Some w ->
     exists q eq, argv !! j = Some q /\ eargv !! j = Some eq /\ ended (tm s) q eq w) ->
  (forall s', heap s' = heap s -> more_nuls (tm s) (tm s') ->
     args_rep (ended (tm s')) argv eargv args -> Q tt s') ->
  wp (nul_args f argv eargv (Z.of_nat i)) Q s.
Proof.
  intros (Ha & He & Hw & Hend). revert i s. induction f as [|f IH]; intros i s Hi Hf Hcut Hdone HQ; [lia|].
  simpl nul_args. apply wp_bind. destruct (decide (i = length args)) as [->|Hne].
  - eapply wp_arr_get; [lia|by rewrite Nat2Z.id|]. simpl. apply wp_ret, HQ; [done|done|].
    split_and!; [done..| |done]. intros j w Hj. apply Hdone; [|done]. by eapply lookup_lt_Some.
  - destruct (lookup_lt_is_Some_2 args i ltac:(lia)) as [w Hiw].
    destruct (Hw i w Hiw) as (q & eq & Hq & Heq & HW).
    eapply wp_arr_get; [lia|by rewrite Nat2Z.id|].
    replace (q =? 0) with false by (destruct HW; lia). apply wp_bind.
    eapply wp_arr_get; [lia|by rewrite Nat2Z.id|]. unfold store_nul. wp_steps.
    destruct (more_nuls_store _ _ _ _ Hcut HW) as [Hm Hended].
    replace (Z.of_nat i + 1) with (Z.of_nat (S i)) by lia. apply IH; simpl; [lia|lia|apply Hm| |].
    + intros j w' Hj Hjw. destruct (decide (j = i)) as [->|Hji].
      * simplify_eq. by exists q, eq.
      * destruct (Hdone j w' ltac:(lia) Hjw) as (q' & eq' & ? & ? & ?). exists q', eq'.
        split_and!; [done..|]. by eapply ended_mono.
    + intros s' Hh Hm' Hr. apply HQ; [done| |done]. by eapply more_nuls_trans.
Qed.

Lemma load_cmd_node p c s : node (heap s) p = Some c -> load_cmd p s = Ret (c, s) /\ (p =? 0) = false.
Proof.
  intros Hn. pose proof (node_Some _ _ _ Hn). unfold load_cmd. replace (p =? 0) with false by lia.
  split; [|done]. unfold node in Hn. replace (p <=? 0) with false in Hn by lia. by rewrite Hn.
Qed.

(** One node of the traversal: load the command and go on with its case. *)
Lemma wp_nulterminate_node f p c (Q : unit -> pst -> Prop) s :
  node (heap s) p = Some c ->
  wp (match c with
      | EXEC argv eargv => nul_args 11 argv eargv 0
      | REDIR sub file efile mode fd => nulterminate f sub;; store_nul efile
      | PIPE l r => nulterminate f l;; nulterminate f r
      | LIST l r => nulterminate f l;; nulterminate f r
      | BACK sub => nulterminate f sub
      end) Q s ->
  wp (nulterminate (S f) p) Q s.
Proof.
  intros Hn HQ. destruct (load_cmd_node _ _ _ Hn) as [Hl Hp]. simpl. rewrite Hp. apply wp_bind.
  by eapply wp_eq.
Qed.

Lemma wp_nulterminate f p t s :
  rep W (heap s) p t -> cut (tm s) -> (Z.to_nat p < f)%nat ->
  wp (nulterminate f p) (fun _ s' => nul_post s p t s') s.
Proof.
  assert (forall l r (IHl : forall f p s, rep W (heap s) p l -> cut (tm s) -> (Z.to_nat p < f)%nat ->
                      wp (nulterminate f p) (fun _ s' => nul_post s p l s') s)
              (IHr : forall f p s, rep W (heap s) p r -> cut (tm s) -> (Z.to_nat p < f)%nat ->
                      wp (nulterminate f p) (fun _ s' => nul_post s p r s') s) f pl pr s,
    rep W (heap s) pl l -> rep W (heap s) pr r -> cut (tm s) ->
    (Z.to_nat pl < f)%nat -> (Z.to_nat pr < f)%nat ->
    wp (nulterminate f pl;; nulterminate f pr)
      (fun _ s' => heap s' = heap s /\ more_nuls (tm s) (tm s') /\
         rep (ended (tm s')) (heap s) pl l /\ rep (ended (tm s')) (heap s) pr r) s) as Hboth.
  { intros l r IHl IHr f' pl pr s' Hl Hr Hcut Hfl Hfr. apply wp_bind.
    eapply wp_mono; [by apply IHl|]. intros _ s1 (Hh1 & Hm1 & Hr1).
    eapply wp_mono; [apply IHr; [by rewrite Hh1|apply Hm1|done]|]. intros _ s2 (Hh2 & Hm2 & Hr2).
    rewrite Hh1 in Hr2. split_and!; [congruence|by eapply more_nuls_trans| |done].
    eapply tree_rep_mono; [|exact Hr1]. intros q eq w. by apply ended_mono. }
  revert f p s. induction t as [args|t IH file mode fd|l IHl r IHr|l IHl r IHr|t IH];
    intros [|f] p s Hr Hcut Hf; try lia; simpl in Hr.
  - destruct Hr as (argv & eargv & Hn & Hargs). eapply wp_nulterminate_node; [exact Hn|].
    apply (wp_nul_args 11 argv eargv args 0); [done|lia| |done|intros; lia|].
    + destruct Hargs as (Ha & _ & _ & Hz). apply lookup_lt_Some in Hz. lia.
    + intros s' Hh Hm Hr. split_and!; [done..|]. by exists argv, eargv.
  - destruct Hr as (c & q & eq & Hn & Hlt & HW & Hr). pose proof (node_Some _ _ _ Hn).
    eapply wp_nulterminate_node; [exact Hn|]. simpl. apply wp_bind.
    eapply wp_mono; [apply IH; [done|done|lia]|]. intros _ s1 (Hh & Hm & Hr1).
    destruct (more_nuls_store _ _ _ _ (proj1 Hm) HW) as [Hm2 Hended].
    unfold store_nul. wp_steps. split_and!; simpl; [done|by eapply more_nuls_trans|].
    exists c, q, eq. split_and!; [done..|]. eapply tree_rep_mono; [|exact Hr1]. intros ???. by apply ended_mono.
  - destruct Hr as (pl & pr & Hn & Hl1 & Hr1 & Hl & Hr). pose proof (node_Some _ _ _ Hn).
    eapply wp_nulterminate_node; [exact Hn|]. eapply wp_mono; [apply (Hboth l r IHl IHr); try done; lia|].
    intros _ s' (H1 & H2 & H3 & H4). split_and!; [done..|]. by exists pl, pr.
  - destruct Hr as (pl & pr & Hn & Hl1 & Hr1 & Hl & Hr). pose proof (node_Some _ _ _ Hn).
    eapply wp_nulterminate_node; [exact Hn|]. eapply wp_mono; [apply (Hboth l r IHl IHr); try done; lia|].
    intros _ s' (H1 & H2 & H3 & H4). split_and!; [done..|]. by exists pl, pr.
  - destruct Hr as (c & Hn & Hlt & Hr). pose proof (node_Some _ _ _ Hn).
    eapply wp_nulterminate_node; [exact Hn|]. simpl.
    eapply wp_mono; [apply IH; [done|done|lia]|]. intros _ s' (H1 & H2 & H3).
    split_and!; [done..|]. by exists c.
Qed.

End Nul.

(** ** The whole parser *)

(** The strings of a finished command. *)
Definition in_line (m : mem) (s : Z) (q _ : Z) (w : list Z) : Prop := s <= q /\ str_at m q w.

(** The state [st'] after a successful parse of the line [T] at [s]. *)
Definition parsed (st st' : pst) (s : Z) (T : list Z) (p : Z) (t : tree) : Prop :=
  rep (in_line (tm st') s) (heap st') p t /\
  (forall x, rdb (tm st') x <> rdb (tm st) x -> s <= x <= s + Z.of_nat (length T) /\ rdb (tm st') x = 0) /\
  take (length (heap st)) (heap st') = heap st.

Lemma parsecmd_agrees fuel s T st :
  0 < s -> str_at (tm st) s T -> Z.of_nat (length T) < 2 ^ 31 -> (4 * length T + 4 <= fuel)%nat ->
  ag (parsecmd fuel s) st (ref_cmd (tokens T)) (fun t p st' => parsed st st' s T p t).
Proof.
  intros Hs HT Hlen Hf. unfold parsecmd. apply ag_step, wp_gets.
  rewrite (strlen_str _ _ T) by (done || lia). apply ag_step, wp_of_opt, ag_step, wp_modify.
  set (es := s + Z.of_nat (length T)). set (m0 := tm st) in *.
  assert (text_at m0 s es (set_ps s st) (tokens T)) as Hat.
  { split_and!; [done|simpl; lia|]. exists T. by split_and!. }
  pose proof (tokens_length T) as HL.
  destruct (parser_agrees m0 s es fuel) as (Hline & _).
  specialize (Hline (ref_depth (tokens T)) (tokens T) (set_ps s st) Hat ltac:(lia) ltac:(unfold ref_depth; lia)).
  unfold ref_cmd. change (ag _ _ ?o _) with (ag (parseline fuel es ≫= fun cmd =>
    peek es [] ≫= fun _ => gets ps ≫= fun s0 => if negb (s0 =? es) then panic "syntax"%string
      else gets heap ≫= fun h => nulterminate (S (length h)) cmd ≫= fun _ => mret cmd)
    (set_ps s st) (ref_line (ref_depth (tokens T)) (tokens T) ≫= fun b =>
      match b with (t, []) => Some t | _ => None end) (fun t p st' => parsed st st' s T p t)).
  eapply ag_bind; [exact Hline|]. intros [t ts'] p s1 _ (HT1 & _ & Hg & Hr). simpl in HT1, Hr.
  apply ag_step. apply (wp_peek m0 s es [] ts'); [done|constructor|]. intros p1 HT2 Hnil.
  apply ag_step, wp_gets. cbn [set_ps ps]. destruct ts' as [|tk ts'].
  - rewrite (Hnil eq_refl), Z.eqb_refl. simpl negb. cbv iota. apply ag_last, wp_bind, wp_gets, wp_bind.
    destruct HT2 as (Htm & _).
    assert (cut m0 s es (tm (set_ps es s1))) as Hcut by (simpl in *; rewrite Htm; by left).
    eapply wp_mono; [apply (wp_nulterminate m0 s es Hs _ p t); [exact Hr|exact Hcut|]|].
    { apply rep_bound in Hr. simpl. lia. }
    intros _ s2 (Hh & [Hcut2 Hmore] & Hr2). apply wp_ret. simpl in *. split_and!.
    + rewrite Hh. eapply tree_rep_mono; [|exact Hr2]. intros q eq w Hw. by eapply ended_string.
    + intros x Hx. destruct (Hcut2 x) as [?|(? & _ & ?)]; done.
    + rewrite Hh. destruct Hg as [n ->]. by rewrite take_app_length.
  - assert (p1 <> es) as Hp1.
    { intros ->. destruct HT2 as (_ & _ & U & [_ HU] & Htok). simpl in HU.
      destruct U; [done|simpl in HU; lia]. }
    replace (p1 =? es) with false by lia. apply ag_panic.
Qed.

(** C12: the shell's parser refines its reference.  On any line [T] (a C
    string shorter than 2^31 bytes) [parsecmd] terminates within a recursion
    depth linear in the line, without reading or writing outside [argv]: it
    returns a command that represents the tree the reference parser finds for
    the tokens of [T], its words C strings inside the line, with nothing
    written but NULs over the line's separators; and it panics exactly when
    the reference rejects the line (a syntax error, a missing file name,
    ten or more arguments). *)
Theorem parsecmd_refines fuel s T st :
  0 < s -> str_at (tm st) s T -> Z.of_nat (length T) < 2 ^ 31 -> (4 * length T + 4 <= fuel)%nat ->
  match ref_cmd (tokens T) with
  | Some t => exists p st', parsecmd fuel s st = Ret (p, st') /\ parsed st st' s T p t
  | None => exists msg, parsecmd fuel s st = Panic msg
  end.
Proof.
  intros H1 H2 H3 H4. pose proof (parsecmd_agrees fuel s T st H1 H2 H3 H4) as H.
  destruct (ref_cmd (tokens T)); [|done]. by apply wp_run in H as (p & st' & ? & ?); eauto.
Qed.

(** The line [a>b &] *)
Abbreviation demo_line := [97; 62; 98; 32; 38].
Abbreviation demo_st := (Pst (put_bytes ∅ 100 (demo_line ++ [0])) 0 []).

Lemma parsecmd_refines_witness :
  ref_cmd (tokens demo_line) = Some (TBack (TRedir (TExec [[97]]) [98] 1537 1)) /\
  match ref_cmd (tokens demo_line) with
  | Some t => exists p st', parsecmd 24 100 demo_st = Ret (p, st') /\ parsed demo_st st' 100 demo_line p t
  | None => exists msg, parsecmd 24 100 demo_st = Panic msg
  end.
Proof.
  split; [vm_compute; reflexivity|].
  refine (parsecmd_refines 24 100 demo_line demo_st _ _ _ _); [lia| |simpl; lia|simpl; lia].
  vm_compute. repeat split; discriminate.
Defined.

(** ** Round trip *)







Abbreviation demo_ast := (LEnd (POne (Simple [] [([97], [ROut [98]])])) 1).

