(* ===== verification/Vm.v ===== *)
(** * Page tables (kernel/vm.c)

    Sv39 page tables live in physical memory as the code lays them out:
    three levels of 4096-byte pages of 512 64-bit entries.  The routines run
    over the page allocator's state, so a page-table page, a user page and a
    page of the free list are bytes of the same memory.  [kend], [etext] and
    [trampoline] are linker symbols; [vmfault] and its callers take the
    current process's [sz] and [pagetable], and the slab allocator's [kfree],
    which [vmfault] calls. *)

From Stdlib Require Import ZArith Lia Bool String.
From stdpp Require Import base gmap list strings.
From S2P Require Import Prelude Mem MemList Spinlock Kalloc.

(** ** riscv.h *)

Definition PGSHIFT : Z := 12.
Definition PTE_V : Z := 1.
Definition PTE_R : Z := 2.
Definition PTE_W : Z := 4.
Definition PTE_X : Z := 8.
Definition PTE_U : Z := 16.
Definition PXMASK : Z := 511.

Definition PA2PTE (pa : Z) : Z := Z.shiftl (Z.shiftr pa 12) 10.
Definition PTE2PA (pte : Z) : Z := u64 (Z.shiftl (Z.shiftr pte 10) 12).
Definition PTE_FLAGS (pte : Z) : Z := Z.land pte 1023.
Definition PXSHIFT (level : Z) : Z := PGSHIFT + 9 * level.
Definition PX (level va : Z) : Z := Z.land (Z.shiftr va (PXSHIFT level)) PXMASK.
Definition MAXVA : Z := 2 ^ 38.

(** ** memlayout.h *)

Definition UART0 : Z := 268435456.
Definition VIRTIO0 : Z := 268439552.
Definition PLIC : Z := 201326592.
Definition TRAMPOLINE : Z := MAXVA - PGSIZE.
Definition KSTACK (p : Z) : Z := TRAMPOLINE - (p + 1) * 2 * PGSIZE.
Definition TRAPFRAME : Z := TRAMPOLINE - PGSIZE.
Definition NPROC : Z := 64.

Definition set_bytes (f : mem -> mem) : M kst unit := modify (fun s => set_mem (f (mem_of s)) s).

Section Vm.
Context (kend : Z).

(** The level loop of [walk]: [level] steps remain before the leaf table. *)
Fixpoint walk_loop (level : nat) (pagetable va : Z) (alloc : bool) : M kst Z :=
  match level with
  | O => mret (pagetable + 8 * PX 0 va)
  | S l =>
      let pte := pagetable + 8 * PX (Z.of_nat level) va in
      e ← getf 8 pte 0;
      if negb (Z.land e PTE_V =? 0) then walk_loop l (PTE2PA e) va alloc
      else if negb alloc then mret 0
      else
        pt ← kalloc;
        if pt =? 0 then mret 0
        else
          set_bytes (fun m => memset m pt 0 PGSIZE);;
          setf 8 pte 0 (Z.lor (PA2PTE pt) PTE_V);;
          walk_loop l pt va alloc
  end.

Definition walk (pagetable va : Z) (alloc : bool) : M kst Z :=
  if va >=? MAXVA then panic "walk" else walk_loop 2 pagetable va alloc.

Definition walkaddr (pagetable va : Z) : M kst Z :=
  if va >=? MAXVA then mret 0
  else
    pte ← walk pagetable va false;
    if pte =? 0 then mret 0
    else
      e ← getf 8 pte 0;
      if Z.land e PTE_V =? 0 then mret 0
      else if Z.land e PTE_U =? 0 then mret 0
      else mret (PTE2PA e).

(** The [for(;;)] of [mappages]; the number of pages bounds it. *)
Fixpoint mappages_loop (fuel : nat) (pagetable a last pa perm : Z) : M kst Z :=
  match fuel with
  | O => out_of_fuel
  | S f =>
      pte ← walk pagetable a true;
      if pte =? 0 then mret (-1)
      else
        e ← getf 8 pte 0;
        if negb (Z.land e PTE_V =? 0) then panic "mappages: remap"
        else
          setf 8 pte 0 (Z.lor (Z.lor (PA2PTE pa) perm) PTE_V);;
          if a =? last then mret 0
          else mappages_loop f pagetable (u64 (a + PGSIZE)) last (u64 (pa + PGSIZE)) perm
  end.

Definition mappages (pagetable va size pa perm : Z) : M kst Z :=
  if negb (va mod PGSIZE =? 0) then panic "mappages: va not aligned"
  else if negb (size mod PGSIZE =? 0) then panic "mappages: size not aligned"
  else if size =? 0 then panic "mappages: size"
  else
    let last := u64 (va + size - PGSIZE) in
    mappages_loop (Z.to_nat (size / PGSIZE)) pagetable va last pa perm.

Definition kvmmap (kpgtbl va pa sz perm : Z) : M kst unit :=
  r ← mappages kpgtbl va sz pa perm;
  if negb (r =? 0) then panic "kvmmap" else mret tt.

(** [proc_mapstacks] of kernel/proc.c: a stack for each slot of the table. *)
Fixpoint mapstacks_loop (n : nat) (i kpgtbl : Z) : M kst unit :=
  match n with
  | O => mret tt
  | S n' =>
      pa ← kalloc;
      if pa =? 0 then panic "kalloc"
      else
        kvmmap kpgtbl (KSTACK i) pa PGSIZE (Z.lor PTE_R PTE_W);;
        mapstacks_loop n' (i + 1) kpgtbl
  end.

Definition proc_mapstacks (kpgtbl : Z) : M kst unit := mapstacks_loop (Z.to_nat NPROC) 0 kpgtbl.

Definition kvmmake (etext trampoline : Z) : M kst Z :=
  kpgtbl ← kalloc;
  set_bytes (fun m => memset m kpgtbl 0 PGSIZE);;
  kvmmap kpgtbl UART0 UART0 PGSIZE (Z.lor PTE_R PTE_W);;
  kvmmap kpgtbl VIRTIO0 VIRTIO0 PGSIZE (Z.lor PTE_R PTE_W);;
  kvmmap kpgtbl PLIC PLIC 67108864 (Z.lor PTE_R PTE_W);;
  kvmmap kpgtbl KERNBASE KERNBASE (u64 (etext - KERNBASE)) (Z.lor PTE_R PTE_X);;
  kvmmap kpgtbl etext etext (u64 (PHYSTOP - etext)) (Z.lor PTE_R PTE_W);;
  kvmmap kpgtbl TRAMPOLINE trampoline PGSIZE (Z.lor PTE_R PTE_X);;
  proc_mapstacks kpgtbl;;
  mret kpgtbl.

Definition uvmcreate : M kst Z :=
  pagetable ← kalloc;
  if pagetable =? 0 then mret 0
  else
    set_bytes (fun m => memset m pagetable 0 PGSIZE);;
    mret pagetable.

(** [for(a = va; a < va + npages*PGSIZE; a += PGSIZE)] *)
Fixpoint uvmunmap_loop (fuel : nat) (pagetable a last : Z) (do_free : bool) : M kst unit :=
  match fuel with
  | O => out_of_fuel
  | S f =>
      if a <? last then
        pte ← walk pagetable a false;
        (if pte =? 0 then mret tt
         else
           e ← getf 8 pte 0;
           if Z.land e PTE_V =? 0 then mret tt
           else
             (if do_free then page_kfree kend (PTE2PA e) else mret tt);;
             setf 8 pte 0 0);;
        uvmunmap_loop f pagetable (u64 (a + PGSIZE)) last do_free
      else mret tt
  end.

Definition uvmunmap (pagetable va npages : Z) (do_free : bool) : M kst unit :=
  if negb (va mod PGSIZE =? 0) then panic "uvmunmap: not aligned"
  else uvmunmap_loop (S (Z.to_nat npages)) pagetable va (u64 (va + npages * PGSIZE)) do_free.

Definition uvmdealloc (pagetable oldsz newsz : Z) : M kst Z :=
  if newsz >=? oldsz then mret oldsz
  else
    (if PGROUNDUP newsz <? PGROUNDUP oldsz then
       let npages := s32 ((PGROUNDUP oldsz - PGROUNDUP newsz) / PGSIZE) in
       uvmunmap pagetable (PGROUNDUP newsz) (u64 npages) true
     else mret tt);;
    mret newsz.

Fixpoint uvmalloc_loop (fuel : nat) (pagetable a oldsz newsz xperm : Z) : M kst Z :=
  match fuel with
  | O => out_of_fuel
  | S f =>
      if a <? newsz then
        mem ← kalloc;
        if mem =? 0 then
          uvmdealloc pagetable a oldsz;; mret 0
        else
          set_bytes (fun m => memset m mem 0 PGSIZE);;
          r ← mappages pagetable a PGSIZE mem (Z.lor (Z.lor PTE_R PTE_U) xperm);
          if negb (r =? 0) then
            page_kfree kend mem;;
            uvmdealloc pagetable a oldsz;; mret 0
          else uvmalloc_loop f pagetable (u64 (a + PGSIZE)) oldsz newsz xperm
      else mret newsz
  end.

Definition uvmalloc (pagetable oldsz newsz xperm : Z) : M kst Z :=
  if newsz <? oldsz then mret oldsz
  else
    let oldsz := PGROUNDUP oldsz in
    uvmalloc_loop (S (Z.to_nat ((newsz - oldsz + PGSIZE - 1) / PGSIZE))) pagetable oldsz oldsz newsz xperm.

(** [for(int i = 0; i < 512; i++)] of [freewalk], [n] entries to go; [child]
    is the recursive call. *)
Fixpoint freewalk_loop (child : Z -> M kst unit) (n : nat) (pagetable i : Z) : M kst unit :=
  match n with
  | O => mret tt
  | S n' =>
      pte ← getf 8 (pagetable + 8 * i) 0;
      (if negb (Z.land pte PTE_V =? 0) && (Z.land pte (Z.lor (Z.lor PTE_R PTE_W) PTE_X) =? 0) then
         child (PTE2PA pte);;
         setf 8 (pagetable + 8 * i) 0 0
       else if negb (Z.land pte PTE_V =? 0) then panic "freewalk: leaf"
       else mret tt);;
      freewalk_loop child n' pagetable (i + 1)
  end.

(** [fuel] bounds the depth of the recursion. *)
Fixpoint freewalk (fuel : nat) (pagetable : Z) : M kst unit :=
  match fuel with
  | O => out_of_fuel
  | S f =>
      freewalk_loop (freewalk f) 512 pagetable 0;;
      page_kfree kend pagetable
  end.

Definition uvmfree (fuel : nat) (pagetable sz : Z) : M kst unit :=
  (if sz >? 0 then uvmunmap pagetable 0 (PGROUNDUP sz / PGSIZE) true else mret tt);;
  freewalk fuel pagetable.

(** The loop of [uvmcopy]: [Some i] is the [goto err] at [i]. *)
Fixpoint uvmcopy_loop (fuel : nat) (old new i sz : Z) : M kst (option Z) :=
  match fuel with
  | O => out_of_fuel
  | S f =>
      if i <? sz then
        pte ← walk old i false;
        if pte =? 0 then uvmcopy_loop f old new (u64 (i + PGSIZE)) sz
        else
          e ← getf 8 pte 0;
          if Z.land e PTE_V =? 0 then uvmcopy_loop f old new (u64 (i + PGSIZE)) sz
          else
            mem ← kalloc;
            if mem =? 0 then mret (Some i)
            else
              set_bytes (fun m => memmove m mem (PTE2PA e) PGSIZE);;
              r ← mappages new i PGSIZE mem (PTE_FLAGS e);
              if negb (r =? 0) then page_kfree kend mem;; mret (Some i)
              else uvmcopy_loop f old new (u64 (i + PGSIZE)) sz
      else mret None
  end.

Definition uvmcopy (old new sz : Z) : M kst Z :=
  r ← uvmcopy_loop (S (Z.to_nat ((sz + PGSIZE - 1) / PGSIZE))) old new 0 sz;
  match r with
  | None => mret 0
  | Some i => uvmunmap new 0 (i / PGSIZE) true;; mret (-1)
  end.

Definition uvmclear (pagetable va : Z) : M kst unit :=
  pte ← walk pagetable va false;
  if pte =? 0 then panic "uvmclear"
  else
    e ← getf 8 pte 0;
    setf 8 pte 0 (Z.land e (u64 (Z.lnot PTE_U))).

Definition ismapped (pagetable va : Z) : M kst bool :=
  pte ← walk pagetable va false;
  if pte =? 0 then mret false
  else
    e ← getf 8 pte 0;
    mret (negb (Z.land e PTE_V =? 0)).

(** The current process and the slab allocator's [kfree]. *)
Context (p_sz p_pagetable : Z) (kfree : Z -> M kst unit).

Definition vmfault (pagetable va : Z) : M kst Z :=
  if va >=? p_sz then mret 0
  else
    let va := PGROUNDDOWN va in
    b ← ismapped pagetable va;
    if b : bool then mret 0
    else
      mem ← kalloc;
      if mem =? 0 then mret 0
      else
        set_bytes (fun m => memset m mem 0 PGSIZE);;
        r ← mappages p_pagetable va PGSIZE mem (Z.lor (Z.lor PTE_W PTE_U) PTE_R);
        if negb (r =? 0) then kfree mem;; mret 0
        else mret mem.

(** [pa0 = walkaddr(...); if(pa0 == 0) pa0 = vmfault(...)] *)
Definition translate (pagetable va0 : Z) : M kst Z :=
  pa0 ← walkaddr pagetable va0;
  if pa0 =? 0 then vmfault pagetable va0 else mret pa0.

Fixpoint copyout (fuel : nat) (pagetable dstva src len : Z) : M kst Z :=
  match fuel with
  | O => out_of_fuel
  | S f =>
      if len >? 0 then
        let va0 := PGROUNDDOWN dstva in
        if va0 >=? MAXVA then mret (-1)
        else
          pa0 ← translate pagetable va0;
          if pa0 =? 0 then mret (-1)
          else
            pte ← walk pagetable va0 false;
            e ← getf 8 pte 0;
            if Z.land e PTE_W =? 0 then mret (-1)
            else
              let n := PGSIZE - (dstva - va0) in
              let n := if n >? len then len else n in
              set_bytes (fun m => memmove m (pa0 + (dstva - va0)) src n);;
              copyout f pagetable (va0 + PGSIZE) (src + n) (len - n)
      else mret 0
  end.

Fixpoint copyin (fuel : nat) (pagetable dst srcva len : Z) : M kst Z :=
  match fuel with
  | O => out_of_fuel
  | S f =>
      if len >? 0 then
        let va0 := PGROUNDDOWN srcva in
        pa0 ← translate pagetable va0;
        if pa0 =? 0 then mret (-1)
        else
          let n := PGSIZE - (srcva - va0) in
          let n := if n >? len then len else n in
          set_bytes (fun m => memmove m dst (pa0 + (srcva - va0)) n);;
          copyin f pagetable (dst + n) (va0 + PGSIZE) (len - n)
      else mret 0
  end.

(** The inner [while(n > 0)] of [copyinstr]: whether a NUL was copied, and
    [max] and [dst] after it. *)
Fixpoint copystr_loop (n : nat) (p dst max : Z) : M kst (bool * Z * Z) :=
  match n with
  | O => mret (false, max, dst)
  | S n' =>
      c ← gets (fun s => rdb (mem_of s) p);
      if c =? 0 then
        set_bytes (fun m => stb m dst 0);; mret (true, max, dst)
      else
        set_bytes (fun m => stb m dst c);;
        copystr_loop n' (p + 1) (dst + 1) (max - 1)
  end.

Fixpoint copyinstr (fuel : nat) (pagetable dst srcva max : Z) : M kst Z :=
  match fuel with
  | O => out_of_fuel
  | S f =>
      if max >? 0 then
        let va0 := PGROUNDDOWN srcva in
        pa0 ← walkaddr pagetable va0;
        if pa0 =? 0 then mret (-1)
        else
          let n := PGSIZE - (srcva - va0) in
          let n := if n >? max then max else n in
          '(got_null, max, dst) ← copystr_loop (Z.to_nat n) (pa0 + (srcva - va0)) dst max;
          if got_null : bool then mret 0
          else copyinstr f pagetable dst (va0 + PGSIZE) max
      else mret (-1)
  end.

End Vm.
