(* ===== verification/VmProof.v ===== *)
(** * Page tables as maps

    [ptree] is the ghost shape of a three-level page table: its root page and
    the pages of its middle and lowest level.  [pt_ok] says that memory holds
    it; [leaf m T v] is the entry of virtual page [v].  [space] puts a page
    table and the other pages its owner holds next to the page allocator.
    The rules of [walk] say that looking up changes nothing, and that
    creating page-table pages keeps every translation. *)

From Stdlib Require Import ZArith Lia Bool String.
From stdpp Require Import base gmap list strings fin_maps.
From S2P Require Import Prelude Mem MemList Spinlock Kalloc Vm.

(** ** Entries *)

Lemma PA2PTE_flags pa f :
  (PGSIZE | pa) -> 0 <= pa < 2 ^ 56 -> 0 <= f < 1024 -> PTE2PA (Z.lor (PA2PTE pa) f) = pa.
Proof.
  intros [k ->] Hp Hf. unfold PTE2PA, PA2PTE, PGSIZE in *.
  rewrite Z.shiftr_lor, Z.shiftr_shiftl_l by lia. simpl Z.sub.
  rewrite (Z.shiftr_div_pow2 f), Z.div_small, Z.lor_0_r, Z.shiftl_0_r by lia.
  rewrite Z.shiftr_div_pow2, Z.shiftl_mul_pow2 by lia. change (2 ^ 12) with 4096.
  rewrite Z.div_mul by lia. apply u64_small. lia.
Qed.

Lemma valid_lor x : Z.land (Z.lor x PTE_V) PTE_V <> 0.
Proof.
  unfold PTE_V. intros H. apply (f_equal (fun z => Z.testbit z 0)) in H.
  rewrite Z.land_spec, Z.lor_spec, orb_true_r in H. done.
Qed.

Lemma PA2PTE_bound pa : 0 <= pa < 2 ^ 56 -> 0 <= PA2PTE pa < 2 ^ 54.
Proof.
  intros H. unfold PA2PTE. rewrite Z.shiftr_div_pow2, Z.shiftl_mul_pow2 by lia.
  change (2 ^ 12) with 4096. change (2 ^ 10) with 1024. split; zdiv.
Qed.

Lemma lor_flags_bound x f : 0 <= x < 2 ^ 54 -> 0 <= f < 1024 -> 0 <= Z.lor x f < 2 ^ 64.
Proof.
  intros Hx Hf. assert (0 <= Z.lor x f) by (apply Z.lor_nonneg; lia). split; [done|].
  destruct (decide (Z.lor x f = 0)) as [->|Hne]; [lia|].
  apply Z.log2_lt_pow2; [lia|]. rewrite Z.log2_lor by lia. apply Z.max_lub_lt.
  - destruct (decide (x = 0)) as [->|]; [simpl; lia|]. apply Z.log2_lt_pow2; lia.
  - destruct (decide (f = 0)) as [->|]; [simpl; lia|]. apply Z.log2_lt_pow2; lia.
Qed.

(** The page number of an address and its three indices. *)
Lemma PX_index va : 0 <= va < MAXVA ->
  PX 2 va = va / 4096 / 512 / 512 /\ PX 1 va = va / 4096 / 512 mod 512 /\ PX 0 va = va / 4096 mod 512.
Proof.
  intros Hva. unfold PX, PXSHIFT, PGSHIFT, PXMASK, MAXVA in *. change 511 with (Z.ones 9).
  rewrite !Z.land_ones by lia. rewrite !Z.shiftr_div_pow2 by lia.
  split_and!; rewrite ?Z.div_div by lia; simpl; [|done..].
  apply Z.mod_small. split; zdiv.
Qed.

(** ** The shape of a page table *)

Record ptree := PTree { pt_root : Z; pt_mid : gmap Z Z; pt_low : gmap Z Z }.

Definition tables (T : ptree) : list Z :=
  pt_root T :: (map_to_list (pt_mid T)).*2 ++ (map_to_list (pt_low T)).*2.

Definition entry (o : option Z) : Z :=
  match o with Some p => Z.lor (PA2PTE p) PTE_V | None => 0 end.

Record pt_ok (m : mem) (T : ptree) : Prop := {
  po_root : forall i, 0 <= i < 512 -> ld64 m (pt_root T + 8 * i) = entry (pt_mid T !! i);
  po_mid : forall i p j, pt_mid T !! i = Some p -> 0 <= j < 512 ->
    ld64 m (p + 8 * j) = entry (pt_low T !! (i * 512 + j));
  po_mid_key : forall i p, pt_mid T !! i = Some p -> 0 <= i < 512;
  po_low_key : forall k q, pt_low T !! k = Some q -> is_Some (pt_mid T !! (k / 512))
}.

(** The address of the entry of page [v], and the entry. *)
Definition leaf_addr (T : ptree) (v : Z) : Z :=
  match pt_low T !! (v / 512) with Some q => q + 8 * (v mod 512) | None => 0 end.

Definition leaf (m : mem) (T : ptree) (v : Z) : Z :=
  match pt_low T !! (v / 512) with Some q => ld64 m (q + 8 * (v mod 512)) | None => 0 end.

Lemma elem_root T : pt_root T ∈ tables T.
Proof. left. Qed.

Lemma elem_mid T i p : pt_mid T !! i = Some p -> p ∈ tables T.
Proof.
  intros H. right. apply elem_of_app. left. apply list_elem_of_fmap.
  exists (i, p). split; [done|]. by apply elem_of_map_to_list.
Qed.

Lemma elem_low T k q : pt_low T !! k = Some q -> q ∈ tables T.
Proof.
  intros H. right. apply elem_of_app. right. apply list_elem_of_fmap.
  exists (k, q). split; [done|]. by apply elem_of_map_to_list.
Qed.

Lemma elem_of_tables T x :
  x ∈ tables T <-> x = pt_root T \/ (exists i, pt_mid T !! i = Some x) \/ (exists k, pt_low T !! k = Some x).
Proof.
  unfold tables. rewrite elem_of_cons, elem_of_app, !list_elem_of_fmap. split.
  - intros [?|[([i p] & -> & H)|([k q] & -> & H)]]; [by left|right; left|right; right];
      apply elem_of_map_to_list in H; eauto.
  - intros [?|[[i H]|[k H]]]; [by left|right; left|right; right];
      apply elem_of_map_to_list in H; [by exists (i, x)|by exists (k, x)].
Qed.

Lemma low_inj T k1 k2 q :
  NoDup (tables T) -> pt_low T !! k1 = Some q -> pt_low T !! k2 = Some q -> k1 = k2.
Proof.
  intros Hnd H1 H2. apply list.NoDup_cons in Hnd as [_ Hnd]. apply list.NoDup_app in Hnd as (_ & _ & Hnd).
  apply elem_of_map_to_list in H1, H2. apply list_elem_of_lookup in H1 as [i1 H1], H2 as [i2 H2].
  assert (i1 = i2) as ->.
  { eapply NoDup_lookup; [exact Hnd|..]; rewrite list_lookup_fmap; [by rewrite H1|by rewrite H2]. }
  congruence.
Qed.

Lemma mid_not_low T i k p :
  NoDup (tables T) -> pt_mid T !! i = Some p -> pt_low T !! k = Some p -> False.
Proof.
  intros Hnd H1 H2. apply list.NoDup_cons in Hnd as [_ Hnd]. apply list.NoDup_app in Hnd as (_ & Hd & _).
  apply elem_of_map_to_list in H1, H2. apply (Hd p); apply list_elem_of_fmap; [by exists (i, p)|by exists (k, p)].
Qed.

Lemma root_not_low T k : NoDup (tables T) -> pt_low T !! k = Some (pt_root T) -> False.
Proof.
  intros Hnd H. apply list.NoDup_cons in Hnd as [Hn _]. apply Hn, elem_of_app. right.
  apply list_elem_of_fmap. exists (k, pt_root T). by rewrite elem_of_map_to_list.
Qed.

Lemma mid_inj T i1 i2 p :
  NoDup (tables T) -> pt_mid T !! i1 = Some p -> pt_mid T !! i2 = Some p -> i1 = i2.
Proof.
  intros Hnd H1 H2. apply list.NoDup_cons in Hnd as [_ Hnd]. apply list.NoDup_app in Hnd as (Hnd & _ & _).
  apply elem_of_map_to_list in H1, H2. apply list_elem_of_lookup in H1 as [j1 H1], H2 as [j2 H2].
  assert (j1 = j2) as ->.
  { eapply NoDup_lookup; [exact Hnd|..]; rewrite list_lookup_fmap; [by rewrite H1|by rewrite H2]. }
  congruence.
Qed.

Lemma root_not_mid T i : NoDup (tables T) -> pt_mid T !! i = Some (pt_root T) -> False.
Proof.
  intros Hnd H. apply list.NoDup_cons in Hnd as [Hn _]. apply Hn, elem_of_app. left.
  apply list_elem_of_fmap. exists (i, pt_root T). by rewrite elem_of_map_to_list.
Qed.

(** The representation only depends on the bytes of the table pages. *)
Definition same_on (ps : list Z) (m m' : mem) : Prop :=
  forall p x, p ∈ ps -> bytes_of p PGSIZE x -> rdb m' x = rdb m x.

Lemma ld64_same ps m m' p i :
  same_on ps m m' -> p ∈ ps -> 0 <= i < 512 -> ld64 m' (p + 8 * i) = ld64 m (p + 8 * i).
Proof.
  intros H Hp Hi. apply (ld_ext 8). intros x Hx. apply (H p); [done|]. unfold bytes_of, PGSIZE. lia.
Qed.

Lemma same_on_subset ps ps' m m' : same_on ps m m' -> ps' ⊆ ps -> same_on ps' m m'.
Proof. intros H Hs p x Hp. apply H. by apply Hs. Qed.

Lemma same_on_trans ps m1 m2 m3 : same_on ps m1 m2 -> same_on ps m2 m3 -> same_on ps m1 m3.
Proof. intros H1 H2 p x Hp Hx. rewrite (H2 p) by done. by apply (H1 p). Qed.

Lemma pt_ok_same m m' T : same_on (tables T) m m' -> pt_ok m T -> pt_ok m' T.
Proof.
  intros Hs [H1 H2 H3 H4]. split; [| |done|done].
  - intros i Hi. rewrite (ld64_same (tables T) m) by (done || apply elem_root). by apply H1.
  - intros i p j Hp Hj. rewrite (ld64_same (tables T) m) by (done || by eapply elem_mid). by apply H2.
Qed.

Lemma leaf_same m m' T v : same_on (tables T) m m' -> leaf m' T v = leaf m T v.
Proof.
  intros Hs. unfold leaf. destruct (pt_low T !! (v / 512)) as [q|] eqn:E; [|done].
  eapply ld64_same; [done|by eapply elem_low|]. zdiv.
Qed.

(** ** A page table next to the page allocator *)

Section Space.
Context (kend : Z).

(** The free pages [l], the page table [T] and the other pages [rest] that
    are in use. *)
Record space (s : kst) (l : list Z) (T : ptree) (rest : list Z) : Prop := {
  sp_pages : pages_inv kend s l (tables T ++ rest);
  sp_pt : pt_ok (mem_of s) T
}.

Lemma pages_inv_perm s l held held' :
  held ≡ₚ held' -> pages_inv kend s l held -> pages_inv kend s l held'.
Proof.
  intros Hp [H1 H2 H3]. split; [done|by rewrite <- Hp|]. intros pa Hpa. apply H3. by rewrite Hp.
Qed.

Lemma held_ok s l held pa : pages_inv kend s l held -> pa ∈ l ++ held -> page_ok kend pa.
Proof. intros [H1 H2 H3] [H|H]%elem_of_app; [by apply H1|by apply H3]. Qed.

Lemma held_range s l held pa :
  pages_inv kend s l held -> pa ∈ held -> 0 < pa /\ pa + PGSIZE <= 2 ^ 32 /\ (PGSIZE | pa).
Proof.
  intros Hi Hpa. destruct (page_range kend pa) as (H1 & H2 & H3);
    [apply Hi|by eapply pi_held|]. split_and!; [done..|]. apply Z.mod_divide; done.
Qed.

(** Writing inside one page leaves the others alone. *)
Lemma same_on_page s l held p ps m' :
  pages_inv kend s l held -> p ∈ held -> ps ⊆ l ++ held -> p ∉ ps ->
  modifies (bytes_of p PGSIZE) (mem_of s) m' -> same_on ps (mem_of s) m'.
Proof.
  intros Hi Hp Hs Hn Hm q x Hq Hx. apply Hm. intros Hx'.
  destruct (pages_apart kend p q); [|by eapply held_ok, Hs|by intros ->|unfold bytes_of in *; lia..].
  eapply held_ok; [done|]. set_solver.
Qed.

Lemma pages_inv_set_mem s l held m' :
  pages_inv kend s l held -> same_on l (mem_of s) m' -> pages_inv kend (set_mem m' s) l held.
Proof.
  intros [[K1 K2 K3 K4 K5 K6] H2 H3] Hs. split; [|done|done].
  split; [done| |done|done|done|by rewrite hart_of_set_mem].
  rewrite mem_of_set_mem. eapply (sll_modifies (fun x => ~ exists p, p ∈ l /\ bytes_of p PGSIZE x));
    [| |exact K2].
  - intros x Hx. destruct (decide (Exists (fun p => p <= x < p + PGSIZE) l)) as [HE|HE].
    + apply Exists_exists in HE as (p & Hp & Hb). by apply (Hs p).
    + exfalso. apply Hx. intros (p & Hp & Hb). apply HE, Exists_exists. by exists p.
  - intros x b Hx Hb Hn. apply Hn. exists x. split; [done|]. unfold bytes_of, PGSIZE in *. lia.
Qed.

Lemma space_nodup s l T rest : space s l T rest -> NoDup (tables T).
Proof.
  intros [[_ H _] _]. apply list.NoDup_app in H as (_ & _ & H). by apply list.NoDup_app in H as (H & _).
Qed.

Lemma space_table s l T rest p : space s l T rest -> p ∈ tables T ->
  0 < p /\ p + PGSIZE <= 2 ^ 32 /\ (PGSIZE | p).
Proof. intros [H _] Hp. eapply held_range; [done|]. set_solver. Qed.

(** Any change outside the table pages and the free pages keeps the space. *)
Lemma space_set_mem s l T rest m' :
  space s l T rest -> same_on (l ++ tables T) (mem_of s) m' ->
  space (set_mem m' s) l T rest /\ (forall v, leaf m' T v = leaf (mem_of s) T v).
Proof.
  intros [H1 H2] Hs. split; [split|].
  - apply pages_inv_set_mem; [done|]. eapply same_on_subset; [done|set_solver].
  - rewrite mem_of_set_mem. eapply pt_ok_same; [|done]. eapply same_on_subset; [done|set_solver].
  - intros v. apply leaf_same. eapply same_on_subset; [done|set_solver].
Qed.

Lemma entry_valid p :
  0 < p /\ p + PGSIZE <= 2 ^ 32 /\ (PGSIZE | p) ->
  (Z.land (entry (Some p)) PTE_V =? 0) = false /\ PTE2PA (entry (Some p)) = p /\
  0 <= entry (Some p) < 2 ^ 64.
Proof.
  intros (H1 & H2 & H3). unfold PGSIZE in H2. split_and!; simpl.
  - apply Z.eqb_neq, valid_lor.
  - apply PA2PTE_flags; [done|lia|unfold PTE_V; lia].
  - apply lor_flags_bound; [apply PA2PTE_bound; lia|unfold PTE_V; lia].
  - apply lor_flags_bound; [apply PA2PTE_bound; lia|unfold PTE_V; lia].
Qed.

Lemma vpn_bounds va : 0 <= va < MAXVA ->
  0 <= va / 4096 / 512 / 512 < 512 /\ 0 <= va / 4096 / 512 mod 512 < 512 /\ 0 <= va / 4096 mod 512 < 512 /\
  va / 4096 / 512 = va / 4096 / 512 / 512 * 512 + va / 4096 / 512 mod 512.
Proof. unfold MAXVA. intros H. split_and!; zdiv. Qed.

(** [walk] without [alloc] only reads. *)
Lemma wp_walk_lookup s l T rest va (Q : Z -> kst -> Prop) :
  space s l T rest -> 0 <= va < MAXVA -> Q (leaf_addr T (va / 4096)) s ->
  wp (walk (pt_root T) va false) Q s.
Proof.
  intros Hsp Hva HQ. pose proof (sp_pt _ _ _ _ Hsp) as [Ho1 Ho2 Ho3 Ho4].
  destruct (PX_index va Hva) as (E2 & E1 & E0). destruct (vpn_bounds va Hva) as (B2 & B1 & B0 & BK).
  unfold walk. replace (va >=? MAXVA) with false by (rewrite Z.geb_leb; lia).
  unfold leaf_addr in HQ. pose proof (space_table _ _ _ _ _ Hsp (elem_root T)) as Hr.
  cbn [walk_loop]. change (Z.of_nat 2) with 2. change (Z.of_nat 1) with 1. rewrite E2, E1, E0.
  wp_step. apply wp_getf; [lia|]. rewrite Z.add_0_r.
  change (ld 8 ?m ?a) with (ld64 m a). rewrite Ho1 by done.
  destruct (pt_mid T !! (va / 4096 / 512 / 512)) as [p|] eqn:Em.
  2:{ cbn [entry Z.land Z.eqb negb]. apply wp_ret. destruct (pt_low T !! (va / 4096 / 512)) eqn:El; [|done].
      apply Ho4 in El as [? El]. congruence. }
  pose proof (space_table _ _ _ _ _ Hsp (elem_mid _ _ _ Em)) as Hp.
  destruct (entry_valid p Hp) as (-> & -> & _). cbn [negb].
  wp_step. apply wp_getf; [lia|]. rewrite Z.add_0_r.
  change (ld 8 ?m ?a) with (ld64 m a). rewrite (Ho2 _ _ _ Em) by done. rewrite <- BK.
  destruct (pt_low T !! (va / 4096 / 512)) as [q|] eqn:El.
  - pose proof (space_table _ _ _ _ _ Hsp (elem_low _ _ _ El)) as Hq.
    destruct (entry_valid q Hq) as (-> & -> & _). cbn [negb]. by apply wp_ret.
  - cbn [entry Z.land Z.eqb negb]. by apply wp_ret.
Qed.

(** ** New page-table pages *)

(** Memory after a fresh page [pt] has been cleared and entered in slot [i]
    of the table [par]. *)
Definition linked (m : mem) (par i pt : Z) : mem :=
  st64 (memset m pt 0 PGSIZE) (par + 8 * i) (entry (Some pt)).

Lemma pages_disjoint s l held p q :
  pages_inv kend s l held -> p ∈ l ++ held -> q ∈ l ++ held -> p <> q ->
  p + 4096 <= q \/ q + 4096 <= p.
Proof.
  intros Hi Hp Hq Hne. by apply (pages_apart kend p q); [eapply held_ok..|].
Qed.

Lemma ld64_linked s l held par i pt p j :
  pages_inv kend s l held -> par ∈ held -> pt ∈ held -> p ∈ l ++ held -> par <> pt ->
  0 <= i < 512 -> 0 <= j < 512 ->
  ld64 (linked (mem_of s) par i pt) (p + 8 * j) =
  if decide (p = par /\ j = i) then entry (Some pt)
  else if decide (p = pt) then 0 else ld64 (mem_of s) (p + 8 * j).
Proof.
  intros Hi Hpar Hpt Hp Hne Hi512 Hj. unfold linked. case_decide as E1.
  - destruct E1 as [-> ->]. apply ld64_st64, entry_valid. by eapply held_range.
  - assert (p + 8 * j + 8 <= par + 8 * i \/ par + 8 * i + 8 <= p + 8 * j) as Hsep.
    { destruct (decide (p = par)) as [->|Hpp]; [assert (j <> i) by naive_solver; lia|].
      destruct (pages_disjoint s l held p par) as [|]; [done|done|set_solver|done|lia|lia]. }
    rewrite ld64_st64_ne by lia. case_decide as E2.
    + subst p. apply (ld_memset_zero 8); unfold PGSIZE; lia.
    + eapply ld64_modifies; [apply modifies_memset|]. intros x Hx. unfold bytes_of, PGSIZE.
      destruct (pages_disjoint s l held p pt) as [|]; [done|done|set_solver|done|lia|lia].
Qed.

Lemma same_on_linked s l held par i pt ps :
  pages_inv kend s l held -> par ∈ held -> pt ∈ held -> ps ⊆ l ++ held -> par ∉ ps -> pt ∉ ps ->
  0 <= i < 512 -> same_on ps (mem_of s) (linked (mem_of s) par i pt).
Proof.
  intros Hi Hpar Hpt Hps Hn1 Hn2 Hi512 p x Hp Hx. unfold linked, st64, bytes_of in *.
  rewrite rdb_st, decide_False, rdb_memset, decide_False; [done| |].
  - destruct (pages_disjoint s l held p pt) as [|]; [done|by apply Hps|set_solver|by intros ->|..];
      unfold PGSIZE in *; lia.
  - destruct (pages_disjoint s l held p par) as [|]; [done|by apply Hps|set_solver|by intros ->|..];
      unfold PGSIZE in *; simpl; lia.
Qed.

Lemma tables_mid r mid low i pt :
  mid !! i = None -> tables (PTree r (<[i := pt]> mid) low) ≡ₚ pt :: tables (PTree r mid low).
Proof.
  intros H. unfold tables. simpl. rewrite (map_to_list_insert _ _ _ H). simpl. constructor.
Qed.

Lemma tables_low r mid low k pt :
  low !! k = None -> tables (PTree r mid (<[k := pt]> low)) ≡ₚ pt :: tables (PTree r mid low).
Proof.
  intros H. unfold tables. simpl. rewrite (map_to_list_insert _ _ _ H). simpl.
  rewrite <- Permutation_middle. constructor.
Qed.

Lemma space_held s l T rest p : space s l T rest -> p ∈ tables T \/ p ∈ rest -> p ∈ tables T ++ rest.
Proof. set_solver. Qed.

(** A page in use is in only one role. *)
Lemma space_fresh s l T pt rest : space s l T (pt :: rest) -> pt ∉ tables T /\ pt ∉ l /\ pt ∉ rest.
Proof.
  intros [[_ H _] _]. apply list.NoDup_app in H as (_ & H1 & H). apply list.NoDup_app in H as (_ & H2 & H3).
  apply list.NoDup_cons in H3 as [H3 _]. split_and!; [|set_solver|done].
  intros Hpt. apply (H2 pt Hpt). left.
Qed.

Lemma space_apart s l T rest p : space s l T rest -> p ∈ tables T -> p ∉ l /\ p ∉ rest.
Proof.
  intros [[_ H _] _]. apply list.NoDup_app in H as (_ & H1 & H). apply list.NoDup_app in H as (_ & H2 & _).
  set_solver.
Qed.

(** The common part of linking a page-table page at either level. *)
Lemma linked_space s l T pt rest par i :
  space s l T (pt :: rest) -> par ∈ tables T -> 0 <= i < 512 ->
  same_on (l ++ rest) (mem_of s) (linked (mem_of s) par i pt) /\
  pages_inv kend (set_mem (linked (mem_of s) par i pt) s) l (pt :: tables T ++ rest).
Proof.
  intros Hsp Hpar Hi. destruct (space_fresh _ _ _ _ _ Hsp) as (F1 & F2 & F3).
  destruct (space_apart _ _ _ _ _ Hsp Hpar) as [A1 A2].
  assert (same_on (l ++ rest) (mem_of s) (linked (mem_of s) par i pt)) as Hs.
  { eapply same_on_linked; [apply Hsp|set_solver..|done]. }
  split; [done|]. eapply pages_inv_perm; [symmetry; apply Permutation_middle|].
  apply pages_inv_set_mem; [apply Hsp|]. eapply same_on_subset; [done|set_solver].
Qed.

Lemma add_mid s l T pt rest i :
  space s l T (pt :: rest) -> 0 <= i < 512 -> pt_mid T !! i = None ->
  let T' := PTree (pt_root T) (<[i := pt]> (pt_mid T)) (pt_low T) in
  let m' := linked (mem_of s) (pt_root T) i pt in
  space (set_mem m' s) l T' rest /\ same_on (l ++ rest) (mem_of s) m' /\
  (forall v, leaf m' T' v = leaf (mem_of s) T v).
Proof.
  intros Hsp Hi Hmid T' m'. destruct (linked_space _ _ _ _ _ _ _ Hsp (elem_root T) Hi) as [Hs Hpi].
  pose proof Hsp as [Hpages [Ho1 Ho2 Ho3 Ho4]].
  destruct (space_fresh _ _ _ _ _ Hsp) as (F1 & F2 & F3). pose proof (space_nodup _ _ _ _ Hsp) as Hnd.
  assert (forall p j, p ∈ tables T \/ p = pt -> 0 <= j < 512 -> ld64 m' (p + 8 * j) =
    if decide (p = pt_root T /\ j = i) then entry (Some pt)
    else if decide (p = pt) then 0 else ld64 (mem_of s) (p + 8 * j)) as Hld.
  { intros p j Hp Hj. eapply ld64_linked; [exact Hpages|..]; try done; set_solver. }
  assert (forall p, p ∈ tables T -> p <> pt) as Hnpt by (intros p Hp ->; done).
  destruct T as [r mid low]. cbn [pt_root pt_mid pt_low] in *. split_and!; [split|done|].
  - eapply pages_inv_perm; [|exact Hpi]. unfold T'. by rewrite tables_mid.
  - rewrite mem_of_set_mem. split; cbn [pt_root pt_mid pt_low T'].
    + intros j Hj. rewrite Hld by (try done; left; left). destruct (decide (j = i)) as [->|Hji].
      * by rewrite decide_True, lookup_insert_eq.
      * rewrite decide_False by naive_solver. rewrite lookup_insert_ne by done.
        rewrite decide_False; [by apply Ho1|]. apply Hnpt. left.
    + intros i' p j Hp Hj. destruct (decide (i' = i)) as [->|Hii].
      * rewrite lookup_insert_eq in Hp. simplify_eq. rewrite Hld by auto.
        rewrite decide_False by (intros [-> _]; apply F1; left). rewrite decide_True by done.
        destruct (low !! (i * 512 + j)) eqn:El; [|done].
        apply Ho4 in El as [? El]. replace ((i * 512 + j) / 512) with i in El by zdiv. congruence.
      * rewrite lookup_insert_ne in Hp by done. pose proof (elem_mid (PTree r mid low) _ _ Hp) as Hin.
        rewrite Hld by auto. rewrite decide_False.
        -- rewrite decide_False by (by apply Hnpt). by apply Ho2.
        -- intros [-> _]. by eapply (root_not_mid (PTree r mid low)).
    + intros i' p Hp. destruct (decide (i' = i)) as [->|Hii]; [done|].
      rewrite lookup_insert_ne in Hp by done. by eapply Ho3.
    + intros k q Hk. apply Ho4 in Hk. destruct (decide (k / 512 = i)) as [->|];
        [rewrite lookup_insert_eq; eauto|by rewrite lookup_insert_ne].
  - intros v. unfold leaf. simpl. destruct (low !! (v / 512)) as [q|] eqn:El; [|done].
    pose proof (elem_low (PTree r mid low) _ _ El) as Hin.
    rewrite Hld by (auto || zdiv). rewrite decide_False, decide_False; [done|by apply Hnpt|].
    intros [-> _]. by eapply (root_not_low (PTree r mid low)).
Qed.

Lemma add_low s l T pt rest i p j :
  space s l T (pt :: rest) -> pt_mid T !! i = Some p -> 0 <= j < 512 -> pt_low T !! (i * 512 + j) = None ->
  let T' := PTree (pt_root T) (pt_mid T) (<[i * 512 + j := pt]> (pt_low T)) in
  let m' := linked (mem_of s) p j pt in
  space (set_mem m' s) l T' rest /\ same_on (l ++ rest) (mem_of s) m' /\
  (forall v, leaf m' T' v = leaf (mem_of s) T v).
Proof.
  intros Hsp Hp Hj Hlow T' m'. pose proof (elem_mid _ _ _ Hp) as Hin.
  destruct (linked_space _ _ _ _ _ _ _ Hsp Hin Hj) as [Hs Hpi].
  pose proof Hsp as [Hpages [Ho1 Ho2 Ho3 Ho4]].
  destruct (space_fresh _ _ _ _ _ Hsp) as (F1 & F2 & F3). pose proof (space_nodup _ _ _ _ Hsp) as Hnd.
  assert (forall p' j', p' ∈ tables T \/ p' = pt -> 0 <= j' < 512 -> ld64 m' (p' + 8 * j') =
    if decide (p' = p /\ j' = j) then entry (Some pt)
    else if decide (p' = pt) then 0 else ld64 (mem_of s) (p' + 8 * j')) as Hld.
  { intros p' j' Hp' Hj'. eapply ld64_linked; [exact Hpages|..]; try done; set_solver. }
  assert (forall p, p ∈ tables T -> p <> pt) as Hnpt by (intros p' Hp' ->; done).
  assert (forall i' p', pt_mid T !! i' = Some p' -> p' = p -> i' = i) as Hinj.
  { intros i' p' Hp' ->. eapply mid_inj; done. }
  assert (p <> pt_root T) as Hpr by (intros ->; by eapply root_not_mid).
  destruct T as [r mid low]. cbn [pt_root pt_mid pt_low] in *. split_and!; [split|done|].
  - eapply pages_inv_perm; [|exact Hpi]. unfold T'. by rewrite tables_low.
  - rewrite mem_of_set_mem. split; cbn [pt_root pt_mid pt_low T'].
    + intros j' Hj'. rewrite Hld by (try done; left; left). rewrite decide_False by naive_solver.
      rewrite decide_False; [by apply Ho1|]. apply Hnpt. left.
    + intros i' p' j' Hp' Hj'. pose proof (elem_mid (PTree r mid low) _ _ Hp') as Hin'.
      rewrite Hld by auto. case_decide as E.
      * destruct E as [E ->]. rewrite (Hinj _ _ Hp' E). by rewrite lookup_insert_eq.
      * rewrite decide_False by (by apply Hnpt). rewrite lookup_insert_ne; [by apply Ho2|].
        intros HE. apply E. assert (i = i') as -> by zdiv. split; [congruence|lia].
    + done.
    + intros k q Hk. destruct (decide (k = i * 512 + j)) as [->|Hne].
      * replace ((i * 512 + j) / 512) with i by zdiv. eauto.
      * rewrite lookup_insert_ne in Hk by done. by eapply Ho4.
  - intros v. unfold leaf. cbn [pt_low T']. destruct (decide (v / 512 = i * 512 + j)) as [Hv|Hv].
    + rewrite Hv, lookup_insert_eq, Hlow. rewrite Hld by (auto || zdiv).
      rewrite decide_False by (intros [-> _]; done). by rewrite decide_True.
    + rewrite lookup_insert_ne by done. destruct (low !! (v / 512)) as [q|] eqn:El; [|done].
      pose proof (elem_low (PTree r mid low) _ _ El) as Hin'.
      rewrite Hld by (auto || zdiv). rewrite decide_False, decide_False; [done|by apply Hnpt|].
      intros [-> _]. by eapply (mid_not_low (PTree r mid low)).
Qed.

(** ** [walk] that may allocate *)

(** [T'] extends [T] and every entry reads the same. *)
Definition extends (s : kst) (l : list Z) (T : ptree) (rest : list Z) (s' : kst) (l' : list Z) (T' : ptree) : Prop :=
  space s' l' T' rest /\ pt_root T' = pt_root T /\ l' ++ tables T' ≡ₚ l ++ tables T /\
  same_on rest (mem_of s) (mem_of s') /\
  (forall v, leaf (mem_of s') T' v = leaf (mem_of s) T v).

Lemma extends_refl s l T rest : space s l T rest -> extends s l T rest s l T.
Proof. intros. by split_and!. Qed.

Lemma extends_trans s l T rest s1 l1 T1 s2 l2 T2 :
  extends s l T rest s1 l1 T1 -> extends s1 l1 T1 rest s2 l2 T2 -> extends s l T rest s2 l2 T2.
Proof.
  intros (A1 & A2 & A3 & A4 & A5) (B1 & B2 & B3 & B4 & B5). split_and!; [done|congruence|by rewrite B3| |].
  - by eapply same_on_trans.
  - intros v. by rewrite B5.
Qed.

(** [kalloc], and what a caller sees of it. *)
Lemma wp_kalloc_space s l T rest (Q : Z -> kst -> Prop) :
  space s l T rest ->
  (forall s', l = [] -> space s' [] T rest -> mem_of s' = mem_of s -> Q 0 s') ->
  (forall pt l' s', l = pt :: l' -> pt <> 0 -> space s' l' T (pt :: rest) ->
     same_on (tables T ++ rest) (mem_of s) (mem_of s') -> Q pt s') ->
  wp kalloc Q s.
Proof.
  intros Hsp H0 H1. pose proof Hsp as [Hpi Hpt]. pose proof Hpi as [Hk Hnd Hok].
  apply (wp_kalloc kend s l); [exact Hk| |].
  - intros -> s' Hk' _ Hm. apply H0; [done| |done]. split; [by split|by rewrite Hm].
  - intros pt l' s' -> Hk' _ Hm.
    assert (page_ok kend pt) as Hptok by (apply Hk; left).
    destruct (page_range kend pt) as (Hp0 & _); [apply Hk|done|].
    assert (pages_inv kend s' l' (tables T ++ pt :: rest)) as Hpi'.
    { split; [done| |].
      - rewrite <- Permutation_middle. by rewrite <- Permutation_middle.
      - intros y Hy. rewrite <- Permutation_middle in Hy. apply elem_of_cons in Hy as [->|Hy]; [done|by apply Hok]. }
    assert (same_on (tables T ++ rest) (mem_of s) (mem_of s')) as Hs.
    { intros p x Hp Hx. rewrite Hm, rdb_memset, decide_False; [done|].
      destruct (pages_apart kend pt p) as [|]; [done|by apply Hok| |unfold bytes_of in *; lia..].
      intros ->. apply list.NoDup_app in Hnd as (_ & Hd & _). by apply (Hd p); [left|]. }
    apply (H1 pt l'); [done|lia| |exact Hs]. split; [exact Hpi'|].
    eapply pt_ok_same; [|exact Hpt]. eapply same_on_subset; [exact Hs|clear; set_solver].
Qed.

(** Clearing a fresh page and entering it in a table, as [walk] does. *)
Lemma wp_link s pt par i (Q : unit -> kst -> Prop) :
  par + 8 * i <> 0 -> Q tt (set_mem (linked (mem_of s) par i pt) s) ->
  wp (set_bytes (fun m => memset m pt 0 PGSIZE);; setf 8 (par + 8 * i) 0 (Z.lor (PA2PTE pt) PTE_V)) Q s.
Proof.
  intros Hne HQ. unfold set_bytes. wp_step. apply wp_modify. apply wp_setf; [done|].
  rewrite mem_of_set_mem, set_mem_set_mem, Z.add_0_r. unfold linked, st64, entry in HQ. exact HQ.
Qed.

(** A table page linked after a [kalloc]: what the caller of [walk] sees. *)
Lemma extends_link s l T rest pt l' s1 T' m' :
  l = pt :: l' -> space s1 l' T (pt :: rest) ->
  same_on (tables T ++ rest) (mem_of s) (mem_of s1) ->
  space (set_mem m' s1) l' T' rest -> pt_root T' = pt_root T -> tables T' ≡ₚ pt :: tables T ->
  same_on (l' ++ rest) (mem_of s1) m' -> (forall v, leaf m' T' v = leaf (mem_of s1) T v) ->
  extends s l T rest (set_mem m' s1) l' T'.
Proof.
  intros -> Hsp1 Hs1 Hsp2 Hr Ht Hs2 Hleaf. split_and!; [done|done| | |].
  - rewrite Ht. by rewrite <- Permutation_middle.
  - rewrite mem_of_set_mem. eapply same_on_trans.
    + eapply same_on_subset; [exact Hs1|clear; set_solver].
    + eapply same_on_subset; [exact Hs2|clear; set_solver].
  - intros v. rewrite mem_of_set_mem, Hleaf. apply leaf_same.
    eapply same_on_subset; [exact Hs1|clear; set_solver].
Qed.

Lemma wp_walk_low s l T rest va p (Q : Z -> kst -> Prop) :
  space s l T rest -> 0 <= va < MAXVA -> pt_mid T !! (va / 4096 / 512 / 512) = Some p ->
  (forall s' T', extends s l T rest s' [] T' -> Q 0 s') ->
  (forall s' l' T', extends s l T rest s' l' T' -> is_Some (pt_low T' !! (va / 4096 / 512)) ->
     Q (leaf_addr T' (va / 4096)) s') ->
  wp (walk_loop 1 p va true) Q s.
Proof.
  intros Hsp Hva Hmid H0 H1. pose proof (sp_pt _ _ _ _ Hsp) as [Ho1 Ho2 Ho3 Ho4].
  destruct (PX_index va Hva) as (E2 & E1 & E0). destruct (vpn_bounds va Hva) as (B2 & B1 & B0 & BK).
  pose proof (space_table _ _ _ _ _ Hsp (elem_mid _ _ _ Hmid)) as Hp.
  cbn [walk_loop]. change (Z.of_nat 1) with 1. rewrite E1, E0.
  wp_step. apply wp_getf; [lia|]. rewrite Z.add_0_r.
  change (ld 8 ?m ?a) with (ld64 m a). rewrite (Ho2 _ _ _ Hmid) by done. rewrite <- BK.
  destruct (pt_low T !! (va / 4096 / 512)) as [q|] eqn:El.
  - pose proof (space_table _ _ _ _ _ Hsp (elem_low _ _ _ El)) as Hq.
    destruct (entry_valid q Hq) as (-> & -> & _). cbn [negb]. apply wp_ret.
    specialize (H1 s l T (extends_refl _ _ _ _ Hsp)). unfold leaf_addr in H1. rewrite El in H1. eauto.
  - change (negb (Z.land (entry None) PTE_V =? 0)) with false. cbn [negb].
    wp_step. apply (wp_kalloc_space s l T rest); [done| |].
    + intros s1 -> Hsp1 Hm. change (0 =? 0) with true. cbv iota. apply wp_ret. apply (H0 s1 T).
      split_and!; [done|done|done|by rewrite Hm|]. intros v. by rewrite Hm.
    + intros pt l' s1 Hl Hpt Hsp1 Hs1. replace (pt =? 0) with false by lia.
      apply wp_assoc, wp_bind, wp_link; [lia|]. apply wp_ret.
      rewrite BK in El. destruct (add_low _ _ _ _ _ _ _ _ Hsp1 Hmid B1 El) as (Hsp2 & Hs2 & Hleaf).
      pose proof (extends_link s l T rest pt l' s1 _ _ Hl Hsp1 Hs1 Hsp2 eq_refl) as Hext.
      destruct T as [r mid low]. cbn [pt_root pt_mid pt_low] in *.
      specialize (Hext (tables_low _ _ _ _ _ El) Hs2 Hleaf). rewrite <- BK in Hext, El.
      specialize (H1 _ _ _ Hext). unfold leaf_addr in H1. cbn [pt_low] in H1.
      rewrite BK, lookup_insert_eq, <- BK in H1. apply H1. eauto.
Qed.

Lemma wp_walk_alloc s l T rest va (Q : Z -> kst -> Prop) :
  space s l T rest -> 0 <= va < MAXVA ->
  (forall s' T', extends s l T rest s' [] T' -> Q 0 s') ->
  (forall s' l' T', extends s l T rest s' l' T' -> is_Some (pt_low T' !! (va / 4096 / 512)) ->
     Q (leaf_addr T' (va / 4096)) s') ->
  wp (walk (pt_root T) va true) Q s.
Proof.
  intros Hsp Hva H0 H1. pose proof (sp_pt _ _ _ _ Hsp) as [Ho1 Ho2 Ho3 Ho4].
  destruct (PX_index va Hva) as (E2 & _). destruct (vpn_bounds va Hva) as (B2 & B1 & B0 & BK).
  pose proof (space_table _ _ _ _ _ Hsp (elem_root T)) as Hr.
  unfold walk. replace (va >=? MAXVA) with false by (rewrite Z.geb_leb; lia).
  change (walk_loop 2 (pt_root T) va true) with
    (e ← getf 8 (pt_root T + 8 * PX 2 va) 0;
     if negb (Z.land e PTE_V =? 0) then walk_loop 1 (PTE2PA e) va true
     else pt ← kalloc; if pt =? 0 then mret 0
       else set_bytes (fun m => memset m pt 0 PGSIZE);;
            setf 8 (pt_root T + 8 * PX 2 va) 0 (Z.lor (PA2PTE pt) PTE_V);; walk_loop 1 pt va true : M kst Z).
  rewrite E2. wp_step. apply wp_getf; [lia|]. rewrite Z.add_0_r.
  change (ld 8 ?m ?a) with (ld64 m a). rewrite Ho1 by done.
  destruct (pt_mid T !! (va / 4096 / 512 / 512)) as [p|] eqn:Em.
  - pose proof (space_table _ _ _ _ _ Hsp (elem_mid _ _ _ Em)) as Hp.
    destruct (entry_valid p Hp) as (-> & -> & _). cbn [negb]. by eapply wp_walk_low.
  - change (negb (Z.land (entry None) PTE_V =? 0)) with false. cbn [negb].
    wp_step. apply (wp_kalloc_space s l T rest); [done| |].
    + intros s1 -> Hsp1 Hm. change (0 =? 0) with true. cbv iota. apply wp_ret. apply (H0 s1 T).
      split_and!; [done|done|done|by rewrite Hm|]. intros v. by rewrite Hm.
    + intros pt l' s1 Hl Hpt Hsp1 Hs1. replace (pt =? 0) with false by lia.
      apply wp_assoc, wp_bind, wp_link; [lia|].
      destruct (add_mid _ _ _ _ _ _ Hsp1 B2 Em) as (Hsp2 & Hs2 & Hleaf).
      pose proof (extends_link s l T rest pt l' s1 _ _ Hl Hsp1 Hs1 Hsp2 eq_refl) as Hext.
      destruct T as [r mid low]. cbn [pt_root pt_mid pt_low] in *.
      specialize (Hext (tables_mid _ _ _ _ _ Em) Hs2 Hleaf).
      eapply wp_walk_low; [exact Hsp2|done|cbn [pt_mid]; by rewrite lookup_insert_eq| |].
      * intros s' T' HT'. eapply H0, extends_trans; [exact Hext|exact HT'].
      * intros s' l2 T' HT'. apply (H1 s' l2 T'). by eapply extends_trans.
Qed.

#[local] Opaque tables.

(** ** Writing an entry *)

Lemma leaf_addr_sep T v v' q q' :
  NoDup (tables T) -> pt_low T !! (v / 512) = Some q -> pt_low T !! (v' / 512) = Some q' ->
  (forall p p', p ∈ tables T -> p' ∈ tables T -> p <> p' -> p + 4096 <= p' \/ p' + 4096 <= p) ->
  v <> v' -> q + 8 * (v mod 512) + 8 <= q' + 8 * (v' mod 512) \/ q' + 8 * (v' mod 512) + 8 <= q + 8 * (v mod 512).
Proof.
  intros Hnd H1 H2 Hd Hne. destruct (decide (q = q')) as [<-|Hq].
  - pose proof (low_inj _ _ _ _ Hnd H1 H2). assert (v mod 512 <> v' mod 512) by zdiv. lia.
  - destruct (Hd q q') as [|]; [by eapply elem_low..|done| |]; zdiv.
Qed.

Lemma set_leaf s l T rest v val :
  space s l T rest -> is_Some (pt_low T !! (v / 512)) -> 0 <= val < 2 ^ 64 ->
  let m' := st64 (mem_of s) (leaf_addr T v) val in
  space (set_mem m' s) l T rest /\ same_on (l ++ rest) (mem_of s) m' /\
  (forall v', leaf m' T v' = if decide (v' = v) then val else leaf (mem_of s) T v').
Proof.
  intros Hsp [q Hq] Hval m'. pose proof Hsp as [Hpages [Ho1 Ho2 Ho3 Ho4]].
  pose proof (space_nodup _ _ _ _ Hsp) as Hnd. pose proof (elem_low _ _ _ Hq) as Hin.
  destruct (space_apart _ _ _ _ _ Hsp Hin) as [A1 A2].
  assert (leaf_addr T v = q + 8 * (v mod 512)) as Ha by (unfold leaf_addr; by rewrite Hq).
  assert (0 <= v mod 512 < 512) as Hv by zdiv.
  assert (modifies (bytes_of q PGSIZE) (mem_of s) m') as Hm.
  { unfold m'. rewrite Ha. apply modifies_st64. intros x Hx. unfold bytes_of, PGSIZE. lia. }
  assert (forall p p', p ∈ tables T -> p' ∈ tables T -> p <> p' -> p + 4096 <= p' \/ p' + 4096 <= p) as Hd.
  { intros p p' Hp Hp'. apply (pages_disjoint s l (tables T ++ rest)); [exact Hpages|rewrite !elem_of_app; auto..]. }
  assert (forall ps, ps ⊆ l ++ tables T ++ rest -> q ∉ ps -> same_on ps (mem_of s) m') as Hsame.
  { intros ps Hps Hn. apply (same_on_page s l (tables T ++ rest) q);
      [exact Hpages|rewrite elem_of_app; auto|exact Hps|exact Hn|exact Hm]. }
  assert (forall p j, p ∈ tables T -> p <> q -> 0 <= j < 512 -> ld64 m' (p + 8 * j) = ld64 (mem_of s) (p + 8 * j)) as Hld.
  { intros p j Hp Hne Hj. apply (ld64_same [p]); [|left|done]. apply Hsame; [|set_solver].
    intros x Hx. apply list_elem_of_singleton in Hx as ->. rewrite !elem_of_app. auto. }
  split_and!; [split| |].
  - apply pages_inv_set_mem; [done|]. apply Hsame; [|done]. intros x Hx. rewrite !elem_of_app. auto.
  - rewrite mem_of_set_mem. split; [| |done|done].
    + intros i Hi. rewrite Hld; [by apply Ho1|apply elem_root| |done]. intros <-. by eapply root_not_low.
    + intros i p j Hp Hj. rewrite Hld; [by apply Ho2|by eapply elem_mid| |done]. intros ->. by eapply mid_not_low.
  - apply Hsame; [|rewrite elem_of_app; tauto]. intros x. rewrite !elem_of_app. tauto.
  - intros v'. unfold leaf, m'. rewrite Ha. case_decide as E.
    + subst v'. rewrite Hq. by apply ld64_st64.
    + destruct (pt_low T !! (v' / 512)) as [q'|] eqn:El; [|done]. apply ld64_st64_ne.
      destruct (leaf_addr_sep T v v' q q' Hnd Hq El Hd) as [|]; [congruence|lia|lia].
Qed.

(** The entry [mappages] writes. *)
Definition pte_of (pa perm : Z) : Z := Z.lor (Z.lor (PA2PTE pa) perm) PTE_V.

(** After a call [k] pages from [v0] map to the pages from [pa]. *)
Definition mapped (s : kst) (l : list Z) (T : ptree) (rest : list Z) (s' : kst) (l' : list Z) (T' : ptree)
    (v0 k pa perm : Z) : Prop :=
  space s' l' T' rest /\ pt_root T' = pt_root T /\ l' ++ tables T' ≡ₚ l ++ tables T /\
  same_on rest (mem_of s) (mem_of s') /\
  (forall v, leaf (mem_of s') T' v =
     if decide (v0 <= v < v0 + k) then pte_of (pa + (v - v0) * PGSIZE) perm else leaf (mem_of s) T v).

Lemma pte_of_lor pa perm : pte_of pa perm = Z.lor (PA2PTE pa) (Z.lor perm PTE_V).
Proof. unfold pte_of. by rewrite Z.lor_assoc. Qed.

Lemma lor_perm_bound perm : 0 <= perm < 1024 -> 0 <= Z.lor perm PTE_V < 1024.
Proof.
  intros H. unfold PTE_V. assert (0 <= Z.lor perm 1) by (apply Z.lor_nonneg; lia). split; [done|].
  destruct (decide (Z.lor perm 1 = 0)) as [->|]; [lia|]. change 1024 with (2 ^ 10).
  apply Z.log2_lt_pow2; [lia|]. rewrite Z.log2_lor by lia. apply Z.max_lub_lt; [|simpl; lia].
  destruct (decide (perm = 0)) as [->|]; [simpl; lia|]. apply Z.log2_lt_pow2; lia.
Qed.

Lemma pte_of_ok pa perm :
  (PGSIZE | pa) -> 0 <= pa < 2 ^ 56 -> 0 <= perm < 1024 ->
  PTE2PA (pte_of pa perm) = pa /\ 0 <= pte_of pa perm < 2 ^ 64 /\ Z.land (pte_of pa perm) PTE_V <> 0.
Proof.
  intros Hd Hpa Hp. rewrite pte_of_lor. pose proof (lor_perm_bound _ Hp). split_and!.
  - by apply PA2PTE_flags.
  - apply lor_flags_bound; [by apply PA2PTE_bound|done].
  - apply lor_flags_bound; [by apply PA2PTE_bound|done].
  - rewrite <- pte_of_lor. apply valid_lor.
Qed.

(** One iteration of [mappages]. *)
Lemma wp_map_page s l T rest v pa perm (k : M kst Z) (Q : Z -> kst -> Prop) :
  space s l T rest -> 0 <= v -> (v + 1) * PGSIZE <= MAXVA ->
  (PGSIZE | pa) -> 0 <= pa < 2 ^ 56 -> 0 <= perm < 1024 -> Z.land (leaf (mem_of s) T v) PTE_V = 0 ->
  (forall s' T', extends s l T rest s' [] T' -> Q (-1) s') ->
  (forall s' l' T', mapped s l T rest s' l' T' v 1 pa perm -> wp k Q s') ->
  wp (pte ← walk (pt_root T) (v * PGSIZE) true;
      if pte =? 0 then mret (-1)
      else
        e ← getf 8 pte 0;
        if negb (Z.land e PTE_V =? 0) then panic "mappages: remap"
        else setf 8 pte 0 (Z.lor (Z.lor (PA2PTE pa) perm) PTE_V);; k) Q s.
Proof.
  intros Hsp Hv Hmax Hd Hpa Hperm Hinv H0 H1. unfold PGSIZE, MAXVA in *.
  wp_step. apply (wp_walk_alloc s l T rest); [done|unfold MAXVA; lia| |].
  { intros s' T' Hext. change (0 =? 0) with true. cbv iota. apply wp_ret. by eapply H0. }
  rewrite !Z.div_mul by lia. intros s1 l1 T1 (E1 & E2 & E3 & E4 & E5) [q Hq].
  pose proof (space_table _ _ _ _ _ E1 (elem_low _ _ _ Hq)) as Hqr. unfold PGSIZE in Hqr.
  assert (leaf_addr T1 v = q + 8 * (v mod 512)) as Ha by (unfold leaf_addr; by rewrite Hq).
  assert (0 <= v mod 512 < 512) as Hm by zdiv.
  replace (leaf_addr T1 v =? 0) with false by (rewrite Ha; lia).
  wp_step. apply wp_getf; [lia|]. rewrite Z.add_0_r.
  assert (ld 8 (mem_of s1) (leaf_addr T1 v) = leaf (mem_of s) T v) as ->
    by (rewrite <- E5; unfold leaf; rewrite Ha, Hq; done).
  rewrite Hinv. change (negb (0 =? 0)) with false. cbv iota.
  wp_step. apply wp_setf; [lia|]. rewrite Z.add_0_r.
  destruct (pte_of_ok pa perm) as (_ & Hval & _); [done|lia|done|].
  destruct (set_leaf s1 l1 T1 rest v (pte_of pa perm)) as (S1 & S2 & S3); [done|by exists q|done|].
  eapply H1. split_and!; [exact S1|done|done| |].
  - eapply same_on_trans; [exact E4|]. rewrite mem_of_set_mem.
    eapply same_on_subset; [exact S2|clear; set_solver].
  - intros v'. rewrite mem_of_set_mem. etransitivity; [apply S3|]. unfold PGSIZE. case_decide as E.
    + subst v'. rewrite decide_True by lia. f_equal. lia.
    + rewrite decide_False by lia. apply E5.
Qed.

Lemma mapped_step s l T rest s1 l1 T1 s2 l2 T2 v0 k pa perm :
  mapped s l T rest s1 l1 T1 v0 1 pa perm -> 0 <= k ->
  mapped s1 l1 T1 rest s2 l2 T2 (v0 + 1) k (pa + PGSIZE) perm ->
  mapped s l T rest s2 l2 T2 v0 (1 + k) pa perm.
Proof.
  intros (A1 & A2 & A3 & A4 & A5) Hk (B1 & B2 & B3 & B4 & B5).
  split_and!; [done|congruence|by rewrite B3|by eapply same_on_trans|].
  intros v. rewrite B5, A5. repeat case_decide; try lia; try done; f_equal; lia.
Qed.

Lemma extends_mapped s l T rest s' l' T' v0 pa perm :
  extends s l T rest s' l' T' -> mapped s l T rest s' l' T' v0 0 pa perm.
Proof.
  intros (E1 & E2 & E3 & E4 & E5). split_and!; [done..|]. intros v. rewrite decide_False by lia. apply E5.
Qed.

Lemma wp_mappages_loop n v0 pa perm s l T rest (Q : Z -> kst -> Prop) :
  space s l T rest -> 0 <= v0 -> (v0 + Z.of_nat (S n)) * PGSIZE <= MAXVA ->
  (PGSIZE | pa) -> 0 <= pa -> pa + Z.of_nat (S n) * PGSIZE <= 2 ^ 56 -> 0 <= perm < 1024 ->
  (forall v, v0 <= v < v0 + Z.of_nat (S n) -> Z.land (leaf (mem_of s) T v) PTE_V = 0) ->
  (forall s' T' k, 0 <= k < Z.of_nat (S n) -> mapped s l T rest s' [] T' v0 k pa perm -> Q (-1) s') ->
  (forall s' l' T', mapped s l T rest s' l' T' v0 (Z.of_nat (S n)) pa perm -> Q 0 s') ->
  wp (mappages_loop (S n) (pt_root T) (v0 * PGSIZE) ((v0 + Z.of_nat n) * PGSIZE) pa perm) Q s.
Proof.
  revert v0 pa s l T Q. induction n as [|n IH]; intros v0 pa s l T Q Hsp Hv0 Hmax Hd Hpa Hpm Hperm Hinv H0 H1;
    unfold PGSIZE, MAXVA in Hmax, Hpm.
  - eapply wp_map_page; [done|done|unfold PGSIZE, MAXVA; lia|done|lia|done|apply Hinv; lia| |].
    + intros s' T' Hext. apply (H0 s' T' 0); [lia|]. by apply extends_mapped.
    + intros s' l' T' Hm. change (Z.of_nat 0) with 0. rewrite Z.add_0_r, Z.eqb_refl.
      apply wp_ret. by eapply H1.
  - remember (S n) as n1 eqn:En. cbn [mappages_loop].
    eapply wp_map_page; [done|done|unfold PGSIZE, MAXVA; lia|done|lia|done|apply Hinv; lia| |].
    + intros s' T' Hext. apply (H0 s' T' 0); [lia|]. by apply extends_mapped.
    + intros s1 l1 T1 Hm. replace (v0 * PGSIZE =? (v0 + Z.of_nat n1) * PGSIZE) with false by (unfold PGSIZE; lia).
      pose proof Hm as (A1 & A2 & A3 & A4 & A5).
      rewrite !u64_small by (unfold PGSIZE; lia). rewrite <- A2.
      replace (v0 * PGSIZE + PGSIZE) with ((v0 + 1) * PGSIZE) by lia.
      replace ((v0 + Z.of_nat n1) * PGSIZE) with ((v0 + 1 + Z.of_nat n) * PGSIZE) by lia. subst n1.
      eapply (IH (v0 + 1) (pa + PGSIZE) s1 l1 T1);
        [done|lia|unfold PGSIZE, MAXVA; lia| |unfold PGSIZE; lia|unfold PGSIZE; lia|done| | |].
      * apply Z.divide_add_r; [done|apply Z.divide_refl].
      * intros v Hv. rewrite A5, decide_False by lia. apply Hinv. lia.
      * intros s' T' k Hk Hmk. apply (H0 s' T' (1 + k)); [lia|]. eapply mapped_step; [exact Hm|lia|exact Hmk].
      * intros s' l' T' Hmk. apply (H1 s' l' T'). replace (Z.of_nat (S (S n))) with (1 + Z.of_nat (S n)) by lia.
        eapply mapped_step; [exact Hm|lia|exact Hmk].
Qed.

(** [mappages] of [n] pages that are not mapped yet. *)
Lemma wp_mappages n v0 pa perm s l T rest (Q : Z -> kst -> Prop) :
  space s l T rest -> 0 <= v0 -> 0 < n -> (v0 + n) * PGSIZE <= MAXVA ->
  (PGSIZE | pa) -> 0 <= pa -> pa + n * PGSIZE <= 2 ^ 56 -> 0 <= perm < 1024 ->
  (forall v, v0 <= v < v0 + n -> Z.land (leaf (mem_of s) T v) PTE_V = 0) ->
  (forall s' T' k, 0 <= k < n -> mapped s l T rest s' [] T' v0 k pa perm -> Q (-1) s') ->
  (forall s' l' T', mapped s l T rest s' l' T' v0 n pa perm -> Q 0 s') ->
  wp (mappages (pt_root T) (v0 * PGSIZE) (n * PGSIZE) pa perm) Q s.
Proof.
  intros Hsp Hv0 Hn Hmax Hd Hpa Hpm Hperm Hinv H0 H1. unfold mappages. unfold PGSIZE, MAXVA in Hmax, Hpm.
  rewrite !Z.mod_mul by (unfold PGSIZE; lia). change (negb (0 =? 0)) with false. cbv iota.
  replace (n * PGSIZE =? 0) with false by (unfold PGSIZE; lia).
  rewrite Z.div_mul by (unfold PGSIZE; lia). rewrite u64_small by (unfold PGSIZE; lia).
  destruct (Z.to_nat n) as [|k] eqn:Ek; [lia|].
  replace (v0 * PGSIZE + n * PGSIZE - PGSIZE) with ((v0 + Z.of_nat k) * PGSIZE) by (unfold PGSIZE; lia).
  assert (n = Z.of_nat (S k)) as -> by lia. by eapply wp_mappages_loop.
Qed.

(** [walkaddr] reads the entry. *)
Lemma wp_walkaddr s l T rest va (Q : Z -> kst -> Prop) :
  space s l T rest -> 0 <= va ->
  Q (if va >=? MAXVA then 0
     else let e := leaf (mem_of s) T (va / 4096) in
          if Z.land e PTE_V =? 0 then 0 else if Z.land e PTE_U =? 0 then 0 else PTE2PA e) s ->
  wp (walkaddr (pt_root T) va) Q s.
Proof.
  intros Hsp Hva HQ. unfold walkaddr. destruct (va >=? MAXVA) eqn:E; [by apply wp_ret|].
  rewrite Z.geb_leb in E. wp_step. eapply wp_walk_lookup; [done|lia|].
  unfold leaf_addr, leaf in *. destruct (pt_low T !! (va / 4096 / 512)) as [q|] eqn:Eq.
  - pose proof (space_table _ _ _ _ _ Hsp (elem_low _ _ _ Eq)) as Hq.
    assert (0 <= va / 4096 mod 512 < 512) by zdiv.
    replace (q + 8 * _ =? 0) with false by lia. wp_step. apply wp_getf; [lia|]. rewrite Z.add_0_r.
    change (ld 8 ?m ?a) with (ld64 m a).
    destruct (Z.land _ PTE_V =? 0); [by apply wp_ret|]. destruct (Z.land _ PTE_U =? 0); by apply wp_ret.
  - by apply wp_ret.
Qed.

End Space.
