(* ===== verification/VmUser.v ===== *)
(** * User address spaces

    [uspace] adds to a page table the user pages it owns: [us] maps the
    virtual pages below [lim] that are mapped to their physical pages.  The
    rules of [uvmunmap], [uvmdealloc], [uvmalloc], [freewalk] and [uvmfree]
    say which pages move between the address space and the free list. *)

From Stdlib Require Import ZArith Lia Bool String.
From stdpp Require Import base gmap list strings fin_maps.
From S2P Require Import Prelude Mem MemList Spinlock Kalloc Vm VmProof.

#[local] Opaque tables.

Section User.
Context (kend : Z).

Abbreviation space := (space kend).

(** ** Freeing one page of a space *)

Lemma wp_page_kfree_space s l T rest pa (Q : unit -> kst -> Prop) :
  space s l T (pa :: rest) ->
  (forall s', space s' (pa :: l) T rest -> same_on (tables T ++ rest) (mem_of s) (mem_of s') -> Q tt s') ->
  wp (page_kfree kend pa) Q s.
Proof.
  intros Hsp HQ. pose proof Hsp as [[Hk Hnd Hok] Hpt].
  destruct (space_fresh _ _ _ _ _ _ Hsp) as (F1 & F2 & F3).
  assert (page_ok kend pa) as Hpa by (apply Hok; rewrite elem_of_app; right; left).
  apply (wp_page_kfree kend s l); [done..|]. intros s' Hk' _ Hm.
  assert (same_on (tables T ++ rest) (mem_of s) (mem_of s')) as Hs.
  { eapply (same_on_page kend s l (tables T ++ pa :: rest) pa); [by split| | | |exact Hm].
    - rewrite elem_of_app. right. left.
    - intros x. rewrite !elem_of_app, elem_of_cons. tauto.
    - rewrite !elem_of_app. tauto. }
  apply HQ; [|exact Hs]. split; [split|].
  - done.
  - rewrite <- Permutation_middle in Hnd. by rewrite <- Permutation_middle in Hnd.
  - intros x Hx. apply Hok. rewrite elem_of_app in *. rewrite elem_of_cons. tauto.
  - eapply pt_ok_same; [|exact Hpt]. eapply same_on_subset; [exact Hs|]. intros x. rewrite !elem_of_app. tauto.
Qed.

Lemma space_perm s l T rest rest' : rest ≡ₚ rest' -> space s l T rest -> space s l T rest'.
Proof.
  intros Hp [H1 H2]. split; [|done]. eapply pages_inv_perm; [|exact H1]. by rewrite Hp.
Qed.

(** ** Owned pages *)

Definition upages (us : gmap Z Z) : list Z := (map_to_list us).*2.

Lemma upages_delete us v pa : us !! v = Some pa -> upages us ≡ₚ pa :: upages (delete v us).
Proof. intros H. unfold upages. by rewrite <- (map_to_list_delete us v pa H). Qed.

Lemma upages_insert us v pa : us !! v = None -> upages (<[v := pa]> us) ≡ₚ pa :: upages us.
Proof. intros H. unfold upages. by rewrite (map_to_list_insert _ _ _ H). Qed.

Lemma elem_upages us v pa : us !! v = Some pa -> pa ∈ upages us.
Proof. intros H. apply list_elem_of_fmap. exists (v, pa). by rewrite elem_of_map_to_list. Qed.

Definition valid_pte (e : Z) : bool := negb (Z.land e PTE_V =? 0).

(** [us] is exactly what the table maps below page [lim]; [rest] are pages
    of others. *)
Record uspace (lim : Z) (s : kst) (l : list Z) (T : ptree) (us : gmap Z Z) (rest : list Z) : Prop := {
  us_space : space s l T (upages us ++ rest);
  us_map : forall v pa, us !! v = Some pa ->
    0 <= v < lim /\ valid_pte (leaf (mem_of s) T v) = true /\ PTE2PA (leaf (mem_of s) T v) = pa;
  us_only : forall v, 0 <= v < lim -> us !! v = None -> valid_pte (leaf (mem_of s) T v) = false
}.

(** What an operation keeps: the pages in total and the foreign pages. *)
Definition conserves (s : kst) (l : list Z) (T : ptree) (us : gmap Z Z) (rest : list Z)
    (s' : kst) (l' : list Z) (T' : ptree) (us' : gmap Z Z) : Prop :=
  pt_root T' = pt_root T /\
  l' ++ tables T' ++ upages us' ≡ₚ l ++ tables T ++ upages us /\
  same_on rest (mem_of s) (mem_of s').

Lemma conserves_refl s l T us rest : conserves s l T us rest s l T us.
Proof. by split_and!. Qed.

Lemma conserves_trans s l T us rest s1 l1 T1 us1 s2 l2 T2 us2 :
  conserves s l T us rest s1 l1 T1 us1 -> conserves s1 l1 T1 us1 rest s2 l2 T2 us2 ->
  conserves s l T us rest s2 l2 T2 us2.
Proof.
  intros (A1 & A2 & A3) (B1 & B2 & B3). split_and!; [congruence|by rewrite B2|by eapply same_on_trans].
Qed.

(** The entries outside the range [v0, v0 + n) and the pages behind them. *)
Definition keeps_others (s : kst) (T : ptree) (us : gmap Z Z) (s' : kst) (T' : ptree) (us' : gmap Z Z)
    (v0 n : Z) : Prop :=
  forall v, ~ (v0 <= v < v0 + n) -> us' !! v = us !! v /\ leaf (mem_of s') T' v = leaf (mem_of s) T v /\
    forall pa, us !! v = Some pa -> same_on [pa] (mem_of s) (mem_of s').

Lemma keeps_others_refl s T us v0 n : keeps_others s T us s T us v0 n.
Proof. by intros v _. Qed.

Lemma keeps_others_trans s T us s1 T1 us1 s2 T2 us2 v0 n v1 n1 v2 n2 :
  keeps_others s T us s1 T1 us1 v1 n1 -> keeps_others s1 T1 us1 s2 T2 us2 v2 n2 ->
  (forall v, ~ (v0 <= v < v0 + n) -> ~ (v1 <= v < v1 + n1) /\ ~ (v2 <= v < v2 + n2)) ->
  keeps_others s T us s2 T2 us2 v0 n.
Proof.
  intros H1 H2 Hr v Hv. destruct (Hr v Hv) as [Ha Hb]. destruct (H1 v Ha) as (A1 & A2 & A3).
  destruct (H2 v Hb) as (B1 & B2 & B3). split_and!; [congruence..|].
  intros pa Hpa. eapply same_on_trans; [by apply A3|]. apply B3. congruence.
Qed.

(** ** [uvmunmap] *)

(** One iteration of the loop of [uvmunmap]. *)
Lemma wp_unmap_page lim s l T us rest v (Q : unit -> kst -> Prop) :
  uspace lim s l T us rest -> 0 <= v < lim -> lim * PGSIZE <= MAXVA ->
  (forall s' l' us', uspace lim s' l' T us' rest -> us' !! v = None ->
     conserves s l T us rest s' l' T us' -> keeps_others s T us s' T us' v 1 -> Q tt s') ->
  wp (pte ← walk (pt_root T) (v * PGSIZE) false;
      if pte =? 0 then mret tt
      else
        e ← getf 8 pte 0;
        if Z.land e PTE_V =? 0 then mret tt
        else page_kfree kend (PTE2PA e);; setf 8 pte 0 0) Q s.
Proof.
  intros Hu Hv Hlim HQ. pose proof Hu as [Hsp Hmap Honly]. unfold PGSIZE, MAXVA in Hlim.
  wp_step. eapply wp_walk_lookup; [exact Hsp|unfold MAXVA, PGSIZE; lia|].
  unfold PGSIZE. rewrite Z.div_mul by lia.
  assert (us !! v = None -> Q tt s) as Hnone.
  { intros HN. apply (HQ s l us); [done|done|apply conserves_refl|apply keeps_others_refl]. }
  destruct (us !! v) as [pa|] eqn:Eus.
  2:{ specialize (Hnone eq_refl). specialize (Honly v Hv Eus).
      unfold leaf_addr, leaf, valid_pte in *. destruct (pt_low T !! (v / 512)) as [q|] eqn:Eq; [|by apply wp_ret].
      pose proof (space_table _ _ _ _ _ _ Hsp (elem_low _ _ _ Eq)) as Hq.
      assert (0 <= v mod 512 < 512) by zdiv. replace (q + 8 * _ =? 0) with false by lia.
      wp_step. apply wp_getf; [lia|]. rewrite Z.add_0_r. change (ld 8 ?m ?a) with (ld64 m a).
      apply negb_false_iff in Honly. rewrite Honly. by apply wp_ret. }
  destruct (Hmap v pa Eus) as (_ & Hvalid & Hpa).
  assert (is_Some (pt_low T !! (v / 512))) as [q Eq].
  { unfold leaf in Hvalid. destruct (pt_low T !! (v / 512)); [eauto|done]. }
  pose proof (space_table _ _ _ _ _ _ Hsp (elem_low _ _ _ Eq)) as Hq. unfold PGSIZE in Hq.
  assert (0 <= v mod 512 < 512) by zdiv.
  assert (leaf_addr T v = q + 8 * (v mod 512)) as Ha by (unfold leaf_addr; by rewrite Eq).
  replace (leaf_addr T v =? 0) with false by lia.
  wp_step. apply wp_getf; [lia|]. rewrite Z.add_0_r.
  assert (ld 8 (mem_of s) (leaf_addr T v) = leaf (mem_of s) T v) as -> by (unfold leaf; by rewrite Ha, Eq).
  unfold valid_pte in Hvalid. apply negb_true_iff in Hvalid. rewrite Hvalid, Hpa.
  assert (space s l T (pa :: upages (delete v us) ++ rest)) as Hsp1.
  { eapply space_perm; [|exact Hsp]. by rewrite (upages_delete _ _ _ Eus). }
  wp_step. apply (wp_page_kfree_space s l T (upages (delete v us) ++ rest)); [done|].
  intros s1 Hsp2 Hs1. apply wp_setf; [lia|]. rewrite Z.add_0_r.
  destruct (set_leaf kend s1 (pa :: l) T (upages (delete v us) ++ rest) v 0 Hsp2) as (S1 & S2 & S3);
    [by exists q|lia|]. set (s2 := set_mem _ _) in *.
  assert (forall v', leaf (mem_of s2) T v' = if decide (v' = v) then 0 else leaf (mem_of s) T v') as Hleaf.
  { intros v'. unfold s2. rewrite mem_of_set_mem. etransitivity; [apply S3|]. case_decide; [done|].
    apply leaf_same. eapply same_on_subset; [exact Hs1|]. intros x. rewrite !elem_of_app. tauto. }
  assert (same_on (upages (delete v us) ++ rest) (mem_of s) (mem_of s2)) as Hs2.
  { eapply same_on_trans; [eapply same_on_subset; [exact Hs1|]; intros x; rewrite !elem_of_app; tauto|].
    unfold s2. rewrite mem_of_set_mem. eapply same_on_subset; [exact S2|]. intros x. rewrite !elem_of_app. tauto. }
  apply (HQ s2 (pa :: l) (delete v us)).
  - split; [exact S1| |].
    + intros v' pa' Hv'. apply lookup_delete_Some in Hv' as [Hne Hv'].
      rewrite Hleaf, decide_False by done. by apply Hmap.
    + intros v' Hv' HN. rewrite Hleaf. case_decide; [done|]. rewrite lookup_delete_ne in HN by done.
      by apply Honly.
  - apply lookup_delete_eq.
  - split_and!; [done| |].
    + rewrite (upages_delete _ _ _ Eus). rewrite <- (Permutation_middle (tables T)).
      by rewrite <- (Permutation_middle l).
    + eapply same_on_subset; [exact Hs2|]. intros x. rewrite !elem_of_app. tauto.
  - intros v' Hv'. rewrite lookup_delete_ne by lia. rewrite Hleaf, decide_False by lia. split_and!; [done..|].
    intros pa' Hpa'. eapply same_on_subset; [exact Hs2|]. intros x Hx. apply list_elem_of_singleton in Hx as ->.
    rewrite elem_of_app. left. apply (elem_upages _ v'). rewrite lookup_delete_ne by lia. done.
Qed.

(** [n] pages from [v0] have been released. *)
Definition unmapped (lim : Z) (s : kst) (l : list Z) (T : ptree) (us : gmap Z Z) (rest : list Z)
    (s' : kst) (v0 n : Z) : Prop :=
  exists l' us', uspace lim s' l' T us' rest /\ (forall v, v0 <= v < v0 + n -> us' !! v = None) /\
    conserves s l T us rest s' l' T us' /\ keeps_others s T us s' T us' v0 n.

Lemma unmapped_step lim s l T us rest s1 l1 us1 s2 v0 n :
  uspace lim s1 l1 T us1 rest -> us1 !! v0 = None -> conserves s l T us rest s1 l1 T us1 ->
  keeps_others s T us s1 T us1 v0 1 -> 0 <= n ->
  unmapped lim s1 l1 T us1 rest s2 (v0 + 1) n -> unmapped lim s l T us rest s2 v0 (1 + n).
Proof.
  intros Hu1 HN1 Hc1 Hk1 Hn (l2 & us2 & Hu2 & HN2 & Hc2 & Hk2). exists l2, us2.
  split_and!; [done| |by eapply conserves_trans|].
  - intros v Hv. destruct (decide (v = v0)) as [->|]; [|apply HN2; lia].
    destruct (Hk2 v0) as (-> & _); [lia|done].
  - eapply keeps_others_trans; [exact Hk1|exact Hk2|]. intros v Hv. lia.
Qed.

Lemma wp_uvmunmap_loop lim n v0 s l T us rest (Q : unit -> kst -> Prop) :
  uspace lim s l T us rest -> 0 <= v0 -> v0 + Z.of_nat n <= lim -> lim * PGSIZE <= MAXVA ->
  (forall s', unmapped lim s l T us rest s' v0 (Z.of_nat n) -> Q tt s') ->
  wp (uvmunmap_loop kend (S n) (pt_root T) (v0 * PGSIZE) ((v0 + Z.of_nat n) * PGSIZE) true) Q s.
Proof.
  revert v0 s l us Q. induction n as [|n IH]; intros v0 s l us Q Hu Hv0 Hn Hlim HQ.
  - cbn [uvmunmap_loop]. assert (v0 * PGSIZE <? (v0 + Z.of_nat 0) * PGSIZE = false) as -> by (apply Z.ltb_ge; lia). apply wp_ret, HQ.
    exists l, us. split_and!; [done|lia|apply conserves_refl|apply keeps_others_refl].
  - remember (S n) as n1 eqn:En. cbn [uvmunmap_loop].
    assert (v0 * PGSIZE <? (v0 + Z.of_nat n1) * PGSIZE = true) as -> by (apply Z.ltb_lt; unfold PGSIZE; lia).
    apply wp_assoc, wp_bind. eapply (wp_unmap_page lim); [exact Hu|lia|done|].
    intros s1 l1 us1 Hu1 HN Hc Hk. unfold PGSIZE, MAXVA in Hlim.
    rewrite u64_small by (unfold PGSIZE; lia).
    replace (v0 * PGSIZE + PGSIZE) with ((v0 + 1) * PGSIZE) by lia.
    replace ((v0 + Z.of_nat n1) * PGSIZE) with ((v0 + 1 + Z.of_nat n) * PGSIZE) by lia. subst n1.
    apply (IH (v0 + 1) s1 l1 us1); [done|lia|lia|unfold PGSIZE, MAXVA; lia|].
    intros s2 H2. apply HQ. replace (Z.of_nat (S n)) with (1 + Z.of_nat n) by lia.
    eapply unmapped_step; [exact Hu1|done|done|done|lia|done].
Qed.

Lemma wp_uvmunmap lim n v0 s l T us rest (Q : unit -> kst -> Prop) :
  uspace lim s l T us rest -> 0 <= v0 -> 0 <= n -> v0 + n <= lim -> lim * PGSIZE <= MAXVA ->
  (forall s', unmapped lim s l T us rest s' v0 n -> Q tt s') ->
  wp (uvmunmap kend (pt_root T) (v0 * PGSIZE) n true) Q s.
Proof.
  intros Hu Hv0 Hn Hle Hlim HQ. unfold uvmunmap. rewrite Z.mod_mul by (unfold PGSIZE; lia).
  change (negb (0 =? 0)) with false. cbv iota.
  replace (u64 (v0 * PGSIZE + n * PGSIZE)) with ((v0 + Z.of_nat (Z.to_nat n)) * PGSIZE).
  2:{ rewrite Z2Nat.id by lia. rewrite u64_small; [lia|]. unfold PGSIZE, MAXVA in *. lia. }
  apply (wp_uvmunmap_loop lim (Z.to_nat n) v0 s l T us rest); [done|done|lia|done|].
  rewrite Z2Nat.id by lia. exact HQ.
Qed.

(** ** [uvmdealloc] *)

(** The pages a size covers. *)
Definition npages (sz : Z) : Z := (sz + 4095) / 4096.

Lemma PGROUNDUP_npages sz : 0 <= sz <= 2 ^ 63 -> PGROUNDUP sz = npages sz * PGSIZE.
Proof. intros H. by rewrite PGROUNDUP_div. Qed.

Lemma npages_mono a b : a <= b -> npages a <= npages b.
Proof. intros H. unfold npages. apply Z.div_le_mono; lia. Qed.

Lemma wp_uvmdealloc lim s l T us rest oldsz newsz (Q : Z -> kst -> Prop) :
  uspace lim s l T us rest -> 0 <= newsz -> 0 <= oldsz -> npages oldsz <= lim -> lim * PGSIZE <= MAXVA ->
  (forall s', unmapped lim s l T us rest s' (npages newsz) (Z.max 0 (npages oldsz - npages newsz)) ->
     Q (Z.min oldsz newsz) s') ->
  wp (uvmdealloc kend (pt_root T) oldsz newsz) Q s.
Proof.
  intros Hu H0 H1 Hle Hlim HQ. unfold PGSIZE, MAXVA in Hlim. unfold uvmdealloc.
  assert (unmapped lim s l T us rest s (npages newsz) 0) as Hnil.
  { exists l, us. split_and!; [done|lia|apply conserves_refl|apply keeps_others_refl]. }
  destruct (newsz >=? oldsz) eqn:E; rewrite Z.geb_leb in E.
  - apply wp_ret. rewrite <- (Z.min_l oldsz newsz) by lia. apply HQ.
    pose proof (npages_mono oldsz newsz ltac:(lia)). by rewrite Z.max_l by lia.
  - assert (oldsz <= 2 ^ 63) by (unfold npages in Hle; zdiv).
    rewrite !PGROUNDUP_npages by lia. pose proof (npages_mono newsz oldsz ltac:(lia)) as Hm.
    assert (0 <= npages newsz) by (unfold npages; zdiv). wp_step.
    destruct (npages newsz * PGSIZE <? npages oldsz * PGSIZE) eqn:E2; unfold PGSIZE in E2.
    + rewrite <- Z.mul_sub_distr_r, Z.div_mul by (unfold PGSIZE; lia).
      rewrite s32_small, u64_small by lia.
      apply (wp_uvmunmap lim (npages oldsz - npages newsz) (npages newsz) s l T us rest);
        [done|done|lia|lia|unfold PGSIZE, MAXVA; lia|].
      intros s' Hs'. apply wp_ret. rewrite <- (Z.min_r oldsz newsz) by lia. apply HQ. by rewrite Z.max_r by lia.
    + apply wp_ret, wp_ret. rewrite <- (Z.min_r oldsz newsz) by lia. apply HQ. by rewrite Z.max_l by lia.
Qed.

(** ** [uvmalloc] *)

Definition zero_page (m : mem) (pa : Z) : Prop := forall x, bytes_of pa PGSIZE x -> rdb m x = 0.

(** [n] zeroed pages have been added from [v0]. *)
Definition grown (lim : Z) (s : kst) (l : list Z) (T : ptree) (us : gmap Z Z) (rest : list Z)
    (s' : kst) (l' : list Z) (T' : ptree) (us' : gmap Z Z) (v0 n perm : Z) : Prop :=
  uspace lim s' l' T' us' rest /\ conserves s l T us rest s' l' T' us' /\
  keeps_others s T us s' T' us' v0 n /\
  (forall v, v0 <= v < v0 + n -> exists pa, us' !! v = Some pa /\
     leaf (mem_of s') T' v = pte_of pa perm /\ zero_page (mem_of s') pa).

Lemma grown_nil lim s l T us rest v0 perm : uspace lim s l T us rest -> grown lim s l T us rest s l T us v0 0 perm.
Proof. intros. split_and!; [done|apply conserves_refl|apply keeps_others_refl|lia]. Qed.

Lemma grown_step lim s l T us rest s1 l1 T1 us1 s2 l2 T2 us2 v0 n perm :
  grown lim s l T us rest s1 l1 T1 us1 v0 n perm -> 0 <= n ->
  grown lim s1 l1 T1 us1 rest s2 l2 T2 us2 (v0 + n) 1 perm ->
  grown lim s l T us rest s2 l2 T2 us2 v0 (n + 1) perm.
Proof.
  intros (A1 & A2 & A3 & A4) Hn (B1 & B2 & B3 & B4). split_and!; [done|by eapply conserves_trans| |].
  - eapply keeps_others_trans; [exact A3|exact B3|]. lia.
  - intros v Hv. destruct (decide (v = v0 + n)) as [->|Hne]; [apply B4; lia|].
    destruct (A4 v) as (pa & P1 & P2 & P3); [lia|]. destruct (B3 v) as (Q1 & Q2 & Q3); [lia|].
    exists pa. split_and!; [congruence|congruence|]. intros x Hx. rewrite (Q3 pa P1 pa x) by (done || left).
    by apply P3.
Qed.

(** A fresh page cleared for its new owner. *)
Lemma clear_page s l T pa rest :
  space s l T (pa :: rest) ->
  let s' := set_mem (memset (mem_of s) pa 0 PGSIZE) s in
  space s' l T (pa :: rest) /\ same_on (tables T ++ rest) (mem_of s) (mem_of s') /\
  (forall v, leaf (mem_of s') T v = leaf (mem_of s) T v) /\ zero_page (mem_of s') pa.
Proof.
  intros Hsp s'. destruct (space_fresh _ _ _ _ _ _ Hsp) as (F1 & F2 & F3). pose proof Hsp as [Hpages _].
  assert (forall ps, ps ⊆ l ++ tables T ++ pa :: rest -> pa ∉ ps ->
    same_on ps (mem_of s) (memset (mem_of s) pa 0 PGSIZE)) as Hsame.
  { intros ps Hps Hn. apply (same_on_page kend s l (tables T ++ pa :: rest) pa);
      [exact Hpages|rewrite elem_of_app, elem_of_cons; tauto|exact Hps|exact Hn|apply modifies_memset]. }
  destruct (space_set_mem kend s l T (pa :: rest) (memset (mem_of s) pa 0 PGSIZE) Hsp) as [S1 S2].
  { apply Hsame; [intros x|]; rewrite ?elem_of_app; tauto. }
  unfold s'. rewrite mem_of_set_mem. split_and!; [exact S1| |exact S2|].
  - apply Hsame; [intros x; rewrite !elem_of_app, elem_of_cons|rewrite elem_of_app]; tauto.
  - intros x Hx. unfold bytes_of in Hx. rewrite rdb_memset, decide_True by lia. done.
Qed.

(** A page [pa] entered as the user page [v]. *)
Lemma uspace_insert lim s l T us rest s' l' T' v pa perm :
  uspace lim s l T us rest -> 0 <= v < lim -> us !! v = None ->
  space s' l' T' (pa :: upages us ++ rest) -> (PGSIZE | pa) -> 0 <= pa < 2 ^ 56 -> 0 <= perm < 1024 ->
  (forall v', leaf (mem_of s') T' v' = if decide (v' = v) then pte_of pa perm else leaf (mem_of s) T v') ->
  uspace lim s' l' T' (<[v := pa]> us) rest.
Proof.
  intros Hu Hv HN Hsp Hd Hpa Hperm Hleaf. destruct (pte_of_ok pa perm Hd Hpa Hperm) as (P1 & _ & P2). split.
  - eapply space_perm; [|exact Hsp]. by rewrite (upages_insert _ _ _ HN).
  - intros v' pa' Hv'. rewrite Hleaf. case_decide as E.
    + subst v'. rewrite lookup_insert_eq in Hv'. simplify_eq. split_and!; [lia|lia| |done].
      unfold valid_pte. apply negb_true_iff, Z.eqb_neq. done.
    + rewrite lookup_insert_ne in Hv' by done. by eapply us_map.
  - intros v' Hv' HN'. rewrite Hleaf. destruct (decide (v' = v)) as [->|Hne].
    + by rewrite lookup_insert_eq in HN'.
    + rewrite lookup_insert_ne in HN' by done. by eapply us_only.
Qed.

(** A change of the table alone keeps an address space. *)
Lemma uspace_leaf lim s l T us rest s' l' T' :
  uspace lim s l T us rest -> space s' l' T' (upages us ++ rest) ->
  (forall v, leaf (mem_of s') T' v = leaf (mem_of s) T v) -> uspace lim s' l' T' us rest.
Proof.
  intros [H1 H2 H3] Hsp Hleaf. split; [done| |].
  - intros v pa. rewrite Hleaf. apply H2.
  - intros v. rewrite Hleaf. apply H3.
Qed.

(** One iteration of the loop of [uvmalloc] up to the test of [mappages]:
    the page is entered, or nothing has changed and [mem] is to be freed. *)
Lemma wp_grow_page lim s l T us rest pa s1 l1 v perm (Q : Z -> kst -> Prop) :
  uspace lim s l T us rest -> 0 <= v < lim -> lim * PGSIZE <= MAXVA -> us !! v = None -> 0 <= perm < 1024 ->
  l = pa :: l1 -> space s1 l1 T (pa :: upages us ++ rest) ->
  same_on (tables T ++ upages us ++ rest) (mem_of s) (mem_of s1) ->
  (forall s' T', space s' [] T' (pa :: upages us ++ rest) -> pt_root T' = pt_root T ->
     tables T' ≡ₚ l1 ++ tables T -> same_on (upages us ++ rest) (mem_of s) (mem_of s') ->
     (forall v, leaf (mem_of s') T' v = leaf (mem_of s) T v) -> Q (-1) s') ->
  (forall s' l' T', grown lim s l T us rest s' l' T' (<[v := pa]> us) v 1 perm -> Q 0 s') ->
  wp (set_bytes (fun m => memset m pa 0 PGSIZE);; mappages (pt_root T) (v * PGSIZE) PGSIZE pa perm) Q s1.
Proof.
  intros Hu Hv Hlim HN Hperm Hl Hsp1 Hs1 H0 H1. unfold set_bytes. wp_step. apply wp_modify.
  destruct (clear_page _ _ _ _ _ Hsp1) as (C1 & C2 & C3 & C4). set (s2 := set_mem _ s1) in *.
  assert (0 < pa /\ pa + PGSIZE <= 2 ^ 32 /\ (PGSIZE | pa)) as (Hpa1 & Hpa2 & Hpa3).
  { eapply held_range; [apply Hsp1|]. rewrite elem_of_app, elem_of_cons. tauto. }
  unfold PGSIZE, MAXVA in Hlim, Hpa2.
  assert (forall v, leaf (mem_of s2) T v = leaf (mem_of s) T v) as Hleaf2.
  { intros v'. rewrite C3. apply leaf_same. eapply same_on_subset; [exact Hs1|]. intros x. rewrite !elem_of_app. tauto. }
  assert (same_on (upages us ++ rest) (mem_of s) (mem_of s2)) as Hs2.
  { eapply same_on_trans; eapply same_on_subset; [exact Hs1| |exact C2|]; intros x; rewrite !elem_of_app; tauto. }
  assert (mappages (pt_root T) (v * PGSIZE) PGSIZE pa perm = mappages (pt_root T) (v * PGSIZE) (1 * PGSIZE) pa perm)
    as -> by done.
  eapply (wp_mappages kend 1 v pa perm s2 l1 T (pa :: upages us ++ rest));
    [exact C1|lia|lia|unfold PGSIZE, MAXVA; lia|done|lia|unfold PGSIZE; lia|done| | |].
  - intros v' Hv'. assert (v' = v) as -> by lia. rewrite Hleaf2.
    pose proof (us_only _ _ _ _ _ _ Hu v Hv HN) as Hno. unfold valid_pte in Hno.
    apply negb_false_iff, Z.eqb_eq in Hno. done.
  - intros s3 T3 k Hk (M1 & M2 & M3 & M4 & M5). apply (H0 s3 T3); [done|done|by rewrite <- M3| |].
    + eapply same_on_trans; [exact Hs2|]. eapply same_on_subset; [exact M4|]. intros x. rewrite elem_of_cons. tauto.
    + intros v'. rewrite M5, decide_False by lia. apply Hleaf2.
  - intros s3 l3 T3 (M1 & M2 & M3 & M4 & M5).
    assert (forall v', leaf (mem_of s3) T3 v' = if decide (v' = v) then pte_of pa perm else leaf (mem_of s) T v') as Hl3.
    { intros v'. rewrite M5. repeat case_decide; try lia; [f_equal; lia|apply Hleaf2]. }
    assert (same_on (upages us ++ rest) (mem_of s) (mem_of s3)) as Hs3.
    { eapply same_on_trans; [exact Hs2|]. eapply same_on_subset; [exact M4|]. intros x. rewrite elem_of_cons. tauto. }
    eapply (H1 s3 l3 T3). split_and!.
    + eapply uspace_insert; [exact Hu|done|done|exact M1|done|lia|exact Hperm|exact Hl3].
    + split_and!; [done| |].
      * rewrite (upages_insert _ _ _ HN). rewrite <- (Permutation_middle (tables T3)).
        rewrite <- (Permutation_middle l3). rewrite app_assoc, M3, Hl. by rewrite <- app_assoc.
      * eapply same_on_subset; [exact Hs3|]. intros x. rewrite !elem_of_app. tauto.
    + intros v' Hv'. rewrite lookup_insert_ne by lia. rewrite Hl3, decide_False by lia. split_and!; [done..|].
      intros pa' Hpa'. eapply same_on_subset; [exact Hs3|]. intros x Hx. apply list_elem_of_singleton in Hx as ->.
      rewrite elem_of_app. left. by eapply elem_upages.
    + intros v' Hv'. assert (v' = v) as -> by lia. exists pa. rewrite lookup_insert_eq, Hl3, decide_True by done.
      split_and!; [done..|]. intros x Hx. rewrite (M4 pa x) by (done || left). by apply C4.
Qed.

Section Alloc.
Context (lim v0 newsz xperm : Z) (s0 : kst) (l0 : list Z) (T0 : ptree) (us0 : gmap Z Z) (rest : list Z).
Context (Hlim : lim * PGSIZE <= MAXVA) (Hv0 : 0 <= v0 <= npages newsz) (Hnew : 0 <= newsz) (Hle : npages newsz <= lim).
Context (Hfree : forall v, v0 <= v < npages newsz -> us0 !! v = None).

Abbreviation perm := (Z.lor (Z.lor PTE_R PTE_U) xperm).
Context (Hperm : 0 <= perm < 1024).

(** The outcome of a call that ran out of memory: the address space is as it
    was before, apart from page-table pages it may have gained, and the pages
    that are free now do not exceed the ones it asked for. *)
Definition restored (s' : kst) : Prop :=
  exists l' T', uspace lim s' l' T' us0 rest /\ conserves s0 l0 T0 us0 rest s' l' T' us0 /\
    keeps_others s0 T0 us0 s' T' us0 v0 (npages newsz - v0) /\ Z.of_nat (length l') <= npages newsz - v0.

(** A call maps no page twice. *)
Lemma grown_size s T us n : keeps_others s0 T0 us0 s T us v0 n -> 0 <= n -> Z.of_nat (size us) <= Z.of_nat (size us0) + n.
Proof.
  intros Hk Hn. rewrite <- !size_dom. assert (dom us ⊆ dom us0 ∪ list_to_set (seqZ v0 n)) as Hs%subseteq_size.
  { intros v Hv%elem_of_dom. rewrite elem_of_union, elem_of_dom, elem_of_list_to_set, elem_of_seqZ.
    destruct (decide (v0 <= v < v0 + n)); [right; lia|left]. by destruct (Hk v) as (<- & _). }
  pose proof (size_union_alt (dom us0) (list_to_set (seqZ v0 n))) as E.
  assert (list_to_set (seqZ v0 n) ∖ dom us0 ⊆@{gset Z} list_to_set (seqZ v0 n)) as Hd%subseteq_size by set_solver.
  rewrite size_list_to_set, length_seqZ in Hd by apply NoDup_seqZ. lia.
Qed.

Lemma length_upages us : length (upages us) = size us.
Proof. unfold upages. by rewrite length_fmap, length_map_to_list. Qed.

Lemma wp_shrink_back s l T us n (Q : Z -> kst -> Prop) :
  uspace lim s l T us rest -> conserves s0 l0 T0 us0 rest s l T us ->
  keeps_others s0 T0 us0 s T us v0 n -> 0 <= n -> v0 + n + Z.of_nat (length l) <= npages newsz ->
  (forall s', restored s' -> Q 0 s') ->
  wp (uvmdealloc kend (pt_root T) ((v0 + n) * PGSIZE) (v0 * PGSIZE);; mret 0) Q s.
Proof.
  intros Hu Hc Hk Hn Hvn HQ. wp_step. unfold PGSIZE, MAXVA in Hlim.
  assert (forall v, npages (v * PGSIZE) = v) as Hnp by (intros v; unfold npages, PGSIZE; zdiv).
  apply (wp_uvmdealloc lim s l T us rest); [done|unfold PGSIZE; lia|unfold PGSIZE; lia|rewrite Hnp; lia|
    unfold PGSIZE, MAXVA; lia|].
  rewrite !Hnp. intros s' (l' & us' & U1 & U2 & U3 & U4). apply wp_ret, HQ.
  assert (us' = us0) as ->.
  { apply map_eq. intros v. destruct (decide (v0 <= v < v0 + n)) as [Hin|Hout].
    - rewrite U2 by lia. symmetry. apply Hfree. lia.
    - destruct (U4 v) as (-> & _); [lia|]. by destruct (Hk v Hout) as (-> & _). }
  exists l', T. split_and!; [done|by eapply conserves_trans| |].
  { eapply keeps_others_trans; [exact Hk|exact U4|]. lia. }
  destruct U3 as (_ & U3%Permutation_length & _). rewrite !length_app, !length_upages in U3. pose proof (grown_size _ _ _ _ Hk Hn). lia.
Qed.

Lemma wp_uvmalloc_loop k n s l T us (Q : Z -> kst -> Prop) :
  grown lim s0 l0 T0 us0 rest s l T us v0 n perm -> 0 <= n -> v0 + n + Z.of_nat k = npages newsz ->
  (forall s', restored s' -> Q 0 s') ->
  (forall s' l' T' us', grown lim s0 l0 T0 us0 rest s' l' T' us' v0 (npages newsz - v0) perm -> Q newsz s') ->
  wp (uvmalloc_loop kend (S k) (pt_root T) ((v0 + n) * PGSIZE) (v0 * PGSIZE) newsz xperm) Q s.
Proof.
  revert n s l T us. induction k as [|k IH]; intros n s l T us Hg Hn Hk HF HS; cbn [uvmalloc_loop].
  { assert ((v0 + n) * PGSIZE <? newsz = false) as ->.
    { apply Z.ltb_ge. unfold npages, PGSIZE in *. zdiv. }
    apply wp_ret. apply (HS s l T us). by replace (npages newsz - v0) with n by lia. }
  assert ((v0 + n) * PGSIZE <? newsz = true) as ->.
  { apply Z.ltb_lt. unfold npages, PGSIZE in *. zdiv. }
  pose proof Hg as (Hu & Hc & Hko & Hpages). unfold PGSIZE, MAXVA in Hlim.
  assert (us !! (v0 + n) = None) as HN.
  { destruct (Hko (v0 + n)) as (-> & _); [lia|]. apply Hfree. lia. }
  wp_step. apply (wp_kalloc_space kend s l T (upages us ++ rest)); [apply Hu| |].
  - intros s1 -> Hsp1 Hm1. change (0 =? 0) with true. cbv iota.
    apply (wp_shrink_back s1 [] T us n); [|split_and!; [apply Hc|apply Hc|rewrite Hm1; apply Hc]| |done|cbn [length]; lia|done].
    + eapply uspace_leaf; [exact Hu|done|]. intros v. by rewrite Hm1.
    + intros v Hv. rewrite Hm1. by apply Hko.
  - intros pa l1 s1 Hl Hpa Hsp1 Hs1. replace (pa =? 0) with false by lia.
    apply wp_assoc, wp_bind. eapply (wp_grow_page lim s l T us rest pa s1 l1 (v0 + n));
      [exact Hu|lia|unfold PGSIZE, MAXVA; lia|done|exact Hperm|done|done|exact Hs1| |].
    + intros s2 T2 Hsp2 Hr Ht Hs2 Hleaf. change (negb (-1 =? 0)) with true. cbv iota. wp_step.
      apply (wp_page_kfree_space s2 [] T2 (upages us ++ rest)); [done|]. intros s3 Hsp3 Hs3. rewrite <- Hr.
      assert (same_on (upages us ++ rest) (mem_of s) (mem_of s3)) as Hs03.
      { eapply same_on_trans; [exact Hs2|]. eapply same_on_subset; [exact Hs3|]. intros x. rewrite !elem_of_app. tauto. }
      assert (forall v, leaf (mem_of s3) T2 v = leaf (mem_of s) T v) as Hl3.
      { intros v. rewrite <- Hleaf. apply leaf_same. eapply same_on_subset; [exact Hs3|].
        intros x. rewrite !elem_of_app. tauto. }
      apply (wp_shrink_back s3 [pa] T2 us n); [by eapply uspace_leaf| | |done|cbn [length]; lia|done].
      * eapply conserves_trans; [exact Hc|]. split_and!; [done| |].
        -- rewrite Ht, Hl. simpl. by rewrite <- app_assoc.
        -- eapply same_on_subset; [exact Hs03|]. intros x. rewrite !elem_of_app. tauto.
      * intros v Hv. destruct (Hko v Hv) as (A1 & A2 & A3). split_and!; [done|by rewrite Hl3|].
        intros pa' Hpa'. eapply same_on_trans; [by apply A3|]. eapply same_on_subset; [exact Hs03|].
        intros x Hx. apply list_elem_of_singleton in Hx as ->. rewrite elem_of_app. left.
        apply (elem_upages _ v). by rewrite A1.
    + intros s2 l2 T2 Hg2. change (negb (0 =? 0)) with false. cbv iota.
      rewrite u64_small by (unfold PGSIZE; lia).
      replace ((v0 + n) * PGSIZE + PGSIZE) with ((v0 + (n + 1)) * PGSIZE) by lia.
      assert (pt_root T2 = pt_root T) as <- by apply Hg2.
      eapply (IH (n + 1) s2 l2 T2); [by eapply grown_step|lia|lia|done|done].
Qed.

End Alloc.

(** [uvmalloc] to [newsz]: all the pages up to it are there, zeroed, or
    nothing has changed. *)
Lemma wp_uvmalloc lim s l T us rest oldsz newsz xperm (Q : Z -> kst -> Prop) :
  let perm := Z.lor (Z.lor PTE_R PTE_U) xperm in
  let v0 := npages oldsz in
  uspace lim s l T us rest -> 0 <= oldsz <= newsz -> npages newsz <= lim -> lim * PGSIZE <= MAXVA ->
  0 <= perm < 1024 -> (forall v, v0 <= v < npages newsz -> us !! v = None) ->
  (forall s', restored lim v0 newsz s l T us rest s' -> Q 0 s') ->
  (forall s' l' T' us', grown lim s l T us rest s' l' T' us' v0 (npages newsz - v0) perm -> Q newsz s') ->
  wp (uvmalloc kend (pt_root T) oldsz newsz xperm) Q s.
Proof.
  intros perm v0 Hu Hsz Hle Hlim Hperm Hfree HF HS. unfold uvmalloc.
  replace (newsz <? oldsz) with false by lia. unfold PGSIZE, MAXVA in Hlim.
  assert (newsz <= 2 ^ 63) by (unfold npages in Hle; zdiv).
  rewrite PGROUNDUP_npages by lia. fold v0. pose proof (npages_mono oldsz newsz ltac:(lia)) as Hm. fold v0 in Hm.
  assert (0 <= v0) by (unfold v0, npages; zdiv).
  replace (Z.to_nat ((newsz - v0 * PGSIZE + PGSIZE - 1) / PGSIZE)) with (Z.to_nat (npages newsz - v0))
    by (f_equal; unfold npages, PGSIZE; zdiv).
  replace (v0 * PGSIZE) with ((v0 + 0) * PGSIZE) at 1 by lia.
  apply (wp_uvmalloc_loop lim v0 newsz xperm s l T us rest) with (l := l) (us := us);
    [unfold PGSIZE, MAXVA; lia|lia|lia|done|done|done|by apply grown_nil|lia|lia|done|done].
Qed.

(** ** [freewalk] *)

Lemma entry_flags c : Z.land (entry (Some c)) (Z.lor (Z.lor PTE_R PTE_W) PTE_X) = 0.
Proof.
  cbn [entry]. rewrite Z.land_lor_distr_l. change (Z.land PTE_V _) with 0. rewrite Z.lor_0_r.
  change (Z.lor (Z.lor PTE_R PTE_W) PTE_X) with (Z.land (Z.ones 4) 14).
  rewrite Z.land_assoc, Z.land_ones by lia. unfold PA2PTE. rewrite Z.shiftl_mul_pow2 by lia.
  replace ((Z.shiftr c 12 * 2 ^ 10) mod 2 ^ 4) with 0 by zdiv. done.
Qed.

Lemma wp_free_held s l pa held (Q : unit -> kst -> Prop) :
  pages_inv kend s l (pa :: held) ->
  (forall s', pages_inv kend s' (pa :: l) held -> same_on held (mem_of s) (mem_of s') -> Q tt s') ->
  wp (page_kfree kend pa) Q s.
Proof.
  intros Hi HQ. pose proof Hi as [Hk Hnd Hok].
  assert (pa ∉ l /\ pa ∉ held) as [F1 F2].
  { apply list.NoDup_app in Hnd as (_ & H1 & H2). apply list.NoDup_cons in H2 as [H2 _]. set_solver. }
  apply (wp_page_kfree kend s l); [done|apply Hok; left|done|]. intros s' Hk' _ Hm.
  apply HQ; [split; [done| |]|].
  - by rewrite <- Permutation_middle in Hnd.
  - intros x Hx. apply Hok. by right.
  - eapply (same_on_page kend s l (pa :: held) pa); [done|left| |done|exact Hm].
    intros x. rewrite elem_of_app, elem_of_cons. tauto.
Qed.

(** The pages below the entries [i, i + n) of a table, [f] giving the child
    of an entry and all the pages of its subtree. *)
Fixpoint owns (f : Z -> option (Z * list Z)) (n : nat) (i : Z) : list Z :=
  match n with
  | O => []
  | S n' => (match f i with Some (_, own) => own | None => [] end) ++ owns f n' (i + 1)
  end.

Lemma elem_of_owns f n i j c own x :
  i <= j < i + Z.of_nat n -> f j = Some (c, own) -> x ∈ own -> x ∈ owns f n i.
Proof.
  revert i. induction n as [|n IH]; intros i Hj Hf Hx; [lia|]. cbn [owns]. apply elem_of_app.
  destruct (decide (j = i)) as [->|Hne]; [left; by rewrite Hf|right]. apply IH; [lia|done|done].
Qed.

Lemma owns_elem f n i x :
  x ∈ owns f n i -> exists j c own, i <= j < i + Z.of_nat n /\ f j = Some (c, own) /\ x ∈ own.
Proof.
  revert i. induction n as [|n IH]; intros i Hx; [by apply elem_of_nil in Hx|]. cbn [owns] in Hx.
  apply elem_of_app in Hx as [Hx|Hx].
  - destruct (f i) as [[c own]|] eqn:Ef; [|by apply elem_of_nil in Hx].
    exists i, c, own. split_and!; [lia|lia|done|done].
  - destruct (IH _ Hx) as (j & c & own & ? & ? & ?). exists j, c, own. split_and!; [lia|lia|done|done].
Qed.

Lemma NoDup_owns f n i :
  (forall j c own, f j = Some (c, own) -> NoDup own) ->
  (forall j j' c c' own own' x, f j = Some (c, own) -> f j' = Some (c', own') -> x ∈ own -> x ∈ own' -> j = j') ->
  NoDup (owns f n i).
Proof.
  intros H1 H2. revert i. induction n as [|n IH]; intros i; cbn [owns]; [constructor|].
  apply list.NoDup_app. split_and!; [|intros x Hx Hx'|apply IH].
  - destruct (f i) as [[c own]|] eqn:Ef; [by eapply H1|constructor].
  - destruct (f i) as [[c own]|] eqn:Ef; [|by apply elem_of_nil in Hx].
    apply owns_elem in Hx' as (j & c' & own' & Hj & Hf & Hx'). assert (i = j) by (by eapply H2). lia.
Qed.

(** [child] frees the subtree [own]. *)
Definition frees (child : M kst unit) (own : list Z) (C : mem -> Prop) : Prop :=
  forall s l held (Q : unit -> kst -> Prop), pages_inv kend s l (own ++ held) -> C (mem_of s) ->
    (forall s' l', pages_inv kend s' l' held -> l' ≡ₚ own ++ l -> same_on held (mem_of s) (mem_of s') -> Q tt s') ->
    wp child Q s.

Definition entries_ok (f : Z -> option (Z * list Z)) (p i : Z) (m : mem) : Prop :=
  match f i with
  | Some (c, _) => ld64 m (p + 8 * i) = entry (Some c)
  | None => Z.land (ld64 m (p + 8 * i)) PTE_V = 0
  end.

(** Clearing an entry of a table the caller still holds. *)
Lemma clear_entry s l p i held :
  pages_inv kend s l (p :: held) -> 0 <= i < 512 ->
  let s' := set_mem (st64 (mem_of s) (p + 8 * i) 0) s in
  pages_inv kend s' l (p :: held) /\ same_on held (mem_of s) (mem_of s') /\
  (forall j, 0 <= j < 512 -> j <> i -> ld64 (mem_of s') (p + 8 * j) = ld64 (mem_of s) (p + 8 * j)).
Proof.
  intros Hi Hi512 s'. pose proof Hi as [_ Hnd _].
  assert (p ∉ l /\ p ∉ held) as [F1 F2].
  { apply list.NoDup_app in Hnd as (_ & H1 & H2). apply list.NoDup_cons in H2 as [H2 _]. set_solver. }
  assert (forall ps, ps ⊆ l ++ p :: held -> p ∉ ps -> same_on ps (mem_of s) (st64 (mem_of s) (p + 8 * i) 0)) as Hs.
  { intros ps Hps Hn. eapply (same_on_page kend s l (p :: held) p); [done|left|done|done|].
    apply modifies_st64. intros x Hx. unfold bytes_of, PGSIZE. lia. }
  unfold s'. rewrite mem_of_set_mem. split_and!.
  - apply pages_inv_set_mem; [done|]. apply Hs; [|done]. intros x. rewrite elem_of_app. tauto.
  - apply Hs; [|done]. intros x. rewrite elem_of_app, elem_of_cons. tauto.
  - intros j Hj Hne. apply ld64_st64_ne. lia.
Qed.

Lemma wp_freewalk_loop child f (C : Z -> mem -> Prop) p rest n i s l (Q : unit -> kst -> Prop) :
  pages_inv kend s l (p :: owns f n i ++ rest) -> 0 <= i -> i + Z.of_nat n <= 512 ->
  (forall j, i <= j < i + Z.of_nat n -> entries_ok f p j (mem_of s)) ->
  (forall j c own, f j = Some (c, own) -> c ∈ own /\ frees (child c) own (C j)) ->
  (forall j c own m m', f j = Some (c, own) -> same_on own m m' -> C j m -> C j m') ->
  (forall j c own, i <= j < i + Z.of_nat n -> f j = Some (c, own) -> C j (mem_of s)) ->
  (forall s' l', pages_inv kend s' l' (p :: rest) -> l' ≡ₚ owns f n i ++ l ->
     same_on rest (mem_of s) (mem_of s') -> Q tt s') ->
  wp (freewalk_loop child n p i) Q s.
Proof.
  revert i s l Q. induction n as [|n IH]; intros i s l Q Hi H0 Hn He Hfree Hst HC HQ; cbn [freewalk_loop].
  { apply wp_ret. by apply (HQ s l). }
  assert (0 < p /\ p + PGSIZE <= 2 ^ 32 /\ (PGSIZE | p)) as Hp by (eapply held_range; [exact Hi|left]).
  wp_step. apply wp_getf; [lia|]. rewrite Z.add_0_r. change (ld 8 ?m ?a) with (ld64 m a).
  pose proof (He i ltac:(lia)) as Hei. unfold entries_ok in Hei. cbn [owns] in Hi, HQ.
  destruct (f i) as [[c own]|] eqn:Ef.
  2:{ rewrite Hei. change (negb (0 =? 0)) with false. cbn [andb]. wp_step. wp_step.
      apply (IH (i + 1) s l); [done|lia|lia|intros j Hj; apply He; lia|done|done|intros j c o Hj; apply HC; lia|done]. }
  destruct (Hfree i c own Ef) as [Hc Hchild].
  assert (0 < c /\ c + PGSIZE <= 2 ^ 32 /\ (PGSIZE | c)) as Hcr.
  { eapply held_range; [exact Hi|]. right. rewrite !elem_of_app. auto. }
  destruct (entry_valid c Hcr) as (Hv & Hpa & _). rewrite Hei, Hv, Hpa, entry_flags. cbn [negb andb Z.eqb].
  rewrite <- app_assoc in Hi. wp_step. wp_step.
  eapply (Hchild s l (p :: owns f n (i + 1) ++ rest)).
  { eapply pages_inv_perm; [|exact Hi]. apply Permutation_middle. }
  { eapply HC; [|exact Ef]. lia. }
  intros s1 l1 Hi1 Hl1 Hs1. apply wp_setf; [lia|]. rewrite Z.add_0_r.
  destruct (clear_entry s1 l1 p i _ Hi1) as (D1 & D2 & D3); [lia|]. set (s2 := set_mem _ s1) in *.
  assert (same_on (owns f n (i + 1) ++ rest) (mem_of s) (mem_of s2)) as Hs2.
  { eapply same_on_trans; [|exact D2]. eapply same_on_subset; [exact Hs1|]. intros x. rewrite elem_of_cons. tauto. }
  apply (IH (i + 1) s2 l1); [exact D1|lia|lia| |done|done| |].
  - intros j Hj. pose proof (He j ltac:(lia)) as Hej. unfold entries_ok in *.
    rewrite D3 by lia. rewrite (ld64_same (p :: owns f n (i + 1) ++ rest) (mem_of s)); [done|exact Hs1|left|lia].
  - intros j c' own' Hj Ef'. eapply Hst; [exact Ef'| |eapply HC; [|exact Ef']; lia].
    eapply same_on_subset; [exact Hs2|]. intros x Hx. rewrite elem_of_app. left.
    by eapply elem_of_owns.
  - intros s3 l3 Hi3 Hl3 Hs3. apply (HQ s3 l3); [done| |].
    + rewrite Hl3, Hl1. rewrite !app_assoc. apply Permutation_app_tail. apply Permutation_app_comm.
    + eapply same_on_trans; [|exact Hs3]. eapply same_on_subset; [exact Hs2|]. intros x. rewrite elem_of_app. tauto.
Qed.

(** One page-table page: its entries are followed, then it is freed itself. *)
Lemma freewalk_node f' fn (C : Z -> mem -> Prop) p :
  (forall j c own, fn j = Some (c, own) -> c ∈ own /\ frees (freewalk kend f' c) own (C j)) ->
  (forall j c own m m', fn j = Some (c, own) -> same_on own m m' -> C j m -> C j m') ->
  frees (freewalk kend (S f') p) (p :: owns fn 512 0)
    (fun m => (forall j, 0 <= j < 512 -> entries_ok fn p j m) /\
              (forall j c own, 0 <= j < 512 -> fn j = Some (c, own) -> C j m)).
Proof.
  intros Hfree Hst s l held Q Hi [He HC] HQ. cbn [freewalk]. wp_step.
  apply (wp_freewalk_loop (freewalk kend f') fn C p held 512 0 s l);
    [exact Hi|lia|simpl; lia|intros j Hj; apply He; simpl in Hj; lia|done|done|
     intros j c own Hj; apply HC; simpl in Hj; lia|].
  intros s1 l1 Hi1 Hl1 Hs1. apply (wp_free_held s1 l1 p held); [done|].
  intros s2 Hi2 Hs2. apply (HQ s2 (p :: l1)); [done|by rewrite Hl1|by eapply same_on_trans].
Qed.

Lemma owns_none n i : owns (fun _ => None) n i = [].
Proof. revert i. induction n as [|n IH]; intros i; cbn [owns]; [done|]. by rewrite IH. Qed.

Lemma frees_mono c own (C C' : mem -> Prop) : frees c own C -> (forall m, C' m -> C m) -> frees c own C'.
Proof. intros H HC s l held Q Hi Hm. apply H; auto. Qed.

(** No entry of the lowest-level table [q] is valid. *)
Definition no_leaf (q : Z) (m : mem) : Prop := forall j, 0 <= j < 512 -> Z.land (ld64 m (q + 8 * j)) PTE_V = 0.

Lemma no_leaf_same q m m' : same_on [q] m m' -> no_leaf q m -> no_leaf q m'.
Proof. intros Hs H j Hj. rewrite (ld64_same [q] m); [by apply H|done|left|done]. Qed.

Lemma freewalk_low f' q : frees (freewalk kend (S f') q) [q] (no_leaf q).
Proof.
  pose proof (freewalk_node f' (fun _ => None) (fun _ _ => True) q) as H. rewrite owns_none in H.
  eapply frees_mono; [apply H; done|]. intros m Hm. split; [|done]. intros j Hj. by apply Hm.
Qed.

Definition low_kids (T : ptree) (i j : Z) : option (Z * list Z) :=
  match pt_low T !! (i * 512 + j) with Some q => Some (q, [q]) | None => None end.

(** The middle table of slot [i] and everything below it. *)
Definition mid_ok (T : ptree) (i p : Z) (m : mem) : Prop :=
  (forall j, 0 <= j < 512 -> entries_ok (low_kids T i) p j m) /\
  (forall j q, 0 <= j < 512 -> pt_low T !! (i * 512 + j) = Some q -> no_leaf q m).

Definition low_list (T : ptree) (i : Z) : list Z := owns (low_kids T i) 512 0.

Lemma freewalk_mid f' T i p : frees (freewalk kend (S (S f')) p) (p :: low_list T i) (mid_ok T i p).
Proof.
  eapply frees_mono; [apply (freewalk_node (S f') (low_kids T i)
    (fun j m => forall q, pt_low T !! (i * 512 + j) = Some q -> no_leaf q m) p)|].
  - intros j c own Hj. unfold low_kids in Hj. destruct (pt_low T !! (i * 512 + j)) as [q|] eqn:Eq; simplify_eq.
    split; [left|]. eapply frees_mono; [apply freewalk_low|]. auto.
  - intros j c own m m' Hj Hs HC q Hq. unfold low_kids in Hj. rewrite Hq in Hj. simplify_eq.
    eapply no_leaf_same; [exact Hs|]. by apply HC.
  - intros m [H1 H2]. split; [done|]. intros j c own Hj _ q Hq. by apply (H2 j).
Qed.

Definition mid_kids (T : ptree) (i : Z) : option (Z * list Z) :=
  match pt_mid T !! i with Some p => Some (p, p :: low_list T i) | None => None end.

Lemma freewalk_root f' T :
  frees (freewalk kend (S (S (S f'))) (pt_root T)) (pt_root T :: owns (mid_kids T) 512 0)
    (fun m => (forall i, 0 <= i < 512 -> entries_ok (mid_kids T) (pt_root T) i m) /\
              (forall i p, 0 <= i < 512 -> pt_mid T !! i = Some p -> mid_ok T i p m)).
Proof.
  eapply frees_mono; [apply (freewalk_node (S (S f')) (mid_kids T)
    (fun i m => forall p, pt_mid T !! i = Some p -> mid_ok T i p m) (pt_root T))|].
  - intros i c own Hi. unfold mid_kids in Hi. destruct (pt_mid T !! i) as [p|] eqn:Ep; simplify_eq.
    split; [left|]. eapply frees_mono; [apply freewalk_mid|]. auto.
  - intros i c own m m' Hi Hs HC p Hp. unfold mid_kids in Hi. rewrite Hp in Hi. simplify_eq.
    destruct (HC c Hp) as [H1 H2]. split.
    + intros j Hj. specialize (H1 j Hj). unfold entries_ok in *.
      rewrite (ld64_same (c :: low_list T i) m); [done|done|left|done].
    + intros j q Hj Hq. eapply no_leaf_same; [|by eapply H2].
      eapply same_on_subset; [exact Hs|]. intros x Hx. apply list_elem_of_singleton in Hx as ->. right.
      eapply (elem_of_owns _ 512 0 j q [q]); [simpl; lia| |left]. unfold low_kids. by rewrite Hq.
  - intros m [H1 H2]. split; [done|]. intros i c own Hi _ p Hp. by apply H2.
Qed.

Lemma elem_of_low_list T i x :
  x ∈ low_list T i <-> exists j, 0 <= j < 512 /\ pt_low T !! (i * 512 + j) = Some x.
Proof.
  unfold low_list. split.
  - intros Hx. apply owns_elem in Hx as (j & c & own & Hj & Hf & Hx). unfold low_kids in Hf.
    destruct (pt_low T !! (i * 512 + j)) as [q|] eqn:Eq; simplify_eq.
    apply list_elem_of_singleton in Hx as ->. exists j. split; [simpl in Hj; lia|done].
  - intros (j & Hj & Hq). eapply (elem_of_owns _ 512 0 j x [x]); [simpl; lia| |left].
    unfold low_kids. by rewrite Hq.
Qed.

(** [freewalk] visits every page of the table once. *)
Lemma tables_owns m T :
  pt_ok m T -> NoDup (tables T) -> tables T ≡ₚ pt_root T :: owns (mid_kids T) 512 0.
Proof.
  intros [_ _ Ho3 Ho4] Hnd.
  assert (forall x, x ∈ owns (mid_kids T) 512 0 <->
    (exists i, pt_mid T !! i = Some x) \/ exists k, pt_low T !! k = Some x) as Hel.
  { intros x. split.
    - intros Hx. apply owns_elem in Hx as (i & c & own & Hi & Hf & Hx). unfold mid_kids in Hf.
      destruct (pt_mid T !! i) as [p|] eqn:Ep; simplify_eq. apply elem_of_cons in Hx as [->|Hx]; [eauto|].
      apply elem_of_low_list in Hx as (j & _ & Hq). eauto.
    - intros [[i Hi]|[k Hk]].
      + eapply (elem_of_owns _ 512 0 i x (x :: low_list T i)); [|unfold mid_kids; by rewrite Hi|left].
        apply Ho3 in Hi. simpl. lia.
      + destruct (Ho4 k x Hk) as [p Hp]. pose proof (Ho3 _ _ Hp) as Hr.
        eapply (elem_of_owns _ 512 0 (k / 512) p (p :: low_list T (k / 512)));
          [simpl; lia|unfold mid_kids; by rewrite Hp|right].
        apply elem_of_low_list. exists (k mod 512). split; [zdiv|].
        by replace (k / 512 * 512 + k mod 512) with k by zdiv. }
  apply NoDup_Permutation; [done| |].
  - apply list.NoDup_cons. split.
    + rewrite Hel. intros [[i Hi]|[k Hk]]; [by eapply root_not_mid|by eapply root_not_low].
    + apply NoDup_owns.
      * intros i c own Hi. unfold mid_kids in Hi. destruct (pt_mid T !! i) as [p|] eqn:Ep; simplify_eq.
        apply list.NoDup_cons. split.
        -- rewrite elem_of_low_list. intros (j & _ & Hq). by eapply mid_not_low.
        -- apply NoDup_owns; intros *; unfold low_kids; repeat case_match; intros; simplify_eq.
           ++ apply NoDup_singleton.
           ++ repeat match goal with H : _ ∈ [_] |- _ => apply list_elem_of_singleton in H end. subst.
              match goal with H1 : pt_low T !! _ = Some ?q, H2 : pt_low T !! _ = Some ?q |- _ =>
                pose proof (low_inj _ _ _ _ Hnd H1 H2) end. lia.
      * intros i i' c c' own own' x Hi Hi' Hx Hx'. unfold mid_kids in *.
        destruct (pt_mid T !! i) as [p|] eqn:Ep; simplify_eq.
        destruct (pt_mid T !! i') as [p'|] eqn:Ep'; simplify_eq.
        apply elem_of_cons in Hx as [->|Hx], Hx' as [->|Hx'].
        -- by eapply mid_inj.
        -- apply elem_of_low_list in Hx' as (j & _ & Hq). exfalso. by eapply (mid_not_low T i).
        -- apply elem_of_low_list in Hx as (j & _ & Hq). exfalso. by eapply (mid_not_low T i').
        -- apply elem_of_low_list in Hx as (j & Hj & Hq), Hx' as (j' & Hj' & Hq').
           pose proof (low_inj _ _ _ _ Hnd Hq Hq'). lia.
  - intros x. by rewrite elem_of_tables, elem_of_cons, Hel.
Qed.

(** [freewalk] on a table without leaf mappings gives back its pages. *)
Lemma wp_freewalk s l T rest (Q : unit -> kst -> Prop) :
  space s l T rest -> (forall v, valid_pte (leaf (mem_of s) T v) = false) ->
  (forall s' l', pages_inv kend s' l' rest -> l' ≡ₚ tables T ++ l -> same_on rest (mem_of s) (mem_of s') -> Q tt s') ->
  wp (freewalk kend 3 (pt_root T)) Q s.
Proof.
  intros Hsp Hno HQ. pose proof Hsp as [Hpages Hpt]. pose proof (space_nodup _ _ _ _ _ Hsp) as Hnd.
  pose proof (tables_owns _ _ Hpt Hnd) as Hperm. pose proof Hpt as [Ho1 Ho2 Ho3 Ho4].
  apply (freewalk_root 0 T s l rest).
  - eapply pages_inv_perm; [|exact Hpages]. by rewrite Hperm.
  - split.
    + intros i Hi. unfold entries_ok, mid_kids. specialize (Ho1 i Hi).
      destruct (pt_mid T !! i) as [p|] eqn:Ep; [done|by rewrite Ho1].
    + intros i p Hi Hp. split.
      * intros j Hj. unfold entries_ok, low_kids. specialize (Ho2 i p j Hp Hj).
        destruct (pt_low T !! (i * 512 + j)); [done|by rewrite Ho2].
      * intros j q Hj Hq j' Hj'. specialize (Hno ((i * 512 + j) * 512 + j')).
        unfold valid_pte, leaf in Hno. replace (((i * 512 + j) * 512 + j') / 512) with (i * 512 + j) in Hno by zdiv.
        rewrite Hq in Hno. replace (((i * 512 + j) * 512 + j') mod 512) with j' in Hno by zdiv.
        apply negb_false_iff, Z.eqb_eq in Hno. done.
  - intros s' l' Hi' Hl' Hs'. apply (HQ s' l'); [done| |done]. by rewrite Hperm, Hl'.
Qed.

End User.
