(* ===== verification/VmThms.v ===== *)
(** * Theorems on page tables and user memory *)

From Stdlib Require Import ZArith Lia Bool String.
From stdpp Require Import base gmap list strings fin_maps.
From S2P Require Import Prelude Mem MemList Spinlock Kalloc Vm VmProof VmUser.

#[local] Opaque tables.

(** ** Mapping and translating *)

(** What [walkaddr] makes of an entry. *)
Definition user_pa (e : Z) : Z :=
  if Z.land e PTE_V =? 0 then 0 else if Z.land e PTE_U =? 0 then 0 else PTE2PA e.

Lemma walkaddr_run kend s l T rest va :
  space kend s l T rest -> 0 <= va < MAXVA ->
  walkaddr (pt_root T) va s = Ret (user_pa (leaf (mem_of s) T (va / 4096)), s).
Proof.
  intros Hsp Hva.
  assert (wp (walkaddr (pt_root T) va)
    (fun r s' => (r, s') = (user_pa (leaf (mem_of s) T (va / 4096)), s)) s) as H.
  { eapply wp_walkaddr; [exact Hsp|lia|]. replace (va >=? MAXVA) with false by (rewrite Z.geb_leb; lia). done. }
  apply wp_run in H as (a & s' & -> & H). by simplify_eq.
Qed.

Lemma land_pte_of_U pa perm :
  (PGSIZE | pa) -> 0 <= pa < 2 ^ 56 -> Z.land (pte_of pa perm) PTE_U = Z.land perm PTE_U.
Proof.
  intros [k ->] Hpa. unfold pte_of, PA2PTE, PGSIZE in *. rewrite !Z.land_lor_distr_l.
  change (Z.land PTE_V PTE_U) with 0. rewrite Z.lor_0_r.
  replace (Z.land (Z.shiftl (Z.shiftr (k * 4096) 12) 10) PTE_U) with 0; [done|].
  change PTE_U with (Z.land (Z.ones 5) 16). rewrite Z.land_assoc, Z.land_ones, Z.shiftl_mul_pow2 by lia.
  by replace ((Z.shiftr (k * 4096) 12 * 2 ^ 10) mod 2 ^ 5) with 0 by zdiv.
Qed.

(** C24: mapping then translating.  [mappages] of [n] unmapped pages at
    virtual page [v0] either maps all of them or runs out of memory: it
    returns 0 and then [walkaddr] takes every address of the range to the
    physical page it was mapped to when the mapping is user-accessible (and
    to 0 otherwise), or it returns -1 with no free page left; in both cases
    every address outside the range translates as before, no page is lost
    and the pages of others keep their bytes. *)
Theorem mappages_walkaddr kend s l T rest v0 n pa perm :
  space kend s l T rest -> 0 <= v0 -> 0 < n -> (v0 + n) * PGSIZE <= MAXVA ->
  (PGSIZE | pa) -> 0 <= pa -> pa + n * PGSIZE <= 2 ^ 56 -> 0 <= perm < 1024 ->
  (forall v, v0 <= v < v0 + n -> Z.land (leaf (mem_of s) T v) PTE_V = 0) ->
  wp (mappages (pt_root T) (v0 * PGSIZE) (n * PGSIZE) pa perm) (fun r s' =>
    exists l' T', space kend s' l' T' rest /\ pt_root T' = pt_root T /\
      l' ++ tables T' ≡ₚ l ++ tables T /\ same_on rest (mem_of s) (mem_of s') /\
      (r = 0 /\ (forall va, v0 * PGSIZE <= va < (v0 + n) * PGSIZE ->
         walkaddr (pt_root T) va s' =
         Ret (if Z.land perm PTE_U =? 0 then 0 else pa + (va / PGSIZE - v0) * PGSIZE, s')) \/
       r = -1 /\ l' = []) /\
      (forall va, 0 <= va < MAXVA -> ~ (v0 * PGSIZE <= va < (v0 + n) * PGSIZE) ->
         exists x, walkaddr (pt_root T) va s = Ret (x, s) /\ walkaddr (pt_root T) va s' = Ret (x, s'))) s.
Proof.
  intros Hsp Hv0 Hn Hmax Hd Hpa Hpm Hperm Hinv. unfold PGSIZE, MAXVA in Hmax, Hpm.
  assert (forall s' l' T' k, mapped kend s l T rest s' l' T' v0 k pa perm -> k <= n ->
    forall va, 0 <= va < MAXVA -> ~ (v0 * PGSIZE <= va < (v0 + n) * PGSIZE) ->
    exists x, walkaddr (pt_root T) va s = Ret (x, s) /\ walkaddr (pt_root T) va s' = Ret (x, s')) as Hout.
  { intros s' l' T' k (M1 & M2 & _ & _ & M5) Hk va Hva Hno. exists (user_pa (leaf (mem_of s) T (va / 4096))).
    split; [by eapply walkaddr_run|]. rewrite <- M2, (walkaddr_run _ _ _ _ _ _ M1 Hva), M5, decide_False; [done|].
    unfold PGSIZE in Hno. zdiv. }
  eapply (wp_mappages kend n v0 pa perm s l T rest); [done|done|lia|unfold PGSIZE, MAXVA; lia|done|lia|
    unfold PGSIZE; lia|done|done| |].
  - intros s' T' k Hk HM. pose proof HM as (M1 & M2 & M3 & M4 & M5). exists [], T'.
    split_and!; [done..|by right|]. eapply Hout; [exact HM|lia].
  - intros s' l' T' HM. pose proof HM as (M1 & M2 & M3 & M4 & M5). exists l', T'.
    split_and!; [done..| |eapply Hout; [exact HM|lia]]. left. split; [done|]. intros va Hva. unfold PGSIZE in Hva.
    rewrite <- M2, (walkaddr_run _ _ _ _ _ _ M1) by (unfold MAXVA; lia). rewrite M5, decide_True by zdiv.
    unfold user_pa, PGSIZE. set (k := va / 4096 - v0).
    assert (0 <= k < n) as Hk by (unfold k; zdiv).
    assert (4096 | pa + k * 4096) as Hd'.
    { apply Z.divide_add_r; [exact Hd|apply Z.divide_factor_r]. }
    destruct (pte_of_ok (pa + k * 4096) perm) as (P1 & _ & P3); [exact Hd'|lia|done|].
    apply Z.eqb_neq in P3. rewrite P3, P1, land_pte_of_U by (exact Hd' || lia). done.
Qed.

(** ** Growing and freeing a process *)

(** C25: growing a process is all or nothing.  [uvmalloc] from [oldsz] to
    [newsz] over unmapped pages returns [newsz] with every page of the range
    mapped to a page of its own that reads zero, or returns 0 with exactly the
    pages mapped that were mapped before, and then memory is short: no more
    pages are free than the range needs, so none would be left for a page
    table.  In both cases no page is lost, every other mapping and the bytes
    behind it are unchanged. *)
Theorem uvmalloc_all_or_nothing kend lim s l T us rest oldsz newsz xperm :
  let perm := Z.lor (Z.lor PTE_R PTE_U) xperm in
  let v0 := npages oldsz in
  uspace kend lim s l T us rest -> 0 <= oldsz <= newsz -> npages newsz <= lim -> lim * PGSIZE <= MAXVA ->
  0 <= perm < 1024 -> (forall v, v0 <= v < npages newsz -> us !! v = None) ->
  wp (uvmalloc kend (pt_root T) oldsz newsz xperm) (fun r s' => exists l' T' us',
    uspace kend lim s' l' T' us' rest /\ pt_root T' = pt_root T /\
    l' ++ tables T' ++ upages us' ≡ₚ l ++ tables T ++ upages us /\
    same_on rest (mem_of s) (mem_of s') /\ keeps_others s T us s' T' us' v0 (npages newsz - v0) /\
    ((r = newsz /\ forall v, v0 <= v < npages newsz -> exists pa, us' !! v = Some pa /\
        leaf (mem_of s') T' v = pte_of pa perm /\ zero_page (mem_of s') pa) \/
     (r = 0 /\ us' = us /\ Z.of_nat (length l') <= npages newsz - v0))) s.
Proof.
  intros perm v0 Hu Hsz Hle Hlim Hperm Hfree.
  apply (wp_uvmalloc kend lim s l T us rest); [done|done|done|done|done|done| |].
  - intros s' (l' & T' & R1 & (R2 & R3 & R4) & R5 & R6). exists l', T', us. split_and!; try done. by right.
  - intros s' l' T' us' (G1 & (G2 & G3 & G4) & G5 & G6). exists l', T', us'. split_and!; try done.
    left. split; [done|]. intros v Hv. apply G6. lia.
Qed.

Lemma leaf_neg m T v : pt_ok m T -> v < 0 -> leaf m T v = 0.
Proof.
  intros [_ _ Ho3 Ho4] Hv. unfold leaf. destruct (pt_low T !! (v / 512)) as [q|] eqn:Eq; [|done].
  apply Ho4 in Eq as [p Hp]. apply Ho3 in Hp. zdiv.
Qed.

Lemma upages_empty : upages ∅ = [].
Proof. unfold upages. by rewrite map_to_list_empty. Qed.

Lemma uvmfree_pages kend lim s l T us rest sz :
  uspace kend lim s l T us rest -> 0 <= sz -> npages sz <= lim -> lim * PGSIZE <= MAXVA ->
  (forall v pa, us !! v = Some pa -> v < npages sz) ->
  (forall v, lim <= v -> valid_pte (leaf (mem_of s) T v) = false) ->
  wp (uvmfree kend 3 (pt_root T) sz) (fun _ s' => exists l', pages_inv kend s' l' rest /\
    l' ≡ₚ l ++ tables T ++ upages us /\ same_on rest (mem_of s) (mem_of s')) s.
Proof.
  intros Hu Hsz Hle Hlim Hin Htop. unfold PGSIZE, MAXVA in Hlim.
  assert (wp (if sz >? 0 then uvmunmap kend (pt_root T) 0 (PGROUNDUP sz / PGSIZE) true else mret tt)
    (fun _ s' => unmapped kend lim s l T us rest s' 0 (npages sz)) s) as H1.
  { assert (0 <= npages sz) by (unfold npages; zdiv). destruct (sz >? 0) eqn:E.
    - assert (sz <= 2 ^ 63) by (unfold npages in Hle; zdiv).
      rewrite PGROUNDUP_npages, Z.div_mul by (unfold PGSIZE; lia).
      change 0 with (0 * PGSIZE) at 1. apply (wp_uvmunmap kend lim (npages sz) 0 s l T us rest); try done;
        unfold PGSIZE, MAXVA; lia.
    - assert (sz = 0) as -> by (rewrite Z.gtb_ltb in E; lia). apply wp_ret. change (npages 0) with 0.
      exists l, us. split_and!; [done|lia|apply conserves_refl|apply keeps_others_refl]. }
  unfold uvmfree. wp_step. eapply wp_mono; [exact H1|].
  intros _ s1 (l1 & us1 & Hu1 & HN & (_ & Hc & Hs) & Hk).
  assert (us1 = ∅) as ->.
  { apply map_eq. intros v. rewrite lookup_empty. destruct (decide (0 <= v < npages sz)) as [|Hout]; [by apply HN|].
    destruct (Hk v Hout) as (-> & _). destruct (us !! v) as [pa|] eqn:E; [|done].
    pose proof (Hin v pa E). pose proof (us_map _ _ _ _ _ _ _ Hu v pa E) as (? & _). lia. }
  pose proof (us_space _ _ _ _ _ _ _ Hu1) as Hsp1. rewrite upages_empty in Hsp1.
  apply (wp_freewalk kend s1 l1 T rest); [exact Hsp1| |].
  - intros v. destruct (decide (0 <= v < lim)) as [|Hout]; [by eapply us_only; [exact Hu1|..]|].
    destruct (decide (v < 0)); [rewrite leaf_neg by (apply Hsp1 || done); done|].
    destruct (Hk v) as (_ & -> & _); [lia|]. apply Htop. lia.
  - intros s2 l2 Hi2 Hl2 Hs2. exists l2. split_and!; [done| |by eapply same_on_trans].
    rewrite upages_empty, app_nil_r in Hc. rewrite Hl2, <- Hc. apply Permutation_app_comm.
Qed.

(** C15: freeing a process leaks nothing.  When all the mapped pages of a page
    table are user pages below [sz], [uvmfree] returns every one of them and
    every page-table page to the free list, each exactly once, never panics,
    and leaves the pages of others as they were. *)
Theorem uvmfree_returns_every_page kend lim s l T us rest sz :
  uspace kend lim s l T us rest -> 0 <= sz -> npages sz <= lim -> lim * PGSIZE <= MAXVA ->
  (forall v pa, us !! v = Some pa -> v < npages sz) ->
  (forall v, lim <= v -> valid_pte (leaf (mem_of s) T v) = false) ->
  wp (uvmfree kend 3 (pt_root T) sz) (fun _ s' => exists l', pages_inv kend s' l' rest /\
    l' ≡ₚ l ++ tables T ++ upages us /\ same_on rest (mem_of s) (mem_of s')) s.
Proof. apply uvmfree_pages. Qed.

(** ** Concrete instances *)

#[local] Transparent tables.

(** An empty page table at KERNBASE next to two free pages. *)
Abbreviation demo_T := (PTree 2147483648 ∅ ∅).
Abbreviation demo_free := [2147487744; 2147491840].

Lemma demo_space : space KERNBASE two_free_pages demo_free demo_T [].
Proof.
  assert (tables demo_T = [2147483648]) as Ht by reflexivity.
  split.
  - rewrite Ht. exact two_free_pages_inv.
  - split; cbn [pt_root pt_mid pt_low].
    + intros i Hi. rewrite lookup_empty.
      change (mem_of two_free_pages) with (st64 (st64 ∅ 2147491840 0) 2147487744 2147491840 : mem).
      rewrite !ld64_st64_ne by lia. apply (ld_zero 8). intros x _. done.
    + intros i p j Hp. by rewrite lookup_empty in Hp.
    + intros i p Hp. by rewrite lookup_empty in Hp.
    + intros k q Hk. by rewrite lookup_empty in Hk.
Qed.

#[local] Opaque tables.

Lemma demo_leaf v : leaf (mem_of two_free_pages) demo_T v = 0.
Proof. unfold leaf. cbn [pt_low]. by rewrite lookup_empty. Qed.

Lemma demo_uspace : uspace KERNBASE 1024 two_free_pages demo_free demo_T ∅ [].
Proof.
  split.
  - rewrite upages_empty. exact demo_space.
  - intros v pa Hv. by rewrite lookup_empty in Hv.
  - intros v _ _. by rewrite demo_leaf.
Qed.

(** One user-readable page at virtual page 1. *)
Lemma mappages_walkaddr_witness :
  wp (mappages 2147483648 (1 * PGSIZE) (1 * PGSIZE) 2147504128 18) (fun r s' =>
    exists l' T', space KERNBASE s' l' T' [] /\ pt_root T' = pt_root demo_T /\
      l' ++ tables T' ≡ₚ demo_free ++ tables demo_T /\ same_on [] (mem_of two_free_pages) (mem_of s') /\
      (r = 0 /\ (forall va, 1 * PGSIZE <= va < (1 + 1) * PGSIZE ->
         walkaddr 2147483648 va s' =
         Ret (if Z.land 18 PTE_U =? 0 then 0 else 2147504128 + (va / PGSIZE - 1) * PGSIZE, s')) \/
       r = -1 /\ l' = []) /\
      (forall va, 0 <= va < MAXVA -> ~ (1 * PGSIZE <= va < (1 + 1) * PGSIZE) ->
         exists x, walkaddr 2147483648 va two_free_pages = Ret (x, two_free_pages) /\
           walkaddr 2147483648 va s' = Ret (x, s'))) two_free_pages.
Proof.
  refine (mappages_walkaddr KERNBASE two_free_pages demo_free demo_T [] 1 1 2147504128 18 demo_space _ _ _ _ _ _ _ _);
    [lia|lia|unfold PGSIZE, MAXVA; lia|exists 524293; reflexivity|lia|unfold PGSIZE; lia|lia|].
  intros v _. by rewrite demo_leaf.
Defined.

(** The same page table next to four free pages: a first page needs two page
    tables as well. *)
Abbreviation four_free := [2147487744; 2147491840; 2147495936; 2147500032].
Abbreviation four_free_pages :=
  (mkKst (mkMach (mkHart 1 0 false true)
     (st64 (st64 (st64 (st64 ∅ 2147500032 0) 2147495936 2147500032) 2147491840 2147495936) 2147487744 2147491840))
     (mkLock EmptyString 0 0) 2147487744).

Lemma four_free_uspace : uspace KERNBASE 1024 four_free_pages four_free demo_T ∅ [].
Proof.
  assert (forall i, 0 <= i < 32768 -> page_ok KERNBASE (KERNBASE + i * 4096)) as Hp.
  { intros i Hi. unfold page_ok, PHYSTOP, KERNBASE, PGSIZE. split; [exists (524288 + i)|]; lia. }
  assert (forall v, leaf (mem_of four_free_pages) demo_T v = 0) as Hl by (intros v; unfold leaf; cbn [pt_low]; by rewrite lookup_empty).
  assert (tables demo_T = [2147483648]) as Ht by reflexivity.
  split; [rewrite upages_empty; split| |intros v _ _; by rewrite Hl].
  - rewrite Ht. split; [split; [reflexivity| |apply (bool_decide_eq_true _); reflexivity| |reflexivity|repeat split; done]|apply (bool_decide_eq_true _); reflexivity|].
    + repeat (apply sll_push; [|lia|intros y Hy; repeat (apply elem_of_cons in Hy as [->|Hy]; [lia|]); by apply elem_of_nil in Hy]). done.
    + intros pa Ha. repeat (apply elem_of_cons in Ha as [->|Ha]; [first [apply (Hp 1); lia|apply (Hp 2); lia|apply (Hp 3); lia|apply (Hp 4); lia]|]).
      by apply elem_of_nil in Ha.
    + intros pa Ha. apply list_elem_of_singleton in Ha as ->. apply (Hp 0). lia.
  - split; cbn [pt_root pt_mid pt_low].
    + intros i Hi. rewrite lookup_empty. change (mem_of four_free_pages) with
        (st64 (st64 (st64 (st64 ∅ 2147500032 0) 2147495936 2147500032) 2147491840 2147495936) 2147487744 2147491840 : mem).
      rewrite !ld64_st64_ne by lia. apply (ld_zero 8). intros x _. done.
    + intros i p j Hpp. by rewrite lookup_empty in Hpp.
    + intros i p Hpp. by rewrite lookup_empty in Hpp.
    + intros k q Hk. by rewrite lookup_empty in Hk.
  - intros v pa Hv. by rewrite lookup_empty in Hv.
Qed.

(** One page with four free: it is mapped.  With two free: the call fails. *)
Lemma uvmalloc_all_or_nothing_witness :
  (match uvmalloc KERNBASE 2147483648 0 4096 PTE_W four_free_pages with Ret (r, _) => r = 4096 | _ => False end) /\
  (match uvmalloc KERNBASE 2147483648 0 4096 PTE_W two_free_pages with Ret (r, _) => r = 0 | _ => False end) /\
  wp (uvmalloc KERNBASE 2147483648 0 4096 PTE_W) (fun r s' => exists l' T' us',
    uspace KERNBASE 1024 s' l' T' us' [] /\ pt_root T' = pt_root demo_T /\
    l' ++ tables T' ++ upages us' ≡ₚ four_free ++ tables demo_T ++ upages ∅ /\
    same_on [] (mem_of four_free_pages) (mem_of s') /\
    keeps_others four_free_pages demo_T ∅ s' T' us' (npages 0) (npages 4096 - npages 0) /\
    ((r = 4096 /\ forall v, npages 0 <= v < npages 4096 -> exists pa, us' !! v = Some pa /\
        leaf (mem_of s') T' v = pte_of pa (Z.lor (Z.lor PTE_R PTE_U) PTE_W) /\ zero_page (mem_of s') pa) \/
     (r = 0 /\ us' = ∅ /\ Z.of_nat (length l') <= npages 4096 - npages 0))) four_free_pages.
Proof.
  split; [vm_compute; reflexivity|]. split; [vm_compute; reflexivity|].
  refine (uvmalloc_all_or_nothing KERNBASE 1024 four_free_pages four_free demo_T ∅ [] 0 4096 PTE_W four_free_uspace _ _ _ _ _);
    [lia|vm_compute; discriminate|unfold PGSIZE, MAXVA; lia|split; [discriminate|reflexivity]|].
  intros v _. apply lookup_empty.
Defined.

Lemma uvmfree_returns_every_page_witness :
  wp (uvmfree KERNBASE 3 2147483648 4096) (fun _ s' => exists l', pages_inv KERNBASE s' l' [] /\
    l' ≡ₚ demo_free ++ tables demo_T ++ upages ∅ /\ same_on [] (mem_of two_free_pages) (mem_of s')) two_free_pages.
Proof.
  refine (uvmfree_returns_every_page KERNBASE 1024 two_free_pages demo_free demo_T ∅ [] 4096 demo_uspace _ _ _ _ _);
    [lia|vm_compute; discriminate|unfold PGSIZE, MAXVA; lia| |].
  - intros v pa Hv. by rewrite lookup_empty in Hv.
  - intros v _. by rewrite demo_leaf.
Defined.
