(* ===== verification/VmCopy.v ===== *)
(** * Copying between kernel and user memory

    [copyout] and [copyin] on mapped user memory: the bytes of the virtual
    range are the bytes of the kernel buffer, page by page, and nothing else
    changes. *)

From Stdlib Require Import ZArith Lia Bool String.
From stdpp Require Import base gmap list strings fin_maps.
From S2P Require Import Prelude Mem MemList Spinlock Kalloc Vm VmProof VmUser VmThms.

#[local] Opaque tables memmove.

Lemma PGROUNDDOWN_div a : 0 <= a < 2 ^ 63 -> PGROUNDDOWN a = a / 4096 * PGSIZE.
Proof.
  intros H. unfold PGROUNDDOWN, PGSIZE. rewrite land_u64 by lia.
  replace (4096 - 1) with (Z.ones 12) by reflexivity. rewrite <- Z.ldiff_land.
  by rewrite Z.ldiff_ones_r, Z.shiftr_div_pow2, Z.shiftl_mul_pow2 by lia.
Qed.

Section Copy.
Context (kend lim p_sz p_pagetable : Z) (kfree : Z -> M kst unit).
Context (Hlim : lim * PGSIZE <= MAXVA).

Abbreviation uspace := (uspace kend lim).
Abbreviation copyout := (copyout p_sz p_pagetable kfree).
Abbreviation copyin := (copyin p_sz p_pagetable kfree).

(** Where user address [va] lives. *)
Definition uaddr (us : gmap Z Z) (va : Z) : option Z :=
  pa ← us !! (va / 4096); Some (pa + va mod 4096).

(** The pages of the range are mapped for the user with the bits [need]. *)
Definition accessible (s : kst) (T : ptree) (us : gmap Z Z) (va len need : Z) : Prop :=
  forall v, va / 4096 <= v <= (va + len - 1) / 4096 ->
    is_Some (us !! v) /\ Z.land (leaf (mem_of s) T v) PTE_U <> 0 /\
    (need = 0 \/ Z.land (leaf (mem_of s) T v) need <> 0).

(** A kernel buffer does not lie in the user's pages, the tables or the
    free pages. *)
Definition kernel_buf (l : list Z) (T : ptree) (us : gmap Z Z) (a n : Z) : Prop :=
  forall p x, p ∈ l ++ tables T ++ upages us -> a <= x < a + n -> ~ bytes_of p PGSIZE x.

Lemma uspace_page_range s l T us rest pa :
  uspace s l T us rest -> pa ∈ upages us -> 0 < pa /\ pa + PGSIZE <= 2 ^ 32 /\ (PGSIZE | pa).
Proof. intros [H _ _] Hpa. eapply held_range; [apply H|]. rewrite !elem_of_app. auto. Qed.

(** User pages are distinct. *)
Lemma upages_inj s l T us rest v v' pa :
  uspace s l T us rest -> us !! v = Some pa -> us !! v' = Some pa -> v = v'.
Proof.
  intros [[[_ Hnd _] _] _ _] H1 H2. apply list.NoDup_app in Hnd as (_ & _ & Hnd).
  apply list.NoDup_app in Hnd as (_ & _ & Hnd). apply list.NoDup_app in Hnd as (Hnd & _ & _). unfold upages in Hnd.
  apply elem_of_map_to_list in H1, H2. apply list_elem_of_lookup in H1 as [i H1], H2 as [j H2].
  assert (i = j) as ->.
  { eapply NoDup_lookup; [exact Hnd|..]; rewrite list_lookup_fmap; [by rewrite H1|by rewrite H2]. }
  congruence.
Qed.

Lemma uaddr_inj s l T us rest va va' a :
  uspace s l T us rest -> uaddr us va = Some a -> uaddr us va' = Some a -> va = va'.
Proof.
  intros Hu H1 H2. unfold uaddr in *.
  destruct (us !! (va / 4096)) as [pa|] eqn:E1; simplify_eq/=.
  destruct (us !! (va' / 4096)) as [pb|] eqn:E2; simplify_eq/=.
  destruct (decide (pa = pb)) as [->|Hne].
  - pose proof (upages_inj _ _ _ _ _ _ _ _ Hu E1 E2). zdiv.
  - destruct (pages_disjoint kend s l (tables T ++ upages us ++ rest) pa pb) as [|];
      [apply Hu|rewrite !elem_of_app; eauto using elem_upages..|done|zdiv|zdiv].
Qed.

(** [translate] of a mapped page is its physical page. *)
Lemma wp_translate s l T us rest v pa (Q : Z -> kst -> Prop) :
  uspace s l T us rest -> us !! v = Some pa -> Z.land (leaf (mem_of s) T v) PTE_U <> 0 ->
  Q pa s -> wp (translate p_sz p_pagetable kfree (pt_root T) (v * PGSIZE)) Q s.
Proof.
  intros Hu Hv HU HQ. destruct (us_map _ _ _ _ _ _ _ Hu v pa Hv) as (Hr & Hvalid & Hpa).
  unfold translate. wp_step. unfold PGSIZE, MAXVA in Hlim.
  eapply wp_walkaddr; [apply Hu|unfold PGSIZE; lia|].
  replace (v * PGSIZE >=? MAXVA) with false by (rewrite Z.geb_leb; unfold PGSIZE, MAXVA; lia).
  unfold PGSIZE. rewrite Z.div_mul by lia. unfold valid_pte in Hvalid. apply negb_true_iff in Hvalid.
  apply Z.eqb_neq in HU. cbv zeta. rewrite Hvalid, HU, Hpa.
  destruct (uspace_page_range _ _ _ _ _ pa Hu) as (H0 & _); [by eapply elem_upages|].
  replace (pa =? 0) with false by lia. by apply wp_ret.
Qed.

(** ** [copyout] *)

(** The user bytes after [len] bytes of the buffer [src] went to [va]. *)
Definition wrote (s : kst) (us : gmap Z Z) (s' : kst) (va src len : Z) : Prop :=
  forall x a, uaddr us x = Some a ->
    rdb (mem_of s') a = if decide (va <= x < va + len) then rdb (mem_of s) (src + (x - va)) else rdb (mem_of s) a.

(** Copying [n] bytes into one user page. *)
Lemma write_page s l T us rest va src n pa :
  uspace s l T us rest -> us !! (va / 4096) = Some pa -> 0 <= n -> va mod 4096 + n <= 4096 ->
  kernel_buf l T us src n ->
  let s' := set_mem (memmove (mem_of s) (pa + va mod 4096) src n) s in
  uspace s' l T us rest /\ (forall v, leaf (mem_of s') T v = leaf (mem_of s) T v) /\
  wrote s us s' va src n /\ (forall x, ~ bytes_of pa PGSIZE x -> rdb (mem_of s') x = rdb (mem_of s) x).
Proof.
  intros Hu Hpa Hn Hfit Hbuf s'. pose proof (elem_upages _ _ _ Hpa) as Hin.
  set (m' := memmove (mem_of s) (pa + va mod 4096) src n).
  assert (modifies (bytes_of pa PGSIZE) (mem_of s) m') as Hm.
  { intros x Hx. unfold m'. rewrite rdb_memmove by lia. unfold bytes_of, PGSIZE in Hx.
    rewrite decide_False; [done|]. zdiv. }
  assert (pages_inv kend s l (tables T ++ upages us ++ rest)) as Hpages by apply Hu.
  assert (pa ∉ l ++ tables T) as Hnot.
  { destruct Hpages as [_ Hnd _]. apply list.NoDup_app in Hnd as (_ & H1 & H2). apply list.NoDup_app in H2 as (_ & H2 & _).
    rewrite elem_of_app. intros [H|H]; [apply (H1 pa H)|apply (H2 pa H)]; rewrite ?elem_of_app; auto. }
  destruct (space_set_mem kend s l T (upages us ++ rest) m') as [S1 S2]; [apply Hu| |].
  { eapply (same_on_page kend s l _ pa); [exact Hpages|rewrite !elem_of_app; auto| |exact Hnot|exact Hm].
    intros x. rewrite !elem_of_app. tauto. }
  unfold s'. rewrite mem_of_set_mem. split_and!.
  - eapply uspace_leaf; [exact Hu|exact S1|]. intros v. rewrite mem_of_set_mem. apply S2.
  - exact S2.
  - intros x a Ha. unfold wrote, m'. rewrite mem_of_set_mem, rdb_memmove by lia.
    case_decide as E1; case_decide as E2; [f_equal| | |done].
    + unfold uaddr in Ha. destruct (us !! (x / 4096)) as [pb|] eqn:Eb; simplify_eq/=.
      assert (x / 4096 = va / 4096) as Hx by zdiv. assert (pb = pa) as -> by congruence. zdiv.
    + exfalso. assert (uaddr us (va + (a - (pa + va mod 4096))) = Some a) as Ha'.
      { unfold uaddr. replace ((va + (a - (pa + va mod 4096))) / 4096) with (va / 4096) by zdiv.
        rewrite Hpa. simpl. f_equal. zdiv. }
      pose proof (uaddr_inj _ _ _ _ _ _ _ _ Hu Ha Ha'). lia.
    + exfalso. unfold uaddr in Ha. destruct (us !! (x / 4096)) as [pb|] eqn:Eb; simplify_eq/=.
      assert (x / 4096 = va / 4096) as Hx by zdiv. assert (pb = pa) as -> by congruence. zdiv.
  - exact Hm.
Qed.

Lemma wrote_step s us s1 s2 va src n len T l :
  wrote s us s1 va src n -> wrote s1 us s2 (va + n) (src + n) (len - n) -> 0 <= n <= len ->
  kernel_buf l T us src len ->
  (forall x, (forall p, p ∈ upages us -> ~ bytes_of p PGSIZE x) -> rdb (mem_of s1) x = rdb (mem_of s) x) ->
  wrote s us s2 va src len.
Proof.
  intros H1 H2 Hn Hbuf Hs x a Ha. rewrite (H2 x a Ha), (H1 x a Ha).
  repeat case_decide; try lia; try done.
  rewrite Hs; [f_equal; lia|]. intros p Hp. apply (Hbuf p); [|lia]. rewrite !elem_of_app. auto.
Qed.

Lemma wp_copyout f s l T us rest va src len (Q : Z -> kst -> Prop) :
  uspace s l T us rest -> 0 <= va -> 0 <= len -> accessible s T us va len PTE_W ->
  kernel_buf l T us src len -> (Z.to_nat len < f)%nat ->
  (forall s', uspace s' l T us rest -> (forall v, leaf (mem_of s') T v = leaf (mem_of s) T v) ->
     wrote s us s' va src len ->
     (forall x, (forall p, p ∈ upages us -> ~ bytes_of p PGSIZE x) -> rdb (mem_of s') x = rdb (mem_of s) x) ->
     Q 0 s') ->
  wp (copyout f (pt_root T) va src len) Q s.
Proof.
  revert s va src len. induction f as [|f IH]; intros s va src len Hu Hva Hlen Hacc Hbuf Hf HQ; [lia|].
  cbn [Vm.copyout]. destruct (len >? 0) eqn:E; rewrite Z.gtb_ltb in E.
  2:{ assert (len = 0) as -> by lia. apply wp_ret, HQ; [done|done| |done].
      intros x a _. rewrite decide_False by lia. done. }
  destruct (Hacc (va / 4096)) as ([pa Hpa] & HU & HW); [zdiv|].
  destruct (us_map _ _ _ _ _ _ _ Hu _ _ Hpa) as (Hv & _). unfold PGSIZE, MAXVA in Hlim.
  assert (va < 2 ^ 38) as Hva38 by zdiv.
  rewrite PGROUNDDOWN_div by lia. set (v := va / 4096) in *.
  replace (v * PGSIZE >=? MAXVA) with false by (rewrite Z.geb_leb; unfold PGSIZE, MAXVA; lia).
  wp_step. eapply wp_translate; [exact Hu|exact Hpa|done|].
  destruct (uspace_page_range _ _ _ _ _ pa Hu) as (Hpa0 & _); [by eapply elem_upages|].
  replace (pa =? 0) with false by lia.
  wp_step. eapply wp_walk_lookup; [apply Hu|unfold MAXVA, PGSIZE; lia|].
  assert (v * PGSIZE / 4096 = v) as -> by (apply Z.div_mul; lia).
  destruct HW as [HW|HW]; [done|].
  assert (is_Some (pt_low T !! (v / 512))) as [q Eq].
  { unfold leaf in HW. destruct (pt_low T !! (v / 512)); [eauto|]. by rewrite Z.land_0_l in HW. }
  pose proof (space_table _ _ _ _ _ _ (us_space _ _ _ _ _ _ _ Hu) (elem_low _ _ _ Eq)) as Hq.
  assert (0 <= v mod 512 < 512) by zdiv.
  assert (leaf_addr T v = q + 8 * (v mod 512)) as Ha by (unfold leaf_addr; by rewrite Eq).
  wp_step. apply wp_getf; [lia|]. rewrite Z.add_0_r.
  assert (ld 8 (mem_of s) (leaf_addr T v) = leaf (mem_of s) T v) as -> by (unfold leaf; by rewrite Ha, Eq).
  apply Z.eqb_neq in HW. rewrite HW.
  assert (va - v * PGSIZE = va mod 4096) as -> by (unfold v, PGSIZE; zdiv).
  set (n := if PGSIZE - va mod 4096 >? len then len else PGSIZE - va mod 4096).
  assert (0 < n <= len /\ va mod 4096 + n <= 4096 /\ (n < len -> va + n = v * PGSIZE + PGSIZE)) as (Hn & Hfit & Hnext).
  { unfold n, PGSIZE, v. destruct (4096 - va mod 4096 >? len) eqn:E3; rewrite Z.gtb_ltb in E3; split_and!; zdiv. }
  unfold set_bytes. wp_step. apply wp_modify.
  assert (kernel_buf l T us src n) as Hbuf1 by (intros p x Hp Hx; apply (Hbuf p); [done|lia]).
  destruct (write_page s l T us rest va src n pa Hu Hpa ltac:(lia) Hfit Hbuf1) as (W1 & W2 & W3 & W4).
  set (s1 := set_mem _ s) in *.
  assert (forall x, (forall p, p ∈ upages us -> ~ bytes_of p PGSIZE x) -> rdb (mem_of s1) x = rdb (mem_of s) x) as W5.
  { intros x Hx. apply W4, Hx. by eapply elem_upages. }
  destruct (decide (n = len)) as [Hnl|Hnl].
  - destruct f as [|f]; [lia|]. cbn [Vm.copyout]. replace (len - n >? 0) with false by (rewrite Z.gtb_ltb; lia).
    apply wp_ret, HQ; [done|done|by rewrite <- Hnl|done].
  - rewrite <- Hnext by lia. apply (IH s1); [done|lia|lia| | |lia|].
    + intros v' Hv'. rewrite W2. apply Hacc. fold v in Hv'. zdiv.
    + intros p x Hp Hx. apply (Hbuf p); [done|lia].
    + intros s' U1 U2 U3 U4. apply HQ; [done|intros v'; by rewrite U2| |].
      * eapply (wrote_step s us s1 s' va src n len); [exact W3|done|lia|exact Hbuf|done].
      * intros x Hx. rewrite U4, W5; done.
Qed.

(** ** [copyin] *)

(** Writing the kernel buffer [dst, dst + n) leaves the address space alone. *)
Lemma write_kernel s l T us rest dst n m' :
  uspace s l T us rest -> kernel_buf l T us dst n -> modifies (bytes_of dst n) (mem_of s) m' ->
  let s' := set_mem m' s in
  uspace s' l T us rest /\ (forall v, leaf (mem_of s') T v = leaf (mem_of s) T v) /\
  (forall x a, uaddr us x = Some a -> rdb (mem_of s') a = rdb (mem_of s) a).
Proof.
  intros Hu Hbuf Hm s'.
  assert (forall ps, ps ⊆ l ++ tables T ++ upages us -> same_on ps (mem_of s) m') as Hs.
  { intros ps Hps p x Hp Hx. apply Hm. intros Hx'. by apply (Hbuf p x); [apply Hps|..]. }
  destruct (space_set_mem kend s l T (upages us ++ rest) m') as [S1 S2]; [apply Hu| |].
  { apply Hs. intros x. rewrite !elem_of_app. tauto. }
  unfold s'. rewrite mem_of_set_mem. split_and!.
  - eapply uspace_leaf; [exact Hu|exact S1|]. intros v. rewrite mem_of_set_mem. apply S2.
  - exact S2.
  - intros x a Ha. unfold uaddr in Ha. destruct (us !! (x / 4096)) as [pa|] eqn:E; simplify_eq/=.
    apply (Hs (upages us)) with (p := pa); [intros y; rewrite !elem_of_app; tauto|by eapply elem_upages|].
    unfold bytes_of, PGSIZE. zdiv.
Qed.

(** The kernel bytes from [dst] are the user bytes from [va]. *)
Definition fetched (s : kst) (us : gmap Z Z) (s' : kst) (dst va len : Z) : Prop :=
  (forall i a, 0 <= i < len -> uaddr us (va + i) = Some a -> rdb (mem_of s') (dst + i) = rdb (mem_of s) a) /\
  modifies (bytes_of dst len) (mem_of s) (mem_of s').

Lemma wp_copyin f s l T us rest dst va len (Q : Z -> kst -> Prop) :
  uspace s l T us rest -> 0 <= va -> 0 <= len -> accessible s T us va len 0 ->
  kernel_buf l T us dst len -> (Z.to_nat len < f)%nat ->
  (forall s', uspace s' l T us rest -> fetched s us s' dst va len -> Q 0 s') ->
  wp (copyin f (pt_root T) dst va len) Q s.
Proof.
  revert s dst va len. induction f as [|f IH]; intros s dst va len Hu Hva Hlen Hacc Hbuf Hf HQ; [lia|].
  cbn [Vm.copyin]. destruct (len >? 0) eqn:E; rewrite Z.gtb_ltb in E.
  2:{ apply wp_ret, HQ; [done|]. split; [intros; lia|apply modifies_refl]. }
  destruct (Hacc (va / 4096)) as ([pa Hpa] & HU & _); [zdiv|].
  destruct (us_map _ _ _ _ _ _ _ Hu _ _ Hpa) as (Hv & _). unfold PGSIZE, MAXVA in Hlim.
  assert (va < 2 ^ 38) as Hva38 by zdiv.
  rewrite PGROUNDDOWN_div by lia. set (v := va / 4096) in *.
  wp_step. eapply wp_translate; [exact Hu|exact Hpa|done|].
  destruct (uspace_page_range _ _ _ _ _ pa Hu) as (Hpa0 & _); [by eapply elem_upages|].
  replace (pa =? 0) with false by lia.
  assert (va - v * PGSIZE = va mod 4096) as -> by (unfold v, PGSIZE; zdiv).
  set (n := if PGSIZE - va mod 4096 >? len then len else PGSIZE - va mod 4096).
  assert (0 < n <= len /\ va mod 4096 + n <= 4096 /\ (n < len -> va + n = v * PGSIZE + PGSIZE)) as (Hn & Hfit & Hnext).
  { unfold n, PGSIZE, v. destruct (4096 - va mod 4096 >? len) eqn:E3; rewrite Z.gtb_ltb in E3; split_and!; zdiv. }
  unfold set_bytes. wp_step. apply wp_modify. set (m1 := memmove (mem_of s) dst (pa + va mod 4096) n).
  assert (modifies (bytes_of dst n) (mem_of s) m1) as Hm1 by (apply modifies_memmove; lia).
  assert (kernel_buf l T us dst n) as Hbuf1 by (intros p x Hp Hx; apply (Hbuf p); [done|lia]).
  destruct (write_kernel s l T us rest dst n m1 Hu Hbuf1 Hm1) as (W1 & W2 & W3). set (s1 := set_mem m1 s) in *.
  assert (mem_of s1 = m1) as Hms1 by apply mem_of_set_mem.
  assert (forall i a, 0 <= i < n -> uaddr us (va + i) = Some a -> rdb m1 (dst + i) = rdb (mem_of s) a) as Hgot.
  { intros i a Hi Ha. unfold m1. rewrite rdb_memmove, decide_True by lia. f_equal. unfold uaddr in Ha.
    replace ((va + i) / 4096) with v in Ha by (unfold v; zdiv). rewrite Hpa in Ha. simplify_eq/=. zdiv. }
  destruct (decide (n = len)) as [Hnl|Hnl].
  - destruct f as [|f]; [lia|]. cbn [Vm.copyin]. replace (len - n >? 0) with false by (rewrite Z.gtb_ltb; lia).
    apply wp_ret, HQ; [done|]. rewrite <- Hnl. split; rewrite Hms1; done.
  - rewrite <- Hnext by lia. apply (IH s1); [done|lia|lia| | |lia|].
    + intros v' Hv'. rewrite W2. apply Hacc. fold v in Hv'. zdiv.
    + intros p x Hp Hx. apply (Hbuf p); [done|lia].
    + intros s' U1 [U2 U3]. apply HQ; [done|]. split.
      * intros i a Hi Ha. destruct (decide (i < n)) as [Hin|Hin].
        -- rewrite U3 by (unfold bytes_of; lia). rewrite Hms1. apply Hgot; [lia|done].
        -- replace (dst + i) with (dst + n + (i - n)) by lia. rewrite (U2 (i - n) a);
             [by eapply W3|lia|by replace (va + n + (i - n)) with (va + i) by lia].
      * intros x Hx. unfold bytes_of in Hx. rewrite U3 by (unfold bytes_of; lia). rewrite Hms1.
        apply Hm1. unfold bytes_of. lia.
Qed.

End Copy.

(** ** Round trip *)

(** C26: what the kernel copies out, it reads back.  For a range of user
    memory that is mapped user-writable and kernel buffers outside the
    process's pages, [copyout] followed by [copyin] of the same range both
    succeed: the destination buffer then holds the source bytes, the user
    range holds them too, every other user byte, page-table entry and page
    ownership is unchanged. *)
Theorem copyout_copyin kend lim p_sz p_pagetable kfree fuel s l T us rest va src dst len :
  uspace kend lim s l T us rest -> lim * PGSIZE <= MAXVA -> 0 <= va -> 0 <= len ->
  accessible s T us va len PTE_W -> kernel_buf l T us src len -> kernel_buf l T us dst len ->
  (Z.to_nat len < fuel)%nat ->
  wp (r1 ← copyout p_sz p_pagetable kfree fuel (pt_root T) va src len;
      r2 ← copyin p_sz p_pagetable kfree fuel (pt_root T) dst va len;
      mret (r1, r2)) (fun r s' =>
    r = (0, 0) /\ uspace kend lim s' l T us rest /\
    (forall i, 0 <= i < len -> rdb (mem_of s') (dst + i) = rdb (mem_of s) (src + i)) /\
    (forall x a, uaddr us x = Some a ->
       rdb (mem_of s') a = if decide (va <= x < va + len) then rdb (mem_of s) (src + (x - va)) else rdb (mem_of s) a) /\
    (forall v, leaf (mem_of s') T v = leaf (mem_of s) T v)) s.
Proof.
  intros Hu Hlim Hva Hlen Hacc Hsrc Hdst Hf. wp_step.
  eapply (wp_copyout kend lim); [done|exact Hu|done|done|done|done|done|].
  intros s1 U1 U2 U3 U4. wp_step. eapply (wp_copyin kend lim); [done|exact U1|done|done| |exact Hdst|done|].
  { intros v Hv. rewrite U2. destruct (Hacc v Hv) as (? & ? & _). auto. }
  intros s2 V1 [V2 V3]. wp_step.
  assert (forall x a, uaddr us x = Some a -> rdb (mem_of s2) a = rdb (mem_of s1) a) as Hsame.
  { intros x a Ha. apply V3. intros Hb. unfold uaddr in Ha.
    destruct (us !! (x / 4096)) as [pa|] eqn:E; simplify_eq/=.
    apply (Hdst pa (pa + x mod 4096)); [rewrite !elem_of_app; eauto using elem_upages|done|].
    unfold bytes_of, PGSIZE. zdiv. }
  split_and!; [done|done| | |].
  - intros i Hi. destruct (Hacc ((va + i) / 4096)) as ([pa Hpa] & _); [zdiv|].
    assert (uaddr us (va + i) = Some (pa + (va + i) mod 4096)) as Ha by (unfold uaddr; by rewrite Hpa).
    rewrite (V2 i _ Hi Ha), (U3 _ _ Ha), decide_True by lia. f_equal. lia.
  - intros x a Ha. rewrite (Hsame x a Ha). by apply U3.
  - intros v. rewrite <- U2. apply leaf_same. intros p x Hp Hx. apply V3. intros Hb.
    apply (Hdst p x); [rewrite !elem_of_app; auto|done|done].
Qed.

(** A process with one page: root, middle and lowest table and the user page
    in the four pages from KERNBASE. *)
Abbreviation one_T := (PTree 2147483648 {[ 0 := 2147487744 ]} {[ 0 := 2147491840 ]}).
Abbreviation one_us := ({[ 0 := 2147495936 ]} : gmap Z Z).
Definition one_mem : mem :=
  st64 (st64 (st64 ∅ 2147483648 (entry (Some 2147487744))) 2147487744 (entry (Some 2147491840)))
    2147491840 (pte_of 2147495936 22).
Definition one_page : kst := mkKst (mkMach (mkHart 1 0 false true) one_mem) (mkLock EmptyString 0 0) 0.

#[local] Transparent tables.

Lemma one_tables : tables one_T = [2147483648; 2147487744; 2147491840].
Proof. unfold tables. cbn [pt_root pt_mid pt_low]. by rewrite !map_to_list_singleton. Qed.

#[local] Opaque tables.

Lemma one_upages : upages one_us = [2147495936].
Proof. unfold upages. by rewrite map_to_list_singleton. Qed.

Lemma one_ld p i : 0 <= i < 512 -> p ∈ [2147483648; 2147487744; 2147491840] ->
  ld64 one_mem (p + 8 * i) = if decide (i = 0) then
    (if decide (p = 2147483648) then entry (Some 2147487744)
     else if decide (p = 2147487744) then entry (Some 2147491840) else pte_of 2147495936 22) else 0.
Proof.
  intros Hi Hp. unfold one_mem.
  assert (p = 2147483648 \/ p = 2147487744 \/ p = 2147491840) as Hcases by set_solver.
  case_decide as E; [subst i|].
  - destruct Hcases as [-> | [-> | ->]]; vm_compute; reflexivity.
  - rewrite !ld64_st64_ne by lia. apply (ld_zero 8). intros x _. done.
Qed.

Lemma one_leaf v : leaf one_mem one_T v = if decide (v = 0) then pte_of 2147495936 22 else 0.
Proof.
  unfold leaf. cbn [pt_low]. destruct (decide (v / 512 = 0)) as [Hv|Hv].
  - rewrite Hv, lookup_singleton_eq. rewrite one_ld by (zdiv || set_solver).
    repeat case_decide; try done; zdiv.
  - rewrite lookup_singleton_ne by lia. rewrite decide_False; [done|]. intros ->. by apply Hv.
Qed.

Lemma one_uspace : uspace KERNBASE 1024 one_page [] one_T one_us [].
Proof.
  split.
  - split.
    + rewrite one_tables, one_upages. split.
      * split; [reflexivity|done|constructor|intros pa Hpa; by apply elem_of_nil in Hpa|done|repeat split; done].
      * apply (bool_decide_eq_true _). reflexivity.
      * intros pa Hpa. assert (exists i, 0 <= i < 4 /\ pa = KERNBASE + i * 4096) as (i & Hi & ->).
        { unfold KERNBASE. repeat (apply elem_of_cons in Hpa as [->|Hpa];
            [first [exists 0; lia|exists 1; lia|exists 2; lia|exists 3; lia]|]). by apply elem_of_nil in Hpa. }
        unfold page_ok, PHYSTOP, KERNBASE, PGSIZE. split; [exists (524288 + i)|]; lia.
    + split; cbn [pt_root pt_mid pt_low]; change (mem_of one_page) with one_mem.
      * intros i Hi. rewrite one_ld by (done || set_solver). destruct (decide (i = 0)) as [->|];
          [by rewrite lookup_singleton_eq|by rewrite lookup_singleton_ne by done].
      * intros i p j Hp Hj. apply lookup_singleton_Some in Hp as [<- <-]. rewrite one_ld by (done || set_solver).
        destruct (decide (j = 0)) as [->|]; [by rewrite lookup_singleton_eq|by rewrite lookup_singleton_ne by lia].
      * intros i p Hp. apply lookup_singleton_Some in Hp as [<- _]. lia.
      * intros k q Hk. apply lookup_singleton_Some in Hk as [<- _]. eauto.
  - intros v pa Hv. apply lookup_singleton_Some in Hv as [<- <-]. change (mem_of one_page) with one_mem.
    rewrite one_leaf, decide_True by done. vm_compute. intuition discriminate.
  - intros v Hv HN. change (mem_of one_page) with one_mem. rewrite one_leaf, decide_False; [done|].
    intros ->. by rewrite lookup_singleton_eq in HN.
Qed.

(** Ten bytes written to user address 100. *)
Lemma copyout_copyin_witness :
  wp (r1 ← copyout 4096 2147483648 (fun _ => mret tt) 20 2147483648 100 1000 10;
      r2 ← copyin 4096 2147483648 (fun _ => mret tt) 20 2147483648 2000 100 10;
      mret (r1, r2)) (fun r s' =>
    r = (0, 0) /\ uspace KERNBASE 1024 s' [] one_T one_us [] /\
    (forall i, 0 <= i < 10 -> rdb (mem_of s') (2000 + i) = rdb (mem_of one_page) (1000 + i)) /\
    (forall x a, uaddr one_us x = Some a ->
       rdb (mem_of s') a = if decide (100 <= x < 100 + 10) then rdb (mem_of one_page) (1000 + (x - 100))
                           else rdb (mem_of one_page) a) /\
    (forall v, leaf (mem_of s') one_T v = leaf (mem_of one_page) one_T v)) one_page.
Proof.
  assert (forall a, a + 10 < 2147483648 -> kernel_buf [] one_T one_us a 10) as Hbuf.
  { intros a Ha p x Hp Hx. rewrite one_tables, one_upages in Hp. unfold bytes_of.
    assert (2147483648 <= p); [|lia].
    repeat (apply elem_of_cons in Hp as [->|Hp]; [lia|]). by apply elem_of_nil in Hp. }
  refine (copyout_copyin KERNBASE 1024 4096 2147483648 (fun _ => mret tt) 20 one_page [] one_T one_us []
    100 1000 2000 10 one_uspace _ _ _ _ (Hbuf 1000 _) (Hbuf 2000 _) _);
    [unfold PGSIZE, MAXVA; lia|lia|lia| |lia|lia|simpl; lia].
  intros v Hv. assert (v = 0) as -> by (change (0 <= v <= 0) in Hv; lia). change (mem_of one_page) with one_mem.
  rewrite one_leaf, decide_True by done. split_and!; [eauto|vm_compute; discriminate|right; vm_compute; discriminate].
Defined.
