(* ===== verification/Umalloc.v ===== *)
(** * The user allocator (user/umalloc.c)

    The allocator of Kernighan and Ritchie that user programs link: a circular
    list of free blocks in ascending order of address, threaded through headers
    of 16 bytes (a pointer and a size in units of 16 bytes), which starts at the
    static header [base].  Memory is a map of bytes; a header that does not lie
    on a page of the process is a page fault, which ends the process.

    [sbrk] is the system call as far as the size of the process goes:
    [sys_sbrk] of kernel/sysproc.c and [growproc] of kernel/proc.c.  Whether
    the kernel has the pages for growing from one size to another is the
    parameter [grant]. *)

From Stdlib Require Import ZArith Lia Bool String.
From stdpp Require Import base gmap list strings.
From S2P Require Import Prelude Mem Kalloc Vm.

Record ust := mkUst { um : mem; freep : Z; u_sz : Z }.

Definition sizeof_Header : Z := 16.
Definition SBRK_EAGER : Z := 1.
Definition SBRK_LAZY : Z := 2.

(** [n] bytes at [a] are on the pages of the process. *)
Definition accessible (s : ust) (a n : Z) : bool := (0 <? a) && (a + n <=? PGROUNDUP (u_sz s)).

Definition touch (a n : Z) : M ust unit := s ← get; if accessible s a n then mret tt else fault "page fault".

(** [p->s.ptr] and [p->s.size] *)
Definition get_ptr (p : Z) : M ust Z := touch p 8;; gets (fun s => ld64 (um s) p).
Definition get_size (p : Z) : M ust Z := touch (p + 8) 4;; gets (fun s => ld32 (um s) (p + 8)).
Definition set_ptr (p v : Z) : M ust unit := touch p 8;; modify (fun s => mkUst (st64 (um s) p v) (freep s) (u_sz s)).
Definition set_size (p v : Z) : M ust unit := touch (p + 8) 4;; modify (fun s => mkUst (st32 (um s) (p + 8) (u32 v)) (freep s) (u_sz s)).
Definition set_freep (p : Z) : M ust unit := modify (fun s => mkUst (um s) p (u_sz s)).
Definition set_sz (sz : Z) : M ust unit := modify (fun s => mkUst (um s) (freep s) sz).

(** [for(p = freep; !(bp > p && bp < p->s.ptr); p = p->s.ptr)
       if(p >= p->s.ptr && (bp > p || bp < p->s.ptr)) break;] *)
Fixpoint free_find (fuel : nat) (bp p : Z) : M ust Z :=
  match fuel with
  | O => out_of_fuel
  | S fuel =>
      n ← get_ptr p;
      if (p <? bp) && (bp <? n) then mret p
      else if (n <=? p) && ((p <? bp) || (bp <? n)) then mret p
      else free_find fuel bp n
  end.

(** More than the number of headers the process has room for. *)
Definition headers (s : ust) : nat := S (Z.to_nat (u_sz s / 16)).

Definition free (ap : Z) : M ust unit :=
  let bp := ap - sizeof_Header in
  fp ← gets freep;
  fuel ← gets headers;
  p ← free_find fuel bp fp;
  bsize ← get_size bp;
  next ← get_ptr p;
  (if bp + sizeof_Header * bsize =? next then
     nsize ← get_size next;
     set_size bp (bsize + nsize);;
     nn ← get_ptr next;
     set_ptr bp nn
   else set_ptr bp next);;
  psize ← get_size p;
  (if p + sizeof_Header * psize =? bp then
     bsize ← get_size bp;
     set_size p (psize + bsize);;
     nn ← get_ptr bp;
     set_ptr p nn
   else set_ptr p bp);;
  set_freep p.

Section Umalloc.
(** The address of the static header, and whether the kernel can extend the
    process from one size to another. *)
Variables (base : Z) (grant : Z -> Z -> bool).

(** [growproc(n)] on the size of the process *)
Definition grow (n : Z) : M ust Z :=
  sz ← gets u_sz;
  if n >? 0 then
    if u64 (sz + n) >? TRAPFRAME then mret (-1)
    else if negb (grant sz (u64 (sz + n))) then mret (-1)
    else set_sz (u64 (sz + n));; mret 0
  else if n <? 0 then
    set_sz (if u64 (sz + n) >=? sz then sz else u64 (sz + n));; mret 0
  else mret 0.

Definition sys_sbrk (n t : Z) : M ust Z :=
  addr ← gets u_sz;
  if (t =? SBRK_EAGER) || (n <? 0) then
    r ← grow n;
    if r <? 0 then mret (-1) else mret addr
  else if u64 (addr + n) <? addr then mret (-1)
  else if u64 (addr + n) >? TRAPFRAME then mret (-1)
  else set_sz (u64 (addr + n));; mret addr.

(** The argument is an [int]. *)
Definition sbrk (n : Z) : M ust Z := sys_sbrk (s32 n) SBRK_EAGER.

Definition morecore (nu : Z) : M ust Z :=
  let nu := if nu <? 4096 then 4096 else nu in
  p ← sbrk (nu * sizeof_Header);
  if p =? -1 then mret 0
  else
    set_size p nu;;
    free (p + sizeof_Header);;
    gets freep.

(** The block [p] is large enough: unlink it, or cut off its tail. *)
Definition take_block (nunits prevp p : Z) : M ust Z :=
  size ← get_size p;
  if size =? nunits then
    n ← get_ptr p;
    set_ptr prevp n;;
    set_freep prevp;;
    mret (p + sizeof_Header)
  else
    set_size p (size - nunits);;
    size ← get_size p;
    let p := p + sizeof_Header * size in
    set_size p nunits;;
    set_freep prevp;;
    mret (p + sizeof_Header).

(** [for(p = prevp->s.ptr; ; prevp = p, p = p->s.ptr)] *)
Fixpoint malloc_loop (fuel : nat) (nunits prevp p : Z) : M ust Z :=
  match fuel with
  | O => out_of_fuel
  | S fuel =>
      size ← get_size p;
      if size >=? nunits then take_block nunits prevp p
      else
        fp ← gets freep;
        if p =? fp then
          p ← morecore nunits;
          if p =? 0 then mret 0
          else n ← get_ptr p; malloc_loop fuel nunits p n
        else n ← get_ptr p; malloc_loop fuel nunits p n
  end.

Definition units (nbytes : Z) : Z := u32 ((nbytes + sizeof_Header - 1) / sizeof_Header + 1).

Definition malloc (nbytes : Z) : M ust Z :=
  let nunits := units nbytes in
  fp ← gets freep;
  (if fp =? 0 then
     set_freep base;;
     set_ptr base base;;
     set_size base 0
   else mret tt);;
  prevp ← gets freep;
  p ← get_ptr prevp;
  fuel ← gets headers;
  malloc_loop (S (2 * fuel)) nunits prevp p.

End Umalloc.
