(* ===== verification/UmallocProof.v ===== *)
(** * The user allocator: its free list

    [lseg] is a segment of the free list in memory, [uinv] the state between
    calls: the circular list of free blocks [L] from [base], in ascending order
    with a gap between any two, and the blocks [A] that programs hold, apart
    from each other and from the free ones. *)

From Stdlib Require Import ZArith Lia Bool String.
From stdpp Require Import base gmap list strings.
From S2P Require Import Prelude Mem Kalloc Vm Umalloc.

#[local] Arguments ld64 : simpl never.
#[local] Arguments ld32 : simpl never.
#[local] Arguments st64 : simpl never.
#[local] Arguments st32 : simpl never.

(** ** Accesses *)

Lemma acc_ok s a n : 0 < a -> a + n <= u_sz s -> 0 <= u_sz s <= 2 ^ 38 -> accessible s a n = true.
Proof.
  intros Ha Hn Hs. unfold accessible. rewrite PGROUNDUP_div by lia. apply andb_true_intro. split; [lia|].
  apply Z.leb_le. zdiv.
Qed.

Section Access.
Context (m : mem) (f sz : Z) (Hsz : 0 <= sz <= 2 ^ 38).

Lemma wp_touch a n Q : 0 < a -> a + n <= sz -> Q tt (mkUst m f sz) -> wp (touch a n) Q (mkUst m f sz).
Proof. intros Ha Hn HQ. unfold touch. wp_steps. by rewrite acc_ok. Qed.

Lemma wp_get_ptr p Q : 0 < p -> p + 16 <= sz -> Q (ld64 m p) (mkUst m f sz) -> wp (get_ptr p) Q (mkUst m f sz).
Proof. intros Hp Hn HQ. unfold get_ptr. wp_steps. apply wp_touch; [lia..|]. by wp_steps. Qed.

Lemma wp_get_size p Q : 0 < p -> p + 16 <= sz -> Q (ld32 m (p + 8)) (mkUst m f sz) -> wp (get_size p) Q (mkUst m f sz).
Proof. intros Hp Hn HQ. unfold get_size. wp_steps. apply wp_touch; [lia..|]. by wp_steps. Qed.

Lemma wp_set_ptr p v Q : 0 < p -> p + 16 <= sz -> Q tt (mkUst (st64 m p v) f sz) -> wp (set_ptr p v) Q (mkUst m f sz).
Proof. intros Hp Hn HQ. unfold set_ptr. wp_steps. apply wp_touch; [lia..|]. by wp_steps. Qed.

Lemma wp_set_size p v Q : 0 < p -> p + 16 <= sz -> Q tt (mkUst (st32 m (p + 8) (u32 v)) f sz) -> wp (set_size p v) Q (mkUst m f sz).
Proof. intros Hp Hn HQ. unfold set_size. wp_steps. apply wp_touch; [lia..|]. by wp_steps. Qed.
End Access.

(** ** Segments of the free list *)

Abbreviation block := (Z * Z)%type.

Definition fin (x : block) : Z := x.1 + 16 * x.2.

(** Following the links from [p] visits the headers [l] and arrives at [q]. *)
Fixpoint lseg (m : mem) (p q : Z) (l : list block) : Prop :=
  match l with
  | [] => p = q
  | x :: l => p = x.1 /\ ld32 m (x.1 + 8) = x.2 /\ lseg m (ld64 m x.1) q l
  end.

Lemma lseg_app m p q l1 l2 : lseg m p q (l1 ++ l2) <-> exists r, lseg m p r l1 /\ lseg m r q l2.
Proof.
  revert p. induction l1 as [|x l1 IH]; intros p; cbn [lseg app].
  - split; [eauto|]. by intros (r & -> & ?).
  - split.
    + intros (E & Es & (r & H1 & H2)%IH). eauto.
    + intros (r & (E & Es & H1) & H2). split; [done|]. split; [done|]. apply IH. eauto.
Qed.

Lemma lseg_mid m p q l1 x l2 : lseg m p q (l1 ++ x :: l2) <->
  lseg m p x.1 l1 /\ ld32 m (x.1 + 8) = x.2 /\ lseg m (ld64 m x.1) q l2.
Proof.
  rewrite lseg_app. split.
  - intros (r & H1 & -> & Es & H2). auto.
  - intros (H1 & Es & H2). exists x.1. cbn. auto.
Qed.

Lemma lseg_head m p q l : lseg m p q l -> p = match l with [] => q | x :: _ => x.1 end.
Proof. destruct l; cbn; [done|by intros [-> _]]. Qed.

(** Bytes outside the headers of a segment do not matter. *)
Lemma lseg_frame W m m' p q l : modifies W m m' -> (forall x a, x ∈ l -> x.1 <= a < x.1 + 16 -> ~ W a) -> lseg m p q l -> lseg m' p q l.
Proof.
  intros HM. revert p. induction l as [|x l IH]; intros p HW; cbn [lseg]; [done|]. intros (-> & Es & Hl). split; [done|].
  rewrite (ld32_modifies W m m' (x.1 + 8) HM) by (intros a Ha; apply (HW x); [by left|lia]). split; [done|].
  rewrite (ld64_modifies W m m' x.1 HM) by (intros a Ha; apply (HW x); [by left|lia]).
  apply IH; [|done]. intros y a Hy. apply HW. by right.
Qed.

(** Ascending order with gaps, between [lo] and [hi]. *)
Fixpoint asc (lo : Z) (l : list block) (hi : Z) : Prop :=
  match l with
  | [] => lo <= hi
  | x :: l => lo < x.1 /\ 1 <= x.2 /\ asc (fin x) l hi
  end.

Lemma asc_mid lo l1 x l2 hi : asc lo (l1 ++ x :: l2) hi <-> asc lo l1 (x.1 - 1) /\ 1 <= x.2 /\ asc (fin x) l2 hi.
Proof.
  revert lo. induction l1 as [|y l1 IH]; intros lo; cbn [asc app].
  - split; intros (? & ? & ?); (split_and!; [lia|done|done]).
  - rewrite IH. tauto.
Qed.

Lemma asc_weaken lo lo' l hi hi' : lo' <= lo -> hi <= hi' -> asc lo l hi -> asc lo' l hi'.
Proof.
  revert lo lo'. induction l as [|x l IH]; intros lo lo' H1 H2; cbn [asc]; [lia|]. intros (? & ? & ?). split_and!; [lia|done|].
  eapply IH; [|exact H2|done]. lia.
Qed.

Lemma asc_le lo l hi : asc lo l hi -> lo <= hi.
Proof.
  revert lo. induction l as [|x l IH]; intros lo; cbn [asc]; [done|]. intros (H1 & H2 & H3). apply IH in H3. unfold fin in H3. lia.
Qed.

Lemma asc_in lo l hi x : asc lo l hi -> x ∈ l -> lo < x.1 /\ 1 <= x.2 /\ fin x <= hi.
Proof.
  intros H (l1 & l2 & ->)%list_elem_of_split. apply asc_mid in H as (H1 & H2 & H3). apply asc_le in H1, H3. split_and!; [lia|done|done].
Qed.

Lemma asc_length lo l hi : asc lo l hi -> 16 * Z.of_nat (length l) <= hi - lo.
Proof.
  revert lo. induction l as [|x l IH]; intros lo; cbn [asc length]; [lia|]. intros (H1 & H2 & H3). apply IH in H3. unfold fin in H3. lia.
Qed.

(** Two members of an ascending list are the same or apart. *)
Lemma asc_apart lo l hi x y : asc lo l hi -> x ∈ l -> y ∈ l -> x = y \/ fin x < y.1 \/ fin y < x.1.
Proof.
  intros H (l1 & l2 & ->)%list_elem_of_split Hy. apply asc_mid in H as (H1 & H2 & H3).
  apply elem_of_app in Hy as [Hy|[->|Hy]%elem_of_cons]; [|by left|].
  - apply (asc_in _ _ _ _ H1) in Hy. lia.
  - apply (asc_in _ _ _ _ H3) in Hy. lia.
Qed.

(** ** The state between calls *)

Definition apart (x y : block) : Prop := fin x <= y.1 \/ fin y <= x.1.

Section Inv.
Variable base : Z.

(** The nodes of the circular list. *)
Definition nodes (L : list block) : list block := (base, 0) :: L.

Record held (m : mem) (sz : Z) (L : list block) (A : gmap Z Z) : Prop := {
  h_block : forall a k, A !! a = Some k -> base + 16 <= a /\ 1 <= k /\ a + 16 * k <= sz /\ ld32 m (a + 8) = k;
  h_free : forall a k x, A !! a = Some k -> x ∈ L -> apart (a, k) x;
  h_each : forall a k b j, A !! a = Some k -> A !! b = Some j -> a <> b -> apart (a, k) (b, j)
}.

Record uinv (s : ust) (L : list block) (A : gmap Z Z) : Prop := {
  v_seg : lseg (um s) base base (nodes L);
  v_asc : asc (base + 15) L (u_sz s);
  v_freep : freep s ∈ (nodes L).*1;
  v_held : held (um s) (u_sz s) L A;
  v_base : 0 < base;
  v_room : base + 16 <= u_sz s;
  v_sz : u_sz s <= 2 ^ 35
}.

(** What a call leaves alone: the blocks programs hold. *)
Definition keeps (A : gmap Z Z) (m m' : mem) : Prop := forall a k x, A !! a = Some k -> a <= x < a + 16 * k -> rdb m' x = rdb m x.

End Inv.

Arguments v_seg {_ _ _ _} _.
Arguments v_asc {_ _ _ _} _.
Arguments v_freep {_ _ _ _} _.
Arguments v_held {_ _ _ _} _.
Arguments v_base {_ _ _ _} _.
Arguments v_room {_ _ _ _} _.
Arguments v_sz {_ _ _ _} _.
Arguments h_block {_ _ _ _ _} _ {_ _} _.
Arguments h_free {_ _ _ _ _} _ {_ _ _} _ _.
Arguments h_each {_ _ _ _ _} _ {_ _ _ _} _ _ _.

(** ** Finding the place of a block *)

Fixpoint incr (lo : Z) (l : list block) : Prop :=
  match l with [] => True | x :: l => lo < x.1 /\ incr x.1 l end.

Lemma incr_in lo l y : incr lo l -> y ∈ l -> lo < y.1.
Proof.
  revert lo. induction l as [|x l IH]; intros lo; cbn [incr]; [by intros _ ?%elem_of_nil|].
  intros [H1 H2] [->|Hy]%elem_of_cons; [done|]. specialize (IH _ H2 Hy). lia.
Qed.

Lemma incr_mid lo l1 x l2 : incr lo (l1 ++ x :: l2) -> (forall y, y ∈ l1 -> y.1 < x.1) /\ incr x.1 l2.
Proof.
  revert lo. induction l1 as [|z l1 IH]; intros lo; cbn [incr app]; [intros [_ H]; split; [by intros y ?%elem_of_nil|done]|].
  intros [H1 H2]. destruct (IH _ H2) as [IH1 IH2]. split; [|done]. intros y [->|Hy]%elem_of_cons; [|by apply IH1].
  apply (incr_in _ _ x H2). rewrite elem_of_app. right. by left.
Qed.

Lemma asc_incr lo l hi : asc lo l hi -> incr lo l.
Proof.
  revert lo. induction l as [|x l IH]; intros lo; cbn [asc incr]; [done|]. intros (H1 & H2 & H3). split; [done|]. apply IH.
  eapply asc_weaken; [| |exact H3]; [unfold fin|]; lia.
Qed.

(** The node after which [bp] belongs. *)
Lemma place x l bp : incr x.1 l -> x.1 < bp -> bp ∉ l.*1 ->
  exists l1 z l2, x :: l = l1 ++ z :: l2 /\ z.1 < bp /\ forall y, y ∈ l2 -> bp < y.1.
Proof.
  revert x. induction l as [|y l IH]; intros x Hi Hx Hn.
  { exists [], x, []. split_and!; [done|done|]. by intros y ?%elem_of_nil. }
  destruct Hi as [Hy Hi]. rewrite fmap_cons, not_elem_of_cons in Hn. destruct Hn as [Hne Hn].
  destruct (Z.lt_ge_cases y.1 bp) as [Hlt|Hge].
  - destruct (IH y Hi Hlt Hn) as (l1 & z & l2 & E & H). exists (x :: l1), z, l2. by rewrite E.
  - exists [], x, (y :: l). split_and!; [done|done|]. intros w [->|Hw]%elem_of_cons; [lia|]. pose proof (incr_in _ _ _ Hi Hw). lia.
Qed.

Section Find.
Context (m : mem) (f sz bp base : Z) (Hsz : 0 <= sz <= 2 ^ 38) (Hbase : base < bp).

Lemma wp_find_fwd l lo p x l2 n Q : lseg m p base (l ++ x :: l2) -> incr lo (l ++ x :: l2) -> base <= lo + 1 ->
  x.1 < bp -> (forall y, y ∈ l2 -> bp < y.1) -> (forall y, y ∈ l ++ x :: l2 -> 0 < y.1 /\ y.1 + 16 <= sz) ->
  Q x.1 (mkUst m f sz) -> wp (free_find (S (length l + n)) bp p) Q (mkUst m f sz).
Proof.
  revert lo p. induction l as [|y l IH]; intros lo p Hs Hi Hlo Hx H2 Hacc HQ; cbn [app] in *.
  - destruct Hs as (-> & _ & Hs). destruct (Hacc x) as [Ha1 Ha2]; [by left|]. cbn [free_find length Nat.add]. wp_steps.
    apply wp_get_ptr; [done|done|done|]. apply lseg_head in Hs. destruct l2 as [|y l2].
    + replace ((x.1 <? bp) && (bp <? ld64 m x.1)) with false by lia. cbn [incr] in Hi.
      replace ((ld64 m x.1 <=? x.1) && ((x.1 <? bp) || (bp <? ld64 m x.1))) with true by lia. by apply wp_ret.
    + specialize (H2 y ltac:(by left)). replace ((x.1 <? bp) && (bp <? ld64 m x.1)) with true by lia. by apply wp_ret.
  - destruct Hs as (-> & _ & Hs). destruct (Hacc y) as [Ha1 Ha2]; [by left|]. destruct Hi as [Hy Hi].
    pose proof (incr_mid _ _ _ _ Hi) as [Hl _].
    cbn [length Nat.add]. cbn [free_find]. wp_steps. apply wp_get_ptr; [done|done|done|].
    assert (y.1 < ld64 m y.1 <= x.1) as Hn.
    { apply lseg_head in Hs. rewrite Hs. destruct l as [|z l]; cbn [app] in *; [cbn [incr] in Hi; lia|]. destruct Hi as [Hz _]. specialize (Hl z ltac:(by left)). lia. }
    replace ((y.1 <? bp) && (bp <? ld64 m y.1)) with false by lia.
    replace ((ld64 m y.1 <=? y.1) && ((y.1 <? bp) || (bp <? ld64 m y.1))) with false by lia.
    apply (IH y.1); try done; [lia|]. intros z Hz. apply Hacc. by right.
Qed.

Lemma wp_find_back l lo p n Q : lseg m p base l -> incr lo l -> (forall y, y ∈ l -> bp < y.1 /\ y.1 + 16 <= sz) -> 0 < base ->
  wp (free_find n bp base) Q (mkUst m f sz) -> l <> [] -> wp (free_find (length l + n) bp p) Q (mkUst m f sz).
Proof.
  revert lo p. induction l as [|y l IH]; intros lo p Hs Hi Hacc Hb HQ Hne; [done|].
  destruct Hs as (-> & _ & Hs). destruct (Hacc y) as [Ha1 Ha2]; [by left|]. destruct Hi as [Hy Hi].
  cbn [length Nat.add free_find]. wp_steps. apply wp_get_ptr; [done|lia|done|].
  replace ((y.1 <? bp) && (bp <? ld64 m y.1)) with false by lia. destruct l as [|z l].
  - cbn in Hs. rewrite Hs. replace ((base <=? y.1) && ((y.1 <? bp) || (bp <? base))) with false by lia. exact HQ.
  - pose proof (lseg_head _ _ _ _ Hs) as Ez. cbn in Ez. destruct Hi as [Hz Hi].
    replace ((ld64 m y.1 <=? y.1) && ((y.1 <? bp) || (bp <? ld64 m y.1))) with false by lia.
    apply (IH y.1); try done. intros w Hw. apply Hacc. by right.
Qed.
End Find.

Section Free.
Context (base : Z).

Lemma nodes_incr s L A : uinv base s L A -> incr base L.
Proof. intros H. apply (asc_incr _ _ (u_sz s)), (asc_weaken (base + 15) _ _ (u_sz s)); [lia|lia|apply H]. Qed.

Lemma nodes_acc s L A y : uinv base s L A -> y ∈ nodes base L -> 0 < y.1 /\ y.1 + 16 <= u_sz s /\ base <= y.1.
Proof.
  intros H Hy. pose proof (v_base H). pose proof (v_asc H) as Ha. apply elem_of_cons in Hy as [->|Hy]; cbn.
  - pose proof (v_room H). lia.
  - apply (asc_in _ _ _ _ Ha) in Hy. unfold fin in Hy. lia.
Qed.

Lemma nodes_length s L A : uinv base s L A -> 16 * Z.of_nat (length (nodes base L)) <= u_sz s.
Proof. intros H. pose proof (v_base H). pose proof (asc_length _ _ _ (v_asc H)). unfold nodes. cbn [length]. lia. Qed.

Lemma headers_enough s L A : uinv base s L A -> (length (nodes base L) < headers s)%nat.
Proof. intros H%nodes_length. unfold headers. zdiv. Qed.

(** The search of [free] from anywhere on the list. *)
Lemma wp_free_find s L A bp l1 x l2 Q : uinv base s L A -> base < bp -> nodes base L = l1 ++ x :: l2 -> x.1 < bp -> (forall y, y ∈ l2 -> bp < y.1) ->
  Q x.1 s -> wp (free_find (headers s) bp (freep s)) Q s.
Proof.
  intros H Hb E Hx H2 HQ. destruct s as [m f sz]. cbn [freep]. pose proof (headers_enough _ _ _ H) as Hh.
  assert (0 <= sz <= 2 ^ 38) as Hsz by (pose proof (v_sz H); pose proof (nodes_length _ _ _ H); cbn in *; lia).
  assert (forall y, y ∈ nodes base L -> 0 < y.1 /\ y.1 + 16 <= sz) as Hacc by (intros y Hy; pose proof (nodes_acc _ _ _ y H Hy); cbn in *; lia).
  pose proof (v_seg H) as Hs. cbn [um] in Hs. assert (incr (base - 1) (nodes base L)) as Hi by (split; [cbn; lia|apply (nodes_incr _ _ _ H)]).
  pose proof (v_base H) as Hb0. pose proof (v_freep H) as Hf. cbn [freep] in Hf.
  rewrite E in *. rewrite length_app in Hh. cbn [length] in Hh. apply list_elem_of_fmap in Hf as (z & -> & Hz).
  apply elem_of_app in Hz as [Hz|[->|Hz]%elem_of_cons].
  - apply list_elem_of_split in Hz as (a & b & ->). rewrite length_app in Hh. cbn [length] in Hh. rewrite <- app_assoc in Hs, Hi, Hacc. cbn [app] in *.
    apply lseg_mid in Hs as (_ & Hsz' & Hs). pose proof (incr_mid _ _ _ _ Hi) as [_ Hi'].
    replace (headers _) with (S (length (z :: b) + (headers (mkUst m z.1 sz) - S (length (z :: b)))))%nat by (cbn [length]; lia).
    destruct (Hacc z) as [Hz1 _]; [rewrite elem_of_app; right; by left|].
    apply (wp_find_fwd m _ sz bp base Hsz Hb (z :: b) (z.1 - 1) _ x l2); [by split|by split; [lia|]| |done|done| |done].
    + pose proof (nodes_acc _ _ _ z H) as Hge. rewrite E in Hge. cbn in Hge. rewrite !elem_of_app in Hge. cbn in Hge. 
      assert (base <= z.1) by (apply Hge; left; right; by left). lia.
    + intros y Hy. apply Hacc. rewrite elem_of_app. by right.
  - apply lseg_mid in Hs as (_ & Hsx & Hs). pose proof (incr_mid _ _ _ _ Hi) as [_ Hi'].
    replace (headers _) with (S (length (@nil block) + (headers (mkUst m x.1 sz) - 1)))%nat by (cbn [length]; lia).
    apply (wp_find_fwd m _ sz bp base Hsz Hb [] (x.1 - 1) _ x l2); [by split|by split; [lia|]| |done|done| |done].
    + pose proof (nodes_acc _ _ _ x H) as Hge. rewrite E in Hge. assert (base <= x.1) by (apply Hge; rewrite elem_of_app; right; by left). lia.
    + intros y Hy. apply Hacc. rewrite elem_of_app. by right.
  - pose proof Hs as Hs0. apply lseg_mid in Hs as (_ & _ & Hs). pose proof (incr_mid _ _ _ _ Hi) as [_ Hi'].
    apply list_elem_of_split in Hz as (a & b & ->). rewrite !length_app in Hh. cbn [length] in Hh. apply lseg_mid in Hs as (_ & Hsz' & Hs).
    replace (headers _) with (length (z :: b) + S (length l1 + (headers (mkUst m z.1 sz) - length (z :: b) - S (length l1))))%nat by (cbn [length]; lia).
    apply (wp_find_back m _ sz bp base Hsz Hb (z :: b) (z.1 - 1)); [by split| |intros y Hy|done| |done].
    + pose proof (incr_mid _ _ _ _ Hi') as [_ Hi'']. by split; [lia|].
    + split; [apply H2|apply Hacc]; rewrite !elem_of_app; [by right|do 2 right; rewrite elem_of_app; by right].
    + apply (wp_find_fwd m _ sz bp base Hsz Hb l1 (base - 1) base x (a ++ z :: b)); try done. lia.
Qed.

(** Writing one header. *)
Lemma header_st m a k v : 0 <= k < 2 ^ 32 -> 0 <= v < 2 ^ 64 ->
  let m' := st64 (st32 m (a + 8) (u32 k)) a v in ld32 m' (a + 8) = k /\ ld64 m' a = v /\ modifies (bytes_of a 16) m m'.
Proof.
  intros Hk Hv m'. unfold m'. rewrite ld32_st64_ne, u32_small, ld32_st32, ld64_st64 by lia. split_and!; [done|done|].
  eapply modifies_trans; [apply modifies_st32|apply modifies_st64]; unfold bytes_of; lia.
Qed.

Lemma link_st m a v : 0 <= v < 2 ^ 64 ->
  ld32 (st64 m a v) (a + 8) = ld32 m (a + 8) /\ ld64 (st64 m a v) a = v /\ modifies (bytes_of a 16) m (st64 m a v).
Proof. intros Hv. rewrite ld32_st64_ne, ld64_st64 by lia. split_and!; [done|done|]. apply modifies_st64. unfold bytes_of. lia. Qed.

Section Join.
Context (f sz : Z) (Hsz : 0 <= sz <= 2 ^ 35) (Hb0 : 0 < base) (Hroom : base + 16 <= sz).

(** The block [b] that [bp] of [kb] units becomes once its right neighbour, the
    head of [l2], is joined to it, with what remains on its right. *)
Definition joined (bp kb : Z) (l2 : list block) (b : block) (R : list block) : Prop :=
  (b = (bp, kb) /\ R = l2) \/ exists ky, l2 = (bp + 16 * kb, ky) :: R /\ b = (bp, kb + ky).

Lemma wp_join_right m bp kb l2 next Q : base + 16 <= bp -> 1 <= kb -> bp + 16 * kb <= sz -> ld32 m (bp + 8) = kb ->
  lseg m next base l2 -> asc (bp + 16 * kb - 1) l2 sz ->
  (forall m1 b R, joined bp kb l2 b R -> ld32 m1 (bp + 8) = b.2 -> lseg m1 (ld64 m1 bp) base R -> asc (fin b) R sz ->
     modifies (bytes_of bp 16) m m1 -> Q tt (mkUst m1 f sz)) ->
  wp (if bp + sizeof_Header * kb =? next then nsize ← get_size next; set_size bp (kb + nsize);; nn ← get_ptr next; set_ptr bp nn else set_ptr bp next)
    Q (mkUst m f sz).
Proof.
  intros Hb Hk Hfit Hs Hl Ha HQ. change sizeof_Header with 16. pose proof (lseg_head _ _ _ _ Hl) as Hn.
  destruct (Z.eqb_spec (bp + 16 * kb) next) as [E|E].
  - destruct l2 as [|[y ky] R]; [lia|]. cbn in Hn. destruct Hl as (_ & Hy & Hl). destruct Ha as (_ & Hky & Ha). cbn in Hy, Hky, Hl. unfold fin in Ha. cbn in Ha.
    pose proof (asc_le _ _ _ Ha) as Hle. rewrite <- Hn, <- E in *. wp_steps. apply wp_get_size; [lia|lia|lia|]. rewrite Hy.
    wp_steps. apply wp_set_size; [lia|lia|lia|]. wp_steps. apply wp_get_ptr; [lia|lia|lia|]. apply wp_set_ptr; [lia|lia|lia|].
    rewrite ld64_st32_ne by lia. pose proof (ld64_bound m (bp + 16 * kb)).
    destruct (header_st m bp (kb + ky) (ld64 m (bp + 16 * kb))) as (H1 & H2 & H3); [lia|done|].
    apply (HQ _ (bp, kb + ky) R); [right; exists ky; by rewrite ?E|done| |unfold fin; cbn; eapply asc_weaken; [| |exact Ha]; lia|done].
    rewrite H2. eapply lseg_frame; [exact H3| |exact Hl]. intros x a Hx Hxa. apply (asc_in _ _ _ _ Ha) in Hx. unfold bytes_of, fin in *. lia.
  - pose proof (ld64_bound m next). assert (0 <= next < 2 ^ 64) as Hn64.
    { destruct l2 as [|y R]; [lia|]. destruct Ha as (? & ? & Ha). apply asc_le in Ha. unfold fin in Ha. lia. }
    apply wp_set_ptr; [lia|lia|lia|]. destruct (link_st m bp next) as (H1 & H2 & H3); [done|].
    apply (HQ _ (bp, kb) l2); [by left|by rewrite H1| | |done].
    + rewrite H2. eapply lseg_frame; [exact H3| |exact Hl]. intros x a Hx Hxa. apply (asc_in _ _ _ _ Ha) in Hx. unfold bytes_of, fin in *. lia.
    + unfold fin. cbn [fst snd]. destruct l2 as [|y R]; [done|]. cbn in Hn. destruct Ha as (? & ? & Ha). split_and!; [lia|done|done].
Qed.

Lemma wp_join_left m x b R Q : base <= x.1 -> x.1 + 16 <= b.1 -> fin x <= b.1 -> 0 <= x.2 -> 1 <= b.2 ->
  ld32 m (x.1 + 8) = x.2 -> ld32 m (b.1 + 8) = b.2 -> lseg m (ld64 m b.1) base R -> asc (fin b) R sz ->
  (forall m2 T, (T = x :: b :: R /\ fin x < b.1) \/ (T = (x.1, x.2 + b.2) :: R /\ fin x = b.1) -> lseg m2 x.1 base T ->
     modifies (bytes_of x.1 16) m m2 -> Q tt (mkUst m2 f sz)) ->
  wp (if x.1 + sizeof_Header * x.2 =? b.1 then bsize ← get_size b.1; set_size x.1 (x.2 + bsize);; nn ← get_ptr b.1; set_ptr x.1 nn else set_ptr x.1 b.1)
    Q (mkUst m f sz).
Proof.
  intros Hx Hxb Hfx Hx2 Hb2 Hxs Hbs Hl Ha HQ. change sizeof_Header with 16. unfold fin in Hfx. pose proof (asc_le _ _ _ Ha) as Hle. unfold fin in Hle.
  assert (forall m', modifies (bytes_of x.1 16) m m' -> lseg m' (ld64 m b.1) base R) as Hfr.
  { intros m' HM. eapply lseg_frame; [exact HM| |exact Hl]. intros y a Hy Hya. apply (asc_in _ _ _ _ Ha) in Hy. unfold bytes_of, fin in *. lia. }
  destruct (Z.eqb_spec (x.1 + 16 * x.2) b.1) as [E|E].
  - wp_steps. apply wp_get_size; [lia|lia|lia|]. rewrite Hbs. wp_steps. apply wp_set_size; [lia|lia|lia|]. wp_steps. apply wp_get_ptr; [lia|lia|lia|].
    apply wp_set_ptr; [lia|lia|lia|]. rewrite ld64_st32_ne by lia. pose proof (ld64_bound m b.1).
    destruct (header_st m x.1 (x.2 + b.2) (ld64 m b.1)) as (H1 & H2 & H3); [lia|done|].
    apply (HQ _ ((x.1, x.2 + b.2) :: R)); [right; split; [done|unfold fin; lia]| |done]. cbn. split_and!; [done|done|]. rewrite H2. by apply Hfr.
  - apply wp_set_ptr; [lia|lia|lia|]. destruct (link_st m x.1 b.1) as (H1 & H2 & H3); [lia|].
    apply (HQ _ (x :: b :: R)); [left; split; [done|unfold fin; lia]| |done]. cbn. rewrite H2. split_and!; [done|by rewrite H1|done| |].
    + rewrite <- Hbs. eapply ld32_modifies; [exact H3|]. unfold bytes_of. lia.
    + replace (ld64 _ b.1) with (ld64 m b.1); [by apply Hfr|]. symmetry. eapply ld64_modifies; [exact H3|]. unfold bytes_of. lia.
Qed.
End Join.

(** Where a held block lies among the free ones. *)
Lemma free_place s L A bp kb : uinv base s L A -> A !! bp = Some kb -> exists l1 x l2, nodes base L = l1 ++ x :: l2 /\
  x.1 + 16 <= bp /\ fin x <= bp /\ 0 <= x.2 /\ (forall y, y ∈ l2 -> bp < y.1) /\ asc (bp + 16 * kb - 1) l2 (u_sz s).
Proof.
  intros H HA. destruct (h_block (v_held H) HA) as (Hb & Hk & Hfit & _). pose proof (v_asc H) as Ha.
  assert (forall y, y ∈ L -> fin y <= bp \/ bp + 16 * kb <= y.1) as Hap by (intros y Hy; destruct (h_free (v_held H) HA Hy) as [E|E]; unfold fin in *; cbn in *; lia).
  destruct (place (base, 0) L bp) as (l1 & x & l2 & E & Hx & H2); [apply (nodes_incr _ _ _ H)|cbn; lia| |].
  { intros (y & Ey & Hy)%list_elem_of_fmap. pose proof (asc_in _ _ _ _ Ha Hy). specialize (Hap y Hy). unfold fin in Hap. lia. }
  exists l1, x, l2. unfold nodes. rewrite E. destruct l1 as [|z l1].
  - injection E as <- ->. cbn in *. split_and!; [done|lia|unfold fin; cbn; lia|lia|done|].
    destruct l2 as [|y l2]; [cbn; lia|]. destruct Ha as (_ & ? & Ha). specialize (H2 y ltac:(by left)). specialize (Hap y ltac:(by left)). unfold fin in Hap. cbn. split_and!; [lia|done|done].
  - injection E as <- ->. apply asc_mid in Ha as (_ & Hx1 & Ha). assert (fin x <= bp) as Hfx by (destruct (Hap x); [rewrite elem_of_app; right; by left|done|lia]).
    split_and!; [done|unfold fin in Hfx; lia|done|lia|done|]. destruct l2 as [|y l2]; [cbn; lia|]. destruct Ha as (_ & ? & Ha).
    assert (y ∈ l1 ++ x :: y :: l2) as Hy by set_solver. specialize (H2 y ltac:(by left)). specialize (Hap y Hy). unfold fin in Hap. cbn. split_and!; [lia|done|done].
Qed.

Lemma apart_join z p k j : 1 <= z.2 -> apart z (p, k) -> apart z (p + 16 * k, j) -> apart z (p, k + j).
Proof. unfold apart, fin. cbn. lia. Qed.

Lemma joined_in bp kb l2 b R : joined bp kb l2 b R -> b.1 = bp /\ kb <= b.2 \/ b.1 = bp /\ exists y, y ∈ l2 /\ b.2 = kb + y.2.
Proof. intros [[-> ->]|(ky & -> & ->)]; cbn; [left; lia|right]. split; [done|]. exists (bp + 16 * kb, ky). split; [by left|done]. Qed.

(** What remains free is apart from the blocks still held. *)
Lemma joined_apart s L A bp kb l1 x l2 b R a k : uinv base s L A -> A !! bp = Some kb -> nodes base L = l1 ++ x :: l2 -> joined bp kb l2 b R ->
  A !! a = Some k -> a <> bp -> apart (a, k) b /\ forall y, y ∈ R -> apart (a, k) y.
Proof.
  intros H Hbp E HJ Ha Hne. destruct (h_block (v_held H) Ha) as (Hb & Hk & _).
  assert (forall y, y ∈ l2 -> y ∈ L) as Hl2 by (intros y Hy; destruct l1; injection E as _ ->; [done|]; rewrite elem_of_app; right; by right).
  pose proof (h_each (v_held H) Ha Hbp Hne) as Hap.
  destruct HJ as [[-> ->]|(ky & -> & ->)].
  - split; [done|]. intros y Hy. apply (h_free (v_held H) Ha). auto.
  - split; [|intros y Hy; apply (h_free (v_held H) Ha), Hl2; by right]. apply apart_join; [done|done|]. apply (h_free (v_held H) Ha), Hl2. by left.
Qed.

(** The state [free] leaves. *)
Lemma uinv_freed m sz f L A bp kb l1 x l2 b R T m2 : uinv base (mkUst m f sz) L A -> A !! bp = Some kb -> nodes base L = l1 ++ x :: l2 ->
  x.1 + 16 <= bp -> joined bp kb l2 b R -> 1 <= b.2 -> asc (fin b) R sz ->
  (T = x :: b :: R /\ fin x < b.1) \/ (T = (x.1, x.2 + b.2) :: R /\ fin x = b.1) -> lseg m2 x.1 base T ->
  modifies (fun a => bytes_of bp 16 a \/ bytes_of x.1 16 a) m m2 ->
  exists L', nodes base L' = l1 ++ T /\ uinv base (mkUst m2 x.1 sz) L' (delete bp A) /\ keeps (delete bp A) m m2.
Proof.
  intros H Hbp E Hx HJ Hb2 HaR HT Hl2 HM.
  assert (b.1 = bp) as Eb by (destruct (joined_in _ _ _ _ _ HJ) as [[? _]|[? _]]; done).
  destruct (h_block (v_held H) Hbp) as (Hbb & Hkb & Hfit & _). pose proof (v_asc H) as Ha. pose proof (v_seg H) as Hs. cbn [um u_sz] in *.
  assert (forall y, y ∈ l1 -> y.1 + 16 <= x.1) as Hl1.
  { intros y Hy. destruct l1 as [|z l1]; [by apply elem_of_nil in Hy|]. injection E as <- ->. apply asc_mid in Ha as (Ha & _ & _).
    apply elem_of_cons in Hy as [->|Hy]; cbn; [apply asc_le in Ha; lia|]. apply (asc_in _ _ _ _ Ha) in Hy. unfold fin in Hy. lia. }
  assert (lseg m2 base base (l1 ++ T)) as Hseg.
  { rewrite E in Hs. apply lseg_mid in Hs as (Hs & _). apply lseg_app. exists x.1. split; [|done].
    eapply lseg_frame; [exact HM| |exact Hs]. intros y a Hy Hya. specialize (Hl1 y Hy). unfold bytes_of. lia. }
  assert (exists L', nodes base L' = l1 ++ T /\ asc (base + 15) L' sz /\ forall y, y ∈ L' -> y ∈ L \/ y = b \/ y ∈ R \/ (x ∈ L /\ fin x = b.1 /\ y = (x.1, x.2 + b.2))) as (L' & EL' & HaL' & HL').
  { destruct l1 as [|z l1].
    - injection E as <- <-. destruct HT as [[-> Hlt]|[_ Heq]]; [|unfold fin in Heq; cbn in *; lia]. exists (b :: R).
      split_and!; [done|cbn; split_and!; [lia|done|done]|]. intros y [->|Hy]%elem_of_cons; auto.
    - injection E as <- ->. apply asc_mid in Ha as (Ha & Hx1 & _). exists (l1 ++ T). split; [done|].
      destruct HT as [[-> Hlt]|[-> Heq]].
      + split; [apply asc_mid; cbn; split_and!; [done|done|done|done|done]|]. intros y. rewrite !elem_of_app, !elem_of_cons. intuition.
      + split; [apply asc_mid; cbn; split_and!; [done|lia|]; unfold fin in *; cbn; replace (x.1 + 16 * (x.2 + b.2)) with (b.1 + 16 * b.2) by lia; done|].
        intros y. rewrite !elem_of_app, !elem_of_cons. intuition. }
  assert (forall a k, delete bp A !! a = Some k -> base + 16 <= a /\ 1 <= k /\ apart (a, k) (bp, kb) /\ (apart (a, k) x \/ x = (base, 0))) as Hout.
  { intros a k [Hne Hk]%lookup_delete_Some. destruct (h_block (v_held H) Hk) as (? & ? & _). split_and!; [done|done|by apply (h_each (v_held H) Hk Hbp)|].
    destruct l1 as [|z l1]; injection E as <- ->; [by right|left]. apply (h_free (v_held H) Hk). rewrite elem_of_app. right. by left. }
  assert (keeps (delete bp A) m m2) as Hkeep.
  { intros a k c Hk Hc. apply HM. destruct (Hout a k Hk) as (? & ? & Hp & Hxx). unfold bytes_of, apart, fin in *. cbn in *.
    destruct Hxx as [Hxx| ->]; [|cbn in *; lia]. destruct l1 as [|z l1]; injection E as <- ->; [cbn in *; lia|]. apply asc_mid in Ha as (_ & ? & _). lia. }
  exists L'. split; [done|]. split; [|done]. split; cbn [um u_sz freep]; [by rewrite EL'|done| |split|apply H|apply H|apply H].
  - rewrite EL', fmap_app. rewrite elem_of_app. right. destruct HT as [[-> _]|[-> _]]; by left.
  - intros a k Hk. pose proof Hk as [Hne Hk']%lookup_delete_Some. destruct (h_block (v_held H) Hk') as (? & ? & ? & E8). split_and!; [done|done|done|].
    rewrite <- E8. apply ld_ext. intros c Hc. eapply Hkeep; [exact Hk|]. cbn in Hc. lia.
  - intros a k y Hk Hy. pose proof Hk as [Hne Hk']%lookup_delete_Some. destruct (joined_apart _ _ _ _ _ _ _ _ _ _ a k H Hbp E HJ Hk' ltac:(done)) as [Hb HR].
    destruct (HL' y Hy) as [Hy'|[->|[Hy'|(Hy' & Ex & ->)]]]; [by apply (h_free (v_held H) Hk')|done|by apply HR|].
    apply apart_join; [by apply Hout in Hk as (_ & ? & _)|pose proof (h_free (v_held H) Hk' Hy') as Hp; by destruct x|]. unfold fin in Ex. rewrite Ex. by destruct b.
  - intros a k c j [_ Hk]%lookup_delete_Some [_ Hj]%lookup_delete_Some. by apply (h_each (v_held H)).
Qed.

Lemma uinv_range s L A : uinv base s L A -> 0 <= u_sz s <= 2 ^ 35.
Proof. intros H. pose proof (v_base H). pose proof (v_room H). pose proof (v_sz H). lia. Qed.

(** [free] of a held block: it is free, joined to its neighbours, and nothing
    another block holds has changed. *)
Lemma wp_free s L A bp kb Q : uinv base s L A -> A !! bp = Some kb ->
  (forall s' L', uinv base s' L' (delete bp A) -> keeps (delete bp A) (um s) (um s') -> u_sz s' = u_sz s ->
     (length L' <= S (length L))%nat -> (exists y, y ∈ L' /\ kb <= y.2) -> Q tt s') ->
  wp (free (bp + 16)) Q s.
Proof.
  intros H Hbp HQ. destruct (free_place s L A bp kb H Hbp) as (l1 & x & l2 & E & Hx & Hfx & Hx2 & Hl2 & Ha2).
  destruct (h_block (v_held H) Hbp) as (Hbb & Hkb & Hfit & Hsb). pose proof (uinv_range _ _ _ H) as Hr.
  destruct (nodes_acc _ _ _ x H) as (Hx0 & Hx16 & Hxb); [rewrite E, elem_of_app; right; by left|].
  pose proof (v_base H) as Hb0. pose proof (v_room H) as Hroom. pose proof (v_seg H) as Hs. rewrite E in Hs. apply lseg_mid in Hs as (_ & Hxs & Hs).
  unfold free. change (bp + 16 - sizeof_Header) with (bp + 16 - 16). replace (bp + 16 - 16) with bp by lia.
  wp_steps. eapply (wp_free_find s L A bp l1 x l2); [done|lia|done|lia|done|].
  destruct s as [m f sz]. cbn [um u_sz] in *. wp_steps. apply wp_get_size; [lia|lia|lia|]. rewrite Hsb. wp_steps. apply wp_get_ptr; [lia|lia|lia|].
  wp_steps. apply (wp_join_right f sz Hr Hb0 Hroom m bp kb l2); try done. intros m1 b R HJ Hb1 HlR HaR HM1.
  assert (b.1 = bp /\ kb <= b.2 /\ (length R <= length l2)%nat) as (Eb & Hb2 & HlenR).
  { destruct HJ as [[-> ->]|(ky & -> & ->)]; cbn; [split_and!; [done|lia|done]|]. destruct Ha2 as (_ & ? & _). cbn in *. split_and!; [done|lia|lia]. }
  assert (ld32 m1 (x.1 + 8) = x.2) as Hxs1 by (rewrite <- Hxs; eapply ld32_modifies; [exact HM1|unfold bytes_of; lia]).
  wp_steps. apply wp_get_size; [lia|lia|lia|]. rewrite Hxs1. wp_steps. subst bp.
  apply (wp_join_left f sz Hr Hb0 m1 x b R); try done; [lia|]. intros m2 T HT HlT HM2. apply wp_modify. cbn [um u_sz].
  destruct (uinv_freed m sz f L A b.1 kb l1 x l2 b R T m2 H Hbp E Hx HJ ltac:(lia) HaR HT HlT) as (L' & EL' & Hi & Hk).
  { eapply modifies_trans; [eapply modifies_weaken; [exact HM1|auto]|eapply modifies_weaken; [exact HM2|auto]]. }
  apply (HQ _ L'); [done|done|done| |].
  - assert (length (nodes base L') <= S (length (nodes base L)))%nat as Hlen; [|cbn in Hlen; lia].
    rewrite EL', E, !length_app. destruct HT as [[-> _]|[-> _]]; cbn [length]; lia.
  - assert (exists y, y ∈ T /\ kb <= y.2) as (y & Hy & Hk2) by (destruct HT as [[-> _]|[-> _]]; [exists b|exists (x.1, x.2 + b.2)]; (split; [set_solver|cbn; lia])).
    exists y. split; [|done]. assert (y ∈ nodes base L') as Hin by (rewrite EL', elem_of_app; by right).
    apply elem_of_cons in Hin as [->|Hin]; [cbn in Hk2; lia|done].
Qed.
End Free.
