(* ===== verification/UmallocThms.v ===== *)
(** * The user allocator: what it promises

    [malloc] returns memory nobody holds or the null pointer when neither the
    free list nor the kernel has room, [free] takes a block back, and blocks in
    use keep their contents; the bound on the request is sharp. *)

From Stdlib Require Import ZArith Lia Bool String.
From stdpp Require Import base gmap list strings.
From S2P Require Import Prelude Mem Kalloc Vm Umalloc UmallocProof.

#[local] Arguments ld64 : simpl never.
#[local] Arguments ld32 : simpl never.
#[local] Arguments st64 : simpl never.
#[local] Arguments st32 : simpl never.

Section Malloc.
Context (base : Z) (grant : Z -> Z -> bool).
(** The pages of a process are pages of the machine, so the kernel does not
    grow one beyond physical memory (128 MB here; 32 GB would do). *)
Hypothesis grant_phys : forall sz newsz, grant sz newsz = true -> newsz <= 2 ^ 35.

(** ** More memory *)

Lemma held_fresh s L A : uinv base s L A -> A !! u_sz s = None.
Proof. intros H. destruct (A !! u_sz s) as [k|] eqn:E; [|done]. pose proof (h_block (v_held H) E). lia. Qed.

(** The process has grown by a block of [nu] units. *)
Lemma uinv_grow m f sz L A nu : uinv base (mkUst m f sz) L A -> 1 <= nu < 2 ^ 32 -> sz + 16 * nu <= 2 ^ 35 ->
  uinv base (mkUst (st32 m (sz + 8) (u32 nu)) f (sz + 16 * nu)) L (<[sz := nu]> A).
Proof.
  intros H Hnu Hsz. pose proof (v_asc H) as Ha. pose proof (v_room H) as Hroom. pose proof (v_held H) as HA. cbn [u_sz um freep] in *.
  assert (modifies (bytes_of (sz + 8) 4) m (st32 m (sz + 8) (u32 nu))) as HM by (apply modifies_st32; unfold bytes_of; lia).
  split; cbn [um u_sz freep]; [| |apply H|split|apply H|lia|lia].
  - eapply lseg_frame; [exact HM| |apply H]. intros x a Hx Hxa. pose proof (nodes_acc base _ _ _ x H Hx) as Hn. cbn in Hn. unfold bytes_of. lia.
  - eapply asc_weaken; [| |exact Ha]; lia.
  - intros a k [[<- <-]|[Hne Hk]]%lookup_insert_Some; [rewrite u32_small, ld32_st32 by lia; lia|].
    destruct (h_block HA Hk) as (? & ? & ? & <-). split_and!; [done|done|lia|]. apply (ld32_modifies _ _ _ _ HM). unfold bytes_of. lia.
  - intros a k x [[<- <-]|[Hne Hk]]%lookup_insert_Some Hx; [|by apply (h_free HA Hk)]. apply (asc_in _ _ _ _ Ha) in Hx. unfold apart, fin in *. cbn. lia.
  - intros a k b j [[<- <-]|[Hne Hk]]%lookup_insert_Some [[<- <-]|[Hne' Hj]]%lookup_insert_Some Hab; [done| | |by apply (h_each HA Hk Hj)].
    + pose proof (h_block HA Hj). unfold apart, fin. cbn. lia.
    + pose proof (h_block HA Hk). unfold apart, fin. cbn. lia.
Qed.

Definition chunk (nu : Z) : Z := 16 * Z.max 4096 nu.
(** The kernel does not extend the process for a request of [nu] units. *)
Definition refused (sz nu : Z) : Prop := TRAPFRAME < sz + chunk nu \/ grant sz (sz + chunk nu) = false.

Lemma wp_morecore s L A nu Q : uinv base s L A -> 1 <= nu -> 16 * nu < 2 ^ 31 ->
  (refused (u_sz s) nu -> Q 0 s) ->
  (forall s' L', uinv base s' L' A -> keeps A (um s) (um s') -> (length L' <= S (length L))%nat -> (exists y, y ∈ L' /\ nu <= y.2) -> Q (freep s') s') ->
  wp (morecore grant nu) Q s.
Proof.
  intros H Hnu Hfit Hno Hyes. unfold morecore, sbrk, sys_sbrk, grow. set (k := if nu <? 4096 then 4096 else nu).
  assert (k = Z.max 4096 nu) as Ek by (unfold k; destruct (Z.ltb_spec nu 4096); lia). change sizeof_Header with 16.
  pose proof (uinv_range _ _ _ _ H) as Hr. rewrite s32_small by lia. wp_steps. cbn [Z.eqb Pos.eqb orb SBRK_EAGER].
  wp_steps. replace (k * 16 >? 0) with true by (rewrite Z.gtb_ltb; lia). rewrite u64_small by lia. rewrite Z.gtb_ltb.
  destruct (Z.ltb_spec TRAPFRAME (u_sz s + k * 16)) as [Ht|Ht].
  { wp_steps. apply Hno. left. unfold chunk. lia. }
  destruct (grant (u_sz s) (u_sz s + k * 16)) eqn:Eg; cbn [negb].
  2:{ wp_steps. apply Hno. right. unfold chunk. by replace (16 * Z.max 4096 nu) with (k * 16) by lia. }
  wp_steps. destruct s as [m f sz]. cbn [u_sz um freep] in *. unfold set_sz. wp_steps. cbn [Z.ltb Z.compare]. wp_steps.
  replace (sz =? -1) with false by lia. wp_steps. pose proof (v_room H) as Hroom. pose proof (v_base H) as Hb0. cbn in Hroom.
  apply grant_phys in Eg as Hg. pose proof (uinv_grow m f sz L A k H ltac:(lia) ltac:(lia)) as Hi. replace (sz + k * 16) with (sz + 16 * k) in * by lia.
  apply wp_set_size; [lia|lia|lia|]. wp_steps.
  apply (wp_free base _ _ _ sz k _ Hi (lookup_insert_eq _ _ _)). intros s' L' Hi' Hk Hs Hl (y & Hy & Hky). wp_steps.
  rewrite delete_insert_id in Hi', Hk by apply (held_fresh _ _ _ H).
  apply (Hyes _ L'); [done| |done|exists y; split; [done|lia]].
  intros a j c Ha Hc. rewrite (Hk a j c Ha Hc). cbn [um]. apply (modifies_st32 (bytes_of (sz + 8) 4)); [unfold bytes_of; lia|].
  pose proof (h_block (v_held H) Ha) as Hab. cbn in Hab. unfold bytes_of. lia.
Qed.

(** ** Taking a block *)

(** The free block [x] gives up its last [n] units, or all of them. *)
Lemma uinv_take m m' f sz L L' A n l1 v x l2 T a : uinv base (mkUst m f sz) L A -> 1 <= n -> nodes base L = l1 ++ v :: x :: l2 ->
  nodes base L' = l1 ++ v :: T ++ l2 -> a = x.1 + 16 * (x.2 - n) -> (T = [] /\ x.2 = n) \/ (T = [(x.1, x.2 - n)] /\ n < x.2) ->
  lseg m' base base (nodes base L') -> ld32 m' (a + 8) = n -> keeps A m m' ->
  A !! a = None /\ uinv base (mkUst m' v.1 sz) L' (<[a := n]> A).
Proof.
  intros H Hn E E' -> HT Hs Ha8 Hk. pose proof (v_asc H) as Ha. pose proof (v_held H) as HA. cbn [um u_sz freep] in *.
  assert (x ∈ L) as HxL by (destruct l1; injection E as _ ->; set_solver). pose proof (asc_in _ _ _ _ Ha HxL) as Hx. unfold fin in Hx.
  assert (forall b j, A !! b = Some j -> apart (b, j) x) as Hap by (intros b j Hb; by apply (h_free HA Hb)).
  assert (A !! (x.1 + 16 * (x.2 - n)) = None) as Hnone.
  { destruct (A !! _) as [j|] eqn:Ej; [|done]. pose proof (h_block HA Ej). specialize (Hap _ _ Ej). unfold apart, fin in Hap. cbn in Hap. lia. }
  assert (exists p1, L = p1 ++ x :: l2 /\ L' = p1 ++ T ++ l2) as (p1 & EL & EL').
  { destruct l1 as [|z l1]; injection E as <- ->; injection E' as ->; [by exists []|]. exists (l1 ++ [v]). by rewrite <- !app_assoc. }
  rewrite EL in Ha. apply asc_mid in Ha as (Ha1 & _ & Ha2). unfold fin in Ha2.
  assert (asc (base + 15) L' sz) as HaL'.
  { rewrite EL'. destruct HT as [[-> Ex]|[-> Ex]]; cbn [app].
    - clear -Ha1 Ha2 Hn Ex. revert Ha1. generalize (base + 15). induction p1 as [|z p1 IH]; intros lo; cbn [asc app]; [intros; eapply asc_weaken; [| |exact Ha2]; lia|].
      intros (? & ? & ?). auto.
    - apply asc_mid. cbn. split_and!; [done|lia|]. eapply asc_weaken; [| |exact Ha2]; unfold fin; cbn; lia. }
  assert (forall y, y ∈ L' -> (y ∈ L /\ (fin y < x.1 \/ x.1 + 16 * x.2 < y.1)) \/ (y = (x.1, x.2 - n) /\ n < x.2)) as HL'.
  { intros y. rewrite EL', EL, !elem_of_app. intros [Hy|[Hy|Hy]].
    - left. split; [by left|]. apply (asc_in _ _ _ _ Ha1) in Hy. lia.
    - right. destruct HT as [[-> Ex]|[-> Ex]]; [by apply elem_of_nil in Hy|]. by apply list_elem_of_singleton in Hy as ->.
    - left. split; [right; by right|]. apply (asc_in _ _ _ _ Ha2) in Hy. lia. }
  split; [done|]. split; cbn [um u_sz freep]; [done|done| |split|apply H|apply H|apply H].
  - rewrite E'. rewrite fmap_app. rewrite elem_of_app. right. by left.
  - intros b j [[<- <-]|[Hne Hb]]%lookup_insert_Some; [lia|]. destruct (h_block HA Hb) as (? & ? & ? & <-). split_and!; [done|done|done|].
    apply ld_ext. intros c Hc. eapply Hk; [exact Hb|]. cbn in Hc. lia.
  - intros b j y [[<- <-]|[Hne Hb]]%lookup_insert_Some Hy.
    + unfold apart, fin in *. cbn. destruct (HL' y Hy) as [[_ Hy']|[-> Hlt]]; cbn in *; lia.
    + destruct (HL' y Hy) as [[Hy' _]|[-> Hlt]]; [by apply (h_free HA Hb)|]. specialize (Hap b j Hb). unfold apart, fin in *. cbn in *. lia.
  - intros b j c i [[<- <-]|[Hne Hb]]%lookup_insert_Some [[<- <-]|[Hne' Hc]]%lookup_insert_Some Hbc; [done| | |by apply (h_each HA Hb Hc)].
    + specialize (Hap c i Hc). unfold apart, fin in *. cbn in *. lia.
    + specialize (Hap b j Hb). unfold apart, fin in *. cbn in *. lia.
Qed.

(** Headers on the list are apart from each other and from blocks in use. *)
Lemma nodes_sep s L A u y w : uinv base s L A -> nodes base L = u ++ y :: w -> (forall z, z ∈ u -> z.1 + 16 <= y.1) /\ (forall z, z ∈ w -> y.1 + 16 <= z.1).
Proof.
  intros H E. pose proof (v_asc H) as Ha. destruct u as [|t u]; injection E as <- ->.
  - split; [by intros z ?%elem_of_nil|]. intros z Hz. apply (asc_in _ _ _ _ Ha) in Hz. cbn. lia.
  - apply asc_mid in Ha as (H1 & Hy & H2). split.
    + intros z [->|Hz]%elem_of_cons; cbn; [apply asc_le in H1; lia|]. apply (asc_in _ _ _ _ H1) in Hz. unfold fin in Hz. lia.
    + intros z Hz. apply (asc_in _ _ _ _ H2) in Hz. unfold fin in Hz. lia.
Qed.

Lemma node_out s L A y a k : uinv base s L A -> y ∈ nodes base L -> A !! a = Some k -> y.1 + 16 <= a \/ a + 16 * k <= y.1.
Proof.
  intros H Hy Ha. destruct (h_block (v_held H) Ha) as (? & ? & _). apply elem_of_cons in Hy as [->|Hy]; cbn; [lia|].
  pose proof (h_free (v_held H) Ha Hy) as Hap. apply (asc_in _ _ _ _ (v_asc H)) in Hy. unfold apart, fin in *. cbn in *. lia.
Qed.

(** What is known around the block [x] after the node [v]. *)
Lemma take_facts s L A l1 v x l2 : uinv base s L A -> nodes base L = l1 ++ v :: x :: l2 ->
  (0 < v.1 /\ v.1 + 16 <= x.1 /\ 1 <= x.2 /\ fin x <= u_sz s) /\ x ∈ L /\ v ∈ nodes base L /\ (forall z, z ∈ l1 -> z.1 + 16 <= v.1) /\ (forall z, z ∈ l2 -> fin x < z.1) /\
  lseg (um s) base v.1 l1 /\ ld32 (um s) (v.1 + 8) = v.2 /\ ld64 (um s) v.1 = x.1 /\ ld32 (um s) (x.1 + 8) = x.2 /\ lseg (um s) (ld64 (um s) x.1) base l2.
Proof.
  intros H E. assert (v ∈ nodes base L) as HvN by (rewrite E; set_solver). pose proof (nodes_acc _ _ _ _ _ H HvN) as (Hv0 & _ & _).
  destruct (nodes_sep _ _ _ _ _ _ H E) as [Sv1 Sv2]. pose proof (Sv2 x ltac:(by left)) as Hvx.
  pose proof (v_seg H) as Hs. rewrite E in Hs. apply lseg_mid in Hs as (Hs1 & Hsv & Hvn & Hsx & Hs2).
  assert (exists p1, L = p1 ++ x :: l2) as [p1 EL].
  { destruct l1 as [|z l1]; injection E as _ ->; [by exists []|]. exists (l1 ++ [v]). by rewrite <- app_assoc. }
  pose proof (v_asc H) as Ha. assert (x ∈ L) as HxL by (rewrite EL; set_solver). pose proof (asc_in _ _ _ _ Ha HxL) as (_ & Hx1 & Hxf).
  rewrite EL in Ha. apply asc_mid in Ha as (_ & _ & Ha2). split_and!; try done. intros z Hz. by apply (asc_in _ _ _ _ Ha2) in Hz as [Hz _].
Qed.

(** The block has exactly the size: the node before it takes over its link. *)
Lemma wp_take_all s L A l1 v x l2 Q : uinv base s L A -> nodes base L = l1 ++ v :: x :: l2 ->
  (forall s' L' a, A !! a = None -> uinv base s' L' (<[a := x.2]> A) -> keeps A (um s) (um s') -> Q (a + 16) s') ->
  wp (n ← get_ptr x.1; set_ptr v.1 n;; set_freep v.1;; mret (x.1 + 16)) Q s.
Proof.
  intros H E HQ. destruct (take_facts _ _ _ _ _ _ _ H E) as ((Hv0 & Hvx & Hx1 & Hxf) & HxL & HvN & Sv & Sx & Hs1 & Hsv & Hvn & Hsx & Hs2).
  pose proof (uinv_range _ _ _ _ H) as Hr. unfold fin in *. destruct s as [m f sz]. cbn [um u_sz freep] in *.
  wp_steps. apply wp_get_ptr; [lia|lia|lia|]. wp_steps. apply wp_set_ptr; [lia|lia|lia|]. unfold set_freep. wp_steps. cbn [um u_sz].
  destruct (link_st m v.1 (ld64 m x.1) (ld64_bound _ _)) as (E8 & E0 & HM).
  assert (exists L', nodes base L' = l1 ++ v :: [] ++ l2) as [L' EL'] by (destruct l1 as [|z l1]; injection E as <- _; eexists; reflexivity).
  assert (keeps A m (st64 m v.1 (ld64 m x.1))) as Hk.
  { intros a k c Ha Hc. apply HM. pose proof (node_out _ _ _ _ _ _ H HvN Ha). unfold bytes_of. lia. }
  destruct (uinv_take m (st64 m v.1 (ld64 m x.1)) f sz L L' A x.2 l1 v x l2 [] x.1 H Hx1 E EL' ltac:(lia) ltac:(by left)) as [HN Hi]; [| |done|].
  - rewrite EL'. apply lseg_mid. cbn [app]. rewrite E8, E0. split_and!; [|done|].
    + eapply lseg_frame; [exact HM| |exact Hs1]. intros z c Hz Hc. specialize (Sv z Hz). unfold bytes_of. lia.
    + eapply lseg_frame; [exact HM| |exact Hs2]. intros z c Hz Hc. specialize (Sx z Hz). unfold bytes_of. lia.
  - rewrite <- Hsx. apply (ld32_modifies _ _ _ _ HM). unfold bytes_of. lia.
  - by apply (HQ _ L').
Qed.

(** The block is larger: its tail is cut off. *)
Lemma wp_take_tail s L A n l1 v x l2 Q : uinv base s L A -> 1 <= n < x.2 -> nodes base L = l1 ++ v :: x :: l2 ->
  (forall s' L' a, A !! a = None -> uinv base s' L' (<[a := n]> A) -> keeps A (um s) (um s') -> Q (a + 16) s') ->
  wp (set_size x.1 (x.2 - n);; size ← get_size x.1; set_size (x.1 + 16 * size) n;; set_freep v.1;; mret (x.1 + 16 * size + 16)) Q s.
Proof.
  intros H Hn E HQ. destruct (take_facts _ _ _ _ _ _ _ H E) as ((Hv0 & Hvx & Hx1 & Hxf) & HxL & HvN & Sv & Sx & Hs1 & Hsv & Hvn & Hsx & Hs2).
  pose proof (uinv_range _ _ _ _ H) as Hr. unfold fin in *. destruct s as [m f sz]. cbn [um u_sz freep] in *.
  wp_steps. apply wp_set_size; [lia|lia|lia|]. wp_steps. apply wp_get_size; [lia|lia|lia|]. rewrite u32_small, ld32_st32 by lia.
  wp_steps. apply wp_set_size; [lia|lia|lia|]. unfold set_freep. wp_steps. cbn [um u_sz]. set (a := x.1 + 16 * (x.2 - n)). rewrite u32_small by lia.
  set (m' := st32 (st32 m (x.1 + 8) (x.2 - n)) (a + 8) n).
  assert (modifies (fun c => bytes_of (x.1 + 8) 4 c \/ bytes_of (a + 8) 4 c) m m') as HM.
  { eapply modifies_trans; [apply modifies_st32|apply modifies_st32]; unfold bytes_of; lia. }
  assert (exists L', nodes base L' = l1 ++ v :: [(x.1, x.2 - n)] ++ l2) as [L' EL'] by (destruct l1 as [|z l1]; injection E as <- _; eexists; reflexivity).
  assert (keeps A m m') as Hk.
  { intros b k c Hb Hc. apply HM. pose proof (h_free (v_held H) Hb HxL) as Hap. pose proof (h_block (v_held H) Hb). unfold apart, fin, bytes_of, a in *. cbn in *. lia. }
  destruct (uinv_take m m' f sz L L' A n l1 v x l2 [(x.1, x.2 - n)] a H ltac:(lia) E EL' eq_refl ltac:(right; split; [done|lia])) as [HN Hi]; [| |done|].
  - rewrite EL'. apply lseg_mid. cbn [app lseg fst snd]. split_and!.
    + eapply lseg_frame; [exact HM| |exact Hs1]. intros z c Hz Hc. specialize (Sv z Hz). unfold bytes_of, a. lia.
    + rewrite <- Hsv. apply (ld32_modifies _ _ _ _ HM). unfold bytes_of, a. lia.
    + rewrite <- Hvn. apply (ld64_modifies _ _ _ _ HM). unfold bytes_of, a. lia.
    + unfold m'. rewrite ld32_st32_ne, ld32_st32 by (unfold a; lia). done.
    + replace (ld64 m' x.1) with (ld64 m x.1) by (symmetry; apply (ld64_modifies _ _ _ _ HM); unfold bytes_of, a; lia).
      eapply lseg_frame; [exact HM| |exact Hs2]. intros z c Hz Hc. specialize (Sx z Hz). unfold bytes_of, a. lia.
  - unfold m'. by rewrite ld32_st32 by lia.
  - by apply (HQ _ L').
Qed.

Lemma wp_cut_block s L A n l1 v x l2 Q : uinv base s L A -> 1 <= n <= x.2 -> nodes base L = l1 ++ v :: x :: l2 ->
  (forall s' L' a, A !! a = None -> uinv base s' L' (<[a := n]> A) -> keeps A (um s) (um s') -> Q (a + 16) s') ->
  wp (take_block n v.1 x.1) Q s.
Proof.
  intros H Hn E HQ. destruct (take_facts _ _ _ _ _ _ _ H E) as ((Hv0 & Hvx & Hx1 & Hxf) & _ & _ & _ & _ & _ & _ & _ & Hsx & _).
  pose proof (uinv_range _ _ _ _ H) as Hr. unfold fin in Hxf. unfold take_block. change sizeof_Header with 16.
  apply wp_bind. destruct s as [m f sz]. cbn [um u_sz] in *. apply wp_get_size; [lia|lia|lia|]. rewrite Hsx. destruct (Z.eqb_spec x.2 n) as [<-|Ex].
  - by eapply wp_take_all.
  - eapply (wp_take_tail _ _ _ n); [exact H|lia|exact E|exact HQ].
Qed.

(** ** The search *)

(** The loop of [malloc] on the rest [l] of the circle that ends at [fn], the
    node [freep] points to. *)
Lemma wp_scan m sz n (fn : block) whole l u v p seen fuel Q : 0 <= sz <= 2 ^ 35 -> whole = u ++ v :: l ++ [fn] -> lseg m p fn.1 l -> ld32 m (fn.1 + 8) = fn.2 ->
  (forall z, z ∈ l ++ [fn] -> 0 < z.1 /\ z.1 + 16 <= sz) -> (forall z, z ∈ l -> z.1 <> fn.1) -> (forall z, z ∈ seen -> z.2 < n) ->
  (forall u v x w, whole = u ++ v :: x :: w -> n <= x.2 -> wp (take_block n v.1 x.1) Q (mkUst m fn.1 sz)) ->
  ((forall z, z ∈ seen ++ l ++ [fn] -> z.2 < n) ->
     wp (p ← morecore grant n; if p =? 0 then mret 0 else k ← get_ptr p; malloc_loop grant fuel n p k) Q (mkUst m fn.1 sz)) ->
  wp (malloc_loop grant (length l + S fuel) n v.1 p) Q (mkUst m fn.1 sz).
Proof.
  intros Hr HW Hl Hfn Hacc Hne Hseen Hfound Hnone. revert u v p seen HW Hl Hseen Hnone. induction l as [|y l IH]; intros u v p seen HW Hl Hseen Hnone.
  - cbn in Hl. subst p. destruct (Hacc fn) as [Ha Hb]; [by left|]. cbn [length Nat.add malloc_loop]. wp_steps. apply wp_get_size; [lia|done|done|]. rewrite Hfn.
    rewrite Z.geb_leb. destruct (Z.leb_spec n fn.2) as [Hle|Hlt]; [by eapply (Hfound u v fn [])|]. wp_steps. rewrite Z.eqb_refl. apply Hnone.
    cbn [app]. intros z. rewrite elem_of_app, list_elem_of_singleton. intros [Hz| ->]; [auto|done].
  - destruct Hl as (-> & Hy & Hl). destruct (Hacc y) as [Ha Hb]; [by left|]. cbn [length Nat.add malloc_loop]. wp_steps. apply wp_get_size; [lia|done|done|]. rewrite Hy.
    rewrite Z.geb_leb. destruct (Z.leb_spec n y.2) as [Hle|Hlt]; [by eapply (Hfound u v y)|]. wp_steps. cbn [freep].
    replace (y.1 =? fn.1) with false by (specialize (Hne y ltac:(by left)); lia). wp_steps. apply wp_get_ptr; [lia|done|done|].
    apply (IH ltac:(set_solver) ltac:(set_solver) (u ++ [v]) y _ (seen ++ [y])); [by rewrite <- app_assoc|done|set_solver|].
    intros Hsm. apply Hnone. intros z Hz. apply Hsm. rewrite <- app_assoc. exact Hz.
Qed.

(** Neighbours on the circle are neighbours on the list, but for the step back
    to [base]. *)
Lemma circle L fn N1 N2 u v x w : nodes base L = N1 ++ fn :: N2 -> fn :: (N2 ++ N1) ++ [fn] = u ++ v :: x :: w -> 1 <= x.2 ->
  exists a b, nodes base L = a ++ v :: x :: b.
Proof.
  intros E EC Hx. assert (forall t, N1 ++ [fn] = x :: t -> False) as Hhead.
  { intros t Et. assert (nodes base L = (N1 ++ [fn]) ++ N2) as E' by (by rewrite <- app_assoc). rewrite Et in E'. injection E' as <- _. cbn in Hx. lia. }
  assert ((fn :: N2) ++ (N1 ++ [fn]) = (u ++ [v]) ++ (x :: w)) as EC' by (rewrite <- app_assoc in EC; rewrite <- (app_assoc u); exact EC).
  apply app_eq_inv in EC' as [(k & E1 & E2)|(k & E1 & E2)].
  - destruct k as [|y k]; [by destruct (Hhead w)|]. injection E2 as <- ->. exists (N1 ++ u), k. rewrite E, E1, <- !app_assoc. done.
  - destruct (list_case_last k) as [->|(k' & z & ->)]; [by destruct (Hhead w)|].
    rewrite app_assoc in E1. apply app_inj_tail in E1 as [_ <-]. exists k', (w ++ N2).
    replace (N1 ++ fn :: N2) with ((N1 ++ [fn]) ++ N2) in E by (by rewrite <- app_assoc). rewrite E, E2, <- !app_assoc. done.
Qed.

Lemma wp_search s L A n N1 fn N2 fuel Q : uinv base s L A -> 1 <= n -> nodes base L = N1 ++ fn :: N2 -> freep s = fn.1 ->
  (forall s' L' a, A !! a = None -> uinv base s' L' (<[a := n]> A) -> keeps A (um s) (um s') -> Q (a + 16) s') ->
  ((forall z, z ∈ L -> z.2 < n) -> wp (p ← morecore grant n; if p =? 0 then mret 0 else k ← get_ptr p; malloc_loop grant fuel n p k) Q s) ->
  wp (malloc_loop grant (length L + S fuel) n fn.1 (ld64 (um s) fn.1)) Q s.
Proof.
  intros H Hn E Hf HQ Hnone. pose proof (uinv_range _ _ _ _ H) as Hr. pose proof (nodes_sep _ _ _ _ _ _ H E) as [S1 S2].
  pose proof (v_seg H) as Hs. rewrite E in Hs. apply lseg_mid in Hs as (Hs1 & Hfn & Hs2).
  assert (length (N2 ++ N1) = length L) as <-.
  { assert (length (nodes base L) = length (N1 ++ fn :: N2)) as El by (by rewrite E). rewrite length_app in El |- *. cbn in El. lia. }
  destruct s as [m f sz]. cbn [um freep u_sz] in *. subst f.
  apply (wp_scan m sz n fn (fn :: (N2 ++ N1) ++ [fn]) (N2 ++ N1) [] fn _ []); [done|done|apply lseg_app; eauto|done| | | | |].
  - intros z Hz. assert (z ∈ nodes base L) as HzN by (rewrite E; set_solver). pose proof (nodes_acc _ _ _ _ _ H HzN) as Ha. cbn in Ha. lia.
  - intros z [Hz|Hz]%elem_of_app; [specialize (S2 z Hz)|specialize (S1 z Hz)]; lia.
  - by intros z ?%elem_of_nil.
  - intros u v x w EC Hx. destruct (circle L fn N1 N2 u v x w E EC ltac:(lia)) as (a & b & Eab). by eapply wp_cut_block.
  - intros Hsm. apply Hnone. intros z Hz. apply Hsm. assert (z ∈ nodes base L) as HzN by (by right). rewrite E in HzN. set_solver.
Qed.

(** The allocator before its first call, or in use. *)
Definition heap (s : ust) (L : list block) (A : gmap Z Z) : Prop :=
  (freep s = 0 /\ L = [] /\ A = ∅ /\ 0 < base /\ base + 16 <= u_sz s <= 2 ^ 35) \/ uinv base s L A.

Lemma keeps_trans A m1 m2 m3 : keeps A m1 m2 -> keeps A m2 m3 -> keeps A m1 m3.
Proof. intros H1 H2 a k x Ha Hx. by rewrite (H2 a k x Ha Hx), (H1 a k x Ha Hx). Qed.

(** The search with [malloc]'s bound, the kernel's help included. *)
Lemma wp_malloc_loop s L A n Q : uinv base s L A -> 1 <= n -> 16 * n < 2 ^ 31 ->
  (forall s' L' a, A !! a = None -> uinv base s' L' (<[a := n]> A) -> keeps A (um s) (um s') -> Q (a + 16) s') ->
  (refused (u_sz s) n -> (forall z, z ∈ L -> z.2 < n) -> Q 0 s) ->
  wp (p ← get_ptr (freep s); fuel ← gets headers; malloc_loop grant (S (2 * fuel)) n (freep s) p) Q s.
Proof.
  intros H Hn Hfit HQ Hno. pose proof (v_freep H) as Hf. apply list_elem_of_fmap in Hf as (fn & Ef & Hfn). apply list_elem_of_split in Hfn as (N1 & N2 & E).
  destruct (nodes_acc _ _ _ _ fn H) as (Hf0 & Hf16 & _); [rewrite E; set_solver|]. pose proof (uinv_range _ _ _ _ H) as Hr.
  rewrite Ef. wp_steps. assert (s = mkUst (um s) (freep s) (u_sz s)) as Es by (by destruct s). rewrite Es at 1. apply wp_get_ptr; [lia|lia|lia|]. rewrite <- Es.
  wp_steps. pose proof (headers_enough _ _ _ _ H) as Hh. cbn [nodes length] in Hh.
  replace (S (2 * headers s)) with (length L + S (2 * headers s - length L))%nat by lia.
  eapply (wp_search s L A n N1 fn N2); [done|done|done|done|done|]. intros Hsm. apply wp_bind.
  apply (wp_morecore s L A n); [done|done|done|intros Href; cbn; apply Hno; done|]. intros s2 L2 H2 Hk2 Hl2 (y & Hy & Hny).
  pose proof (v_freep H2) as Hf2. apply list_elem_of_fmap in Hf2 as (g & Eg & Hg). destruct (nodes_acc _ _ _ _ g H2 Hg) as (Hg0 & Hg16 & _).
  pose proof (uinv_range _ _ _ _ H2) as Hr2. apply list_elem_of_split in Hg as (M1 & M2 & E2).
  rewrite Eg. replace (g.1 =? 0) with false by lia. wp_steps. assert (s2 = mkUst (um s2) (freep s2) (u_sz s2)) as Es2 by (by destruct s2). rewrite Es2 at 1.
  apply wp_get_ptr; [lia|lia|lia|]. rewrite <- Es2.
  replace (2 * headers s - length L)%nat with (length L2 + S (2 * headers s - length L - length L2 - 1))%nat by lia.
  eapply (wp_search s2 L2 A n M1 g M2); [done|done|done|done| |].
  - intros s' L' a Ha Hi Hk. eapply HQ; [done|done|by eapply keeps_trans].
  - intros Hsm2. specialize (Hsm2 y Hy). lia.
Qed.

Lemma units_bound nbytes : 0 <= nbytes <= 2 ^ 31 - 32 -> 1 <= units nbytes /\ 16 * units nbytes < 2 ^ 31 /\ nbytes <= 16 * units nbytes - 16.
Proof. intros Hn. unfold units. change sizeof_Header with 16. rewrite u32_small by zdiv. zdiv. Qed.

Lemma uinv_start m sz : 0 < base -> base + 16 <= sz <= 2 ^ 35 -> uinv base (mkUst (st32 (st64 m base base) (base + 8) (u32 0)) base sz) [] ∅.
Proof.
  intros Hb Hs. split; cbn [um u_sz freep]; [|cbn; lia|by left|split; intros ? ?; by rewrite lookup_empty|done|lia|lia].
  rewrite u32_small by lia. cbn. rewrite ld32_st32, ld64_st32_ne, ld64_st64 by lia. done.
Qed.

(** What a call of [malloc] leaves. *)
Definition malloc_post (s : ust) (L : list block) (A : gmap Z Z) (nbytes r : Z) (s' : ust) : Prop :=
  keeps A (um s) (um s') /\
  ((r = 0 /\ heap s' L A /\ refused (u_sz s) (units nbytes) /\ forall z, z ∈ L -> z.2 < units nbytes) \/
   exists a L', r = a + 16 /\ A !! a = None /\ nbytes <= 16 * units nbytes - 16 /\ uinv base s' L' (<[a := units nbytes]> A)).

Lemma wp_malloc s L A nbytes : heap s L A -> 0 <= nbytes <= 2 ^ 31 - 32 -> wp (malloc base grant nbytes) (malloc_post s L A nbytes) s.
Proof.
  intros H Hn. destruct (units_bound nbytes Hn) as (Hu1 & Hu2 & Hu3). unfold malloc. wp_steps. destruct H as [(Hf & -> & -> & Hb & Hs)|H].
  - rewrite Hf. cbn [Z.eqb]. destruct s as [m f sz]. cbn [freep u_sz] in *. unfold set_freep. wp_steps. cbn [um u_sz].
    apply wp_set_ptr; [lia|lia|lia|]. apply wp_set_size; [lia|lia|lia|]. apply wp_bind, wp_gets. pose proof (uinv_start m sz Hb Hs) as Hi.
    apply (wp_malloc_loop _ [] ∅ (units nbytes)); [done|done|done| |].
    + intros s' L' a Ha Hi' Hk. split; [by intros b k x ?%lookup_empty_Some|]. right. eauto 10.
    + intros Href _. split; [by intros b k x ?%lookup_empty_Some|]. left. split_and!; [done|by right|done|by intros z ?%elem_of_nil].
  - assert (freep s <> 0) as Hf.
    { pose proof (v_freep H) as Hf. apply list_elem_of_fmap in Hf as (y & Ey & Hy). pose proof (nodes_acc _ _ _ _ y H Hy). lia. }
    replace (freep s =? 0) with false by lia. apply wp_ret, wp_bind, wp_gets. apply (wp_malloc_loop s L A (units nbytes)); [done|done|done| |].
    + intros s' L' a Ha Hi' Hk. split; [done|]. right. eauto 10.
    + intros Href Hsm. split; [by intros b k x _ _|]. left. split_and!; [done|by right|done|done].
Qed.

(** ** Programs that use the allocator *)

(** Requests, releases and stores of a program, which names the blocks it
    holds by their place in a list of pointers and expected contents. *)
Inductive uop := UMalloc (n : Z) | UFree (i : nat) | UStore (i : nat) (off v : Z).

Definition client (o : uop) (live : list (Z * list Z)) : M ust (list (Z * list Z)) :=
  match o with
  | UMalloc n =>
      p ← malloc base grant n;
      if p =? 0 then mret live else s ← get; mret (live ++ [(p, contents (um s) p n)])
  | UFree i =>
      match live !! i with
      | Some (p, _) => free p;; mret (delete i live)
      | None => mret live
      end
  | UStore i off v =>
      match live !! i with
      | Some (p, d) =>
          if (0 <=? off) && (off <? Z.of_nat (length d)) then
            modify (fun s => mkUst (stb (um s) (p + off) v) (freep s) (u_sz s));;
            mret (<[i := (p, <[Z.to_nat off := v mod 256]> d)]> live)
          else mret live
      | None => mret live
      end
  end.

Fixpoint program (ops : list uop) (live : list (Z * list Z)) : M ust (list (Z * list Z)) :=
  match ops with [] => mret live | o :: ops => live ← client o live; program ops live end.

Definition modest (o : uop) : Prop := match o with UMalloc n => 0 <= n <= 2 ^ 31 - 32 | _ => True end.

(** The program's pointers are blocks in use, with the contents it expects. *)
Definition owns (s : ust) (A : gmap Z Z) (live : list (Z * list Z)) : Prop :=
  NoDup live.*1 /\ forall p d, (p, d) ∈ live -> exists k, A !! (p - 16) = Some k /\ Z.of_nat (length d) <= 16 * k - 16 /\ contents (um s) p (Z.of_nat (length d)) = d.

Lemma owns_keeps s s' A live : owns s A live -> keeps A (um s) (um s') -> owns s' A live.
Proof.
  intros [Hnd H] Hk. split; [done|]. intros p d Hp. destruct (H p d Hp) as (k & Hk1 & Hk2 & Hk3). exists k. split_and!; [done|done|].
  rewrite <- Hk3 at 2. apply contents_ext. intros x Hx. eapply Hk; [exact Hk1|lia].
Qed.

Lemma owns_new s A live a k n : owns s A live -> A !! a = None -> 0 <= n <= 16 * k - 16 ->
  owns s (<[a := k]> A) (live ++ [(a + 16, contents (um s) (a + 16) n)]).
Proof.
  intros [Hnd H] Ha Hn. assert (forall p d, (p, d) ∈ live -> p - 16 <> a) as Hne by (intros p d Hp E; destruct (H p d Hp) as (j & Hj & _); rewrite E in Hj; congruence). split.
  - rewrite fmap_app. apply list.NoDup_app. split_and!; [done| |apply list.NoDup_singleton]. cbn. intros p Hp ->%list_elem_of_singleton.
    apply list_elem_of_fmap in Hp as ([p d] & Ep & Hp). cbn in Ep. subst p. apply (Hne _ _ Hp). lia.
  - intros p d [Hp|Hp%list_elem_of_singleton]%elem_of_app.
    + rewrite lookup_insert_ne by (symmetry; by eapply Hne). by apply H.
    + injection Hp as -> ->. exists k. replace (a + 16 - 16) with a by lia. rewrite contents_length by lia. split_and!; [by rewrite lookup_insert_eq|lia|done].
Qed.

Lemma owns_delete s A live i p d : owns s A live -> live !! i = Some (p, d) -> owns s (delete (p - 16) A) (delete i live).
Proof.
  intros [Hnd H] Hi. rewrite <- (take_drop_middle _ _ _ Hi) in Hnd. rewrite fmap_app in Hnd. cbn in Hnd.
  rewrite delete_take_drop. split.
  - rewrite fmap_app. rewrite <- Permutation_middle in Hnd. apply list.NoDup_cons in Hnd as [_ Hnd]. done.
  - intros q e Hq. destruct (H q e) as (k & Hk & Hk2).
    { rewrite <- (take_drop_middle _ _ _ Hi). apply elem_of_app in Hq as [Hq|Hq]; rewrite elem_of_app; [by left|right; by right]. }
    exists k. split; [|done]. rewrite lookup_delete_ne; [done|]. intros E. rewrite <- Permutation_middle in Hnd. apply list.NoDup_cons in Hnd as [Hn _].
    apply Hn. assert (p = q) as -> by lia. rewrite <- fmap_app. apply list_elem_of_fmap. by exists (q, e).
Qed.

(** A store into a block in use. *)
Lemma uinv_store m f sz L A a k x v : uinv base (mkUst m f sz) L A -> A !! a = Some k -> a + 16 <= x < a + 16 * k -> uinv base (mkUst (stb m x v) f sz) L A.
Proof.
  intros H Ha Hx. assert (modifies (fun y => y = x) m (stb m x v)) as HM by (by apply modifies_stb).
  split; cbn [um u_sz freep]; try apply H; [|split; try apply (v_held H)].
  - eapply lseg_frame; [exact HM| |apply H]. intros y c Hy Hc ->. pose proof (node_out _ _ _ _ _ _ H Hy Ha). lia.
  - intros b j Hb. destruct (h_block (v_held H) Hb) as (? & ? & ? & E8). split_and!; [done|done|done|]. rewrite <- E8. apply (ld32_modifies _ _ _ _ HM).
    intros c Hc ->. destruct (decide (a = b)) as [<-|Hne]; [assert (k = j) as -> by congruence; lia|].
    pose proof (h_each (v_held H) Ha Hb Hne) as Hap. unfold apart, fin in Hap. cbn in Hap. lia.
Qed.

Lemma owns_store m f sz L A live i p d off v : uinv base (mkUst m f sz) L A -> owns (mkUst m f sz) A live -> live !! i = Some (p, d) ->
  0 <= off < Z.of_nat (length d) -> owns (mkUst (stb m (p + off) v) f sz) A (<[i := (p, <[Z.to_nat off := v mod 256]> d)]> live).
Proof.
  intros H [Hnd Ho] Hi Hoff. pose proof (list_elem_of_lookup_2 _ _ _ Hi) as Hp. destruct (Ho p d Hp) as (k & Hk & Hlen & Hd).
  cbn [um] in *. split.
  { rewrite list_fmap_insert. cbn. rewrite list_insert_id; [done|]. by rewrite list_lookup_fmap, Hi. }
  intros q e Hq. apply list_elem_of_lookup in Hq as (j & Hj). destruct (decide (i = j)) as [<-|Hne].
  - rewrite list_lookup_insert_eq in Hj by (by eapply lookup_lt_Some). injection Hj as <- <-. exists k. rewrite length_insert. split_and!; [done|done|].
    cbn [um]. rewrite contents_stb by lia. by rewrite Hd.
  - rewrite list_lookup_insert_ne in Hj by done. destruct (Ho q e (list_elem_of_lookup_2 _ _ _ Hj)) as (k' & Hk' & Hlen' & He). exists k'. split_and!; [done|done|].
    rewrite <- He at 2. cbn [um]. apply contents_ext. intros x Hx. rewrite rdb_stb, decide_False; [done|]. intros ->.
    assert (p <> q) as Hpq.
    { intros ->. apply Hne. eapply NoDup_lookup; [exact Hnd| |]; rewrite list_lookup_fmap; [by rewrite Hi|by rewrite Hj]. }
    pose proof (h_each (v_held H) Hk Hk' ltac:(lia)) as Hap. unfold apart, fin in Hap. cbn in Hap. lia.
Qed.

Lemma wp_client o live s L A : modest o -> heap s L A -> owns s A live ->
  wp (client o live) (fun live' s' => exists L' A', heap s' L' A' /\ owns s' A' live') s.
Proof.
  intros Hm H Ho. destruct o as [n|i|i off v]; cbn [client].
  - apply wp_bind. eapply wp_mono; [by apply wp_malloc|]. intros r s' [Hk [(-> & H' & _)|(a & L' & -> & Ha & Hn & H')]].
    { cbn. exists L, A. split; [done|]. by eapply owns_keeps. }
    pose proof (h_block (v_held H') (lookup_insert_eq _ _ _)) as Hb. pose proof (v_base H'). replace (a + 16 =? 0) with false by lia. wp_steps.
    exists L', (<[a := units n]> A). split; [by right|]. cbn in Hm. apply owns_new; [by eapply owns_keeps|done|lia].
  - destruct (live !! i) as [[p d]|] eqn:Ei; [|apply wp_ret; eauto]. destruct (proj2 Ho p d) as (k & Hk & _); [by eapply list_elem_of_lookup_2|].
    destruct H as [(_ & _ & -> & _)|H]; [by rewrite lookup_empty in Hk|]. wp_steps. replace p with (p - 16 + 16) at 1 by lia.
    eapply wp_free; [exact H|exact Hk|]. intros s' L' H' Hkp _ _ _. wp_steps. exists L', (delete (p - 16) A). split; [by right|].
    eapply owns_keeps; [by eapply owns_delete|done].
  - destruct (live !! i) as [[p d]|] eqn:Ei; [|apply wp_ret; eauto]. destruct ((0 <=? off) && (off <? Z.of_nat (length d))) eqn:Eo; [|apply wp_ret; eauto].
    destruct (proj2 Ho p d) as (k & Hk & Hl & _); [by eapply list_elem_of_lookup_2|]. destruct H as [(_ & _ & -> & _)|H]; [by rewrite lookup_empty in Hk|].
    destruct s as [m f sz]. wp_steps. cbn [um freep u_sz]. exists L, A. split; [right; eapply uinv_store; [exact H|exact Hk|lia]|]. eapply owns_store; [done..|lia].
Qed.

Lemma wp_program ops live s L A : Forall modest ops -> heap s L A -> owns s A live ->
  wp (program ops live) (fun live' s' => exists L' A', heap s' L' A' /\ owns s' A' live') s.
Proof.
  intros Hm. revert live s L A. induction Hm as [|o ops Hm _ IH]; intros live s L A H Ho; cbn [program]; [apply wp_ret; eauto|].
  apply wp_bind. eapply wp_mono; [by apply (wp_client o live s L A)|]. intros live' s' (L' & A' & H' & Ho'). by eapply IH.
Qed.

End Malloc.

(** C31: [malloc] is correct on every branch.  In any state of the allocator,
    with the blocks [A] in use and the free blocks [L], in a heap of at most
    2^35 bytes, a request of up to 2^31 - 32 bytes returns (its loops end) and
    no block in use changes.  Either the result is null, which happens only when no free block is large
    enough and the kernel refuses to extend the process; or it is the
    address after the header of a block that was not in use, is large enough,
    and lies apart from all others, and the allocator is in order again. *)
Theorem malloc_correct base grant s L A nbytes : (forall sz newsz, grant sz newsz = true -> newsz <= 2 ^ 35) ->
  heap base s L A -> 0 <= nbytes <= 2 ^ 31 - 32 -> wp (malloc base grant nbytes) (malloc_post base grant s L A nbytes) s.
Proof. intros Hg H Hn. by apply wp_malloc. Qed.

(** C5: programs own what [malloc] gave them.  For any sequence of requests
    of at most 2^31 - 32 bytes each ([modest]), releases and stores into blocks
    it holds, in a heap of at most 2^35 bytes, a program runs without a page
    fault inside the allocator and [free] always finds its place; at the end
    every block it holds has exactly the bytes it stored last, and any two
    lie apart. *)
Theorem umalloc_isolated base grant s ops : (forall sz newsz, grant sz newsz = true -> newsz <= 2 ^ 35) ->
  freep s = 0 -> 0 < base -> base + 16 <= u_sz s <= 2 ^ 35 -> Forall modest ops ->
  wp (program base grant ops []) (fun live s' =>
    (forall p d, (p, d) ∈ live -> contents (um s') p (Z.of_nat (length d)) = d /\ base + 16 <= p /\ p + Z.of_nat (length d) <= u_sz s') /\
    (forall i j p d q e, live !! i = Some (p, d) -> live !! j = Some (q, e) -> i <> j ->
       p + Z.of_nat (length d) <= q \/ q + Z.of_nat (length e) <= p)) s.
Proof.
  intros Hg Hf Hb Hs Hm. eapply wp_mono; [apply (wp_program base grant Hg ops [] s [] ∅); [done|by left|]|].
  { split; [constructor|]. by intros p d ?%elem_of_nil. }
  intros live s' (L & A & H & Hnd & Ho). destruct H as [(_ & _ & -> & _)|H].
  { destruct live as [|[p d] live]; [split; [by intros p d ?%elem_of_nil|done]|]. destruct (Ho p d) as (k & Hk & _); [by left|]. by rewrite lookup_empty in Hk. }
  split.
  - intros p d Hp. destruct (Ho p d Hp) as (k & Hk & Hl & Hc). pose proof (h_block (v_held H) Hk). split_and!; [done|lia|lia].
  - intros i j p d q e Hi Hj Hne. destruct (Ho p d (list_elem_of_lookup_2 _ _ _ Hi)) as (k & Hk & Hl & _). destruct (Ho q e (list_elem_of_lookup_2 _ _ _ Hj)) as (k' & Hk' & Hl' & _).
    assert (p <> q) as Hpq by (intros ->; apply Hne; eapply NoDup_lookup; [exact Hnd| |]; rewrite list_lookup_fmap; [by rewrite Hi|by rewrite Hj]).
    pose proof (h_each (v_held H) Hk Hk' ltac:(lia)) as Hap. unfold apart, fin in Hap. cbn in Hap. lia.
Qed.

(** ** Requests of two gigabytes *)

Lemma units_huge nbytes : 2 ^ 31 - 31 <= nbytes <= 2 ^ 32 - 16 -> 2 ^ 31 <= units nbytes * 16 <= 2 ^ 32.
Proof. intros Hn. unfold units. change sizeof_Header with 16. rewrite u32_small by zdiv. zdiv. Qed.

(** [sbrk] takes an [int]: sizes from 2^31 to 2^32 are negative or zero. *)
Lemma sbrk_huge grant m f sz n : 2 ^ 31 <= n <= 2 ^ 32 -> 0 < sz < 2 ^ 38 ->
  s32 n <= 0 /\ exists sz', 0 <= sz' <= sz /\ sbrk grant n (mkUst m f sz) = Ret (sz, mkUst m f sz').
Proof.
  intros Hn Hs. unfold sbrk, sys_sbrk, grow. assert (s32 n = n - 2 ^ 32) as E.
  { unfold s32. rewrite Z.mod_eq by lia. replace ((n + 2 ^ 31) / 2 ^ 32) with 1 by zdiv. lia. }
  split; [lia|]. rewrite E. set (k := n - 2 ^ 32). assert (- 2 ^ 31 <= k <= 0) as Hk by (unfold k; lia). clearbody k. clear n Hn E.
  unfold mbind, M_bind, gets, set_sz, modify. cbn -[u64 Z.gtb Z.ltb Z.geb].
  replace (k >? 0) with false by (rewrite Z.gtb_ltb; lia). destruct (Z.ltb_spec k 0) as [Hneg|Hz]; cbn -[u64 Z.gtb Z.ltb Z.geb].
  - exists (if u64 (sz + k) >=? sz then sz else u64 (sz + k)). split; [|done]. rewrite Z.geb_leb.
    destruct (Z.leb_spec sz (u64 (sz + k))); [lia|]. unfold u64 in *. pose proof (Z.mod_pos_bound (sz + k) (2 ^ 64)). lia.
  - exists sz. split; [lia|done].
Qed.

Lemma morecore_huge m f sz grant nu : 2 ^ 31 <= nu * 16 <= 2 ^ 32 -> 0 < sz < 2 ^ 38 -> sz mod 4096 = 0 ->
  morecore grant nu (mkUst m f sz) = Fault "page fault".
Proof.
  intros Hn Hs Hp. unfold morecore. replace (nu <? 4096) with false by lia. change sizeof_Header with 16.
  destruct (sbrk_huge grant m f sz (nu * 16) Hn Hs) as (_ & sz' & Hz & E). unfold mbind at 1, M_bind at 1. rewrite E.
  replace (sz =? -1) with false by lia. unfold set_size, touch, mbind, M_bind, get. cbn -[PGROUNDUP Z.ltb Z.leb Z.add].
  assert (accessible (mkUst m f sz') (sz + 8) 4 = false) as ->; [|done]. unfold accessible. cbn [u_sz]. rewrite PGROUNDUP_div by lia.
  apply andb_false_intro2. apply Z.leb_gt. zdiv.
Qed.

(** Running on from where a computation returns. *)
Lemma bind_wp {A B} (c : M ust A) (k : A -> M ust B) s a s' r : wp c (fun b t => b = a /\ t = s') s -> k a s' = r -> (c ≫= k) s = r.
Proof. unfold wp, mbind, M_bind. destruct (c s) as [[b t]| | | |]; try done. by intros [-> ->]. Qed.

(** C39: a request of two gigabytes or more ends the process.  Take the first
    call of [malloc] in a process whose size is a whole number of pages, with a
    request from 2^31 - 31 to 2^32 - 16 bytes.  The size that [morecore] passes
    to [sbrk] is zero or negative as an [int]; [sbrk] of it succeeds, returning
    the old size, and the process does not grow (it may shrink); [malloc] then
    writes a header past the end of memory and faults, instead of returning
    null. *)
Theorem malloc_huge_faults base grant m sz nbytes : 2 ^ 31 - 31 <= nbytes <= 2 ^ 32 - 16 ->
  0 < base -> base + 16 <= sz < 2 ^ 38 -> sz mod 4096 = 0 ->
  let asked := units nbytes * sizeof_Header in
  s32 asked <= 0 /\
  (forall m f, exists sz', sz' <= sz /\ sbrk grant asked (mkUst m f sz) = Ret (sz, mkUst m f sz')) /\
  malloc base grant nbytes (mkUst m 0 sz) = Fault "page fault".
Proof.
  intros Hn Hb Hs Hp. pose proof (units_huge nbytes Hn) as Hu. cbv zeta. change sizeof_Header with 16.
  split; [by apply (sbrk_huge grant m 0 sz); lia|]. split.
  { intros m' f'. destruct (sbrk_huge grant m' f' sz _ Hu ltac:(lia)) as (_ & sz' & Hz & E). exists sz'. split; [lia|done]. }
  unfold malloc. set (n := units nbytes) in *.
  eapply bind_wp; [apply wp_gets; split; reflexivity|]. cbn [freep Z.eqb].
  eapply bind_wp; [unfold set_freep; wp_steps; cbn [um u_sz]; apply wp_set_ptr; [lia|lia|lia|]; apply wp_set_size; [lia|lia|lia|]; split; reflexivity|].
  set (m0 := st32 (st64 m base base) (base + 8) (u32 0)).
  assert (ld64 m0 base = base) as E1 by (unfold m0; rewrite ld64_st32_ne, ld64_st64 by lia; done).
  assert (ld32 m0 (base + 8) = 0) as E2 by (unfold m0; rewrite u32_small, ld32_st32 by lia; done).
  eapply bind_wp; [apply wp_gets; split; reflexivity|]. cbn [freep]. eapply bind_wp; [apply wp_get_ptr; [lia|lia|lia|]; rewrite E1; split; reflexivity|].
  eapply bind_wp; [apply wp_gets; split; reflexivity|]. cbn [malloc_loop Nat.mul].
  eapply bind_wp; [apply wp_get_size; [lia|lia|lia|]; rewrite E2; split; reflexivity|]. rewrite Z.geb_leb. replace (n <=? 0) with false by lia.
  eapply bind_wp; [apply wp_gets; split; reflexivity|]. cbn [freep]. rewrite Z.eqb_refl. unfold mbind at 1, M_bind at 1. rewrite morecore_huge by lia. done.
Qed.

(** ** Witnesses *)

Definition demo_ust : ust := mkUst ∅ 0 16384.
Definition demo_grant (sz newsz : Z) : bool := newsz <=? 2 ^ 27.

Lemma demo_grant_phys sz newsz : demo_grant sz newsz = true -> newsz <= 2 ^ 35.
Proof. unfold demo_grant. lia. Qed.

(** The first request of a program. *)
Lemma malloc_correct_witness : heap 8192 demo_ust [] ∅ /\
  wp (malloc 8192 demo_grant 100) (malloc_post 8192 demo_grant demo_ust [] ∅ 100) demo_ust.
Proof.
  assert (heap 8192 demo_ust [] ∅) as H by (left; cbn; split_and!; (done || lia)). split; [exact H|].
  exact (malloc_correct 8192 demo_grant demo_ust [] ∅ 100 demo_grant_phys H ltac:(lia)).
Defined.

Definition demo_ops : list uop := [UMalloc 10; UMalloc 20; UStore 0 3 65; UFree 1; UMalloc 5].

(** Two blocks are held at the end, and the first has the stored byte. *)
Lemma umalloc_isolated_witness :
  (match program 8192 demo_grant demo_ops [] demo_ust with Ret (live, _) => (fun x => (x.1, length x.2)) <$> live = [(81904, 10%nat); (81872, 5%nat)] | _ => False end) /\
  wp (program 8192 demo_grant demo_ops []) (fun live s' =>
    (forall p d, (p, d) ∈ live -> contents (um s') p (Z.of_nat (length d)) = d /\ 8192 + 16 <= p /\ p + Z.of_nat (length d) <= u_sz s') /\
    (forall i j p d q e, live !! i = Some (p, d) -> live !! j = Some (q, e) -> i <> j ->
       p + Z.of_nat (length d) <= q \/ q + Z.of_nat (length e) <= p)) demo_ust.
Proof.
  split; [vm_compute; reflexivity|].
  refine (umalloc_isolated 8192 demo_grant demo_ust demo_ops demo_grant_phys eq_refl _ _ _); [lia|cbn; lia|].
  repeat constructor; cbn; lia.
Defined.

(** [malloc(3000000000)] in a process of four pages. *)
Lemma malloc_huge_faults_witness : let asked := units 3000000000 * sizeof_Header in
  s32 asked = -1294967280 /\ s32 asked <= 0 /\
  (forall m f, exists sz', sz' <= 16384 /\ sbrk demo_grant asked (mkUst m f 16384) = Ret (16384, mkUst m f sz')) /\
  malloc 8192 demo_grant 3000000000 (mkUst ∅ 0 16384) = Fault "page fault".
Proof. split; [reflexivity|]. refine (malloc_huge_faults 8192 demo_grant ∅ 16384 3000000000 _ _ _ _); [lia|lia|lia|reflexivity]. Defined.
