(* ===== verification/Pipe.v ===== *)
(** * Pipes (kernel/pipe.c)

    A pipe is a ring of PIPESIZE bytes with two free-running 32-bit counters.
    [pipewrite] and [piperead] hold the pipe's lock from [acquire] to
    [release] except while they sleep, so each call is a sequence of critical
    sections that end in a return or in a [sleep]; [pipewrite_loop] and
    [piperead_wait]/[piperead_copy] run one section, and a sleeper resumes at
    the head of its loop.  The user's memory is the function [copyin], which
    may fail, and the result of [copyout] per offset; [killed] answers are
    taken from a list, since another hart may set the flag at any time.
    Section [System] composes any number of readers and writers. *)

From Stdlib Require Import ZArith Lia Bool String.
From stdpp Require Import base gmap list strings fin_maps.
From S2P Require Import Prelude.

Definition PIPESIZE : Z := 512.

Record pipe := mkPipe {
  data : list Z;
  nread : Z;
  nwrite : Z;
  readopen : Z;
  writeopen : Z
}.

(** The channels [&pi->nread] and [&pi->nwrite]. *)
Inductive chan := CRead | CWrite.

#[export] Instance chan_eq_dec : EqDecision chan.
Proof. solve_decision. Defined.

Record pst := Pst {
  pi : pipe;
  woken : list chan;      (* the channels [wakeup] was called on *)
  kills : list bool;      (* the answers [killed] will give *)
  taken : list Z;         (* bytes put into the ring, oldest first *)
  given : list Z          (* bytes copied out to the reader, oldest first *)
}.

Definition set_pi (p : pipe) (s : pst) : pst := Pst p (woken s) (kills s) (taken s) (given s).

Definition wakeup (c : chan) : M pst unit :=
  modify (fun s => Pst (pi s) (woken s ++ [c]) (kills s) (taken s) (given s)).

Definition killed : M pst bool := fun s =>
  Ret (default false (head (kills s)), Pst (pi s) (woken s) (tail (kills s)) (taken s) (given s)).

(** How a critical section ends. *)
Inductive seg := SRet (r : Z) | SSleep (i : Z).

(** [pi->data[pi->nwrite++ % PIPESIZE] = ch;] *)
Definition put_byte (ch : Z) : M pst unit :=
  s ← get;
  let p := pi s in
  d ← of_arr (arr_set (data p) (nwrite p mod PIPESIZE) ch);
  put (Pst (mkPipe d (nread p) (u32 (nwrite p + 1)) (readopen p) (writeopen p))
           (woken s) (kills s) (taken s ++ [ch]) (given s)).

Fixpoint pipewrite_loop (fuel : nat) (copyin : Z -> option Z) (n i : Z) : M pst seg :=
  match fuel with
  | O => out_of_fuel
  | S f =>
      if i <? n then
        p ← gets pi;
        k ← (if readopen p =? 0 then mret true else killed);
        if k : bool then mret (SRet (-1))
        else if nwrite p =? u32 (nread p + PIPESIZE) then
          wakeup CRead;;
          mret (SSleep i)
        else
          match copyin i with
          | None => wakeup CRead;; mret (SRet i)
          | Some ch => put_byte ch;; pipewrite_loop f copyin n (i + 1)
          end
      else
        wakeup CRead;;
        mret (SRet i)
  end.

(** From [acquire], or from a wakeup at offset [i], to a return or a sleep. *)
Definition pipewrite (copyin : Z -> option Z) (n i : Z) : M pst seg :=
  pipewrite_loop (S (Z.to_nat (n - i))) copyin n i.

(** [while(pi->nread == pi->nwrite && pi->writeopen)], one test of it:
    [Some] ends the section, [None] goes on to the copy loop. *)
Definition piperead_wait : M pst (option seg) :=
  p ← gets pi;
  if (nread p =? nwrite p) && negb (writeopen p =? 0) then
    k ← killed;
    mret (Some (if k : bool then SRet (-1) else SSleep 0))
  else mret None.

(** [pi->nread++] after the byte went to user space. *)
Definition take_byte (ch : Z) : M pst unit :=
  modify (fun s => Pst (mkPipe (data (pi s)) (u32 (nread (pi s) + 1)) (nwrite (pi s)) (readopen (pi s)) (writeopen (pi s)))
                       (woken s) (kills s) (taken s) (given s ++ [ch])).

Fixpoint piperead_copy (fuel : nat) (copyout : Z -> bool) (n i : Z) : M pst Z :=
  match fuel with
  | O => out_of_fuel
  | S f =>
      if i <? n then
        p ← gets pi;
        if nread p =? nwrite p then mret i
        else
          ch ← arr_get (data p) (nread p mod PIPESIZE);
          if negb (copyout i) then mret (if i =? 0 then -1 else i)
          else take_byte ch;; piperead_copy f copyout n (i + 1)
      else mret i
  end.

Definition piperead (copyout : Z -> bool) (n : Z) : M pst seg :=
  w ← piperead_wait;
  match w with
  | Some r => mret r
  | None =>
      i ← piperead_copy (S (Z.to_nat n)) copyout n 0;
      wakeup CWrite;;
      mret (SRet i)
  end.

(** The result says whether the pipe was freed. *)
Definition pipeclose (writable : bool) : M pst bool :=
  p ← gets pi;
  (if writable then
     modify (set_pi (mkPipe (data p) (nread p) (nwrite p) (readopen p) 0));; wakeup CRead
   else
     modify (set_pi (mkPipe (data p) (nread p) (nwrite p) 0 (writeopen p)));; wakeup CWrite);;
  p ← gets pi;
  mret ((readopen p =? 0) && (writeopen p =? 0)).

(** The pipe [pipealloc] sets up in the memory it got from the allocators. *)
Definition pipe_init (d : list Z) : pipe := mkPipe d 0 0 1 1.

(** ** The ring *)

(** The bytes in the ring, oldest first. *)
Definition content (p : pipe) : list Z :=
  map (fun k => default 0 (data p !! Z.to_nat ((nread p + Z.of_nat k) mod PIPESIZE)))
      (seq 0 (Z.to_nat (u32 (nwrite p - nread p)))).

Record pipe_ok (p : pipe) : Prop := {
  pk_data : length (data p) = Z.to_nat PIPESIZE;
  pk_nread : 0 <= nread p < 2 ^ 32;
  pk_nwrite : 0 <= nwrite p < 2 ^ 32;
  pk_size : u32 (nwrite p - nread p) <= PIPESIZE
}.

Definition full (p : pipe) : Prop := nwrite p = u32 (nread p + PIPESIZE).
Definition empty (p : pipe) : Prop := nread p = nwrite p.

Lemma content_length p : length (content p) = Z.to_nat (u32 (nwrite p - nread p)).
Proof. unfold content. by rewrite length_map, length_seq. Qed.

Lemma u32_sub_small a b : 0 <= a < 2 ^ 32 -> 0 <= b < 2 ^ 32 ->
  u32 (a - b) = if decide (b <= a) then a - b else a - b + 2 ^ 32.
Proof. intros Ha Hb. unfold u32. case_decide; zdiv. Qed.

Lemma u32_add_small a b : 0 <= a < 2 ^ 32 -> 0 <= b < 2 ^ 32 ->
  u32 (a + b) = if decide (a + b < 2 ^ 32) then a + b else a + b - 2 ^ 32.
Proof. intros Ha Hb. unfold u32. case_decide; zdiv. Qed.

(** The ring is full exactly when [pipewrite] says so. *)
Lemma full_size p : pipe_ok p -> full p <-> u32 (nwrite p - nread p) = PIPESIZE.
Proof.
  intros [_ H1 H2 H3]. unfold full, PIPESIZE in *. rewrite u32_add_small, u32_sub_small in * by lia.
  repeat case_decide; lia.
Qed.

Lemma empty_size p : pipe_ok p -> empty p <-> u32 (nwrite p - nread p) = 0.
Proof.
  intros [_ H1 H2 H3]. unfold empty. rewrite u32_sub_small by lia. case_decide; lia.
Qed.

Definition pushed (p : pipe) (ch : Z) : pipe :=
  mkPipe (<[Z.to_nat (nwrite p mod PIPESIZE) := ch]> (data p)) (nread p) (u32 (nwrite p + 1)) (readopen p) (writeopen p).

Definition popped (p : pipe) : pipe :=
  mkPipe (data p) (u32 (nread p + 1)) (nwrite p) (readopen p) (writeopen p).

(** Writing appends to the content. *)
Lemma pushed_ok p ch : pipe_ok p -> ~ full p -> pipe_ok (pushed p ch) /\ content (pushed p ch) = content p ++ [ch].
Proof.
  intros Hok Hnf. pose proof Hok as [H0 H1 H2 H3]. rewrite full_size in Hnf by done.
  assert (u32 (u32 (nwrite p + 1) - nread p) = u32 (nwrite p - nread p) + 1) as Hs.
  { unfold PIPESIZE in *. unfold u32 in *. rewrite Zminus_mod_idemp_l. zdiv. }
  assert (0 <= u32 (nwrite p - nread p)) as Hpos by apply u32_bound.
  split.
  - split; simpl; [by rewrite length_insert|done|apply u32_bound|rewrite Hs; lia].
  - unfold content. simpl. rewrite Hs. replace (Z.to_nat (u32 (nwrite p - nread p) + 1))
      with (S (Z.to_nat (u32 (nwrite p - nread p)))) by lia.
    rewrite seq_S, map_app. simpl. set (n := Z.to_nat (u32 (nwrite p - nread p))).
    assert (forall k, 0 <= k <= Z.of_nat n -> (nread p + k) mod 512 = nwrite p mod 512 -> k = Z.of_nat n) as Hinj.
    { intros k Hk HE. unfold n, u32, PIPESIZE in *. zdiv. }
    f_equal.
    + apply map_ext_in. intros k Hk. apply in_seq in Hk. rewrite list_lookup_insert_ne; [done|].
      intros HE. assert (Z.of_nat k = Z.of_nat n); [|lia]. apply Hinj; [lia|]. unfold PIPESIZE in HE. zdiv.
    + replace ((nread p + Z.of_nat n) mod PIPESIZE) with (nwrite p mod PIPESIZE).
      * rewrite list_lookup_insert_eq; [done|]. rewrite H0. unfold PIPESIZE. zdiv.
      * unfold n, u32, PIPESIZE in *. zdiv.
Qed.

(** Reading removes the oldest byte. *)
Lemma popped_ok p : pipe_ok p -> ~ empty p ->
  pipe_ok (popped p) /\
  exists ch, data p !! Z.to_nat (nread p mod PIPESIZE) = Some ch /\ content p = ch :: content (popped p).
Proof.
  intros Hok Hne. pose proof Hok as [H0 H1 H2 H3]. rewrite empty_size in Hne by done.
  assert (u32 (nwrite p - u32 (nread p + 1)) = u32 (nwrite p - nread p) - 1) as Hs.
  { unfold PIPESIZE in *. unfold u32 in *. rewrite Zminus_mod_idemp_r. zdiv. }
  assert (0 <= u32 (nwrite p - nread p)) as Hpos by apply u32_bound.
  split.
  - split; simpl; [done|apply u32_bound|done|rewrite Hs; lia].
  - destruct (lookup_lt_is_Some_2 (data p) (Z.to_nat (nread p mod PIPESIZE))) as [ch Hch].
    { rewrite H0. unfold PIPESIZE. zdiv. }
    exists ch. split; [done|]. unfold content. simpl. rewrite Hs.
    replace (Z.to_nat (u32 (nwrite p - nread p))) with (S (Z.to_nat (u32 (nwrite p - nread p) - 1))) by lia.
    simpl. rewrite Z.add_0_r, Hch. simpl. f_equal. rewrite <- seq_shift, map_map. apply map_ext. intros k.
    do 3 f_equal. unfold u32, PIPESIZE. zdiv.
Qed.

(** ** Critical sections *)

(** Everything written is what was read followed by what is in the ring. *)
Definition fifo (s : pst) : Prop := pipe_ok (pi s) /\ taken s = given s ++ content (pi s).

Definition same_ends (p p' : pipe) : Prop := readopen p' = readopen p /\ writeopen p' = writeopen p.

Lemma wp_put_byte ch (Q : unit -> pst -> Prop) s :
  pipe_ok (pi s) ->
  Q tt (Pst (pushed (pi s) ch) (woken s) (kills s) (taken s ++ [ch]) (given s)) -> wp (put_byte ch) Q s.
Proof.
  intros [H _ _ _] HQ. unfold put_byte. wp_steps. rewrite arr_set_ok.
  - exact HQ.
  - rewrite H. unfold PIPESIZE. zdiv.
Qed.

Lemma wp_killed (Q : bool -> pst -> Prop) s :
  Q (default false (head (kills s))) (Pst (pi s) (woken s) (tail (kills s)) (taken s) (given s)) -> wp killed Q s.
Proof. done. Qed.

(** What one section of [pipewrite] from offset [i] does: [w] are the bytes
    it moved. *)
Record write_post (copyin : Z -> option Z) (n i : Z) (s : pst) (r : seg) (s' : pst) : Prop := {
  wp_fifo : fifo s';
  wp_given : given s' = given s;
  wp_ends : same_ends (pi s) (pi s');
  wp_bytes : exists w, taken s' = taken s ++ w /\
    (forall k ch, w !! k = Some ch -> copyin (i + Z.of_nat k) = Some ch) /\
    (kills s = [] -> (readopen (pi s) = 0 /\ w = []) \/ CRead ∈ woken s') /\
    match r with
    | SSleep i' => i' = i + Z.of_nat (length w) /\ full (pi s') /\ readopen (pi s') <> 0
    | SRet r => r = -1 \/ r = i + Z.of_nat (length w)
    end;
  wp_woken : exists l, woken s' = woken s ++ l;
  wp_kills : kills s = [] -> kills s' = []
}.

Lemma wp_pipewrite_loop f copyin n i s :
  fifo s -> 0 <= i -> (Z.to_nat (n - i) < f)%nat ->
  wp (pipewrite_loop f copyin n i) (write_post copyin n i s) s.
Proof.
  revert i s. induction f as [|f IH]; intros i s Hs Hi Hf; [lia|]. cbn [pipewrite_loop].
  pose proof Hs as [Hok Hfifo].
  assert (forall s1 r, pi s1 = pi s -> taken s1 = taken s -> given s1 = given s -> (exists l, woken s1 = woken s ++ l) ->
    (kills s = [] -> kills s1 = []) -> (kills s = [] -> readopen (pi s) = 0 \/ CRead ∈ woken s1) ->
    match r with SSleep i' => i' = i /\ full (pi s) /\ readopen (pi s) <> 0 | SRet r => r = -1 \/ r = i end ->
    write_post copyin n i s r s1) as Hdone.
  { intros s1 r E1 E2 E3 E4 E5 E6 Hr. split; rewrite ?E1; try done.
    - unfold fifo. by rewrite E1, E2, E3.
    - exists []. rewrite app_nil_r. split_and!; [done|done|naive_solver|].
      destruct r; simpl; rewrite Z.add_0_r; naive_solver. }
  assert (forall l, CRead ∈ l ++ [CRead]) as Hin by (intros l; rewrite elem_of_app; right; left).
  assert (exists l, woken s = woken s ++ l) as Hnil by (exists []; by rewrite app_nil_r).
  destruct (i <? n) eqn:Ein.
  2:{ unfold wakeup. wp_steps. apply Hdone; simpl; eauto. }
  wp_steps. destruct (readopen (pi s) =? 0) eqn:Er.
  { wp_steps. apply Hdone; simpl; eauto. intros _. left. lia. }
  apply wp_killed. destruct (default false (head (kills s))) eqn:Ek.
  { wp_steps. apply Hdone; simpl; eauto; intros Hk; by rewrite Hk in Ek. }
  destruct (nwrite (pi s) =? u32 (nread (pi s) + PIPESIZE)) eqn:Ew.
  { unfold wakeup. wp_steps. apply Hdone; simpl; eauto; [by intros ->|]. unfold full. split_and!; [done|lia|lia]. }
  destruct (copyin i) as [ch|] eqn:Ec.
  2:{ unfold wakeup. wp_steps. apply Hdone; simpl; eauto. by intros ->. }
  wp_step. apply wp_put_byte; [done|]. simpl.
  destruct (pushed_ok (pi s) ch Hok) as [Hok' Hcont]; [unfold full; lia|].
  eapply wp_mono; [apply IH; [|lia|lia]|].
  { split; simpl; [done|]. by rewrite Hfifo, Hcont, app_assoc. }
  simpl. intros r s' [P1 P2 P3 (w & W1 & W2 & W3 & W4) P5 P6]. simpl in *.
  split; [done|done|done| |done|].
  - exists (ch :: w). split_and!.
    + by rewrite W1, <- app_assoc.
    + intros [|k] c Hk; simpl in Hk.
      * simplify_eq. by rewrite Z.add_0_r.
      * rewrite <- (W2 k c Hk). f_equal. lia.
    + intros Hk. right. destruct W3 as [[? _]|?]; [by rewrite Hk|lia|done].
    + simpl. destruct r; [|split_and!]; naive_solver lia.
  - intros Hk. apply P6. by rewrite Hk.
Qed.

(** What one section of [piperead] does. *)
Record read_post (n : Z) (s : pst) (r : seg) (s' : pst) : Prop := {
  rp_fifo : fifo s';
  rp_taken : taken s' = taken s;
  rp_ends : same_ends (pi s) (pi s');
  rp_bytes : exists w, given s' = given s ++ w /\ (length w <= Z.to_nat n)%nat /\
    match r with
    | SSleep _ => w = [] /\ empty (pi s') /\ writeopen (pi s') <> 0 /\ pi s' = pi s
    | SRet r => (w = [] /\ r = -1 /\ pi s' = pi s) \/ (r = Z.of_nat (length w) /\ CWrite ∈ woken s') \/
        (r = -1 /\ w = [] /\ CWrite ∈ woken s')
    end;
  rp_woken : exists l, woken s' = woken s ++ l;
  rp_kills : kills s = [] -> kills s' = []
}.

(** The copy loop moves bytes from the ring to the user in order. *)
Lemma wp_piperead_copy f copyout n i s (Q : Z -> pst -> Prop) :
  fifo s -> 0 <= i -> (Z.to_nat (n - i) < f)%nat ->
  (forall r s' w, fifo s' -> taken s' = taken s -> given s' = given s ++ w -> woken s' = woken s ->
     kills s' = kills s -> same_ends (pi s) (pi s') -> (length w <= Z.to_nat (n - i))%nat ->
     r = i + Z.of_nat (length w) \/ (r = -1 /\ w = [] /\ i = 0) -> Q r s') ->
  wp (piperead_copy f copyout n i) Q s.
Proof.
  revert i s. induction f as [|f IH]; intros i s Hs Hi Hf HQ; [lia|]. cbn [piperead_copy].
  assert (forall r, r = i \/ (r = -1 /\ i = 0) -> Q r s) as Hdone.
  { intros r Hr. apply (HQ r s []); try done; simpl; [by rewrite app_nil_r|lia|].
    rewrite Z.add_0_r. naive_solver. }
  destruct (i <? n) eqn:Ein; [|by apply wp_ret, Hdone; left].
  wp_steps. destruct (nread (pi s) =? nwrite (pi s)) eqn:Ee; [by apply wp_ret, Hdone; left|].
  destruct Hs as [Hok Hfifo]. destruct (popped_ok (pi s) Hok) as (Hok' & ch & Hch & Hcont); [unfold empty; lia|].
  wp_step. eapply wp_arr_get; [unfold PIPESIZE; zdiv|exact Hch|].
  destruct (negb (copyout i)) eqn:Eo.
  { apply wp_ret, Hdone. destruct (i =? 0) eqn:E0; [right; lia|by left]. }
  unfold take_byte. wp_steps. apply IH; [|lia|lia|].
  { split; simpl; [done|]. by rewrite Hfifo, Hcont, <- app_assoc. }
  simpl. intros r s' w P1 P2 P3 P4 P5 P6 P7 P8. apply (HQ r s' (ch :: w)); try done; simpl.
  - by rewrite P3, <- app_assoc.
  - lia.
  - destruct P8 as [->|(_ & _ & ?)]; [left; lia|lia].
Qed.

Lemma wp_piperead copyout n s : fifo s -> wp (piperead copyout n) (read_post n s) s.
Proof.
  intros Hs. unfold piperead, piperead_wait. wp_steps.
  destruct ((nread (pi s) =? nwrite (pi s)) && negb (writeopen (pi s) =? 0)) eqn:E.
  - apply andb_true_iff in E as [E1 E2]. wp_step. apply wp_killed. wp_steps.
    split; try done; simpl.
    + exists []. rewrite app_nil_r. split_and!; [done|simpl; lia|].
      destruct (default false (head (kills s))); [by left|]. unfold empty.
      split_and!; [done|lia| |done]. apply negb_true_iff in E2. lia.
    + exists []. by rewrite app_nil_r.
    + by intros ->.
  - wp_steps. apply wp_piperead_copy; [done|lia|lia|].
    intros r s' w P1 P2 P3 P4 P5 P6 P7 P8. unfold wakeup. wp_steps.
    assert (CWrite ∈ woken s' ++ [CWrite]) as Hin by (rewrite elem_of_app; right; left).
    split; simpl; try done.
    + exists w. split_and!; [done|lia|]. destruct P8 as [->|(-> & -> & _)]; [right; left|right; right]; auto.
    + exists [CWrite]. by rewrite P4.
    + by rewrite P5.
Qed.

(** ** Readers and writers *)

(** A process using the pipe: [Writing buf n i] is in [pipewrite(pi, buf, n)]
    with [i] bytes done, about to take the lock; [buf] is the readable part
    of its buffer. *)
Inductive proc :=
  | Idle
  | Writing (buf : list Z) (n i : Z)
  | WSleeping (buf : list Z) (n i : Z)
  | Reading (n : Z)
  | RSleeping (n : Z).

Record sys := Sys {
  ring : pipe;
  procs : gmap nat proc;
  s_taken : list Z;
  s_given : list Z
}.

Definition user_buf (buf : list Z) (k : Z) : option Z := buf !! Z.to_nat k.

(** [wakeup] makes every process sleeping on the channel runnable. *)
Definition wake (l : list chan) (p : proc) : proc :=
  match p with
  | WSleeping b n i => if decide (CWrite ∈ l) then Writing b n i else p
  | RSleeping n => if decide (CRead ∈ l) then Reading n else p
  | _ => p
  end.

Definition after_write (buf : list Z) (n : Z) (r : seg) : proc :=
  match r with SRet _ => Idle | SSleep i => WSleeping buf n i end.

Definition after_read (n : Z) (r : seg) : proc :=
  match r with SRet _ => Idle | SSleep _ => RSleeping n end.

Definition section_of (s : sys) (ks : list bool) : pst := Pst (ring s) [] ks (s_taken s) (s_given s).

Definition resume (s : sys) (k : nat) (p : proc) (st : pst) : sys :=
  Sys (pi st) (<[k := p]> (wake (woken st) <$> procs s)) (taken st) (given st).

(** The steps of the system; [kill] allows [killed] to answer true inside
    [pipewrite]. *)
Inductive step (kill : bool) (s : sys) : sys -> Prop :=
  | st_write k buf n : procs s !! k = Some Idle ->
      step kill s (Sys (ring s) (<[k := Writing buf n 0]> (procs s)) (s_taken s) (s_given s))
  | st_read k n : procs s !! k = Some Idle ->
      step kill s (Sys (ring s) (<[k := Reading n]> (procs s)) (s_taken s) (s_given s))
  | st_run_write k buf n i ks r st : procs s !! k = Some (Writing buf n i) -> 0 <= i ->
      (kill = false -> ks = []) ->
      pipewrite (user_buf buf) n i (section_of s ks) = Ret (r, st) ->
      step kill s (resume s k (after_write buf n r) st)
  | st_run_read k n ks copyout r st : procs s !! k = Some (Reading n) ->
      piperead copyout n (section_of s ks) = Ret (r, st) ->
      step kill s (resume s k (after_read n r) st)
  | st_close k writable b st : procs s !! k = Some Idle ->
      pipeclose writable (section_of s []) = Ret (b, st) ->
      step kill s (resume s k Idle st)
  | st_signal_w k buf n i : procs s !! k = Some (WSleeping buf n i) ->
      step kill s (Sys (ring s) (<[k := Writing buf n i]> (procs s)) (s_taken s) (s_given s))
  | st_signal_r k n : procs s !! k = Some (RSleeping n) ->
      step kill s (Sys (ring s) (<[k := Reading n]> (procs s)) (s_taken s) (s_given s)).

Inductive reachable (kill : bool) (s0 : sys) : sys -> Prop :=
  | r_init : reachable kill s0 s0
  | r_step s s' : reachable kill s0 s -> step kill s s' -> reachable kill s0 s'.

(** A freshly opened pipe and any number of idle processes. *)
Definition sys_init (d : list Z) (ps : gmap nat proc) : Prop :=
  length d = Z.to_nat PIPESIZE /\ forall k p, ps !! k = Some p -> p = Idle.

(** Nobody sleeps who could go on. *)
Definition no_lost_wakeup (s : sys) : Prop :=
  (forall k b n i, procs s !! k = Some (WSleeping b n i) -> full (ring s) /\ readopen (ring s) <> 0) /\
  (forall k n, procs s !! k = Some (RSleeping n) -> empty (ring s) /\ writeopen (ring s) <> 0).

Definition sys_fifo (s : sys) : Prop := pipe_ok (ring s) /\ s_taken s = s_given s ++ content (ring s).

Lemma fifo_section s ks : sys_fifo s -> fifo (section_of s ks).
Proof. done. Qed.

Lemma run_write s ks buf n i r st :
  sys_fifo s -> 0 <= i -> pipewrite (user_buf buf) n i (section_of s ks) = Ret (r, st) ->
  write_post (user_buf buf) n i (section_of s ks) r st.
Proof.
  intros Hs Hi Hrun. pose proof (wp_pipewrite_loop (S (Z.to_nat (n - i))) (user_buf buf) n i (section_of s ks)
    (fifo_section _ _ Hs) Hi ltac:(lia)) as H. unfold pipewrite in Hrun. unfold wp in H. by rewrite Hrun in H.
Qed.

Lemma run_read s ks copyout n r st :
  sys_fifo s -> piperead copyout n (section_of s ks) = Ret (r, st) -> read_post n (section_of s ks) r st.
Proof.
  intros Hs Hrun. pose proof (wp_piperead copyout n (section_of s ks) (fifo_section _ _ Hs)) as H.
  unfold wp in H. by rewrite Hrun in H.
Qed.

Lemma run_close s writable b st :
  pipeclose writable (section_of s []) = Ret (b, st) ->
  taken st = s_taken s /\ given st = s_given s /\ data (pi st) = data (ring s) /\
  nread (pi st) = nread (ring s) /\ nwrite (pi st) = nwrite (ring s) /\
  (if writable then woken st = [CRead] /\ readopen (pi st) = readopen (ring s)
   else woken st = [CWrite] /\ writeopen (pi st) = writeopen (ring s)).
Proof. destruct writable; cbn; intros H; inversion H; subst; simpl; by split_and!. Qed.

Lemma content_ext p p' : data p' = data p -> nread p' = nread p -> nwrite p' = nwrite p -> content p' = content p.
Proof. intros H1 H2 H3. unfold content. by rewrite H1, H2, H3. Qed.

(** First-in first-out is kept by every step, killed writers included. *)
Lemma step_fifo kill s s' : step kill s s' -> sys_fifo s -> sys_fifo s'.
Proof.
  intros Hstep Hs. destruct Hstep; try exact Hs.
  - destruct (run_write _ _ _ _ _ _ _ Hs H0 H2) as [P _ _ _ _ _]. exact P.
  - destruct (run_read _ _ _ _ _ _ Hs H0) as [P _ _ _ _ _]. exact P.
  - destruct (run_close _ _ _ _ H0) as (E1 & E2 & E3 & E4 & E5 & _). destruct Hs as [[K1 K2 K3 K4] Hf].
    split; simpl; [split; by rewrite ?E3, ?E4, ?E5|]. by rewrite E1, E2, (content_ext (ring s)).
Qed.

(** The sleepers left after a section are those that slept before on a
    channel it did not wake, and possibly the process that ran. *)
Lemma resume_sleeper s k p st k' q :
  procs (resume s k p st) !! k' = Some q ->
  (k' = k /\ q = p) \/ exists q0, procs s !! k' = Some q0 /\ q = wake (woken st) q0.
Proof.
  simpl. destruct (decide (k' = k)) as [->|Hne].
  - rewrite lookup_insert_eq. intros. left. by simplify_eq.
  - rewrite lookup_insert_ne, lookup_fmap by done. destruct (procs s !! k') as [q0|]; simpl; [|done].
    intros. simplify_eq. eauto.
Qed.

Lemma wake_wsleeping l q b n i : wake l q = WSleeping b n i -> q = WSleeping b n i /\ CWrite ∉ l.
Proof. destruct q; simpl; intros H; try case_decide; by simplify_eq. Qed.

Lemma wake_rsleeping l q n : wake l q = RSleeping n -> q = RSleeping n /\ CRead ∉ l.
Proof. destruct q; simpl; intros H; try case_decide; by simplify_eq. Qed.

Lemma full_content p : pipe_ok p -> full p <-> length (content p) = Z.to_nat PIPESIZE.
Proof.
  intros Hok. rewrite full_size, content_length by done. pose proof (u32_bound (nwrite p - nread p)).
  unfold PIPESIZE. lia.
Qed.

Lemma empty_content p : pipe_ok p -> empty p <-> content p = [].
Proof.
  intros Hok. rewrite empty_size by done. pose proof (u32_bound (nwrite p - nread p)).
  rewrite <- length_zero_iff_nil, content_length. lia.
Qed.

Lemma content_bound p : pipe_ok p -> (length (content p) <= Z.to_nat PIPESIZE)%nat.
Proof. intros [_ _ _ H]. rewrite content_length. lia. Qed.

(** A section of [pipewrite] appends to the ring, one of [piperead] cuts off
    its front. *)
Lemma write_content copyin n i s r s' w :
  fifo s -> write_post copyin n i s r s' -> taken s' = taken s ++ w -> content (pi s') = content (pi s) ++ w.
Proof.
  intros [_ H1] [[_ H2] H3 _ _ _ _] Hw. rewrite H2, H3, H1, <- app_assoc in Hw. by apply app_inv_head in Hw.
Qed.

Lemma read_content n s r s' w :
  fifo s -> read_post n s r s' -> given s' = given s ++ w -> content (pi s) = w ++ content (pi s').
Proof.
  intros [_ H1] [[_ H2] H3 _ _ _ _] Hw. rewrite <- H3, H2, Hw, <- app_assoc in H1. by apply app_inv_head in H1.
Qed.

Lemma step_no_lost_wakeup s s' : step false s s' -> sys_fifo s -> no_lost_wakeup s -> no_lost_wakeup s'.
Proof.
  intros Hstep Hs [HW HR]. destruct Hstep as [k buf n Hk|k n Hk|k buf n i ks r st Hk Hi Hks Hrun|k n ks co r st Hk Hrun
    |k wr b st Hk Hrun|k buf n i Hk|k n Hk].
  1, 2, 6, 7: split; simpl; [intros k' b' n' i' Hl|intros k' n' Hl]; destruct (decide (k' = k)) as [->|Hne];
    [by rewrite lookup_insert_eq in Hl|rewrite lookup_insert_ne in Hl by done; by eauto
    |by rewrite lookup_insert_eq in Hl|rewrite lookup_insert_ne in Hl by done; by eauto].
  - rewrite (Hks eq_refl) in Hrun. pose proof (run_write _ _ _ _ _ _ _ Hs Hi Hrun) as HP.
    pose proof HP as [P1 P2 [P3 P4] (w & W1 & W2 & W3 & W4) _ _]. pose proof (write_content _ _ _ _ _ _ _ (fifo_section _ _ Hs) HP W1) as Hc.
    destruct P1 as [P1 _]. pose proof (content_bound _ P1) as Hb. split; simpl.
    + intros k' b' n' i' Hl. apply resume_sleeper in Hl as [[-> Hq]|(q0 & Hq0 & Hq)].
      * destruct r; simpl in Hq; simplify_eq. naive_solver.
      * symmetry in Hq. apply wake_wsleeping in Hq as [-> _]. destruct (HW _ _ _ _ Hq0) as [HF HO].
        apply full_content in HF; [|apply Hs]. simpl in Hc. rewrite Hc, length_app in Hb. split; [|by rewrite P3].
        apply full_content; [done|]. rewrite Hc, length_app. lia.
    + intros k' n' Hl. apply resume_sleeper in Hl as [[-> Hq]|(q0 & Hq0 & Hq)]; [by destruct r|].
      symmetry in Hq. apply wake_rsleeping in Hq as [-> Hno]. destruct (HR _ _ Hq0) as [HE HO].
      split; [|by rewrite P4]. destruct (W3 eq_refl) as [[_ ->]|?]; [|done].
      apply empty_content; [done|]. rewrite Hc, app_nil_r. apply empty_content; [apply Hs|done].
  - pose proof (run_read _ _ _ _ _ _ Hs Hrun) as HP.
    pose proof HP as [P1 P2 [P3 P4] (w & W1 & W2 & W3) _ _]. pose proof (read_content _ _ _ _ _ (fifo_section _ _ Hs) HP W1) as Hc.
    destruct P1 as [P1 _]. simpl in Hc. split; simpl.
    + intros k' b' n' i' Hl. apply resume_sleeper in Hl as [[-> Hq]|(q0 & Hq0 & Hq)]; [by destruct r|].
      symmetry in Hq. apply wake_wsleeping in Hq as [-> Hno]. destruct (HW _ _ _ _ Hq0) as [HF HO].
      assert (pi st = ring s) as ->; [|done]. destruct r; naive_solver.
    + intros k' n' Hl. apply resume_sleeper in Hl as [[-> Hq]|(q0 & Hq0 & Hq)].
      * destruct r; simpl in Hq; simplify_eq. naive_solver.
      * symmetry in Hq. apply wake_rsleeping in Hq as [-> Hno]. destruct (HR _ _ Hq0) as [HE HO].
        split; [|by rewrite P4]. apply empty_content in HE; [|apply Hs]. rewrite HE in Hc.
        symmetry in Hc. apply app_eq_nil in Hc as [_ Hc]. by apply empty_content.
  - destruct (run_close _ _ _ _ Hrun) as (E1 & E2 & E3 & E4 & E5 & E6).
    split; simpl; [intros k' b' n' i' Hl|intros k' n' Hl];
      (apply resume_sleeper in Hl as [[-> Hq]|(q0 & Hq0 & Hq)]; [done|symmetry in Hq]).
    + apply wake_wsleeping in Hq as [-> Hno]. destruct (HW _ _ _ _ Hq0) as [HF HO]. unfold full in *.
      rewrite E4, E5. destruct wr, E6 as [E6 E7]; [by rewrite E7|]. rewrite E6 in Hno. set_solver.
    + apply wake_rsleeping in Hq as [-> Hno]. destruct (HR _ _ Hq0) as [HE HO]. unfold empty in *.
      rewrite E4, E5. destruct wr, E6 as [E6 E7]; [|by rewrite E7]. rewrite E6 in Hno. set_solver.
Qed.

Lemma init_inv d ps : sys_init d ps ->
  let s := Sys (pipe_init d) ps [] [] in sys_fifo s /\ no_lost_wakeup s.
Proof.
  intros [Hd Hp] s. split.
  - split; [|done]. split; simpl; [done|lia|lia|]. unfold PIPESIZE. vm_compute. discriminate.
  - split; simpl; intros * Hk; apply Hp in Hk; done.
Qed.

Lemma reachable_fifo kill d ps s :
  sys_init d ps -> reachable kill (Sys (pipe_init d) ps [] []) s -> sys_fifo s.
Proof. intros Hi Hr. induction Hr; [by apply init_inv|by eapply step_fifo]. Qed.

Lemma reachable_wakeups d ps s :
  sys_init d ps -> reachable false (Sys (pipe_init d) ps [] []) s -> no_lost_wakeup s.
Proof.
  intros Hi Hr. pose proof (init_inv _ _ Hi) as [H1 H2].
  assert (sys_fifo s /\ no_lost_wakeup s) as [_ ?]; [|done].
  induction Hr as [|s s' Hr [IH1 IH2] Hs]; [done|]. split; [by eapply step_fifo|by eapply step_no_lost_wakeup].
Qed.

(** A reader that finds bytes takes some and wakes the writers. *)
Lemma wp_piperead_progress m s :
  fifo s -> ~ empty (pi s) ->
  wp (piperead (fun _ => true) m) (fun r s' => exists c, r = SRet c /\ (0 < m -> 0 < c) /\ CWrite ∈ woken s') s.
Proof.
  intros Hs Hne. unfold piperead, piperead_wait. wp_steps. unfold empty in Hne.
  replace (nread (pi s) =? nwrite (pi s)) with false by lia. simpl andb. cbv iota. wp_steps.
  assert (forall r s', (0 < m -> 0 < r) -> wp (wakeup CWrite;; mret (SRet r))
    (fun r s' => exists c, r = SRet c /\ (0 < m -> 0 < c) /\ CWrite ∈ woken s') s') as Hend.
  { intros r s' Hr. unfold wakeup. wp_steps. exists r. split_and!; [done|done|]. simpl. rewrite elem_of_app. right. left. }
  destruct (decide (0 < m)) as [Hm|Hm].
  - cbn [piperead_copy]. replace (0 <? m) with true by lia. wp_steps.
    replace (nread (pi s) =? nwrite (pi s)) with false by lia.
    destruct Hs as [Hok Hfifo]. destruct (popped_ok (pi s) Hok Hne) as (Hok' & ch & Hch & Hcont).
    wp_step. eapply wp_arr_get; [unfold PIPESIZE; zdiv|exact Hch|]. simpl negb. cbv iota.
    unfold take_byte. wp_steps. apply wp_piperead_copy; [|lia|lia|].
    { split; simpl; [done|]. by rewrite Hfifo, Hcont, <- app_assoc. }
    intros r s' w _ _ _ _ _ _ _ [->|(_ & _ & ?)]; [|lia]. apply Hend. lia.
  - apply wp_piperead_copy; [done|lia|lia|]. intros r s' w *. intros. apply Hend. lia.
Qed.

(** C14: a pipe is a first-in first-out channel whose users never sleep in
    vain.  In every interleaving of any number of [pipewrite], [piperead] and
    [pipeclose] calls, with spurious wakeups, the bytes read followed by the
    bytes in the ring are the bytes written.  As long as no writer is killed
    inside [pipewrite] (see [killed_writer_strands_reader] below), a writer
    sleeps only while the ring is full and the read end open, a reader only
    while it is empty and the write end open, so the two never sleep at once,
    and the next section of a reader wakes a sleeping writer, having taken a
    byte for it if it asks for one. *)
Theorem pipe_fifo_and_wakeups d ps s kill :
  sys_init d ps -> reachable kill (Sys (pipe_init d) ps [] []) s ->
  s_taken s = s_given s ++ content (ring s) /\ (length (content (ring s)) <= 512)%nat /\
  (kill = false -> no_lost_wakeup s /\
    (forall k b n i, procs s !! k = Some (WSleeping b n i) ->
       (forall k' n', procs s !! k' <> Some (RSleeping n')) /\
       (forall ks m, wp (piperead (fun _ => true) m)
          (fun r st => exists c, r = SRet c /\ (0 < m -> 0 < c) /\ CWrite ∈ woken st) (section_of s ks)))).
Proof.
  intros Hi Hr. pose proof (reachable_fifo _ _ _ _ Hi Hr) as Hf. pose proof Hf as [Hok Heq].
  split_and!; [done|by apply content_bound|]. intros ->. pose proof (reachable_wakeups _ _ _ Hi Hr) as HN.
  split; [done|]. intros k b n i Hk. destruct HN as [HW HR]. destruct (HW _ _ _ _ Hk) as [HF HO].
  pose proof (full_content _ Hok) as HFC. apply HFC in HF as HL.
  assert (~ empty (ring s)) as Hne.
  { intros HE. apply empty_content in HE; [|done]. by rewrite HE in HL. }
  split; [intros k' n' Hk'; by destruct (HR _ _ Hk') as [? _]|].
  intros ks m. by apply wp_piperead_progress; [apply fifo_section|].
Qed.

(** One reader and one writer; the reader goes to sleep first. *)
Abbreviation demo_ring := (pipe_init (replicate 512 0)).
Abbreviation demo_ps := (<[0%nat := Idle]> {[1%nat := Idle]} : gmap nat proc).
Abbreviation demo_sys := (Sys demo_ring demo_ps [] []).

Lemma demo_sys_init : sys_init (replicate 512 0) demo_ps.
Proof.
  split; [done|]. intros k p Hk. apply lookup_insert_Some in Hk as [[_ <-]|[_ Hk]]; [done|].
  by apply lookup_singleton_Some in Hk as [_ <-].
Qed.

(** The reader sleeps on the empty pipe, the writer stores two bytes and wakes
    it, the reader takes one. *)
Definition demo1 : sys := Sys demo_ring (<[0%nat := Reading 1]> demo_ps) [] [].
Definition demo2 : sys := resume demo1 0 (RSleeping 1) (section_of demo1 []).
Definition demo3 : sys := Sys (ring demo2) (<[1%nat := Writing [7; 8] 2 0]> (procs demo2)) [] [].
Definition demo_wrote : pst := Pst (pushed (pushed demo_ring 7) 8) [CRead] [] [7; 8] [].
Definition demo4 : sys := resume demo3 1 Idle demo_wrote.
Definition demo_read : pst := Pst (popped (ring demo4)) [CWrite] [] [7; 8] [7].
Definition demo5 : sys := resume demo4 0 Idle demo_read.

Lemma demo_five_steps : reachable false demo_sys demo5.
Proof.
  apply (r_step _ _ demo4); [apply (r_step _ _ demo3); [apply (r_step _ _ demo2); [apply (r_step _ _ demo1);
    [apply (r_step _ _ demo_sys); [apply r_init|]|]|]|]|].
  - exact (st_read false demo_sys 0%nat 1 eq_refl).
  - exact (st_run_read false demo1 0%nat 1 [] (fun _ => true) (SSleep 0) (section_of demo1 []) eq_refl eq_refl).
  - exact (st_write false demo2 1%nat [7; 8] 2 eq_refl).
  - refine (st_run_write false demo3 1%nat [7; 8] 2 0 [] (SRet 2) demo_wrote eq_refl _ _ _); [lia|done|vm_compute; reflexivity].
  - refine (st_run_read false demo4 0%nat 1 [] (fun _ => true) (SRet 1) demo_read _ _); vm_compute; reflexivity.
Qed.

Lemma pipe_fifo_and_wakeups_witness :
  procs demo2 !! 0%nat = Some (RSleeping 1) /\ procs demo4 !! 0%nat = Some (Reading 1) /\ s_given demo5 = [7] /\ content (ring demo5) = [8] /\
  s_taken demo5 = s_given demo5 ++ content (ring demo5) /\
  (length (content (ring demo5)) <= 512)%nat /\
  (false = false -> no_lost_wakeup demo5 /\
    (forall k b n i, procs demo5 !! k = Some (WSleeping b n i) ->
       (forall k' n', procs demo5 !! k' <> Some (RSleeping n')) /\
       (forall ks m, wp (piperead (fun _ => true) m)
          (fun r st => exists c, r = SRet c /\ (0 < m -> 0 < c) /\ CWrite ∈ woken st) (section_of demo5 ks)))).
Proof.
  do 4 (split; [vm_compute; reflexivity|]).
  exact (pipe_fifo_and_wakeups (replicate 512 0) demo_ps demo5 false demo_sys_init demo_five_steps).
Defined.

(** ** A killed writer *)

(** [pipewrite] returns without a [wakeup] when it finds its process killed,
    also after it has put bytes into the ring: a reader that slept before
    stays asleep with bytes to read. *)
Definition strand_pst : pst := Pst (pushed demo_ring 7) [] [] [7] [].
Definition strand4 : sys := resume demo3 1 Idle strand_pst.

Theorem killed_writer_strands_reader :
  reachable true demo_sys strand4 /\ procs strand4 !! 0%nat = Some (RSleeping 1) /\ content (ring strand4) = [7].
Proof.
  split_and!; [|vm_compute; reflexivity..].
  apply (r_step _ _ demo3); [apply (r_step _ _ demo2); [apply (r_step _ _ demo1);
    [apply (r_step _ _ demo_sys); [apply r_init|]|]|]|].
  - exact (st_read true demo_sys 0%nat 1 eq_refl).
  - exact (st_run_read true demo1 0%nat 1 [] (fun _ => true) (SSleep 0) (section_of demo1 []) eq_refl eq_refl).
  - exact (st_write true demo2 1%nat [7; 8] 2 eq_refl).
  - refine (st_run_write true demo3 1%nat [7; 8] 2 0 [false; true] (SRet (-1)) strand_pst eq_refl _ _ _);
      [lia|done|vm_compute; reflexivity].
Qed.
