(* ===== verification/Console.v ===== *)
(** * The console (kernel/console.c)

    The console's input buffer is a ring of INPUT_BUF_SIZE bytes with three
    free-running 32-bit indices: [r] (next byte to read), [w] (end of the
    lines that readers may take) and [e] (end of the line being edited).
    [consoleintr] and [consoleread] run under the console's lock from
    [acquire] to [release] except while a reader sleeps, so each is a
    sequence of critical sections; [consoleread_loop] ends in a return or in
    a [sleep] and a woken reader resumes it.

    The specification is a line editor on two lists: the input committed to
    the readers and the line being typed.  Whatever comes from the keyboard
    and whoever reads, the ring implements it. *)

From Stdlib Require Import ZArith Lia Bool String.
From stdpp Require Import base gmap list strings.
From S2P Require Import Prelude.

Definition INPUT_BUF_SIZE : Z := 128.
Definition BACKSPACE : Z := 256.
(** [C(x)] for an upper-case letter. *)
Definition ctrl (x : Z) : Z := x - 64.
Abbreviation ctrl_D := (ctrl 68).
Abbreviation ctrl_H := (ctrl 72).
Abbreviation ctrl_P := (ctrl 80).
Abbreviation ctrl_U := (ctrl 85).
Abbreviation ch_nl := 10.
Abbreviation ch_cr := 13.
Abbreviation ch_del := 127.

Record console := mkConsole { c_buf : list Z; c_r : Z; c_w : Z; c_e : Z }.

Record cst := mkCst {
  cons : console;
  uart : list Z;       (* the characters sent to the uart, oldest first *)
  wakeups : nat;       (* how often [wakeup(&cons->r)] was called *)
  given : list Z       (* the bytes copied out to readers, oldest first *)
}.

Definition set_cons c s := mkCst c (uart s) (wakeups s) (given s).
Definition set_r v c := mkConsole (c_buf c) v (c_w c) (c_e c).
Definition set_w v c := mkConsole (c_buf c) (c_r c) v (c_e c).
Definition set_e v c := mkConsole (c_buf c) (c_r c) (c_w c) v.
Definition set_buf v c := mkConsole v (c_r c) (c_w c) (c_e c).
Definition upd_cons (f : console -> console) : M cst unit := modify (fun s => set_cons (f (cons s)) s).

Definition send (l : list Z) : M cst unit := modify (fun s => mkCst (cons s) (uart s ++ l) (wakeups s) (given s)).

Definition consputc (c : Z) : M cst unit :=
  if c =? BACKSPACE then send [8];; send [32];; send [8] else send [c].

(** [wakeup(&cons->r)] *)
Definition wakeup_readers : M cst unit := modify (fun s => mkCst (cons s) (uart s) (S (wakeups s)) (given s)).

(** [while(cons->e != cons->w && cons->buf[(cons->e-1) % INPUT_BUF_SIZE] != '\n')] *)
Fixpoint kill_line (fuel : nat) : M cst unit :=
  match fuel with
  | O => out_of_fuel
  | S f =>
      c ← gets cons;
      if c_e c =? c_w c then mret tt
      else
        x ← arr_get (c_buf c) (u32 (c_e c - 1) mod INPUT_BUF_SIZE);
        if x =? ch_nl then mret tt
        else upd_cons (set_e (u32 (c_e c - 1)));; consputc BACKSPACE;; kill_line f
  end.

(** [dump] is what [procdump] prints. *)
Definition consoleintr (dump : list Z) (c : Z) : M cst unit :=
  if c =? ctrl_P then send dump
  else if c =? ctrl_U then kill_line (S (Z.to_nat INPUT_BUF_SIZE))
  else if (c =? ctrl_H) || (c =? ch_del) then
    k ← gets cons;
    if negb (c_e k =? c_w k) then upd_cons (set_e (u32 (c_e k - 1)));; consputc BACKSPACE else mret tt
  else
    k ← gets cons;
    if negb (c =? 0) && (u32 (c_e k - c_r k) <? INPUT_BUF_SIZE) then
      let c := if c =? ch_cr then ch_nl else c in
      consputc c;;
      b ← of_arr (arr_set (c_buf k) (c_e k mod INPUT_BUF_SIZE) (u8 c));
      upd_cons (set_buf b);;
      upd_cons (set_e (u32 (c_e k + 1)));;
      k ← gets cons;
      if (c =? ch_nl) || (c =? ctrl_D) || (u32 (c_e k - c_r k) =? INPUT_BUF_SIZE) then
        upd_cons (set_w (c_e k));; wakeup_readers
      else mret tt
    else mret tt.

(** A section of [consoleread] ends with a return or asleep with [n] bytes
    still wanted. *)
Inductive rres := RRet (v : Z) | RSleep (n : Z).

(** [target] bytes were asked for, [n] are still wanted; [cout i] says
    whether [either_copyout] to offset [i] succeeds. *)
Fixpoint consoleread_loop (fuel : nat) (cout : Z -> bool) (killed : bool) (target n : Z) : M cst rres :=
  match fuel with
  | O => out_of_fuel
  | S f =>
      if n >? 0 then
        k ← gets cons;
        if c_r k =? c_w k then (if killed then mret (RRet (-1)) else mret (RSleep n))
        else
          c ← arr_get (c_buf k) (c_r k mod INPUT_BUF_SIZE);
          upd_cons (set_r (u32 (c_r k + 1)));;
          if c =? ctrl_D then
            (if n <? target then k ← gets cons; upd_cons (set_r (u32 (c_r k - 1))) else mret tt);;
            mret (RRet (target - n))
          else if cout (target - n) then
            modify (fun s => mkCst (cons s) (uart s) (wakeups s) (given s ++ [c]));;
            if c =? ch_nl then mret (RRet (target - (n - 1)))
            else consoleread_loop f cout killed target (n - 1)
          else mret (RRet (target - n))
      else mret (RRet (target - n))
  end.

Definition consoleread (cout : Z -> bool) (killed : bool) (target n : Z) : M cst rres :=
  consoleread_loop (S (Z.to_nat n)) cout killed target n.

(** [cin i nn] is what [either_copyin] delivers from offset [i]. *)
Fixpoint consolewrite (fuel : nat) (cin : Z -> Z -> option (list Z)) (n i : Z) : M cst Z :=
  match fuel with
  | O => out_of_fuel
  | S f =>
      if i <? n then
        let nn := Z.min 32 (n - i) in
        match cin i nn with
        | None => mret i
        | Some bytes => send bytes;; consolewrite f cin n (i + nn)
        end
      else mret i
  end.

(** ** The specification: a line editor *)

(** What [consoleread] may take, and the line being typed. *)
Record lines := mkLines { l_done : list Z; l_edit : list Z }.

Definition room (t : lines) : bool := (Z.of_nat (length (l_done t)) + Z.of_nat (length (l_edit t)) <? INPUT_BUF_SIZE).

Definition newline (c : Z) : Z := if c =? ch_cr then ch_nl else c.

(** One key. *)
Definition key (c : Z) (t : lines) : lines :=
  if c =? ctrl_P then t
  else if c =? ctrl_U then mkLines (l_done t) []
  else if (c =? ctrl_H) || (c =? ch_del) then mkLines (l_done t) (take (length (l_edit t) - 1) (l_edit t))
  else if negb (c =? 0) && room t then
    let l := l_edit t ++ [newline c] in
    if (newline c =? ch_nl) || (newline c =? ctrl_D) || negb (room (mkLines (l_done t) l)) then mkLines (l_done t ++ l) []
    else mkLines (l_done t) l
  else t.

Definition erased (n : nat) : list Z := concat (replicate n [8; 32; 8]).

(** What the user sees of it. *)
Definition echo (dump : list Z) (c : Z) (t : lines) : list Z :=
  if c =? ctrl_P then dump
  else if c =? ctrl_U then erased (length (l_edit t))
  else if (c =? ctrl_H) || (c =? ch_del) then erased (Nat.min 1 (length (l_edit t)))
  else if negb (c =? 0) && room t then [newline c] else [].

(** How a read ends: it returns, or it waits for more. *)
Fixpoint take_line (n : nat) (first : bool) (cout : Z -> bool) (i : Z) (q : list Z) : list Z * list Z * bool :=
  match n, q with
  | O, _ => ([], q, true)
  | S _, [] => ([], [], false)
  | S n, c :: q' =>
      if c =? ctrl_D then ([], if first then q' else q, true)
      else if cout i then
        if c =? ch_nl then ([c], q', true)
        else let '(g, q2, fin) := take_line n false cout (i + 1) q' in (c :: g, q2, fin)
      else ([], q', true)
  end.

(** ** The ring implements it *)

Definition size (l : list Z) : Z := Z.of_nat (length l).

Record crep (k : console) (t : lines) : Prop := {
  cr_len : length (c_buf k) = 128%nat;
  cr_r : 0 <= c_r k < 2 ^ 32;
  cr_done : c_w k = u32 (c_r k + size (l_done t));
  cr_edit : c_e k = u32 (c_r k + size (l_done t) + size (l_edit t));
  cr_fit : size (l_done t) + size (l_edit t) <= 128;
  cr_bytes : forall i x, (l_done t ++ l_edit t) !! i = Some x -> c_buf k !! Z.to_nat ((c_r k + Z.of_nat i) mod 128) = Some x;
  cr_line : ch_nl ∉ l_edit t
}.

Lemma size_app l m : size (l ++ m) = size l + size m.
Proof. unfold size. rewrite length_app. lia. Qed.

Lemma exists_last_or_nil (l : list Z) : l = [] \/ exists l' x, l = l' ++ [x].
Proof. destruct l as [|x l _] using rev_ind; eauto. Qed.

Lemma size_pos l : 0 <= size l.
Proof. unfold size. lia. Qed.

Lemma size_nil l : size l = 0 -> l = [].
Proof. unfold size. intros H. apply nil_length_inv. lia. Qed.

Lemma crep_used k t : crep k t -> u32 (c_e k - c_r k) = size (l_done t) + size (l_edit t).
Proof.
  intros [_ H1 H2 H3 H4 _ _]. rewrite H3. pose proof (size_pos (l_done t)). pose proof (size_pos (l_edit t)). unfold u32. zdiv.
Qed.

Lemma crep_no_line k t : crep k t -> c_e k = c_w k <-> l_edit t = [].
Proof.
  intros [_ H1 H2 H3 H4 _ _]. rewrite H2, H3. pose proof (size_pos (l_done t)). pose proof (size_pos (l_edit t)). split.
  - intros E. apply size_nil. unfold u32 in E. zdiv.
  - intros ->. change (size []) with 0. f_equal. lia.
Qed.

Lemma crep_no_input k t : crep k t -> c_r k = c_w k <-> l_done t = [].
Proof.
  intros [_ H1 H2 H3 H4 _ _]. rewrite H2. pose proof (size_pos (l_done t)). pose proof (size_pos (l_edit t)). split.
  - intros E. apply size_nil. unfold u32 in E. zdiv.
  - intros ->. change (size []) with 0. unfold u32. zdiv.
Qed.

(** The last character of the line is erased. *)
Lemma crep_erase k q l x : crep k (mkLines q (l ++ [x])) ->
  crep (set_e (u32 (c_e k - 1)) k) (mkLines q l) /\
  c_buf k !! Z.to_nat (u32 (c_e k - 1) mod INPUT_BUF_SIZE) = Some x /\ x <> ch_nl /\ c_e k <> c_w k.
Proof.
  intros Hk. pose proof Hk as [H0 H1 H2 H3 H4 H5 H6]. cbn [l_done l_edit] in *. rewrite size_app in H3, H4.
  change (size [x]) with 1 in *. pose proof (size_pos q). pose proof (size_pos l).
  assert (u32 (c_e k - 1) = u32 (c_r k + size q + size l)) as He by (rewrite H3; unfold u32; zdiv).
  rewrite elem_of_app, list_elem_of_singleton in H6. split_and!.
  - split; cbn [set_e c_buf c_r c_w c_e l_done l_edit]; [done|done|done|done|lia| |tauto].
    intros i y Hy. apply H5. rewrite app_assoc. by apply lookup_app_l_Some.
  - rewrite He. specialize (H5 (length q + length l)%nat x).
    replace (u32 (c_r k + size q + size l) mod INPUT_BUF_SIZE) with ((c_r k + Z.of_nat (length q + length l)) mod 128).
    + apply H5. rewrite lookup_app_r, lookup_app_r by lia. by replace (length q + length l - length q - length l)%nat with 0%nat by lia.
    + unfold u32, INPUT_BUF_SIZE, size in *. zdiv.
  - intros ->. tauto.
  - rewrite (crep_no_line _ _ Hk). cbn. by destruct l.
Qed.

(** A character is stored; the line may be committed. *)
Lemma crep_store k t c : crep k t -> size (l_done t) + size (l_edit t) < 128 ->
  let k' := set_e (u32 (c_e k + 1)) (set_buf (<[Z.to_nat (c_e k mod INPUT_BUF_SIZE) := c]> (c_buf k)) k) in
  (c <> ch_nl -> crep k' (mkLines (l_done t) (l_edit t ++ [c]))) /\
  crep (set_w (c_e k') k') (mkLines (l_done t ++ l_edit t ++ [c]) []).
Proof.
  intros [H0 H1 H2 H3 H4 H5 H6] Hlt. pose proof (size_pos (l_done t)). pose proof (size_pos (l_edit t)).
  set (n := size (l_done t) + size (l_edit t)) in *.
  assert (forall i x, (l_done t ++ l_edit t ++ [c]) !! i = Some x ->
    <[Z.to_nat (c_e k mod INPUT_BUF_SIZE) := c]> (c_buf k) !! Z.to_nat ((c_r k + Z.of_nat i) mod 128) = Some x) as Hb.
  { intros i x. rewrite app_assoc. intros Hi. pose proof (lookup_lt_Some _ _ _ Hi) as Hlen. rewrite !length_app in Hlen. cbn in Hlen.
    unfold INPUT_BUF_SIZE, n, size in *. apply lookup_app_Some in Hi as [Hi|[Hge Hi]].
    - pose proof (lookup_lt_Some _ _ _ Hi) as Hlt2. rewrite length_app in Hlt2. rewrite list_lookup_insert_ne; [by apply H5|].
      rewrite H3. unfold u32. zdiv.
    - rewrite length_app in Hge. replace (Z.of_nat i) with (Z.of_nat (length (l_done t)) + Z.of_nat (length (l_edit t))) by lia.
      replace (c_e k mod 128) with ((c_r k + (Z.of_nat (length (l_done t)) + Z.of_nat (length (l_edit t)))) mod 128) by (rewrite H3; unfold u32; zdiv).
      rewrite list_lookup_insert_eq by (rewrite H0; zdiv). by apply list_lookup_singleton_Some in Hi as [_ <-]. }
  assert (u32 (c_e k + 1) = u32 (c_r k + size (l_done t) + (size (l_edit t) + 1))) as He by (rewrite H3; unfold u32; zdiv).
  split.
  - intros Hc. split; cbn [set_e set_buf c_buf c_r c_w c_e l_done l_edit]; rewrite ?length_insert, ?size_app; change (size [c]) with 1; try done; [lia|].
    rewrite elem_of_app, list_elem_of_singleton. intros [?|?]; congruence.
  - split; cbn [set_e set_w set_buf c_buf c_r c_w c_e l_done l_edit]; rewrite ?length_insert, ?app_nil_r, ?size_app; change (size [c]) with 1; change (size []) with 0; try done.
    + rewrite He. f_equal. lia.
    + rewrite He. f_equal. lia.
    + lia.
    + by apply not_elem_of_nil.
Qed.

(** The oldest byte is taken. *)
Lemma crep_pop k c q l : crep k (mkLines (c :: q) l) ->
  c_buf k !! Z.to_nat (c_r k mod INPUT_BUF_SIZE) = Some c /\ c_r k <> c_w k /\
  crep (set_r (u32 (c_r k + 1)) k) (mkLines q l) /\ u32 (u32 (c_r k + 1) - 1) = c_r k.
Proof.
  intros Hk. pose proof Hk as [H0 H1 H2 H3 H4 H5 H6]. cbn [l_done l_edit] in *.
  assert (size (c :: q) = size q + 1) as Hs by (unfold size; cbn; lia). rewrite Hs in *. pose proof (size_pos q). pose proof (size_pos l). split_and!.
  - specialize (H5 0%nat c eq_refl). rewrite Z.add_0_r in H5. exact H5.
  - rewrite (crep_no_input _ _ Hk). done.
  - split; cbn [set_r c_buf c_r c_w c_e l_done l_edit]; [done|unfold u32; zdiv|rewrite H2; unfold u32; zdiv|rewrite H3; unfold u32; zdiv|lia| |done].
    intros i x Hx. specialize (H5 (S i) x Hx). replace ((u32 (c_r k + 1) + Z.of_nat i) mod 128) with ((c_r k + Z.of_nat (S i)) mod 128); [done|].
    unfold u32. zdiv.
  - unfold u32. zdiv.
Qed.

(** ** The routines *)

Definition console_at (s : cst) (t : lines) : Prop := crep (cons s) t.

Lemma wp_send l (Q : unit -> cst -> Prop) s : Q tt (mkCst (cons s) (uart s ++ l) (wakeups s) (given s)) -> wp (send l) Q s.
Proof. done. Qed.

Lemma wp_erase_echo (Q : unit -> cst -> Prop) s :
  Q tt (mkCst (cons s) (uart s ++ [8; 32; 8]) (wakeups s) (given s)) -> wp (consputc BACKSPACE) Q s.
Proof. intros HQ. unfold consputc. change (BACKSPACE =? BACKSPACE) with true. cbv iota. do 2 (wp_step; apply wp_send). apply wp_send. cbn. by rewrite <- !app_assoc. Qed.

Lemma wp_kill_line q : forall l f s (Q : unit -> cst -> Prop),
  console_at s (mkLines q l) -> (length l < f)%nat ->
  (forall k', crep k' (mkLines q []) -> Q tt (mkCst k' (uart s ++ erased (length l)) (wakeups s) (given s))) ->
  wp (kill_line f) Q s.
Proof.
  induction l as [|x l IH] using rev_ind; intros f s Q Hs Hf HQ; (destruct f as [|f]; [cbn in Hf; lia|]); cbn [kill_line]; wp_step; apply wp_gets.
  - rewrite (proj2 (Z.eqb_eq _ _)) by (by apply (crep_no_line _ _ Hs)). wp_step. specialize (HQ _ Hs). cbn in HQ. rewrite app_nil_r in HQ. by destruct s.
  - destruct (crep_erase _ _ _ _ Hs) as (H1 & H2 & H3 & H4). rewrite (proj2 (Z.eqb_neq _ _) H4).
    wp_step. apply (wp_arr_get _ _ x); [unfold INPUT_BUF_SIZE; zdiv|done|]. rewrite (proj2 (Z.eqb_neq _ _) H3).
    wp_step. apply wp_modify. wp_step. apply wp_erase_echo. rewrite length_app in Hf. cbn in Hf.
    apply IH; [exact H1|lia|]. intros k' Hk'. cbn [uart wakeups given set_cons]. specialize (HQ k' Hk').
    rewrite length_app, Nat.add_comm in HQ. unfold erased in *. cbn [Nat.add replicate concat length] in HQ. by rewrite <- app_assoc.
Qed.

Definition woke (t t' : lines) (s s' : cst) : Prop :=
  wakeups s' = if bool_decide (l_done t' = l_done t) then wakeups s else S (wakeups s).

Lemma room_size t : room t = (size (l_done t) + size (l_edit t) <? 128).
Proof. done. Qed.

Lemma app_neq_self (l m : list Z) : m <> [] -> l ++ m <> l.
Proof. intros Hm E. apply (f_equal length) in E. rewrite length_app in E. destruct m; [done|cbn in E; lia]. Qed.

(** [consoleintr] is one key of the line editor, with its echo; readers are
    woken exactly when there is new input for them. *)
Lemma wp_consoleintr dump c s t :
  console_at s t -> 0 <= c < 256 ->
  wp (consoleintr dump c) (fun _ s' => console_at s' (key c t) /\ uart s' = uart s ++ echo dump c t /\
    given s' = given s /\ woke t (key c t) s s') s.
Proof.
  intros Hs Hc. destruct t as [q l]. unfold consoleintr, key, echo, woke. destruct (c =? ctrl_P).
  { apply wp_send. by rewrite bool_decide_eq_true_2. }
  destruct (c =? ctrl_U).
  { apply (wp_kill_line q l); [done| |].
    - pose proof (cr_fit _ _ Hs) as Hf. cbn in Hf. unfold size, INPUT_BUF_SIZE in *. lia.
    - intros k' Hk'. cbn. by rewrite bool_decide_eq_true_2. }
  destruct ((c =? ctrl_H) || (c =? ch_del)).
  { wp_step. apply wp_gets. destruct (exists_last_or_nil l) as [->|(l' & x & ->)].
    - rewrite (proj2 (Z.eqb_eq _ _)) by (by apply (crep_no_line _ _ Hs)). cbn [negb]. wp_step. cbn. by rewrite app_nil_r, bool_decide_eq_true_2.
    - destruct (crep_erase _ _ _ _ Hs) as (H1 & H2 & H3 & H4). rewrite (proj2 (Z.eqb_neq _ _) H4). cbn [negb].
      wp_step. apply wp_modify. apply wp_erase_echo. cbn [l_edit l_done]. rewrite length_app. cbn [length].
      replace (length l' + 1 - 1)%nat with (length l') by lia. rewrite take_app_length, bool_decide_eq_true_2 by done.
      replace (Nat.min 1 (length l' + 1)) with 1%nat by lia. done. }
  wp_step. apply wp_gets. rewrite (crep_used _ _ Hs), room_size. cbn [l_done l_edit]. change INPUT_BUF_SIZE with 128.
  destruct (negb (c =? 0) && (size q + size l <? 128)) eqn:Eroom; [|wp_step; cbn; by rewrite app_nil_r, bool_decide_eq_true_2].
  apply andb_prop in Eroom as [_ Eroom]. apply Z.ltb_lt in Eroom. fold (newline c). set (c' := newline c).
  assert (0 <= c' < 256) as Hc' by (unfold c', newline; case_match; lia).
  destruct (crep_store _ _ c' Hs Eroom) as [Hst1 Hst2]. cbn [l_done l_edit] in Hst1, Hst2. change INPUT_BUF_SIZE with 128 in *.
  wp_step. unfold consputc. rewrite (proj2 (Z.eqb_neq c' BACKSPACE)) by (unfold BACKSPACE; lia). apply wp_send. wp_step.
  rewrite arr_set_ok by (rewrite (cr_len _ _ Hs); zdiv). cbn [of_arr]. wp_step. unfold u8. rewrite (Z.mod_small c' (2 ^ 8)) by lia.
  wp_step. apply wp_modify. wp_step. apply wp_modify. wp_step. apply wp_gets. cbn [cons set_cons set_e set_buf c_e c_r c_buf c_w].
  assert (u32 (u32 (c_e (cons s) + 1) - c_r (cons s)) = size q + size (l ++ [c'])) as Hu.
  { pose proof (crep_used _ _ Hst2) as Hu. cbn [set_e set_w set_buf c_e c_r l_done l_edit] in Hu. rewrite Hu, !size_app. change (size []) with 0. lia. }
  rewrite Hu, room_size. cbn [l_done l_edit].
  assert ((size q + size (l ++ [c']) =? 128) = negb (size q + size (l ++ [c']) <? 128)) as ->.
  { rewrite size_app. change (size [c']) with 1. destruct (Z.eqb_spec (size q + (size l + 1)) 128), (Z.ltb_spec (size q + (size l + 1)) 128); done || lia. }
  destruct ((c' =? ch_nl) || (c' =? ctrl_D) || negb (size q + size (l ++ [c']) <? 128)) eqn:Ecommit.
  - wp_step. apply wp_modify. apply wp_modify. cbn. rewrite bool_decide_eq_false_2; [done|]. apply app_neq_self. by destruct l.
  - wp_step. apply orb_false_iff in Ecommit as [[E1 _]%orb_false_iff _]. cbn. rewrite bool_decide_eq_true_2 by done. split; [|done].
    apply Hst1. lia.
Qed.

(** [consoleread] takes from the committed input what [take_line] says. *)
Lemma wp_consoleread_loop cout kl target : forall f n s q l,
  console_at s (mkLines q l) -> 0 <= n <= target -> (Z.to_nat n < f)%nat ->
  wp (consoleread_loop f cout kl target n) (fun r s' =>
    let '(g, q', fin) := take_line (Z.to_nat n) (n =? target) cout (target - n) q in
    console_at s' (mkLines q' l) /\ given s' = given s ++ g /\ uart s' = uart s /\ wakeups s' = wakeups s /\
    r = if fin then RRet (target - n + size g) else if kl then RRet (-1) else RSleep (n - size g)) s.
Proof.
  induction f as [|f IH]; intros n s q l Hs Hn Hf; [lia|]. cbn [consoleread_loop]. destruct (Z.gtb_spec n 0) as [Hpos|Hz].
  2: { assert (n = 0) as -> by lia. change (Z.to_nat 0) with O. wp_step. cbn [take_line]. cbn beta iota. rewrite app_nil_r. split_and!; try done. f_equal. change (size []) with 0. lia. }
  replace (Z.to_nat n) with (S (Z.to_nat (n - 1))) by lia. wp_step. apply wp_gets. destruct q as [|c q].
  { rewrite (proj2 (Z.eqb_eq _ _)) by (by apply (crep_no_input _ _ Hs)). cbn [take_line]. destruct kl; wp_step; cbn beta iota; rewrite app_nil_r; split_and!; try done.
    f_equal. change (size []) with 0. lia. }
  destruct (crep_pop _ _ _ _ Hs) as (H1 & H2 & H3 & H4). rewrite (proj2 (Z.eqb_neq _ _) H2). cbn [take_line].
  wp_step. apply (wp_arr_get _ _ c); [unfold INPUT_BUF_SIZE; zdiv|done|]. wp_step. apply wp_modify. destruct (c =? ctrl_D).
  - wp_step. destruct (Z.ltb_spec n target) as [Hlt|Hge].
    + rewrite (proj2 (Z.eqb_neq n target)) by lia. wp_step. apply wp_gets. apply wp_modify. wp_step. cbn beta iota. rewrite app_nil_r. split_and!; try done.
      * unfold console_at. cbn [cons set_cons set_r c_r c_buf c_w c_e]. rewrite H4. destruct s as [[] ? ? ?]. exact Hs.
      * f_equal. change (size []) with 0. lia.
    + rewrite (proj2 (Z.eqb_eq n target)) by lia. wp_step. wp_step. cbn beta iota. rewrite app_nil_r. split_and!; try done. f_equal. change (size []) with 0. lia.
  - destruct (cout (target - n)).
    + wp_step. apply wp_modify. destruct (c =? ch_nl).
      * wp_step. cbn beta iota. split_and!; try done. f_equal. change (size [c]) with 1. lia.
      * eapply wp_mono; [apply (IH (n - 1) _ q l); [exact H3|lia|lia]|]. cbn beta. intros r s'.
        rewrite (proj2 (Z.eqb_neq (n - 1) target)) by lia. replace (target - (n - 1)) with (target - n + 1) by lia.
        destruct (take_line _ _ _ _ _) as [[g q2] fin]. cbn [given uart wakeups]. intros (A1 & A2 & A3 & A4 & ->). split_and!; try done.
        -- rewrite A2. by rewrite <- app_assoc.
        -- assert (size (c :: g) = size g + 1) as -> by (unfold size; cbn; lia). destruct fin; [f_equal; lia|]. destruct kl; [done|f_equal; lia].
    + wp_step. cbn beta iota. rewrite app_nil_r. split_and!; try done. f_equal. change (size []) with 0. lia.
Qed.

(** What [consolewrite] sends is a prefix of the user's bytes, all of them
    unless a copy fails. *)
Lemma wp_consolewrite cin src n : n = size src ->
  (forall i nn b, 0 <= i -> cin i nn = Some b -> b = take (Z.to_nat nn) (drop (Z.to_nat i) src)) ->
  forall f i s, 0 <= i <= n -> (Z.to_nat (n - i) < f)%nat ->
  wp (consolewrite f cin n i) (fun r s' =>
    i <= r <= n /\ uart s' = uart s ++ take (Z.to_nat (r - i)) (drop (Z.to_nat i) src) /\ cons s' = cons s /\
    (r = n \/ cin r (Z.min 32 (n - r)) = None)) s.
Proof.
  intros Hn Hcin. induction f as [|f IH]; intros i s Hi Hf; [lia|]. cbn [consolewrite]. destruct (Z.ltb_spec i n) as [Hlt|Hge].
  2: { wp_step. replace (i - i) with 0 by lia. rewrite take_0, app_nil_r. split_and!; [lia|lia|done|done|left; lia]. }
  destruct (cin i (Z.min 32 (n - i))) as [b|] eqn:E.
  2: { wp_step. replace (i - i) with 0 by lia. rewrite take_0, app_nil_r. split_and!; [lia|lia|done|done|by right]. }
  pose proof (Hcin i _ b ltac:(lia) E) as ->. wp_step. apply wp_send. set (nn := Z.min 32 (n - i)) in *.
  eapply wp_mono; [apply IH; lia|]. cbn beta. intros r s' (H1 & H2 & H3 & H4). split_and!; [lia|lia| |done|done].
  rewrite H2. cbn [uart]. rewrite <- app_assoc. f_equal. replace (Z.to_nat (r - i)) with (Z.to_nat nn + Z.to_nat (r - (i + nn)))%nat by lia.
  rewrite (Z2Nat.inj_add i nn), <- drop_drop by lia. apply take_take_drop.
Qed.

(** ** Any sequence of keys and reads *)

Inductive event :=
  | Key (c : Z)
  | Reading (cout : Z -> bool) (killed : bool) (target n : Z).

Definition event_ok (ev : event) : Prop :=
  match ev with Key c => 0 <= c < 256 | Reading _ _ target n => 0 <= n <= target end.

Fixpoint run (dump : list Z) (evs : list event) : M cst (list rres) :=
  match evs with
  | [] => mret []
  | Key c :: evs => consoleintr dump c;; run dump evs
  | Reading cout kl target n :: evs =>
      r ← consoleread cout kl target n;
      rs ← run dump evs;
      mret (r :: rs)
  end.

(** The editor's answer: its lists at the end, the bytes given to readers,
    the echo, the wakeups, and how each read ended. *)
Record answer := mkAnswer { a_lines : lines; a_given : list Z; a_echo : list Z; a_wakes : nat; a_reads : list rres }.

Fixpoint edit (dump : list Z) (evs : list event) (t : lines) : answer :=
  match evs with
  | [] => mkAnswer t [] [] 0 []
  | Key c :: evs =>
      let a := edit dump evs (key c t) in
      mkAnswer (a_lines a) (a_given a) (echo dump c t ++ a_echo a)
        ((if bool_decide (l_done (key c t) = l_done t) then 0 else 1) + a_wakes a) (a_reads a)
  | Reading cout kl target n :: evs =>
      let '(g, q, fin) := take_line (Z.to_nat n) (n =? target) cout (target - n) (l_done t) in
      let a := edit dump evs (mkLines q (l_edit t)) in
      mkAnswer (a_lines a) (g ++ a_given a) (a_echo a) (a_wakes a)
        ((if fin then RRet (target - n + size g) else if kl then RRet (-1) else RSleep (n - size g)) :: a_reads a)
  end.

(** C33: the console is a line editor.  Whatever keys arrive and whoever
    reads, in any order, the ring buffer behaves as two lists, the input
    committed to the readers and the line being typed: backspace and ^U edit
    only the typed line, a newline, ^D or a full buffer commits it, input
    beyond the buffer's size is dropped, a read takes at most one line and
    stops at ^D, readers are woken exactly when the committed input grows,
    and a read sleeps only when no committed input is left.  No index leaves
    the buffer, though the indices run freely and wrap around. *)
Theorem console_line_editor dump evs s t :
  console_at s t -> Forall event_ok evs ->
  wp (run dump evs) (fun rs s' => let a := edit dump evs t in
    console_at s' (a_lines a) /\ given s' = given s ++ a_given a /\ uart s' = uart s ++ a_echo a /\
    wakeups s' = (a_wakes a + wakeups s)%nat /\ rs = a_reads a) s.
Proof.
  revert s t. induction evs as [|[c|cout kl target n] evs IH]; intros s t Hs Hev; cbn [run edit].
  - wp_step. cbn. by rewrite !app_nil_r.
  - inversion_clear Hev as [|? ? Hc Hev']. wp_step. eapply wp_mono; [by apply wp_consoleintr|]. cbn beta. intros _ s1 (H1 & H2 & H3 & H4).
    eapply wp_mono; [by apply (IH s1 (key c t))|]. cbn beta zeta. intros rs s2 (G1 & G2 & G3 & G4 & ->).
    cbn [a_lines a_given a_echo a_wakes a_reads]. unfold woke in H4. split_and!; [done|congruence|by rewrite G3, H2, <- app_assoc| |done].
    rewrite G4, H4. case_bool_decide; lia.
  - inversion_clear Hev as [|? ? Hn Hev']. cbn in Hn. destruct t as [q l]. wp_step. eapply wp_mono.
    { apply (wp_consoleread_loop cout kl target _ n s q l); [done|lia|lia]. }
    cbn beta. intros r s1. cbn [l_done l_edit]. destruct (take_line _ _ _ _ _) as [[g q'] fin]. intros (H1 & H2 & H3 & H4 & ->).
    wp_step. eapply wp_mono; [by apply (IH s1 (mkLines q' l))|]. cbn beta zeta. intros rs s2 (G1 & G2 & G3 & G4 & ->). wp_step.
    cbn [a_lines a_given a_echo a_wakes a_reads]. split_and!; [done|by rewrite G2, H2, <- app_assoc|congruence|congruence|done].
Qed.

(** The console [consoleinit] leaves, with [buf] whatever memory it got. *)
Definition console_init (buf : list Z) : console := mkConsole buf 0 0 0.

Lemma console_init_ok buf : length buf = 128%nat -> crep (console_init buf) (mkLines [] []).
Proof. intros Hl. split; cbn; try done; try lia. by apply not_elem_of_nil. Qed.

(** "lz", backspace, "s", return; then a read of 10 bytes and one of 5. *)
Abbreviation demo_keys :=
  [Key 108; Key 122; Key 127; Key 115; Key 13; Reading (fun _ => true) false 10 10; Reading (fun _ => true) false 5 5].
Abbreviation demo_cst := (mkCst (console_init (replicate 128 0)) [] 0 []).

Lemma demo_edit : edit [] demo_keys (mkLines [] []) =
  mkAnswer (mkLines [] []) [108; 115; 10] [108; 122; 8; 32; 8; 115; 10] 1 [RRet 3; RSleep 5].
Proof. vm_compute. reflexivity. Qed.

Lemma console_line_editor_witness :
  wp (run [] demo_keys) (fun rs s' => let a := edit [] demo_keys (mkLines [] []) in
    console_at s' (a_lines a) /\ given s' = given demo_cst ++ a_given a /\ uart s' = uart demo_cst ++ a_echo a /\
    wakeups s' = (a_wakes a + wakeups demo_cst)%nat /\ rs = a_reads a) demo_cst.
Proof.
  exact (console_line_editor [] demo_keys demo_cst (mkLines [] []) (console_init_ok (replicate 128 0) eq_refl)
    ltac:(repeat constructor; cbn; lia)).
Defined.
