(* ===== verification/Virtio.v ===== *)
(** * The disk driver (kernel/virtio_disk.c)

    The driver and the device share descriptors and two rings.  A pointer the
    driver hands to the device is a [ptr]: a request header, the data of a
    buffer, or a status byte.  [virtio_disk_rw] and [virtio_disk_intr] hold
    [vdisk_lock] from [acquire] to [release] except while they sleep, so each
    call is a sequence of critical sections; [rw_start], [rw_wait] and
    [virtio_disk_intr] run one section each and say how it ended.

    The device is qemu's, not part of the repository.  What its registers read
    is the parameter [mmio] (of all the register writes so far); what it does
    with the rings, in [dev_complete] and [st_fetch], is what sections 2.6 and
    5.2 of the virtio specification say: it takes chains from the available
    ring, serves them in any order, stores a status byte (success, an input or
    output error, or an unsupported request, as it likes) and puts them on the
    used ring.  After an error nothing is known of the data it should have
    transferred.  [step] lets processes, interrupts and the device interleave.
    A section runs without the device: the device looks at a request only
    after [avail->idx] counts it, the last thing a section writes, and a
    completion during [virtio_disk_intr] is as one before it or after it. *)

From Stdlib Require Import ZArith Lia Bool String.
From stdpp Require Import base gmap list strings.
From S2P Require Import Prelude.

(** this many virtio descriptors *)
Definition NUM : Z := 8.
Definition VRING_DESC_F_NEXT : Z := 1.
Definition VRING_DESC_F_WRITE : Z := 2.
Definition VIRTIO_BLK_T_IN : Z := 0.
Definition VIRTIO_BLK_T_OUT : Z := 1.
Definition VIRTIO_MMIO_MAGIC_VALUE : Z := 0x000.
Definition VIRTIO_MMIO_VERSION : Z := 0x004.
Definition VIRTIO_MMIO_DEVICE_ID : Z := 0x008.
Definition VIRTIO_MMIO_VENDOR_ID : Z := 0x00c.
Definition VIRTIO_MMIO_DEVICE_FEATURES : Z := 0x010.
Definition VIRTIO_MMIO_DRIVER_FEATURES : Z := 0x020.
Definition VIRTIO_MMIO_QUEUE_SEL : Z := 0x030.
Definition VIRTIO_MMIO_QUEUE_NUM_MAX : Z := 0x034.
Definition VIRTIO_MMIO_QUEUE_NUM : Z := 0x038.
Definition VIRTIO_MMIO_QUEUE_READY : Z := 0x044.
Definition VIRTIO_MMIO_QUEUE_NOTIFY : Z := 0x050.
Definition VIRTIO_MMIO_INTERRUPT_STATUS : Z := 0x060.
Definition VIRTIO_MMIO_INTERRUPT_ACK : Z := 0x064.
Definition VIRTIO_MMIO_STATUS : Z := 0x070.
Definition VIRTIO_MMIO_QUEUE_DESC_LOW : Z := 0x080.
Definition VIRTIO_MMIO_QUEUE_DESC_HIGH : Z := 0x084.
Definition VIRTIO_MMIO_DRIVER_DESC_LOW : Z := 0x090.
Definition VIRTIO_MMIO_DRIVER_DESC_HIGH : Z := 0x094.
Definition VIRTIO_MMIO_DEVICE_DESC_LOW : Z := 0x0a0.
Definition VIRTIO_MMIO_DEVICE_DESC_HIGH : Z := 0x0a4.
Definition VIRTIO_CONFIG_S_ACKNOWLEDGE : Z := 1.
Definition VIRTIO_CONFIG_S_DRIVER : Z := 2.
Definition VIRTIO_CONFIG_S_DRIVER_OK : Z := 4.
Definition VIRTIO_CONFIG_S_FEATURES_OK : Z := 8.
(** The feature bits the driver turns off, in its order: [VIRTIO_BLK_F_RO],
    [_SCSI], [_CONFIG_WCE], [_MQ], [VIRTIO_F_ANY_LAYOUT],
    [VIRTIO_RING_F_EVENT_IDX] and [VIRTIO_RING_F_INDIRECT_DESC]. *)
Definition features_off : list Z := [5; 7; 11; 12; 27; 29; 28].
Definition BLOCK_BYTES : Z := 1024.
Definition sizeof_blk_req : Z := 16.

Definition u16 (x : Z) : Z := x mod 2 ^ 16.

Inductive ptr := PNull | POp (k : Z) | PData (b : Z) | PStatus (k : Z).

Record virtq_desc := mkDesc { d_addr : ptr; d_len : Z; d_flags : Z; d_next : Z }.
Record virtq_avail := mkAvail { av_idx : Z; av_ring : list Z }.
(** [id] of the elements *)
Record virtq_used := mkUsed { us_idx : Z; us_ring : list Z }.
Record virtio_blk_req := mkReq { rq_type : Z; rq_reserved : Z; rq_sector : Z }.
Record vinfo := mkInfo { in_b : Z; in_status : Z }.

Record disk := mkDisk {
  dk_desc : list virtq_desc;
  dk_avail : virtq_avail;
  dk_used : virtq_used;
  dk_free : list Z;
  dk_used_idx : Z;
  dk_info : list vinfo;
  dk_ops : list virtio_blk_req
}.

(** What the driver uses of a [struct buf]. *)
Record vbuf := mkVbuf { vb_blockno : Z; vb_disk : Z; vb_data : list Z }.

(** The channels [&disk.free[0]] and [b]. *)
Inductive chan := CFree | CBuf (b : Z).

#[export] Instance chan_eq_dec : EqDecision chan.
Proof. solve_decision. Defined.

(** [vlog] lists the register writes, the first one first. *)
Record vst := mkVst { vd : disk; vbufs : gmap Z vbuf; vwoken : list chan; vlog : list (Z * Z) }.

Definition set_desc v d := mkDisk v (dk_avail d) (dk_used d) (dk_free d) (dk_used_idx d) (dk_info d) (dk_ops d).
Definition set_avail v d := mkDisk (dk_desc d) v (dk_used d) (dk_free d) (dk_used_idx d) (dk_info d) (dk_ops d).
Definition set_used v d := mkDisk (dk_desc d) (dk_avail d) v (dk_free d) (dk_used_idx d) (dk_info d) (dk_ops d).
Definition set_free v d := mkDisk (dk_desc d) (dk_avail d) (dk_used d) v (dk_used_idx d) (dk_info d) (dk_ops d).
Definition set_used_idx v d := mkDisk (dk_desc d) (dk_avail d) (dk_used d) (dk_free d) v (dk_info d) (dk_ops d).
Definition set_info v d := mkDisk (dk_desc d) (dk_avail d) (dk_used d) (dk_free d) (dk_used_idx d) v (dk_ops d).
Definition set_ops v d := mkDisk (dk_desc d) (dk_avail d) (dk_used d) (dk_free d) (dk_used_idx d) (dk_info d) v.

Definition upd_vd (f : disk -> disk) : M vst unit := modify (fun s => mkVst (f (vd s)) (vbufs s) (vwoken s) (vlog s)).
Definition wakeup (c : chan) : M vst unit := modify (fun s => mkVst (vd s) (vbufs s) (vwoken s ++ [c]) (vlog s)).
(** [*R(r) = v], a 32-bit store *)
Definition mmio_write (r v : Z) : M vst unit := modify (fun s => mkVst (vd s) (vbufs s) (vwoken s) (vlog s ++ [(r, u32 v)])).

(** Array elements of [disk]. *)
Definition put_desc (i : Z) (x : virtq_desc) : M vst unit := d ← gets vd; l ← of_arr (arr_set (dk_desc d) i x); upd_vd (set_desc l).
Definition put_free (i x : Z) : M vst unit := d ← gets vd; l ← of_arr (arr_set (dk_free d) i x); upd_vd (set_free l).
Definition put_info (i : Z) (x : vinfo) : M vst unit := d ← gets vd; l ← of_arr (arr_set (dk_info d) i x); upd_vd (set_info l).
Definition put_op (i : Z) (x : virtio_blk_req) : M vst unit := d ← gets vd; l ← of_arr (arr_set (dk_ops d) i x); upd_vd (set_ops l).
Definition get_vbuf (b : Z) : M vst vbuf := m ← gets vbufs; match m !! b with Some x => mret x | None => fault "buf" end.
Definition set_vdisk (b v : Z) : M vst unit :=
  x ← get_vbuf b; modify (fun s => mkVst (vd s) (<[b := mkVbuf (vb_blockno x) v (vb_data x)]> (vbufs s)) (vwoken s) (vlog s)).

Definition zero_desc : virtq_desc := mkDesc PNull 0 0 0.

(** [for(int i = 0; i < NUM; i++)] of [alloc_desc] *)
Fixpoint alloc_desc_loop (fuel : nat) (i : Z) : M vst Z :=
  match fuel with
  | O => mret (-1)
  | S fuel =>
      d ← gets vd;
      x ← arr_get (dk_free d) i;
      if negb (x =? 0) then put_free i 0;; mret i else alloc_desc_loop fuel (i + 1)
  end.
Definition alloc_desc : M vst Z := alloc_desc_loop (Z.to_nat NUM) 0.

Definition free_desc (i : Z) : M vst unit :=
  (if NUM <=? i then panic "free_desc 1" else mret tt);;
  d ← gets vd;
  x ← arr_get (dk_free d) i;
  (if negb (x =? 0) then panic "free_desc 2" else mret tt);;
  put_desc i zero_desc;;
  put_free i 1;;
  wakeup CFree.

Fixpoint free_chain (fuel : nat) (i : Z) : M vst unit :=
  match fuel with
  | O => out_of_fuel
  | S fuel =>
      d ← gets vd;
      x ← arr_get (dk_desc d) i;
      free_desc i;;
      if negb (Z.land (d_flags x) VRING_DESC_F_NEXT =? 0) then free_chain fuel (d_next x) else mret tt
  end.

(** [Some] of the three indices, or [None] for -1. *)
Definition alloc3_desc : M vst (option (Z * Z * Z)) :=
  i0 ← alloc_desc;
  if i0 <? 0 then mret None
  else
    i1 ← alloc_desc;
    if i1 <? 0 then free_desc i0;; mret None
    else
      i2 ← alloc_desc;
      if i2 <? 0 then free_desc i0;; free_desc i1;; mret None
      else mret (Some (i0, i1, i2)).

(** How a critical section of [virtio_disk_rw] ends: asleep on
    [&disk.free[0]], asleep on [b] with head [i0], or returned. *)
Inductive vseg := SleepFree | SleepOn (i0 : Z) | Done.

(** [while(b->disk == 1) sleep(b, ...)] and the rest. *)
Definition rw_wait (b i0 : Z) : M vst vseg :=
  x ← get_vbuf b;
  if vb_disk x =? 1 then mret (SleepOn i0)
  else
    d ← gets vd;
    n ← arr_get (dk_info d) i0;
    put_info i0 (mkInfo 0 (in_status n));;
    free_chain (S (Z.to_nat NUM)) i0;;
    mret Done.

(** Formatting the descriptors and telling the device. *)
Definition rw_submit (b : Z) (write : bool) (i0 i1 i2 : Z) : M vst unit :=
  x ← get_vbuf b;
  let sector := u32 (vb_blockno x * (BLOCK_BYTES / 512)) in
  put_op i0 (mkReq (if write then VIRTIO_BLK_T_OUT else VIRTIO_BLK_T_IN) 0 sector);;
  put_desc i0 (mkDesc (POp i0) sizeof_blk_req VRING_DESC_F_NEXT i1);;
  put_desc i1 (mkDesc (PData b) BLOCK_BYTES (Z.lor (if write then 0 else VRING_DESC_F_WRITE) VRING_DESC_F_NEXT) i2);;
  d ← gets vd;
  n ← arr_get (dk_info d) i0;
  put_info i0 (mkInfo (in_b n) 255);;
  put_desc i2 (mkDesc (PStatus i0) 1 VRING_DESC_F_WRITE 0);;
  set_vdisk b 1;;
  d ← gets vd;
  n ← arr_get (dk_info d) i0;
  put_info i0 (mkInfo b (in_status n));;
  d ← gets vd;
  l ← of_arr (arr_set (av_ring (dk_avail d)) (av_idx (dk_avail d) mod NUM) i0);
  upd_vd (set_avail (mkAvail (av_idx (dk_avail d)) l));;
  upd_vd (fun d => set_avail (mkAvail (u16 (av_idx (dk_avail d) + 1)) (av_ring (dk_avail d))) d);;
  mmio_write VIRTIO_MMIO_QUEUE_NOTIFY 0.

(** From [acquire], or from a wakeup in the allocation loop. *)
Definition rw_start (b : Z) (write : bool) : M vst vseg :=
  r ← alloc3_desc;
  match r with
  | None => mret SleepFree
  | Some (i0, i1, i2) => rw_submit b write i0 i1 i2;; rw_wait b i0
  end.

(** [while(disk.used_idx != disk.used->idx)] *)
Fixpoint intr_loop (fuel : nat) : M vst unit :=
  match fuel with
  | O => out_of_fuel
  | S fuel =>
      d ← gets vd;
      if dk_used_idx d =? us_idx (dk_used d) then mret tt
      else
        id ← arr_get (us_ring (dk_used d)) (dk_used_idx d mod NUM);
        n ← arr_get (dk_info d) id;
        (if negb (in_status n =? 0) then panic "virtio_disk_intr status" else mret tt);;
        set_vdisk (in_b n) 0;;
        wakeup (CBuf (in_b n));;
        upd_vd (fun d => set_used_idx (u16 (dk_used_idx d + 1)) d);;
        intr_loop fuel
  end.

Section Registers.
(** What register [r] reads after the writes [log]. *)
Variable mmio : list (Z * Z) -> Z -> Z.

Definition mmio_read (r : Z) : M vst Z := l ← gets vlog; mret (u32 (mmio l r)).

(** The loop's bound counts the entries between the two indices. *)
Definition virtio_disk_intr : M vst unit :=
  st ← mmio_read VIRTIO_MMIO_INTERRUPT_STATUS;
  mmio_write VIRTIO_MMIO_INTERRUPT_ACK (Z.land st 3);;
  d ← gets vd; intr_loop (S (Z.to_nat (u16 (us_idx (dk_used d) - dk_used_idx d)))).

(** [if(cond) panic(msg)] *)
Definition panic_if (c : bool) (msg : string) : M vst unit := if c then panic msg else mret tt.

(** [for(int i = 0; i < NUM; i++) disk.free[i] = 1;] *)
Fixpoint free_all (n : nat) (i : Z) : M vst unit :=
  match n with O => mret tt | S n => put_free i 1;; free_all n (i + 1) end.

(** [desc], [avail] and [used] are what the three calls of [kalloc] return. *)
Definition virtio_disk_init (desc avail used : Z) : M vst unit :=
  magic ← mmio_read VIRTIO_MMIO_MAGIC_VALUE;
  version ← mmio_read VIRTIO_MMIO_VERSION;
  device ← mmio_read VIRTIO_MMIO_DEVICE_ID;
  vendor ← mmio_read VIRTIO_MMIO_VENDOR_ID;
  panic_if (negb (magic =? 0x74726976) || negb (version =? 2) || negb (device =? 2) || negb (vendor =? 0x554d4551)) "could not find virtio disk";;
  let status := 0 in
  mmio_write VIRTIO_MMIO_STATUS status;;
  let status := Z.lor status VIRTIO_CONFIG_S_ACKNOWLEDGE in
  mmio_write VIRTIO_MMIO_STATUS status;;
  let status := Z.lor status VIRTIO_CONFIG_S_DRIVER in
  mmio_write VIRTIO_MMIO_STATUS status;;
  features ← mmio_read VIRTIO_MMIO_DEVICE_FEATURES;
  mmio_write VIRTIO_MMIO_DRIVER_FEATURES (foldl (fun f bit => Z.land f (u64 (Z.lnot (Z.shiftl 1 bit)))) features features_off);;
  let status := Z.lor status VIRTIO_CONFIG_S_FEATURES_OK in
  mmio_write VIRTIO_MMIO_STATUS status;;
  status ← mmio_read VIRTIO_MMIO_STATUS;
  panic_if (Z.land status VIRTIO_CONFIG_S_FEATURES_OK =? 0) "virtio disk FEATURES_OK unset";;
  mmio_write VIRTIO_MMIO_QUEUE_SEL 0;;
  ready ← mmio_read VIRTIO_MMIO_QUEUE_READY;
  panic_if (negb (ready =? 0)) "virtio disk should not be ready";;
  max ← mmio_read VIRTIO_MMIO_QUEUE_NUM_MAX;
  panic_if (max =? 0) "virtio disk has no queue 0";;
  panic_if (max <? NUM) "virtio disk max queue too short";;
  panic_if ((desc =? 0) || (avail =? 0) || (used =? 0)) "virtio disk kalloc";;
  upd_vd (set_desc (replicate 8 zero_desc));;
  upd_vd (set_avail (mkAvail 0 (replicate 8 0)));;
  upd_vd (set_used (mkUsed 0 (replicate 8 0)));;
  mmio_write VIRTIO_MMIO_QUEUE_NUM NUM;;
  mmio_write VIRTIO_MMIO_QUEUE_DESC_LOW desc;;
  mmio_write VIRTIO_MMIO_QUEUE_DESC_HIGH (Z.shiftr desc 32);;
  mmio_write VIRTIO_MMIO_DRIVER_DESC_LOW avail;;
  mmio_write VIRTIO_MMIO_DRIVER_DESC_HIGH (Z.shiftr avail 32);;
  mmio_write VIRTIO_MMIO_DEVICE_DESC_LOW used;;
  mmio_write VIRTIO_MMIO_DEVICE_DESC_HIGH (Z.shiftr used 32);;
  mmio_write VIRTIO_MMIO_QUEUE_READY 1;;
  free_all (Z.to_nat NUM) 0;;
  mmio_write VIRTIO_MMIO_STATUS (Z.lor status VIRTIO_CONFIG_S_DRIVER_OK).

End Registers.

(** [disk] as the kernel image holds it: zeroed, its three pages not there. *)
Definition disk_bss : disk :=
  mkDisk [] (mkAvail 0 []) (mkUsed 0 []) (replicate 8 0) 0 (replicate 8 (mkInfo 0 0)) (replicate 8 (mkReq 0 0 0)).

(** ** The device *)

Abbreviation blocks := (gmap Z (list Z)).

Definition has (flags bit : Z) : bool := negb (Z.land flags bit =? 0).
Definition elem {X} (l : list X) (i : Z) : option X := if 0 <=? i then l !! Z.to_nat i else None.

(** The status bytes of section 5.2.6. *)
Definition VIRTIO_BLK_S_OK : Z := 0.
Definition VIRTIO_BLK_S_IOERR : Z := 1.
Definition VIRTIO_BLK_S_UNSUPP : Z := 2.
Definition dev_status : list Z := [VIRTIO_BLK_S_OK; VIRTIO_BLK_S_IOERR; VIRTIO_BLK_S_UNSUPP].

(** Serving the chain with head [h]: the transfer, the status byte [st] and
    the used ring; [None] when the chain is not one the driver may hand to
    the device.  When [st] is an error, [junk] is what ends up in the buffer
    or on the disk. *)
Definition dev_complete (st : Z) (junk : list Z) (h : Z) (s : vst) (dsk : blocks) : option (vst * blocks) :=
  let d := vd s in
  d0 ← elem (dk_desc d) h;
  d1 ← elem (dk_desc d) (d_next d0);
  d2 ← elem (dk_desc d) (d_next d1);
  match d_addr d0, d_addr d1, d_addr d2 with
  | POp k, PData b, PStatus j =>
      op ← elem (dk_ops d) k;
      x ← vbufs s !! b;
      old ← dsk !! (rq_sector op / (BLOCK_BYTES / 512));
      n ← elem (dk_info d) j;
      if negb (has (d_flags d0) VRING_DESC_F_NEXT && has (d_flags d1) VRING_DESC_F_NEXT && has (d_flags d2) VRING_DESC_F_WRITE &&
               (d_len d0 =? sizeof_blk_req) && (d_len d1 =? BLOCK_BYTES) && (d_len d2 =? 1) && (rq_sector op mod (BLOCK_BYTES / 512) =? 0)) then None
      else
        let d := set_info (<[Z.to_nat j := mkInfo (in_b n) st]> (dk_info d)) d in
        let d := set_used (mkUsed (u16 (us_idx (dk_used d) + 1)) (<[Z.to_nat (us_idx (dk_used d) mod NUM) := h]> (us_ring (dk_used d)))) d in
        if (rq_type op =? VIRTIO_BLK_T_OUT) && negb (has (d_flags d1) VRING_DESC_F_WRITE) then
          Some (mkVst d (vbufs s) (vwoken s) (vlog s), <[rq_sector op / (BLOCK_BYTES / 512) := if st =? VIRTIO_BLK_S_OK then vb_data x else junk]> dsk)
        else if (rq_type op =? VIRTIO_BLK_T_IN) && has (d_flags d1) VRING_DESC_F_WRITE then
          Some (mkVst d (<[b := mkVbuf (vb_blockno x) (vb_disk x) (if st =? VIRTIO_BLK_S_OK then old else junk)]> (vbufs s)) (vwoken s) (vlog s), dsk)
        else None
  | _, _, _ => None
  end.

(** ** Processes, interrupts and the device *)

(** [Calling] is about to enter [virtio_disk_rw] or runs again after waiting
    for descriptors; [Ready] runs again after waiting for the request with
    head [h]. *)
Inductive vproc :=
  | Idle
  | Calling (b : Z) (w : bool)
  | SleepD (b : Z) (w : bool)
  | SleepB (b : Z) (w : bool) (h : Z)
  | Ready (b : Z) (w : bool) (h : Z).

#[export] Instance vproc_eq_dec : EqDecision vproc.
Proof. solve_decision. Defined.

Record vsys := mkSys {
  y_disk : disk;
  y_log : list (Z * Z);
  y_bufs : gmap Z vbuf;
  y_seen : Z;            (* how far the device has read the available ring *)
  y_pend : list Z;       (* chains the device is working on *)
  y_dsk : blocks;
  y_procs : gmap nat vproc
}.

Definition wake (l : list chan) (p : vproc) : vproc :=
  match p with
  | SleepD b w => if decide (CFree ∈ l) then Calling b w else p
  | SleepB b w h => if decide (CBuf b ∈ l) then Ready b w h else p
  | _ => p
  end.

Definition enter (y : vsys) : vst := mkVst (y_disk y) (y_bufs y) [] (y_log y).
Definition leave (y : vsys) (s : vst) (f : gmap nat vproc -> gmap nat vproc) : vsys :=
  mkSys (vd s) (vlog s) (vbufs s) (y_seen y) (y_pend y) (y_dsk y) (f (wake (vwoken s) <$> y_procs y)).

Definition after_rw (b : Z) (w : bool) (r : vseg) : vproc :=
  match r with SleepFree => SleepD b w | SleepOn h => SleepB b w h | Done => Idle end.

(** The buffer a process is working on. *)
Definition buf_of (p : vproc) : option Z :=
  match p with Idle => None | Calling b _ | SleepD b _ | SleepB b _ _ | Ready b _ _ => Some b end.
Definition unused_buf (y : vsys) (b : Z) : Prop := forall p q, y_procs y !! p = Some q -> buf_of q <> Some b.

(** The buffer cache's part: a process calls [virtio_disk_rw] with a buffer
    it alone uses, for a block the disk has; buffers nobody has handed to the
    driver change as they like. *)
Inductive client_step (y : vsys) : vsys -> Prop :=
  | st_call p b w x : y_procs y !! p = Some Idle -> unused_buf y b -> y_bufs y !! b = Some x ->
      0 <= vb_blockno x < 2 ^ 31 -> is_Some (y_dsk y !! vb_blockno x) ->
      client_step y (mkSys (y_disk y) (y_log y) (y_bufs y) (y_seen y) (y_pend y) (y_dsk y) (<[p := Calling b w]> (y_procs y)))
  | st_touch b x : unused_buf y b ->
      client_step y (mkSys (y_disk y) (y_log y) (<[b := x]> (y_bufs y)) (y_seen y) (y_pend y) (y_dsk y) (y_procs y)).

Section Running.
Variable mmio : list (Z * Z) -> Z -> Z.

(** The driver's and the device's part. *)
Inductive disk_step (y : vsys) : vsys -> Prop :=
  | st_start p b w r s : y_procs y !! p = Some (Calling b w) -> rw_start b w (enter y) = Ret (r, s) ->
      disk_step y (leave y s <[p := after_rw b w r]>)
  | st_resume p b w h r s : y_procs y !! p = Some (Ready b w h) -> rw_wait b h (enter y) = Ret (r, s) ->
      disk_step y (leave y s <[p := after_rw b w r]>)
  | st_intr s : virtio_disk_intr mmio (enter y) = Ret (tt, s) -> disk_step y (leave y s id)
  | st_fetch h : y_seen y <> av_idx (dk_avail (y_disk y)) -> elem (av_ring (dk_avail (y_disk y))) (y_seen y mod NUM) = Some h ->
      disk_step y (mkSys (y_disk y) (y_log y) (y_bufs y) (u16 (y_seen y + 1)) (y_pend y ++ [h]) (y_dsk y) (y_procs y))
  | st_complete l1 h l2 st junk s dsk : y_pend y = l1 ++ h :: l2 -> st ∈ dev_status -> dev_complete st junk h (enter y) (y_dsk y) = Some (s, dsk) ->
      disk_step y (mkSys (vd s) (vlog s) (vbufs s) (y_seen y) (l1 ++ l2) dsk (y_procs y)).

Inductive step (y y' : vsys) : Prop :=
  | step_client : client_step y y' -> step y y'
  | step_disk : disk_step y y' -> step y y'.

(** The state [virtio_disk_init] leaves, with all processes idle. *)
Definition booted (y : vsys) : Prop :=
  (exists desc avail used log bufs, virtio_disk_init mmio desc avail used (mkVst disk_bss bufs [] log) = Ret (tt, enter y)) /\
  y_seen y = 0 /\ y_pend y = [] /\ forall p q, y_procs y !! p = Some q -> q = Idle.

Definition reachable (y : vsys) : Prop := exists y0, booted y0 /\ rtc step y0 y.

End Running.

(** ** The specification: requests that take effect at one moment *)

(** A request is served, or it fails: then the buffer it reads into, or the
    block it writes, holds anything, and the call never returns. *)
Inductive sproc := SIdle | SCalled (b : Z) (w : bool) | SServed (b : Z) (w : bool) | SFailed (b : Z) (w : bool).

Record spec := mkSpec { sp_bufs : gmap Z (Z * list Z); sp_dsk : blocks; sp_procs : gmap nat sproc }.

Definition s_buf_of (p : sproc) : option Z := match p with SIdle => None | SCalled b _ | SServed b _ | SFailed b _ => Some b end.
Definition s_unused (t : spec) (b : Z) : Prop := forall p q, sp_procs t !! p = Some q -> s_buf_of q <> Some b.

Inductive spec_step (t : spec) : spec -> Prop :=
  | sp_call p b w : sp_procs t !! p = Some SIdle -> s_unused t b ->
      spec_step t (mkSpec (sp_bufs t) (sp_dsk t) (<[p := SCalled b w]> (sp_procs t)))
  | sp_touch b x : s_unused t b -> spec_step t (mkSpec (<[b := x]> (sp_bufs t)) (sp_dsk t) (sp_procs t))
  | sp_read p b n old data : sp_procs t !! p = Some (SCalled b false) -> sp_bufs t !! b = Some (n, old) -> sp_dsk t !! n = Some data ->
      spec_step t (mkSpec (<[b := (n, data)]> (sp_bufs t)) (sp_dsk t) (<[p := SServed b false]> (sp_procs t)))
  | sp_write p b n data : sp_procs t !! p = Some (SCalled b true) -> sp_bufs t !! b = Some (n, data) ->
      spec_step t (mkSpec (sp_bufs t) (<[n := data]> (sp_dsk t)) (<[p := SServed b true]> (sp_procs t)))
  | sp_fail_read p b n old junk : sp_procs t !! p = Some (SCalled b false) -> sp_bufs t !! b = Some (n, old) ->
      spec_step t (mkSpec (<[b := (n, junk)]> (sp_bufs t)) (sp_dsk t) (<[p := SFailed b false]> (sp_procs t)))
  | sp_fail_write p b n data junk : sp_procs t !! p = Some (SCalled b true) -> sp_bufs t !! b = Some (n, data) ->
      spec_step t (mkSpec (sp_bufs t) (<[n := junk]> (sp_dsk t)) (<[p := SFailed b true]> (sp_procs t)))
  | sp_return p b w : sp_procs t !! p = Some (SServed b w) ->
      spec_step t (mkSpec (sp_bufs t) (sp_dsk t) (<[p := SIdle]> (sp_procs t))).

(** A request has been served when its status byte is 0; it is not yet over
    while the byte is the 255 that [virtio_disk_rw] puts there. *)
Definition of_status (st b : Z) (w : bool) : sproc :=
  if st =? VIRTIO_BLK_S_OK then SServed b w else if st =? 255 then SCalled b w else SFailed b w.

Definition abs_proc (l : list vinfo) (p : vproc) : sproc :=
  match p with
  | Idle => SIdle
  | Calling b w | SleepD b w => SCalled b w
  | SleepB b w h | Ready b w h =>
      match elem l h with Some n => of_status (in_status n) b w | None => SCalled b w end
  end.

Definition abs (y : vsys) : spec :=
  mkSpec ((fun x => (vb_blockno x, vb_data x)) <$> y_bufs y) (y_dsk y) (abs_proc (dk_info (y_disk y)) <$> y_procs y).

(** The device has reported an error. *)
Definition reported (y : vsys) : Prop := exists p b w, sp_procs (abs y) !! p = Some (SFailed b w).
