(* ===== verification/VirtioProof.v ===== *)
(** * The disk driver: its critical sections

    Arrays indexed by machine integers ([elem]), the window of a ring between
    two free-running 16-bit indices ([ring]), and what each critical section
    of kernel/virtio_disk.c leaves, as an exact state. *)

From Stdlib Require Import ZArith Lia Bool String.
From stdpp Require Import base gmap list strings.
From S2P Require Import Prelude Virtio.

(** ** Arrays and rings *)

Lemma elem_set_eq {A} (l : list A) i x y : elem l i = Some y -> elem (<[Z.to_nat i := x]> l) i = Some x.
Proof.
  unfold elem. destruct (Z.leb_spec 0 i); [|done]. intros Hl. apply list_lookup_insert_eq. by eapply lookup_lt_Some.
Qed.

Lemma elem_set_ne {A} (l : list A) i j x : 0 <= i -> i <> j -> elem (<[Z.to_nat i := x]> l) j = elem l j.
Proof. unfold elem. intros Hi Hne. destruct (Z.leb_spec 0 j); [|done]. apply list_lookup_insert_ne. lia. Qed.

Lemma elem_some {A} (l : list A) i : 0 <= i < Z.of_nat (length l) -> is_Some (elem l i).
Proof. intros Hi. unfold elem. destruct (Z.leb_spec 0 i); [|lia]. apply lookup_lt_is_Some. lia. Qed.

Lemma elem_range {A} (l : list A) i x : elem l i = Some x -> 0 <= i < Z.of_nat (length l).
Proof. unfold elem. destruct (Z.leb_spec 0 i); [|done]. intros Hl%lookup_lt_Some. lia. Qed.

(** The entries [l] of a ring of 8 between the indices [from] and [to]. *)
Record ring (r : list Z) (from to : Z) (l : list Z) : Prop := {
  rg_len : length r = 8%nat;
  rg_from : 0 <= from < 2 ^ 16;
  rg_to : to = u16 (from + Z.of_nat (length l));
  rg_fit : (length l <= 8)%nat;
  rg_entry : forall k h, l !! k = Some h -> elem r ((from + Z.of_nat k) mod NUM) = Some h
}.

Lemma u16_mod x : u16 x mod NUM = x mod NUM.
Proof. unfold u16, NUM. zdiv. Qed.

Lemma ring_push r from to l h : ring r from to l -> (length l < 8)%nat ->
  ring (<[Z.to_nat (to mod NUM) := h]> r) from (u16 (to + 1)) (l ++ [h]).
Proof.
  intros [L F T Fit E] Hl. assert (0 <= to mod NUM < 8) as Hto by (apply Z.mod_pos_bound; done).
  split; [by rewrite length_insert|done| |rewrite length_app; cbn; lia|].
  - rewrite length_app. cbn [length]. subst to. unfold u16. rewrite Zplus_mod_idemp_l. f_equal. lia.
  - intros k h' [Hk|[Hk [Hz ->]%list_lookup_singleton_Some]]%lookup_app_Some.
    + pose proof (lookup_lt_Some _ _ _ Hk). rewrite elem_set_ne; [by apply E|lia|].
      subst to. rewrite u16_mod. unfold NUM. zdiv.
    + replace ((from + Z.of_nat k) mod NUM) with (to mod NUM).
      * destruct (elem_some r (to mod NUM)) as [y Hy]; [lia|]. by eapply elem_set_eq.
      * subst to. rewrite u16_mod. f_equal. lia.
Qed.

Lemma ring_pop r from to h l : ring r from to (h :: l) ->
  from <> to /\ elem r (from mod NUM) = Some h /\ ring r (u16 (from + 1)) to l.
Proof.
  intros [L F T Fit E]. cbn [length] in *. split_and!.
  - subst to. unfold u16. zdiv.
  - specialize (E O h eq_refl). by rewrite Z.add_0_r in E.
  - split; [done|unfold u16; zdiv| |lia|].
    + subst to. unfold u16. rewrite Zplus_mod_idemp_l. f_equal. lia.
    + intros k h' Hk. rewrite <- (E (S k) h' Hk). f_equal. unfold u16, NUM. zdiv.
Qed.

Lemma ring_some r from to l : ring r from to l -> from <> to -> exists h l', l = h :: l'.
Proof.
  intros [L F T Fit E] Hne. destruct l as [|h l]; [|eauto]. subst to. destruct Hne. unfold u16. cbn. zdiv.
Qed.

Lemma ring_count r from to l : ring r from to l -> u16 (to - from) = Z.of_nat (length l).
Proof. intros [L F T Fit E]. subst to. unfold u16. zdiv. Qed.

Lemma ring_nil r from : length r = 8%nat -> 0 <= from < 2 ^ 16 -> ring r from from [].
Proof. intros Hl Hf. split; [done|done| |cbn; lia|done]. cbn. unfold u16. zdiv. Qed.

(** ** Symbolic execution *)

Section Steps.
Context (D : list virtq_desc) (Av : virtq_avail) (Us : virtq_used) (Fr : list Z) (ui : Z) (I : list vinfo) (O : list virtio_blk_req)
  (B : gmap Z vbuf) (W : list chan) (L : list (Z * Z)).

Abbreviation here := (mkVst (mkDisk D Av Us Fr ui I O) B W L).

Lemma wp_elem {A} (l : list A) i x Q (s : vst) : elem l i = Some x -> Q x s -> wp (arr_get l i) Q s.
Proof. unfold elem. destruct (Z.leb_spec 0 i); [|done]. by apply wp_arr_get. Qed.

Lemma of_arr_elem {A} (l : list A) i x y : elem l i = Some y -> arr_set l i x = Some (<[Z.to_nat i := x]> l).
Proof. intros H%elem_range. by apply arr_set_ok. Qed.

Lemma wp_put_desc i x y Q : elem D i = Some y -> Q tt (mkVst (mkDisk (<[Z.to_nat i := x]> D) Av Us Fr ui I O) B W L) -> wp (put_desc i x) Q here.
Proof. intros H HQ. unfold put_desc. apply wp_bind, wp_gets, wp_bind. cbn [vd dk_desc dk_free dk_info dk_ops]. by rewrite (of_arr_elem _ _ x y H). Qed.

Lemma wp_put_free i x y Q : elem Fr i = Some y -> Q tt (mkVst (mkDisk D Av Us (<[Z.to_nat i := x]> Fr) ui I O) B W L) -> wp (put_free i x) Q here.
Proof. intros H HQ. unfold put_free. apply wp_bind, wp_gets, wp_bind. cbn [vd dk_desc dk_free dk_info dk_ops]. by rewrite (of_arr_elem _ _ x y H). Qed.

Lemma wp_put_info i x y Q : elem I i = Some y -> Q tt (mkVst (mkDisk D Av Us Fr ui (<[Z.to_nat i := x]> I) O) B W L) -> wp (put_info i x) Q here.
Proof. intros H HQ. unfold put_info. apply wp_bind, wp_gets, wp_bind. cbn [vd dk_desc dk_free dk_info dk_ops]. by rewrite (of_arr_elem _ _ x y H). Qed.

Lemma wp_put_op i x y Q : elem O i = Some y -> Q tt (mkVst (mkDisk D Av Us Fr ui I (<[Z.to_nat i := x]> O)) B W L) -> wp (put_op i x) Q here.
Proof. intros H HQ. unfold put_op. apply wp_bind, wp_gets, wp_bind. cbn [vd dk_desc dk_free dk_info dk_ops]. by rewrite (of_arr_elem _ _ x y H). Qed.

Lemma wp_get_vbuf b x Q : B !! b = Some x -> Q x here -> wp (get_vbuf b) Q here.
Proof. intros H HQ. unfold get_vbuf. apply wp_bind, wp_gets. cbn [vbufs]. by rewrite H. Qed.

Lemma wp_set_vdisk b v x Q : B !! b = Some x ->
  Q tt (mkVst (mkDisk D Av Us Fr ui I O) (<[b := mkVbuf (vb_blockno x) v (vb_data x)]> B) W L) -> wp (set_vdisk b v) Q here.
Proof. intros H HQ. unfold set_vdisk. apply wp_bind. apply (wp_get_vbuf _ x); [done|]. exact HQ. Qed.

End Steps.

(** ** Descriptors *)

(** [free] marks all descriptors but [U]. *)
Definition free_rep (Fr : list Z) (U : list Z) : Prop :=
  length Fr = 8%nat /\ forall i, 0 <= i < 8 -> elem Fr i = Some (if decide (i ∈ U) then 0 else 1).

Lemma free_rep_take Fr U i : free_rep Fr U -> 0 <= i < 8 -> free_rep (<[Z.to_nat i := 0]> Fr) (i :: U).
Proof.
  intros [HL HF] Hi. split; [by rewrite length_insert|]. intros j Hj. destruct (decide (i = j)) as [->|Hne].
  - rewrite decide_True by (by left). by eapply elem_set_eq, HF.
  - rewrite elem_set_ne by lia. rewrite HF by done. f_equal.
    destruct (decide (j ∈ U)), (decide (j ∈ i :: U)) as [E|E]; try done; [by destruct E; right|].
    apply elem_of_cons in E as [?|?]; congruence.
Qed.

Lemma free_rep_give Fr U i : free_rep Fr (i :: U) -> i ∉ U -> 0 <= i < 8 -> free_rep (<[Z.to_nat i := 1]> Fr) U.
Proof.
  intros [HL HF] Hn Hi. split; [by rewrite length_insert|]. intros j Hj. destruct (decide (i = j)) as [->|Hne].
  - rewrite decide_False by done. by eapply elem_set_eq, HF.
  - rewrite elem_set_ne by lia. rewrite HF by done. f_equal.
    destruct (decide (j ∈ U)), (decide (j ∈ i :: U)) as [E|E]; try done; [by destruct E; right|].
    apply elem_of_cons in E as [?|?]; congruence.
Qed.

Lemma free_rep_perm Fr U V : U ≡ₚ V -> free_rep Fr U -> free_rep Fr V.
Proof.
  intros HP [HL HF]. split; [done|]. intros i Hi. rewrite HF by done. f_equal.
  destruct (decide (i ∈ U)) as [E|E], (decide (i ∈ V)) as [E'|E']; try done; rewrite HP in E; done.
Qed.

Lemma all_used (U : list Z) : (forall j, 0 <= j < 8 -> j ∈ U) -> (8 <= length U)%nat.
Proof.
  intros H. change 8%nat with (length (seqZ 0 8)). apply submseteq_length, NoDup_submseteq; [apply NoDup_seqZ|].
  intros j Hj%elem_of_seqZ. apply H. lia.
Qed.

Section Sections.
Context (D : list virtq_desc) (Av : virtq_avail) (Us : virtq_used) (Fr : list Z) (ui : Z) (I : list vinfo) (O : list virtio_blk_req)
  (B : gmap Z vbuf) (W : list chan) (L : list (Z * Z)).

Abbreviation st D Fr W := (mkVst (mkDisk D Av Us Fr ui I O) B W L).

Lemma wp_alloc_desc_loop U n i : free_rep Fr U -> i + Z.of_nat n = 8 -> 0 <= i -> (forall j, 0 <= j < i -> j ∈ U) ->
  wp (alloc_desc_loop n i)
    (fun r s => (r = -1 /\ s = st D Fr W /\ forall j, 0 <= j < 8 -> j ∈ U) \/
       (0 <= r < 8 /\ r ∉ U /\ s = st D (<[Z.to_nat r := 0]> Fr) W)) (st D Fr W).
Proof.
  intros HF. revert i. induction n as [|n IH]; intros i Hn Hi HU; cbn [alloc_desc_loop].
  { apply wp_ret. left. split_and!; [done|done|]. intros j Hj. apply HU. lia. }
  destruct HF as [HL HFr]. wp_steps. eapply wp_elem; [by apply HFr; lia|]. destruct (decide (i ∈ U)) as [Hin|Hin]; cbn [Z.eqb negb].
  - apply IH; [lia|lia|]. intros j Hj. destruct (decide (j = i)) as [->|]; [done|apply HU; lia].
  - wp_steps. eapply wp_put_free; [by apply HFr; lia|]. apply wp_ret. right. split_and!; [lia|lia|done|done].
Qed.

Lemma wp_alloc_desc U : free_rep Fr U ->
  wp alloc_desc
    (fun r s => (r = -1 /\ s = st D Fr W /\ forall j, 0 <= j < 8 -> j ∈ U) \/
       (0 <= r < 8 /\ r ∉ U /\ s = st D (<[Z.to_nat r := 0]> Fr) W)) (st D Fr W).
Proof. intros HF. apply wp_alloc_desc_loop; [done|done|lia|lia]. Qed.

Lemma wp_free_desc i y Q : elem Fr i = Some 0 -> i < NUM -> elem D i = Some y ->
  Q tt (st (<[Z.to_nat i := zero_desc]> D) (<[Z.to_nat i := 1]> Fr) (W ++ [CFree])) -> wp (free_desc i) Q (st D Fr W).
Proof.
  intros HF Hi HD HQ. unfold free_desc. replace (NUM <=? i) with false by lia. wp_steps.
  eapply wp_elem; [exact HF|]. cbn [Z.eqb negb]. wp_steps. eapply wp_put_desc; [exact HD|].
  wp_steps. eapply wp_put_free; [exact HF|]. by apply wp_modify.
Qed.

End Sections.

Section Alloc3.
Context (D : list virtq_desc) (Av : virtq_avail) (Us : virtq_used) (Fr : list Z) (ui : Z) (I : list vinfo) (O : list virtio_blk_req)
  (B : gmap Z vbuf) (W : list chan) (L : list (Z * Z)).

Abbreviation st D Fr W := (mkVst (mkDisk D Av Us Fr ui I O) B W L).

(** Three fresh descriptors, or none and at least six in use. *)
Definition alloc3_post (U : list Z) (r : option (Z * Z * Z)) (s : vst) : Prop :=
  match r with
  | None => (6 <= length U)%nat /\
      exists D' Fr' W', s = st D' Fr' (W ++ W') /\ free_rep Fr' U /\ length D' = 8%nat /\
        (forall i, i ∈ U -> elem D' i = elem D i) /\ (forall c, c ∈ W' -> c = CFree)
  | Some (i0, i1, i2) => NoDup ([i0; i1; i2] ++ U) /\ (forall i, i ∈ [i0; i1; i2] -> 0 <= i < 8) /\
      exists Fr', s = st D Fr' W /\ free_rep Fr' ([i0; i1; i2] ++ U)
  end.

Lemma wp_alloc3_desc U : free_rep Fr U -> length D = 8%nat -> NoDup U -> wp alloc3_desc (alloc3_post U) (st D Fr W).
Proof.
  intros HF HD HU. unfold alloc3_desc.
  apply wp_bind. eapply wp_mono; [by apply wp_alloc_desc|]. intros i0 s [(-> & -> & Hall)|(Hi0 & Hn0 & ->)].
  { cbn. apply all_used in Hall. split; [lia|]. exists D, Fr, []. rewrite app_nil_r. split_and!; try done. intros c Hc. by apply elem_of_nil in Hc. }
  replace (i0 <? 0) with false by lia. pose proof (free_rep_take _ _ _ HF Hi0) as HF1.
  assert (forall i, 0 <= i < 8 -> is_Some (elem D i)) as HDi by (intros i Hi; apply elem_some; lia).
  destruct (HDi i0 Hi0) as [y0 Hy0].
  apply wp_bind. eapply wp_mono; [by apply wp_alloc_desc|]. intros i1 s [(-> & -> & Hall)|(Hi1 & Hn1 & ->)].
  { change (-1 <? 0) with true. cbv iota. wp_steps. apply all_used in Hall. cbn in Hall. eapply wp_free_desc; [|unfold NUM; lia|exact Hy0|].
    { rewrite (proj2 HF1) by lia. by rewrite decide_True by (by left). }
    split; [lia|]. eexists _, _, _. split; [done|]. split_and!; [by eapply free_rep_give|by rewrite length_insert| |].
    - intros i Hi. apply elem_set_ne; [lia|]. by intros ->.
    - by intros c ->%list_elem_of_singleton. }
  replace (i1 <? 0) with false by lia. pose proof (free_rep_take _ _ _ HF1 Hi1) as HF2. destruct (HDi i1 Hi1) as [y1 Hy1].
  apply not_elem_of_cons in Hn1 as [Hne1 Hn1].
  apply wp_bind. eapply wp_mono; [by apply wp_alloc_desc|]. intros i2 s [(-> & -> & Hall)|(Hi2 & Hn2 & ->)].
  { change (-1 <? 0) with true. cbv iota. apply all_used in Hall. cbn in Hall. wp_steps. eapply wp_free_desc; [|unfold NUM; lia|exact Hy0|].
    { rewrite (proj2 HF2) by lia. by rewrite decide_True by (right; by left). }
    assert (free_rep (<[Z.to_nat i0:=1]> (<[Z.to_nat i1:=0]> (<[Z.to_nat i0:=0]> Fr))) (i1 :: U)) as HF3.
    { apply free_rep_give; [|by apply not_elem_of_cons|lia]. eapply free_rep_perm; [|exact HF2]. constructor. }
    wp_steps. eapply wp_free_desc; [|unfold NUM; lia|by rewrite elem_set_ne by lia; exact Hy1|].
    { rewrite (proj2 HF3) by lia. by rewrite decide_True by (by left). }
    split; [lia|]. eexists _, _, _. split; [by rewrite <- app_assoc|]. split_and!; [by eapply free_rep_give|by rewrite !length_insert| |].
    - intros i Hi. rewrite !elem_set_ne; [done|lia|by intros ->|lia|by intros ->].
    - cbn. intros c Hc. set_solver. }
  replace (i2 <? 0) with false by lia. pose proof (free_rep_take _ _ _ HF2 Hi2) as HF3.
  apply wp_ret. cbn. split_and!.
  - rewrite !list.NoDup_cons. set_solver.
  - set_solver.
  - eexists. split; [done|]. eapply free_rep_perm; [|exact HF3]. rewrite (Permutation_swap i2 i1). by rewrite (Permutation_swap i2 i0), (Permutation_swap i1 i0).
Qed.

End Alloc3.

(** ** Requests *)

(** A request in flight: its process, buffer, direction and block number, and
    its three descriptors. *)
Record rq := mkRq { q_p : nat; q_b : Z; q_w : bool; q_n : Z; q_0 : Z; q_1 : Z; q_2 : Z }.

#[export] Instance rq_eq_dec : EqDecision rq.
Proof. solve_decision. Defined.

Definition ds (q : rq) : list Z := [q_0 q; q_1 q; q_2 q].
Definition op_of (q : rq) : virtio_blk_req := mkReq (if q_w q then VIRTIO_BLK_T_OUT else VIRTIO_BLK_T_IN) 0 (q_n q * 2).
Definition desc0 (q : rq) : virtq_desc := mkDesc (POp (q_0 q)) sizeof_blk_req VRING_DESC_F_NEXT (q_1 q).
Definition desc1 (q : rq) : virtq_desc :=
  mkDesc (PData (q_b q)) BLOCK_BYTES (Z.lor (if q_w q then 0 else VRING_DESC_F_WRITE) VRING_DESC_F_NEXT) (q_2 q).
Definition desc2 (q : rq) : virtq_desc := mkDesc (PStatus (q_0 q)) 1 VRING_DESC_F_WRITE 0.

(** The descriptors and the header of a request. *)
Record chain (D : list virtq_desc) (O : list virtio_blk_req) (q : rq) : Prop := {
  ch_0 : elem D (q_0 q) = Some (desc0 q);
  ch_1 : elem D (q_1 q) = Some (desc1 q);
  ch_2 : elem D (q_2 q) = Some (desc2 q);
  ch_op : elem O (q_0 q) = Some (op_of q)
}.

Definition set3 {A} (l : list A) (q : rq) (x y z : A) : list A :=
  <[Z.to_nat (q_2 q) := z]> (<[Z.to_nat (q_1 q) := y]> (<[Z.to_nat (q_0 q) := x]> l)).

(** A request's three indices are different and within the arrays. *)
Definition rq_ok (q : rq) : Prop := NoDup (ds q) /\ forall i, i ∈ ds q -> 0 <= i < 8.

Lemma rq_ok_range q : rq_ok q -> (0 <= q_0 q < 8 /\ 0 <= q_1 q < 8 /\ 0 <= q_2 q < 8) /\ q_0 q <> q_1 q /\ q_0 q <> q_2 q /\ q_1 q <> q_2 q.
Proof. intros [Hnd Hr]. unfold ds in *. split; [split_and!; apply Hr; set_solver|]. rewrite !list.NoDup_cons in Hnd. set_solver. Qed.

Lemma set3_length {A} (l : list A) q x y z : length (set3 l q x y z) = length l.
Proof. unfold set3. by rewrite !length_insert. Qed.

Lemma set3_out {A} (l : list A) q x y z i : rq_ok q -> i ∉ ds q -> elem (set3 l q x y z) i = elem l i.
Proof.
  intros (HR & _)%rq_ok_range Hi. unfold set3, ds in *. rewrite !not_elem_of_cons in Hi. rewrite !elem_set_ne; try done; [lia|naive_solver|lia|naive_solver|lia|naive_solver].
Qed.

Lemma set3_in {A} (l : list A) q x y z : rq_ok q -> length l = 8%nat ->
  elem (set3 l q x y z) (q_0 q) = Some x /\ elem (set3 l q x y z) (q_1 q) = Some y /\ elem (set3 l q x y z) (q_2 q) = Some z.
Proof.
  intros (HR & H01 & H02 & H12)%rq_ok_range HL. unfold set3.
  destruct (elem_some l (q_0 q)) as [a Ha]; [lia|]. destruct (elem_some l (q_1 q)) as [b Hb]; [lia|].
  destruct (elem_some l (q_2 q)) as [c Hc]; [lia|]. split_and!.
  - rewrite !elem_set_ne by (lia || done). by eapply elem_set_eq.
  - rewrite elem_set_ne by (lia || done). eapply elem_set_eq. rewrite elem_set_ne by (lia || done). exact Hb.
  - eapply elem_set_eq. rewrite !elem_set_ne by (lia || done). exact Hc.
Qed.

Section Submit.
Context (D : list virtq_desc) (Av : virtq_avail) (Us : virtq_used) (Fr : list Z) (ui : Z) (I : list vinfo) (O : list virtio_blk_req)
  (B : gmap Z vbuf) (W : list chan) (L : list (Z * Z)).

(** The state after request [q] has been handed to the device. *)
Definition submitted (q : rq) (data : list Z) : vst :=
  mkVst (mkDisk (set3 D q (desc0 q) (desc1 q) (desc2 q))
           (mkAvail (u16 (av_idx Av + 1)) (<[Z.to_nat (av_idx Av mod NUM) := q_0 q]> (av_ring Av))) Us Fr ui
           (<[Z.to_nat (q_0 q) := mkInfo (q_b q) 255]> I) (<[Z.to_nat (q_0 q) := op_of q]> O))
    (<[q_b q := mkVbuf (q_n q) 1 data]> B) W (L ++ [(VIRTIO_MMIO_QUEUE_NOTIFY, 0)]).

Lemma wp_rw_submit q k data Q : rq_ok q -> length D = 8%nat -> length I = 8%nat -> length O = 8%nat -> length (av_ring Av) = 8%nat ->
  0 <= q_n q < 2 ^ 31 -> B !! q_b q = Some (mkVbuf (q_n q) k data) -> Q tt (submitted q data) ->
  wp (rw_submit (q_b q) (q_w q) (q_0 q) (q_1 q) (q_2 q)) Q (mkVst (mkDisk D Av Us Fr ui I O) B W L).
Proof.
  intros (HR & H01 & H02 & H12)%rq_ok_range HD HI HO HA Hn HB HQ. unfold rw_submit.
  destruct (elem_some D (q_0 q)) as [a Ha]; [lia|]. destruct (elem_some D (q_1 q)) as [b Hb]; [lia|].
  destruct (elem_some D (q_2 q)) as [c Hc]; [lia|]. destruct (elem_some O (q_0 q)) as [o Ho]; [lia|]. destruct (elem_some I (q_0 q)) as [n HIn]; [lia|].
  apply wp_bind. eapply wp_get_vbuf; [exact HB|]. cbn [vb_blockno].
  change (BLOCK_BYTES / 512) with 2. rewrite (u32_small (q_n q * 2)) by lia.
  wp_steps. eapply wp_put_op; [exact Ho|]. wp_steps. eapply wp_put_desc; [exact Ha|].
  wp_steps. eapply wp_put_desc; [by rewrite elem_set_ne by (lia || done); exact Hb|].
  wp_steps. eapply wp_elem; [exact HIn|]. wp_steps. eapply wp_put_info; [exact HIn|].
  wp_steps. eapply wp_put_desc; [by rewrite !elem_set_ne by (lia || done); exact Hc|].
  wp_steps. eapply wp_set_vdisk; [exact HB|]. wp_steps. eapply wp_elem; [by eapply elem_set_eq|].
  wp_steps. eapply wp_put_info; [by eapply elem_set_eq|]. wp_steps. cbn [vd dk_avail].
  assert (0 <= av_idx Av mod NUM < 8) by (apply Z.mod_pos_bound; done). rewrite arr_set_ok by lia.
  rewrite list_insert_insert_eq. exact HQ.
Qed.
End Submit.

Section Release.
Context (Av : virtq_avail) (Us : virtq_used) (ui : Z) (O : list virtio_blk_req) (B : gmap Z vbuf) (L : list (Z * Z)).

Lemma wp_free_chain I D Fr W q n Q : rq_ok q -> chain D O q -> (forall i, i ∈ ds q -> elem Fr i = Some 0) ->
  Q tt (mkVst (mkDisk (set3 D q zero_desc zero_desc zero_desc) Av Us (set3 Fr q 1 1 1) ui I O) B (W ++ [CFree; CFree; CFree]) L) ->
  wp (free_chain (S (S (S n))) (q_0 q)) Q (mkVst (mkDisk D Av Us Fr ui I O) B W L).
Proof.
  intros (HR & H01 & H02 & H12)%rq_ok_range [C0 C1 C2 _] HF HQ.
  pose proof (HF (q_0 q) ltac:(set_solver)) as F0. pose proof (HF (q_1 q) ltac:(set_solver)) as F1. pose proof (HF (q_2 q) ltac:(set_solver)) as F2.
  assert (forall x, Z.land (d_flags (desc1 x)) VRING_DESC_F_NEXT = 1) as E1 by (intros x; unfold desc1; cbn; by destruct (q_w x)).
  cbn [free_chain]. wp_steps. eapply wp_elem; [exact C0|]. apply wp_bind. eapply wp_free_desc; [exact F0|unfold NUM; lia|exact C0|].
  cbn [desc0 d_flags d_next]. change (negb (Z.land VRING_DESC_F_NEXT VRING_DESC_F_NEXT =? 0)) with true. cbv iota.
  wp_steps. cbn [vd dk_desc]. eapply wp_elem; [by rewrite elem_set_ne by (lia || done); exact C1|]. apply wp_bind.
  eapply wp_free_desc; [by rewrite elem_set_ne by (lia || done); exact F1|unfold NUM; lia|by rewrite elem_set_ne by (lia || done); exact C1|].
  rewrite E1. cbn [Z.eqb negb desc1 d_next].
  wp_steps. cbn [vd dk_desc]. eapply wp_elem; [by rewrite !elem_set_ne by (lia || done); exact C2|]. apply wp_bind.
  eapply wp_free_desc; [by rewrite !elem_set_ne by (lia || done); exact F2|unfold NUM; lia|by rewrite !elem_set_ne by (lia || done); exact C2|].
  change (negb (Z.land (d_flags (desc2 q)) VRING_DESC_F_NEXT =? 0)) with false. cbv iota. apply wp_ret. by rewrite <- !app_assoc.
Qed.

(** Waiting: the request is still the device's, or it is over and its
    descriptors are free again. *)
Lemma wp_rw_wait I D Fr W q s x Q : rq_ok q -> chain D O q -> (forall i, i ∈ ds q -> elem Fr i = Some 0) ->
  elem I (q_0 q) = Some (mkInfo (q_b q) s) -> B !! q_b q = Some x ->
  (if vb_disk x =? 1 then Q (SleepOn (q_0 q)) (mkVst (mkDisk D Av Us Fr ui I O) B W L)
   else Q Done (mkVst (mkDisk (set3 D q zero_desc zero_desc zero_desc) Av Us (set3 Fr q 1 1 1) ui (<[Z.to_nat (q_0 q) := mkInfo 0 s]> I) O)
                  B (W ++ [CFree; CFree; CFree]) L)) ->
  wp (rw_wait (q_b q) (q_0 q)) Q (mkVst (mkDisk D Av Us Fr ui I O) B W L).
Proof.
  intros Hq HC HF HI HB HQ. unfold rw_wait. apply wp_bind. eapply wp_get_vbuf; [exact HB|].
  destruct (vb_disk x =? 1); [by apply wp_ret|]. wp_steps. eapply wp_elem; [exact HI|]. wp_steps. eapply wp_put_info; [exact HI|].
  apply wp_bind. change (S (Z.to_nat NUM)) with (S (S (S 6))). by apply wp_free_chain.
Qed.
End Release.

(** ** Completions *)

Definition clear (B : gmap Z vbuf) (b : Z) : gmap Z vbuf :=
  match B !! b with Some x => <[b := mkVbuf (vb_blockno x) 0 (vb_data x)]> B | None => B end.

Lemma clear_some B b c : is_Some (B !! c) -> is_Some (clear B b !! c).
Proof. intros H. unfold clear. destruct (B !! b); [|done]. by apply lookup_insert_is_Some; destruct (decide (b = c)); auto. Qed.

(** The buffers of finished requests. *)
Lemma clear_all_lookup bs B b : foldl clear B bs !! b =
  if decide (b ∈ bs) then (fun x => mkVbuf (vb_blockno x) 0 (vb_data x)) <$> B !! b else B !! b.
Proof.
  revert B. induction bs as [|c bs IH]; intros B; [done|]. cbn [foldl]. rewrite IH.
  assert (clear B c !! b = if decide (c = b) then (fun x => mkVbuf (vb_blockno x) 0 (vb_data x)) <$> B !! b else B !! b) as E.
  { unfold clear. destruct (decide (c = b)) as [->|Hne]; [|by destruct (B !! c); rewrite ?lookup_insert_ne].
    destruct (B !! b) eqn:Eb; [by rewrite lookup_insert_eq|by rewrite Eb]. }
  rewrite E. destruct (decide (b ∈ bs)) as [H1|H1], (decide (b ∈ c :: bs)) as [H2|H2], (decide (c = b)) as [H3|H3]; try set_solver.
  by destruct (B !! b).
Qed.

Section Interrupt.
Context (D : list virtq_desc) (Av : virtq_avail) (Us : virtq_used) (Fr : list Z) (I : list vinfo) (O : list virtio_blk_req).

Lemma wp_intr_loop L n ui B W (Qu : list rq) Q : ring (us_ring Us) ui (us_idx Us) (q_0 <$> Qu) -> (length Qu < n)%nat ->
  (forall q, q ∈ Qu -> elem I (q_0 q) = Some (mkInfo (q_b q) 0) /\ is_Some (B !! q_b q)) ->
  Q tt (mkVst (mkDisk D Av Us Fr (us_idx Us) I O) (foldl clear B (q_b <$> Qu)) (W ++ (CBuf ∘ q_b <$> Qu)) L) ->
  wp (intr_loop n) Q (mkVst (mkDisk D Av Us Fr ui I O) B W L).
Proof.
  revert n ui B W. induction Qu as [|q Qu IH]; intros n ui B W HR Hn HQu HQ; (destruct n as [|n]; [cbn in Hn; lia|]); cbn [intr_loop]; wp_steps; cbn [vd dk_used_idx dk_used].
  { replace (ui =? us_idx Us) with true.
    - apply wp_ret. cbn in HQ. rewrite app_nil_r in HQ. replace ui with (us_idx Us); [done|]. destruct HR as [_ HF -> _ _]. unfold u16. cbn. zdiv.
    - symmetry. apply Z.eqb_eq. destruct HR as [_ HF -> _ _]. unfold u16. cbn. zdiv. }
  rewrite fmap_cons in HR. apply ring_pop in HR as (Hne & He & HR). replace (ui =? us_idx Us) with false by lia.
  destruct (HQu q ltac:(by left)) as [HI [x Hx]].
  wp_steps. eapply wp_elem; [exact He|]. wp_steps. eapply wp_elem; [exact HI|]. cbn [in_status in_b Z.eqb negb]. wp_steps.
  eapply wp_set_vdisk; [exact Hx|]. wp_steps. unfold wakeup. wp_steps. unfold upd_vd. wp_steps.
  cbn [vd vbufs vwoken vlog set_used_idx dk_desc dk_avail dk_used dk_free dk_used_idx dk_info dk_ops].
  apply IH; [done|cbn in Hn; lia| |].
  - intros q' Hq'. destruct (HQu q' ltac:(by right)) as [HI' HB']. split; [done|]. pose proof (clear_some B (q_b q) _ HB') as Hc. unfold clear in Hc. by rewrite Hx in Hc.
  - cbn [fmap list_fmap foldl] in HQ. unfold clear at 2 in HQ. rewrite Hx in HQ. rewrite <- app_assoc. exact HQ.
Qed.

(** An entry with an error: the handler panics. *)
Lemma bind_panics {S A1 A2} (c : M S A1) (f : A1 -> M S A2) msg s : wp c (fun a s' => f a s' = Panic msg) s -> (c ≫= f) s = Panic msg.
Proof. intros (a & s' & E & H)%wp_run. unfold mbind, M_bind. by rewrite E. Qed.

Lemma intr_loop_panics L n ui B W (Q1 : list rq) q Q2 st : ring (us_ring Us) ui (us_idx Us) (q_0 <$> Q1 ++ q :: Q2) -> (length Q1 < n)%nat ->
  (forall q, q ∈ Q1 -> elem I (q_0 q) = Some (mkInfo (q_b q) 0) /\ is_Some (B !! q_b q)) -> elem I (q_0 q) = Some (mkInfo (q_b q) st) -> st <> 0 ->
  intr_loop n (mkVst (mkDisk D Av Us Fr ui I O) B W L) = Panic "virtio_disk_intr status".
Proof.
  intros HR Hn HQ1 HI Hst. revert n ui B W HR Hn HQ1. induction Q1 as [|q1 Q1 IH]; intros n ui B W HR Hn HQ1; (destruct n as [|n]; [cbn in Hn; lia|]);
    cbn [intr_loop app fmap list_fmap] in *; apply ring_pop in HR as (Hne & He & HR); apply bind_panics; wp_steps; cbn [vd dk_used_idx dk_used];
    replace (ui =? us_idx Us) with false by lia; apply bind_panics; (eapply wp_elem; [exact He|]); apply bind_panics.
  { eapply wp_elem; [exact HI|]. cbn [in_status in_b]. by replace (st =? 0) with false by lia. }
  destruct (HQ1 q1 ltac:(by left)) as [HI1 [x Hx]]. eapply wp_elem; [exact HI1|]. cbn [in_status in_b Z.eqb negb].
  apply bind_panics. wp_steps. apply bind_panics. eapply wp_set_vdisk; [exact Hx|]. apply bind_panics. unfold wakeup. wp_steps.
  apply bind_panics. unfold upd_vd. wp_steps. cbn [vd vbufs vwoken vlog set_used_idx dk_desc dk_avail dk_used dk_free dk_used_idx dk_info dk_ops].
  apply IH; [done|cbn in Hn; lia|]. intros q' Hq'. destruct (HQ1 q' ltac:(by right)) as [HI' HB']. split; [done|].
  pose proof (clear_some B (q_b q1) _ HB') as Hc. unfold clear in Hc. by rewrite Hx in Hc.
Qed.

Lemma virtio_disk_intr_panics mmio L ui B W (Q1 : list rq) q Q2 st : ring (us_ring Us) ui (us_idx Us) (q_0 <$> Q1 ++ q :: Q2) ->
  (forall q, q ∈ Q1 -> elem I (q_0 q) = Some (mkInfo (q_b q) 0) /\ is_Some (B !! q_b q)) -> elem I (q_0 q) = Some (mkInfo (q_b q) st) -> st <> 0 ->
  virtio_disk_intr mmio (mkVst (mkDisk D Av Us Fr ui I O) B W L) = Panic "virtio_disk_intr status".
Proof.
  intros HR HQ1 HI Hst. unfold virtio_disk_intr, mmio_read, mmio_write. do 3 (apply bind_panics; wp_steps). cbn [vd vbufs vwoken vlog dk_used dk_used_idx].
  apply (intr_loop_panics _ _ _ _ _ Q1 q Q2 st); [done| |done..]. rewrite (ring_count _ _ _ _ HR), length_fmap, length_app. lia.
Qed.

Lemma wp_virtio_disk_intr mmio L ui B W (Qu : list rq) Q : ring (us_ring Us) ui (us_idx Us) (q_0 <$> Qu) ->
  (forall q, q ∈ Qu -> elem I (q_0 q) = Some (mkInfo (q_b q) 0) /\ is_Some (B !! q_b q)) ->
  (forall L', Q tt (mkVst (mkDisk D Av Us Fr (us_idx Us) I O) (foldl clear B (q_b <$> Qu)) (W ++ (CBuf ∘ q_b <$> Qu)) L')) ->
  wp (virtio_disk_intr mmio) Q (mkVst (mkDisk D Av Us Fr ui I O) B W L).
Proof.
  intros HR HQu HQ. unfold virtio_disk_intr, mmio_read, mmio_write. wp_steps. cbn [vd vbufs vwoken vlog dk_used dk_used_idx].
  apply (wp_intr_loop _ _ _ _ _ Qu); [done| |done|apply HQ]. rewrite (ring_count _ _ _ _ HR), length_fmap. lia.
Qed.
End Interrupt.

(** The device serves a request the driver has set up, with status [st]. *)
Definition served (st : Z) (q : rq) (D : list virtq_desc) Av Us Fr ui (I : list vinfo) (O : list virtio_blk_req) (B : gmap Z vbuf) W L (k : Z) (old : list Z) : vst :=
  mkVst (mkDisk D Av (mkUsed (u16 (us_idx Us + 1)) (<[Z.to_nat (us_idx Us mod NUM) := q_0 q]> (us_ring Us))) Fr ui
           (<[Z.to_nat (q_0 q) := mkInfo (q_b q) st]> I) O)
    (if q_w q then B else <[q_b q := mkVbuf (q_n q) k old]> B) W L.

Lemma dev_complete_ok st junk q D Av Us Fr ui I O B W L dsk s k data old : chain D O q -> elem I (q_0 q) = Some (mkInfo (q_b q) s) ->
  B !! q_b q = Some (mkVbuf (q_n q) k data) -> dsk !! q_n q = Some old ->
  dev_complete st junk (q_0 q) (mkVst (mkDisk D Av Us Fr ui I O) B W L) dsk =
    Some (served st q D Av Us Fr ui I O B W L k (if st =? 0 then old else junk),
      if q_w q then <[q_n q := if st =? 0 then data else junk]> dsk else dsk).
Proof.
  intros [C0 C1 C2 CO] HI HB Hd. unfold dev_complete. cbn [vd dk_desc]. rewrite C0. cbn [mbind option_bind desc0 d_next]. rewrite C1.
  cbn [mbind option_bind desc1 d_next]. rewrite C2. cbn [mbind option_bind desc0 desc1 desc2 d_addr dk_ops dk_info vbufs]. rewrite CO. cbn [mbind option_bind].
  rewrite HB. cbn [mbind option_bind]. assert (rq_sector (op_of q) = q_n q * 2) as Es by done. rewrite Es.
  change (BLOCK_BYTES / 512) with 2. rewrite Z.div_mul by done. rewrite Hd. cbn [mbind option_bind]. rewrite HI. cbn [mbind option_bind].
  rewrite Z.mod_mul by done. unfold served, desc1, op_of, VIRTIO_BLK_S_OK. by destruct (q_w q).
Qed.
