(* ===== verification/VirtioInv.v ===== *)
(** * The disk driver: the invariant of the running system

    [inv] ties the descriptor table, the two rings, the buffers and the
    processes to the requests in flight, which are in the available ring
    ([Qa]), with the device ([Qp]), in the used ring ([Qu]) or finished and
    not yet picked up by their process ([F]). *)

From Stdlib Require Import ZArith Lia Bool String.
From stdpp Require Import base gmap list strings.
From S2P Require Import Prelude Virtio VirtioProof.

(** What the processes and their buffers satisfy. *)
Record pinv (P : gmap nat vproc) (B : gmap Z vbuf) (dsk : blocks) (R F : list rq) : Prop := {
  p_proc : forall q, q ∈ R ->
    (P !! q_p q = Some (SleepB (q_b q) (q_w q) (q_0 q)) /\ q ∉ F) \/ P !! q_p q = Some (Ready (q_b q) (q_w q) (q_0 q));
  p_own : forall p b w h, P !! p = Some (SleepB b w h) \/ P !! p = Some (Ready b w h) ->
    exists q, q ∈ R /\ q_p q = p /\ q_b q = b /\ q_w q = w /\ q_0 q = h;
  p_one : forall p1 p2 v1 v2 b, P !! p1 = Some v1 -> P !! p2 = Some v2 -> buf_of v1 = Some b -> buf_of v2 = Some b -> p1 = p2;
  p_blk : forall p v b, P !! p = Some v -> buf_of v = Some b ->
    exists n k data, B !! b = Some (mkVbuf n k data) /\ 0 <= n < 2 ^ 31 /\ is_Some (dsk !! n);
  p_wait : forall p b w, P !! p = Some (SleepD b w) -> (2 <= length R)%nat
}.

Record inv (y : vsys) (R Qa Qp Qu F : list rq) : Prop := {
  i_perm : R ≡ₚ Qa ++ Qp ++ Qu ++ F;
  i_ldesc : length (dk_desc (y_disk y)) = 8%nat;
  i_linfo : length (dk_info (y_disk y)) = 8%nat;
  i_lops : length (dk_ops (y_disk y)) = 8%nat;
  i_nd : NoDup (R ≫= ds);
  i_ok : forall q, q ∈ R -> rq_ok q;
  i_free : free_rep (dk_free (y_disk y)) (R ≫= ds);
  i_chain : forall q, q ∈ R -> chain (dk_desc (y_disk y)) (dk_ops (y_disk y)) q;
  i_new : forall q, q ∈ Qa ++ Qp -> elem (dk_info (y_disk y)) (q_0 q) = Some (mkInfo (q_b q) 255);
  i_rep : forall q, q ∈ Qu -> exists st, st ∈ dev_status /\ elem (dk_info (y_disk y)) (q_0 q) = Some (mkInfo (q_b q) st);
  i_old : forall q, q ∈ F -> elem (dk_info (y_disk y)) (q_0 q) = Some (mkInfo (q_b q) 0);
  i_avail : ring (av_ring (dk_avail (y_disk y))) (y_seen y) (av_idx (dk_avail (y_disk y))) (q_0 <$> Qa);
  i_pend : y_pend y = q_0 <$> Qp;
  i_used : ring (us_ring (dk_used (y_disk y))) (dk_used_idx (y_disk y)) (us_idx (dk_used (y_disk y))) (q_0 <$> Qu);
  i_busy : forall q, q ∈ Qa ++ Qp ++ Qu -> exists data, y_bufs y !! q_b q = Some (mkVbuf (q_n q) 1 data);
  i_fin : forall q, q ∈ F -> exists data, y_bufs y !! q_b q = Some (mkVbuf (q_n q) 0 data);
  i_procs : pinv (y_procs y) (y_bufs y) (y_dsk y) R F
}.

Arguments p_proc {_ _ _ _ _} _ _ _.
Arguments p_own {_ _ _ _ _} _ _ _ _ _ _.
Arguments p_one {_ _ _ _ _} _ {_ _ _ _ _} _ _ _ _.
Arguments p_blk {_ _ _ _ _} _ {_ _ _} _ _.
Arguments p_wait {_ _ _ _ _} _ {_ _ _} _.
Arguments i_perm {_ _ _ _ _ _} _.
Arguments i_ldesc {_ _ _ _ _ _} _.
Arguments i_linfo {_ _ _ _ _ _} _.
Arguments i_lops {_ _ _ _ _ _} _.
Arguments i_nd {_ _ _ _ _ _} _.
Arguments i_ok {_ _ _ _ _ _} _ _ _.
Arguments i_free {_ _ _ _ _ _} _.
Arguments i_chain {_ _ _ _ _ _} _ _ _.
Arguments i_new {_ _ _ _ _ _} _ _ _.
Arguments i_rep {_ _ _ _ _ _} _ _ _.
Arguments i_old {_ _ _ _ _ _} _ _ _.
Arguments i_avail {_ _ _ _ _ _} _.
Arguments i_pend {_ _ _ _ _ _} _.
Arguments i_used {_ _ _ _ _ _} _.
Arguments i_busy {_ _ _ _ _ _} _ _ _.
Arguments i_fin {_ _ _ _ _ _} _ _ _.
Arguments i_procs {_ _ _ _ _ _} _.

(** ** Requests do not overlap *)

Lemma ds_inj R q1 q2 i : NoDup (R ≫= ds) -> q1 ∈ R -> q2 ∈ R -> i ∈ ds q1 -> i ∈ ds q2 -> q1 = q2.
Proof.
  induction R as [|q R IH]; intros Hnd H1 H2 I1 I2; [by apply elem_of_nil in H1|]. cbn [mbind list_bind] in Hnd.
  apply list.NoDup_app in Hnd as (_ & Hd & Hnd).
  assert (forall q', q' ∈ R -> i ∈ ds q' -> i ∈ R ≫= ds) as Hb by (intros q' ??; apply list_elem_of_bind; eauto).
  apply elem_of_cons in H1 as [->|H1], H2 as [->|H2]; [done| | |by apply IH].
  - destruct (Hd i); [done|]. by eapply Hb.
  - destruct (Hd i); [done|]. by eapply Hb.
Qed.

Lemma ds_NoDup R : NoDup (R ≫= ds) -> NoDup R.
Proof.
  induction R as [|q R IH]; intros Hnd; [constructor|]. cbn [mbind list_bind] in Hnd.
  apply list.NoDup_app in Hnd as (_ & Hd & Hnd). constructor; [|by apply IH]. intros Hq.
  apply (Hd (q_0 q)); [by left|]. apply list_elem_of_bind. exists q. split; [by left|done].
Qed.

Lemma ds_length R : length (R ≫= ds) = (3 * length R)%nat.
Proof. induction R as [|q R IH]; [done|]. cbn [mbind list_bind]. rewrite length_app. cbn [ds length]. change (length (R ≫= ds)) with (length (mbind ds R)). lia. Qed.

Lemma ds_bound R : NoDup (R ≫= ds) -> (forall q, q ∈ R -> rq_ok q) -> (length R <= 2)%nat.
Proof.
  intros Hnd Hok. enough (length (R ≫= ds) <= Z.to_nat 8)%nat by (rewrite ds_length in *; lia).
  apply NoDup_bounded_length; [done|]. intros i (q & Hi & Hq)%list_elem_of_bind. by apply (Hok q Hq).
Qed.

Section Inv.
Context {y : vsys} {R Qa Qp Qu F : list rq} (H : inv y R Qa Qp Qu F).

Lemma inv_in q : q ∈ R <-> q ∈ Qa \/ q ∈ Qp \/ q ∈ Qu \/ q ∈ F.
Proof. rewrite (i_perm H), !elem_of_app. tauto. Qed.

(** Requests of one process or one buffer are the same. *)
Lemma inv_p_inj q1 q2 : q1 ∈ R -> q2 ∈ R -> q_p q1 = q_p q2 -> q1 = q2.
Proof.
  intros H1 H2 Hp. pose proof (p_proc (i_procs H)) as HP.
  assert (q_0 q1 = q_0 q2) as H0 by (destruct (HP q1 H1) as [[E1 _]|E1], (HP q2 H2) as [[E2 _]|E2]; rewrite Hp in E1; congruence).
  eapply (ds_inj R q1 q2 (q_0 q1)); [apply H|done|done|by left|]. rewrite H0. by left.
Qed.

Lemma inv_buf_of q : q ∈ R -> exists v, y_procs y !! q_p q = Some v /\ buf_of v = Some (q_b q).
Proof. intros Hq. destruct (p_proc (i_procs H) q Hq) as [[E _]|E]; eauto. Qed.

Lemma inv_b_inj q1 q2 : q1 ∈ R -> q2 ∈ R -> q_b q1 = q_b q2 -> q1 = q2.
Proof.
  intros H1 H2 Hb. destruct (inv_buf_of q1 H1) as (v1 & E1 & B1). destruct (inv_buf_of q2 H2) as (v2 & E2 & B2). rewrite Hb in B1.
  apply inv_p_inj; [done..|]. by eapply (p_one (i_procs H)).
Qed.

Lemma inv_apart l1 q l2 : Qa ++ Qp ++ Qu ++ F = l1 ++ q :: l2 -> q ∉ l1 ++ l2.
Proof.
  intros E. pose proof (ds_NoDup _ (i_nd H)) as Hnd. rewrite (i_perm H), E in Hnd.
  rewrite <- Permutation_middle in Hnd. by apply list.NoDup_cons in Hnd as [Hq _].
Qed.

Lemma inv_head_ne q1 q2 : q1 ∈ R -> q2 ∈ R -> q1 <> q2 -> q_0 q1 <> q_0 q2.
Proof. intros H1 H2 Hne E. apply Hne. eapply (ds_inj R q1 q2 (q_0 q1)); [apply H|done|done|by left|]. rewrite E. by left. Qed.

Lemma inv_bound : (length Qa + length Qp + length Qu + length F <= 2)%nat.
Proof. pose proof (ds_bound R (i_nd H) (i_ok H)) as Hb. rewrite (i_perm H) in Hb. rewrite !length_app in Hb. lia. Qed.

(** The block of a request. *)
Lemma inv_block q k data : q ∈ R -> y_bufs y !! q_b q = Some (mkVbuf (q_n q) k data) -> 0 <= q_n q < 2 ^ 31 /\ is_Some (y_dsk y !! q_n q).
Proof.
  intros Hq HB. destruct (inv_buf_of q Hq) as (v & E & Hb). destruct (p_blk (i_procs H) E Hb) as (n & k' & d & EB & Hn & Hs).
  rewrite HB in EB. by injection EB as <- _ _.
Qed.

Lemma inv_disjoint q : (q ∈ Qa ++ Qp -> q ∉ Qu ++ F) /\ (q ∈ Qa ++ Qp ++ Qu -> q ∉ F).
Proof.
  pose proof (ds_NoDup _ (i_nd H)) as Hnd. rewrite (i_perm H) in Hnd. split.
  - rewrite app_assoc in Hnd. apply list.NoDup_app in Hnd as (_ & Hd & _). apply Hd.
  - rewrite !app_assoc in Hnd. apply list.NoDup_app in Hnd as (_ & Hd & _). rewrite app_assoc. apply Hd.
Qed.

End Inv.

(** ** Waking processes *)

Lemma wake_some W (P : gmap nat vproc) p v : (wake W <$> P) !! p = Some v -> exists v0, P !! p = Some v0 /\ v = wake W v0.
Proof. rewrite lookup_fmap. destruct (P !! p) as [v0|] eqn:E; cbn; intros [= <-]; eauto. Qed.

Lemma wake_buf W v : buf_of (wake W v) = buf_of v.
Proof. destruct v; cbn; try done; by destruct (decide _). Qed.

Lemma wake_waits W v b w h : wake W v = SleepB b w h \/ wake W v = Ready b w h -> v = SleepB b w h \/ v = Ready b w h.
Proof. intros [E|E]; destruct v; cbn in E; try (destruct (decide _)); simplify_eq; auto. Qed.

Lemma wake_sleepd W v b w : wake W v = SleepD b w -> v = SleepD b w /\ CFree ∉ W.
Proof. intros E. destruct v; cbn in E; try (destruct (decide _)); simplify_eq; auto. Qed.

(** Waking processes keeps the invariant, and may finish the requests whose
    buffers are woken. *)
Lemma pinv_wake W P B dsk R F X : pinv P B dsk R F -> (forall q, q ∈ X -> CBuf (q_b q) ∈ W) -> pinv (wake W <$> P) B dsk R (X ++ F).
Proof.
  intros HP HX. split.
  - intros q Hq. rewrite lookup_fmap. destruct (p_proc HP q Hq) as [[E HF]|E]; rewrite E; cbn; [|by right].
    destruct (decide (CBuf (q_b q) ∈ W)) as [Hw|Hw]; [by right|]. left. split; [done|]. rewrite elem_of_app. intros [HqX|HqF]; [by apply Hw, HX|done].
  - intros p b w h Hw. apply (p_own HP p b w h). rewrite lookup_fmap in Hw. destruct (P !! p) as [v|]; cbn in Hw; [|by destruct Hw].
    assert (v = SleepB b w h \/ v = Ready b w h) as [->| ->]; [|by auto..]. apply (wake_waits W). destruct Hw; simplify_eq; auto.
  - intros p1 p2 v1 v2 b (u1 & E1 & ->)%wake_some (u2 & E2 & ->)%wake_some. rewrite !wake_buf. by apply (p_one HP E1 E2).
  - intros p v b (u & E & ->)%wake_some. rewrite wake_buf. by apply (p_blk HP E).
  - intros p b w (u & E & Eu)%wake_some. symmetry in Eu. apply wake_sleepd in Eu as [-> _]. by eapply (p_wait HP).
Qed.

Lemma pinv_bufs P B B' dsk dsk' R F : pinv P B dsk R F -> (forall b n k data, B !! b = Some (mkVbuf n k data) ->
    (exists p v, P !! p = Some v /\ buf_of v = Some b) -> exists k' data', B' !! b = Some (mkVbuf n k' data')) ->
  (forall n, is_Some (dsk !! n) -> is_Some (dsk' !! n)) -> pinv P B' dsk' R F.
Proof.
  intros HP HB Hd. split; [apply HP|apply HP|exact (@p_one _ _ _ _ _ HP)| |exact (@p_wait _ _ _ _ _ HP)].
  intros p v b E Hb. destruct (p_blk HP E Hb) as (n & k & data & EB & Hn & Hs). destruct (HB b n k data EB) as (k' & data' & EB'); [eauto|].
  exists n, k', data'. auto.
Qed.

(** A process that starts or stops waiting for a buffer it has. *)
Lemma pinv_swap P B dsk R R' F F' p v v' : pinv P B dsk R F -> P !! p = Some v -> (forall b, buf_of v' = Some b -> buf_of v = Some b) ->
  (forall q, q ∈ R' -> q_p q <> p -> q ∈ R) -> (forall q, q ∈ R -> q_p q <> p -> q ∈ R') ->
  (forall q, q ∈ R' -> q_p q <> p -> q ∈ F' -> q ∈ F) ->
  (forall q, q ∈ R' -> q_p q = p -> (v' = SleepB (q_b q) (q_w q) (q_0 q) /\ q ∉ F') \/ v' = Ready (q_b q) (q_w q) (q_0 q)) ->
  (forall b w h, v' = SleepB b w h \/ v' = Ready b w h -> exists q, q ∈ R' /\ q_p q = p /\ q_b q = b /\ q_w q = w /\ q_0 q = h) ->
  (forall p' b w, <[p := v']> P !! p' = Some (SleepD b w) -> (2 <= length R')%nat) ->
  pinv (<[p := v']> P) B dsk R' F'.
Proof.
  intros HP Hv Hb H1 H2 H3 H4 H5 H6. split.
  - intros q Hq. destruct (decide (q_p q = p)) as [E|Hne].
    + rewrite E, lookup_insert_eq. destruct (H4 q Hq E) as [[-> ?]| ->]; auto.
    + rewrite lookup_insert_ne by done. destruct (p_proc HP q (H1 q Hq Hne)) as [[E HF]|E]; [|by right]. left. split; [done|]. intros Hf. by apply HF, H3.
  - intros p' b w h. destruct (decide (p = p')) as [<-|Hne].
    + rewrite lookup_insert_eq. intros Hw. apply H5. destruct Hw; simplify_eq; auto.
    + rewrite lookup_insert_ne by done. intros (q & Hq & <- & <- & <- & <-)%(p_own HP). exists q. split; [by apply H2|done].
  - intros p1 p2 v1 v2 b E1 E2 B1 B2.
    assert (forall p0 v0, <[p := v']> P !! p0 = Some v0 -> buf_of v0 = Some b -> exists u, P !! p0 = Some u /\ buf_of u = Some b) as Hl.
    { intros p0 v0 [[<- <-]|[Hne E0]]%lookup_insert_Some ?; eauto. }
    destruct (Hl _ _ E1 B1) as (? & ? & ?), (Hl _ _ E2 B2) as (? & ? & ?). by eapply (p_one HP).
  - intros p0 v0 b [[<- <-]|[Hne E0]]%lookup_insert_Some Hb0; [eapply (p_blk HP); [exact Hv|by apply Hb]|by eapply (p_blk HP)].
  - exact H6.
Qed.
