(* ===== verification/VirtioSteps.v ===== *)
(** * The disk driver: every step keeps the invariant

    One lemma per step of the running system: the step's code returns, the
    invariant of [VirtioInv] holds again, and the abstract state moves by the
    specification's step or not at all. *)

From Stdlib Require Import ZArith Lia Bool String.
From stdpp Require Import base gmap list strings.
From S2P Require Import Prelude Virtio VirtioProof VirtioInv.

(** ** The abstract state *)

Lemma abs_wake I W (P : gmap nat vproc) : abs_proc I <$> (wake W <$> P) = abs_proc I <$> P.
Proof.
  rewrite <- map_fmap_compose. apply map_fmap_ext. intros p v _. cbn. destruct v; cbn; try done; by destruct (decide _).
Qed.

Lemma abs_swap I I' (P : gmap nat vproc) p v v' : P !! p = Some v ->
  (forall p' u, p' <> p -> P !! p' = Some u -> abs_proc I' u = abs_proc I u) ->
  abs_proc I' <$> <[p := v']> P = <[p := abs_proc I' v']> (abs_proc I <$> P).
Proof.
  intros Hv HI. rewrite fmap_insert. apply map_eq. intros p'. destruct (decide (p = p')) as [<-|Hne]; [by rewrite !lookup_insert_eq|].
  rewrite !lookup_insert_ne, !lookup_fmap by done. destruct (P !! p') eqn:E; cbn; [|done]. f_equal. by apply (HI p').
Qed.

(** A process that gets where no error shows. *)
Lemma reported_set y y' p v : sp_procs (abs y') = <[p := v]> (sp_procs (abs y)) -> (forall b w, v <> SFailed b w) -> ~ reported y -> ~ reported y'.
Proof.
  intros E Hv Hn (p' & b & w & Hp). rewrite E in Hp. apply lookup_insert_Some in Hp as [[_ ?]|[_ Hp']]; [by apply (Hv b w)|]. apply Hn. by exists p', b, w.
Qed.

(** Changing one request's entry does not show in other processes. *)
Lemma abs_other {P B dsk R F} (HP : pinv P B dsk R F) I h x p : 0 <= h -> (forall q, q ∈ R -> q_p q <> p -> q_0 q <> h) ->
  forall p' u, p' <> p -> P !! p' = Some u -> abs_proc (<[Z.to_nat h := x]> I) u = abs_proc I u.
Proof.
  intros Hh HR p' u Hp Hu. assert (forall b w h', u = SleepB b w h' \/ u = Ready b w h' -> elem (<[Z.to_nat h := x]> I) h' = elem I h') as E.
  { intros b w h' Hw. destruct (p_own HP p' b w h') as (q & Hq & <- & _ & _ & <-); [destruct Hw; subst; auto|].
    apply elem_set_ne; [done|]. intros E. by apply (HR q). }
  destruct u; cbn; try done; by erewrite E by eauto.
Qed.

Lemma abs_waiting I b w h i : elem I h = Some i ->
  abs_proc I (SleepB b w h) = of_status (in_status i) b w /\ abs_proc I (Ready b w h) = of_status (in_status i) b w.
Proof. intros E. cbn. by rewrite E. Qed.

Lemma pinv_perm P B dsk R R' F F' : R ≡ₚ R' -> F ≡ₚ F' -> pinv P B dsk R F -> pinv P B dsk R' F'.
Proof.
  intros HR HF HP. split.
  - intros q. rewrite <- HR, <- HF. apply HP.
  - intros p b w h Hw. destruct (p_own HP p b w h Hw) as (q & Hq & E). exists q. by rewrite <- HR.
  - exact (@p_one _ _ _ _ _ HP).
  - exact (@p_blk _ _ _ _ _ HP).
  - intros p b w Hw. rewrite <- HR. by eapply (p_wait HP).
Qed.

(** ** The device *)

Section Device.
Context {D : list virtq_desc} {Av : virtq_avail} {Us : virtq_used} {Fr : list Z} {ui : Z} {I : list vinfo} {O : list virtio_blk_req}
  {L : list (Z * Z)} {B : gmap Z vbuf} {seen : Z} {pend : list Z} {dsk : blocks} {P : gmap nat vproc} {R Qa Qp Qu F : list rq}.

Abbreviation here := (mkSys (mkDisk D Av Us Fr ui I O) L B seen pend dsk P).

Lemma inv_fetch q : inv here R (q :: Qa) Qp Qu F ->
  inv (mkSys (mkDisk D Av Us Fr ui I O) L B (u16 (seen + 1)) (pend ++ [q_0 q]) dsk P) R Qa (Qp ++ [q]) Qu F.
Proof.
  intros H. assert (Qa ++ (Qp ++ [q]) ≡ₚ (q :: Qa) ++ Qp) as HP by (rewrite Permutation_app_comm, <- app_assoc; cbn; rewrite <- Permutation_middle, Permutation_app_comm; done).
  split; try apply H.
  - rewrite (i_perm H). rewrite (app_assoc Qa (Qp ++ [q])), HP. by rewrite <- app_assoc.
  - intros q'. rewrite HP. apply (i_new H).
  - by apply (ring_pop _ _ _ _ _ (i_avail H)).
  - cbn. rewrite fmap_app. pose proof (i_pend H) as E. cbn in E. by rewrite E.
  - intros q'. rewrite (app_assoc Qa), HP, <- app_assoc. apply (i_busy H).
Qed.

Lemma fetch_inv h : inv here R Qa Qp Qu F -> seen <> av_idx Av -> elem (av_ring Av) (seen mod NUM) = Some h -> exists q Qa', Qa = q :: Qa' /\ q_0 q = h.
Proof.
  intros H Hne Hh. pose proof (i_avail H) as HA. cbn in HA. destruct (ring_some _ _ _ _ HA Hne) as (h' & l & E).
  rewrite E in HA. apply ring_pop in HA as (_ & Hh' & _). destruct Qa as [|q Qa']; [done|]. injection E as E _. exists q, Qa'. split; [done|]. congruence.
Qed.

(** The buffers after the device has served [q]. *)
Lemma served_bufs (w : bool) q k data old : B !! q_b q = Some (mkVbuf (q_n q) k data) ->
  forall b n k' d, B !! b = Some (mkVbuf n k' d) -> exists d', (if w then B else <[q_b q := mkVbuf (q_n q) k old]> B) !! b = Some (mkVbuf n k' d').
Proof.
  intros HB b n k' d E. destruct w; [eauto|]. destruct (decide (q_b q = b)) as [<-|Hne]; [|rewrite lookup_insert_ne by done; eauto].
  rewrite lookup_insert_eq. exists old. congruence.
Qed.

Lemma inv_served st k1 q k2 data old new : inv here R Qa (k1 ++ q :: k2) Qu F -> B !! q_b q = Some (mkVbuf (q_n q) 1 data) -> st ∈ dev_status ->
  let s := served st q D Av Us Fr ui I O B [] L 1 old in
  inv (mkSys (vd s) (vlog s) (vbufs s) seen (q_0 <$> (k1 ++ k2)) (if q_w q then <[q_n q := new]> dsk else dsk) P) R Qa (k1 ++ k2) (Qu ++ [q]) F.
Proof.
  intros H HB Hst s. assert (q ∈ R) as Hq by (apply (inv_in H); rewrite elem_of_app; set_solver).
  assert (forall b n k d, B !! b = Some (mkVbuf n k d) -> exists d', vbufs s !! b = Some (mkVbuf n k d')) as HB' by (by apply (served_bufs (q_w q) q 1 data old)).
  pose proof (inv_bound H) as Hlen. pose proof (proj1 (rq_ok_range q (i_ok H q Hq))) as Hr.
  assert (forall q', q' ∈ R -> q' <> q -> elem (dk_info (vd s)) (q_0 q') = elem I (q_0 q')) as HI.
  { intros q' Hq' Hne. apply elem_set_ne; [lia|]. intros E. by apply (inv_head_ne H q' q). }
  assert (q ∉ (Qa ++ k1) ++ k2 ++ Qu ++ F) as Hout by (apply (inv_apart H); by rewrite <- !app_assoc). rewrite !elem_of_app in Hout.
  split; try apply H.
  - rewrite (i_perm H), <- !app_assoc. do 2 apply Permutation_app_head. cbn. rewrite !(app_assoc k2). by rewrite <- Permutation_middle.
  - cbn. rewrite length_insert. apply H.
  - intros q' Hq'. cbn [y_disk]. rewrite HI; [apply (i_new H)|apply (inv_in H)|]; rewrite ?elem_of_app in *; [set_solver|set_solver|]. intros ->. tauto.
  - intros q' Hq'. destruct (decide (q' = q)) as [->|Hne].
    { exists st. split; [done|]. cbn. eapply elem_set_eq. apply (i_new H). rewrite !elem_of_app. set_solver. }
    cbn [y_disk]. rewrite HI; [apply (i_rep H)|apply (inv_in H)|done]; rewrite ?elem_of_app in *; set_solver.
  - intros q' Hq'. cbn [y_disk]. rewrite HI; [by apply (i_old H)|apply (inv_in H); auto|]. intros ->. tauto.
  - done.
  - cbn. rewrite fmap_app. apply ring_push; [apply H|]. rewrite length_fmap. rewrite length_app in Hlen. cbn in Hlen. lia.
  - intros q' Hq'. destruct (i_busy H q') as [d E]; [rewrite !elem_of_app in *; set_solver|]. by destruct (HB' _ _ _ _ E) as [d' E']; eauto.
  - intros q' Hq'. destruct (i_fin H q' Hq') as [d E]. by destruct (HB' _ _ _ _ E) as [d' E']; eauto.
  - cbn [y_procs y_bufs y_dsk]. eapply pinv_bufs; [apply (i_procs H)| |].
    + intros b n k d E _. destruct (HB' _ _ _ _ E) as [d' E']. eauto.
    + cbn. intros n Hn. destruct (q_w q); [|done]. apply lookup_insert_is_Some. destruct (decide (q_n q = n)); auto.
Qed.

(** The device serves [q], at which moment the request takes effect, or fails. *)
Lemma inv_complete st junk k1 q k2 : inv here R Qa (k1 ++ q :: k2) Qu F -> st ∈ dev_status ->
  exists s dsk', dev_complete st junk (q_0 q) (enter here) dsk = Some (s, dsk') /\
    inv (mkSys (vd s) (vlog s) (vbufs s) seen (q_0 <$> (k1 ++ k2)) dsk' P) R Qa (k1 ++ k2) (Qu ++ [q]) F /\
    spec_step (abs here) (abs (mkSys (vd s) (vlog s) (vbufs s) seen (q_0 <$> (k1 ++ k2)) dsk' P)) /\
    (st = VIRTIO_BLK_S_OK -> ~ reported here -> ~ reported (mkSys (vd s) (vlog s) (vbufs s) seen (q_0 <$> (k1 ++ k2)) dsk' P)).
Proof.
  intros H Hst. assert (q ∈ R) as Hq by (apply (inv_in H); rewrite elem_of_app; set_solver).
  destruct (i_busy H q) as [data HB]; [rewrite !elem_of_app; set_solver|]. cbn in HB.
  destruct (inv_block H q 1 data Hq HB) as [Hn [old Hd]]. cbn in Hd.
  assert (elem I (q_0 q) = Some (mkInfo (q_b q) 255)) as HI by (apply (i_new H); rewrite !elem_of_app; set_solver).
  pose proof (proj1 (rq_ok_range q (i_ok H q Hq))) as Hr.
  eexists _, _. split; [apply (dev_complete_ok st junk _ _ _ _ _ _ _ _ _ _ _ _ _ _ _ _ (i_chain H q Hq) HI HB Hd)|]. split; [by eapply inv_served|].
  destruct (inv_buf_of H q Hq) as (v & Hv & _). cbn in Hv.
  assert (v = SleepB (q_b q) (q_w q) (q_0 q) \/ v = Ready (q_b q) (q_w q) (q_0 q)) as Ev.
  { destruct (p_proc (i_procs H) q Hq) as [[E _]|E]; cbn in E; rewrite Hv in E; injection E; auto. }
  assert (abs_proc I v = SCalled (q_b q) (q_w q)) as E1 by (destruct (abs_waiting I (q_b q) (q_w q) _ _ HI); by destruct Ev as [->| ->]).
  set (I' := <[Z.to_nat (q_0 q) := mkInfo (q_b q) st]> I).
  assert (abs_proc I' v = of_status st (q_b q) (q_w q)) as E2.
  { destruct (abs_waiting I' (q_b q) (q_w q) (q_0 q) (mkInfo (q_b q) st)); [by eapply elem_set_eq|]. by destruct Ev as [->| ->]. }
  assert (abs_proc I' <$> P = <[q_p q := of_status st (q_b q) (q_w q)]> (abs_proc I <$> P)) as EP.
  { rewrite <- E2, <- (insert_id P (q_p q) v) at 1 by done. apply (abs_swap I I' P _ v v); [done|].
    apply (abs_other (i_procs H)); [lia|]. intros q' Hq' Hp E. destruct (decide (q' = q)) as [->|Hne]; [done|]. by apply (inv_head_ne H q' q). }
  split; [|intros -> Hnr; apply (reported_set here _ (q_p q) (SServed (q_b q) (q_w q))); [exact EP|done|exact Hnr]].
  unfold abs, served. cbn [vd vbufs vlog y_bufs y_disk y_dsk y_procs dk_info]. fold I'. rewrite EP.
  assert ((abs_proc I <$> P) !! q_p q = Some (SCalled (q_b q) (q_w q))) as Ec by (rewrite lookup_fmap, Hv; cbn; by f_equal).
  assert (st = 0 \/ of_status st (q_b q) (q_w q) = SFailed (q_b q) (q_w q) /\ (st =? 0) = false) as [->|[Ef Ez]].
  { unfold dev_status in Hst. rewrite !elem_of_cons, elem_of_nil in Hst. destruct Hst as [->|[->|[->|[]]]]; auto. }
  2:{ rewrite Ef, Ez. destruct (q_w q) eqn:Ew.
      - apply (sp_fail_write (mkSpec _ _ _) (q_p q) (q_b q) (q_n q) data junk); [done|cbn; by rewrite lookup_fmap, HB].
      - rewrite fmap_insert. apply (sp_fail_read (mkSpec _ _ _) (q_p q) (q_b q) (q_n q) data junk); [done|cbn; by rewrite lookup_fmap, HB]. }
  change (of_status 0 (q_b q) (q_w q)) with (SServed (q_b q) (q_w q)). change (0 =? 0) with true. cbv iota. destruct (q_w q) eqn:Ew.
  - apply (sp_write (mkSpec _ _ _) (q_p q) (q_b q) (q_n q) data); cbn; [done|by rewrite lookup_fmap, HB].
  - rewrite fmap_insert. apply (sp_read (mkSpec _ _ _) (q_p q) (q_b q) (q_n q) data old); cbn; [done|by rewrite lookup_fmap, HB|done].
Qed.

End Device.

(** ** The driver *)

Section Driver.
Context {D : list virtq_desc} {Av : virtq_avail} {Us : virtq_used} {Fr : list Z} {ui : Z} {I : list vinfo} {O : list virtio_blk_req}
  {L : list (Z * Z)} {B : gmap Z vbuf} {seen : Z} {pend : list Z} {dsk : blocks} {P : gmap nat vproc} {R Qa Qp Qu F : list rq}.

Abbreviation here := (mkSys (mkDisk D Av Us Fr ui I O) L B seen pend dsk P).

(** Putting one process where it was, or somewhere the abstract state does
    not tell apart. *)
Lemma abs_leave D' Av' Us' Fr' ui' O' L' W p v v' seen' pend' : P !! p = Some v -> abs_proc I v' = abs_proc I v ->
  abs (mkSys (mkDisk D' Av' Us' Fr' ui' I O') L' B seen' pend' dsk (<[p := v']> (wake W <$> P))) = abs here.
Proof.
  intros Hv E. unfold abs. cbn. f_equal. rewrite (abs_swap I I _ p (wake W v)); [|by rewrite lookup_fmap, Hv|done].
  rewrite abs_wake, E. apply insert_id. by rewrite lookup_fmap, Hv.
Qed.

Lemma pinv_woken W : inv here R Qa Qp Qu F -> pinv (wake W <$> P) B dsk R F.
Proof. intros H. apply (pinv_wake W _ _ _ _ _ [] (i_procs H)). intros q Hq. by apply elem_of_nil in Hq. Qed.

(** No three descriptors: the process sleeps, and two requests are in flight. *)
Lemma inv_starved p b w D' Fr' W : inv here R Qa Qp Qu F -> P !! p = Some (Calling b w) -> (6 <= length (R ≫= ds))%nat ->
  free_rep Fr' (R ≫= ds) -> length D' = 8%nat -> (forall i, i ∈ R ≫= ds -> elem D' i = elem D i) ->
  inv (mkSys (mkDisk D' Av Us Fr' ui I O) L B seen pend dsk (<[p := SleepD b w]> (wake W <$> P))) R Qa Qp Qu F.
Proof.
  intros H Hp Hl HFr HD' HD. split; try apply H; try done.
  - intros q Hq. destruct (i_chain H q Hq) as [C0 C1 C2 CO]. assert (forall i, i ∈ ds q -> i ∈ R ≫= ds) as Hi by (intros i Hi; apply list_elem_of_bind; eauto).
    split; cbn; [rewrite HD; [exact C0|apply Hi; set_solver]|rewrite HD; [exact C1|apply Hi; set_solver]|rewrite HD; [exact C2|apply Hi; set_solver]|exact CO].
  - pose proof (pinv_woken W H) as HP. cbn.
    rewrite ds_length in Hl.
    eapply (pinv_swap _ _ _ R R F F p (Calling b w)); [exact HP|by rewrite lookup_fmap, Hp|done|done|done|done| | |intros; lia].
    + intros q Hq <-. destruct (p_proc (i_procs H) q Hq) as [[E _]|E]; cbn in E; congruence.
    + naive_solver.
Qed.

(** A new request shares nothing with those in flight. *)
Lemma fresh_rq q : inv here R Qa Qp Qu F -> P !! q_p q = Some (Calling (q_b q) (q_w q)) -> NoDup (ds q ++ (R ≫= ds)) ->
  (forall q' i, q' ∈ R -> i ∈ ds q' -> i ∉ ds q) /\ (forall q', q' ∈ R -> q_0 q <> q_0 q' /\ q_b q' <> q_b q /\ q_p q' <> q_p q) /\ q ∉ R.
Proof.
  intros H Hp Hnd.
  assert (forall q' i, q' ∈ R -> i ∈ ds q' -> i ∉ ds q) as Hne.
  { intros q' i Hq' Hi Hi'. apply list.NoDup_app in Hnd as (_ & Hd & _). apply (Hd i Hi'). apply list_elem_of_bind. eauto. }
  assert (forall q', q' ∈ R -> q_p q' <> q_p q) as Hnp.
  { intros q' Hq' E. destruct (p_proc (i_procs H) q' Hq') as [[Eq _]|Eq]; rewrite E in Eq; cbn in Eq; congruence. }
  split_and!; [done| |by intros Hq; apply (Hnp q)]. intros q' Hq'. split_and!; [| |by apply Hnp].
  - intros E. apply (Hne q' (q_0 q') Hq'); [by left|rewrite <- E; by left].
  - intros E. destruct (inv_buf_of H q' Hq') as (v & Hv & Hb). rewrite E in Hb. apply (Hnp q' Hq'). by apply (p_one (i_procs H) Hv Hp Hb).
Qed.

Lemma chain_submitted q q' : inv here R Qa Qp Qu F -> rq_ok q -> (forall q' i, q' ∈ R -> i ∈ ds q' -> i ∉ ds q) -> q' ∈ q :: R ->
  chain (set3 D q (desc0 q) (desc1 q) (desc2 q)) (<[Z.to_nat (q_0 q) := op_of q]> O) q'.
Proof.
  intros H Hok Hne Hq. pose proof (rq_ok_range q Hok) as (Hr & _). apply elem_of_cons in Hq as [->|Hq'].
  - destruct (set3_in D q (desc0 q) (desc1 q) (desc2 q) Hok (i_ldesc H)) as (E0 & E1 & E2). split; [done|done|done|].
    destruct (elem_some O (q_0 q)) as [o Ho]; [pose proof (i_lops H) as E; cbn in E; lia|]. by eapply elem_set_eq.
  - destruct (i_chain H q' Hq') as [C0 C1 C2 CO]. specialize (Hne q').
    split; [rewrite set3_out; [exact C0|done|apply Hne; set_solver]|rewrite set3_out; [exact C1|done|apply Hne; set_solver]
      |rewrite set3_out; [exact C2|done|apply Hne; set_solver]|rewrite elem_set_ne; [exact CO|lia|]].
    intros E. apply (Hne (q_0 q') Hq'); [by left|rewrite <- E; by left].
Qed.

Lemma pinv_submitted q k data : inv here R Qa Qp Qu F -> P !! q_p q = Some (Calling (q_b q) (q_w q)) -> q ∉ R -> (forall q', q' ∈ R -> q_p q' <> q_p q) ->
  B !! q_b q = Some (mkVbuf (q_n q) k data) ->
  pinv (<[q_p q := SleepB (q_b q) (q_w q) (q_0 q)]> (wake [] <$> P)) (<[q_b q := mkVbuf (q_n q) 1 data]> B) dsk (q :: R) F.
Proof.
  intros H Hp Hq Hnp HB.
  pose proof (pinv_woken [] H) as HP.
  apply (pinv_bufs _ _ (<[q_b q := mkVbuf (q_n q) 1 data]> B) _ dsk) in HP; [| |done].
  2:{ intros b n k' d E _. destruct (decide (q_b q = b)) as [<-|Hne]; [|rewrite lookup_insert_ne by done; eauto].
      rewrite lookup_insert_eq. exists 1, data. congruence. }
  eapply (pinv_swap _ _ _ R (q :: R) F F (q_p q) (Calling (q_b q) (q_w q))); [exact HP|by rewrite lookup_fmap, Hp|done|set_solver|set_solver|set_solver| | |].
  - intros q' [->|Hq']%elem_of_cons Ep; [|by destruct (Hnp q')]. left. split; [done|]. intros HF. apply Hq, (inv_in H). auto.
  - intros b w h [[= <- <- <-]|?]; [|done]. exists q. split_and!; [by left|done..].
  - intros p' b w [[_ ?]|[_ E]]%lookup_insert_Some; [done|]. apply (p_wait HP) in E. cbn. lia.
Qed.

(** The request [q] of process [p] joins the available ring. *)
Lemma inv_submitted q Fr' k data : inv here R Qa Qp Qu F -> P !! q_p q = Some (Calling (q_b q) (q_w q)) -> NoDup (ds q ++ (R ≫= ds)) -> rq_ok q ->
  free_rep Fr' (ds q ++ (R ≫= ds)) -> B !! q_b q = Some (mkVbuf (q_n q) k data) ->
  let s := submitted D Av Us Fr' ui I O B [] L q data in
  inv (leave here s <[q_p q := SleepB (q_b q) (q_w q) (q_0 q)]>) (q :: R) (Qa ++ [q]) Qp Qu F.
Proof.
  intros H Hp Hnd Hok HFr HB s. pose proof (rq_ok_range q Hok) as (Hr & _). destruct (fresh_rq q H Hp Hnd) as (Hne & Hne' & Hq).
  assert (forall x, x ∈ Qa \/ x ∈ Qp \/ x ∈ Qu \/ x ∈ F -> x ∈ R) as HinR by (intros x; apply (inv_in H)).
  assert (forall q', q' ∈ R -> elem (dk_info (vd s)) (q_0 q') = elem I (q_0 q')) as HI by (intros q' Hq'; apply elem_set_ne; [lia|by apply Hne']).
  assert (forall q', q' ∈ R -> vbufs s !! q_b q' = B !! q_b q') as HBs by (intros q' Hq'; apply lookup_insert_ne; intros E; destruct (Hne' q' Hq'); naive_solver).
  pose proof (inv_bound H) as Hlen. pose proof (i_linfo H) as HlI. cbn in HlI.
  split; cbn [leave y_disk y_seen y_pend y_bufs y_dsk y_procs y_log]; try apply H; try done.
  - rewrite (i_perm H). rewrite <- app_assoc. cbn. by rewrite <- Permutation_middle.
  - cbn. rewrite set3_length. apply H.
  - cbn. by rewrite length_insert.
  - cbn. rewrite length_insert. apply H.
  - intros q' [->|Hq']%elem_of_cons; [done|by apply (i_ok H)].
  - intros q'. by apply chain_submitted.
  - intros q' Hq'. destruct (decide (q' = q)) as [->|Hn].
    + destruct (elem_some I (q_0 q)) as [o Ho]; [lia|]. by eapply elem_set_eq.
    + rewrite HI by (apply HinR; rewrite !elem_of_app in Hq'; set_solver). apply (i_new H). rewrite !elem_of_app in *. set_solver.
  - intros q' Hq'. rewrite HI by (apply HinR; auto). by apply (i_rep H).
  - intros q' Hq'. rewrite HI by (apply HinR; auto). by apply (i_old H).
  - cbn. rewrite fmap_app. apply ring_push; [apply H|]. rewrite length_fmap. lia.
  - intros q' Hq'. destruct (decide (q' = q)) as [->|Hn]; [exists data; apply lookup_insert_eq|].
    rewrite HBs by (apply HinR; rewrite !elem_of_app in Hq'; set_solver). apply (i_busy H). rewrite !elem_of_app in *. set_solver.
  - intros q' Hq'. rewrite HBs by (apply HinR; auto). by apply (i_fin H).
  - eapply pinv_submitted; try done. intros q' Hq'. by apply Hne'.
Qed.

Lemma abs_submitted q Fr' k data : inv here R Qa Qp Qu F -> P !! q_p q = Some (Calling (q_b q) (q_w q)) -> NoDup (ds q ++ (R ≫= ds)) -> rq_ok q ->
  B !! q_b q = Some (mkVbuf (q_n q) k data) ->
  abs (leave here (submitted D Av Us Fr' ui I O B [] L q data) <[q_p q := SleepB (q_b q) (q_w q) (q_0 q)]>) = abs here.
Proof.
  intros H Hp Hnd Hok HB. pose proof (rq_ok_range q Hok) as (Hr & _). pose proof (i_linfo H) as HlI. cbn in HlI. destruct (fresh_rq q H Hp Hnd) as (_ & Hf & _).
  unfold leave, abs. cbn [y_disk y_log y_bufs y_seen y_pend y_dsk y_procs submitted vd vlog vbufs vwoken dk_info].
  f_equal; [rewrite fmap_insert; apply insert_id; by rewrite lookup_fmap, HB|].
  rewrite (abs_swap I _ _ (q_p q) (wake [] (Calling (q_b q) (q_w q)))); [|by rewrite lookup_fmap, Hp|].
  - rewrite abs_wake. apply insert_id. rewrite lookup_fmap, Hp. cbn [fmap option_fmap option_map]. f_equal.
    destruct (elem_some I (q_0 q)) as [o Ho]; [lia|]. unfold abs_proc. by rewrite (elem_set_eq I _ (mkInfo (q_b q) 255) o) by done.
  - apply (abs_other (pinv_woken [] H)); [lia|]. intros q' Hq' _ E. by destruct (Hf q' Hq') as (Hf' & _).
Qed.

(** [virtio_disk_rw] up to its first sleep. *)
Lemma start_step p b w : inv here R Qa Qp Qu F -> P !! p = Some (Calling b w) ->
  wp (rw_start b w) (fun r s => abs (leave here s <[p := after_rw b w r]>) = abs here /\
      ((r = SleepFree /\ (2 <= length R)%nat /\ inv (leave here s <[p := after_rw b w r]>) R Qa Qp Qu F) \/
       exists q, r = SleepOn (q_0 q) /\ inv (leave here s <[p := after_rw b w r]>) (q :: R) (Qa ++ [q]) Qp Qu F)) (enter here).
Proof.
  intros H Hp. unfold rw_start. apply wp_bind. eapply wp_mono; [apply (wp_alloc3_desc _ _ _ _ _ _ _ _ _ _ _ (i_free H) (i_ldesc H) (i_nd H))|].
  intros [[[i0 i1] i2]|] s.
  - intros (Hnd & Hi & Fr' & -> & HFr). destruct (p_blk (i_procs H) Hp eq_refl) as (n & k & data & HB & Hn & _).
    set (q := mkRq p b w n i0 i1 i2). assert (rq_ok q) as Hok by (split; [by apply list.NoDup_app in Hnd as [Hnd _]|done]).
    apply wp_bind, (wp_rw_submit _ _ _ _ _ _ _ _ _ _ q k data); try done; [apply H|apply H|apply H|apply (i_avail H)|].
    unfold rw_wait. apply wp_bind. eapply wp_get_vbuf; [apply lookup_insert_eq|]. cbn [vb_disk Z.eqb Pos.eqb]. apply wp_ret. split.
    + by apply (abs_submitted q Fr' k data).
    + right. exists q. split; [done|]. by apply (inv_submitted q Fr' k data).
  - intros (Hl & D' & Fr' & W & -> & HFr & HD' & HD & HW). apply wp_ret. split.
    + by apply (abs_leave _ _ _ _ _ _ _ _ _ (Calling b w)).
    + left. split_and!; [done|rewrite ds_length in Hl; lia|]. by apply inv_starved.
Qed.

(** A wakeup before the interrupt: back to sleep. *)
Lemma resume_busy q : inv here R Qa Qp Qu F -> q ∈ Qa ++ Qp ++ Qu -> P !! q_p q = Some (Ready (q_b q) (q_w q) (q_0 q)) ->
  wp (rw_wait (q_b q) (q_0 q)) (fun r s => let y' := leave here s <[q_p q := after_rw (q_b q) (q_w q) r]> in
      abs y' = abs here /\ inv y' R Qa Qp Qu F) (enter here).
Proof.
  intros H Hq Hp. assert (q ∈ R) as HR by (apply (inv_in H); rewrite !elem_of_app in Hq; tauto).
  destruct (i_busy H q Hq) as [data HB]. unfold rw_wait. apply wp_bind. eapply wp_get_vbuf; [exact HB|]. cbn [vb_disk Z.eqb Pos.eqb]. apply wp_ret.
  cbv zeta. unfold leave. cbn [enter vd vbufs vlog vwoken after_rw y_disk y_bufs y_seen y_pend y_dsk y_procs y_log]. split; [by eapply abs_leave|].
  split; try apply H. cbn [y_procs y_bufs y_dsk].
  pose proof (pinv_woken [] H) as HP.
  eapply (pinv_swap _ _ _ R R F F (q_p q) (Ready (q_b q) (q_w q) (q_0 q))); [exact HP|by rewrite lookup_fmap, Hp|done|done|done|done| | |].
  - intros q' Hq' Ep. rewrite (inv_p_inj H q' q Hq' HR Ep). left. split; [done|]. by apply (inv_disjoint H q).
  - intros b w h [[= <- <- <-]|?]; [|done]. by exists q.
  - intros p' b w [[_ ?]|[_ E]]%lookup_insert_Some; [done|]. by apply (p_wait HP) in E.
Qed.

Lemma free_rep_give3 q U : rq_ok q -> NoDup (ds q ++ U) -> free_rep Fr (ds q ++ U) -> free_rep (set3 Fr q 1 1 1) U.
Proof.
  intros (Hr & _)%rq_ok_range Hnd HFr. cbn in Hnd. rewrite !list.NoDup_cons in Hnd. destruct Hnd as (N0 & N1 & N2 & _).
  unfold set3. do 3 (apply free_rep_give; [|done|lia]). exact HFr.
Qed.

Lemma pinv_done q R' F' : inv here R Qa Qp Qu F -> q ∈ R -> P !! q_p q = Some (Ready (q_b q) (q_w q) (q_0 q)) -> R ≡ₚ q :: R' -> F ≡ₚ q :: F' ->
  pinv (<[q_p q := Idle]> (wake [CFree; CFree; CFree] <$> P)) B dsk R' F'.
Proof.
  intros H Hq Hp HR HF.
  pose proof (pinv_woken [CFree; CFree; CFree] H) as HP.
  assert (q ∉ R') as Hn by (pose proof (ds_NoDup _ (i_nd H)) as Hnd; rewrite HR in Hnd; by apply list.NoDup_cons in Hnd as [Hnd _]).
  eapply (pinv_swap _ _ _ R R' F F' (q_p q) (Ready (q_b q) (q_w q) (q_0 q))); [exact HP|by rewrite lookup_fmap, Hp|done| | | | | |].
  - intros q' Hq' _. rewrite HR. by right.
  - intros q' Hq' Hne. rewrite HR in Hq'. apply elem_of_cons in Hq' as [->|?]; done.
  - intros q' _ _ HF'. rewrite HF. by right.
  - intros q' Hq' Ep. assert (q' = q) as -> by (apply (inv_p_inj H); [rewrite HR; by right|done|done]). done.
  - naive_solver.
  - intros p' b w [[_ ?]|[_ (u & _ & E)%wake_some]]%lookup_insert_Some; [done|]. symmetry in E. apply wake_sleepd in E as [_ E]. set_solver.
Qed.

(** The state [virtio_disk_rw] returns in. *)
Definition returned (q : rq) : vst :=
  mkVst (mkDisk (set3 D q zero_desc zero_desc zero_desc) Av Us (set3 Fr q 1 1 1) ui (<[Z.to_nat (q_0 q) := mkInfo 0 0]> I) O) B [CFree; CFree; CFree] L.

Lemma inv_returned q R' F' : inv here R Qa Qp Qu F -> q ∈ F -> P !! q_p q = Some (Ready (q_b q) (q_w q) (q_0 q)) -> R ≡ₚ q :: R' -> F ≡ₚ q :: F' ->
  inv (leave here (returned q) <[q_p q := Idle]>) R' Qa Qp Qu F'.
Proof.
  intros H HqF Hp HR HF. assert (q ∈ R) as Hq by (apply (inv_in H); auto). pose proof (i_ok H q Hq) as Hok. pose proof (rq_ok_range q Hok) as (Hr & _).
  pose proof (i_nd H) as Hnd. rewrite HR in Hnd. cbn [mbind list_bind] in Hnd.
  assert (forall q' i, q' ∈ R' -> i ∈ ds q' -> i ∉ ds q) as Hne.
  { intros q' i Hq' Hi Hi'. apply list.NoDup_app in Hnd as (_ & Hd & _). apply (Hd i Hi'). apply list_elem_of_bind. eauto. }
  assert (forall x, x ∈ R' -> x ∈ R) as HinR by (intros x Hx; rewrite HR; by right).
  assert (R' ≡ₚ Qa ++ Qp ++ Qu ++ F') as HP'.
  { apply (Permutation_cons_inv (a := q)). rewrite <- HR, (i_perm H), HF. rewrite !app_assoc. by rewrite <- Permutation_middle. }
  assert (forall q', q' ∈ R' -> elem (dk_info (vd (returned q))) (q_0 q') = elem I (q_0 q')) as HI.
  { intros q' Hq'. apply elem_set_ne; [lia|]. intros E. apply (Hne q' (q_0 q') Hq'); [by left|rewrite <- E; by left]. }
  split; cbn [leave y_disk y_seen y_pend y_bufs y_dsk y_procs y_log]; try apply H; try done.
  - cbn. rewrite set3_length. apply H.
  - cbn. rewrite length_insert. apply H.
  - by apply list.NoDup_app in Hnd as (_ & _ & Hnd).
  - intros q' Hq'. apply (i_ok H). auto.
  - apply free_rep_give3; [done|done|]. eapply free_rep_perm; [|apply (i_free H)]. by rewrite HR.
  - intros q' Hq'. destruct (i_chain H q') as [C0 C1 C2 CO]; [auto|]. specialize (Hne q').
    split; cbn; [rewrite set3_out; [exact C0|done|apply Hne; set_solver]|rewrite set3_out; [exact C1|done|apply Hne; set_solver]
      |rewrite set3_out; [exact C2|done|apply Hne; set_solver]|exact CO].
  - intros q' Hq'. rewrite HI; [by apply (i_new H)|]. rewrite HP', !elem_of_app in *. tauto.
  - intros q' Hq'. rewrite HI; [by apply (i_rep H)|]. rewrite HP', !elem_of_app. tauto.
  - intros q' Hq'. rewrite HI; [apply (i_old H)|]; [rewrite HF; by right|rewrite HP', !elem_of_app; tauto].
  - intros q' Hq'. apply (i_fin H). rewrite HF. by right.
  - by apply pinv_done.
Qed.

(** The request is over: its descriptors are freed and the call returns. *)
Lemma resume_done q R' F' : inv here R Qa Qp Qu F -> q ∈ F -> P !! q_p q = Some (Ready (q_b q) (q_w q) (q_0 q)) -> R ≡ₚ q :: R' -> F ≡ₚ q :: F' ->
  wp (rw_wait (q_b q) (q_0 q)) (fun r s => let y' := leave here s <[q_p q := after_rw (q_b q) (q_w q) r]> in
      r = Done /\ spec_step (abs here) (abs y') /\ inv y' R' Qa Qp Qu F') (enter here).
Proof.
  intros H HqF Hp HR HF. assert (q ∈ R) as Hq by (apply (inv_in H); auto). pose proof (rq_ok_range q (i_ok H q Hq)) as (Hr & _).
  assert (elem I (q_0 q) = Some (mkInfo (q_b q) 0)) as HI by by apply (i_old H).
  destruct (i_fin H q HqF) as [data HB]. apply (wp_rw_wait Av Us ui O B L I D Fr [] q 0 (mkVbuf (q_n q) 0 data)); [by apply (i_ok H)|by apply (i_chain H)| |done|done|].
  { intros i Hi. destruct (i_free H) as [_ HFr]. cbn in HFr. rewrite HFr by (by apply (i_ok H q Hq)). rewrite decide_True; [done|]. apply list_elem_of_bind. eauto. }
  cbn [vb_disk Z.eqb app]. cbv zeta. split; [done|]. change (mkVst _ B [CFree; CFree; CFree] L) with (returned q). split; [|by apply inv_returned].
  unfold leave, abs. cbn [y_disk y_log y_bufs y_seen y_pend y_dsk y_procs returned vd vlog vbufs vwoken dk_info after_rw].
  rewrite (abs_swap I _ _ (q_p q) (wake [CFree; CFree; CFree] (Ready (q_b q) (q_w q) (q_0 q)))); [|by rewrite lookup_fmap, Hp|].
  - rewrite abs_wake. apply (sp_return (mkSpec _ _ _) _ (q_b q) (q_w q)). cbn [sp_procs]. rewrite lookup_fmap, Hp. cbn [fmap option_fmap option_map].
    f_equal. destruct (abs_waiting I (q_b q) (q_w q) _ _ HI) as [_ E]. exact E.
  - apply (abs_other (pinv_woken [CFree; CFree; CFree] H)); [lia|]. intros q' Hq' Hne' E. apply (inv_head_ne H q' q); [done|done|by intros ->|done].
Qed.

(** A used entry with an error. *)
Lemma failed_entry : inv here R Qa Qp Qu F -> reported here <-> exists q st, q ∈ Qu /\ elem I (q_0 q) = Some (mkInfo (q_b q) st) /\ st <> 0.
Proof.
  intros H. split.
  - intros (p & b & w & E). cbn in E. rewrite lookup_fmap in E. destruct (P !! p) as [v|] eqn:Hp; [|done].
    assert (exists h, v = SleepB b w h \/ v = Ready b w h) as [h Ev].
    { destruct v as [| | |b0 w0 h|b0 w0 h]; try done; exists h; cbn in E; (destruct (elem I h) as [n|]; [|done]); unfold of_status in E; repeat case_match; simplify_eq; auto. }
    destruct (p_own (i_procs H) p b w h) as (q & Hq & <- & <- & <- & <-); [cbn; destruct Ev; subst; auto|]. exists q.
    assert (forall st, elem I (q_0 q) = Some (mkInfo (q_b q) st) -> of_status st (q_b q) (q_w q) = SFailed (q_b q) (q_w q)) as Hst.
    { intros st Hi. destruct (abs_waiting I (q_b q) (q_w q) _ _ Hi). destruct Ev; subst v; cbn in E |- *; rewrite Hi in E; by injection E. }
    apply (inv_in H) in Hq as [Hq|[Hq|[Hq|Hq]]].
    1,2: by specialize (Hst _ (i_new H q ltac:(rewrite elem_of_app; auto))).
    + destruct (i_rep H q Hq) as (st & _ & Hi). exists st. split_and!; [done..|]. intros ->. by specialize (Hst _ Hi).
    + by specialize (Hst _ (i_old H q Hq)).
  - intros (q & st & Hq & Hi & Hst). assert (q ∈ R) as HR by (apply (inv_in H); auto). exists (q_p q), (q_b q), (q_w q).
    assert (of_status st (q_b q) (q_w q) = SFailed (q_b q) (q_w q)) as Ef.
    { destruct (i_rep H q Hq) as (st' & Hs & Hi'). cbn in Hi'. rewrite Hi in Hi'. injection Hi' as <-.
      unfold dev_status in Hs. rewrite !elem_of_cons, elem_of_nil in Hs. by destruct Hs as [->|[->|[->|[]]]]. }
    destruct (abs_waiting I (q_b q) (q_w q) _ _ Hi) as [E1 E2]. cbn [in_status] in E1, E2. rewrite Ef in E1, E2.
    cbn [abs sp_procs y_procs y_disk dk_info]. rewrite lookup_fmap. destruct (p_proc (i_procs H) q HR) as [[E _]|E]; cbn in E; rewrite E; cbn [fmap option_fmap option_map]; by f_equal.
Qed.

(** Whether the device has reported an error shows in the used ring. *)
Lemma reported_or_not : inv here R Qa Qp Qu F ->
  (~ reported here /\ forall q, q ∈ Qu -> elem I (q_0 q) = Some (mkInfo (q_b q) 0)) \/
  (reported here /\ exists Q1 q Q2 st, Qu = Q1 ++ q :: Q2 /\ (forall q', q' ∈ Q1 -> elem I (q_0 q') = Some (mkInfo (q_b q') 0)) /\
     elem I (q_0 q) = Some (mkInfo (q_b q) st) /\ st <> 0).
Proof.
  intros H. pose proof (failed_entry H) as HF.
  assert ((forall q, q ∈ Qu -> elem I (q_0 q) = Some (mkInfo (q_b q) 0)) \/ exists Q1 q Q2 st, Qu = Q1 ++ q :: Q2 /\
     (forall q', q' ∈ Q1 -> elem I (q_0 q') = Some (mkInfo (q_b q') 0)) /\ elem I (q_0 q) = Some (mkInfo (q_b q) st) /\ st <> 0) as [Hall|Hex].
  { pose proof (i_rep H) as Hr. cbn in Hr. clear HF H. induction Qu as [|q Qu' IH]; [left; intros q Hq; by apply elem_of_nil in Hq|].
    destruct (Hr q ltac:(by left)) as (st & _ & Hi). destruct (decide (st = 0)) as [->|Hne].
    2:{ right. exists [], q, Qu', st. split_and!; [done| |done..]. intros q' Hq'. by apply elem_of_nil in Hq'. }
    destruct IH as [Hall|(Q1 & q1 & Q2 & st & -> & H1 & H2)]; [intros q' Hq'; apply Hr; by right| |].
    - left. intros q' [->|Hq']%elem_of_cons; auto.
    - right. exists (q :: Q1), q1, Q2, st. split_and!; [done| |apply H2..]. intros q' [->|Hq']%elem_of_cons; auto. }
  - left. split; [|done]. intros (q & st & Hq & Hi & Hst)%HF. rewrite (Hall q Hq) in Hi. by injection Hi as <-.
  - right. split; [|done]. destruct Hex as (Q1 & q & Q2 & st & E & _ & Hi & Hst). apply HF. exists q, st. split_and!; [|done..].
    rewrite E, elem_of_app. right. by left.
Qed.

(** The interrupt hands every used entry back to its process. *)
Lemma intr_step mmio : inv here R Qa Qp Qu F -> ~ reported here ->
  wp (virtio_disk_intr mmio) (fun _ s => abs (leave here s id) = abs here /\ inv (leave here s id) R Qa Qp [] (Qu ++ F)) (enter here).
Proof.
  intros H Hnr. assert (forall x, x ∈ Qa \/ x ∈ Qp \/ x ∈ Qu \/ x ∈ F -> x ∈ R) as HinR by (intros x; apply (inv_in H)).
  destruct (reported_or_not H) as [[_ Hok]|[? _]]; [|done].
  apply (wp_virtio_disk_intr _ _ _ _ _ _ _ _ _ _ _ Qu); [apply H| |].
  { intros q Hq. split; [by apply Hok|]. destruct (i_busy H q) as [d E]; [rewrite !elem_of_app; auto|]. by eexists. }
  intros L'. cbn [app]. set (B' := foldl clear B (q_b <$> Qu)).
  assert (forall b n k d, B !! b = Some (mkVbuf n k d) -> B' !! b = Some (mkVbuf n (if decide (b ∈ q_b <$> Qu) then 0 else k) d)) as HB'.
  { intros b n k d E. unfold B'. rewrite clear_all_lookup, E. by destruct (decide _). }
  unfold leave. cbn [vd vbufs vlog vwoken y_disk y_bufs y_seen y_pend y_dsk y_procs y_log id]. split.
  { unfold abs. cbn. rewrite abs_wake. f_equal. apply map_eq. intros b. rewrite !lookup_fmap. unfold B'. rewrite clear_all_lookup.
    destruct (decide _); [|done]. by destruct (B !! b). }
  fold B'. clearbody B'. pose proof (i_used H) as HU. cbn in HU.
  split; try apply H; cbn [y_disk y_bufs y_seen y_pend y_dsk y_procs y_log].
  - intros q Hq. by apply elem_of_nil in Hq.
  - intros q [Hq|Hq]%elem_of_app; [by apply Hok|by apply (i_old H)].
  - cbn. apply ring_nil; [apply HU|]. rewrite (rg_to _ _ _ _ HU). apply Z.mod_pos_bound. done.
  - intros q Hq. rewrite app_nil_r in Hq. destruct (i_busy H q) as [d E]; [rewrite !elem_of_app in *; tauto|]. exists d. rewrite (HB' _ _ _ _ E).
    rewrite decide_False; [done|]. intros (q' & Eq & Hq')%list_elem_of_fmap. assert (q = q') as <- by (apply (inv_b_inj H); [apply HinR; rewrite elem_of_app in Hq; tauto|apply HinR; auto|done]).
    apply (inv_disjoint H q) in Hq. apply Hq. rewrite elem_of_app. auto.
  - intros q [Hq|Hq]%elem_of_app.
    + destruct (i_busy H q) as [d E]; [rewrite !elem_of_app in *; tauto|]. exists d. rewrite (HB' _ _ _ _ E). rewrite decide_True; [done|]. apply list_elem_of_fmap. eauto.
    + destruct (i_fin H q Hq) as [d E]. exists d. rewrite (HB' _ _ _ _ E). by destruct (decide _).
  - apply (pinv_bufs _ B _ dsk); [|intros b n k d E _; rewrite (HB' _ _ _ _ E); eauto|done].
    apply pinv_wake; [apply H|]. intros q Hq. apply list_elem_of_fmap. exists q. done.
Qed.

(** After an error the handler panics. *)
Lemma intr_panics mmio : inv here R Qa Qp Qu F -> reported here -> virtio_disk_intr mmio (enter here) = Panic "virtio_disk_intr status".
Proof.
  intros H Hr. destruct (reported_or_not H) as [[? _]|(_ & Q1 & q & Q2 & st & E & H1 & Hi & Hst)]; [done|].
  pose proof (i_used H) as HU. cbn in HU. rewrite E in HU. apply (virtio_disk_intr_panics _ _ _ _ _ _ _ _ _ _ _ Q1 q Q2 st); [done| |done..].
  intros q' Hq'. split; [by apply H1|]. destruct (i_busy H q') as [d Ed]; [|by eexists]. rewrite E, !elem_of_app. auto.
Qed.

(** ** The buffer cache *)

Lemma abs_buf I0 v : s_buf_of (abs_proc I0 v) = buf_of v.
Proof. destruct v; cbn; try done; destruct (elem I0 h); try done; unfold of_status; by repeat case_match. Qed.

Lemma abs_unused b : unused_buf here b -> s_unused (abs here) b.
Proof. intros Hb p u. cbn. rewrite lookup_fmap. destruct (P !! p) as [v|] eqn:E; cbn; [|done]. intros [= <-]. rewrite abs_buf. by apply (Hb p). Qed.

Lemma inv_call p b w x : inv here R Qa Qp Qu F -> P !! p = Some Idle -> unused_buf here b -> B !! b = Some x ->
  0 <= vb_blockno x < 2 ^ 31 -> is_Some (dsk !! vb_blockno x) ->
  inv (mkSys (mkDisk D Av Us Fr ui I O) L B seen pend dsk (<[p := Calling b w]> P)) R Qa Qp Qu F.
Proof.
  intros H Hp Hb HB Hn Hd. pose proof (i_procs H) as HP. cbn in HP. split; try apply H. cbn [y_procs y_bufs y_dsk]. split.
  - intros q Hq. assert (p <> q_p q) as Hne by (intros ->; destruct (p_proc HP q Hq) as [[E _]|E]; congruence). rewrite lookup_insert_ne by done. by apply HP.
  - intros p' b' w' h. destruct (decide (p = p')) as [<-|Hne]; [rewrite lookup_insert_eq; intros [[=]|[=]]|rewrite lookup_insert_ne by done; apply HP].
  - intros p1 p2 v1 v2 c [[<- <-]|[N1 E1]]%lookup_insert_Some [[<- <-]|[N2 E2]]%lookup_insert_Some B1 B2; [done| | |by eapply (p_one HP)].
    + injection B1 as <-. by destruct (Hb _ _ E2).
    + injection B2 as <-. by destruct (Hb _ _ E1).
  - intros p' v c [[<- <-]|[N1 E1]]%lookup_insert_Some Bv; [|by eapply (p_blk HP)]. injection Bv as <-. destruct x as [n k d]. cbn in *. eauto 10.
  - intros p' b' w' [[_ ?]|[N1 E1]]%lookup_insert_Some; [done|by eapply (p_wait HP)].
Qed.

Lemma inv_touch b x : inv here R Qa Qp Qu F -> unused_buf here b -> inv (mkSys (mkDisk D Av Us Fr ui I O) L (<[b := x]> B) seen pend dsk P) R Qa Qp Qu F.
Proof.
  intros H Hb. assert (forall q, q ∈ R -> b <> q_b q) as Hne by (intros q Hq ->; destruct (inv_buf_of H q Hq) as (v & Hv & Hb'); by apply (Hb _ _ Hv)).
  split; try apply H; cbn [y_bufs y_procs y_dsk].
  - intros q Hq. rewrite lookup_insert_ne; [by apply (i_busy H)|]. apply Hne, (inv_in H). rewrite !elem_of_app in Hq. tauto.
  - intros q Hq. rewrite lookup_insert_ne; [by apply (i_fin H)|]. apply Hne, (inv_in H). auto.
  - apply (pinv_bufs _ B _ dsk); [apply H| |done]. intros c n k d E (p & v & Hv & Hc). rewrite lookup_insert_ne; [eauto|]. intros ->. by apply (Hb _ _ Hv).
Qed.

End Driver.

(** ** Start-up *)

(** The disk [virtio_disk_init] leaves: zeroed rings, all descriptors free. *)
Definition disk_ready : disk :=
  mkDisk (replicate 8 zero_desc) (mkAvail 0 (replicate 8 0)) (mkUsed 0 (replicate 8 0)) (replicate 8 1) 0
    (replicate 8 (mkInfo 0 0)) (replicate 8 (mkReq 0 0 0)).

Lemma wlp_mmio_read mmio r Q s : (forall v, Q v s) -> wlp (mmio_read mmio r) Q s.
Proof. intros H. unfold mmio_read. wlp_step. wlp_step. wlp_step. apply H. Qed.

Lemma wlp_mmio_write r v Q d B W L : (forall L', Q tt (mkVst d B W L')) -> wlp (mmio_write r v) Q (mkVst d B W L).
Proof. intros H. apply wlp_modify, H. Qed.

Lemma wlp_panic_if c msg Q s : Q tt s -> wlp (panic_if c msg) Q s.
Proof. by destruct c. Qed.

(** One statement of [virtio_disk_init]. *)
Ltac init_step :=
  cbv zeta;
  lazymatch goal with
  | |- wlp (_ ≫= _) _ _ => apply wlp_bind
  | |- wlp (mmio_read _ _) _ _ => apply wlp_mmio_read; intros ?
  | |- wlp (mmio_write _ _) _ _ => apply wlp_mmio_write; intros ?
  | |- wlp (panic_if _ _) _ _ => apply wlp_panic_if
  | |- wlp (upd_vd _) _ _ => apply wlp_modify; cbn [vd vbufs vwoken vlog set_desc set_avail set_used dk_desc dk_avail dk_used dk_free dk_used_idx dk_info dk_ops disk_bss]
  end.

Lemma virtio_disk_init_leaves mmio desc avail used bufs log :
  wlp (virtio_disk_init mmio desc avail used) (fun _ s => vd s = disk_ready) (mkVst disk_bss bufs [] log).
Proof.
  unfold virtio_disk_init.
  repeat init_step.
  reflexivity.
Qed.

Lemma inv_booted mmio y : booted mmio y -> inv y [] [] [] [] [].
Proof.
  intros ((desc & avail & used & log & bufs & E) & Hs & Hp & HP).
  pose proof (proj1 (wlp_run _ _ _) (virtio_disk_init_leaves mmio desc avail used bufs log) _ _ E) as Hd. cbn in Hd.
  split; rewrite ?Hd, ?Hs, ?Hp; try done; try (intros q Hq; by apply elem_of_nil in Hq).
  - constructor.
  - split; [done|]. intros i Hi. rewrite decide_False by (intros Hn; by apply elem_of_nil in Hn). unfold elem. replace (0 <=? i) with true by lia.
    cbn [disk_ready dk_free]. apply (lookup_replicate_2 8 (1:Z)). lia.
  - by apply ring_nil.
  - by apply ring_nil.
  - split.
    + intros q Hq. by apply elem_of_nil in Hq.
    + intros p b w h [E'|E']; by apply HP in E'.
    + intros p1 p2 v1 v2 b E1 E2 B1 _. apply HP in E1. by subst.
    + intros p v b E1 B1. apply HP in E1. by subst.
    + intros p b w E1. by apply HP in E1.
Qed.
