(* ===== verification/VirtioThms.v ===== *)
(** * The disk driver: what it promises

    Every interleaving of processes in [virtio_disk_rw], the interrupt handler
    and the device is one of the specification, in which a request takes effect
    or fails at a single moment between its call and its return; no section of
    the driver panics unless the device has reported an error, and until then
    the driver and the device alone can always bring every call to its
    return. *)

From Stdlib Require Import ZArith Lia Bool String.
From stdpp Require Import base gmap list strings.
From S2P Require Import Prelude Virtio VirtioProof VirtioInv VirtioSteps.

Section Steps.
Context (mmio : list (Z * Z) -> Z -> Z).

Lemma wp_det {S A} (c : M S A) Q s a s' : wp c Q s -> c s = Ret (a, s') -> Q a s'.
Proof. unfold wp. by intros H E; rewrite E in H. Qed.

(** The request a resumed process waits for. *)
Lemma ready_rq {y R Qa Qp Qu F p b w h} : inv y R Qa Qp Qu F -> y_procs y !! p = Some (Ready b w h) ->
  exists q, q_p q = p /\ q_b q = b /\ q_w q = w /\ q_0 q = h /\
    (q ∈ Qa ++ Qp ++ Qu \/ (q ∈ F /\ exists R' F', R ≡ₚ q :: R' /\ F ≡ₚ q :: F')).
Proof.
  intros H Hp. destruct (p_own (i_procs H) p b w h) as (q & Hq & E1 & E2 & E3 & E4); [auto|]. exists q. split_and!; try done.
  pose proof (proj1 (inv_in H q) Hq) as Hin. rewrite !elem_of_app. destruct Hin as [?|[?|[?|HF]]]; [tauto..|]. right. split; [done|].
  apply elem_of_Permutation in Hq as [R' HR]. apply elem_of_Permutation in HF as [F' HF]. eauto.
Qed.

Lemma inv_disk_step y y' R Qa Qp Qu F : inv y R Qa Qp Qu F -> disk_step mmio y y' ->
  (exists R' Qa' Qp' Qu' F', inv y' R' Qa' Qp' Qu' F') /\ (abs y' = abs y \/ spec_step (abs y) (abs y')).
Proof.
  intros H Hs. destruct y as [[D Av Us Fr ui I O] L B seen pend dsk P]. destruct Hs as [p b w r s Hp E|p b w h r s Hp E|s E|h Hne Hh|l1 h l2 st junk s dsk' Hpend Hst E]; cbn in *.
  - destruct (wp_det _ _ _ _ _ (start_step p b w H Hp) E) as (Ha & [(-> & _ & Hi)|(q & -> & Hi)]); eauto 10.
  - destruct (ready_rq H Hp) as (q & <- & <- & <- & <- & [Hq|(Hq & R' & F' & HR & HF)]).
    + destruct (wp_det _ _ _ _ _ (resume_busy q H Hq Hp) E) as (Ha & Hi). eauto 10.
    + destruct (wp_det _ _ _ _ _ (resume_done q R' F' H Hq Hp HR HF) E) as (_ & Ha & Hi). eauto 10.
  - destruct (reported_or_not H) as [[Hn _]|[Hy _]]; [|by rewrite (intr_panics mmio H Hy) in E].
    destruct (wp_det _ _ _ _ _ (intr_step mmio H Hn) E) as (Ha & Hi). eauto 10.
  - destruct (fetch_inv h H Hne Hh) as (q & Qa' & -> & <-). split; [|by left]. do 5 eexists. exact (inv_fetch q H).
  - pose proof (i_pend H) as Ep. cbn in Ep. rewrite Hpend in Ep. symmetry in Ep. apply fmap_app_inv in Ep as (k1 & k2' & -> & Ek & ->).
    symmetry in Ek. apply fmap_cons_inv in Ek as (q & k2 & -> & -> & ->).
    destruct (inv_complete st junk k1 q k2 H Hst) as (s' & d' & E' & Hi & Ha & _). rewrite E in E'. injection E' as <- <-. rewrite fmap_app in Hi, Ha. eauto 10.
Qed.

Lemma inv_client_step y y' R Qa Qp Qu F : inv y R Qa Qp Qu F -> client_step y y' -> inv y' R Qa Qp Qu F /\ spec_step (abs y) (abs y').
Proof.
  intros H Hs. destruct y as [[D Av Us Fr ui I O] L B seen pend dsk P]. destruct Hs as [p b w x Hp Hb HB Hn Hd|b x Hb]; cbn in *.
  - split; [by eapply inv_call|]. unfold abs. cbn. rewrite fmap_insert. apply (sp_call (mkSpec _ _ _) p b w); [cbn; by rewrite lookup_fmap, Hp|exact (abs_unused b Hb)].
  - split; [by apply inv_touch|]. unfold abs. cbn. rewrite fmap_insert. apply (sp_touch (mkSpec _ _ _)). exact (abs_unused b Hb).
Qed.

Lemma vinv_step y y' R Qa Qp Qu F : inv y R Qa Qp Qu F -> step mmio y y' ->
  (exists R' Qa' Qp' Qu' F', inv y' R' Qa' Qp' Qu' F') /\ (abs y' = abs y \/ spec_step (abs y) (abs y')).
Proof. intros H [Hs|Hs]; [|by eapply inv_disk_step]. destruct (inv_client_step _ _ _ _ _ _ _ H Hs). eauto 10. Qed.

Lemma vinv_reachable y : reachable mmio y -> exists R Qa Qp Qu F, inv y R Qa Qp Qu F.
Proof.
  intros (y0 & Hb & Hr). assert (exists R Qa Qp Qu F, inv y0 R Qa Qp Qu F) as Hi by (apply inv_booted in Hb; eauto 10). clear Hb.
  induction Hr as [|y0 y1 y2 Hs _ IH]; [done|]. apply IH. destruct Hi as (R & Qa & Qp & Qu & F & Hi). by eapply vinv_step.
Qed.

End Steps.

(** C2: the disk driver implements atomic block requests.  In every state that
    processes, interrupts and the device can reach from the one
    [virtio_disk_init] leaves, in any interleaving and whichever requests the
    device fails: each section of [virtio_disk_rw] returns, without a panic or
    an access outside its arrays; so does [virtio_disk_intr], unless the device
    has reported an error for a request in flight, in which case it panics with
    "virtio_disk_intr status"; the device can complete every chain it has
    taken, with any status; and every step either leaves the abstract state
    alone or is a step of the specification, in which a request reads or writes
    its whole block, or fails, at one moment between its call and its return. *)
Theorem vdisk_refines mmio y : reachable mmio y ->
  (forall p b w, y_procs y !! p = Some (Calling b w) -> exists r s, rw_start b w (enter y) = Ret (r, s)) /\
  (forall p b w h, y_procs y !! p = Some (Ready b w h) -> exists r s, rw_wait b h (enter y) = Ret (r, s)) /\
  (~ reported y -> exists s, virtio_disk_intr mmio (enter y) = Ret (tt, s)) /\
  (reported y -> virtio_disk_intr mmio (enter y) = Panic "virtio_disk_intr status") /\
  (forall h st junk, h ∈ y_pend y -> st ∈ dev_status -> exists s dsk, dev_complete st junk h (enter y) (y_dsk y) = Some (s, dsk)) /\
  (forall y', step mmio y y' -> abs y' = abs y \/ spec_step (abs y) (abs y')).
Proof.
  intros (R & Qa & Qp & Qu & F & H)%vinv_reachable. split_and!; [| | | | |intros y' Hs; by eapply vinv_step]; destruct y as [[D Av Us Fr ui I O] L B seen pend dsk P]; cbn.
  - intros p b w Hp. destruct (proj1 (wp_run _ _ _) (start_step p b w H Hp)) as (r & s & E & _). eauto.
  - intros p b w h Hp. destruct (ready_rq H Hp) as (q & <- & <- & <- & <- & [Hq|(Hq & R' & F' & HR & HF)]).
    + destruct (proj1 (wp_run _ _ _) (resume_busy q H Hq Hp)) as (r & s & E & _). eauto.
    + destruct (proj1 (wp_run _ _ _) (resume_done q R' F' H Hq Hp HR HF)) as (r & s & E & _). eauto.
  - intros Hn. destruct (proj1 (wp_run _ _ _) (intr_step mmio H Hn)) as ([] & s & E & _). eauto.
  - exact (intr_panics mmio H).
  - intros h st junk Hh Hst. pose proof (i_pend H) as Ep. cbn in Ep. subst pend. apply list_elem_of_fmap in Hh as (q & -> & Hq).
    apply list_elem_of_split in Hq as (k1 & k2 & ->). destruct (inv_complete st junk k1 q k2 H Hst) as (s & d & E & _). eauto.
Qed.

(** ** Every call can be brought to its return *)

Section Drain.
Context (mmio : list (Z * Z) -> Z -> Z).

(** Calls that have not submitted their request. *)
Definition calls (v : vproc) : nat := match v with Calling _ _ | SleepD _ _ => 5 | _ => 0 end.
Definition total (P : gmap nat vproc) : nat := sum_list (calls <$> (map_to_list P).*2).

Lemma total_set P p v v' : P !! p = Some v -> (total (<[p := v']> P) + calls v = total P + calls v')%nat.
Proof.
  intros Hv. unfold total. rewrite <- (map_to_list_delete P p v Hv). rewrite <- (map_to_list_delete (<[p := v']> P) p v') by apply lookup_insert_eq.
  rewrite delete_insert_eq. cbn. lia.
Qed.

Lemma total_wake W P : total (wake W <$> P) = total P.
Proof.
  unfold total. rewrite map_to_list_fmap. rewrite <- !list_fmap_compose. f_equal. apply list_fmap_ext. intros _ [p v] _. cbn.
  destruct v; cbn; try done; by destruct (decide _).
Qed.

Definition work (y : vsys) (Qa Qp Qu F : list rq) : nat := total (y_procs y) + 4 * length Qa + 3 * length Qp + 2 * length Qu + length F.

(** With an empty used ring no error has been reported. *)
Lemma unreported y R Qa Qp F : inv y R Qa Qp [] F -> ~ reported y.
Proof.
  intros H. destruct y as [[D Av Us Fr ui I O] L B seen pend dsk P]. intros (q & st & Hq & _)%(failed_entry H). by apply elem_of_nil in Hq.
Qed.

Lemma drain_one y R Qa Qp Qu F : inv y R Qa Qp Qu F -> ~ reported y -> (forall p v, y_procs y !! p = Some v -> v = Idle) \/
  exists y' R' Qa' Qp' Qu' F', disk_step mmio y y' /\ inv y' R' Qa' Qp' Qu' F' /\ ~ reported y' /\ (work y' Qa' Qp' Qu' F' < work y Qa Qp Qu F)%nat.
Proof.
  intros H Hn. destruct y as [[D Av Us Fr ui I O] L B seen pend dsk P].
  destruct Qa as [|q Qa].
  2:{ right. eexists _, _, _, _, _, _. split_and!; [|exact (inv_fetch q H)|exact Hn|unfold work; cbn; rewrite length_app; cbn; lia].
      destruct (ring_pop _ _ _ _ _ (i_avail H)) as (Hne & Hh & _). by apply st_fetch. }
  destruct Qp as [|q Qp].
  2:{ right. assert (VIRTIO_BLK_S_OK ∈ dev_status) as Hok by (by left). destruct (inv_complete VIRTIO_BLK_S_OK [] [] q Qp H Hok) as (s & d & E & Hi & _ & Hrep). eexists _, _, _, _, _, _.
      split_and!; [|exact Hi|by apply Hrep|unfold work; cbn; rewrite length_app; cbn; lia].
      exact (st_complete mmio (mkSys _ _ _ _ _ _ _) [] (q_0 q) (q_0 <$> Qp) VIRTIO_BLK_S_OK [] s d (i_pend H) Hok E). }
  destruct Qu as [|q Qu].
  2:{ right. destruct (proj1 (wp_run _ _ _) (intr_step mmio H Hn)) as ([] & s & E & _ & Hi). eexists _, _, _, _, _, _.
      split_and!; [by apply st_intr|exact Hi|exact (unreported _ _ _ _ _ Hi)|unfold work; cbn; rewrite total_wake, length_app; lia]. }
  destruct F as [|q F].
  2:{ right. pose proof (i_perm H) as HR. assert (q ∈ R) as Hq by (rewrite HR; by left).
      assert (P !! q_p q = Some (Ready (q_b q) (q_w q) (q_0 q))) as Hp.
      { destruct (p_proc (i_procs H) q Hq) as [[_ HnF]|E]; [|done]. destruct HnF. by left. }
      destruct (proj1 (wp_run _ _ _) (resume_done q F F H ltac:(by left) Hp HR (Permutation_refl _))) as (r & s & E & -> & _ & Hi).
      eexists _, _, _, _, _, _. split_and!; [by eapply st_resume|exact Hi|exact (unreported _ _ _ _ _ Hi)|].
      unfold work. cbn. pose proof (total_set (wake (vwoken s) <$> P) (q_p q) (Ready (q_b q) (q_w q) (q_0 q)) Idle) as Ht.
      rewrite lookup_fmap, Hp, total_wake in Ht. specialize (Ht eq_refl). cbn in Ht. lia. }
  pose proof (i_perm H) as HR. cbn in HR. apply Permutation_nil_r in HR. subst R.
  destruct (decide (map_Forall (fun _ v => v = Idle) P)) as [Hall|(p & v & Hp & Hv)%map_not_Forall]; [by left|right|apply _].
  destruct v as [|b w|b w|b w h|b w h]; [done| | | |].
  - destruct (proj1 (wp_run _ _ _) (start_step p b w H Hp)) as (r & s & E & _ & [(_ & Hl & _)|(q & -> & Hi)]); [cbn in Hl; lia|].
    eexists _, _, _, _, _, _. split_and!; [by eapply st_start|exact Hi|exact (unreported _ _ _ _ _ Hi)|].
    unfold work. cbn. pose proof (total_set (wake (vwoken s) <$> P) p (Calling b w) (SleepB b w (q_0 q))) as Ht.
    rewrite lookup_fmap, Hp, total_wake in Ht. specialize (Ht eq_refl). cbn in Ht. lia.
  - pose proof (p_wait (i_procs H) Hp) as Hl. cbn in Hl. lia.
  - destruct (p_own (i_procs H) p b w h) as (q & Hq & _); [auto|]. by apply elem_of_nil in Hq.
  - destruct (p_own (i_procs H) p b w h) as (q & Hq & _); [auto|]. by apply elem_of_nil in Hq.
Qed.

Lemma disk_step_dom y y' p : disk_step mmio y y' -> is_Some (y_procs y !! p) -> is_Some (y_procs y' !! p).
Proof.
  intros Hs Hp. destruct Hs; cbn; try done; rewrite ?lookup_insert_is_Some; rewrite lookup_fmap, fmap_is_Some; try done;
  destruct (decide (p0 = p)); auto.
Qed.

Lemma drain_all n y R Qa Qp Qu F : (work y Qa Qp Qu F < n)%nat -> inv y R Qa Qp Qu F -> ~ reported y ->
  exists y', rtc (disk_step mmio) y y' /\ forall p v, y_procs y !! p = Some v -> y_procs y' !! p = Some Idle.
Proof.
  revert y R Qa Qp Qu F. induction n as [|n IH]; intros y R Qa Qp Qu F Hn H Hrep; [lia|].
  destruct (drain_one y R Qa Qp Qu F H Hrep) as [Hall|(y1 & R' & Qa' & Qp' & Qu' & F' & Hs & Hi & Hrep1 & Hw)].
  { exists y. split; [constructor|]. intros p v Hp. rewrite Hp. f_equal. by eapply Hall. }
  destruct (IH y1 R' Qa' Qp' Qu' F' ltac:(lia) Hi Hrep1) as (y' & Hr & Hall). exists y'. split; [by econstructor|].
  intros p v Hp. destruct (disk_step_dom y y1 p Hs ltac:(eauto)) as [v' Hv']. by eapply Hall.
Qed.

End Drain.

(** C35: no request is lost.  From every reachable state in which the device
    has reported no error, the driver and the device can bring every process
    back to idle with no help from outside: a process that waits for
    descriptors or for its block is woken once they are there, and the driver
    never runs out of a way to go on. *)
Theorem vdisk_drains mmio y : reachable mmio y -> ~ reported y ->
  exists y', rtc (disk_step mmio) y y' /\ forall p v, y_procs y !! p = Some v -> y_procs y' !! p = Some Idle.
Proof.
  intros (R & Qa & Qp & Qu & F & H)%vinv_reachable Hn. eapply (drain_all mmio _ y); [apply Nat.lt_succ_diag_r|exact H|exact Hn].
Qed.

(** ** An execution *)

(** qemu's registers, as far as the driver reads them: the status register
    reads what was last written to it. *)
Definition demo_mmio (log : list (Z * Z)) (r : Z) : Z :=
  if r =? VIRTIO_MMIO_MAGIC_VALUE then 0x74726976
  else if r =? VIRTIO_MMIO_VERSION then 2
  else if r =? VIRTIO_MMIO_DEVICE_ID then 2
  else if r =? VIRTIO_MMIO_VENDOR_ID then 0x554d4551
  else if r =? VIRTIO_MMIO_DEVICE_FEATURES then 0x30006e54
  else if r =? VIRTIO_MMIO_QUEUE_NUM_MAX then 1024
  else if r =? VIRTIO_MMIO_STATUS then foldl (fun v w => if w.1 =? r then w.2 else v) 0 log
  else 0.

Definition left_by {A} (c : M vst A) (s : vst) : vst := match c s with Ret (_, s') => s' | _ => s end.

Definition demo_bufs : gmap Z vbuf := <[7 := mkVbuf 3 0 [1; 2]]> (<[8 := mkVbuf 4 0 [0; 0]]> ∅).
Definition demo_dsk : blocks := <[3 := [9; 9]]> (<[4 := [5; 6]]> ∅).
Definition demo_procs : gmap nat vproc := <[1%nat := Idle]> (<[2%nat := Idle]> ∅).
Definition demo_s0 : vst :=
  Eval vm_compute in left_by (virtio_disk_init demo_mmio 0x80001000 0x80002000 0x80003000) (mkVst disk_bss demo_bufs [] []).
Definition demo_y0 : vsys := mkSys (vd demo_s0) (vlog demo_s0) (vbufs demo_s0) 0 [] demo_dsk demo_procs.
Definition demo_y1 : vsys := mkSys (vd demo_s0) (vlog demo_s0) (vbufs demo_s0) 0 [] demo_dsk (<[1%nat := Calling 7 true]> demo_procs).
Definition demo_s1 : vst := Eval vm_compute in left_by (rw_start 7 true) (enter demo_y1).
(** Process 1 has submitted its write. *)
Definition demo_y2 : vsys := leave demo_y1 demo_s1 <[1%nat := SleepB 7 true 0]>.

Lemma vdemo_idle p q : demo_procs !! p = Some q -> q = Idle.
Proof. unfold demo_procs. by intros [[_ <-]|[_ [[_ <-]|[_ ?]]%lookup_insert_Some]]%lookup_insert_Some. Qed.

Lemma vdemo_reachable : reachable demo_mmio demo_y2.
Proof.
  exists demo_y0. split.
  - split; [exists 0x80001000, 0x80002000, 0x80003000, [], demo_bufs; vm_compute; reflexivity|]. split; [reflexivity|]. split; [reflexivity|]. exact vdemo_idle.
  - assert (step demo_mmio demo_y0 demo_y1) as H1.
    { apply step_client, (st_call demo_y0 1%nat 7 true (mkVbuf 3 0 [1; 2])); [reflexivity| |reflexivity|split; [done|reflexivity]|by exists [9; 9]].
      intros p q Hq. by rewrite (vdemo_idle p q Hq). }
    assert (step demo_mmio demo_y1 demo_y2) as H2.
    { apply step_disk, (st_start demo_mmio demo_y1 1%nat 7 true (SleepOn 0)); [reflexivity|vm_compute; reflexivity]. }
    exact (rtc_l _ _ _ _ H1 (rtc_once _ _ H2)).
Qed.

(** The device takes the request and fails it. *)
Definition demo_y3 : vsys := mkSys (vd demo_s1) (vlog demo_s1) (vbufs demo_s1) 1 [0] demo_dsk (y_procs demo_y2).
Definition demo_s4 : vst * blocks := Eval vm_compute in default (demo_s1, ∅) (dev_complete VIRTIO_BLK_S_IOERR [9; 2] 0 (enter demo_y3) demo_dsk).
Definition demo_y4 : vsys := mkSys (vd demo_s4.1) (vlog demo_s4.1) (vbufs demo_s4.1) 1 [] demo_s4.2 (y_procs demo_y2).

Lemma vdemo_reachable_failed : reachable demo_mmio demo_y4.
Proof.
  destruct vdemo_reachable as (y0 & Hb & Hr). exists y0. split; [exact Hb|]. etransitivity; [exact Hr|].
  assert (step demo_mmio demo_y2 demo_y3) as H1 by (apply step_disk, (st_fetch demo_mmio demo_y2 0); [discriminate|reflexivity]).
  assert (step demo_mmio demo_y3 demo_y4) as H2.
  { apply step_disk, (st_complete demo_mmio demo_y3 [] 0 [] VIRTIO_BLK_S_IOERR [9; 2] demo_s4.1 demo_s4.2);
      [reflexivity|right; left|vm_compute; reflexivity]. }
  exact (rtc_l _ _ _ _ H1 (rtc_once _ _ H2)).
Qed.

Lemma vdemo_unreported : ~ reported demo_y2.
Proof.
  intros (p & b & w & E).
  assert (map_Forall (fun _ v => match v with SFailed _ _ => false | _ => true end = true) (sp_procs (abs demo_y2))) as Hall; [|by specialize (Hall p _ E)].
  eapply bool_decide_unpack. vm_compute. exact I.
Qed.

(** Process 1 sleeps in [virtio_disk_rw] and the interrupt handler returns;
    when the device fails its request, the handler panics. *)
Lemma vdisk_refines_witness :
  (reachable demo_mmio demo_y2 /\ y_procs demo_y2 !! 1%nat = Some (SleepB 7 true 0) /\ exists s, virtio_disk_intr demo_mmio (enter demo_y2) = Ret (tt, s)) /\
  (reachable demo_mmio demo_y4 /\ virtio_disk_intr demo_mmio (enter demo_y4) = Panic "virtio_disk_intr status").
Proof.
  split; [split; [exact vdemo_reachable|split; [reflexivity|]]|split; [exact vdemo_reachable_failed|]].
  - exact (proj1 (proj2 (proj2 (vdisk_refines demo_mmio demo_y2 vdemo_reachable))) vdemo_unreported).
  - apply (proj1 (proj2 (proj2 (proj2 (vdisk_refines demo_mmio demo_y4 vdemo_reachable_failed))))). exists 1%nat, 7, true. reflexivity.
Defined.

(** Process 1, asleep, can be brought to its return. *)
Lemma vdisk_drains_witness : y_procs demo_y2 !! 1%nat = Some (SleepB 7 true 0) /\
  exists y', rtc (disk_step demo_mmio) demo_y2 y' /\ forall p v, y_procs demo_y2 !! p = Some v -> y_procs y' !! p = Some Idle.
Proof. split; [reflexivity|]. exact (vdisk_drains demo_mmio demo_y2 vdemo_reachable vdemo_unreported). Defined.
