(* ===== verification/BlockStore.v ===== *)
(** * What the file system uses of the buffer cache and the log

    [BlockOps] names the calls of bio.c and log.c that fs.c makes; [BlockStore]
    is what they promise to a system call that is inside a transaction.  The
    promise is about [bs_txn Tn s a H W]: [a] is what every block is, on the
    disk or in the log, [H] the buffers the caller has locked, each with its
    block and whether it has been changed since the last [log_write], and [W]
    the blocks logged so far.  [Tn] are the torn blocks: their buffers were
    changed and released without [log_write], so that what [bread] delivers
    depends on whether the buffer is still in the cache.  Every other block
    reads as [a] says.
    LogStore.v proves it for the buffer cache of Bio.v under the log of
    Log.v. *)

From Stdlib Require Import ZArith Lia Bool String.
From stdpp Require Import base gmap list strings functions.
From S2P Require Import Prelude Mem Spinlock Bio BioProof Log LogSpec.

Class BlockOps (S : Type) := {
  bs_bread : Z -> Z -> M S Z;
  (** [bp->data] *)
  bs_data : Z -> M S (list Z);
  bs_store : Z -> (list Z -> list Z) -> M S unit;
  bs_log_write : Z -> M S unit;
  bs_brelse : Z -> M S unit;
  bs_begin_op : M S unit;
  bs_end_op : M S unit;
  bs_initlog : Z -> superblock -> M S unit;
  (** [myproc()->pid] *)
  bs_pid : S -> Z
}.

(** Locked buffers: address to block number and whether it is unlogged. *)
Abbreviation held := (gmap Z (Z * bool)).

Definition not_held (H : held) (b : Z) : Prop := forall x c u, H !! x = Some (c, u) -> c <> b.

(** The caller's process and interrupt state go on as before. *)
Definition bs_same {S} `{HasMach S} {BO : BlockOps S} (s s' : S) : Prop :=
  hart_same (hart_of s) (hart_of s') /\ bs_pid s' = bs_pid s.

#[export] Instance bs_same_preorder {S} `{HasMach S} {BO : BlockOps S} : PreOrder (bs_same (S := S)).
Proof.
  split; [by intros s|]. intros s1 s2 s3 [? ?] [? ?]. split; [by etrans|congruence].
Qed.

Class BlockStore (S : Type) `{HM : HasMach S} {BO : BlockOps S} := {
  bs_txn : gset Z -> S -> blocks -> held -> gset Z -> Prop;
  (** the blocks the file system may touch: those outside the log *)
  bs_block : Z -> Prop;
  (** how many buffers one system call may hold locked *)
  bs_handles : nat;
  bs_handles_min : (4 <= bs_handles)%nat;
  bs_txn_hart Tn s a H W : bs_txn Tn s a H W -> hart_ok (hart_of s);
  bs_txn_set_hart Tn s a H W h : bs_txn Tn s a H W -> hart_ok h -> bs_txn Tn (set_hart h s) a H W;
  bs_pid_set_hart s h : bs_pid (set_hart h s) = bs_pid s;
  bs_bread_ok Tn s a H W b Q :
    bs_txn Tn s a H W -> bs_block b -> b ∉ Tn -> is_Some (a !! b) -> not_held H b -> (size H < bs_handles)%nat ->
    (forall x s', bs_txn Tn s' a (<[x := (b, false)]> H) W -> H !! x = None -> bs_same s s' -> Q x s') ->
    wp (bs_bread ROOTDEV b) Q s;
  bs_data_ok Tn s a H W x b u d Q :
    bs_txn Tn s a H W -> H !! x = Some (b, u) -> a !! b = Some d -> Q d s -> wp (bs_data x) Q s;
  bs_store_ok Tn s a H W x b u d f Q :
    bs_txn Tn s a H W -> H !! x = Some (b, u) -> a !! b = Some d ->
    (forall s', bs_txn Tn s' (<[b := f d]> a) (<[x := (b, if decide (f d = d) then u else true)]> H) W ->
       bs_same s s' -> Q tt s') ->
    wp (bs_store x f) Q s;
  bs_log_write_ok Tn s a H W x b u Q :
    bs_txn Tn s a H W -> H !! x = Some (b, u) -> Z.of_nat (size W) < LOGBLOCKS ->
    (forall s', bs_txn Tn s' a (<[x := (b, false)]> H) ({[b]} ∪ W) -> bs_same s s' -> Q tt s') ->
    wp (bs_log_write x) Q s;
  (** a buffer changed since its last [log_write] may be released when its
      block is in the log: the commit writes what the buffer holds *)
  bs_brelse_ok Tn s a H W x b u Q :
    bs_txn Tn s a H W -> H !! x = Some (b, u) -> (u = true -> b ∈ W) ->
    (forall s', bs_txn Tn s' a (delete x H) W -> bs_same s s' -> Q tt s') ->
    wp (bs_brelse x) Q s;
  (** otherwise the block is torn *)
  bs_tear_ok Tn s a H W x b f Q :
    bs_txn Tn s a H W -> H !! x = Some (b, false) -> b ∉ W ->
    (forall s', bs_txn ({[b]} ∪ Tn) s' a (delete x H) W -> bs_same s s' -> Q tt s') ->
    wp (bs_store x f) (fun _ => wp (bs_brelse x) Q) s
}.
