(* ===== verification/LogStore.v ===== *)
(** * The buffer cache and the log as a block store

    The calls of [BlockOps] are those of Bio.v and Log.v, and
    [log_txn] shows that they keep the promises of [BlockStore]: a system
    call that holds at most four buffers locked and logs fewer than LOGBLOCKS
    blocks sees a plain array of blocks. *)

From Stdlib Require Import ZArith Lia Bool String.
From stdpp Require Import base gmap list strings functions.
From S2P Require Import Prelude Mem Spinlock Sleeplock ObjCache Bio BioProof Log LogSpec LogProof LogThms BlockStore.

Section LogStore.
Context {A : Type} `{HM : HasMach A} {OC : ObjCache A}.

#[global] Instance log_ops : BlockOps (log_st A) := {|
  bs_bread dev b := in_bio (bread dev b);
  bs_data := buf_data;
  bs_store x f := in_bio (store_data x f);
  bs_log_write := log_write;
  bs_brelse x := in_bio (brelse x);
  bs_begin_op := begin_op;
  bs_end_op := end_op;
  bs_initlog := initlog;
  bs_pid s := cur_pid (lo_bio s)
|}.

(** The blocks of the locked buffers. *)
Definition hset (H : held) : gset Z := list_to_set ((map_to_list H).*2.*1).

Lemma elem_of_hset H b : b ∈ hset H <-> exists x u, H !! x = Some (b, u).
Proof.
  unfold hset. rewrite elem_of_list_to_set. rewrite list_elem_of_fmap. split.
  - intros ([c u] & -> & ([x [c' u']] & E & Hx)%list_elem_of_fmap). simpl in *. injection E as -> ->.
    apply elem_of_map_to_list in Hx. eauto.
  - intros (x & u & Hx). exists (b, u). split; [done|]. apply list_elem_of_fmap. exists (x, (b, u)).
    split; [done|]. by apply elem_of_map_to_list.
Qed.

Lemma size_hset H : (size (hset H) <= size H)%nat.
Proof.
  unfold hset. rewrite <- length_map_to_list. etrans; [apply size_set_of_list|]. by rewrite !length_fmap.
Qed.

Lemma hset_new H x b u : H !! x = None -> hset (<[x := (b, u)]> H) = {[b]} ∪ hset H.
Proof.
  intros Hx. apply set_eq. intros c. rewrite elem_of_union, elem_of_singleton, !elem_of_hset. split.
  - intros (y & v & Hy). destruct (decide (x = y)) as [->|Hne].
    + rewrite lookup_insert_eq in Hy. injection Hy as -> ->. by left.
    + rewrite lookup_insert_ne in Hy by done. eauto.
  - intros [->|(y & v & Hy)].
    + exists x, u. by rewrite lookup_insert_eq.
    + exists y, v. rewrite lookup_insert_ne; [done|]. congruence.
Qed.

Lemma hset_upd H x b u v : H !! x = Some (b, u) -> hset (<[x := (b, v)]> H) = hset H.
Proof.
  intros Hx. rewrite <- insert_delete_eq, hset_new by apply lookup_delete_eq.
  rewrite <- (insert_delete_id H x (b, u) Hx) at 2. by rewrite hset_new by apply lookup_delete_eq.
Qed.

(** No two handles for one block. *)
Definition handles_inj (H : held) : Prop :=
  forall x y b u v, H !! x = Some (b, u) -> H !! y = Some (b, v) -> x = y.

Lemma hset_del H x b u : handles_inj H -> H !! x = Some (b, u) -> hset (delete x H) = hset H ∖ {[b]}.
Proof.
  intros Hinj Hx. apply set_eq. intros c. rewrite elem_of_difference, elem_of_singleton, !elem_of_hset.
  split.
  - intros (y & v & [Hne Hy]%lookup_delete_Some). split; [eauto|]. intros ->. apply Hne. by eapply Hinj.
  - intros [(y & v & Hy) Hne]. exists y, v. apply lookup_delete_Some. split; [congruence|done].
Qed.

Lemma handles_inj_new H x b : handles_inj H -> not_held H b -> handles_inj (<[x := (b, false)]> H).
Proof.
  intros Hi Hn y z c u v [[-> E]|[Hy Ey]]%lookup_insert_Some [[-> E']|[Hz Ez]]%lookup_insert_Some; simplify_eq; try done.
  - by destruct (Hn z c v).
  - by destruct (Hn y c u).
  - by eapply Hi.
Qed.

Lemma handles_inj_upd H x b u v : handles_inj H -> H !! x = Some (b, u) -> handles_inj (<[x := (b, v)]> H).
Proof.
  intros Hi Hx y z c u' v' [[-> E]|[Hy Ey]]%lookup_insert_Some [[-> E']|[Hz Ez]]%lookup_insert_Some; simplify_eq; try done.
  - by eapply Hi.
  - by eapply Hi.
  - by eapply Hi.
Qed.

Lemma not_held_hset H b : not_held H b -> b ∉ hset H.
Proof. intros Hn (x & u & Hx)%elem_of_hset. by apply (Hn x b u). Qed.

(** The start of the log, and the disk and its write history when the system
    call began: they change only when it ends. *)
Context (st : Z) (d0 : blocks) (l0 : list write).

Definition log_block (b : Z) : Prop := ~ in_log st b /\ 0 <= b < 2 ^ 31.
Definition log_handles : nat := 4.
Definition log_room : nat := 38.

(** References: one for the lock, one for the pin. *)
Definition refs (B W : gset Z) (c : Z) : Z :=
  (if decide (c ∈ B) then 1 else 0) + (if decide (c ∈ W) then 1 else 0).

(** What can be told of the blocks when [Tn] are torn. *)
Definition view (Tn : gset Z) (a : blocks) : blocks := filter (fun p => p.1 ∉ Tn) a.

Lemma view_lookup Tn a c : c ∉ Tn -> view Tn a !! c = a !! c.
Proof.
  intros Hc. unfold view. destruct (a !! c) as [d|] eqn:E.
  - by apply map_lookup_filter_Some.
  - apply map_lookup_filter_None. by left.
Qed.

Lemma view_torn Tn a c : c ∈ Tn -> view Tn a !! c = None.
Proof. intros Hc. apply map_lookup_filter_None. right. intros d _. cbn. tauto. Qed.

Lemma view_some Tn a c : is_Some (view Tn a !! c) -> c ∉ Tn /\ is_Some (a !! c).
Proof. intros [d [Hd Hn]%map_lookup_filter_Some]. split; [done|]. by exists d. Qed.

Lemma view_insert Tn a b d : b ∉ Tn -> view Tn (<[b := d]> a) = <[b := d]> (view Tn a).
Proof. intros Hb. unfold view. by rewrite map_filter_insert_True. Qed.

Lemma view_empty a : view ∅ a = a.
Proof. apply map_filter_id. set_solver. Qed.

Lemma view_mono Tn Tn' a : Tn ⊆ Tn' -> view Tn' a ⊆ view Tn a.
Proof.
  intros HT. apply map_subseteq_spec. intros c d [Hd Hn]%map_lookup_filter_Some. apply map_lookup_filter_Some. cbn in *. split; [done|]. set_solver.
Qed.

Record txn_rep (Tn : gset Z) (s : log_st A) (a : blocks) (H : held) (W : gset Z) (bs : list Z) (R : Z -> Z) (n : nat) : Prop := {
  t_lists : lists st s bs;
  t_rep : bio_rep (lo_bio s) (view Tn a) R (hset H) n;
  t_at : forall x b u, H !! x = Some (b, u) -> at_buf (lo_bio s) x b;
  t_inj : handles_inj H;
  t_W : forall c, c ∈ W <-> c ∈ bs;
  t_nodup : NoDup bs;
  t_R : forall c, R c = refs (hset H) W c;
  t_room : (log_room <= n + size (hset H ∪ W))%nat;
  t_ok : forall c, c ∈ hset H ∪ W -> log_block c /\ c ∉ Tn /\ is_Some (a !! c);
  t_torn : forall c, c ∈ Tn -> log_block c;
  t_clean : forall c, c ∉ bs -> (forall x, H !! x <> Some (c, true)) -> dsk (lo_bio s) !! c = a !! c;
  t_log : log_clean st (lo_bio s) a R;
  t_empty : log_n st (dsk (lo_bio s)) = 0;
  t_hdr : exists d, a !! st = Some d /\ Z.of_nat (length d) = BSIZE;
  t_quiet : quiet_log s;
  t_out : lg_outstanding (lo s) = 1;
  t_comm : lg_committing (lo s) = 0;
  t_dsk : dsk (lo_bio s) = d0;
  t_dlog : dlog (lo_bio s) = l0
}.

Definition log_txn (Tn : gset Z) (s : log_st A) (a : blocks) (H : held) (W : gset Z) : Prop :=
  exists bs R n, txn_rep Tn s a H W bs R n.

Context (st_range : 0 <= st /\ st + LOGBLOCKS < 2 ^ 31).

Lemma refs_in_log B W c : (forall c, c ∈ B ∪ W -> log_block c) -> in_log st c -> refs B W c = 0.
Proof.
  intros Hok Hc. unfold refs. rewrite !decide_False; [done|..]; intros Hin; destruct (Hok c) as [Hn _]; set_solver.
Qed.

Lemma quiet_bio (s : log_st A) b : quiet_log s -> undisturbed (lo_bio s) b -> quiet_log (set_lo_bio b s).
Proof. intros [Q1 Q2] U. split; [exact Q1|]. exact (proj1 (hart_ok_proper _ _ (un_hart _ _ U)) Q2). Qed.

(** A call that changes the cache only. *)
Lemma txn_bio Tn Tn' s b' a a' H H' W bs R R' n n' :
  txn_rep Tn s a H W bs R n -> undisturbed (lo_bio s) b' -> bio_rep b' (view Tn' a') R' (hset H') n' ->
  (forall x b u, H' !! x = Some (b, u) -> at_buf b' x b) -> handles_inj H' ->
  (forall c, R' c = refs (hset H') W c) -> (log_room <= n' + size (hset H' ∪ W))%nat ->
  (forall c, c ∈ hset H' ∪ W -> log_block c /\ c ∉ Tn' /\ is_Some (a' !! c)) -> (forall c, c ∈ Tn' -> log_block c) ->
  (forall c, c ∉ bs -> (forall x, H' !! x <> Some (c, true)) -> dsk (lo_bio s) !! c = a' !! c) ->
  (forall c, in_log st c -> a' !! c = a !! c) ->
  txn_rep Tn' (set_lo_bio b' s) a' H' W bs R' n'.
Proof.
  intros T U Hr Hat Hi HR Hn Hok Htorn Hcl Hlog. destruct T as [T1 T2 T3 T4 T5 T6 T7 T8 T9 TT T10 T11 T12 T13 T14 T15 T16 T17 T18].
  split; try done.
  - exact (lists_bio st _ _ _ T1).
  - intros c H1 H2. cbn [lo_bio set_lo_bio]. rewrite (un_dsk _ _ U). by apply Hcl.
  - intros c Hc. destruct (T11 c Hc) as (L1 & L2 & L3). cbn [lo_bio set_lo_bio]. rewrite (un_dsk _ _ U), HR, Hlog by done.
    split; [|done]. apply refs_in_log; [|done]. intros k Hk. by apply Hok.
  - cbn [lo_bio set_lo_bio]. by rewrite (un_dsk _ _ U).
  - destruct T13 as (d & D1 & D2). exists d. split; [|done]. rewrite Hlog; [done|]. unfold in_log, LOGBLOCKS, MAXOPBLOCKS. lia.
  - by apply quiet_bio.
  - cbn [lo_bio set_lo_bio]. by rewrite (un_dsk _ _ U).
  - cbn [lo_bio set_lo_bio]. by rewrite (un_dlog _ _ U).
Qed.

Lemma same_bio (s : log_st A) b : undisturbed (lo_bio s) b -> bs_same s (set_lo_bio b s).
Proof. intros U. split; [exact (un_hart _ _ U)|exact (un_pid _ _ U)]. Qed.

Lemma txn_size_W Tn s a H W bs R n : txn_rep Tn s a H W bs R n -> size W = length bs.
Proof.
  intros T. replace W with (list_to_set bs : gset Z); [apply size_list_to_set, T|].
  apply set_eq. intros c. rewrite elem_of_list_to_set. symmetry. apply T.
Qed.

Lemma refs_range B W c : 0 <= refs B W c <= 2.
Proof. unfold refs. repeat case_decide; lia. Qed.

Lemma need_refs B W (c : Z) : c ∉ B -> size ({[c]} ∪ B ∪ W) = (size (B ∪ W) + need (refs B W c))%nat.
Proof.
  intros Hc. unfold refs. rewrite decide_False by done. rewrite <- union_assoc_L. case_decide as Hw.
  - change (need (0 + 1)) with 0%nat. rewrite Nat.add_0_r. f_equal. set_solver.
  - change (need (0 + 0)) with 1%nat. rewrite size_union, size_singleton by set_solver. lia.
Qed.

Lemma log_bread_ok Tn s a H W b Q :
  log_txn Tn s a H W -> log_block b -> b ∉ Tn -> is_Some (a !! b) -> not_held H b -> (size H < log_handles)%nat ->
  (forall x s', log_txn Tn s' a (<[x := (b, false)]> H) W -> H !! x = None -> bs_same s s' -> Q x s') ->
  wp (bs_bread ROOTDEV b) Q s.
Proof.
  intros (bs & R & n & T) Hb Hbt Ha Hn Hsz HQ. pose proof (not_held_hset _ _ Hn) as Hnb.
  pose proof (refs_range (hset H) W b) as Hrr. pose proof (t_R _ _ _ _ _ _ _ _ T) as TR.
  assert (need (R b) <= n)%nat as Hneed.
  { pose proof (t_room _ _ _ _ _ _ _ _ T) as Hrm. pose proof (txn_size_W _ _ _ _ _ _ _ _ T) as Ew.
    pose proof (lists_max _ _ _ (t_lists _ _ _ _ _ _ _ _ T)) as Hm. pose proof (size_hset H) as Hh.
    pose proof (size_union_alt (hset H) W) as Eu. assert (W ∖ hset H ⊆ W) as Hs%subseteq_size by set_solver.
    unfold log_room, log_handles, LOGBLOCKS, MAXOPBLOCKS, need in *. destruct (R b =? 0); lia. }
  apply wp_in_bio. eapply (wp_bread' _ (view Tn a) R (hset H) n b); [apply T|done|by rewrite view_lookup|rewrite TR; lia|done|].
  intros x b1 Hr1 Hat1 U1 K1.
  assert (forall y c u, H !! y = Some (c, u) -> at_buf b1 y c) as Hold.
  { intros y c u Hy. apply K1; [|by eapply T]. rewrite TR. unfold refs.
    rewrite (decide_True (P := c ∈ hset H)) by (apply elem_of_hset; eauto). case_decide; lia. }
  assert (H !! x = None) as Hx.
  { destruct (H !! x) as [[c u]|] eqn:E; [|done]. exfalso. destruct (Hold x c u E) as (bf & B1 & _ & B2 & _).
    destruct Hat1 as (bf' & B1' & _ & B2' & _). apply (Hn x c u E). congruence. }
  apply (HQ x); [|done|by apply same_bio]. exists bs, (take_ref R b), (n - need (R b))%nat.
  assert (forall c, c ∈ hset (<[x:=(b, false)]> H) ∪ W -> log_block c /\ c ∉ Tn /\ is_Some (a !! c)) as Hok.
  { intros c. rewrite hset_new, <- union_assoc_L, elem_of_union, elem_of_singleton by done.
    intros [->|Hc]; [by split|]. by apply T. }
  eapply (txn_bio Tn Tn s b1); [exact T|done|by rewrite hset_new| |by apply handles_inj_new, Hn; apply T| | |exact Hok|apply T| |done].
  - intros y c u [[-> E]|[Hne E]]%lookup_insert_Some; [by simplify_eq|by eapply Hold].
  - intros c. rewrite hset_new by done. unfold refs. destruct (decide (c = b)) as [->|Hne].
    + rewrite fn_lookup_insert, TR. unfold refs. rewrite (decide_False (P := b ∈ hset H)) by done.
      rewrite (decide_True (P := b ∈ {[b]} ∪ _)) by set_solver. lia.
    + rewrite fn_lookup_insert_ne, TR by done. unfold refs. f_equal. apply decide_ext. set_solver.
  - rewrite hset_new, need_refs by done. rewrite <- TR. pose proof (t_room _ _ _ _ _ _ _ _ T). lia.
  - intros c Hc Hd. eapply T; [done|]. intros y Hy. apply (Hd y). rewrite lookup_insert_ne; [done|]. congruence.
Qed.

Lemma handle_ok Tn s a H W bs R n x b u :
  txn_rep Tn s a H W bs R n -> H !! x = Some (b, u) -> b ∈ hset H /\ log_block b /\ (b ∉ Tn /\ is_Some (a !! b)) /\ 1 <= R b <= 2.
Proof.
  intros T Hx. assert (b ∈ hset H) as Hb by (apply elem_of_hset; eauto).
  destruct (t_ok _ _ _ _ _ _ _ _ T b) as [? ?]; [set_solver|]. do 3 (split; [done|]).
  rewrite (t_R _ _ _ _ _ _ _ _ T). unfold refs. rewrite decide_True by done. case_decide; lia.
Qed.

Lemma log_data_ok Tn s a H W x b u d Q :
  log_txn Tn s a H W -> H !! x = Some (b, u) -> a !! b = Some d -> Q d s -> wp (bs_data x) Q s.
Proof.
  intros (bs & R & n & T) Hx Ha HQ. destruct (handle_ok _ _ _ _ _ _ _ _ _ _ _ T Hx) as (_ & _ & [Hbt _] & _).
  eapply wp_buf_data; [apply T|by eapply T|by rewrite view_lookup|done].
Qed.

Lemma log_store_ok Tn s a H W x b u d f Q :
  log_txn Tn s a H W -> H !! x = Some (b, u) -> a !! b = Some d ->
  (forall s', log_txn Tn s' (<[b := f d]> a) (<[x := (b, if decide (f d = d) then u else true)]> H) W ->
     bs_same s s' -> Q tt s') ->
  wp (bs_store x f) Q s.
Proof.
  intros (bs & R & n & T) Hx Ha HQ. destruct (handle_ok _ _ _ _ _ _ _ _ _ _ _ T Hx) as (Hb & [Hnl Hbr] & [Hbt _] & HR).
  apply wp_in_bio. eapply (wp_store_data _ (view Tn a) R (hset H) n x b); [apply T|done|by eapply T|by rewrite view_lookup|]. rewrite <- view_insert by done.
  intros b1 Hr1 U1 K1. apply HQ; [|by apply same_bio]. exists bs, R, n. set (v := if decide _ then u else true).
  assert (hset (<[x := (b, v)]> H) = hset H) as Eh by (by eapply hset_upd).
  eapply (txn_bio Tn Tn s b1); [exact T|done|by rewrite Eh| |eapply handles_inj_upd; [apply T|done]|rewrite Eh; apply T
    |rewrite Eh; apply T| |apply T| |].
  - intros y c w [[-> E]|[Hne E]]%lookup_insert_Some; [simplify_eq|]; eapply K1, T; eauto.
  - intros c. rewrite Eh. intros Hc. destruct (t_ok _ _ _ _ _ _ _ _ T c Hc) as (? & ? & ?). split; [done|]. split; [done|].
    rewrite lookup_insert_is_Some. destruct (decide (b = c)); auto.
  - intros c Hc Hd. destruct (decide (c = b)) as [->|Hne].
    + rewrite lookup_insert_eq. assert (v = false) as Ev.
      { destruct v eqn:E; [|done]. destruct (Hd x). by rewrite lookup_insert_eq. }
      unfold v in Ev. case_decide as Ef; [subst u; rewrite Ef, <- Ha|done]. eapply T; [done|]. intros y Hy.
      assert (y = x) as -> by (by eapply (t_inj _ _ _ _ _ _ _ _ T)). congruence.
    + rewrite lookup_insert_ne by done. eapply T; [done|]. intros y Hy. apply (Hd y).
      rewrite lookup_insert_ne; [done|]. congruence.
  - intros c Hc. rewrite lookup_insert_ne; [done|]. by intros ->.
Qed.

(** Releasing a buffer whose block is clean, in the log, or torn. *)
Lemma release_ok Tn s a H W bs R n x b u Q :
  txn_rep Tn s a H W bs R n -> H !! x = Some (b, u) -> (u = true -> b ∈ W) ->
  forall Tn' s1, (forall c, c ∈ hset H ∪ W -> c <> b -> c ∉ Tn') -> (b ∈ W -> b ∉ Tn') -> (forall c, c ∈ Tn' -> log_block c) ->
  undisturbed (lo_bio s) s1 -> bio_rep s1 (view Tn' a) R (hset H) n -> (forall y c, at_buf (lo_bio s) y c -> at_buf s1 y c) ->
  (forall s', log_txn Tn' s' a (delete x H) W -> bs_same s s' -> Q tt s') ->
  wp (bs_brelse x) Q (set_lo_bio s1 s).
Proof.
  intros T Hx Hu Tn' s1 HT1 HT2 HT3 U0 Hr0 K0 HQ. destruct (handle_ok _ _ _ _ _ _ _ _ _ _ _ T Hx) as (Hb & Hok & _ & HR).
  pose proof (t_R _ _ _ _ _ _ _ _ T) as TR. pose proof (t_inj _ _ _ _ _ _ _ _ T) as Hi.
  pose proof (hset_del _ _ _ _ Hi Hx) as Eh.
  assert (forall c, c ∉ bs -> (forall y, delete x H !! y <> Some (c, true)) -> dsk (lo_bio s) !! c = a !! c) as Hcl.
  { intros c Hc Hd. eapply T; [done|]. intros y Hy. apply (Hd y). apply lookup_delete_Some. split; [|done].
    intros ->. rewrite Hx in Hy. injection Hy as -> ->. apply Hc. apply (t_W _ _ _ _ _ _ _ _ T). by apply Hu. }
  apply wp_in_bio. cbn [lo_bio set_lo_bio]. eapply (wp_brelse' _ (view Tn' a) R (hset H) n x b); [exact Hr0|done|by eapply K0, T|lia| |].
  { intros E Hs. rewrite (un_dsk _ _ U0). destruct (view_some _ _ _ Hs) as [Hnt _]. rewrite view_lookup by done. apply Hcl.
    - rewrite TR in E. unfold refs in E. rewrite decide_True in E by done. case_decide as Hw; [lia|].
      by rewrite (t_W _ _ _ _ _ _ _ _ T) in Hw.
    - intros y [Hne Hy]%lookup_delete_Some. apply Hne. by eapply Hi. }
  intros b1 Hr1 U1 K1. assert (undisturbed (lo_bio s) b1) as U by (by etrans).
  change (set_lo_bio b1 (set_lo_bio s1 s)) with (set_lo_bio b1 s).
  apply HQ; [|by apply same_bio]. exists bs, (<[b := R b - 1]> R), (n + need (R b - 1))%nat.
  assert (forall c, (<[b := R b - 1]> R : Z -> Z) c = refs (hset (delete x H)) W c) as HR'.
  { intros c. rewrite Eh. destruct (decide (c = b)) as [->|Hne].
    - rewrite fn_lookup_insert, TR. unfold refs. rewrite (decide_True (P := b ∈ hset H)) by done.
      rewrite (decide_False (P := b ∈ hset H ∖ _)) by set_solver. lia.
    - rewrite fn_lookup_insert_ne, TR by done. unfold refs. f_equal. apply decide_ext. set_solver. }
  eapply (txn_bio Tn Tn' s b1); [exact T|done|by rewrite Eh| | |exact HR'| | |exact HT3|exact Hcl|done].
  - intros y c v [Hne Hy]%lookup_delete_Some. apply K1; [|by eapply K0, T]. rewrite HR'. unfold refs.
    rewrite (decide_True (P := c ∈ hset _)); [case_decide; lia|]. apply elem_of_hset. exists y, v.
    by rewrite lookup_delete_ne.
  - intros y z c u' v [_ Hy]%lookup_delete_Some [_ Hz]%lookup_delete_Some. by eapply Hi.
  - pose proof (t_room _ _ _ _ _ _ _ _ T) as Hrm. pose proof (need_refs (hset H ∖ {[b]}) W b) as Hnr.
    rewrite <- Eh, <- HR', fn_lookup_insert in Hnr. rewrite Eh in *.
    replace ({[b]} ∪ hset H ∖ {[b]}) with (hset H) in Hnr; [specialize (Hnr ltac:(set_solver)); lia|].
    apply set_eq. intros c. destruct (decide (c = b)); set_solver.
  - intros c. rewrite Eh. intros Hc. destruct (t_ok _ _ _ _ _ _ _ _ T c) as (? & ? & ?); [set_solver|]. split; [done|]. split; [|done].
    destruct (decide (c = b)) as [->|Hne]; [apply HT2; set_solver|apply HT1; [set_solver|done]].
Qed.

Lemma log_brelse_ok Tn s a H W x b u Q :
  log_txn Tn s a H W -> H !! x = Some (b, u) -> (u = true -> b ∈ W) ->
  (forall s', log_txn Tn s' a (delete x H) W -> bs_same s s' -> Q tt s') ->
  wp (bs_brelse x) Q s.
Proof.
  intros (bs & R & n & T) Hx Hu HQ. replace s with (set_lo_bio (lo_bio s) s) by (by destruct s).
  apply (release_ok Tn s a H W bs R n x b u Q T Hx Hu Tn (lo_bio s)); try done; try apply T.
  - intros c Hc _. by apply T.
  - intros Hw. apply T. set_solver.
Qed.

(** A store that is never logged. *)
Lemma log_tear_ok Tn s a H W x b f Q :
  log_txn Tn s a H W -> H !! x = Some (b, false) -> b ∉ W ->
  (forall s', log_txn ({[b]} ∪ Tn) s' a (delete x H) W -> bs_same s s' -> Q tt s') ->
  wp (bs_store x f) (fun _ => wp (bs_brelse x) Q) s.
Proof.
  intros (bs & R & n & T) Hx Hw HQ. destruct (handle_ok _ _ _ _ _ _ _ _ _ _ _ T Hx) as (Hb & Hok & _ & _).
  apply wp_in_bio. eapply (wp_store_unknown _ (view ({[b]} ∪ Tn) a) R (hset H) n x b); [|done|by eapply T|apply view_torn; set_solver|].
  { eapply rep_forget; [apply T|]. apply view_mono. set_solver. }
  intros s1 Hr1 U1 K1. apply (release_ok Tn s a H W bs R n x b false Q T Hx ltac:(done) ({[b]} ∪ Tn) s1); try done.
  - intros c Hc Hne. destruct (t_ok _ _ _ _ _ _ _ _ T c Hc) as (_ & ? & _). set_solver.
  - intros c [->%elem_of_singleton|Hc]%elem_of_union; [done|by apply (t_torn _ _ _ _ _ _ _ _ T)].
Qed.

Lemma log_log_write_ok Tn s a H W x b u Q :
  log_txn Tn s a H W -> H !! x = Some (b, u) -> Z.of_nat (size W) < LOGBLOCKS ->
  (forall s', log_txn Tn s' a (<[x := (b, false)]> H) ({[b]} ∪ W) -> bs_same s s' -> Q tt s') ->
  wp (bs_log_write x) Q s.
Proof.
  intros (bs & R & n & T) Hx Hlt HQ. destruct (handle_ok _ _ _ _ _ _ _ _ _ _ _ T Hx) as (Hb & [Hnl Hbr] & Ha & HR).
  pose proof T as [T1 T2 T3 T4 T5 T6 T7 T8 T9 TT T10 T11 T12 T13 T14 T15 T16 T17 T18]. rewrite (txn_size_W _ _ _ _ _ _ _ _ T) in Hlt.
  eapply (wp_log_write st s bs (view Tn a) R (hset H) n x b); [done|done|by eapply T3|done| |lia|lia|done|lia|].
  { intros c Hc%T5. destruct (T9 c) as [[_ ?] _]; [set_solver|done]. }
  intros s' L1 Hr Hq Hh U K O C. apply HQ; [|split; [exact Hh|exact (un_pid _ _ U)]].
  assert (hset (<[x := (b, false)]> H) = hset H) as Eh by (by eapply hset_upd).
  assert (forall c, pin_new b bs R c = refs (hset H) ({[b]} ∪ W) c) as HR'.
  { intros c. unfold pin_new. case_decide as Hin.
    - rewrite T7. unfold refs. f_equal. apply decide_ext. apply T5 in Hin. set_solver.
    - rewrite <- T5 in Hin. destruct (decide (c = b)) as [->|Hne].
      + rewrite fn_lookup_insert, T7. unfold refs. rewrite (decide_False (P := b ∈ W)) by done.
        rewrite (decide_True (P := b ∈ {[b]} ∪ W)) by set_solver. lia.
      + rewrite fn_lookup_insert_ne, T7 by done. unfold refs. f_equal. apply decide_ext. set_solver. }
  assert (forall c, c ∈ hset H ∪ ({[b]} ∪ W) -> c ∈ hset H ∪ W) as Hsub by set_solver.
  exists (log_add b bs), (pin_new b bs R), n. split; rewrite ?Eh, ?(un_dsk _ _ U), ?(un_dlog _ _ U); try done.
  - intros y c w [[-> E]|[Hne E]]%lookup_insert_Some; [simplify_eq|]; eapply K, T; eauto.
  - eapply handles_inj_upd; [apply T|done].
  - intros c. rewrite elem_of_log_add, elem_of_union, elem_of_singleton, T5. tauto.
  - by apply log_add_nodup.
  - replace (hset H ∪ ({[b]} ∪ W)) with (hset H ∪ W) by set_solver. lia.
  - intros c Hc. by apply T9, Hsub.
  - intros c Hc Hd. rewrite elem_of_log_add in Hc. apply T10; [tauto|]. intros y Hy. apply (Hd y).
    rewrite lookup_insert_ne; [done|]. intros ->. simplify_eq. tauto.
  - intros c Hc. destruct (T11 c Hc) as (? & ? & ?). rewrite HR', (un_dsk _ _ U). split; [|done].
    apply refs_in_log; [|done]. intros k Hk. by apply T9, Hsub.
  - congruence.
  - congruence.
Qed.

Lemma log_set_hart Tn s a H W h : log_txn Tn s a H W -> hart_ok h -> log_txn Tn (set_hart h s) a H W.
Proof.
  intros (bs & R & n & T) Hh. exists bs, R, n.
  destruct T as [T1 T2 T3 T4 T5 T6 T7 T8 T9 TT T10 T11 T12 T13 T14 T15 T16 T17 T18]. split; try done.
  - by destruct T1.
  - exact (rep_hart _ _ _ _ _ _ T2 Hh).
  - split; [apply T14|]. by rewrite hart_of_set_hart.
Qed.

Lemma log_txn_hart Tn s a H W : log_txn Tn s a H W -> hart_ok (hart_of s).
Proof. intros (bs & R & n & T). exact (proj2 (t_quiet _ _ _ _ _ _ _ _ T)). Qed.

Definition log_store : BlockStore (log_st A) := {|
  bs_txn := log_txn;
  bs_block := log_block;
  bs_handles := log_handles;
  bs_handles_min := le_n 4;
  bs_txn_hart := log_txn_hart;
  bs_txn_set_hart := log_set_hart;
  bs_pid_set_hart _ _ := eq_refl;
  bs_bread_ok := log_bread_ok;
  bs_data_ok := log_data_ok;
  bs_store_ok := log_store_ok;
  bs_log_write_ok := log_log_write_ok;
  bs_brelse_ok := log_brelse_ok;
  bs_tear_ok := log_tear_ok
|}.

End LogStore.
