(* ===== verification/Fs.v ===== *)
(** * The file system (kernel/fs.c)

    The routines of fs.c over any [BlockOps].  A block is its list of 1024
    bytes; [struct dinode], [struct dirent] and the superblock are read and
    written in it at their C offsets.  The inode table is the list of its
    [NINODE] entries and a [struct inode *] is 1 + the index of the entry, so
    that 0 is the null pointer.  Path and name arguments are byte lists
    without the final NUL; [name[DIRSIZ]] is a list of DIRSIZ bytes.

    [readi] hands the bytes it copies to [either_copyout]: [cout tot bytes]
    is whether the copy of [bytes] to [dst + tot] succeeds, and the result
    carries the bytes copied.  [writei] takes its bytes from
    [either_copyin]: [cin tot m] is what the copy of [m] bytes from
    [src + tot] stores before it ends, and whether it succeeds. *)

From Stdlib Require Import ZArith Lia Bool String.
From stdpp Require Import base gmap list strings functions.
From S2P Require Import Prelude Mem Spinlock Sleeplock Bio BioProof Log BlockStore.

Definition ROOTINO : Z := 1.
Definition FSMAGIC : Z := 270544960.
Definition NDIRECT : Z := 12.
Definition NINDIRECT : Z := BSIZE / 4.
Definition MAXFILE : Z := NDIRECT + NINDIRECT.
Definition NINODE : Z := 50.
Definition DIRSIZ : Z := 14.
Definition T_DIR : Z := 1.
Definition T_FILE : Z := 2.
Definition T_DEVICE : Z := 3.

Definition sizeof_dinode : Z := 64.
Definition sizeof_dirent : Z := 16.
Definition IPB : Z := BSIZE / sizeof_dinode.
Definition BPB : Z := BSIZE * 8.
Definition IBLOCK (i : Z) (sb : superblock) : Z := u32 (i / IPB + sb_inodestart sb).
Definition BBLOCK (b : Z) (sb : superblock) : Z := u32 (b / BPB + sb_bmapstart sb).

(** ** Bytes of a block *)

Definition s16 (x : Z) : Z := (x + 2 ^ 15) mod 2 ^ 16 - 2 ^ 15.
Definition rd16u (d : list Z) (off : Z) : Z := byte_at d off + 256 * byte_at d (off + 1).
Definition rd16 (d : list Z) (off : Z) : Z := s16 (rd16u d off).
Definition wr16 (d : list Z) (off v : Z) : list Z := put_byte (put_byte d off v) (off + 1) (v / 256).

(** The bytes from [off] on are replaced by [src]. *)
Fixpoint blit (d : list Z) (off : Z) (src : list Z) : list Z :=
  match src with
  | [] => d
  | v :: src => blit (<[Z.to_nat off := v]> d) (off + 1) src
  end.

Definition bytes_from (d : list Z) (off n : Z) : list Z := byte_at d <$> seqZ off n.

(** An array of [uint] at [off]. *)
Fixpoint wr_array (d : list Z) (off : Z) (l : list Z) : list Z :=
  match l with
  | [] => d
  | v :: l => wr_array (wr32 d off v) (off + 4) l
  end.
Definition rd_array (d : list Z) (off : Z) (n : nat) : list Z :=
  (fun i => rd32u d (off + 4 * i)) <$> seqZ 0 (Z.of_nat n).

Record dinode := mkDinode {
  di_type : Z; di_major : Z; di_minor : Z; di_nlink : Z; di_size : Z; di_addrs : list Z
}.

Definition rd_dinode (d : list Z) (off : Z) : dinode :=
  mkDinode (rd16 d off) (rd16 d (off + 2)) (rd16 d (off + 4)) (rd16 d (off + 6)) (rd32u d (off + 8))
    (rd_array d (off + 12) 13).

Definition wr_dinode (d : list Z) (off : Z) (di : dinode) : list Z :=
  wr_array (wr32 (wr16 (wr16 (wr16 (wr16 d off (di_type di)) (off + 2) (di_major di))
    (off + 4) (di_minor di)) (off + 6) (di_nlink di)) (off + 8) (di_size di)) (off + 12) (di_addrs di).

(** [(struct dinode* )bp->data + inum%IPB] *)
Definition dinode_off (inum : Z) : Z := sizeof_dinode * (inum mod IPB).

Record inode := mkInode {
  i_dev : Z; i_inum : Z; i_ref : Z; i_lock : sleeplock; i_valid : Z;
  i_type : Z; i_major : Z; i_minor : Z; i_nlink : Z; i_size : Z; i_addrs : list Z
}.

Definition set_iref (v : Z) (i : inode) : inode :=
  mkInode (i_dev i) (i_inum i) v (i_lock i) (i_valid i) (i_type i) (i_major i) (i_minor i) (i_nlink i) (i_size i) (i_addrs i).
Definition set_ilock (v : sleeplock) (i : inode) : inode :=
  mkInode (i_dev i) (i_inum i) (i_ref i) v (i_valid i) (i_type i) (i_major i) (i_minor i) (i_nlink i) (i_size i) (i_addrs i).
Definition set_ivalid (v : Z) (i : inode) : inode :=
  mkInode (i_dev i) (i_inum i) (i_ref i) (i_lock i) v (i_type i) (i_major i) (i_minor i) (i_nlink i) (i_size i) (i_addrs i).
Definition set_itype (v : Z) (i : inode) : inode :=
  mkInode (i_dev i) (i_inum i) (i_ref i) (i_lock i) (i_valid i) v (i_major i) (i_minor i) (i_nlink i) (i_size i) (i_addrs i).
Definition set_isize (v : Z) (i : inode) : inode :=
  mkInode (i_dev i) (i_inum i) (i_ref i) (i_lock i) (i_valid i) (i_type i) (i_major i) (i_minor i) (i_nlink i) v (i_addrs i).
Definition set_iaddrs (v : list Z) (i : inode) : inode :=
  mkInode (i_dev i) (i_inum i) (i_ref i) (i_lock i) (i_valid i) (i_type i) (i_major i) (i_minor i) (i_nlink i) (i_size i) v.

(** [ip->type = dip->type; ...; memmove(ip->addrs, dip->addrs, ...)] *)
Definition load_dinode (di : dinode) (i : inode) : inode :=
  mkInode (i_dev i) (i_inum i) (i_ref i) (i_lock i) (i_valid i) (di_type di) (di_major di) (di_minor di) (di_nlink di) (di_size di) (di_addrs di).
Definition dinode_of (i : inode) : dinode :=
  mkDinode (i_type i) (i_major i) (i_minor i) (i_nlink i) (i_size i) (i_addrs i).

(** [memset] to 0 then [initsleeplock] *)
Definition zero_inode : inode :=
  mkInode 0 0 0 (initsleeplock "inode") 0 0 0 0 0 0 (replicate 13 0).

Record stat := mkStat { st_dev : Z; st_ino : Z; st_type : Z; st_nlink : Z; st_size : Z }.

Section Fs.
Context {T : Type} `{HM : HasMach T} {BO : BlockOps T}.

Record fs_st := mkFs {
  f_store : T;
  f_sb : superblock;
  it_lock : spinlock;
  it_inode : list inode;
  f_cwd : Z
}.

#[global] Instance fs_HasMach : HasMach fs_st.
Proof.
  refine {| mach_of := fun s => mach_of (f_store s);
            set_mach := fun m s => mkFs (set_mach m (f_store s)) (f_sb s) (it_lock s) (it_inode s) (f_cwd s) |}.
  - intros m s. exact (mach_of_set m (f_store s)).
  - intros [b]. cbn [f_store f_sb it_lock it_inode f_cwd]. f_equal. exact (set_mach_of b).
  - intros m m' s. cbn [f_store f_sb it_lock it_inode f_cwd]. f_equal. exact (set_mach_set m m' (f_store s)).
Defined.

Definition set_store (b : T) (s : fs_st) : fs_st := mkFs b (f_sb s) (it_lock s) (it_inode s) (f_cwd s).
Definition set_sb (v : superblock) (s : fs_st) : fs_st := mkFs (f_store s) v (it_lock s) (it_inode s) (f_cwd s).
Definition set_itlock (v : spinlock) (s : fs_st) : fs_st := mkFs (f_store s) (f_sb s) v (it_inode s) (f_cwd s).
Definition set_itable (v : list inode) (s : fs_st) : fs_st := mkFs (f_store s) (f_sb s) (it_lock s) v (f_cwd s).

Definition on_store {X} (c : M T X) : M fs_st X := zoom f_store set_store c.

Definition get_ip (ip : Z) : M fs_st inode :=
  if ip =? 0 then fault "null" else l ← gets it_inode; arr_get l (ip - 1).
Definition upd_ip (ip : Z) (f : inode -> inode) : M fs_st unit :=
  i ← get_ip ip; modify (fun s => set_itable (<[Z.to_nat (ip - 1) := f i]> (it_inode s)) s).

(** ** Superblock and blocks *)

Definition readsb (dev : Z) : M fs_st unit :=
  bp ← on_store (bs_bread dev 1);
  d ← on_store (bs_data bp);
  modify (set_sb (mkSuper (rd32u d 0) (rd32u d 4) (rd32u d 8) (rd32u d 12)
                          (rd32u d 16) (rd32u d 20) (rd32u d 24) (rd32u d 28)));;
  on_store (bs_brelse bp).

Definition bzero (dev bno : Z) : M fs_st unit :=
  bp ← on_store (bs_bread dev bno);
  on_store (bs_store bp (fun _ => replicate (Z.to_nat BSIZE) 0));;
  on_store (bs_log_write bp);;
  on_store (bs_brelse bp).

(** [(bp->data[bi/8] & m) == 0] with [m = 1 << (bi % 8)] *)
Definition bit_free (d : list Z) (bi : Z) : bool :=
  Z.land (byte_at d (bi / 8)) (Z.shiftl 1 (bi mod 8)) =? 0.
Definition set_bit (d : list Z) (bi : Z) : list Z :=
  put_byte d (bi / 8) (Z.lor (byte_at d (bi / 8)) (Z.shiftl 1 (bi mod 8))).
Definition clear_bit (d : list Z) (bi : Z) : list Z :=
  put_byte d (bi / 8) (Z.land (byte_at d (bi / 8)) (Z.lnot (Z.shiftl 1 (bi mod 8)))).

(** The scan of one bitmap block by [balloc]. *)
Fixpoint balloc_scan (fuel : nat) (d : list Z) (b bi size : Z) : option (option Z) :=
  match fuel with
  | O => None
  | S fuel =>
      if (bi <? BPB) && (b + bi <? size) then
        if bit_free d bi then Some (Some bi) else balloc_scan fuel d b (bi + 1) size
      else Some None
  end.

Fixpoint balloc_loop (fuel : nat) (dev b : Z) : M fs_st Z :=
  match fuel with
  | O => out_of_fuel
  | S fuel =>
      sb ← gets f_sb;
      if b <? sb_size sb then
        bp ← on_store (bs_bread dev (BBLOCK b sb));
        d ← on_store (bs_data bp);
        r ← of_opt (balloc_scan (S (Z.to_nat BPB)) d b 0 (sb_size sb));
        match r with
        | Some bi =>
            on_store (bs_store bp (fun d => set_bit d bi));;
            on_store (bs_log_write bp);;
            on_store (bs_brelse bp);;
            bzero dev (b + bi);;
            mret (b + bi)
        | None =>
            on_store (bs_brelse bp);;
            balloc_loop fuel dev (b + BPB)
        end
      else mret 0
  end.

Definition balloc (dev : Z) : M fs_st Z :=
  sb ← gets f_sb; balloc_loop (S (Z.to_nat (sb_size sb / BPB + 1))) dev 0.

Definition bfree (dev b : Z) : M fs_st unit :=
  sb ← gets f_sb;
  bp ← on_store (bs_bread dev (BBLOCK b sb));
  let bi := b mod BPB in
  d ← on_store (bs_data bp);
  (if bit_free d bi then panic "freeing free block" else mret tt);;
  on_store (bs_store bp (fun d => clear_bit d bi));;
  on_store (bs_log_write bp);;
  on_store (bs_brelse bp).

(** ** Inodes *)

Definition iupdate (ip : Z) : M fs_st unit :=
  sb ← gets f_sb;
  i ← get_ip ip;
  bp ← on_store (bs_bread (i_dev i) (IBLOCK (i_inum i) sb));
  on_store (bs_store bp (fun d => wr_dinode d (dinode_off (i_inum i)) (dinode_of i)));;
  on_store (bs_log_write bp);;
  on_store (bs_brelse bp).

(** The scan of the table by [iget]: the entry for (dev, inum), if any, and
    the first empty one; [k] is the pointer to the head of [l]. *)
Fixpoint iget_scan (l : list inode) (k dev inum empty : Z) : Z * Z :=
  match l with
  | [] => (0, empty)
  | i :: l =>
      if (0 <? i_ref i) && (i_dev i =? dev) && (i_inum i =? inum) then (k, empty)
      else iget_scan l (k + 1) dev inum (if (empty =? 0) && (i_ref i =? 0) then k else empty)
  end.

Definition iget (dev inum : Z) : M fs_st Z :=
  acquire_in it_lock set_itlock;;
  l ← gets it_inode;
  let '(ip, empty) := iget_scan l 1 dev inum 0 in
  if negb (ip =? 0) then
    upd_ip ip (fun i => set_iref (i_ref i + 1) i);;
    release_in it_lock set_itlock;;
    mret ip
  else if empty =? 0 then panic "iget: no inodes"
  else
    upd_ip empty (fun i => mkInode dev inum 1 (i_lock i) 0 (i_type i) (i_major i) (i_minor i) (i_nlink i) (i_size i) (i_addrs i));;
    release_in it_lock set_itlock;;
    mret empty.

Definition idup (ip : Z) : M fs_st Z :=
  acquire_in it_lock set_itlock;;
  upd_ip ip (fun i => set_iref (i_ref i + 1) i);;
  release_in it_lock set_itlock;;
  mret ip.

Fixpoint ialloc_loop (fuel : nat) (dev type inum : Z) : M fs_st Z :=
  match fuel with
  | O => out_of_fuel
  | S fuel =>
      sb ← gets f_sb;
      if inum <? sb_ninodes sb then
        bp ← on_store (bs_bread dev (IBLOCK inum sb));
        d ← on_store (bs_data bp);
        if rd16 d (dinode_off inum) =? 0 then
          on_store (bs_store bp (fun d => wr16 (blit d (dinode_off inum) (replicate 64 0)) (dinode_off inum) type));;
          on_store (bs_log_write bp);;
          on_store (bs_brelse bp);;
          iget dev inum
        else
          on_store (bs_brelse bp);;
          ialloc_loop fuel dev type (inum + 1)
      else mret 0
  end.

Definition ialloc (dev type : Z) : M fs_st Z :=
  sb ← gets f_sb; ialloc_loop (S (Z.to_nat (sb_ninodes sb))) dev type 1.

(** A sleeplock routine on [&ip->lock]. *)
Definition on_ilock (ip : Z) (f : sleeplock -> hart -> outcome (sleeplock * hart)) : M fs_st unit :=
  i ← get_ip ip;
  l ← on_hart (f (i_lock i));
  upd_ip ip (set_ilock l).
Definition ip_acquiresleep (ip : Z) : M fs_st unit :=
  s ← get; on_ilock ip (acquiresleep (bs_pid (f_store s))).
Definition ip_releasesleep (ip : Z) : M fs_st unit := on_ilock ip releasesleep.
Definition ip_holdingsleep (ip : Z) : M fs_st bool :=
  i ← get_ip ip;
  s ← get;
  '(r, l) ← on_hart (holdingsleep (bs_pid (f_store s)) (i_lock i));
  upd_ip ip (set_ilock l);;
  mret r.

Definition ilock (ip : Z) : M fs_st unit :=
  (if ip =? 0 then panic "ilock" else mret tt);;
  i ← get_ip ip;
  (if i_ref i <? 1 then panic "ilock" else mret tt);;
  ip_acquiresleep ip;;
  i ← get_ip ip;
  if i_valid i =? 0 then
    sb ← gets f_sb;
    bp ← on_store (bs_bread (i_dev i) (IBLOCK (i_inum i) sb));
    d ← on_store (bs_data bp);
    upd_ip ip (load_dinode (rd_dinode d (dinode_off (i_inum i))));;
    on_store (bs_brelse bp);;
    upd_ip ip (set_ivalid 1);;
    i ← get_ip ip;
    (if i_type i =? 0 then panic "ilock: no type" else mret tt)
  else mret tt.

Definition iunlock (ip : Z) : M fs_st unit :=
  (if ip =? 0 then panic "iunlock" else mret tt);;
  h ← ip_holdingsleep ip;
  i ← get_ip ip;
  (if negb h || (i_ref i <? 1) then panic "iunlock" else mret tt);;
  ip_releasesleep ip.

(** ** Inode content *)

(** [ip->addrs[k]] *)
Definition get_addr (ip k : Z) : M fs_st Z := i ← get_ip ip; arr_get (i_addrs i) k.
Definition set_addr (ip k v : Z) : M fs_st unit :=
  i ← get_ip ip; l ← of_arr (arr_set (i_addrs i) k v); upd_ip ip (set_iaddrs l).

(** Entry [bn] of the index block [addr], allocated if it is empty. *)
Definition bmap_entry (dev addr bn : Z) : M fs_st Z :=
  bp ← on_store (bs_bread dev addr);
  d ← on_store (bs_data bp);
  let addr := rd32u d (4 * bn) in
  addr ← (if addr =? 0 then
            addr ← balloc dev;
            (if addr =? 0 then mret tt
             else on_store (bs_store bp (fun d => wr32 d (4 * bn) addr));;
                  on_store (bs_log_write bp));;
            mret addr
          else mret addr);
  on_store (bs_brelse bp);;
  mret addr.

Definition bmap (ip bn : Z) : M fs_st Z :=
  i ← get_ip ip;
  if bn <? NDIRECT then
    addr ← get_addr ip bn;
    if addr =? 0 then
      addr ← balloc (i_dev i);
      if addr =? 0 then mret 0
      else set_addr ip bn addr;; mret addr
    else mret addr
  else
    let bn := bn - NDIRECT in
    if bn <? NINDIRECT then
      addr ← get_addr ip NDIRECT;
      if addr =? 0 then
        addr ← balloc (i_dev i);
        if addr =? 0 then mret 0
        else set_addr ip NDIRECT addr;; bmap_entry (i_dev i) addr bn
      else bmap_entry (i_dev i) addr bn
    else panic "bmap: out of range".

Fixpoint itrunc_direct (n : nat) (ip i : Z) : M fs_st unit :=
  match n with
  | O => mret tt
  | S n =>
      a ← get_addr ip i;
      (if a =? 0 then mret tt
       else node ← get_ip ip; bfree (i_dev node) a;; set_addr ip i 0);;
      itrunc_direct n ip (i + 1)
  end.

Fixpoint itrunc_indirect (n : nat) (dev bp j : Z) : M fs_st unit :=
  match n with
  | O => mret tt
  | S n =>
      d ← on_store (bs_data bp);
      (if rd32u d (4 * j) =? 0 then mret tt else bfree dev (rd32u d (4 * j)));;
      itrunc_indirect n dev bp (j + 1)
  end.

Definition itrunc (ip : Z) : M fs_st unit :=
  itrunc_direct (Z.to_nat NDIRECT) ip 0;;
  a ← get_addr ip NDIRECT;
  (if a =? 0 then mret tt
   else
     node ← get_ip ip;
     bp ← on_store (bs_bread (i_dev node) a);
     itrunc_indirect (Z.to_nat NINDIRECT) (i_dev node) bp 0;;
     on_store (bs_brelse bp);;
     bfree (i_dev node) a;;
     set_addr ip NDIRECT 0);;
  upd_ip ip (set_isize 0);;
  iupdate ip.

Definition iput (ip : Z) : M fs_st unit :=
  acquire_in it_lock set_itlock;;
  i ← get_ip ip;
  (if (i_ref i =? 1) && negb (i_valid i =? 0) && (i_nlink i =? 0) then
     ip_acquiresleep ip;;
     release_in it_lock set_itlock;;
     itrunc ip;;
     upd_ip ip (set_itype 0);;
     iupdate ip;;
     upd_ip ip (set_ivalid 0);;
     ip_releasesleep ip;;
     acquire_in it_lock set_itlock
   else mret tt);;
  upd_ip ip (fun i => set_iref (i_ref i - 1) i);;
  release_in it_lock set_itlock.

Definition iunlockput (ip : Z) : M fs_st unit := iunlock ip;; iput ip.

Fixpoint ireclaim_loop (fuel : nat) (dev inum : Z) : M fs_st unit :=
  match fuel with
  | O => out_of_fuel
  | S fuel =>
      sb ← gets f_sb;
      if inum <? sb_ninodes sb then
        bp ← on_store (bs_bread dev (IBLOCK inum sb));
        d ← on_store (bs_data bp);
        let dip := rd_dinode d (dinode_off inum) in
        ip ← (if negb (di_type dip =? 0) && (di_nlink dip =? 0) then iget dev inum else mret 0);
        on_store (bs_brelse bp);;
        (if ip =? 0 then mret tt
         else
           on_store bs_begin_op;;
           ilock ip;;
           iunlock ip;;
           iput ip;;
           on_store bs_end_op);;
        ireclaim_loop fuel dev (inum + 1)
      else mret tt
  end.

Definition ireclaim (dev : Z) : M fs_st unit :=
  sb ← gets f_sb; ireclaim_loop (S (Z.to_nat (sb_ninodes sb))) dev 1.

(** [kmalloc] is the allocator's; only a null result matters here. *)
Definition fsinit (kmalloc : Z -> M fs_st Z) (dev : Z) : M fs_st unit :=
  p ← kmalloc 32;
  (if p =? 0 then panic "fsinit: kmalloc sb" else mret tt);;
  readsb dev;;
  sb ← gets f_sb;
  (if negb (sb_magic sb =? FSMAGIC) then panic "invalid file system" else mret tt);;
  on_store (bs_initlog dev sb);;
  ireclaim dev.

Definition iinit (kmalloc : Z -> M fs_st Z) (sizeof_inode : Z) : M fs_st unit :=
  modify (set_itlock (initlock "itable"));;
  p ← kmalloc (sizeof_inode * NINODE);
  (if p =? 0 then panic "itable alloc" else mret tt);;
  modify (set_itable (replicate (Z.to_nat NINODE) zero_inode)).

Definition stati (ip : Z) : M fs_st stat :=
  i ← get_ip ip; mret (mkStat (i_dev i) (i_inum i) (i_type i) (i_nlink i) (i_size i)).

(** [for(tot=0; tot<n; tot+=m, off+=m, dst+=m)] of [readi] *)
Fixpoint readi_loop (fuel : nat) (cout : Z -> list Z -> bool) (ip off n tot : Z) (acc : list Z) : M fs_st (Z * list Z) :=
  match fuel with
  | O => out_of_fuel
  | S fuel =>
      if tot <? n then
        addr ← bmap ip (off / BSIZE);
        if addr =? 0 then mret (tot, acc)
        else
          i ← get_ip ip;
          bp ← on_store (bs_bread (i_dev i) addr);
          let m := Z.min (n - tot) (BSIZE - off mod BSIZE) in
          d ← on_store (bs_data bp);
          let bytes := bytes_from d (off mod BSIZE) m in
          if cout tot bytes then
            on_store (bs_brelse bp);;
            readi_loop fuel cout ip (u32 (off + m)) n (tot + m) (acc ++ bytes)
          else
            on_store (bs_brelse bp);;
            mret (-1, acc)
      else mret (tot, acc)
  end.

Definition readi (cout : Z -> list Z -> bool) (ip off n : Z) : M fs_st (Z * list Z) :=
  i ← get_ip ip;
  if (i_size i <? off) || (u32 (off + n) <? off) then mret (0, [])
  else
    let n := if i_size i <? u32 (off + n) then i_size i - off else n in
    readi_loop (S (Z.to_nat (n / BSIZE + 2))) cout ip off n 0 [].

(** [for(tot=0; tot<n; tot+=m, off+=m, src+=m)] of [writei] *)
Fixpoint writei_loop (fuel : nat) (cin : Z -> Z -> list Z * bool) (ip off n tot : Z) : M fs_st (Z * Z) :=
  match fuel with
  | O => out_of_fuel
  | S fuel =>
      if tot <? n then
        addr ← bmap ip (off / BSIZE);
        if addr =? 0 then mret (tot, off)
        else
          i ← get_ip ip;
          bp ← on_store (bs_bread (i_dev i) addr);
          let m := Z.min (n - tot) (BSIZE - off mod BSIZE) in
          let '(bytes, ok) := cin tot m in
          on_store (bs_store bp (fun d => blit d (off mod BSIZE) bytes));;
          if (ok : bool) then
            on_store (bs_log_write bp);;
            on_store (bs_brelse bp);;
            writei_loop fuel cin ip (u32 (off + m)) n (tot + m)
          else
            on_store (bs_brelse bp);;
            mret (tot, off)
      else mret (tot, off)
  end.

Definition writei (cin : Z -> Z -> list Z * bool) (ip off n : Z) : M fs_st Z :=
  i ← get_ip ip;
  if (i_size i <? off) || (u32 (off + n) <? off) then mret (-1)
  else if MAXFILE * BSIZE <? u32 (off + n) then mret (-1)
  else
    '(tot, off) ← writei_loop (S (Z.to_nat (n / BSIZE + 2))) cin ip off n 0;
    i ← get_ip ip;
    (if i_size i <? off then upd_ip ip (set_isize off) else mret tt);;
    iupdate ip;;
    mret tot.

(** A kernel destination always takes the bytes; a kernel source supplies
    them. *)
Definition to_kernel : Z -> list Z -> bool := fun _ _ => true.
Definition from_kernel (src : list Z) : Z -> Z -> list Z * bool := fun tot m => (bytes_from src tot m, true).

(** ** Directories *)

(** [strncmp(p, q, n)]; a byte past the list is the NUL that ends it. *)
Fixpoint strncmp_bytes (n : nat) (p q : list Z) : Z :=
  match n with
  | O => 0
  | S n =>
      let a := hd 0 p in let b := hd 0 q in
      if negb (a =? 0) && (a =? b) then strncmp_bytes n (tail p) (tail q) else a - b
  end.
Definition namecmp (s t : list Z) : Z := strncmp_bytes (Z.to_nat DIRSIZ) s t.

(** What [strncpy(s, t, n)] stores in the [n] bytes of [s]. *)
Fixpoint strncpy_bytes (n : nat) (t : list Z) : list Z :=
  match n with
  | O => []
  | S n => if hd 0 t =? 0 then 0 :: replicate n 0 else hd 0 t :: strncpy_bytes n (tail t)
  end.

Definition de_inum (de : list Z) : Z := rd16u de 0.
Definition de_name (de : list Z) : list Z := bytes_from de 2 DIRSIZ.
Definition mk_dirent (inum : Z) (name : list Z) : list Z :=
  wr16 (0 :: 0 :: strncpy_bytes (Z.to_nat DIRSIZ) name) 0 inum.

(** The inode found (0 if none) and the offset of its entry. *)
Fixpoint dirlookup_loop (fuel : nat) (dp : Z) (name : list Z) (off : Z) : M fs_st (Z * Z) :=
  match fuel with
  | O => out_of_fuel
  | S fuel =>
      i ← get_ip dp;
      if off <? i_size i then
        '(r, de) ← readi to_kernel dp off sizeof_dirent;
        (if negb (r =? sizeof_dirent) then panic "dirlookup read" else mret tt);;
        if de_inum de =? 0 then dirlookup_loop fuel dp name (off + sizeof_dirent)
        else if namecmp name (de_name de) =? 0 then
          i ← get_ip dp;
          ip ← iget (i_dev i) (de_inum de);
          mret (ip, off)
        else dirlookup_loop fuel dp name (off + sizeof_dirent)
      else mret (0, 0)
  end.

Definition dirlookup (dp : Z) (name : list Z) : M fs_st (Z * Z) :=
  i ← get_ip dp;
  (if negb (i_type i =? T_DIR) then panic "dirlookup not DIR" else mret tt);;
  dirlookup_loop (S (Z.to_nat (i_size i / sizeof_dirent + 1))) dp name 0.

(** The offset of the first empty entry, or the size. *)
Fixpoint dirlink_scan (fuel : nat) (dp off : Z) : M fs_st Z :=
  match fuel with
  | O => out_of_fuel
  | S fuel =>
      i ← get_ip dp;
      if off <? i_size i then
        '(r, de) ← readi to_kernel dp off sizeof_dirent;
        (if negb (r =? sizeof_dirent) then panic "dirlink read" else mret tt);;
        if de_inum de =? 0 then mret off else dirlink_scan fuel dp (off + sizeof_dirent)
      else mret off
  end.

Definition dirlink (dp : Z) (name : list Z) (inum : Z) : M fs_st Z :=
  '(ip, _) ← dirlookup dp name;
  if negb (ip =? 0) then iput ip;; mret (-1)
  else
    i ← get_ip dp;
    off ← dirlink_scan (S (Z.to_nat (i_size i / sizeof_dirent + 1))) dp 0;
    r ← writei (from_kernel (mk_dirent inum name)) dp off sizeof_dirent;
    if negb (r =? sizeof_dirent) then mret (-1) else mret 0.

(** ** Paths *)

Definition slash : Z := 47.

(** [while ( *path == '/') path++;] *)
Fixpoint skip_slashes (path : list Z) : list Z :=
  match path with
  | c :: rest => if c =? slash then skip_slashes rest else path
  | [] => []
  end.

(** [while ( *path != '/' && *path != 0) path++;]: the bytes passed over and
    the rest. *)
Fixpoint skip_name (path : list Z) : list Z * list Z :=
  match path with
  | c :: rest => if c =? slash then ([], path) else let '(s, r) := skip_name rest in (c :: s, r)
  | [] => ([], [])
  end.

(** The rest of the path and the new contents of [name], [None] for 0. *)
Definition skipelem (path name : list Z) : option (list Z * list Z) :=
  let path := skip_slashes path in
  match path with
  | [] => None
  | _ =>
      let '(s, path) := skip_name path in
      let len := Z.of_nat (length s) in
      let name := if DIRSIZ <=? len then blit name 0 (take (Z.to_nat DIRSIZ) s)
                  else blit (blit name 0 s) len [0] in
      Some (skip_slashes path, name)
  end.

Fixpoint namex_loop (fuel : nat) (nameiparent : bool) (ip : Z) (path name : list Z) : M fs_st (Z * list Z) :=
  match fuel with
  | O => out_of_fuel
  | S fuel =>
      match skipelem path name with
      | None => if nameiparent then iput ip;; mret (0, name) else mret (ip, name)
      | Some (path, name) =>
          ilock ip;;
          i ← get_ip ip;
          if negb (i_type i =? T_DIR) then iunlockput ip;; mret (0, name)
          else if nameiparent && (hd 0 path =? 0) then iunlock ip;; mret (ip, name)
          else
            '(next, _) ← dirlookup ip name;
            if next =? 0 then iunlockput ip;; mret (0, name)
            else iunlockput ip;; namex_loop fuel nameiparent next path name
      end
  end.

Definition namex (path : list Z) (nameiparent : bool) (name : list Z) : M fs_st (Z * list Z) :=
  ip ← (if hd 0 path =? slash then iget ROOTDEV ROOTINO else cwd ← gets f_cwd; idup cwd);
  namex_loop (S (length path)) nameiparent ip path name.

Definition namei (path : list Z) : M fs_st Z :=
  '(ip, _) ← namex path false (replicate (Z.to_nat DIRSIZ) 0);
  mret ip.

Definition nameiparent (path name : list Z) : M fs_st (Z * list Z) := namex path true name.

End Fs.
Arguments fs_st T : clear implicits.
