(* ===== verification/FsBytes.v ===== *)
(** * Bytes of a block: bitmaps, arrays, inodes

    Reading back what the accessors of Fs.v store, and that a store leaves
    the bytes outside its range alone. *)

From Stdlib Require Import ZArith Lia Bool String.
From stdpp Require Import base gmap list strings functions.
From S2P Require Import Prelude Mem Spinlock Sleeplock Bio Log LogProof BlockStore Fs.

(** ** Bitmaps *)

Lemma bit_free_testbit d bi : 0 <= bi -> bit_free d bi = negb (Z.testbit (byte_at d (bi / 8)) (bi mod 8)).
Proof.
  intros Hb. unfold bit_free. set (x := byte_at d (bi / 8)). assert (0 <= bi mod 8 < 8) as Hm by (apply Z.mod_pos_bound; lia).
  set (k := bi mod 8) in *. destruct (Z.testbit x k) eqn:E; simpl.
  - apply Z.eqb_neq. intros H0. assert (Z.testbit (Z.land x (Z.shiftl 1 k)) k = false) as Hf by (rewrite H0; apply Z.bits_0).
    rewrite Z.land_spec, E, Z.shiftl_spec, Z.sub_diag in Hf by lia. done.
  - apply Z.eqb_eq, Z.bits_inj'. intros j Hj. rewrite Z.land_spec, Z.bits_0, Z.shiftl_spec by lia.
    destruct (decide (j = k)) as [->|Hne]; [by rewrite E|].
    destruct (decide (j < k)); [by rewrite (Z.testbit_neg_r 1), andb_false_r by lia|].
    rewrite (Z.bits_above_log2 1), andb_false_r; [done|lia|simpl; lia].
Qed.

Lemma testbit_mod256 x k : 0 <= k < 8 -> Z.testbit (x mod 256) k = Z.testbit x k.
Proof. intros. change 256 with (2 ^ 8). by rewrite Z.mod_pow2_bits_low by lia. Qed.

Lemma testbit_one k j : 0 <= k -> 0 <= j -> Z.testbit (Z.shiftl 1 k) j = bool_decide (j = k).
Proof.
  intros Hk Hj. rewrite Z.shiftl_spec by lia. destruct (decide (j = k)) as [->|Hne].
  - by rewrite Z.sub_diag, bool_decide_eq_true_2.
  - rewrite bool_decide_eq_false_2 by done. destruct (decide (j < k)); [apply Z.testbit_neg_r; lia|].
    apply Z.bits_above_log2; [lia|simpl; lia].
Qed.

Lemma bit_free_set d bi bj :
  0 <= bi -> bi / 8 < Z.of_nat (length d) -> 0 <= bj ->
  bit_free (set_bit d bi) bj = bit_free d bj && negb (bool_decide (bi = bj)).
Proof.
  intros Hi Hl Hj. rewrite !bit_free_testbit by done. unfold set_bit. rewrite byte_at_put by zdiv.
  assert (0 <= bj mod 8 < 8 /\ 0 <= bi mod 8 < 8) as [Hmj Hmi] by (split; apply Z.mod_pos_bound; lia).
  case_decide as E.
  - rewrite testbit_mod256, Z.lor_spec, testbit_one by lia. rewrite E.
    rewrite (bool_decide_ext (bj mod 8 = bi mod 8) (bi = bj)) by (split; [zdiv|congruence]).
    by destruct (Z.testbit _ _), (bool_decide _).
  - rewrite bool_decide_eq_false_2 by congruence. by rewrite andb_true_r.
Qed.

Lemma bit_free_clear d bi bj :
  0 <= bi -> bi / 8 < Z.of_nat (length d) -> 0 <= bj ->
  bit_free (clear_bit d bi) bj = bit_free d bj || bool_decide (bi = bj).
Proof.
  intros Hi Hl Hj. rewrite !bit_free_testbit by done. unfold clear_bit. rewrite byte_at_put by zdiv.
  assert (0 <= bj mod 8 < 8 /\ 0 <= bi mod 8 < 8) as [Hmj Hmi] by (split; apply Z.mod_pos_bound; lia).
  case_decide as E.
  - rewrite testbit_mod256, Z.land_spec, Z.lnot_spec, testbit_one by lia. rewrite E.
    rewrite (bool_decide_ext (bj mod 8 = bi mod 8) (bi = bj)) by (split; [zdiv|congruence]).
    by destruct (Z.testbit _ _), (bool_decide _).
  - rewrite bool_decide_eq_false_2 by congruence. by rewrite orb_false_r.
Qed.

Lemma length_set_bit d bi : length (set_bit d bi) = length d.
Proof. apply length_put_byte. Qed.
Lemma length_clear_bit d bi : length (clear_bit d bi) = length d.
Proof. apply length_put_byte. Qed.

(** ** 32-bit and 16-bit fields *)

Lemma rd32u_wr32 d off v :
  0 <= off -> off + 4 <= Z.of_nat (length d) -> rd32u (wr32 d off v) off = u32 v.
Proof.
  intros Ho Hl. unfold rd32u. rewrite !byte_at_wr32 by lia. repeat (case_decide; try lia). unfold u32. zdiv.
Qed.

Lemma rd32u_wr32_ne d off off' v :
  0 <= off -> off + 4 <= Z.of_nat (length d) -> 0 <= off' -> off + 4 <= off' \/ off' + 4 <= off ->
  rd32u (wr32 d off v) off' = rd32u d off'.
Proof.
  intros Ho Hl Ho' Hd. unfold rd32u. rewrite !byte_at_wr32 by lia. repeat (rewrite decide_False by lia). done.
Qed.

Lemma length_wr16 d off v : length (wr16 d off v) = length d.
Proof. unfold wr16. by rewrite !length_put_byte. Qed.

Lemma byte_at_wr16 d off v j :
  0 <= off -> off + 2 <= Z.of_nat (length d) -> 0 <= j ->
  byte_at (wr16 d off v) j =
    if decide (j = off) then v mod 256 else if decide (j = off + 1) then v / 256 mod 256 else byte_at d j.
Proof.
  intros Ho Hl Hj. unfold wr16. rewrite !byte_at_put by (rewrite ?length_put_byte; lia).
  repeat case_decide; try lia; done.
Qed.

Lemma rd16u_wr16 d off v : 0 <= off -> off + 2 <= Z.of_nat (length d) -> rd16u (wr16 d off v) off = v mod 2 ^ 16.
Proof. intros Ho Hl. unfold rd16u. rewrite !byte_at_wr16 by lia. repeat (case_decide; try lia). zdiv. Qed.

Lemma s16_mod v : s16 (v mod 2 ^ 16) = s16 v.
Proof. unfold s16. by rewrite Zplus_mod_idemp_l. Qed.

Lemma rd16_wr16 d off v : 0 <= off -> off + 2 <= Z.of_nat (length d) -> rd16 (wr16 d off v) off = s16 v.
Proof. intros. unfold rd16. by rewrite rd16u_wr16, s16_mod. Qed.

(** ** Ranges of bytes *)

(** [d] and [d'] agree on the bytes outside [off, off + n). *)
Definition same_outside (off n : Z) (d d' : list Z) : Prop :=
  length d' = length d /\ forall j, 0 <= j -> j < off \/ off + n <= j -> byte_at d' j = byte_at d j.

#[export] Instance same_outside_preorder off n : PreOrder (same_outside off n).
Proof.
  split; [by intros d|]. intros d1 d2 d3 [L1 H1] [L2 H2]. split; [congruence|]. intros j Hj Ho.
  by rewrite H2, H1.
Qed.

Lemma same_outside_weaken off n off' n' d d' :
  same_outside off n d d' -> off' <= off -> off + n <= off' + n' -> same_outside off' n' d d'.
Proof. intros [L H] ? ?. split; [done|]. intros j Hj Ho. apply H; lia. Qed.

Lemma wr16_outside d off v : 0 <= off -> off + 2 <= Z.of_nat (length d) -> same_outside off 2 d (wr16 d off v).
Proof.
  intros. split; [apply length_wr16|]. intros j Hj Ho. rewrite byte_at_wr16 by lia. by repeat (rewrite decide_False by lia).
Qed.

Lemma wr32_outside d off v : 0 <= off -> off + 4 <= Z.of_nat (length d) -> same_outside off 4 d (wr32 d off v).
Proof.
  intros. split; [apply length_wr32|]. intros j Hj Ho. rewrite byte_at_wr32 by lia. by repeat (rewrite decide_False by lia).
Qed.

Lemma rd16_outside off n d d' i :
  same_outside off n d d' -> 0 <= i -> i + 2 <= off \/ off + n <= i -> rd16 d' i = rd16 d i.
Proof. intros [_ H] Hi Ho. unfold rd16, rd16u. by rewrite !H by lia. Qed.

Lemma rd32u_outside off n d d' i :
  same_outside off n d d' -> 0 <= i -> i + 4 <= off \/ off + n <= i -> rd32u d' i = rd32u d i.
Proof. intros [_ H] Hi Ho. unfold rd32u. by rewrite !H by lia. Qed.

Lemma length_blit src : forall d off, length (blit d off src) = length d.
Proof. induction src as [|v src IH]; intros d off; simpl; [done|]. by rewrite IH, length_insert. Qed.

Lemma byte_at_blit src : forall d off j,
  0 <= off -> off + Z.of_nat (length src) <= Z.of_nat (length d) -> 0 <= j ->
  byte_at (blit d off src) j =
    if decide (off <= j < off + Z.of_nat (length src)) then byte_at src (j - off) else byte_at d j.
Proof.
  induction src as [|v src IH]; intros d off j Ho Hl Hj; cbn [blit length] in *; [by rewrite decide_False by lia|].
  rewrite IH by (rewrite ?length_insert; lia). destruct (decide (j = off)) as [->|Hne].
  - rewrite decide_False, decide_True by lia. unfold byte_at. rewrite Z.sub_diag, nth_lookup.
    by rewrite list_lookup_insert_eq by lia.
  - case_decide as E; [rewrite decide_True by lia|rewrite decide_False by lia].
    + unfold byte_at. by replace (Z.to_nat (j - off)) with (S (Z.to_nat (j - (off + 1)))) by lia.
    + unfold byte_at. rewrite !nth_lookup, list_lookup_insert_ne by lia. done.
Qed.

Lemma blit_outside d off src :
  0 <= off -> off + Z.of_nat (length src) <= Z.of_nat (length d) ->
  same_outside off (Z.of_nat (length src)) d (blit d off src).
Proof.
  intros. split; [apply length_blit|]. intros j Hj Ho. rewrite byte_at_blit by lia. by rewrite decide_False by lia.
Qed.

Lemma length_bytes_from d off n : length (bytes_from d off n) = Z.to_nat n.
Proof. unfold bytes_from. by rewrite length_fmap, length_seqZ. Qed.

Lemma byte_at_bytes_from d off n j : 0 <= j < n -> byte_at (bytes_from d off n) j = byte_at d (off + j).
Proof.
  intros Hj. unfold bytes_from. unfold byte_at at 1. rewrite nth_lookup, list_lookup_fmap.
  assert (seqZ off n !! Z.to_nat j = Some (off + j)) as ->; [|done]. apply lookup_seqZ. lia.
Qed.

(** ** Arrays and inodes *)

Lemma length_rd_array d off n : length (rd_array d off n) = n.
Proof. unfold rd_array. rewrite length_fmap, length_seqZ. lia. Qed.

Lemma rd_array_lookup d off n i : (i < n)%nat -> rd_array d off n !! i = Some (rd32u d (off + 4 * Z.of_nat i)).
Proof.
  intros Hi. unfold rd_array. rewrite list_lookup_fmap.
  assert (seqZ 0 (Z.of_nat n) !! i = Some (0 + Z.of_nat i)) as ->; [apply lookup_seqZ; lia|done].
Qed.

Lemma wr_array_outside l : forall d off,
  0 <= off -> off + 4 * Z.of_nat (length l) <= Z.of_nat (length d) ->
  same_outside off (4 * Z.of_nat (length l)) d (wr_array d off l).
Proof.
  induction l as [|v l IH]; intros d off Ho Hl; cbn [wr_array length] in *; [done|].
  assert (same_outside off 4 d (wr32 d off v)) as H1 by (apply wr32_outside; lia).
  etrans; [eapply same_outside_weaken; [exact H1|lia|lia]|].
  eapply same_outside_weaken; [apply IH; [lia|rewrite length_wr32; lia]|lia|lia].
Qed.

Lemma rd_wr_array l : forall d off i v,
  0 <= off -> off + 4 * Z.of_nat (length l) <= Z.of_nat (length d) -> l !! i = Some v ->
  rd32u (wr_array d off l) (off + 4 * Z.of_nat i) = u32 v.
Proof.
  induction l as [|w l IH]; intros d off i v Ho Hl Hi; cbn [wr_array length] in *; [done|]. destruct i as [|i].
  - injection Hi as ->. change (Z.of_nat 0) with 0. rewrite Z.mul_0_r, Z.add_0_r.
    rewrite (rd32u_outside (off + 4) (4 * Z.of_nat (length l)) (wr32 d off v)); [|apply wr_array_outside; rewrite ?length_wr32; lia|lia|lia].
    apply rd32u_wr32; lia.
  - replace (off + 4 * Z.of_nat (S i)) with (off + 4 + 4 * Z.of_nat i) by lia. apply IH; [lia|rewrite length_wr32; lia|done].
Qed.

(** An inode whose fields fit their C types. *)
Record dinode_ok (di : dinode) : Prop := {
  dk_type : -2 ^ 15 <= di_type di < 2 ^ 15;
  dk_major : -2 ^ 15 <= di_major di < 2 ^ 15;
  dk_minor : -2 ^ 15 <= di_minor di < 2 ^ 15;
  dk_nlink : -2 ^ 15 <= di_nlink di < 2 ^ 15;
  dk_size : 0 <= di_size di < 2 ^ 32;
  dk_len : length (di_addrs di) = 13%nat;
  dk_addrs : forall x, x ∈ di_addrs di -> 0 <= x < 2 ^ 32
}.

Lemma s16_small v : -2 ^ 15 <= v < 2 ^ 15 -> s16 v = v.
Proof. intros. unfold s16. rewrite Z.mod_small; lia. Qed.

Lemma wr_dinode_outside d off di :
  0 <= off -> off + sizeof_dinode <= Z.of_nat (length d) -> length (di_addrs di) = 13%nat ->
  same_outside off sizeof_dinode d (wr_dinode d off di).
Proof.
  unfold sizeof_dinode. intros Ho Hl Hlen. unfold wr_dinode.
  repeat (etrans; [|eapply same_outside_weaken; [first [apply wr_array_outside|apply wr32_outside|apply wr16_outside];
    rewrite ?length_wr32, ?length_wr16, ?Hlen; lia|lia|rewrite ?Hlen; lia]]). done.
Qed.

Lemma rd_wr_dinode d off di :
  0 <= off -> off + sizeof_dinode <= Z.of_nat (length d) -> dinode_ok di -> rd_dinode (wr_dinode d off di) off = di.
Proof.
  unfold sizeof_dinode. intros Ho Hl [D1 D2 D3 D4 D5 D6 D7]. unfold rd_dinode, wr_dinode.
  set (e1 := wr16 d off _). set (e2 := wr16 e1 _ _). set (e3 := wr16 e2 _ _). set (e4 := wr16 e3 _ _). set (e5 := wr32 e4 _ _).
  assert (length e1 = length d /\ length e2 = length d /\ length e3 = length d /\ length e4 = length d /\ length e5 = length d)
    as (L1 & L2 & L3 & L4 & L5) by (unfold e5, e4, e3, e2, e1; by rewrite ?length_wr32, !length_wr16).
  assert (same_outside (off + 12) 52 e5 (wr_array e5 (off + 12) (di_addrs di))) as O6.
  { change 52 with (4 * Z.of_nat 13). rewrite <- D6. apply wr_array_outside; rewrite ?D6, ?L5; lia. }
  assert (same_outside (off + 8) 4 e4 e5) as O5 by (apply wr32_outside; rewrite ?L4; lia).
  assert (same_outside (off + 6) 2 e3 e4) as O4 by (apply wr16_outside; rewrite ?L3; lia).
  assert (same_outside (off + 4) 2 e2 e3) as O3 by (apply wr16_outside; rewrite ?L2; lia).
  assert (same_outside (off + 2) 2 e1 e2) as O2 by (apply wr16_outside; rewrite ?L1; lia).
  rewrite (rd16_outside _ _ _ _ off O6), (rd16_outside _ _ _ _ (off + 2) O6), (rd16_outside _ _ _ _ (off + 4) O6),
    (rd16_outside _ _ _ _ (off + 6) O6), (rd32u_outside _ _ _ _ (off + 8) O6) by lia.
  rewrite (rd16_outside _ _ _ _ off O5), (rd16_outside _ _ _ _ (off + 2) O5), (rd16_outside _ _ _ _ (off + 4) O5),
    (rd16_outside _ _ _ _ (off + 6) O5) by lia.
  rewrite (rd16_outside _ _ _ _ off O4), (rd16_outside _ _ _ _ (off + 2) O4), (rd16_outside _ _ _ _ (off + 4) O4) by lia.
  rewrite (rd16_outside _ _ _ _ off O3), (rd16_outside _ _ _ _ (off + 2) O3) by lia.
  rewrite (rd16_outside _ _ _ _ off O2) by lia.
  unfold e5, e4, e3, e2. unfold e1 at 1. rewrite rd32u_wr32, !rd16_wr16 by (fold e1 e2 e3 e4; rewrite ?L1, ?L2, ?L3, ?L4; lia).
  fold e1 e2 e3 e4 e5. rewrite !s16_small, u32_small by lia. destruct di as [dt dm dn dl ds da]. simpl in *. f_equal.
  apply list_eq. intros i. destruct (decide (i < 13)%nat) as [Hi|Hi].
  - destruct (lookup_lt_is_Some_2 da i) as [v Hv]; [lia|]. rewrite rd_array_lookup, Hv by done. f_equal.
    rewrite (rd_wr_array da _ _ i v) by (rewrite ?L5; lia || done). apply u32_small, D7. by eapply list_elem_of_lookup_2.
  - rewrite !lookup_ge_None_2; [done|lia|rewrite length_rd_array; lia].
Qed.
