(* ===== verification/FsAlloc.v ===== *)
(** * The block allocator of the file system

    [fs_wf] is the layout the superblock promises: inode blocks, bitmap and
    data blocks in that order, every block present, every block before the
    data area marked in the bitmap.  [used sb a b] is the bitmap bit of block
    [b].  The rules below say exactly what [balloc] and [bfree] do to the
    blocks, whatever block store they run on. *)

From Stdlib Require Import ZArith Lia Bool String.
From stdpp Require Import base gmap list strings functions.
From S2P Require Import Prelude Mem Spinlock Sleeplock Bio BioProof Log LogProof BlockStore Fs FsBytes.

Definition blk (a : blocks) (b : Z) : list Z := default [] (a !! b).
Definition used (sb : superblock) (a : blocks) (b : Z) : bool := negb (bit_free (blk a (BBLOCK b sb)) (b mod BPB)).
(** The first data block. *)
Definition dstart (sb : superblock) : Z := sb_size sb - sb_nblocks sb.

Section Alloc.
Context {T : Type} `{HM : HasMach T} {BO : BlockOps T} {BS : BlockStore T}.

Record layout (sb : superblock) : Prop := {
  ly_size : 0 < sb_size sb < 2 ^ 31 - BPB;
  ly_data : 2 <= dstart sb <= sb_size sb;
  ly_ninodes : 0 <= sb_ninodes sb < 2 ^ 31;
  ly_inode : 2 <= sb_inodestart sb /\ sb_inodestart sb + (sb_ninodes sb - 1) / IPB < sb_bmapstart sb;
  ly_bmap : sb_bmapstart sb + (sb_size sb - 1) / BPB < dstart sb;
  ly_bmap0 : 0 <= sb_bmapstart sb;
  ly_block : forall b, sb_inodestart sb <= b < sb_size sb -> bs_block b
}.

Record fs_wf (sb : superblock) (a : blocks) : Prop := {
  fw_layout : layout sb;
  fw_len : forall b, 0 <= b < sb_size sb -> exists d, a !! b = Some d /\ length d = 1024%nat;
  fw_meta : forall b, 0 <= b < dstart sb -> used sb a b = true
}.

Lemma BBLOCK_range sb b : layout sb -> 0 <= b < sb_size sb ->
  BBLOCK b sb = b / BPB + sb_bmapstart sb /\ sb_bmapstart sb <= BBLOCK b sb < dstart sb.
Proof.
  intros [L1 L2 L3 L4 L5 L6 L7] Hb. unfold BBLOCK. unfold BPB, BSIZE in *.
  assert (0 <= b / (1024 * 8) <= (sb_size sb - 1) / (1024 * 8)) as Hd by (split; [zdiv|apply Z.div_le_mono; lia]).
  rewrite u32_small by lia. lia.
Qed.

Lemma IBLOCK_range sb i : layout sb -> 0 <= i < sb_ninodes sb ->
  IBLOCK i sb = i / IPB + sb_inodestart sb /\ sb_inodestart sb <= IBLOCK i sb < sb_bmapstart sb.
Proof.
  intros [L1 L2 L3 L4 L5 L6 L7] Hb. unfold IBLOCK. change IPB with 16 in *.
  assert (0 <= i / 16 <= (sb_ninodes sb - 1) / 16) as Hd by (split; [zdiv|apply Z.div_le_mono; lia]).
  assert (0 <= (sb_size sb - 1) / BPB) by (apply Z.div_pos; [lia|done]).
  unfold BPB, BSIZE in *. rewrite u32_small by lia. lia.
Qed.

(** Inodes, then the bitmap, then data. *)
Lemma ly_order sb : layout sb -> sb_inodestart sb <= sb_bmapstart sb < dstart sb.
Proof.
  intros [L1 L2 L3 [_ L4] L5 L6 L7]. change IPB with 16 in L4. assert (-1 <= (sb_ninodes sb - 1) / 16) by zdiv.
  assert (0 <= (sb_size sb - 1) / BPB) by (apply Z.div_pos; [lia|done]). lia.
Qed.

Lemma blk_some (a : blocks) b d : a !! b = Some d -> blk a b = d.
Proof. unfold blk. by intros ->. Qed.

Lemma fw_blk sb a b : fs_wf sb a -> 0 <= b < sb_size sb -> a !! b = Some (blk a b) /\ length (blk a b) = 1024%nat.
Proof. intros Hw Hb. destruct (fw_len _ _ Hw b Hb) as (d & Hd & Hl). unfold blk. by rewrite Hd. Qed.

Lemma wf_block sb a b : fs_wf sb a -> sb_inodestart sb <= b < sb_size sb -> bs_block b.
Proof. intros Hw Hb. by apply (ly_block _ (fw_layout _ _ Hw)). Qed.

(** Bitmap bits after a change to one block. *)
Lemma used_insert_ne sb a b c d : BBLOCK b sb <> c -> used sb (<[c := d]> a) b = used sb a b.
Proof. intros Hne. unfold used, blk. by rewrite lookup_insert_ne. Qed.

Lemma BPB_bit b : 0 <= b -> 0 <= b mod BPB < BPB /\ 0 <= b mod BPB / 8 < 1024.
Proof. intros. unfold BPB, BSIZE. split; [zdiv|]. pose proof (Z.mod_pos_bound b (1024 * 8)). zdiv. Qed.

Lemma same_bit sb b c : layout sb -> 0 <= b < sb_size sb -> 0 <= c < sb_size sb ->
  BBLOCK b sb = BBLOCK c sb -> (b mod BPB = c mod BPB <-> b = c).
Proof.
  intros L Hb Hc E. rewrite (proj1 (BBLOCK_range _ _ L Hb)), (proj1 (BBLOCK_range _ _ L Hc)) in E.
  unfold BPB, BSIZE in *. split; [|congruence]. zdiv.
Qed.

Lemma used_set sb a r b : fs_wf sb a -> 0 <= r < sb_size sb -> 0 <= b < sb_size sb ->
  used sb (<[BBLOCK r sb := set_bit (blk a (BBLOCK r sb)) (r mod BPB)]> a) b = used sb a b || bool_decide (r = b).
Proof.
  intros Hw Hr Hb. pose proof (fw_layout _ _ Hw) as L. destruct (BBLOCK_range _ _ L Hr) as [_ Rr].
  destruct (fw_blk _ _ (BBLOCK r sb) Hw) as [_ Hl]; [pose proof (ly_bmap0 _ L); pose proof (ly_data _ L); lia|].
  destruct (decide (BBLOCK r sb = BBLOCK b sb)) as [E|Hne].
  - unfold used at 1, blk at 1. rewrite E, lookup_insert_eq. simpl. destruct (BPB_bit r) as [? ?]; [lia|].
    destruct (BPB_bit b) as [? ?]; [lia|]. rewrite <- E, bit_free_set by (rewrite ?Hl; lia).
    rewrite E. unfold used. rewrite (bool_decide_ext _ _ (same_bit _ _ _ L Hr Hb E)).
    by destruct (bit_free _ _), (bool_decide _).
  - rewrite used_insert_ne by congruence. rewrite bool_decide_eq_false_2 by congruence. by rewrite orb_false_r.
Qed.

Lemma used_clear sb a r b : fs_wf sb a -> 0 <= r < sb_size sb -> 0 <= b < sb_size sb ->
  used sb (<[BBLOCK r sb := clear_bit (blk a (BBLOCK r sb)) (r mod BPB)]> a) b = used sb a b && negb (bool_decide (r = b)).
Proof.
  intros Hw Hr Hb. pose proof (fw_layout _ _ Hw) as L. destruct (BBLOCK_range _ _ L Hr) as [_ Rr].
  destruct (fw_blk _ _ (BBLOCK r sb) Hw) as [_ Hl]; [pose proof (ly_bmap0 _ L); pose proof (ly_data _ L); lia|].
  destruct (decide (BBLOCK r sb = BBLOCK b sb)) as [E|Hne].
  - unfold used at 1, blk at 1. rewrite E, lookup_insert_eq. simpl. destruct (BPB_bit r) as [? ?]; [lia|].
    destruct (BPB_bit b) as [? ?]; [lia|]. rewrite <- E, bit_free_clear by (rewrite ?Hl; lia).
    rewrite E. unfold used. rewrite (bool_decide_ext _ _ (same_bit _ _ _ L Hr Hb E)).
    by destruct (bit_free _ _), (bool_decide _).
  - rewrite used_insert_ne by congruence. rewrite bool_decide_eq_false_2 by congruence. by rewrite andb_true_r.
Qed.

(** ** Rules for the calls on the store *)

Lemma wp_on_store {X} (c : M T X) Q (s : fs_st T) :
  wp c (fun r t => Q r (set_store t s)) (f_store s) -> wp (on_store c) Q s.
Proof. apply wp_zoom. Qed.

(** Only the store has changed, by a call of the current process. *)
Definition store_only (s s' : fs_st T) : Prop := exists t, s' = set_store t s /\ bs_same (f_store s) t.

#[export] Instance store_only_preorder : PreOrder store_only.
Proof.
  split.
  - intros s. exists (f_store s). split; [by destruct s|done].
  - intros s1 s2 s3 (t & -> & H1) (t' & -> & H2). exists t'. split; [done|]. by etrans.
Qed.

(** A transaction after which the blocks [Tn] are torn. *)
Definition torn_txn (Tn : gset Z) (s : fs_st T) (a : blocks) (H : held) (W : gset Z) : Prop := bs_txn Tn (f_store s) a H W.
Definition txn (s : fs_st T) (a : blocks) (H : held) (W : gset Z) : Prop := torn_txn ∅ s a H W.

Lemma wp_torn_bread Tn s a H W b Q :
  torn_txn Tn s a H W -> bs_block b -> b ∉ Tn -> is_Some (a !! b) -> not_held H b -> (size H < bs_handles)%nat ->
  (forall x s', torn_txn Tn s' a (<[x := (b, false)]> H) W -> H !! x = None -> store_only s s' -> Q x s') ->
  wp (on_store (bs_bread ROOTDEV b)) Q s.
Proof.
  intros Ht Hb Hn0 Ha Hn Hs HQ. apply wp_on_store. eapply bs_bread_ok; [exact Ht|done|done|done|done|done|].
  intros x t Ht' Hx Hsm. apply HQ; [done|done|]. by exists t.
Qed.

Lemma wp_torn_data Tn s a H W x b u Q :
  torn_txn Tn s a H W -> H !! x = Some (b, u) -> is_Some (a !! b) -> Q (blk a b) s -> wp (on_store (bs_data x)) Q s.
Proof.
  intros Ht Hx [d Ha] HQ. apply wp_on_store. eapply bs_data_ok; [exact Ht|done|done|]. rewrite (blk_some _ _ _ Ha) in HQ.
  by destruct s.
Qed.

Lemma wp_torn_brelse Tn s a H W x b u Q :
  torn_txn Tn s a (<[x := (b, u)]> H) W -> H !! x = None -> (u = true -> b ∈ W) ->
  (forall s', torn_txn Tn s' a H W -> store_only s s' -> Q tt s') ->
  wp (on_store (bs_brelse x)) Q s.
Proof.
  intros Ht Hx Hu HQ. apply wp_on_store. eapply bs_brelse_ok; [exact Ht|apply lookup_insert_eq|done|].
  intros t Ht' Hsm. apply HQ; [|by exists t]. by rewrite delete_insert_id in Ht'.
Qed.

(** [... bp->data changed by f ...; log_write(bp);] *)
Lemma wp_torn_store_log Tn s a H W x b f (Q : unit -> fs_st T -> Prop) :
  torn_txn Tn s a (<[x := (b, false)]> H) W -> is_Some (a !! b) -> Z.of_nat (size W) < LOGBLOCKS ->
  (forall s', torn_txn Tn s' (<[b := f (blk a b)]> a) (<[x := (b, false)]> H) ({[b]} ∪ W) -> store_only s s' -> Q tt s') ->
  wp (on_store (bs_store x f)) (fun _ => wp (on_store (bs_log_write x)) Q) s.
Proof.
  intros Ht [d Ha] Hs HQ. rewrite (blk_some _ _ _ Ha) in HQ. apply wp_on_store.
  eapply bs_store_ok; [exact Ht|apply lookup_insert_eq|exact Ha|]. intros t1 Ht1 Hs1. rewrite insert_insert_eq in Ht1.
  apply wp_on_store. cbn [f_store set_store]. eapply bs_log_write_ok; [exact Ht1|apply lookup_insert_eq|done|]. intros t2 Ht2 Hs2.
  rewrite insert_insert_eq in Ht2. apply (HQ (set_store t2 s)); [exact Ht2|]. exists t2. split; [done|]. by etrans.
Qed.

(** The whole of it, for a buffer nobody else needs. *)
Lemma wp_torn_finish Tn s a H W x b f (Q : unit -> fs_st T -> Prop) :
  torn_txn Tn s a (<[x := (b, false)]> H) W -> H !! x = None -> is_Some (a !! b) -> Z.of_nat (size W) < LOGBLOCKS ->
  (forall s', torn_txn Tn s' (<[b := f (blk a b)]> a) H ({[b]} ∪ W) -> store_only s s' -> Q tt s') ->
  wp (on_store (bs_store x f);; on_store (bs_log_write x);; on_store (bs_brelse x)) Q s.
Proof.
  intros Ht Hx Ha Hs HQ. apply wp_bind. eapply wp_mono; [eapply wp_torn_store_log; [exact Ht|done|done|]|].
  - intros s1 Ht1 Hs1. pattern tt, s1. instantiate (1 := fun _ s1 => wp (on_store (bs_brelse x)) Q s1). cbn beta.
    eapply wp_torn_brelse; [exact Ht1|done|done|]. intros s2 Ht2 Hs2. apply HQ; [done|by etrans].
  - intros [] s1 Hw. apply wp_bind. eapply wp_mono; [exact Hw|]. by intros [] s2.
Qed.

(** The same with no block torn. *)
Lemma wp_fs_bread s a H W b Q :
  txn s a H W -> bs_block b -> is_Some (a !! b) -> not_held H b -> (size H < bs_handles)%nat ->
  (forall x s', txn s' a (<[x := (b, false)]> H) W -> H !! x = None -> store_only s s' -> Q x s') ->
  wp (on_store (bs_bread ROOTDEV b)) Q s.
Proof. intros Ht Hb. apply (wp_torn_bread ∅ s a H W b Q Ht Hb). set_solver. Qed.

Lemma wp_fs_data s a H W x b u Q :
  txn s a H W -> H !! x = Some (b, u) -> is_Some (a !! b) -> Q (blk a b) s -> wp (on_store (bs_data x)) Q s.
Proof. apply wp_torn_data. Qed.

Lemma wp_fs_brelse s a H W x b Q :
  txn s a (<[x := (b, false)]> H) W -> H !! x = None ->
  (forall s', txn s' a H W -> store_only s s' -> Q tt s') ->
  wp (on_store (bs_brelse x)) Q s.
Proof. intros Ht Hx. by apply (wp_torn_brelse ∅ s a H W x b false). Qed.

Lemma wp_fs_store_log s a H W x b f (Q : unit -> fs_st T -> Prop) :
  txn s a (<[x := (b, false)]> H) W -> is_Some (a !! b) -> Z.of_nat (size W) < LOGBLOCKS ->
  (forall s', txn s' (<[b := f (blk a b)]> a) (<[x := (b, false)]> H) ({[b]} ∪ W) -> store_only s s' -> Q tt s') ->
  wp (on_store (bs_store x f)) (fun _ => wp (on_store (bs_log_write x)) Q) s.
Proof. apply (wp_torn_store_log ∅). Qed.

Lemma wp_fs_finish s a H W x b f (Q : unit -> fs_st T -> Prop) :
  txn s a (<[x := (b, false)]> H) W -> H !! x = None -> is_Some (a !! b) -> Z.of_nat (size W) < LOGBLOCKS ->
  (forall s', txn s' (<[b := f (blk a b)]> a) H ({[b]} ∪ W) -> store_only s s' -> Q tt s') ->
  wp (on_store (bs_store x f);; on_store (bs_log_write x);; on_store (bs_brelse x)) Q s.
Proof. apply (wp_torn_finish ∅). Qed.

Lemma wp_fs_commit {X} s a H W x b f (k : M (fs_st T) X) Q :
  txn s a (<[x := (b, false)]> H) W -> H !! x = None -> is_Some (a !! b) -> Z.of_nat (size W) < LOGBLOCKS ->
  (forall s', txn s' (<[b := f (blk a b)]> a) H ({[b]} ∪ W) -> store_only s s' -> wp k Q s') ->
  wp (on_store (bs_store x f);; on_store (bs_log_write x);; on_store (bs_brelse x);; k) Q s.
Proof.
  intros Ht Hx Ha Hs HQ. apply wp_seq3. eapply wp_fs_finish; eauto.
Qed.

(** ** balloc and bfree *)

(** The buffers held while allocating are of data blocks in use. *)
Definition held_data (sb : superblock) (a : blocks) (H : held) : Prop :=
  forall x c u, H !! x = Some (c, u) -> dstart sb <= c < sb_size sb /\ used sb a c = true.

Definition zero_blk : list Z := replicate (Z.to_nat BSIZE) 0.

Lemma wp_bzero s a H W b Q :
  txn s a H W -> bs_block b -> is_Some (a !! b) -> not_held H b -> (size H < bs_handles)%nat ->
  Z.of_nat (size W) < LOGBLOCKS ->
  (forall s', txn s' (<[b := zero_blk]> a) H ({[b]} ∪ W) -> store_only s s' -> Q tt s') ->
  wp (bzero ROOTDEV b) Q s.
Proof.
  intros Ht Hb Ha Hn Hh Hs HQ. unfold bzero. wp_step. eapply wp_fs_bread; try done. intros x s1 Ht1 Hx Hs1. cbn beta.
  eapply (wp_fs_finish s1); [exact Ht1|done|done|done|]. intros s2 Ht2 Hs2. apply HQ; [done|by etrans].
Qed.

Lemma balloc_scan_some fuel : forall d b bi size k,
  balloc_scan fuel d b bi size = Some (Some k) ->
  bi <= k < BPB /\ b + k < size /\ bit_free d k = true /\ forall j, bi <= j < k -> bit_free d j = false.
Proof.
  induction fuel as [|fuel IH]; intros d b bi size k; simpl; [done|].
  destruct (bi <? BPB) eqn:E1; simpl; [|done]. destruct (b + bi <? size) eqn:E2; simpl; [|done].
  destruct (bit_free d bi) eqn:E3.
  - intros [= <-]. apply Z.ltb_lt in E1, E2. repeat split; try lia. done.
  - intros (H1 & H2 & H3 & H4)%IH. repeat split; try lia; [done|]. intros j Hj. destruct (decide (j = bi)) as [->|]; [done|].
    apply H4. lia.
Qed.

Lemma balloc_scan_none fuel : forall d b bi size,
  balloc_scan fuel d b bi size = Some None ->
  forall j, bi <= j < BPB -> b + j < size -> bit_free d j = false.
Proof.
  induction fuel as [|fuel IH]; intros d b bi size; simpl; [done|].
  destruct (bi <? BPB) eqn:E1; simpl; [|intros _ j Hj; lia]. destruct (b + bi <? size) eqn:E2; simpl; [|intros _ j Hj; lia].
  destruct (bit_free d bi) eqn:E3; [done|]. intros H j Hj Hs. destruct (decide (j = bi)) as [->|]; [done|].
  apply (IH _ _ _ _ H); lia.
Qed.

Lemma balloc_scan_total fuel d b bi size :
  bi <= BPB -> BPB < bi + Z.of_nat fuel -> exists r, balloc_scan fuel d b bi size = Some r.
Proof.
  revert bi. induction fuel as [|fuel IH]; intros bi Hb Hf; cbn [balloc_scan]; [lia|].
  destruct (bi <? BPB) eqn:E1; simpl; [|by eexists]. destruct (b + bi <? size); [|by eexists].
  destruct (bit_free d bi); [by eexists|]. apply Z.ltb_lt in E1. apply IH; lia.
Qed.

(** The result of an allocation: block [r] was free, is marked, and reads as
    zeros. *)
Definition allocated (sb : superblock) (a : blocks) (r : Z) : blocks :=
  <[r := zero_blk]> (<[BBLOCK r sb := set_bit (blk a (BBLOCK r sb)) (r mod BPB)]> a).

Lemma bitmap_not_held sb a H b :
  layout sb -> held_data sb a H -> 0 <= b < sb_size sb -> not_held H (BBLOCK b sb).
Proof.
  intros L Hd Hb x c u Hx. destruct (Hd x c u Hx). destruct (BBLOCK_range _ _ L Hb). lia.
Qed.

Lemma bitmap_block sb a b : fs_wf sb a -> 0 <= b < sb_size sb ->
  bs_block (BBLOCK b sb) /\ a !! BBLOCK b sb = Some (blk a (BBLOCK b sb)) /\ length (blk a (BBLOCK b sb)) = 1024%nat.
Proof.
  intros Hw Hb. pose proof (fw_layout _ _ Hw) as L. destruct (BBLOCK_range _ _ L Hb) as [_ Hr]. destruct L as [L1 L2 L3 L4 L5 L6 L7].
  assert (0 <= (sb_size sb - 1) / BPB) by (apply Z.div_pos; [lia|done]).
  assert (-1 <= (sb_ninodes sb - 1) / IPB) by (change IPB with 16; zdiv).
  split; [apply L7; lia|]. apply (fw_blk sb); [done|lia].
Qed.

Lemma balloc_scan_ok d b size : exists r, balloc_scan (S (Z.to_nat BPB)) d b 0 size = Some r.
Proof. apply balloc_scan_total; [discriminate|]. rewrite Nat2Z.inj_succ, Z2Nat.id by discriminate. lia. Qed.

Lemma data_block sb a b : fs_wf sb a -> dstart sb <= b < sb_size sb -> bs_block b.
Proof.
  intros Hw Hb. destruct (fw_layout _ _ Hw) as [L1 L2 L3 L4 L5 L6 L7].
  assert (0 <= (sb_size sb - 1) / BPB) by (apply Z.div_pos; [lia|done]).
  assert (-1 <= (sb_ninodes sb - 1) / IPB) by (change IPB with 16; clear -L3; zdiv). apply L7. lia.
Qed.

Lemma wp_balloc_loop fuel : forall s a H W b Q,
  fs_wf (f_sb s) a -> txn s a H W -> held_data (f_sb s) a H -> (size H < bs_handles)%nat ->
  Z.of_nat (size W) + 1 < LOGBLOCKS -> 0 <= b -> b mod BPB = 0 -> sb_size (f_sb s) <= b + BPB * (Z.of_nat fuel - 1) ->
  (0 < fuel)%nat -> (forall j, 0 <= j < b -> j < sb_size (f_sb s) -> used (f_sb s) a j = true) ->
  (forall s', txn s' a H W -> store_only s s' -> (forall j, 0 <= j < sb_size (f_sb s) -> used (f_sb s) a j = true) -> Q 0 s') ->
  (forall r s', txn s' (allocated (f_sb s) a r) H ({[r]} ∪ ({[BBLOCK r (f_sb s)]} ∪ W)) -> store_only s s' ->
     dstart (f_sb s) <= r < sb_size (f_sb s) -> used (f_sb s) a r = false ->
     (forall j, 0 <= j < r -> used (f_sb s) a j = true) -> Q r s') ->
  wp (balloc_loop fuel ROOTDEV b) Q s.
Proof.
  induction fuel as [|fuel IH]; intros s a H W b Q Hw Ht Hd Hh Hs Hb Hbm Hf Hfp Hpre Hnone Hsome; [lia|].
  cbn [balloc_loop]. wp_step. apply wp_gets. set (sb := f_sb s) in *. pose proof (fw_layout _ _ Hw) as L.
  destruct (b <? sb_size sb) eqn:E.
  2: { apply Z.ltb_ge in E. wp_step. apply Hnone; [done|reflexivity|]. intros j Hj. apply Hpre; lia. }
  apply Z.ltb_lt in E. assert (0 <= b < sb_size sb) as Hbr by lia.
  destruct (bitmap_block _ _ _ Hw Hbr) as (Hbb & Hba & Hbl).
  wp_step. eapply (wp_fs_bread s); [exact Ht|done|by rewrite Hba|by eapply bitmap_not_held|done|]. intros x s1 Ht1 Hx Hs1.
  wp_step. eapply wp_fs_data; [exact Ht1|apply lookup_insert_eq|by rewrite Hba|].
  destruct (balloc_scan_ok (blk a (BBLOCK b sb)) b (sb_size sb)) as [r Er]. revert Er.
  generalize (S (Z.to_nat BPB)). intros fl Er. rewrite Er. wp_step. wp_step.
  assert (forall j, 0 <= j < BPB -> b + j < sb_size sb -> used sb a (b + j) = negb (bit_free (blk a (BBLOCK b sb)) j)) as Hu.
  { intros j Hj Hjs. unfold used. assert (BBLOCK (b + j) sb = BBLOCK b sb /\ (b + j) mod BPB = j) as [-> ->]; [|done].
    rewrite (proj1 (BBLOCK_range _ (b + j) L ltac:(lia))), (proj1 (BBLOCK_range _ b L Hbr)).
    unfold BPB, BSIZE in *. split; zdiv. }
  destruct r as [k|].
  - apply balloc_scan_some in Er as (K1 & K2 & K3 & K4). pose proof (Hu k ltac:(lia) K2) as Huk. rewrite K3 in Huk. simpl in Huk.
    assert (dstart sb <= b + k) as Hds.
    { destruct (decide (b + k < dstart sb)) as [Hlt|]; [|lia]. rewrite (fw_meta _ _ Hw) in Huk by lia. done. }
    assert (BBLOCK (b + k) sb = BBLOCK b sb /\ (b + k) mod BPB = k) as [Ebb Ebm].
    { rewrite (proj1 (BBLOCK_range _ (b + k) L ltac:(lia))), (proj1 (BBLOCK_range _ b L Hbr)). unfold BPB, BSIZE in *. split; zdiv. }
    eapply (wp_fs_commit s1); [exact Ht1|done|by rewrite Hba|lia|].
    intros s2 Ht2 Hs2. wp_step.
    assert (Z.of_nat (size ({[BBLOCK b sb]} ∪ W)) < LOGBLOCKS) as Hsz by (pose proof (size_add (BBLOCK b sb) W); lia).
    eapply wp_bzero; [exact Ht2| | | |done|exact Hsz|].
    + apply (data_block sb a); [done|lia].
    + rewrite lookup_insert_is_Some. destruct (fw_blk sb a (b + k) Hw ltac:(lia)) as [-> _].
      destruct (decide (BBLOCK b sb = b + k)); [by left|]. right. eauto.
    + intros y c u Hy ->. destruct (Hd y _ u Hy). congruence.
    + intros s3 Ht3 Hs3. wp_step. apply (Hsome (b + k) s3).
      * unfold allocated. by rewrite Ebb, Ebm.
      * etrans; [exact Hs1|]. etrans; [exact Hs2|exact Hs3].
      * lia.
      * done.
      * intros j Hj. destruct (decide (j < b)); [apply Hpre; lia|]. replace j with (b + (j - b)) by lia.
        rewrite Hu by lia. by rewrite K4 by lia.
  - wp_step. eapply wp_fs_brelse; [exact Ht1|done|]. intros s2 Ht2 Hs2.
    assert (store_only s s2) as Hs12 by (by etrans). pose proof Hs12 as (t2 & E2 & _).
    assert (f_sb s2 = sb) as Esb by (by rewrite E2). 
    apply (IH s2 a H W); rewrite ?Esb; try done; [unfold BPB, BSIZE in *; lia|unfold BPB, BSIZE in *; zdiv| | | | |].
    + unfold BPB, BSIZE in *. lia.
    + destruct fuel; lia.
    + intros j Hj Hjs. destruct (decide (j < b)); [apply Hpre; lia|]. replace j with (b + (j - b)) by lia.
      rewrite Hu by lia. by rewrite (balloc_scan_none _ _ _ _ _ Er) by lia.
    + intros s3 Ht3 Hs3. apply Hnone; [done|by etrans].
    + intros r s3 Ht3 Hs3. apply Hsome; [done|by etrans].
Qed.

Lemma wp_balloc s a H W Q :
  fs_wf (f_sb s) a -> txn s a H W -> held_data (f_sb s) a H -> (size H < bs_handles)%nat ->
  Z.of_nat (size W) + 1 < LOGBLOCKS ->
  (forall s', txn s' a H W -> store_only s s' -> (forall j, 0 <= j < sb_size (f_sb s) -> used (f_sb s) a j = true) -> Q 0 s') ->
  (forall r s', txn s' (allocated (f_sb s) a r) H ({[r]} ∪ ({[BBLOCK r (f_sb s)]} ∪ W)) -> store_only s s' ->
     dstart (f_sb s) <= r < sb_size (f_sb s) -> used (f_sb s) a r = false ->
     (forall j, 0 <= j < r -> used (f_sb s) a j = true) -> Q r s') ->
  wp (balloc ROOTDEV) Q s.
Proof.
  intros Hw Ht Hd Hh Hs Hnone Hsome. unfold balloc. wp_step. apply wp_gets.
  pose proof (ly_size _ (fw_layout _ _ Hw)) as Hsz.
  assert (0 <= sb_size (f_sb s) / BPB) by (apply Z.div_pos; [lia|done]).
  eapply wp_balloc_loop; try done; [|lia|intros j Hj; lia].
  rewrite Nat2Z.inj_succ, Z2Nat.id by lia. unfold BPB, BSIZE in *. zdiv.
Qed.

(** The layout survives a change of a data block's contents, and of the
    bitmap when the blocks before the data area stay marked. *)
Lemma fs_wf_insert sb a b d :
  fs_wf sb a -> length d = 1024%nat -> (forall c, 0 <= c < dstart sb -> used sb (<[b := d]> a) c = true) ->
  fs_wf sb (<[b := d]> a).
Proof.
  intros [L Hl Hm] Hd Hu. split; [done| |done]. intros c Hc. destruct (decide (b = c)) as [->|Hne].
  - exists d. by rewrite lookup_insert_eq.
  - rewrite lookup_insert_ne by done. by apply Hl.
Qed.

Lemma fs_wf_data sb a b d : fs_wf sb a -> length d = 1024%nat -> dstart sb <= b -> fs_wf sb (<[b := d]> a).
Proof.
  intros Hw Hd Hb. apply fs_wf_insert; [done|done|]. intros c Hc. pose proof (fw_layout _ _ Hw) as L.
  rewrite used_insert_ne; [by apply (fw_meta _ _ Hw)|].
  destruct (BBLOCK_range sb c L) as [_ ?]; [pose proof (ly_data _ L); lia|]. lia.
Qed.

Lemma used_data sb a b d c : fs_wf sb a -> dstart sb <= b -> 0 <= c < sb_size sb -> used sb (<[b := d]> a) c = used sb a c.
Proof.
  intros Hw Hb Hc. apply used_insert_ne. destruct (BBLOCK_range sb c (fw_layout _ _ Hw) Hc) as [_ ?]. lia.
Qed.

Lemma fs_wf_set sb a r : fs_wf sb a -> 0 <= r < sb_size sb ->
  fs_wf sb (<[BBLOCK r sb := set_bit (blk a (BBLOCK r sb)) (r mod BPB)]> a).
Proof.
  intros Hw Hr. pose proof (ly_data _ (fw_layout _ _ Hw)). apply fs_wf_insert; [done|rewrite length_set_bit; by apply bitmap_block|].
  intros c Hc. rewrite used_set by (done || lia). rewrite (fw_meta _ _ Hw) by done. done.
Qed.

Lemma allocated_wf sb a r : fs_wf sb a -> dstart sb <= r < sb_size sb -> fs_wf sb (allocated sb a r).
Proof.
  intros Hw Hr. pose proof (ly_data _ (fw_layout _ _ Hw)). apply fs_wf_data; [apply fs_wf_set; [done|lia]|done|lia].
Qed.

Lemma allocated_used sb a r c : fs_wf sb a -> dstart sb <= r < sb_size sb -> 0 <= c < sb_size sb ->
  used sb (allocated sb a r) c = used sb a c || bool_decide (r = c).
Proof.
  intros Hw Hr Hc. pose proof (ly_data _ (fw_layout _ _ Hw)). unfold allocated.
  rewrite used_data; [apply used_set; [done|lia|done]|apply fs_wf_set; [done|lia]|lia|done].
Qed.

Lemma allocated_other sb a r c : c <> r -> c <> BBLOCK r sb -> allocated sb a r !! c = a !! c.
Proof. intros. unfold allocated. by rewrite !lookup_insert_ne by done. Qed.

Lemma allocated_self sb a r : allocated sb a r !! r = Some zero_blk.
Proof. apply lookup_insert_eq. Qed.

(** The blocks after [bfree]. *)
Definition freed (sb : superblock) (a : blocks) (b : Z) : blocks :=
  <[BBLOCK b sb := clear_bit (blk a (BBLOCK b sb)) (b mod BPB)]> a.

Lemma wp_bfree s a H W b Q :
  fs_wf (f_sb s) a -> txn s a H W -> not_held H (BBLOCK b (f_sb s)) -> (size H < bs_handles)%nat ->
  Z.of_nat (size W) < LOGBLOCKS -> 0 <= b < sb_size (f_sb s) -> used (f_sb s) a b = true ->
  (forall s', txn s' (freed (f_sb s) a b) H ({[BBLOCK b (f_sb s)]} ∪ W) -> store_only s s' -> Q tt s') ->
  wp (bfree ROOTDEV b) Q s.
Proof.
  intros Hw Ht Hn Hh Hs Hb Hu HQ. unfold bfree. wp_step. apply wp_gets.
  destruct (bitmap_block _ _ _ Hw Hb) as (Hbb & Hba & Hbl).
  wp_step. eapply wp_fs_bread; [exact Ht|done|by rewrite Hba|done|done|]. intros x s1 Ht1 Hx Hs1.
  wp_step. eapply wp_fs_data; [exact Ht1|apply lookup_insert_eq|by rewrite Hba|].
  unfold used in Hu. apply negb_true_iff in Hu. rewrite Hu. wp_step. wp_step.
  eapply wp_fs_finish; [exact Ht1|done|by rewrite Hba|done|]. intros s2 Ht2 Hs2. apply HQ; [done|by etrans].
Qed.

Lemma bfree_free_panics s a H W b :
  fs_wf (f_sb s) a -> txn s a H W -> not_held H (BBLOCK b (f_sb s)) -> (size H < bs_handles)%nat ->
  0 <= b < sb_size (f_sb s) -> used (f_sb s) a b = false -> bfree ROOTDEV b s = Panic "freeing free block".
Proof.
  intros Hw Ht Hn Hh Hb Hu. destruct (bitmap_block _ _ _ Hw Hb) as (Hbb & Hba & Hbl).
  assert (wp (on_store (bs_bread ROOTDEV (BBLOCK b (f_sb s)))) (fun x s1 => on_store (bs_data x) s1 = Ret (blk a (BBLOCK b (f_sb s)), s1)) s) as Hr.
  { eapply wp_fs_bread; [exact Ht|done|by rewrite Hba|done|done|]. intros x s1 Ht1 Hx Hs1.
    assert (wp (on_store (bs_data x)) (fun d s2 => d = blk a (BBLOCK b (f_sb s)) /\ s2 = s1) s1) as (d & s2 & E & -> & ->)%wp_run; [|done].
    eapply wp_fs_data; [exact Ht1|apply lookup_insert_eq|by rewrite Hba|done]. }
  apply wp_run in Hr as (x & s1 & E1 & E2). unfold bfree, gets, mbind, M_bind. rewrite E1, E2.
  unfold used in Hu. apply negb_false_iff in Hu. by rewrite Hu.
Qed.

Lemma freed_wf sb a b : fs_wf sb a -> dstart sb <= b < sb_size sb -> fs_wf sb (freed sb a b).
Proof.
  intros Hw Hb. pose proof (ly_data _ (fw_layout _ _ Hw)). apply fs_wf_insert; [done| |].
  - rewrite length_clear_bit. apply bitmap_block; [done|lia].
  - intros c Hc. rewrite used_clear, (fw_meta _ _ Hw), bool_decide_eq_false_2 by (done || lia). done.
Qed.

Lemma freed_used sb a b c : fs_wf sb a -> 0 <= b < sb_size sb -> 0 <= c < sb_size sb ->
  used sb (freed sb a b) c = used sb a c && negb (bool_decide (b = c)).
Proof. intros. by apply used_clear. Qed.

Lemma freed_other sb a b c : c <> BBLOCK b sb -> freed sb a b !! c = a !! c.
Proof. intros. unfold freed. by rewrite lookup_insert_ne. Qed.

(** [balloc] returns 0 and changes nothing exactly when every block is
    marked in use; otherwise it returns the first free block, which is never
    a metadata block, zeroed and marked, with every other block and bitmap
    bit as before; and [bfree] of that block makes the bitmap what it was,
    while a second [bfree] panics. *)
Theorem balloc_correct s a H W :
  let sb := f_sb s in
  fs_wf sb a -> txn s a H W -> held_data sb a H -> (size H < bs_handles)%nat -> Z.of_nat (size W) + 2 < LOGBLOCKS ->
  wp (balloc ROOTDEV) (fun r s' =>
    (r = 0 /\ txn s' a H W /\ forall j, 0 <= j < sb_size sb -> used sb a j = true) \/
    (dstart sb <= r < sb_size sb /\ used sb a r = false /\ (forall j, 0 <= j < r -> used sb a j = true) /\
     exists a', txn s' a' H ({[r]} ∪ ({[BBLOCK r sb]} ∪ W)) /\ a' !! r = Some (replicate 1024 0) /\
       (forall c, c <> r -> c <> BBLOCK r sb -> a' !! c = a !! c) /\
       (forall c, 0 <= c < sb_size sb -> used sb a' c = used sb a c || bool_decide (r = c)) /\
       wp (bfree ROOTDEV r) (fun _ s2 =>
         bfree ROOTDEV r s2 = Panic "freeing free block" /\
         exists a2 W2, txn s2 a2 H W2 /\ forall c, 0 <= c < sb_size sb -> used sb a2 c = used sb a c) s')) s.
Proof.
  intros sb Hw Ht Hd Hh Hs. pose proof (ly_data _ (fw_layout _ _ Hw)) as Hdat. eapply wp_balloc; try done; [lia| |].
  - intros s' Ht' _ Hall. left. done.
  - intros r s' Ht' (t & -> & _) Hr Hur Hlow. right. split; [done|]. split; [done|]. split; [done|].
    exists (allocated sb a r). split; [done|]. split; [apply allocated_self|]. split; [apply allocated_other|].
    split; [intros c Hc; by apply allocated_used|]. change (f_sb s) with sb in Ht', Hr, Hur, Hlow.
    pose proof (allocated_wf sb a r Hw Hr) as Hw'. assert (0 <= r < sb_size sb) as Hr0 by lia.
    assert (not_held H (BBLOCK r sb)) as Hn by (eapply bitmap_not_held; [apply Hw|done|lia]).
    eapply wp_bfree; [exact Hw'|exact Ht'|exact Hn|done| |exact Hr0| |].
    + pose proof (size_add r ({[BBLOCK r sb]} ∪ W)). pose proof (size_add (BBLOCK r sb) W). lia.
    + rewrite allocated_used by done. rewrite bool_decide_eq_true_2 by done. by rewrite orb_true_r.
    + intros s2 Ht2 (t2 & -> & _). change (f_sb (set_store t s)) with sb in *. pose proof (freed_wf sb _ r Hw' Hr) as Hw2.
      assert (forall c, 0 <= c < sb_size sb -> used sb (freed sb (allocated sb a r) r) c = used sb a c) as Hu2.
      { intros c Hc. rewrite freed_used, allocated_used by (done || lia). case_bool_decide; [subst c; by rewrite Hur|].
        by rewrite orb_false_r, andb_true_r. }
      split; [|by eexists _, _; split; [exact Ht2|]].
      eapply bfree_free_panics; [exact Hw2|exact Ht2|exact Hn|done|exact Hr0|]. change (f_sb _) with sb. by rewrite Hu2.
Qed.

End Alloc.
