(* ===== verification/FsFile.v ===== *)
(** * Files as lists of bytes

    [saddr a ad k] is the disk address of slot [k] of a file whose inode has
    the addresses [ad]: slots below MAXFILE are the file's blocks, slot
    MAXFILE is the index block.  [file_ok] is the invariant that every slot
    in use names a data block of its own that is marked in the bitmap, and
    that the slots covering the size are in use.  [grows] is what [bmap] may
    do to a file.  The rules for [readi] and [writei] are about
    [file_bytes], the contents of the file. *)

From Stdlib Require Import ZArith Lia Bool String.
From stdpp Require Import base gmap list strings functions.
From S2P Require Import Prelude Mem Spinlock Sleeplock Bio BioProof Log LogProof BlockStore Fs FsBytes FsAlloc.

Definition addr_at (ad : list Z) (k : Z) : Z := nth (Z.to_nat k) ad 0.

Definition saddr (a : blocks) (ad : list Z) (k : Z) : Z :=
  if k <? NDIRECT then addr_at ad k
  else if k =? MAXFILE then addr_at ad NDIRECT
  else if addr_at ad NDIRECT =? 0 then 0
  else rd32u (blk a (addr_at ad NDIRECT)) (4 * (k - NDIRECT)).

Definition fbyte (a : blocks) (ad : list Z) (i : Z) : Z := byte_at (blk a (saddr a ad (i / BSIZE))) (i mod BSIZE).
Definition file_bytes (a : blocks) (i : inode) : list Z := fbyte a (i_addrs i) <$> seqZ 0 (i_size i).

(** [bs] stored over [c] from [off] on. *)
Definition splice (c : list Z) (off : Z) (bs : list Z) : list Z :=
  take (Z.to_nat off) c ++ bs ++ drop (Z.to_nat off + length bs) c.

Definition own (a : blocks) (ad : list Z) (c : Z) : Prop := exists k, 0 <= k <= MAXFILE /\ saddr a ad k = c.

(** The blocks of the bitmap. *)
Definition bitmaps (sb : superblock) : gset Z := list_to_set (seqZ (sb_bmapstart sb) ((sb_size sb - 1) / BPB + 1)).
(** Room in the log, with the bitmap set aside. *)
Definition rsz (sb : superblock) (W : gset Z) : Z := Z.of_nat (size (W ∪ bitmaps sb)).

(** The constants as numbers. *)
Ltac fs_nums :=
  change MAXFILE with 268 in *; change NDIRECT with 12 in *; change NINDIRECT with 256 in *; change BSIZE with 1024 in *;
  change LOGBLOCKS with 30 in *.

Section File.
Context {T : Type} `{HM : HasMach T} {BO : BlockOps T} {BS : BlockStore T}.

Record file_ok (sb : superblock) (a : blocks) (ad : list Z) (size : Z) : Prop := {
  fo_len : length ad = 13%nat;
  fo_size : 0 <= size <= MAXFILE * BSIZE;
  fo_data : forall k, 0 <= k <= MAXFILE -> saddr a ad k <> 0 ->
    dstart sb <= saddr a ad k < sb_size sb /\ used sb a (saddr a ad k) = true;
  fo_inj : forall j k, 0 <= j <= MAXFILE -> 0 <= k <= MAXFILE -> saddr a ad j <> 0 -> saddr a ad j = saddr a ad k -> j = k;
  fo_full : forall k, 0 <= k -> k * BSIZE < size -> saddr a ad k <> 0
}.

Record grows (sb : superblock) (a : blocks) (ad : list Z) (size : Z) (a' : blocks) (ad' : list Z) : Prop := {
  g_wf : fs_wf sb a';
  g_ok : file_ok sb a' ad' size;
  g_keep : forall k, 0 <= k <= MAXFILE -> saddr a ad k <> 0 -> saddr a' ad' k = saddr a ad k;
  g_new : forall k, 0 <= k <= MAXFILE -> saddr a ad k = 0 -> saddr a' ad' k <> 0 -> used sb a (saddr a' ad' k) = false;
  g_used : forall c, 0 <= c < sb_size sb -> used sb a c = true -> used sb a' c = true;
  g_data : forall c, dstart sb <= c < sb_size sb -> used sb a c = true -> c <> saddr a ad MAXFILE -> a' !! c = a !! c;
  g_meta : forall c, c < sb_bmapstart sb -> a' !! c = a !! c
}.

Lemma grows_refl sb a ad size : fs_wf sb a -> file_ok sb a ad size -> grows sb a ad size a ad.
Proof. intros Hw Hf. split; try done. Qed.

Lemma grows_compose sb a ad size a1 ad1 a2 ad2 :
  fs_wf sb a -> file_ok sb a ad size ->
  grows sb a ad size a1 ad1 -> grows sb a1 ad1 size a2 ad2 -> grows sb a ad size a2 ad2.
Proof.
  intros Hw Hf [A1 A2 A3 A4 A5 A6 A7] [B1 B2 B3 B4 B5 B6 B7]. pose proof (ly_data _ (fw_layout _ _ Hw)) as Hd.
  split; try done.
  - intros k Hk Hn. rewrite B3; [by apply A3|done|]. by rewrite A3.
  - intros k Hk H0 Hn. destruct (decide (saddr a1 ad1 k = 0)) as [E|E].
    + specialize (B4 k Hk E Hn). destruct (used sb a _) eqn:Eu; [|done]. rewrite A5 in B4; [done| |done].
      destruct (fo_data _ _ _ _ B2 k Hk Hn) as [? _]. lia.
    + rewrite B3 by done. by apply A4.
  - intros c Hc Hu. apply B5, A5; done.
  - intros c Hc Hu Hne. rewrite B6; [by apply A6|done|apply A5; [lia|done]|].
    destruct (decide (saddr a ad MAXFILE = 0)) as [E|E].
    + intros ->. destruct (decide (saddr a1 ad1 MAXFILE = 0)) as [E1|E1]; [lia|].
      rewrite (A4 MAXFILE) in Hu; [done|done|done|done].
    + by rewrite A3.
  - intros c Hc. by rewrite B7, A7.
Qed.

(** ** Slots *)

Lemma saddr_direct a ad k : k < NDIRECT -> saddr a ad k = addr_at ad k.
Proof. intros. unfold saddr. by rewrite (proj2 (Z.ltb_lt _ _)). Qed.

Lemma saddr_index a ad : saddr a ad MAXFILE = addr_at ad NDIRECT.
Proof. reflexivity. Qed.

Lemma saddr_indirect a ad k : NDIRECT <= k < MAXFILE -> addr_at ad NDIRECT <> 0 ->
  saddr a ad k = rd32u (blk a (addr_at ad NDIRECT)) (4 * (k - NDIRECT)).
Proof.
  intros Hk Hn. unfold saddr. rewrite (proj2 (Z.ltb_ge k NDIRECT)), (proj2 (Z.eqb_neq k MAXFILE)) by lia.
  by rewrite (proj2 (Z.eqb_neq _ 0)).
Qed.

Lemma saddr_no_index a ad k : NDIRECT <= k <= MAXFILE -> addr_at ad NDIRECT = 0 -> saddr a ad k = 0.
Proof.
  intros Hk Hn. unfold saddr. rewrite (proj2 (Z.ltb_ge k NDIRECT)) by lia. rewrite Hn. by destruct (k =? MAXFILE).
Qed.

(** Slots depend on the index block only. *)
Lemma saddr_ext a a' ad k :
  (addr_at ad NDIRECT <> 0 -> blk a' (addr_at ad NDIRECT) = blk a (addr_at ad NDIRECT)) -> saddr a' ad k = saddr a ad k.
Proof.
  intros Hb. unfold saddr. destruct (k <? NDIRECT); [done|]. destruct (k =? MAXFILE); [done|].
  destruct (Z.eqb_spec (addr_at ad NDIRECT) 0); [done|]. by rewrite Hb.
Qed.

Lemma index_ok sb a ad size : file_ok sb a ad size -> addr_at ad NDIRECT <> 0 ->
  dstart sb <= addr_at ad NDIRECT < sb_size sb /\ used sb a (addr_at ad NDIRECT) = true.
Proof. intros Hf Hn. apply (fo_data _ _ _ _ Hf MAXFILE); [done|]. by rewrite saddr_index. Qed.

Lemma blk_ne (a : blocks) b c d : c <> b -> blk (<[c := d]> a) b = blk a b.
Proof. intros. unfold blk. by rewrite lookup_insert_ne. Qed.
Lemma blk_eq (a : blocks) b d : blk (<[b := d]> a) b = d.
Proof. unfold blk. by rewrite lookup_insert_eq. Qed.

Lemma blk_allocated sb a r c : fs_wf sb a -> dstart sb <= r < sb_size sb ->
  used sb a r = false -> dstart sb <= c -> used sb a c = true -> blk (allocated sb a r) c = blk a c.
Proof.
  intros Hw Hr Hu Hc Huc. unfold blk. rewrite allocated_other; [done|congruence|].
  destruct (BBLOCK_range sb r (fw_layout _ _ Hw)) as [_ ?]; [pose proof (ly_data _ (fw_layout _ _ Hw)); lia|]. lia.
Qed.

Lemma saddr_allocated sb a ad size r k : fs_wf sb a -> file_ok sb a ad size -> dstart sb <= r < sb_size sb ->
  used sb a r = false -> saddr (allocated sb a r) ad k = saddr a ad k.
Proof.
  intros Hw Hf Hr Hu. apply saddr_ext. intros Hn. destruct (index_ok _ _ _ _ Hf Hn). apply blk_allocated; (done || lia).
Qed.

(** Slot [n] of the file, empty so far, gets the free block [r]. *)
Lemma grows_slot sb a ad size a' ad' n r :
  fs_wf sb a -> file_ok sb a ad size -> fs_wf sb a' -> length ad' = 13%nat ->
  0 <= n <= MAXFILE -> saddr a ad n = 0 -> dstart sb <= r < sb_size sb -> used sb a r = false ->
  (forall c, 0 <= c < sb_size sb -> used sb a' c = used sb a c || bool_decide (r = c)) ->
  saddr a' ad' n = r -> (forall k, 0 <= k <= MAXFILE -> k <> n -> saddr a' ad' k = saddr a ad k) ->
  (forall c, dstart sb <= c < sb_size sb -> used sb a c = true -> c <> saddr a ad MAXFILE -> a' !! c = a !! c) ->
  (forall c, c < sb_bmapstart sb -> a' !! c = a !! c) ->
  grows sb a ad size a' ad'.
Proof.
  intros Hw Hf Hw' Hlen Hn Hn0 Hr Hur Hus En Ek Hdat Hmeta. pose proof (ly_data _ (fw_layout _ _ Hw)) as Hd.
  assert (r <> 0) as Hr0 by lia. destruct Hf as [F1 F2 F3 F4 F5].
  assert (forall c, 0 <= c < sb_size sb -> used sb a c = true -> used sb a' c = true) as Hm.
  { intros c Hc Huc. by rewrite Hus, Huc. }
  assert (forall k, 0 <= k <= MAXFILE -> k <> n -> saddr a ad k <> r) as Hfresh.
  { intros k Hk Hne E. destruct (F3 k Hk) as [_ Hu]; [congruence|]. congruence. }
  split; try done.
  - split; try done.
    + intros k Hk. destruct (decide (k = n)) as [->|Hne].
      * rewrite En. intros _. split; [done|]. rewrite Hus by lia. by rewrite bool_decide_eq_true_2, orb_true_r.
      * rewrite Ek by done. intros Hk0. destruct (F3 k Hk Hk0). split; [done|]. apply Hm; [lia|done].
    + intros j k Hj Hk. destruct (decide (j = n)) as [->|Hj'], (decide (k = n)) as [->|Hk']; [done|..].
      * rewrite En, Ek by done. intros _ E. by destruct (Hfresh k Hk Hk').
      * rewrite En, Ek by done. intros _ E. by destruct (Hfresh j Hj Hj').
      * rewrite !Ek by done. by apply F4.
    + intros k Hk Hs. assert (k <= MAXFILE) by (fs_nums; lia).
      destruct (decide (k = n)) as [->|Hne]; [by rewrite En|]. rewrite Ek by done. by apply F5.
  - intros k Hk Hk0. destruct (decide (k = n)) as [->|Hne]; [done|]. by apply Ek.
  - intros k Hk Hk0 Hk1. destruct (decide (k = n)) as [->|Hne]; [by rewrite En|]. by rewrite Ek in Hk1.
Qed.

Lemma alloc_meta sb a r c : fs_wf sb a -> dstart sb <= r < sb_size sb -> c < sb_bmapstart sb -> allocated sb a r !! c = a !! c.
Proof.
  intros Hw Hr Hc. pose proof (fw_layout _ _ Hw) as L. pose proof (ly_data _ L).
  destruct (BBLOCK_range sb r L) as [_ ?]; [lia|]. pose proof (ly_bmap _ L).
  assert (0 <= (sb_size sb - 1) / BPB) by (apply Z.div_pos; [|done]; lia). apply allocated_other; lia.
Qed.

Lemma alloc_data sb a r c : fs_wf sb a -> dstart sb <= r < sb_size sb -> used sb a r = false ->
  dstart sb <= c -> used sb a c = true -> allocated sb a r !! c = a !! c.
Proof.
  intros Hw Hr Hu Hc Huc. pose proof (ly_data _ (fw_layout _ _ Hw)).
  destruct (BBLOCK_range sb r (fw_layout _ _ Hw)) as [_ ?]; [lia|]. apply allocated_other; [congruence|lia].
Qed.

Lemma addr_at_insert ad n k r : length ad = 13%nat -> 0 <= n < 13 -> 0 <= k ->
  addr_at (<[Z.to_nat n := r]> ad) k = if decide (n = k) then r else addr_at ad k.
Proof.
  intros Hl Hn Hk. unfold addr_at. rewrite !nth_lookup. case_decide as E.
  - subst. by rewrite list_lookup_insert_eq by lia.
  - by rewrite list_lookup_insert_ne by lia.
Qed.

Lemma rd32u_zero k : rd32u zero_blk k = 0.
Proof.
  assert (forall j, byte_at zero_blk j = 0) as E.
  { intros j. unfold byte_at, zero_blk. rewrite nth_lookup. destruct (replicate _ _ !! _) as [v|] eqn:Ev; [|done].
    by apply lookup_replicate in Ev as [-> _]. }
  unfold rd32u. by rewrite !E.
Qed.

(** A direct slot or the index block. *)
Lemma grows_addr sb a ad size n r :
  fs_wf sb a -> file_ok sb a ad size -> 0 <= n <= NDIRECT -> addr_at ad n = 0 ->
  dstart sb <= r < sb_size sb -> used sb a r = false ->
  grows sb a ad size (allocated sb a r) (<[Z.to_nat n := r]> ad).
Proof.
  intros Hw Hf Hn Hn0 Hr Hu. pose proof (fo_len _ _ _ _ Hf) as Hlen. unfold NDIRECT in Hn. pose proof (ly_data _ (fw_layout _ _ Hw)) as Hd.
  assert (forall k, 0 <= k -> addr_at (<[Z.to_nat n := r]> ad) k = if decide (n = k) then r else addr_at ad k) as Ea
    by (intros; apply addr_at_insert; [done|lia|done]).
  apply (grows_slot sb a ad size _ _ (if decide (n = NDIRECT) then MAXFILE else n) r); try done.
  - by apply allocated_wf.
  - by rewrite length_insert.
  - case_decide; [done|]. fs_nums. lia.
  - case_decide as E; [rewrite saddr_index; by subst n|]. unfold NDIRECT in E. rewrite saddr_direct; [done|unfold NDIRECT; lia].
  - intros c Hc. by apply allocated_used.
  - case_decide as E; [rewrite saddr_index, Ea by done; by rewrite decide_True|].
    unfold NDIRECT in E. rewrite saddr_direct, Ea by (unfold NDIRECT; lia). by rewrite decide_True.
  - intros k Hk. destruct (decide (n = NDIRECT)) as [E|E]; intros Hkn.
    + destruct (decide (k < NDIRECT)) as [Hd'|Hd']; [rewrite !saddr_direct, Ea by lia; by rewrite decide_False by lia|].
      rewrite (saddr_no_index a ad k) by (subst n; done || lia).
      rewrite saddr_indirect; rewrite ?Ea, ?decide_True by (done || lia); [|lia|lia].
      rewrite (blk_some _ _ zero_blk); [apply rd32u_zero|apply allocated_self].
    + unfold saddr. destruct (k <? NDIRECT) eqn:Ek; [rewrite Ea by lia; by rewrite decide_False by lia|].
      destruct (k =? MAXFILE); [rewrite Ea by done; by rewrite decide_False|].
      rewrite Ea by done. rewrite decide_False by done. destruct (Z.eqb_spec (addr_at ad NDIRECT) 0) as [|Hi]; [done|].
      destruct (index_ok _ _ _ _ Hf Hi). by rewrite blk_allocated by (done || lia).
  - intros c Hc Huc _. apply alloc_data; (done || lia).
  - intros c Hc. by apply alloc_meta.
Qed.

(** An entry of the index block. *)
Lemma grows_indirect sb a ad size n r :
  fs_wf sb a -> file_ok sb a ad size -> NDIRECT <= n < MAXFILE -> addr_at ad NDIRECT <> 0 -> saddr a ad n = 0 ->
  dstart sb <= r < sb_size sb -> used sb a r = false ->
  let x := addr_at ad NDIRECT in
  grows sb a ad size (<[x := wr32 (blk (allocated sb a r) x) (4 * (n - NDIRECT)) r]> (allocated sb a r)) ad.
Proof.
  intros Hw Hf Hn Hi Hn0 Hr Hu x. destruct (index_ok _ _ _ _ Hf Hi) as [Hx Hxu]. fold x in Hx, Hxu, Hi.
  pose proof (fw_layout _ _ Hw) as L. pose proof (ly_data _ L) as Hd. pose proof (ly_size _ L) as Hsz.
  pose proof (allocated_wf sb a r Hw Hr) as Hw1. rewrite blk_allocated by (done || lia).
  destruct (fw_blk sb a x Hw ltac:(lia)) as [Hax Hlx].
  fs_nums.
  apply (grows_slot sb a ad size _ _ n r); try done.
  - apply fs_wf_data; [done|by rewrite length_wr32|lia].
  - apply Hf.
  - fs_nums. lia.
  - intros c Hc. rewrite used_data by (done || lia). by apply allocated_used.
  - rewrite saddr_indirect by done. change (addr_at ad NDIRECT) with x. rewrite blk_eq. change NDIRECT with 12. rewrite rd32u_wr32 by lia.
    apply u32_small. unfold BPB, BSIZE in Hsz. lia.
  - intros k Hk Hkn. unfold saddr. change (addr_at ad NDIRECT) with x. destruct (k <? NDIRECT) eqn:E1; [done|]. destruct (k =? MAXFILE) eqn:E2; [done|].
    destruct (x =? 0); [done|]. rewrite blk_eq. change NDIRECT with 12 in *. change MAXFILE with 268 in *.
    apply Z.ltb_ge in E1. apply Z.eqb_neq in E2. apply rd32u_wr32_ne; lia.
  - intros c Hc Huc Hne. rewrite saddr_index in Hne. rewrite lookup_insert_ne by done. apply alloc_data; (done || lia).
  - intros c Hc. rewrite lookup_insert_ne; [by apply alloc_meta|]. pose proof (ly_bmap _ L).
    assert (0 <= (sb_size sb - 1) / BPB) by (apply Z.div_pos; [|done]; lia). lia.
Qed.

(** ** The inode table *)

Definition inode_at (s : fs_st T) (ip : Z) (i : inode) : Prop := 0 < ip /\ it_inode s !! Z.to_nat (ip - 1) = Some i.

(** Only the store and the entry [ip] have changed. *)
Record others_same (ip : Z) (s s' : fs_st T) : Prop := {
  os_sb : f_sb s' = f_sb s;
  os_lock : it_lock s' = it_lock s;
  os_cwd : f_cwd s' = f_cwd s;
  os_store : bs_same (f_store s) (f_store s');
  os_len : length (it_inode s') = length (it_inode s);
  os_inode : forall k, k <> Z.to_nat (ip - 1) -> it_inode s' !! k = it_inode s !! k
}.

#[export] Instance others_same_preorder ip : PreOrder (others_same ip).
Proof.
  split; [by intros s|]. intros s1 s2 s3 [A1 A2 A3 A4 A5 A6] [B1 B2 B3 B4 B5 B6].
  split; try congruence; [by etrans|]. intros k Hk. by rewrite B6, A6.
Qed.

Lemma store_only_others ip s s' : store_only s s' -> others_same ip s s'.
Proof. intros (t & -> & Hs). by split. Qed.

Lemma store_only_inode s s' ip i : store_only s s' -> inode_at s ip i -> inode_at s' ip i.
Proof. by intros (t & -> & _). Qed.

Lemma store_only_sb s s' : store_only s s' -> f_sb s' = f_sb s.
Proof. by intros (t & -> & _). Qed.

Lemma wp_get_ip s ip i Q : inode_at s ip i -> Q i s -> wp (get_ip ip) Q s.
Proof.
  intros [Hp Hi] HQ. unfold get_ip. rewrite (proj2 (Z.eqb_neq _ _)) by lia. wp_step. apply wp_gets.
  eapply wp_arr_get; [lia|done|done].
Qed.

Lemma wp_upd_ip s ip i f Q : inode_at s ip i ->
  (forall s', f_store s' = f_store s -> others_same ip s s' -> inode_at s' ip (f i) -> Q tt s') ->
  wp (upd_ip ip f) Q s.
Proof.
  intros Hi HQ. unfold upd_ip. wp_step. eapply wp_get_ip; [done|]. apply wp_modify. destruct Hi as [Hp Hi].
  apply HQ; [done| |].
  - split; try done; simpl; [by rewrite length_insert|]. intros k Hk. by rewrite list_lookup_insert_ne.
  - split; [done|]. simpl. apply list_lookup_insert_eq. by eapply lookup_lt_Some.
Qed.

Lemma wp_get_addr s ip i k Q : inode_at s ip i -> length (i_addrs i) = 13%nat -> 0 <= k < 13 ->
  Q (addr_at (i_addrs i) k) s -> wp (get_addr ip k) Q s.
Proof.
  intros Hi Hl Hk HQ. unfold get_addr. wp_step. eapply wp_get_ip; [done|].
  eapply wp_arr_get; [lia| |exact HQ]. unfold addr_at. rewrite nth_lookup.
  destruct (lookup_lt_is_Some_2 (i_addrs i) (Z.to_nat k)) as [v Hv]; [lia|]. by rewrite Hv.
Qed.

Lemma wp_set_addr s ip i k v Q : inode_at s ip i -> length (i_addrs i) = 13%nat -> 0 <= k < 13 ->
  (forall s', f_store s' = f_store s -> others_same ip s s' -> inode_at s' ip (set_iaddrs (<[Z.to_nat k := v]> (i_addrs i)) i) -> Q tt s') ->
  wp (set_addr ip k v) Q s.
Proof.
  intros Hi Hl Hk HQ. unfold set_addr. wp_step. eapply wp_get_ip; [done|]. rewrite arr_set_ok by lia. cbn [of_arr]. wp_step. wp_step.
  by eapply wp_upd_ip.
Qed.

(** ** bmap *)

Lemma handles_0 : (size (∅ : held) < bs_handles)%nat.
Proof. rewrite map_size_empty. pose proof (bs_handles_min (S := T)). lia. Qed.

Lemma handles_1 x v : (size (<[x := v]> ∅ : held) < bs_handles)%nat.
Proof. rewrite map_size_insert_None, map_size_empty by done. pose proof (bs_handles_min (S := T)). lia. Qed.

Lemma wp_bmap_hit Tn s a W ip i bn Q :
  fs_wf (f_sb s) a -> torn_txn Tn s a ∅ W -> saddr a (i_addrs i) MAXFILE ∉ Tn -> inode_at s ip i -> i_dev i = ROOTDEV ->
  file_ok (f_sb s) a (i_addrs i) (i_size i) -> 0 <= bn < MAXFILE -> saddr a (i_addrs i) bn <> 0 ->
  (forall s', torn_txn Tn s' a ∅ W -> store_only s s' -> Q (saddr a (i_addrs i) bn) s') ->
  wp (bmap ip bn) Q s.
Proof.
  intros Hw Ht HT Hi Hdev Hf Hbn Hn HQ. pose proof (fo_len _ _ _ _ Hf) as Hlen. unfold bmap. wp_step. eapply wp_get_ip; [done|].
  destruct (bn <? NDIRECT) eqn:E.
  - apply Z.ltb_lt in E. rewrite saddr_direct in Hn, HQ by done. fs_nums. wp_step. eapply wp_get_addr; [done|done|lia|].
    rewrite (proj2 (Z.eqb_neq _ _)) by done. wp_step. apply HQ; [done|reflexivity].
  - apply Z.ltb_ge in E. destruct (decide (addr_at (i_addrs i) NDIRECT = 0)) as [E0|Hi0]; [rewrite saddr_no_index in Hn; (done || lia)|].
    rewrite (proj2 (Z.ltb_lt _ NINDIRECT)) by (fs_nums; lia).
    wp_step. eapply wp_get_addr; [done|done|done|]. rewrite (proj2 (Z.eqb_neq _ _) Hi0). unfold bmap_entry. rewrite Hdev. destruct (index_ok _ _ _ _ Hf Hi0) as [Hx Hxu].
    pose proof (ly_data _ (fw_layout _ _ Hw)). destruct (fw_blk _ a (addr_at (i_addrs i) NDIRECT) Hw ltac:(lia)) as [Hax Hlx].
    wp_step. eapply wp_torn_bread; [exact Ht|by eapply data_block|done|by rewrite Hax|done|apply handles_0|].
    intros x s1 Ht1 Hx1 Hs1. wp_step. eapply wp_torn_data; [exact Ht1|apply lookup_insert_eq|by rewrite Hax|].
    rewrite saddr_indirect in Hn, HQ by (done || lia). rewrite (proj2 (Z.eqb_neq _ _) Hn). wp_step. wp_step. wp_step.
    eapply wp_torn_brelse; [exact Ht1|done|done|]. intros s2 Ht2 Hs2. wp_step. apply HQ; [done|by etrans].
Qed.

(** The log has room for two more blocks beside the bitmap. *)
Lemma rsz_le sb W W' : W ⊆ W' -> rsz sb W <= rsz sb W'.
Proof. intros Hs. unfold rsz. assert (W ∪ bitmaps sb ⊆ W' ∪ bitmaps sb) as H%subseteq_size by set_solver. lia. Qed.

Lemma size_rsz sb W : Z.of_nat (size W) <= rsz sb W.
Proof. unfold rsz. assert (W ⊆ W ∪ bitmaps sb) as H%subseteq_size by set_solver. lia. Qed.

Lemma rsz_add sb W c : rsz sb ({[c]} ∪ W) <= rsz sb W + 1.
Proof. unfold rsz. rewrite <- union_assoc_L. pose proof (size_add c (W ∪ bitmaps sb)). lia. Qed.

Lemma bitmaps_in sb b : layout sb -> 0 <= b < sb_size sb -> BBLOCK b sb ∈ bitmaps sb.
Proof.
  intros L Hb. destruct (BBLOCK_range _ _ L Hb) as [E _]. unfold bitmaps. rewrite elem_of_list_to_set, elem_of_seqZ, E.
  unfold BPB, BSIZE. assert (0 <= b / (1024 * 8) <= (sb_size sb - 1) / (1024 * 8)); [|lia].
  split; [zdiv|apply Z.div_le_mono; lia].
Qed.

Lemma rsz_bitmap sb W b : layout sb -> 0 <= b < sb_size sb -> rsz sb ({[BBLOCK b sb]} ∪ W) = rsz sb W.
Proof.
  intros L Hb. unfold rsz. pose proof (bitmaps_in _ _ L Hb). do 2 f_equal. set_solver.
Qed.

Lemma rsz_alloc sb W r : layout sb -> 0 <= r < sb_size sb -> rsz sb ({[r]} ∪ ({[BBLOCK r sb]} ∪ W)) <= rsz sb W + 1.
Proof. intros L Hr. etrans; [apply rsz_add|]. by rewrite rsz_bitmap. Qed.

(** What [bmap] leaves behind when it returns [r] for block [bn]. *)
Record bmap_post (s : fs_st T) (a : blocks) (W : gset Z) (ip : Z) (i : inode) (bn r : Z)
    (s' : fs_st T) (a' : blocks) (ad' : list Z) (W' : gset Z) : Prop := {
  bp_txn : txn s' a' ∅ W';
  bp_same : others_same ip s s';
  bp_inode : inode_at s' ip (set_iaddrs ad' i);
  bp_grows : grows (f_sb s) a (i_addrs i) (i_size i) a' ad';
  bp_addr : r = saddr a' ad' bn;
  bp_full : r = 0 -> forall j, 0 <= j < sb_size (f_sb s) -> used (f_sb s) a' j = true;
  bp_room : rsz (f_sb s) W' <= rsz (f_sb s) W + 2;
  bp_room' : r <> 0 -> rsz (f_sb s) ({[r]} ∪ W') <= rsz (f_sb s) W + 2;
  bp_logged : (saddr a (i_addrs i) bn <> 0 -> W' = W) /\ W' ⊆ {[r; saddr a' ad' MAXFILE]} ∪ (W ∪ bitmaps (f_sb s))
}.

Lemma wp_bmap_entry s a W ip i bn Q :
  fs_wf (f_sb s) a -> txn s a ∅ W -> inode_at s ip i ->
  file_ok (f_sb s) a (i_addrs i) (i_size i) -> NDIRECT <= bn < MAXFILE -> addr_at (i_addrs i) NDIRECT <> 0 ->
  saddr a (i_addrs i) bn = 0 -> rsz (f_sb s) ({[addr_at (i_addrs i) NDIRECT]} ∪ W) + 1 < LOGBLOCKS ->
  (forall r s' a' W', txn s' a' ∅ W' -> store_only s s' -> grows (f_sb s) a (i_addrs i) (i_size i) a' (i_addrs i) ->
     r = saddr a' (i_addrs i) bn -> (r = 0 -> forall j, 0 <= j < sb_size (f_sb s) -> used (f_sb s) a' j = true) ->
     W' ⊆ {[r]} ∪ ({[addr_at (i_addrs i) NDIRECT]} ∪ (W ∪ bitmaps (f_sb s))) -> Q r s') ->
  wp (bmap_entry ROOTDEV (addr_at (i_addrs i) NDIRECT) (bn - NDIRECT)) Q s.
Proof.
  intros Hw Ht Hi Hf Hbn Hi0 Hn Hrm HQ. set (sb := f_sb s) in *. set (x := addr_at (i_addrs i) NDIRECT) in *.
  pose proof (fw_layout _ _ Hw) as L. pose proof (ly_data _ L) as Hd.
  destruct (index_ok _ _ _ _ Hf Hi0) as [Hx Hxu]. fold x in Hx, Hxu.
  destruct (fw_blk _ a x Hw ltac:(lia)) as [Hax Hlx]. unfold bmap_entry.
  assert (rsz sb W <= rsz sb ({[x]} ∪ W)) as Hle by (apply rsz_le; set_solver). pose proof (size_rsz sb W) as HsW.
  wp_step. eapply wp_fs_bread; [exact Ht|by eapply data_block|by rewrite Hax|done|apply handles_0|].
  intros y s1 Ht1 Hy1 Hs1. wp_step. eapply wp_fs_data; [exact Ht1|apply lookup_insert_eq|by rewrite Hax|].
  pose proof Hn as Hn'. rewrite saddr_indirect in Hn' by done. fold x in Hn'. rewrite Hn'. change (0 =? 0) with true. cbv iota.
  wp_step. wp_step. pose proof (store_only_sb _ _ Hs1) as Esb1.
  eapply (wp_balloc s1); [by rewrite Esb1|exact Ht1| |apply handles_1|lia| |]; rewrite ?Esb1.
  { intros z c u [[-> E]|[_ ?]]%lookup_insert_Some; [|done]. by injection E as <- <-. }
  - intros s2 Ht2 Hs2 Hall. change (0 =? 0) with true. cbv iota. do 4 wp_step. eapply wp_fs_brelse; [exact Ht2|done|].
    intros s3 Ht3 Hs3. wp_step. apply (HQ 0 s3 a W Ht3); [|by apply grows_refl|done|done|clear; set_solver].
    etrans; [exact Hs1|]. by etrans.
  - intros r s2 Ht2 Hs2 Hr Hur _. fold sb in Ht2, Hr, Hur |- *. rewrite (proj2 (Z.eqb_neq r 0)) by lia.
    pose proof (blk_allocated sb a r x Hw Hr Hur ltac:(lia) Hxu) as Ebx.
    assert (allocated sb a r !! x = Some (blk a x)) as Hax2 by (rewrite alloc_data; (done || lia)).
    wp_step. apply wp_bind. eapply wp_fs_store_log; [exact Ht2|by rewrite Hax2| |].
    { pose proof (rsz_alloc sb W r L ltac:(lia)). pose proof (size_rsz sb ({[r]} ∪ ({[BBLOCK r sb]} ∪ W))). lia. }
    intros s3 Ht3 Hs3. wp_step. wp_step. eapply wp_fs_brelse; [exact Ht3|done|]. intros s4 Ht4 Hs4. wp_step.
    pose proof (grows_indirect sb a (i_addrs i) (i_size i) bn r Hw Hf Hbn Hi0 Hn Hr Hur) as Hg. fold x in Hg.
    eapply (HQ r s4 _ _ Ht4); [|exact Hg| |lia|].
    + etrans; [exact Hs1|]. etrans; [exact Hs2|]. by etrans.
    + rewrite saddr_indirect by done. fold x. rewrite blk_eq, rd32u_wr32; fs_nums.
      * pose proof (ly_size _ L). unfold BPB in *. fs_nums. rewrite u32_small; lia.
      * lia.
      * rewrite Ebx, Hlx. lia.
    + pose proof (bitmaps_in sb r L ltac:(lia)). set_solver.
Qed.

Lemma set_iaddrs_id i : set_iaddrs (i_addrs i) i = i.
Proof. by destruct i. Qed.

Lemma others_same_sb ip s s' : others_same ip s s' -> f_sb s' = f_sb s.
Proof. apply os_sb. Qed.

Lemma rsz_sub sb W W' (X : gset Z) : W' ⊆ X ∪ (W ∪ bitmaps sb) -> rsz sb W' <= Z.of_nat (size X) + rsz sb W.
Proof.
  intros Hs. unfold rsz. assert (W' ∪ bitmaps sb ⊆ X ∪ (W ∪ bitmaps sb)) as H by set_solver.
  apply subseteq_size in H. rewrite (size_union_alt X) in H. assert ((W ∪ bitmaps sb) ∖ X ⊆ W ∪ bitmaps sb) as H'%subseteq_size by set_solver.
  lia.
Qed.

Lemma size_pair (b c : Z) : (size ({[b; c]} : gset Z) <= 2)%nat.
Proof. pose proof (size_add b {[c]}) as H. rewrite size_singleton in H. lia. Qed.

Lemma wp_bmap s a W ip i bn Q :
  fs_wf (f_sb s) a -> txn s a ∅ W -> inode_at s ip i -> i_dev i = ROOTDEV ->
  file_ok (f_sb s) a (i_addrs i) (i_size i) -> 0 <= bn < MAXFILE -> rsz (f_sb s) W + 2 < LOGBLOCKS ->
  (forall r s' a' ad' W', bmap_post s a W ip i bn r s' a' ad' W' -> Q r s') ->
  wp (bmap ip bn) Q s.
Proof.
  intros Hw Ht Hi Hdev Hf Hbn Hrm HQ. pose proof (fw_layout _ _ Hw) as L. pose proof (ly_data _ L) as Hd.
  destruct (decide (saddr a (i_addrs i) bn = 0)) as [Hn|Hn].
  2: { eapply (wp_bmap_hit ∅); try done. intros s' Ht' Hs'. apply (HQ _ s' a (i_addrs i) W). split; try done.
    - by apply store_only_others.
    - rewrite set_iaddrs_id. by eapply store_only_inode.
    - lia.
    - intros _. pose proof (rsz_add (f_sb s) W (saddr a (i_addrs i) bn)). lia.
    - split; [done|clear; set_solver]. }
  pose proof (fo_len _ _ _ _ Hf) as Hlen. pose proof (size_rsz (f_sb s) W) as HsW.
  assert (held_data (f_sb s) a ∅) as Hhd by (intros x c u Hx; by rewrite lookup_empty in Hx).
  unfold bmap. wp_step. eapply wp_get_ip; [done|]. destruct (bn <? NDIRECT) eqn:E.
  - apply Z.ltb_lt in E. rewrite saddr_direct in Hn by done. wp_step. eapply wp_get_addr; [done|done|fs_nums; lia|].
    rewrite Hn. change (0 =? 0) with true. cbv iota. rewrite Hdev. wp_step.
    eapply (wp_balloc s); [done|exact Ht|done|apply handles_0|lia| |].
    + intros s1 Ht1 Hs1 Hall. change (0 =? 0) with true. cbv iota. wp_step. apply (HQ 0 s1 a (i_addrs i) W).
      split; try done; [by apply store_only_others|rewrite set_iaddrs_id; by eapply store_only_inode| |lia|].
      * by rewrite saddr_direct.
      * split; [done|clear; set_solver].
    + intros r s1 Ht1 Hs1 Hr Hur _. rewrite (proj2 (Z.eqb_neq r 0)) by lia. wp_step.
      eapply wp_set_addr; [by eapply store_only_inode|done|fs_nums; lia|]. intros s2 Est Hos Hi2. wp_step.
      eapply (HQ r s2). pose proof (rsz_alloc (f_sb s) W r L ltac:(lia)) as Hra.
      split; [unfold txn, torn_txn; rewrite Est; exact Ht1|etrans; [by apply store_only_others|exact Hos]|exact Hi2| | |lia|lia| |].
      * apply grows_addr; (done || lia).
      * rewrite saddr_direct, addr_at_insert by (done || fs_nums; lia). by rewrite decide_True.
      * intros _. replace ({[r]} ∪ ({[r]} ∪ ({[BBLOCK r (f_sb s)]} ∪ W))) with ({[r]} ∪ ({[BBLOCK r (f_sb s)]} ∪ W)) by (clear; set_solver). lia.
      * split; [by rewrite saddr_direct|]. pose proof (bitmaps_in (f_sb s) r L ltac:(lia)) as Hbm. clear -Hbm. set_solver.
  - apply Z.ltb_ge in E. rewrite (proj2 (Z.ltb_lt _ NINDIRECT)) by (fs_nums; lia).
    wp_step. eapply wp_get_addr; [done|done|done|]. destruct (Z.eqb_spec (addr_at (i_addrs i) NDIRECT) 0) as [E0|E0].
    + wp_step. rewrite Hdev. eapply (wp_balloc s); [done|exact Ht|done|apply handles_0|lia| |].
      * intros s1 Ht1 Hs1 Hall. change (0 =? 0) with true. cbv iota. wp_step. apply (HQ 0 s1 a (i_addrs i) W).
        split; try done; [by apply store_only_others|rewrite set_iaddrs_id; by eapply store_only_inode|lia|]. split; [done|clear; set_solver].
      * intros x s1 Ht1 Hs1 Hx Hux _. rewrite (proj2 (Z.eqb_neq x 0)) by lia. wp_step.
        eapply wp_set_addr; [by eapply store_only_inode|done|done|]. intros s2 Est Hos Hi2.
        assert (others_same ip s s2) as Hos2 by (etrans; [by apply store_only_others|exact Hos]).
        pose proof (os_sb _ _ _ Hos2) as Esb2. set (ad1 := <[Z.to_nat NDIRECT := x]> (i_addrs i)) in *.
        pose proof (grows_addr (f_sb s) a (i_addrs i) (i_size i) NDIRECT x Hw Hf ltac:(done) E0 Hx Hux) as Hg1. fold ad1 in Hg1.
        assert (addr_at ad1 NDIRECT = x) as Eax by (unfold ad1; rewrite addr_at_insert by done; by rewrite decide_True).
        assert (x = addr_at (i_addrs (set_iaddrs ad1 i)) NDIRECT) as Eax' by (by rewrite <- Eax).
        pose proof (rsz_alloc (f_sb s) W x L ltac:(lia)) as Hra. rewrite Eax'.
        eapply (wp_bmap_entry s2 (allocated (f_sb s) a x) _ ip (set_iaddrs ad1 i)); rewrite ?Esb2, <- ?Eax'.
        -- apply Hg1.
        -- unfold txn, torn_txn. rewrite Est. exact Ht1.
        -- exact Hi2.
        -- apply Hg1.
        -- lia.
        -- lia.
        -- rewrite saddr_indirect; change (i_addrs (set_iaddrs ad1 i)) with ad1; rewrite ?Eax; [|lia|lia].
           rewrite (blk_some _ _ zero_blk); [apply rd32u_zero|apply allocated_self].
        -- replace ({[x]} ∪ ({[x]} ∪ ({[BBLOCK x (f_sb s)]} ∪ W))) with ({[x]} ∪ ({[BBLOCK x (f_sb s)]} ∪ W)) by (clear; set_solver). lia.
        -- change (i_addrs (set_iaddrs ad1 i)) with ad1. change (i_size (set_iaddrs ad1 i)) with (i_size i).
           intros r s3 a3 W3 Ht3 Hs3 Hg3 Er Hfull HW3. apply (HQ r s3 a3 ad1 W3).
           assert (W3 ⊆ {[r; x]} ∪ (W ∪ bitmaps (f_sb s))) as HW3'.
           { pose proof (bitmaps_in (f_sb s) x L ltac:(lia)). clear -HW3 H. set_solver. }
           split; [exact Ht3|etrans; [exact Hos2|by apply store_only_others]|by eapply store_only_inode| |done|done| | |].
           ++ by eapply grows_compose.
           ++ pose proof (rsz_sub _ _ _ _ HW3') as Hsub. pose proof (size_pair r x). lia.
           ++ intros _. assert ({[r]} ∪ W3 ⊆ {[r; x]} ∪ (W ∪ bitmaps (f_sb s))) as HW4 by (clear -HW3'; set_solver).
              pose proof (rsz_sub _ _ _ _ HW4) as Hsub. pose proof (size_pair r x). lia.
           ++ split; [done|]. by rewrite saddr_index, Eax.
    + rewrite Hdev. pose proof (rsz_add (f_sb s) W (addr_at (i_addrs i) NDIRECT)) as Hra.
      eapply (wp_bmap_entry s a W ip i); try done; [lia|lia|].
      intros r s3 a3 W3 Ht3 Hs3 Hg3 Er Hfull HW3. apply (HQ r s3 a3 (i_addrs i) W3). set (x := addr_at (i_addrs i) NDIRECT) in *.
      assert (W3 ⊆ {[r; x]} ∪ (W ∪ bitmaps (f_sb s))) as HW3' by (clear -HW3; set_solver).
      split; [exact Ht3|by apply store_only_others|rewrite set_iaddrs_id; by eapply store_only_inode|done|done|done| | |by split].
      * pose proof (rsz_sub _ _ _ _ HW3') as Hsub. pose proof (size_pair r x). lia.
      * intros _. assert ({[r]} ∪ W3 ⊆ {[r; x]} ∪ (W ∪ bitmaps (f_sb s))) as HW4 by (clear -HW3'; set_solver).
        pose proof (rsz_sub _ _ _ _ HW4) as Hsub. pose proof (size_pair r x). lia.
Qed.

End File.
