(* ===== verification/FsRw.v ===== *)
(** * Reading and writing files

    The rules for [readi], [writei] and [iupdate] in terms of
    [file_bytes]. *)

From Stdlib Require Import ZArith Lia Bool String.
From stdpp Require Import base gmap list strings functions.
From S2P Require Import Prelude Mem Spinlock Sleeplock Bio BioProof Log LogProof BlockStore Fs FsBytes FsAlloc FsFile.

Section Rw.
Context {T : Type} `{HM : HasMach T} {BO : BlockOps T} {BS : BlockStore T}.

(** ** readi *)

Lemma seqZ_split off m n : 0 <= m -> m <= n -> seqZ off n = seqZ off m ++ seqZ (off + m) (n - m).
Proof. intros. replace n with (m + (n - m)) at 1 by lia. rewrite seqZ_app by lia. done. Qed.

Lemma div_mod_add off j : 0 <= off -> 0 <= j -> off mod BSIZE + j < BSIZE ->
  (off + j) / BSIZE = off / BSIZE /\ (off + j) mod BSIZE = off mod BSIZE + j.
Proof. intros. fs_nums. split; zdiv. Qed.

Lemma bytes_fbyte a ad off m : 0 <= off -> 0 <= m -> off mod BSIZE + m <= BSIZE ->
  bytes_from (blk a (saddr a ad (off / BSIZE))) (off mod BSIZE) m = fbyte a ad <$> seqZ off m.
Proof.
  intros Ho Hm Hb. apply list_eq. intros k. unfold bytes_from. rewrite !list_lookup_fmap.
  destruct (decide (k < Z.to_nat m)%nat) as [Hk|Hk].
  - assert (forall o, seqZ o m !! k = Some (o + Z.of_nat k)) as E by (intros o; apply lookup_seqZ; lia).
    rewrite !E. simpl. f_equal. unfold fbyte. destruct (div_mod_add off (Z.of_nat k)) as [-> ->]; [lia|lia|lia|done].
  - by rewrite !lookup_ge_None_2 by (rewrite length_seqZ; lia).
Qed.

(** The number of blocks a transfer still touches is below the fuel. *)
Definition enough (fuel : nat) (off rem : Z) : Prop :=
  (0 < fuel)%nat /\ (0 < rem -> off mod BSIZE + rem <= BSIZE * (Z.of_nat fuel - 1)).

Definition chunk (off rem : Z) : Z := Z.min rem (BSIZE - off mod BSIZE).

Lemma chunk_ok fuel off rem : 0 <= off -> 0 < rem -> enough (S fuel) off rem ->
  0 < chunk off rem <= rem /\ off mod BSIZE + chunk off rem <= BSIZE /\ enough fuel (off + chunk off rem) (rem - chunk off rem).
Proof.
  intros Ho Hr [_ Hf]. specialize (Hf Hr). unfold enough, chunk. fs_nums.
  pose proof (Z.mod_pos_bound off 1024 ltac:(lia)). split; [lia|]. split; [lia|]. split; [lia|]. intros Hr'.
  replace (Z.min rem (1024 - off mod 1024)) with (1024 - off mod 1024) in * by lia.
  replace ((off + (1024 - off mod 1024)) mod 1024) with 0 by zdiv. lia.
Qed.

Lemma enough_start off n : 0 <= n -> enough (S (Z.to_nat (n / BSIZE + 2))) off n.
Proof.
  intros Hn. split; [lia|]. intros _. fs_nums. pose proof (Z.mod_pos_bound off 1024 ltac:(lia)).
  rewrite Nat2Z.inj_succ, Z2Nat.id; zdiv.
Qed.

Lemma div_block off : 0 <= off < MAXFILE * BSIZE -> 0 <= off / BSIZE < MAXFILE.
Proof. intros. fs_nums. zdiv. Qed.

Lemma size_u32 sb a ad size x : file_ok sb a ad size -> 0 <= x <= size -> u32 x = x.
Proof. intros Hf Hx. pose proof (fo_size _ _ _ _ Hf). fs_nums. apply u32_small. lia. Qed.

Lemma wp_readi_loop Tn fuel : forall s a W ip i cout off n tot acc (Q : Z * list Z -> fs_st T -> Prop),
  fs_wf (f_sb s) a -> torn_txn Tn s a ∅ W -> saddr a (i_addrs i) MAXFILE ∉ Tn -> inode_at s ip i -> i_dev i = ROOTDEV ->
  file_ok (f_sb s) a (i_addrs i) (i_size i) -> 0 <= off -> 0 <= tot <= n -> off + (n - tot) <= i_size i ->
  enough fuel off (n - tot) -> (forall x, off <= x < off + (n - tot) -> saddr a (i_addrs i) (x / BSIZE) ∉ Tn) ->
  (forall s', torn_txn Tn s' a ∅ W -> store_only s s' -> Q (n, acc ++ (fbyte a (i_addrs i) <$> seqZ off (n - tot))) s') ->
  (forall s' m, torn_txn Tn s' a ∅ W -> store_only s s' -> 0 <= m < n - tot ->
     cout (tot + m) (fbyte a (i_addrs i) <$> seqZ (off + m) (chunk (off + m) (n - (tot + m)))) = false ->
     Q (-1, acc ++ (fbyte a (i_addrs i) <$> seqZ off m)) s') ->
  wp (readi_loop fuel cout ip off n tot acc) Q s.
Proof.
  induction fuel as [|fuel IH]; intros s a W ip i cout off n tot acc Q Hw Ht HT Hi Hdev Hf Ho Htot Hsz Hen Hr0 Hok Hbad;
    [by destruct Hen; lia|].
  cbn [readi_loop]. destruct (tot <? n) eqn:E.
  2: { apply Z.ltb_ge in E. wp_step. specialize (Hok s Ht ltac:(reflexivity)). replace tot with n in * by lia.
    rewrite Z.sub_diag in Hok. cbn in Hok. by rewrite app_nil_r in Hok. }
  apply Z.ltb_lt in E. destruct (chunk_ok fuel off (n - tot) Ho ltac:(lia) Hen) as (Hc1 & Hc2 & Hen').
  pose proof (fo_size _ _ _ _ Hf) as Hsmax. set (m := chunk off (n - tot)) in *.
  assert (saddr a (i_addrs i) (off / BSIZE) <> 0) as Hn0.
  { apply (fo_full _ _ _ _ Hf); [apply Z.div_pos; [lia|done]|]. fs_nums. zdiv. }
  pose proof (div_block off ltac:(lia)) as Hbn. wp_step. eapply (wp_bmap_hit Tn); try done. intros s1 Ht1 Hs1.
  rewrite (proj2 (Z.eqb_neq _ _) Hn0). destruct (fo_data _ _ _ _ Hf (off / BSIZE) ltac:(lia) Hn0) as [Hr Hu].
  pose proof (ly_data _ (fw_layout _ _ Hw)). destruct (fw_blk _ a (saddr a (i_addrs i) (off / BSIZE)) Hw ltac:(lia)) as [Hax Hlx].
  wp_step. eapply wp_get_ip; [by eapply store_only_inode|]. rewrite Hdev. wp_step.
  eapply wp_torn_bread; [exact Ht1|eapply data_block; [exact Hw|done]|apply Hr0; lia|by rewrite Hax|done|apply handles_0|].
  intros x s2 Ht2 Hx Hs2. wp_step. eapply wp_torn_data; [exact Ht2|apply lookup_insert_eq|by rewrite Hax|].
  fold (chunk off (n - tot)). fold m. rewrite bytes_fbyte by lia.
  destruct (cout tot (fbyte a (i_addrs i) <$> seqZ off m)) eqn:Ec.
  - wp_step. eapply wp_torn_brelse; [exact Ht2|done|done|]. intros s3 Ht3 Hs3.
    assert (store_only s s3) as Hs13 by (etrans; [exact Hs1|by etrans]). pose proof (store_only_sb _ _ Hs13) as Esb.
    rewrite (size_u32 _ _ _ _ (off + m) Hf) by lia.
    replace (n - tot - m) with (n - (tot + m)) in Hen' by lia.
    apply (IH s3 a W ip i); rewrite ?Esb; try done; [by eapply store_only_inode|lia|lia|lia|intros x' Hx'; apply Hr0; lia| |].
    + intros s4 Ht4 Hs4. rewrite <- app_assoc, <- fmap_app.
      replace (seqZ off m ++ seqZ (off + m) (n - (tot + m))) with (seqZ off (n - tot)); [apply Hok; [done|by etrans]|].
      rewrite (seqZ_split off m (n - tot)) by lia. do 2 f_equal. lia.
    + intros s4 k Ht4 Hs4 Hk Hck. rewrite <- app_assoc, <- fmap_app.
      replace (seqZ off m ++ seqZ (off + m) k) with (seqZ off (m + k)) by (rewrite (seqZ_split off m (m + k)) by lia; do 2 f_equal; lia).
      apply Hbad; [done|by etrans|lia|]. by rewrite !Z.add_assoc.
  - wp_step. eapply wp_torn_brelse; [exact Ht2|done|done|]. intros s3 Ht3 Hs3. wp_step.
    specialize (Hbad s3 0 Ht3 ltac:(etrans; [exact Hs1|by etrans]) ltac:(lia)). rewrite !Z.add_0_r in Hbad.
    specialize (Hbad Ec). change (seqZ off 0) with (@nil Z) in Hbad. by rewrite fmap_nil, app_nil_r in Hbad.
Qed.

Lemma file_bytes_range a i off n : 0 <= off -> 0 <= n -> off + n <= i_size i ->
  fbyte a (i_addrs i) <$> seqZ off n = take (Z.to_nat n) (drop (Z.to_nat off) (file_bytes a i)).
Proof.
  intros Ho Hn Hs. unfold file_bytes. apply list_eq. intros k. rewrite list_lookup_fmap.
  destruct (decide (k < Z.to_nat n)%nat) as [Hk|Hk].
  - rewrite lookup_take_lt, lookup_drop, list_lookup_fmap by done.
    assert (seqZ off n !! k = Some (off + Z.of_nat k)) as -> by (apply lookup_seqZ; lia).
    assert (seqZ 0 (i_size i) !! (Z.to_nat off + k)%nat = Some (0 + Z.of_nat (Z.to_nat off + k))) as -> by (apply lookup_seqZ; lia).
    simpl. do 2 f_equal. lia.
  - rewrite lookup_take_ge by lia. by rewrite lookup_ge_None_2 by (rewrite length_seqZ; lia).
Qed.

Lemma length_file_bytes a i : length (file_bytes a i) = Z.to_nat (i_size i).
Proof. unfold file_bytes. by rewrite length_fmap, length_seqZ. Qed.

(** [readi] delivers the bytes of the file in the range asked for, cut at the
    end of the file. *)
Lemma wp_torn_readi Tn s a W ip i cout off n (Q : Z * list Z -> fs_st T -> Prop) :
  fs_wf (f_sb s) a -> torn_txn Tn s a ∅ W -> saddr a (i_addrs i) MAXFILE ∉ Tn -> inode_at s ip i -> i_dev i = ROOTDEV ->
  file_ok (f_sb s) a (i_addrs i) (i_size i) -> 0 <= off < 2 ^ 32 -> 0 <= n < 2 ^ 31 ->
  (forall x, off <= x < off + n -> x < i_size i -> saddr a (i_addrs i) (x / BSIZE) ∉ Tn) ->
  let bytes := take (Z.to_nat n) (drop (Z.to_nat off) (file_bytes a i)) in
  (forall s', torn_txn Tn s' a ∅ W -> store_only s s' -> Q (Z.of_nat (length bytes), bytes) s') ->
  (forall s' m k, torn_txn Tn s' a ∅ W -> store_only s s' -> cout m (take k (drop (Z.to_nat m) bytes)) = false ->
     Q (-1, take (Z.to_nat m) bytes) s') ->
  wp (readi cout ip off n) Q s.
Proof.
  intros Hw Ht HT Hi Hdev Hf Ho Hn Hr0 bytes Hok Hbad. pose proof (fo_size _ _ _ _ Hf) as Hsz. unfold readi. wp_step.
  eapply wp_get_ip; [done|]. destruct (i_size i <? off) eqn:E1; cbn [orb].
  { apply Z.ltb_lt in E1. wp_step. assert (bytes = []) as Eb.
    { unfold bytes. rewrite drop_ge by (rewrite length_file_bytes; lia). by rewrite take_nil. }
    rewrite Eb in Hok. apply Hok; [done|reflexivity]. }
  apply Z.ltb_ge in E1. assert (u32 (off + n) = off + n) as Eu by (fs_nums; apply u32_small; lia). rewrite !Eu.
  rewrite (proj2 (Z.ltb_ge (off + n) off)) by lia. cbv iota.
  set (n' := if i_size i <? off + n then i_size i - off else n).
  assert (n' = Z.min n (i_size i - off)) as En' by (unfold n'; destruct (Z.ltb_spec (i_size i) (off + n)); lia).
  assert (bytes = fbyte a (i_addrs i) <$> seqZ off n') as Eb.
  { rewrite file_bytes_range by lia. unfold bytes. rewrite En'. destruct (decide (n <= i_size i - off)); [by rewrite Z.min_l by lia|].
    rewrite !take_ge; [done|rewrite length_drop, length_file_bytes; lia|rewrite length_drop, length_file_bytes; lia]. }
  eapply (wp_readi_loop Tn); try done; [lia|lia|lia|rewrite Z.sub_0_r; apply enough_start; lia|intros x Hx; apply Hr0; lia| |].
  - intros s' Ht' Hs'. rewrite Z.sub_0_r. cbn [app]. specialize (Hok s' Ht' Hs'). rewrite Eb, length_fmap, length_seqZ in Hok.
    by replace (Z.of_nat (Z.to_nat n')) with n' in Hok by lia.
  - intros s' m Ht' Hs' Hm Hc. rewrite Z.sub_0_r, Z.add_0_l in *. cbn [app]. set (k := chunk (off + m) (n' - m)) in *.
    assert (0 <= k <= n' - m) as Hk by (unfold k, chunk; pose proof (Z.mod_pos_bound (off + m) BSIZE ltac:(done)); lia).
    specialize (Hbad s' m (Z.to_nat k) Ht' Hs'). rewrite Eb in Hbad.
    rewrite (seqZ_split off m n') in Hbad by lia. rewrite (seqZ_split (off + m) k (n' - m)), !fmap_app in Hbad by lia.
    rewrite drop_app_length', take_app_length' in Hbad by (rewrite length_fmap, length_seqZ; lia).
    rewrite take_app_length' in Hbad by (rewrite length_fmap, length_seqZ; lia). by apply Hbad.
Qed.

Lemma wp_readi s a W ip i cout off n (Q : Z * list Z -> fs_st T -> Prop) :
  fs_wf (f_sb s) a -> txn s a ∅ W -> inode_at s ip i -> i_dev i = ROOTDEV ->
  file_ok (f_sb s) a (i_addrs i) (i_size i) -> 0 <= off < 2 ^ 32 -> 0 <= n < 2 ^ 31 ->
  let bytes := take (Z.to_nat n) (drop (Z.to_nat off) (file_bytes a i)) in
  (forall s', txn s' a ∅ W -> store_only s s' -> Q (Z.of_nat (length bytes), bytes) s') ->
  (forall s' m k, txn s' a ∅ W -> store_only s s' -> cout m (take k (drop (Z.to_nat m) bytes)) = false ->
     Q (-1, take (Z.to_nat m) bytes) s') ->
  wp (readi cout ip off n) Q s.
Proof. intros Hw Ht. intros. by apply (wp_torn_readi ∅ s a W ip i cout off n Q); try done; set_solver. Qed.

(** ** iupdate *)

(** Inode [inum] as it is on disk. *)
Definition disk_inode (sb : superblock) (a : blocks) (inum : Z) : dinode :=
  rd_dinode (blk a (IBLOCK inum sb)) (dinode_off inum).

Definition iupdated (sb : superblock) (a : blocks) (i : inode) : blocks :=
  <[IBLOCK (i_inum i) sb := wr_dinode (blk a (IBLOCK (i_inum i) sb)) (dinode_off (i_inum i)) (dinode_of i)]> a.

Lemma dinode_off_range inum : 0 <= dinode_off inum /\ dinode_off inum + sizeof_dinode <= 1024.
Proof.
  unfold dinode_off, sizeof_dinode. change IPB with 16. pose proof (Z.mod_pos_bound inum 16 ltac:(lia)). lia.
Qed.

Lemma inode_block sb a inum : fs_wf sb a -> 0 <= inum < sb_ninodes sb ->
  0 <= IBLOCK inum sb < sb_bmapstart sb /\ sb_bmapstart sb < dstart sb /\ bs_block (IBLOCK inum sb) /\
  a !! IBLOCK inum sb = Some (blk a (IBLOCK inum sb)) /\ length (blk a (IBLOCK inum sb)) = 1024%nat.
Proof.
  intros Hw Hi. pose proof (fw_layout _ _ Hw) as L. destruct (IBLOCK_range _ _ L Hi) as [_ Hr]. destruct L as [L1 L2 L3 L4 L5 L6 L7].
  assert (0 <= (sb_size sb - 1) / BPB) by (apply Z.div_pos; [lia|done]).
  split; [lia|]. split; [lia|]. split; [apply L7; lia|]. apply (fw_blk sb); [done|lia].
Qed.

Lemma wp_iupdate Tn s a W ip i Q :
  fs_wf (f_sb s) a -> torn_txn Tn s a ∅ W -> (forall c, c ∈ Tn -> sb_bmapstart (f_sb s) <= c) ->
  inode_at s ip i -> i_dev i = ROOTDEV -> 0 <= i_inum i < sb_ninodes (f_sb s) ->
  Z.of_nat (size W) < LOGBLOCKS ->
  (forall s', torn_txn Tn s' (iupdated (f_sb s) a i) ∅ ({[IBLOCK (i_inum i) (f_sb s)]} ∪ W) -> store_only s s' -> Q tt s') ->
  wp (iupdate ip) Q s.
Proof.
  intros Hw Ht HT Hi Hdev Hin Hs HQ. destruct (inode_block _ _ _ Hw Hin) as (Hr & _ & Hb & Ha & _).
  unfold iupdate. wp_step. apply wp_gets. wp_step. eapply wp_get_ip; [done|]. rewrite Hdev. wp_step.
  eapply wp_torn_bread; [exact Ht|done| |by rewrite Ha|done|apply handles_0|].
  { intros Hin'%HT. lia. }
  intros x s1 Ht1 Hx Hs1. eapply wp_torn_finish; [exact Ht1|done|by rewrite Ha|done|]. intros s2 Ht2 Hs2. apply HQ; [done|by etrans].
Qed.

Lemma iupdated_ge sb a i c : fs_wf sb a -> 0 <= i_inum i < sb_ninodes sb -> sb_bmapstart sb <= c ->
  iupdated sb a i !! c = a !! c.
Proof.
  intros Hw Hi Hc. destruct (inode_block _ _ _ Hw Hi) as (Hr & _). unfold iupdated. rewrite lookup_insert_ne; [done|]. lia.
Qed.

Lemma iupdated_wf sb a i : fs_wf sb a -> 0 <= i_inum i < sb_ninodes sb -> length (i_addrs i) = 13%nat ->
  fs_wf sb (iupdated sb a i) /\ forall c, 0 <= c < sb_size sb -> used sb (iupdated sb a i) c = used sb a c.
Proof.
  intros Hw Hi Hl. destruct (inode_block _ _ _ Hw Hi) as (Hr & Hd & _ & _ & Hlen). pose proof (fw_layout _ _ Hw) as L.
  assert (forall c, 0 <= c < sb_size sb -> used sb (iupdated sb a i) c = used sb a c) as Hu.
  { intros c Hc. apply used_insert_ne. destruct (BBLOCK_range _ _ L Hc). lia. }
  split; [|done]. pose proof (ly_data _ L). apply fs_wf_insert; [done| |].
  - destruct (dinode_off_range (i_inum i)). rewrite <- Hlen. apply wr_dinode_outside; rewrite ?Hlen; (done || lia).
  - intros c Hc. rewrite <- (fw_meta _ _ Hw c) by done. apply Hu. lia.
Qed.

Lemma IBLOCK_same sb i j : layout sb -> 0 <= i < sb_ninodes sb -> 0 <= j < sb_ninodes sb -> i <> j ->
  IBLOCK i sb = IBLOCK j sb -> dinode_off i + sizeof_dinode <= dinode_off j \/ dinode_off j + sizeof_dinode <= dinode_off i.
Proof.
  intros L Hi Hj Hne E. rewrite (proj1 (IBLOCK_range _ _ L Hi)), (proj1 (IBLOCK_range _ _ L Hj)) in E.
  unfold dinode_off, sizeof_dinode. change IPB with 16 in *. zdiv.
Qed.

Lemma rd_dinode_outside off d d' o : same_outside off sizeof_dinode d d' -> 0 <= o ->
  o + sizeof_dinode <= off \/ off + sizeof_dinode <= o -> rd_dinode d' o = rd_dinode d o.
Proof.
  unfold sizeof_dinode. intros Hs Ho Hd. unfold rd_dinode.
  rewrite !(rd16_outside _ _ _ _ _ Hs) by lia. rewrite (rd32u_outside _ _ _ _ _ Hs) by lia. f_equal. unfold rd_array.
  apply list_fmap_ext. intros k x Hx. apply lookup_seqZ in Hx as [-> Hx]. apply (rd32u_outside _ _ _ _ _ Hs); lia.
Qed.

Lemma disk_inode_iupdated sb a i inum : fs_wf sb a -> 0 <= i_inum i < sb_ninodes sb -> dinode_ok (dinode_of i) ->
  0 <= inum < sb_ninodes sb ->
  disk_inode sb (iupdated sb a i) inum = if decide (inum = i_inum i) then dinode_of i else disk_inode sb a inum.
Proof.
  intros Hw Hi Hok Hj. pose proof (fw_layout _ _ Hw) as L. destruct (inode_block _ _ _ Hw Hi) as (_ & _ & _ & _ & Hlen).
  destruct (dinode_off_range (i_inum i)) as [D1 D2], (dinode_off_range inum) as [D3 D4].
  unfold disk_inode, iupdated. case_decide as E.
  - subst inum. rewrite blk_eq. apply rd_wr_dinode; [done|by rewrite Hlen|done].
  - destruct (decide (IBLOCK (i_inum i) sb = IBLOCK inum sb)) as [Eb|Nb]; [|by rewrite blk_ne].
    rewrite <- Eb, blk_eq. eapply rd_dinode_outside; [apply wr_dinode_outside; [done|by rewrite Hlen|apply Hok]|done|].
    assert (i_inum i <> inum) as Hne by done. destruct (IBLOCK_same sb _ _ L Hi Hj Hne Eb); lia.
Qed.

(** Files do not see the inode blocks. *)
Lemma file_ext sb a a' ad size : fs_wf sb a -> file_ok sb a ad size ->
  (forall c, dstart sb <= c < sb_size sb -> a' !! c = a !! c) -> (forall c, 0 <= c < sb_size sb -> used sb a' c = used sb a c) ->
  file_ok sb a' ad size /\ (forall k, saddr a' ad k = saddr a ad k) /\
  (forall k, 0 <= k -> k * BSIZE < size -> blk a' (saddr a ad k) = blk a (saddr a ad k)).
Proof.
  intros Hw Hf He Hu. pose proof (ly_data _ (fw_layout _ _ Hw)) as Hd. pose proof (fo_size _ _ _ _ Hf) as Hsz.
  assert (forall k, saddr a' ad k = saddr a ad k) as Es.
  { intros k. apply saddr_ext. intros Hn. destruct (index_ok _ _ _ _ Hf Hn). unfold blk. by rewrite He. }
  split; [|split; [done|]].
  - destruct Hf as [F1 F2 F3 F4 F5]. split; try done; setoid_rewrite Es; try done.
    intros k Hk Hn. destruct (F3 k Hk Hn). split; [done|]. by rewrite Hu by lia.
  - intros k Hk Hs. destruct (fo_data _ _ _ _ Hf k) as [? _]; [fs_nums; lia|by apply (fo_full _ _ _ _ Hf)|].
    unfold blk. by rewrite He.
Qed.

Lemma fbyte_ext a a' ad size x : 0 <= x < size ->
  (forall k, saddr a' ad k = saddr a ad k) ->
  (forall k, 0 <= k -> k * BSIZE < size -> blk a' (saddr a ad k) = blk a (saddr a ad k)) ->
  fbyte a' ad x = fbyte a ad x.
Proof.
  intros Hx Es Eb. unfold fbyte. rewrite Es, Eb; [done|apply Z.div_pos; [lia|done]|]. fs_nums. zdiv.
Qed.

(** ** writei *)

(** The state of the file after the bytes [off0, off) have been stored. *)
Record written (sb : superblock) (a0 : blocks) (ad0 : list Z) (size0 off0 : Z) (src : Z -> Z)
    (a : blocks) (ad : list Z) (off : Z) : Prop := {
  wn_wf : fs_wf sb a;
  wn_ok : file_ok sb a ad (Z.max size0 off);
  wn_new : forall x, off0 <= x < off -> fbyte a ad x = src (x - off0);
  wn_old : forall x, 0 <= x < size0 -> x < off0 \/ off <= x -> fbyte a ad x = fbyte a0 ad0 x;
  wn_frame : forall c, dstart sb <= c < sb_size sb -> used sb a0 c = true -> ~ own a0 ad0 c ->
    a !! c = a0 !! c /\ used sb a c = true /\ ~ own a ad c;
  wn_meta : forall c, c < sb_bmapstart sb -> a !! c = a0 !! c
}.

Lemma file_ok_le sb a ad size size' : file_ok sb a ad size -> 0 <= size' <= size -> file_ok sb a ad size'.
Proof. intros [F1 F2 F3 F4 F5] Hs. split; try done; [lia|]. intros k Hk H'. apply F5; lia. Qed.

Lemma written_start sb a ad size off src : fs_wf sb a -> file_ok sb a ad size -> 0 <= off <= size ->
  written sb a ad size off src a ad off.
Proof. intros Hw Hf Ho. split; try done; [by rewrite Z.max_l by lia|lia]. Qed.

(** A slot of the file that is in use keeps its contents when the file grows. *)
Lemma grows_fbyte sb a ad size' size a' ad' x : file_ok sb a ad size -> grows sb a ad size' a' ad' -> 0 <= x < size ->
  fbyte a' ad' x = fbyte a ad x.
Proof.
  intros Hf Hg Hx. pose proof (fo_size _ _ _ _ Hf) as Hsz. set (k := x / BSIZE).
  assert (0 <= k < MAXFILE /\ k * BSIZE < size) as [Hk Hks] by (unfold k; fs_nums; split; zdiv).
  pose proof (fo_full _ _ _ _ Hf k ltac:(lia) Hks) as Hn. destruct (fo_data _ _ _ _ Hf k ltac:(lia) Hn) as [Hr Hu].
  unfold fbyte. fold k. rewrite (g_keep _ _ _ _ _ _ Hg) by (done || lia). f_equal. unfold blk.
  rewrite (g_data _ _ _ _ _ _ Hg); [done|done|done|]. intros E. apply (fo_inj _ _ _ _ Hf) in E; [lia|lia|done|done].
Qed.

Lemma grows_own sb a ad size a' ad' c : 0 <= dstart sb -> grows sb a ad size a' ad' -> dstart sb <= c < sb_size sb -> c <> 0 ->
  used sb a c = true -> ~ own a ad c -> ~ own a' ad' c /\ a' !! c = a !! c /\ used sb a' c = true.
Proof.
  intros Hd Hg Hc Hc0 Hu Hn. split; [|split].
  - intros (k & Hk & Ek). destruct (decide (saddr a ad k = 0)) as [E|E].
    + pose proof (g_new _ _ _ _ _ _ Hg k Hk E) as H'. rewrite Ek in H'. rewrite H' in Hu; [done|done].
    + apply Hn. exists k. split; [done|]. by rewrite <- (g_keep _ _ _ _ _ _ Hg).
  - apply (g_data _ _ _ _ _ _ Hg); [done|done|]. intros ->. apply Hn. by exists MAXFILE.
  - apply (g_used _ _ _ _ _ _ Hg); [lia|done].
Qed.

(** [bmap] keeps what has been written so far. *)
Lemma written_grows sb a0 ad0 size0 off0 src a ad off a' ad' :
  0 <= off0 <= off -> off0 <= size0 ->
  written sb a0 ad0 size0 off0 src a ad off -> grows sb a ad size0 a' ad' -> written sb a0 ad0 size0 off0 src a' ad' off.
Proof.
  intros Ho Hos [W1 W2 W3 W4 W5 W6] Hg. pose proof (ly_data _ (fw_layout _ _ W1)) as Hd.
  split.
  - apply Hg.
  - destruct (g_ok _ _ _ _ _ _ Hg) as [F1 F2 F3 F4 F5]. split; try done; [apply W2|]. intros k Hk Hs.
    pose proof (fo_size _ _ _ _ W2) as Hm. pose proof (fo_full _ _ _ _ W2 k Hk Hs).
    rewrite (g_keep _ _ _ _ _ _ Hg); [done| |done]. fs_nums. lia.
  - intros x Hx. rewrite (grows_fbyte _ _ _ _ _ _ _ _ W2 Hg) by lia. by apply W3.
  - intros x Hx Hxo. rewrite (grows_fbyte _ _ _ _ _ _ _ _ W2 Hg) by lia. by apply W4.
  - intros c Hc Hu Hn. destruct (W5 c Hc Hu Hn) as (E1 & E2 & E3).
    destruct (grows_own sb a ad size0 a' ad' c ltac:(lia) Hg Hc ltac:(lia) E2 E3) as (G1 & G2 & G3). split; [congruence|]. done.
  - intros c Hc. rewrite (g_meta _ _ _ _ _ _ Hg) by done. by apply W6.
Qed.

(** Storing [m] bytes in block [off / BSIZE], which is now in use. *)
Lemma written_store sb a0 ad0 size0 off0 src a ad off m r :
  0 <= off0 <= off -> off0 <= size0 -> 0 < m -> off mod BSIZE + m <= BSIZE -> off + m <= MAXFILE * BSIZE ->
  written sb a0 ad0 size0 off0 src a ad off -> saddr a ad (off / BSIZE) = r -> r <> 0 ->
  let d := blit (blk a r) (off mod BSIZE) (src <$> seqZ (off - off0) m) in
  written sb a0 ad0 size0 off0 src (<[r := d]> a) ad (off + m).
Proof.
  intros Ho Hos Hm Hmb Hmax [W1 W2 W3 W4 W5 W6] Er Hr0 d. pose proof (fw_layout _ _ W1) as L. pose proof (ly_data _ L) as Hd.
  set (bn := off / BSIZE) in *. assert (0 <= off mod BSIZE < BSIZE) as Hmod by (apply Z.mod_pos_bound; done).
  assert (0 <= bn < MAXFILE /\ off = bn * BSIZE + off mod BSIZE) as [Hbn Eoff] by (unfold bn; fs_nums; split; zdiv).
  destruct (fo_data _ _ _ _ W2 bn ltac:(lia)) as [Hr Hu]; [congruence|]. rewrite Er in Hr, Hu.
  destruct (fw_blk sb a r W1 ltac:(lia)) as [Har Hlr].
  assert (length (src <$> seqZ (off - off0) m) = Z.to_nat m) as Hlen by (by rewrite length_fmap, length_seqZ).
  assert (forall k, saddr (<[r := d]> a) ad k = saddr a ad k) as Es.
  { intros k. apply saddr_ext. intros Hn. apply blk_ne. rewrite <- saddr_index with (a := a). intros E. rewrite <- Er in E.
    apply (fo_inj _ _ _ _ W2) in E; [lia|lia|done|congruence]. }
  assert (forall c, 0 <= c < sb_size sb -> used sb (<[r := d]> a) c = used sb a c) as Hus by (intros; apply used_data; (done || lia)).
  assert (forall x, 0 <= x < Z.max size0 (off + m) -> fbyte (<[r := d]> a) ad x =
    if decide (off <= x < off + m) then src (x - off0) else fbyte a ad x) as Hfb.
  { intros x Hx. unfold fbyte. rewrite Es. destruct (decide (x / BSIZE = bn)) as [Ex|Nx].
    - rewrite Ex, Er, blk_eq. unfold d. rewrite byte_at_blit, Hlen by (rewrite ?Hlen, ?Hlr; fs_nums; zdiv).
      assert (off mod BSIZE <= x mod BSIZE < off mod BSIZE + Z.of_nat (Z.to_nat m) <-> off <= x < off + m) as Hiff
        by (fs_nums; zdiv).
      destruct (decide (off <= x < off + m)) as [Hin|Hout]; [rewrite decide_True by tauto|by rewrite decide_False by tauto].
      unfold byte_at. rewrite nth_lookup, list_lookup_fmap.
      assert (seqZ (off - off0) m !! Z.to_nat (x mod BSIZE - off mod BSIZE) = Some (x - off0)) as ->; [|done].
      apply lookup_seqZ. fs_nums. split; zdiv.
    - rewrite decide_False by (fs_nums; zdiv). f_equal. apply blk_ne. rewrite <- Er. intros E.
      apply Nx. symmetry. apply (fo_inj _ _ _ _ W2); [lia| |congruence|done]. pose proof (fo_size _ _ _ _ W2). fs_nums. zdiv. }
  split.
  - apply fs_wf_data; [done|by unfold d; rewrite length_blit|lia].
  - destruct W2 as [F1 F2 F3 F4 F5]. split; try done; [fs_nums; lia|..]; setoid_rewrite Es; try done.
    + intros k Hk Hn. destruct (F3 k Hk Hn). split; [done|]. by rewrite Hus by lia.
    + intros k Hk Hs. destruct (decide (k * BSIZE < Z.max size0 off)); [by apply F5|].
      assert (k = bn) as ->; [|congruence]. fs_nums. lia.
  - intros x Hx. rewrite Hfb by lia. case_decide; [done|]. apply W3. lia.
  - intros x Hx Hxo. rewrite Hfb by lia. rewrite decide_False by lia. apply W4; lia.
  - intros c Hc Huc Hn. destruct (W5 c Hc Huc Hn) as (E1 & E2 & E3). rewrite Hus by lia.
    assert (r <> c) as Hrc by (intros ->; apply E3; exists bn; split; [lia|done]). rewrite lookup_insert_ne by done.
    split; [done|]. split; [done|]. intros (k & Hk & Ek). rewrite Es in Ek. apply E3. by exists k.
  - intros c Hc. rewrite lookup_insert_ne; [by apply W6|]. pose proof (ly_bmap _ L).
    assert (0 <= (sb_size sb - 1) / BPB) by (apply Z.div_pos; [|done]; lia). lia.
Qed.

(** The source supplies the bytes [src] of a piece, or fails after some of
    them, as [copyin] does at the first page it cannot read. *)
Definition copies (cin : Z -> Z -> list Z * bool) (src : Z -> Z) : Prop :=
  forall tot m, 0 <= tot -> 0 < m -> let '(bytes, ok) := cin tot m in
    exists p, bytes = src <$> seqZ tot p /\ if ok : bool then p = m else 0 <= p < m.

(** Why a write stops short. *)
Definition stopped (sb : superblock) (a : blocks) (cin : Z -> Z -> list Z * bool) (tot : Z) : Prop :=
  (forall j, 0 <= j < sb_size sb -> used sb a j = true) \/ exists m, 0 < m /\ (cin tot m).2 = false.

(** The blocks torn by a write that stopped at [off], after [tot] bytes: none,
    or the block of the file at [off], when the source failed after some of
    the bytes of a piece. *)
Definition torn_by (cin : Z -> Z -> list Z * bool) (a : blocks) (ad : list Z) (off tot : Z) (Tn : gset Z) : Prop :=
  Tn = ∅ \/ (Tn = {[saddr a ad (off / BSIZE)]} /\ 0 <= off / BSIZE < MAXFILE /\ saddr a ad (off / BSIZE) <> 0 /\
    exists m, 0 < m /\ (cin tot m).2 = false /\ (cin tot m).1 <> []).

(** No piece fails halfway, or no block the write may still reach and that
    has bytes of the file is in the log yet. *)
Definition whole_pieces (cin : Z -> Z -> list Z * bool) : Prop := forall tot m, (cin tot m).2 = false -> (cin tot m).1 = [].
Definition unlogged (a : blocks) (ad : list Z) (size : Z) (W : gset Z) (off : Z) : Prop :=
  forall k, off / BSIZE <= k < MAXFILE -> saddr a ad k <> 0 -> saddr a ad k ∈ W -> size <= k * BSIZE.

Lemma unlogged_start a ad size W off : 0 <= off -> (forall c, own a ad c -> c ∉ W) -> unlogged a ad size W off.
Proof.
  intros Ho HW k Hk Hn Hin. exfalso. apply (HW (saddr a ad k)); [|done]. exists k. split; [|done]. fs_nums. zdiv.
Qed.

Lemma unlogged_bmap sb a ad size W off s ip i r s' a' ad' W' : i_addrs i = ad -> 0 <= off -> 0 <= off / BSIZE < MAXFILE -> f_sb s = sb ->
  fs_wf sb a -> file_ok sb a ad size -> i_size i <= size ->
  unlogged a ad (i_size i) W off -> bmap_post s a W ip i (off / BSIZE) r s' a' ad' W' -> unlogged a' ad' (i_size i) W' off.
Proof.
  intros <- Ho Hbn <- Hw Hf Hsz HU [B1 B2 B3 B4 B5 B6 B7 B8 [B9 B10]] k Hk Hn Hin.
  pose proof (g_ok _ _ _ _ _ _ B4) as Hf'. destruct (decide (saddr a (i_addrs i) k = 0)) as [E0|E0].
  { destruct (decide (k * BSIZE < i_size i)); [|lia]. exfalso. apply (fo_full _ _ _ _ Hf k); lia. }
  pose proof (g_keep _ _ _ _ _ _ B4 k ltac:(lia) E0) as Ek.
  assert (saddr a' ad' k ∈ W) as HW.
  { destruct (decide (k = off / BSIZE)) as [->|Hne]; [by rewrite <- B9 by done|].
    apply B10 in Hin. rewrite !elem_of_union, !elem_of_singleton in Hin. destruct Hin as [[Hr|Hx]|[HW|Hb]]; [| |done|].
    - exfalso. apply Hne. rewrite B5 in Hr. apply (fo_inj _ _ _ _ Hf'); (done || lia).
    - exfalso. assert (k = MAXFILE); [|lia]. apply (fo_inj _ _ _ _ Hf'); (done || lia).
    - exfalso. destruct (fo_data _ _ _ _ Hf' k ltac:(lia) Hn) as [Hd _]. unfold bitmaps in Hb. rewrite elem_of_list_to_set, elem_of_seqZ in Hb. pose proof (ly_bmap _ (fw_layout _ _ Hw)). lia. }
  apply HU; [done|done|by rewrite <- Ek].
Qed.

(** After a piece that fills its block. *)
Lemma unlogged_next sb a ad size W off r n d : fs_wf sb a -> file_ok sb a ad (Z.max size off) -> 0 <= off -> off + n <= MAXFILE * BSIZE ->
  chunk off n < n -> r = saddr a ad (off / BSIZE) -> r <> 0 -> unlogged a ad size W off ->
  unlogged (<[r := d]> a) ad size ({[r]} ∪ W) (off + chunk off n).
Proof.
  intros Hw Hf Ho Hmax Hc Er Hr HU k Hk Hn Hin. unfold chunk in *. pose proof (Z.mod_pos_bound off BSIZE ltac:(done)) as Hmod.
  pose proof (div_block off ltac:(fs_nums; lia)) as Hbn.
  assert (off / BSIZE < k) as Hlt by (fs_nums; zdiv).
  assert (saddr (<[r := d]> a) ad k = saddr a ad k) as E.
  { apply saddr_ext. intros Hx. apply blk_ne. rewrite <- saddr_index with (a := a). intros E'. rewrite Er in E'.
    apply (fo_inj _ _ _ _ Hf) in E'; [lia|lia|done|congruence]. }
  rewrite E in *. apply HU; [lia|done|]. apply elem_of_union in Hin as [Hin%elem_of_singleton|?]; [|done].
  exfalso. rewrite Er in Hin. apply (fo_inj _ _ _ _ Hf) in Hin; [lia|lia|lia|done].
Qed.

(** Bytes stored past the end of the file do not show. *)
Lemma written_beyond sb a0 ad0 size0 off0 src a ad off bytes r : 0 <= off0 <= off -> off0 <= size0 -> size0 <= off -> off < MAXFILE * BSIZE ->
  written sb a0 ad0 size0 off0 src a ad off -> saddr a ad (off / BSIZE) = r -> r <> 0 ->
  off mod BSIZE + Z.of_nat (length bytes) <= BSIZE ->
  written sb a0 ad0 size0 off0 src (<[r := blit (blk a r) (off mod BSIZE) bytes]> a) ad off.
Proof.
  intros Ho Hos Hsz Hmax [W1 W2 W3 W4 W5 W6] Er Hr0 Hlen. pose proof (fw_layout _ _ W1) as L. pose proof (ly_data _ L) as Hd.
  pose proof (Z.mod_pos_bound off BSIZE ltac:(done)) as Hmod. assert (0 <= off / BSIZE < MAXFILE) as Hbn by (fs_nums; zdiv).
  destruct (fo_data _ _ _ _ W2 (off / BSIZE) ltac:(lia)) as [Hr Hu]; [congruence|]. rewrite Er in Hr, Hu.
  destruct (fw_blk sb a r W1 ltac:(lia)) as [Har Hlr]. set (d := blit _ _ _).
  assert (forall k, saddr (<[r := d]> a) ad k = saddr a ad k) as Es.
  { intros k. apply saddr_ext. intros Hn. apply blk_ne. rewrite <- saddr_index with (a := a). intros E. rewrite <- Er in E.
    apply (fo_inj _ _ _ _ W2) in E; [lia|lia|done|congruence]. }
  assert (forall c, 0 <= c < sb_size sb -> used sb (<[r := d]> a) c = used sb a c) as Hus by (intros; apply used_data; (done || lia)).
  assert (forall x, 0 <= x < off -> fbyte (<[r := d]> a) ad x = fbyte a ad x) as Hfb.
  { intros x Hx. unfold fbyte. rewrite Es. destruct (decide (x / BSIZE = off / BSIZE)) as [Ex|Nx].
    - rewrite Ex, Er, blk_eq. unfold d. rewrite byte_at_blit by (rewrite ?Hlr; fs_nums; zdiv). rewrite decide_False; [done|]. fs_nums. zdiv.
    - f_equal. apply blk_ne. rewrite <- Er. intros E. apply Nx. symmetry. apply (fo_inj _ _ _ _ W2); [lia| |congruence|done]. fs_nums. zdiv. }
  split.
  - apply fs_wf_data; [done|by unfold d; rewrite length_blit|lia].
  - destruct W2 as [F1 F2 F3 F4 F5]. split; try done; setoid_rewrite Es; try done.
    intros k Hk Hn. destruct (F3 k Hk Hn). split; [done|]. by rewrite Hus by lia.
  - intros x Hx. rewrite Hfb by lia. by apply W3.
  - intros x Hx Hxo. rewrite Hfb by lia. by apply W4.
  - intros c Hc Huc Hn. destruct (W5 c Hc Huc Hn) as (E1 & E2 & E3). rewrite Hus by lia.
    assert (r <> c) as Hrc by (intros ->; apply E3; exists (off / BSIZE); split; [lia|done]). rewrite lookup_insert_ne by done.
    split; [done|]. split; [done|]. intros (k & Hk & Ek). rewrite Es in Ek. apply E3. by exists k.
  - intros c Hc. rewrite lookup_insert_ne; [by apply W6|]. pose proof (ly_bmap _ L).
    assert (0 <= (sb_size sb - 1) / BPB) by (apply Z.div_pos; [|done]; lia). lia.
Qed.

Lemma wp_writei_loop fuel : forall kf s a0 ad0 a W ip i off0 n off cin src (Q : Z * Z -> fs_st T -> Prop),
  copies cin src -> whole_pieces cin \/ (off < off0 + n -> unlogged a (i_addrs i) (i_size i) W off) ->
  txn s a ∅ W -> inode_at s ip i -> i_dev i = ROOTDEV ->
  0 <= off0 <= off -> off0 <= i_size i -> off <= off0 + n -> off0 + n <= MAXFILE * BSIZE ->
  written (f_sb s) a0 ad0 (i_size i) off0 src a (i_addrs i) off ->
  enough fuel off (off0 + n - off) -> enough kf off (off0 + n - off) -> rsz (f_sb s) W + 2 * (Z.of_nat kf - 1) < LOGBLOCKS ->
  (forall Tn s' a' ad' W' off', torn_txn Tn s' a' ∅ W' -> torn_by cin a' ad' off' (off' - off0) Tn -> Tn = ∅ \/ off' < off0 + n -> others_same ip s s' -> inode_at s' ip (set_iaddrs ad' i) ->
     written (f_sb s) a0 ad0 (i_size i) off0 src a' ad' off' -> off <= off' <= off0 + n ->
     rsz (f_sb s) W' <= rsz (f_sb s) W + 2 * (Z.of_nat kf - 1) ->
     (off' < off0 + n -> stopped (f_sb s) a' cin (off' - off0)) -> Q (off' - off0, off') s') ->
  wp (writei_loop fuel cin ip off n (off - off0)) Q s.
Proof.
  induction fuel as [|fuel IH]; intros kf s a0 ad0 a W ip i off0 n off cin src Q Hcin Hpc Ht Hi Hdev Ho Hos Hoff Hmax Hwr Hen Hkf Hrm HQ;
    [by destruct Hen; lia|].
  cbn [writei_loop]. destruct (off - off0 <? n) eqn:E.
  2: { apply Z.ltb_ge in E. wp_step. destruct Hkf as [Hkf _]. apply (HQ ∅ s a (i_addrs i) W off); try done; try lia; [by left|by left|].
    by rewrite set_iaddrs_id. }
  apply Z.ltb_lt in E. destruct kf as [|kf]; [by destruct Hkf; lia|].
  destruct (chunk_ok fuel off (off0 + n - off) ltac:(lia) ltac:(lia) Hen) as (Hc1 & Hc2 & Hen').
  destruct (chunk_ok kf off (off0 + n - off) ltac:(lia) ltac:(lia) Hkf) as (_ & _ & Hkf').
  assert (0 < kf)%nat as Hkf0 by (destruct Hkf'; lia).
  pose proof (fo_size _ _ _ _ (wn_ok _ _ _ _ _ _ _ _ _ Hwr)) as Hsz. set (m := chunk off (off0 + n - off)) in *.
  pose proof (div_block off ltac:(fs_nums; lia)) as Hbn. pose proof (wn_wf _ _ _ _ _ _ _ _ _ Hwr) as Hw.
  pose proof (ly_data _ (fw_layout _ _ Hw)) as Hd.
  wp_step. eapply wp_bmap; [exact Hw|exact Ht|done|done|eapply file_ok_le; [apply Hwr|lia]|done|lia|].
  intros r s1 a1 ad1 W1 BP. assert (whole_pieces cin \/ unlogged a1 ad1 (i_size i) W1 off) as Hpc1.
  { destruct Hpc as [?|HU]; [by left|right]. eapply (unlogged_bmap (f_sb s) a (i_addrs i) (Z.max (i_size i) off)); try done; try lia; [apply Hwr|]. apply HU. lia. }
  destruct BP as [B1 B2 B3 B4 B5 B6 B7 B8 B9].
  pose proof (written_grows _ _ _ _ _ _ _ _ _ _ _ Ho Hos Hwr B4) as Hwr1.
  destruct (Z.eqb_spec r 0) as [Hr0|Hr0].
  { wp_step. apply (HQ ∅ s1 a1 ad1 W1 off); try done; try lia; [by left|]. intros _. left. by apply B6. }
  pose proof (wn_ok _ _ _ _ _ _ _ _ _ Hwr1) as Hf1. pose proof (wn_wf _ _ _ _ _ _ _ _ _ Hwr1) as Hw1.
  destruct (fo_data _ _ _ _ Hf1 (off / BSIZE) ltac:(lia)) as [Hr Hu]; [congruence|]. rewrite <- B5 in Hr, Hu.
  destruct (fw_blk _ a1 r Hw1 ltac:(lia)) as [Har Hlr].
  wp_step. eapply wp_get_ip; [exact B3|]. change (i_dev (set_iaddrs ad1 i)) with (i_dev i). rewrite Hdev. wp_step.
  eapply wp_fs_bread; [exact B1|eapply data_block; [exact Hw1|done]|by rewrite Har|done|apply handles_0|].
  intros x s2 Ht2 Hx Hs2. replace (n - (off - off0)) with (off0 + n - off) by lia. fold (chunk off (off0 + n - off)). fold m.
  pose proof (Hcin (off - off0) m ltac:(lia) ltac:(lia)) as Hc. destruct (cin (off - off0) m) as [bytes ok] eqn:Ec. destruct Hc as (p & -> & Hp).
  assert (others_same ip s s2) as Hos2 by (etrans; [exact B2|by apply store_only_others]).
  assert (forall t3 s4, bs_same (f_store s2) t3 -> store_only (set_store t3 s2) s4 -> others_same ip s s4 /\ inode_at s4 ip (set_iaddrs ad1 i)) as Hout.
  { intros t3 s4 Ht3 Hs4. split.
    - etrans; [exact Hos2|]. etrans; [|by apply store_only_others]. apply store_only_others. by exists t3.
    - eapply store_only_inode; [exact Hs4|]. exact (store_only_inode _ _ _ _ Hs2 B3). }
  wp_step. destruct ok; [subst p|].
  - apply wp_on_store. eapply bs_store_ok; [exact Ht2|apply lookup_insert_eq|exact Har|]. intros t3 Ht3 Hs3. rewrite insert_insert_eq in Ht3.
    wp_step. apply wp_on_store. cbn [f_store set_store]. eapply bs_log_write_ok; [exact Ht3|apply lookup_insert_eq| |].
    { pose proof (size_rsz (f_sb s) W1). lia. }
    intros t4 Ht4 Hs4. rewrite insert_insert_eq in Ht4. wp_step. eapply (wp_fs_brelse (set_store t4 s2)); [exact Ht4|done|].
    intros s5 Ht5 Hs5. destruct (Hout t4 s5 ltac:(by etrans) Hs5) as [Hos5 Hi5].
    pose proof (os_sb _ _ _ Hos5) as Esb. rewrite u32_small by (fs_nums; lia).
    replace (off - off0 + m) with (off + m - off0) by lia.
    pose proof (written_store _ _ _ _ _ _ _ _ off m r Ho Hos ltac:(lia) Hc2 ltac:(lia) Hwr1 (eq_sym B5) Hr0) as Hwr2.
    cbv zeta in Hwr2. specialize (B8 Hr0).
    set (a5 := <[r := _]> a1) in *.
    apply (IH kf s5 a0 ad0 a5 ({[r]} ∪ W1) ip (set_iaddrs ad1 i) off0 n (off + m) cin src); rewrite ?Esb; try done; try lia.
    + destruct Hpc1 as [?|HU]; [by left|right]. intros Hmore. by apply (unlogged_next (f_sb s) a1 ad1 (i_size i) W1 off r (off0 + n - off)); try done; fs_nums; lia.
    + by replace (off0 + n - (off + m)) with (off0 + n - off - m) by lia.
    + by replace (off0 + n - (off + m)) with (off0 + n - off - m) by lia.
    + intros Tn s6 a6 ad6 W6 off6 T6 N6 M6 O6 I6 R6 F6 S6 P6. apply (HQ Tn s6 a6 ad6 W6 off6); try done; try lia. by etrans.
  - assert (off < off0 + n -> stopped (f_sb s) a1 cin (off - off0)) as Hstop by (intros _; right; exists m; split; [lia|by rewrite Ec]).
    destruct (decide (p = 0)) as [->|Hp0].
    { apply wp_on_store. eapply bs_store_ok; [exact Ht2|apply lookup_insert_eq|exact Har|]. intros t3 Ht3 Hs3.
      cbn [blit] in Ht3. rewrite decide_True, insert_insert_eq, insert_id in Ht3 by done.
      wp_step. eapply (wp_fs_brelse (set_store t3 s2)); [exact Ht3|done|]. intros s4 Ht4 Hs4. wp_step. destruct (Hout t3 s4 Hs3 Hs4).
      apply (HQ ∅ s4 a1 ad1 W1 off); try done; try lia. by left. }
    assert (src <$> seqZ (off - off0) p <> []) as Hne.
    { intros Hnil%(f_equal length). rewrite length_fmap, length_seqZ in Hnil. cbn in Hnil. lia. }
    destruct (decide (r ∈ W1)) as [HrW|HrW].
    + assert (i_size i <= off) as Hbeyond.
      { destruct Hpc1 as [Hwh|HU]; [specialize (Hwh (off - off0) m); rewrite Ec in Hwh; by destruct (Hne (Hwh eq_refl))|].
        specialize (HU (off / BSIZE) ltac:(lia)). rewrite <- B5 in HU. specialize (HU Hr0 HrW). fs_nums. zdiv. }
      apply wp_on_store. eapply bs_store_ok; [exact Ht2|apply lookup_insert_eq|exact Har|]. intros t3 Ht3 Hs3. rewrite insert_insert_eq in Ht3.
      wp_step. eapply (wp_torn_brelse ∅ (set_store t3 s2)); [exact Ht3|done|done|]. intros s4 Ht4 Hs4. wp_step. destruct (Hout t3 s4 Hs3 Hs4).
      eapply (HQ ∅ s4 _ ad1 W1 off); try done; try lia; [by left| |].
      * apply written_beyond; try done; try lia. rewrite length_fmap, length_seqZ. lia.
      * intros _. right. exists m. split; [lia|by rewrite Ec].
    + apply wp_on_store. eapply wp_mono; [eapply bs_tear_ok; [exact Ht2|apply lookup_insert_eq|done|]|].
      * intros t4 Ht4 Hs4. rewrite delete_insert_id in Ht4 by done. pattern tt, t4.
        instantiate (1 := fun _ t => bs_txn {[r]} t a1 ∅ W1 /\ bs_same (f_store s2) t). cbn beta. split; [|done]. by rewrite union_empty_r_L in Ht4.
      * intros [] t3 Hbr. cbn beta. wp_step. apply wp_on_store. cbn [f_store set_store]. eapply wp_mono; [exact Hbr|]. intros [] t4 [Ht4 Hs4]. wp_step.
        destruct (Hout t4 (set_store t4 s2) Hs4 ltac:(done)).
        apply (HQ {[r]} (set_store t4 s2) a1 ad1 W1 off); try done; try lia. right. rewrite <- B5. split; [done|]. split; [lia|]. split; [done|].
        exists m. split; [lia|]. by rewrite Ec.
Qed.

End Rw.
