(* ===== verification/FsThms.v ===== *)
(** * The file layer: theorems

    Reading, writing and truncating a file, for any block store. *)

From Stdlib Require Import ZArith Lia Bool String.
From stdpp Require Import base gmap list strings functions.
From S2P Require Import Prelude Mem Spinlock Sleeplock Bio BioProof Log LogProof BlockStore Fs FsBytes FsAlloc FsFile FsRw.

Lemma splice_range c off bs : 0 <= off <= Z.of_nat (length c) ->
  take (length bs) (drop (Z.to_nat off) (splice c off bs)) = bs.
Proof.
  intros Ho. unfold splice. rewrite drop_app_length' by (rewrite length_take; lia). by rewrite take_app_length.
Qed.

Section Thms.
Context {T : Type} `{HM : HasMach T} {BO : BlockOps T} {BS : BlockStore T}.

(** The inode of a file in good order: its fields fit their C types, it has a
    number, and its blocks are its own. *)
Record inode_ok (sb : superblock) (a : blocks) (i : inode) : Prop := {
  ik_dev : i_dev i = ROOTDEV;
  ik_inum : 0 <= i_inum i < sb_ninodes sb;
  ik_dinode : dinode_ok (dinode_of i);
  ik_file : file_ok sb a (i_addrs i) (i_size i)
}.

Lemma file_ok_addrs sb a ad size : fs_wf sb a -> file_ok sb a ad size -> forall x, x ∈ ad -> 0 <= x < 2 ^ 32.
Proof.
  intros Hw Hf x Hx. apply list_elem_of_lookup in Hx as [k Hk]. pose proof (fo_len _ _ _ _ Hf) as Hl.
  pose proof (lookup_lt_Some _ _ _ Hk) as Hlt. pose proof (fw_layout _ _ Hw) as L. pose proof (ly_size _ L). pose proof (ly_data _ L).
  assert (addr_at ad (Z.of_nat k) = x) as Ex by (unfold addr_at; rewrite Nat2Z.id, nth_lookup; by rewrite Hk).
  destruct (decide (x = 0)) as [->|Hn]; [lia|]. unfold BPB in *. fs_nums.
  destruct (decide (k = 12)%nat) as [->|Hne].
  - change (Z.of_nat 12) with NDIRECT in Ex. destruct (index_ok _ _ _ _ Hf) as [? _]; [congruence|]. lia.
  - destruct (fo_data _ _ _ _ Hf (Z.of_nat k)) as [Hr _]; [fs_nums; lia|rewrite saddr_direct by (fs_nums; lia); congruence|].
    rewrite saddr_direct, Ex in Hr by (fs_nums; lia). lia.
Qed.

Lemma dinode_ok_upd sb a ad size i : fs_wf sb a -> file_ok sb a ad size -> dinode_ok (dinode_of i) ->
  dinode_ok (dinode_of (set_isize size (set_iaddrs ad i))).
Proof.
  intros Hw Hf [D1 D2 D3 D4 D5 D6 D7]. split; try done; simpl.
  - pose proof (fo_size _ _ _ _ Hf). fs_nums. lia.
  - apply Hf.
  - by eapply file_ok_addrs.
Qed.

Lemma written_bytes sb a0 i0 off0 src a ad off :
  0 <= off0 <= i_size i0 -> off0 <= off ->
  written sb a0 (i_addrs i0) (i_size i0) off0 src a ad off ->
  forall i, i_addrs i = ad -> i_size i = Z.max (i_size i0) off ->
  file_bytes a i = splice (file_bytes a0 i0) off0 (src <$> seqZ 0 (off - off0)).
Proof.
  intros Ho Hoff Hw i Ead Esz. unfold splice. rewrite length_fmap, length_seqZ. unfold file_bytes. rewrite Ead, Esz.
  set (size0 := i_size i0) in *. rewrite <- fmap_take, <- fmap_drop.
  rewrite (seqZ_split 0 off0 size0) by lia. rewrite Z.add_0_l.
  rewrite take_app_length' by (rewrite length_seqZ; lia).
  rewrite drop_app_ge, length_seqZ by (rewrite length_seqZ; lia).
  replace (Z.to_nat off0 + Z.to_nat (off - off0) - Z.to_nat off0)%nat with (Z.to_nat (off - off0)) by lia.
  rewrite (seqZ_split 0 off0 (Z.max size0 off)), Z.add_0_l by lia.
  rewrite (seqZ_split off0 (off - off0) (Z.max size0 off - off0)) by lia. rewrite !fmap_app. f_equal; [|f_equal].
  - apply list_fmap_ext. intros k x [-> Hx]%lookup_seqZ. apply (wn_old _ _ _ _ _ _ _ _ _ Hw); lia.
  - apply list_eq. intros k. rewrite !list_lookup_fmap. destruct (decide (k < Z.to_nat (off - off0))%nat) as [Hk|Hk].
    + assert (forall o, seqZ o (off - off0) !! k = Some (o + Z.of_nat k)) as E by (intros o; apply lookup_seqZ; lia).
      rewrite !E. simpl. f_equal. rewrite (wn_new _ _ _ _ _ _ _ _ _ Hw) by lia. f_equal. lia.
    + by rewrite !lookup_ge_None_2 by (rewrite length_seqZ; lia).
  - replace (off0 + (off - off0)) with off by lia. destruct (decide (size0 <= off)) as [Hle|Hgt].
    + rewrite Z.max_r, drop_ge by (rewrite ?length_seqZ; lia). by replace (off - off0 - (off - off0)) with 0 by lia.
    + rewrite Z.max_l by lia. rewrite (seqZ_split off0 (off - off0) (size0 - off0)) by lia.
      rewrite drop_app_length' by (rewrite length_seqZ; lia). replace (off0 + (off - off0)) with off by lia.
      apply list_fmap_ext. intros k x [-> Hx]%lookup_seqZ. apply (wn_old _ _ _ _ _ _ _ _ _ Hw); lia.
Qed.

(** The blocks a transfer of [n] bytes at [off] touches. *)
Definition nblocks (off n : Z) : Z := (off mod BSIZE + n + BSIZE - 1) / BSIZE.

Lemma enough_nblocks off n : 0 <= off -> 0 <= n -> enough (S (Z.to_nat (nblocks off n))) off n /\ 0 <= nblocks off n.
Proof.
  intros Ho Hn. unfold enough, nblocks. pose proof (Z.mod_pos_bound off BSIZE ltac:(done)). fs_nums.
  assert (0 <= (off mod 1024 + n + 1024 - 1) / 1024) as Hp by (apply Z.div_pos; lia).
  split; [|done]. split; [lia|]. intros _. rewrite Nat2Z.inj_succ, Z2Nat.id by done. zdiv.
Qed.

(** What [writei] did to file [i] when it stored [r] of the [n] bytes. *)
Record wrote_file (Tn : gset Z) (s : fs_st T) (a : blocks) (W : gset Z) (ip : Z) (i : inode) cin (src : Z -> Z) (off n r : Z)
    (s' : fs_st T) (a' : blocks) (i' : inode) (W' : gset Z) : Prop := {
  wf_txn : torn_txn Tn s' a' ∅ W';
  wf_torn : torn_by cin a' (i_addrs i') (off + r) r Tn /\ (Tn = ∅ \/ r < n);
  wf_same : others_same ip s s';
  wf_at : inode_at s' ip i';
  wf_wf : fs_wf (f_sb s) a';
  wf_ok : inode_ok (f_sb s) a' i';
  wf_bytes : file_bytes a' i' = splice (file_bytes a i) off (src <$> seqZ 0 r);
  wf_short : r < n -> stopped (f_sb s) a' cin r;
  wf_frame : forall c, dstart (f_sb s) <= c < sb_size (f_sb s) -> used (f_sb s) a c = true -> ~ own a (i_addrs i) c ->
    a' !! c = a !! c /\ used (f_sb s) a' c = true /\ ~ own a' (i_addrs i') c;
  wf_disk : forall j, 0 <= j < sb_ninodes (f_sb s) ->
    disk_inode (f_sb s) a' j = if decide (j = i_inum i) then dinode_of i' else disk_inode (f_sb s) a j;
  wf_log : Z.of_nat (size W') <= rsz (f_sb s) W + 2 * nblocks off n + 1;
  wf_kept : i' = set_isize (i_size i') (set_iaddrs (i_addrs i') i)
}.

(** A torn block is neither the index nor any other block of the file. *)
Lemma torn_apart sb a ad size cin off tot Tn : file_ok sb a ad size -> torn_by cin a ad off tot Tn ->
  saddr a ad MAXFILE ∉ Tn /\ forall k, 0 <= k < MAXFILE -> k <> off / BSIZE -> saddr a ad k ∉ Tn.
Proof.
  intros Hf [->|(-> & Hb & Hn & _)]; [set_solver|]. split; [|intros k Hk Hne]; rewrite elem_of_singleton; intros E; symmetry in E;
    apply (fo_inj _ _ _ _ Hf) in E; (done || lia).
Qed.

Lemma wp_writei s a W ip i cin src off n (Q : Z -> fs_st T -> Prop) :
  fs_wf (f_sb s) a -> txn s a ∅ W -> inode_at s ip i -> inode_ok (f_sb s) a i -> copies cin src ->
  whole_pieces cin \/ (forall c, own a (i_addrs i) c -> c ∉ W) -> 0 <= off <= i_size i -> 0 <= n -> off + n <= MAXFILE * BSIZE -> rsz (f_sb s) W + 2 * nblocks off n < LOGBLOCKS ->
  (forall Tn r s' a' i' W', 0 <= r <= n -> wrote_file Tn s a W ip i cin src off n r s' a' i' W' -> Q r s') ->
  wp (writei cin ip off n) Q s.
Proof.
  intros Hw Ht Hi [Hdev Hin Hdi Hf] Hcin Hpc Ho Hn Hmax Hrm HQ. unfold writei. wp_step. eapply wp_get_ip; [done|].
  rewrite (proj2 (Z.ltb_ge _ _)) by lia. rewrite u32_small by (fs_nums; lia).
  rewrite (proj2 (Z.ltb_ge (off + n) off)), (proj2 (Z.ltb_ge (MAXFILE * BSIZE) (off + n))) by lia. cbn [orb].
  destruct (enough_nblocks off n ltac:(lia) Hn) as [Hk Hk0]. wp_step.
  match goal with |- wp (writei_loop ?f _ _ _ _ _) ?P _ => cut (wp (writei_loop f cin ip off n (off - off)) P s); [by rewrite Z.sub_diag|] end.
  eapply (wp_writei_loop _ (S (Z.to_nat (nblocks off n))) s a (i_addrs i) a W ip i off n off cin src); try done; try lia.
  { destruct Hpc as [?|Hpc]; [by left|right]. intros _. apply unlogged_start; [lia|done]. }
  { by apply written_start. }
  { replace (off + n - off) with n by lia. by apply enough_start. }
  { by replace (off + n - off) with n by lia. }
  intros Tn s1 a1 ad1 W1 off1 T1 N1 M1 O1 I1 R1 F1 S1 P1. pose proof (wn_wf _ _ _ _ _ _ _ _ _ R1) as Hw1. pose proof (os_sb _ _ _ O1) as Esb1.
  wp_step. eapply wp_get_ip; [exact I1|]. change (i_size (set_iaddrs ad1 i)) with (i_size i).
  set (i2 := set_isize (Z.max (i_size i) off1) (set_iaddrs ad1 i)).
  assert (wp (if i_size i <? off1 then upd_ip ip (set_isize off1) else mret tt) (fun _ s2 =>
    f_store s2 = f_store s1 /\ others_same ip s1 s2 /\ inode_at s2 ip i2) s1) as Hupd.
  { destruct (Z.ltb_spec (i_size i) off1) as [Hlt|Hge].
    - eapply wp_upd_ip; [exact I1|]. intros s2 E2 O2 I2. split; [done|]. split; [done|]. unfold i2. by rewrite Z.max_r by lia.
    - wp_step. split; [done|]. split; [done|]. unfold i2. rewrite Z.max_l by lia. exact I1. }
  wp_step. eapply wp_mono; [exact Hupd|]. intros [] s2 (E2 & O2 & I2). assert (torn_txn Tn s2 a1 ∅ W1) as T2 by (unfold torn_txn; by rewrite E2).
  assert (others_same ip s s2) as O12 by (by etrans). pose proof (os_sb _ _ _ O12) as Esb2.
  pose proof (dinode_ok_upd _ _ _ _ i Hw1 (wn_ok _ _ _ _ _ _ _ _ _ R1) Hdi) as Hdi2. fold i2 in Hdi2.
  assert (forall c, c ∈ Tn -> exists k, 0 <= k < MAXFILE /\ c = saddr a1 ad1 k /\ c <> 0) as HT.
  { intros c Hc. destruct N1 as [->|(-> & Hb & Hn0 & _)]; [set_solver|]. apply elem_of_singleton in Hc as ->. eauto. }
  wp_step. eapply (wp_iupdate Tn s2 a1 W1 ip i2); rewrite ?Esb2; try done.
  { intros c (k & Hk' & -> & Hn0)%HT. destruct (fo_data _ _ _ _ (wn_ok _ _ _ _ _ _ _ _ _ R1) k ltac:(lia) Hn0) as [? _]. pose proof (ly_order _ (fw_layout _ _ Hw1)). lia. }
  { pose proof (size_rsz (f_sb s) W1); lia. }
  change (i_inum i2) with (i_inum i). intros s3 T3 O3. wp_step.
  destruct (iupdated_wf (f_sb s) a1 i2 Hw1 Hin (dk_len _ Hdi2)) as [Hw3 Hu3].
  assert (forall c, sb_bmapstart (f_sb s) <= c -> iupdated (f_sb s) a1 i2 !! c = a1 !! c) as Hge by (intros; by apply iupdated_ge).
  destruct (inode_block _ _ _ Hw1 Hin) as (_ & Hbd & _).
  destruct (file_ext (f_sb s) a1 (iupdated (f_sb s) a1 i2) ad1 _ Hw1 (wn_ok _ _ _ _ _ _ _ _ _ R1)) as (Hf3 & Es3 & Eb3);
    [intros c Hc; apply Hge; lia|done|].
  eapply (HQ Tn (off1 - off) s3 _ i2); [lia|]. split; try done.
  - split; [|destruct M1; [by left|right; lia]]. replace (off + (off1 - off)) with off1 by lia. unfold torn_by. change (i_addrs i2) with ad1. by rewrite Es3.
  - etrans; [exact O12|by apply store_only_others].
  - by eapply store_only_inode.
  - transitivity (file_bytes a1 i2); [|by eapply written_bytes; [lia|lia|exact R1|done|done]].
    unfold file_bytes. apply list_fmap_ext. intros k x [-> Hx]%lookup_seqZ. eapply (fbyte_ext _ _ _ (i_size i2)); [lia|done|done].
  - intros Hlt. destruct (P1 ltac:(lia)) as [Hall|Hc]; [left|by right]. intros j Hj. rewrite Hu3 by done. by apply Hall.
  - intros c Hc Huc Hn'. pose proof (ly_data _ (fw_layout _ _ Hw)). destruct (wn_frame _ _ _ _ _ _ _ _ _ R1 c Hc Huc Hn') as (E & U & N).
    rewrite Hge, Hu3 by lia. split; [done|]. split; [done|]. intros (k & Hk' & Ek). apply N. exists k. split; [done|]. by rewrite <- Es3.
  - intros j Hj. rewrite disk_inode_iupdated by done. change (i_inum i2) with (i_inum i). case_decide; [done|].
    unfold disk_inode. f_equal. unfold blk. rewrite (wn_meta _ _ _ _ _ _ _ _ _ R1); [done|].
    destruct (inode_block _ _ _ Hw Hj) as (? & _). lia.
  - pose proof (size_add (IBLOCK (i_inum i) (f_sb s)) W1). pose proof (size_rsz (f_sb s) W1). lia.
Qed.

(** [writei] refuses to leave a hole or to outgrow the largest file. *)
Lemma wp_writei_refuses s ip i cin off n (Q : Z -> fs_st T -> Prop) : inode_at s ip i ->
  0 <= i_size i <= MAXFILE * BSIZE -> 0 <= off < 2 ^ 32 -> 0 <= n < 2 ^ 31 -> i_size i < off \/ MAXFILE * BSIZE < off + n -> Q (-1) s ->
  wp (writei cin ip off n) Q s.
Proof.
  intros Hi Hsz Ho Hn Hr HQ. unfold writei. wp_step. eapply wp_get_ip; [done|]. destruct (Z.ltb_spec (i_size i) off) as [Hlt|Hge]; cbn [orb]; [by wp_step|].
  rewrite u32_small by (fs_nums; lia). rewrite (proj2 (Z.ltb_ge (off + n) off)), (proj2 (Z.ltb_lt _ (off + n))) by lia. by wp_step.
Qed.

(** C16: a write is a splice and a read is a slice.  [writei] refuses (and
    changes nothing) when the offset is past the end of the file or the file
    would outgrow MAXFILE blocks.  Otherwise it stores [r <= n] bytes, short
    only when the disk is full or the source fails: the contents of the file
    become the old ones with the [r] bytes stored at [off]; the inode is on
    disk; every other inode and every block that is not the file's is as it
    was.  The source may fail in the middle of a piece, as [copyin] does at a
    page it cannot read: then the bytes copied before stay, unlogged, in the
    buffer of the block at [off + r], and that one block is torn.  Every later
    [readi] of bytes outside a torn block delivers the requested slice of the
    new contents.  (If the transaction has logged blocks of the file before
    the call, no piece may fail halfway.) *)
Theorem writei_readi s a W ip i cin src off n :
  let sb := f_sb s in
  fs_wf sb a -> txn s a ∅ W -> inode_at s ip i -> inode_ok sb a i -> copies cin src ->
  whole_pieces cin \/ (forall c, own a (i_addrs i) c -> c ∉ W) ->
  0 <= off < 2 ^ 32 -> 0 <= n < 2 ^ 31 -> rsz sb W + 2 * nblocks off n < LOGBLOCKS ->
  wp (writei cin ip off n) (fun r s' =>
    if (i_size i <? off) || (MAXFILE * BSIZE <? off + n) then r = -1 /\ s' = s
    else 0 <= r <= n /\ exists Tn a' i' W', wrote_file Tn s a W ip i cin src off n r s' a' i' W' /\
      forall o k, 0 <= o < 2 ^ 32 -> 0 <= k < 2 ^ 31 -> Tn = ∅ \/ o + k <= (off + r) / BSIZE * BSIZE \/ ((off + r) / BSIZE + 1) * BSIZE <= o ->
        let out := take (Z.to_nat k) (drop (Z.to_nat o) (splice (file_bytes a i) off (src <$> seqZ 0 r))) in
        wp (readi to_kernel ip o k) (fun v _ => v = (Z.of_nat (length out), out)) s') s.
Proof.
  intros sb Hw Ht Hi Hok Hcin Hpc Ho Hn Hrm. pose proof (fo_size _ _ _ _ (ik_file _ _ _ Hok)) as Hsz.
  destruct (Z.ltb_spec (i_size i) off) as [Hlt|Hge]; cbn [orb].
  { apply (wp_writei_refuses s ip i cin off n); try done. by left. }
  destruct (Z.ltb_spec (MAXFILE * BSIZE) (off + n)) as [Hbig|Hfit].
  { apply (wp_writei_refuses s ip i cin off n); try done. by right. }
  eapply (wp_writei s a W ip i cin src off n); [exact Hw|exact Ht|exact Hi|exact Hok|exact Hcin|exact Hpc|lia|lia|exact Hfit|exact Hrm|]. intros Tn r s' a' i' W' Hr Hwf. split; [done|]. exists Tn, a', i', W'. split; [done|].
  intros o k Ho' Hk Hout. pose proof (os_sb _ _ _ (wf_same _ _ _ _ _ _ _ _ _ _ _ _ _ _ _ Hwf)) as Esb.
  destruct Hwf as [F1 [FT _] F2 F3 F4 [K1 K2 K3 K4] F6 F7 F8 F9 F10 F11].
  destruct (torn_apart _ _ _ _ _ _ _ _ K4 FT) as [Hx Hb].
  eapply (wp_torn_readi Tn s' a' W' ip i'); rewrite ?Esb; try done; [|by rewrite F6].
  intros x Hxr Hxs. pose proof (fo_size _ _ _ _ K4). destruct Hout as [->|Hout]; [set_solver|]. apply Hb; fs_nums; zdiv.
Qed.

End Thms.
