(* ===== verification/FsCrash.v ===== *)
(** * System calls on the file system and crashes

    [syscall c] is the way sysfile.c and file.c run file-system code: between
    [begin_op] and [end_op].  Over the buffer cache and the log it is atomic
    with respect to crashes, for any code [c] verified against
    [BlockStore]. *)

From Stdlib Require Import ZArith Lia Bool String.
From stdpp Require Import base gmap list strings functions relations.
From S2P Require Import Prelude Mem Spinlock Sleeplock ObjCache Bio BioProof Log LogSpec LogProof LogThms BlockStore LogStore Fs FsBytes FsAlloc FsFile FsRw FsThms.

Section Crash.
Context {A : Type} `{HM : HasMach A} {OC : ObjCache A}.
Context (st : Z) (st_range : 0 <= st /\ st + LOGBLOCKS < 2 ^ 31).

Definition syscall {X} (c : M (fs_st (log_st A)) X) : M (fs_st (log_st A)) X :=
  on_store bs_begin_op;;
  r ← c;
  on_store bs_end_op;;
  mret r.

Lemma hset_empty : hset ∅ = ∅.
Proof. apply set_eq. intros c. rewrite elem_of_hset. split; [|set_solver]. intros (x & u & Hx). by rewrite lookup_empty in Hx. Qed.

(** An operation that has logged nothing yet. *)
Lemma open_txn (s : log_st A) a n :
  pending st s [] a (fun _ => 0) n -> dsk (lo_bio s) = a -> quiet_log s -> lg_outstanding (lo s) = 1 -> lg_committing (lo s) = 0 ->
  (log_room <= n)%nat -> log_txn st (dsk (lo_bio s)) (dlog (lo_bio s)) ∅ s a ∅ ∅.
Proof.
  intros [P1 P2 P3 P4 P5 P6 P7 P8 P9] Hd Hq Ho Hc Hn. exists [], (fun _ => 0), n. split; rewrite ?hset_empty, ?view_empty; try done.
  - intros c. rewrite elem_of_nil. set_solver.
  - rewrite union_empty_l_L, size_empty. lia.
  - intros c _ _. by rewrite Hd.
Qed.

Lemma begin_txn (s : log_st A) a n Q :
  idle st s a (fun _ => 0) n -> dsk (lo_bio s) = a -> (log_room <= n)%nat ->
  (forall s', log_txn st (dsk (lo_bio s)) (dlog (lo_bio s)) ∅ s' a ∅ ∅ -> bs_same s s' -> Q tt s') ->
  wp begin_op Q s.
Proof.
  intros [_ Hp Hq Ho Hc] Hd Hn HQ. pose proof (li_n _ _ _ (pe_lists _ _ _ _ _ _ Hp)) as En. simpl in En.
  apply wp_begin_op; [done|done|rewrite En, Ho; unfold LOGBLOCKS, MAXOPBLOCKS; lia|].
  intros s1 Hlike Hq1 Hh1 Ho1 Hc1. rewrite Ho in Ho1. destruct (lk_bio _ _ Hlike) as (h & Hh & Eb).
  apply HQ; [|split; [done|by simpl; rewrite Eb]].
  replace (dsk (lo_bio s)) with (dsk (lo_bio s1)) by (by rewrite Eb).
  replace (dlog (lo_bio s)) with (dlog (lo_bio s1)) by (by rewrite Eb).
  eapply open_txn; try done; [by apply (pending_like st s)|by rewrite Eb].
Qed.

(** What is in the log can be told whatever is torn. *)
Lemma view_log Tn a c : (forall c, c ∈ Tn -> log_block st c) -> in_log st c -> view Tn a !! c = a !! c.
Proof. intros HT Hc. apply view_lookup. intros Hin. by destruct (HT c Hin). Qed.

Lemma txn_in_txn d l Tn (s : log_st A) a W bs R n :
  txn_rep st d l Tn s a ∅ W bs R n -> in_txn st s bs (view Tn a) R n.
Proof.
  intros Tx. pose proof (txn_size_W _ _ _ _ _ _ _ _ _ _ _ Tx) as Ew. destruct Tx as [T1 T2 T3 T4 T5 T6 T7 T8 T9 TT T10 T11 T12 T13 T14 T15 T16 T17 T18].
  rewrite hset_empty in *. split; try done. split; try done.
  - rewrite union_empty_l_L in T8. unfold log_room in T8. pose proof (lists_max _ _ _ T1). unfold LOGBLOCKS, MAXOPBLOCKS in *. lia.
  - intros c Hc. destruct (T11 c Hc) as (? & ? & ?). by rewrite (view_log _ _ _ TT Hc).
  - intros c Hc%T5. destruct (T9 c ltac:(set_solver)) as ([? ?] & Hnt & ?). rewrite T7. unfold refs.
    rewrite decide_False by set_solver. rewrite decide_True by done. split; [|lia]. split; [by rewrite view_lookup|]. split; [done|].
    split; [done|]. rewrite T7. pose proof (refs_range ∅ W c). lia.
  - intros c Hc Hs. destruct (view_some _ _ _ Hs) as [Hnt _]. rewrite view_lookup by done. apply T10; [done|]. intros x Hx. by rewrite lookup_empty in Hx.
  - destruct T13 as (h & Hh & Hl). exists h. split; [|done]. rewrite (view_log _ _ _ TT); [done|]. unfold in_log, LOGBLOCKS, MAXOPBLOCKS. lia.
Qed.

(** What a system call that turned the blocks [a] into [a'] guarantees about
    the disk [d] it started from: the changes are on disk, and a crash at any
    point is recovered to the old or the new blocks. *)
Definition durable (s s' : log_st A) (a' : blocks) : Prop :=
  let d := dsk (lo_bio s) in
  same_data st (dsk (lo_bio s')) a' /\ log_n st (dsk (lo_bio s')) = 0 /\
  exists L, dlog (lo_bio s') = dlog (lo_bio s) ++ L /\ dsk (lo_bio s') = apply_writes L d /\
    forall P D, P `prefix_of` L -> rtc (recovery_crash st) (apply_writes P d) D ->
      log_wf st D /\ (same_data st (recovered st D) d \/ same_data st (recovered st D) a').

Lemma wp_end_op_nothing (s : log_st A) Q :
  lk_locked (lg_lock (lo s)) = 0 -> hart_ok (hart_of s) -> lg_n (lo s) = 0 -> lg_outstanding (lo s) = 1 -> lg_committing (lo s) = 0 ->
  (forall s', like s s' -> quiet_log s' -> lg_outstanding (lo s') = 0 -> lg_committing (lo s') = 0 -> hart_same (hart_of s) (hart_of s') -> Q tt s') ->
  wp end_op Q s.
Proof.
  intros Hlk Hh Hn Ho Hc HQ. unfold end_op. wp_step. apply wp_lg_acquire; [done|done|]. intros l1 s1 Hcs1.
  wp_step. apply wp_gets. change (lg_outstanding (lo s1)) with (lg_outstanding (lo s)).
  change (lg_committing (lo s1)) with (lg_committing (lo s)). rewrite Ho, Hc. cbn [Z.sub Z.add Z.opp Z.pos_sub Z.eqb negb].
  wp_step. apply wp_modify. wp_step. wp_step. wp_step. apply wp_modify. wp_step.
  set (s2 := set_lg_committing 1 _). apply (wp_lg_release (hart_of s)); [exact Hcs1|]. intros l3 h3 Hl3 Hh3.
  assert (hart_ok h3) as Hok3 by (by apply (hart_ok_proper _ _ Hh3)).
  set (s3 := set_lg_lock l3 (set_hart h3 s2)). change (1 - 1 =? 0) with true. cbv iota. wp_step. unfold commit. wp_step. apply wp_gets.
  change (lg_n (lo s3)) with (lg_n (lo s)). rewrite Hn. cbn [Z.gtb Z.compare]. wp_step.
  assert (hart_of s3 = h3) as Eh3 by exact (hart_of_set_hart h3 s2).
  wp_step. apply wp_lg_acquire; [exact Hl3|by rewrite Eh3|]. intros l5 s5 Hcs5. wp_step. apply wp_modify.
  apply (wp_lg_release (hart_of s3)); [exact Hcs5|]. intros l6 h6 Hl6 Hh6. rewrite Eh3 in Hh6.
  set (s6 := set_lg_lock _ _). assert (hart_of s6 = h6) as Eh6 by exact (hart_of_set_hart h6 s5).
  assert (hart_ok h6) as Hok6 by (by apply (hart_ok_proper _ _ Hh6)). apply HQ; try done.
  - split; try done. exists h6. split; [done|]. change (lo_bio s6) with (set_hart h6 (set_hart (push_off (hart_of s3)) (set_hart h3 (set_hart (push_off (hart_of s)) (lo_bio s))))).
    by rewrite !set_hart_set_hart.
  - split; [exact Hl6|by rewrite Eh6].
  - by rewrite Eh6, Hh3.
Qed.

(** Every block of the disk has its size. *)
Definition sized (a : blocks) : Prop := forall c d, a !! c = Some d -> Z.of_nat (length d) = BSIZE.

(** The store after a system call that left the blocks [a]: no operation is
    open, and what is on the disk, [b], differs from [a] in the log only; it
    is what is read back, but for the torn blocks. *)
Record settled (Tn : gset Z) (s : log_st A) (a b : blocks) : Prop := {
  se_idle : idle st s (view Tn b) (fun _ => 0) log_room;
  se_dsk : dsk (lo_bio s) = b;
  se_data : same_data st b a;
  se_dom : forall c, is_Some (b !! c) <-> is_Some (a !! c);
  se_sized : sized a -> sized b
}.

Lemma idle_ext (s : log_st A) a R n m : idle st s a R n -> (forall c, R c = 0) -> (m <= n)%nat -> (2 <= m)%nat -> idle st s a (fun _ => 0) m.
Proof.
  intros [I1 [P1 P2 P3 P4 P5 P6 P7 P8 P9] I3 I4 I5] HR Hm Hm2. split; try done. split; try done.
  - eapply rep_mono; [eapply rep_ext; [exact P2|intros c; by rewrite HR|set_solver]|done].
  - intros c Hc. destruct (P4 c Hc) as (_ & ? & ?). done.
  - by intros c ?%elem_of_nil.
Qed.

Lemma sized_apply W a : (forall w, w ∈ W -> Z.of_nat (length w.2) = BSIZE) -> sized a -> sized (apply_writes W a).
Proof.
  revert a. induction W as [|[b x] W IH]; intros a HW Ha; [done|]. cbn [apply_writes]. apply IH; [intros w Hw; apply HW; by right|].
  intros c d [[-> <-]|[_ Hd]]%lookup_insert_Some; [apply (HW (c, x)); left|by eapply Ha].
Qed.

(** The view after writes to blocks that are not torn. *)
Lemma view_writes Tn L a : (forall c, c ∈ L.*1 -> c ∉ Tn) -> view Tn (apply_writes L a) = apply_writes L (view Tn a).
Proof.
  revert a. induction L as [|[c x] L IH]; intros a HL; [done|]. cbn [apply_writes]. rewrite IH by (intros k Hk; apply HL; by right).
  rewrite view_insert; [done|]. apply HL. by left.
Qed.

Lemma commit_writes_ext bs a a' h h0 : (forall c, c ∈ bs -> a' !! c = a !! c) -> commit_writes st bs a' h h0 = commit_writes st bs a h h0.
Proof.
  intros Ha. unfold commit_writes. f_equal; f_equal.
  - unfold log_copies. apply imap_ext. intros i c Hc. by rewrite Ha by (by eapply list_elem_of_lookup_2).
  - unfold homes. apply list_fmap_ext. intros i c Hc. by rewrite Ha by (by eapply list_elem_of_lookup_2).
Qed.

Lemma commit_writes_fst bs a h h0 c : Z.of_nat (length bs) <= LOGBLOCKS -> c ∈ (commit_writes st bs a h h0).*1 -> in_log st c \/ c ∈ bs.
Proof.
  intros Hlen. unfold commit_writes. rewrite !fmap_app, homes_fst, !elem_of_app. cbn [fmap list_fmap fst]. rewrite !list_elem_of_singleton.
  assert (in_log st st) as Hst by (unfold in_log, LOGBLOCKS, MAXOPBLOCKS; lia).
  intros [[Hb%log_copies_fst| ->]|[Hb| ->]]; [|by left|by right|by left]. left. unfold in_log. lia.
Qed.

(** The blocks after a commit. *)
Lemma settled_commit d l Tn (s s' : log_st A) W bs a R n h h0 : txn_rep st d l Tn s a ∅ W bs R n -> (forall c, c ∈ bs -> R c = 1) -> (forall c, c ∉ bs -> R c = 0) ->
  (log_room <= n + length bs)%nat -> Z.of_nat (length h) = BSIZE -> Z.of_nat (length h0) = BSIZE ->
  idle st s' (apply_writes (commit_writes st bs (view Tn a) h h0) (view Tn a)) (unpin_all false bs R) (n + regained false bs R) ->
  same_data st (dsk (lo_bio s')) a ->
  settled Tn s' a (apply_writes (commit_writes st bs a h h0) a).
Proof.
  intros Tx HR1 HR0 Hroom Hlh Hlh0 HI Hsd. destruct (txn_in_txn _ _ _ _ _ _ _ _ _ Tx) as [Hp Hq Ho Hc].
  pose proof (pe_nodup _ _ _ _ _ _ Hp) as Hnd. pose proof (pending_txn _ _ _ _ _ _ Hp) as Htx. destruct Htx as [Hlen Htx].
  pose proof (t_torn _ _ _ _ _ _ _ _ _ _ _ Tx) as HT.
  assert (forall c, c ∈ bs -> c ∉ Tn /\ exists d, a !! c = Some d) as Hsome.
  { intros c Hb. destruct (t_ok _ _ _ _ _ _ _ _ _ _ _ Tx c) as (_ & ? & ?); [apply elem_of_union; right; by apply (t_W _ _ _ _ _ _ _ _ _ _ _ Tx)|done]. }
  assert (forall c, in_log st c -> is_Some (a !! c)) as Hlog by (intros c Hin; by destruct (t_log _ _ _ _ _ _ _ _ _ _ _ Tx c Hin) as (_ & ? & _)).
  rewrite (commit_writes_ext bs a (view Tn a)) in HI by (intros c Hb; apply view_lookup; by apply Hsome).
  rewrite <- view_writes in HI by (intros c [Hb|Hb]%commit_writes_fst; [intros Hin; by destruct (HT c Hin)|by apply Hsome|done]).
  assert (same_data st (apply_writes (commit_writes st bs a h h0) a) a) as Hdata.
  { unfold commit_writes. rewrite app_assoc, apply_writes_app. simpl. rewrite same_data_header, apply_writes_app.
    transitivity (apply_writes (homes bs a) a).
    { apply same_data_apply. rewrite apply_writes_app. simpl. rewrite same_data_header. by apply (same_data_copies st bs a). }
    intros c _. destruct (decide (c ∈ bs)) as [Hb|Hb].
    + destruct (Hsome c Hb) as (_ & d' & Hd). rewrite Hd. by apply (homes_lookup bs).
    + by rewrite apply_writes_notin by (by rewrite homes_fst). }
  assert (forall c, is_Some (apply_writes (commit_writes st bs a h h0) a !! c) <-> is_Some (a !! c)) as Hdom.
  { intros c. apply apply_writes_dom. intros b [Hb|Hb]%commit_writes_fst; [by apply Hlog|by destruct (Hsome b Hb)|done]. }
  split; [| |exact Hdata|exact Hdom|].
  - eapply idle_ext; [exact HI| |rewrite regained_ones by done; lia|unfold log_room; lia]. intros c. destruct (decide (c ∈ bs)) as [Hb|Hb].
    + rewrite unpin_all_in, HR1 by done. done.
    + rewrite unpin_all_notin by done. by apply HR0.
  - apply map_eq. intros c. destruct (decide (st <= c <= st + LOGBLOCKS)) as [Hin|Hin].
    + rewrite <- (view_log Tn (apply_writes _ _) c) by done. apply (pe_rest _ _ _ _ _ _ (id_pending _ _ _ _ _ HI)); [apply not_elem_of_nil|]. rewrite view_log by done.
      apply Hdom, Hlog. exact Hin.
    + rewrite Hsd, Hdata by (exact Hin). done.
  - intros Hs. apply sized_apply; [|done]. intros w. unfold commit_writes. rewrite !elem_of_app, !list_elem_of_singleton.
    assert (forall d, d ∈ bs -> Z.of_nat (length (default [] (a !! d))) = BSIZE) as Hd.
    { intros d' Hd. destruct (Hsome d' Hd) as (_ & x & Hx). rewrite Hx. by eapply Hs. }
    intros [[Hw| ->]|[Hw| ->]]; [|done| |done].
    + unfold log_copies in Hw. apply elem_of_lookup_imap in Hw as (k & d' & -> & Hk). apply Hd. by eapply list_elem_of_lookup_2.
    + unfold homes in Hw. apply list_elem_of_fmap in Hw as (d' & -> & Hdb). by apply Hd.
Qed.

Lemma same_data_pre : PreOrder (same_data st).
Proof. split; [by intros d c|]. intros d1 d2 d3 H1 H2 c Hc. by rewrite H1, H2. Qed.

Lemma end_txn Tn (s0 s : log_st A) a W Q :
  log_txn st (dsk (lo_bio s0)) (dlog (lo_bio s0)) Tn s a ∅ W -> log_wf st (dsk (lo_bio s0)) ->
  (forall s' b, durable s0 s' b -> settled Tn s' a b -> Q tt s') -> wp end_op Q s.
Proof.
  intros (bs & R & n & Tx) Hwf HQ. pose proof (txn_in_txn _ _ _ _ _ _ _ _ _ Tx) as Hin.
  pose proof Tx as [T1 T2 T3 T4 T5 T6 T7 T8 T9 TT T10 T11 T12 T13 T14 T15 T16 T17 T18]. pose proof (txn_size_W _ _ _ _ _ _ _ _ _ _ _ Tx) as Ew.
  rewrite hset_empty in T7, T8. rewrite union_empty_l_L in T8.
  assert (forall c, c ∉ bs -> dsk (lo_bio s0) !! c = a !! c) as Hrest.
  { intros c Hc. rewrite <- T17. apply T10; [done|]. intros x Hx. by rewrite lookup_empty in Hx. }
  assert (forall c, c ∈ bs -> view Tn a !! c = a !! c) as Hbs.
  { intros c Hb. apply view_lookup. destruct (T9 c) as (_ & ? & _); [|done]. apply elem_of_union. right. by apply T5. }
  destruct (decide (bs = [])) as [->|Hne].
  - destruct T14 as [Q1 Q2]. apply wp_end_op_nothing; [done|done|exact (li_n _ _ _ T1)|done|done|].
    intros s' Hlike Hq' Ho' Hc' _. destruct (lk_bio _ _ Hlike) as (h & Hh & Eb).
    assert (dsk (lo_bio s') = a) as Ed'.
    { rewrite Eb. change (dsk (set_hart h (lo_bio s))) with (dsk (lo_bio s)). rewrite T17. apply map_eq. intros c. apply Hrest. set_solver. }
    apply (HQ s' a).
    + unfold durable. rewrite Eb. cbn [dsk dlog set_hart]. change (dsk (set_hart h (lo_bio s))) with (dsk (lo_bio s)).
      change (dlog (set_hart h (lo_bio s))) with (dlog (lo_bio s)). rewrite T17, T18. rewrite T17 in T12.
      split; [intros c _; apply Hrest; set_solver|]. split; [done|]. exists []. split; [by rewrite app_nil_r|]. split; [done|].
      intros P D [k Hk] HD. destruct P; [|done]. cbn in HD. destruct (recovery_crashes st _ D HD Hwf) as [HwfD HsD].
      split; [done|]. left. rewrite HsD. by rewrite recovered_nil.
    + split; [|done..]. eapply (idle_ext s' (view Tn a) R n); [|intros c; rewrite T7; unfold refs; rewrite !decide_False; [done|rewrite T5; set_solver|set_solver]|cbn [length] in Ew; lia|unfold log_room; lia].
      split; try done. apply (pending_like st s); [apply Hin|done].
  - eapply wp_mono; [apply (end_op_atomic st s bs (view Tn a) R n); done|]. cbv zeta. rewrite T17, T18.
    intros [] s' (F1 & F2 & F3 & F4 & F5 & (h & h0 & Hid & Hlh & Hlh0) & L & F6 & F7 & F8).
    assert (same_data st (apply_writes (homes bs (view Tn a)) (dsk (lo_bio s0))) a) as Hh.
    { intros c _. destruct (decide (c ∈ bs)) as [Hb|Hb].
      - destruct (pe_blocks _ _ _ _ _ _ (it_pending _ _ _ _ _ _ Hin) c Hb) as [([x Hx] & _) _]. rewrite <- (Hbs c Hb), Hx.
        by apply (homes_lookup bs _ _ c).
      - rewrite apply_writes_notin by (by rewrite homes_fst). by apply Hrest. }
    assert (settled Tn s' a (apply_writes (commit_writes st bs a h h0) a)) as Hset.
    { eapply settled_commit; try done; [| |lia|by rewrite F1]; intros c Hc; rewrite T7; unfold refs; rewrite decide_False by set_solver.
      - by rewrite decide_True by (by apply T5).
      - by rewrite decide_False by (by rewrite T5). }
    eapply HQ; [|exact Hset]. pose proof (se_data _ _ _ _ Hset) as Hb. unfold durable.
    split; [by rewrite F1, Hh, Hb|]. split; [done|]. exists L. split; [done|]. split; [done|]. intros P D HP HD.
    destruct (F8 P D HP HD) as [? [?|HD']]; split; [done|by left|done|]. right. by rewrite HD', Hh, Hb.
Qed.

Lemma idle_wf (s : log_st A) a n : idle st s a (fun _ => 0) n -> log_wf st (dsk (lo_bio s)).
Proof. intros [_ Hp _ _ _]. unfold log_wf. rewrite (pe_empty _ _ _ _ _ _ Hp). split; [done|]. intros i Hi. lia. Qed.

(** The store of one system call. *)
Abbreviation store_of s := (log_store st (dsk (lo_bio (f_store s))) (dlog (lo_bio (f_store s))) st_range).

Lemma wp_syscall {X} (c : M (fs_st (log_st A)) X) s a n (Q : X -> fs_st (log_st A) -> Prop) :
  idle st (f_store s) a (fun _ => 0) n -> dsk (lo_bio (f_store s)) = a -> (log_room <= n)%nat ->
  (forall s1, txn (BS := store_of s) s1 a ∅ ∅ -> store_only s s1 ->
     wp c (fun r s2 => exists Tn a' W, torn_txn (BS := store_of s) Tn s2 a' ∅ W /\
       forall t b, durable (f_store s) t b -> settled Tn t a' b -> Q r (set_store t s2)) s1) ->
  wp (syscall c) Q s.
Proof.
  intros Hid Hd0 Hn Hc. unfold syscall. wp_step. apply wp_on_store. eapply begin_txn; [exact Hid|done|done|]. intros t1 Ht1 Hs1.
  wp_step. eapply wp_mono; [apply (Hc (set_store t1 s)); [exact Ht1|by exists t1]|]. cbn beta. intros r s2 (Tn & a' & W & Ht2 & HQ).
  wp_step. apply wp_on_store. eapply (end_txn Tn (f_store s)); [exact Ht2|by eapply idle_wf|]. intros t3 b Hd Hset. wp_step. by eapply HQ.
Qed.

Lemma durable_data (s s' : log_st A) a b : durable s s' b -> same_data st b a -> durable s s' a.
Proof.
  intros (D1 & D2 & L & D3 & D4 & D5) Hb. split; [by rewrite D1|]. split; [done|]. exists L. split; [done|]. split; [done|].
  intros P D HP HD. destruct (D5 P D HP HD) as [? [?|HD']]; split; [done|by left|done|]. right. by rewrite HD'.
Qed.

(** The file system is all of the disk. *)
Definition covers (sb : superblock) (a : blocks) : Prop := forall c, is_Some (a !! c) -> 0 <= c < sb_size sb.

(** Blocks of the log are none of the file system's. *)
Record relogged d l (sb : superblock) (a b : blocks) : Prop := {
  re_wf : fs_wf (BS := log_store st d l st_range) sb b;
  re_used : forall c, 0 <= c < sb_size sb -> used sb b c = used sb a c;
  re_same : forall c, sb_inodestart sb <= c < sb_size sb -> b !! c = a !! c;
  re_covers : covers sb b;
  re_ok : forall i, inode_ok sb a i -> inode_ok sb b i;
  re_bytes : forall i, inode_ok sb a i -> file_bytes b i = file_bytes a i;
  re_disk : forall j, 0 <= j < sb_ninodes sb -> disk_inode sb b j = disk_inode sb a j
}.

Lemma relog d l sb Tn (t : log_st A) a b : let BS := log_store st d l st_range in
  fs_wf (BS := BS) sb a -> covers sb a -> settled Tn t a b -> relogged d l sb a b.
Proof.
  intros BS Hw Hcov [_ _ Hd Hdom Hsz]. pose proof (fw_layout _ _ Hw) as Hly.
  assert (forall c, sb_inodestart sb <= c < sb_size sb -> b !! c = a !! c) as Hsame.
  { intros c Hc. apply Hd. destruct (ly_block _ Hly c Hc) as [? _]. done. }
  pose proof (ly_order _ Hly) as [Hib Hbd]. pose proof (ly_data _ Hly) as Hda.
  assert (forall c, 0 <= c < sb_size sb -> used sb b c = used sb a c) as Hused.
  { intros c Hc. destruct (BBLOCK_range sb c Hly Hc) as [_ Hb]. unfold used, blk. by rewrite Hsame by lia. }
  assert (fs_wf (BS := BS) sb b) as Hwb.
  { split; [done| |].
    - intros c Hc. destruct (fw_len _ _ Hw c Hc) as (x & Hx & _). destruct (proj2 (Hdom c)) as [y Hy]; [by eexists|]. exists y. split; [done|].
      apply Nat2Z.inj. apply Hsz in Hy; [done|]. intros c' z Hz. destruct (fw_len _ _ Hw c') as (z' & Hz' & Hl); [by apply Hcov; eexists|].
      rewrite Hz in Hz'. injection Hz' as ->. by rewrite Hl.
    - intros c Hc. rewrite Hused by lia. by apply (fw_meta _ _ Hw). }
  assert (forall i, inode_ok sb a i -> inode_ok sb b i /\ file_bytes b i = file_bytes a i) as Hi.
  { intros i [K1 K2 K3 K4]. destruct (file_ext sb a b (i_addrs i) (i_size i) Hw K4) as (Hf & Es & Eb); [intros c Hc; apply Hsame; lia|done|].
    split; [done|]. unfold file_bytes. apply list_fmap_ext. intros k x [-> Hx]%lookup_seqZ. eapply (fbyte_ext _ _ _ (i_size i)); [lia|done|done]. }
  split; try done.
  - intros c Hc. apply Hcov. by apply Hdom.
  - intros i Ho. by apply Hi.
  - intros i Ho. by apply Hi.
  - intros j Hj. destruct (IBLOCK_range sb j Hly Hj) as [_ Hb]. unfold disk_inode, blk. rewrite Hsame; [done|]. lia.
Qed.

(** Writing to a file is atomic across crashes.  [writei] run as a system
    call leaves the bytes stored at the offset, with the change on disk when the
    call returns; and if power fails after any number of the disk writes the
    call makes, and again any number of times during recovery, the recovered
    disk has, outside the log, the blocks from before the call or those from
    after it.  Bytes of a piece that failed halfway never reach the disk. *)
Theorem file_write_atomic (s : fs_st (log_st A)) a n ip i cin src off len :
  let sb := f_sb s in let BS := store_of s in
  idle st (f_store s) a (fun _ => 0) n -> dsk (lo_bio (f_store s)) = a -> (log_room <= n)%nat -> fs_wf (BS := BS) sb a -> inode_at s ip i ->
  inode_ok sb a i -> copies cin src -> 0 <= off <= i_size i -> 0 <= len -> off + len <= MAXFILE * BSIZE ->
  rsz sb ∅ + 2 * nblocks off len < LOGBLOCKS ->
  wp (syscall (writei cin ip off len)) (fun r s' => 0 <= r <= len /\
    exists a' i', inode_at s' ip i' /\ inode_ok sb a' i' /\ durable (f_store s) (f_store s') a' /\
      file_bytes a' i' = splice (file_bytes a i) off (src <$> seqZ 0 r) /\
      disk_inode sb a' (i_inum i) = dinode_of i' /\
      forall c, dstart sb <= c < sb_size sb -> used sb a c = true -> ~ own a (i_addrs i) c -> a' !! c = a !! c) s.
Proof.
  intros sb BS Hid Hd0 Hn Hw Hi Hok Hcin Ho Hl Hmax Hrm. eapply wp_syscall; [exact Hid|done|done|]. intros s1 Ht1 Hs1.
  pose proof (store_only_sb _ _ Hs1) as Esb. eapply (wp_writei (BS := BS) s1 a ∅ ip i cin src off len); rewrite ?Esb; try done.
  { by eapply store_only_inode. }
  { right. set_solver. }
  intros Tn r s2 a2 i2 W2 Hr [F1 FT F2 F3 F4 F5 F6 F7 F8 F9 F10 F11]. rewrite Esb in *. exists Tn, a2, W2. split; [exact F1|]. intros t b Hd Hset.
  split; [done|]. exists a2, i2. split; [exact F3|]. split; [done|]. split; [exact (durable_data _ _ _ _ Hd (se_data _ _ _ _ Hset))|]. split; [done|]. split.
  - unfold sb. rewrite (F9 (i_inum i)) by apply Hok. by rewrite decide_True.
  - intros c Hc Hu Hno. by apply F8.
Qed.

End Crash.
