(* ===== verification/FsDemo.v ===== *)
(** * A small file system

    A disk of 40 blocks with the log at block 2, one block of inodes, one of
    bitmap and five data blocks, and an empty file open in the inode table:
    the theorems about files apply to it. *)

From Stdlib Require Import ZArith Lia Bool String.
From stdpp Require Import base gmap list strings functions relations.
From S2P Require Import Prelude Mem Spinlock Sleeplock ObjCache Bio BioProof BioThms Log LogSpec LogProof LogThms BlockStore LogStore Fs FsBytes FsAlloc FsFile FsRw FsThms FsCrash.

Definition demo_sb : superblock := mkSuper FSMAGIC 40 5 16 30 2 33 34.
Definition demo_bitmap : list Z := [255; 255; 255; 255; 7] ++ replicate 1019 0.
Definition demo_inode : inode :=
  mkInode 1 2 1 (initsleeplock "inode") 1 T_FILE 0 0 1 0 (replicate 13 0).
Definition demo_inodes : list Z := wr_dinode zero_block (dinode_off 2) (dinode_of demo_inode).
Definition demo_disk : blocks := <[33 := demo_inodes]> (<[34 := demo_bitmap]> zero_disk).

Abbreviation demo_store := (mkLogSt
  (mkBio (mkPool (mkMach (mkHart 1 0 false true) ∅) 100) (mkLock EmptyString 0 0) ∅ [] 0 0 demo_disk [] 3)
  (mkLog (mkLock EmptyString 0 0) 2 0 0 1 0 (replicate 30 0))).
Abbreviation demo_fs := (mkFs demo_store demo_sb (mkLock EmptyString 0 0) (demo_inode :: replicate 49 zero_inode) 0).

Lemma demo_disk_lookup b : 0 <= b < 40 -> demo_disk !! b = Some (if b =? 34 then demo_bitmap else if b =? 33 then demo_inodes else zero_block).
Proof.
  intros Hb. unfold demo_disk. destruct (Z.eqb_spec b 34) as [->|Hne]; [done|]. destruct (Z.eqb_spec b 33) as [->|Hne']; [done|].
  rewrite !lookup_insert_ne by done. by apply zero_disk_lookup.
Qed.

Lemma demo_store_idle : idle 2 demo_store demo_disk (fun _ => 0) 38.
Proof.
  split; [exact demo_range| |split; [reflexivity|repeat split; done]|reflexivity|reflexivity]. split.
  - split; try reflexivity. apply prefix_nil.
  - split; [exact (core_empty _ _)|reflexivity|repeat split; done|reflexivity|done|].
    exists 38%nat. split; [|simpl; lia]. split; [change (0 < 100); lia|]. intros x Hx. by apply elem_of_nil in Hx.
  - lia.
  - intros c Hc. split; [done|]. unfold in_log, LOGBLOCKS, MAXOPBLOCKS in Hc.
    split; [rewrite demo_disk_lookup by lia; eauto|done].
  - constructor.
  - intros c Hc. by apply elem_of_nil in Hc.
  - done.
  - cbn [lo_bio dsk]. unfold log_n, hdr. rewrite demo_disk_lookup by lia. reflexivity.
  - exists zero_block. split; [by rewrite demo_disk_lookup|reflexivity].
Qed.

Abbreviation demo_bs := (log_store 2 demo_disk [] demo_range).

Lemma demo_used : forallb (used demo_sb demo_disk) (seqZ 0 35) = true /\ used demo_sb demo_disk 35 = false.
Proof. vm_compute. done. Qed.

Lemma demo_layout : layout (BS := demo_bs) demo_sb.
Proof.
  split; [split; reflexivity|split; discriminate|split; [discriminate|reflexivity]|split; [discriminate|reflexivity]|reflexivity|discriminate|].
  cbn [demo_sb sb_inodestart sb_size]. intros b Hb. unfold bs_block, log_store, log_block, in_log, LOGBLOCKS, MAXOPBLOCKS. lia.
Qed.

Lemma demo_wf : fs_wf (BS := demo_bs) demo_sb demo_disk.
Proof.
  split; [exact demo_layout| |].
  - intros b Hb. rewrite demo_disk_lookup by exact Hb. eexists. split; [done|]. by destruct (b =? 34), (b =? 33).
  - intros b Hb. change (dstart demo_sb) with 35 in Hb. destruct demo_used as [Hu _]. rewrite forallb_forall in Hu.
    apply Hu. apply list_elem_of_In, elem_of_seqZ. lia.
Qed.

Lemma demo_saddr k : saddr demo_disk (i_addrs demo_inode) k = 0.
Proof.
  assert (forall j, addr_at (i_addrs demo_inode) j = 0) as E.
  { intros j. unfold addr_at. rewrite nth_lookup. destruct (_ !! _) as [v|] eqn:Ev; [|done].
    cbn [i_addrs demo_inode] in Ev. by apply lookup_replicate in Ev as [-> _]. }
  unfold saddr. rewrite !E. by destruct (k <? NDIRECT), (k =? MAXFILE).
Qed.

Lemma demo_inode_ok : inode_ok demo_sb demo_disk demo_inode.
Proof.
  split; [reflexivity|split; [discriminate|reflexivity]| |].
  - split; try (split; [discriminate|reflexivity]); [reflexivity|]. intros x Hx. cbn [dinode_of di_addrs demo_inode i_addrs] in Hx.
    apply list_elem_of_lookup in Hx as [k Hk]. apply lookup_replicate in Hk as [-> _]. done.
  - split; [reflexivity|split; discriminate| | |].
    + intros k _ Hn. destruct (Hn (demo_saddr k)).
    + intros j k _ _ Hn. destruct (Hn (demo_saddr j)).
    + intros k Hk Hs. cbn [demo_inode i_size] in Hs. change BSIZE with 1024 in Hs. lia.
Qed.

Lemma demo_inode_at : inode_at demo_fs 1 demo_inode.
Proof. by split. Qed.

(** A source of 1500 bytes. *)
Definition demo_src (k : Z) : Z := k mod 256.
Definition demo_cin (tot m : Z) : list Z * bool := (demo_src <$> seqZ tot m, true).

Lemma demo_copies : copies demo_cin demo_src.
Proof. intros tot m _ _. by exists m. Qed.

(** A source that cannot be read past its first 1200 bytes, and fails in the
    middle of the piece that reaches there. *)
Definition short_cin (tot m : Z) : list Z * bool :=
  if tot + m <=? 1200 then (demo_src <$> seqZ tot m, true) else (demo_src <$> seqZ tot (Z.max 0 (1200 - tot)), false).

Lemma short_copies : copies short_cin demo_src.
Proof.
  intros tot m Ht Hm. unfold short_cin. destruct (Z.leb_spec (tot + m) 1200); [by exists m|]. exists (Z.max 0 (1200 - tot)). split; [done|]. lia.
Qed.

Lemma demo_room : rsz demo_sb ∅ = 1.
Proof. vm_compute. done. Qed.

Lemma file_write_atomic_witness :
  wp (syscall (writei demo_cin 1 0 1500)) (fun r s' => 0 <= r <= 1500 /\
    exists a' i', inode_at s' 1 i' /\ inode_ok demo_sb a' i' /\ durable 2 demo_store (f_store s') a' /\
      file_bytes a' i' = splice (file_bytes demo_disk demo_inode) 0 (demo_src <$> seqZ 0 r) /\
      disk_inode demo_sb a' 2 = dinode_of i' /\
      forall c, dstart demo_sb <= c < sb_size demo_sb -> used demo_sb demo_disk c = true ->
        ~ own demo_disk (i_addrs demo_inode) c -> a' !! c = demo_disk !! c) demo_fs.
Proof.
  refine (file_write_atomic 2 demo_range demo_fs demo_disk 38 1 demo_inode demo_cin demo_src 0 1500
    demo_store_idle eq_refl (le_n 38) demo_wf demo_inode_at demo_inode_ok demo_copies _ _ _ _); cbn [demo_inode i_size]; try lia.
  - vm_compute. discriminate.
  - change (f_sb demo_fs) with demo_sb. rewrite demo_room. reflexivity.
Defined.

(** The same inside a system call. *)
Abbreviation open_store := (mkLogSt
  (mkBio (mkPool (mkMach (mkHart 1 0 false true) ∅) 100) (mkLock EmptyString 0 0) ∅ [] 0 0 demo_disk [] 3)
  (mkLog (mkLock EmptyString 0 0) 2 1 0 1 0 (replicate 30 0))).
Abbreviation open_fs := (mkFs open_store demo_sb (mkLock EmptyString 0 0) (demo_inode :: replicate 49 zero_inode) 0).

Lemma open_fs_txn : txn (BS := demo_bs) open_fs demo_disk ∅ ∅.
Proof.
  destruct demo_store_idle as [_ Hp Hq _ _].
  refine (open_txn 2 demo_range open_store demo_disk 38 _ eq_refl Hq eq_refl eq_refl (le_n 38)).
  apply (pending_like 2 demo_store); [exact Hp|]. split; try reflexivity. exists (mkHart 1 0 false true). split; [repeat split; done|]. reflexivity.
Qed.

Lemma open_held : held_data demo_sb demo_disk ∅.
Proof. intros x c u Hx. by rewrite lookup_empty in Hx. Qed.

Lemma balloc_correct_witness :
  used demo_sb demo_disk 35 = false /\
  wp (balloc ROOTDEV) (fun r s' =>
    (r = 0 /\ txn (BS := demo_bs) s' demo_disk ∅ ∅ /\ forall j, 0 <= j < sb_size demo_sb -> used demo_sb demo_disk j = true) \/
    (dstart demo_sb <= r < sb_size demo_sb /\ used demo_sb demo_disk r = false /\ (forall j, 0 <= j < r -> used demo_sb demo_disk j = true) /\
     exists a', txn (BS := demo_bs) s' a' ∅ ({[r]} ∪ ({[BBLOCK r demo_sb]} ∪ ∅)) /\ a' !! r = Some (replicate 1024 0) /\
       (forall c, c <> r -> c <> BBLOCK r demo_sb -> a' !! c = demo_disk !! c) /\
       (forall c, 0 <= c < sb_size demo_sb -> used demo_sb a' c = used demo_sb demo_disk c || bool_decide (r = c)) /\
       wp (bfree ROOTDEV r) (fun _ s2 =>
         bfree ROOTDEV r s2 = Panic "freeing free block" /\
         exists a2 W2, txn (BS := demo_bs) s2 a2 ∅ W2 /\
           forall c, 0 <= c < sb_size demo_sb -> used demo_sb a2 c = used demo_sb demo_disk c) s')) open_fs.
Proof.
  split; [exact (proj2 demo_used)|].
  refine (balloc_correct (BS := demo_bs) open_fs demo_disk ∅ ∅ demo_wf open_fs_txn open_held _ _).
  - apply handles_0.
  - reflexivity.
Defined.

(** 1500 bytes from a source that fails in the middle of the second piece. *)
Lemma writei_readi_witness :
  (short_cin 1024 476).2 = false /\ length (short_cin 1024 476).1 = 176%nat /\
  wp (writei short_cin 1 0 1500) (fun r s' =>
    if (i_size demo_inode <? 0) || (MAXFILE * BSIZE <? 0 + 1500) then r = -1 /\ s' = open_fs
    else 0 <= r <= 1500 /\ exists Tn a' i' W',
      wrote_file (BS := demo_bs) Tn open_fs demo_disk ∅ 1 demo_inode short_cin demo_src 0 1500 r s' a' i' W' /\
      forall o k, 0 <= o < 2 ^ 32 -> 0 <= k < 2 ^ 31 -> Tn = ∅ \/ o + k <= (0 + r) / BSIZE * BSIZE \/ ((0 + r) / BSIZE + 1) * BSIZE <= o ->
        let out := take (Z.to_nat k) (drop (Z.to_nat o) (splice (file_bytes demo_disk demo_inode) 0 (demo_src <$> seqZ 0 r))) in
        wp (readi to_kernel 1 o k) (fun v _ => v = (Z.of_nat (length out), out)) s') open_fs.
Proof.
  split; [reflexivity|]. split; [reflexivity|].
  refine (writei_readi (BS := demo_bs) open_fs demo_disk ∅ 1 demo_inode short_cin demo_src 0 1500
    demo_wf open_fs_txn _ demo_inode_ok short_copies _ _ _ _); try lia.
  - exact demo_inode_at.
  - right. intros c _. apply not_elem_of_empty.
  - change (f_sb open_fs) with demo_sb. rewrite demo_room. reflexivity.
Defined.
