(* ===== verification/FsDir.v ===== *)
(** * Directories

    The contents of a directory are 16-byte entries, an inode number (0 for
    an empty entry) and a name.  [dir_find c name] is the entry of [name] in
    the contents [c].  [dirlookup] computes it, and [dirlink] stores a new
    entry in the first empty place, after which [dirlookup] finds it and
    every other name is found where it was. *)

From Stdlib Require Import ZArith Lia Bool String.
From stdpp Require Import base gmap list strings functions.
From S2P Require Import Prelude Mem Spinlock Sleeplock ObjCache Bio BioProof BioThms Log LogProof BlockStore LogStore Fs FsBytes FsAlloc FsFile FsRw FsThms FsDemo.

(** ** Entries *)

Definition ent (c : list Z) (k : nat) : list Z := take 16 (drop (16 * k) c).
Definition nents (c : list Z) : nat := (length c / 16)%nat.

Definition ent_is (name : list Z) (e : list Z) : bool := negb (de_inum e =? 0) && (namecmp name (de_name e) =? 0).
Definition ent_free (e : list Z) : bool := de_inum e =? 0.

(** The first entry from [k] on, of [n], that satisfies [P]. *)
Fixpoint scan (P : list Z -> bool) (c : list Z) (n k : nat) : option nat :=
  match n with
  | O => None
  | S n => if P (ent c k) then Some k else scan P c n (S k)
  end.

Definition dir_find (c : list Z) (name : list Z) : option nat := scan (ent_is name) c (nents c) 0.
(** Where [dirlink] puts a new entry. *)
Definition dir_slot (c : list Z) : nat := default (nents c) (scan ent_free c (nents c) 0).

Lemma scan_some P c n : forall k r, scan P c n k = Some r ->
  (k <= r < k + n)%nat /\ P (ent c r) = true /\ forall j, (k <= j < r)%nat -> P (ent c j) = false.
Proof.
  induction n as [|n IH]; intros k r H; cbn [scan] in H; [done|]. destruct (P (ent c k)) eqn:E.
  - injection H as <-. split; [lia|]. split; [done|]. intros; lia.
  - destruct (IH _ _ H) as (H1 & H2 & H3). split; [lia|]. split; [done|]. intros j Hj. destruct (decide (j = k)) as [->|]; [done|]. apply H3. lia.
Qed.

Lemma scan_none P c n : forall k, scan P c n k = None -> forall j, (k <= j < k + n)%nat -> P (ent c j) = false.
Proof.
  induction n as [|n IH]; intros k H j Hj; cbn [scan] in H; [lia|]. destruct (P (ent c k)) eqn:E; [done|].
  destruct (decide (j = k)) as [->|]; [done|]. apply (IH (S k)); [done|lia].
Qed.

(** Entries that agree are scanned alike. *)
Lemma scan_ext P c c' n : forall k, (forall j, (k <= j < k + n)%nat -> P (ent c j) = P (ent c' j)) -> scan P c n k = scan P c' n k.
Proof.
  induction n as [|n IH]; intros k H; cbn [scan]; [done|]. rewrite (H k) by lia. rewrite (IH (S k)); [done|]. intros j Hj. apply H. lia.
Qed.

Lemma scan_app P c n m : forall k, scan P c (n + m) k = match scan P c n k with Some r => Some r | None => scan P c m (k + n) end.
Proof.
  induction n as [|n IH]; intros k; cbn [scan Nat.add]; [by rewrite Nat.add_0_r|]. destruct (P (ent c k)); [done|].
  rewrite IH. by replace (S k + n)%nat with (k + S n)%nat by lia.
Qed.

Lemma scan_at P c n k r : (k <= r < k + n)%nat -> P (ent c r) = true -> (forall j, (k <= j < r)%nat -> P (ent c j) = false) -> scan P c n k = Some r.
Proof.
  revert k. induction n as [|n IH]; intros k Hr Hp Hj; cbn [scan]; [lia|]. destruct (decide (k = r)) as [->|]; [by rewrite Hp|].
  rewrite Hj by lia. apply IH; [lia|done|]. intros j Hj'. apply Hj. lia.
Qed.

Lemma ent_splice_same c k e : (16 * k <= length c)%nat -> length e = 16%nat -> ent (splice c (Z.of_nat (16 * k)) e) k = e.
Proof.
  intros Hk He. unfold ent, splice. rewrite Nat2Z.id. rewrite drop_app_length' by (rewrite length_take; lia).
  by rewrite take_app_length' by lia.
Qed.

Lemma ent_splice_other c k j e : (16 * k <= length c)%nat -> length e = 16%nat -> j <> k -> ent (splice c (Z.of_nat (16 * k)) e) j = ent c j.
Proof.
  intros Hk He Hj. unfold ent, splice. rewrite Nat2Z.id, He. apply list_eq. intros i. destruct (decide (i < 16)%nat) as [Hi|Hi].
  2: { by rewrite !lookup_take_ge by lia. }
  rewrite !lookup_take_lt, !lookup_drop by lia. destruct (decide (j < k)%nat).
  - rewrite lookup_app_l by (rewrite length_take; lia). by rewrite lookup_take_lt by lia.
  - rewrite lookup_app_r by (rewrite length_take; lia). rewrite length_take, Nat.min_l by lia.
    rewrite lookup_app_r by lia. rewrite He, lookup_drop. f_equal. lia.
Qed.

Lemma length_splice c k e : (16 * k <= length c)%nat -> length e = 16%nat ->
  length (splice c (Z.of_nat (16 * k)) e) = Nat.max (length c) (16 * k + 16).
Proof. intros Hk He. unfold splice. rewrite Nat2Z.id, He, !length_app, length_take, length_drop, He. lia. Qed.

(** ** The entry [dirlink] stores *)

Lemma length_strncpy n t : length (strncpy_bytes n t) = n.
Proof. revert t. induction n as [|n IH]; intros t; cbn [strncpy_bytes]; [done|]. case_match; cbn; [by rewrite length_replicate|by rewrite IH]. Qed.

Lemma strncmp_strncpy n t : strncmp_bytes n t (strncpy_bytes n t) = 0.
Proof.
  revert t. induction n as [|n IH]; intros t; cbn [strncpy_bytes strncmp_bytes]; [done|].
  destruct (Z.eqb_spec (hd 0 t) 0) as [E|E]; cbn [hd tail]; [rewrite E; done|].
  rewrite Z.eqb_refl. cbn [negb andb]. apply IH.
Qed.

Lemma length_dirent inum name : length (mk_dirent inum name) = 16%nat.
Proof. unfold mk_dirent. rewrite length_wr16. cbn [length]. by rewrite length_strncpy. Qed.

Lemma dirent_inum inum name : 0 <= inum < 2 ^ 16 -> de_inum (mk_dirent inum name) = inum.
Proof.
  intros Hi. unfold de_inum, mk_dirent. rewrite rd16u_wr16; [apply Z.mod_small; lia|lia|]. cbn [length]. rewrite length_strncpy. unfold DIRSIZ. lia.
Qed.

Lemma dirent_name inum name : de_name (mk_dirent inum name) = strncpy_bytes 14 name.
Proof.
  assert (length (strncpy_bytes 14 name) = 14%nat) as Hl by apply length_strncpy. change (Z.to_nat DIRSIZ) with 14%nat.
  unfold de_name, bytes_from, mk_dirent. change (Z.to_nat DIRSIZ) with 14%nat. apply list_eq. intros i. rewrite list_lookup_fmap.
  destruct (decide (i < 14)%nat) as [Hi|Hi].
  - rewrite lookup_seqZ_lt by (unfold DIRSIZ; lia). cbn [fmap option_fmap option_map]. rewrite byte_at_wr16 by (cbn [length]; lia).
    rewrite !decide_False by lia. unfold byte_at. replace (Z.to_nat (2 + Z.of_nat i)) with (S (S i)) by lia. cbn [nth]. rewrite nth_lookup.
    destruct (lookup_lt_is_Some_2 (strncpy_bytes 14 name) i) as [x Hx]; [lia|]. by rewrite Hx.
  - rewrite lookup_seqZ_ge by (unfold DIRSIZ; lia). by rewrite lookup_ge_None_2 by lia.
Qed.

Lemma dirent_is inum name : 0 < inum < 2 ^ 16 -> ent_is name (mk_dirent inum name) = true.
Proof.
  intros Hi. unfold ent_is. rewrite dirent_inum by lia. rewrite (proj2 (Z.eqb_neq inum 0)) by lia. rewrite dirent_name.
  unfold namecmp. change (Z.to_nat DIRSIZ) with 14%nat. by rewrite strncmp_strncpy.
Qed.

(** Two names the file system does not tell apart. *)
Definition same_name (n m : list Z) : Prop := namecmp n (strncpy_bytes 14 m) = 0.

Lemma dir_slot_le c : (dir_slot c <= nents c)%nat.
Proof. unfold dir_slot. destruct (scan _ _ _ _) as [r|] eqn:E; cbn [default from_option id]; [|done]. apply scan_some in E as (E & _). lia. Qed.

Lemma nents_16 c : (16 * nents c <= length c)%nat.
Proof. unfold nents. apply Nat.Div0.mul_div_le. Qed.

(** Adding an entry: the new name is found in its place, every other name
    where it was. *)
Lemma dir_find_added c inum name : (16 | length c)%nat -> 0 < inum < 2 ^ 16 -> dir_find c name = None ->
  let c' := splice c (Z.of_nat (16 * dir_slot c)) (mk_dirent inum name) in
  dir_find c' name = Some (dir_slot c) /\ forall other, ~ same_name other name -> dir_find c' other = dir_find c other.
Proof.
  intros [m Hm] Hi Hnone c'. set (k := dir_slot c) in *. pose proof (dir_slot_le c) as Hk. fold k in Hk. pose proof (nents_16 c) as Hn16.
  assert (nents c = m) as En by (unfold nents; rewrite Hm; by rewrite Nat.div_mul).
  pose proof (length_dirent inum name) as Hd. assert (16 * k <= length c)%nat as Hkc by lia.
  assert (nents c' = Nat.max (nents c) (k + 1)) as En'.
  { unfold nents at 1, c'. rewrite length_splice, Hm, En by done. replace (Nat.max (m * 16) (16 * k + 16)) with (Nat.max m (k + 1) * 16)%nat by lia.
    by rewrite Nat.div_mul. }
  assert (ent c' k = mk_dirent inum name) as Ek by (by apply ent_splice_same).
  assert (forall j, j <> k -> ent c' j = ent c j) as Eo by (intros j Hj; by apply ent_splice_other).
  split.
  - unfold dir_find. apply scan_at; [lia|rewrite Ek; by apply dirent_is|]. intros j Hj. rewrite Eo by lia.
    apply (scan_none _ _ _ _ Hnone). lia.
  - intros other Hother. unfold dir_find.
    assert (ent_is other (ent c' k) = false) as Hf.
    { rewrite Ek. unfold ent_is. rewrite dirent_inum, dirent_name by lia. unfold same_name in Hother. apply andb_false_iff. right. by apply Z.eqb_neq. }
    assert (forall j, (j < nents c)%nat -> ent_is other (ent c' j) = ent_is other (ent c j)) as Hsame.
    { intros j Hj. destruct (decide (j = k)) as [->|]; [|by rewrite Eo]. rewrite Hf. unfold k, dir_slot in Hj |- *.
      destruct (scan ent_free c (nents c) 0) as [r|] eqn:E; cbn [default from_option id] in Hj |- *; [|lia]. apply scan_some in E as (_ & Hfree & _).
      unfold ent_is. unfold ent_free in Hfree. by rewrite Hfree. }
    rewrite En'. destruct (decide (k < nents c)%nat).
    + rewrite Nat.max_l by lia. apply scan_ext. intros j Hj. apply Hsame. lia.
    + assert (k = nents c) as Ekn by lia. rewrite Nat.max_r by lia. rewrite Ekn, scan_app. rewrite (scan_ext _ c' c) by (intros j Hj; apply Hsame; lia).
      destruct (scan (ent_is other) c (nents c) 0); [done|]. cbn [scan Nat.add]. by rewrite <- Ekn, Hf.
Qed.

(** ** The inode table *)

Section Dir.
Context {T : Type} `{HM : HasMach T} {BO : BlockOps T} {BS : BlockStore T}.

Definition cached (inum : Z) (i : inode) : Prop := 0 < i_ref i /\ i_dev i = ROOTDEV /\ i_inum i = inum.

(** [iget] can answer for [inum]: it is in the table, or there is room. *)
Definition iget_room (s : fs_st T) (inum : Z) : Prop := exists k i, it_inode s !! k = Some i /\ (i_ref i = 0 \/ cached inum i).

(** The state after [iget] returned [ip]: one more reference, to [inum]. *)
Record igot (s s' : fs_st T) (ip inum : Z) : Prop := {
  ig_sb : f_sb s' = f_sb s;
  ig_cwd : f_cwd s' = f_cwd s;
  ig_lock : lk_locked (it_lock s') = 0;
  ig_store : bs_same (f_store s) (f_store s');
  ig_others : forall k, k <> Z.to_nat (ip - 1) -> it_inode s' !! k = it_inode s !! k;
  ig_inode : exists i i', 0 < ip /\ it_inode s !! Z.to_nat (ip - 1) = Some i /\ it_inode s' !! Z.to_nat (ip - 1) = Some i' /\
    i_dev i' = ROOTDEV /\ i_inum i' = inum /\
    ((cached inum i /\ i' = set_iref (i_ref i + 1) i) \/ (i_ref i = 0 /\ i_ref i' = 1 /\ i_valid i' = 0))
}.

Lemma iget_scan_spec (l : list inode) inum : forall k empty ip e,
  iget_scan l k ROOTDEV inum empty = (ip, e) -> 0 < k -> 0 <= empty ->
  (ip = 0 \/ exists j i, l !! j = Some i /\ ip = k + Z.of_nat j /\ cached inum i) /\
  (ip = 0 -> (forall j i, l !! j = Some i -> ~ cached inum i) /\
     (e = empty \/ exists j i, l !! j = Some i /\ e = k + Z.of_nat j /\ i_ref i = 0) /\
     (e = 0 -> forall j i, l !! j = Some i -> i_ref i <> 0)).
Proof.
  induction l as [|i l IH]; intros k empty ip e H Hk He; cbn [iget_scan] in H.
  { injection H as <- <-. split; [by left|]. intros _. split_and!; [done|by left|done]. }
  destruct ((0 <? i_ref i) && (i_dev i =? ROOTDEV) && (i_inum i =? inum)) eqn:Em.
  - injection H as <- <-. apply andb_prop in Em as [[E1 E2]%andb_prop E3]. apply Z.ltb_lt in E1. apply Z.eqb_eq in E2, E3.
    split; [|lia]. right. exists 0%nat, i. split; [done|]. split; [lia|done].
  - assert (~ cached inum i) as Hnc.
    { intros (C1 & C2 & C3). apply andb_false_iff in Em as [[Em|Em]%andb_false_iff|Em]; [apply Z.ltb_ge in Em; lia|by apply Z.eqb_neq in Em|by apply Z.eqb_neq in Em]. }
    destruct (IH _ _ _ _ H) as [IH1 IH2]; [lia|destruct ((empty =? 0) && (i_ref i =? 0)); lia|]. split.
    + destruct IH1 as [->|(j & i' & Hj & -> & Hc)]; [by left|right]. exists (S j), i'. split; [done|]. split; [lia|done].
    + intros E0. destruct (IH2 E0) as (A1 & A2 & A3). split_and!.
      * intros [|j] i' Hj; [by injection Hj as <-|by eapply A1].
      * destruct A2 as [->|(j & i' & Hj & -> & Hr)].
        -- destruct ((empty =? 0) && (i_ref i =? 0)) eqn:Ee; [|by left]. right. exists 0%nat, i. apply andb_prop in Ee as [_ Ee]. split; [done|]. split; lia.
        -- right. exists (S j), i'. split; [done|]. split; [lia|done].
      * intros Ee. subst e. destruct A2 as [A2|(j & i' & _ & ? & _)]; [|lia].
        destruct ((empty =? 0) && (i_ref i =? 0)) eqn:Ee; [lia|]. intros [|j] i' Hj; [|by eapply A3]. injection Hj as <-.
        apply andb_false_iff in Ee as [Ee|Ee]; [apply Z.eqb_neq in Ee; lia|by apply Z.eqb_neq in Ee].
Qed.

(** The table has become [l]; nothing else has changed, and its lock is free. *)
Record table_set (s s' : fs_st T) (l : list inode) : Prop := {
  ts_sb : f_sb s' = f_sb s;
  ts_cwd : f_cwd s' = f_cwd s;
  ts_lock : lk_locked (it_lock s') = 0;
  ts_store : bs_same (f_store s) (f_store s');
  ts_inode : it_inode s' = l
}.

(** Between [acquire] and [release] of the table's lock, only the table
    changes. *)
Lemma wp_table_lock {X} s a H W (k : M (fs_st T) X) (Q : X -> fs_st T -> Prop) :
  txn s a H W -> lk_locked (it_lock s) = 0 ->
  (forall s1, it_inode s1 = it_inode s ->
     (forall l (R : unit -> fs_st T -> Prop), (forall s', txn s' a H W -> table_set s s' l -> R tt s') ->
        wp (release_in it_lock set_itlock) R (set_itable l s1)) -> wp k Q s1) ->
  wp (acquire_in it_lock set_itlock;; k) Q s.
Proof.
  intros Ht Hl HQ. pose proof (bs_txn_hart _ _ _ _ _ Ht) as Hh. wp_step. apply wp_acquire_in; [done|]. apply HQ; [done|]. intros l R HR.
  destruct (pop_push_off (hart_of (f_store s)) (push_off (hart_of (f_store s))) Hh) as (h & Eh & Sh); [done|]. set (s2 := set_itable _ _).
  assert (hart_of s2 = push_off (hart_of (f_store s))) as E2.
  { transitivity (hart_of (set_hart (push_off (hart_of (f_store s))) (f_store s))); [done|apply hart_of_set_hart]. }
  apply (wp_release_in _ _ _ _ h).
  - done.
  - cbn [s2 set_itable set_itlock it_lock lk_cpu]. by rewrite E2.
  - by rewrite E2.
  - assert (f_store (set_hart h s2) = set_hart h (f_store s)) as Es.
    { transitivity (set_hart h (set_hart (push_off (hart_of (f_store s))) (f_store s))); [done|]. unfold set_hart, mem_of. rewrite mach_of_set. apply set_mach_set. }
    apply HR.
    + unfold txn, torn_txn. cbn [set_itlock f_store]. rewrite Es. apply bs_txn_set_hart; [exact Ht|]. by apply (hart_ok_proper _ _ Sh).
    + split; try done. cbn [set_itlock f_store]. rewrite Es. split; [by rewrite hart_of_set_hart|apply bs_pid_set_hart].
Qed.

Lemma wp_iget s a H W inum (Q : Z -> fs_st T -> Prop) :
  txn s a H W -> lk_locked (it_lock s) = 0 -> iget_room s inum ->
  (forall ip s', txn s' a H W -> igot s s' ip inum -> Q ip s') -> wp (iget ROOTDEV inum) Q s.
Proof.
  intros Ht Hl (kr & ir & Hkr & Hr) HQ. unfold iget. apply (wp_table_lock s a H W); [done|done|]. intros s1 E1 Hrel. wp_step. apply wp_gets.
  rewrite E1. destruct (iget_scan (it_inode s) 1 ROOTDEV inum 0) as [ip e] eqn:Es.
  destruct (iget_scan_spec _ _ _ _ _ _ Es) as [H1 H2]; [lia|lia|].
  assert (forall p i (f : inode -> inode), inode_at s p i ->
    (i_dev (f i) = ROOTDEV /\ i_inum (f i) = inum /\ ((cached inum i /\ f i = set_iref (i_ref i + 1) i) \/ (i_ref i = 0 /\ i_ref (f i) = 1 /\ i_valid (f i) = 0))) ->
    wp (upd_ip p f;; release_in it_lock set_itlock;; mret p) Q s1) as Hupd.
  { intros p i f [Hp Hi] Hf. wp_step. unfold upd_ip. wp_step. eapply (wp_get_ip s1 p i); [split; [done|by rewrite E1]|]. apply wp_modify. wp_step.
    apply Hrel. intros s' Ht' [T1 T2 T3 T4 T5]. wp_step. apply HQ; [done|]. rewrite E1 in T5. split; try done.
    - intros k Hk. rewrite T5. by apply list_lookup_insert_ne.
    - exists i, (f i). split; [done|]. split; [done|]. split; [|tauto]. rewrite T5. apply list_lookup_insert_eq. by eapply lookup_lt_Some. }
  destruct H1 as [->|(j & i & Hj & -> & Hc)].
  - cbn [negb Z.eqb]. destruct (H2 eq_refl) as (A1 & A2 & A3). destruct A2 as [->|(j & i & Hj & -> & Hr0)].
    { exfalso. destruct Hr as [Hr|Hr]; [by eapply A3|by eapply A1]. }
    rewrite (proj2 (Z.eqb_neq (1 + Z.of_nat j) 0)) by lia. eapply (Hupd _ i).
    + split; [lia|]. by replace (Z.to_nat (1 + Z.of_nat j - 1)) with j by lia.
    + split; [done|]. split; [done|]. right. done.
  - rewrite (proj2 (Z.eqb_neq (1 + Z.of_nat j) 0)) by lia. cbn [negb]. eapply (Hupd _ i).
    + split; [lia|]. by replace (Z.to_nat (1 + Z.of_nat j - 1)) with j by lia.
    + destruct Hc as (C1 & C2 & C3). split; [done|]. split; [done|]. left. done.
Qed.

(** Dropping the reference [iget] has just taken. *)
Lemma wp_iput_again s0 s a H W ip inum (Q : unit -> fs_st T -> Prop) :
  igot s0 s ip inum -> txn s a H W -> (forall s', txn s' a H W -> f_sb s' = f_sb s0 -> Q tt s') -> wp (iput ip) Q s.
Proof.
  intros [G1 G2 G3 G4 G5 (i & i' & Hp & Hi & Hi' & Ed & En & Hc)] Ht HQ. unfold iput. apply (wp_table_lock s a H W); [done|done|].
  intros s1 E1 Hrel. wp_step. eapply (wp_get_ip s1 ip i'); [split; [done|by rewrite E1]|].
  assert ((i_ref i' =? 1) && negb (i_valid i' =? 0) = false) as ->.
  { destruct Hc as [[(C1 & _) ->]|(_ & _ & Ev)]; [|rewrite Ev; apply andb_false_r]. cbn [set_iref i_ref]. by rewrite (proj2 (Z.eqb_neq _ _)) by lia. }
  cbn [andb]. wp_step. wp_step. wp_step. unfold upd_ip. wp_step. eapply (wp_get_ip s1 ip i'); [split; [done|by rewrite E1]|]. apply wp_modify.
  apply Hrel. intros s' Ht' [T1 T2 T3 T4 T5]. apply HQ; [done|congruence].
Qed.

(** ** dirlookup *)

(** A directory in good order: [dp] is its inode, open in the table. *)
Record dir_at (s : fs_st T) (a : blocks) (W : gset Z) (dp : Z) (i : inode) : Prop := {
  da_wf : fs_wf (f_sb s) a;
  da_txn : txn s a ∅ W;
  da_inode : inode_at s dp i;
  da_ok : inode_ok (f_sb s) a i;
  da_type : i_type i = T_DIR;
  da_size : (16 | i_size i);
  da_lock : lk_locked (it_lock s) = 0
}.

Lemma dir_size s a W dp i : dir_at s a W dp i -> i_size i = 16 * Z.of_nat (nents (file_bytes a i)) /\ (16 | length (file_bytes a i))%nat.
Proof.
  intros D. pose proof (fo_size _ _ _ _ (ik_file _ _ _ (da_ok _ _ _ _ _ D))) as Hs. destruct (da_size _ _ _ _ _ D) as [m Hm].
  unfold nents. rewrite length_file_bytes, Hm. replace (Z.to_nat (m * 16)) with (Z.to_nat m * 16)%nat by lia. split.
  - rewrite Nat.div_mul by lia. lia.
  - by exists (Z.to_nat m).
Qed.

Lemma dir_store_only s s' a W dp i : dir_at s a W dp i -> store_only s s' -> txn s' a ∅ W -> dir_at s' a W dp i.
Proof. intros [D1 D2 D3 D4 D5 D6 D7] (t & -> & Hs) Ht. by split. Qed.

Lemma igot_store_only s s1 s' ip inum : store_only s s1 -> igot s1 s' ip inum -> igot s s' ip inum.
Proof. intros (t & -> & Hs) [G1 G2 G3 G4 G5 G6]. split; try done. by etrans. Qed.

(** Reading entry [k]. *)
Lemma wp_read_ent {X} s a W dp i k (f : Z * list Z -> M (fs_st T) X) (Q : X -> fs_st T -> Prop) msg :
  dir_at s a W dp i -> (k < nents (file_bytes a i))%nat ->
  (forall s', dir_at s' a W dp i -> store_only s s' -> wp (f (sizeof_dirent, ent (file_bytes a i) k)) Q s') ->
  wp ('(r, de) ← readi to_kernel dp (Z.of_nat (16 * k)) sizeof_dirent;
      (if negb (r =? sizeof_dirent) then panic msg else mret tt);; f (r, de)) Q s.
Proof.
  intros D Hk HQ. pose proof D as [D1 D2 D3 [K1 K2 K3 K4] D5 D6 D7]. destruct (dir_size _ _ _ _ _ D) as [Hsz Hlen].
  pose proof (fo_size _ _ _ _ K4) as Hmax.
  assert (length (ent (file_bytes a i) k) = 16%nat) as Hl.
  { unfold ent. rewrite length_take, length_drop, length_file_bytes. lia. }
  wp_step. eapply (wp_readi s a W dp i); [done|done|done|done|done|fs_nums; lia|unfold sizeof_dirent; lia| |done].
  rewrite Nat2Z.id. change (Z.to_nat sizeof_dirent) with 16%nat. fold (ent (file_bytes a i) k). rewrite Hl. change (Z.of_nat 16) with sizeof_dirent.
  intros s' Ht' Hs'. cbv beta iota. rewrite Z.eqb_refl. cbn [negb]. wp_step. wp_step. apply HQ; [|done]. by eapply dir_store_only.
Qed.

(** The entries have inodes [iget] can answer for. *)
Definition rooms (s : fs_st T) (c : list Z) (name : list Z) : Prop :=
  forall k, (k < nents c)%nat -> ent_is name (ent c k) = true -> iget_room s (de_inum (ent c k)).

Lemma rooms_store_only s s' c name : store_only s s' -> rooms s c name -> rooms s' c name.
Proof. intros (t & -> & _) H. exact H. Qed.

(** What [dirlookup] found. *)
Definition found (s : fs_st T) (a : blocks) (W : gset Z) (dp : Z) (i : inode) (c : list Z) (k : option nat) (r : Z * Z) (s' : fs_st T) : Prop :=
  match k with
  | Some k => exists ip, r = (ip, Z.of_nat (16 * k)) /\ 0 < ip /\ txn s' a ∅ W /\ igot s s' ip (de_inum (ent c k))
  | None => r = (0, 0) /\ dir_at s' a W dp i /\ store_only s s'
  end.

Lemma found_store_only s s1 a W dp i c k r s' : store_only s s1 -> found s1 a W dp i c k r s' -> found s a W dp i c k r s'.
Proof.
  intros Hs. unfold found. destruct k as [k|].
  - intros (ip & E & Hp & Ht & G). exists ip. eauto using igot_store_only.
  - intros (E & D & Hs'). split; [done|]. split; [done|]. by etrans.
Qed.

Lemma wp_dirlookup_loop n : forall fuel k s a W dp i name, dir_at s a W dp i -> rooms s (file_bytes a i) name ->
  nents (file_bytes a i) = (k + n)%nat -> (n < fuel)%nat ->
  wp (dirlookup_loop fuel dp name (Z.of_nat (16 * k)))
    (found s a W dp i (file_bytes a i) (scan (ent_is name) (file_bytes a i) n k)) s.
Proof.
  induction n as [|n IH]; intros fuel k s a W dp i name D Hrm Hn Hf; (destruct fuel as [|fuel]; [lia|]);
    destruct (dir_size _ _ _ _ _ D) as [Hsz Hlen]; cbn [dirlookup_loop scan]; wp_step; (eapply wp_get_ip; [apply D|]).
  - rewrite (proj2 (Z.ltb_ge (Z.of_nat (16 * k)) (i_size i))) by lia. wp_step. split; [done|]. split; [done|reflexivity].
  - rewrite (proj2 (Z.ltb_lt (Z.of_nat (16 * k)) (i_size i))) by lia. set (c := file_bytes a i) in *.
    eapply (wp_read_ent s a W dp i k (fun '(r, de) => if de_inum de =? 0 then dirlookup_loop fuel dp name (Z.of_nat (16 * k) + sizeof_dirent)
      else if namecmp name (de_name de) =? 0 then i ← get_ip dp; ip ← iget (i_dev i) (de_inum de); mret (ip, Z.of_nat (16 * k))
      else dirlookup_loop fuel dp name (Z.of_nat (16 * k) + sizeof_dirent))); [done|fold c; lia|].
    fold c. intros s1 D1 S1. cbv beta iota. replace (Z.of_nat (16 * k) + sizeof_dirent) with (Z.of_nat (16 * S k)) by (unfold sizeof_dirent; lia).
    pose proof (rooms_store_only _ _ _ _ S1 Hrm) as Hrm1.
    assert (wp (dirlookup_loop fuel dp name (Z.of_nat (16 * S k))) (found s a W dp i c (scan (ent_is name) c n (S k))) s1) as Hnext.
    { eapply wp_mono; [by apply (IH fuel (S k) s1 a W dp i name); [| |fold c; lia|lia]|]. cbn beta. fold c. intros r s'. by apply found_store_only. }
    unfold ent_is at 1. destruct (Z.eqb_spec (de_inum (ent c k)) 0) as [E|E]; cbn [negb andb]; [done|].
    destruct (Z.eqb_spec (namecmp name (de_name (ent c k))) 0) as [En|En]; [|done].
    wp_step. eapply wp_get_ip; [apply D1|]. rewrite (ik_dev _ _ _ (da_ok _ _ _ _ _ D1)). wp_step.
    eapply (wp_iget s1 a ∅ W); [exact (da_txn _ _ _ _ _ D1)|exact (da_lock _ _ _ _ _ D1)| |].
    + apply Hrm1; [lia|]. unfold ent_is. by rewrite (proj2 (Z.eqb_neq _ _) E), (proj2 (Z.eqb_eq _ _) En).
    + intros ip s' Ht' G. wp_step. exists ip. split; [done|]. destruct (ig_inode _ _ _ _ G) as (? & ? & Hp & _).
      split; [done|]. split; [done|]. by eapply igot_store_only.
Qed.

Lemma wp_dirlookup s a W dp i name : dir_at s a W dp i -> rooms s (file_bytes a i) name ->
  wp (dirlookup dp name) (found s a W dp i (file_bytes a i) (dir_find (file_bytes a i) name)) s.
Proof.
  intros D Hrm. destruct (dir_size _ _ _ _ _ D) as [Hsz Hlen]. unfold dirlookup. wp_step. eapply wp_get_ip; [apply D|].
  rewrite (da_type _ _ _ _ _ D). change (negb (T_DIR =? T_DIR)) with false. cbv iota. wp_step. wp_step.
  change 0 with (Z.of_nat (16 * 0)) at 1. apply wp_dirlookup_loop; [done|done|done|].
  rewrite Hsz. unfold sizeof_dirent. zdiv.
Qed.

(** ** dirlink *)

Lemma wp_dirlink_scan n : forall fuel k s a W dp i, dir_at s a W dp i ->
  nents (file_bytes a i) = (k + n)%nat -> (n < fuel)%nat ->
  wp (dirlink_scan fuel dp (Z.of_nat (16 * k))) (fun r s' => dir_at s' a W dp i /\ store_only s s' /\
    r = Z.of_nat (16 * default (nents (file_bytes a i)) (scan ent_free (file_bytes a i) n k))) s.
Proof.
  induction n as [|n IH]; intros fuel k s a W dp i D Hn Hf; (destruct fuel as [|fuel]; [lia|]);
    destruct (dir_size _ _ _ _ _ D) as [Hsz Hlen]; cbn [dirlink_scan scan]; wp_step; (eapply wp_get_ip; [apply D|]).
  - rewrite (proj2 (Z.ltb_ge (Z.of_nat (16 * k)) (i_size i))) by lia. wp_step. split; [done|]. split; [reflexivity|].
    cbn [default from_option id]. by rewrite Hn, Nat.add_0_r.
  - rewrite (proj2 (Z.ltb_lt (Z.of_nat (16 * k)) (i_size i))) by lia. set (c := file_bytes a i) in *.
    eapply (wp_read_ent s a W dp i k (fun '(r, de) => if de_inum de =? 0 then mret (Z.of_nat (16 * k))
      else dirlink_scan fuel dp (Z.of_nat (16 * k) + sizeof_dirent))); [done|fold c; lia|].
    fold c. intros s1 D1 S1. cbv beta iota. replace (Z.of_nat (16 * k) + sizeof_dirent) with (Z.of_nat (16 * S k)) by (unfold sizeof_dirent; lia).
    unfold ent_free at 1. destruct (de_inum (ent c k) =? 0); [by wp_step|].
    eapply wp_mono; [by apply (IH fuel (S k) s1 a W dp i); [|fold c; lia|lia]|]. cbn beta. fold c. intros r s' (D2 & S2 & E).
    split; [done|]. split; [by etrans|done].
Qed.

Lemma from_kernel_copies src : copies (from_kernel src) (byte_at src).
Proof. intros tot m _ _. by exists m. Qed.

Lemma from_kernel_whole src : whole_pieces (from_kernel src).
Proof. by intros tot m. Qed.

Lemma from_kernel_torn src a ad off tot Tn : torn_by (from_kernel src) a ad off tot Tn -> Tn = ∅.
Proof. by intros [?|(_ & _ & _ & m & _ & ? & _)]. Qed.

Lemma bytes_all e n : length e = n -> byte_at e <$> seqZ 0 (Z.of_nat n) = e.
Proof.
  intros <-. apply list_eq. intros k. rewrite list_lookup_fmap. destruct (e !! k) as [x|] eqn:E.
  - pose proof (lookup_lt_Some _ _ _ E). rewrite lookup_seqZ_lt by lia. cbn. f_equal. unfold byte_at. rewrite Z.add_0_l, Nat2Z.id, nth_lookup. by rewrite E.
  - apply lookup_ge_None in E. by rewrite lookup_seqZ_ge by lia.
Qed.

(** Writing a file leaves [iget] as able as it was. *)
Lemma wrote_room s a W ip i cin src off n r s' a' i' W' inum : inode_at s ip i ->
  wrote_file ∅ s a W ip i cin src off n r s' a' i' W' -> iget_room s inum -> iget_room s' inum.
Proof.
  intros [_ Hi] F (k & j & Hk & Hj). destruct (decide (k = Z.to_nat (ip - 1))) as [->|Hne].
  - rewrite Hi in Hk. injection Hk as <-. exists (Z.to_nat (ip - 1)), i'. split; [apply (wf_at _ _ _ _ _ _ _ _ _ _ _ _ _ _ _ F)|].
    by rewrite (wf_kept _ _ _ _ _ _ _ _ _ _ _ _ _ _ _ F).
  - exists k, j. split; [|done]. by rewrite (os_inode _ _ _ (wf_same _ _ _ _ _ _ _ _ _ _ _ _ _ _ _ F)).
Qed.

(** The directory after the entry was stored. *)
Lemma linked_dir s a W dp i k inum name s' a' i' W' : dir_at s a W dp i -> (k <= nents (file_bytes a i))%nat ->
  wrote_file ∅ s a W dp i (from_kernel (mk_dirent inum name)) (byte_at (mk_dirent inum name)) (Z.of_nat (16 * k)) sizeof_dirent sizeof_dirent s' a' i' W' ->
  dir_at s' a' W' dp i' /\ file_bytes a' i' = splice (file_bytes a i) (Z.of_nat (16 * k)) (mk_dirent inum name).
Proof.
  intros D Hk F. destruct (dir_size _ _ _ _ _ D) as [Hsz [m Hm]]. pose proof (nents_16 (file_bytes a i)) as Hn.
  pose proof (os_sb _ _ _ (wf_same _ _ _ _ _ _ _ _ _ _ _ _ _ _ _ F)) as Esb. pose proof (os_lock _ _ _ (wf_same _ _ _ _ _ _ _ _ _ _ _ _ _ _ _ F)) as El.
  destruct F as [F1 FT F2 F3 F4 F5 F6 F7 F8 F9 F10 F11]. change sizeof_dirent with (Z.of_nat 16) in F6. rewrite bytes_all in F6 by apply length_dirent.
  split; [|done]. split; rewrite ?Esb; try done.
  - rewrite F11. exact (da_type _ _ _ _ _ D).
  - pose proof (fo_size _ _ _ _ (ik_file _ _ _ F5)) as Hs. pose proof (f_equal (@length Z) F6) as Hl.
    rewrite length_file_bytes, length_splice, Hm in Hl by (apply length_dirent || lia).
    exists (Z.max (Z.of_nat m) (Z.of_nat k + 1)). lia.
  - rewrite El. exact (da_lock _ _ _ _ _ D).
Qed.

(** A name stored once has one entry. *)
Lemma rooms_added s c k inum name : dir_find c name = None -> 0 < inum < 2 ^ 16 -> k = dir_slot c -> (16 | length c)%nat -> iget_room s inum ->
  rooms s (splice c (Z.of_nat (16 * k)) (mk_dirent inum name)) name.
Proof.
  intros Hnone Hi -> [m Hm] Hr j Hj Hent. pose proof (dir_slot_le c) as Hk. pose proof (nents_16 c) as Hn.
  assert (nents c = m) as En by (unfold nents; rewrite Hm; by rewrite Nat.div_mul).
  pose proof (length_dirent inum name) as Hd. assert (16 * dir_slot c <= length c)%nat by lia.
  destruct (decide (j = dir_slot c)) as [->|Hne].
  - rewrite ent_splice_same by done. by rewrite dirent_inum by lia.
  - rewrite ent_splice_other in Hent by done. exfalso.
    unfold nents in Hj. rewrite length_splice, Hm in Hj by done. replace (Nat.max (m * 16) (16 * dir_slot c + 16)) with (Nat.max m (dir_slot c + 1) * 16)%nat in Hj by lia.
    rewrite Nat.div_mul in Hj by lia. rewrite (scan_none _ _ _ _ Hnone) in Hent; [done|lia].
Qed.

(** C17: directories are maps from names to inodes.  [dirlink] of a name the
    directory has answers -1 and changes no block (the reference [dirlookup]
    took is given back).  Otherwise it answers -1 only when the disk is full;
    or 0, the contents are the old ones with the entry stored in the first
    empty place (or at the end), every other name is found where it was, no
    other file has changed, and a [dirlookup] of the name that follows
    returns a reference to inode [inum] and the offset of the entry. *)
Theorem dirlink_dirlookup s a W dp i name inum :
  let c := file_bytes a i in
  dir_at s a W dp i -> rooms s c name -> iget_room s inum -> 0 < inum < 2 ^ 16 ->
  i_size i < MAXFILE * BSIZE -> rsz (f_sb s) W + 2 < LOGBLOCKS ->
  wp (dirlink dp name inum) (fun r s' =>
    match dir_find c name with
    | Some _ => r = -1 /\ txn s' a ∅ W
    | None => exists a' i' W', (r = -1 /\ forall j, 0 <= j < sb_size (f_sb s) -> used (f_sb s) a' j = true) \/
        (r = 0 /\ dir_at s' a' W' dp i' /\
         file_bytes a' i' = splice c (Z.of_nat (16 * dir_slot c)) (mk_dirent inum name) /\
         (forall other, ~ same_name other name -> dir_find (file_bytes a' i') other = dir_find c other) /\
         (forall b, dstart (f_sb s) <= b < sb_size (f_sb s) -> used (f_sb s) a b = true -> ~ own a (i_addrs i) b -> a' !! b = a !! b) /\
         wp (dirlookup dp name) (fun v s2 => exists ip, v = (ip, Z.of_nat (16 * dir_slot c)) /\ 0 < ip /\ txn s2 a' ∅ W' /\ igot s' s2 ip inum) s')
    end) s.
Proof.
  intros c D Hrm Hroom Hinum Hmax Hlog. unfold dirlink. wp_step. eapply wp_mono; [by apply (wp_dirlookup s a W dp i name)|]. fold c. cbn beta.
  intros [ip o] s1 Hfound. unfold found in Hfound. destruct (dir_find c name) as [k|] eqn:Ef.
  - destruct Hfound as (ip' & [= -> ->] & Hp & Ht & G). cbv iota. rewrite (proj2 (Z.eqb_neq ip' 0)) by lia. cbn [negb]. wp_step.
    eapply wp_iput_again; [exact G|exact Ht|]. intros s' Ht' _. by wp_step.
  - destruct Hfound as ([= -> ->] & D1 & S1). cbv iota. cbn [negb Z.eqb]. wp_step. eapply wp_get_ip; [apply D1|].
    destruct (dir_size _ _ _ _ _ D) as [Hsz Hlen]. fold c in Hsz, Hlen. wp_step.
    eapply wp_mono; [apply (wp_dirlink_scan (nents c) _ 0 s1 a W dp i D1 eq_refl); rewrite Hsz; unfold sizeof_dirent; zdiv|]. cbn beta. fold c. fold (dir_slot c).
    intros r s2 (D2 & S2 & ->). pose proof (dir_slot_le c) as Hk. assert (f_sb s2 = f_sb s) as Esb.
    { destruct S1 as (t1 & -> & _), S2 as (t2 & -> & _). done. }
    assert (iget_room s2 inum) as Hroom2 by (destruct S1 as (t1 & -> & _), S2 as (t2 & -> & _); exact Hroom).
    wp_step. eapply (wp_writei s2 a W dp i _ _ _ _ _ (da_wf _ _ _ _ _ D2) (da_txn _ _ _ _ _ D2) (da_inode _ _ _ _ _ D2) (da_ok _ _ _ _ _ D2) (from_kernel_copies _)).
    + left. apply from_kernel_whole.
    + lia.
    + done.
    + unfold sizeof_dirent. fs_nums. lia.
    + rewrite Esb. replace (nblocks (Z.of_nat (16 * dir_slot c)) sizeof_dirent) with 1; [lia|]. unfold nblocks, sizeof_dirent. fs_nums. zdiv.
    + intros Tn r s3 a' i' W' Hr F. assert (Tn = ∅) as -> by exact (from_kernel_torn _ _ _ _ _ _ (proj1 (wf_torn _ _ _ _ _ _ _ _ _ _ _ _ _ _ _ F))).
      destruct (Z.eqb_spec r sizeof_dirent) as [->|Hne]; cbn [negb]; wp_step; exists a', i', W'.
      * right. destruct (linked_dir _ _ _ _ _ _ _ _ _ _ _ _ D2 Hk F) as [D3 E3]. fold c in E3.
        destruct (dir_find_added c inum name Hlen Hinum Ef) as [Hnew Hold]. rewrite <- E3 in Hnew, Hold.
        split_and!; [done|done|done|done| |].
        -- intros b Hb Hu Hno. rewrite <- Esb in Hb, Hu. by destruct (wf_frame _ _ _ _ _ _ _ _ _ _ _ _ _ _ _ F b Hb Hu Hno).
        -- eapply wp_mono; [apply (wp_dirlookup s3 a' W' dp i' name D3); rewrite E3; apply rooms_added; try done; by eapply wrote_room; [apply D2|exact F|]|].
           cbn beta. rewrite Hnew. intros v s4 (ip & -> & Hp & Ht4 & G). exists ip. split_and!; try done.
           rewrite E3, ent_splice_same, dirent_inum in G; [done|lia| |apply length_dirent]. pose proof (nents_16 c). lia.
      * left. split; [done|]. rewrite <- Esb. destruct (wf_short _ _ _ _ _ _ _ _ _ _ _ _ _ _ _ F) as [H|(m & _ & H)]; [lia|exact H|done].
Qed.

End Dir.

(** ** A directory of the small file system *)

Definition demo_dir : inode :=
  mkInode 1 2 1 (initsleeplock "inode") 1 T_DIR 0 0 1 0 (replicate 13 0).
Abbreviation dir_fs := (mkFs open_store demo_sb (mkLock EmptyString 0 0) (demo_dir :: replicate 49 zero_inode) 0).

Lemma demo_dir_at : dir_at (BS := demo_bs) dir_fs demo_disk ∅ 1 demo_dir.
Proof.
  destruct demo_inode_ok as [A1 A2 [B1 B2 B3 B4 B5] A4]. split; [exact demo_wf|exact open_fs_txn|by split| |done|by exists 0|done].
  split; try done.
Qed.

Definition demo_name : list Z := [97; 46; 99].

Lemma dirlink_dirlookup_witness :
  wp (dirlink 1 demo_name 7) (fun r s' => exists a' i' W',
    (r = -1 /\ forall j, 0 <= j < 40 -> used demo_sb a' j = true) \/
    (r = 0 /\ dir_at (BS := demo_bs) s' a' W' 1 i' /\
     file_bytes a' i' = splice [] 0 (mk_dirent 7 demo_name) /\
     (forall other, ~ same_name other demo_name -> dir_find (file_bytes a' i') other = None) /\
     (forall b, 35 <= b < 40 -> used demo_sb demo_disk b = true -> ~ own demo_disk (i_addrs demo_dir) b -> a' !! b = demo_disk !! b) /\
     wp (dirlookup 1 demo_name) (fun v s2 => exists ip, v = (ip, 0) /\ 0 < ip /\ txn (BS := demo_bs) s2 a' ∅ W' /\ igot s' s2 ip 7) s')) dir_fs.
Proof.
  refine (dirlink_dirlookup (BS := demo_bs) dir_fs demo_disk ∅ 1 demo_dir demo_name 7 demo_dir_at _ _ _ _ _).
  - intros k Hk. vm_compute in Hk. lia.
  - exists 1%nat, zero_inode. split; [done|]. by left.
  - lia.
  - done.
  - change (f_sb dir_fs) with demo_sb. rewrite demo_room. reflexivity.
Defined.
