(* ===== verification/File.v ===== *)
(** * Open files (kernel/file.c)

    A [struct file] is allocated from a slab cache; [ft_files] is the contents
    of the objects handed out.  [FileDev] names what file.c calls in slab.c
    (its cache), pipe.c and through [devsw]; the inode calls are those of
    Fs.v.  The user's memory is given by functions, as in Fs.v: [cin] for what
    [copyin] delivers, [cout] for whether [copyout] succeeds. *)

From Stdlib Require Import ZArith Lia Bool String.
From stdpp Require Import base gmap list strings.
From S2P Require Import Prelude Mem Spinlock Sleeplock Bio Log BlockStore Fs.

Inductive filetype := FD_NONE | FD_PIPE | FD_INODE | FD_DEVICE.

#[export] Instance filetype_eq_dec : EqDecision filetype.
Proof. solve_decision. Defined.

Record file := mkFile {
  fl_type : filetype;
  fl_ref : Z;
  fl_readable : Z;
  fl_writable : Z;
  fl_pipe : Z;
  fl_ip : Z;
  fl_off : Z;
  fl_major : Z
}.

(** [memset(f, 0, sizeof( *f))] *)
Definition zero_file : file := mkFile FD_NONE 0 0 0 0 0 0 0.
Definition set_flref (r : Z) (f : file) : file := mkFile (fl_type f) r (fl_readable f) (fl_writable f) (fl_pipe f) (fl_ip f) (fl_off f) (fl_major f).
Definition set_fltype (t : filetype) (f : file) : file := mkFile t (fl_ref f) (fl_readable f) (fl_writable f) (fl_pipe f) (fl_ip f) (fl_off f) (fl_major f).
Definition set_floff (o : Z) (f : file) : file := mkFile (fl_type f) (fl_ref f) (fl_readable f) (fl_writable f) (fl_pipe f) (fl_ip f) o (fl_major f).

Definition NDEV : Z := 10.

Class FileDev (U : Type) := {
  fd_cache_create : M U Z;
  fd_cache_alloc : Z -> M U Z;
  fd_cache_free : Z -> Z -> M U unit;
  fd_pipeclose : Z -> Z -> M U unit;
  fd_piperead : Z -> (Z -> list Z -> bool) -> Z -> M U (Z * list Z);
  fd_pipewrite : Z -> (Z -> Z -> list Z * bool) -> Z -> M U Z;
  (** [devsw[major].read] and [devsw[major].write], [None] for a null pointer *)
  fd_devread : Z -> option ((Z -> list Z -> bool) -> Z -> M U (Z * list Z));
  fd_devwrite : Z -> option ((Z -> Z -> list Z * bool) -> Z -> M U Z)
}.

Section File.
Context {T : Type} `{HM : HasMach T} {BO : BlockOps T} {U : Type} {FD : FileDev U}.

Record ft_st := mkFt {
  ft_fs : fs_st T;
  ft_lock : spinlock;
  ft_files : gmap Z file;
  ft_cache : Z;
  ft_dev : U
}.

#[global] Instance ft_HasMach : HasMach ft_st.
Proof.
  refine {| mach_of := fun s => mach_of (ft_fs s);
            set_mach := fun m s => mkFt (set_mach m (ft_fs s)) (ft_lock s) (ft_files s) (ft_cache s) (ft_dev s) |}.
  - intros m s. exact (mach_of_set m (ft_fs s)).
  - intros [f l g c d]. cbn [ft_fs ft_lock ft_files ft_cache ft_dev]. f_equal. exact (set_mach_of f).
  - intros m m' s. cbn [ft_fs ft_lock ft_files ft_cache ft_dev]. by rewrite (set_mach_set m m' (ft_fs s)).
Defined.

Definition set_ft_fs (f : fs_st T) (s : ft_st) : ft_st := mkFt f (ft_lock s) (ft_files s) (ft_cache s) (ft_dev s).
Definition set_ft_lock (l : spinlock) (s : ft_st) : ft_st := mkFt (ft_fs s) l (ft_files s) (ft_cache s) (ft_dev s).
Definition set_ft_files (g : gmap Z file) (s : ft_st) : ft_st := mkFt (ft_fs s) (ft_lock s) g (ft_cache s) (ft_dev s).
Definition set_ft_cache (c : Z) (s : ft_st) : ft_st := mkFt (ft_fs s) (ft_lock s) (ft_files s) c (ft_dev s).
Definition set_ft_dev (d : U) (s : ft_st) : ft_st := mkFt (ft_fs s) (ft_lock s) (ft_files s) (ft_cache s) d.

Definition in_fs {X} (c : M (fs_st T) X) : M ft_st X := zoom ft_fs set_ft_fs c.
Definition in_dev {X} (c : M U X) : M ft_st X := zoom ft_dev set_ft_dev c.

Definition get_file (f : Z) : M ft_st file := g ← gets ft_files; match g !! f with Some fl => mret fl | None => fault "file" end.
Definition upd_file (f : Z) (h : file -> file) : M ft_st unit :=
  fl ← get_file f; modify (fun s => set_ft_files (<[f := h fl]> (ft_files s)) s).

Definition fileinit : M ft_st unit :=
  modify (set_ft_lock (initlock "ftable"));;
  c ← in_dev fd_cache_create;
  modify (set_ft_cache c);;
  (if c =? 0 then panic "file_cache" else mret tt).

Definition filealloc : M ft_st Z :=
  acquire_in ft_lock set_ft_lock;;
  c ← gets ft_cache;
  f ← in_dev (fd_cache_alloc c);
  (if negb (f =? 0) then
     modify (fun s => set_ft_files (<[f := zero_file]> (ft_files s)) s);;
     upd_file f (set_flref 1)
   else mret tt);;
  release_in ft_lock set_ft_lock;;
  mret f.

Definition filedup (f : Z) : M ft_st Z :=
  acquire_in ft_lock set_ft_lock;;
  fl ← get_file f;
  (if fl_ref fl <? 1 then panic "filedup" else mret tt);;
  upd_file f (set_flref (fl_ref fl + 1));;
  release_in ft_lock set_ft_lock;;
  mret f.

(** What the last [fileclose] does with the copy [ff] of the file. *)
Definition close_end (ff : file) : M ft_st unit :=
  match fl_type ff with
  | FD_PIPE => in_dev (fd_pipeclose (fl_pipe ff) (fl_writable ff))
  | FD_INODE | FD_DEVICE =>
      in_fs (on_store bs_begin_op);;
      in_fs (iput (fl_ip ff));;
      in_fs (on_store bs_end_op)
  | FD_NONE => mret tt
  end.

Definition fileclose (f : Z) : M ft_st unit :=
  acquire_in ft_lock set_ft_lock;;
  fl ← get_file f;
  (if fl_ref fl <? 1 then panic "fileclose" else mret tt);;
  upd_file f (set_flref (fl_ref fl - 1));;
  if 0 <? fl_ref fl - 1 then release_in ft_lock set_ft_lock
  else
    ff ← get_file f;
    upd_file f (set_flref 0);;
    upd_file f (set_fltype FD_NONE);;
    release_in ft_lock set_ft_lock;;
    close_end ff;;
    c ← gets ft_cache;
    in_dev (fd_cache_free c f);;
    modify (fun s => set_ft_files (delete f (ft_files s)) s).

(** [cout st] says whether [copyout] of the [struct stat] succeeds. *)
Definition filestat (f : Z) (cout : stat -> bool) : M ft_st (Z * option stat) :=
  fl ← get_file f;
  match fl_type fl with
  | FD_INODE | FD_DEVICE =>
      in_fs (ilock (fl_ip fl));;
      st ← in_fs (stati (fl_ip fl));
      in_fs (iunlock (fl_ip fl));;
      if cout st then mret (0, Some st) else mret (-1, None)
  | _ => mret (-1, None)
  end.

(** The result and the bytes copied to the user. *)
Definition fileread (f : Z) (cout : Z -> list Z -> bool) (n : Z) : M ft_st (Z * list Z) :=
  fl ← get_file f;
  if fl_readable fl =? 0 then mret (-1, [])
  else
    match fl_type fl with
    | FD_PIPE => in_dev (fd_piperead (fl_pipe fl) cout n)
    | FD_DEVICE =>
        if (fl_major fl <? 0) || (NDEV <=? fl_major fl) then mret (-1, [])
        else match fd_devread (fl_major fl) with None => mret (-1, []) | Some rd => in_dev (rd cout n) end
    | FD_INODE =>
        in_fs (ilock (fl_ip fl));;
        '(r, bytes) ← in_fs (readi cout (fl_ip fl) (fl_off fl) (u32 n));
        (if 0 <? r then upd_file f (fun fl => set_floff (u32 (fl_off fl + r)) fl) else mret tt);;
        in_fs (iunlock (fl_ip fl));;
        mret (r, bytes)
    | FD_NONE => panic "fileread"
    end.

(** [int max = ((MAXOPBLOCKS-1-1-2) / 2) * BSIZE;] *)
Definition max_write : Z := ((MAXOPBLOCKS - 1 - 1 - 2) / 2) * BSIZE.

(** [while(i < n)]: the final [i]. *)
Fixpoint filewrite_loop (fuel : nat) (f : Z) (cin : Z -> Z -> list Z * bool) (n i : Z) : M ft_st Z :=
  match fuel with
  | O => out_of_fuel
  | S fuel =>
      if i <? n then
        let n1 := if max_write <? n - i then max_write else n - i in
        fl ← get_file f;
        in_fs (on_store bs_begin_op);;
        in_fs (ilock (fl_ip fl));;
        r ← in_fs (writei (fun tot m => cin (i + tot) m) (fl_ip fl) (fl_off fl) n1);
        (if 0 <? r then upd_file f (fun fl => set_floff (u32 (fl_off fl + r)) fl) else mret tt);;
        in_fs (iunlock (fl_ip fl));;
        in_fs (on_store bs_end_op);;
        if negb (r =? n1) then mret i else filewrite_loop fuel f cin n (i + r)
      else mret i
  end.

Definition filewrite (f : Z) (cin : Z -> Z -> list Z * bool) (n : Z) : M ft_st Z :=
  fl ← get_file f;
  if fl_writable fl =? 0 then mret (-1)
  else
    match fl_type fl with
    | FD_PIPE => in_dev (fd_pipewrite (fl_pipe fl) cin n)
    | FD_DEVICE =>
        if (fl_major fl <? 0) || (NDEV <=? fl_major fl) then mret (-1)
        else match fd_devwrite (fl_major fl) with None => mret (-1) | Some wr => in_dev (wr cin n) end
    | FD_INODE =>
        i ← filewrite_loop (S (Z.to_nat (n / max_write + 1))) f cin n 0;
        mret (if i =? n then n else -1)
    | FD_NONE => panic "filewrite"
    end.

End File.
Arguments ft_st T U : clear implicits.
