(* ===== verification/FileThms.v ===== *)
(** * What kernel/file.c guarantees

    [filewrite] cuts a long write into pieces of [max_write] bytes, each a
    system call of its own.  The result is the splice of the user's bytes into
    the file, and a crash at any point of the whole write leaves the file with
    a prefix of them.  When the user's memory ends in the middle of a piece,
    the buffer of one block of the file keeps bytes that were never logged:
    the block is torn until the buffer leaves the cache. *)

From Stdlib Require Import ZArith Lia Bool String.
From stdpp Require Import base gmap list strings functions relations.
From S2P Require Import Prelude Mem Spinlock Sleeplock ObjCache Bio BioProof BioThms Log LogSpec LogProof LogThms BlockStore LogStore Fs FsBytes FsAlloc FsFile FsRw FsThms FsCrash FsDemo File.

(** ** Locking an inode *)

Section Locks.
Context {T : Type} `{HM : HasMach T} {BO : BlockOps T} {BS : BlockStore T}.

Lemma wp_set_ilock Tn s a H W ip i l h (Q : unit -> fs_st T -> Prop) :
  torn_txn Tn s a H W -> inode_at s ip i -> hart_same (hart_of s) h ->
  (forall s', torn_txn Tn s' a H W -> others_same ip s s' -> inode_at s' ip (set_ilock l i) -> Q tt s') ->
  wp (upd_ip ip (set_ilock l)) Q (set_hart h s).
Proof.
  intros Ht Hi Hh HQ. pose proof (bs_txn_hart _ _ _ _ _ Ht) as Hok. eapply (wp_upd_ip (set_hart h s) ip i); [exact Hi|]. intros s' Es Ho Hi'.
  assert (f_store (set_hart h s) = set_hart h (f_store s)) as E by done.
  apply HQ; [| |done].
  - unfold torn_txn. rewrite Es, E. apply bs_txn_set_hart; [exact Ht|]. by apply (hart_ok_proper _ _ Hh).
  - destruct Ho as [O1 O2 O3 O4 O5 O6]. split; try done. rewrite Es, E. split; [by rewrite hart_of_set_hart|apply bs_pid_set_hart].
Qed.

(** A sleeplock nobody holds, and one the current process holds. *)
Definition lock_free (l : sleeplock) : Prop := slk_quiet l /\ slk_locked l = 0.
Definition lock_mine (pid : Z) (l : sleeplock) : Prop := slk_quiet l /\ slk_locked l <> 0 /\ slk_pid l = pid.

Lemma wp_ilock Tn s a H W ip i (Q : unit -> fs_st T -> Prop) :
  torn_txn Tn s a H W -> inode_at s ip i -> 0 < i_ref i -> i_valid i <> 0 -> lock_free (i_lock i) ->
  (forall s' l, torn_txn Tn s' a H W -> others_same ip s s' -> inode_at s' ip (set_ilock l i) -> lock_mine (bs_pid (f_store s)) l -> Q tt s') ->
  wp (ilock ip) Q s.
Proof.
  intros Ht Hi Hr Hv [Hq Hl] HQ. assert (hart_ok (hart_of s)) as Hok by exact (bs_txn_hart _ _ _ _ _ Ht). pose proof Hi as [Hp _]. unfold ilock.
  rewrite (proj2 (Z.eqb_neq ip 0)) by lia. wp_step. wp_step. wp_step. eapply wp_get_ip; [done|]. rewrite (proj2 (Z.ltb_ge (i_ref i) 1)) by lia. wp_step. wp_step.
  wp_step. unfold ip_acquiresleep. wp_step. apply wp_get. unfold on_ilock. wp_step. eapply wp_get_ip; [done|]. wp_step.
  destruct (acquiresleep_free (bs_pid (f_store s)) (i_lock i) (hart_of s) Hq Hl Hok) as (h & E & Hh). eapply wp_on_hart; [exact E|].
  eapply wp_set_ilock; [exact Ht|exact Hi|exact Hh|]. intros s' Ht' Ho' Hi'. wp_step. eapply wp_get_ip; [exact Hi'|].
  change (i_valid (set_ilock _ i)) with (i_valid i). rewrite (proj2 (Z.eqb_neq _ _) Hv). wp_step. by eapply HQ.
Qed.

Lemma wp_iunlock Tn s a H W ip i (Q : unit -> fs_st T -> Prop) :
  torn_txn Tn s a H W -> inode_at s ip i -> 0 < i_ref i -> lock_mine (bs_pid (f_store s)) (i_lock i) ->
  (forall s' l, torn_txn Tn s' a H W -> others_same ip s s' -> inode_at s' ip (set_ilock l i) -> lock_free l -> Q tt s') ->
  wp (iunlock ip) Q s.
Proof.
  intros Ht Hi Hr (Hq & Hl & Hpid) HQ. assert (hart_ok (hart_of s)) as Hok by exact (bs_txn_hart _ _ _ _ _ Ht). pose proof Hi as [Hp _]. unfold iunlock.
  rewrite (proj2 (Z.eqb_neq ip 0)) by lia. wp_step. wp_step. unfold ip_holdingsleep. wp_step. wp_step. eapply wp_get_ip; [done|]. wp_step. apply wp_get.
  destruct (holdingsleep_ok (bs_pid (f_store s)) (i_lock i) (hart_of s) Hq Hok) as (h & E & Hh). wp_step. eapply wp_on_hart; [exact E|].
  cbv beta iota. wp_step. eapply wp_set_ilock; [exact Ht|exact Hi|exact Hh|]. intros s1 Ht1 Ho1 Hi1. wp_step. wp_step. eapply wp_get_ip; [exact Hi1|].
  rewrite (proj2 (Z.eqb_neq _ _) Hl), (proj2 (Z.eqb_eq _ _) Hpid). cbn [negb andb orb]. change (i_ref (set_ilock _ i)) with (i_ref i).
  rewrite (proj2 (Z.ltb_ge (i_ref i) 1)) by lia. wp_step. wp_step. unfold ip_releasesleep, on_ilock. wp_step. eapply wp_get_ip; [exact Hi1|]. wp_step.
  assert (hart_ok (hart_of s1)) as Hok1 by exact (bs_txn_hart _ _ _ _ _ Ht1).
  destruct (releasesleep_ok (i_lock (set_ilock (mkSleeplock (slk_locked (i_lock i)) (mkLock (lk_name (slk_lk (i_lock i))) 0 0) (slk_name (i_lock i)) (slk_pid (i_lock i))) i))
    (hart_of s1) eq_refl Hok1) as (h2 & E2 & Hh2).
  eapply wp_on_hart; [exact E2|]. eapply wp_set_ilock; [exact Ht1|exact Hi1|exact Hh2|]. intros s2 Ht2 Ho2 Hi2.
  eapply HQ; [exact Ht2|by etrans|exact Hi2|]. by split.
Qed.

End Locks.

Section Write.
Context {A : Type} `{HM : HasMach A} {OC : ObjCache A}.
Context (st : Z) (st_range : 0 <= st /\ st + LOGBLOCKS < 2 ^ 31).
Context {U : Type} {FD : FileDev U}.

Abbreviation ftst := (ft_st (log_st A) U).
Abbreviation fs_store s := (f_store (ft_fs s)).
Abbreviation fs_sb s := (f_sb (ft_fs s)).
Abbreviation any_store := (log_store st ∅ [] st_range).

(** The layout does not depend on what was on the disk. *)
Lemma wf_any d l d' l' sb a : fs_wf (BS := log_store st d l st_range) sb a -> fs_wf (BS := log_store st d' l' st_range) sb a.
Proof. intros [[L1 L2 L3 L4 L5 L6 L7] W1 W2]. by split. Qed.

(** ** Crashes during several system calls *)

(** If power fails after any number of the disk writes between [s] and [s'],
    and again during recovery, the recovered disk is one of [good]. *)
Definition crash_safe (s s' : log_st A) (good : blocks -> Prop) : Prop :=
  exists L, dlog (lo_bio s') = dlog (lo_bio s) ++ L /\ dsk (lo_bio s') = apply_writes L (dsk (lo_bio s)) /\
    forall P D, P `prefix_of` L -> rtc (recovery_crash st) (apply_writes P (dsk (lo_bio s))) D ->
      log_wf st D /\ exists b, same_data st (recovered st D) b /\ good b.

Lemma idle_empty (s : log_st A) a n : idle st s a (fun _ => 0) n -> log_n st (dsk (lo_bio s)) = 0.
Proof. intros [_ Hp _ _ _]. apply Hp. Qed.

Lemma crash_safe_refl (s : log_st A) a n (good : blocks -> Prop) : idle st s a (fun _ => 0) n -> good (dsk (lo_bio s)) -> crash_safe s s good.
Proof.
  intros Hid Hg. exists []. split; [by rewrite app_nil_r|]. split; [done|].
  intros P D [k Hk] HD. destruct P; [|done]. cbn in HD. destruct (recovery_crashes st _ D HD (idle_wf st _ _ _ Hid)) as [HwfD HsD].
  split; [done|]. exists (dsk (lo_bio s)). split; [|done]. by rewrite HsD, recovered_nil by (by eapply idle_empty).
Qed.

Lemma crash_safe_trans (s1 s2 s3 : log_st A) good : crash_safe s1 s2 good -> crash_safe s2 s3 good -> crash_safe s1 s3 good.
Proof.
  intros (L & E1 & E2 & H1) (L' & F1 & F2 & H2). exists (L ++ L'). split; [by rewrite F1, E1, app_assoc|]. split; [by rewrite apply_writes_app, <- E2|].
  intros P D HP HD. destruct (prefix_app_cases P L L' HP) as [Hp|(P' & -> & Hp)]; [by apply (H1 P)|].
  apply (H2 P'); [done|]. by rewrite E2, <- apply_writes_app.
Qed.

Lemma durable_crash_safe (s s' : log_st A) b (good : blocks -> Prop) : durable st s s' b -> good (dsk (lo_bio s)) -> good b -> crash_safe s s' good.
Proof.
  intros (_ & _ & L & D1 & D2 & D3) Ha Hb. exists L. split; [done|]. split; [done|]. intros P D HP HD.
  destruct (D3 P D HP HD) as [? [?|?]]; (split; [done|]); [exists (dsk (lo_bio s))|exists b]; done.
Qed.

(** ** An open file *)

(** [a] is what is on the disk; all of it but the torn blocks [Tn] is also
    what is read. *)
Record open_file (Tn : gset Z) (s : ftst) (a : blocks) (f ip : Z) (i : inode) (off : Z) : Prop := {
  of_idle : idle st (fs_store s) (view Tn a) (fun _ => 0) log_room;
  of_dsk : dsk (lo_bio (fs_store s)) = a;
  of_wf : fs_wf (BS := any_store) (fs_sb s) a;
  of_covers : covers (fs_sb s) a;
  of_at : inode_at (ft_fs s) ip i;
  of_ok : inode_ok (fs_sb s) a i;
  of_disk : disk_inode (fs_sb s) a (i_inum i) = dinode_of i;
  of_ref : 0 < i_ref i;
  of_valid : i_valid i <> 0;
  of_lock : lock_free (i_lock i);
  of_off : 0 <= off < 2 ^ 32;
  of_file : exists fl, ft_files s !! f = Some fl /\ fl_type fl = FD_INODE /\ fl_writable fl <> 0 /\ fl_ip fl = ip /\ fl_off fl = off
}.

(** Why [writei] of [n] bytes stored [r] only. *)
Definition short (sb : superblock) (i : inode) (a' : blocks) cin (off n r : Z) : Prop :=
  (r = -1 /\ (i_size i < off \/ MAXFILE * BSIZE < off + n)) \/ (0 <= r < n /\ stopped sb a' cin r).

(** The rest of the file system is as it was. *)
Definition rest_same (sb : superblock) (a : blocks) (i : inode) (a' : blocks) (i' : inode) : Prop :=
  (forall c, dstart sb <= c < sb_size sb -> used sb a c = true -> ~ own a (i_addrs i) c ->
     a' !! c = a !! c /\ used sb a' c = true /\ ~ own a' (i_addrs i') c) /\
  forall j, 0 <= j < sb_ninodes sb -> j <> i_inum i -> disk_inode sb a' j = disk_inode sb a j.

Record wrote_chunk (Tn : gset Z) (s : ftst) (a : blocks) (f ip : Z) (i : inode) (off : Z) cin (src : Z -> Z) (n r : Z) (s' : ftst) (a' : blocks) (i' : inode) : Prop := {
  wc_open : open_file Tn s' a' f ip i' (off + Z.max 0 r);
  wc_torn : torn_by cin a' (i_addrs i') (off + Z.max 0 r) (Z.max 0 r) Tn /\ (Tn = ∅ \/ r < n);
  wc_sb : fs_sb s' = fs_sb s;
  wc_inum : i_inum i' = i_inum i;
  wc_bytes : file_bytes a' i' = splice (file_bytes a i) off (src <$> seqZ 0 (Z.max 0 r));
  wc_r : r = n \/ short (fs_sb s) i a' cin off n r;
  wc_rest : rest_same (fs_sb s) a i a' i';
  wc_durable : durable st (fs_store s) (fs_store s') a';
  wc_range : -1 <= r <= n /\ (0 < r -> off <= i_size i)
}.

(** [writei] on a locked inode, refusals included. *)
Record locked_write d l (Tn : gset Z) (s : fs_st (log_st A)) (a : blocks) (ip : Z) (i : inode) cin (src : Z -> Z) (off n r : Z)
    (s' : fs_st (log_st A)) (a' : blocks) (i' : inode) (W' : gset Z) : Prop := {
  lw_txn : torn_txn (BS := log_store st d l st_range) Tn s' a' ∅ W';
  lw_torn : torn_by cin a' (i_addrs i') (off + Z.max 0 r) (Z.max 0 r) Tn /\ (Tn = ∅ \/ r < n);
  lw_same : others_same ip s s';
  lw_at : inode_at s' ip i';
  lw_wf : fs_wf (BS := any_store) (f_sb s) a';
  lw_ok : inode_ok (f_sb s) a' i';
  lw_bytes : file_bytes a' i' = splice (file_bytes a i) off (src <$> seqZ 0 (Z.max 0 r));
  lw_r : r = n \/ short (f_sb s) i a' cin off n r;
  lw_rest : rest_same (f_sb s) a i a' i';
  lw_disk : disk_inode (f_sb s) a' (i_inum i) = dinode_of i';
  lw_kept : exists sz ad, i' = set_isize sz (set_iaddrs ad i);
  lw_range : -1 <= r <= n /\ off + Z.max 0 r < 2 ^ 32;
  lw_fits : 0 < r -> off <= i_size i
}.

Lemma splice_nil c off : splice c off [] = c.
Proof. unfold splice. cbn [length app]. by rewrite Nat.add_0_r, take_drop. Qed.

Lemma wp_locked_write d l s a ip i cin src off n (Q : Z -> fs_st (log_st A) -> Prop) :
  let BS := log_store st d l st_range in
  fs_wf (BS := BS) (f_sb s) a -> txn (BS := BS) s a ∅ ∅ -> inode_at s ip i -> inode_ok (f_sb s) a i -> disk_inode (f_sb s) a (i_inum i) = dinode_of i ->
  copies cin src -> 0 <= off < 2 ^ 32 -> 0 <= n <= max_write -> rsz (f_sb s) ∅ + 8 < LOGBLOCKS ->
  (forall Tn r s' a' i' W', locked_write d l Tn s a ip i cin src off n r s' a' i' W' -> Q r s') ->
  wp (writei cin ip off n) Q s.
Proof.
  intros BS Hw Ht Hi Hok Hdi Hcin Ho Hn Hrm HQ. pose proof (fo_size _ _ _ _ (ik_file _ _ _ Hok)) as Hsz. change max_write with 3072 in Hn.
  destruct (decide (i_size i < off \/ MAXFILE * BSIZE < off + n)) as [Href|Hfit].
  { apply (wp_writei_refuses s ip i cin off n); try done; [lia|]. apply (HQ ∅ (-1) s a i ∅). split; try done.
    - by split; left.
    - by eapply wf_any.
    - change (src <$> seqZ 0 (Z.max 0 (-1))) with (@nil Z). by rewrite splice_nil.
    - right. by left.
    - exists (i_size i), (i_addrs i). by destruct i.
    - lia. }
  assert (off <= i_size i /\ off + n <= MAXFILE * BSIZE) as [Hoff Hmax] by lia.
  assert (nblocks off n <= 4) as Hnb by (unfold nblocks; fs_nums; zdiv).
  eapply (wp_writei (BS := BS) s a ∅ ip i cin src off n); [done|done|done|done|done|right; set_solver|lia|lia|done|lia|].
  intros Tn r s' a' i' W' Hr [F1 FT F2 F3 F4 F5 F6 F7 F8 F9 F10 F11]. apply (HQ Tn r s' a' i' W'). split; try done.
  - by rewrite Z.max_r by lia.
  - by eapply wf_any.
  - by rewrite Z.max_r by lia.
  - destruct (decide (r = n)) as [|Hne]; [by left|right; right]. split; [lia|]. apply F7. lia.
  - split; [done|]. intros j Hj Hne. rewrite F9 by done. by rewrite decide_False.
  - rewrite F9 by apply Hok. by rewrite decide_True.
  - eauto.
  - fs_nums. lia.
Qed.

Lemma wp_in_fs {X} (c : M (fs_st (log_st A)) X) (Q : X -> ftst -> Prop) s : wp c (fun x t => Q x (set_ft_fs t s)) (ft_fs s) -> wp (in_fs c) Q s.
Proof. apply wp_zoom. Qed.

Lemma wp_get_file f fl (Q : file -> ftst -> Prop) s : ft_files s !! f = Some fl -> Q fl s -> wp (get_file f) Q s.
Proof. intros Hf HQ. unfold get_file. wp_step. apply wp_gets. rewrite Hf. by wp_step. Qed.

(** [if (r > 0) f->off += r;] *)
Lemma wp_advance f fl r (Q : unit -> ftst -> Prop) s : ft_files s !! f = Some fl -> 0 <= fl_off fl -> fl_off fl + Z.max 0 r < 2 ^ 32 ->
  Q tt (set_ft_files (<[f := set_floff (fl_off fl + Z.max 0 r) fl]> (ft_files s)) s) ->
  wp (if 0 <? r then upd_file f (fun fl => set_floff (u32 (fl_off fl + r)) fl) else mret tt) Q s.
Proof.
  intros Hf Ho Hr HQ. destruct (Z.ltb_spec 0 r) as [Hp|Hp].
  - unfold upd_file. wp_step. eapply wp_get_file; [done|]. apply wp_modify. rewrite u32_small by lia. by rewrite Z.max_r in HQ by lia.
  - wp_step. rewrite Z.max_l in HQ by lia. replace (set_floff (fl_off fl + 0) fl) with fl in HQ by (destruct fl; unfold set_floff; cbn; f_equal; lia).
    rewrite insert_id in HQ by done. by destruct s.
Qed.

(** Fields of the inode that locking and writing leave alone. *)
Lemma inode_ok_lock sb a i lk : inode_ok sb a (set_ilock lk i) <-> inode_ok sb a i.
Proof. split; intros [K1 K2 K3 K4]; by split. Qed.

Lemma stopped_same sb a b cin r : (forall c, 0 <= c < sb_size sb -> used sb b c = used sb a c) -> stopped sb a cin r -> stopped sb b cin r.
Proof. intros Hu [H|H]; [left|by right]. intros j Hj. rewrite Hu by done. by apply H. Qed.

Lemma short_same sb i a b cin off n r : (forall c, 0 <= c < sb_size sb -> used sb b c = used sb a c) -> short sb i a cin off n r -> short sb i b cin off n r.
Proof. intros Hu [H|[H1 H2]]; [by left|right]. split; [done|]. by eapply stopped_same. Qed.

(** After the commit of a chunk. *)
Lemma chunk_done Tn s t a f ip i lk off cin src n r fs3 a3 i3 W3 fs4 l4 b fl d l :
  open_file ∅ s a f ip i off -> ft_files s !! f = Some fl -> f_sb fs3 = fs_sb s ->
  locked_write d l Tn fs3 a ip (set_ilock lk i) cin src off n r fs4 a3 i3 W3 ->
  durable st (fs_store s) t b -> settled st Tn t a3 b -> covers (fs_sb s) a3 -> lock_free l4 ->
  forall fs5, f_store fs5 = t -> f_sb fs5 = fs_sb s -> inode_at fs5 ip (set_ilock l4 i3) ->
  wrote_chunk Tn s a f ip i off cin src n r
    (set_ft_fs fs5 (set_ft_files (<[f := set_floff (fl_off fl + Z.max 0 r) fl]> (ft_files s)) s)) b (set_ilock l4 i3).
Proof.
  intros O Hf Esb LW Hd Hset Hcov Hl4 fs5 Et Esb5 Hi5. destruct (of_file _ _ _ _ _ _ _ O) as (fl' & Hf' & T1 & T2 & T3 & T4).
  rewrite Hf in Hf'. injection Hf' as <-. destruct LW as [L1 [LT LT'] L2 L3 L4 L5 L6 L7 L8 L9 (sz & ad & E3) L11 L12]. rewrite Esb in *.
  destruct (relog st st_range ∅ [] (fs_sb s) Tn t a3 b L4 Hcov Hset) as [R1 R2 R3 R4 R5 R6 R7]. pose proof (of_off _ _ _ _ _ _ _ O).
  destruct (file_ext _ a3 b (i_addrs i3) (i_size i3) L4 (ik_file _ _ _ L5)) as (_ & Es & _);
    [intros c' Hc'; apply R3; pose proof (ly_order _ (fw_layout _ _ R1)); lia|done|].
  assert (i_inum i3 = i_inum i) as Ein by (by rewrite E3).
  split; cbn [set_ft_fs set_ft_files ft_fs ft_files]; rewrite ?Esb5, ?Et; try done.
  - split; cbn [set_ft_fs set_ft_files ft_fs ft_files]; rewrite ?Esb5, ?Et; try done.
    + exact (se_idle _ _ _ _ _ Hset).
    + exact (se_dsk _ _ _ _ _ Hset).
    + apply inode_ok_lock. by apply R5.
    + change (i_inum (set_ilock l4 i3)) with (i_inum i3). rewrite R7, Ein by (rewrite Ein; apply (of_ok _ _ _ _ _ _ _ O)). exact L9.
    + rewrite E3. exact (of_ref _ _ _ _ _ _ _ O).
    + rewrite E3. exact (of_valid _ _ _ _ _ _ _ O).
    + lia.
    + eexists. split; [apply lookup_insert_eq|]. repeat split; try done. cbn [set_floff fl_off]. lia.
  - split; [|done]. unfold torn_by. change (i_addrs (set_ilock l4 i3)) with (i_addrs i3). by rewrite Es.
  - change (file_bytes b (set_ilock l4 i3)) with (file_bytes b i3). by rewrite R6.
  - destruct L7 as [?|L7]; [by left|right]. eapply (short_same (fs_sb s) i a3); [done|exact L7].
  - pose proof (ly_order _ (fw_layout _ _ R1)) as Hord. pose proof (ly_data _ (fw_layout _ _ R1)) as Hda. destruct L8 as [La Lb]. split.
    + intros c Hc Hu Hn.
      destruct (La c Hc Hu Hn) as (E & U' & N'). rewrite R3, R2 by lia. split; [done|]. split; [done|].
      intros (k & Hk & Ek). apply N'. exists k. split; [done|]. rewrite <- Ek. symmetry. apply Es.
    + intros j Hj Hne. rewrite R7 by done. by apply Lb.
  - split; [lia|exact L12].
Qed.

(** A system call does not change which blocks exist. *)
Lemma txn_covers d l Tn s a W sb : torn_txn (BS := log_store st d l st_range) Tn s a ∅ W -> covers sb d -> covers sb a.
Proof.
  intros (bs & R & n & Tx) Hc c Hs. apply Hc. rewrite <- (t_dsk _ _ _ _ _ _ _ _ _ _ _ Tx). destruct (decide (c ∈ Tn)) as [HT|HT].
  - rewrite (t_clean _ _ _ _ _ _ _ _ _ _ _ Tx); [done| |].
    + intros Hb. destruct (t_ok _ _ _ _ _ _ _ _ _ _ _ Tx c) as (_ & ? & _); [|done]. apply elem_of_union. right. by apply (t_W _ _ _ _ _ _ _ _ _ _ _ Tx).
    + intros x Hx. by rewrite lookup_empty in Hx.
  - apply (rp_dom _ _ _ _ _ (t_rep _ _ _ _ _ _ _ _ _ _ _ Tx)). by rewrite view_lookup.
Qed.

Lemma wp_write_chunk {X} s a f ip i off cin src n fl (k : Z -> M ftst X) (Q : X -> ftst -> Prop) :
  open_file ∅ s a f ip i off -> ft_files s !! f = Some fl -> copies cin src -> 0 <= n <= max_write -> rsz (fs_sb s) ∅ + 8 < LOGBLOCKS ->
  (forall Tn r s' a' i', wrote_chunk Tn s a f ip i off cin src n r s' a' i' -> wp (k r) Q s') ->
  wp (in_fs (on_store bs_begin_op);;
      in_fs (ilock (fl_ip fl));;
      r ← in_fs (writei cin (fl_ip fl) (fl_off fl) n);
      (if 0 <? r then upd_file f (fun fl => set_floff (u32 (fl_off fl + r)) fl) else mret tt);;
      in_fs (iunlock (fl_ip fl));;
      in_fs (on_store bs_end_op);;
      k r) Q s.
Proof.
  intros O Hf Hcin Hn Hrm HQ. pose proof O as [O1 OD O2 O3 O4 O5 O6 O7 O8 O9 O10 (fl' & Hf' & T1 & T2 & T3 & T4)].
  rewrite Hf in Hf'. injection Hf' as <-. rewrite T3, T4. set (d := dsk (lo_bio (fs_store s))). set (l := dlog (lo_bio (fs_store s))).
  rewrite view_empty in O1. set (BS := log_store st d l st_range).
  wp_step. apply wp_in_fs, wp_on_store. eapply (begin_txn st st_range); [exact O1|exact OD|exact (le_n _)|]. intros t1 Ht1 Hs1.
  wp_step. apply wp_in_fs. eapply (wp_ilock (BS := BS) ∅ (set_store t1 (ft_fs s)) a ∅ ∅ ip i); [exact Ht1|exact O4|done|done|done|].
  intros fs2 lk Ht2 Ho2 Hi2 Hm2. pose proof (os_sb _ _ _ Ho2) as Esb2. cbn [set_ft_fs ft_fs f_store set_store f_sb] in Hm2, Esb2.
  wp_step. apply wp_in_fs. cbn [set_ft_fs ft_fs].
  eapply (wp_locked_write d l fs2 a ip (set_ilock lk i)); rewrite ?Esb2; [by eapply wf_any|exact Ht2|exact Hi2|by apply inode_ok_lock|exact O6|exact Hcin|done|done|done|].
  intros Tn r fs4 a3 i3 W3 LW. pose proof LW as [L1 LT L2 L3 L4 L5 L6 L7 L8 L9 (sz & ad & E3) L11 L12].
  wp_step. eapply (wp_advance f fl r); [exact Hf|lia|lia|].
  wp_step. apply wp_in_fs. cbn [set_ft_fs set_ft_files ft_fs].
  eapply (wp_iunlock (BS := BS) Tn fs4 a3 ∅ W3 ip i3); [exact L1|exact L3|by rewrite E3| |].
  { rewrite E3. destruct (os_store _ _ _ L2) as [_ Ep]. rewrite Ep. destruct (os_store _ _ _ Ho2) as [_ Ep2]. rewrite Ep2. exact Hm2. }
  intros fs5 l5 Ht5 Ho5 Hi5 Hl5. pose proof (os_sb _ _ _ L2) as Esb4. pose proof (os_sb _ _ _ Ho5) as Esb5. rewrite Esb4, Esb2 in Esb5.
  wp_step. apply wp_in_fs, wp_on_store. cbn [set_ft_fs set_ft_files ft_fs ft_files ft_lock ft_cache ft_dev].
  change (@bs_end_op (log_st A) log_ops) with (@end_op A HM OC). apply (end_txn st st_range Tn (fs_store s) (f_store fs5) a3 W3).
  { exact Ht5. }
  { exact (idle_wf st _ _ _ O1). }
  intros t b Hd Hset.
  eapply HQ. eapply (chunk_done Tn s t a f ip i lk off cin src n r fs2 a3 i3 W3 fs4 l5 b fl d l O Hf Esb2 LW Hd Hset); [|exact Hl5|done|exact Esb5|exact Hi5].
  eapply txn_covers; [exact L1|]. unfold d. by rewrite OD.
Qed.

(** ** The whole write *)

(** Inode [inum] is on the disk [b] with these contents. *)
Definition on_disk (sb : superblock) (b : blocks) (inum : Z) (bytes : list Z) : Prop :=
  fs_wf (BS := any_store) sb b /\ exists i, inode_ok sb b i /\ i_inum i = inum /\ disk_inode sb b inum = dinode_of i /\ file_bytes b i = bytes.

(** The file with a prefix of at most [m] bytes of the write. *)
Definition prefix_written (sb : superblock) (inum : Z) (c : list Z) (off : Z) (src : Z -> Z) (m : Z) (b : blocks) : Prop :=
  exists j, 0 <= j <= m /\ on_disk sb b inum (splice c off (src <$> seqZ 0 j)).

(** Why only [m] of [n] bytes were written: the disk is full, the user's
    memory ends, the offset is past the end, or the file would be too large. *)
Definition cut (sb : superblock) (i : inode) (a' : blocks) (cin : Z -> Z -> list Z * bool) (off n m : Z) : Prop :=
  (forall j, 0 <= j < sb_size sb -> used sb a' j = true) \/ (exists k, 0 < k /\ (cin m k).2 = false) \/ i_size i < off \/ MAXFILE * BSIZE < off + n.

Lemma crash_safe_mono (s s' : log_st A) (g g' : blocks -> Prop) : (forall b, g b -> g' b) -> crash_safe s s' g -> crash_safe s s' g'.
Proof.
  intros Hg (L & E1 & E2 & H). exists L. split; [done|]. split; [done|]. intros P D HP HD. destruct (H P D HP HD) as [? (b & ? & ?)]. eauto.
Qed.

Lemma open_on_disk Tn s a f ip i off : open_file Tn s a f ip i off -> on_disk (fs_sb s) a (i_inum i) (file_bytes a i).
Proof. intros O. split; [apply O|]. exists i. split; [apply O|]. split; [done|]. split; [apply O|done]. Qed.

Lemma splice_more c off (src : Z -> Z) i r : 0 <= i -> 0 <= r -> 0 <= off -> i = 0 \/ off <= Z.of_nat (length c) ->
  splice (splice c off (src <$> seqZ 0 i)) (off + i) ((fun k => src (i + k)) <$> seqZ 0 r) = splice c off (src <$> seqZ 0 (i + r)).
Proof.
  intros Hi Hr Ho Hc. replace (src <$> seqZ 0 (i + r)) with ((src <$> seqZ 0 i) ++ ((fun k => src (i + k)) <$> seqZ 0 r)).
  2: { rewrite (seqZ_split 0 i (i + r)) by lia. rewrite fmap_app. f_equal. replace (i + r - i) with r by lia. apply list_eq. intros k. rewrite !list_lookup_fmap.
    destruct (decide (k < Z.to_nat r)%nat) as [Hk|Hk]; [|by rewrite !lookup_ge_None_2 by (rewrite length_seqZ; lia)].
    rewrite !lookup_seqZ_lt by lia. cbn. do 2 f_equal; lia. }
  set (l2 := (fun k => src (i + k)) <$> seqZ 0 r). destruct (decide (i = 0)) as [->|Hne].
  { change (src <$> seqZ 0 0) with (@nil Z). rewrite splice_nil, Z.add_0_r. done. }
  destruct Hc as [Hc|Hc]; [done|]. set (l1 := src <$> seqZ 0 i). assert (length l1 = Z.to_nat i) as Hl1 by (unfold l1; by rewrite length_fmap, length_seqZ).
  unfold splice. set (o := Z.to_nat off). replace (Z.to_nat (off + i)) with (o + length l1)%nat by lia.
  assert (length (take o c) = o) as Ht by (rewrite length_take; lia).
  rewrite !(app_assoc (take o c) l1). rewrite take_app_length' by (rewrite length_app; lia). rewrite drop_app_ge by (rewrite length_app; lia).
  rewrite !length_app, Ht, drop_drop, <- !app_assoc. do 4 f_equal. lia.
Qed.

Lemma rest_same_trans sb a i a1 i1 a2 i2 : i_inum i1 = i_inum i -> rest_same sb a i a1 i1 -> rest_same sb a1 i1 a2 i2 -> rest_same sb a i a2 i2.
Proof.
  intros E [H1 H2] [G1 G2]. split.
  - intros c Hc Hu Hn. destruct (H1 c Hc Hu Hn) as (E1 & U1 & N1). destruct (G1 c Hc U1 N1) as (E2 & U2 & N2). split; [congruence|done].
  - intros j Hj Hne. rewrite G2 by (rewrite ?E; done). by apply H2.
Qed.

Lemma copies_shift cin src i : copies cin src -> 0 <= i -> copies (fun tot m => cin (i + tot) m) (fun k => src (i + k)).
Proof.
  intros H Hi tot m Ht Hm. specialize (H (i + tot) m ltac:(lia) Hm). destruct (cin (i + tot) m) as [bytes ok]. destruct H as (p & -> & Hp). exists p. split; [|done].
  apply list_eq. intros k. rewrite !list_lookup_fmap. destruct (decide (k < Z.to_nat p)%nat) as [Hk|Hk]; [|by rewrite !lookup_ge_None_2 by (rewrite length_seqZ; lia)].
  rewrite !lookup_seqZ_lt by lia. cbn. do 2 f_equal; lia.
Qed.

Record written_so_far (Tn : gset Z) (s0 : ftst) (a0 : blocks) (i0 : inode) (f ip off : Z) (src : Z -> Z) (k : Z) (s : ftst) (a : blocks) (i : inode) : Prop := {
  ws_open : open_file Tn s a f ip i (off + k);
  ws_sb : fs_sb s = fs_sb s0;
  ws_inum : i_inum i = i_inum i0;
  ws_bytes : file_bytes a i = splice (file_bytes a0 i0) off (src <$> seqZ 0 k);
  ws_rest : rest_same (fs_sb s0) a0 i0 a i;
  ws_crash : crash_safe (fs_store s0) (fs_store s) (prefix_written (fs_sb s0) (i_inum i0) (file_bytes a0 i0) off src k);
  ws_fits : 0 <= off /\ 0 <= k /\ (k = 0 \/ off <= i_size i0)
}.

Lemma written_none s a f ip i off src : open_file ∅ s a f ip i off -> written_so_far ∅ s a i f ip off src 0 s a i.
Proof.
  intros O. pose proof (of_off _ _ _ _ _ _ _ O). change (src <$> seqZ 0 0) with (@nil Z). split; try done.
  - by rewrite Z.add_0_r.
  - by rewrite splice_nil.
  - eapply crash_safe_refl; [apply O|]. rewrite (of_dsk _ _ _ _ _ _ _ O). exists 0. split; [lia|]. change (src <$> seqZ 0 0) with (@nil Z). rewrite splice_nil. by eapply open_on_disk.
  - lia.
Qed.

Lemma size_bytes Tn s a f ip i off : open_file Tn s a f ip i off -> i_size i = Z.of_nat (length (file_bytes a i)).
Proof. intros O. pose proof (fo_size _ _ _ _ (ik_file _ _ _ (of_ok _ _ _ _ _ _ _ O))). rewrite length_file_bytes. lia. Qed.

Lemma written_more Tn s0 a0 i0 f ip off src k s a i cin n r s' a' i' : open_file ∅ s0 a0 f ip i0 off -> written_so_far ∅ s0 a0 i0 f ip off src k s a i ->
  wrote_chunk Tn s a f ip i (off + k) cin (fun j => src (k + j)) n r s' a' i' ->
  written_so_far Tn s0 a0 i0 f ip off src (k + Z.max 0 r) s' a' i'.
Proof.
  intros O0 [W1 W2 W3 W4 W5 W6 (W7 & W8 & W9)] [C1 CT C2 C3 C4 C5 C6 C7 [C8 C9]].
  pose proof (size_bytes _ _ _ _ _ _ _ O0) as Hz0. pose proof (size_bytes _ _ _ _ _ _ _ W1) as Hz.
  assert (k = 0 -> i_size i = i_size i0) as Hk0.
  { intros ->. rewrite Hz, W4, Hz0. change (src <$> seqZ 0 0) with (@nil Z). by rewrite splice_nil. }
  assert (file_bytes a' i' = splice (file_bytes a0 i0) off (src <$> seqZ 0 (k + Z.max 0 r))) as Eb.
  { rewrite C4, W4. apply splice_more; lia. }
  assert (on_disk (fs_sb s0) a' (i_inum i0) (splice (file_bytes a0 i0) off (src <$> seqZ 0 (k + Z.max 0 r)))) as Hod.
  { rewrite <- Eb, <- W3, <- C3, <- W2, <- C2. by eapply open_on_disk. }
  split; try done.
  - by rewrite Z.add_assoc.
  - congruence.
  - congruence.
  - eapply rest_same_trans; [exact W3|exact W5|by rewrite <- W2].
  - eapply crash_safe_trans; [eapply crash_safe_mono; [|exact W6]|].
    + intros b (j & Hj & Hb). exists j. split; [lia|done].
    + eapply durable_crash_safe; [exact C7| |].
      * rewrite (of_dsk _ _ _ _ _ _ _ W1). exists k. split; [lia|]. rewrite <- W4, <- W3, <- W2. by eapply open_on_disk.
      * exists (k + Z.max 0 r). split; [lia|done].
  - split; [done|]. split; [lia|]. destruct (decide (0 < r)) as [Hp|Hp]; [|destruct W9; [left|right]; lia].
    right. destruct W9 as [E|?]; [|done]. specialize (C9 Hp). rewrite <- (Hk0 E). lia.
Qed.

Lemma wp_filewrite_loop s0 a0 i0 f ip off src cin n : open_file ∅ s0 a0 f ip i0 off -> copies cin src -> rsz (fs_sb s0) ∅ + 8 < LOGBLOCKS ->
  forall fuel k s a i, written_so_far ∅ s0 a0 i0 f ip off src k s a i -> k <= n -> (Z.to_nat ((n - k + max_write - 1) / max_write) < fuel)%nat ->
  wp (filewrite_loop fuel f cin n k) (fun k' s' => exists Tn m a' i', written_so_far Tn s0 a0 i0 f ip off src m s' a' i' /\ torn_by cin a' (i_addrs i') (off + m) m Tn /\
    (k' = n /\ m = n /\ Tn = ∅ \/ k' < n /\ m < n /\ cut (fs_sb s0) i0 a' cin off n m)) s.
Proof.
  intros O0 Hcin Hrm fuel. change max_write with 3072. induction fuel as [|fuel IH]; intros k s a i W Hk Hfuel; [lia|]. cbn [filewrite_loop].
  destruct (Z.ltb_spec k n) as [Hlt|Hge].
  2: { wp_step. exists ∅, k, a, i. split; [done|]. split; [by left|]. left. split; [lia|]. split; [lia|done]. }
  change max_write with 3072. set (n1 := if 3072 <? n - k then 3072 else n - k).
  assert (0 < n1 <= 3072 /\ n1 <= n - k /\ (n1 = 3072 \/ n1 = n - k)) as Hn1 by (unfold n1; destruct (Z.ltb_spec 3072 (n - k)); lia).
  destruct (ws_fits _ _ _ _ _ _ _ _ _ _ _ _ W) as (Hoff & Hk0 & Hfit). destruct (of_file _ _ _ _ _ _ _ (ws_open _ _ _ _ _ _ _ _ _ _ _ _ W)) as (fl & Hfl & _).
  wp_step. eapply wp_get_file; [exact Hfl|].
  eapply (wp_write_chunk s a f ip i (off + k) (fun tot m => cin (k + tot) m) (fun j => src (k + j)) n1 fl); [apply W|done|by apply copies_shift|change max_write with 3072; lia|by rewrite (ws_sb _ _ _ _ _ _ _ _ _ _ _ _ W)|].
  intros Tn r s' a' i' C. pose proof (written_more _ _ _ _ _ _ _ _ _ _ _ _ _ _ _ _ _ _ O0 W C) as W'. destruct (wc_range _ _ _ _ _ _ _ _ _ _ _ _ _ _ C) as [Hr _].
  destruct (wc_torn _ _ _ _ _ _ _ _ _ _ _ _ _ _ C) as [HT HT'].
  destruct (Z.eqb_spec r n1) as [->|Hne]; cbn [negb].
  - destruct HT' as [->|?]; [|lia]. rewrite Z.max_r in W' by lia. eapply IH; [exact W'|lia|]. change max_write with 3072 in *. zdiv.
  - wp_step. exists Tn, (k + Z.max 0 r), a', i'. split; [done|]. split; [by rewrite Z.add_assoc|]. right. split; [lia|]. split; [lia|].
    destruct (wc_r _ _ _ _ _ _ _ _ _ _ _ _ _ _ C) as [?|[[-> [Hs|Hs]]|[Hr' [Hs|(j & Hj & Hs)]]]]; [done| | | |].
    + right; right; left. pose proof (size_bytes _ _ _ _ _ _ _ O0) as Hz0. pose proof (size_bytes _ _ _ _ _ _ _ (ws_open _ _ _ _ _ _ _ _ _ _ _ _ W)) as Hz.
      rewrite Hz, (ws_bytes _ _ _ _ _ _ _ _ _ _ _ _ W) in Hs. rewrite Hz0. destruct Hfit as [->|Hfit].
      * change (src <$> seqZ 0 0) with (@nil Z) in Hs. rewrite splice_nil in Hs. lia.
      * exfalso. unfold splice in Hs. rewrite !length_app, length_take, length_fmap, length_seqZ, length_drop in Hs. lia.
    + right; right; right. lia.
    + left. by rewrite <- (ws_sb _ _ _ _ _ _ _ _ _ _ _ _ W).
    + right; left. exists j. split; [done|]. by rewrite Z.max_r by lia.
Qed.

(** C1: writing to an open file.  [filewrite] on an inode returns; it stores a
    prefix of [m] of the [n] bytes at the file's offset and advances the
    offset by [m], with [m = n] and result [n], or with result -1 because the
    disk is full, the user's memory is not readable there, the offset is past
    the end or the file would be too large.  No other file changes, and if
    power fails after any number of the disk writes of the whole call, and
    again during recovery, the recovered file system has the file with a
    prefix of those bytes.  The user's memory may end in the middle of a
    piece: then bytes after the prefix stay, unlogged, in the buffer of the
    block at the new offset.  They never reach the disk, and all blocks but
    this one read as what is on the disk; if no piece fails halfway, all
    blocks do. *)
Theorem filewrite_correct s a f ip i off cin src n :
  open_file ∅ s a f ip i off -> copies cin src -> 0 <= n < 2 ^ 31 -> rsz (fs_sb s) ∅ + 8 < LOGBLOCKS ->
  wp (filewrite f cin n) (fun r s' => exists Tn m a' i',
    (r = n /\ m = n /\ Tn = ∅ \/ r = -1 /\ 0 <= m < n /\ cut (fs_sb s) i a' cin off n m) /\
    open_file Tn s' a' f ip i' (off + m) /\ torn_by cin a' (i_addrs i') (off + m) m Tn /\
    file_bytes a' i' = splice (file_bytes a i) off (src <$> seqZ 0 m) /\
    rest_same (fs_sb s) a i a' i' /\
    crash_safe (fs_store s) (fs_store s') (prefix_written (fs_sb s) (i_inum i) (file_bytes a i) off src m)) s.
Proof.
  intros O Hcin Hn Hrm. destruct (of_file _ _ _ _ _ _ _ O) as (fl & Hfl & T1 & T2 & T3 & T4). unfold filewrite. wp_step. eapply wp_get_file; [exact Hfl|].
  rewrite (proj2 (Z.eqb_neq _ _) T2), T1. wp_step.
  eapply wp_mono; [eapply (wp_filewrite_loop s a i f ip off src cin n O Hcin Hrm _ 0 s a i); [by apply written_none|lia|change max_write with 3072; zdiv]|].
  cbn beta. intros k' s' (Tn & m & a' & i' & [W1 W2 W3 W4 W5 W6 (_ & Hm & _)] & HT & Hcase). wp_step. exists Tn, m, a', i'. split; [|done].
  destruct Hcase as [(-> & -> & ->)|(Hlt & Hm' & Hcut)]; [left|right; rewrite (proj2 (Z.eqb_neq k' n)) by lia; done]. by rewrite Z.eqb_refl.
Qed.

End Write.
