(* ===== verification/FileDemo.v ===== *)
(** * Pipes and the console behind open files

    [devs_FileDev] connects the calls of file.c to the pipes of Pipe.v and, for
    the major number CONSOLE, to the console of Console.v; a call that sleeps
    is [Blocked].  The second part is an open file on the small file system
    of FsDemo.v, to which the theorem about [filewrite] applies. *)

From Stdlib Require Import ZArith Lia Bool String.
From stdpp Require Import base gmap list strings functions relations.
From S2P Require Import Prelude Pipe Console.
From S2P Require Import Mem Spinlock Sleeplock ObjCache Bio BioProof BioThms Log LogSpec LogProof LogThms BlockStore LogStore Fs FsBytes FsAlloc FsFile FsRw FsThms FsCrash FsDemo File FileThms.

Definition CONSOLE : Z := 1.

(** The file cache hands out fresh addresses. *)
Record devs := mkDevs { dv_next : Z; dv_pipes : gmap Z Pipe.pst; dv_cons : cst }.

Definition on_pipe {X} (p : Z) (c : M Pipe.pst X) : M devs X :=
  s ← get;
  match dv_pipes s !! p with
  | None => fault "pipe"
  | Some t => zoom (fun _ => t) (fun t' s => mkDevs (dv_next s) (<[p := t']> (dv_pipes s)) (dv_cons s)) c
  end.
Definition on_cons {X} (c : M cst X) : M devs X := zoom dv_cons (fun t s => mkDevs (dv_next s) (dv_pipes s) t) c.

(** One byte of the user's memory. *)
Definition user_byte (cin : Z -> Z -> list Z * bool) (i : Z) : option Z :=
  match cin i 1 with (b :: _, true) => Some b | _ => None end.
Definition user_bytes (cin : Z -> Z -> list Z * bool) (i n : Z) : option (list Z) :=
  let '(bytes, ok) := cin i n in if ok : bool then Some bytes else None.

Definition dev_piperead (p : Z) (cout : Z -> list Z -> bool) (n : Z) : M devs (Z * list Z) :=
  before ← on_pipe p (gets Pipe.given);
  r ← on_pipe p (piperead (fun i => cout i []) n);
  after ← on_pipe p (gets Pipe.given);
  match r with SRet v => mret (v, drop (length before) after) | SSleep _ => blocked "piperead" end.

Definition dev_pipewrite (p : Z) (cin : Z -> Z -> list Z * bool) (n : Z) : M devs Z :=
  r ← on_pipe p (pipewrite (user_byte cin) n 0);
  match r with SRet v => mret v | SSleep _ => blocked "pipewrite" end.

Definition dev_consoleread (cout : Z -> list Z -> bool) (n : Z) : M devs (Z * list Z) :=
  before ← on_cons (gets given);
  r ← on_cons (consoleread (fun i => cout i []) false n n);
  after ← on_cons (gets given);
  match r with RRet v => mret (v, drop (length before) after) | RSleep _ => blocked "consoleread" end.

Definition dev_consolewrite (cin : Z -> Z -> list Z * bool) (n : Z) : M devs Z :=
  on_cons (consolewrite (S (Z.to_nat n)) (user_bytes cin) n 0).

#[export] Instance devs_FileDev : FileDev devs := {|
  fd_cache_create := mret 1;
  fd_cache_alloc _ := s ← get; put (mkDevs (dv_next s + 1) (dv_pipes s) (dv_cons s));; mret (dv_next s);
  fd_cache_free _ _ := mret tt;
  fd_pipeclose p w := on_pipe p (pipeclose (negb (w =? 0)));; mret tt;
  fd_piperead := dev_piperead;
  fd_pipewrite := dev_pipewrite;
  fd_devread major := if major =? CONSOLE then Some dev_consoleread else None;
  fd_devwrite major := if major =? CONSOLE then Some dev_consolewrite else None
|}.

(** ** An open file *)

Definition demo_devs : devs := mkDevs 200 ∅ (mkCst (mkConsole (replicate 128 0) 0 0 0) [] 0 []).
Definition demo_file : file := mkFile FD_INODE 1 1 1 0 1 0 0.
Abbreviation demo_ft := (mkFt demo_fs (mkLock EmptyString 0 0) {[100 := demo_file]} 1 demo_devs).

Lemma demo_covers : covers demo_sb demo_disk.
Proof.
  intros c [d Hd]. cbn [demo_sb sb_size]. unfold demo_disk in Hd.
  apply lookup_insert_Some in Hd as [[<- _]|[_ Hd]]; [lia|]. apply lookup_insert_Some in Hd as [[<- _]|[_ Hd]]; [lia|].
  apply elem_of_list_to_map_2, list_elem_of_fmap in Hd as (b & [= -> _] & Hb). apply elem_of_seqZ in Hb. lia.
Qed.

Lemma demo_open : open_file 2 demo_range ∅ demo_ft demo_disk 100 1 demo_inode 0.
Proof.
  split; try done.
  - rewrite view_empty. exact demo_store_idle.
  - eapply wf_any. exact demo_wf.
  - exact demo_covers.
  - exact demo_inode_ok.
  - eexists. split; [apply lookup_singleton_eq|]. done.
Qed.

(** 4000 bytes, from memory that ends in the middle of the second block. *)
Lemma filewrite_correct_witness :
  (short_cin 1024 1024).2 = false /\ length (short_cin 1024 1024).1 = 176%nat /\
  wp (filewrite (T := log_st pool) (U := devs) 100 short_cin 4000) (fun r s' => exists Tn m a' i',
    (r = 4000 /\ m = 4000 /\ Tn = ∅ \/ r = -1 /\ 0 <= m < 4000 /\ cut demo_sb demo_inode a' short_cin 0 4000 m) /\
    open_file 2 demo_range Tn s' a' 100 1 i' (0 + m) /\ torn_by short_cin a' (i_addrs i') (0 + m) m Tn /\
    file_bytes a' i' = splice (file_bytes demo_disk demo_inode) 0 (demo_src <$> seqZ 0 m) /\
    rest_same demo_sb demo_disk demo_inode a' i' /\
    crash_safe 2 demo_store (f_store (ft_fs s')) (prefix_written 2 demo_range demo_sb 2 (file_bytes demo_disk demo_inode) 0 demo_src m)) demo_ft.
Proof.
  split; [reflexivity|]. split; [reflexivity|].
  refine (filewrite_correct 2 demo_range demo_ft demo_disk 100 1 demo_inode 0 short_cin demo_src 4000 demo_open short_copies _ _).
  - lia.
  - change (f_sb (ft_fs demo_ft)) with demo_sb. rewrite demo_room. reflexivity.
Defined.
