(* ===== verification/Sysfile.v ===== *)
(** * The system-call layer (kernel/syscall.c, kernel/sysfile.c, pipe.c's [pipealloc])

    System calls on files as the kernel runs them for the process [sy_cur]:
    the argument registers of its trapframe ([sy_regs]), its open-file table
    (one list per process in [sy_ofile]) and, below them, the file table of
    File.v and the file system of Fs.v.  The user's memory is given by
    functions: [um_str] for what [copyinstr] delivers, [um_in] and [um_out]
    for [copyin] and [copyout] at an address.  [PipeMem] names what
    [pipealloc] calls in slab.c.  [fork_files] and [exit_files] are the parts
    of [kfork] and [kexit] that deal with open files. *)

From Stdlib Require Import ZArith Lia Bool String.
From stdpp Require Import base gmap list strings.
From S2P Require Import Prelude Mem Spinlock Sleeplock Bio Log BlockStore Fs File.

Definition NOFILE : Z := 16.
Definition MAXPATH : Z := 128.
Definition O_RDONLY : Z := 0x000.
Definition O_WRONLY : Z := 0x001.
Definition O_RDWR : Z := 0x002.
Definition O_CREATE : Z := 0x200.
Definition O_TRUNC : Z := 0x400.

(** The memory of the calling process. *)
Record usermem := mkUmem {
  um_str : Z -> Z -> option (list Z);
  um_in : Z -> Z -> Z -> list Z * bool;
  um_out : Z -> Z -> list Z -> bool;
  um_stat : Z -> stat -> bool
}.

Class PipeMem (U : Type) := {
  pm_cache_create : M U Z;
  pm_cache_alloc : Z -> M U Z;
  pm_cache_free : Z -> Z -> M U unit;
  pm_kmalloc : Z -> M U Z;
  pm_kfree : Z -> M U unit;
  (** [pi->data = d] and the other fields of a new pipe *)
  pm_set_data : Z -> Z -> M U unit;
  pm_init : Z -> M U unit
}.

Definition set_flrw (r w : Z) (f : file) : file := mkFile (fl_type f) (fl_ref f) r w (fl_pipe f) (fl_ip f) (fl_off f) (fl_major f).
Definition set_flpipe (p : Z) (f : file) : file := mkFile (fl_type f) (fl_ref f) (fl_readable f) (fl_writable f) p (fl_ip f) (fl_off f) (fl_major f).
Definition set_flip (ip : Z) (f : file) : file := mkFile (fl_type f) (fl_ref f) (fl_readable f) (fl_writable f) (fl_pipe f) ip (fl_off f) (fl_major f).
Definition set_flmajor (m : Z) (f : file) : file := mkFile (fl_type f) (fl_ref f) (fl_readable f) (fl_writable f) (fl_pipe f) (fl_ip f) (fl_off f) m.

Definition set_inlink (v : Z) (i : inode) : inode :=
  mkInode (i_dev i) (i_inum i) (i_ref i) (i_lock i) (i_valid i) (i_type i) (i_major i) (i_minor i) (s16 v) (i_size i) (i_addrs i).
Definition set_imm (major minor : Z) (i : inode) : inode :=
  mkInode (i_dev i) (i_inum i) (i_ref i) (i_lock i) (i_valid i) (i_type i) (s16 major) (s16 minor) (i_nlink i) (i_size i) (i_addrs i).

(** "." and ".." *)
Definition dot : list Z := [46].
Definition dotdot : list Z := [46; 46].

Section Sysfile.
Context {T : Type} `{HM : HasMach T} {BO : BlockOps T} {U : Type} {FD : FileDev U} {PM : PipeMem U}.

Record sys_st := mkSy {
  sy_ft : ft_st T U;
  sy_ofile : list (list Z);
  sy_cur : nat;
  sy_regs : list Z;
  sy_pipe_cache : Z
}.

Definition set_sy_ft (f : ft_st T U) (s : sys_st) : sys_st := mkSy f (sy_ofile s) (sy_cur s) (sy_regs s) (sy_pipe_cache s).
Definition set_sy_ofile (o : list (list Z)) (s : sys_st) : sys_st := mkSy (sy_ft s) o (sy_cur s) (sy_regs s) (sy_pipe_cache s).
Definition set_sy_cache (c : Z) (s : sys_st) : sys_st := mkSy (sy_ft s) (sy_ofile s) (sy_cur s) (sy_regs s) c.

Definition in_ft {X} (c : M (ft_st T U) X) : M sys_st X := zoom sy_ft set_sy_ft c.
Definition fs {X} (c : M (fs_st T) X) : M sys_st X := in_ft (in_fs c).
Definition dev {X} (c : M U X) : M sys_st X := in_ft (in_dev c).
Definition begin_op : M sys_st unit := fs (on_store bs_begin_op).
Definition end_op : M sys_st unit := fs (on_store bs_end_op).

(** [myproc()->ofile] *)
Definition my_ofile : M sys_st (list Z) := s ← get; match sy_ofile s !! sy_cur s with Some l => mret l | None => fault "proc" end.
Definition set_my_ofile (l : list Z) : M sys_st unit := modify (fun s => set_sy_ofile (<[sy_cur s := l]> (sy_ofile s)) s).

(** ** Arguments *)

Definition argraw (n : Z) : M sys_st Z :=
  if (0 <=? n) && (n <? 6) then l ← gets sy_regs; arr_get l n else panic "argraw".
Definition argint (n : Z) : M sys_st Z := v ← argraw n; mret (s32 v).
Definition argaddr (n : Z) : M sys_st Z := argraw n.
(** [None] for -1 *)
Definition fetchstr (um : usermem) (addr max : Z) : option (list Z) := um_str um addr max.
Definition argstr (um : usermem) (n max : Z) : M sys_st (option (list Z)) := addr ← argaddr n; mret (fetchstr um addr max).

(** The descriptor and the file, or [None] for -1. *)
Definition argfd (n : Z) : M sys_st (option (Z * Z)) :=
  fd ← argint n;
  if (fd <? 0) || (NOFILE <=? fd) then mret None
  else
    l ← my_ofile;
    f ← arr_get l fd;
    if f =? 0 then mret None else mret (Some (fd, f)).

(** [for(fd = 0; fd < NOFILE; fd++)] *)
Fixpoint fdalloc_loop (n : nat) (fd f : Z) : M sys_st Z :=
  match n with
  | O => mret (-1)
  | S n =>
      l ← my_ofile;
      x ← arr_get l fd;
      if x =? 0 then l' ← of_arr (arr_set l fd f); set_my_ofile l';; mret fd
      else fdalloc_loop n (fd + 1) f
  end.
Definition fdalloc (f : Z) : M sys_st Z := fdalloc_loop (Z.to_nat NOFILE) 0 f.

(** [myproc()->ofile[fd] = 0;] *)
Definition clear_fd (fd : Z) : M sys_st unit := l ← my_ofile; l' ← of_arr (arr_set l fd 0); set_my_ofile l'.

(** ** Calls on descriptors *)

Definition sys_dup : M sys_st Z :=
  a ← argfd 0;
  match a with
  | None => mret (-1)
  | Some (_, f) =>
      fd ← fdalloc f;
      if fd <? 0 then mret (-1) else in_ft (filedup f);; mret fd
  end.

Definition sys_read (um : usermem) : M sys_st Z :=
  p ← argaddr 1;
  n ← argint 2;
  a ← argfd 0;
  match a with
  | None => mret (-1)
  | Some (_, f) => '(r, _) ← in_ft (fileread f (um_out um p) n); mret r
  end.

Definition sys_write (um : usermem) : M sys_st Z :=
  p ← argaddr 1;
  n ← argint 2;
  a ← argfd 0;
  match a with
  | None => mret (-1)
  | Some (_, f) => in_ft (filewrite f (um_in um p) n)
  end.

Definition sys_close : M sys_st Z :=
  a ← argfd 0;
  match a with
  | None => mret (-1)
  | Some (fd, f) => clear_fd fd;; in_ft (fileclose f);; mret 0
  end.

Definition sys_fstat (um : usermem) : M sys_st Z :=
  st ← argaddr 1;
  a ← argfd 0;
  match a with
  | None => mret (-1)
  | Some (_, f) => '(r, _) ← in_ft (filestat f (um_stat um st)); mret r
  end.

(** ** Pipes *)

(** [bad:] of [pipealloc]; [data] is [pi->data]. *)
Definition pipe_bad (pi data f0 f1 : Z) : M sys_st (option (Z * Z)) :=
  (if negb (pi =? 0) then
     (if negb (data =? 0) then dev (pm_kfree data) else mret tt);;
     c ← gets sy_pipe_cache;
     (if negb (c =? 0) then dev (pm_cache_free c pi) else mret tt)
   else mret tt);;
  (if negb (f0 =? 0) then in_ft (fileclose f0) else mret tt);;
  (if negb (f1 =? 0) then in_ft (fileclose f1) else mret tt);;
  mret None.

(** What a new pipe's two files are made of. *)
Definition pipe_end (f pi r w : Z) : M sys_st unit := in_ft (upd_file f (fun fl => set_flpipe pi (set_flrw r w (set_fltype FD_PIPE fl)))).

(** The two files, or [None] for -1. *)
Definition pipealloc : M sys_st (option (Z * Z)) :=
  f0 ← in_ft filealloc;
  if f0 =? 0 then pipe_bad 0 0 f0 0
  else
    f1 ← in_ft filealloc;
    if f1 =? 0 then pipe_bad 0 0 f0 f1
    else
      c ← gets sy_pipe_cache;
      (if c =? 0 then c ← dev pm_cache_create; modify (set_sy_cache c) else mret tt);;
      c ← gets sy_pipe_cache;
      if c =? 0 then pipe_bad 0 0 f0 f1
      else
        pi ← dev (pm_cache_alloc c);
        if pi =? 0 then pipe_bad pi 0 f0 f1
        else
          data ← dev (pm_kmalloc 512);
          dev (pm_set_data pi data);;
          if data =? 0 then pipe_bad pi data f0 f1
          else
            dev (pm_init pi);;
            pipe_end f0 pi 1 0;;
            pipe_end f1 pi 0 1;;
            mret (Some (f0, f1)).

Definition sys_pipe (um : usermem) : M sys_st Z :=
  fdarray ← argaddr 0;
  r ← pipealloc;
  match r with
  | None => mret (-1)
  | Some (rf, wf) =>
      fd0 ← fdalloc rf;
      fd1 ← (if fd0 <? 0 then mret (-1) else fdalloc wf);
      if (fd0 <? 0) || (fd1 <? 0) then
        (if 0 <=? fd0 then clear_fd fd0 else mret tt);;
        in_ft (fileclose rf);;
        in_ft (fileclose wf);;
        mret (-1)
      else if um_out um fdarray 0 [fd0; 0; 0; 0] && um_out um (fdarray + 4) 0 [fd1; 0; 0; 0] then mret 0
      else
        clear_fd fd0;;
        clear_fd fd1;;
        in_ft (fileclose rf);;
        in_ft (fileclose wf);;
        mret (-1)
  end.

(** ** Calls on paths *)

Definition name_buf : list Z := replicate (Z.to_nat DIRSIZ) 0.
Definition get_i (ip : Z) : M sys_st inode := fs (get_ip ip).

(** [bad:] of [sys_link] *)
Definition link_bad (ip : Z) : M sys_st Z :=
  fs (ilock ip);;
  i ← get_i ip;
  fs (upd_ip ip (set_inlink (i_nlink i - 1)));;
  fs (iupdate ip);;
  fs (iunlockput ip);;
  end_op;;
  mret (-1).

Definition sys_link (um : usermem) : M sys_st Z :=
  old ← argstr um 0 MAXPATH;
  match old with
  | None => mret (-1)
  | Some old =>
      new ← argstr um 1 MAXPATH;
      match new with
      | None => mret (-1)
      | Some new =>
          begin_op;;
          ip ← fs (namei old);
          if ip =? 0 then end_op;; mret (-1)
          else
            fs (ilock ip);;
            i ← get_i ip;
            if i_type i =? T_DIR then fs (iunlockput ip);; end_op;; mret (-1)
            else
              fs (upd_ip ip (set_inlink (i_nlink i + 1)));;
              fs (iupdate ip);;
              fs (iunlock ip);;
              '(dp, name) ← fs (nameiparent new name_buf);
              if dp =? 0 then link_bad ip
              else
                fs (ilock dp);;
                d ← get_i dp;
                i ← get_i ip;
                r ← (if negb (i_dev d =? i_dev i) then mret (-1) else fs (dirlink dp name (i_inum i)));
                if r <? 0 then fs (iunlockput dp);; link_bad ip
                else
                  fs (iunlockput dp);;
                  fs (iput ip);;
                  end_op;;
                  mret 0
      end
  end.

(** [for(off=2*sizeof(de); off<dp->size; off+=sizeof(de))] *)
Fixpoint isdirempty_loop (fuel : nat) (dp off : Z) : M sys_st bool :=
  match fuel with
  | O => fs out_of_fuel
  | S fuel =>
      d ← get_i dp;
      if off <? i_size d then
        '(r, de) ← fs (readi to_kernel dp off sizeof_dirent);
        (if negb (r =? sizeof_dirent) then panic "isdirempty: readi" else mret tt);;
        if negb (de_inum de =? 0) then mret false else isdirempty_loop fuel dp (off + sizeof_dirent)
      else mret true
  end.
Definition isdirempty (dp : Z) : M sys_st bool :=
  d ← get_i dp; isdirempty_loop (S (Z.to_nat (i_size d / sizeof_dirent))) dp (2 * sizeof_dirent).

(** [bad:] of [sys_unlink] *)
Definition unlink_bad (dp : Z) : M sys_st Z := fs (iunlockput dp);; end_op;; mret (-1).

Definition sys_unlink (um : usermem) : M sys_st Z :=
  path ← argstr um 0 MAXPATH;
  match path with
  | None => mret (-1)
  | Some path =>
      begin_op;;
      '(dp, name) ← fs (nameiparent path name_buf);
      if dp =? 0 then end_op;; mret (-1)
      else
        fs (ilock dp);;
        if (namecmp name dot =? 0) || (namecmp name dotdot =? 0) then unlink_bad dp
        else
          '(ip, off) ← fs (dirlookup dp name);
          if ip =? 0 then unlink_bad dp
          else
            fs (ilock ip);;
            i ← get_i ip;
            (if i_nlink i <? 1 then panic "unlink: nlink < 1" else mret tt);;
            e ← (if i_type i =? T_DIR then isdirempty ip else mret true);
            if negb e then fs (iunlockput ip);; unlink_bad dp
            else
              r ← fs (writei (from_kernel (replicate 16 0)) dp off sizeof_dirent);
              (if negb (r =? sizeof_dirent) then panic "unlink: writei" else mret tt);;
              i ← get_i ip;
              (if i_type i =? T_DIR then
                 d ← get_i dp;
                 fs (upd_ip dp (set_inlink (i_nlink d - 1)));;
                 fs (iupdate dp)
               else mret tt);;
              fs (iunlockput dp);;
              i ← get_i ip;
              fs (upd_ip ip (set_inlink (i_nlink i - 1)));;
              fs (iupdate ip);;
              fs (iunlockput ip);;
              end_op;;
              mret 0
  end.

(** [fail:] of [create] *)
Definition create_fail (ip dp : Z) : M sys_st Z :=
  fs (upd_ip ip (set_inlink 0));;
  fs (iupdate ip);;
  fs (iunlockput ip);;
  fs (iunlockput dp);;
  mret 0.

(** Returns the inode, locked, or 0. *)
Definition create (path : list Z) (type major minor : Z) : M sys_st Z :=
  '(dp, name) ← fs (nameiparent path name_buf);
  if dp =? 0 then mret 0
  else
    fs (ilock dp);;
    '(ip, _) ← fs (dirlookup dp name);
    if negb (ip =? 0) then
      fs (iunlockput dp);;
      fs (ilock ip);;
      i ← get_i ip;
      if (type =? T_FILE) && ((i_type i =? T_FILE) || (i_type i =? T_DEVICE)) then mret ip
      else fs (iunlockput ip);; mret 0
    else
      d ← get_i dp;
      ip ← fs (ialloc (i_dev d) type);
      if ip =? 0 then fs (iunlockput dp);; mret 0
      else
        fs (ilock ip);;
        fs (upd_ip ip (fun i => set_inlink 1 (set_imm major minor i)));;
        fs (iupdate ip);;
        i ← get_i ip;
        d ← get_i dp;
        r ← (if type =? T_DIR then
               r ← fs (dirlink ip dot (i_inum i));
               if r <? 0 then mret (-1) else fs (dirlink ip dotdot (i_inum d))
             else mret 0);
        if r <? 0 then create_fail ip dp
        else
          r ← fs (dirlink dp name (i_inum i));
          if r <? 0 then create_fail ip dp
          else
            (if type =? T_DIR then
               d ← get_i dp;
               fs (upd_ip dp (set_inlink (i_nlink d + 1)));;
               fs (iupdate dp)
             else mret tt);;
            fs (iunlockput dp);;
            mret ip.

(** The inode to open, locked, or [None] after [end_op]. *)
Definition open_inode (path : list Z) (omode : Z) : M sys_st (option Z) :=
  if negb (Z.land omode O_CREATE =? 0) then
    ip ← create path T_FILE 0 0;
    if ip =? 0 then end_op;; mret None else mret (Some ip)
  else
    ip ← fs (namei path);
    if ip =? 0 then end_op;; mret None
    else
      fs (ilock ip);;
      i ← get_i ip;
      if (i_type i =? T_DIR) && negb (omode =? O_RDONLY) then fs (iunlockput ip);; end_op;; mret None
      else mret (Some ip).

Definition sys_open (um : usermem) : M sys_st Z :=
  omode ← argint 1;
  path ← argstr um 0 MAXPATH;
  match path with
  | None => mret (-1)
  | Some path =>
      begin_op;;
      o ← open_inode path omode;
      match o with
      | None => mret (-1)
      | Some ip =>
          i ← get_i ip;
          if (i_type i =? T_DEVICE) && ((i_major i <? 0) || (NDEV <=? i_major i)) then fs (iunlockput ip);; end_op;; mret (-1)
          else
            f ← in_ft filealloc;
            fd ← (if f =? 0 then mret (-1) else fdalloc f);
            if (f =? 0) || (fd <? 0) then
              (if negb (f =? 0) then in_ft (fileclose f) else mret tt);;
              fs (iunlockput ip);;
              end_op;;
              mret (-1)
            else
              (if i_type i =? T_DEVICE then in_ft (upd_file f (fun fl => set_flmajor (i_major i) (set_fltype FD_DEVICE fl)))
               else in_ft (upd_file f (fun fl => set_floff 0 (set_fltype FD_INODE fl))));;
              in_ft (upd_file f (set_flip ip));;
              in_ft (upd_file f (set_flrw (if Z.land omode O_WRONLY =? 0 then 1 else 0)
                                          (if negb (Z.land omode O_WRONLY =? 0) || negb (Z.land omode O_RDWR =? 0) then 1 else 0)));;
              (if negb (Z.land omode O_TRUNC =? 0) && (i_type i =? T_FILE) then fs (itrunc ip) else mret tt);;
              fs (iunlock ip);;
              end_op;;
              mret fd
      end
  end.

Definition sys_mkdir (um : usermem) : M sys_st Z :=
  begin_op;;
  path ← argstr um 0 MAXPATH;
  ip ← (match path with None => mret 0 | Some path => create path T_DIR 0 0 end);
  if ip =? 0 then end_op;; mret (-1)
  else fs (iunlockput ip);; end_op;; mret 0.

Definition sys_mknod (um : usermem) : M sys_st Z :=
  begin_op;;
  major ← argint 1;
  minor ← argint 2;
  path ← argstr um 0 MAXPATH;
  ip ← (match path with None => mret 0 | Some path => create path T_DEVICE major minor end);
  if ip =? 0 then end_op;; mret (-1)
  else fs (iunlockput ip);; end_op;; mret 0.

Definition set_cwd (ip : Z) : M sys_st unit :=
  fs (modify (fun s => mkFs (f_store s) (f_sb s) (it_lock s) (it_inode s) ip)).

Definition sys_chdir (um : usermem) : M sys_st Z :=
  begin_op;;
  path ← argstr um 0 MAXPATH;
  ip ← (match path with None => mret 0 | Some path => fs (namei path) end);
  if ip =? 0 then end_op;; mret (-1)
  else
    fs (ilock ip);;
    i ← get_i ip;
    if negb (i_type i =? T_DIR) then fs (iunlockput ip);; end_op;; mret (-1)
    else
      fs (iunlock ip);;
      cwd ← fs (gets f_cwd);
      fs (iput cwd);;
      end_op;;
      set_cwd ip;;
      mret 0.

(** The entries of [syscalls[]] that sysfile.c defines, [sys_exec] aside. *)
Definition file_call (um : usermem) (num : Z) : option (M sys_st Z) :=
  if num =? 4 then Some (sys_pipe um)
  else if num =? 5 then Some (sys_read um)
  else if num =? 8 then Some (sys_fstat um)
  else if num =? 9 then Some (sys_chdir um)
  else if num =? 10 then Some sys_dup
  else if num =? 15 then Some (sys_open um)
  else if num =? 16 then Some (sys_write um)
  else if num =? 17 then Some (sys_mknod um)
  else if num =? 18 then Some (sys_unlink um)
  else if num =? 19 then Some (sys_link um)
  else if num =? 20 then Some (sys_mkdir um)
  else if num =? 21 then Some sys_close
  else None.

(** ** Open files of new and dying processes *)

(** [for(i = 0; i < NOFILE; i++) if(p->ofile[i]) np->ofile[i] = filedup(p->ofile[i]);] *)
Fixpoint fork_loop (l : list Z) (i np : nat) : M sys_st unit :=
  match l with
  | [] => mret tt
  | f :: l =>
      (if negb (f =? 0) then
         f' ← in_ft (filedup f);
         modify (fun s => set_sy_ofile (alter (fun t => <[i := f']> t) np (sy_ofile s)) s)
       else mret tt);;
      fork_loop l (S i) np
  end.
Definition fork_files (np : nat) : M sys_st unit := l ← my_ofile; fork_loop l 0 np.

(** [for(int fd = 0; fd < NOFILE; fd++) if(p->ofile[fd]){ fileclose(f); p->ofile[fd] = 0; }] *)
Fixpoint exit_loop (n : nat) (fd : Z) : M sys_st unit :=
  match n with
  | O => mret tt
  | S n =>
      l ← my_ofile;
      f ← arr_get l fd;
      (if negb (f =? 0) then in_ft (fileclose f);; clear_fd fd else mret tt);;
      exit_loop n (fd + 1)
  end.
Definition exit_files : M sys_st unit := exit_loop (Z.to_nat NOFILE) 0.

End Sysfile.
Arguments sys_st T U : clear implicits.
