(* ===== verification/SysfileProof.v ===== *)
(** * Counting file descriptors

    Between system calls the [ref] of every open file is the number of
    descriptors, over all processes, that hold it.  Inside a call a reference
    may be held by a local variable, or a descriptor may be ahead of its
    count: [fds d] allows file [f] a difference of [d f]. *)

From Stdlib Require Import ZArith Lia Bool String.
From stdpp Require Import base gmap list strings.
From S2P Require Import Prelude Mem Spinlock Sleeplock Bio Log BlockStore Fs File Sysfile.

(** ** Counting *)

Definition ind (x f : Z) : Z := if decide (x = f) then 1 else 0.

Fixpoint cnt (f : Z) (l : list Z) : Z := match l with [] => 0 | x :: l => ind x f + cnt f l end.
Fixpoint tot (f : Z) (o : list (list Z)) : Z := match o with [] => 0 | l :: o => cnt f l + tot f o end.

Lemma ind_range x f : 0 <= ind x f <= 1.
Proof. unfold ind. destruct (decide _); lia. Qed.

Lemma cnt_nonneg f l : 0 <= cnt f l.
Proof. induction l as [|x l IH]; cbn; [lia|]. pose proof (ind_range x f). lia. Qed.

Lemma tot_nonneg f o : 0 <= tot f o.
Proof. induction o as [|l o IH]; cbn; [lia|]. pose proof (cnt_nonneg f l). lia. Qed.

Lemma cnt_set f l i x y : l !! i = Some x -> cnt f (<[i := y]> l) = cnt f l - ind x f + ind y f.
Proof. revert i. induction l as [|z l IH]; intros [|i]; cbn; [done|done|intros [= ->]; lia|]. intros Hi. rewrite IH by done. lia. Qed.

Lemma tot_set f o p l l' : o !! p = Some l -> tot f (<[p := l']> o) = tot f o - cnt f l + cnt f l'.
Proof. revert p. induction o as [|z o IH]; intros [|p]; cbn; [done|done|intros [= ->]; lia|]. intros Hi. rewrite IH by done. lia. Qed.

Lemma cnt_in f l i : l !! i = Some f -> 1 <= cnt f l.
Proof. revert i. induction l as [|x l IH]; intros [|i]; cbn; [done|done| |].
  - intros [= ->]. unfold ind. rewrite decide_True by done. pose proof (cnt_nonneg f l). lia.
  - intros Hi. specialize (IH i Hi). pose proof (ind_range x f). lia.
Qed.

Lemma tot_in f o p l : o !! p = Some l -> cnt f l <= tot f o.
Proof. revert p. induction o as [|z o IH]; intros [|p]; cbn; [done|done| |].
  - intros [= ->]. pose proof (tot_nonneg f o). lia.
  - intros Hi. specialize (IH p Hi). pose proof (cnt_nonneg f z). lia.
Qed.

(** [f] is counted [k] more. *)
Definition shift (f k : Z) (d : Z -> Z) : Z -> Z := fun g => d g + (if decide (f = g) then k else 0).
Definition even : Z -> Z := fun _ => 0.

(** ** What the file table relies on *)

(** The cache hands out objects nobody holds; nothing else touches them. *)
Class FileCache (U : Type) {FD : FileDev U} {PM : PipeMem U} := {
  fc_owned : U -> gset Z -> Prop;
  fc_alloc u H c : fc_owned u H -> wlp (fd_cache_alloc c) (fun f u' => (f = 0 /\ fc_owned u' H) \/ (f <> 0 /\ f ∉ H /\ fc_owned u' ({[f]} ∪ H))) u;
  fc_free u H c f : fc_owned u H -> f ∈ H -> wlp (fd_cache_free c f) (fun _ u' => fc_owned u' (H ∖ {[f]})) u;
  fc_pipeclose u H p w : fc_owned u H -> wlp (fd_pipeclose p w) (fun _ u' => fc_owned u' H) u;
  fc_piperead u H p cout n : fc_owned u H -> wlp (fd_piperead p cout n) (fun _ u' => fc_owned u' H) u;
  fc_pipewrite u H p cin n : fc_owned u H -> wlp (fd_pipewrite p cin n) (fun _ u' => fc_owned u' H) u;
  fc_devread u H k rd cout n : fc_owned u H -> fd_devread k = Some rd -> wlp (rd cout n) (fun _ u' => fc_owned u' H) u;
  fc_devwrite u H k wr cin n : fc_owned u H -> fd_devwrite k = Some wr -> wlp (wr cin n) (fun _ u' => fc_owned u' H) u;
  fc_pipe_cache u H : fc_owned u H -> wlp pm_cache_create (fun _ u' => fc_owned u' H) u;
  fc_pipe_alloc u H c : fc_owned u H -> wlp (pm_cache_alloc c) (fun _ u' => fc_owned u' H) u;
  fc_pipe_free u H c p : fc_owned u H -> wlp (pm_cache_free c p) (fun _ u' => fc_owned u' H) u;
  fc_kmalloc u H n : fc_owned u H -> wlp (pm_kmalloc n) (fun _ u' => fc_owned u' H) u;
  fc_kfree u H a : fc_owned u H -> wlp (pm_kfree a) (fun _ u' => fc_owned u' H) u;
  fc_set_data u H p a : fc_owned u H -> wlp (pm_set_data p a) (fun _ u' => fc_owned u' H) u;
  fc_init u H p : fc_owned u H -> wlp (pm_init p) (fun _ u' => fc_owned u' H) u
}.

Create HintDb quiet.
Create HintDb keeps.

Section Fds.
Context {T : Type} `{HM : HasMach T} {BO : BlockOps T} {U : Type} {FD : FileDev U} {PM : PipeMem U} {FC : FileCache U}.

Definition files (s : sys_st T U) : gmap Z file := ft_files (sy_ft s).

(** Every file has the references it counts, give or take [d]; every
    descriptor is a file; the file cache holds exactly the files. *)
Record fds (d : Z -> Z) (s : sys_st T U) : Prop := {
  d_rows : forall p l, sy_ofile s !! p = Some l -> length l = 16%nat;
  d_files : forall f fl, files s !! f = Some fl -> f <> 0 /\ 1 <= fl_ref fl /\ fl_ref fl = tot f (sy_ofile s) + d f;
  d_slots : forall f, f <> 0 -> files s !! f = None -> tot f (sy_ofile s) + d f = 0;
  d_owned : fc_owned (ft_dev (sy_ft s)) (dom (files s))
}.

(** The calling process and all descriptors are the same. *)
Definition still (s s' : sys_st T U) : Prop := sy_cur s' = sy_cur s /\ sy_ofile s' = sy_ofile s.

(** The state inside a call that began, or last changed descriptors, in [s0]. *)
Definition J (d : Z -> Z) (s0 s : sys_st T U) : Prop := fds d s /\ still s0 s.

Lemma fds_ext d d' s : (forall g, d g = d' g) -> fds d s -> fds d' s.
Proof. intros E [H1 H2 H3 H4]. split; [done| | |done]; intros f; rewrite <- E; auto. Qed.

Lemma J_start d s : fds d s -> J d s s.
Proof. by split. Qed.

Lemma J_ext d d' s0 s : (forall g, d g = d' g) -> J d s0 s -> J d' s0 s.
Proof. intros E [H1 H2]. split; [by eapply fds_ext|done]. Qed.

(** A change of the file table that keeps the counts. *)
Lemma J_ft d s0 s ft : J d s0 s -> (forall f, fl_ref <$> ft_files ft !! f = fl_ref <$> files s !! f) -> fc_owned (ft_dev ft) (dom (files s)) -> J d s0 (set_sy_ft ft s).
Proof.
  intros [[H1 H2 H3 H4] H5] HF HO. assert (files (set_sy_ft ft s) = ft_files ft) as EF by done.
  assert (dom (ft_files ft) = dom (files s)) as ED.
  { apply set_eq. intros f. rewrite !elem_of_dom, <- !(fmap_is_Some fl_ref). by rewrite HF. }
  split; [split; rewrite ?EF|done]; [done| | |by rewrite ED].
  - intros f fl Hf. specialize (HF f). rewrite Hf in HF. destruct (files s !! f) as [fl'|] eqn:E; [|done]. injection HF as ->. by apply (H2 f fl').
  - intros f Hf Hn. apply H3; [done|]. specialize (HF f). rewrite Hn in HF. by destruct (files s !! f).
Qed.

Lemma wlp_fs {X} (c : M (fs_st T) X) d s0 s Q : J d s0 s -> (forall a s', J d s0 s' -> Q a s') -> wlp (fs c) Q s.
Proof.
  intros H HQ. unfold fs, in_ft. apply wlp_zoom. intros a ft E. apply HQ.
  assert (ft_files ft = ft_files (sy_ft s) /\ ft_dev ft = ft_dev (sy_ft s)) as [E1 E2].
  { unfold in_fs, zoom in E. destruct (c (ft_fs (sy_ft s))) as [[b t]| | | |]; try done. by injection E as <- <-. }
  apply J_ft; [done|by rewrite E1|rewrite E2; apply H].
Qed.

Lemma wlp_dev {X} (c : M U X) d s0 s Q : J d s0 s -> (forall u H, fc_owned u H -> wlp c (fun _ u' => fc_owned u' H) u) -> (forall a s', J d s0 s' -> Q a s') -> wlp (dev c) Q s.
Proof.
  intros H Hc HQ. unfold dev, in_ft. apply wlp_zoom. intros a ft E. apply HQ. unfold in_dev, zoom in E.
  pose proof (Hc _ _ (d_owned _ _ (proj1 H))) as Hw. unfold wlp in Hw. destruct (c (ft_dev (sy_ft s))) as [[b t]| | | |]; try done. injection E as <- <-.
  by apply J_ft.
Qed.

(** ** The file table, seen as its files and the cache below it *)

Definition wlpf {X} (c : M (ft_st T U) X) (Q : X -> gmap Z file -> U -> Prop) (g : gmap Z file) (u : U) : Prop :=
  forall s, ft_files s = g -> ft_dev s = u -> wlp c (fun a s' => Q a (ft_files s') (ft_dev s')) s.

Lemma wlpf_bind {X Y} (c : M (ft_st T U) X) (k : X -> M (ft_st T U) Y) Q g u : wlpf c (fun a => wlpf (k a) Q) g u -> wlpf (c ≫= k) Q g u.
Proof. intros H s Eg Eu. apply wlp_bind. specialize (H s Eg Eu). eapply wlp_mono; [exact H|]. intros a s' Hk. exact (Hk s' eq_refl eq_refl). Qed.

Lemma wlpf_ret {X} (a : X) (Q : X -> gmap Z file -> U -> Prop) g u : Q a g u -> wlpf (mret a) Q g u.
Proof. by intros H s <- <-. Qed.

Lemma wlpf_panic {X} msg (Q : X -> gmap Z file -> U -> Prop) g u : wlpf (panic msg) Q g u.
Proof. by intros s _ _. Qed.

Lemma wlpf_mono {X} (c : M (ft_st T U) X) (Q R : X -> gmap Z file -> U -> Prop) g u : wlpf c Q g u -> (forall a g' u', Q a g' u' -> R a g' u') -> wlpf c R g u.
Proof. intros H HQ s Eg Eu. eapply wlp_mono; [by apply H|]. cbn. auto. Qed.

Lemma wlpf_lock Q g u : Q tt g u -> wlpf (acquire_in ft_lock set_ft_lock) Q g u /\ wlpf (release_in ft_lock set_ft_lock) Q g u.
Proof.
  intros HQ. split; intros s <- <-; unfold wlp, acquire_in, release_in.
  - destruct (acquire _ _) as [[lk h]| | | |]; try done.
  - destruct (release _ _) as [[lk h]| | | |]; try done.
Qed.

Lemma wlpf_fs {X} (c : M (fs_st T) X) (Q : X -> gmap Z file -> U -> Prop) g u : (forall a, Q a g u) -> wlpf (in_fs c) Q g u.
Proof. intros H s <- <-. apply wlp_zoom. intros a t _. by apply H. Qed.

Lemma wlpf_dev {X} (c : M U X) (Q : X -> gmap Z file -> U -> Prop) g u : wlp c (fun a u' => Q a g u') u -> wlpf (in_dev c) Q g u.
Proof. intros H s <- <-. apply wlp_zoom. intros a t E. exact (proj1 (wlp_run _ _ _) H a t E). Qed.

Lemma wlpf_cache (Q : Z -> gmap Z file -> U -> Prop) g u : (forall c, Q c g u) -> wlpf (gets ft_cache) Q g u.
Proof. intros H s <- <-. apply wlp_gets. by apply H. Qed.

Lemma wlpf_get f (Q : file -> gmap Z file -> U -> Prop) g u : (forall fl, g !! f = Some fl -> Q fl g u) -> wlpf (get_file f) Q g u.
Proof. intros H s <- <-. unfold get_file. wlp_step. wlp_step. destruct (ft_files s !! f) eqn:E; [|exact I]. apply wlp_ret. by apply H. Qed.

Lemma wlpf_upd f h (Q : unit -> gmap Z file -> U -> Prop) g u : (forall fl, g !! f = Some fl -> Q tt (<[f := h fl]> g) u) -> wlpf (upd_file f h) Q g u.
Proof. intros H. unfold upd_file. apply wlpf_bind, wlpf_get. intros fl Hf s <- <-. apply wlp_modify. by apply H. Qed.

Lemma wlpf_files h (Q : unit -> gmap Z file -> U -> Prop) g u : Q tt (h g) u -> wlpf (modify (fun s => set_ft_files (h (ft_files s)) s)) Q g u.
Proof. intros H s <- <-. by apply wlp_modify. Qed.

Lemma wlpf_if {X} (b : bool) (c1 c2 : M (ft_st T U) X) (Q : X -> gmap Z file -> U -> Prop) g u :
  (b = true -> wlpf c1 Q g u) -> (b = false -> wlpf c2 Q g u) -> wlpf (if b then c1 else c2) Q g u.
Proof. destruct b; auto. Qed.

Lemma v_filealloc g u : fc_owned u (dom g) ->
  wlpf filealloc (fun f g' u' => fc_owned u' (dom g') /\ ((f = 0 /\ g' = g) \/ (f <> 0 /\ g !! f = None /\ g' = <[f := set_flref 1 zero_file]> g))) g u.
Proof.
  intros HO. unfold filealloc. apply wlpf_bind, wlpf_lock, wlpf_bind, wlpf_cache. intros c. apply wlpf_bind, wlpf_dev.
  eapply wlp_mono; [by apply fc_alloc|]. intros f u' [[-> HO']|(Hf & Hn & HO')].
  - cbn [Z.eqb negb]. apply wlpf_bind, wlpf_ret, wlpf_bind, wlpf_lock, wlpf_ret. auto.
  - replace (f =? 0) with false by lia. cbn [negb]. apply wlpf_bind, wlpf_bind, (wlpf_files (fun m => <[f := zero_file]> m)), wlpf_upd. intros fl Hfl.
    rewrite lookup_insert_eq in Hfl. injection Hfl as <-. rewrite insert_insert_eq. apply wlpf_bind, wlpf_lock, wlpf_ret. split; [by rewrite dom_insert_L|].
    right. split_and!; [done|by apply not_elem_of_dom|done].
Qed.

Lemma v_filedup f g u : wlpf (filedup f) (fun r g' u' => r = f /\ u' = u /\ exists fl, g !! f = Some fl /\ g' = <[f := set_flref (fl_ref fl + 1) fl]> g) g u.
Proof.
  unfold filedup. apply wlpf_bind, wlpf_lock, wlpf_bind, wlpf_get. intros fl Hf. apply wlpf_bind, wlpf_if; intros _; [apply wlpf_panic|apply wlpf_ret].
  apply wlpf_bind, wlpf_upd. intros fl' Hf'. rewrite Hf in Hf'. injection Hf' as <-. apply wlpf_bind, wlpf_lock, wlpf_ret. eauto.
Qed.

Lemma v_fileclose f g u : fc_owned u (dom g) ->
  wlpf (fileclose f) (fun _ g' u' => fc_owned u' (dom g') /\ exists fl, g !! f = Some fl /\
     ((1 < fl_ref fl /\ g' = <[f := set_flref (fl_ref fl - 1) fl]> g) \/ (fl_ref fl = 1 /\ g' = delete f g))) g u.
Proof.
  intros HO. unfold fileclose. apply wlpf_bind, wlpf_lock, wlpf_bind, wlpf_get. intros fl Hf. apply wlpf_bind, wlpf_if; intros Er; [apply wlpf_panic|apply wlpf_ret].
  apply wlpf_bind, wlpf_upd. intros fl' Hf'. rewrite Hf in Hf'. injection Hf' as <-. assert (dom g ∪ {[f]} = dom g) as Hd by (apply elem_of_dom_2 in Hf; set_solver).
  apply wlpf_if; intros E0.
  - apply wlpf_lock. split; [rewrite dom_insert_L; by rewrite (union_comm_L {[f]}), Hd|]. exists fl. split; [done|]. left. split; [lia|done].
  - apply wlpf_bind, wlpf_get. intros ff Hff. apply wlpf_bind, wlpf_upd. intros f1 H1. apply wlpf_bind, wlpf_upd. intros f2 H2. apply wlpf_bind, wlpf_lock, wlpf_bind.
    set (g2 := <[f := _]> _).
    apply (wlpf_mono _ (fun _ g' u' => g' = g2 /\ fc_owned u' (dom g))).
    + unfold close_end. destruct (fl_type ff); [by apply wlpf_ret| | |].
      * apply wlpf_dev. eapply wlp_mono; [by apply fc_pipeclose|]. auto.
      * apply wlpf_bind, wlpf_fs. intros _. apply wlpf_bind, wlpf_fs. intros _. by apply wlpf_fs.
      * apply wlpf_bind, wlpf_fs. intros _. apply wlpf_bind, wlpf_fs. intros _. by apply wlpf_fs.
    + intros _ g' u' [-> HO']. apply wlpf_bind, wlpf_cache. intros c. apply wlpf_bind, wlpf_dev. eapply wlp_mono; [apply fc_free; [exact HO'|by apply elem_of_dom_2 in Hf]|].
      intros [] u2 HO2. apply (wlpf_files (delete f)). unfold g2. rewrite !delete_insert_eq. split; [by rewrite dom_delete_L|]. exists fl. split; [done|]. right. split; [lia|done].
Qed.

(** ** The file table below the descriptors *)

Lemma wlp_ft {X} (c : M (ft_st T U) X) R s (Q : X -> sys_st T U -> Prop) : wlpf c R (files s) (ft_dev (sy_ft s)) ->
  (forall a ft, R a (ft_files ft) (ft_dev ft) -> Q a (set_sy_ft ft s)) -> wlp (in_ft c) Q s.
Proof. intros H HQ. apply wlp_zoom. intros a ft E. apply HQ. exact (proj1 (wlp_run _ _ _) (H _ eq_refl eq_refl) a ft E). Qed.

Lemma fds_filealloc d s0 s (Q : Z -> sys_st T U -> Prop) : J d s0 s ->
  (forall s', J d s0 s' -> Q 0 s') -> (forall f s', f <> 0 -> J (shift f 1 d) s0 s' -> Q f s') -> wlp (in_ft filealloc) Q s.
Proof.
  intros [[H1 H2 H3 H4] H5] Q0 Q1. eapply wlp_ft; [by apply v_filealloc|]. intros f ft [HO [[-> E]|(Hf & Hn & E)]].
  - apply Q0, J_ft; [done| |]; [by rewrite E|by rewrite <- E].
  - apply Q1; [done|]. split; [|done]. split; [done| | |done]; unfold files, shift; cbn; rewrite E; intros g.
    + intros fl Hg. destruct (decide (f = g)) as [->|Hne].
      * rewrite lookup_insert_eq in Hg. injection Hg as <-. cbn. specialize (H3 g Hf Hn). lia.
      * rewrite lookup_insert_ne in Hg by done. rewrite Z.add_0_r. by apply H2.
    + intros Hg Hn'. apply lookup_insert_None in Hn' as [Hn' Hne]. rewrite decide_False, Z.add_0_r by done. by apply H3.
Qed.

(** The reference count of [f] changes by [k]. *)
Lemma fds_ref d s0 s f k fl ft : J d s0 s -> files s !! f = Some fl -> 1 <= fl_ref fl + k -> ft_files ft = <[f := set_flref (fl_ref fl + k) fl]> (files s) ->
  fc_owned (ft_dev ft) (dom (ft_files ft)) -> J (shift f k d) s0 (set_sy_ft ft s).
Proof.
  intros [[H1 H2 H3 H4] H5] Hf Hk E HO. split; [|done]. split; [done| | |done]; unfold files, shift; cbn; rewrite E; intros g.
  - intros fl' Hg. destruct (decide (f = g)) as [->|Hne].
    + rewrite lookup_insert_eq in Hg. injection Hg as <-. cbn. specialize (H2 g fl Hf). lia.
    + rewrite lookup_insert_ne in Hg by done. rewrite Z.add_0_r. by apply H2.
  - intros Hg Hn'. apply lookup_insert_None in Hn' as [Hn' Hne]. rewrite decide_False, Z.add_0_r by done. by apply H3.
Qed.

Lemma fds_filedup f d s0 s (Q : Z -> sys_st T U -> Prop) : J d s0 s -> (forall s', J (shift f 1 d) s0 s' -> Q f s') -> wlp (in_ft (filedup f)) Q s.
Proof.
  intros HJ HQ. eapply wlp_ft; [apply v_filedup|]. intros r ft (-> & Eu & fl & Hf & E). apply HQ. destruct (d_files _ _ (proj1 HJ) f fl Hf) as (_ & Hr & _).
  eapply fds_ref; [done|done|lia|done|]. rewrite E, Eu, dom_insert_lookup_L by done. apply HJ.
Qed.

Lemma fds_fileclose f d s0 s (Q : unit -> sys_st T U -> Prop) : J d s0 s -> (forall s', J (shift f (-1) d) s0 s' -> Q tt s') -> wlp (in_ft (fileclose f)) Q s.
Proof.
  intros HJ HQ. eapply wlp_ft; [apply v_fileclose, (d_owned _ _ (proj1 HJ))|]. intros [] ft (HO & fl & Hf & HC). apply HQ. destruct HC as [[Hr E]|[Hr E]].
  - eapply fds_ref; [done|done|lia|done|done].
  - destruct HJ as [[H1 H2 H3 H4] H5]. split; [|done]. split; [done| | |done]; unfold files, shift; cbn; rewrite E; intros g.
    + intros fl' Hg. apply lookup_delete_Some in Hg as [Hne Hg]. rewrite decide_False, Z.add_0_r by done. by apply H2.
    + intros Hg Hn. destruct (decide (f = g)) as [->|Hne]; [specialize (H2 g fl Hf); lia|]. rewrite lookup_delete_ne in Hn by done. rewrite Z.add_0_r. by apply H3.
Qed.

(** ** Descriptors *)

(** Descriptor [fd] of the calling process holds [x]. *)
Definition slot (s : sys_st T U) (fd x : Z) : Prop := 0 <= fd /\ exists l, sy_ofile s !! sy_cur s = Some l /\ l !! Z.to_nat fd = Some x.

Lemma still_slot s s' fd x : still s s' -> slot s fd x -> slot s' fd x.
Proof. intros [E1 E2]. unfold slot. by rewrite E1, E2. Qed.

Definition put_slot (p : nat) (i : nat) (x : Z) (s : sys_st T U) : sys_st T U := set_sy_ofile (alter (fun t => <[i := x]> t) p (sy_ofile s)) s.

Lemma alter_row p i x (o : list (list Z)) l : o !! p = Some l -> alter (fun t => <[i := x]> t) p o = <[p := <[i := x]> l]> o.
Proof. revert p. induction o as [|t o IH]; intros [|p] H; [done|done|by injection H as ->|]. cbn in *. f_equal. by apply IH. Qed.

(** Process [p]'s descriptor [i] changes from [x] to [y]. *)
Lemma fds_slot d p l i x y s : fds d s -> sy_ofile s !! p = Some l -> l !! i = Some x -> fds (shift x 1 (shift y (-1) d)) (put_slot p i y s).
Proof.
  intros [H1 H2 H3 H4] Hp Hi. assert (forall f, tot f (sy_ofile (put_slot p i y s)) + shift x 1 (shift y (-1) d) f = tot f (sy_ofile s) + d f) as E.
  { intros f. unfold put_slot, shift. cbn. rewrite (alter_row p i y _ l Hp), (tot_set f _ p l) by done. rewrite (cnt_set f l i x y Hi). unfold ind. destruct (decide (x = f)), (decide (y = f)); lia. }
  split; [| | |done].
  - intros q l' Hq. cbn in Hq. rewrite (alter_row p i y _ l Hp) in Hq. apply list_lookup_insert_Some in Hq as [(-> & <- & _)|[_ Hq]]; [rewrite length_insert|]; eauto.
  - intros f fl Hf. rewrite E. by apply H2.
  - intros f Hf Hn. rewrite E. by apply H3.
Qed.

Lemma fds_ext0 d d' s : (forall g, g <> 0 -> d g = d' g) -> fds d s -> fds d' s.
Proof. intros E [H1 H2 H3 H4]. split; [done| | |done]; intros f ? ?; [|rewrite <- E by done; auto]. rewrite <- E; [eauto|]. by eapply H2. Qed.

(** ** Code that keeps every count *)

Definition keeps {X} (c : M (ft_st T U) X) : Prop := forall g u, fc_owned u (dom g) ->
  wlpf c (fun _ g' u' => (forall f, fl_ref <$> g' !! f = fl_ref <$> g !! f) /\ fc_owned u' (dom g')) g u.

Lemma keeps_bind {X Y} (c : M (ft_st T U) X) (k : X -> M (ft_st T U) Y) : keeps c -> (forall a, keeps (k a)) -> keeps (c ≫= k).
Proof.
  intros H1 H2 g u HO. apply wlpf_bind. eapply wlpf_mono; [by apply H1|]. intros a g1 u1 [E HO1]. eapply wlpf_mono; [by apply H2|].
  intros b g2 u2 [E2 HO2]. split; [|done]. intros f. by rewrite E2, E.
Qed.

Lemma keeps_ret {X} (a : X) : keeps (mret a).
Proof. intros g u HO. by apply wlpf_ret. Qed.

Lemma keeps_panic {X} msg : keeps (panic msg : M (ft_st T U) X).
Proof. intros g u HO. apply wlpf_panic. Qed.

Lemma keeps_fuel {X} : keeps (out_of_fuel : M (ft_st T U) X).
Proof. by intros g u HO s _ _. Qed.

Lemma keeps_fs {X} (c : M (fs_st T) X) : keeps (in_fs c).
Proof. intros g u HO. by apply wlpf_fs. Qed.

Lemma keeps_dev {X} (c : M U X) : (forall u H, fc_owned u H -> wlp c (fun _ u' => fc_owned u' H) u) -> keeps (in_dev c).
Proof. intros Hc g u HO. apply wlpf_dev. eapply wlp_mono; [by apply Hc|]. auto. Qed.

Lemma keeps_get f : keeps (get_file f).
Proof. intros g u HO. by apply wlpf_get. Qed.

Lemma keeps_upd f h : (forall fl, fl_ref (h fl) = fl_ref fl) -> keeps (upd_file f h).
Proof.
  intros Hh g u HO. apply wlpf_upd. intros fl Hf. split; [|by rewrite dom_insert_lookup_L].
  intros f'. destruct (decide (f = f')) as [->|]; [rewrite lookup_insert_eq, Hf; cbn; by rewrite Hh|by rewrite lookup_insert_ne].
Qed.

#[local] Hint Resolve keeps_bind keeps_ret keeps_panic keeps_fuel keeps_fs keeps_get : keeps.
#[local] Hint Extern 1 (keeps (upd_file _ _)) => apply keeps_upd; reflexivity : keeps.
#[local] Hint Extern 2 (keeps (in_dev _)) => apply keeps_dev; intros; eauto using fc_pipeclose, fc_piperead, fc_pipewrite, fc_devread, fc_devwrite : keeps.
#[local] Hint Extern 3 (keeps (match ?x with _ => _ end)) => destruct x eqn:? : keeps.

Lemma keeps_fileread f cout n : keeps (fileread f cout n).
Proof. unfold fileread. auto 20 with keeps. Qed.

Lemma keeps_filestat f cout : keeps (filestat f cout).
Proof. unfold filestat. auto 20 with keeps. Qed.

Lemma keeps_filewrite f cin n : keeps (filewrite f cin n).
Proof.
  unfold filewrite. assert (forall fuel i, keeps (filewrite_loop fuel f cin n i)) as HL.
  { induction fuel as [|fuel IH]; intros i; cbn [filewrite_loop]; auto 20 with keeps. }
  auto 20 with keeps.
Qed.

(** The same for the calls. *)
Definition quiet {X} (c : M (sys_st T U) X) : Prop := forall d s0 s, J d s0 s -> wlp c (fun _ s' => J d s0 s') s.

Lemma quiet_bind {X Y} (c : M (sys_st T U) X) (k : X -> M (sys_st T U) Y) : quiet c -> (forall a, quiet (k a)) -> quiet (c ≫= k).
Proof. intros H1 H2 d s0 s HJ. apply wlp_bind. eapply wlp_mono; [by apply H1|]. intros a s' HJ'. by apply H2. Qed.

Lemma quiet_ft {X} (c : M (ft_st T U) X) : keeps c -> quiet (in_ft c).
Proof.
  intros Hc d s0 s HJ. eapply wlp_ft; [apply Hc, (d_owned _ _ (proj1 HJ))|]. intros a ft [E HO]. apply J_ft; [done|done|].
  replace (dom (files s)) with (dom (ft_files ft)); [done|]. apply set_eq. intros f. rewrite !elem_of_dom, <- !(fmap_is_Some fl_ref). by rewrite E.
Qed.

Lemma quiet_fs {X} (c : M (fs_st T) X) : quiet (fs c).
Proof. intros d s0 s HJ. by eapply wlp_fs. Qed.

Lemma quiet_dev {X} (c : M U X) : (forall u H, fc_owned u H -> wlp c (fun _ u' => fc_owned u' H) u) -> quiet (dev c).
Proof. intros Hc d s0 s HJ. by eapply wlp_dev. Qed.

Lemma quiet_ret {X} (a : X) : quiet (mret a).
Proof. by intros d s0 s HJ. Qed.

Lemma quiet_panic {X} msg : quiet (panic msg : M (sys_st T U) X).
Proof. by intros d s0 s HJ. Qed.

Lemma quiet_fault {X} msg : quiet (fault msg : M (sys_st T U) X).
Proof. by intros d s0 s HJ. Qed.

Lemma quiet_get : quiet get.
Proof. by intros d s0 s HJ. Qed.

Lemma quiet_gets {X} (h : sys_st T U -> X) : quiet (gets h).
Proof. by intros d s0 s HJ. Qed.

Lemma quiet_arr_get {X} (l : list X) i : quiet (arr_get l i).
Proof. intros d s0 s HJ. unfold arr_get, wlp. destruct (_ && _); [|done]. by destruct (_ !! _). Qed.

Lemma quiet_set_cache c : quiet (modify (set_sy_cache c)).
Proof. intros d s0 s [[H1 H2 H3 H4] H5]. by split. Qed.

End Fds.

#[export] Hint Resolve quiet_ft keeps_fileread keeps_filewrite keeps_filestat quiet_bind quiet_fs quiet_ret quiet_panic quiet_fault quiet_get quiet_gets quiet_arr_get quiet_set_cache : quiet.
#[export] Hint Extern 1 (keeps (upd_file _ _)) => apply keeps_upd; reflexivity : quiet.
#[export] Hint Extern 2 (quiet (dev _)) => apply quiet_dev; intros; eauto using fc_pipe_cache, fc_pipe_alloc, fc_pipe_free, fc_kmalloc, fc_kfree, fc_set_data, fc_init : quiet.
#[export] Hint Extern 3 (quiet (match ?x with _ => _ end)) => destruct x eqn:? : quiet.
