(* ===== verification/SysfileThms.v ===== *)
(** * The system-call layer: open files and descriptors

    [step] is one system call, fork or exit of some process; [descriptors_counted]
    is the invariant that holds between them. *)

From Stdlib Require Import ZArith Lia Bool String.
From stdpp Require Import base gmap list strings relations.
From S2P Require Import Prelude Mem Spinlock Sleeplock Bio Log BlockStore Fs File Sysfile SysfileProof.

Section Calls.
Context {T : Type} `{HM : HasMach T} {BO : BlockOps T} {U : Type} {FD : FileDev U} {PM : PipeMem U} {FC : FileCache U}.

#[local] Abbreviation calm := (quiet (T := T) (U := U)).

(** ** Calls that keep every descriptor *)

Lemma quiet_argraw n : calm (argraw n).
Proof. unfold argraw. auto 10 with quiet. Qed.
#[local] Hint Resolve quiet_argraw : quiet.

Lemma quiet_argint n : calm (argint n).
Proof. unfold argint. auto 10 with quiet. Qed.
#[local] Hint Resolve quiet_argint : quiet.

Lemma quiet_argaddr n : calm (argaddr n).
Proof. apply quiet_argraw. Qed.
#[local] Hint Resolve quiet_argaddr : quiet.

Lemma quiet_argstr um n max : calm (argstr um n max).
Proof. unfold argstr. auto 10 with quiet. Qed.

Lemma quiet_my_ofile : calm my_ofile.
Proof. unfold my_ofile. auto 10 with quiet. Qed.
#[local] Hint Resolve quiet_my_ofile quiet_argstr : quiet.

Lemma quiet_argfd n : calm (argfd n).
Proof. unfold argfd. auto 10 with quiet. Qed.
#[local] Hint Resolve quiet_argfd : quiet.

Lemma quiet_sys_read um : calm (sys_read um).
Proof. unfold sys_read. auto 20 with quiet. Qed.

Lemma quiet_sys_write um : calm (sys_write um).
Proof. unfold sys_write. auto 20 with quiet. Qed.

Lemma quiet_sys_fstat um : calm (sys_fstat um).
Proof. unfold sys_fstat. auto 20 with quiet. Qed.

Lemma quiet_sys_link um : calm (sys_link um).
Proof. unfold sys_link, link_bad, begin_op, end_op, get_i. auto 60 with quiet. Qed.

Lemma quiet_isdirempty dp : calm (isdirempty dp).
Proof.
  unfold isdirempty, get_i. assert (forall fuel off, calm (isdirempty_loop fuel dp off)) as HL.
  { induction fuel as [|fuel IH]; intros off; cbn [isdirempty_loop]; unfold get_i; auto 20 with quiet. }
  auto 20 with quiet.
Qed.
#[local] Hint Resolve quiet_isdirempty : quiet.

Lemma quiet_sys_unlink um : calm (sys_unlink um).
Proof. unfold sys_unlink, unlink_bad, begin_op, end_op, get_i. auto 60 with quiet. Qed.

Lemma quiet_create path type major minor : calm (create path type major minor).
Proof. unfold create, create_fail, get_i. auto 60 with quiet. Qed.
#[local] Hint Resolve quiet_create : quiet.

Lemma quiet_open_inode path omode : calm (open_inode path omode).
Proof. unfold open_inode, end_op, get_i. auto 60 with quiet. Qed.

Lemma quiet_sys_mkdir um : calm (sys_mkdir um).
Proof. unfold sys_mkdir, begin_op, end_op. auto 60 with quiet. Qed.

Lemma quiet_sys_mknod um : calm (sys_mknod um).
Proof. unfold sys_mknod, begin_op, end_op. auto 60 with quiet. Qed.

Lemma quiet_sys_chdir um : calm (sys_chdir um).
Proof. unfold sys_chdir, set_cwd, begin_op, end_op, get_i. auto 60 with quiet. Qed.

#[local] Hint Resolve quiet_open_inode quiet_sys_read quiet_sys_write quiet_sys_fstat quiet_sys_link quiet_sys_unlink quiet_sys_mkdir quiet_sys_mknod quiet_sys_chdir : quiet.

(** ** Descriptors *)

Lemma wlp_my_ofile (Q : list Z -> sys_st T U -> Prop) s : (forall l, sy_ofile s !! sy_cur s = Some l -> Q l s) -> wlp my_ofile Q s.
Proof. intros H. unfold my_ofile. apply wlp_bind. cbn. destruct (sy_ofile s !! sy_cur s) eqn:E; [by apply wlp_ret, H|exact I]. Qed.

Lemma wlp_slot fd (Q : Z -> sys_st T U -> Prop) l s : sy_ofile s !! sy_cur s = Some l -> (forall x, slot s fd x -> Q x s) -> wlp (arr_get l fd) Q s.
Proof.
  intros Hl H. unfold arr_get, wlp. destruct ((0 <=? fd) && _) eqn:E; [|done]. destruct (l !! Z.to_nat fd) as [x|] eqn:Ex; [|done].
  apply H. split; [lia|by eauto].
Qed.

(** The calling process's descriptor [fd] becomes [y]. *)
Lemma wlp_arr_set fd x y l (Q : list Z -> sys_st T U -> Prop) s : slot s fd x -> sy_ofile s !! sy_cur s = Some l ->
  Q (<[Z.to_nat fd := y]> l) s -> wlp (of_arr (arr_set l fd y)) Q s.
Proof.
  intros [H0 (l2 & Hl2 & Hi)] Hl HQ. rewrite Hl in Hl2. injection Hl2 as <-. pose proof (lookup_lt_Some _ _ _ Hi). by rewrite arr_set_ok by lia.
Qed.

Lemma wlp_set_my i y l (Q : unit -> sys_st T U -> Prop) s : sy_ofile s !! sy_cur s = Some l -> Q tt (put_slot (sy_cur s) i y s) -> wlp (set_my_ofile (<[i := y]> l)) Q s.
Proof. intros Hl HQ. apply wlp_modify. unfold put_slot in HQ. by rewrite (alter_row _ _ _ _ l Hl) in HQ. Qed.

Lemma slot_put (s : sys_st T U) fd x y : slot s fd x -> slot (put_slot (sy_cur s) (Z.to_nat fd) y s) fd y.
Proof.
  intros [H0 (l & Hl & Hi)]. split; [done|]. exists (<[Z.to_nat fd := y]> l). cbn. rewrite (alter_row _ _ _ _ l Hl).
  split; apply list_lookup_insert_eq; by eapply lookup_lt_Some.
Qed.

Lemma slot_put_ne (s : sys_st T U) fd fd' x y : 0 <= fd -> fd' <> fd -> slot s fd' x -> slot (put_slot (sy_cur s) (Z.to_nat fd) y s) fd' x.
Proof.
  intros Hfd Hne [H0 (l & Hl & Hi)]. split; [done|]. exists (<[Z.to_nat fd := y]> l). cbn. rewrite (alter_row _ _ _ _ l Hl).
  split; [apply list_lookup_insert_eq; by eapply lookup_lt_Some|]. rewrite list_lookup_insert_ne; [done|lia].
Qed.

Lemma slot_fun (s : sys_st T U) fd x y : slot s fd x -> slot s fd y -> x = y.
Proof. intros [_ (l & Hl & Hi)] [_ (l' & Hl' & Hi')]. congruence. Qed.

Lemma fds_put d (s : sys_st T U) fd x y : fds d s -> slot s fd x -> fds (shift x 1 (shift y (-1) d)) (put_slot (sy_cur s) (Z.to_nat fd) y s).
Proof. intros H [_ (l & Hl & Hi)]. by eapply fds_slot. Qed.

Lemma wlp_argint n (Q : Z -> sys_st T U -> Prop) s : (forall v, Q v s) -> wlp (argint n) Q s.
Proof.
  intros H. unfold argint, argraw. apply wlp_bind. destruct (_ && _); [|exact I]. apply wlp_bind, wlp_gets.
  unfold arr_get. destruct (_ && _); [|exact I]. destruct (_ !! _); [|exact I]. apply wlp_ret, wlp_ret, H.
Qed.

Lemma wlp_argfd n (Q : option (Z * Z) -> sys_st T U -> Prop) s : Q None s -> (forall fd f, f <> 0 -> slot s fd f -> Q (Some (fd, f)) s) -> wlp (argfd n) Q s.
Proof.
  intros Q0 Q1. unfold argfd. apply wlp_bind, wlp_argint. intros v. destruct (_ || _); [by apply wlp_ret|].
  apply wlp_bind, wlp_my_ofile. intros l Hl. apply wlp_bind. eapply wlp_slot; [done|]. intros x Hx.
  destruct (x =? 0) eqn:E; apply wlp_ret; [done|]. apply Q1; [lia|done].
Qed.

(** [fdalloc] takes a free descriptor or fails. *)
Lemma wlp_fdalloc f (Q : Z -> sys_st T U -> Prop) s : Q (-1) s ->
  (forall fd, slot s fd 0 -> Q fd (put_slot (sy_cur s) (Z.to_nat fd) f s)) -> wlp (fdalloc f) Q s.
Proof.
  intros Q0 Q1. unfold fdalloc. generalize 0 at 1. induction (Z.to_nat NOFILE) as [|n IH]; intros fd; cbn [fdalloc_loop]; [by apply wlp_ret|].
  apply wlp_bind, wlp_my_ofile. intros l Hl. apply wlp_bind. eapply wlp_slot; [done|]. intros x Hx. destruct (x =? 0) eqn:E; [|apply IH].
  assert (x = 0) as -> by lia. apply wlp_bind. eapply wlp_arr_set; [done|done|]. apply wlp_bind, wlp_set_my; [done|]. by apply wlp_ret, Q1.
Qed.

Lemma wlp_clear_fd fd f (Q : unit -> sys_st T U -> Prop) s : slot s fd f -> Q tt (put_slot (sy_cur s) (Z.to_nat fd) 0 s) -> wlp (clear_fd fd) Q s.
Proof. intros Hs HQ. unfold clear_fd. apply wlp_bind, wlp_my_ofile. intros l Hl. apply wlp_bind. eapply wlp_arr_set; [done|done|]. by apply wlp_set_my. Qed.

(** ** Calls that change descriptors *)

(** Only the calling process's descriptors have changed. *)
Definition mine (s s' : sys_st T U) : Prop := sy_cur s' = sy_cur s /\ forall p, p <> sy_cur s -> sy_ofile s' !! p = sy_ofile s !! p.

#[local] Instance mine_preorder : PreOrder mine.
Proof. split; [by intros s|]. intros s1 s2 s3 [E1 H1] [E2 H2]. split; [congruence|]. intros p Hp. rewrite H2 by congruence. auto. Qed.

Lemma mine_still s s' : still s s' -> mine s s'.
Proof. intros [E1 E2]. split; [done|]. by rewrite E2. Qed.

Lemma mine_put s i y : mine s (put_slot (sy_cur s) i y s).
Proof. split; [done|]. intros p Hp. cbn. by rewrite list_lookup_alter_ne. Qed.

Definition kept (s0 s : sys_st T U) : Prop := fds even s /\ mine s0 s.

Lemma kept_J d s0 s s' : (forall g, g <> 0 -> d g = 0) -> mine s0 s -> J d s s' -> kept s0 s'.
Proof. intros E H [H1 H2]. split; [by eapply fds_ext0|]. etrans; [done|by apply mine_still]. Qed.

Ltac shifts := let g := fresh in intros g ?; unfold shift, even; repeat case_decide; subst; try done; lia.

Lemma kept_quiet {X} (c : M (sys_st T U) X) s : quiet c -> fds even s -> wlp c (fun _ s' => kept s s') s.
Proof. intros Hc Hs. eapply wlp_mono; [by apply Hc, J_start|]. intros ? s' HJ. by eapply (kept_J even s s). Qed.

Lemma wlp_quiet {X Y} (c : M (sys_st T U) X) (k : X -> M (sys_st T U) Y) Q d s0 s : quiet c -> J d s0 s -> (forall a s', J d s0 s' -> wlp (k a) Q s') -> wlp (c ≫= k) Q s.
Proof. intros Hc HJ Hk. apply wlp_bind. eapply wlp_mono; [by apply Hc|]. auto. Qed.

(** Past a quiet step; the state is [s] again. *)
Ltac quietly H := eapply wlp_quiet; [solve [auto 20 with quiet]|exact H|clear H; intros ? ? H].

Lemma kept_dup s : fds even s -> wlp sys_dup (fun _ s' => kept s s') s.
Proof.
  intros Hs. unfold sys_dup. apply wlp_bind, wlp_argfd; [by apply wlp_ret; split|]. intros fd0 f Hf Hfd0.
  apply wlp_bind, wlp_fdalloc; [by apply wlp_ret; split|]. intros fd Hfd. replace (fd <? 0) with false by (destruct Hfd; lia).
  apply wlp_bind. eapply fds_filedup; [by apply J_start, fds_put|]. intros s' HJ. apply wlp_ret. eapply kept_J; [|apply mine_put|done]. shifts.
Qed.

Lemma kept_close s : fds even s -> wlp sys_close (fun _ s' => kept s s') s.
Proof.
  intros Hs. unfold sys_close. apply wlp_bind, wlp_argfd; [by apply wlp_ret; split|]. intros fd f Hf Hfd.
  apply wlp_bind. eapply wlp_clear_fd; [done|]. apply wlp_bind. eapply fds_fileclose; [by apply J_start, fds_put|]. intros s' HJ.
  apply wlp_ret. eapply kept_J; [|apply mine_put|done]. shifts.
Qed.

(** [pipealloc] returns two files of its own, or nothing. *)
Lemma wlp_pipe_bad pi data f0 f1 d s0 s (Q : option (Z * Z) -> sys_st T U -> Prop) : J (shift f0 1 (shift f1 1 d)) s0 s -> (forall s', fds d s' -> still s0 s' -> Q None s') -> wlp (pipe_bad pi data f0 f1) Q s.
Proof.
  intros HJ HQ. unfold pipe_bad. quietly HJ. apply wlp_bind. eapply (wlp_mono _ (fun _ s' => exists d', (forall g, g <> 0 -> d' g = shift f1 1 d g) /\ J d' s0 s')).
  { destruct (f0 =? 0) eqn:E; cbn [negb]; [apply wlp_ret|]; [eexists; split; [|exact HJ]; assert (f0 = 0) as -> by lia; shifts|].
    eapply fds_fileclose; [done|]. intros s1 HJ'. eexists. split; [|exact HJ']. shifts. }
  clear HJ. intros ? s1 (d' & Ed & HJ). apply wlp_bind. destruct (f1 =? 0) eqn:E; cbn [negb].
  - apply wlp_ret, wlp_ret, HQ; [|apply HJ]. eapply fds_ext0; [|apply HJ]. intros g Hg. rewrite Ed by done. assert (f1 = 0) as -> by lia. revert g Hg. shifts.
  - eapply fds_fileclose; [done|]. intros s2 HJ'. apply wlp_ret, HQ; [|apply HJ']. eapply fds_ext0; [|apply HJ']. intros g Hg. specialize (Ed g Hg). unfold shift in *. repeat case_decide; lia.
Qed.

Lemma wlp_pipealloc d s (Q : option (Z * Z) -> sys_st T U -> Prop) : fds d s -> (forall s', fds d s' -> still s s' -> Q None s') ->
  (forall f0 f1 s', f0 <> 0 -> f1 <> 0 -> J (shift f0 1 (shift f1 1 d)) s s' -> Q (Some (f0, f1)) s') -> wlp pipealloc Q s.
Proof.
  intros Hs Q0 Q1. unfold pipealloc. apply wlp_bind. eapply fds_filealloc; [by apply J_start| |].
  - intros s' [HJ1 HJ2]. cbn [Z.eqb]. eapply (wlp_pipe_bad _ _ 0 0); [|exact Q0]. split; [|done]. eapply fds_ext0; [|exact HJ1]. shifts.
  - intros f0 s1 Hf0 HJ1. replace (f0 =? 0) with false by lia. apply wlp_bind. eapply fds_filealloc; [done| |].
    + intros s2 [HJ2 HJ2']. cbn [Z.eqb]. eapply (wlp_pipe_bad _ _ f0 0); [|exact Q0]. split; [|done]. eapply fds_ext0; [|exact HJ2]. shifts.
    + intros f1 s2 Hf1 HJ2. replace (f1 =? 0) with false by lia. assert (J (shift f0 1 (shift f1 1 d)) s s2) as HJ by (eapply J_ext; [|exact HJ2]; intros g; unfold shift; lia).
      clear s1 HJ1 HJ2. quietly HJ. quietly HJ. quietly HJ. destruct (_ =? 0); [by eapply wlp_pipe_bad|]. quietly HJ. destruct (_ =? 0); [by eapply wlp_pipe_bad|].
      quietly HJ. quietly HJ. destruct (_ =? 0); [by eapply wlp_pipe_bad|]. quietly HJ. unfold pipe_end. quietly HJ. quietly HJ. by apply wlp_ret, Q1.
Qed.

Lemma kept_close2 rf wf d s0 s : fds d s -> (forall g, g <> 0 -> d g = shift rf 1 (shift wf 1 even) g) -> mine s0 s ->
  wlp (in_ft (fileclose rf);; in_ft (fileclose wf);; mret (-1)) (fun _ s' => kept s0 s') s.
Proof.
  intros Hs Ed Hm. apply wlp_bind. eapply fds_fileclose; [by apply J_start|]. intros s1 HJ1. apply wlp_bind. eapply fds_fileclose; [exact HJ1|]. intros s2 HJ2.
  apply wlp_ret. eapply kept_J; [|exact Hm|exact HJ2]. intros g Hg. specialize (Ed g Hg). unfold shift, even in *. repeat case_decide; lia.
Qed.

Lemma kept_pipe um s : fds even s -> wlp (sys_pipe um) (fun _ s' => kept s s') s.
Proof.
  intros Hs. pose proof (J_start _ _ Hs) as HJ. unfold sys_pipe. quietly HJ. rename s' into s1. destruct HJ as [H1 M1%mine_still].
  apply wlp_bind. eapply wlp_pipealloc; [exact H1| |].
  { intros s2 H2 M2%mine_still. apply wlp_ret. split; [done|]. by etrans. }
  intros rf wf s2 Hrf Hwf [H2 M2%mine_still]. assert (mine s s2) as M by (by etrans). clear s1 H1 M1 M2. apply wlp_bind, wlp_fdalloc.
  { cbn [Z.ltb Z.compare]. apply wlp_bind, wlp_ret. cbn [Z.ltb Z.leb Z.compare orb]. apply wlp_bind, wlp_ret. by eapply kept_close2. }
  intros fd0 Hfd0. pose proof (proj1 Hfd0) as P0. pose proof (slot_put s2 fd0 0 rf Hfd0) as S3. pose proof (fds_put _ _ fd0 0 rf H2 Hfd0) as H3.
  pose proof (mine_put s2 (Z.to_nat fd0) rf) as M3. set (s3 := put_slot _ _ _ _) in *. assert (mine s s3) as M' by (by etrans). clearbody s3.
  replace (fd0 <? 0) with false by lia. cbn [orb]. apply wlp_bind, wlp_fdalloc.
  { cbn [Z.ltb Z.compare]. replace (0 <=? fd0) with true by lia. apply wlp_bind. eapply wlp_clear_fd; [exact S3|].
    eapply kept_close2; [by apply fds_put| |etrans; [exact M'|apply mine_put]]. shifts. }
  intros fd1 Hfd1. pose proof (proj1 Hfd1) as P1. assert (fd1 <> fd0) as Hne by (intros ->; by pose proof (slot_fun _ _ _ _ S3 Hfd1)).
  pose proof (slot_put s3 fd1 0 wf Hfd1) as S4. pose proof (slot_put_ne s3 fd1 fd0 rf wf P1 ltac:(done) S3) as S4'. pose proof (fds_put _ _ fd1 0 wf H3 Hfd1) as H4.
  pose proof (mine_put s3 (Z.to_nat fd1) wf) as M4. set (s4 := put_slot _ _ _ _) in *. assert (mine s s4) as M'' by (by etrans). clearbody s4.
  replace (fd1 <? 0) with false by lia. destruct (um_out um _ _ _ && _).
  - apply wlp_ret. split; [|done]. eapply fds_ext0; [|exact H4]. shifts.
  - apply wlp_bind. eapply wlp_clear_fd; [exact S4'|]. apply wlp_bind. eapply wlp_clear_fd; [by apply slot_put_ne|].
    eapply kept_close2; [apply fds_put; [by apply fds_put|by apply slot_put_ne]| |etrans; [exact M''|etrans; apply mine_put]]. shifts.
Qed.

Lemma kept_open um s : fds even s -> wlp (sys_open um) (fun _ s' => kept s s') s.
Proof.
  intros Hs. pose proof (J_start _ _ Hs) as HJ. unfold sys_open. quietly HJ. quietly HJ. destruct a0 as [path|]; [|apply wlp_ret; by eapply (kept_J even s s)].
  unfold begin_op, get_i. quietly HJ. quietly HJ. destruct a1 as [ip|]; [|apply wlp_ret; by eapply (kept_J even s s)]. quietly HJ.
  assert (forall d s', (forall g, g <> 0 -> d g = 0) -> J d s s' -> wlp (fs (iunlockput ip);; end_op;; mret (-1)) (fun _ s' => kept s s') s') as Hfail.
  { intros d t Hd Ht. unfold end_op. quietly Ht. quietly Ht. apply wlp_ret. by eapply (kept_J d s s). }
  destruct (_ && _); [by eapply Hfail|]. apply wlp_bind. eapply fds_filealloc; [exact HJ| |].
  { clear HJ. intros t HJ. cbn [Z.eqb orb negb]. apply wlp_bind, wlp_ret. cbn [orb]. apply wlp_bind, wlp_ret. by eapply Hfail. }
  clear HJ. intros f t Hf Ht. replace (f =? 0) with false by lia. cbn [orb negb]. apply wlp_bind, wlp_fdalloc.
  { cbn [Z.ltb Z.compare]. apply wlp_bind. eapply fds_fileclose; [exact Ht|]. clear t Ht. intros t Ht. eapply Hfail; [|exact Ht]. shifts. }
  intros fd Hfd. pose proof (proj1 Hfd) as P. replace (fd <? 0) with false by lia. pose proof (mine_put t (Z.to_nat fd) f) as M.
  assert (mine s (put_slot (sy_cur t) (Z.to_nat fd) f t)) as M' by (etrans; [apply mine_still, Ht|done]). pose proof (J_start _ _ (fds_put _ _ fd 0 f (proj1 Ht) Hfd)) as HJ. clear M.
  unfold end_op. quietly HJ. quietly HJ. quietly HJ. quietly HJ. quietly HJ. quietly HJ. apply wlp_ret. eapply kept_J; [|exact M'|exact HJ]. shifts.
Qed.

(** ** Fork and exit *)

Lemma all_slots d (s : sys_st T U) : fds d s -> (forall k, 0 <= k < 16 -> slot s k 0) -> sy_ofile s !! sy_cur s = Some (replicate 16 0).
Proof.
  intros Hs Hz. destruct (Hz 0 ltac:(lia)) as [_ (l & Hl & _)]. pose proof (d_rows _ _ Hs _ _ Hl) as Hlen. rewrite Hl. f_equal. apply list_eq. intros i.
  destruct (decide (i < 16)%nat) as [Hi|Hi]; [|rewrite !lookup_ge_None_2; rewrite ?length_replicate; (done || lia)].
  destruct (Hz (Z.of_nat i) ltac:(lia)) as [_ (l' & Hl' & Hi')]. rewrite Nat2Z.id in Hi'. rewrite lookup_replicate_2 by done. congruence.
Qed.

Lemma kept_exit s : fds even s -> wlp exit_files (fun _ s' => kept s s' /\ sy_ofile s' !! sy_cur s' = Some (replicate 16 0)) s.
Proof.
  intros Hs. unfold exit_files.
  assert (forall n fd s1, n = Z.to_nat (16 - fd) -> 0 <= fd <= 16 -> kept s s1 -> (forall k, 0 <= k < fd -> slot s1 k 0) ->
    wlp (exit_loop n fd) (fun _ s' => kept s s' /\ sy_ofile s' !! sy_cur s' = Some (replicate 16 0)) s1) as HL; [|apply HL; [done|lia|by split|lia]].
  induction n as [|n IH]; intros fd s1 En Hfd [H1 M1] Hz; cbn [exit_loop].
  - apply wlp_ret. split; [done|]. eapply all_slots; [done|]. intros k Hk. apply Hz. lia.
  - apply wlp_bind, wlp_my_ofile. intros l Hl. apply wlp_bind. eapply wlp_slot; [done|]. intros f Hf. apply wlp_bind. destruct (f =? 0) eqn:E; cbn [negb].
    + apply wlp_ret. apply IH; [lia|lia|done|]. intros k Hk. destruct (decide (k = fd)) as [->|]; [replace 0 with f by lia; done|apply Hz; lia].
    + apply wlp_bind. eapply fds_fileclose; [by apply J_start|]. intros s2 [H2 St]. pose proof (still_slot _ _ _ _ St Hf) as Hf2. eapply wlp_clear_fd; [exact Hf2|].
      apply IH; [lia|lia| |].
      * split; [eapply fds_ext0; [|by apply fds_put]; shifts|]. etrans; [done|]. etrans; [by apply mine_still|apply mine_put].
      * intros k Hk. destruct (decide (k = fd)) as [->|]; [by eapply slot_put|]. apply slot_put_ne; [lia|done|]. eapply still_slot; [done|]. apply Hz. lia.
Qed.

(** [fork_files] gives a process without open files the caller's. *)
Lemma fork_counts np s : fds even s -> np <> sy_cur s -> sy_ofile s !! np = Some (replicate 16 0) ->
  wlp (fork_files np) (fun _ s' => fds even s' /\ sy_cur s' = sy_cur s /\ sy_ofile s' !! np = sy_ofile s !! sy_cur s /\ forall p, p <> np -> sy_ofile s' !! p = sy_ofile s !! p) s.
Proof.
  intros Hs Hnp Hz. unfold fork_files. apply wlp_bind, wlp_my_ofile. intros l Hl. pose proof (d_rows _ _ Hs _ _ Hl) as Hlen.
  assert (forall k i s1, length l = (i + length k)%nat -> drop i l = k -> fds even s1 -> sy_cur s1 = sy_cur s -> sy_ofile s1 !! np = Some (take i l ++ replicate (length k) 0) ->
    (forall p, p <> np -> sy_ofile s1 !! p = sy_ofile s !! p) ->
    wlp (fork_loop k i np) (fun _ s' => fds even s' /\ sy_cur s' = sy_cur s /\ sy_ofile s' !! np = sy_ofile s !! sy_cur s /\ forall p, p <> np -> sy_ofile s' !! p = sy_ofile s !! p) s1) as HL;
    [|apply HL; [done|done|done|done|by rewrite Hlen|done]].
  induction k as [|f k IH]; intros i s1 Ei Ek H1 Ec En Ep; cbn [fork_loop length] in *.
  - apply wlp_ret. split_and!; try done. rewrite En, app_nil_r, take_ge, Hl by lia. done.
  - assert (l !! i = Some f) as Hi by (rewrite <- (Nat.add_0_r i), <- lookup_drop, Ek; done).
    assert (drop (S i) l = k) as Ek' by (rewrite <- Nat.add_1_r, <- drop_drop, Ek; done).
    assert (length (take i l) = i) as Et by (rewrite length_take; lia).
    apply wlp_bind. destruct (f =? 0) eqn:E; cbn [negb].
    + apply wlp_ret, IH; try done; [lia|]. rewrite En, (take_S_r _ _ f) by done. replace f with 0 by lia. by rewrite <- app_assoc.
    + apply wlp_bind. eapply fds_filedup; [by apply J_start|]. intros s2 [H2 [Ec2 Eo2]]. apply wlp_modify. apply IH; try done; [lia| | | |].
      * eapply fds_ext0; [|eapply fds_slot; [exact H2|by rewrite Eo2|]; rewrite lookup_app_r by lia; rewrite Et, Nat.sub_diag; reflexivity]. shifts.
      * cbn. congruence.
      * cbn. rewrite list_lookup_alter_eq, Eo2, En. cbn. rewrite (take_S_r _ _ f), insert_app_r_alt, Et, Nat.sub_diag by (done || lia). cbn. by rewrite <- app_assoc.
      * intros p Hp. cbn. rewrite list_lookup_alter_ne, Eo2 by done. by apply Ep.
Qed.

(** ** Any calls, in any order *)

(** The kernel enters a system call of process [p], whose current directory is
    [cwd], with arguments [r]. *)
Definition enter (p : nat) (cwd : Z) (r : list Z) (s : sys_st T U) : sys_st T U :=
  let t := sy_ft s in let f := ft_fs t in
  mkSy (mkFt (mkFs (f_store f) (f_sb f) (it_lock f) (it_inode f) cwd) (ft_lock t) (ft_files t) (ft_cache t) (ft_dev t)) (sy_ofile s) p r (sy_pipe_cache s).

(** The live processes and the state.  [np] is an entry of the process table
    that holds no live process. *)
Inductive step : gset nat * sys_st T U -> gset nat * sys_st T U -> Prop :=
| step_call P p cwd r um num c v s s' : p ∈ P -> file_call um num = Some c -> c (enter p cwd r s) = Ret (v, s') -> step (P, s) (P, s')
| step_fork P p cwd r np s s' : p ∈ P -> np ∉ P -> (np < length (sy_ofile s))%nat -> fork_files np (enter p cwd r s) = Ret (tt, s') -> step (P, s) ({[np]} ∪ P, s')
| step_exit P p cwd r s s' : p ∈ P -> exit_files (enter p cwd r s) = Ret (tt, s') -> step (P, s) (P ∖ {[p]}, s').

(** What holds between calls. *)
Definition settled (w : gset nat * sys_st T U) : Prop :=
  fds even w.2 /\ forall p l, p ∉ w.1 -> sy_ofile w.2 !! p = Some l -> l = replicate 16 0.

Lemma fds_enter d p cwd r s : fds d s -> fds d (enter p cwd r s).
Proof. intros [H1 H2 H3 H4]. by split. Qed.

Lemma kept_call um num c s : file_call um num = Some c -> fds even s -> wlp c (fun _ s' => kept s s') s.
Proof.
  intros E Hs. unfold file_call in E. repeat (destruct (_ =? _); [injection E as <-|]); try done;
    first [by apply kept_pipe|by apply kept_dup|by apply kept_open|by apply kept_close|apply kept_quiet; auto with quiet].
Qed.

Lemma settled_mine P s0 s' : settled (P, s0) -> sy_cur s0 ∈ P -> kept s0 s' -> settled (P, s').
Proof. intros [H1 H2] Hp [H3 [H4 H5]]. split; [done|]. cbn in *. intros q l Hq Hl. rewrite H5 in Hl by (by intros ->). eauto. Qed.

Lemma step_settled w w' : step w w' -> settled w -> settled w'.
Proof.
  intros Hst [H1 H2]. destruct Hst as [P p cwd r um num c v s s' Hp Ec E|P p cwd r np s s' Hp Hnp Hlen E|P p cwd r s s' Hp E]; cbn in *;
    pose proof (fds_enter even p cwd r s H1) as He.
  - apply (settled_mine P (enter p cwd r s)); [by split|done|]. exact (proj1 (wlp_run _ _ _) (kept_call _ _ _ _ Ec He) _ _ E).
  - apply lookup_lt_is_Some in Hlen as [l Hl]. pose proof (H2 np l Hnp Hl) as ->.
    destruct (proj1 (wlp_run _ _ _) (fork_counts np _ He ltac:(cbn; by intros ->) Hl) _ _ E) as (F1 & _ & _ & F4). split; [done|]. cbn.
    intros q l Hq Hl'. rewrite F4 in Hl' by set_solver. eapply H2; [|done]. set_solver.
  - destruct (proj1 (wlp_run _ _ _) (kept_exit _ He) _ _ E) as [[F1 [F2 F3]] F4]. split; [done|]. cbn in *. intros q l Hq Hl.
    destruct (decide (q = p)) as [->|Hne]; [rewrite F2 in F4; congruence|]. rewrite F3 in Hl by done. eapply H2; [|done]. set_solver.
Qed.

(** No file is open and no descriptor is used. *)
Definition no_files (s : sys_st T U) : Prop := files s = ∅ /\ fc_owned (ft_dev (sy_ft s)) ∅ /\ forall p l, sy_ofile s !! p = Some l -> l = replicate 16 0.

Lemma tot_zero f o : f <> 0 -> (forall p l, o !! p = Some l -> l = replicate 16 0) -> tot f o = 0.
Proof.
  intros Hf. induction o as [|l o IH]; intros Ho; [done|]. cbn. rewrite (Ho 0%nat l eq_refl), IH; [|intros p; apply (Ho (S p))].
  cbn. unfold ind. rewrite decide_False by congruence. done.
Qed.

Lemma settled_init s : no_files s -> settled ({[0%nat]}, s).
Proof.
  intros (Ef & Ho & Hz). split; [|by intros p l _; apply Hz]. cbn. split.
  - intros p l Hl. by rewrite (Hz _ _ Hl).
  - by rewrite Ef.
  - intros f Hf _. unfold even. rewrite tot_zero by done. done.
  - by rewrite Ef, dom_empty_L.
Qed.

Lemma slot_open (s : sys_st T U) p l i f : fds even s -> sy_ofile s !! p = Some l -> l !! i = Some f -> f <> 0 -> exists fl, files s !! f = Some fl /\ 1 <= fl_ref fl.
Proof.
  intros [_ H2 H3 _] Hp Hi Hf. destruct (files s !! f) as [fl|] eqn:E; [exists fl; by destruct (H2 f fl E) as (_ & ? & _)|].
  specialize (H3 f Hf E). unfold even in H3. pose proof (tot_in f _ p l Hp). pose proof (cnt_in f l i Hi). lia.
Qed.

(** C4: Starting with no open file and one process, after any sequence of
    system calls on files by any live processes with any arguments, current
    directory and user memory, of forks and of exits: the reference count of every open
    file is the number of descriptors of all processes that hold it; every
    non-zero descriptor is an open file with a positive count, which is what
    the "filedup" and "fileclose" panics test; a process that has exited or was never created
    has no descriptor; and the file cache has handed out exactly the open
    files, so none is leaked or freed twice. *)
Theorem descriptors_counted s0 P s : no_files s0 -> rtc step ({[0%nat]}, s0) (P, s) ->
  (forall f fl, files s !! f = Some fl -> f <> 0 /\ 1 <= fl_ref fl /\ fl_ref fl = tot f (sy_ofile s)) /\
  (forall p l i f, sy_ofile s !! p = Some l -> l !! i = Some f -> f <> 0 -> exists fl, files s !! f = Some fl) /\
  (forall p l, p ∉ P -> sy_ofile s !! p = Some l -> l = replicate 16 0) /\
  fc_owned (ft_dev (sy_ft s)) (dom (files s)).
Proof.
  intros H0 Hr. assert (settled (P, s)) as [H1 H5].
  { pose proof (settled_init s0 H0) as Hs. remember (P, s) as w eqn:E. clear E. induction Hr as [|w1 w2 w3 Hst _ IH]; [done|]. by apply IH, (step_settled w1). }
  cbn in *. split_and!; try done; [| |apply H1].
  - intros f fl Hf. destruct (d_files _ _ H1 f fl Hf) as (? & ? & E). rewrite Z.add_0_r in E. done.
  - intros p l i f Hp Hi Hf. destruct (slot_open s p l i f H1 Hp Hi Hf) as (fl & E & _). by exists fl.
Qed.

(** ** [dup] returns *)

(** [i] is the first descriptor of [l] that is not in use. *)
Definition first_free (l : list Z) (i : nat) : Prop := l !! i = Some 0 /\ forall j, (j < i)%nat -> l !! j <> Some 0.

Lemma wp_my_ofile (Q : list Z -> sys_st T U -> Prop) l s : sy_ofile s !! sy_cur s = Some l -> Q l s -> wp my_ofile Q s.
Proof. intros Hl HQ. unfold my_ofile. apply wp_bind, wp_get. by rewrite Hl. Qed.

Lemma wp_argint0 (Q : Z -> sys_st T U -> Prop) r s : sy_regs s !! 0%nat = Some r -> Q (s32 r) s -> wp (argint 0) Q s.
Proof. intros Hr HQ. unfold argint, argraw. cbn [Z.leb Z.ltb Z.compare andb]. wp_steps. by eapply wp_arr_get. Qed.

Lemma wp_fdalloc f l s (Q : Z -> sys_st T U -> Prop) : sy_ofile s !! sy_cur s = Some l -> length l = 16%nat ->
  (0 ∉ l -> Q (-1) s) -> (forall i, first_free l i -> Q (Z.of_nat i) (put_slot (sy_cur s) i f s)) -> wp (fdalloc f) Q s.
Proof.
  intros Hl Hlen Q0 Q1. unfold fdalloc.
  assert (forall n k, (n + k = 16)%nat -> (forall j, (j < k)%nat -> l !! j <> Some 0) -> wp (fdalloc_loop n (Z.of_nat k) f) Q s) as HL; [|apply (HL 16%nat 0%nat); [done|lia]].
  induction n as [|n IH]; intros k Hk Hz; cbn [fdalloc_loop].
  - apply wp_ret, Q0. intros [j Hj]%list_elem_of_lookup. eapply Hz; [|exact Hj]. apply lookup_lt_Some in Hj. lia.
  - destruct (lookup_lt_is_Some_2 l k ltac:(lia)) as [x Hx]. wp_step. eapply wp_my_ofile; [done|]. wp_step. eapply wp_arr_get; [lia|by rewrite Nat2Z.id|].
    destruct (x =? 0) eqn:E.
    + assert (x = 0) as -> by lia. rewrite arr_set_ok, Nat2Z.id by lia. cbn. wp_step. apply wp_ret. wp_step. apply wp_modify, wp_ret.
      pose proof (Q1 k (conj Hx Hz)) as HQ. unfold put_slot in HQ. by rewrite (alter_row _ _ _ _ l Hl) in HQ.
    + replace (Z.of_nat k + 1) with (Z.of_nat (S k)) by lia. apply IH; [lia|]. intros j Hj. destruct (decide (j = k)) as [->|]; [rewrite Hx; intros [= ->]; done|]. apply Hz. lia.
Qed.

Lemma wp_filedup f fl (s : ft_st T U) (Q : Z -> ft_st T U -> Prop) : ft_files s !! f = Some fl -> 1 <= fl_ref fl -> lk_locked (ft_lock s) = 0 -> hart_ok (hart_of s) ->
  (forall s', ft_files s' = <[f := set_flref (fl_ref fl + 1) fl]> (ft_files s) -> lk_locked (ft_lock s') = 0 -> hart_same (hart_of s) (hart_of s') ->
     ft_cache s' = ft_cache s -> ft_dev s' = ft_dev s -> Q f s') -> wp (filedup f) Q s.
Proof.
  intros Hf Hr Hl Hh HQ. unfold filedup. wp_step. apply wp_acquire_in; [done|]. set (s1 := set_ft_lock _ _). assert (ft_files s1 !! f = Some fl) as Hf1 by done.
  assert (hart_of s1 = push_off (hart_of s)) as Eh1 by exact (hart_of_set_hart (push_off (hart_of s)) s).
  unfold upd_file, get_file. wp_steps. rewrite Hf1. wp_steps. replace (fl_ref fl <? 1) with false by lia. wp_steps. rewrite Hf1. wp_steps.
  set (s2 := set_ft_files _ s1). assert (hart_of s2 = push_off (hart_of s)) as Eh2 by exact Eh1.
  destruct (pop_push_off (hart_of s) (hart_of s2) Hh) as (h & Ep & Hs); [by rewrite Eh2|].
  eapply wp_release_in; [done|by rewrite Eh2|exact Ep|]. wp_steps. apply HQ; try done.
  change (hart_same (hart_of s) (hart_of (set_hart h s2))). by rewrite hart_of_set_hart.
Qed.

Definition dup_result (s : sys_st T U) (r : Z) (l : list Z) (v : Z) (s' : sys_st T U) : Prop :=
  exists f fl i, 0 <= r < NOFILE /\ l !! Z.to_nat r = Some f /\ f <> 0 /\ files s !! f = Some fl /\ first_free l i /\ v = Z.of_nat i /\
    sy_ofile s' = <[sy_cur s := <[i := f]> l]> (sy_ofile s) /\ files s' = <[f := set_flref (fl_ref fl + 1) fl]> (files s) /\
    lk_locked (ft_lock (sy_ft s')) = 0 /\ hart_same (hart_of (sy_ft s)) (hart_of (sy_ft s')).

Lemma wp_sys_dup s r l : fds even s -> lk_locked (ft_lock (sy_ft s)) = 0 -> hart_ok (hart_of (sy_ft s)) ->
  sy_regs s !! 0%nat = Some r -> sy_ofile s !! sy_cur s = Some l ->
  wp sys_dup (fun v s' => (v = -1 /\ s' = s /\ ((forall f, 0 <= s32 r -> l !! Z.to_nat (s32 r) = Some f -> f = 0) \/ 0 ∉ l)) \/ dup_result s (s32 r) l v s') s.
Proof.
  intros Hs Hl Hh Hr Ho. pose proof (d_rows _ _ Hs _ _ Ho) as Hlen. unfold sys_dup, argfd. repeat wp_step. eapply wp_argint0; [done|].
  destruct ((s32 r <? 0) || (NOFILE <=? s32 r)) eqn:E.
  { wp_steps. left. split_and!; [done..|]. left. intros f H0 Hf. apply lookup_lt_Some in Hf. unfold NOFILE in E. lia. }
  wp_step. eapply wp_my_ofile; [done|]. destruct (lookup_lt_is_Some_2 l (Z.to_nat (s32 r))) as [f Hf]; [unfold NOFILE in E; lia|].
  wp_step. eapply wp_arr_get; [lia|done|]. destruct (f =? 0) eqn:Ef.
  { wp_steps. left. split_and!; [done..|]. left. intros g _ Hg. rewrite Hf in Hg. injection Hg as <-. lia. }
  wp_steps. eapply wp_fdalloc; [done|done| |].
  { intros Hn. cbn. left. split_and!; [done..|]. by right. }
  intros i Hi. replace (Z.of_nat i <? 0) with false by (symmetry; apply Z.ltb_ge; lia). destruct (slot_open s _ l _ f Hs Ho Hf ltac:(lia)) as (fl & Hfl & Hrf).
  wp_step. apply wp_zoom. eapply wp_filedup; [exact Hfl|done|done|done|]. intros ft E1 E2 E3 _ _. wp_steps. right. exists f, fl, i.
  split_and!; try done; [lia..|]. cbn. by rewrite (alter_row _ _ _ _ l Ho).
Qed.

(** C32: [dup] returns.  On a descriptor that is open it takes the lowest free
    descriptor, makes it hold the same file, counts it and changes no other
    descriptor or file; on a bad descriptor or a full table it returns -1 and
    changes nothing.  The table's lock is free again and the counts are right. *)
Theorem sys_dup_correct s r l : fds even s -> lk_locked (ft_lock (sy_ft s)) = 0 -> hart_ok (hart_of (sy_ft s)) ->
  sy_regs s !! 0%nat = Some r -> sy_ofile s !! sy_cur s = Some l ->
  wp sys_dup (fun v s' => ((v = -1 /\ s' = s /\ ((forall f, 0 <= s32 r -> l !! Z.to_nat (s32 r) = Some f -> f = 0) \/ 0 ∉ l)) \/ dup_result s (s32 r) l v s') /\ fds even s') s.
Proof.
  intros Hs Hl Hh Hr Ho. eapply wp_mono; [exact (wp_wlp _ _ _ _ (wp_sys_dup s r l Hs Hl Hh Hr Ho) (kept_dup s Hs))|]. intros v s' [H1 [H2 _]]. by split.
Qed.

End Calls.
