(* ===== verification/SysfileDemo.v ===== *)
(** * System calls on the pipes and the console of FileDemo.v

    The caches of slab.c as a counter of fresh addresses, which keeps the
    promise [FileCache] asks for, and a run of two processes that share a
    pipe, to which the theorems of SysfileThms.v apply. *)

From Stdlib Require Import ZArith Lia Bool String.
From stdpp Require Import base gmap list strings functions relations.
From S2P Require Import Prelude Pipe Console.
From S2P Require Import Mem Spinlock Sleeplock ObjCache Bio BioProof BioThms Log LogSpec LogProof LogThms BlockStore LogStore Fs FsBytes FsAlloc FsFile FsRw FsThms FsCrash FsDemo File FileThms FileDemo Sysfile SysfileProof SysfileThms.

Definition fresh_addr : M devs Z := s ← get; put (mkDevs (dv_next s + 1) (dv_pipes s) (dv_cons s));; mret (dv_next s).
Definition new_pipe : Pipe.pst := Pst (mkPipe (replicate 512 0) 0 0 1 1) [] [] [] [].

#[export] Instance devs_PipeMem : PipeMem devs := {|
  pm_cache_create := mret 2;
  pm_cache_alloc _ := fresh_addr;
  pm_cache_free _ _ := mret tt;
  pm_kmalloc _ := fresh_addr;
  pm_kfree _ := mret tt;
  pm_set_data _ _ := mret tt;
  pm_init p := modify (fun s => mkDevs (dv_next s) (<[p := new_pipe]> (dv_pipes s)) (dv_cons s))
|}.

(** Objects handed out lie below the counter. *)
Definition below (u : devs) (H : gset Z) : Prop := 0 < dv_next u /\ forall f, f ∈ H -> 0 < f < dv_next u.

(** [c] keeps the counter where it is or moves it up. *)
Definition climbs {X} (c : M devs X) : Prop := forall u a u', c u = Ret (a, u') -> dv_next u <= dv_next u'.

Lemma climbs_bind {X Y} (c : M devs X) (k : X -> M devs Y) : climbs c -> (forall a, climbs (k a)) -> climbs (c ≫= k).
Proof.
  intros H1 H2 u a u' E. unfold mbind, M_bind in E. destruct (c u) as [[b v]| | | |] eqn:Ec; try done. etrans; [by eapply H1|by eapply H2].
Qed.

Lemma climbs_ret {X} (a : X) : climbs (mret a).
Proof. intros u b u' [= <- <-]. lia. Qed.

Lemma climbs_blocked {X} why : climbs (blocked why : M devs X).
Proof. done. Qed.

Lemma climbs_pipe {X} p (c : M Pipe.pst X) : climbs (on_pipe p c).
Proof.
  intros u a u' E. unfold on_pipe, mbind, M_bind, get in E. destruct (dv_pipes u !! p) as [t|]; [|done].
  unfold zoom in E. destruct (c t) as [[b v]| | | |]; try done. injection E as <- <-. cbn. lia.
Qed.

Lemma climbs_cons {X} (c : M cst X) : climbs (on_cons c).
Proof. intros u a u' E. unfold on_cons, zoom in E. destruct (c (dv_cons u)) as [[b v]| | | |]; try done. injection E as <- <-. cbn. lia. Qed.

Lemma climbs_fresh : climbs fresh_addr.
Proof. intros u a u' [= <- <-]. cbn. lia. Qed.

Lemma climbs_init p : climbs (pm_init p).
Proof. intros u a u' [= <- <-]. cbn. lia. Qed.

Create HintDb climbs.
#[local] Hint Resolve climbs_bind climbs_ret climbs_blocked climbs_pipe climbs_cons climbs_fresh : climbs.
#[local] Hint Extern 3 (climbs (match ?x with _ => _ end)) => destruct x : climbs.

Lemma below_climbs {X} (c : M devs X) u H : climbs c -> below u H -> wlp c (fun _ u' => below u' H) u.
Proof. intros Hc [H1 H2]. apply wlp_run. intros a u' E. specialize (Hc _ _ _ E). split; [lia|]. intros f Hf. specialize (H2 f Hf). lia. Qed.

#[export] Instance devs_FileCache : FileCache devs.
Proof.
  refine {| fc_owned := below |}; try solve [intros; apply below_climbs; [cbn; unfold dev_piperead, dev_pipewrite; auto 10 with climbs|done]].
  - intros u H c [H1 H2]. cbn. right. split_and!; [lia| |].
    + intros Hn. specialize (H2 _ Hn). lia.
    + split; cbn; [lia|]. intros f [->%elem_of_singleton|Hf]%elem_of_union; [lia|]. specialize (H2 f Hf). lia.
  - intros u H c f [H1 H2] Hf. cbn. split; [done|]. intros g Hg. apply H2. set_solver.
  - intros u H k rd cout n Hb E. cbn in E. destruct (k =? CONSOLE); [|done]. injection E as <-. apply below_climbs; [|done]. unfold dev_consoleread. auto 10 with climbs.
  - intros u H k wr cin n Hb E. cbn in E. destruct (k =? CONSOLE); [|done]. injection E as <-. apply below_climbs; [|done]. unfold dev_consolewrite. auto 10 with climbs.
  - intros u H p Hb. apply below_climbs; [apply climbs_init|done].
Defined.

(** ** Two processes and a pipe *)

Abbreviation sst := (sys_st (log_st pool) devs).

(** User memory where [copyout] succeeds. *)
Definition any_mem : usermem := mkUmem (fun _ _ => None) (fun _ _ n => (replicate (Z.to_nat n) 0, true)) (fun _ _ _ => true) (fun _ _ => true).

Definition demo_sys : sst := mkSy (mkFt demo_fs (mkLock EmptyString 0 0) ∅ 1 demo_devs) (replicate 4 (replicate 16 0)) 0 [] 0.

Definition returns {X} (c : M sst X) (s : sst) : bool := match c s with Ret _ => true | _ => false end.
Definition after {X} (c : M sst X) (s : sst) : sst := match c s with Ret (_, s') => s' | _ => s end.
Definition result {X} (d : X) (c : M sst X) (s : sst) : X := match c s with Ret (a, _) => a | _ => d end.

Lemma returns_ret {X} (d : X) (c : M sst X) s : returns c s = true -> c s = Ret (result d c s, after c s).
Proof. unfold returns, result, after. by destruct (c s) as [[a s']| | | |]. Qed.

(** Process 0 makes a pipe, duplicates its read end, forks into entry 2;
    process 2 closes descriptor 0. *)
Definition sys1 : sst := after (sys_pipe any_mem) (enter 0 0 [8192; 0; 0; 0; 0; 0] demo_sys).
Definition sys2 : sst := after sys_dup (enter 0 0 [0; 0; 0; 0; 0; 0] sys1).
Definition sys3 : sst := after (fork_files 2) (enter 0 0 [] sys2).
Definition sys4 : sst := after sys_close (enter 2 0 [0; 0; 0; 0; 0; 0] sys3).

Lemma demo_no_files : no_files demo_sys.
Proof.
  split; [done|]. split; [split; [cbn; lia|set_solver]|]. intros p l Hl. cbn [demo_sys sy_ofile] in Hl. by apply lookup_replicate in Hl as [-> _].
Qed.

Lemma demo_step_call P p r um num c s s' : s' = after c (enter p 0 r s) -> p ∈ P -> file_call um num = Some c -> returns c (enter p 0 r s) = true -> step (P, s) (P, s').
Proof. intros -> Hp Hc Hr. by eapply step_call, (returns_ret 0). Qed.

Lemma demo_fork P p np s s' : s' = after (fork_files np) (enter p 0 [] s) -> p ∈ P -> np ∉ P -> (np < length (sy_ofile s))%nat ->
  returns (fork_files np) (enter p 0 [] s) = true -> step (P, s) ({[np]} ∪ P, s').
Proof. intros -> Hp Hn Hl Hr. eapply step_fork; [done..|]. pose proof (returns_ret tt _ _ Hr) as E. by destruct (result tt _ _). Qed.

Lemma demo_run : rtc step ({[0%nat]}, demo_sys) ({[2%nat]} ∪ {[0%nat]}, sys4).
Proof.
  apply (rtc_l _ _ ({[0%nat]}, sys1)); [apply (demo_step_call _ 0 [8192; 0; 0; 0; 0; 0] any_mem 4 (sys_pipe any_mem)); [reflexivity|set_solver|reflexivity|vm_compute; reflexivity]|].
  apply (rtc_l _ _ ({[0%nat]}, sys2)); [apply (demo_step_call _ 0 [0; 0; 0; 0; 0; 0] any_mem 10 sys_dup); [reflexivity|set_solver|reflexivity|vm_compute; reflexivity]|].
  apply (rtc_l _ _ ({[2%nat]} ∪ {[0%nat]}, sys3)); [apply (demo_fork _ 0); [reflexivity|set_solver|set_solver|vm_compute; lia|vm_compute; reflexivity]|].
  apply (rtc_l _ _ ({[2%nat]} ∪ {[0%nat]}, sys4)); [apply (demo_step_call _ 2 [0; 0; 0; 0; 0; 0] any_mem 21 sys_close); [reflexivity|set_solver|reflexivity|vm_compute; reflexivity]|].
  reflexivity.
Qed.

Lemma descriptors_counted_witness :
  (fl_ref <$> files sys4 !! 200 = Some 3) /\
  (forall f fl, files sys4 !! f = Some fl -> f <> 0 /\ 1 <= fl_ref fl /\ fl_ref fl = tot f (sy_ofile sys4)) /\
  (forall p l i f, sy_ofile sys4 !! p = Some l -> l !! i = Some f -> f <> 0 -> exists fl, files sys4 !! f = Some fl) /\
  (forall p l, p ∉ ({[2%nat]} ∪ {[0%nat]} : gset nat) -> sy_ofile sys4 !! p = Some l -> l = replicate 16 0) /\
  below (ft_dev (sy_ft sys4)) (dom (files sys4)).
Proof.
  split; [vm_compute; reflexivity|]. exact (descriptors_counted demo_sys _ sys4 demo_no_files demo_run).
Defined.

(** In [sys1] descriptors 0 and 1 are the pipe's ends. *)
Lemma sys_dup_correct_witness :
  wp sys_dup (fun v s' => ((v = -1 /\ s' = enter 0 0 [0; 0; 0; 0; 0; 0] sys1 /\ ((forall f, 0 <= s32 0 -> ([200; 201] ++ replicate 14 0) !! Z.to_nat (s32 0) = Some f -> f = 0) \/ 0 ∉ [200; 201] ++ replicate 14 0)) \/
    dup_result (enter 0 0 [0; 0; 0; 0; 0; 0] sys1) (s32 0) ([200; 201] ++ replicate 14 0) v s') /\ fds even s') (enter 0 0 [0; 0; 0; 0; 0; 0] sys1).
Proof.
  refine (sys_dup_correct (enter 0 0 [0; 0; 0; 0; 0; 0] sys1) 0 ([200; 201] ++ replicate 14 0) _ _ _ _ _); [|vm_compute; reflexivity| |vm_compute; reflexivity|vm_compute; reflexivity].
  - apply fds_enter. assert (settled ({[0%nat]}, sys1)) as Hs; [|exact (proj1 Hs)]. eapply step_settled; [|exact (settled_init demo_sys demo_no_files)].
    apply (demo_step_call _ 0 [8192; 0; 0; 0; 0; 0] any_mem 4 (sys_pipe any_mem)); [reflexivity|set_solver|reflexivity|vm_compute; reflexivity].
  - vm_compute. split_and!; (done || lia || (intros; discriminate)).
Defined.
