(* ===== verification/Proc.v ===== *)
(** * Processes (kernel/proc.c)

    [struct proc] is a record, the table is a list of them and a
    [struct proc *] is 1 + the index of the slot, so that 0 is the null
    pointer; [p->name] is the C string in it.  The routines run for the
    process [ps_cur], which is [mycpu()->proc] of the hart [ps_k] carries,
    over the page allocator and page tables of Kalloc.v and Vm.v; the calls on
    open files and inodes are those of [FileRefs].

    [swtch] leaves a routine in the middle, so a routine that calls [sched]
    is given in two parts: up to [swtch], and from its return on.  The
    scheduler's loop body is split in the same way around its [swtch]. *)

From Stdlib Require Import ZArith Lia Bool String.
From stdpp Require Import base gmap list strings.
From S2P Require Import Prelude Mem MemList Spinlock Kalloc Vm.

Inductive procstate := UNUSED | USED | SLEEPING | RUNNABLE | RUNNING | ZOMBIE.

#[export] Instance procstate_eq_dec : EqDecision procstate.
Proof. solve_decision. Defined.

Definition NOFILE : Z := 16.
Definition sizeof_trapframe : Z := 288.
(** [offsetof(struct trapframe, a0)] *)
Definition tf_a0 : Z := 112.

Record proc := mkProc {
  p_lock : spinlock;
  p_state : procstate;
  p_chan : Z;
  p_killed : Z;
  p_xstate : Z;
  p_pid : Z;
  p_parent : Z;
  p_kstack : Z;
  p_sz : Z;
  p_pagetable : Z;
  p_trapframe : Z;
  p_ra : Z;       (* context.ra *)
  p_sp : Z;       (* context.sp *)
  p_ofile : list Z;
  p_cwd : Z;
  p_name : list Z
}.

Definition set_plock v (p : proc) := mkProc v (p_state p) (p_chan p) (p_killed p) (p_xstate p) (p_pid p) (p_parent p) (p_kstack p) (p_sz p) (p_pagetable p) (p_trapframe p) (p_ra p) (p_sp p) (p_ofile p) (p_cwd p) (p_name p).
Definition set_pstate v (p : proc) := mkProc (p_lock p) v (p_chan p) (p_killed p) (p_xstate p) (p_pid p) (p_parent p) (p_kstack p) (p_sz p) (p_pagetable p) (p_trapframe p) (p_ra p) (p_sp p) (p_ofile p) (p_cwd p) (p_name p).
Definition set_pchan v (p : proc) := mkProc (p_lock p) (p_state p) v (p_killed p) (p_xstate p) (p_pid p) (p_parent p) (p_kstack p) (p_sz p) (p_pagetable p) (p_trapframe p) (p_ra p) (p_sp p) (p_ofile p) (p_cwd p) (p_name p).
Definition set_pkilled v (p : proc) := mkProc (p_lock p) (p_state p) (p_chan p) v (p_xstate p) (p_pid p) (p_parent p) (p_kstack p) (p_sz p) (p_pagetable p) (p_trapframe p) (p_ra p) (p_sp p) (p_ofile p) (p_cwd p) (p_name p).
Definition set_pxstate v (p : proc) := mkProc (p_lock p) (p_state p) (p_chan p) (p_killed p) v (p_pid p) (p_parent p) (p_kstack p) (p_sz p) (p_pagetable p) (p_trapframe p) (p_ra p) (p_sp p) (p_ofile p) (p_cwd p) (p_name p).
Definition set_ppid v (p : proc) := mkProc (p_lock p) (p_state p) (p_chan p) (p_killed p) (p_xstate p) v (p_parent p) (p_kstack p) (p_sz p) (p_pagetable p) (p_trapframe p) (p_ra p) (p_sp p) (p_ofile p) (p_cwd p) (p_name p).
Definition set_pparent v (p : proc) := mkProc (p_lock p) (p_state p) (p_chan p) (p_killed p) (p_xstate p) (p_pid p) v (p_kstack p) (p_sz p) (p_pagetable p) (p_trapframe p) (p_ra p) (p_sp p) (p_ofile p) (p_cwd p) (p_name p).
Definition set_psz v (p : proc) := mkProc (p_lock p) (p_state p) (p_chan p) (p_killed p) (p_xstate p) (p_pid p) (p_parent p) (p_kstack p) v (p_pagetable p) (p_trapframe p) (p_ra p) (p_sp p) (p_ofile p) (p_cwd p) (p_name p).
Definition set_ppagetable v (p : proc) := mkProc (p_lock p) (p_state p) (p_chan p) (p_killed p) (p_xstate p) (p_pid p) (p_parent p) (p_kstack p) (p_sz p) v (p_trapframe p) (p_ra p) (p_sp p) (p_ofile p) (p_cwd p) (p_name p).
Definition set_ptrapframe v (p : proc) := mkProc (p_lock p) (p_state p) (p_chan p) (p_killed p) (p_xstate p) (p_pid p) (p_parent p) (p_kstack p) (p_sz p) (p_pagetable p) v (p_ra p) (p_sp p) (p_ofile p) (p_cwd p) (p_name p).
Definition set_pcontext ra sp (p : proc) := mkProc (p_lock p) (p_state p) (p_chan p) (p_killed p) (p_xstate p) (p_pid p) (p_parent p) (p_kstack p) (p_sz p) (p_pagetable p) (p_trapframe p) ra sp (p_ofile p) (p_cwd p) (p_name p).
Definition set_pofile v (p : proc) := mkProc (p_lock p) (p_state p) (p_chan p) (p_killed p) (p_xstate p) (p_pid p) (p_parent p) (p_kstack p) (p_sz p) (p_pagetable p) (p_trapframe p) (p_ra p) (p_sp p) v (p_cwd p) (p_name p).
Definition set_pcwd v (p : proc) := mkProc (p_lock p) (p_state p) (p_chan p) (p_killed p) (p_xstate p) (p_pid p) (p_parent p) (p_kstack p) (p_sz p) (p_pagetable p) (p_trapframe p) (p_ra p) (p_sp p) (p_ofile p) v (p_name p).
Definition set_pname v (p : proc) := mkProc (p_lock p) (p_state p) (p_chan p) (p_killed p) (p_xstate p) (p_pid p) (p_parent p) (p_kstack p) (p_sz p) (p_pagetable p) (p_trapframe p) (p_ra p) (p_sp p) (p_ofile p) (p_cwd p) v.

(** The slot after [memset] and the loop of [procinit]. *)
Definition zero_proc (k : Z) : proc :=
  mkProc (initlock "proc") UNUSED 0 0 0 0 0 (KSTACK k) 0 0 0 0 0 (replicate (Z.to_nat NOFILE) 0) 0 [].

(** What proc.c calls in file.c, fs.c and log.c. *)
Class FileRefs (F : Type) := {
  fr_filedup : Z -> M F Z;
  fr_fileclose : Z -> M F unit;
  fr_idup : Z -> M F Z;
  fr_iput : Z -> M F unit;
  fr_begin_op : M F unit;
  fr_end_op : M F unit;
  fr_namei_root : M F Z
}.

Section Proc.
Context {F : Type} {FR : FileRefs F}.
(** Linker symbols, the address of [p->xstate] in kernel memory, and the slab
    allocator's [kfree], which a page fault in [copyout] may call. *)
Context (kend trampoline forkret_addr : Z) (xstate_addr : Z -> Z) (kfree : Z -> M kst unit).

Record pst := mkPst {
  ps_k : kst;
  ps_f : F;
  ps_procs : list proc;
  ps_initproc : Z;
  ps_nextpid : Z;
  ps_pid_lock : spinlock;
  ps_wait_lock : spinlock;
  ps_cur : Z
}.

#[global] Instance pst_HasMach : HasMach pst.
Proof.
  refine {| mach_of := fun s => mach_of (ps_k s);
            set_mach := fun m s => mkPst (set_mach m (ps_k s)) (ps_f s) (ps_procs s) (ps_initproc s) (ps_nextpid s) (ps_pid_lock s) (ps_wait_lock s) (ps_cur s) |}.
  - intros m s. exact (mach_of_set m (ps_k s)).
  - intros [k]. cbn [ps_k ps_f ps_procs ps_initproc ps_nextpid ps_pid_lock ps_wait_lock ps_cur]. f_equal. exact (set_mach_of k).
  - intros m m' s. cbn [ps_k ps_f ps_procs ps_initproc ps_nextpid ps_pid_lock ps_wait_lock ps_cur].
    by rewrite (set_mach_set m m' (ps_k s)).
Defined.

Definition set_k v (s : pst) := mkPst v (ps_f s) (ps_procs s) (ps_initproc s) (ps_nextpid s) (ps_pid_lock s) (ps_wait_lock s) (ps_cur s).
Definition set_f v (s : pst) := mkPst (ps_k s) v (ps_procs s) (ps_initproc s) (ps_nextpid s) (ps_pid_lock s) (ps_wait_lock s) (ps_cur s).
Definition set_procs v (s : pst) := mkPst (ps_k s) (ps_f s) v (ps_initproc s) (ps_nextpid s) (ps_pid_lock s) (ps_wait_lock s) (ps_cur s).
Definition set_initproc v (s : pst) := mkPst (ps_k s) (ps_f s) (ps_procs s) v (ps_nextpid s) (ps_pid_lock s) (ps_wait_lock s) (ps_cur s).
Definition set_nextpid v (s : pst) := mkPst (ps_k s) (ps_f s) (ps_procs s) (ps_initproc s) v (ps_pid_lock s) (ps_wait_lock s) (ps_cur s).
Definition set_pid_lock v (s : pst) := mkPst (ps_k s) (ps_f s) (ps_procs s) (ps_initproc s) (ps_nextpid s) v (ps_wait_lock s) (ps_cur s).
Definition set_wait_lock v (s : pst) := mkPst (ps_k s) (ps_f s) (ps_procs s) (ps_initproc s) (ps_nextpid s) (ps_pid_lock s) v (ps_cur s).
Definition set_cur v (s : pst) := mkPst (ps_k s) (ps_f s) (ps_procs s) (ps_initproc s) (ps_nextpid s) (ps_pid_lock s) (ps_wait_lock s) v.

Definition in_k {X} (c : M kst X) : M pst X := zoom ps_k set_k c.
Definition in_f {X} (c : M F X) : M pst X := zoom ps_f set_f c.

Definition get_p (p : Z) : M pst proc :=
  if p =? 0 then fault "null" else l ← gets ps_procs; arr_get l (p - 1).
Definition upd_p (p : Z) (f : proc -> proc) : M pst unit :=
  q ← get_p p; modify (fun s => set_procs (<[Z.to_nat (p - 1) := f q]> (ps_procs s)) s).

(** [&p->lock] *)
Definition plock (p : Z) (s : pst) : spinlock :=
  default (initlock "proc") (p_lock <$> ps_procs s !! Z.to_nat (p - 1)).
Definition set_plock_at (p : Z) (l : spinlock) (s : pst) : pst :=
  set_procs (alter (set_plock l) (Z.to_nat (p - 1)) (ps_procs s)) s.
Definition acquire_p (p : Z) : M pst unit := acquire_in (plock p) (set_plock_at p).
Definition release_p (p : Z) : M pst unit := release_in (plock p) (set_plock_at p).

(** [memset] to zero and the loop; [kmalloc] is the allocator's. *)
Definition procinit (kmalloc : M pst Z) : M pst unit :=
  modify (set_pid_lock (initlock "nextpid"));;
  modify (set_wait_lock (initlock "wait_lock"));;
  q ← kmalloc;
  if q =? 0 then panic "proc alloc"
  else modify (set_procs (zero_proc <$> seqZ 0 NPROC)).

Definition myproc : M pst Z :=
  modify (fun s => set_hart (push_off (hart_of s)) s);;
  p ← gets ps_cur;
  s ← get;
  match pop_off (hart_of s) with
  | Ret h => modify (set_hart h);; mret p
  | Panic msg => panic msg
  | _ => fault "pop_off"
  end.

Definition allocpid : M pst Z :=
  acquire_in ps_pid_lock set_pid_lock;;
  pid ← gets ps_nextpid;
  (if pid =? 2147483647 then fault "int overflow" else mret tt);;
  modify (set_nextpid (pid + 1));;
  release_in ps_pid_lock set_pid_lock;;
  mret pid.

Definition proc_pagetable (trapframe : Z) : M kst Z :=
  pagetable ← uvmcreate;
  if pagetable =? 0 then mret 0
  else
    r ← mappages pagetable TRAMPOLINE PGSIZE trampoline (Z.lor PTE_R PTE_X);
    if r <? 0 then uvmfree kend 3 pagetable 0;; mret 0
    else
      r ← mappages pagetable TRAPFRAME PGSIZE trapframe (Z.lor PTE_R PTE_W);
      if r <? 0 then
        uvmunmap kend pagetable TRAMPOLINE 1 false;;
        uvmfree kend 3 pagetable 0;;
        mret 0
      else mret pagetable.

Definition proc_freepagetable (pagetable sz : Z) : M kst unit :=
  uvmunmap kend pagetable TRAMPOLINE 1 false;;
  uvmunmap kend pagetable TRAPFRAME 1 false;;
  uvmfree kend 3 pagetable sz.

Definition freeproc (p : Z) : M pst unit :=
  q ← get_p p;
  (if negb (p_trapframe q =? 0) then in_k (page_kfree kend (p_trapframe q)) else mret tt);;
  upd_p p (set_ptrapframe 0);;
  (if negb (p_pagetable q =? 0) then in_k (proc_freepagetable (p_pagetable q) (p_sz q)) else mret tt);;
  upd_p p (set_ppagetable 0);;
  upd_p p (set_psz 0);;
  upd_p p (set_ppid 0);;
  upd_p p (set_pparent 0);;
  upd_p p (set_pname []);;
  upd_p p (set_pchan 0);;
  upd_p p (set_pkilled 0);;
  upd_p p (set_pxstate 0);;
  upd_p p (set_pstate UNUSED).

(** The scan of [allocproc]: the first UNUSED slot, its lock held, or 0. *)
Fixpoint allocproc_scan (n : nat) (p : Z) : M pst Z :=
  match n with
  | O => mret 0
  | S n =>
      acquire_p p;;
      q ← get_p p;
      if bool_decide (p_state q = UNUSED) then mret p
      else release_p p;; allocproc_scan n (p + 1)
  end.

Definition allocproc : M pst Z :=
  p ← allocproc_scan (Z.to_nat NPROC) 1;
  if p =? 0 then mret 0
  else
    pid ← allocpid;
    upd_p p (set_ppid pid);;
    upd_p p (set_pstate USED);;
    tf ← in_k kalloc;
    upd_p p (set_ptrapframe tf);;
    if tf =? 0 then freeproc p;; release_p p;; mret 0
    else
      pt ← in_k (proc_pagetable tf);
      upd_p p (set_ppagetable pt);;
      if pt =? 0 then freeproc p;; release_p p;; mret 0
      else
        q ← get_p p;
        upd_p p (set_pcontext forkret_addr (p_kstack q + PGSIZE));;
        mret p.

Definition userinit : M pst unit :=
  p ← allocproc;
  modify (set_initproc p);;
  cwd ← in_f fr_namei_root;
  upd_p p (set_pcwd cwd);;
  upd_p p (set_pstate RUNNABLE);;
  release_p p.

Definition growproc (n : Z) : M pst Z :=
  p ← myproc;
  q ← get_p p;
  let sz := p_sz q in
  if n >? 0 then
    if u64 (sz + n) >? TRAPFRAME then mret (-1)
    else
      sz ← in_k (uvmalloc kend (p_pagetable q) sz (u64 (sz + n)) PTE_W);
      if sz =? 0 then mret (-1) else upd_p p (set_psz sz);; mret 0
  else if n <? 0 then
    sz ← in_k (uvmdealloc kend (p_pagetable q) sz (u64 (sz + n)));
    upd_p p (set_psz sz);; mret 0
  else upd_p p (set_psz sz);; mret 0.

(** [for(i = 0; i < NOFILE; i++) if(p->ofile[i]) np->ofile[i] = filedup(p->ofile[i]);] *)
Fixpoint dup_files (l : list Z) (i np : Z) : M pst unit :=
  match l with
  | [] => mret tt
  | f :: l =>
      (if negb (f =? 0) then
         f' ← in_f (fr_filedup f);
         upd_p np (fun q => set_pofile (<[Z.to_nat i := f']> (p_ofile q)) q)
       else mret tt);;
      dup_files l (i + 1) np
  end.

Definition kfork : M pst Z :=
  p ← myproc;
  np ← allocproc;
  if np =? 0 then mret (-1)
  else
    q ← get_p p;
    nq ← get_p np;
    r ← in_k (uvmcopy kend (p_pagetable q) (p_pagetable nq) (p_sz q));
    if r <? 0 then freeproc np;; release_p np;; mret (-1)
    else
      upd_p np (set_psz (p_sz q));;
      in_k (set_bytes (fun m => memmove m (p_trapframe nq) (p_trapframe q) sizeof_trapframe));;
      in_k (setf 8 (p_trapframe nq) tf_a0 0);;
      dup_files (p_ofile q) 0 np;;
      cwd ← in_f (fr_idup (p_cwd q));
      upd_p np (set_pcwd cwd);;
      upd_p np (set_pname (take 15 (p_name q)));;
      nq ← get_p np;
      release_p np;;
      acquire_in ps_wait_lock set_wait_lock;;
      upd_p np (set_pparent p);;
      release_in ps_wait_lock set_wait_lock;;
      acquire_p np;;
      upd_p np (set_pstate RUNNABLE);;
      release_p np;;
      mret (p_pid nq).

(** [for(p = proc; p < &proc[NPROC]; p++)] of [wakeup] *)
Fixpoint wakeup_loop (n : nat) (p chan : Z) : M pst unit :=
  match n with
  | O => mret tt
  | S n =>
      me ← myproc;
      (if negb (p =? me) then
         acquire_p p;;
         q ← get_p p;
         (if bool_decide (p_state q = SLEEPING) && (p_chan q =? chan) then upd_p p (set_pstate RUNNABLE) else mret tt);;
         release_p p
       else mret tt);;
      wakeup_loop n (p + 1) chan
  end.
Definition wakeup (chan : Z) : M pst unit := wakeup_loop (Z.to_nat NPROC) 1 chan.

Fixpoint reparent_loop (n : nat) (pp p : Z) : M pst unit :=
  match n with
  | O => mret tt
  | S n =>
      q ← get_p pp;
      (if p_parent q =? p then
         init ← gets ps_initproc;
         upd_p pp (set_pparent init);;
         wakeup init
       else mret tt);;
      reparent_loop n (pp + 1) p
  end.
Definition reparent (p : Z) : M pst unit := reparent_loop (Z.to_nat NPROC) 1 p.

(** The checks of [sched] before [swtch]; the saved [intena]. *)
Definition sched : M pst bool :=
  p ← myproc;
  s ← get;
  if negb (holding (plock p s) (hart_of s)) then panic "sched p->lock"
  else if negb (h_noff (hart_of s) =? 1) then panic "sched locks"
  else
    q ← get_p p;
    if bool_decide (p_state q = RUNNING) then panic "sched RUNNING"
    else if h_sie (hart_of s) then panic "sched interruptible"
    else mret (h_intena (hart_of s)).
(** [mycpu()->intena = intena;] *)
Definition sched_return (intena : bool) : M pst unit :=
  modify (fun s => let h := hart_of s in set_hart (mkHart (h_cpu h) (h_noff h) intena (h_sie h)) s).

(** The loop body of [scheduler] up to [swtch]: true if it switches to [p]. *)
Definition scheduler_pick (p : Z) : M pst bool :=
  acquire_p p;;
  q ← get_p p;
  if bool_decide (p_state q = RUNNABLE) then
    upd_p p (set_pstate RUNNING);;
    modify (set_cur p);;
    mret true
  else release_p p;; mret false.
(** From the return of [swtch] on. *)
Definition scheduler_back (p : Z) : M pst unit :=
  modify (set_cur 0);;
  release_p p.

Definition yield_begin : M pst bool :=
  p ← myproc;
  acquire_p p;;
  upd_p p (set_pstate RUNNABLE);;
  sched.
Definition yield_end (intena : bool) : M pst unit :=
  sched_return intena;;
  p ← gets ps_cur;
  release_p p.

(** [forkret]: what a new process does with the lock the scheduler took. *)
Definition forkret_release : M pst unit := p ← myproc; release_p p.

Definition sleep_begin (chan : Z) (release_lk : M pst unit) : M pst bool :=
  p ← myproc;
  acquire_p p;;
  release_lk;;
  upd_p p (set_pchan chan);;
  upd_p p (set_pstate SLEEPING);;
  sched.
Definition sleep_end (intena : bool) (acquire_lk : M pst unit) : M pst unit :=
  sched_return intena;;
  p ← gets ps_cur;
  upd_p p (set_pchan 0);;
  release_p p;;
  acquire_lk.

Fixpoint kkill_loop (n : nat) (p pid : Z) : M pst Z :=
  match n with
  | O => mret (-1)
  | S n =>
      acquire_p p;;
      q ← get_p p;
      if p_pid q =? pid then
        upd_p p (set_pkilled 1);;
        (if bool_decide (p_state q = SLEEPING) then upd_p p (set_pstate RUNNABLE) else mret tt);;
        release_p p;;
        mret 0
      else release_p p;; kkill_loop n (p + 1) pid
  end.
Definition kkill (pid : Z) : M pst Z := kkill_loop (Z.to_nat NPROC) 1 pid.

Definition setkilled (p : Z) : M pst unit :=
  acquire_p p;; upd_p p (set_pkilled 1);; release_p p.

Definition killed (p : Z) : M pst Z :=
  acquire_p p;;
  q ← get_p p;
  release_p p;;
  mret (p_killed q).

Fixpoint close_files (n : nat) (fd p : Z) : M pst unit :=
  match n with
  | O => mret tt
  | S n =>
      q ← get_p p;
      f ← arr_get (p_ofile q) fd;
      (if negb (f =? 0) then
         in_f (fr_fileclose f);;
         upd_p p (fun q => set_pofile (<[Z.to_nat fd := 0]> (p_ofile q)) q)
       else mret tt);;
      close_files n (fd + 1) p
  end.

(** [kexit] up to the [swtch] it never returns from. *)
Definition kexit (status : Z) : M pst bool :=
  p ← myproc;
  init ← gets ps_initproc;
  if p =? init then panic "init exiting"
  else
    close_files (Z.to_nat NOFILE) 0 p;;
    in_f fr_begin_op;;
    q ← get_p p;
    in_f (fr_iput (p_cwd q));;
    in_f fr_end_op;;
    upd_p p (set_pcwd 0);;
    acquire_in ps_wait_lock set_wait_lock;;
    reparent p;;
    q ← get_p p;
    wakeup (p_parent q);;
    acquire_p p;;
    upd_p p (set_pxstate status);;
    upd_p p (set_pstate ZOMBIE);;
    release_in ps_wait_lock set_wait_lock;;
    sched.

(** The scan of [kwait]: [inl r] is [return r], [inr havekids] is the end of
    the loop. *)
Fixpoint kwait_scan (n : nat) (pp p addr : Z) (havekids : bool) : M pst (Z + bool) :=
  match n with
  | O => mret (inr havekids)
  | S n =>
      q ← get_p pp;
      if p_parent q =? p then
        acquire_p pp;;
        q ← get_p pp;
        if bool_decide (p_state q = ZOMBIE) then
          me ← get_p p;
          r ← (if negb (addr =? 0) then
                 in_k (set_bytes (fun m => st32 m (xstate_addr pp) (p_xstate q));;
                       copyout (p_sz me) (p_pagetable me) kfree 3 (p_pagetable me) addr (xstate_addr pp) 4)
               else mret 0);
          if r <? 0 then
            release_p pp;;
            release_in ps_wait_lock set_wait_lock;;
            mret (inl (-1))
          else
            freeproc pp;;
            release_p pp;;
            release_in ps_wait_lock set_wait_lock;;
            mret (inl (p_pid q))
        else release_p pp;; kwait_scan n (pp + 1) p addr true
      else kwait_scan n (pp + 1) p addr havekids
  end.

(** One turn of the [for(;;)] of [kwait], entered with [wait_lock] held:
    [inl r] is a return, [inr intena] the [swtch] inside [sleep]. *)
Definition kwait_turn (addr : Z) : M pst (Z + bool) :=
  p ← myproc;
  r ← kwait_scan (Z.to_nat NPROC) 1 p addr false;
  match r with
  | inl r => mret (inl r)
  | inr havekids =>
      k ← (if havekids : bool then killed p else mret 0);
      if negb havekids || negb (k =? 0) then
        release_in ps_wait_lock set_wait_lock;;
        mret (inl (-1))
      else
        intena ← sleep_begin p (release_in ps_wait_lock set_wait_lock);
        mret (inr intena)
  end.

(** [kwait] from its call. *)
Definition kwait (addr : Z) : M pst (Z + bool) :=
  acquire_in ps_wait_lock set_wait_lock;;
  kwait_turn addr.

(** Kernel addresses are addresses of the machine memory. *)
Definition either_copyout (user_dst : bool) (dst src len : Z) : M pst Z :=
  p ← myproc;
  if user_dst then
    q ← get_p p;
    in_k (copyout (p_sz q) (p_pagetable q) kfree (S (Z.to_nat len)) (p_pagetable q) dst src len)
  else in_k (set_bytes (fun m => memmove m dst src len));; mret 0.

Definition either_copyin (dst : Z) (user_src : bool) (src len : Z) : M pst Z :=
  p ← myproc;
  if user_src then
    q ← get_p p;
    in_k (copyin (p_sz q) (p_pagetable q) kfree (S (Z.to_nat len)) (p_pagetable q) dst src len)
  else in_k (set_bytes (fun m => memmove m dst src len));; mret 0.

End Proc.
Arguments pst F : clear implicits.
