(* ===== verification/ProcView.v ===== *)
(** * What the routines of proc.c do to the process table

    [pv] is the part of [struct proc] that decides scheduling, exit and wait;
    [view_of s] is the table of these with [initproc], [nextpid] and the
    current process.  Locks, memory and files do not show in a view, so each
    routine, whenever it returns, is a function on views: the lemmas below
    say which. *)

From Stdlib Require Import ZArith Lia Bool String.
From stdpp Require Import base gmap list strings.
From S2P Require Import Prelude Mem MemList Spinlock Kalloc Vm Proc.

Record pv := mkPv { v_state : procstate; v_chan : Z; v_killed : Z; v_xstate : Z; v_pid : Z; v_parent : Z }.

Definition pview (p : proc) : pv := mkPv (p_state p) (p_chan p) (p_killed p) (p_xstate p) (p_pid p) (p_parent p).

Record view := mkView { vw_procs : list pv; vw_init : Z; vw_nextpid : Z; vw_cur : Z }.

Definition vset (k : nat) (x : pv) (v : view) : view :=
  mkView (<[k := x]> (vw_procs v)) (vw_init v) (vw_nextpid v) (vw_cur v).
Definition vcur (c : Z) (v : view) : view := mkView (vw_procs v) (vw_init v) (vw_nextpid v) c.

(** The slot of pointer [p]. *)
Definition slot (p : Z) : nat := Z.to_nat (p - 1).

Definition free_pv : pv := mkPv UNUSED 0 0 0 0 0.
Definition to_state (t : procstate) (x : pv) : pv := mkPv t (v_chan x) (v_killed x) (v_xstate x) (v_pid x) (v_parent x).
Definition to_chan (c : Z) (x : pv) : pv := mkPv (v_state x) c (v_killed x) (v_xstate x) (v_pid x) (v_parent x).
Definition to_killed (n : Z) (x : pv) : pv := mkPv (v_state x) (v_chan x) n (v_xstate x) (v_pid x) (v_parent x).
Definition to_xstate (n : Z) (x : pv) : pv := mkPv (v_state x) (v_chan x) (v_killed x) n (v_pid x) (v_parent x).
Definition to_pid (n : Z) (x : pv) : pv := mkPv (v_state x) (v_chan x) (v_killed x) (v_xstate x) n (v_parent x).
Definition to_parent (q : Z) (x : pv) : pv := mkPv (v_state x) (v_chan x) (v_killed x) (v_xstate x) (v_pid x) q.

(** [wakeup(chan)] on the slot of [p], called by [me]. *)
Definition waked (me chan p : Z) (x : pv) : pv :=
  if negb (p =? me) && bool_decide (v_state x = SLEEPING) && (v_chan x =? chan) then to_state RUNNABLE x else x.

(** [f p] applied to the slot of each pointer [p]. *)
Definition vmap (f : Z -> pv -> pv) (v : view) : view :=
  mkView (imap (fun k => f (Z.of_nat k + 1)) (vw_procs v)) (vw_init v) (vw_nextpid v) (vw_cur v).

Lemma vmap_lookup f v k : vw_procs (vmap f v) !! k = f (Z.of_nat k + 1) <$> vw_procs v !! k.
Proof. unfold vmap. cbn [vw_procs]. by rewrite list_lookup_imap. Qed.

Lemma view_ext v v' : (forall k, vw_procs v !! k = vw_procs v' !! k) -> vw_init v = vw_init v' ->
  vw_nextpid v = vw_nextpid v' -> vw_cur v = vw_cur v' -> v = v'.
Proof. destruct v, v'. cbn. intros H -> -> ->. f_equal. by apply list_eq. Qed.

Lemma vmap_id v (f : Z -> pv -> pv) : (forall k x, vw_procs v !! k = Some x -> f (Z.of_nat k + 1) x = x) -> vmap f v = v.
Proof.
  intros H. apply view_ext; [|done..]. intros k. rewrite vmap_lookup. destruct (vw_procs v !! k) eqn:E; [|done]. cbn. by rewrite H.
Qed.

Lemma slot_inj p q : 0 < p -> 0 < q -> slot p = slot q -> p = q.
Proof. unfold slot. lia. Qed.

Lemma slot_ptr k : slot (Z.of_nat k + 1) = k.
Proof. unfold slot. lia. Qed.

Lemma ptr_slot p : 0 < p -> Z.of_nat (slot p) + 1 = p.
Proof. unfold slot. lia. Qed.

Lemma vset_vset k x y v : vset k y (vset k x v) = vset k y v.
Proof. unfold vset. cbn. by rewrite list_insert_insert_eq. Qed.

Lemma vset_lookup k x v y : vw_procs v !! k = Some y -> vw_procs (vset k x v) !! k = Some x.
Proof. intros H. apply list_lookup_insert_eq. by eapply lookup_lt_Some. Qed.

Lemma vset_lookup_ne k j x v : k <> j -> vw_procs (vset k x v) !! j = vw_procs v !! j.
Proof. intros. by apply list_lookup_insert_ne. Qed.

(** A map over the pointers from [p] on, after the first has been done. *)
Lemma vmap_from f v p n x : 0 < p -> vw_procs v !! slot p = Some x ->
  vmap (fun q y => if decide (p + 1 <= q < p + 1 + Z.of_nat n) then f q y else y) (vset (slot p) (f p x) v) =
  vmap (fun q y => if decide (p <= q < p + Z.of_nat (S n)) then f q y else y) v.
Proof.
  intros Hp Hx. apply view_ext; [|done..]. intros k. rewrite !vmap_lookup. destruct (decide (slot p = k)) as [<-|Hne].
  - rewrite (vset_lookup _ _ _ _ Hx), Hx. cbn [fmap option_fmap option_map].
    rewrite !ptr_slot by done. by rewrite decide_False, decide_True by lia.
  - rewrite vset_lookup_ne by done. destruct (vw_procs v !! k) as [y|]; [|done]. cbn [fmap option_fmap option_map]. f_equal.
    assert (Z.of_nat k + 1 <> p) by (intros <-; by rewrite slot_ptr in Hne). repeat case_decide; (done || lia).
Qed.

Section View.
Context {F : Type} {FR : FileRefs F}.
Context (kend trampoline forkret_addr : Z) (xstate_addr : Z -> Z) (kfree : Z -> M kst unit).

Definition view_of (s : pst F) : view := mkView (pview <$> ps_procs s) (ps_initproc s) (ps_nextpid s) (ps_cur s).

(** [c] does not show in the view. *)
Definition silent {X} (c : M (pst F) X) : Prop := forall s, wlp c (fun _ s' => view_of s' = view_of s) s.

Lemma wlp_silent {X} (c : M (pst F) X) (Q : X -> pst F -> Prop) s :
  silent c -> (forall r s', view_of s' = view_of s -> Q r s') -> wlp c Q s.
Proof. intros Hc HQ. eapply wlp_mono; [apply Hc|]. cbn beta. auto. Qed.

Lemma silent_bind {X Y} (c : M (pst F) X) (k : X -> M (pst F) Y) : silent c -> (forall x, silent (k x)) -> silent (c ≫= k).
Proof.
  intros Hc Hk s. apply wlp_bind. eapply wlp_mono; [apply Hc|]. cbn beta. intros r s' E.
  eapply wlp_mono; [apply Hk|]. cbn beta. intros. congruence.
Qed.

Lemma silent_ret {X} (x : X) : silent (mret x).
Proof. by intros s. Qed.

Lemma silent_in_k {X} (c : M kst X) : silent (in_k c).
Proof. intros s. apply wlp_zoom. by intros. Qed.

Lemma silent_in_f {X} (c : M F X) : silent (in_f c).
Proof. intros s. apply wlp_zoom. by intros. Qed.

Lemma silent_acquire g p : (forall l s, view_of (p l s) = view_of s) -> silent (acquire_in g p).
Proof.
  intros Hp s. unfold wlp, acquire_in. destruct (acquire (g s) (hart_of s)) as [[l h]| | | |]; try done. by rewrite Hp.
Qed.

Lemma silent_release g p : (forall l s, view_of (p l s) = view_of s) -> silent (release_in g p).
Proof.
  intros Hp s. unfold wlp, release_in. destruct (release (g s) (hart_of s)) as [[l h]| | | |]; try done. by rewrite Hp.
Qed.

Lemma view_plock p l (s : pst F) : view_of (set_plock_at p l s) = view_of s.
Proof.
  unfold view_of, set_plock_at. cbn [ps_procs set_procs ps_initproc ps_nextpid ps_cur]. f_equal.
  apply list_eq. intros k. rewrite !list_lookup_fmap, list_lookup_alter. case_decide as E; [|done]. subst k. by destruct (ps_procs s !! _).
Qed.

Lemma silent_acquire_p p : silent (acquire_p p).
Proof. apply silent_acquire, view_plock. Qed.
Lemma silent_release_p p : silent (release_p p).
Proof. apply silent_release, view_plock. Qed.
Lemma silent_acquire_wait : silent (acquire_in ps_wait_lock set_wait_lock).
Proof. by apply silent_acquire. Qed.
Lemma silent_release_wait : silent (release_in ps_wait_lock set_wait_lock).
Proof. by apply silent_release. Qed.

Lemma wlp_myproc (Q : Z -> pst F -> Prop) s :
  (forall s', view_of s' = view_of s -> Q (vw_cur (view_of s)) s') -> wlp myproc Q s.
Proof.
  intros HQ. unfold myproc. wlp_step. wlp_step. wlp_step. apply wlp_gets. wlp_step. unfold get, wlp.
  destruct (pop_off _) as [h| | | |]; try done. by apply HQ.
Qed.

(** ** Slots *)

Lemma wlp_get_p p (Q : proc -> pst F -> Prop) s :
  (forall q, 0 < p -> ps_procs s !! slot p = Some q -> vw_procs (view_of s) !! slot p = Some (pview q) -> Q q s) ->
  wlp (get_p p) Q s.
Proof.
  intros HQ. unfold get_p. destruct (Z.eqb_spec p 0); [exact I|]. wlp_step. apply wlp_gets. unfold arr_get.
  destruct (0 <=? p - 1) eqn:Hp; [|exact I]. destruct (_ <? _); [|exact I]. cbn [andb].
  destruct (ps_procs s !! Z.to_nat (p - 1)) as [q|] eqn:E; [|exact I]. apply wlp_ret. apply HQ; [lia|done|]. cbn [view_of vw_procs]. rewrite list_lookup_fmap. unfold slot. by rewrite E.
Qed.

Lemma wlp_upd_p p f g (Q : unit -> pst F -> Prop) s :
  (forall q, pview (f q) = g (pview q)) ->
  (forall x s', 0 < p -> vw_procs (view_of s) !! slot p = Some x -> view_of s' = vset (slot p) (g x) (view_of s) -> Q tt s') ->
  wlp (upd_p p f) Q s.
Proof.
  intros Hg HQ. unfold upd_p. wlp_step. apply wlp_get_p. intros q Hp Hq Hx. apply wlp_modify. apply (HQ (pview q)); [done|done|].
  unfold view_of, vset. cbn [ps_procs set_procs ps_initproc ps_nextpid ps_cur vw_procs vw_init vw_nextpid vw_cur]. f_equal.
  rewrite list_fmap_insert, Hg. done.
Qed.

Lemma silent_upd_p p f : (forall q, pview (f q) = pview q) -> silent (upd_p p f).
Proof.
  intros Hf s. apply (wlp_upd_p p f (fun x => x)); [done|]. intros x s' _ Hx ->. unfold vset. destruct (view_of s) as [l i n c].
  cbn [vw_procs vw_init vw_nextpid vw_cur] in *. by rewrite list_insert_id.
Qed.

Lemma silent_get_p p : silent (get_p p).
Proof. intros s. by apply wlp_get_p. Qed.

(** ** Rules on views *)

(** Whenever [c] returns from a state with view [v], the result and the view
    it leaves satisfy [Q]. *)
Definition wlpv {X} (c : M (pst F) X) (Q : X -> view -> Prop) (v : view) : Prop :=
  forall s, view_of s = v -> wlp c (fun r s' => Q r (view_of s')) s.

Lemma wlpv_bind {X Y} (c : M (pst F) X) (k : X -> M (pst F) Y) Q v :
  wlpv c (fun r => wlpv (k r) Q) v -> wlpv (c ≫= k) Q v.
Proof.
  intros H s E. apply wlp_bind. eapply wlp_mono; [by apply H|]. cbn beta. intros r s' Hk. by apply Hk.
Qed.

Lemma wlpv_ret {X} (x : X) (Q : X -> view -> Prop) v : Q x v -> wlpv (mret x) Q v.
Proof. intros H s <-. by apply wlp_ret. Qed.

Lemma wlpv_mono {X} (c : M (pst F) X) (Q R : X -> view -> Prop) v :
  wlpv c Q v -> (forall r v', Q r v' -> R r v') -> wlpv c R v.
Proof. intros H HR s E. eapply wlp_mono; [by apply H|]. auto. Qed.

Lemma wlpv_silent {X} (c : M (pst F) X) (Q : X -> view -> Prop) v : silent c -> (forall r, Q r v) -> wlpv c Q v.
Proof. intros Hc HQ s <-. eapply wlp_silent; [done|]. intros r s' ->. apply HQ. Qed.

Lemma wlpv_get_p p (Q : proc -> view -> Prop) v :
  (forall q, 0 < p -> vw_procs v !! slot p = Some (pview q) -> Q q v) -> wlpv (get_p p) Q v.
Proof. intros HQ s <-. apply wlp_get_p. intros q Hp _ Hx. by apply HQ. Qed.

Lemma wlpv_upd_p p f g (Q : unit -> view -> Prop) v :
  (forall q, pview (f q) = g (pview q)) ->
  (forall x, 0 < p -> vw_procs v !! slot p = Some x -> Q tt (vset (slot p) (g x) v)) -> wlpv (upd_p p f) Q v.
Proof. intros Hg HQ s <-. eapply wlp_upd_p; [done|]. intros x s' Hp Hx ->. by apply HQ. Qed.

Lemma wlpv_myproc (Q : Z -> view -> Prop) v : Q (vw_cur v) v -> wlpv myproc Q v.
Proof. intros HQ s <-. apply wlp_myproc. intros s' ->. done. Qed.

Lemma wlpv_init (Q : Z -> view -> Prop) v : Q (vw_init v) v -> wlpv (gets ps_initproc) Q v.
Proof. intros HQ s <-. by apply wlp_gets. Qed.

Lemma wlpv_set_cur c (Q : unit -> view -> Prop) v : Q tt (vcur c v) -> wlpv (modify (set_cur c)) Q v.
Proof. intros HQ s <-. by apply wlp_modify. Qed.

End View.

Create HintDb silent.
#[export] Hint Resolve silent_bind silent_ret silent_in_k silent_in_f silent_acquire_p silent_release_p
  silent_acquire_wait silent_release_wait silent_get_p : silent.
#[export] Hint Extern 2 (silent (upd_p _ _)) => apply silent_upd_p; reflexivity : silent.
#[export] Hint Extern 2 (silent (if _ then _ else _)) => case_match : silent.

(** One step of a routine on views. *)
Ltac v_step :=
  lazymatch goal with
  | |- wlpv (_ ≫= _) _ _ => apply wlpv_bind
  | |- wlpv (mret _) _ _ => apply wlpv_ret
  | |- wlpv myproc _ _ => apply wlpv_myproc
  | |- wlpv (gets ps_initproc) _ _ => apply wlpv_init
  | |- wlpv (modify (set_cur _)) _ _ => apply wlpv_set_cur
  | |- wlpv (panic _) _ _ => intros ? _; exact I
  | |- wlpv _ _ _ => apply wlpv_silent; [solve [eauto with silent]|intros ?]
  end; cbn beta.

(** A change of the slot of [p] by [g]; repeated changes of one slot are
    merged. *)
Ltac v_upd g :=
  eapply (wlpv_upd_p _ _ g); [reflexivity|];
  let x := fresh "x" in let Hp := fresh "Hp" in let Hx := fresh "Hx" in intros x Hp Hx;
  repeat match goal with
  | H : vw_procs ?v !! ?k = Some ?y, H' : vw_procs (vset ?k ?z ?v) !! ?k = Some x |- _ =>
      rewrite (vset_lookup k z v y H) in H'; injection H' as <-
  end; rewrite ?vset_vset.

Section Ops.
Context {F : Type} {FR : FileRefs F}.
Context (kend trampoline forkret_addr : Z) (xstate_addr : Z -> Z) (kfree : Z -> M kst unit).

Lemma v_freeproc p (Q : unit -> view -> Prop) v :
  (forall x, 0 < p -> vw_procs v !! slot p = Some x -> Q tt (vset (slot p) free_pv v)) ->
  wlpv (F := F) (freeproc kend p) Q v.
Proof.
  intros HQ. unfold freeproc. v_step. apply wlpv_get_p. intros q Hp Hq. do 10 v_step.
  v_step. v_upd (to_pid 0). v_step. v_upd (to_parent 0). v_step. v_step. v_step. v_upd (to_chan 0).
  v_step. v_upd (to_killed 0). v_step. v_upd (to_xstate 0). v_upd (to_state UNUSED). by apply (HQ (pview q)).
Qed.

Lemma v_allocproc_scan n : forall p (Q : Z -> view -> Prop) v,
  (Q 0 v) ->
  (forall p' x, p <= p' < p + Z.of_nat n -> 0 < p' -> vw_procs v !! slot p' = Some x -> v_state x = UNUSED ->
     (forall q y, p <= q < p' -> vw_procs v !! slot q = Some y -> v_state y <> UNUSED) -> Q p' v) ->
  wlpv (F := F) (allocproc_scan n p) Q v.
Proof.
  induction n as [|n IH]; intros p Q v H0 HQ; cbn [allocproc_scan]; [by v_step|].
  v_step. v_step. v_step. apply wlpv_get_p. intros q Hp Hq. case_bool_decide as E.
  - v_step. apply (HQ p (pview q)); [lia|done|done|done|]. lia.
  - v_step. v_step. apply IH; [done|]. intros p' x Hp' Hp0 Hx Hu Hf. apply (HQ p' x); [lia|done|done|done|]. intros q' y Hq' Hy.
    destruct (decide (q' = p)) as [->|Hne]; [|by apply (Hf q'); [lia|]]. rewrite Hq in Hy. by injection Hy as <-.
Qed.

Definition vnext (v : view) : view := mkView (vw_procs v) (vw_init v) (vw_nextpid v + 1) (vw_cur v).

Lemma v_allocpid (Q : Z -> view -> Prop) v : Q (vw_nextpid v) (vnext v) -> wlpv (F := F) allocpid Q v.
Proof.
  intros HQ s <-. unfold allocpid. apply wlp_bind. eapply wlp_silent; [by apply silent_acquire|]. intros _ s1 E1.
  apply wlp_bind, wlp_gets. apply wlp_bind. destruct (_ =? 2147483647); [exact I|]. apply wlp_ret. apply wlp_bind, wlp_modify. apply wlp_bind. eapply wlp_silent; [by apply silent_release|].
  intros _ s2 E2. apply wlp_ret. rewrite E2. unfold vnext in HQ. rewrite <- E1 in HQ. done.
Qed.

(** The slot of [p] is the first that is UNUSED. *)
Definition first_unused (v : view) (p : Z) : Prop :=
  0 < p <= NPROC /\ (exists x, vw_procs v !! slot p = Some x /\ v_state x = UNUSED) /\
  forall q y, 1 <= q < p -> vw_procs v !! slot q = Some y -> v_state y <> UNUSED.

(** [allocproc] returns 0, leaving at most a freed slot and a used-up pid, or
    the first UNUSED slot with the next pid. *)
Lemma v_allocproc (Q : Z -> view -> Prop) v :
  Q 0 v ->
  (forall p x, first_unused v p -> 0 < p <= NPROC -> vw_procs v !! slot p = Some x -> v_state x = UNUSED ->
     Q 0 (vset (slot p) free_pv (vnext v)) /\ Q p (vset (slot p) (to_state USED (to_pid (vw_nextpid v) x)) (vnext v))) ->
  wlpv (F := F) (allocproc kend trampoline forkret_addr) Q v.
Proof.
  intros H0 HQ. unfold allocproc. v_step. apply v_allocproc_scan; [change (0 =? 0) with true; cbv iota; by v_step|]. intros p x Hr Hp Hx Hu Hf.
  assert (0 < p <= NPROC) as Hpn by (unfold NPROC in *; lia). destruct (HQ p x ltac:(split; eauto) Hpn Hx Hu) as [Q1 Q2]. rewrite (proj2 (Z.eqb_neq p 0)) by lia.
  v_step. apply v_allocpid. v_step. v_upd (to_pid (vw_nextpid v)). v_step. v_upd (to_state USED).
  assert (vw_procs (vnext v) !! slot p = Some x) as Hx' by exact Hx. rewrite Hx' in Hx0. injection Hx0 as <-.
  do 4 v_step. case_match.
  { v_step. apply v_freeproc. intros y _ Hy. rewrite vset_vset. v_step. v_step. by v_step. }
  do 4 v_step. case_match.
  { v_step. apply v_freeproc. intros y _ Hy. rewrite vset_vset. v_step. v_step. by v_step. }
  v_step. apply wlpv_get_p. intros q _ Hq. v_step. v_step. by v_step.
Qed.

Lemma silent_dup_files l : forall i np, silent (F := F) (dup_files l i np).
Proof. induction l as [|f l IH]; intros i np; cbn [dup_files]; eauto 10 with silent. Qed.

Lemma silent_close_files n : forall fd p, silent (F := F) (close_files n fd p).
Proof.
  induction n as [|n IH]; intros fd p; cbn [close_files]; [auto with silent|].
  apply silent_bind; [auto with silent|]. intros q. apply silent_bind.
  - intros s. unfold arr_get. destruct (_ && _); [|exact I]. by destruct (_ !! _).
  - intros f. eauto 10 with silent.
Qed.

(** ** fork *)

Lemma v_kfork (Q : Z -> view -> Prop) v :
  Q (-1) v ->
  (forall p x, first_unused v p -> 0 < p <= NPROC -> vw_procs v !! slot p = Some x -> v_state x = UNUSED ->
     Q (-1) (vset (slot p) free_pv (vnext v)) /\
     Q (vw_nextpid v) (vset (slot p) (to_state RUNNABLE (to_parent (vw_cur v) (to_pid (vw_nextpid v) x))) (vnext v))) ->
  wlpv (F := F) (kfork kend trampoline forkret_addr) Q v.
Proof.
  intros H0 HQ. unfold kfork. v_step. v_step. v_step. apply v_allocproc; [change (0 =? 0) with true; cbv iota; by v_step|].
  intros p x Hf Hp Hx Hu. destruct (HQ p x Hf Hp Hx Hu) as [Q1 Q2]. split; [change (0 =? 0) with true; cbv iota; by v_step|].
  rewrite (proj2 (Z.eqb_neq p 0)) by lia. v_step. apply wlpv_get_p. intros q _ Hq. v_step. apply wlpv_get_p. intros nq _ Hnq.
  v_step. v_step. case_match.
  { v_step. apply v_freeproc. intros y _ Hy. rewrite vset_vset. v_step. v_step. by v_step. }
  do 6 v_step. v_step. apply wlpv_silent; [apply silent_dup_files|]. intros _. do 6 v_step.
  v_step. apply wlpv_get_p. intros nq' _ Hnq'. assert (vw_procs (vnext v) !! slot p = Some x) as Hx' by exact Hx.
  rewrite (vset_lookup _ _ _ _ Hx') in Hnq'. injection Hnq' as _ _ _ _ Enq _.
  do 4 v_step. v_step. v_upd (to_parent (vw_cur v)). do 4 v_step. v_step. v_upd (to_state RUNNABLE). do 2 v_step. v_step.
  rewrite <- Enq. exact Q2.
Qed.

(** ** wakeup and reparent *)

Lemma waked_me me chan x : waked me chan me x = x.
Proof. unfold waked. by rewrite Z.eqb_refl. Qed.

Lemma v_wakeup_loop n : forall p chan (Q : unit -> view -> Prop) v, 0 < p ->
  Q tt (vmap (fun q x => if decide (p <= q < p + Z.of_nat n) then waked (vw_cur v) chan q x else x) v) ->
  wlpv (F := F) (wakeup_loop n p chan) Q v.
Proof.
  induction n as [|n IH]; intros p chan Q v Hp HQ; cbn [wakeup_loop].
  { v_step. rewrite vmap_id in HQ; [done|]. intros k x _. by rewrite decide_False by lia. }
  v_step. v_step. v_step. destruct (Z.eqb_spec p (vw_cur v)) as [E|E]; cbn [negb].
  - v_step. apply IH; [lia|]. replace (vmap _ v) with (vmap (fun q x => if decide (p <= q < p + Z.of_nat (S n)) then waked (vw_cur v) chan q x else x) v); [done|].
    apply view_ext; [|done..]. intros k. rewrite !vmap_lookup. destruct (vw_procs v !! k) as [y|]; [|done]. cbn. f_equal.
    destruct (decide (Z.of_nat k + 1 = p)) as [Ek|Nk]; [|repeat case_decide; (done || lia)].
    rewrite Ek, E, waked_me. by repeat case_decide.
  - v_step. v_step. v_step. apply wlpv_get_p. intros q _ Hq.
    assert (wlpv (F := F) (wakeup_loop n (p + 1) chan) Q (vset (slot p) (waked (vw_cur v) chan p (pview q)) v)) as Hn.
    { apply IH; [lia|]. change (vw_cur (vset _ _ v)) with (vw_cur v). by rewrite (vmap_from (waked (vw_cur v) chan)). }
    unfold waked in Hn. rewrite (proj2 (Z.eqb_neq p (vw_cur v)) E) in Hn. cbn [negb andb pview v_state v_chan] in Hn.
    v_step. destruct (bool_decide (p_state q = SLEEPING) && (p_chan q =? chan)).
    + v_upd (to_state RUNNABLE). rewrite Hx in Hq. injection Hq as ->. by v_step.
    + v_step. v_step. fold (pview q) in Hn. unfold vset in Hn. rewrite (list_insert_id _ _ _ Hq) in Hn. by destruct v.
Qed.

Lemma v_wakeup chan (Q : unit -> view -> Prop) v : length (vw_procs v) = 64%nat ->
  Q tt (vmap (waked (vw_cur v) chan) v) -> wlpv (F := F) (wakeup chan) Q v.
Proof.
  intros Hl HQ. apply v_wakeup_loop; [lia|].
  replace (vmap _ v) with (vmap (waked (vw_cur v) chan) v); [done|]. apply view_ext; [|done..]. intros k. rewrite !vmap_lookup.
  destruct (vw_procs v !! k) as [y|] eqn:E; [|done]. apply lookup_lt_Some in E. cbn. rewrite decide_True; [done|]. unfold NPROC. lia.
Qed.

(** Child [x] of [p] goes to [init]. *)
Definition adopt (p init : Z) (x : pv) : pv := if v_parent x =? p then to_parent init x else x.

Lemma waked_parent me chan q x : v_parent (waked me chan q x) = v_parent x.
Proof. unfold waked. by destruct (_ && _). Qed.

Lemma waked_adopt me chan q p init x : waked me chan q (adopt p init x) = adopt p init (waked me chan q x).
Proof.
  unfold adopt. rewrite waked_parent. destruct (v_parent x =? p); [|done]. unfold waked, to_parent. cbn. by destruct (_ && _).
Qed.

Lemma waked_waked me chan q x : waked me chan q (waked me chan q x) = waked me chan q x.
Proof. unfold waked at 2 3. destruct (_ && _) eqn:E; unfold waked; [by rewrite andb_false_r|by rewrite E]. Qed.

Lemma v_reparent_loop n : forall pp p (Q : unit -> view -> Prop) v, 0 < pp -> length (vw_procs v) = 64%nat ->
  (forall b : bool, (b = true -> exists k x, vw_procs v !! k = Some x /\ v_parent x = p) ->
     (b = false -> forall k x, pp <= Z.of_nat k + 1 < pp + Z.of_nat n -> vw_procs v !! k = Some x -> v_parent x <> p) ->
     Q tt (vmap (fun q x => let y := if decide (pp <= q < pp + Z.of_nat n) then adopt p (vw_init v) x else x in
                            if b then waked (vw_cur v) (vw_init v) q y else y) v)) ->
  wlpv (F := F) (reparent_loop n pp p) Q v.
Proof.
  induction n as [|n IH]; intros pp p Q v Hpp Hl HQ; cbn [reparent_loop].
  { v_step. specialize (HQ false). rewrite vmap_id in HQ; [apply HQ; [done|intros; lia]|]. intros k x _. by rewrite decide_False by lia. }
  v_step. apply wlpv_get_p. intros q _ Hq. v_step. destruct (Z.eqb_spec (p_parent q) p) as [E|E].
  - v_step. v_step. v_step. v_upd (to_parent (vw_init v)). rewrite Hx in Hq. injection Hq as ->.
    set (v1 := vset (slot pp) (to_parent (vw_init v) (pview q)) v).
    assert (length (vw_procs v1) = 64%nat) as Hl1 by (unfold v1; cbn; by rewrite length_insert).
    apply v_wakeup; [done|]. apply IH; [lia|cbn; by rewrite length_imap|].
    intros b Hb1 Hb2. change (vw_init (vmap _ v1)) with (vw_init v). change (vw_cur (vmap _ v1)) with (vw_cur v).
    specialize (HQ true ltac:(intros _; exists (slot pp), (pview q); done) ltac:(done)). cbv zeta beta iota in HQ.
    replace (vmap _ (vmap _ v1)) with (vmap (fun r x => waked (vw_cur v) (vw_init v) r (if decide (pp <= r < pp + Z.of_nat (S n)) then adopt p (vw_init v) x else x)) v); [done|].
    apply view_ext; [|done..]. intros k. rewrite !vmap_lookup. unfold v1. change (vw_cur (vset _ _ v)) with (vw_cur v).
    destruct (decide (slot pp = k)) as [<-|Hne].
    + rewrite (vset_lookup _ _ _ _ Hx), Hx. cbn [fmap option_fmap option_map]. f_equal. rewrite !ptr_slot by done.
      rewrite decide_True, decide_False by lia. unfold adopt. cbn [pview v_parent]. rewrite (proj2 (Z.eqb_eq _ _) E).
      destruct b; by rewrite ?waked_waked.
    + rewrite vset_lookup_ne by done. destruct (vw_procs v !! k) as [y|]; [|done]. cbn [fmap option_fmap option_map]. f_equal.
      assert (Z.of_nat k + 1 <> pp) by (intros <-; by rewrite slot_ptr in Hne).
      destruct (decide (pp <= Z.of_nat k + 1 < pp + Z.of_nat (S n))); [rewrite decide_True by lia|rewrite decide_False by lia].
      * rewrite <- waked_adopt. destruct b; by rewrite ?waked_waked.
      * destruct b; by rewrite ?waked_waked.
  - v_step. apply IH; [lia|done|]. intros b Hb1 Hb2. specialize (HQ b Hb1).
    assert (forall k x, vw_procs v !! k = Some x -> Z.of_nat k + 1 = pp -> v_parent x <> p) as Hpp'.
    { intros k x Hk Ek. assert (slot pp = k) as Es by (rewrite <- Ek; apply slot_ptr). rewrite Es, Hk in Hq. injection Hq as ->. exact E. }
    replace (vmap _ v) with (vmap (fun q0 x => let y := if decide (pp <= q0 < pp + Z.of_nat (S n)) then adopt p (vw_init v) x else x in
                            if b then waked (vw_cur v) (vw_init v) q0 y else y) v).
    + apply HQ. intros Eb k x Hk Hx. destruct (decide (Z.of_nat k + 1 = pp)); [by eapply Hpp'|]. apply (Hb2 Eb k x); [lia|done].
    + apply view_ext; [|done..]. intros k. rewrite !vmap_lookup. destruct (vw_procs v !! k) as [y|] eqn:Ey; [|done]. cbn [fmap option_fmap option_map]. f_equal.
      destruct (decide (Z.of_nat k + 1 = pp)) as [Ek|Nk].
      * cbv zeta. rewrite decide_True, decide_False by lia. unfold adopt. by rewrite (proj2 (Z.eqb_neq _ _) (Hpp' k y Ey Ek)).
      * cbv zeta. by repeat case_decide; try lia.
Qed.

End Ops.
