(* ===== verification/ProcOps.v ===== *)
(** * Views of exit, wait, kill and the scheduler

    What the remaining routines of proc.c do to the process table, as in
    ProcView.v: [kexit], [kwait], [kkill], and the two halves of [yield],
    [sleep] and the scheduler's loop body. *)

From Stdlib Require Import ZArith Lia Bool String.
From stdpp Require Import base gmap list strings.
From S2P Require Import Prelude Mem MemList Spinlock Kalloc Vm Proc ProcView.

(** The table after [reparent(p)] by [p]: its children go to init, which is
    woken if there was one. *)
Definition reparented (p : Z) (woken : bool) (v : view) : view :=
  vmap (fun q x => let y := adopt p (vw_init v) x in if woken then waked (vw_cur v) (vw_init v) q y else y) v.

Definition has_child (p : Z) (v : view) : Prop := exists k x, vw_procs v !! k = Some x /\ v_parent x = p.

(** The table after [kexit(status)]. *)
Definition exited (status : Z) (woken : bool) (v : view) : view :=
  let v1 := reparented (vw_cur v) woken v in
  match vw_procs v1 !! slot (vw_cur v) with
  | Some x =>
      let v2 := vmap (waked (vw_cur v) (v_parent x)) v1 in
      vset (slot (vw_cur v)) (to_state ZOMBIE (to_xstate status x)) v2
  | None => v1
  end.

Section Ops.
Context {F : Type} {FR : FileRefs F}.
Context (kend trampoline forkret_addr : Z) (xstate_addr : Z -> Z) (kfree : Z -> M kst unit).

(** ** exit *)

Lemma v_reparent p (Q : unit -> view -> Prop) v : length (vw_procs v) = 64%nat ->
  (forall b : bool, (b = true -> has_child p v) -> (b = false -> ~ has_child p v) -> Q tt (reparented p b v)) ->
  wlpv (F := F) (reparent p) Q v.
Proof.
  intros Hl HQ. apply v_reparent_loop; [lia|done|]. intros b H1 H2.
  assert (forall k x, vw_procs v !! k = Some x -> 1 <= Z.of_nat k + 1 < 1 + Z.of_nat (Z.to_nat NPROC)) as Hr.
  { intros k x Hk. apply lookup_lt_Some in Hk. unfold NPROC. lia. }
  replace (vmap _ v) with (reparented p b v).
  - apply HQ; [done|]. intros Eb (k & x & Hk & Hx). exact (H2 Eb k x (Hr k x Hk) Hk Hx).
  - apply view_ext; [|done..]. intros k. unfold reparented. rewrite !vmap_lookup. destruct (vw_procs v !! k) as [y|] eqn:E; [|done].
    cbn. by rewrite (decide_True _ _ (Hr k y E)).
Qed.

Lemma silent_sched : silent (F := F) sched.
Proof.
  intros s. unfold sched. wlp_step. apply wlp_myproc. intros s1 E1. wlp_step. unfold get, wlp at 1. cbn beta.
  repeat (case_match; [exact I|]). wlp_step. apply wlp_get_p. intros q _ _ _. repeat (case_match; [exact I|]). by apply wlp_ret.
Qed.

Lemma silent_modify_hart (f : pst F -> pst F) : (forall s, view_of (f s) = view_of s) -> silent (modify f).
Proof. intros H s. apply wlp_modify. apply H. Qed.

Lemma silent_sched_return i : silent (F := F) (sched_return i).
Proof. by apply silent_modify_hart. Qed.

Lemma v_kexit status (Q : bool -> view -> Prop) v : length (vw_procs v) = 64%nat ->
  (forall b i, vw_cur v <> vw_init v -> (b = true -> has_child (vw_cur v) v) -> (b = false -> ~ has_child (vw_cur v) v) ->
     Q i (exited status b v)) ->
  wlpv (F := F) (kexit status) Q v.
Proof.
  intros Hl HQ. unfold kexit. v_step. v_step. v_step. v_step. destruct (Z.eqb_spec (vw_cur v) (vw_init v)) as [E|E]; [v_step|].
  v_step. apply wlpv_silent; [apply silent_close_files|]. intros _. do 12 v_step. v_step. apply v_reparent; [done|]. intros b H1 H2.
  v_step. apply wlpv_get_p. intros q Hp Hq. v_step. apply v_wakeup; [cbn; by rewrite length_imap|].
  change (vw_cur (reparented _ _ v)) with (vw_cur v). v_step. v_step.
  assert (vw_procs (vmap (waked (vw_cur v) (p_parent q)) (reparented (vw_cur v) b v)) !! slot (vw_cur v) = Some (pview q)) as Hq'.
  { rewrite vmap_lookup, Hq. cbn [fmap option_fmap option_map]. f_equal. by rewrite ptr_slot, waked_me by done. }
  v_step. v_upd (to_xstate status). v_step. v_upd (to_state ZOMBIE). v_step. v_step.
  apply wlpv_silent; [apply silent_sched|]. intros i. rewrite Hq' in Hx. injection Hx as <-. specialize (HQ b i E H1 H2).
  unfold exited in HQ. rewrite Hq in HQ. exact HQ.
Qed.

(** ** The scheduler, yield and sleep *)

Lemma v_scheduler_pick p (Q : bool -> view -> Prop) v :
  (Q false v) ->
  (forall x, 0 < p -> vw_procs v !! slot p = Some x -> v_state x = RUNNABLE -> Q true (vcur p (vset (slot p) (to_state RUNNING x) v))) ->
  wlpv (F := F) (scheduler_pick p) Q v.
Proof.
  intros H0 HQ. unfold scheduler_pick. v_step. v_step. v_step. apply wlpv_get_p. intros q Hp Hq. case_bool_decide as E.
  - v_step. v_upd (to_state RUNNING). rewrite Hq in Hx. injection Hx as <-. v_step. v_step. v_step. by apply HQ.
  - v_step. v_step. by v_step.
Qed.

Lemma v_scheduler_back p (Q : unit -> view -> Prop) v : Q tt (vcur 0 v) -> wlpv (F := F) (scheduler_back p) Q v.
Proof. intros HQ. unfold scheduler_back. v_step. v_step. apply wlpv_silent; [auto with silent|]. by intros []. Qed.

Lemma v_yield_begin (Q : bool -> view -> Prop) v :
  (forall x i, 0 < vw_cur v -> vw_procs v !! slot (vw_cur v) = Some x -> Q i (vset (slot (vw_cur v)) (to_state RUNNABLE x) v)) ->
  wlpv (F := F) yield_begin Q v.
Proof.
  intros HQ. unfold yield_begin. v_step. v_step. v_step. v_step. v_step. v_upd (to_state RUNNABLE).
  apply wlpv_silent; [apply silent_sched|]. auto.
Qed.

Lemma wlpv_cur (Q : Z -> view -> Prop) v : Q (vw_cur v) v -> wlpv (F := F) (gets ps_cur) Q v.
Proof. intros HQ s <-. by apply wlp_gets. Qed.

Lemma v_yield_end i (Q : unit -> view -> Prop) v : Q tt v -> wlpv (F := F) (yield_end i) Q v.
Proof.
  intros HQ. unfold yield_end. v_step. apply wlpv_silent; [apply silent_sched_return|]. intros _. v_step. apply wlpv_cur.
  apply wlpv_silent; [auto with silent|]. by intros [].
Qed.

Lemma v_forkret_release (Q : unit -> view -> Prop) v : Q tt v -> wlpv (F := F) forkret_release Q v.
Proof. intros HQ. unfold forkret_release. v_step. v_step. apply wlpv_silent; [auto with silent|]. by intros []. Qed.

Lemma v_sleep_begin chan lk (Q : bool -> view -> Prop) v : silent lk ->
  (forall x i, 0 < vw_cur v -> vw_procs v !! slot (vw_cur v) = Some x ->
     Q i (vset (slot (vw_cur v)) (to_state SLEEPING (to_chan chan x)) v)) ->
  wlpv (F := F) (sleep_begin chan lk) Q v.
Proof.
  intros Hlk HQ. unfold sleep_begin. v_step. v_step. v_step. v_step. v_step. apply wlpv_silent; [done|]. intros _.
  v_step. v_upd (to_chan chan). v_step. v_upd (to_state SLEEPING). apply wlpv_silent; [apply silent_sched|]. auto.
Qed.

Lemma v_sleep_end i lk (Q : unit -> view -> Prop) v : silent lk ->
  (forall x, 0 < vw_cur v -> vw_procs v !! slot (vw_cur v) = Some x -> Q tt (vset (slot (vw_cur v)) (to_chan 0 x) v)) ->
  wlpv (F := F) (sleep_end i lk) Q v.
Proof.
  intros Hlk HQ. unfold sleep_end. v_step. apply wlpv_silent; [apply silent_sched_return|]. intros _. v_step. apply wlpv_cur.
  v_step. v_upd (to_chan 0). v_step. v_step. apply wlpv_silent; [done|]. intros []. auto.
Qed.

(** ** kill *)

(** A process that is killed wakes up. *)
Definition killed_pv (x : pv) : pv :=
  let y := to_killed 1 x in if bool_decide (v_state x = SLEEPING) then to_state RUNNABLE y else y.

Lemma v_kkill_loop n : forall p pid (Q : Z -> view -> Prop) v,
  Q (-1) v ->
  (forall p x, 0 < p -> vw_procs v !! slot p = Some x -> v_pid x = pid -> Q 0 (vset (slot p) (killed_pv x) v)) ->
  wlpv (F := F) (kkill_loop n p pid) Q v.
Proof.
  induction n as [|n IH]; intros p pid Q v H0 HQ; cbn [kkill_loop]; [by v_step|].
  v_step. v_step. v_step. apply wlpv_get_p. intros q Hp Hq. destruct (Z.eqb_spec (p_pid q) pid) as [E|E].
  - v_step. v_upd (to_killed 1). rewrite Hq in Hx. injection Hx as <-. specialize (HQ p (pview q) Hp Hq E).
    unfold killed_pv in HQ. cbn [pview v_state] in HQ. v_step. case_bool_decide.
    + v_upd (to_state RUNNABLE). v_step. v_step. by v_step.
    + v_step. v_step. v_step. by v_step.
  - v_step. v_step. by apply IH.
Qed.

Lemma v_setkilled p (Q : unit -> view -> Prop) v :
  (forall x, 0 < p -> vw_procs v !! slot p = Some x -> Q tt (vset (slot p) (to_killed 1 x) v)) ->
  wlpv (F := F) (setkilled p) Q v.
Proof.
  intros HQ. unfold setkilled. v_step. v_step. v_step. v_upd (to_killed 1). apply wlpv_silent; [auto with silent|].
  intros []. auto.
Qed.

Lemma silent_killed p : silent (F := F) (killed p).
Proof. unfold killed. eauto 10 with silent. Qed.

(** ** wait *)

Lemma v_kwait_scan n : forall pp p addr hk (Q : Z + bool -> view -> Prop) v, 0 < pp ->
  Q (inl (-1)) v ->
  (forall q x, 0 < q -> vw_procs v !! slot q = Some x -> v_parent x = p -> v_state x = ZOMBIE ->
     Q (inl (v_pid x)) (vset (slot q) free_pv v)) ->
  ((forall k x, pp <= Z.of_nat k + 1 < pp + Z.of_nat n -> vw_procs v !! k = Some x -> v_parent x = p -> v_state x <> ZOMBIE) ->
     forall hk', Q (inr hk') v) ->
  wlpv (F := F) (kwait_scan kend xstate_addr kfree n pp p addr hk) Q v.
Proof.
  induction n as [|n IH]; intros pp p addr hk Q v Hpp H1 H2 H3; cbn [kwait_scan].
  { v_step. apply H3. intros. lia. }
  v_step. apply wlpv_get_p. intros q _ Hq.
  assert (forall hk', (p_parent q = p -> p_state q <> ZOMBIE) ->
    wlpv (F := F) (kwait_scan kend xstate_addr kfree n (pp + 1) p addr hk') Q v) as Hn.
  { intros hk' Hz. apply IH; [lia|done|done|]. intros Hr. apply H3. intros k x Hk Hx. destruct (decide (Z.of_nat k + 1 = pp)) as [Ek|].
    - assert (slot pp = k) as Es by (rewrite <- Ek; apply slot_ptr). rewrite Es, Hx in Hq. injection Hq as ->. exact Hz.
    - apply (Hr k x); [lia|done]. }
  destruct (Z.eqb_spec (p_parent q) p) as [E|E]; [|by apply Hn].
  v_step. v_step. v_step. apply wlpv_get_p. intros q2 _ Hq2. assert (pview q2 = pview q) as E2 by congruence. case_bool_decide as Ez.
  - v_step. apply wlpv_get_p. intros me _ Hme. v_step. v_step. case_match.
    + v_step. v_step. v_step. v_step. by v_step.
    + v_step. apply v_freeproc. intros y _ Hy. v_step. v_step. v_step. v_step. v_step.
      apply (H2 pp (pview q2)); [done|done| |exact Ez]. rewrite E2. exact E.
  - v_step. v_step. apply Hn. injection E2 as <- _ _ _ _ _. done.
Qed.

Lemma v_kwait_turn addr (Q : Z + bool -> view -> Prop) v : length (vw_procs v) = 64%nat ->
  Q (inl (-1)) v ->
  (forall q x, 0 < q -> vw_procs v !! slot q = Some x -> v_parent x = vw_cur v -> v_state x = ZOMBIE ->
     Q (inl (v_pid x)) (vset (slot q) free_pv v)) ->
  ((forall k x, vw_procs v !! k = Some x -> v_parent x = vw_cur v -> v_state x <> ZOMBIE) -> 0 < vw_cur v ->
     forall x i, vw_procs v !! slot (vw_cur v) = Some x ->
       Q (inr i) (vset (slot (vw_cur v)) (to_state SLEEPING (to_chan (vw_cur v) x)) v)) ->
  wlpv (F := F) (kwait_turn kend xstate_addr kfree addr) Q v.
Proof.
  intros Hl H1 H2 H3. unfold kwait_turn. v_step. v_step. v_step. apply v_kwait_scan; [lia|by v_step|intros; v_step; auto|].
  intros Hz hk. v_step. apply wlpv_silent; [destruct hk; auto using silent_killed with silent|]. intros k. case_match.
  - v_step. v_step. by v_step.
  - v_step. apply v_sleep_begin; [apply silent_release_wait|]. intros x i Hc Hx. v_step. apply H3; [|done|done].
    intros j y Hj. apply (Hz j y); [|done]. apply lookup_lt_Some in Hj. unfold NPROC. lia.
Qed.

End Ops.
