(* ===== verification/ProcSys.v ===== *)
(** * The process system: a table, several harts and a scheduler

    A system is the kernel state, what each hart runs, and, for each slot,
    what its kernel thread does when [swtch] returns to it.  A step is one
    hart running from one [swtch] (or return to user space) to the next: the
    scheduler picking a process and resuming it, or the current process
    calling a routine of proc.c.  Steps of different harts interleave in any
    order.

    The invariant [sys_inv] of reachable systems: UNUSED slots are clean, the
    pids of live processes are distinct, a process is RUNNING exactly when it
    is current on one hart and on no other, init lives, every live process
    has a live parent that has not exited, and no process sleeps in [kwait]
    while it has a child to reap. *)

From Stdlib Require Import ZArith Lia Bool String.
From stdpp Require Import base gmap list strings.
From S2P Require Import Prelude Mem MemList Spinlock Kalloc Vm Proc ProcView ProcOps.

Definition ptr (k : nat) : Z := Z.of_nat k + 1.

Definition gone (t : procstate) : Prop := t = UNUSED \/ t = ZOMBIE.

Record sys_inv (v : view) (curs : list Z) : Prop := {
  si_len : length (vw_procs v) = 64%nat;
  si_unused : forall k x, vw_procs v !! k = Some x -> v_state x = UNUSED -> v_pid x = 0 /\ v_parent x = 0 /\ v_chan x = 0 /\ v_xstate x = 0;
  si_used : forall k x, vw_procs v !! k = Some x -> v_state x <> USED;
  si_pid : forall k x, vw_procs v !! k = Some x -> v_state x <> UNUSED -> 0 < v_pid x < vw_nextpid v;
  si_pid_inj : forall j k x y, vw_procs v !! j = Some x -> vw_procs v !! k = Some y ->
    v_state x <> UNUSED -> v_state y <> UNUSED -> v_pid x = v_pid y -> j = k;
  si_run : forall k x, vw_procs v !! k = Some x -> (v_state x = RUNNING <-> ptr k ∈ curs);
  si_cur : forall c, c ∈ curs -> 0 <= c <= 64;
  si_cur_inj : forall i j c, curs !! i = Some c -> curs !! j = Some c -> c <> 0 -> i = j;
  si_init : 0 < vw_init v /\ exists x, vw_procs v !! slot (vw_init v) = Some x /\ ~ gone (v_state x);
  si_parent : forall k x, vw_procs v !! k = Some x -> v_state x <> UNUSED -> k <> slot (vw_init v) ->
    0 < v_parent x /\ exists y, vw_procs v !! slot (v_parent x) = Some y /\ ~ gone (v_state y);
  si_wait : forall k x, vw_procs v !! k = Some x -> v_state x = SLEEPING -> v_chan x = ptr k ->
    forall j y, vw_procs v !! j = Some y -> v_parent y = ptr k -> v_state y <> ZOMBIE
}.

(** No two harts run the same process. *)
Definition curs_ok (curs : list Z) : Prop :=
  (forall c, c ∈ curs -> 0 <= c <= 64) /\ (forall i j c, curs !! i = Some c -> curs !! j = Some c -> c <> 0 -> i = j).

Lemma slot_of_ptr k : slot (ptr k) = k.
Proof. apply slot_ptr. Qed.

Lemma ptr_of_slot p : 0 < p -> ptr (slot p) = p.
Proof. apply ptr_slot. Qed.

(** ** Changing one slot *)

Lemma vset_inv_lookup k y v j z : vw_procs (vset k y v) !! j = Some z -> (j = k /\ z = y) \/ (j <> k /\ vw_procs v !! j = Some z).
Proof.
  cbn. intros H. destruct (decide (j = k)) as [->|Hn].
  - left. split; [done|]. apply list_lookup_insert_Some in H as [(_ & -> & _)|[? _]]; done.
  - right. rewrite list_lookup_insert_ne in H by done. done.
Qed.

(** The slot keeps its process, which changes state, channel, [killed] or
    [xstate]; the harts' current processes change with it. *)
Lemma inv_set v curs curs' k x y :
  sys_inv v curs -> vw_procs v !! k = Some x ->
  v_pid y = v_pid x -> v_parent y = v_parent x ->
  (v_state y = UNUSED <-> v_state x = UNUSED) -> (v_state y = ZOMBIE <-> v_state x = ZOMBIE) -> v_state y <> USED ->
  (v_state x = UNUSED -> v_chan y = v_chan x /\ v_xstate y = v_xstate x) ->
  (v_state y = RUNNING <-> ptr k ∈ curs') ->
  (forall j, j <> k -> (j < 64)%nat -> ptr j ∈ curs' <-> ptr j ∈ curs) ->
  curs_ok curs' ->
  (v_state y = SLEEPING -> v_chan y = ptr k -> forall j z, vw_procs v !! j = Some z -> v_parent z = ptr k -> v_state z <> ZOMBIE) ->
  sys_inv (vset k y v) curs'.
Proof.
  intros [I1 I2 I3 I4 I5 I6 I7 I8 [I9 I9'] I10 I11] Hx Ep Epa Eu Ez Hn Ech Hr Hc [Hc1 Hc2] Hs.
  assert (forall j z, vw_procs (vset k y v) !! j = Some z -> exists z0, vw_procs v !! j = Some z0 /\ v_pid z = v_pid z0 /\
    v_parent z = v_parent z0 /\ (v_state z = UNUSED <-> v_state z0 = UNUSED) /\ (v_state z = ZOMBIE <-> v_state z0 = ZOMBIE)) as Hold.
  { intros j z [[-> ->]|[Hj Hz]]%vset_inv_lookup; [by exists x|by exists z]. }
  assert (forall j z, vw_procs v !! j = Some z -> exists z', vw_procs (vset k y v) !! j = Some z' /\ (gone (v_state z') <-> gone (v_state z))) as Hnew.
  { intros j z Hz. destruct (decide (j = k)) as [->|Hj].
    - exists y. rewrite (vset_lookup _ _ _ _ Hx). split; [done|]. rewrite Hx in Hz. injection Hz as <-. unfold gone. tauto.
    - exists z. by rewrite vset_lookup_ne by done. }
  split; cbn [vset vw_init vw_nextpid].
  - cbn. by rewrite length_insert.
  - intros j z [[-> ->]|[Hj Hz]]%vset_inv_lookup E; [|by eapply I2]. rewrite Ep, Epa. destruct Ech as [-> ->]; [tauto|]. apply (I2 _ _ Hx). tauto.
  - intros j z [[-> ->]|[Hj Hz]]%vset_inv_lookup; [done|by eapply I3].
  - intros j z Hz Hu. destruct (Hold j z Hz) as (z0 & Hz0 & -> & _ & H1 & _). apply (I4 j z0 Hz0). tauto.
  - intros i j z w Hz Hw Hu Hu' E. destruct (Hold i z Hz) as (z0 & Hz0 & E1 & _ & H1 & _).
    destruct (Hold j w Hw) as (w0 & Hw0 & E2 & _ & H2 & _). apply (I5 i j z0 w0 Hz0 Hw0); [tauto|tauto|congruence].
  - intros j z [[-> ->]|[Hj Hz]]%vset_inv_lookup; [done|]. rewrite (I6 j z Hz), Hc; [done|done|]. rewrite <- I1. by eapply lookup_lt_Some.
  - done.
  - done.
  - split; [done|]. destruct I9' as (z & Hz & Hg). destruct (Hnew _ _ Hz) as (z' & Hz' & Hg'). exists z'. tauto.
  - intros j z Hz Hu Hi. destruct (Hold j z Hz) as (z0 & Hz0 & _ & -> & H1 & _). destruct (I10 j z0 Hz0 ltac:(tauto) Hi) as (H2 & w & Hw & Hg).
    split; [done|]. destruct (Hnew _ _ Hw) as (w' & Hw' & Hg'). exists w'. tauto.
  - intros j z Hz Es Ec i w Hw Ew. destruct (Hold i w Hw) as (w0 & Hw0 & _ & E1 & _ & H2). rewrite E1 in Ew.
    apply vset_inv_lookup in Hz as [[-> ->]|[Hj Hz]].
    + specialize (Hs Es Ec i w0 Hw0 Ew). tauto.
    + specialize (I11 j z Hz Es Ec i w0 Hw0 Ew). tauto.
Qed.

(** A slot that is UNUSED or ZOMBIE is freed; pids may have been used up. *)
Lemma inv_free v curs k x n :
  sys_inv v curs -> vw_procs v !! k = Some x -> gone (v_state x) -> vw_nextpid v <= n ->
  sys_inv (mkView (<[k := free_pv]> (vw_procs v)) (vw_init v) n (vw_cur v)) curs.
Proof.
  intros [I1 I2 I3 I4 I5 I6 I7 I8 [I9 I9'] I10 I11] Hx Hgone Hn.
  assert (forall j z, (<[k := free_pv]> (vw_procs v)) !! j = Some z -> (j = k /\ z = free_pv) \/ (j <> k /\ vw_procs v !! j = Some z)) as Hl
    by (intros j z; apply (vset_inv_lookup k free_pv v)).
  assert (forall j z, vw_procs v !! j = Some z -> ~ gone (v_state z) -> (<[k := free_pv]> (vw_procs v)) !! j = Some z) as Hk.
  { intros j z Hz Hg. rewrite list_lookup_insert_ne; [done|]. intros <-. rewrite Hx in Hz. by injection Hz as <-. }
  split; cbn [vw_procs vw_init vw_nextpid].
  - by rewrite length_insert.
  - intros j z [[-> ->]|[Hj Hz]]%Hl E; [done|by eapply I2].
  - intros j z [[-> ->]|[Hj Hz]]%Hl; [done|by eapply I3].
  - intros j z [[-> ->]|[Hj Hz]]%Hl E; [done|]. specialize (I4 j z Hz E). lia.
  - intros i j z w [[-> ->]|[Hi Hz]]%Hl [[-> ->]|[Hj Hw]]%Hl; try done. by apply I5.
  - intros j z [[-> ->]|[Hj Hz]]%Hl; [|by apply I6]. rewrite <- (I6 _ _ Hx). destruct Hgone as [-> | ->]; done.
  - done.
  - done.
  - split; [done|]. destruct I9' as (z & Hz & Hg). exists z. auto.
  - intros j z [[-> ->]|[Hj Hz]]%Hl E Hi; [done|]. destruct (I10 j z Hz E Hi) as (H2 & w & Hw & Hg). eauto 6.
  - intros j z [[-> ->]|[Hj Hz]]%Hl Es Ec i w [[-> ->]|[Hi Hw]]%Hl; try done. by apply (I11 j z Hz Es Ec i w).
Qed.

Lemma inv_vcur v curs c : sys_inv v curs -> sys_inv (vcur c v) curs.
Proof. by intros []. Qed.

(** ** fork, wakeup and exit *)

Lemma inv_fork v curs k x parent y :
  sys_inv v curs -> vw_procs v !! k = Some x -> v_state x = UNUSED ->
  0 < parent -> vw_procs v !! slot parent = Some y -> ~ gone (v_state y) -> 0 < vw_nextpid v ->
  sys_inv (vset k (to_state RUNNABLE (to_parent parent (to_pid (vw_nextpid v) x))) (vnext v)) curs.
Proof.
  intros [I1 I2 I3 I4 I5 I6 I7 I8 [I9 I9'] I10 I11] Hx Hu Hp Hy Hgy Hn.
  set (x' := to_state RUNNABLE _).
  assert (forall j z, vw_procs (vset k x' (vnext v)) !! j = Some z -> (j = k /\ z = x') \/ (j <> k /\ vw_procs v !! j = Some z)) as Hl
    by (intros j z; apply (vset_inv_lookup k x' (vnext v))).
  assert (forall j z, vw_procs v !! j = Some z -> ~ gone (v_state z) -> vw_procs (vset k x' (vnext v)) !! j = Some z) as Hk.
  { intros j z Hz Hg. rewrite vset_lookup_ne; [done|]. intros <-. rewrite Hx in Hz. injection Hz as <-. apply Hg. by left. }
  split.
  - cbn. by rewrite length_insert.
  - intros j z [[-> ->]|[Hj Hz]]%Hl E; [done|by eapply I2].
  - intros j z [[-> ->]|[Hj Hz]]%Hl; [done|by eapply I3].
  - change (vw_nextpid (vset k x' (vnext v))) with (vw_nextpid v + 1).
    intros j z [[-> ->]|[Hj Hz]]%Hl E; [cbn; lia|]. specialize (I4 j z Hz E). lia.
  - intros i j z w [[-> ->]|[Hi Hz]]%Hl [[-> ->]|[Hj Hw]]%Hl Ez Ew E; try done; [| |by apply (I5 i j z w)].
    + specialize (I4 _ _ Hw Ew). cbn in E. lia.
    + specialize (I4 _ _ Hz Ez). cbn in E. lia.
  - intros j z [[-> ->]|[Hj Hz]]%Hl; [|by apply I6]. rewrite <- (I6 _ _ Hx), Hu. done.
  - done.
  - done.
  - split; [done|]. destruct I9' as (z & Hz & Hg). exists z. split; [by apply Hk|done].
  - intros j z [[-> ->]|[Hj Hz]]%Hl E Hi.
    + cbn [x' to_state to_parent v_parent]. eauto 6.
    + destruct (I10 j z Hz E Hi) as (H2 & w & Hw & Hg). eauto 6.
  - intros j z [[-> ->]|[Hj Hz]]%Hl Es Ec i w [[-> ->]|[Hi Hw]]%Hl; try done. by apply (I11 j z Hz Es Ec i w).
Qed.

(** [z] is [z0], woken or not. *)
Definition woken (z z0 : pv) : Prop := z = z0 \/ (v_state z0 = SLEEPING /\ z = to_state RUNNABLE z0).

Lemma waked_woken me chan q x : woken (waked me chan q x) x.
Proof. unfold waked, woken. repeat case_match; auto. apply andb_prop in H as [H _]. apply andb_prop in H as [_ H]. apply bool_decide_eq_true in H. auto. Qed.

Lemma inv_wakeup v curs me chan : sys_inv v curs -> sys_inv (vmap (waked me chan) v) curs.
Proof.
  intros [I1 I2 I3 I4 I5 I6 I7 I8 [I9 I9'] I10 I11].
  assert (forall j z, vw_procs (vmap (waked me chan) v) !! j = Some z -> exists z0, vw_procs v !! j = Some z0 /\ woken z z0) as Hold.
  { intros j z. rewrite vmap_lookup. intros (z0 & Hz & ->)%fmap_Some. exists z0. split; [done|apply waked_woken]. }
  assert (forall j z, vw_procs v !! j = Some z -> ~ gone (v_state z) ->
    exists z', vw_procs (vmap (waked me chan) v) !! j = Some z' /\ ~ gone (v_state z')) as Hnew.
  { intros j z Hz Hg. rewrite vmap_lookup, Hz. eexists. split; [done|]. destruct (waked_woken me chan (Z.of_nat j + 1) z) as [->|[_ ->]]; [done|].
    by intros []. }
  split; cbn [vmap vw_init vw_nextpid].
  - cbn. by rewrite length_imap.
  - intros j z Hz E. destruct (Hold j z Hz) as (z0 & Hz0 & [->|[E1 ->]]); [by eapply I2|done].
  - intros j z Hz. destruct (Hold j z Hz) as (z0 & Hz0 & [->|[E1 ->]]); [by eapply I3|done].
  - intros j z Hz E. destruct (Hold j z Hz) as (z0 & Hz0 & [->|[E1 ->]]); [by eapply I4|]. apply (I4 j z0 Hz0). by rewrite E1.
  - intros i j z w Hz Hw Ez Ew E. destruct (Hold i z Hz) as (z0 & Hz0 & Wz), (Hold j w Hw) as (w0 & Hw0 & Ww).
    apply (I5 i j z0 w0 Hz0 Hw0); [by destruct Wz as [<-|[-> _]]|by destruct Ww as [<-|[-> _]]|].
    destruct Wz as [->|[_ ->]], Ww as [->|[_ ->]]; done.
  - intros j z Hz. destruct (Hold j z Hz) as (z0 & Hz0 & [->|[E1 ->]]); [by apply I6|]. rewrite <- (I6 _ _ Hz0), E1. done.
  - done.
  - done.
  - split; [done|]. destruct I9' as (z & Hz & Hg). eauto.
  - intros j z Hz E Hi. destruct (Hold j z Hz) as (z0 & Hz0 & W).
    destruct (I10 j z0 Hz0) as (H2 & w & Hw & Hg); [by destruct W as [<-|[-> _]]|done|].
    assert (v_parent z = v_parent z0) as -> by (by destruct W as [->|[_ ->]]). eauto.
  - intros j z Hz Es Ec i w Hw Ew. destruct (Hold j z Hz) as (z0 & Hz0 & [->|[_ ->]]); [|done].
    destruct (Hold i w Hw) as (w0 & Hw0 & [->|[_ ->]]); [by apply (I11 j z0 Hz0 Es Ec i w0)|done].
Qed.

Lemma adopt_keeps p init z : v_state (adopt p init z) = v_state z /\ v_pid (adopt p init z) = v_pid z /\ v_chan (adopt p init z) = v_chan z /\ v_xstate (adopt p init z) = v_xstate z.
Proof. unfold adopt. by case_match. Qed.

(** Init is not waiting for a child. *)
Definition init_awake (v : view) : Prop :=
  forall x, vw_procs v !! slot (vw_init v) = Some x -> v_state x = SLEEPING -> v_chan x <> vw_init v.

Lemma inv_adopt v curs p : sys_inv v curs -> init_awake v -> 0 < p -> p <> vw_init v ->
  sys_inv (vmap (fun _ => adopt p (vw_init v)) v) curs.
Proof.
  intros [I1 I2 I3 I4 I5 I6 I7 I8 [I9 I9'] I10 I11] Haw Hp0 Hp. set (ad := adopt p (vw_init v)).
  assert (forall j z, vw_procs (vmap (fun _ => ad) v) !! j = Some z -> exists z0, vw_procs v !! j = Some z0 /\ z = ad z0) as Hold.
  { intros j z. rewrite vmap_lookup. intros (z0 & Hz & ->)%fmap_Some. eauto. }
  assert (forall j z, vw_procs v !! j = Some z -> ~ gone (v_state z) ->
    exists z', vw_procs (vmap (fun _ => ad) v) !! j = Some z' /\ ~ gone (v_state z')) as Hnew.
  { intros j z Hz Hg. rewrite vmap_lookup, Hz. exists (ad z). split; [done|]. unfold ad. by destruct (adopt_keeps p (vw_init v) z) as [-> _]. }
  assert (forall z, v_state (ad z) = v_state z /\ v_pid (ad z) = v_pid z /\ v_chan (ad z) = v_chan z /\ v_xstate (ad z) = v_xstate z) as Had by apply adopt_keeps.
  split; cbn [vmap vw_init vw_nextpid].
  - cbn. by rewrite length_imap.
  - intros j z Hz. destruct (Hold j z Hz) as (z0 & Hz0 & ->). destruct (Had z0) as (-> & -> & -> & ->). intros E.
    destruct (I2 j z0 Hz0 E) as (? & E2 & ? & ?). split_and!; [done| |done|done]. unfold ad, adopt. rewrite E2. by rewrite (proj2 (Z.eqb_neq 0 p)) by lia.
  - intros j z Hz. destruct (Hold j z Hz) as (z0 & Hz0 & ->). destruct (Had z0) as (-> & _). by eapply I3.
  - intros j z Hz. destruct (Hold j z Hz) as (z0 & Hz0 & ->). destruct (Had z0) as (-> & -> & _). by eapply I4.
  - intros i j z w Hz Hw. destruct (Hold i z Hz) as (z0 & Hz0 & ->), (Hold j w Hw) as (w0 & Hw0 & ->).
    destruct (Had z0) as (-> & -> & _), (Had w0) as (-> & -> & _). by apply I5.
  - intros j z Hz. destruct (Hold j z Hz) as (z0 & Hz0 & ->). destruct (Had z0) as (-> & _). by apply I6.
  - done.
  - done.
  - split; [done|]. destruct I9' as (z & Hz & Hg). eauto.
  - intros j z Hz. destruct (Hold j z Hz) as (z0 & Hz0 & ->). destruct (Had z0) as (-> & _). intros E Hi.
    destruct (I10 j z0 Hz0 E Hi) as (H2 & w & Hw & Hg). unfold ad, adopt. case_match; cbn [to_parent v_parent]; [|eauto].
    destruct I9' as (y & Hy & Hgy). eauto.
  - intros j z Hz. destruct (Hold j z Hz) as (z0 & Hz0 & ->). destruct (Had z0) as (-> & _ & -> & _). intros Es Ec i w Hw.
    destruct (Hold i w Hw) as (w0 & Hw0 & ->). destruct (Had w0) as (-> & _). unfold ad, adopt. case_match; cbn [to_parent v_parent].
    + intros Ei. exfalso. apply (Haw z0); [|done|congruence]. rewrite Ei, slot_of_ptr. done.
    + by apply (I11 j z0 Hz0 Es Ec i w0).
Qed.

Lemma inv_reparent v curs b : sys_inv v curs -> 0 < vw_cur v -> vw_cur v <> vw_init v ->
  (b = false -> ~ has_child (vw_cur v) v) -> sys_inv (reparented (vw_cur v) b v) curs.
Proof.
  intros I Hc Hne Hb. unfold reparented. destruct b.
  - replace (vmap _ v) with (vmap (fun _ => adopt (vw_cur v) (vw_init v)) (vmap (waked (vw_cur v) (vw_init v)) v)).
    + apply (inv_adopt (vmap (waked (vw_cur v) (vw_init v)) v)); [by apply inv_wakeup| |done|done].
      intros x. change (vw_init (vmap _ v)) with (vw_init v). rewrite vmap_lookup. intros (x0 & _ & ->)%fmap_Some.
      rewrite ptr_slot by apply I. unfold waked. rewrite (proj2 (Z.eqb_neq (vw_init v) (vw_cur v))) by done. cbn [negb andb].
      intros Es Ec. destruct (bool_decide (v_state x0 = SLEEPING) && (v_chan x0 =? vw_init v)) eqn:E; [done|].
      rewrite Ec, Z.eqb_refl, andb_true_r in E. by apply bool_decide_eq_false in E.
    + apply view_ext; [|done..]. intros k. rewrite !vmap_lookup. destruct (vw_procs v !! k); [|done]. cbn. by rewrite waked_adopt.
  - rewrite vmap_id; [done|]. intros k x Hk. unfold adopt. destruct (Z.eqb_spec (v_parent x) (vw_cur v)); [|done].
    exfalso. apply Hb; [done|]. by exists k, x.
Qed.

(** A process without children, whose parent is not waiting, becomes ZOMBIE
    and leaves its hart. *)
Lemma inv_zombie v curs curs' k x y :
  sys_inv v curs -> vw_procs v !! k = Some x -> v_state x <> UNUSED -> k <> slot (vw_init v) ->
  v_pid y = v_pid x -> v_parent y = v_parent x -> v_state y = ZOMBIE ->
  ~ has_child (ptr k) v ->
  (forall p, vw_procs v !! slot (v_parent x) = Some p -> v_state p = SLEEPING -> v_chan p <> v_parent x) ->
  ptr k ∉ curs' -> (forall j, j <> k -> (j < 64)%nat -> ptr j ∈ curs' <-> ptr j ∈ curs) ->
  curs_ok curs' ->
  sys_inv (vset k y v) curs'.
Proof.
  intros [I1 I2 I3 I4 I5 I6 I7 I8 [I9 I9'] I10 I11] Hx Hu Hi Ep Epa Ez Hch Hpar Hk Hc [Hc1 Hc2].
  assert (forall j z, vw_procs (vset k y v) !! j = Some z -> exists z0, vw_procs v !! j = Some z0 /\ v_pid z = v_pid z0 /\
    v_parent z = v_parent z0 /\ (v_state z = UNUSED <-> v_state z0 = UNUSED)) as Hold.
  { intros j z [[-> ->]|[Hj Hz]]%vset_inv_lookup; [exists x; split_and!; [done..|rewrite Ez; done]|by exists z]. }
  split; cbn [vset vw_init vw_nextpid].
  - cbn. by rewrite length_insert.
  - intros j z [[-> ->]|[Hj Hz]]%vset_inv_lookup E; [by rewrite Ez in E|by eapply I2].
  - intros j z [[-> ->]|[Hj Hz]]%vset_inv_lookup; [by rewrite Ez|by eapply I3].
  - intros j z Hz E. destruct (Hold j z Hz) as (z0 & Hz0 & -> & _ & H1). apply (I4 j z0 Hz0). tauto.
  - intros i j z w Hz Hw Hu1 Hu2 E. destruct (Hold i z Hz) as (z0 & Hz0 & E1 & _ & H1).
    destruct (Hold j w Hw) as (w0 & Hw0 & E2 & _ & H2). apply (I5 i j z0 w0 Hz0 Hw0); [tauto|tauto|congruence].
  - intros j z [[-> ->]|[Hj Hz]]%vset_inv_lookup; [by rewrite Ez|]. rewrite (I6 j z Hz), Hc; [done|done|]. rewrite <- I1. by eapply lookup_lt_Some.
  - done.
  - done.
  - split; [done|]. destruct I9' as (z & Hz & Hg). exists z. by rewrite vset_lookup_ne.
  - intros j z Hz E Hji. destruct (Hold j z Hz) as (z0 & Hz0 & _ & -> & H1). destruct (I10 j z0 Hz0 ltac:(tauto) Hji) as (H2 & w & Hw & Hg).
    split; [done|]. exists w. rewrite vset_lookup_ne; [done|]. intros ->. apply Hch. exists j, z0. by rewrite ptr_of_slot.
  - intros j z [[-> ->]|[Hj Hz]]%vset_inv_lookup Es Ec i w; [by rewrite Ez in Es|].
    intros [[-> ->]|[Hji Hw]]%vset_inv_lookup Ew; [|by apply (I11 j z Hz Es Ec i w)].
    exfalso. rewrite Epa in Ew. apply (Hpar z); [|done|by rewrite Ew]. by rewrite Ew, slot_of_ptr.
Qed.

(** ** The harts' current processes *)

Lemma curs_set_lookup (curs : list Z) i c j a : <[i := c]> curs !! j = Some a -> (j = i /\ a = c) \/ (j <> i /\ curs !! j = Some a).
Proof. intros [(-> & -> & _)|[? ?]]%list_lookup_insert_Some; auto. Qed.

(** A hart leaves its process. *)
Lemma curs_leave (curs : list Z) i c : curs !! i = Some c -> 0 < c -> curs_ok curs ->
  c ∉ <[i := 0]> curs /\ (forall a, a <> c -> a <> 0 -> a ∈ <[i := 0]> curs <-> a ∈ curs) /\ curs_ok (<[i := 0]> curs).
Proof.
  intros Hi Hc [H1 H2]. split_and!; [| |split].
  - intros (j & [[-> ->]|[Hj Hl2]]%curs_set_lookup)%list_elem_of_lookup; [lia|]. apply Hj. by apply (H2 j i c); [|done|lia].
  - intros a Ha Ha0. rewrite !list_elem_of_lookup. split.
    + intros (j & [[-> ->]|[Hj Hl2]]%curs_set_lookup); [done|by exists j].
    + intros (j & Hj). exists j. rewrite list_lookup_insert_ne; [done|]. intros <-. congruence.
  - intros a (j & [[-> ->]|[Hj Hl2]]%curs_set_lookup)%list_elem_of_lookup; [lia|]. apply H1. apply list_elem_of_lookup. by exists j.
  - intros j k a [[Ej Ea]|[Hj Hl1]]%curs_set_lookup [[Ek Ea']|[Hk Hl2]]%curs_set_lookup Ha; try congruence; try done. by apply (H2 j k a).
Qed.

(** An idle hart takes a process no hart runs. *)
Lemma curs_take (curs : list Z) i c : curs !! i = Some 0 -> 0 < c <= 64 -> c ∉ curs -> curs_ok curs ->
  c ∈ <[i := c]> curs /\ (forall a, a <> c -> a <> 0 -> a ∈ <[i := c]> curs <-> a ∈ curs) /\ curs_ok (<[i := c]> curs).
Proof.
  intros Hi Hc Hn [H1 H2]. assert (forall j a, curs !! j = Some a -> a <> c) as Hne.
  { intros j a Hj ->. apply Hn. apply list_elem_of_lookup. by exists j. }
  split_and!; [| |split].
  - apply list_elem_of_lookup. exists i. apply list_lookup_insert_eq. by eapply lookup_lt_Some.
  - intros a Ha Ha0. rewrite !list_elem_of_lookup. split.
    + intros (j & [[-> ->]|[Hj Hl2]]%curs_set_lookup); [done|by exists j].
    + intros (j & Hj). exists j. rewrite list_lookup_insert_ne; [done|]. intros <-. congruence.
  - intros a (j & [[-> ->]|[Hj Hl2]]%curs_set_lookup)%list_elem_of_lookup; [lia|]. apply H1. apply list_elem_of_lookup. by exists j.
  - intros j k a [[Ej Ea]|[Hj Hl1]]%curs_set_lookup [[Ek Ea']|[Hk Hl2]]%curs_set_lookup Ha; try congruence; try done; [| |by apply (H2 j k a)].
    + by destruct (Hne _ _ Hl2).
    + by destruct (Hne _ _ Hl1).
Qed.

Lemma inv_curs_ok v curs : sys_inv v curs -> curs_ok curs.
Proof. intros I. split; apply I. Qed.
