(* ===== verification/ProcRun.v ===== *)
(** * Runs of the process system

    Systems, their steps, and the invariant of ProcSys.v on every reachable
    one. *)

From Stdlib Require Import ZArith Lia Bool String.
From stdpp Require Import base gmap list strings.
From S2P Require Import Prelude Mem MemList Spinlock Kalloc Vm Proc ProcView ProcOps ProcSys.

Section Run.
Context {F : Type} {FR : FileRefs F}.
Context (kend trampoline forkret_addr : Z) (xstate_addr : Z -> Z) (kfree : Z -> M kst unit).

(** What a kernel thread does when [swtch] returns to it: [forkret], the rest
    of [yield], the rest of a [sleep], or the rest of the [sleep] in [kwait]. *)
Inductive kont :=
  | KFork
  | KYield (intena : bool)
  | KSleep (intena : bool) (acquire_lk : M (pst F) unit)
  | KWait (intena : bool) (addr : Z).

(** What a process does on its own behalf. *)
Inductive act :=
  | AYield
  | ASleep (chan : Z) (release_lk acquire_lk : M (pst F) unit)
  | AFork
  | AWakeup (chan : Z)
  | AKill (pid : Z)
  | ASetkilled (p : Z)
  | AExit (status : Z)
  | AWait (addr : Z).

(** The hart goes on in the scheduler after [p] left it; the slot's thread
    will go on with [k]. *)
Definition leave (p : Z) (k : kont) : M (pst F) (option kont) := scheduler_back p;; mret (Some k).

Definition waiting (p addr : Z) (r : Z + bool) : M (pst F) (option kont) :=
  match r with inl _ => mret None | inr i => leave p (KWait i addr) end.

(** One action of the current process [p], up to its return or [swtch]; a
    slot whose process exits goes on with [forkret], for the next process. *)
Definition do_act (p : Z) (a : act) : M (pst F) (option kont) :=
  match a with
  | AYield => i ← yield_begin; leave p (KYield i)
  | ASleep chan rel acq => i ← sleep_begin chan rel; leave p (KSleep i acq)
  | AFork => _ ← kfork kend trampoline forkret_addr; mret None
  | AWakeup chan => wakeup chan;; mret None
  | AKill pid => _ ← kkill pid; mret None
  | ASetkilled q => setkilled q;; mret None
  | AExit status => _ ← kexit status; leave p KFork
  | AWait addr => r ← kwait kend xstate_addr kfree addr; waiting p addr r
  end.

(** One process slot in the scheduler's loop. *)
Definition sched_turn (p : Z) (k : kont) : M (pst F) (option kont) :=
  b ← scheduler_pick p;
  if b : bool then
    match k with
    | KFork => forkret_release;; mret None
    | KYield i => yield_end i;; mret None
    | KSleep i acq => sleep_end i acq;; mret None
    | KWait i addr =>
        sleep_end i (acquire_in ps_wait_lock set_wait_lock);;
        r ← kwait_turn kend xstate_addr kfree addr; waiting p addr r
    end
  else mret None.

Record sys := mkSys { sy_st : pst F; sy_harts : list (hart * Z); sy_konts : list kont }.

(** Hart [i] runs [c] for the slot of [p]. *)
Definition run_on (i : nat) (p : Z) (c : M (pst F) (option kont)) (s : sys) : option sys :=
  '(h, cur) ← sy_harts s !! i;
  match c (set_cur cur (set_hart h (sy_st s))) with
  | Ret (k, st) =>
      Some (mkSys st (<[i := (hart_of st, ps_cur st)]> (sy_harts s))
              (match k with Some k => <[slot p := k]> (sy_konts s) | None => sy_konts s end))
  | _ => None
  end.

(** The condition locks of other components are theirs, and their channels
    are not the addresses of processes. *)
Definition act_ok (a : act) : Prop :=
  match a with ASleep chan rel acq => silent rel /\ silent acq /\ ~ (1 <= chan <= 64) | _ => True end.

Inductive step : sys -> sys -> Prop :=
  | step_act i h p a s s' : sy_harts s !! i = Some (h, p) -> p <> 0 -> act_ok a -> run_on i p (do_act p a) s = Some s' -> step s s'
  | step_intr i p chan s s' : run_on i p (wakeup chan;; mret None) s = Some s' -> step s s'
  | step_sched i h p k s s' : sy_harts s !! i = Some (h, 0) -> sy_konts s !! slot p = Some k ->
      run_on i p (sched_turn p k) s = Some s' -> step s s'.

Inductive reachable (s0 : sys) : sys -> Prop :=
  | reach_refl : reachable s0 s0
  | reach_step s s' : reachable s0 s -> step s s' -> reachable s0 s'.

(** [main] on hart 0: the table is made and init is put in it, then every
    hart enters the scheduler. *)
Inductive booted (kmalloc : M (pst F) Z) : sys -> Prop :=
  | booted_intro st0 st harts : ps_nextpid st0 = 1 ->
      (procinit kmalloc;; userinit kend trampoline forkret_addr) st0 = Ret (tt, st) ->
      Forall (fun h => snd h = 0) harts ->
      booted kmalloc (mkSys st harts (replicate 64 KFork)).

(** ** Each segment keeps the invariant *)

Definition kont_ok (k : kont) : Prop := match k with KSleep _ acq => silent acq | _ => True end.

Definition good (i : nat) (curs : list Z) (k : option kont) (v : view) : Prop :=
  sys_inv v (<[i := vw_cur v]> curs) /\ match k with Some k => kont_ok k | None => True end.

(** Hart [i] is running the current process of [v]. *)
Definition on_hart (i : nat) (curs : list Z) (v : view) : Prop := sys_inv v curs /\ curs !! i = Some (vw_cur v).

Lemma good_same i curs v : on_hart i curs v -> good i curs None v.
Proof. intros [I Hi]. split; [|done]. by rewrite list_insert_id. Qed.

Lemma good_keep i curs v v' : curs !! i = Some (vw_cur v) -> vw_cur v' = vw_cur v -> sys_inv v' curs -> good i curs None v'.
Proof. intros Hi Hc I. split; [|done]. rewrite Hc. by rewrite list_insert_id. Qed.

Lemma v_leave p k i curs v : sys_inv v (<[i := 0]> curs) -> kont_ok k -> wlpv (leave p k) (good i curs) v.
Proof. intros I Hk. unfold leave. v_step. apply v_scheduler_back. v_step. split; [by apply inv_vcur|done]. Qed.

Lemma cur_running i curs v x : on_hart i curs v -> 0 < vw_cur v -> vw_procs v !! slot (vw_cur v) = Some x -> v_state x = RUNNING.
Proof.
  intros [I Hi] Hc Hx. apply (si_run _ _ I _ _ Hx). rewrite ptr_of_slot by done. apply list_elem_of_lookup. eauto.
Qed.

Lemma elem_ptr_ne (curs curs' : list Z) c : 0 < c -> (forall a, a <> c -> a <> 0 -> a ∈ curs' <-> a ∈ curs) ->
  forall j, j <> slot c -> (j < 64)%nat -> ptr j ∈ curs' <-> ptr j ∈ curs.
Proof. intros Hc H j Hj _. apply H; [|unfold ptr; lia]. intros E. apply Hj. by rewrite <- E, slot_of_ptr. Qed.

(** The current process gives up its hart for a state it can leave again. *)
Lemma inv_descheduled i curs v x y : on_hart i curs v -> 0 < vw_cur v -> vw_procs v !! slot (vw_cur v) = Some x ->
  v_pid y = v_pid x -> v_parent y = v_parent x -> v_state y = RUNNABLE \/ v_state y = SLEEPING ->
  (v_state y = SLEEPING -> v_chan y = vw_cur v -> forall j z, vw_procs v !! j = Some z -> v_parent z = vw_cur v -> v_state z <> ZOMBIE) ->
  sys_inv (vset (slot (vw_cur v)) y v) (<[i := 0]> curs).
Proof.
  intros Hon Hc Hx E1 E2 Hs Hw. pose proof (cur_running i curs v x Hon Hc Hx) as Er. destruct Hon as [I Hi].
  destruct (curs_leave curs i (vw_cur v) Hi Hc (inv_curs_ok _ _ I)) as (C1 & C2 & C3).
  apply (inv_set v curs _ _ x); auto; rewrite ?Er, ?ptr_of_slot by done.
  - destruct Hs as [->| ->]; done.
  - destruct Hs as [->| ->]; done.
  - destruct Hs as [->| ->]; done.
  - done.
  - split; [destruct Hs as [->| ->]; done|done].
  - by apply elem_ptr_ne.
  - exact Hw.
Qed.

Lemma good_yield i curs v : on_hart i curs v -> wlpv (do_act (vw_cur v) AYield) (good i curs) v.
Proof.
  intros Hon. cbn [do_act]. v_step. apply v_yield_begin. intros x intena Hc Hx. apply v_leave; [|done].
  apply (inv_descheduled i curs v x); auto.
Qed.

Lemma good_sleep i curs v chan rel acq : on_hart i curs v -> act_ok (ASleep chan rel acq) ->
  wlpv (do_act (vw_cur v) (ASleep chan rel acq)) (good i curs) v.
Proof.
  intros Hon (H1 & H2 & H3). cbn [do_act]. v_step. apply v_sleep_begin; [done|]. intros x intena Hc Hx. apply v_leave; [|done].
  apply (inv_descheduled i curs v x); [done..|by right|]. cbn. intros _ ->.
  destruct Hon as [I Hi]. apply list_elem_of_lookup_2, (si_cur _ _ I) in Hi. lia.
Qed.

Lemma good_fork i curs v : on_hart i curs v -> vw_cur v <> 0 -> wlpv (do_act (vw_cur v) AFork) (good i curs) v.
Proof.
  intros Hon Hc. cbn [do_act]. v_step. destruct (Hon) as [I Hi]. pose proof (list_elem_of_lookup_2 _ _ _ Hi) as He.
  pose proof (si_cur _ _ I _ He) as Hr. apply v_kfork; [v_step; by apply good_same|]. intros p x _ Hp Hx Hu. split; v_step.
  - apply (good_keep i curs v); [done|done|]. apply (inv_free v curs _ x); [done|done|by left|cbn; lia].
  - apply (good_keep i curs v); [done|done|]. destruct (vw_procs v !! slot (vw_cur v)) as [y|] eqn:Ey.
    + apply (inv_fork v curs _ x _ y); [done|done|done|lia|done| |].
      * rewrite (cur_running i curs v y Hon ltac:(lia) Ey). by intros [].
      * destruct (si_init _ _ I) as (_ & z & Hz & Hg). assert (v_state z <> UNUSED) as Hzu by (intros E; apply Hg; by left).
        pose proof (si_pid _ _ I _ _ Hz Hzu). lia.
    + apply lookup_ge_None in Ey. rewrite (si_len _ _ I) in Ey. unfold slot in Ey. lia.
Qed.

Lemma good_wakeup i curs v chan : on_hart i curs v -> wlpv (F := F) (wakeup chan;; mret None) (good i curs) v.
Proof.
  intros [I Hi]. v_step. apply v_wakeup; [apply I|]. v_step. apply (good_keep i curs v); [done|done|by apply inv_wakeup].
Qed.

(** Only [killed], and SLEEPING to RUNNABLE. *)
Lemma inv_killed v curs k x y : sys_inv v curs -> vw_procs v !! k = Some x -> y = killed_pv x \/ y = to_killed 1 x -> sys_inv (vset k y v) curs.
Proof.
  intros I Hx Hy.
  assert (v_pid y = v_pid x /\ v_parent y = v_parent x /\ v_chan y = v_chan x /\ v_xstate y = v_xstate x /\ (v_state y = v_state x \/ (v_state x = SLEEPING /\ v_state y = RUNNABLE))) as (E1 & E2 & E3 & E3' & E4).
  { destruct Hy as [-> | ->]; unfold killed_pv; [case_bool_decide|]; cbn; split_and!; auto. }
  pose proof (si_used _ _ I _ _ Hx) as Hu. pose proof (si_run _ _ I _ _ Hx) as Hr. apply (inv_set v curs curs k x); auto.
  1-4: destruct E4 as [E4|[E4 E5]]; rewrite <- ?Hr, ?E5, ?E4; done.
  - by apply inv_curs_ok in I.
  - intros Es Ec. destruct E4 as [E4|[_ E4]]; [|congruence]. apply (si_wait _ _ I k x); congruence.
Qed.

Lemma good_kill i curs v pid : on_hart i curs v -> wlpv (do_act (vw_cur v) (AKill pid)) (good i curs) v.
Proof.
  intros Hon. cbn [do_act]. v_step. apply v_kkill_loop; [v_step; by apply good_same|]. intros p x Hp Hx _. v_step.
  destruct Hon as [I Hi]. apply (good_keep i curs v); [done|done|]. apply (inv_killed v curs _ x); auto.
Qed.

Lemma good_setkilled i curs v p : on_hart i curs v -> wlpv (do_act (vw_cur v) (ASetkilled p)) (good i curs) v.
Proof.
  intros [I Hi]. cbn [do_act]. v_step. apply v_setkilled. intros x Hp Hx. v_step.
  apply (good_keep i curs v); [done|done|]. apply (inv_killed v curs _ x); auto.
Qed.

Lemma reparented_no_child b v : vw_cur v <> vw_init v -> ~ has_child (vw_cur v) (reparented (vw_cur v) b v).
Proof.
  intros Hne (k & x & Hk & Ex). unfold reparented in Hk. rewrite vmap_lookup in Hk. apply fmap_Some in Hk as (x0 & _ & ->).
  revert Ex. cbv zeta. destruct b; rewrite ?waked_parent; unfold adopt; destruct (Z.eqb_spec (v_parent x0) (vw_cur v)); cbn; congruence.
Qed.

Lemma waked_has_child me chan p v : has_child p (vmap (waked me chan) v) -> has_child p v.
Proof. intros (k & x & Hk & Ex). rewrite vmap_lookup in Hk. apply fmap_Some in Hk as (x0 & Hx0 & ->). exists k, x0. by rewrite waked_parent in Ex. Qed.

Lemma inv_exit i curs v b status : on_hart i curs v -> 0 < vw_cur v -> vw_cur v <> vw_init v ->
  (b = false -> ~ has_child (vw_cur v) v) -> sys_inv (exited status b v) (<[i := 0]> curs).
Proof.
  intros Hon Hc Hne Hb. destruct (Hon) as [I Hi]. pose proof (inv_reparent v curs b I Hc Hne Hb) as I1.
  destruct (curs_leave curs i (vw_cur v) Hi Hc (inv_curs_ok _ _ I)) as (C1 & C2 & C3).
  pose proof (si_cur _ _ I _ (list_elem_of_lookup_2 _ _ _ Hi)) as Hr. unfold exited.
  destruct (vw_procs (reparented (vw_cur v) b v) !! slot (vw_cur v)) as [x|] eqn:Ex.
  2: { apply lookup_ge_None in Ex. rewrite (si_len _ _ I1) in Ex. unfold slot in Ex. lia. }
  assert (v_state x = RUNNING) as Er by (apply (cur_running i curs (reparented (vw_cur v) b v)); [split; [done|exact Hi]|done|done]).
  set (w := vmap (waked (vw_cur v) (v_parent x)) (reparented (vw_cur v) b v)).
  assert (vw_procs w !! slot (vw_cur v) = Some x) as Hw.
  { unfold w. rewrite vmap_lookup, Ex. cbn [fmap option_fmap option_map]. f_equal. by rewrite ptr_slot, waked_me by done. }
  apply (inv_zombie w curs _ _ x); rewrite ?ptr_of_slot by done; try done.
  - by apply inv_wakeup.
  - by rewrite Er.
  - intros E. apply slot_inj in E; [done|done|apply I].
  - intros Hch%waked_has_child. by eapply reparented_no_child.
  - intros p. unfold w. rewrite vmap_lookup. intros (p0 & Hp0 & ->)%fmap_Some Es Ec.
    destruct (si_parent _ _ I1 _ _ Ex) as (Hpp & _); [by rewrite Er| |].
    { intros E. apply slot_inj in E; [done|done|apply I]. }
    rewrite ptr_slot in Es, Ec by done. unfold waked in Es, Ec. destruct (Z.eqb_spec (v_parent x) (vw_cur v)) as [E|E].
    { apply (reparented_no_child b v Hne). by exists (slot (vw_cur v)), x. }
    cbn [negb andb] in Es, Ec. destruct (bool_decide (v_state p0 = SLEEPING) && (v_chan p0 =? v_parent x)) eqn:Eb; [done|].
    rewrite Ec, Z.eqb_refl, andb_true_r in Eb. by apply bool_decide_eq_false in Eb.
  - by apply elem_ptr_ne.
Qed.

Lemma good_exit i curs v status : on_hart i curs v -> vw_cur v <> 0 -> wlpv (do_act (vw_cur v) (AExit status)) (good i curs) v.
Proof.
  intros Hon Hc. destruct (Hon) as [I Hi]. pose proof (si_cur _ _ I _ (list_elem_of_lookup_2 _ _ _ Hi)) as Hr.
  cbn [do_act]. v_step. apply v_kexit; [apply I|]. intros b intena Hne _ Hb. apply v_leave; [|done]. apply inv_exit; auto. lia.
Qed.

Lemma v_waiting addr i curs v : on_hart i curs v ->
  wlpv (F := F) (kwait_turn kend xstate_addr kfree addr) (fun r => wlpv (waiting (vw_cur v) addr r) (good i curs)) v.
Proof.
  intros Hon. destruct (Hon) as [I Hi]. apply v_kwait_turn; [apply I|cbn [waiting]; v_step; by apply good_same| |].
  - intros q x Hq Hx _ Hz. cbn [waiting]. v_step. apply (good_keep i curs v); [done|done|].
    apply (inv_free v curs _ x); [done|done|by right|cbn; lia].
  - intros Hz Hc x intena Hx. cbn [waiting]. apply v_leave; [|done].
    apply (inv_descheduled i curs v x); auto.
Qed.

Lemma good_wait i curs v addr : on_hart i curs v -> wlpv (do_act (vw_cur v) (AWait addr)) (good i curs) v.
Proof. intros Hon. cbn [do_act]. v_step. unfold kwait. v_step. v_step. by apply v_waiting. Qed.

Lemma good_act i curs v a : on_hart i curs v -> vw_cur v <> 0 -> act_ok a -> wlpv (do_act (vw_cur v) a) (good i curs) v.
Proof.
  intros Hon Hc Ha. destruct a; auto using good_yield, good_sleep, good_fork, good_kill, good_setkilled, good_exit, good_wait.
  by apply good_wakeup.
Qed.

(** ** The scheduler *)

Lemma inv_dispatched i curs v p x : on_hart i curs v -> vw_cur v = 0 -> 0 < p -> vw_procs v !! slot p = Some x ->
  v_state x = RUNNABLE -> sys_inv (vset (slot p) (to_state RUNNING x) v) (<[i := p]> curs).
Proof.
  intros [I Hi] H0 Hp Hx Es. rewrite H0 in Hi. pose proof (lookup_lt_Some _ _ _ Hx) as Hlt. rewrite (si_len _ _ I) in Hlt.
  assert (p ∉ curs) as Hn.
  { intros He. rewrite <- (ptr_of_slot p Hp) in He. apply (si_run _ _ I _ _ Hx) in He. congruence. }
  destruct (curs_take curs i p Hi ltac:(unfold slot in Hlt; lia) Hn (inv_curs_ok _ _ I)) as (C1 & C2 & C3).
  apply (inv_set v curs _ _ x); rewrite ?Es, ?ptr_of_slot by done; try done. by apply elem_ptr_ne.
Qed.

Lemma on_hart_chan0 i curs v x : on_hart i curs v -> 0 < vw_cur v -> vw_procs v !! slot (vw_cur v) = Some x ->
  on_hart i curs (vset (slot (vw_cur v)) (to_chan 0 x) v).
Proof.
  intros Hon Hc Hx. pose proof (cur_running i curs v x Hon Hc Hx) as Er. destruct Hon as [I Hi]. split; [|done].
  apply (inv_set v curs curs _ x); auto; rewrite ?Er; try done; cbn; rewrite ?Er; try done.
  - pose proof (si_run _ _ I _ _ Hx) as Hr. by rewrite Er in Hr.
  - by apply inv_curs_ok in I.
Qed.

Lemma good_insert i curs c k v : good i (<[i := c]> curs) k v -> good i curs k v.
Proof. unfold good. by rewrite list_insert_insert_eq. Qed.

Lemma good_sched i curs v p k : on_hart i curs v -> vw_cur v = 0 -> kont_ok k -> wlpv (sched_turn p k) (good i curs) v.
Proof.
  intros Hon H0 Hk. unfold sched_turn. v_step. apply v_scheduler_pick; [v_step; by apply good_same|]. intros x Hp Hx Es.
  pose proof (inv_dispatched i curs v p x Hon H0 Hp Hx Es) as I1. set (v1 := vcur p _).
  assert (on_hart i (<[i := p]> curs) v1) as Hon1.
  { split; [by apply inv_vcur|]. apply list_lookup_insert_eq. eapply lookup_lt_Some. apply Hon. }
  assert (forall k v', good i (<[i := p]> curs) k v' -> good i curs k v') as Hg by (intros; by eapply good_insert).
  destruct k as [|i0|i0 acq|i0 addr].
  - v_step. apply v_forkret_release. v_step. by apply Hg, good_same.
  - v_step. apply v_yield_end. v_step. by apply Hg, good_same.
  - v_step. apply v_sleep_end; [done|]. intros y Hc Hy. v_step. apply Hg, good_same. by apply on_hart_chan0.
  - v_step. apply v_sleep_end; [apply silent_acquire_wait|]. intros y Hc Hy. v_step.
    pose proof (on_hart_chan0 i _ v1 y Hon1 Hc Hy) as Hon2.
    eapply wlpv_mono; [by apply (v_waiting addr i (<[i := p]> curs))|]. cbn beta. intros r v'. change (vw_cur (vset _ _ v1)) with p.
    intros H. eapply wlpv_mono; [exact H|]. auto.
Qed.

(** ** Boot *)

(** The table [userinit] leaves: init, RUNNABLE with pid 1, and free slots;
    init is in the slot of [p]. *)
Definition boot_view (p : Z) (v : view) : Prop :=
  0 < p /\ vw_init v = p /\ vw_nextpid v = 2 /\ length (vw_procs v) = 64%nat /\
  vw_procs v !! slot p = Some (mkPv RUNNABLE 0 0 0 1 0) /\
  forall k x, vw_procs v !! k = Some x -> k <> slot p -> x = free_pv.

Lemma inv_boot p v curs : boot_view p v -> (forall c, c ∈ curs -> c = 0) -> sys_inv v curs.
Proof.
  intros (Hp & Ei & En & Hl & Hi & Hf) Hc.
  assert (forall k x, vw_procs v !! k = Some x -> (k = slot p /\ x = mkPv RUNNABLE 0 0 0 1 0) \/ (k <> slot p /\ x = free_pv)) as Hcase.
  { intros k x Hk. destruct (decide (k = slot p)) as [->|Hne]; [left|right; eauto]. rewrite Hi in Hk. by injection Hk as <-. }
  split.
  - done.
  - intros k x [[-> ->]|[? ->]]%Hcase; done.
  - intros k x [[-> ->]|[? ->]]%Hcase; done.
  - intros k x [[-> ->]|[? ->]]%Hcase; [cbn; lia|done].
  - intros j k x y [[-> ->]|[? ->]]%Hcase [[-> ->]|[? ->]]%Hcase; done.
  - intros k x Hk. split.
    + apply Hcase in Hk as [[-> ->]|[? ->]]; done.
    + intros He%Hc. unfold ptr in He. lia.
  - intros c ->%Hc. lia.
  - intros i j c Hci Hcj Hn. by apply list_elem_of_lookup_2, Hc in Hci.
  - rewrite Ei. split; [done|]. eexists. split; [exact Hi|]. by intros [].
  - rewrite Ei. intros k x [[-> ->]|[? ->]]%Hcase; done.
  - intros k x [[-> ->]|[? ->]]%Hcase; done.
Qed.

Lemma wlpv_set_init p (Q : unit -> view -> Prop) v :
  Q tt (mkView (vw_procs v) p (vw_nextpid v) (vw_cur v)) -> wlpv (F := F) (modify (set_initproc p)) Q v.
Proof. intros HQ s <-. by apply wlp_modify. Qed.

(** [userinit] after [allocproc] returned [p]. *)
Lemma v_userinit_tail p (Q : unit -> view -> Prop) v :
  (forall x, 0 < p -> vw_procs v !! slot p = Some x ->
     Q tt (vset (slot p) (to_state RUNNABLE x) (mkView (vw_procs v) p (vw_nextpid v) (vw_cur v)))) ->
  wlpv (F := F) (modify (set_initproc p);; cwd ← in_f fr_namei_root; upd_p p (set_pcwd cwd);; upd_p p (set_pstate RUNNABLE);; release_p p) Q v.
Proof.
  intros HQ. v_step. apply wlpv_set_init. v_step. v_step. v_step. v_step. v_step. v_upd (to_state RUNNABLE).
  apply wlpv_silent; [auto with silent|]. intros []. by apply HQ.
Qed.

Lemma v_userinit (Q : unit -> view -> Prop) v :
  vw_procs v = replicate 64 free_pv -> vw_nextpid v = 1 -> (forall p v', boot_view p v' -> Q tt v') ->
  wlpv (F := F) (userinit kend trampoline forkret_addr) Q v.
Proof.
  intros Ev En HQ. unfold userinit. v_step. apply v_allocproc; [apply v_userinit_tail; intros; lia|].
  intros p x _ Hp Hx Hu. split; [apply v_userinit_tail; intros; lia|]. apply v_userinit_tail. intros y _ Hy.
  assert (vw_procs (vnext v) !! slot p = Some x) as Hx' by exact Hx. rewrite (vset_lookup _ _ _ _ Hx') in Hy. injection Hy as <-.
  apply (HQ p). rewrite Ev in Hx. apply lookup_replicate in Hx as [-> Hlt]. split_and!.
  - lia.
  - done.
  - cbn. lia.
  - cbn. by rewrite !length_insert, Ev, length_replicate.
  - cbn. rewrite list_lookup_insert_eq; [by rewrite En|]. by rewrite length_insert, Ev, length_replicate.
  - intros k z Hk Hne. cbn in Hk. rewrite !list_lookup_insert_ne, Ev in Hk by done. by apply lookup_replicate in Hk as [-> _].
Qed.

Lemma v_procinit kmalloc (Q : unit -> view -> Prop) v : silent kmalloc ->
  Q tt (mkView (replicate 64 free_pv) (vw_init v) (vw_nextpid v) (vw_cur v)) -> wlpv (F := F) (procinit kmalloc) Q v.
Proof.
  intros Hk HQ. unfold procinit. v_step. apply wlpv_silent; [by apply silent_modify_hart|]. intros _. v_step.
  apply wlpv_silent; [by apply silent_modify_hart|]. intros _. v_step. apply wlpv_silent; [done|]. intros q. case_match; [by v_step|].
  intros s <-. by apply wlp_modify.
Qed.

(** ** Reachable systems *)

Definition curs_of (s : sys) : list Z := snd <$> sy_harts s.
Definition sys_ok (s : sys) : Prop := sys_inv (view_of (sy_st s)) (curs_of s) /\ Forall kont_ok (sy_konts s).

Lemma booted_ok kmalloc s : silent kmalloc -> booted kmalloc s -> sys_ok s.
Proof.
  intros Hk [st0 st harts En Hrun Hh]. split; [|by apply Forall_replicate].
  assert (wlpv (F := F) (procinit kmalloc;; userinit kend trampoline forkret_addr) (fun _ v => exists p, boot_view p v) (view_of st0)) as Hb.
  { v_step. apply v_procinit; [done|]. apply v_userinit; [done|done|]. eauto. }
  specialize (Hb st0 eq_refl). unfold wlp in Hb. rewrite Hrun in Hb. destruct Hb as (p & Hb). apply (inv_boot p); [done|].
  intros c. unfold curs_of. cbn [sy_harts]. intros ([h c'] & -> & Hin)%list_elem_of_fmap. by eapply Forall_forall in Hh.
Qed.

Lemma run_ok i p c s s' cur : run_on i p c s = Some s' -> sys_ok s -> curs_of s !! i = Some cur ->
  (forall v, on_hart i (curs_of s) v -> vw_cur v = cur -> wlpv c (good i (curs_of s)) v) -> sys_ok s'.
Proof.
  intros Hrun [I Hk] Hi Hc. unfold run_on in Hrun. unfold curs_of in Hi. rewrite list_lookup_fmap in Hi.
  destruct (sy_harts s !! i) as [[h cur']|] eqn:E; [|done]. cbn in Hi. injection Hi as ->.
  cbn in Hrun. set (st := set_cur cur _) in Hrun. destruct (c st) as [[k st']| | | |] eqn:Ec; try done. injection Hrun as <-.
  assert (on_hart i (curs_of s) (view_of st)) as Hon.
  { split; [exact (inv_vcur _ _ cur I)|]. unfold curs_of. rewrite list_lookup_fmap, E. done. }
  specialize (Hc _ Hon eq_refl st eq_refl). unfold wlp in Hc. rewrite Ec in Hc. destruct Hc as [I' Hk']. split.
  - unfold curs_of. cbn [sy_harts sy_st]. rewrite list_fmap_insert. exact I'.
  - cbn [sy_konts]. destruct k; [by apply Forall_insert|done].
Qed.

Lemma step_ok s s' : step s s' -> sys_ok s -> sys_ok s'.
Proof.
  intros Hs Hok. destruct Hs as [i h p a s s' Hi Hp Ha Hrun|i p chan s s' Hrun|i h p k s s' Hi Hk Hrun].
  - apply (run_ok i p _ s s' p Hrun Hok); [unfold curs_of; by rewrite list_lookup_fmap, Hi|]. intros v Hon <-. by apply good_act.
  - destruct (curs_of s !! i) as [cur|] eqn:E.
    + apply (run_ok i p _ s s' cur Hrun Hok E). intros v Hon _. by apply good_wakeup.
    + unfold run_on in Hrun. unfold curs_of in E. rewrite list_lookup_fmap in E. by destruct (sy_harts s !! i).
  - apply (run_ok i p _ s s' 0 Hrun Hok); [unfold curs_of; by rewrite list_lookup_fmap, Hi|]. intros v Hon Hc. apply good_sched; [done|done|].
    eapply Forall_lookup_1; [apply Hok|done].
Qed.

Lemma reachable_ok s0 s : reachable s0 s -> sys_ok s0 -> sys_ok s.
Proof. induction 1; eauto using step_ok. Qed.

End Run.
