(* ===== verification/ProcThms.v ===== *)
(** * What holds of every run of the process system

    The invariant on every system reachable from boot, with a run that boots,
    forks, waits, exits and reaps, and the effect of [kill(0)]. *)

From Stdlib Require Import ZArith Lia Bool String.
From stdpp Require Import base gmap list strings.
From S2P Require Import Prelude Mem MemList Spinlock Kalloc Vm Proc ProcView ProcOps ProcSys ProcRun.

(** ** Executing runs *)

Section Exec.
Context {F : Type} {FR : FileRefs F}.
Context (kend trampoline forkret_addr : Z) (xstate_addr : Z -> Z) (kfree : Z -> M kst unit).

(** One step of hart [i]: an action of its current process other than a
    sleep on another component's lock, or a turn of its scheduler. *)
Inductive cmd :=
  | Act (i : nat) (a : act (F := F))
  | Sched (i : nat) (p : Z).

Definition exec1 (c : cmd) (s : sys (F := F)) : option (sys (F := F)) :=
  match c with
  | Act i a =>
      '(_, p) ← sy_harts s !! i;
      if (p =? 0) || match a with ASleep _ _ _ => true | _ => false end then None
      else run_on i p (do_act kend trampoline forkret_addr xstate_addr kfree p a) s
  | Sched i p =>
      '(_, cur) ← sy_harts s !! i;
      k ← sy_konts s !! slot p;
      if negb (cur =? 0) then None else run_on i p (sched_turn kend xstate_addr kfree p k) s
  end.

Fixpoint exec (cs : list cmd) (s : sys (F := F)) : option (sys (F := F)) :=
  match cs with
  | [] => Some s
  | c :: cs => s' ← exec1 c s; exec cs s'
  end.

Abbreviation step := (step kend trampoline forkret_addr xstate_addr kfree).
Abbreviation reachable := (reachable kend trampoline forkret_addr xstate_addr kfree).

Lemma exec1_step c s s' : exec1 c s = Some s' -> step s s'.
Proof.
  destruct c as [i a|i p]; cbn [exec1]; intros H.
  - destruct (sy_harts s !! i) as [[h p]|] eqn:E; [|done]. cbn in H. destruct (Z.eqb_spec p 0); [done|]. cbn [orb] in H.
    destruct (match a with ASleep _ _ _ => true | _ => false end) eqn:Ea; [done|].
    eapply step_act; [done|done| |done]. by destruct a.
  - destruct (sy_harts s !! i) as [[h cur]|] eqn:E; [|done]. cbn in H. destruct (sy_konts s !! slot p) as [k|] eqn:Ek; [|done].
    cbn in H. destruct (Z.eqb_spec cur 0) as [->|]; [|done]. by eapply step_sched.
Qed.

Lemma exec_reachable cs s s' s0 : exec cs s = Some s' -> reachable s0 s -> reachable s0 s'.
Proof.
  revert s. induction cs as [|c cs IH]; intros s; cbn [exec]; [by intros [= <-]|].
  intros H Hr. destruct (exec1 c s) as [s1|] eqn:E; [|done]. apply (IH s1); [done|].
  eapply reach_step; [done|]. by apply (exec1_step c).
Qed.
End Exec.

(** ** The invariant *)

(** C7: the process table is sound in every reachable state.  Boot the
    kernel, and let any number of harts interleave dispatches, yields,
    sleeps, wakeups, forks, kills, exits and waits in any order, each running
    from one [swtch] (or the entry of a call) to the next without
    interference, as its locks are meant to make it: an UNUSED slot has no
    pid, parent, channel or exit status (its [killed] flag may be set, see
    below), live processes have distinct pids below [nextpid], a process
    is RUNNING exactly if some hart runs it and no two harts run the same
    one, init is alive, every other live process has a live parent that has
    not exited (so every zombie has someone to reap it), and no process
    sleeps in [kwait] while it has a zombie child (no wakeup of a parent is
    lost, also when children are handed to init). *)
Theorem proc_table_sound {F} {FR : FileRefs F} kend trampoline forkret_addr xstate_addr kfree (kmalloc : M (pst F) Z) s0 s :
  silent kmalloc -> booted kend trampoline forkret_addr kmalloc s0 ->
  reachable kend trampoline forkret_addr xstate_addr kfree s0 s ->
  sys_inv (view_of (sy_st s)) (curs_of s).
Proof. intros Hk Hb Hr. eapply reachable_ok; [done|]. by eapply booted_ok. Qed.

(** ** A run *)

#[local] Instance no_files : FileRefs unit := {|
  fr_filedup := fun f => mret f; fr_fileclose := fun _ => mret tt; fr_idup := fun i => mret i; fr_iput := fun _ => mret tt;
  fr_begin_op := mret tt; fr_end_op := mret tt; fr_namei_root := mret 1 |}.

(** [n] free pages from [a] on. *)
Fixpoint link_pages (n : nat) (a : Z) : mem :=
  match n with
  | O => ∅
  | S n => st64 (link_pages n (a + 4096)) a (if bool_decide (n = O) then 0 else a + 4096)
  end.

Definition demo_pst : pst unit :=
  mkPst (mkKst (mkMach (mkHart 1 0 false true) (link_pages 9 2147483648)) (mkLock EmptyString 0 0) 2147483648)
    tt [] 0 1 (initlock "nextpid") (initlock "wait_lock") 0.

Definition demo_kmalloc : M (pst unit) Z := mret 4096.

Definition demo_st : pst unit :=
  match (procinit demo_kmalloc;; userinit KERNBASE 2147483648 2147483648) demo_pst with Ret (_, s) => s | _ => demo_pst end.

(** Two harts. *)
Definition demo_sys0 : sys := mkSys demo_st [(mkHart 1 0 false true, 0); (mkHart 2 0 false true, 0)] (replicate 64 KFork).

Lemma demo_booted : booted KERNBASE 2147483648 2147483648 demo_kmalloc demo_sys0.
Proof.
  apply (booted_intro _ _ _ _ demo_pst); [reflexivity| |by repeat constructor].
  assert (match (procinit demo_kmalloc;; userinit KERNBASE 2147483648 2147483648) demo_pst with Ret _ => true | _ => false end = true) as H
    by (vm_compute; reflexivity).
  unfold demo_st. by destruct ((procinit demo_kmalloc;; userinit KERNBASE 2147483648 2147483648) demo_pst) as [[[] ?]| | | |].
Qed.

Definition demo_exec (cs : list (cmd (F := unit))) : option sys := exec KERNBASE 2147483648 2147483648 (fun p => p) (fun _ => mret tt) cs demo_sys0.

(** Init runs on the first hart, forks and waits; the child runs on the
    second hart and exits with 7; init is woken, resumes and reaps it. *)
Definition demo_run : list (cmd (F := unit)) :=
  [Sched 0 1; Act 0 AFork; Act 0 (AWait 0); Sched 1 2; Act 1 (AExit 7); Sched 0 1].

Definition states_of (s : sys (F := unit)) : list (procstate * Z * Z) :=
  (fun x => (v_state x, v_pid x, v_parent x)) <$> take 3 (vw_procs (view_of (sy_st s))).

Lemma demo_run_states :
  states_of <$> demo_exec (take 3 demo_run) = Some [(SLEEPING, 1, 0); (RUNNABLE, 2, 1); (UNUSED, 0, 0)] /\
  states_of <$> demo_exec (take 5 demo_run) = Some [(RUNNABLE, 1, 0); (ZOMBIE, 2, 1); (UNUSED, 0, 0)] /\
  states_of <$> demo_exec demo_run = Some [(RUNNING, 1, 0); (UNUSED, 0, 0); (UNUSED, 0, 0)].
Proof. vm_compute. split_and!; reflexivity. Qed.

Lemma demo_reachable cs s : demo_exec cs = Some s ->
  reachable KERNBASE 2147483648 2147483648 (fun p => p) (fun _ => mret tt) demo_sys0 s.
Proof. intros H. eapply exec_reachable; [exact H|]. apply reach_refl. Qed.

Lemma proc_table_sound_witness : exists s, demo_exec demo_run = Some s /\ sys_inv (view_of (sy_st s)) (curs_of s).
Proof.
  destruct (demo_exec demo_run) as [s|] eqn:E.
  - exists s. split; [reflexivity|].
    exact (proc_table_sound KERNBASE 2147483648 2147483648 (fun p => p) (fun _ => mret tt) demo_kmalloc demo_sys0 s
             (silent_ret 4096) demo_booted (demo_reachable _ _ E)).
  - pose proof (proj2 (proj2 demo_run_states)) as H. rewrite E in H. discriminate H.
Defined.

(** ** [kill(0)] *)

Section Kill.
Context {F : Type} {FR : FileRefs F} (kend trampoline forkret_addr : Z).

(** Nobody holds the lock of a process. *)
Definition locks_free (s : pst F) : Prop := forall k q, ps_procs s !! k = Some q -> lk_locked (p_lock q) = 0.

(** The state between the acquisition and the release of [p->lock] by a hart
    that was [h0]; the other locks are free. *)
Record holds_p (p : Z) (h0 : hart) (s : pst F) : Prop := {
  hp_hart : hart_of s = push_off h0;
  hp_lock : exists q, ps_procs s !! slot p = Some q /\ lk_locked (p_lock q) <> 0 /\ lk_cpu (p_lock q) = h_cpu h0;
  hp_rest : forall k q, k <> slot p -> ps_procs s !! k = Some q -> lk_locked (p_lock q) = 0
}.

Lemma lookup_plock p l (s : pst F) k : ps_procs (set_plock_at p l s) !! k = (if decide (slot p = k) then set_plock l <$> ps_procs s !! k else ps_procs s !! k).
Proof. unfold set_plock_at. cbn [ps_procs set_procs]. rewrite list_lookup_alter. unfold slot. case_decide as E; [by rewrite E|done]. Qed.

Lemma wp_acquire_p p q (s : pst F) Q : locks_free s -> ps_procs s !! slot p = Some q ->
  (forall s', holds_p p (hart_of s) s' -> view_of s' = view_of s -> Q tt s') -> wp (acquire_p p) Q s.
Proof.
  intros Hf Hq HQ. assert (plock p s = p_lock q) as El by (unfold plock; unfold slot in Hq; by rewrite Hq).
  apply wp_acquire_in; [rewrite El; by apply (Hf (slot p))|]. apply HQ.
  - split.
    + exact (hart_of_set_hart (push_off (hart_of s)) s).
    + eexists. rewrite lookup_plock, decide_True by done. change (ps_procs (set_hart _ s)) with (ps_procs s). rewrite Hq. split; [done|]. cbn. split; [lia|done].
    + intros k q' Hk. rewrite lookup_plock, decide_False by done. apply Hf.
  - by rewrite view_plock.
Qed.

Lemma wp_release_p p h0 (s : pst F) Q : hart_ok h0 -> holds_p p h0 s ->
  (forall s', locks_free s' -> hart_same h0 (hart_of s') -> view_of s' = view_of s -> Q tt s') -> wp (release_p p) Q s.
Proof.
  intros Hh [Eh (q & Hq & Hl & Hc) Hr] HQ. assert (plock p s = p_lock q) as El by (unfold plock; unfold slot in Hq; by rewrite Hq).
  destruct (pop_push_off h0 (push_off h0) Hh) as (h & Ep & Sh); [done|].
  apply (wp_release_in _ _ _ _ h); [by rewrite El|by rewrite El, Hc, Eh|by rewrite Eh|]. apply HQ.
  - intros k q'. rewrite lookup_plock. change (ps_procs (set_hart h s)) with (ps_procs s). case_decide as E; [|by apply Hr].
    intros (q0 & _ & ->)%fmap_Some. done.
  - change (hart_same h0 (hart_of (set_hart h s))). by rewrite hart_of_set_hart.
  - by rewrite view_plock.
Qed.

Lemma wp_get_p p q (s : pst F) (Q : proc -> pst F -> Prop) : 0 < p -> ps_procs s !! slot p = Some q -> Q q s -> wp (get_p p) Q s.
Proof.
  intros Hp Hq HQ. unfold get_p. rewrite (proj2 (Z.eqb_neq p 0)) by lia. wp_step. apply wp_gets. eapply wp_arr_get; [lia|exact Hq|done].
Qed.

(** A change of the slot whose lock is held. *)
Lemma wp_upd_p p q f h0 (s : pst F) (Q : unit -> pst F -> Prop) : 0 < p -> holds_p p h0 s -> ps_procs s !! slot p = Some q -> p_lock (f q) = p_lock q ->
  (forall s', holds_p p h0 s' -> ps_procs s' !! slot p = Some (f q) -> view_of s' = vset (slot p) (pview (f q)) (view_of s) -> Q tt s') -> wp (upd_p p f) Q s.
Proof.
  intros Hp [Eh (q0 & Hq0 & Hl & Hc) Hr] Hq Ef HQ. rewrite Hq in Hq0. injection Hq0 as <-. pose proof (lookup_lt_Some _ _ _ Hq) as Hlt.
  unfold upd_p. wp_step. eapply wp_get_p; [done|exact Hq|]. apply wp_modify. apply HQ.
  - split; [exact Eh| |].
    + exists (f q). cbn [ps_procs set_procs]. rewrite list_lookup_insert_eq by done. by rewrite Ef.
    + intros k q' Hk. cbn [ps_procs set_procs]. rewrite list_lookup_insert_ne by done. by apply Hr.
  - cbn [ps_procs set_procs]. by rewrite list_lookup_insert_eq by done.
  - unfold view_of, vset. cbn [ps_procs set_procs ps_initproc ps_nextpid ps_cur vw_procs vw_init vw_nextpid vw_cur]. f_equal. by rewrite list_fmap_insert.
Qed.

(** [kkill] finds the first slot with the pid. *)
Lemma wp_kkill_loop n : forall p pid j x (s : pst F) (Q : Z -> pst F -> Prop), locks_free s -> hart_ok (hart_of s) -> 0 < p <= j -> j < p + Z.of_nat n ->
  vw_procs (view_of s) !! slot j = Some x -> v_pid x = pid -> (forall i y, p <= i < j -> vw_procs (view_of s) !! slot i = Some y -> v_pid y <> pid) ->
  (forall s', locks_free s' -> hart_same (hart_of s) (hart_of s') -> view_of s' = vset (slot j) (killed_pv x) (view_of s) -> Q 0 s') ->
  wp (kkill_loop n p pid) Q s.
Proof.
  induction n as [|n IH]; intros p pid j x s Q Hf Hh Hp Hn Hx Epid Hfirst HQ; [lia|]. cbn [kkill_loop].
  assert (is_Some (ps_procs s !! slot p)) as [q Hq].
  { apply lookup_lt_is_Some. apply lookup_lt_Some in Hx. cbn in Hx. rewrite length_fmap in Hx. unfold slot in *. lia. }
  assert (forall (s' : pst F) q', view_of s' = view_of s -> ps_procs s' !! slot p = Some q' -> pview q' = pview q) as Hsame.
  { intros s' q' Ev Hq'. apply (f_equal vw_procs) in Ev. cbn in Ev. apply (f_equal (lookup (slot p))) in Ev. rewrite !list_lookup_fmap, Hq, Hq' in Ev. exact (inj Some _ _ Ev). }
  wp_step. eapply wp_acquire_p; [done|exact Hq|]. intros s1 H1 E1. pose proof H1 as [_ (q1 & Hq1 & _) _]. pose proof (Hsame s1 q1 E1 Hq1) as Eq.
  wp_step. eapply wp_get_p; [lia|exact Hq1|]. assert (p_pid q1 = p_pid q) as -> by (by injection Eq).
  destruct (Z.eqb_spec (p_pid q) pid) as [E|E].
  - assert (p = j) as <-.
    { destruct (decide (p = j)); [done|]. exfalso. apply (Hfirst p (pview q)); [lia| |done]. cbn. by rewrite list_lookup_fmap, Hq. }
    cbn [view_of vw_procs] in Hx. rewrite list_lookup_fmap, Hq in Hx. injection Hx as <-.
    wp_step. eapply wp_upd_p; [lia|exact H1|exact Hq1|done|]. intros s2 H2 Hq2 E2. wp_step.
    assert (wp (if bool_decide (p_state q1 = SLEEPING) then upd_p p (set_pstate RUNNABLE) else mret tt)
      (fun _ s3 => holds_p p (hart_of s) s3 /\ view_of s3 = vset (slot p) (killed_pv (pview q)) (view_of s)) s2) as Hw.
    { assert (p_state q1 = v_state (pview q)) as -> by (by injection Eq). unfold killed_pv. case_bool_decide as Es.
      - eapply wp_upd_p; [lia|exact H2|exact Hq2|done|]. intros s3 H3 _ E3. split; [done|]. rewrite E3, E2, vset_vset, E1. f_equal.
        unfold to_state, to_killed. rewrite <- Eq. done.
      - apply wp_ret. split; [done|]. rewrite E2, E1. f_equal. unfold to_killed. rewrite <- Eq. done. }
    eapply wp_mono; [exact Hw|]. cbn beta. intros _ s3 [H3 E3]. wp_step. eapply wp_release_p; [exact Hh|exact H3|]. intros s4 F4 Sh E4. wp_step.
    apply HQ; [done|done|congruence].
  - assert (p <> j) as Hne. { intros <-. cbn [view_of vw_procs] in Hx. rewrite list_lookup_fmap, Hq in Hx. injection Hx as <-. by apply E. }
    wp_step. eapply wp_release_p; [exact Hh|exact H1|]. intros s2 F2 Sh E2. rewrite E1 in E2.
    apply (IH (p + 1) pid j x); rewrite ?E2; try done; [by apply (hart_ok_proper _ _ Sh)|lia|lia| |].
    + intros i y Hi. apply Hfirst. lia.
    + intros s3 F3 Sh3 E3. apply HQ; [done|by etrans|done].
Qed.

End Kill.

(** C36: [kill(0)] is not refused.  In any state of a running system (the
    table sound, the locks of the processes free) with a free slot, it
    returns 0: the first free slot, whose pid is 0, gets its [killed] flag
    set, and nothing else changes.  [allocproc] takes that slot next and does
    not clear the flag, so a [kfork] after it, by any process, either fails
    with -1 or makes a child that is born killed. *)
Theorem kill_zero_kills_next_child {F} {FR : FileRefs F} kend trampoline forkret_addr (s : pst F) curs j x :
  sys_inv (view_of s) curs -> locks_free s -> hart_ok (hart_of s) -> first_unused (view_of s) j -> vw_procs (view_of s) !! slot j = Some x ->
  wp (kkill 0) (fun r s' => r = 0 /\ view_of s' = vset (slot j) (to_killed 1 x) (view_of s) /\
    forall cur, wlp (kfork kend trampoline forkret_addr) (fun r s'' => r = -1 \/
      r = ps_nextpid s /\ vw_procs (view_of s'') !! slot j = Some (mkPv RUNNABLE 0 1 0 r cur)) (set_cur cur s')) s.
Proof.
  intros Hinv Hf Hh (Hj & (x' & Hx' & Hu) & Hfirst) Hx. rewrite Hx in Hx'. injection Hx' as <-.
  destruct (si_unused _ _ Hinv _ _ Hx Hu) as (P1 & P2 & P3 & P4). unfold kkill.
  apply (wp_kkill_loop _ 1 0 j x); [done|done|lia|unfold NPROC in *; lia|done|done| |].
  { intros i y Hi Hy E. pose proof (si_pid _ _ Hinv _ _ Hy (Hfirst i y Hi Hy)). lia. }
  intros s' Hf' Sh Ev. assert (killed_pv x = to_killed 1 x) as Ek by (unfold killed_pv; by rewrite Hu). rewrite Ek in Ev.
  split_and!; [done|done|]. intros cur. pose proof (vset_lookup (slot j) (to_killed 1 x) (view_of s) x Hx) as Hx1. rewrite <- Ev in Hx1.
  assert (view_of (set_cur cur s') = vcur cur (view_of s')) as Ec by done.
  apply (v_kfork kend trampoline forkret_addr (fun r v => r = -1 \/ r = ps_nextpid s /\ vw_procs v !! slot j = Some (mkPv RUNNABLE 0 1 0 r cur)) (vcur cur (view_of s'))); [by left| |done].
  intros p y Hpf Hp Hy Hyu. split; [by left|]. right. assert (vw_nextpid (vcur cur (view_of s')) = ps_nextpid s) as En by (cbn; by apply (f_equal vw_nextpid) in Ev).
  split; [done|]. assert (p = j) as ->.
  { destruct Hpf as (_ & _ & Hp1). destruct (Z.lt_trichotomy p j) as [Hlt|[->|Hgt]]; [|done|].
    - exfalso. cbn [vcur vw_procs] in Hy. rewrite Ev, vset_lookup_ne in Hy by (unfold slot; lia). apply (Hfirst p y); [lia|done|done].
    - exfalso. apply (Hp1 j (to_killed 1 x)); [lia|exact Hx1|done]. }
  cbn [vcur vw_procs] in Hy. rewrite Hx1 in Hy. injection Hy as <-. rewrite (vset_lookup _ _ _ (to_killed 1 x)) by exact Hx1.
  unfold to_state, to_parent, to_pid, to_killed. cbn [v_state v_chan v_killed v_xstate v_pid v_parent vcur vw_cur]. by rewrite P3, P4.
Qed.

(** Init is running. *)
Definition running_init : sys (F := unit) := default demo_sys0 (demo_exec [Sched 0 1]).

Lemma running_init_inv : sys_inv (view_of (sy_st running_init)) (curs_of running_init).
Proof.
  assert (demo_exec [Sched 0 1] = Some running_init) as E.
  { unfold running_init. assert (is_Some (demo_exec [Sched 0 1])) as [s ->]; [|done]. apply (bool_decide_eq_true_1 (is_Some _)). vm_compute. reflexivity. }
  eapply reachable_ok; [exact (demo_reachable _ _ E)|]. exact (booted_ok _ _ _ _ _ (silent_ret 4096) demo_booted).
Qed.

Lemma running_init_free : locks_free (sy_st running_init).
Proof.
  assert (Forall (fun q => lk_locked (p_lock q) = 0) (ps_procs (sy_st running_init))) as H by (apply (bool_decide_eq_true_1 (Forall _ _)); vm_compute; reflexivity).
  intros k q Hq. exact (Forall_lookup_1 _ _ _ _ H Hq).
Qed.

(** It kills 0 and forks; the child in slot 2 is born killed. *)
Lemma kill_zero_kills_next_child_witness :
  ((fun s => vw_procs (view_of (sy_st s)) !! 1%nat) <$> demo_exec [Sched 0 1; Act 0 (AKill 0); Act 0 AFork] = Some (Some (mkPv RUNNABLE 0 1 0 2 1))) /\
  let s := sy_st running_init in
  wp (kkill 0) (fun r s' => r = 0 /\ view_of s' = vset 1 (to_killed 1 free_pv) (view_of s) /\
    forall cur, wlp (kfork KERNBASE 2147483648 2147483648) (fun r s'' => r = -1 \/
      r = ps_nextpid s /\ vw_procs (view_of s'') !! 1%nat = Some (mkPv RUNNABLE 0 1 0 r cur)) (set_cur cur s')) s.
Proof.
  split; [vm_compute; reflexivity|]. cbv zeta.
  refine (kill_zero_kills_next_child KERNBASE 2147483648 2147483648 (sy_st running_init) (curs_of running_init) 2 free_pv running_init_inv running_init_free _ _ _).
  - vm_compute. repeat split; discriminate.
  - split; [unfold NPROC; lia|]. split; [exists free_pv; vm_compute; split; reflexivity|]. intros q y Hq. assert (q = 1) as -> by lia. vm_compute. intros [= <-]. discriminate.
  - vm_compute. reflexivity.
Defined.
