(* ===== verification/Exec.v ===== *)
(** * Loading programs (kernel/exec.c, kernel/elf.h, sysfile.c's [sys_exec])

    [kexec] works on the page allocator and the page tables of Vm.v
    ([ex_k], which is also the memory the kernel sees), on the file system of
    Fs.v ([ex_fs], with locks and interrupt nesting of its own) and on the
    fields of the calling process that it changes.  A path is a list of bytes
    as in Fs.v; [argv] is the array of pointers to the argument strings, which
    lie in memory; [ustack] is the address of the local array of that name.
    [load_loop] and [push_args] are its two loops; their first result is false
    where the code jumps to [bad]. *)

From Stdlib Require Import ZArith Lia Bool String.
From stdpp Require Import base gmap list strings.
From S2P Require Import Proc.
From S2P Require Import Prelude Mem Spinlock Kalloc Vm Sleeplock Bio Log BlockStore Fs.

Definition ELF_MAGIC : Z := 0x464C457F.
Definition ELF_PROG_LOAD : Z := 1.
Definition MAXARG : Z := 32.
Definition USERSTACK : Z := 1.
Definition sizeof_elfhdr : Z := 64.
Definition sizeof_proghdr : Z := 56.

(** The fields the code uses. *)
Record elfhdr := mkElf { eh_magic : Z; eh_entry : Z; eh_phoff : Z; eh_phnum : Z }.
Record proghdr := mkPh { ph_type : Z; ph_flags : Z; ph_off : Z; ph_vaddr : Z; ph_filesz : Z; ph_memsz : Z }.

(** What a buffer of [char] holds. *)
Definition chars (d : list Z) : list Z := (fun b => b mod 256) <$> d.
Definition rd64u (d : list Z) (off : Z) : Z := rd32u d off + 2 ^ 32 * rd32u d (off + 4).
Definition rd_elfhdr (bytes : list Z) : elfhdr :=
  let d := chars bytes in mkElf (rd32u d 0) (rd64u d 24) (rd64u d 32) (rd16u d 56).
Definition rd_proghdr (bytes : list Z) : proghdr :=
  let d := chars bytes in mkPh (rd32u d 0) (rd32u d 4) (rd64u d 8) (rd64u d 16) (rd64u d 32) (rd64u d 40).

Definition flags2perm (flags : Z) : Z :=
  let perm := if negb (Z.land flags 1 =? 0) then PTE_X else 0 in
  if negb (Z.land flags 2 =? 0) then Z.lor perm PTE_W else perm.

(** Bytes stored from [a] on. *)
Fixpoint put_bytes (m : mem) (a : Z) (l : list Z) : mem :=
  match l with
  | [] => m
  | b :: l => put_bytes (stb m a b) (a + 1) l
  end.

(** The [n] bytes from [a] on. *)
Definition bytes_at (m : mem) (a n : Z) : list Z := (fun i => rdb m (a + i)) <$> seqZ 0 n.

(** [for(last=s=path; *s; s++) if( *s == '/') last = s+1;] *)
Fixpoint last_elem (last s : list Z) : list Z :=
  match s with
  | [] => last
  | c :: s => last_elem (if c =? 47 then s else last) s
  end.

Section Exec.
Context {T : Type} `{HM : HasMach T} {BO : BlockOps T}.
Context (kend trampoline ustack : Z) (kfree : Z -> M kst unit).

Record ex_st := mkEx {
  ex_k : kst;
  ex_fs : fs_st T;
  ex_pagetable : Z;
  ex_sz : Z;
  ex_trapframe : Z;
  ex_name : list Z
}.

Definition set_ex_k (k : kst) (e : ex_st) : ex_st := mkEx k (ex_fs e) (ex_pagetable e) (ex_sz e) (ex_trapframe e) (ex_name e).
Definition set_ex_fs (f : fs_st T) (e : ex_st) : ex_st := mkEx (ex_k e) f (ex_pagetable e) (ex_sz e) (ex_trapframe e) (ex_name e).
Definition set_ex_name (n : list Z) (e : ex_st) : ex_st := mkEx (ex_k e) (ex_fs e) (ex_pagetable e) (ex_sz e) (ex_trapframe e) n.
Definition set_ex_image (pagetable sz : Z) (e : ex_st) : ex_st := mkEx (ex_k e) (ex_fs e) pagetable sz (ex_trapframe e) (ex_name e).

Definition in_k {X} (c : M kst X) : M ex_st X := zoom ex_k set_ex_k c.
Definition in_f {X} (c : M (fs_st T) X) : M ex_st X := zoom ex_fs set_ex_fs c.

(** [copyout] for the calling process. *)
Definition copyout_to (pagetable dstva src len : Z) : M ex_st Z :=
  e ← get; in_k (Vm.copyout (ex_sz e) (ex_pagetable e) kfree (S (Z.to_nat len)) pagetable dstva src len).

(** [for(i = 0; i < sz; i += PGSIZE)] *)
Fixpoint loadseg_loop (fuel : nat) (pagetable va ip offset sz i : Z) : M ex_st Z :=
  match fuel with
  | O => out_of_fuel
  | S fuel =>
      if i <? sz then
        pa ← in_k (walkaddr pagetable (u64 (va + i)));
        (if pa =? 0 then panic "loadseg: address should exist" else mret tt);;
        let n := if sz - i <? PGSIZE then sz - i else PGSIZE in
        '(r, bytes) ← in_f (readi to_kernel ip (u32 (offset + i)) n);
        in_k (set_bytes (fun m => put_bytes m pa bytes));;
        if negb (r =? n) then mret (-1) else loadseg_loop fuel pagetable va ip offset sz (u32 (i + PGSIZE))
      else mret 0
  end.
Definition loadseg (pagetable va ip offset sz : Z) : M ex_st Z :=
  loadseg_loop (S (Z.to_nat (sz / PGSIZE + 1))) pagetable va ip offset sz 0.

(** [for(i=0, off=elf.phoff; i<elf.phnum; i++, off+=sizeof(ph))], [n] headers
    to go: whether all are loaded, and [sz]. *)
Fixpoint load_loop (n : nat) (pagetable ip off sz : Z) : M ex_st (bool * Z) :=
  match n with
  | O => mret (true, sz)
  | S n =>
      '(r, bytes) ← in_f (readi to_kernel ip (u32 off) sizeof_proghdr);
      if negb (r =? sizeof_proghdr) then mret (false, sz)
      else
        let ph := rd_proghdr bytes in
        let off' := s32 (off + sizeof_proghdr) in
        if negb (ph_type ph =? ELF_PROG_LOAD) then load_loop n pagetable ip off' sz
        else if ph_memsz ph <? ph_filesz ph then mret (false, sz)
        else if u64 (ph_vaddr ph + ph_memsz ph) <? ph_vaddr ph then mret (false, sz)
        else if negb (ph_vaddr ph mod PGSIZE =? 0) then mret (false, sz)
        else
          sz1 ← in_k (uvmalloc kend pagetable sz (u64 (ph_vaddr ph + ph_memsz ph)) (flags2perm (ph_flags ph)));
          if sz1 =? 0 then mret (false, sz)
          else
            r ← loadseg pagetable (ph_vaddr ph) ip (u32 (ph_off ph)) (u32 (ph_filesz ph));
            if r <? 0 then mret (false, sz1) else load_loop n pagetable ip off' sz1
  end.

(** [for(argc = 0; argv[argc]; argc++)]: whether the strings are copied,
    [argc] and [sp]. *)
Fixpoint push_args (fuel : nat) (pagetable stackbase : Z) (argv : list Z) (argc sp : Z) : M ex_st (bool * Z * Z) :=
  match fuel with
  | O => out_of_fuel
  | S fuel =>
      a ← arr_get argv argc;
      if a =? 0 then mret (true, argc, sp)
      else if argc >=? MAXARG then mret (false, argc, sp)
      else
        m ← in_k (gets mem_of);
        match strlen (Z.to_nat PGSIZE) m a with
        | None => out_of_fuel
        | Some len =>
            let sp := u64 (sp - (len + 1)) in
            let sp := sp - sp mod 16 in
            if sp <? stackbase then mret (false, argc, sp)
            else
              r ← copyout_to pagetable sp a (len + 1);
              if r <? 0 then mret (false, argc, sp)
              else
                in_k (setf 8 ustack (8 * argc) sp);;
                push_args fuel pagetable stackbase argv (argc + 1) sp
        end
  end.

(** [bad:] *)
Definition exec_bad (pagetable sz ip : Z) : M ex_st Z :=
  (if negb (pagetable =? 0) then in_k (proc_freepagetable kend pagetable sz) else mret tt);;
  (if negb (ip =? 0) then in_f (iunlockput ip);; in_f (on_store bs_end_op) else mret tt);;
  mret (-1).

(** [offsetof(struct trapframe, ...)] *)
Definition tf_epc : Z := 24.
Definition tf_sp : Z := 48.
Definition tf_a1 : Z := 120.

(** From "Commit to the user image" on. *)
Definition exec_commit (pagetable sz oldsz entry sp argc : Z) : M ex_st Z :=
  e ← get;
  let oldpagetable := ex_pagetable e in
  modify (set_ex_image pagetable sz);;
  in_k (setf 8 (ex_trapframe e) tf_epc entry);;
  in_k (setf 8 (ex_trapframe e) tf_sp sp);;
  in_k (proc_freepagetable kend oldpagetable oldsz);;
  mret argc.

(** From "Allocate some pages at the next page boundary" on. *)
Definition exec_stack (path argv : list Z) (pagetable sz oldsz entry : Z) : M ex_st Z :=
  let sz := PGROUNDUP sz in
  sz1 ← in_k (uvmalloc kend pagetable sz (u64 (sz + (USERSTACK + 1) * PGSIZE)) PTE_W);
  if sz1 =? 0 then exec_bad pagetable sz 0
  else
    in_k (uvmclear pagetable (u64 (sz1 - (USERSTACK + 1) * PGSIZE)));;
    let stackbase := u64 (sz1 - USERSTACK * PGSIZE) in
    '(ok, argc, sp) ← push_args (S (Z.to_nat MAXARG)) pagetable stackbase argv 0 sz1;
    if negb ok then exec_bad pagetable sz1 0
    else
      in_k (setf 8 ustack (8 * argc) 0);;
      let sp := u64 (sp - (argc + 1) * 8) in
      let sp := sp - sp mod 16 in
      if sp <? stackbase then exec_bad pagetable sz1 0
      else
        r ← copyout_to pagetable sp ustack ((argc + 1) * 8);
        if r <? 0 then exec_bad pagetable sz1 0
        else
          e ← get;
          in_k (setf 8 (ex_trapframe e) tf_a1 sp);;
          modify (set_ex_name (take 15 (last_elem path path)));;
          exec_commit pagetable sz1 oldsz entry sp argc.

Definition kexec (path argv : list Z) : M ex_st Z :=
  in_f (on_store bs_begin_op);;
  ip ← in_f (namei path);
  if ip =? 0 then in_f (on_store bs_end_op);; mret (-1)
  else
    in_f (ilock ip);;
    '(r, bytes) ← in_f (readi to_kernel ip 0 sizeof_elfhdr);
    let elf := rd_elfhdr bytes in
    if negb (r =? sizeof_elfhdr) then exec_bad 0 0 ip
    else if negb (eh_magic elf =? ELF_MAGIC) then exec_bad 0 0 ip
    else
      e ← get;
      pagetable ← in_k (proc_pagetable kend trampoline (ex_trapframe e));
      if pagetable =? 0 then exec_bad 0 0 ip
      else
        '(ok, sz) ← load_loop (Z.to_nat (eh_phnum elf)) pagetable ip (s32 (eh_phoff elf)) 0;
        if negb ok then exec_bad pagetable sz ip
        else
          in_f (iunlockput ip);;
          in_f (on_store bs_end_op);;
          oldsz ← gets ex_sz;
          exec_stack path argv pagetable sz oldsz (eh_entry elf).

(** ** The system call (syscall.c, sysfile.c)

    [pathbuf] and [uargbuf] are the addresses of the locals [path] and [uarg]
    of [sys_exec]; 112 is the offset of [a0] in the trapframe. *)
Context (pathbuf uargbuf : Z).

(** 0, or -1 *)
Definition fetchaddr (addr ip : Z) : M ex_st Z :=
  e ← get;
  if (ex_sz e <=? addr) || (ex_sz e <? u64 (addr + 8)) then mret (-1)
  else
    r ← in_k (Vm.copyin (ex_sz e) (ex_pagetable e) kfree 9 (ex_pagetable e) ip addr 8);
    if negb (r =? 0) then mret (-1) else mret 0.

(** The length of the string, or -1. *)
Definition fetchstr_at (addr buf max : Z) : M ex_st Z :=
  e ← get;
  r ← in_k (Vm.copyinstr (S (Z.to_nat max)) (ex_pagetable e) buf addr max);
  if r <? 0 then mret (-1)
  else
    m ← in_k (gets mem_of);
    match strlen (Z.to_nat max) m buf with Some len => mret len | None => out_of_fuel end.

(** [for(i=0;; i++)]: whether the arguments are there, and [argv]. *)
Fixpoint fetch_args (fuel : nat) (uargv i : Z) (argv : list Z) : M ex_st (bool * list Z) :=
  match fuel with
  | O => out_of_fuel
  | S fuel =>
      if i >=? MAXARG then mret (false, argv)
      else
        r ← fetchaddr (u64 (uargv + 8 * i)) uargbuf;
        if r <? 0 then mret (false, argv)
        else
          uarg ← in_k (getf 8 uargbuf 0);
          if uarg =? 0 then argv' ← of_arr (arr_set argv i 0); mret (true, argv')
          else
            a ← in_k kalloc;
            argv' ← of_arr (arr_set argv i a);
            if a =? 0 then mret (false, argv')
            else
              r ← fetchstr_at uarg a PGSIZE;
              if r <? 0 then mret (false, argv') else fetch_args fuel uargv (i + 1) argv'
  end.

(** [for(i = 0; i < NELEM(argv) && argv[i] != 0; i++) page_kfree(argv[i]);] *)
Fixpoint free_args (argv : list Z) : M ex_st unit :=
  match argv with
  | [] => mret tt
  | a :: argv => if a =? 0 then mret tt else in_k (page_kfree kend a);; free_args argv
  end.

Definition sys_exec : M ex_st Z :=
  e ← get;
  uargv ← in_k (getf 8 (ex_trapframe e) tf_a1);
  upath ← in_k (getf 8 (ex_trapframe e) 112);
  r ← fetchstr_at upath pathbuf 128;
  if r <? 0 then mret (-1)
  else
    m ← in_k (gets mem_of);
    '(ok, argv) ← fetch_args (S (Z.to_nat MAXARG)) uargv 0 (replicate (Z.to_nat MAXARG) 0);
    if ok : bool then
      ret ← kexec (bytes_at m pathbuf r) argv;
      free_args argv;;
      mret ret
    else free_args argv;; mret (-1).

End Exec.
Arguments ex_st T : clear implicits.
