(* ===== verification/ExecSpace.v ===== *)
(** * The address space of a process

    A process's page table maps its own pages below [ulim] and, above them,
    the trapframe and the trampoline.  Rules for [proc_pagetable],
    [proc_freepagetable], [uvmclear] and for [uvmalloc] to any size. *)

From Stdlib Require Import ZArith Lia Bool String.
From stdpp Require Import base gmap list strings fin_maps.
From S2P Require Import Proc.
From S2P Require Import Prelude Mem MemList Spinlock Kalloc Vm VmProof VmUser VmThms VmCopy.

#[local] Opaque tables.

(** The first virtual page above the user's. *)
Definition ulim : Z := 2 ^ 26 - 2.

Lemma ulim_ok : ulim * PGSIZE <= MAXVA.
Proof. unfold ulim, PGSIZE, MAXVA. lia. Qed.

Section Space.
Context (kend trampoline : Z).
Context (Ht1 : (PGSIZE | trampoline)) (Ht2 : 0 <= trampoline) (Ht3 : trampoline + PGSIZE <= 2 ^ 56).

Definition top (tf v : Z) : Z :=
  if decide (v = ulim) then pte_of tf (Z.lor PTE_R PTE_W)
  else if decide (v = ulim + 1) then pte_of trampoline (Z.lor PTE_R PTE_X) else 0.

Record pspace (tf : Z) (s : kst) (l : list Z) (T : ptree) (us : gmap Z Z) (rest : list Z) : Prop := {
  ps_us : uspace kend ulim s l T us rest;
  ps_top : forall v, ulim <= v -> leaf (mem_of s) T v = top tf v
}.

(** A change of the entries above the user's pages. *)
Lemma uspace_low lim s l T us rest s' l' T' : uspace kend lim s l T us rest -> space kend s' l' T' (upages us ++ rest) ->
  (forall v, 0 <= v < lim -> leaf (mem_of s') T' v = leaf (mem_of s) T v) -> uspace kend lim s' l' T' us rest.
Proof.
  intros [H1 H2 H3] Hsp Hl. split; [done| |].
  - intros v pa Hv. destruct (H2 v pa Hv) as (R & A & B). by rewrite Hl.
  - intros v Hv HN. rewrite Hl by done. by apply H3.
Qed.

(** An entry removed without freeing its page. *)
Lemma wp_unmap_keep s l T rest v (Q : unit -> kst -> Prop) : space kend s l T rest -> 0 <= v < 2 ^ 26 -> valid_pte (leaf (mem_of s) T v) = true ->
  (forall s', space kend s' l T rest -> same_on rest (mem_of s) (mem_of s') -> (forall v', leaf (mem_of s') T v' = if decide (v' = v) then 0 else leaf (mem_of s) T v') -> Q tt s') ->
  wp (uvmunmap kend (pt_root T) (v * PGSIZE) 1 false) Q s.
Proof.
  intros Hsp Hv Hval HQ. unfold uvmunmap. rewrite Z.mod_mul by (unfold PGSIZE; lia). cbn [Z.eqb negb]. change (Z.to_nat 1) with 1%nat.
  rewrite u64_small by (unfold PGSIZE; lia). cbn [uvmunmap_loop]. replace (v * PGSIZE <? v * PGSIZE + 1 * PGSIZE) with true by (unfold PGSIZE; lia).
  assert (is_Some (pt_low T !! (v / 512))) as [q Eq] by (unfold leaf in Hval; destruct (pt_low T !! (v / 512)); [eauto|done]).
  pose proof (space_table _ _ _ _ _ _ Hsp (elem_low _ _ _ Eq)) as Hq. unfold PGSIZE in Hq. assert (0 <= v mod 512 < 512) by zdiv.
  assert (leaf_addr T v = q + 8 * (v mod 512)) as Ha by (unfold leaf_addr; by rewrite Eq).
  wp_step. eapply wp_walk_lookup; [exact Hsp|unfold MAXVA, PGSIZE; lia|]. assert (v * PGSIZE / 4096 = v) as -> by (unfold PGSIZE; apply Z.div_mul; lia).
  replace (leaf_addr T v =? 0) with false by lia. repeat wp_step. apply wp_getf; [lia|]. rewrite Z.add_0_r.
  assert (ld 8 (mem_of s) (leaf_addr T v) = leaf (mem_of s) T v) as -> by (unfold leaf; by rewrite Ha, Eq).
  unfold valid_pte in Hval. apply negb_true_iff in Hval. rewrite Hval. wp_step. wp_step. apply wp_setf; [lia|]. rewrite Z.add_0_r.
  destruct (set_leaf kend s l T rest v 0 Hsp) as (S1 & S2 & S3); [by exists q|lia|].
  replace (u64 (v * PGSIZE + PGSIZE) <? v * PGSIZE + 1 * PGSIZE) with false by (rewrite u64_small by (unfold PGSIZE; lia); lia). apply wp_ret, HQ; [done| |].
  - rewrite mem_of_set_mem. eapply same_on_subset; [exact S2|]. intros x. rewrite elem_of_app. auto.
  - intros v'. rewrite mem_of_set_mem. apply S3.
Qed.

Lemma top_valid tf v : (PGSIZE | tf) -> 0 <= tf -> tf + PGSIZE <= 2 ^ 56 -> v = ulim \/ v = ulim + 1 -> valid_pte (top tf v) = true.
Proof.
  intros H1 H2 H3 Hv. unfold valid_pte. apply negb_true_iff, Z.eqb_neq. unfold top, PGSIZE in *.
  destruct Hv as [->| ->]; [rewrite decide_True by done|rewrite decide_False, decide_True by (done || lia)]; apply pte_of_ok; (done || lia || (unfold PTE_R, PTE_W, PTE_X; split; [discriminate|reflexivity])).
Qed.

Lemma wp_proc_freepagetable tf s l T us rest sz (Q : unit -> kst -> Prop) : pspace tf s l T us rest -> (PGSIZE | tf) -> 0 <= tf -> tf + PGSIZE <= 2 ^ 56 ->
  0 <= sz -> npages sz <= ulim -> (forall v pa, us !! v = Some pa -> v < npages sz) ->
  (forall s' l', pages_inv kend s' l' rest -> l' ≡ₚ l ++ tables T ++ upages us -> same_on rest (mem_of s) (mem_of s') -> Q tt s') ->
  wp (proc_freepagetable kend (pt_root T) sz) Q s.
Proof.
  intros [Hu Htop] F1 F2 F3 Hsz Hle Hin HQ. unfold proc_freepagetable.
  change TRAMPOLINE with ((ulim + 1) * PGSIZE). change TRAPFRAME with (ulim * PGSIZE). assert (ulim + 1 < 2 ^ 26 /\ 0 <= ulim) as [Hl1 Hl0] by (unfold ulim; lia).
  wp_step. eapply wp_unmap_keep; [apply Hu|lia|rewrite Htop by lia; apply top_valid; auto|]. intros s1 S1 M1 L1.
  wp_step. eapply wp_unmap_keep; [exact S1|lia|rewrite L1, decide_False, Htop by lia; apply top_valid; auto|]. intros s2 S2 M2 L2.
  assert (forall v, leaf (mem_of s2) T v = if decide (v = ulim) then 0 else if decide (v = ulim + 1) then 0 else leaf (mem_of s) T v) as L by (intros v; by rewrite L2, L1).
  assert (uspace kend ulim s2 l T us rest) as Hu2.
  { eapply uspace_low; [exact Hu|exact S2|]. intros v Hv. rewrite L, !decide_False by lia. done. }
  eapply wp_mono; [apply (uvmfree_pages kend ulim s2 l T us rest sz Hu2 Hsz Hle ulim_ok Hin)|].
  - intros v Hv. rewrite L. repeat case_decide; try done. rewrite Htop by done. unfold top. rewrite !decide_False by done. done.
  - intros [] s3 (l3 & P1 & P2 & P3). apply (HQ s3 l3); [done|done|]. eapply same_on_trans; [|exact P3].
    eapply same_on_trans; (eapply same_on_subset; [eassumption|]); intros x Hx; rewrite elem_of_app; auto.
Qed.

(** ** [proc_pagetable] *)

Lemma same_on_refl ps m : same_on ps m m.
Proof. by intros p x. Qed.

#[local] Transparent tables.
Lemma tables_new pt : tables (PTree pt ∅ ∅) = [pt].
Proof. unfold tables. cbn. by rewrite !map_to_list_empty. Qed.
#[local] Opaque tables.

Lemma leaf_new m pt v : leaf m (PTree pt ∅ ∅) v = 0.
Proof. unfold leaf. cbn. by rewrite lookup_empty. Qed.

(** A fresh page cleared is an empty page table. *)
Lemma space_new s l held pt : pages_inv kend s l (pt :: held) ->
  let s' := set_mem (memset (mem_of s) pt 0 PGSIZE) s in space kend s' l (PTree pt ∅ ∅) held /\ same_on held (mem_of s) (mem_of s').
Proof.
  intros Hi s'. pose proof Hi as [Hk Hnd Hok]. apply list.NoDup_app in Hnd as (_ & N1 & N2). apply list.NoDup_cons in N2 as [N2 _].
  assert (forall ps, ps ⊆ l ++ pt :: held -> pt ∉ ps -> same_on ps (mem_of s) (memset (mem_of s) pt 0 PGSIZE)) as Hs.
  { intros ps Hps Hn. eapply (same_on_page kend s l _ pt); [exact Hi|left|done|done|apply modifies_memset]. }
  unfold s'. rewrite mem_of_set_mem. split; [split|].
  - rewrite tables_new. apply pages_inv_set_mem; [done|]. apply Hs; [set_solver|]. intros Hin. apply (N1 pt Hin). left.
  - rewrite mem_of_set_mem. split; cbn [pt_root pt_mid pt_low].
    + intros i Hi'. rewrite lookup_empty. apply (ld_memset_zero 8); unfold PGSIZE; lia.
    + intros i q j Hq. by rewrite lookup_empty in Hq.
    + intros i q Hq. by rewrite lookup_empty in Hq.
    + intros k q Hk'. by rewrite lookup_empty in Hk'.
  - apply Hs; [intros x Hx; rewrite elem_of_app, elem_of_cons; auto|done].
Qed.

Lemma wp_uvmcreate s l held (Q : Z -> kst -> Prop) : pages_inv kend s l held ->
  (forall s', l = [] -> pages_inv kend s' [] held -> same_on held (mem_of s) (mem_of s') -> Q 0 s') ->
  (forall s' pt l', pt <> 0 -> l = pt :: l' -> space kend s' l' (PTree pt ∅ ∅) held -> same_on held (mem_of s) (mem_of s') -> Q pt s') -> wp uvmcreate Q s.
Proof.
  intros Hi Q0 Q1. pose proof Hi as [Hk Hnd Hok]. unfold uvmcreate. wp_step. apply (wp_kalloc kend s l); [exact Hk| |].
  - intros -> s' Hk' _ Hm. cbn [Z.eqb]. apply wp_ret, Q0; [done|by split|by rewrite Hm].
  - intros pt l' s' -> Hk' _ Hm. assert (page_ok kend pt) as Hpt by (apply Hk; left). destruct (page_range kend pt) as (Hp0 & _); [apply Hk|done|].
    replace (pt =? 0) with false by lia.
    assert (pages_inv kend s' l' (pt :: held)) as Hi'.
    { split; [done|by rewrite <- Permutation_middle|]. intros y [->|Hy]%elem_of_cons; auto. }
    assert (same_on held (mem_of s) (mem_of s')) as Hs.
    { intros p x Hp Hx. rewrite Hm, rdb_memset, decide_False; [done|].
      destruct (pages_apart kend pt p) as [|]; [done|by apply Hok| |unfold bytes_of in *; lia..].
      intros ->. apply list.NoDup_app in Hnd as (_ & Hd & _). by apply (Hd p); [left|]. }
    unfold set_bytes. wp_step. apply wp_modify, wp_ret. destruct (space_new s' l' held pt Hi') as [S1 S2]. apply (Q1 _ pt l'); [lia|done|done|].
    by eapply same_on_trans.
Qed.

(** A page table without user pages, given back. *)
Lemma wp_uvmfree_empty s l T held (Q : unit -> kst -> Prop) : space kend s l T held -> (forall v, leaf (mem_of s) T v = 0) ->
  (forall s' l', pages_inv kend s' l' held -> l' ≡ₚ l ++ tables T -> same_on held (mem_of s) (mem_of s') -> Q tt s') -> wp (uvmfree kend 3 (pt_root T) 0) Q s.
Proof.
  intros Hsp Hl HQ. assert (uspace kend ulim s l T ∅ held) as Hu.
  { split; [by rewrite upages_empty|intros v pa Hv; by rewrite lookup_empty in Hv|intros v _ _; by rewrite Hl]. }
  eapply wp_mono; [apply (uvmfree_pages kend ulim s l T ∅ held 0 Hu); [lia|done|exact ulim_ok|intros v pa Hv; by rewrite lookup_empty in Hv|intros v _; by rewrite Hl]|].
  intros [] s' (l' & P1 & P2 & P3). apply (HQ s' l'); [done|by rewrite P2, upages_empty, app_nil_r|done].
Qed.

Lemma wp_proc_pagetable tf s l held (Q : Z -> kst -> Prop) : pages_inv kend s l held -> (PGSIZE | tf) -> 0 <= tf -> tf + PGSIZE <= 2 ^ 56 ->
  (forall s' l', pages_inv kend s' l' held -> l' ≡ₚ l -> same_on held (mem_of s) (mem_of s') -> Q 0 s') ->
  (forall s' l' T, pt_root T <> 0 -> pspace tf s' l' T ∅ held -> l' ++ tables T ≡ₚ l -> same_on held (mem_of s) (mem_of s') -> Q (pt_root T) s') ->
  wp (proc_pagetable kend trampoline tf) Q s.
Proof.
  intros Hi F1 F2 F3 Q0 Q1. unfold proc_pagetable. wp_step. eapply wp_uvmcreate; [exact Hi| |].
  { intros s' -> Hi' Hs'. cbn [Z.eqb]. apply wp_ret. by apply (Q0 s' []). }
  intros s1 pt l1 Hpt -> Hs1 M1. replace (pt =? 0) with false by lia. assert (ulim + 1 < 2 ^ 26 /\ 0 <= ulim) as [Hl1 Hl0] by (unfold ulim; lia).
  change TRAMPOLINE with ((ulim + 1) * PGSIZE). change TRAPFRAME with (ulim * PGSIZE). change pt with (pt_root (PTree pt ∅ ∅)).
  assert (forall T l' t, l' ++ tables T ≡ₚ l1 ++ [pt] -> l' ++ tables T ≡ₚ t -> t ≡ₚ pt :: l1) as Hperm.
  { intros T l' t E1 E2. rewrite <- E2, E1. symmetry. apply Permutation_cons_append. }
  wp_step. rewrite <- (Z.mul_1_l PGSIZE) at 2. eapply wp_mappages; [exact Hs1|lia|lia|unfold PGSIZE, MAXVA; lia|done|done|by rewrite Z.mul_1_l|done|intros v _; by rewrite leaf_new| |].
  { intros s2 T2 k Hk (A1 & A2 & A3 & A4 & A5). cbn [Z.ltb Z.compare]. wp_step. rewrite <- A2. eapply wp_uvmfree_empty; [exact A1| |].
    - intros v. rewrite A5, decide_False, leaf_new by lia. done.
    - intros s3 l3 B1 B2 B3. apply wp_ret, (Q0 s3 l3); [done| |by eapply same_on_trans; [exact M1|eapply same_on_trans]].
      rewrite tables_new in A3. by eapply Hperm. }
  intros s2 l2 T2 (A1 & A2 & A3 & A4 & A5). cbn [Z.ltb Z.compare]. rewrite tables_new in A3. rewrite <- A2. wp_step. rewrite <- (Z.mul_1_l PGSIZE) at 2.
  eapply wp_mappages; [exact A1|lia|lia|unfold PGSIZE, MAXVA; lia|done|done|by rewrite Z.mul_1_l|done| | |].
  { intros v Hv. rewrite A5, decide_False, leaf_new by lia. done. }
  { intros s3 T3 k Hk (B1 & B2 & B3 & B4 & B5). cbn [Z.ltb Z.compare]. wp_step. rewrite <- B2. eapply wp_unmap_keep; [exact B1|lia| |].
    - rewrite B5, decide_False, A5, decide_True by lia. replace (ulim + 1 - (ulim + 1)) with 0 by lia. rewrite Z.mul_0_l, Z.add_0_r.
      pose proof (top_valid tf (ulim + 1) F1 F2 F3 ltac:(auto)) as Hv. unfold top in Hv. by rewrite decide_False, decide_True in Hv by lia.
    - intros s4 C1 C2 C3. wp_step. eapply wp_uvmfree_empty; [exact C1| |].
      + intros v. rewrite C3. case_decide; [done|]. rewrite B5, decide_False, A5, decide_False, leaf_new by lia. done.
      + intros s5 l5 D1 D2 D3. apply wp_ret, (Q0 s5 l5); [done| |].
        * eapply (Hperm T3 []); [by rewrite B3|done].
        * eapply same_on_trans; [exact M1|]. eapply same_on_trans; [exact A4|]. eapply same_on_trans; [exact B4|]. by eapply same_on_trans. }
  intros s3 l3 T3 (B1 & B2 & B3 & B4 & B5). cbn [Z.ltb Z.compare]. apply wp_ret. rewrite <- B2. apply (Q1 s3 l3 T3).
  - rewrite B2, A2. done.
  - split; [split|].
    + by rewrite upages_empty.
    + intros v pa Hv. by rewrite lookup_empty in Hv.
    + intros v Hv _. rewrite B5, decide_False, A5, decide_False, leaf_new by lia. done.
    + intros v Hv. rewrite B5, A5, leaf_new. unfold top. repeat case_decide; try lia; subst; f_equal; lia.
  - rewrite B3, A3. symmetry. apply Permutation_cons_append.
  - eapply same_on_trans; [exact M1|]. by eapply same_on_trans.
Qed.

(** ** [uvmclear] *)

Lemma land_not_U e : 0 <= e < 2 ^ 64 ->
  let e' := Z.land e (u64 (Z.lnot PTE_U)) in 0 <= e' < 2 ^ 64 /\ Z.land e' PTE_V = Z.land e PTE_V /\ PTE2PA e' = PTE2PA e.
Proof.
  intros He e'. assert (u64 (Z.lnot PTE_U) = 2 ^ 64 - 17) as Ec by reflexivity. unfold e'. rewrite Ec. split_and!.
  - apply Z.land_nonneg. lia.
  - assert (Z.land e (2 ^ 64 - 17) = Z.land e (2 ^ 64 - 17) mod 2 ^ 64) as ->; [|apply Z.mod_pos_bound; lia].
    rewrite <- Z.land_ones, <- Z.land_assoc by lia. done.
  - rewrite <- Z.land_assoc. f_equal.
  - unfold PTE2PA. rewrite Z.shiftr_land. change (Z.shiftr (2 ^ 64 - 17) 10) with (Z.ones 54). rewrite Z.land_ones by lia.
    rewrite Z.mod_small; [done|]. rewrite Z.shiftr_div_pow2 by lia. zdiv.
Qed.

Lemma wp_uvmclear s l T rest v (Q : unit -> kst -> Prop) : space kend s l T rest -> 0 <= v < 2 ^ 26 -> valid_pte (leaf (mem_of s) T v) = true ->
  (forall s' e, space kend s' l T rest -> same_on rest (mem_of s) (mem_of s') -> Z.land e PTE_V = Z.land (leaf (mem_of s) T v) PTE_V -> PTE2PA e = PTE2PA (leaf (mem_of s) T v) ->
     (forall v', leaf (mem_of s') T v' = if decide (v' = v) then e else leaf (mem_of s) T v') -> Q tt s') ->
  wp (uvmclear (pt_root T) (v * PGSIZE)) Q s.
Proof.
  intros Hsp Hv Hval HQ. unfold uvmclear. assert (is_Some (pt_low T !! (v / 512))) as [q Eq] by (unfold leaf in Hval; destruct (pt_low T !! (v / 512)); [eauto|done]).
  pose proof (space_table _ _ _ _ _ _ Hsp (elem_low _ _ _ Eq)) as Hq. unfold PGSIZE in Hq. assert (0 <= v mod 512 < 512) by zdiv.
  assert (leaf_addr T v = q + 8 * (v mod 512)) as Ha by (unfold leaf_addr; by rewrite Eq).
  wp_step. eapply wp_walk_lookup; [exact Hsp|unfold MAXVA, PGSIZE; lia|]. assert (v * PGSIZE / 4096 = v) as -> by (unfold PGSIZE; apply Z.div_mul; lia).
  replace (leaf_addr T v =? 0) with false by lia. wp_step. apply wp_getf; [lia|]. rewrite Z.add_0_r.
  assert (ld 8 (mem_of s) (leaf_addr T v) = leaf (mem_of s) T v) as -> by (unfold leaf; by rewrite Ha, Eq).
  assert (0 <= leaf (mem_of s) T v < 2 ^ 64) as Hb by (unfold leaf; rewrite Eq; apply (ld_bound 8)).
  destruct (land_not_U _ Hb) as (E1 & E2 & E3). apply wp_setf; [lia|]. rewrite Z.add_0_r.
  destruct (set_leaf kend s l T rest v _ Hsp ltac:(by exists q) E1) as (S1 & S2 & S3).
  eapply HQ; [exact S1| |exact E2|exact E3|].
  - rewrite mem_of_set_mem. eapply same_on_subset; [exact S2|]. intros x. rewrite elem_of_app. auto.
  - intros v'. rewrite mem_of_set_mem. apply S3.
Qed.

(** ** [uvmalloc] to any size *)

Lemma nodup_below n (ps : list Z) : 0 <= n -> NoDup ps -> (forall x, x ∈ ps -> 0 <= x < n) -> Z.of_nat (length ps) <= n.
Proof.
  intros Hn Hnd Hb. assert (ps ⊆+ seqZ 0 n) as Hs by (apply NoDup_submseteq; [done|]; intros x Hx; apply elem_of_seqZ; specialize (Hb x Hx); lia).
  apply submseteq_length in Hs. rewrite length_seqZ in Hs. lia.
Qed.

(** There are fewer pages than an address space has room for. *)
Lemma few_pages s l held : pages_inv kend s l held -> Z.of_nat (length (l ++ held)) <= 2 ^ 20.
Proof.
  intros Hi. pose proof Hi as [[He _ _ _ _ _] Hnd _]. set (ps := l ++ held) in *.
  assert (forall x, x ∈ ps -> 0 < x /\ x + 4096 <= 2 ^ 32 /\ x mod 4096 = 0) as Hr.
  { intros x Hx. apply (page_range kend x He). by eapply held_ok. }
  rewrite <- (length_fmap (fun p => p / 4096) ps). apply nodup_below; [lia| |].
  - apply NoDup_fmap_2_strong; [|done]. intros x y Hx Hy E. destruct (Hr x Hx) as (_ & _ & X). destruct (Hr y Hy) as (_ & _ & Y). zdiv.
  - intros x (p & -> & Hp)%list_elem_of_fmap. specialize (Hr p Hp). zdiv.
Qed.

(** A loop that runs out of memory before [newsz] does so before any larger
    size. *)
Lemma uvmalloc_loop_more k k' root a oldsz newsz newsz' xperm s s' : (k <= k')%nat -> 0 < newsz <= newsz' ->
  uvmalloc_loop kend k root a oldsz newsz xperm s = Ret (0, s') -> uvmalloc_loop kend k' root a oldsz newsz' xperm s = Ret (0, s').
Proof.
  revert k' a s. induction k as [|k IH]; intros k' a s Hk Hn; [done|]. destruct k' as [|k']; [lia|]. cbn [uvmalloc_loop]. unfold mbind, M_bind, mret, M_ret.
  destruct (a <? newsz) eqn:E; [|intros [= Hz _]; lia]. replace (a <? newsz') with true by lia.
  destruct (kalloc s) as [[r s1]| | | |]; try done. destruct (r =? 0); [done|]. destruct (set_bytes _ s1) as [[u s2]| | | |]; try done.
  destruct (mappages _ _ _ _ _ s2) as [[r2 s3]| | | |]; try done. destruct (negb (r2 =? 0)); [done|]. apply IH; lia.
Qed.

(** All pages up to [sz] and no others are the user's. *)
Definition filled (us : gmap Z Z) (n : Z) : Prop := forall v, is_Some (us !! v) <-> 0 <= v < n.

Lemma filled_length us n : 0 <= n -> filled us n -> n <= Z.of_nat (length (upages us)).
Proof.
  intros Hn Hf. unfold upages. rewrite length_fmap. assert (seqZ 0 n ⊆+ (map_to_list us).*1) as Hs.
  { apply NoDup_submseteq; [apply NoDup_seqZ|]. intros x Hx%elem_of_seqZ. destruct (proj2 (Hf x)) as [pa Hpa]; [lia|].
    apply list_elem_of_fmap. exists (x, pa). by rewrite elem_of_map_to_list. }
  apply submseteq_length in Hs. rewrite length_seqZ, length_fmap in Hs. lia.
Qed.

Lemma wp_uvmalloc_any s l T us rest oldsz newsz xperm (Q : Z -> kst -> Prop) :
  let perm := Z.lor (Z.lor PTE_R PTE_U) xperm in let v0 := npages oldsz in
  uspace kend ulim s l T us rest -> filled us v0 -> 0 <= oldsz -> v0 <= ulim -> 0 <= newsz < 2 ^ 64 -> 0 <= perm < 1024 ->
  (newsz < oldsz -> Q oldsz s) ->
  (oldsz <= newsz -> forall s' l' T', uspace kend ulim s' l' T' us rest -> conserves s l T us rest s' l' T' us ->
     (forall v, ~ (v0 <= v < ulim) -> leaf (mem_of s') T' v = leaf (mem_of s) T v) -> Q 0 s') ->
  (oldsz <= newsz -> npages newsz <= ulim -> forall s' l' T' us', grown kend ulim s l T us rest s' l' T' us' v0 (npages newsz - v0) perm -> Q newsz s') ->
  wp (uvmalloc kend (pt_root T) oldsz newsz xperm) Q s.
Proof.
  intros perm v0 Hu Hf H0 Hle Hn Hperm Qs Q0 Q1. destruct (decide (newsz < oldsz)) as [Hlt|Hge].
  { unfold uvmalloc. replace (newsz <? oldsz) with true by lia. by apply wp_ret, Qs. }
  assert (forall n, v0 <= n -> forall v, v0 <= v < n -> us !! v = None) as Hfree.
  { intros n _ v Hv. destruct (us !! v) eqn:E; [|done]. destruct (proj1 (Hf v)) as [? ?]; [by rewrite E|lia]. }
  assert (forall n, v0 <= npages n -> npages n <= ulim -> forall s', restored kend ulim v0 n s l T us rest s' -> Q 0 s') as HR.
  { intros n Hn1 Hn2 s' (l' & T' & R1 & R2 & R3 & _). apply (Q0 ltac:(lia) s' l' T'); [done|done|]. intros v Hv. destruct (R3 v) as (_ & -> & _); [lia|done]. }
  pose proof (npages_mono oldsz newsz ltac:(lia)) as Hm. fold v0 in Hm.
  destruct (decide (npages newsz <= ulim)) as [Hfit|Hbig].
  { apply (wp_uvmalloc kend ulim s l T us rest); [done|lia|done|exact ulim_ok|done|by apply Hfree| |].
    - by apply HR.
    - intros. by eapply Q1; [lia|..]. }
  set (n1 := ulim * PGSIZE). assert (npages n1 = ulim) as En1 by reflexivity.
  assert (oldsz <= n1) as Ho1 by (unfold v0, npages, n1, PGSIZE in *; zdiv). assert (n1 <= newsz) as Hn1 by (unfold npages, n1, PGSIZE in *; zdiv).
  assert (wp (uvmalloc kend (pt_root T) oldsz n1 xperm) (fun r s' => r = 0 /\ Q 0 s') s) as Hw.
  { apply (wp_uvmalloc kend ulim s l T us rest); [done|lia|lia|exact ulim_ok|done|rewrite En1; by apply Hfree| |].
    - intros s' Hr. split; [done|]. eapply (HR n1); [lia|lia|exact Hr].
    - intros s' l' T' us' (G1 & _ & G3 & G4). exfalso. fold v0 in G3, G4. rewrite En1 in *.
      assert (filled us' ulim) as Hf'.
      { intros v. destruct (decide (v0 <= v < ulim)) as [Hv|Hv].
        - destruct (G4 v) as (pa & Hpa & _); [lia|]. rewrite Hpa. split; [intros _; unfold v0, npages in *; zdiv|eauto].
        - destruct (G3 v) as (-> & _); [lia|]. specialize (Hf v). unfold v0 in *. split; [intros Hx%Hf; lia|intros Hx; apply Hf; lia]. }
      pose proof (filled_length us' ulim ltac:(unfold ulim; lia) Hf') as HL. pose proof (few_pages s' l' _ (sp_pages _ _ _ _ _ (us_space _ _ _ _ _ _ _ G1))) as HP.
      rewrite !length_app in HP. unfold ulim in HL. lia. }
  apply wp_run in Hw as (r & s' & E & -> & HQ). apply wp_run. exists 0, s'. split; [|done]. unfold uvmalloc in *.
  replace (newsz <? oldsz) with false by lia. replace (n1 <? oldsz) with false in E by lia. eapply uvmalloc_loop_more; [|split; [|exact Hn1]|exact E].
  - apply le_n_S. match goal with |- (Z.to_nat ?a <= Z.to_nat ?b)%nat => assert (a <= b) by (apply Z.div_le_mono; unfold PGSIZE; lia); lia end.
  - unfold n1, ulim, PGSIZE. lia.
Qed.

End Space.
