(* ===== verification/ExecProof.v ===== *)
(** * Building the image of a program

    [wpe E] is [wp] that also allows the failures [E]; for [kexec] these are
    the ones of the file-system calls it makes ([fs_fails]), so that nothing
    need be known of the disk.  [building] is the address space under
    construction. *)

From Stdlib Require Import ZArith Lia Bool String.
From stdpp Require Import base gmap list strings fin_maps.
From S2P Require Import Proc.
From S2P Require Import Prelude Mem MemList Spinlock Kalloc Vm VmProof VmUser VmThms VmCopy Sleeplock Bio Log BlockStore Fs FsBytes Exec ExecSpace.

#[local] Opaque tables.

(** ** Failures *)

Inductive failure := FPanic (msg : string) | FFault (why : string) | FBlocked (why : string) | FFuel.

Definition fails {A} (o : outcome A) (f : failure) : Prop :=
  match o with
  | Ret _ => False
  | Panic m => f = FPanic m
  | Fault w => f = FFault w
  | Blocked w => f = FBlocked w
  | OutOfFuel => f = FFuel
  end.

Definition wpe {S A} (E : failure -> Prop) (c : M S A) (Q : A -> S -> Prop) (s : S) : Prop :=
  match c s with Ret (a, s') => Q a s' | o => forall f, fails o f -> E f end.

Section Wpe.
Context {S : Type} (E : failure -> Prop).

Lemma wpe_bind {A B} (c : M S A) (k : A -> M S B) Q s : wpe E c (fun a => wpe E (k a) Q) s -> wpe E (c ≫= k) Q s.
Proof. unfold wpe, mbind, M_bind. by destruct (c s) as [[a s']| | | |]. Qed.

Lemma wpe_wp {A} (c : M S A) Q s : wp c Q s -> wpe E c Q s.
Proof. unfold wp, wpe. by destruct (c s) as [[a s']| | | |]. Qed.

Lemma wpe_ret {A} (a : A) (Q : A -> S -> Prop) s : Q a s -> wpe E (mret a) Q s.
Proof. done. Qed.

Lemma wpe_mono {A} (c : M S A) (Q R : A -> S -> Prop) s : wpe E c Q s -> (forall a s', Q a s' -> R a s') -> wpe E c R s.
Proof. unfold wpe. destruct (c s) as [[a s']| | | |]; auto. Qed.

End Wpe.

Lemma wlp_readi {T} `{HM : HasMach T} {BO : BlockOps T} ip off n (s : fs_st T) : 0 <= off -> 0 <= n ->
  wlp (readi to_kernel ip off n) (fun p _ => Z.of_nat (length p.2) = p.1 /\ 0 <= p.1 <= n) s.
Proof.
  intros Ho Hn. unfold readi. apply wlp_bind. apply wlp_run. intros i s1 _. destruct ((i_size i <? off) || (u32 (off + n) <? off)) eqn:E; [apply wlp_ret; cbn; lia|].
  set (n1 := if i_size i <? u32 (off + n) then i_size i - off else n).
  assert (0 <= n1 <= n) as Hn1.
  { unfold n1. destruct (i_size i <? u32 (off + n)) eqn:E2; [|lia]. assert (u32 (off + n) <= off + n) by (apply Z.mod_le; lia). lia. }
  assert (forall fuel o tot acc s, Z.of_nat (length acc) = tot -> 0 <= tot <= n1 ->
    wlp (readi_loop fuel to_kernel ip o n1 tot acc) (fun p _ => Z.of_nat (length p.2) = p.1 /\ 0 <= p.1 <= n) s) as HL; [|apply HL; [done|lia]].
  induction fuel as [|fuel IH]; intros o tot acc s2 Hacc Ht; cbn [readi_loop]; [exact I|].
  destruct (tot <? n1) eqn:E2; [|apply wlp_ret; cbn; lia]. apply wlp_bind, wlp_run. intros addr s3 _.
  destruct (addr =? 0); [apply wlp_ret; cbn; lia|]. apply wlp_bind, wlp_run. intros i' s4 _. apply wlp_bind, wlp_run. intros bp s5 _. apply wlp_bind, wlp_run. intros d s6 _.
  cbn [to_kernel]. apply wlp_bind, wlp_run. intros [] s7 _. assert (0 <= o mod BSIZE < BSIZE) by (apply Z.mod_pos_bound; done).
  apply IH; [|lia]. rewrite length_app, length_bytes_from. lia.
Qed.

Section Build.
Context {T : Type} `{HM : HasMach T} {BO : BlockOps T}.
Context (kend trampoline : Z).

Abbreviation est := (ex_st T).

(** The calls of fs.c and log.c that exec.c makes. *)
Inductive fs_call : forall X, M (fs_st T) X -> Prop :=
| call_begin : fs_call _ (on_store bs_begin_op)
| call_end : fs_call _ (on_store bs_end_op)
| call_namei path : fs_call _ (namei path)
| call_ilock ip : fs_call _ (ilock ip)
| call_iunlockput ip : fs_call _ (iunlockput ip)
| call_readi ip off n : fs_call _ (readi to_kernel ip off n).

(** One of them failed in this way. *)
Definition fs_fails (f : failure) : Prop := exists X c t, fs_call X c /\ fails (c t) f.

Abbreviation wpx := (wpe fs_fails).

Lemma wpx_f {X} (c : M (fs_st T) X) (Q : X -> est -> Prop) e : fs_call X c ->
  (forall a t, c (ex_fs e) = Ret (a, t) -> Q a (set_ex_fs t e)) -> wpx (in_f c) Q e.
Proof.
  intros Hc HQ. unfold wpe, in_f, zoom. destruct (c (ex_fs e)) as [[a t]| | | |] eqn:E; [by apply HQ|..];
    intros f Hf; exists X, c, (ex_fs e); (split; [done|by rewrite E]).
Qed.

Lemma wpx_k {X} (c : M kst X) (Q : X -> est -> Prop) e : wp c (fun a k => Q a (set_ex_k k e)) (ex_k e) -> wpx (in_k c) Q e.
Proof. intros H. by apply wpe_wp, wp_zoom. Qed.

(** ** The address space under construction *)

Section Image.
Context (Ht1 : (PGSIZE | trampoline)) (Ht2 : 0 <= trampoline) (Ht3 : trampoline + PGSIZE <= 2 ^ 56).
Context (tf : Z) (m0 : mem) (l0 held : list Z).

(** [l0] are the pages that were free, [held] the others, [m0] the memory at
    the start. *)
Record building (root sz : Z) (s : kst) (l : list Z) (Tr : ptree) (us : gmap Z Z) : Prop := {
  b_ps : pspace kend trampoline tf s l Tr us held;
  b_root : pt_root Tr = root;
  b_fill : filled us (npages sz);
  b_sz : 0 <= sz;
  b_lim : npages sz <= ulim;
  b_pages : l ++ tables Tr ++ upages us ≡ₚ l0;
  b_same : same_on held m0 (mem_of s)
}.

Definition user_bits (s : kst) (Tr : ptree) (n : Z) : Prop := forall v, 0 <= v < n -> Z.land (leaf (mem_of s) Tr v) PTE_U <> 0.

(** All its pages are the user's. *)
Definition loading (root sz : Z) (s : kst) : Prop := exists l Tr us, building root sz s l Tr us /\ user_bits s Tr (npages sz).

Lemma leaf_user pa xperm : (PGSIZE | pa) -> 0 <= pa < 2 ^ 56 -> Z.land (pte_of pa (Z.lor (Z.lor PTE_R PTE_U) xperm)) PTE_U <> 0.
Proof.
  intros H1 H2. rewrite land_pte_of_U by done. rewrite Z.land_lor_distr_l. change (Z.land (Z.lor PTE_R PTE_U) PTE_U) with 16.
  intros E. apply Z.lor_eq_0_iff in E. lia.
Qed.

Lemma build_page_range root sz s l Tr us pa : building root sz s l Tr us -> pa ∈ upages us -> 0 < pa /\ pa + PGSIZE <= 2 ^ 32 /\ (PGSIZE | pa).
Proof. intros [[Hu _] _ _ _ _ _ _] Hin. by eapply uspace_page_range. Qed.

(** Pages grown from [sz] to [newsz]. *)
Lemma build_grown root sz s l Tr us newsz xperm s' l' Tr' us' : let perm := Z.lor (Z.lor PTE_R PTE_U) xperm in
  building root sz s l Tr us -> sz <= newsz -> npages newsz <= ulim ->
  grown kend ulim s l Tr us held s' l' Tr' us' (npages sz) (npages newsz - npages sz) perm ->
  building root newsz s' l' Tr' us' /\ (user_bits s Tr (npages sz) -> user_bits s' Tr' (npages newsz)) /\
  (forall v, npages sz <= v < npages newsz -> exists pa, us' !! v = Some pa /\ leaf (mem_of s') Tr' v = pte_of pa perm).
Proof.
  intros perm [[Hu Htop] Hroot Hfill Hsz Hlim Hpages Hsame] Hle Hnl (G1 & (G2 & G3 & G4) & G5 & G6). pose proof (npages_mono sz newsz Hle) as Hm.
  assert (0 <= npages sz) by (unfold npages; zdiv). assert (forall v, npages sz <= v < npages newsz -> exists pa, us' !! v = Some pa /\ leaf (mem_of s') Tr' v = pte_of pa perm) as Hnew.
  { intros v Hv. destruct (G6 v) as (pa & P1 & P2 & _); [lia|]. by exists pa. }
  split_and!; [split| |done].
  - split; [done|]. intros v Hv. destruct (G5 v) as (_ & -> & _); [lia|]. by apply Htop.
  - by rewrite G2.
  - intros v. destruct (decide (npages sz <= v < npages newsz)) as [Hv|Hv].
    + destruct (Hnew v Hv) as (pa & -> & _). split; [lia|by exists pa].
    + destruct (G5 v) as (-> & _); [lia|]. specialize (Hfill v). split; [intros Hx%Hfill; lia|intros Hx; apply Hfill; lia].
  - lia.
  - done.
  - by rewrite G3.
  - by eapply same_on_trans.
  - intros Hb v Hv. destruct (decide (npages sz <= v < npages newsz)) as [Hv'|Hv'].
    + destruct (Hnew v Hv') as (pa & P1 & ->). destruct (uspace_page_range kend ulim s' l' Tr' us' held pa G1) as (R1 & R2 & R3); [by eapply elem_upages|].
      unfold PGSIZE in R2. apply leaf_user; [done|lia].
    + destruct (G5 v) as (_ & -> & _); [lia|]. apply Hb. lia.
Qed.

(** A failed [uvmalloc] changes nothing. *)
Lemma build_restored root sz s l Tr us s' l' Tr' : building root sz s l Tr us -> uspace kend ulim s' l' Tr' us held -> conserves s l Tr us held s' l' Tr' us ->
  (forall v, ~ (npages sz <= v < ulim) -> leaf (mem_of s') Tr' v = leaf (mem_of s) Tr v) ->
  building root sz s' l' Tr' us /\ (user_bits s Tr (npages sz) -> user_bits s' Tr' (npages sz)).
Proof.
  intros [[Hu Htop] Hroot Hfill Hsz Hlim Hpages Hsame] Hu' (C1 & C2 & C3) HL. split; [split|].
  - split; [done|]. intros v Hv. rewrite HL by lia. by apply Htop.
  - by rewrite C1.
  - done.
  - done.
  - done.
  - by rewrite C2.
  - by eapply same_on_trans.
  - intros Hb v Hv. rewrite HL by lia. by apply Hb.
Qed.

(** A store into one of the user's pages. *)
Lemma build_write root sz s l Tr us pa m' : building root sz s l Tr us -> pa ∈ upages us -> modifies (bytes_of pa PGSIZE) (mem_of s) m' ->
  building root sz (set_mem m' s) l Tr us /\ (forall v, leaf m' Tr v = leaf (mem_of s) Tr v).
Proof.
  intros [[Hu Htop] Hroot Hfill Hsz Hlim Hpages Hsame] Hin Hm. pose proof (sp_pages _ _ _ _ _ (us_space _ _ _ _ _ _ _ Hu)) as Hpi. pose proof Hpi as [_ Hnd _].
  assert (forall ps, ps ⊆ l ++ tables Tr ++ upages us ++ held -> pa ∉ ps -> same_on ps (mem_of s) m') as Hs.
  { intros ps Hps Hn. eapply (same_on_page kend s l _ pa); [exact Hpi|rewrite !elem_of_app; auto|done|done|exact Hm]. }
  apply list.NoDup_app in Hnd as (_ & N1 & Hnd). apply list.NoDup_app in Hnd as (_ & N2 & Hnd). apply list.NoDup_app in Hnd as (_ & N3 & _).
  destruct (space_set_mem kend s l Tr (upages us ++ held) m') as [S1 S2]; [apply Hu| |].
  { apply Hs; [intros x; rewrite !elem_of_app; tauto|]. rewrite elem_of_app. intros [H|H]; [apply (N1 pa H)|apply (N2 pa H)]; rewrite ?elem_of_app; auto. }
  split; [|done]. split; try done.
  - split; [eapply uspace_leaf; [exact Hu|exact S1|]; intros v; rewrite mem_of_set_mem; apply S2|]. intros v Hv. rewrite mem_of_set_mem, S2. by apply Htop.
  - rewrite mem_of_set_mem. eapply same_on_trans; [exact Hsame|]. apply Hs; [intros x; rewrite !elem_of_app; tauto|]. intros H. exact (N3 pa Hin H).
Qed.

(** Fewer pages than 32-bit addresses have room for, the root aside. *)
Lemma build_few root sz s l Tr us : building root sz s l Tr us -> npages sz < 2 ^ 20.
Proof.
  intros [[Hu Htop] Hroot Hfill Hsz Hlim Hpages Hsame]. assert (0 <= npages sz) by (unfold npages; zdiv).
  pose proof (filled_length us (npages sz) ltac:(done) Hfill) as HL. pose proof (few_pages kend s l _ (sp_pages _ _ _ _ _ (us_space _ _ _ _ _ _ _ Hu))) as HP.
  rewrite !length_app in HP. destruct (tables Tr) as [|t ts] eqn:Et; [pose proof (elem_root Tr) as He; rewrite Et in He; by apply elem_of_nil in He|]. cbn [length] in HP. lia.
Qed.

(** ** Segments *)

(** The process is the same. *)
Definition others (e e' : est) : Prop :=
  ex_pagetable e' = ex_pagetable e /\ ex_sz e' = ex_sz e /\ ex_trapframe e' = ex_trapframe e /\ ex_name e' = ex_name e.

Lemma others_trans e1 e2 e3 : others e1 e2 -> others e2 e3 -> others e1 e3.
Proof. unfold others. intuition congruence. Qed.

Lemma put_bytes_modifies m a (b : list Z) : modifies (bytes_of a (Z.of_nat (length b))) m (put_bytes m a b).
Proof.
  revert m a. induction b as [|c b IH]; intros m a; cbn [put_bytes length]; [by intros x _|]. intros x Hx. unfold bytes_of in *.
  rewrite IH by lia. rewrite rdb_stb, decide_False; [done|lia].
Qed.

Lemma wpx_readi ip off n e (Q : Z * list Z -> est -> Prop) : 0 <= off -> 0 <= n ->
  (forall r bytes t, Z.of_nat (length bytes) = r -> 0 <= r <= n -> Q (r, bytes) (set_ex_fs t e)) -> wpx (in_f (readi to_kernel ip off n)) Q e.
Proof.
  intros Ho Hn HQ. apply wpx_f; [constructor|]. intros [r b] t E. pose proof (proj1 (wlp_run _ _ _) (wlp_readi ip off n (ex_fs e) Ho Hn) _ _ E) as [H1 H2]. by apply HQ.
Qed.

(** A mapped user page, as [walkaddr] finds it. *)
Lemma wp_loading_page root sz s l Tr us va (Q : Z -> kst -> Prop) : building root sz s l Tr us -> user_bits s Tr (npages sz) -> 0 <= va < sz ->
  (forall pa, pa ∈ upages us -> 0 < pa -> Q pa s) -> wp (walkaddr root va) Q s.
Proof.
  intros Hb Hub Hva HQ. pose proof Hb as [[Hu Htop] Hroot Hfill Hsz Hlim Hpages Hsame]. assert (0 <= va / 4096 < npages sz) as Hv by (unfold npages; zdiv).
  destruct (proj2 (Hfill (va / 4096)) Hv) as [pa Hpa]. destruct (us_map _ _ _ _ _ _ _ Hu _ _ Hpa) as (_ & Hval & E). rewrite <- Hroot.
  eapply wp_walkaddr; [apply Hu|lia|]. replace (va >=? MAXVA) with false by (unfold ulim, npages, MAXVA in *; rewrite Z.geb_leb; zdiv).
  cbv zeta. unfold valid_pte in Hval. apply negb_true_iff in Hval. rewrite Hval, E. specialize (Hub _ Hv). apply Z.eqb_neq in Hub. rewrite Hub.
  apply HQ; [by eapply elem_upages|]. eapply build_page_range; [exact Hb|by eapply elem_upages].
Qed.

Lemma wpx_loadseg root sz va ip offset fsz e : loading root sz (ex_k e) -> va mod PGSIZE = 0 -> 0 <= va -> 0 <= fsz -> va + fsz <= sz ->
  wpx (loadseg root va ip offset fsz) (fun _ e' => loading root sz (ex_k e') /\ others e e') e.
Proof.
  intros HL Hva Hv0 Hf0 Hfit. unfold loadseg.
  assert (forall fuel j e1, 0 <= j -> j * PGSIZE < fsz + PGSIZE -> loading root sz (ex_k e1) -> others e e1 -> Z.of_nat fuel = fsz / PGSIZE + 2 - j ->
    wpx (loadseg_loop fuel root va ip offset fsz (j * PGSIZE)) (fun _ e' => loading root sz (ex_k e') /\ others e e') e1) as HI.
  2:{ apply (HI _ 0); [lia|unfold PGSIZE; lia|done|done|]. unfold PGSIZE in *. zdiv. }
  induction fuel as [|fuel IH]; intros j e1 Hj Hjf HL1 Ho Hfu; cbn [loadseg_loop]; [exfalso; unfold PGSIZE in *; zdiv|].
  destruct (j * PGSIZE <? fsz) eqn:E; [|by apply wpe_ret]. pose proof HL1 as (l & Tr & us & Hb & Hub). pose proof (build_few _ _ _ _ _ _ Hb) as Hfew.
  assert (j * PGSIZE + PGSIZE < 2 ^ 32 /\ va + j * PGSIZE < sz /\ (va + j * PGSIZE) mod 4096 = 0) as (Hw & Hlt & Hal).
  { unfold npages, PGSIZE in *. split_and!; zdiv. }
  apply wpe_bind, wpx_k. assert (sz < 2 ^ 32) by (unfold npages in Hfew; zdiv). rewrite u64_small by (unfold PGSIZE in *; lia). eapply wp_loading_page; [exact Hb|done|unfold PGSIZE in *; lia|]. intros pa Hpa Hpa0.
  replace (pa =? 0) with false by lia. apply wpe_bind, wpe_ret. set (n := if fsz - j * PGSIZE <? PGSIZE then fsz - j * PGSIZE else PGSIZE).
  assert (0 <= n <= PGSIZE) as Hn by (unfold n; destruct (fsz - j * PGSIZE <? PGSIZE) eqn:E9; unfold PGSIZE in *; lia).
  apply wpe_bind, wpx_readi; [apply Z.mod_pos_bound; lia|lia|]. intros r bytes t Hlen Hr. apply wpe_bind, wpx_k. unfold set_bytes. apply wp_modify.
  assert (modifies (bytes_of pa PGSIZE) (mem_of (ex_k e1)) (put_bytes (mem_of (ex_k e1)) pa bytes)) as Hm.
  { eapply modifies_weaken; [apply put_bytes_modifies|]. unfold bytes_of. lia. }
  destruct (build_write _ _ _ _ _ _ _ _ Hb Hpa Hm) as [Hb' HL']. set (e2 := set_ex_k _ _). 
  assert (loading root sz (ex_k e2)) as HL2.
  { exists l, Tr, us. split; [exact Hb'|]. intros v Hv. change (ex_k e2) with (set_mem (put_bytes (mem_of (ex_k e1)) pa bytes) (ex_k e1)). rewrite mem_of_set_mem, HL'. by apply Hub. }
  assert (others e e2) as Ho2 by exact Ho. destruct (negb (r =? n)); [by apply wpe_ret|].
  rewrite u32_small by (unfold PGSIZE in *; lia). replace (j * PGSIZE + PGSIZE) with ((j + 1) * PGSIZE) by lia.
  apply IH; [lia|unfold PGSIZE in *; lia|done|done|lia].
Qed.

Lemma flags2perm_ok flags : 0 <= Z.lor (Z.lor PTE_R PTE_U) (flags2perm flags) < 1024.
Proof. unfold flags2perm. destruct (negb (Z.land flags 1 =? 0)), (negb (Z.land flags 2 =? 0)); (split; [discriminate|reflexivity]). Qed.

(** [uvmalloc] for the image. *)
Lemma wpx_grow root sz newsz xperm e (Q : Z -> est -> Prop) : loading root sz (ex_k e) -> 0 <= newsz < 2 ^ 64 -> 0 <= Z.lor (Z.lor PTE_R PTE_U) xperm < 1024 ->
  (forall k, loading root sz k -> Q 0 (set_ex_k k e)) -> (forall sz1 k, newsz <= sz1 -> sz <= sz1 -> loading root sz1 k -> Q sz1 (set_ex_k k e)) ->
  wpx (in_k (uvmalloc kend root sz newsz xperm)) Q e.
Proof.
  intros (l & Tr & us & Hb & Hub) Hn Hp Q0 Q1. pose proof Hb as [[Hu Htop] Hroot Hfill Hsz Hlim Hpages Hsame]. apply wpx_k. rewrite <- Hroot.
  eapply (wp_uvmalloc_any kend (ex_k e) l Tr us held); [exact Hu|done|done|done|done|done| | |].
  - intros Hlt. apply Q1; [lia|lia|]. by exists l, Tr, us.
  - intros _ s' l' Tr' U1 U2 U3. apply Q0. destruct (build_restored _ _ _ _ _ _ _ _ _ Hb U1 U2 U3) as [B1 B2]. exists l', Tr', us. auto.
  - intros Hle Hnl s' l' Tr' us' G. apply Q1; [lia|lia|]. destruct (build_grown _ _ _ _ _ _ _ _ _ _ _ _ Hb Hle Hnl G) as (B1 & B2 & _). exists l', Tr', us'. auto.
Qed.

Lemma chars_range d i : 0 <= byte_at (chars d) i < 256.
Proof.
  unfold byte_at, chars. rewrite nth_lookup, list_lookup_fmap. destruct (d !! _); cbn; [apply Z.mod_pos_bound|]; lia.
Qed.

Lemma rd32u_range d off : 0 <= rd32u (chars d) off < 2 ^ 32.
Proof. unfold rd32u. pose proof (chars_range d off). pose proof (chars_range d (off + 1)). pose proof (chars_range d (off + 2)). pose proof (chars_range d (off + 3)). lia. Qed.

Lemma rd64u_range d off : 0 <= rd64u (chars d) off < 2 ^ 64.
Proof. unfold rd64u. pose proof (rd32u_range d off). pose proof (rd32u_range d (off + 4)). lia. Qed.

Lemma wpx_load_loop n root ip off sz e : loading root sz (ex_k e) ->
  wpx (load_loop kend n root ip off sz) (fun r e' => loading root r.2 (ex_k e') /\ others e e') e.
Proof.
  revert off sz e. induction n as [|n IH]; intros off sz e HL; cbn [load_loop]; [by apply wpe_ret|].
  apply wpe_bind, wpx_readi; [apply Z.mod_pos_bound; lia|done|]. intros r bytes t _ _. destruct (negb _); [by apply wpe_ret|].
  set (ph := rd_proghdr bytes). assert (0 <= ph_vaddr ph < 2 ^ 64 /\ 0 <= ph_memsz ph < 2 ^ 64 /\ 0 <= ph_filesz ph) as (Hv & Hm & Hf).
  { cbn. pose proof (rd64u_range bytes 16). pose proof (rd64u_range bytes 32). pose proof (rd64u_range bytes 40). lia. }
  assert (forall o sz1 e1, loading root sz1 (ex_k e1) -> others e e1 -> wpx (load_loop kend n root ip o sz1) (fun r e' => loading root r.2 (ex_k e') /\ others e e') e1) as Hgo.
  { intros o sz1 e1 H1 H2. eapply wpe_mono; [by apply IH|]. intros r1 e' [H3 H4]. split; [done|by eapply others_trans]. }
  clearbody ph. destruct (negb _); [by apply Hgo|]. destruct (ph_memsz ph <? ph_filesz ph) eqn:E1; [by apply wpe_ret|].
  destruct (u64 (ph_vaddr ph + ph_memsz ph) <? ph_vaddr ph) eqn:E2; [by apply wpe_ret|]. destruct (ph_vaddr ph mod PGSIZE =? 0) eqn:E3; cbn [negb]; [|by apply wpe_ret].
  assert (u64 (ph_vaddr ph + ph_memsz ph) = ph_vaddr ph + ph_memsz ph) as Eu by (unfold u64 in *; zdiv).
  apply wpe_bind. eapply wpx_grow; [exact HL|apply Z.mod_pos_bound; lia|apply flags2perm_ok| |].
  - intros k Hk. by apply wpe_ret.
  - intros sz1 k Hle Hle1 Hk. destruct (sz1 =? 0) eqn:E4.
    + apply wpe_ret. split; [|done]. assert (0 <= sz) by (destruct HL as (? & ? & ? & Hb & _); exact (b_sz _ _ _ _ _ _ Hb)). assert (sz = sz1) as -> by lia. done.
    + apply wpe_bind. assert (0 <= u32 (ph_filesz ph) <= ph_filesz ph) as Hu by (unfold u32; split; [apply Z.mod_pos_bound|apply Z.mod_le]; lia).
      eapply wpe_mono; [apply (wpx_loadseg root sz1); [exact Hk|lia|lia|lia|lia]|]. intros r1 e1 [H1 H2]. destruct (r1 <? 0); [by apply wpe_ret|]. by apply Hgo.
Qed.

End Image.
End Build.
