(* ===== verification/ExecStack.v ===== *)
(** * The stack of a new program

    What the second half of [kexec] does to the new address space: the guard
    page, the argument strings and the array of pointers to them. *)

From Stdlib Require Import ZArith Lia Bool String.
From stdpp Require Import base gmap list strings fin_maps.
From S2P Require Import Proc.
From S2P Require Import Prelude Mem MemList Spinlock Kalloc Vm VmProof VmUser VmThms VmCopy Sleeplock Bio Log BlockStore Fs Exec ExecSpace ExecProof.

#[local] Opaque tables.

(** The byte at a user address. *)
Definition user_at (s : kst) (us : gmap Z Z) (va : Z) : option Z := a ← uaddr us va; Some (rdb (mem_of s) a).

Lemma strlen_loop_same m m' a k n : (forall x, a <= x < a + n + Z.of_nat k -> rdb m' x = rdb m x) -> 0 <= n -> strlen_loop k m' a n = strlen_loop k m a n.
Proof.
  revert n. induction k as [|k IH]; intros n H Hn; cbn [strlen_loop]; [done|]. rewrite H by lia. destruct (_ =? 0); [done|]. apply IH; [|lia]. intros x Hx. apply H. lia.
Qed.

Lemma strlen_loop_bound m a k n len : strlen_loop k m a n = Some len -> n <= len < n + Z.of_nat k.
Proof. revert n. induction k as [|k IH]; intros n; cbn [strlen_loop]; [done|]. destruct (_ =? 0); [intros [= <-]; lia|]. intros H%IH. lia. Qed.

Section Stack.
Context {T : Type} `{HM : HasMach T} {BO : BlockOps T}.
Context (kend trampoline ustack : Z).
Context (Ht1 : (PGSIZE | trampoline)) (Ht2 : 0 <= trampoline) (Ht3 : trampoline + PGSIZE <= 2 ^ 56).
Context (tf : Z) (m0 : mem) (l0 held : list Z).
(** The local array [ustack] lies in none of these pages. *)
Context (Hus0 : 0 < ustack) (Hus : forall p x, p ∈ l0 ++ held -> ustack <= x < ustack + 8 * (MAXARG + 1) -> ~ bytes_of p PGSIZE x).

Abbreviation est := (ex_st T).
Abbreviation building := (building kend trampoline tf m0 l0 held).
Abbreviation wpx := (wpe (fs_fails (T := T))).

(** Memory changes outside all these pages. *)
Lemma build_outside root sz s l Tr us m' : building root sz s l Tr us -> (forall p x, p ∈ l0 ++ held -> bytes_of p PGSIZE x -> rdb m' x = rdb (mem_of s) x) ->
  building root sz (set_mem m' s) l Tr us /\ (forall v, leaf m' Tr v = leaf (mem_of s) Tr v) /\ (forall x, user_at (set_mem m' s) us x = user_at s us x).
Proof.
  intros [[Hu Htop] Hroot Hfill Hsz Hlim Hpages Hsame] Hm. destruct (space_set_mem kend s l Tr (upages us ++ held) m') as [S1 S2]; [apply Hu| |].
  { intros p x Hp. apply Hm. rewrite <- Hpages. rewrite !elem_of_app in *. tauto. }
  split_and!; [|done|].
  - split; try done.
    + split; [eapply uspace_leaf; [exact Hu|exact S1|]; intros v; rewrite mem_of_set_mem; apply S2|]. intros v Hv. rewrite mem_of_set_mem, S2. by apply Htop.
    + rewrite mem_of_set_mem. eapply same_on_trans; [exact Hsame|]. intros p x Hp. apply Hm. rewrite elem_of_app. auto.
  - intros x. unfold user_at, uaddr. rewrite mem_of_set_mem. destruct (us !! (x / 4096)) as [pa|] eqn:E; [|done]. cbn [mbind option_bind]. f_equal.
    apply (Hm pa); [|unfold bytes_of, PGSIZE; zdiv]. rewrite <- Hpages, !elem_of_app. left. right. right. by eapply elem_upages.
Qed.

Lemma build_ustack root sz s l Tr us i v : building root sz s l Tr us -> 0 <= i <= MAXARG ->
  let m' := st 8 (mem_of s) (ustack + 8 * i) v in
  building root sz (set_mem m' s) l Tr us /\ (forall v, leaf m' Tr v = leaf (mem_of s) Tr v) /\ (forall x, user_at (set_mem m' s) us x = user_at s us x).
Proof.
  intros Hb Hi m'. apply build_outside; [done|]. intros p x Hp Hx. unfold m'. rewrite rdb_st, decide_False; [done|]. intros Hr. apply (Hus p x Hp); [|done]. unfold MAXARG in *. lia.
Qed.

(** The stack page is the last one. *)
Definition stack_page (s : kst) (Tr : ptree) (sz : Z) : Prop := exists n, sz = n * PGSIZE /\ 2 <= n /\
  Z.land (leaf (mem_of s) Tr (n - 1)) PTE_U <> 0 /\ Z.land (leaf (mem_of s) Tr (n - 1)) PTE_W <> 0.

Lemma stack_page_same s s' Tr sz : (forall v, leaf (mem_of s') Tr v = leaf (mem_of s) Tr v) -> stack_page s Tr sz -> stack_page s' Tr sz.
Proof. intros HL (n & H1 & H2 & H3 & H4). exists n. by rewrite !HL. Qed.

Lemma held_apart' root sz s l Tr us p q x : building root sz s l Tr us -> p ∈ held -> q ∈ l ++ tables Tr ++ upages us -> bytes_of p PGSIZE x -> ~ bytes_of q PGSIZE x.
Proof.
  intros [[Hu Htop] Hroot Hfill Hsz Hlim Hpages Hsame] Hp Hq Hx Hx'. pose proof (sp_pages _ _ _ _ _ (us_space _ _ _ _ _ _ _ Hu)) as Hpi. pose proof Hpi as [_ Hnd _].
  assert (p <> q) as Hne.
  { intros ->. rewrite !app_assoc in Hnd. apply list.NoDup_app in Hnd as (_ & Hd & _). apply (Hd q); [|done]. rewrite !elem_of_app in *. tauto. }
  destruct (pages_disjoint kend s l (tables Tr ++ upages us ++ held) p q) as [|]; [exact Hpi|rewrite !elem_of_app; auto|rewrite !elem_of_app in *; tauto|done|unfold bytes_of, PGSIZE in *; lia..].
Qed.

Context (kfree : Z -> M kst unit).

(** A copy to the stack. *)
Lemma wpx_copyout root sz l Tr us va src len e (Q : Z -> est -> Prop) : building root sz (ex_k e) l Tr us -> stack_page (ex_k e) Tr sz ->
  sz - PGSIZE <= va -> 0 < len -> va + len <= sz -> (forall p x, p ∈ l0 -> src <= x < src + len -> ~ bytes_of p PGSIZE x) ->
  (forall k, building root sz k l Tr us -> stack_page k Tr sz -> (forall x, (forall p, p ∈ l0 -> ~ bytes_of p PGSIZE x) -> rdb (mem_of k) x = rdb (mem_of (ex_k e)) x) ->
     (forall x, 0 <= x < sz -> user_at k us x = if decide (va <= x < va + len) then Some (rdb (mem_of (ex_k e)) (src + (x - va))) else user_at (ex_k e) us x) ->
     Q 0 (set_ex_k k e)) ->
  wpx (copyout_to kfree root va src len) Q e.
Proof.
  intros Hb Hsp Hva Hlen Hfit Hsrc HQ. pose proof Hb as [[Hu Htop] Hroot Hfill Hsz Hlim Hpages Hsame]. pose proof Hsp as (n & -> & Hn & HU & HW). unfold PGSIZE in Hva, Hfit.
  assert (npages (n * PGSIZE) = n) as En by (unfold npages, PGSIZE; zdiv). rewrite En in *.
  unfold copyout_to. apply wpe_bind. unfold wpe at 1, get. apply wpx_k. rewrite <- Hroot.
  apply (wp_copyout kend ulim _ _ _ ulim_ok _ _ l Tr us held); [exact Hu|lia|lia| | |lia|].
  - intros v Hv. assert (v = n - 1) as -> by zdiv. split_and!; [apply Hfill; lia|done|by right].
  - intros p x Hp. apply Hsrc. by rewrite <- Hpages.
  - intros k K1 K2 K3 K4. apply HQ.
    + split; try done; [| | |].
      * split; [done|]. intros v Hv. rewrite K2. by apply Htop.
      * by rewrite En.
      * by rewrite En.
      * eapply same_on_trans; [exact Hsame|]. intros p x Hp Hx. apply K4. intros q Hq. eapply held_apart'; [exact Hb|done| |done]. rewrite !elem_of_app. auto.
    + by eapply stack_page_same.
    + intros x Hx. apply K4. intros p Hp. apply Hx. rewrite <- Hpages, !elem_of_app. auto.
    + intros x Hx. unfold user_at. destruct (proj2 (Hfill (x / 4096))) as [pa Hpa]; [unfold PGSIZE in *; zdiv|].
      assert (uaddr us x = Some (pa + x mod 4096)) as Ea by (unfold uaddr; by rewrite Hpa). rewrite Ea. cbn. rewrite (K3 x _ Ea). by case_decide.
Qed.

(** ** The arguments *)

(** An argument is a page of its own with a string in it. *)
Definition arg_ok (a : Z) : Prop := a <> 0 /\ a ∈ held /\ exists len, strlen (Z.to_nat PGSIZE) m0 a = Some len.

(** The string of argument [a] is at the user address [x]. *)
Definition copied (s : kst) (us : gmap Z Z) (a x : Z) : Prop :=
  forall len j, strlen (Z.to_nat PGSIZE) m0 a = Some len -> 0 <= j <= len -> user_at s us (x + j) = Some (rdb m0 (a + j)).

(** The first [length addrs] strings are copied, from [sp] on, and [ustack]
    holds their addresses. *)
Record pushed (sz sp : Z) (s : kst) (us : gmap Z Z) (args addrs : list Z) : Prop := {
  pu_str : forall i a x, args !! i = Some a -> addrs !! i = Some x -> copied s us a x;
  pu_in : forall i a x, args !! i = Some a -> addrs !! i = Some x -> exists len, strlen (Z.to_nat PGSIZE) m0 a = Some len /\ sp <= x /\ x + len < sz;
  pu_len : (length addrs <= length args < 32)%nat;
  pu_ptr : forall i x k, addrs !! i = Some x -> 0 <= k < 8 -> rdb (mem_of s) (ustack + 8 * Z.of_nat i + k) = (x / 256 ^ k) mod 256
}.

Lemma strlen_now root sz s l Tr us a len : building root sz s l Tr us -> a ∈ held -> strlen (Z.to_nat PGSIZE) m0 a = Some len ->
  strlen (Z.to_nat PGSIZE) (mem_of s) a = Some len /\ 0 <= len < PGSIZE /\ (forall j, 0 <= j < PGSIZE -> rdb (mem_of s) (a + j) = rdb m0 (a + j)).
Proof.
  intros Hb Ha E. pose proof (b_same _ _ _ _ _ _ _ _ _ _ _ _ Hb) as Hs. assert (forall j, 0 <= j < PGSIZE -> rdb (mem_of s) (a + j) = rdb m0 (a + j)) as Hj.
  { intros j Hj. apply (Hs a); [done|unfold bytes_of; lia]. }
  split_and!; [| | |done].
  - unfold strlen in *. rewrite <- E. apply strlen_loop_same; [|lia]. intros x Hx. replace x with (a + (x - a)) by lia. apply Hj. unfold PGSIZE in *. lia.
  - apply strlen_loop_bound in E. lia.
  - apply strlen_loop_bound in E. unfold PGSIZE in *. lia.
Qed.

(** A later copy below [sp] keeps what is pushed. *)
Lemma pushed_keep sz sp s us args addrs k va len : pushed sz sp s us args addrs -> va + len <= sp -> 0 <= va -> 0 <= len ->
  (forall x, (forall p, p ∈ l0 -> ~ bytes_of p PGSIZE x) -> rdb (mem_of k) x = rdb (mem_of s) x) ->
  (forall x, 0 <= x < sz -> ~ (va <= x < va + len) -> user_at k us x = user_at s us x) -> pushed sz va k us args addrs.
Proof.
  intros [H1 H2 H3 H4] Hva Hva0 Hlen Hout Huser. split; [| |done|].
  - intros i a x Ha Hx ln j Eln Hj. destruct (H2 i a x Ha Hx) as (ln' & Eln' & Hb). assert (ln' = ln) as -> by congruence.
    rewrite Huser by lia. by eapply H1.
  - intros i a x Ha Hx. destruct (H2 i a x Ha Hx) as (ln & E & Hb). exists ln. split; [done|lia].
  - intros i x j Hx Hj. rewrite Hout; [by apply H4|]. intros p Hp Hb. apply (Hus p (ustack + 8 * Z.of_nat i + j)); [rewrite elem_of_app; auto| |done].
    apply lookup_lt_Some in Hx. unfold MAXARG. lia.
Qed.

(** One more string. *)
Lemma pushed_more sz sp s us args addrs a x len m' : pushed sz sp s us args addrs -> args !! length addrs = Some a -> strlen (Z.to_nat PGSIZE) m0 a = Some len ->
  sp <= x -> x + len < sz -> copied s us a x ->
  m' = st 8 (mem_of s) (ustack + 8 * Z.of_nat (length addrs)) x -> (forall y, user_at (set_mem m' s) us y = user_at s us y) ->
  pushed sz sp (set_mem m' s) us args (addrs ++ [x]).
Proof.
  intros [H1 H2 H3 H4] Ha El Hsp Hx Hc -> Hu. assert (forall i y, (addrs ++ [x]) !! i = Some y -> addrs !! i = Some y \/ i = length addrs /\ y = x) as Hcase.
  { intros i y Hi. apply lookup_snoc_Some in Hi as [[_ Hi]|[-> <-]]; auto. }
  split.
  - intros i b y Hb Hi ln j Eln Hj. rewrite Hu. destruct (Hcase i y Hi) as [Hi'|[-> ->]]; [by eapply H1|]. assert (b = a) as -> by congruence. by eapply Hc.
  - intros i b y Hb Hi. destruct (Hcase i y Hi) as [Hi'|[-> ->]]; [by eapply H2|]. assert (b = a) as -> by congruence. exists len. done.
  - apply lookup_lt_Some in Ha. rewrite length_app. cbn. lia.
  - intros i y k Hi Hk. rewrite mem_of_set_mem, rdb_st. destruct (Hcase i y Hi) as [Hi'|[-> ->]].
    + rewrite decide_False; [by apply H4|]. apply lookup_lt_Some in Hi'. lia.
    + rewrite decide_True by lia. by replace (ustack + 8 * Z.of_nat (length addrs) + k - (ustack + 8 * Z.of_nat (length addrs))) with k by lia.
Qed.

Lemma wpx_push_args root sz l Tr us args zs (e : est) : building root sz (ex_k e) l Tr us -> stack_page (ex_k e) Tr sz -> sz < 2 ^ 64 -> Forall arg_ok args -> (length args < 32)%nat ->
  wpx (push_args ustack kfree (S (Z.to_nat MAXARG)) root (sz - PGSIZE) (args ++ 0 :: zs) 0 sz) (fun r e' => others e e' /\ building root sz (ex_k e') l Tr us /\ stack_page (ex_k e') Tr sz /\
    (r.1.1 = true -> r.1.2 = Z.of_nat (length args) /\ sz - PGSIZE <= r.2 <= sz /\ exists addrs, length addrs = length args /\ pushed sz r.2 (ex_k e') us args addrs)) e.
Proof.
  intros Hb Hsp Hsz64 Hargs Hlen.
  assert (forall fuel sp addrs (e1 : est), Z.of_nat fuel = 33 - Z.of_nat (length addrs) -> building root sz (ex_k e1) l Tr us -> stack_page (ex_k e1) Tr sz -> others e e1 ->
    sz - PGSIZE <= sp <= sz -> pushed sz sp (ex_k e1) us args addrs ->
    wpx (push_args ustack kfree fuel root (sz - PGSIZE) (args ++ 0 :: zs) (Z.of_nat (length addrs)) sp) (fun r e' => others e e' /\ building root sz (ex_k e') l Tr us /\ stack_page (ex_k e') Tr sz /\
      (r.1.1 = true -> r.1.2 = Z.of_nat (length args) /\ sz - PGSIZE <= r.2 <= sz /\ exists addrs, length addrs = length args /\ pushed sz r.2 (ex_k e') us args addrs)) e1) as HI.
  2:{ apply (HI _ sz []); [done|done|done|done|unfold PGSIZE; lia|]. split; [intros i a x _ Hx; by rewrite lookup_nil in Hx..|cbn; lia|intros i x k Hx; by rewrite lookup_nil in Hx]. }
  induction fuel as [|fuel IH]; intros sp addrs e1 Hfu Hb1 Hsp1 Ho Hr Hp; pose proof (pu_len _ _ _ _ _ _ Hp) as Hl; [lia|]. cbn [push_args].
  destruct Hsp1 as (n & En & Hn & HU & HW). assert (stack_page (ex_k e1) Tr sz) as Hsp1 by (by exists n). unfold PGSIZE in En.
  apply wpe_bind, wpe_wp. destruct (decide (length addrs = length args)) as [El|El].
  { eapply wp_arr_get; [lia| |]. { rewrite Nat2Z.id, El, lookup_app_r, Nat.sub_diag by lia. reflexivity. }
    cbn [Z.eqb]. apply wpe_ret. split_and!; [done..|]. cbn. intros _. split_and!; [lia|lia|lia|]. by exists addrs. }
  destruct (lookup_lt_is_Some_2 args (length addrs)) as [a Ha]; [lia|]. eapply wp_arr_get; [lia| |]. { rewrite Nat2Z.id, lookup_app_l by lia. exact Ha. }
  pose proof (proj1 (Forall_lookup _ _) Hargs _ _ Ha) as (Ha0 & Hah & len & Elen). replace (a =? 0) with false by lia.
  replace (Z.of_nat (length addrs) >=? MAXARG) with false by (rewrite Z.geb_leb; unfold MAXARG; lia).
  apply wpe_bind, wpx_k, wp_gets. destruct (strlen_now _ _ _ _ _ _ _ _ Hb1 Hah Elen) as (Es & Hlr & Hsame). change (set_ex_k (ex_k e1) e1) with (set_ex_k (ex_k e1) e1). rewrite Es.
  unfold PGSIZE in Hlr, Hr. rewrite u64_small by lia. set (sp1 := sp - (len + 1) - (sp - (len + 1)) mod 16). assert (sp1 <= sp - (len + 1) /\ 0 <= sp1) as [Hs1 Hs0] by (unfold sp1; zdiv).
  destruct (sp1 <? sz - PGSIZE) eqn:E1; [by apply wpe_ret|]. apply wpe_bind. unfold PGSIZE in E1.
  eapply (wpx_copyout root sz l Tr us sp1 a (len + 1)); [exact Hb1|exact Hsp1|unfold PGSIZE; lia|lia|lia| |].
  { intros p x Hp' Hx Hb'. eapply (held_apart' root sz (ex_k e1) l Tr us a p x); [exact Hb1|done|by rewrite (b_pages _ _ _ _ _ _ _ _ _ _ _ _ Hb1)|unfold bytes_of, PGSIZE in *; lia|done]. }
  intros k Hbk Hspk Hout Huser. cbn [Z.ltb Z.compare]. apply wpe_bind, wpx_k, wp_setf; [lia|].
  destruct (build_ustack root sz k l Tr us (Z.of_nat (length addrs)) sp1 Hbk ltac:(unfold MAXARG; lia)) as (Hbm & HLm & Hum).
  replace (Z.of_nat (length addrs) + 1) with (Z.of_nat (length (addrs ++ [sp1]))) by (rewrite length_app; cbn; lia).
  apply IH; [rewrite length_app; cbn; lia|exact Hbm| |exact Ho|unfold PGSIZE; lia|].
  - eapply stack_page_same; [|exact Hspk]. intros v. cbn [ex_k set_ex_k]. rewrite mem_of_set_mem. apply HLm.
  - eapply (pushed_more sz sp1 k us args addrs a sp1 len); [|exact Ha|exact Elen|lia|lia| |reflexivity|exact Hum].
    + eapply (pushed_keep sz sp _ us args addrs k sp1 (len + 1)); [exact Hp|lia|lia|lia|exact Hout|]. intros x Hx Hnx. rewrite Huser by lia. rewrite decide_False by lia. done.
    + intros ln j Eln Hj. assert (ln = len) as -> by congruence. rewrite Huser by lia. rewrite decide_True by lia. f_equal. replace (a + (sp1 + j - sp1)) with (a + j) by lia. apply Hsame. unfold PGSIZE. lia.
Qed.

End Stack.
