(* ===== verification/ExecThms.v ===== *)
(** * [kexec] is all or nothing *)

From Stdlib Require Import ZArith Lia Bool String.
From stdpp Require Import base gmap list strings fin_maps.
From S2P Require Import Proc.
From S2P Require Import Prelude Mem MemList Spinlock Kalloc Vm VmProof VmUser VmThms VmCopy Sleeplock Bio Log BlockStore Fs Exec ExecSpace ExecProof ExecStack.

#[local] Opaque tables.

Section Exec.
Context {T : Type} `{HM : HasMach T} {BO : BlockOps T}.
Context (kend trampoline ustack : Z) (kfree : Z -> M kst unit).
Context (Ht1 : (PGSIZE | trampoline)) (Ht2 : 0 <= trampoline) (Ht3 : trampoline + PGSIZE <= 2 ^ 56).

Abbreviation est := (ex_st T).
Abbreviation wpx := (wpe (fs_fails (T := T))).
Abbreviation pspace := (pspace kend trampoline).

Lemma perm_swap2 (a b c d f : list Z) : a ++ b ++ c ++ d ++ f ≡ₚ c ++ d ++ a ++ b ++ f.
Proof. rewrite (app_assoc a b), (app_assoc c d f), (app_assoc c d (a ++ b ++ f)), (app_assoc a b f). apply Permutation_app_swap_app. Qed.

(** The same address space among other pages. *)
Lemma pspace_move tf s l Tr us rest s' l' rest' : pspace tf s l Tr us rest -> pages_inv kend s' l' (tables Tr ++ upages us ++ rest') ->
  same_on (tables Tr) (mem_of s) (mem_of s') -> pspace tf s' l' Tr us rest'.
Proof.
  intros [[[_ Hpt] H2 H3] Htop] Hp Hs. assert (forall v, leaf (mem_of s') Tr v = leaf (mem_of s) Tr v) as HL by (intros v; by apply leaf_same).
  split; [split; [split; [done|by eapply pt_ok_same]|..]|]; intros v; rewrite HL; auto.
Qed.

Section Run.
Context (tf : Z) (m0 : mem) (l0 held : list Z).
Context (Hus0 : 0 < ustack) (Hus : forall p x, p ∈ l0 ++ held -> ustack <= x < ustack + 8 * (MAXARG + 1) -> ~ bytes_of p PGSIZE x).
Context (Htf : tf ∈ held).

Abbreviation building := (building kend trampoline tf m0 l0 held).
Abbreviation loading := (loading kend trampoline tf m0 l0 held).

(** Everything has been given back. *)
Definition undone (e e' : est) : Prop :=
  others e e' /\ exists l', pages_inv kend (ex_k e') l' held /\ l' ≡ₚ l0 /\ same_on held m0 (mem_of (ex_k e')).

Lemma held_tf s l Tr us : pspace tf s l Tr us held -> 0 < tf /\ tf + PGSIZE <= 2 ^ 32 /\ (PGSIZE | tf).
Proof. intros [Hu _]. eapply held_range; [apply Hu|]. rewrite !elem_of_app. auto. Qed.

Lemma wpx_bad root sz ip e l Tr us : root <> 0 -> building root sz (ex_k e) l Tr us -> wpx (exec_bad kend root sz ip) (fun r e' => r = -1 /\ undone e e') e.
Proof.
  intros Hr Hb. pose proof Hb as [Hps Hroot Hfill Hsz Hlim Hpages Hsame]. destruct (held_tf _ _ _ _ Hps) as (F1 & F2 & F3). unfold exec_bad.
  replace (root =? 0) with false by lia. cbn [negb]. apply wpe_bind, wpx_k. rewrite <- Hroot.
  eapply (wp_proc_freepagetable kend trampoline Ht1 Ht2 Ht3 tf _ l Tr us held); [exact Hps|done|lia|unfold PGSIZE in *; lia|done|done|intros v pa Hv; apply Hfill; by rewrite Hv|].
  intros s' l' P1 P2 P3. assert (undone e (set_ex_k s' e)) as Hun.
  { split; [done|]. exists l'. split_and!; [done|by rewrite P2|by eapply same_on_trans]. }
  apply wpe_bind. destruct (ip =? 0); cbn [negb]; [by apply wpe_ret, wpe_ret|].
  apply wpe_bind, wpx_f; [constructor|]. intros [] t _. apply wpx_f; [constructor|]. intros [] t' _. by apply wpe_ret.
Qed.

Lemma wpx_bad0 ip e e0 : undone e0 e -> wpx (exec_bad kend 0 0 ip) (fun r e' => r = -1 /\ undone e0 e') e.
Proof.
  intros Hun. unfold exec_bad. cbn [Z.eqb negb]. apply wpe_bind, wpe_ret, wpe_bind. destruct (ip =? 0); cbn [negb]; [by apply wpe_ret, wpe_ret|].
  apply wpe_bind, wpx_f; [constructor|]. intros [] t _. apply wpx_f; [constructor|]. intros [] t' _. by apply wpe_ret.
Qed.

(** ** The stack *)

Lemma build_clear root sz s l Tr us v s' e : building root sz s l Tr us -> 0 <= v < npages sz ->
  space kend s' l Tr (upages us ++ held) -> same_on (upages us ++ held) (mem_of s) (mem_of s') ->
  Z.land e PTE_V = Z.land (leaf (mem_of s) Tr v) PTE_V -> PTE2PA e = PTE2PA (leaf (mem_of s) Tr v) ->
  (forall v', leaf (mem_of s') Tr v' = if decide (v' = v) then e else leaf (mem_of s) Tr v') -> building root sz s' l Tr us.
Proof.
  intros [[[H1 H2 H3] Htop] Hroot Hfill Hsz Hlim Hpages Hsame] Hv Hsp Hs EV EP HL. split; try done.
  - split; [split; [done|..]|].
    + intros v' pa Hpa. destruct (H2 v' pa Hpa) as (A & B & C). rewrite HL. case_decide as E; [subst v'|done]. unfold valid_pte in *. by rewrite EV, EP.
    + intros v' Hv' HN. rewrite HL, decide_False; [by apply H3|]. intros ->. destruct (proj2 (Hfill v) Hv) as [pa Hpa]. congruence.
    + intros v' Hv'. rewrite HL, decide_False by lia. by apply Htop.
  - eapply same_on_trans; [exact Hsame|]. eapply same_on_subset; [exact Hs|]. intros x. rewrite elem_of_app. auto.
Qed.

Lemma loading_round root sz s l Tr us : building root sz s l Tr us -> building root (npages sz * PGSIZE) s l Tr us.
Proof.
  intros [Hps Hroot Hfill Hsz Hlim Hpages Hsame]. assert (0 <= npages sz) by (unfold npages; zdiv).
  assert (npages (npages sz * PGSIZE) = npages sz) as E by (unfold npages, PGSIZE; zdiv). split; rewrite ?E; try done. unfold PGSIZE. lia.
Qed.


(** [main]'s [argv]: the pointers at [sp] lead to the strings and end with 0. *)
Definition args_at (s : kst) (us : gmap Z Z) (args : list Z) (sp : Z) : Prop := exists addrs, length addrs = length args /\
  (forall i a x, args !! i = Some a -> addrs !! i = Some x -> copied m0 s us a x /\ forall k, 0 <= k < 8 -> user_at s us (sp + 8 * Z.of_nat i + k) = Some ((x / 256 ^ k) mod 256)) /\
  (forall k, 0 <= k < 8 -> user_at s us (sp + 8 * Z.of_nat (length args) + k) = Some 0).

Abbreviation arg_ok := (arg_ok m0 held).

Lemma wpx_pointers root sz l Tr us args addrs sp e (bad : M est Z) (k : Z -> M est Z) (Q : Z -> est -> Prop) :
  building root sz (ex_k e) l Tr us -> stack_page (ex_k e) Tr sz -> sz < 2 ^ 64 -> sz - PGSIZE <= sp <= sz -> length addrs = length args -> pushed ustack m0 sz sp (ex_k e) us args addrs ->
  (forall e', others e e' -> building root sz (ex_k e') l Tr us -> wpx bad Q e') ->
  (forall sp' e', others e e' -> building root sz (ex_k e') l Tr us -> 0 <= sp' < sz -> args_at (ex_k e') us args sp' -> wpx (k sp') Q e') ->
  wpx (in_k (setf 8 ustack (8 * Z.of_nat (length args)) 0);;
       (let sp := u64 (sp - (Z.of_nat (length args) + 1) * 8) in let sp := sp - sp mod 16 in
        if sp <? sz - PGSIZE then bad
        else r ← copyout_to kfree root sp ustack ((Z.of_nat (length args) + 1) * 8); if r <? 0 then bad else k sp)) Q e.
Proof.
  intros Hb Hsp H64 Hr Hlen Hp Hbad Hk. pose proof (pu_len _ _ _ _ _ _ _ _ Hp) as Hl. destruct Hsp as (n & En & Hn & HU & HW). assert (stack_page (ex_k e) Tr sz) as Hsp by (by exists n). unfold PGSIZE in En, Hr.
  apply wpe_bind, wpx_k, wp_setf; [lia|]. destruct (build_ustack kend trampoline ustack tf m0 l0 held Hus root sz (ex_k e) l Tr us (Z.of_nat (length args)) 0 Hb ltac:(unfold MAXARG; lia)) as (Hb1 & HL1 & Hu1).
  set (m1 := st 8 (mem_of (ex_k e)) (ustack + 8 * Z.of_nat (length args)) 0) in *. set (e1 := set_ex_k (set_mem m1 (ex_k e)) e).
  assert (stack_page (ex_k e1) Tr sz) as Hsp1. { eapply stack_page_same; [|exact Hsp]. intros v. unfold e1. cbn [ex_k set_ex_k]. rewrite mem_of_set_mem. apply HL1. }
  cbv zeta. rewrite u64_small by lia. set (sp1 := sp - _ - _). assert (0 <= sp1 /\ sp1 + (Z.of_nat (length args) + 1) * 8 <= sp) as [Hs0 Hs1] by (unfold sp1; zdiv).
  destruct (sp1 <? sz - PGSIZE) eqn:E1; [by apply Hbad|]. apply wpe_bind. unfold PGSIZE in E1.
  eapply (wpx_copyout kend trampoline tf m0 l0 held kfree root sz l Tr us sp1 ustack ((Z.of_nat (length args) + 1) * 8)); [exact Hb1|exact Hsp1|unfold PGSIZE; lia|lia|lia| |].
  { intros p x Hpl Hx. apply Hus; [rewrite elem_of_app; auto|unfold MAXARG; lia]. }
  intros kk Hbk Hspk Hout Huser. cbn [Z.ltb Z.compare]. apply (Hk sp1 (set_ex_k kk e1)); [done|exact Hbk|lia|].
  assert (pushed ustack m0 sz sp (ex_k e1) us args addrs) as Hp1.
  { destruct Hp as [A1 A2 A3 A4]. split; [|done|done|].
    - intros i a x Ha Hx ln j Eln Hj. unfold e1. cbn [ex_k set_ex_k]. rewrite Hu1. by eapply A1.
    - intros i x j Hx Hj. unfold e1. cbn [ex_k set_ex_k]. rewrite mem_of_set_mem. unfold m1. rewrite rdb_st, decide_False; [by apply A4|]. apply lookup_lt_Some in Hx. lia. }
  pose proof (pushed_keep ustack m0 l0 held Hus sz sp _ us args addrs kk sp1 ((Z.of_nat (length args) + 1) * 8) Hp1 ltac:(lia) ltac:(lia) ltac:(lia) Hout) as Hp2.
  assert (pushed ustack m0 sz sp1 kk us args addrs) as [A1 A2 A3 A4]. { apply Hp2. intros x Hx Hnx. rewrite Huser by lia. rewrite decide_False by lia. done. }
  exists addrs. split_and!; [done| |].
  - intros i a x Ha Hx. split; [by eapply A1|]. intros j Hj. apply lookup_lt_Some in Ha as Hi. rewrite Huser by lia. rewrite decide_True by lia. f_equal.
    replace (ustack + (sp1 + 8 * Z.of_nat i + j - sp1)) with (ustack + 8 * Z.of_nat i + j) by lia. by apply (pu_ptr _ _ _ _ _ _ _ _ Hp1).
  - intros j Hj. rewrite Huser by lia. rewrite decide_True by lia. f_equal. unfold e1. cbn [ex_k set_ex_k]. rewrite mem_of_set_mem. unfold m1. rewrite rdb_st, decide_True by lia. done.
Qed.

(** What [exec_stack] leaves to do when the image is complete. *)
Definition exec_finish (path : list Z) (pagetable sz oldsz entry sp argc : Z) : M est Z :=
  e ← get;
  in_k (setf 8 (ex_trapframe e) tf_a1 sp);;
  modify (set_ex_name (take 15 (last_elem path path)));;
  exec_commit kend pagetable sz oldsz entry sp argc.

Lemma wpx_exec_stack root sz path args zs oldsz entry e0 e (Q : Z -> est -> Prop) : root <> 0 -> loading root sz (ex_k e) -> others e0 e -> Forall arg_ok args -> (length args < 32)%nat ->
  (forall e', undone e0 e' -> Q (-1) e') ->
  (forall sz1 sp l Tr us e', others e0 e' -> building root sz1 (ex_k e') l Tr us -> 0 <= sp < sz1 -> args_at (ex_k e') us args sp ->
     wpx (exec_finish path root sz1 oldsz entry sp (Z.of_nat (length args))) Q e') ->
  wpx (exec_stack kend ustack kfree path (args ++ 0 :: zs) root sz oldsz entry) Q e.
Proof.
  intros Hr (l & Tr & us & Hb & Hub) Ho Hargs Hlen Qbad Qok.
  assert (forall sz1 l1 Tr1 us1 e1, others e0 e1 -> building root sz1 (ex_k e1) l1 Tr1 us1 -> wpx (exec_bad kend root sz1 0) Q e1) as Hbad.
  { intros sz1 l1 Tr1 us1 e1 H1 H2. eapply wpe_mono; [by eapply wpx_bad|]. intros r e' [-> [H3 H4]]. apply Qbad. split; [by eapply others_trans|done]. }
  assert (npages sz < 2 ^ 20) as Hfew by (by eapply build_few). pose proof (b_sz _ _ _ _ _ _ _ _ _ _ _ _ Hb) as Hsz. apply loading_round in Hb.
  unfold exec_stack. cbv zeta. assert (0 <= npages sz) as Hn0 by (unfold npages; zdiv). rewrite PGROUNDUP_npages by (unfold npages in Hfew; zdiv). set (n := npages sz) in *.
  assert (npages (n * PGSIZE) = n) as En by (unfold npages, PGSIZE; zdiv). change ((USERSTACK + 1) * PGSIZE) with (2 * PGSIZE). replace (n * PGSIZE + 2 * PGSIZE) with ((n + 2) * PGSIZE) by lia.
  rewrite u64_small by (unfold PGSIZE; lia). assert (npages ((n + 2) * PGSIZE) = n + 2) as En2 by (unfold npages, PGSIZE; zdiv).
  pose proof Hb as [[Hu Htop] Hroot Hfill Hsz' Hlim Hpages Hsame]. apply wpe_bind, wpx_k. rewrite <- Hroot.
  apply (wp_uvmalloc_any kend (ex_k e) l Tr us held); [exact Hu|done|done|done|unfold PGSIZE; lia|done|unfold PGSIZE; lia| |].
  { intros _ s' l' Tr' U1 U2 U3. cbn [Z.eqb]. rewrite Hroot. eapply Hbad; [exact Ho|]. by eapply build_restored. }
  intros _ Hnl s' l' Tr' us' G. edestruct build_grown as (B1 & _ & Hnew); [exact Hb| |exact Hnl|exact G|]; [unfold PGSIZE; lia|].
  rewrite En, En2 in Hnew. rewrite Hroot. replace ((n + 2) * PGSIZE =? 0) with false by (unfold PGSIZE; lia).
  rewrite !u64_small by (unfold USERSTACK, PGSIZE; lia). replace ((n + 2) * PGSIZE - 2 * PGSIZE) with (n * PGSIZE) by lia. change (USERSTACK * PGSIZE) with PGSIZE.
  destruct (Hnew n) as (pg & Hpg & Lg); [lia|]. destruct (Hnew (n + 1)) as (ps & Hps & Ls); [lia|]. pose proof B1 as [[Hu1 _] Hroot1 _ _ _ _ _].
  apply wpe_bind, wpx_k. rewrite <- Hroot1. eapply wp_uvmclear; [apply Hu1|lia|by apply (us_map _ _ _ _ _ _ _ Hu1 _ _ Hpg)|]. intros s2 ent C1 C2 C3 C4 C5. cbn [ex_k set_ex_k] in C2, C3, C4, C5.
  assert (building root ((n + 2) * PGSIZE) s2 l' Tr' us') as B2. { eapply build_clear; [exact B1|rewrite En2; split; [|]; [|apply Z.lt_add_pos_r]; [exact Hn0|lia]|done|done|exact C3|exact C4|exact C5]. }
  assert (stack_page s2 Tr' ((n + 2) * PGSIZE)) as Hsp.
  { exists (n + 2). split_and!; [done|lia|..]; replace (n + 2 - 1) with (n + 1) by lia; rewrite C5, decide_False, Ls by lia;
      (edestruct build_page_range as (R1 & R2 & R3); [exact B1|by eapply elem_upages|]); unfold PGSIZE in R2.
    - apply leaf_user; [done|lia].
    - unfold pte_of. rewrite !Z.land_lor_distr_l. intros E. apply Z.lor_eq_0_iff in E as [E _]. apply Z.lor_eq_0_iff in E as [_ E]. discriminate E. }
  rewrite Hroot1. apply wpe_bind. eapply wpe_mono; [apply (wpx_push_args kend trampoline ustack tf m0 l0 held Hus0 Hus kfree root ((n + 2) * PGSIZE) l' Tr' us' args zs); [exact B2|exact Hsp|unfold PGSIZE; lia|exact Hargs|done]|].
  intros [[ok argc] sp] e2 (O2 & B3 & Hsp3 & Hok). assert (others e0 e2) as O2' by (eapply others_trans; [exact Ho|exact O2]). destruct ok; cbn [negb]; [|by eapply Hbad].
  destruct (Hok eq_refl) as (Eargc & Hspr & addrs & Hla & Hpu). cbn [fst snd] in Eargc, Hspr, Hpu. subst argc.
  apply (wpx_pointers root ((n + 2) * PGSIZE) l' Tr' us' args addrs sp e2 (exec_bad kend root ((n + 2) * PGSIZE) 0)
    (fun sp' => exec_finish path root ((n + 2) * PGSIZE) oldsz entry sp' (Z.of_nat (length args)))); [exact B3|exact Hsp3|unfold PGSIZE; lia|exact Hspr|done|exact Hpu| |].
  - intros e3 O3 B4. eapply Hbad; [by eapply others_trans|exact B4].
  - intros sp' e3 O3 B4 Hsp4 Hargs'. eapply Qok; [by eapply others_trans|exact B4|done|done].
Qed.

(** ** The commit *)

(** A store into the trapframe. *)
Lemma tf_store s l hs off v : pages_inv kend s l hs -> tf ∈ hs -> 0 <= off <= 4088 ->
  let m' := st 8 (mem_of s) (tf + off) v in pages_inv kend (set_mem m' s) l hs /\ (forall ps, ps ⊆ l ++ hs -> tf ∉ ps -> same_on ps (mem_of s) m').
Proof.
  intros Hp Hin Ho m'. assert (forall ps, ps ⊆ l ++ hs -> tf ∉ ps -> same_on ps (mem_of s) m') as Hs.
  { intros ps Hps Hn. eapply (same_on_page kend s l hs tf); [exact Hp|exact Hin|exact Hps|exact Hn|]. unfold m'.
    eapply modifies_weaken; [apply (modifies_st 8)|]. unfold bytes_of, PGSIZE. lia. }
  split; [|exact Hs]. apply pages_inv_set_mem; [exact Hp|]. apply Hs; [intros x Hx; rewrite elem_of_app; auto|]. intros H. destruct Hp as [_ Hnd _]. apply list.NoDup_app in Hnd as (_ & Hd & _). exact (Hd tf H Hin).
Qed.

Lemma tf_stores s l hs v1 v2 v3 (Q : unit -> kst -> Prop) : pages_inv kend s l hs -> tf ∈ hs -> 0 < tf -> 0 <= v1 < 2 ^ 64 -> 0 <= v3 < 2 ^ 64 ->
  (forall s', pages_inv kend s' l hs -> (forall ps, ps ⊆ l ++ hs -> tf ∉ ps -> same_on ps (mem_of s) (mem_of s')) -> ld64 (mem_of s') (tf + tf_a1) = v1 -> ld64 (mem_of s') (tf + tf_sp) = v3 -> Q tt s') ->
  wp (setf 8 tf tf_a1 v1) (fun _ => wp (setf 8 tf tf_epc v2) (fun _ => wp (setf 8 tf tf_sp v3) Q)) s.
Proof.
  intros Hp Hin H0 H1 H3 HQ. unfold tf_a1, tf_epc, tf_sp in *. apply wp_setf; [lia|]. destruct (tf_store s l hs 120 v1 Hp Hin) as [P1 S1]; [lia|]. set (s1 := set_mem _ s) in *.
  apply wp_setf; [lia|]. destruct (tf_store s1 l hs 24 v2 P1 Hin) as [P2 S2]; [lia|]. set (s2 := set_mem _ s1) in *.
  apply wp_setf; [lia|]. destruct (tf_store s2 l hs 48 v3 P2 Hin) as [P3 S3]; [lia|]. apply HQ; [exact P3| | |].
  - intros ps Hps Hn. rewrite mem_of_set_mem. eapply same_on_trans; [apply (S1 ps Hps Hn)|]. eapply same_on_trans; [|apply (S3 ps Hps Hn)].
    unfold s2. rewrite mem_of_set_mem. eapply same_on_trans; [|apply (S2 ps Hps Hn)]. unfold s1. rewrite mem_of_set_mem. apply same_on_refl.
  - rewrite mem_of_set_mem. change (st 8 ?m ?a ?v) with (st64 m a v). rewrite ld64_st64_ne by lia. unfold s2. rewrite mem_of_set_mem. change (st 8 ?m ?a ?v) with (st64 m a v). rewrite ld64_st64_ne by lia.
    unfold s1. rewrite mem_of_set_mem. by apply ld64_st64.
  - rewrite mem_of_set_mem. by apply ld64_st64.
Qed.

End Run.

(** The address space of the calling process, with the pages of others. *)
Record process (e : est) (l : list Z) (Tr : ptree) (us : gmap Z Z) (rest : list Z) : Prop := {
  pr_space : pspace (ex_trapframe e) (ex_k e) l Tr us (ex_trapframe e :: rest);
  pr_root : pt_root Tr = ex_pagetable e;
  pr_sz : 0 <= ex_sz e;
  pr_lim : npages (ex_sz e) <= ulim;
  pr_in : forall v pa, us !! v = Some pa -> v < npages (ex_sz e)
}.

(** [e'] runs the new program. *)
Definition replaced (e e' : est) (l : list Z) (Tr : ptree) (us : gmap Z Z) (rest args : list Z) : Prop := exists l' Tr' us' sp,
  process e' l' Tr' us' rest /\ filled us' (npages (ex_sz e')) /\ ex_trapframe e' = ex_trapframe e /\
  l' ++ tables Tr' ++ upages us' ≡ₚ l ++ tables Tr ++ upages us /\ same_on rest (mem_of (ex_k e)) (mem_of (ex_k e')) /\
  0 <= sp < ex_sz e' /\ ld64 (mem_of (ex_k e')) (ex_trapframe e + tf_sp) = sp /\ ld64 (mem_of (ex_k e')) (ex_trapframe e + tf_a1) = sp /\
  args_at (mem_of (ex_k e)) (ex_k e') us' args sp.

Lemma wpx_finish path root sz entry sp args e l Tr us rest e1 l1 Tr1 us1 :
  process e l Tr us rest -> root <> 0 ->
  building kend trampoline (ex_trapframe e) (mem_of (ex_k e)) l (tables Tr ++ upages us ++ ex_trapframe e :: rest) root sz (ex_k e1) l1 Tr1 us1 ->
  others e e1 -> 0 <= sp < sz -> args_at (mem_of (ex_k e)) (ex_k e1) us1 args sp ->
  wpx (exec_finish path root sz (ex_sz e) entry sp (Z.of_nat (length args))) (fun r e' => r = Z.of_nat (length args) /\ replaced e e' l Tr us rest args) e1.
Proof.
  intros [Hps Hroot0 Hsz0 Hlim0 Hin0] Hr Hb (O1 & O2 & O3 & O4) Hsp Hargs. set (tf := ex_trapframe e) in *. set (held := tables Tr ++ upages us ++ tf :: rest) in *.
  pose proof Hb as [Hps1 Hroot Hfill Hsz Hlim Hpages Hsame]. assert (tf ∈ held) as Htf by (unfold held; rewrite !elem_of_app, elem_of_cons; auto).
  destruct (held_tf tf held Htf _ _ _ _ Hps1) as (F1 & F2 & F3). assert (npages sz < 2 ^ 20) as Hfew by (by eapply build_few).
  pose proof (sp_pages _ _ _ _ _ (us_space _ _ _ _ _ _ _ (ps_us _ _ _ _ _ _ _ _ Hps1))) as Hpi. assert (sz < 2 ^ 64) as H64 by (unfold npages in Hfew; zdiv).
  pose proof Hpi as [_ Hnd _]. apply list.NoDup_app in Hnd as (_ & _ & Hnd). apply list.NoDup_app in Hnd as (_ & N1 & Hnd). apply list.NoDup_app in Hnd as (_ & N2 & Hnd).
  assert (tf ∉ tables Tr1) as X1 by (intros H; apply (N1 tf H); rewrite elem_of_app; auto). assert (tf ∉ upages us1) as X2 by (intros H; exact (N2 tf H Htf)).
  unfold held in Hnd. apply list.NoDup_app in Hnd as (_ & N3 & Hnd). apply list.NoDup_app in Hnd as (_ & N4 & Hnd). apply list.NoDup_cons in Hnd as [X5 _].
  assert (tf ∉ tables Tr) as X3 by (intros H; apply (N3 tf H); rewrite elem_of_app, elem_of_cons; auto). assert (tf ∉ upages us) as X4 by (intros H; apply (N4 tf H); rewrite elem_of_cons; auto).
  unfold exec_finish, exec_commit. apply wpe_bind. unfold wpe at 1, get. rewrite O3.
  pose proof (fun Q => tf_stores tf (ex_k e1) l1 (tables Tr1 ++ upages us1 ++ held) sp entry sp Q Hpi) as Hst.
  apply wpe_bind, wpx_k. eapply wp_mono; [apply (Hst (fun _ s3 => pages_inv kend s3 l1 (tables Tr1 ++ upages us1 ++ held) /\ (forall ps, ps ⊆ l1 ++ tables Tr1 ++ upages us1 ++ held -> tf ∉ ps -> same_on ps (mem_of (ex_k e1)) (mem_of s3)) /\
    ld64 (mem_of s3) (tf + tf_a1) = sp /\ ld64 (mem_of s3) (tf + tf_sp) = sp)); [rewrite !elem_of_app; auto|lia|lia|lia|by auto]|].
  intros [] k1 W1. apply wpe_bind. unfold modify at 1, wpe at 1. apply wpe_bind. unfold wpe at 1, get. apply wpe_bind. unfold modify at 1, wpe at 1. cbn [ex_trapframe set_ex_k set_ex_name set_ex_image ex_pagetable]. rewrite O3, O1.
  apply wpe_bind, wpx_k. cbn [ex_k set_ex_k set_ex_name set_ex_image]. eapply wp_mono; [exact W1|]. intros [] k2 W2.
  apply wpe_bind, wpx_k. cbn [ex_k set_ex_k set_ex_name set_ex_image]. eapply wp_mono; [exact W2|]. intros [] s3 (P3 & S3 & La & Ls).
  apply wpe_bind, wpx_k. cbn [ex_k set_ex_k set_ex_name set_ex_image]. rewrite <- Hroot0.
  assert (pspace tf s3 l1 Tr us (tables Tr1 ++ upages us1 ++ tf :: rest)) as Hold.
  { eapply pspace_move; [exact Hps| |].
    - eapply pages_inv_perm; [|exact P3]. apply perm_swap2.
    - eapply same_on_trans; [eapply same_on_subset; [exact Hsame|intros x Hx; unfold held; rewrite elem_of_app; auto]|]. apply S3; [|done]. intros x Hx. unfold held. rewrite !elem_of_app. auto. }
  assert (pspace tf s3 l1 Tr1 us1 held) as Hnew.
  { eapply pspace_move; [exact Hps1|exact P3|]. apply S3; [|done]. intros x Hx. rewrite !elem_of_app. auto. }
  eapply (wp_proc_freepagetable kend trampoline Ht1 Ht2 Ht3 tf s3 l1 Tr us); [exact Hold|done|lia|unfold PGSIZE in *; lia|done|done|done|].
  intros s4 l4 P4 Hl4 S4. apply wpe_ret. split; [done|]. exists l4, Tr1, us1, sp.
  assert (pspace tf s4 l4 Tr1 us1 (tf :: rest)) as Hfin.
  { eapply pspace_move; [exact Hnew|exact P4|]. eapply same_on_subset; [exact S4|]. intros x Hx. rewrite !elem_of_app. auto. }
  cbn [ex_k set_ex_k set_ex_name set_ex_image ex_sz ex_trapframe]. rewrite O3. fold tf.
  split_and!; [|exact Hfill|done| | |lia|lia| | |].
  - split; cbn [ex_k set_ex_k set_ex_name set_ex_image ex_sz ex_trapframe ex_pagetable]; [rewrite O3; exact Hfin|exact Hroot|lia|exact Hlim|]. intros v pa Hv. apply Hfill. by rewrite Hv.
  - rewrite Hl4, <- Hpages, <- !app_assoc. apply Permutation_app_head. pose proof (perm_swap2 (tables Tr) (upages us) (tables Tr1) (upages us1) []) as E. by rewrite !app_nil_r in E.
  - eapply same_on_trans; [eapply same_on_subset; [exact Hsame|intros x Hx; unfold held; rewrite !elem_of_app, elem_of_cons; auto]|].
    eapply same_on_trans; [apply (S3 rest); [intros x Hx; unfold held; rewrite !elem_of_app, elem_of_cons; auto 7|done]|]. eapply same_on_subset; [exact S4|]. intros x Hx. rewrite !elem_of_app, elem_of_cons. auto.
  - rewrite <- Ls. apply (ld_ext 8). intros x Hx. apply (S4 tf); [rewrite !elem_of_app, elem_of_cons; auto|unfold bytes_of, PGSIZE, tf_sp in *; lia].
  - rewrite <- La. apply (ld_ext 8). intros x Hx. apply (S4 tf); [rewrite !elem_of_app, elem_of_cons; auto|unfold bytes_of, PGSIZE, tf_a1 in *; lia].
  - assert (forall x, user_at s4 us1 x = user_at (ex_k e1) us1 x) as Hua.
    { intros x. unfold user_at, uaddr. destruct (us1 !! (x / 4096)) as [pa|] eqn:E; [|done]. cbn [mbind option_bind]. f_equal. pose proof (elem_upages _ _ _ E) as Hin.
      assert (bytes_of pa PGSIZE (pa + x mod 4096)) by (unfold bytes_of, PGSIZE; zdiv).
      rewrite (S4 pa) by (done || (rewrite !elem_of_app; auto)). apply (S3 (upages us1)) with (p := pa); [intros y Hy; rewrite !elem_of_app; auto|done|done|done]. }
    destruct Hargs as (addrs & A1 & A2 & A3). exists addrs. split_and!; [done| |intros k Hk; rewrite Hua; by apply A3].
    intros i a x Ha Hx. destruct (A2 i a x Ha Hx) as [B1 B2]. split; [intros ln j El Hj; rewrite Hua; by eapply B1|]. intros k Hk. rewrite Hua. by apply B2.
Qed.

(** [e'] is as before the call, apart from the order of the free pages. *)
Definition unchanged (e e' : est) (l : list Z) (Tr : ptree) (us : gmap Z Z) (rest : list Z) : Prop := others e e' /\ exists l',
  process e' l' Tr us rest /\ l' ≡ₚ l /\ same_on (tables Tr ++ upages us ++ ex_trapframe e :: rest) (mem_of (ex_k e)) (mem_of (ex_k e')).

Lemma undone_unchanged e e' l Tr us rest : process e l Tr us rest ->
  undone (mem_of (ex_k e)) l (tables Tr ++ upages us ++ ex_trapframe e :: rest) e e' -> unchanged e e' l Tr us rest.
Proof.
  intros [Hps Hroot Hsz Hlim Hin] [Ho (l' & P1 & P2 & P3)]. split; [done|]. exists l'. split_and!; [|done|done]. destruct Ho as (O1 & O2 & O3 & O4).
  split; rewrite ?O1, ?O2, ?O3; try done. eapply pspace_move; [exact Hps|exact P1|]. eapply same_on_subset; [exact P3|]. intros x Hx. rewrite elem_of_app. auto.
Qed.

(** C3: [kexec] is all or nothing, for any file.  Whatever the file system
    contains and returns, a [kexec] that starts with a well-formed process
    and at most 31 argument strings, each in a page of the kernel, never
    panics, faults or loops of itself: it fails only as a call of namei,
    ilock, readi, iunlockput, begin_op or end_op can fail ([fs_fails]).  When
    it returns -1 the
    process, its page table, its memory and every other page in use are as
    before and every page it took is free again.  Otherwise it returns argc;
    the process has a new, well-formed address space, every page of the old
    one is free and none is lost; its stack pointer and a1 lead to an array
    of argc pointers, ending with 0, to copies of the argument strings; and
    the pages of others are unchanged. *)
Theorem kexec_all_or_nothing e l Tr us rest path args zs :
  process e l Tr us rest -> Forall (arg_ok (mem_of (ex_k e)) rest) args -> (length args < 32)%nat -> 0 < ustack ->
  (forall p x, p ∈ l ++ tables Tr ++ upages us ++ ex_trapframe e :: rest -> ustack <= x < ustack + 8 * (MAXARG + 1) -> ~ bytes_of p PGSIZE x) ->
  wpx (kexec kend trampoline ustack kfree path (args ++ 0 :: zs)) (fun r e' =>
    (r = -1 /\ unchanged e e' l Tr us rest) \/ (r = Z.of_nat (length args) /\ replaced e e' l Tr us rest args)) e.
Proof.
  intros Hpr Hargs Hlen Hus0 Hus. pose proof Hpr as [Hps Hroot Hsz Hlim Hin]. set (held := tables Tr ++ upages us ++ ex_trapframe e :: rest) in *.
  assert (ex_trapframe e ∈ held) as Htf by (unfold held; rewrite !elem_of_app, elem_of_cons; auto).
  pose proof (sp_pages _ _ _ _ _ (us_space _ _ _ _ _ _ _ (ps_us _ _ _ _ _ _ _ _ Hps))) as Hpi. destruct (held_range _ _ _ _ _ Hpi Htf) as (F1 & F2 & F3).
  assert (forall f, undone (mem_of (ex_k e)) l held e (set_ex_fs f e)) as Hun0 by (intros f; split; [done|]; exists l; split_and!; [exact Hpi|done|apply same_on_refl]).
  assert (forall r e', r = -1 /\ undone (mem_of (ex_k e)) l held e e' -> (r = -1 /\ unchanged e e' l Tr us rest) \/ (r = Z.of_nat (length args) /\ replaced e e' l Tr us rest args)) as Hbad.
  { intros r e' [-> Hu]. left. split; [done|]. by eapply undone_unchanged. }
  unfold kexec. apply wpe_bind, wpx_f; [constructor|]. intros [] t1 _. apply wpe_bind, wpx_f; [constructor|]. intros ip t2 _. destruct (ip =? 0).
  { apply wpe_bind, wpx_f; [constructor|]. intros [] t3 _. apply wpe_ret, Hbad. split; [done|apply Hun0]. }
  apply wpe_bind, wpx_f; [constructor|]. intros [] t3 _. apply wpe_bind, wpx_f; [constructor|]. intros [r bytes] t4 _. cbv zeta.
  destruct (negb (r =? sizeof_elfhdr)); [eapply wpe_mono; [apply wpx_bad0, Hun0|apply Hbad]|]. destruct (negb (eh_magic _ =? ELF_MAGIC)); [eapply wpe_mono; [apply wpx_bad0, Hun0|apply Hbad]|].
  apply wpe_bind. unfold wpe at 1, get. apply wpe_bind, wpx_k. cbn [ex_k set_ex_fs ex_trapframe].
  apply (wp_proc_pagetable kend trampoline Ht1 Ht2 Ht3 (ex_trapframe e) (ex_k e) l held); [exact Hpi|done|lia|unfold PGSIZE in *; lia| |].
  { intros s' l' P1 P2 P3. cbn [Z.eqb]. eapply wpe_mono; [apply wpx_bad0|apply Hbad]. split; [done|]. by exists l'. }
  intros s' l' Tr' Hr Hps' Hp' Hs'. replace (pt_root Tr' =? 0) with false by lia. set (e1 := set_ex_k s' _).
  assert (loading kend trampoline (ex_trapframe e) (mem_of (ex_k e)) l held (pt_root Tr') 0 (ex_k e1)) as HL.
  { exists l', Tr', ∅. split; [|intros v Hv; change (npages 0) with 0 in Hv; lia]. split; [exact Hps'|done|intros v; rewrite lookup_empty; change (npages 0) with 0; split; [intros [? ?]; done|lia]|done|done|by rewrite upages_empty, app_nil_r|done]. }
  apply wpe_bind. eapply wpe_mono; [by apply wpx_load_loop|]. intros [ok sz] e2 [HL2 O2]. cbn [snd] in HL2. assert (others e e2) as O2' by exact O2. destruct ok; cbn [negb].
  2:{ destruct HL2 as (l2 & Tr2 & us2 & Hb2 & _). eapply wpe_mono; [by eapply (wpx_bad (ex_trapframe e) (mem_of (ex_k e)) l held Htf)|]. intros r2 e3 [-> [O3 H3]]. apply Hbad. split; [done|]. split; [by eapply others_trans|done]. }
  apply wpe_bind, wpx_f; [constructor|]. intros [] t5 _. apply wpe_bind, wpx_f; [constructor|]. intros [] t6 _. apply wpe_bind. unfold wpe at 1, gets.
  assert (ex_sz e2 = ex_sz e) as Esz by apply O2'. cbn [ex_sz set_ex_fs]. rewrite Esz.
  eapply (wpx_exec_stack (ex_trapframe e) (mem_of (ex_k e)) l held Hus0 Hus Htf (pt_root Tr') sz path args zs (ex_sz e) _ e); [done|exact HL2|exact O2'| |done| |].
  - eapply Forall_impl; [exact Hargs|]. intros a (A1 & A2 & A3). split_and!; [done| |done]. unfold held. rewrite !elem_of_app, elem_of_cons. auto.
  - intros e3 Hu. apply Hbad. done.
  - intros sz1 sp l3 Tr3 us3 e3 O3 B3 Hsp3 Ha3. eapply wpe_mono; [by eapply wpx_finish|]. auto.
Qed.

End Exec.
