(* ===== verification/ExecDemo.v ===== *)
(** * A process for [kexec]

    Six free pages, a trapframe and a page with the argument string "ls":
    [proc_pagetable] builds the address space of a process there, on which
    [kexec] is called. *)

From Stdlib Require Import ZArith Lia Bool String.
From stdpp Require Import base gmap list strings fin_maps.
From S2P Require Import Proc.
From S2P Require Import Prelude Mem MemList Spinlock Kalloc Vm VmProof VmUser VmThms VmCopy.
From S2P Require Import Sleeplock ObjCache Bio BioProof BioThms Log LogSpec LogProof LogThms BlockStore LogStore Fs FsBytes FsAlloc FsFile FsRw FsThms FsCrash FsDemo.
From S2P Require Import Exec ExecSpace ExecProof ExecStack ExecThms.

#[local] Opaque tables.

Definition page (i : Z) : Z := KERNBASE + i * 4096.
Definition demo_tf : Z := page 0.
Definition demo_arg : Z := page 1.
Definition demo_tramp : Z := KERNBASE - 4096.
Definition demo_pages : list Z := page <$> [2; 3; 4; 5; 6; 7].

(** The free list threaded through [ps]. *)
Fixpoint links (m : mem) (ps : list Z) : mem :=
  match ps with
  | [] => m
  | p :: ps => st64 (links m ps) p (hd 0 ps)
  end.

Definition demo_k0 : kst :=
  mkKst (mkMach (mkHart 1 0 false true) (links (put_bytes ∅ demo_arg [108; 115; 0]) demo_pages)) (mkLock EmptyString 0 0) (page 2).

Lemma demo_page_ok i : 0 <= i < 32768 -> page_ok KERNBASE (page i).
Proof. intros Hi. unfold page_ok, page, PHYSTOP, KERNBASE, PGSIZE. split; [exists (524288 + i)|]; lia. Qed.

Lemma links_sll m ps : (forall p, p ∈ ps -> 0 < p < 2 ^ 64) -> (forall i j p q, ps !! i = Some p -> ps !! j = Some q -> i <> j -> p + 8 <= q \/ q + 8 <= p) -> sll (links m ps) (hd 0 ps) ps.
Proof.
  induction ps as [|p ps IH]; intros Hr Hd; [done|]. cbn [links hd]. apply sll_push.
  - apply IH; [intros q Hq; apply Hr; by right|]. intros i j q1 q2 H1 H2 Hne. apply (Hd (S i) (S j)); [done|done|lia].
  - apply Hr. left.
  - intros y [i Hi]%list_elem_of_lookup. destruct (Hd 0%nat (S i) p y) as [|]; [done|done|done|lia|lia].
Qed.

Lemma demo_pool_inv : pages_inv KERNBASE demo_k0 demo_pages [demo_tf; demo_arg].
Proof.
  split.
  - split; [reflexivity| |apply (bool_decide_eq_true _); reflexivity| |reflexivity|repeat split; done].
    + change (sll (links (put_bytes ∅ demo_arg [108; 115; 0]) demo_pages) (hd 0 demo_pages) demo_pages). apply links_sll.
      * intros p (i & -> & Hi)%list_elem_of_fmap. assert (0 <= i < 8) by (repeat (apply elem_of_cons in Hi as [->|Hi]; [lia|]); by apply elem_of_nil in Hi). unfold page, KERNBASE. lia.
      * intros i j p q Hi Hj Hne. unfold demo_pages in *. rewrite list_lookup_fmap in *. destruct ([2; 3; 4; 5; 6; 7] !! i) as [a|] eqn:Ea; [|done]. destruct ([2; 3; 4; 5; 6; 7] !! j) as [b|] eqn:Eb; [|done].
        injection Hi as <-. injection Hj as <-. assert (a <> b). { intros ->. apply Hne. eapply NoDup_lookup; [|exact Ea|exact Eb]. apply (bool_decide_eq_true _). reflexivity. } unfold page. lia.
    + intros p (i & -> & Hi)%list_elem_of_fmap. apply demo_page_ok. repeat (apply elem_of_cons in Hi as [->|Hi]; [lia|]). by apply elem_of_nil in Hi.
  - apply (bool_decide_eq_true _). reflexivity.
  - intros p Hp. apply elem_of_cons in Hp as [->|Hp]; [apply demo_page_ok; lia|]. apply list_elem_of_singleton in Hp as ->. apply demo_page_ok. lia.
Qed.

Definition out_state {X} (d : kst) (o : outcome (X * kst)) : kst := match o with Ret (_, s) => s | _ => d end.
Definition out_value {X} (d : X) (o : outcome (X * kst)) : X := match o with Ret (r, _) => r | _ => d end.

Lemma wp_out {X} (c : M kst X) (Q : X -> kst -> Prop) s d : wp c Q s -> Q (out_value d (c s)) (out_state s (c s)).
Proof. unfold wp. by destruct (c s) as [[a s']| | | |]. Qed.

Definition demo_k1 : kst := out_state demo_k0 (proc_pagetable KERNBASE demo_tramp demo_tf demo_k0).
Definition demo_root : Z := out_value 0 (proc_pagetable KERNBASE demo_tramp demo_tf demo_k0).
Definition demo_ex : ex_st (log_st pool) := mkEx demo_k1 demo_fs demo_root 0 demo_tf [].

Definition demo_post (r : Z) (s : kst) : Prop := r <> 0 -> exists l Tr, r = pt_root Tr /\ pspace KERNBASE demo_tramp demo_tf s l Tr ∅ [demo_tf; demo_arg] /\
  l ++ tables Tr ≡ₚ demo_pages /\ same_on [demo_tf; demo_arg] (mem_of demo_k0) (mem_of s).

Lemma demo_wp : wp (proc_pagetable KERNBASE demo_tramp demo_tf) demo_post demo_k0.
Proof.
  refine (wp_proc_pagetable KERNBASE demo_tramp _ _ _ demo_tf demo_k0 demo_pages [demo_tf; demo_arg] _ demo_pool_inv _ _ _ _ _);
    [by exists 524287|unfold demo_tramp, KERNBASE; lia|unfold demo_tramp, KERNBASE, PGSIZE; lia|by exists 524288|unfold demo_tf, page, KERNBASE; lia|unfold demo_tf, page, KERNBASE, PGSIZE; lia| |].
  - by intros s' l' _ _ _ H.
  - intros s' l' Tr Hr Hps Hp Hs _. by exists l', Tr.
Qed.

Lemma demo_root_ne : demo_root <> 0.
Proof. vm_compute. discriminate. Qed.

#[local] Opaque proc_pagetable.

Lemma demo_process : exists l Tr, process KERNBASE demo_tramp demo_ex l Tr ∅ [demo_arg] /\ l ++ tables Tr ≡ₚ demo_pages /\ same_on [demo_tf; demo_arg] (mem_of demo_k0) (mem_of demo_k1).
Proof.
  destruct (wp_out _ _ _ 0 demo_wp demo_root_ne) as (l & Tr & Er & H1 & H2 & H3). fold demo_root in Er. fold demo_k1 in H1, H3. exists l, Tr. split; [|split; [exact H2|exact H3]].
  split; [exact H1|symmetry; exact Er|cbn; lia|vm_compute; discriminate|intros v pa Hv; by rewrite lookup_empty in Hv].
Qed.

Lemma kexec_all_or_nothing_witness : exists l Tr,
  wpe (fs_fails (T := log_st pool)) (kexec KERNBASE demo_tramp 1000 (fun _ => mret tt) [108; 115] ([demo_arg] ++ 0 :: [])) (fun r e' =>
    (r = -1 /\ unchanged KERNBASE demo_tramp demo_ex e' l Tr ∅ [demo_arg]) \/ (r = 1 /\ replaced KERNBASE demo_tramp demo_ex e' l Tr ∅ [demo_arg] [demo_arg])) demo_ex.
Proof.
  destruct demo_process as (l & Tr & Hpr & Hpages & Hsame). exists l, Tr.
  refine (kexec_all_or_nothing KERNBASE demo_tramp 1000 (fun _ => mret tt) _ _ _ demo_ex l Tr ∅ [demo_arg] [108; 115] [demo_arg] [] Hpr _ _ _ _).
  - by exists 524287.
  - unfold demo_tramp, KERNBASE. lia.
  - unfold demo_tramp, KERNBASE, PGSIZE. lia.
  - constructor; [|constructor]. split_and!; [unfold demo_arg, page, KERNBASE; lia|left|]. exists 2. vm_compute. reflexivity.
  - cbn. lia.
  - lia.
  - intros p x Hp Hx. assert (KERNBASE <= p) as Hk; [|unfold bytes_of, KERNBASE, MAXARG in *; lia].
    rewrite upages_empty in Hp. cbn [app] in Hp. rewrite app_assoc, elem_of_app in Hp. destruct Hp as [Hp|Hp].
    + rewrite Hpages in Hp. apply list_elem_of_fmap in Hp as (i & -> & Hi). assert (0 <= i) by (repeat (apply elem_of_cons in Hi as [->|Hi]; [lia|]); by apply elem_of_nil in Hi). unfold page. lia.
    + cbn in Hp. repeat (apply elem_of_cons in Hp as [->|Hp]; [unfold demo_tf, demo_arg, page; lia|]). by apply elem_of_nil in Hp.
Defined.
