(* ===== verification/Printf.v ===== *)
(** * Formatted output (kernel/printf.c, user/printf.c)

    The kernel's [printf] and the C library's [vprintf] are two different
    loops over the same conversions.  [render] is what a format means: a
    literal text, or the text of the next argument.  Both loops print it,
    the kernel with lower-case and the library with upper-case hexadecimal
    digits, and the 20-byte buffer of [printint] never overflows. *)

From Stdlib Require Import ZArith Lia Bool String.
From stdpp Require Import base gmap list strings.
From S2P Require Import Prelude Mem Spinlock Ulib.

Definition lower : list Z := seqZ 48 10 ++ seqZ 97 6.
Definition upper : list Z := seqZ 48 10 ++ seqZ 65 6.

(** An argument: a 64-bit word, or a [char *] that is null or points to a C
    string. *)
Inductive va := VWord (w : Z) | VStr (s : option (list Z)).

(** ** Printing a number *)

Section Number.
Context {T : Type} (putc : Z -> M T unit) (digits : list Z).

(** [do { buf[i++] = digits[x % base]; } while((x /= base) != 0);] *)
Fixpoint print_digits (fuel : nat) (base x : Z) (buf : list Z) (i : Z) : M T (list Z * Z) :=
  match fuel with
  | O => out_of_fuel
  | S f =>
      d ← arr_get digits (x mod base);
      b ← of_arr (arr_set buf i d);
      if x / base =? 0 then mret (b, i + 1) else print_digits f base (x / base) b (i + 1)
  end.

(** [while(--i >= 0) consputc(buf[i]);] *)
Fixpoint put_back (i : nat) (buf : list Z) : M T unit :=
  match i with
  | O => mret tt
  | S i => c ← arr_get buf (Z.of_nat i); putc c;; put_back i buf
  end.

(** [-xx] overflows for the smallest [long long]. *)
Definition printint (xx base : Z) (sign : bool) : M T unit :=
  let neg := sign && (xx <? 0) in
  x ← (if neg then if xx =? - 2 ^ 63 then fault "overflow" else mret (- xx) else mret (u64 xx));
  bi ← print_digits 64 base x (replicate 20 0) 0;
  bi ← (if neg then b ← of_arr (arr_set (fst bi) (snd bi) 45); mret (b, snd bi + 1) else mret bi);
  put_back (Z.to_nat (snd bi)) (fst bi).

(** [for (i = 0; i < 16; i++, x <<= 4) consputc(digits[x >> 60]);] *)
Fixpoint ptr_loop (n : nat) (x : Z) : M T unit :=
  match n with
  | O => mret tt
  | S n => d ← arr_get digits (Z.shiftr x 60); putc d;; ptr_loop n (u64 (Z.shiftl x 4))
  end.

Definition printptr (x : Z) : M T unit := putc 48;; putc 120;; ptr_loop 16 x.

(** [for(; *s; s++) consputc( *s);] *)
Fixpoint put_str (s : list Z) : M T unit :=
  match s with
  | [] => mret tt
  | c :: s => putc c;; put_str s
  end.

End Number.

Definition null_text : list Z := [40; 110; 117; 108; 108; 41].

(** [va_arg]; an argument of another type is undefined. *)
Definition va_word {T} (ap : list va) : M T (Z * list va) :=
  match ap with VWord w :: ap => mret (w, ap) | _ => fault "va_arg" end.
Definition va_str {T} (ap : list va) : M T (list Z * list va) :=
  match ap with VStr s :: ap => mret (default null_text s, ap) | _ => fault "va_arg" end.

(** ** The kernel's printf *)

Record prst := mkPrst { pr_mach : mach; pr_lock : spinlock; panicking : Z; pr_out : list Z }.

#[export] Instance prst_HasMach : HasMach prst.
Proof.
  refine {| mach_of := pr_mach; set_mach := fun m s => mkPrst m (pr_lock s) (panicking s) (pr_out s) |};
    [done| |done]. by intros [].
Defined.

Definition set_pr_lock l s := mkPrst (pr_mach s) l (panicking s) (pr_out s).
Definition emit (l : list Z) (s : prst) : prst := mkPrst (pr_mach s) (pr_lock s) (panicking s) (pr_out s ++ l).

(** [consputc] of console.c; the uart takes a byte. *)
Definition consputc (c : Z) : M prst unit := modify (emit (if c =? 256 then [8; 32; 8] else [u8 c])).

(** What the [if] chain of [printf] decides on: which conversion, and how
    many more characters it takes. *)
Inductive conv := CvInt (long : bool) | CvUint (long : bool) | CvHex (long : bool) | CvPtr | CvChar | CvStr | CvPct | CvEnd | CvUnknown.

Definition conversion (c0 c1 c2 : Z) : conv * Z :=
  if c0 =? 100 then (CvInt false, 0)
  else if (c0 =? 108) && (c1 =? 100) then (CvInt true, 1)
  else if (c0 =? 108) && (c1 =? 108) && (c2 =? 100) then (CvInt true, 2)
  else if c0 =? 117 then (CvUint false, 0)
  else if (c0 =? 108) && (c1 =? 117) then (CvUint true, 1)
  else if (c0 =? 108) && (c1 =? 108) && (c2 =? 117) then (CvUint true, 2)
  else if c0 =? 120 then (CvHex false, 0)
  else if (c0 =? 108) && (c1 =? 120) then (CvHex true, 1)
  else if (c0 =? 108) && (c1 =? 108) && (c2 =? 120) then (CvHex true, 2)
  else if c0 =? 112 then (CvPtr, 0)
  else if c0 =? 99 then (CvChar, 0)
  else if c0 =? 115 then (CvStr, 0)
  else if c0 =? 37 then (CvPct, 0)
  else if c0 =? 0 then (CvEnd, 0)
  else (CvUnknown, 0).

Definition print_conv (cv : conv) (c0 : Z) (ap : list va) : M prst (list va) :=
  let int x base sign := printint consputc lower x base sign in
  match cv with
  | CvInt false => '(w, ap) ← va_word ap; int (s32 w) 10 true;; mret ap
  | CvInt true => '(w, ap) ← va_word ap; int (s64 w) 10 true;; mret ap
  | CvUint false => '(w, ap) ← va_word ap; int (u32 w) 10 false;; mret ap
  | CvUint true => '(w, ap) ← va_word ap; int (s64 w) 10 false;; mret ap
  | CvHex false => '(w, ap) ← va_word ap; int (u32 w) 16 false;; mret ap
  | CvHex true => '(w, ap) ← va_word ap; int (s64 w) 16 false;; mret ap
  | CvPtr => '(w, ap) ← va_word ap; printptr consputc lower (u64 w);; mret ap
  | CvChar => '(w, ap) ← va_word ap; consputc (u32 w);; mret ap
  | CvStr => '(s, ap) ← va_str ap; put_str consputc s;; mret ap
  | CvPct => consputc 37;; mret ap
  | CvEnd => mret ap
  | CvUnknown => consputc 37;; consputc c0;; mret ap
  end.

(** [fmt[i]] of a C string. *)
Definition fmt_at {T} (fmt : list Z) (i : Z) : M T Z := arr_get (fmt ++ [0]) i.

Fixpoint printf_loop (fuel : nat) (fmt : list Z) (i : Z) (ap : list va) : M prst unit :=
  match fuel with
  | O => out_of_fuel
  | S f =>
      cx ← fmt_at fmt i;
      if cx =? 0 then mret tt
      else if negb (cx =? 37) then consputc cx;; printf_loop f fmt (i + 1) ap
      else
        let i := i + 1 in
        c0 ← fmt_at fmt i;
        c1 ← (if negb (c0 =? 0) then fmt_at fmt (i + 1) else mret 0);
        c2 ← (if negb (c1 =? 0) then fmt_at fmt (i + 2) else mret 0);
        let '(cv, n) := conversion c0 c1 c2 in
        match cv with
        | CvEnd => mret tt
        | _ => ap ← print_conv cv c0 ap; printf_loop f fmt (i + n + 1) ap
        end
  end.

Definition printf (fmt : list Z) (ap : list va) : M prst Z :=
  p ← gets panicking;
  (if p =? 0 then acquire_in pr_lock set_pr_lock else mret tt);;
  printf_loop (S (length fmt)) fmt 0 ap;;
  (if p =? 0 then release_in pr_lock set_pr_lock else mret tt);;
  mret 0.

(** ** The C library's vprintf *)

(** The bytes handed to [write(fd, &c, 1)]. *)
Definition putc (c : Z) : M (list Z) unit := modify (fun out => out ++ [u8 c]).

Definition uconversion (c0 c1 c2 : Z) : conv * Z :=
  if c0 =? 100 then (CvInt false, 0)
  else if (c0 =? 108) && (c1 =? 100) then (CvInt true, 1)
  else if (c0 =? 108) && (c1 =? 108) && (c2 =? 100) then (CvInt true, 2)
  else if c0 =? 117 then (CvUint false, 0)
  else if (c0 =? 108) && (c1 =? 117) then (CvUint true, 1)
  else if (c0 =? 108) && (c1 =? 108) && (c2 =? 117) then (CvUint true, 2)
  else if c0 =? 120 then (CvHex false, 0)
  else if (c0 =? 108) && (c1 =? 120) then (CvHex true, 1)
  else if (c0 =? 108) && (c1 =? 108) && (c2 =? 120) then (CvHex true, 2)
  else if c0 =? 112 then (CvPtr, 0)
  else if c0 =? 99 then (CvChar, 0)
  else if c0 =? 115 then (CvStr, 0)
  else if c0 =? 37 then (CvPct, 0)
  else (CvUnknown, 0).

Definition vprint_conv (cv : conv) (c0 : Z) (ap : list va) : M (list Z) (list va) :=
  let int x base sign := printint putc upper x base sign in
  match cv with
  | CvInt false => '(w, ap) ← va_word ap; int (s32 w) 10 true;; mret ap
  | CvInt true => '(w, ap) ← va_word ap; int (s64 w) 10 true;; mret ap
  | CvUint false => '(w, ap) ← va_word ap; int (u32 w) 10 false;; mret ap
  | CvUint true => '(w, ap) ← va_word ap; int (s64 w) 10 false;; mret ap
  | CvHex false => '(w, ap) ← va_word ap; int (u32 w) 16 false;; mret ap
  | CvHex true => '(w, ap) ← va_word ap; int (s64 w) 16 false;; mret ap
  | CvPtr => '(w, ap) ← va_word ap; printptr putc upper (u64 w);; mret ap
  | CvChar => '(w, ap) ← va_word ap; putc (u32 w);; mret ap
  | CvStr => '(s, ap) ← va_str ap; put_str putc s;; mret ap
  | CvPct => putc 37;; mret ap
  | CvEnd | CvUnknown => putc 37;; putc c0;; mret ap
  end.

(** [state] is 0 or '%'. *)
Fixpoint vprintf_loop (fuel : nat) (fmt : list Z) (i state : Z) (ap : list va) : M (list Z) unit :=
  match fuel with
  | O => out_of_fuel
  | S f =>
      c ← fmt_at fmt i;
      if c =? 0 then mret tt
      else
        let c0 := Z.land c 255 in
        if state =? 0 then
          if c0 =? 37 then vprintf_loop f fmt (i + 1) 37 ap
          else putc c0;; vprintf_loop f fmt (i + 1) state ap
        else if state =? 37 then
          c1 ← (if negb (c0 =? 0) then fmt_at fmt (i + 1) else mret 0);
          c2 ← (if negb (c1 =? 0) then fmt_at fmt (i + 2) else mret 0);
          let '(cv, n) := uconversion c0 c1 c2 in
          ap ← vprint_conv cv c0 ap;
          vprintf_loop f fmt (i + n + 1) 0 ap
        else vprintf_loop f fmt (i + 1) state ap
  end.

Definition vprintf (fmt : list Z) (ap : list va) : M (list Z) unit := vprintf_loop (S (length fmt)) fmt 0 0 ap.

(** ** What a format means *)

(** The digits of [x], most significant first. *)
Fixpoint to_base (fuel : nat) (base x : Z) : list Z :=
  match fuel with
  | O => []
  | S f => (if x / base =? 0 then [] else to_base f base (x / base)) ++ [x mod base]
  end.

Definition of_base (base : Z) (l : list Z) : Z := fold_left (fun v d => v * base + d) l 0.

Definition digit (digits : list Z) (d : Z) : Z := default 0 (digits !! Z.to_nat d).

(** The numeral of [x >= 0]. *)
Definition numeral (digits : list Z) (base x : Z) : list Z := digit digits <$> to_base 64 base x.

Definition signed (digits : list Z) (x : Z) : list Z :=
  if x <? 0 then 45 :: numeral digits 10 (- x) else numeral digits 10 x.

(** The sixteen digits of a pointer. *)
Definition pointer (digits : list Z) (x : Z) : list Z :=
  [48; 120] ++ ((fun k => digit digits (Z.shiftr x (60 - 4 * k) mod 16)) <$> seqZ 0 16).

(** The text of a conversion, and the arguments left. *)
Definition text (digits : list Z) (cv : conv) (c0 : Z) (ap : list va) : option (list Z * list va) :=
  match cv, ap with
  | CvInt long, VWord w :: ap =>
      let x := if long then s64 w else s32 w in
      if x =? - 2 ^ 63 then None else Some (signed digits x, ap)
  | CvUint long, VWord w :: ap => Some (numeral digits 10 (if long then u64 w else u32 w), ap)
  | CvHex long, VWord w :: ap => Some (numeral digits 16 (if long then u64 w else u32 w), ap)
  | CvPtr, VWord w :: ap => Some (pointer digits (u64 w), ap)
  | CvChar, VWord w :: ap => if u32 w <? 256 then Some ([u32 w], ap) else None
  | CvStr, VStr s :: ap => Some (default null_text s, ap)
  | CvPct, ap => Some ([37], ap)
  | CvUnknown, ap => Some ([37; c0], ap)
  | _, _ => None
  end.

Definition char_at (l : list Z) (k : nat) : Z := default 0 (l !! k).

(** The conversions and how they are written after the percent sign: d, ld,
    lld, u, lu, llu, x, lx, llx, p, c, s and a second percent sign. *)
Definition directives : list (list Z * conv) :=
  [([100], CvInt false); ([108; 100], CvInt true); ([108; 108; 100], CvInt true);
   ([117], CvUint false); ([108; 117], CvUint true); ([108; 108; 117], CvUint true);
   ([120], CvHex false); ([108; 120], CvHex true); ([108; 108; 120], CvHex true);
   ([112], CvPtr); ([99], CvChar); ([115], CvStr); ([37], CvPct)].

Fixpoint starts_with (w l : list Z) : bool :=
  match w, l with
  | [], _ => true
  | a :: w, b :: l => (a =? b) && starts_with w l
  | _, _ => false
  end.

(** The conversion a text starts with and the length of its name; any other
    character is an unknown conversion. *)
Fixpoint directive (ds : list (list Z * conv)) (l : list Z) : conv * nat :=
  match ds with
  | [] => (CvUnknown, 1%nat)
  | (w, cv) :: ds => if starts_with w l then (cv, length w) else directive ds l
  end.

Fixpoint render (fuel : nat) (digits fmt : list Z) (ap : list va) : option (list Z) :=
  match fuel, fmt with
  | O, _ => None
  | S f, [] => Some []
  | S f, c :: rest =>
      if negb (c =? 37) then cons c <$> render f digits rest ap
      else match rest with
      | [] => Some []
      | c0 :: _ =>
          let '(cv, n) := directive directives rest in
          '(t, ap) ← text digits cv c0 ap;
          app t <$> render f digits (drop n rest) ap
      end
  end.

(** ** Numerals *)

Lemma to_base_length f base x k : 2 <= base -> 0 <= x < base ^ Z.of_nat k -> (0 < k)%nat -> (length (to_base f base x) <= k)%nat.
Proof.
  intros Hb. revert x k. induction f as [|f IH]; intros x k Hx Hk; cbn [to_base]; [cbn; lia|].
  rewrite length_app. cbn [length]. destruct (Z.eqb_spec (x / base) 0) as [E|E]; [cbn; lia|].
  destruct k as [|[|k]]; [lia| |].
  - exfalso. apply E. apply Z.div_small. cbn in Hx. lia.
  - assert (length (to_base f base (x / base)) <= S k)%nat; [|lia]. apply IH; [|lia]. split; [apply Z.div_pos; lia|].
    apply Z.div_lt_upper_bound; [lia|]. rewrite <- Z.pow_succ_r by lia. rewrite <- Nat2Z.inj_succ. apply Hx.
Qed.

Lemma to_base_range f base x : 2 <= base -> 0 <= x -> Forall (fun d => 0 <= d < base) (to_base f base x).
Proof.
  intros Hb. revert x. induction f as [|f IH]; intros x Hx; cbn [to_base]; [constructor|]. apply Forall_app. split.
  - destruct (x / base =? 0); [constructor|]. apply IH. apply Z.div_pos; lia.
  - constructor; [|constructor]. apply Z.mod_pos_bound. lia.
Qed.

(** A numeral denotes its number. *)
Lemma of_to_base f base x : 2 <= base -> 0 <= x < base ^ Z.of_nat f -> of_base base (to_base f base x) = x.
Proof.
  intros Hb. revert x. induction f as [|f IH]; intros x Hx; cbn [to_base]; [cbn in *; lia|].
  unfold of_base. rewrite fold_left_app. cbn [fold_left]. destruct (Z.eqb_spec (x / base) 0) as [E|E].
  - cbn [fold_left]. pose proof (Z.div_mod x base). lia.
  - change (fold_left _ (to_base f base (x / base)) 0) with (of_base base (to_base f base (x / base))). rewrite IH.
    + pose proof (Z.div_mod x base). lia.
    + split; [apply Z.div_pos; lia|]. apply Z.div_lt_upper_bound; [lia|]. rewrite <- Z.pow_succ_r, <- Nat2Z.inj_succ by lia. apply Hx.
Qed.

Definition bytes (l : list Z) : Prop := Forall (fun c => 0 <= c < 256) l.

Lemma digit_lookup digits d : 0 <= d < Z.of_nat (length digits) -> digits !! Z.to_nat d = Some (digit digits d).
Proof.
  intros Hd. unfold digit. destruct (lookup_lt_is_Some_2 digits (Z.to_nat d)) as [c Hc]; [lia|]. by rewrite Hc.
Qed.

Lemma digit_byte digits d : bytes digits -> 0 <= digit digits d < 256.
Proof.
  intros Hb. unfold digit. destruct (digits !! Z.to_nat d) eqn:E; cbn; [|lia]. exact (Forall_lookup_1 _ _ _ _ Hb E).
Qed.

(** ** The routines print it *)

Section Prints.
Context {T : Type} (putc : Z -> M T unit) (digits : list Z) (em : list Z -> T -> T).
Hypothesis em_nil : forall s, em [] s = s.
Hypothesis em_app : forall a b s, em b (em a s) = em (a ++ b) s.
Hypothesis putc_ok : forall c s, 0 <= c < 256 -> putc c s = Ret (tt, em [c] s).
Hypothesis digits_len : length digits = 16%nat.
Hypothesis digits_bytes : bytes digits.

Lemma bind_ret {A B} (c : M T A) (k : A -> M T B) s a s' : c s = Ret (a, s') -> (c ≫= k) s = k a s'.
Proof. unfold mbind, M_bind. by intros ->. Qed.

Lemma arr_get_ok {A} (l : list A) i x (s : T) : 0 <= i -> l !! Z.to_nat i = Some x -> arr_get l i s = Ret (x, s).
Proof.
  intros Hi Hl. pose proof (wp_arr_get l i x (fun y s' => y = x /\ s' = s) s Hi Hl (conj eq_refl eq_refl)) as H.
  unfold wp in H. destruct (arr_get l i s) as [[y s']| | | |]; try done. by destruct H as [-> ->].
Qed.

Lemma put_str_ok l s : bytes l -> put_str putc l s = Ret (tt, em l s).
Proof.
  revert s. induction l as [|c l IH]; intros s Hl; cbn [put_str]; [by rewrite em_nil|]. inversion_clear Hl as [|? ? Hc Hl'].
  erewrite bind_ret by (by apply putc_ok). rewrite IH by done. by rewrite em_app.
Qed.

Lemma put_back_ok n buf s : (n <= length buf)%nat -> bytes (take n buf) -> put_back putc n buf s = Ret (tt, em (reverse (take n buf)) s).
Proof.
  revert s. induction n as [|n IH]; intros s Hn Hb; cbn [put_back]; [by rewrite em_nil|].
  destruct (lookup_lt_is_Some_2 buf n) as [c Hc]; [lia|]. rewrite (take_S_r _ _ _ Hc) in Hb |- *.
  apply Forall_app in Hb as [Hb1 Hb2]. inversion_clear Hb2.
  erewrite bind_ret by (apply (arr_get_ok _ _ c); [lia|by rewrite Nat2Z.id]).
  erewrite bind_ret by (by apply putc_ok). rewrite IH by (done || lia). by rewrite em_app, reverse_snoc.
Qed.

Lemma print_digits_ok f base : forall x buf i (s : T),
  2 <= base <= 16 -> 0 <= x < base ^ Z.of_nat f -> (0 < f)%nat -> 0 <= i -> i + Z.of_nat (length (to_base f base x)) <= Z.of_nat (length buf) ->
  exists b, print_digits digits f base x buf i s = Ret ((b, i + Z.of_nat (length (to_base f base x))), s) /\ length b = length buf /\
    take (Z.to_nat i + length (to_base f base x)) b = take (Z.to_nat i) buf ++ reverse (digit digits <$> to_base f base x).
Proof.
  induction f as [|f IH]; intros x buf i s Hb Hx Hf Hi Hlen; [lia|]. cbn [print_digits to_base] in *. rewrite length_app in *. cbn [length] in *.
  pose proof (Z.mod_pos_bound x base ltac:(lia)) as Hm.
  erewrite bind_ret by (apply (arr_get_ok _ _ (digit digits (x mod base))); [lia|apply digit_lookup; lia]).
  rewrite arr_set_ok by lia. cbn [of_arr]. erewrite bind_ret by done.
  set (b1 := <[Z.to_nat i := digit digits (x mod base)]> buf).
  assert (length b1 = length buf) as Hl1 by apply length_insert.
  assert (take (Z.to_nat i + 1) b1 = take (Z.to_nat i) buf ++ [digit digits (x mod base)]) as Ht1.
  { unfold b1. rewrite Nat.add_1_r. erewrite take_S_r by (apply list_lookup_insert_eq; lia). by rewrite take_insert_ge by lia. }
  destruct (Z.eqb_spec (x / base) 0) as [E|E].
  - exists b1. cbn [app length Nat.add]. split; [done|]. split; [done|]. rewrite Ht1. done.
  - assert (0 <= x / base < base ^ Z.of_nat f) as Hx'.
    { split; [apply Z.div_pos; lia|]. apply Z.div_lt_upper_bound; [lia|]. rewrite <- Z.pow_succ_r, <- Nat2Z.inj_succ by lia. apply Hx. }
    assert (0 < f)%nat as Hf'.
    { destruct f; [|lia]. cbn in Hx'. exfalso. lia. }
    destruct (IH (x / base) b1 (i + 1) s Hb Hx' Hf') as (b & Eb & Hlb & Htb); [lia|lia|].
    exists b. rewrite Eb. split; [do 3 f_equal; lia|]. split; [lia|].
    replace (Z.to_nat i + (length (to_base f base (x / base)) + 1))%nat with (Z.to_nat (i + 1) + length (to_base f base (x / base)))%nat by lia.
    rewrite Htb. replace (Z.to_nat (i + 1)) with (Z.to_nat i + 1)%nat by lia. rewrite Ht1, fmap_app, reverse_app, <- app_assoc. done.
Qed.

Lemma numeral_bytes base x : bytes (numeral digits base x).
Proof. apply Forall_fmap, Forall_true. intros d. by apply digit_byte. Qed.

Lemma numeral_take b n l : take n b = reverse l -> bytes l -> bytes (take n b).
Proof. intros -> Hl. by apply Forall_reverse. Qed.

Lemma fits20 base x k : base = 10 \/ base = 16 -> 0 <= x < base ^ Z.of_nat k -> (0 < k <= 20)%nat -> (length (to_base 64 base x) <= k)%nat.
Proof. intros Hb Hx Hk. apply to_base_length; [lia|done|lia]. Qed.

(** The buffer of 20 bytes is enough for every 64-bit number. *)
Lemma printint_ok xx base sign s :
  base = 10 \/ base = 16 -> (sign = true -> base = 10 /\ - 2 ^ 63 < xx) -> - 2 ^ 63 <= xx < 2 ^ 64 ->
  printint putc digits xx base sign s =
  Ret (tt, em (if sign && (xx <? 0) then signed digits xx else numeral digits base (u64 xx)) s).
Proof.
  intros Hb Hsb Hx. unfold printint.
  assert (forall x, 0 <= x < 2 ^ 64 -> 0 <= x < base ^ Z.of_nat 64) as H64 by (intros x Hx'; destruct Hb as [-> | ->]; lia).
  assert (forall x, 0 <= x < 2 ^ 64 -> (length (to_base 64 base x) <= 20)%nat) as H20.
  { intros x Hx'. apply fits20; [done| |lia]. destruct Hb as [-> | ->]; lia. }
  destruct (sign && (xx <? 0)) eqn:En.
  - apply andb_prop in En as [Es Eneg]. apply Z.ltb_lt in Eneg. destruct (Hsb Es) as [-> Hmin].
    rewrite (proj2 (Z.eqb_neq xx (- 2 ^ 63))) by lia. erewrite bind_ret by done.
    assert (length (to_base 64 10 (- xx)) <= 19)%nat as H19 by (apply fits20; [by left|lia|lia]).
    destruct (print_digits_ok 64 10 (- xx) (replicate 20 0) 0 s) as (b & Eb & Hlb & Htb); [lia|lia|lia|lia|rewrite length_replicate; lia|].
    erewrite bind_ret by exact Eb. cbn [fst snd]. rewrite length_replicate in Hlb. rewrite arr_set_ok by lia. cbn [of_arr].
    erewrite bind_ret by (erewrite bind_ret by done; done). cbn [fst snd]. set (n := length (to_base 64 10 (- xx))) in *.
    replace (Z.to_nat (0 + Z.of_nat n + 1)) with (S n) by lia. replace (Z.to_nat (0 + Z.of_nat n)) with n by lia. change (Z.to_nat 0) with O in Htb. rewrite take_0 in Htb. cbn [Nat.add app] in Htb.
    assert (take (S n) (<[n := 45]> b) = reverse (numeral digits 10 (- xx)) ++ [45]) as Ht.
    { erewrite take_S_r by (apply list_lookup_insert_eq; lia). rewrite take_insert_ge by lia. by rewrite Htb. }
    rewrite put_back_ok.
    + rewrite Ht, reverse_snoc, reverse_involutive. unfold signed. by rewrite (proj2 (Z.ltb_lt xx 0) Eneg).
    + rewrite length_insert. lia.
    + rewrite Ht. apply Forall_app. split; [apply Forall_reverse, numeral_bytes|repeat constructor; lia].
  - erewrite bind_ret by done. assert (0 <= u64 xx < 2 ^ 64) as Hu by (unfold u64; apply Z.mod_pos_bound; lia).
    destruct (print_digits_ok 64 base (u64 xx) (replicate 20 0) 0 s) as (b & Eb & Hlb & Htb);
      [lia|by apply H64|lia|lia|rewrite length_replicate; specialize (H20 _ Hu); lia|].
    erewrite bind_ret by exact Eb. erewrite bind_ret by done. cbn [fst snd]. rewrite length_replicate in Hlb. specialize (H20 _ Hu).
    set (n := length (to_base 64 base (u64 xx))) in *. replace (Z.to_nat (0 + Z.of_nat n)) with n by lia. change (Z.to_nat 0) with O in Htb. rewrite take_0 in Htb. cbn [Nat.add app] in Htb.
    rewrite put_back_ok; [|lia|]; rewrite Htb; [by rewrite reverse_involutive|]. apply Forall_reverse, numeral_bytes.
Qed.

Lemma shifted_digit x k : 0 <= x < 2 ^ 64 -> 0 <= k < 15 ->
  Z.shiftr (u64 (Z.shiftl x 4)) (60 - 4 * k) mod 16 = Z.shiftr x (60 - 4 * (k + 1)) mod 16.
Proof.
  intros Hx Hk. unfold u64. change 16 with (2 ^ 4). apply Z.bits_inj'. intros j Hj. destruct (decide (j < 4)).
  - rewrite !Z.mod_pow2_bits_low by lia. rewrite !Z.shiftr_spec by lia. rewrite Z.mod_pow2_bits_low by lia. rewrite Z.shiftl_spec by lia. f_equal. lia.
  - rewrite !Z.mod_pow2_bits_high by lia. done.
Qed.

Lemma ptr_loop_ok n : forall x s, (n <= 16)%nat -> 0 <= x < 2 ^ 64 ->
  ptr_loop putc digits n x s = Ret (tt, em ((fun k => digit digits (Z.shiftr x (60 - 4 * k) mod 16)) <$> seqZ 0 (Z.of_nat n)) s).
Proof.
  induction n as [|n IH]; intros x s Hn Hx; cbn [ptr_loop]; [by rewrite em_nil|].
  assert (0 <= Z.shiftr x 60 < 16) as Hd by (rewrite Z.shiftr_div_pow2 by lia; zdiv).
  erewrite bind_ret by (apply (arr_get_ok _ _ (digit digits (Z.shiftr x 60))); [lia|apply digit_lookup; lia]).
  erewrite bind_ret by (apply putc_ok; by apply digit_byte). rewrite IH; [|lia|unfold u64; apply Z.mod_pos_bound; lia].
  rewrite em_app. f_equal. rewrite (seqZ_cons 0 (Z.of_nat (S n))) by lia. cbn [fmap list_fmap app]. replace (60 - 4 * 0) with 60 by lia.
  rewrite (Z.mod_small (Z.shiftr x 60)) by lia. do 3 f_equal. replace (Z.pred (Z.of_nat (S n))) with (Z.of_nat n) by lia.
  apply list_eq. intros i. rewrite !list_lookup_fmap. destruct (decide (Z.of_nat i < Z.of_nat n)).
  - rewrite !lookup_seqZ_lt by lia. cbn. f_equal. rewrite shifted_digit by lia. do 3 f_equal. lia.
  - by rewrite !lookup_seqZ_ge by lia.
Qed.

Lemma printptr_ok x s : 0 <= x < 2 ^ 64 -> printptr putc digits x s = Ret (tt, em (pointer digits x) s).
Proof.
  intros Hx. unfold printptr. erewrite bind_ret by (apply putc_ok; lia). erewrite bind_ret by (apply putc_ok; lia).
  rewrite ptr_loop_ok by (done || lia). by rewrite !em_app.
Qed.

(** The conversions, whatever [putc] and the digits. *)
Definition print_any (cv : conv) (c0 : Z) (ap : list va) : M T (list va) :=
  let int x base sign := printint putc digits x base sign in
  match cv with
  | CvInt false => '(w, ap) ← va_word ap; int (s32 w) 10 true;; mret ap
  | CvInt true => '(w, ap) ← va_word ap; int (s64 w) 10 true;; mret ap
  | CvUint false => '(w, ap) ← va_word ap; int (u32 w) 10 false;; mret ap
  | CvUint true => '(w, ap) ← va_word ap; int (s64 w) 10 false;; mret ap
  | CvHex false => '(w, ap) ← va_word ap; int (u32 w) 16 false;; mret ap
  | CvHex true => '(w, ap) ← va_word ap; int (s64 w) 16 false;; mret ap
  | CvPtr => '(w, ap) ← va_word ap; printptr putc digits (u64 w);; mret ap
  | CvChar => '(w, ap) ← va_word ap; putc (u32 w);; mret ap
  | CvStr => '(s, ap) ← va_str ap; put_str putc s;; mret ap
  | CvPct => putc 37;; mret ap
  | CvEnd => mret ap
  | CvUnknown => putc 37;; putc c0;; mret ap
  end.

Definition va_ok (v : va) : Prop := match v with VWord w => 0 <= w < 2 ^ 64 | VStr s => bytes (default null_text s) end.

Lemma s64_range w : - 2 ^ 63 <= s64 w < 2 ^ 63.
Proof. unfold s64. pose proof (Z.mod_pos_bound (w + 2 ^ 63) (2 ^ 64)). lia. Qed.
Lemma s32_range w : - 2 ^ 31 <= s32 w < 2 ^ 31.
Proof. unfold s32. pose proof (Z.mod_pos_bound (w + 2 ^ 31) (2 ^ 32)). lia. Qed.
Lemma u64_s64 w : u64 (s64 w) = u64 w.
Proof. unfold u64, s64. rewrite Zminus_mod_idemp_l. f_equal. lia. Qed.
Lemma u32_range w : 0 <= u32 w < 2 ^ 32.
Proof. apply Z.mod_pos_bound. lia. Qed.
Lemma u64_range w : 0 <= u64 w < 2 ^ 64.
Proof. apply Z.mod_pos_bound. lia. Qed.

Lemma signed_ok xx s : - 2 ^ 63 < xx < 2 ^ 63 -> printint putc digits xx 10 true s = Ret (tt, em (signed digits xx) s).
Proof.
  intros Hx. rewrite printint_ok by (lia || auto). cbn [andb]. unfold signed. destruct (Z.ltb_spec xx 0); [done|].
  unfold u64. by rewrite Z.mod_small by lia.
Qed.

Lemma print_any_ok cv c0 ap t ap' s : text digits cv c0 ap = Some (t, ap') -> Forall va_ok ap -> 0 <= c0 < 256 ->
  print_any cv c0 ap s = Ret (ap', em t s) /\ Forall va_ok ap'.
Proof.
  intros Ht Hap Hc0.
  assert (forall w ap1 (c : Z -> M T unit) o, c w s = Ret (tt, em o s) ->
    ((va_word (VWord w :: ap1) : M T (Z * list va)) ≫= fun '(w, ap) => c w;; mret ap) s = Ret (ap1, em o s)) as Hword.
  { intros w ap1 c o Hc. cbn [va_word]. erewrite bind_ret by done. cbn beta iota. by erewrite bind_ret by exact Hc. }
  destruct cv as [long|long|long| | | | | |]; cbn [text] in Ht; try (destruct ap as [|[w|str] ap]; [discriminate Ht| |]; try discriminate Ht);
    try (inversion_clear Hap as [|? ? Hw Hap']; cbn [va_ok] in Hw).
  - destruct (Z.eqb_spec (if long then s64 w else s32 w) (- 2 ^ 63)); [done|]. injection Ht as <- <-. split; [|done].
    pose proof (s64_range w). pose proof (s32_range w). destruct long; apply Hword, signed_ok; lia.
  - injection Ht as <- <-. split; [|done]. pose proof (s64_range w). pose proof (u32_range w). destruct long; apply Hword; (rewrite printint_ok by (lia || auto || done)); cbn [andb].
    + by rewrite u64_s64.
    + unfold u64. by rewrite Z.mod_small by lia.
  - injection Ht as <- <-. split; [|done]. pose proof (s64_range w). pose proof (u32_range w). destruct long; apply Hword; (rewrite printint_ok by (lia || auto || done)); cbn [andb].
    + by rewrite u64_s64.
    + unfold u64. by rewrite Z.mod_small by lia.
  - injection Ht as <- <-. split; [|done]. apply Hword, printptr_ok, u64_range.
  - destruct (Z.ltb_spec (u32 w) 256); [|done]. injection Ht as <- <-. split; [|done]. apply (Hword w ap (fun w => putc (u32 w))), putc_ok. pose proof (u32_range w). lia.
  - injection Ht as <- <-. split; [|done]. cbn [print_any va_str]. erewrite bind_ret by done. cbn beta iota. by erewrite bind_ret by (by apply put_str_ok).
  - injection Ht as <- <-. split; [|done]. cbn [print_any]. by erewrite bind_ret by (apply putc_ok; lia).
  - injection Ht as <- <-. split; [|done]. cbn [print_any]. erewrite bind_ret by (apply putc_ok; lia). erewrite bind_ret by (by apply putc_ok). by rewrite em_app.
Qed.
End Prints.

(** ** The two loops *)

Definition fmt_ok (fmt : list Z) : Prop := Forall (fun c => 0 < c < 256) fmt.

Lemma fmt_at_ok {T} fmt (i k : nat) (s : T) : (i + k <= length fmt)%nat -> fmt_at fmt (Z.of_nat i + Z.of_nat k) s = Ret (char_at (drop i fmt) k, s).
Proof.
  intros Hi. unfold fmt_at, char_at. rewrite lookup_drop. apply arr_get_ok; [lia|].
  replace (Z.to_nat (Z.of_nat i + Z.of_nat k)) with (i + k)%nat by lia. destruct (decide (i + k < length fmt)%nat).
  - destruct (lookup_lt_is_Some_2 fmt (i + k)) as [c Hc]; [done|]. rewrite lookup_app_l, Hc by done. done.
  - rewrite lookup_app_r by lia. rewrite (lookup_ge_None_2 fmt) by lia. by replace (i + k - length fmt)%nat with 0%nat by lia.
Qed.

Lemma char_at_nz fmt i k : fmt_ok fmt -> char_at (drop i fmt) k <> 0 <-> (i + k < length fmt)%nat.
Proof.
  intros Hf. unfold char_at. rewrite lookup_drop. destruct (fmt !! (i + k)%nat) as [c|] eqn:E; cbn.
  - pose proof (lookup_lt_Some _ _ _ E). pose proof (Forall_lookup_1 _ _ _ _ Hf E) as Hc'. cbn beta in Hc'. lia.
  - apply lookup_ge_None in E. lia.
Qed.

(** The character [k] places on is read if the one before it is not the end. *)
Lemma next_char {T} fmt (i k : nat) (s : T) : fmt_ok fmt -> (i + k <= length fmt)%nat ->
  (if negb (char_at (drop i fmt) k =? 0) then fmt_at fmt (Z.of_nat i + Z.of_nat (S k)) else mret 0) s = Ret (char_at (drop i fmt) (S k), s).
Proof.
  intros Hf Hk. pose proof (char_at_nz fmt i k Hf) as Hnz. destruct (Z.eqb_spec (char_at (drop i fmt) k) 0) as [E|E]; cbn [negb].
  - unfold char_at. rewrite lookup_drop, lookup_ge_None_2; [done|]. destruct (decide (i + k < length fmt)%nat) as [H|H]; [|lia]. by apply Hnz in H.
  - apply fmt_at_ok. apply Hnz in E. lia.
Qed.

(** A conversion takes only characters that are there. *)
Lemma conversion_len c0 c1 c2 cv n : conversion c0 c1 c2 = (cv, n) -> (n = 0 \/ (n = 1 /\ c1 <> 0) \/ (n = 2 /\ c1 <> 0 /\ c2 <> 0)).
Proof.
  unfold conversion. intros H.
  repeat match type of H with (if ?b then _ else _) = _ => let E := fresh "E" in destruct b eqn:E; [injection H as _ <-; lia|] end.
  injection H as _ <-. lia.
Qed.

Lemma conversion_end c0 c1 c2 cv n : conversion c0 c1 c2 = (cv, n) -> cv = CvEnd -> c0 = 0.
Proof.
  unfold conversion. intros H E0. subst cv.
  repeat match type of H with (if ?b then _ else _) = _ => let E := fresh "E" in destruct b eqn:E; [discriminate H || lia|] end.
  discriminate H.
Qed.

Lemma uconversion_eq c0 c1 c2 : c0 <> 0 -> uconversion c0 c1 c2 = conversion c0 c1 c2.
Proof. intros H. unfold uconversion, conversion. by rewrite (proj2 (Z.eqb_neq c0 0) H). Qed.

Lemma drop_nil_inv (fmt : list Z) i : drop i fmt = [] -> (length fmt <= i)%nat.
Proof. intros E. apply (f_equal length) in E. rewrite length_drop in E. cbn in E. lia. Qed.

Lemma drop_cons_inv (fmt : list Z) i c rest : drop i fmt = c :: rest -> (i < length fmt)%nat /\ char_at (drop i fmt) 0 = c /\ rest = drop (S i) fmt.
Proof.
  intros E. pose proof (f_equal length E) as El. rewrite length_drop in El. cbn in El. split_and!; [lia|by rewrite E|].
  replace (S i) with (i + 1)%nat by lia. by rewrite <- drop_drop, E.
Qed.

(** The [if] chain finds the directive of the table. *)
Lemma conversion_directive c0 r : c0 <> 0 ->
  let '(cv, n) := conversion c0 (char_at (c0 :: r) 1) (char_at (c0 :: r) 2) in directive directives (c0 :: r) = (cv, (Z.to_nat n + 1)%nat).
Proof.
  intros H0. unfold conversion. change (char_at (c0 :: r) 1) with (char_at r 0). change (char_at (c0 :: r) 2) with (char_at r 1).
  unfold directive, directives, starts_with. rewrite !(Z.eqb_sym _ c0).
  assert (forall x, x <> 0 -> match r with [] => false | b :: _ => (x =? b) && true end = (char_at r 0 =? x)) as E1.
  { intros x Hx. destruct r as [|b r']; [symmetry; apply (proj2 (Z.eqb_neq 0 x)); lia|]. by rewrite andb_true_r, Z.eqb_sym. }
  assert (forall x y, x <> 0 -> y <> 0 -> match r with [] => false | b :: l => (x =? b) && match l with [] => false | b' :: _ => (y =? b') && true end end
    = (char_at r 0 =? x) && (char_at r 1 =? y)) as E2.
  { intros x y Hx Hy. destruct r as [|b [|b' r']].
    - change (char_at [] 0) with 0. by rewrite (proj2 (Z.eqb_neq 0 x)) by lia.
    - change (char_at [b] 1) with 0. by rewrite andb_false_r, (proj2 (Z.eqb_neq 0 y)), andb_false_r by lia.
    - by rewrite andb_true_r, (Z.eqb_sym x), (Z.eqb_sym y). }
  rewrite !E1, !E2 by lia. rewrite !andb_true_r, !andb_assoc, (proj2 (Z.eqb_neq c0 0) H0).
  repeat match goal with |- context [if ?b then _ else _] => destruct b; [reflexivity|] end. reflexivity.
Qed.

(** One directive of [render], from the index [i] of its first character. *)
Lemma render_directive f digits fmt i ap o : fmt_ok fmt -> (i < length fmt)%nat ->
  render (S f) digits (37 :: drop i fmt) ap = Some o ->
  exists cv (n : nat) t ap' o',
    conversion (char_at (drop i fmt) 0) (char_at (drop i fmt) 1) (char_at (drop i fmt) 2) = (cv, Z.of_nat n) /\ cv <> CvEnd /\
    (i + n + 1 <= length fmt)%nat /\ text digits cv (char_at (drop i fmt) 0) ap = Some (t, ap') /\
    render f digits (drop (i + n + 1) fmt) ap' = Some o' /\ o = t ++ o'.
Proof.
  intros Hf Hi H. assert (exists c0 r, drop i fmt = c0 :: r) as (c0 & r & Er).
  { destruct (drop i fmt) as [|c0 r] eqn:E; [apply drop_nil_inv in E; lia|eauto]. }
  cbn [render] in H. change (negb (37 =? 37)) with false in H. cbv iota in H. rewrite Er in H. rewrite <- Er in H.
  destruct (drop_cons_inv _ _ _ _ Er) as (_ & E0 & _). rewrite <- E0 in H.
  assert (c0 <> 0) as H0 by (rewrite <- E0; apply (char_at_nz fmt i 0 Hf); lia).
  pose proof (conversion_directive c0 r H0) as Hd. rewrite <- Er, <- E0 in Hd.
  destruct (conversion _ _ _) as [cv n] eqn:Ec. pose proof (conversion_len _ _ _ _ _ Ec) as Hn. rewrite Hd in H.
  destruct (text _ _ _ _) as [[t ap']|] eqn:Et; [|done]. cbn in H. destruct (render _ _ _ ap') as [o'|] eqn:Eo; [|done]. cbn in H. injection H as <-.
  exists cv, (Z.to_nat n), t, ap', o'. rewrite !(char_at_nz fmt i _ Hf) in Hn. split_and!.
  - by rewrite Z2Nat.id by lia.
  - intros E. apply (conversion_end _ _ _ _ _ Ec) in E. by apply (char_at_nz fmt i 0 Hf); [lia|].
  - lia.
  - done.
  - by rewrite drop_drop, Nat.add_assoc in Eo.
  - done.
Qed.

Lemma lower_ok : length lower = 16%nat /\ bytes lower.
Proof. split; [reflexivity|]. unfold bytes. repeat constructor; lia. Qed.
Lemma upper_ok : length upper = 16%nat /\ bytes upper.
Proof. split; [reflexivity|]. unfold bytes. repeat constructor; lia. Qed.

Lemma emit_nil s : emit [] s = s.
Proof. destruct s. unfold emit. cbn. by rewrite app_nil_r. Qed.
Lemma emit_app a b s : emit b (emit a s) = emit (a ++ b) s.
Proof. unfold emit. cbn. by rewrite app_assoc. Qed.
Lemma consputc_ok c s : 0 <= c < 256 -> consputc c s = Ret (tt, emit [c] s).
Proof. intros Hc. unfold consputc, modify. rewrite (proj2 (Z.eqb_neq c 256)) by lia. unfold u8. by rewrite Z.mod_small by (cbn; lia). Qed.
Lemma putc_ok c (s : list Z) : 0 <= c < 256 -> putc c s = Ret (tt, s ++ [c]).
Proof. intros Hc. unfold putc, modify, u8. by rewrite Z.mod_small by (cbn; lia). Qed.

Lemma printf_loop_ok : forall f fmt i ap o s, fmt_ok fmt -> Forall va_ok ap -> (i <= length fmt)%nat ->
  render f lower (drop i fmt) ap = Some o -> printf_loop f fmt (Z.of_nat i) ap s = Ret (tt, emit o s).
Proof.
  induction f as [|f IH]; intros fmt i ap o s Hf Hap Hi Hr; [done|]. cbn [printf_loop].
  erewrite bind_ret by (rewrite <- (Z.add_0_r (Z.of_nat i)); apply (fmt_at_ok fmt i 0); lia).
  destruct (drop i fmt) as [|c rest] eqn:Ed.
  { injection Hr as <-. cbn. by rewrite emit_nil. }
  destruct (drop_cons_inv _ _ _ _ Ed) as (Hlt & Ec & ->). rewrite <- Ed, Ec.
  assert (0 < c < 256) as Hc by (apply (Forall_lookup_1 _ _ i c Hf); rewrite <- (Nat.add_0_r i), <- lookup_drop, Ed; done).
  rewrite (proj2 (Z.eqb_neq c 0)) by lia. destruct (Z.eqb_spec c 37) as [->|Hne]; cbn [negb].
  2: { cbn [render] in Hr. rewrite (proj2 (Z.eqb_neq c 37) Hne) in Hr. cbn [negb] in Hr. destruct (render f _ _ ap) as [o'|] eqn:Eo; [|done].
    cbn in Hr. injection Hr as <-. erewrite bind_ret by (apply consputc_ok; lia). replace (Z.of_nat i + 1) with (Z.of_nat (S i)) by lia.
    rewrite (IH fmt (S i) ap o') by (done || lia). by rewrite emit_app. }
  replace (Z.of_nat i + 1) with (Z.of_nat (S i)) by lia.
  erewrite bind_ret by (rewrite <- (Z.add_0_r (Z.of_nat (S i))); apply (fmt_at_ok fmt (S i) 0); lia).
  erewrite bind_ret by (apply (next_char fmt (S i) 0); [done|lia]).
  destruct (decide (S i < length fmt)%nat) as [Hlt'|Hge].
  - erewrite bind_ret by (apply (next_char fmt (S i) 1); [done|lia]).
    destruct (render_directive f lower fmt (S i) ap o Hf Hlt' Hr) as (cv & n & t & ap' & o' & -> & Hcv & Hn & Ht & Ho & ->).
    assert (0 <= char_at (drop (S i) fmt) 0 < 256) as Hc0.
    { unfold char_at. rewrite lookup_drop. destruct (fmt !! _) eqn:E; cbn; [|lia]. pose proof (Forall_lookup_1 _ _ _ _ Hf E) as Hc'. cbn beta in Hc'. lia. }
    destruct (print_any_ok consputc lower emit emit_nil emit_app consputc_ok (proj1 lower_ok) (proj2 lower_ok) cv _ ap t ap' s Ht Hap Hc0) as [Hp Hap'].
    assert ((print_conv cv (char_at (drop (S i) fmt) 0) ap ≫= fun ap => printf_loop f fmt (Z.of_nat (S i) + Z.of_nat n + 1) ap) s =
      Ret (tt, emit (t ++ o') s)) as Hgo.
    { erewrite bind_ret by exact Hp. replace (Z.of_nat (S i) + Z.of_nat n + 1) with (Z.of_nat (S i + n + 1)) by lia.
      rewrite (IH fmt (S i + n + 1)%nat ap' o') by (done || lia). by rewrite emit_app. }
    destruct cv; (exact Hgo || done).
  - assert (drop (S i) fmt = []) as Ed2 by (apply drop_ge; lia). rewrite Ed2 in Hr |- *. injection Hr as <-. cbn. by rewrite emit_nil.
Qed.

Lemma vprintf_loop_ok : forall f g fmt i ap o (s : list Z), fmt_ok fmt -> Forall va_ok ap -> (i <= length fmt)%nat -> (length fmt - i < g)%nat ->
  render f upper (drop i fmt) ap = Some o -> vprintf_loop g fmt (Z.of_nat i) 0 ap s = Ret (tt, s ++ o).
Proof.
  induction f as [|f IH]; intros g fmt i ap o s Hf Hap Hi Hg Hr; [done|]. destruct g as [|g]; [lia|]. cbn [vprintf_loop].
  assert (forall c, 0 < c < 256 -> Z.land c 255 = c) as Hland by (intros c Hc; change 255 with (Z.ones 8); rewrite Z.land_ones by lia; apply Z.mod_small; lia).
  erewrite bind_ret by (rewrite <- (Z.add_0_r (Z.of_nat i)); apply (fmt_at_ok fmt i 0); lia).
  destruct (drop i fmt) as [|c rest] eqn:Ed.
  { injection Hr as <-. cbn. by rewrite app_nil_r. }
  destruct (drop_cons_inv _ _ _ _ Ed) as (Hlt & Ec & ->). rewrite <- Ed, Ec.
  assert (0 < c < 256) as Hc by (apply (Forall_lookup_1 _ _ i c Hf); rewrite <- (Nat.add_0_r i), <- lookup_drop, Ed; done).
  rewrite (proj2 (Z.eqb_neq c 0)), Hland by lia. cbn [Z.eqb]. replace (Z.of_nat i + 1) with (Z.of_nat (S i)) by lia.
  destruct (Z.eqb_spec c 37) as [->|Hne].
  2: { cbn [render] in Hr. rewrite (proj2 (Z.eqb_neq c 37) Hne) in Hr. cbn [negb] in Hr. destruct (render f _ _ ap) as [o'|] eqn:Eo; [|done].
    cbn in Hr. injection Hr as <-. erewrite bind_ret by (apply putc_ok; lia).
    rewrite (IH g fmt (S i) ap o') by (done || lia). by rewrite <- app_assoc. }
  destruct g as [|g]; [lia|]. cbn [vprintf_loop]. erewrite bind_ret by (rewrite <- (Z.add_0_r (Z.of_nat (S i))); apply (fmt_at_ok fmt (S i) 0); lia).
  destruct (decide (S i < length fmt)%nat) as [Hlt'|Hge].
  - assert (0 < char_at (drop (S i) fmt) 0 < 256) as Hc0.
    { unfold char_at. rewrite lookup_drop, Nat.add_0_r. destruct (lookup_lt_is_Some_2 fmt (S i) Hlt') as [c0 E]. rewrite E. exact (Forall_lookup_1 _ _ _ _ Hf E). }
    rewrite (proj2 (Z.eqb_neq (char_at (drop (S i) fmt) 0) 0)), Hland by lia. cbn [Z.eqb Pos.eqb].
    erewrite bind_ret by (apply (next_char fmt (S i) 0); [done|lia]). erewrite bind_ret by (apply (next_char fmt (S i) 1); [done|lia]).
    destruct (render_directive f upper fmt (S i) ap o Hf Hlt' Hr) as (cv & n & t & ap' & o' & Hcv & Hend & Hn & Ht & Ho & ->).
    rewrite uconversion_eq, Hcv by lia.
    destruct (print_any_ok putc upper (fun l s => s ++ l) (@app_nil_r Z) (fun a b s => eq_sym (app_assoc s a b)) putc_ok (proj1 upper_ok) (proj2 upper_ok)
      cv _ ap t ap' s Ht Hap ltac:(lia)) as [Hp Hap'].
    assert (vprint_conv cv (char_at (drop (S i) fmt) 0) ap s = Ret (ap', s ++ t)) as Hp' by (destruct cv; (exact Hp || done)).
    erewrite bind_ret by exact Hp'. replace (Z.of_nat (S i) + Z.of_nat n + 1) with (Z.of_nat (S i + n + 1)) by lia.
    rewrite (IH g fmt (S i + n + 1)%nat ap' o') by (done || lia). by rewrite <- app_assoc.
  - assert (drop (S i) fmt = []) as Ed2 by (apply drop_ge; lia). rewrite Ed2 in Hr |- *. injection Hr as <-. cbn. by rewrite app_nil_r.
Qed.

(** ** Theorems *)

(** C34: the two [printf]s mean the same.  For a format and arguments that fit
    it, the kernel's [printf] sends to the console, and the C library's
    [vprintf] writes, the text [render] gives the format: literal characters
    as they are, %d, %u, %x, %p, %c, %s and their long forms as the text of
    the next argument, an unknown conversion as it stands, a lone final %
    as nothing; they differ only in the case of hexadecimal digits.  Neither
    overruns the buffer of [printint], reads past the format, or fails to
    end, and the kernel leaves its lock and the interrupt state as they
    were. *)
Theorem printf_vprintf_render fmt ap s out o o' :
  fmt_ok fmt -> Forall va_ok ap ->
  render (S (length fmt)) lower fmt ap = Some o -> render (S (length fmt)) upper fmt ap = Some o' ->
  (panicking s = 0 -> lk_locked (pr_lock s) = 0 /\ hart_ok (hart_of s)) ->
  wp (printf fmt ap) (fun r s' => r = 0 /\ pr_out s' = pr_out s ++ o /\ hart_same (hart_of s) (hart_of s') /\
    (panicking s = 0 -> lk_locked (pr_lock s') = 0)) s /\
  vprintf fmt ap out = Ret (tt, out ++ o').
Proof.
  intros Hf Hap Ho Ho' Hlk. split.
  - unfold printf. wp_step. apply wp_gets. destruct (Z.eqb_spec (panicking s) 0) as [Ep|Ep].
    + destruct (Hlk Ep) as [Hl Hh]. wp_step. apply wp_acquire_in; [done|]. wp_step. set (s1 := set_pr_lock _ _).
      eapply wp_eq; [apply (printf_loop_ok _ fmt 0 ap o s1); (done || lia)|]. wp_step.
      destruct (pop_push_off (hart_of s) (push_off (hart_of s)) Hh) as (h & Eh & Sh); [done|].
      eapply (wp_release_in _ _ _ _ h); [done|done|exact Eh|]. wp_step. cbn. done.
    + wp_step. wp_step. wp_step. eapply wp_eq; [apply (printf_loop_ok _ fmt 0 ap o s); (done || lia)|]. wp_step. wp_step. wp_step. done.
  - unfold vprintf. apply (vprintf_loop_ok (S (length fmt)) (S (length fmt)) fmt 0 ap o' out); (done || lia).
Qed.

(** "x=%d %lx%%" with -3 and 255. *)
Abbreviation demo_fmt := [120; 61; 37; 100; 32; 37; 108; 120; 37; 37].
Abbreviation demo_args := [VWord (2 ^ 64 - 3); VWord 255].
Abbreviation demo_prst := (mkPrst (mkMach (mkHart 1 0 false true) ∅) (mkLock EmptyString 0 0) 0 []).

Lemma printf_vprintf_render_witness :
  wp (printf demo_fmt demo_args) (fun r s' => r = 0 /\ pr_out s' = pr_out demo_prst ++ [120; 61; 45; 51; 32; 102; 102; 37] /\
    hart_same (hart_of demo_prst) (hart_of s') /\ (panicking demo_prst = 0 -> lk_locked (pr_lock s') = 0)) demo_prst /\
  vprintf demo_fmt demo_args [] = Ret (tt, [] ++ [120; 61; 45; 51; 32; 70; 70; 37]).
Proof.
  refine (printf_vprintf_render demo_fmt demo_args demo_prst [] _ _ _ _ _ _ _).
  - unfold fmt_ok. repeat constructor; lia.
  - repeat constructor; cbn; lia.
  - vm_compute. reflexivity.
  - vm_compute. reflexivity.
  - intros _. split; [reflexivity|]. repeat split; done.
Defined.

(** ** Numbers come back *)

Lemma fold_digits_le l n : Forall (fun d => 0 <= d < 10) l -> 0 <= n -> n <= fold_left (fun v d => v * 10 + d) l n.
Proof.
  revert n. induction l as [|d l IH]; intros n Hl Hn; cbn [fold_left]; [lia|]. inversion_clear Hl as [|? ? Hd Hl'].
  specialize (IH (n * 10 + d) Hl' ltac:(lia)). lia.
Qed.

Lemma s32_s32_sub x y : s32 (s32 x - y) = s32 (x - y).
Proof. unfold s32. zdiv. Qed.

Lemma s32_s32_add x y : s32 (s32 x + y) = s32 (x + y).
Proof. unfold s32. zdiv. Qed.

(** [atoi] on the digits [l] followed by something else. *)
Lemma atoi_loop_digits l : forall m p n,
  Forall (fun d => 0 <= d < 10) l -> 0 <= n -> fold_left (fun v d => v * 10 + d) l n < 2 ^ 31 ->
  (forall k d, l !! k = Some d -> rdb m (p + Z.of_nat k) = 48 + d) -> is_digit (rdb m (p + Z.of_nat (length l))) = false ->
  atoi_loop (S (length l)) m p n = Some (fold_left (fun v d => v * 10 + d) l n).
Proof.
  induction l as [|d l IH]; intros m p n Hl Hn Hv Hm Hend; cbn [atoi_loop length fold_left] in *.
  - rewrite Z.add_0_r in Hend. by rewrite Hend.
  - inversion_clear Hl as [|? ? Hd Hl']. pose proof (Hm 0%nat d eq_refl) as H0. rewrite Z.add_0_r in H0. rewrite H0.
    assert (is_digit (48 + d) = true) as -> by (unfold is_digit; lia).
    pose proof (fold_digits_le l (n * 10 + d) Hl' ltac:(lia)) as Hle.
    assert (s32 (s32 (s32 (n * 10) + (48 + d)) - 48) = n * 10 + d) as ->.
    { rewrite s32_s32_add, s32_s32_sub. replace (n * 10 + (48 + d) - 48) with (n * 10 + d) by lia. apply s32_small. lia. }
    apply IH; [done|lia|done| |].
    + intros k d' Hk. specialize (Hm (S k) d' Hk). rewrite <- Hm. f_equal. lia.
    + rewrite <- Hend. do 2 f_equal. lia.
Qed.

Lemma numeral_digits digits x k c : (digits = lower \/ digits = upper) -> 0 <= x -> numeral digits 10 x !! k = Some c ->
  exists d, to_base 64 10 x !! k = Some d /\ c = 48 + d.
Proof.
  intros Hd Hx Hk. unfold numeral in Hk. rewrite list_lookup_fmap in Hk. destruct (to_base 64 10 x !! k) as [d|] eqn:E; [|done]. cbn in Hk.
  injection Hk as <-. exists d. split; [done|]. pose proof (Forall_lookup_1 _ _ _ _ (to_base_range 64 10 x ltac:(lia) Hx) E) as Hr. cbn beta in Hr.
  unfold digit. assert (digits !! Z.to_nat d = Some (48 + d)) as ->; [|done].
  assert (d = 0 \/ d = 1 \/ d = 2 \/ d = 3 \/ d = 4 \/ d = 5 \/ d = 6 \/ d = 7 \/ d = 8 \/ d = 9) as Hc by lia.
  destruct Hd as [-> | ->]; repeat destruct Hc as [->|Hc]; try reflexivity; by subst d.
Qed.

(** Printing and reading back.  For every non-negative [int], what
    [printf("%d", x)] of the C library writes, stored in memory before any
    byte that is not a digit, is read back as [x] by [atoi]. *)
Theorem atoi_inverts_printf x m p :
  0 <= x < 2 ^ 31 ->
  exists t, vprintf [37; 100] [VWord x] [] = Ret (tt, t) /\
    ((forall k c, t !! k = Some c -> rdb m (p + Z.of_nat k) = c) -> is_digit (rdb m (p + Z.of_nat (length t))) = false ->
     atoi (S (length t)) m p = Some x).
Proof.
  intros Hx. exists (numeral upper 10 x). split.
  - unfold vprintf. apply (vprintf_loop_ok 3 3 [37; 100] 0 [VWord x] (numeral upper 10 x) []); [unfold fmt_ok; repeat constructor; lia|repeat constructor; cbn; lia|cbn; lia|cbn; lia|].
    change (render 3 upper (drop 0 [37; 100]) [VWord x]) with ('(t, ap) ← text upper (CvInt false) 100 [VWord x]; app t <$> render 2 upper [] ap).
    cbn [text].
    rewrite s32_small by lia. rewrite (proj2 (Z.eqb_neq x (- 2 ^ 63))) by lia. unfold signed. rewrite (proj2 (Z.ltb_ge x 0)) by lia.
    cbn. by rewrite app_nil_r.
  - intros Hm Hend. unfold atoi, numeral in *. rewrite length_fmap in *.
    rewrite (atoi_loop_digits (to_base 64 10 x)); [f_equal; apply (of_to_base 64 10 x); lia|apply to_base_range; lia| |  | |done].
    + lia.
    + change (of_base 10 (to_base 64 10 x) < 2 ^ 31). rewrite of_to_base by lia. lia.
    + intros k d Hk. destruct (numeral_digits upper x k (digit upper d) (or_intror eq_refl)) as (d' & Hd' & E); [lia|unfold numeral; by rewrite list_lookup_fmap, Hk|].
      rewrite Hk in Hd'. injection Hd' as <-. rewrite <- E. apply Hm. by rewrite list_lookup_fmap, Hk.
Qed.

Lemma atoi_inverts_printf_witness :
  exists t, vprintf [37; 100] [VWord 42] [] = Ret (tt, t) /\
    ((forall k c, t !! k = Some c -> rdb (stb (stb ∅ 0 52) 1 50) (0 + Z.of_nat k) = c) ->
     is_digit (rdb (stb (stb ∅ 0 52) 1 50) (0 + Z.of_nat (length t))) = false -> atoi (S (length t)) (stb (stb ∅ 0 52) 1 50) 0 = Some 42).
Proof. exact (atoi_inverts_printf 42 (stb (stb ∅ 0 52) 1 50) 0 ltac:(lia)). Defined.
